(* ===== verification/_CoqProject ===== *)
-Q . S2P
Prelude.v
Heap.v
CString.v
Time.v
Critical.v
Queue.v
Yield.v
Sem.v
Ev.v
Base64.v
Words.v
Sha.v
Frames.v
Checksum.v
ByteQueue.v
Net.v
Arp.v
Ip.v
Icmp.v
Udp.v
Tcp.v
Stack.v
NetSpec.v
TcpSpec.v
Stdio.v
Double.v
Printf.v
PrintSpec.v
ScanSpec.v
Ffs.v
DhcpFrame.v
Dhcp.v
Mdns.v
Stream.v
Websocket.v
WebSpec.v
Http.v
HttpSpec.v
HttpWs.v
Website.v
UsbDesc.v
UsbCore.v
UsbEem.v
UsbVcp.v
Swi2c.v
Flash.v
TwoWire.v
Eeprom.v
RegChip.v
Nau7802.v
Husb238.v
Aip650e.v
