(* ===== verification/Prelude.v ===== *)
(** * A verification of the STM32F401 firmware with cooperative multitasking

    The program is the firmware of a microcontroller board that shows up on USB
    as a network interface and a serial port.  It consists of a small operating
    system (heap, cooperative scheduler, semaphores, queues, events, time: sys/),
    a network stack (Ethernet, ARP, IP, ICMP, UDP, TCP: net/tcpip/), servers on
    top of it (DHCP, mDNS, HTTP, web sockets: net/), a read-only file system
    (ffs/) with a web site and an interface for programs (www/), utilities (util/)
    and device drivers (dev/, stm32f401/, arch/).  Tasks run until they call
    [Yield]; the scheduler then takes the next one of a ring.  Ethernet frames
    come in USB transfers; the reception task runs them up the stack into socket
    queues; the servers, user tasks and the output tasks of the stack run frames
    down into transmission buffers, which are packed into transfers again.

    ** Files

    Each file opens with what it models; definitions carry the names of the C
    functions they translate.

    - Prelude: machine words, the result type with its faults, byte memory,
      automation (this file)
    - Heap: sys/src/heap.c over a typed store of block headers
    - CString: util/src/string.c over byte memory
    - Time: sys/src/time.c, sys/time.h, sys/src/sleep.c
    - Critical: sys/critical.h, sys/atomic.h
    - Queue, ByteQueue: sys/src/queue.c, and its laws for queues of bytes as a
      type class, against which the sockets are verified
    - Yield: sys/src/yield.c, the ring of tasks
    - Sem, Ev: sys/src/sem.c, sys/src/ev.c
    - Words: util/endian.h, util/msblsb.h, util/bit.h, lfsr32.c, jenkins.c
    - Base64, Sha: util/src/base64.c, sha1.c, sha2.c
    - Frames, Checksum: the header accessors net/tcpip/*_frame.h and the
      checksums of IP, ICMP, UDP and TCP
    - Net, Arp, Ip, Icmp, Udp: the state of the stack, buffers and addresses,
      address resolution, IP output, echo requests, UDP sockets
    - Tcp, TcpSpec: tcp.c and tcp_sock.c; what the sockets guarantee
    - Stack, NetSpec: a frame on its way up the stack, and what one board sends
      the other takes
    - Stdio, Double, Printf: util/src/stdio.c - its parts, floating point numbers,
      the formatted functions; PrintSpec, ScanSpec: what they print and scan
    - Ffs: ffs/src/ffs.c
    - DhcpFrame, Dhcp: net/dhcp/src/frame.c and server.c
    - Mdns: net/mdns/src/frame.c and server.c
    - Stream: programs over a connection that gives and takes any number of bytes
      at a time, with the memory of the program - what websocket.c and
      uhttpsrv.c are given as functions of a socket
    - Websocket, WebSpec: net/websocket/src/websocket.c, and what it guarantees
    - Http, HttpSpec: net/uhttpsrv/src/uhttpsrv.c, and what it guarantees
    - HttpWs: net/uhttpsrv/src/ws.c, the web sockets of the HTTP server
    - Website: www/src/website.c and www/src/api.c over the server and the files
    - UsbDesc, UsbCore: dev/src/usb_desc.c; dev/src/usb_core.c with the transfers
      of endpoint 0 in dev/src/usb.c and the requests of dev/src/usb_vcp.c
    - UsbEem: dev/src/usb_eem.c, Ethernet frames in USB transfers
    - UsbVcp: the tasks and calls of dev/src/usb_vcp.c, two streams of bytes through
      the queues
    - Flash: dev/src/flash.c, erasing and programming of the flash memory
    - Swi2c: dev/src/swi2c.c, a two-wire bus on two pins, against any device
    - TwoWire: the bus as an interface of the drivers of chips, with the lines and
      whole bytes as instances, and what carries over from one to the other
    - Eeprom, RegChip, Nau7802, Husb238, Aip650e: the chips of dev/src/eeprom.c,
      nau7802.c, husb238.c and aip650e.c, drivers and devices

    ** Conventions

    An integer of the code is a [Z] that is wrapped where C wraps it ([u8] ...
    [u32], [s32]); the negation of the most negative number, which print_int does
    not avoid, wraps too.  Memory is a finite map from addresses to bytes; a pointer is
    an address and a null or dangling access is a [Fault].  A call that may fail
    to return, assert or access memory wrongly has a result in [res].  Structures
    that no pointer cast or overrun touches are records.

    Loops over a size or a list recurse on it.  Loops that follow pointers or
    wait for a terminator take fuel: [S (size m)] where every iteration looks at
    one more mapped address, the number of tasks or blocks where they walk a
    ring or list, what a peer has sent where they read a connection; the theorems
    show that a result is reached, so the fuel is enough.  Waiting loops
    (semaphores, sockets, sleeping) run over an explicit sequence of what the
    other tasks do at each [Yield] and of clock readings; [Fault OutOfFuel] then
    stands for "still waiting when the sequence ended".  The tasks of UsbEem are
    state machines with a step for what is done between two yields.  Between two
    yields no other task runs and the clock does not advance; interrupts only
    appear in Critical.  Packets and transfers that the hardware of a bus reports
    are events; what is written to its registers is a list of commands.

    ** Theorems

    - refinement of an abstract view: the allocator against lists of segments
      (Heap), queues against lists (Queue, ByteQueue), the scheduler against
      lists of tasks (Yield), a TCP connection against two byte streams (TcpSpec),
      UDP sockets against a queue of datagrams (Udp), formatted output against a
      rendering of its format (PrintSpec), the file system against a list of files
      with positions (Ffs), the lines of the two-wire bus against transfers of
      bytes (Swi2c), drivers over the lines against drivers over bytes (TwoWire)
    - invariants: mutual exclusion of semaphores (Sem), the life of a TCP socket
      (TcpSpec), the bytes of a request and a response (HttpSpec), the recordbook
      of addresses (Dhcp), the control endpoint that never stops listening
      (UsbCore)
    - what a server answers: DHCP requests (Dhcp), questions for the name of the
      board (Mdns), requests for files (HttpSpec, Website), for descriptors
      (UsbCore)
    - equivalence with a reference: memcpy, string search and comparison
      (CString), checksums (Checksum), SHA padding (Sha), bit scans (Words), the
      two implementations of web sockets (HttpWs)
    - round trips: base64, byte order, header fields, checksums set and checked,
      packets sent and accepted (NetSpec), integers printed and scanned (ScanSpec),
      DHCP options, mDNS names, web socket frames, frames in transfers (UsbEem),
      data stored in the flash and in the EEPROM (Flash, Eeprom)
    - liveness of waiting calls and round-robin scheduling (Yield, Sem); for any
      bytes a bounded run of the parsers (ScanSpec, DhcpFrame), or, for names in
      mDNS frames, a circle of pointers as the one thing that keeps it from ending
      (Mdns)
    - [Example]s evaluate inputs on which the code misbehaves

    ** Not modelled

    - the rest of dev/, stm32f401/, arch/: register access and interrupt handlers;
      nothing but input and output of the hardware; delays, pin modes and sleeping of
      the chip drivers
    - startup, reset, vectors, linker script, fault handlers, core dump, debug
      output, main.c: bring-up code and calls of the parts above
    - the assembly of the context switch; the conversion of times to text
    - instances of servers: creating their tasks, and the functions that hand a
      TCP socket to them; www/src/ws.c, a demonstration that blinks a light
    - ffs/src/data_www.c: generated data; test/: tests
    - net/tcpip/src/sock_buf.c, dhcp_cli.c, tcp_sock_old.h: not part of the build
*)
From Stdlib Require Export ZArith Lia.
From stdpp Require Export base numbers option list gmap.

(** * Scopes and arithmetic automation *)

Declare Scope word_scope.
Delimit Scope word_scope with W.
#[global] Open Scope Z_scope.
Coercion Z.of_nat : nat >-> Z.

(** [lia] sees through division and remainder by constants. *)
Ltac Zify.zify_post_hook ::= Z.div_mod_to_equations.

Create HintDb word.
Create Rewrite HintDb word_rw.
Create Rewrite HintDb bits.
Create HintDb cmem.

(** * Machine words

    A C integer of width [w] is a [Z]; arithmetic is done in [Z] and wrapped
    where C wraps it.  [u8], [u16], [u32] and [u64] are the conversions to the
    unsigned types, [s32] the conversion to [int32_t]. *)

Definition u8 (z : Z) : Z := z mod 256.
Definition u16 (z : Z) : Z := z mod 65536.
Definition u32 (z : Z) : Z := z mod 4294967296.
Definition u64 (z : Z) : Z := z mod 18446744073709551616.
Definition s32 (z : Z) : Z := (z + 2147483648) mod 4294967296 - 2147483648.

Definition is_u8 (z : Z) : Prop := 0 <= z < 256.
Definition is_u16 (z : Z) : Prop := 0 <= z < 65536.
Definition is_u32 (z : Z) : Prop := 0 <= z < 4294967296.

Notation "a +u b" := (u32 (a + b)) (at level 50, left associativity) : word_scope.
Notation "a -u b" := (u32 (a - b)) (at level 50, left associativity) : word_scope.
Notation "a <<u b" := (u32 (Z.shiftl a b)) (at level 50, left associativity) : word_scope.
Notation "~u a" := (u32 (Z.lnot a)) (at level 35, right associativity) : word_scope.
#[global] Open Scope word_scope.

Ltac unfold_words := unfold u8, u16, u32, u64, s32, is_u8, is_u16, is_u32 in *.

(** Linear arithmetic over wrapped words. *)
Ltac word_lia := unfold_words; lia.

Lemma u8_range z : is_u8 (u8 z).
Proof. word_lia. Qed.
Lemma u16_range z : is_u16 (u16 z).
Proof. word_lia. Qed.
Lemma u32_range z : is_u32 (u32 z).
Proof. word_lia. Qed.
Lemma u8_small z : is_u8 z → u8 z = z.
Proof. word_lia. Qed.
Lemma u16_small z : is_u16 z → u16 z = z.
Proof. word_lia. Qed.
Lemma u32_small z : is_u32 z → u32 z = z.
Proof. word_lia. Qed.
Lemma u8_idemp z : u8 (u8 z) = u8 z.
Proof. word_lia. Qed.
Lemma u32_idemp z : u32 (u32 z) = u32 z.
Proof. word_lia. Qed.
Lemma u32_add_l a b : u32 (u32 a + b) = u32 (a + b).
Proof. word_lia. Qed.
Lemma u32_add_r a b : u32 (a + u32 b) = u32 (a + b).
Proof. word_lia. Qed.
Lemma u32_sub_l a b : u32 (u32 a - b) = u32 (a - b).
Proof. word_lia. Qed.
Lemma u32_sub_r a b : u32 (a - u32 b) = u32 (a - b).
Proof. word_lia. Qed.

(** *** Bit fields *)

(** A field above the bits of [y] is added to it. *)
Lemma lor_shiftl x y k : 0 ≤ k → 0 ≤ y < 2 ^ k → Z.lor (Z.shiftl x k) y = x * 2 ^ k + y.
Proof.
  intros Hk Hy. rewrite Z.shiftl_mul_pow2 by done.
  rewrite <- Z.add_lor_land, Z.land_comm.
  assert (Z.land y (x * 2 ^ k) = 0) as ->; [|lia].
  apply Z.bits_inj'. intros i Hi. rewrite Z.land_spec, Z.bits_0.
  destruct (decide (i < k)).
  - rewrite <- Z.shiftl_mul_pow2, Z.shiftl_spec_low by lia. apply andb_false_r.
  - assert (Z.testbit y i = false) as ->; [|done].
    destruct (decide (y = 0)) as [->|]; [apply Z.bits_0|].
    apply Z.bits_above_log2; [lia|]. apply Z.log2_lt_pow2; [lia|].
    pose proof (Z.pow_le_mono_r 2 k i ltac:(lia) ltac:(lia)). lia.
Qed.

Lemma land_low x k : 0 ≤ k → Z.land x (2 ^ k - 1) = x mod 2 ^ k.
Proof. intros Hk. rewrite <- Z.land_ones by done. by rewrite Z.ones_equiv, Z.sub_1_r. Qed.

Lemma shiftr_div x k : 0 ≤ k → Z.shiftr x k = x / 2 ^ k.
Proof. apply Z.shiftr_div_pow2. Qed.

(** Shifts and masks by constants become division and remainder. *)
Lemma land_255 x : Z.land x 255 = x mod 256.
Proof. exact (land_low x 8 ltac:(lia)). Qed.
Lemma land_63 x : Z.land x 63 = x mod 64.
Proof. exact (land_low x 6 ltac:(lia)). Qed.
Lemma land_15 x : Z.land x 15 = x mod 16.
Proof. exact (land_low x 4 ltac:(lia)). Qed.
Lemma land_7 x : Z.land x 7 = x mod 8.
Proof. exact (land_low x 3 ltac:(lia)). Qed.
Lemma land_3 x : Z.land x 3 = x mod 4.
Proof. exact (land_low x 2 ltac:(lia)). Qed.
Lemma land_1 x : Z.land x 1 = x mod 2.
Proof. exact (land_low x 1 ltac:(lia)). Qed.

#[export] Hint Rewrite land_255 land_63 land_15 land_7 land_3 land_1 : bits.

Ltac bits_to_arith :=
  autorewrite with bits in *;
  rewrite ?Z.shiftr_div_pow2, ?Z.shiftl_mul_pow2 in * by lia;
  repeat match goal with
  | |- context [2 ^ ?k] => let v := eval vm_compute in (2 ^ k) in change (2 ^ k) with v
  end.

#[export] Hint Resolve u8_range u16_range u32_range : word.
#[export] Hint Rewrite u8_idemp u32_idemp u32_add_l u32_add_r u32_sub_l u32_sub_r : word_rw.

(** * Results

    A C function either returns or runs into behaviour C leaves undefined, a
    failed [assert] (which resets the MCU), or - in a definition with a fuel
    argument - exhausts its fuel.  Theorems show the last case away. *)

Inductive fault :=
  NullDeref | OutOfBounds | Uninit | DivByZero | AssertFailed | OutOfFuel | Overflow | BadVarArg.

#[export] Instance fault_eq_dec : EqDecision fault.
Proof. solve_decision. Defined.

Inductive res (A : Type) :=
| Ok (a : A)
| Fault (f : fault).
Arguments Ok {A} _.
Arguments Fault {A} _.

#[export] Instance res_ret : MRet res := λ A, Ok.
#[export] Instance res_bind : MBind res := λ A B f r,
  match r with Ok a => f a | Fault e => Fault e end.
#[export] Instance res_fmap : FMap res := λ A B f r,
  match r with Ok a => Ok (f a) | Fault e => Fault e end.

(** Signed arithmetic whose result does not fit is undefined. *)
Definition ck32 (z : Z) : res Z :=
  if (-2147483648 <=? z) && (z <=? 2147483647) then Ok z else Fault Overflow.

(** [assert(x, msg)] of assert.h: the MCU is reset when [x] is false. *)
Definition c_assert (b : bool) : res unit := if b then Ok () else Fault AssertFailed.

Definition is_ok {A} (r : res A) : Prop := ∃ a, r = Ok a.

Lemma bind_Ok {A B} (f : A → res B) a : (Ok a ≫= f) = f a.
Proof. reflexivity. Qed.

Lemma bind_Ok_inv {A B} (r : res A) (f : A → res B) b :
  (r ≫= f) = Ok b → ∃ a, r = Ok a ∧ f a = Ok b.
Proof. destruct r; simpl; [eauto | discriminate]. Qed.

Lemma c_assert_Ok b u : c_assert b = Ok u → b = true.
Proof. by destruct b. Qed.

(** Split every [Ok] result of a bind in the hypotheses into its steps. *)
Ltac inv_ok :=
  repeat match goal with
  | H : (_ ≫= _) = Ok _ |- _ =>
      let a := fresh "a" in let Ha := fresh "Ha" in
      apply bind_Ok_inv in H as (a & Ha & H)
  | H : Ok _ = Ok _ |- _ => injection H as H; subst
  | H : Fault _ = Ok _ |- _ => discriminate H
  | H : c_assert _ = Ok _ |- _ => apply c_assert_Ok in H
  | H : mret _ = Ok _ |- _ => injection H as H; subst
  end.

(** * Error codes of err.h *)

Definition EOK : Z := 0.
Definition EFATAL : Z := -1.
Definition EBUSY : Z := -2.
Definition EARGVAL : Z := -3.
Definition EAGAIN : Z := -4.
Definition ETIMEOUT : Z := -5.
Definition ECANCEL : Z := -6.
Definition EUNKPROT : Z := -7.
Definition EUNKREQ : Z := -8.
Definition EMALFORMED : Z := -8.
Definition EUNKADDR : Z := -9.
Definition EUNREACHABLE : Z := -10.
Definition ENOCONNECT : Z := -11.

(** * Byte-addressed memory

    Memory is a finite map from addresses to bytes: the domain is what the
    program may access.  Pointers are [Z] addresses. *)

Abbreviation mem := (gmap Z Z).

Definition load8 (m : mem) (a : Z) : res Z :=
  match m !! a with Some b => Ok b | None => Fault OutOfBounds end.

Definition store8 (m : mem) (a v : Z) : res mem :=
  match m !! a with Some _ => Ok (<[a := u8 v]> m) | None => Fault OutOfBounds end.

(** The [length l] bytes of [l] are stored at [a], [a + 1], ... *)
Fixpoint bytes_at (m : mem) (a : Z) (l : list Z) : Prop :=
  match l with
  | [] => True
  | b :: l' => m !! a = Some b ∧ bytes_at m (a + 1) l'
  end.

(** [n] bytes from [a] on may be accessed. *)
Definition mapped (m : mem) (a : Z) (n : nat) : Prop :=
  ∀ i, a ≤ i < a + Z.of_nat n → is_Some (m !! i).

(** What memory holds after the bytes of [l] were written at [a]. *)
Fixpoint put_bytes (m : mem) (a : Z) (l : list Z) : mem :=
  match l with
  | [] => m
  | b :: l' => put_bytes (<[a := b]> m) (a + 1) l'
  end.

(** The [n] bytes that memory holds from [a] on. *)
Fixpoint get_bytes (m : mem) (a : Z) (n : nat) : option (list Z) :=
  match n with
  | O => Some []
  | S n' => b ← m !! a; l ← get_bytes m (a + 1) n'; Some (b :: l)
  end.

Lemma bytes_at_lookup m a l i b :
  bytes_at m a l → l !! i = Some b → m !! (a + Z.of_nat i) = Some b.
Proof.
  revert a i. induction l as [|c l IH]; intros a i; [done|].
  intros [Hc Hl]. destruct i as [|i]; simpl.
  - intros [= ->]. by rewrite Z.add_0_r.
  - intros Hi. specialize (IH _ _ Hl Hi). by replace (a + S i) with (a + 1 + i) by lia.
Qed.

Lemma bytes_at_iff m a l :
  bytes_at m a l ↔ ∀ i b, l !! i = Some b → m !! (a + Z.of_nat i) = Some b.
Proof.
  split; [by eauto using bytes_at_lookup|].
  revert a. induction l as [|c l IH]; intros a H; [done|]. split.
  - specialize (H O c eq_refl). by rewrite Z.add_0_r in H.
  - apply IH. intros i b Hi. specialize (H (S i) b Hi).
    by replace (a + 1 + Z.of_nat i) with (a + Z.of_nat (S i)) by lia.
Qed.

Lemma bytes_at_app m a l1 l2 :
  bytes_at m a (l1 ++ l2) ↔ bytes_at m a l1 ∧ bytes_at m (a + length l1) l2.
Proof.
  revert a. induction l1 as [|b l1 IH]; intros a; simpl.
  - rewrite Z.add_0_r. tauto.
  - rewrite IH. replace (a + 1 + length l1) with (a + S (length l1)) by lia. tauto.
Qed.

Lemma bytes_at_take m a l (k : nat) : bytes_at m a l → bytes_at m a (take k l).
Proof. intros H. rewrite <- (take_drop k l) in H. by apply bytes_at_app in H as [H _]. Qed.

Lemma bytes_at_drop m a l (k : nat) : (k ≤ length l)%nat → bytes_at m a l → bytes_at m (a + k) (drop k l).
Proof.
  intros Hk H. rewrite <- (take_drop k l) in H. apply bytes_at_app in H as [_ H].
  by rewrite length_take_le in H.
Qed.

Lemma bytes_at_mapped m a l : bytes_at m a l → mapped m a (length l).
Proof.
  intros H i Hi. destruct (lookup_lt_is_Some_2 l (Z.to_nat (i - a))) as [b Hb]; [lia|].
  eapply bytes_at_lookup in Hb; [|done]. exists b.
  by replace i with (a + Z.to_nat (i - a)) by lia.
Qed.

Lemma bytes_at_inj m a l1 l2 :
  bytes_at m a l1 → bytes_at m a l2 → length l1 = length l2 → l1 = l2.
Proof.
  revert a l2. induction l1 as [|b l1 IH]; intros a [|c l2] H1 H2 Hl; try done.
  destruct H1, H2. simplify_eq/=. f_equal; eauto.
Qed.

Lemma mapped_le m a n k : (k ≤ n)%nat → mapped m a n → mapped m a k.
Proof. intros Hk H i Hi. apply H. lia. Qed.

Lemma mapped_cons m a n : mapped m a (S n) → is_Some (m !! a) ∧ mapped m (a + 1) n.
Proof. intros H. split; [apply H; lia|]. intros i Hi. apply H. lia. Qed.

Lemma mapped_app m a n k :
  mapped m a (n + k) ↔ mapped m a n ∧ mapped m (a + n) k.
Proof.
  split.
  - intros H. split; intros i Hi; apply H; lia.
  - intros [H1 H2] i Hi. destruct (decide (i < a + n)); [apply H1|apply H2]; lia.
Qed.

Lemma mapped_insert m a n i v : mapped m a n → mapped (<[i := v]> m) a n.
Proof. intros H j Hj. apply lookup_insert_is_Some'. right. by apply H. Qed.

(** A run of mapped addresses is no longer than the memory is large: loops that
    step through memory are given [S (size m)] as fuel. *)
Lemma mapped_size m a n : mapped m a n → (n ≤ size m)%nat.
Proof.
  intros H. rewrite <- size_dom.
  transitivity (size (list_to_set (seqZ a n) : gset Z)).
  - rewrite size_list_to_set by apply NoDup_seqZ. rewrite length_seqZ. lia.
  - apply subseteq_size. intros i. rewrite elem_of_list_to_set, elem_of_seqZ.
    intros Hi. apply elem_of_dom, H. lia.
Qed.

Lemma load8_bytes m a b l : bytes_at m a (b :: l) → load8 m a = Ok b.
Proof. intros [H _]. unfold load8. by rewrite H. Qed.

Lemma store8_mapped m a v : is_Some (m !! a) → store8 m a v = Ok (<[a := u8 v]> m).
Proof. intros [x H]. unfold store8. by rewrite H. Qed.

Lemma put_bytes_app m a l1 l2 :
  put_bytes m a (l1 ++ l2) = put_bytes (put_bytes m a l1) (a + length l1) l2.
Proof.
  revert m a. induction l1 as [|b l1 IH]; intros m a; simpl.
  - by rewrite Z.add_0_r.
  - rewrite IH. by replace (a + 1 + length l1) with (a + S (length l1)) by lia.
Qed.

Lemma put_bytes_lookup_ne m a l i :
  ¬ (a ≤ i < a + length l) → put_bytes m a l !! i = m !! i.
Proof.
  revert m a. induction l as [|b l IH]; intros m a Hi; simpl in *; [done|].
  rewrite IH by lia. apply lookup_insert_ne. lia.
Qed.

Lemma put_bytes_bytes_at m a l : bytes_at (put_bytes m a l) a l.
Proof.
  revert m a. induction l as [|b l IH]; intros m a; simpl; [done|]. split; [|done].
  rewrite put_bytes_lookup_ne by lia. apply lookup_insert_eq.
Qed.

Lemma put_bytes_mapped m a l b n : mapped m b n → mapped (put_bytes m a l) b n.
Proof.
  revert m a. induction l as [|c l IH]; intros m a H; simpl; [done|].
  by apply IH, mapped_insert.
Qed.

(** A filled region, and a part of it. *)
Lemma filled_mapped m a (c : Z) (z k n : nat) : (k + n ≤ z)%nat → mapped (put_bytes m a (replicate z c)) (a + k) n.
Proof.
  intros H i Hi. assert (length (replicate z c) = z) as Hl by apply length_replicate.
  revert Hl. generalize (replicate z c). intros l Hl.
  destruct (lookup_lt_is_Some_2 l (Z.to_nat (i - a))) as [x Hx]; [lia|].
  pose proof (bytes_at_lookup _ a l _ _ (put_bytes_bytes_at m a l) Hx) as E.
  rewrite Z2Nat.id in E by lia. replace (a + (i - a)) with i in E by lia. by eexists.
Qed.

(** Bytes outside the written range are untouched. *)
Lemma put_bytes_bytes_at_other m a l b k :
  a + length l ≤ b ∨ b + length k ≤ a → bytes_at m b k → bytes_at (put_bytes m a l) b k.
Proof.
  intros Hd. rewrite !bytes_at_iff. intros H i c Hi.
  pose proof (lookup_lt_Some _ _ _ Hi).
  rewrite put_bytes_lookup_ne by lia. by apply H.
Qed.

Lemma get_bytes_spec m a l : bytes_at m a l → get_bytes m a (length l) = Some l.
Proof.
  revert a. induction l as [|b l IH]; intros a; simpl; [done|].
  intros [Hb Hl]. rewrite Hb. simpl. by rewrite (IH _ Hl).
Qed.

Lemma get_bytes_length m a n l : get_bytes m a n = Some l → length l = n ∧ bytes_at m a l.
Proof.
  revert a l. induction n as [|n IH]; intros a l; simpl.
  - by intros [= <-].
  - destruct (m !! a) as [b|] eqn:Hb; simpl; [|done].
    destruct (get_bytes m (a + 1) n) as [l'|] eqn:Hl; simpl; [|done].
    intros [= <-]. destruct (IH _ _ Hl). simpl. auto.
Qed.

Lemma mapped_get_bytes m a n : mapped m a n → ∃ l, length l = n ∧ bytes_at m a l.
Proof.
  revert a. induction n as [|n IH]; intros a H; [by exists []|].
  apply mapped_cons in H as [[b Hb] H]. destruct (IH _ H) as (l & <- & Hl).
  by exists (b :: l).
Qed.

#[export] Hint Resolve bytes_at_mapped put_bytes_mapped put_bytes_bytes_at mapped_insert : cmem.

(** ** Words in memory

    The target is little-endian; packed structures make unaligned accesses. *)

Definition load16 (m : mem) (a : Z) : res Z :=
  b0 ← load8 m a; b1 ← load8 m (a + 1); Ok (b0 + 256 * b1).
Definition load32 (m : mem) (a : Z) : res Z :=
  h0 ← load16 m a; h1 ← load16 m (a + 2); Ok (h0 + 65536 * h1).
Definition store16 (m : mem) (a v : Z) : res mem :=
  m ← store8 m a v; store8 m (a + 1) (v / 256).
Definition store32 (m : mem) (a v : Z) : res mem :=
  m ← store16 m a v; store16 m (a + 2) (v / 65536).

(** [l] with the elements from position [k] on replaced by [bs]. *)
Definition splice (l : list Z) (k : nat) (bs : list Z) : list Z :=
  take k l ++ bs ++ drop (k + length bs) l.

Lemma bytes_at_load8 m p l (k : nat) b :
  bytes_at m p l → l !! k = Some b → load8 m (p + k) = Ok b.
Proof. intros H Hk. unfold load8. by rewrite (bytes_at_lookup _ _ _ _ _ H Hk). Qed.

Lemma put_bytes_eq m p l : bytes_at m p l → put_bytes m p l = m.
Proof.
  intros H. apply map_eq. intros i.
  destruct (decide (p ≤ i < p + length l)) as [Hi|Hi]; [|by apply put_bytes_lookup_ne].
  destruct (lookup_lt_is_Some_2 l (Z.to_nat (i - p))) as [b Hb]; [lia|].
  replace i with (p + Z.of_nat (Z.to_nat (i - p))) by lia.
  rewrite (bytes_at_lookup _ _ _ _ _ (put_bytes_bytes_at m p l) Hb).
  symmetry. by apply bytes_at_lookup with (l := l).
Qed.

Lemma put_bytes_overwrite m p l l' :
  length l = length l' → put_bytes (put_bytes m p l) p l' = put_bytes m p l'.
Proof.
  intros Hl. apply map_eq. intros i.
  destruct (decide (p ≤ i < p + length l)) as [Hi|Hi].
  - destruct (lookup_lt_is_Some_2 l' (Z.to_nat (i - p))) as [b Hb]; [lia|].
    replace i with (p + Z.of_nat (Z.to_nat (i - p))) by lia.
    by rewrite !(bytes_at_lookup _ _ _ _ _ (put_bytes_bytes_at _ p l') Hb).
  - rewrite !put_bytes_lookup_ne by lia. done.
Qed.

(** Writing a few bytes of a block rewrites the block. *)
Lemma splice_length l k bs : (k + length bs ≤ length l)%nat → length (splice l k bs) = length l.
Proof. intros H. unfold splice. rewrite !length_app, length_take, length_drop. lia. Qed.

Lemma put_bytes_splice m p l (k : nat) bs :
  bytes_at m p l → (k + length bs ≤ length l)%nat →
  put_bytes m (p + k) bs = put_bytes m p (splice l k bs).
Proof.
  intros H Hk. unfold splice.
  rewrite <- (take_drop k l) in H at 1. apply bytes_at_app in H as [H1 H2].
  rewrite put_bytes_app, (put_bytes_eq m p _ H1), put_bytes_app.
  rewrite length_take_le by lia. symmetry. apply put_bytes_eq.
  apply put_bytes_bytes_at_other; [left; lia|].
  rewrite length_take_le in H2 by lia.
  rewrite <- (take_drop (length bs) (drop k l)), drop_drop in H2.
  apply bytes_at_app in H2 as [_ H2]. rewrite length_take_le in H2; [done|].
  rewrite length_drop. lia.
Qed.

Lemma store8_put m a v : mapped m a 1 → store8 m a v = Ok (put_bytes m a [u8 v]).
Proof. intros H. apply store8_mapped, H. lia. Qed.

Lemma store16_put m a v :
  mapped m a 2 → store16 m a v = Ok (put_bytes m a [u8 v; u8 (v / 256)]).
Proof.
  intros H. unfold store16. rewrite store8_mapped, bind_Ok by (apply H; lia).
  rewrite store8_mapped; [done|]. apply lookup_insert_is_Some'. right. apply H. lia.
Qed.

Lemma store32_put m a v :
  mapped m a 4 →
  store32 m a v = Ok (put_bytes m a [u8 v; u8 (v / 256); u8 (v / 65536); u8 (v / 16777216)]).
Proof.
  intros H. unfold store32. apply (mapped_app _ _ 2 2) in H as [H1 H2].
  rewrite store16_put, bind_Ok by done. rewrite store16_put by auto with cmem.
  cbn [put_bytes]. rewrite Zdiv.Zdiv_Zdiv by lia.
  by replace (a + 1 + 1) with (a + 2) by lia.
Qed.

Lemma load16_bytes m p l (k : nat) b0 b1 :
  bytes_at m p l → l !! k = Some b0 → l !! (S k) = Some b1 →
  load16 m (p + k) = Ok (b0 + 256 * b1).
Proof.
  intros H H0 H1. unfold load16. rewrite (bytes_at_load8 _ _ _ _ _ H H0), bind_Ok.
  replace (p + k + 1) with (p + S k) by lia.
  by rewrite (bytes_at_load8 _ _ _ _ _ H H1).
Qed.

Lemma load32_bytes m p l (k : nat) b0 b1 b2 b3 :
  bytes_at m p l → l !! k = Some b0 → l !! (S k) = Some b1 →
  l !! (S (S k)) = Some b2 → l !! (S (S (S k))) = Some b3 →
  load32 m (p + k) = Ok (b0 + 256 * b1 + 65536 * (b2 + 256 * b3)).
Proof.
  intros H H0 H1 H2 H3. unfold load32.
  rewrite (load16_bytes _ _ _ _ _ _ H H0 H1), bind_Ok.
  replace (p + k + 2) with (p + S (S k)) by lia.
  by rewrite (load16_bytes _ _ _ _ _ _ H H2 H3).
Qed.

(** * Lists *)

Lemma take_drop_slice {A} (l : list A) (i n : nat) :
  (i + n ≤ length l)%nat → length (take n (drop i l)) = n.
Proof. intros. rewrite length_take, length_drop. lia. Qed.

Lemma Forall_u8_take l n : Forall is_u8 l → Forall is_u8 (take n l).
Proof. apply Forall_take. Qed.
