(* ===== verification/Heap.v ===== *)
(** * The heap allocator (sys/src/heap.c)

    The block headers inside the heap array are a typed store [gmap Z block]
    from header addresses to headers; user data lies between them and is not
    part of this state.  Every operation reads and writes headers through the
    pointers stored in them, so stale pointers behave as they do in the code.

    [segs] is the abstract view: the list of segments met when following
    [next] from the start of the array.  [wf_heap] says that a state is
    described by such a list, that the segments tile the array and are
    8-aligned.  The refinement theorems relate [Heap_Malloc] and [Heap_Free] to
    functions on that list. *)
From S2P Require Import Prelude.

(** ** Data *)

(** [SYS_HEAP_SIZE] of config.h, [sizeof(block_t)] and the used mark. *)
Definition SYS_HEAP_SIZE : Z := 36 * 1024.
Definition sizeof_block : Z := 16.
Definition USED_MARK : Z := 0xdeadc0de.

Record block := mk_block {
  b_used : Z;
  b_size : Z;
  b_prev : Z;
  b_next : Z
}.

Definition set_used (v : Z) (b : block) := mk_block v (b_size b) (b_prev b) (b_next b).
Definition set_size (v : Z) (b : block) := mk_block (b_used b) v (b_prev b) (b_next b).
Definition set_prev (v : Z) (b : block) := mk_block (b_used b) (b_size b) v (b_next b).
Definition set_next (v : Z) (b : block) := mk_block (b_used b) (b_size b) (b_prev b) v.

(** The block headers and the signature kept in the last four bytes. *)
Record heap_t := mk_heap {
  blocks : gmap Z block;
  end_word : Z
}.

(** Read or update the header a [block_t *] points to. *)
Definition deref (bs : gmap Z block) (a : Z) : res block :=
  if a =? 0 then Fault NullDeref
  else match bs !! a with Some b => Ok b | None => Fault OutOfBounds end.

Definition update (bs : gmap Z block) (a : Z) (f : block → block) : res (gmap Z block) :=
  b ← deref bs a; mret (<[a := f b]> bs).

(** ** Operations *)
Section operations.
(** Address of the static array [heap]. *)
Context (heap : Z).

Definition Heap_Init (st : heap_t) : res (heap_t * Z) :=
  c_assert (Z.land sizeof_block 7 =? 0);;
  mret (mk_heap (<[heap := mk_block 0 SYS_HEAP_SIZE 0 0]> (blocks st)) USED_MARK, EOK).

(** The search loop of [Heap_Malloc]: [b] is the cursor, [best] the best fit. *)
Fixpoint best_fit_loop (fuel : nat) (bs : gmap Z block) (size b best : Z) : res Z :=
  match fuel with
  | O => Fault OutOfFuel
  | S fuel' =>
      if b =? 0 then mret best
      else
        hb ← deref bs b;
        if negb (b_used hb =? 0) then best_fit_loop fuel' bs size (b_next hb) best
        else
          better ← (if best =? 0 then mret true
                    else hbest ← deref bs best;
                         mret ((size <=? b_size hb) && (b_size hb <? b_size hbest)));
          if (better : bool) then
            if b_size hb =? size then mret b
            else best_fit_loop fuel' bs size (b_next hb) b
          else best_fit_loop fuel' bs size (b_next hb) best
  end.

Definition block_size_for (size : Z) : Z :=
  u32 (Z.land (u32 (size + 7)) (Z.lnot 7) + sizeof_block).

Definition Heap_Malloc (st : heap_t) (size : Z) : res (heap_t * Z) :=
  let bs := blocks st in
  let size := block_size_for size in
  best ← best_fit_loop (S (base.size bs)) bs size heap 0;
  if best =? 0 then mret (st, 0)
  else
    hb ← deref bs best;
    bs1 ← (if u32 (size + 2 * sizeof_block) <=? b_size hb then
             let new_block := u32 (best + size) in
             let bs' := <[new_block := mk_block 0 (u32 (b_size hb - size)) best (b_next hb)]> bs in
             update bs' best (λ b, set_size size (set_next new_block b))
           else mret bs);
    bs2 ← update bs1 best (set_used USED_MARK);
    mret (mk_heap bs2 (end_word st), u32 (best + sizeof_block)).

(** The comma expression both branches of [Heap_Free] evaluate to join the
    block at [p] with the block [hn] that follows it:
    [p->size += n->size, p->next = n->next, n->next->prev = p]. *)
Definition join_blocks (bs : gmap Z block) (p : Z) (hn : block) : res (gmap Z block) :=
  bs ← update bs p (λ x, set_size (u32 (b_size x + b_size hn)) x);
  bs ← update bs p (set_next (b_next hn));
  update bs (b_next hn) (set_prev p).

(** "join with next segment if it's free" *)
Definition join_with_next (bs : gmap Z block) (b : Z) : res (gmap Z block) :=
  hb ← deref bs b;
  let nb := b_next hb in
  if nb =? 0 then mret bs
  else
    hn ← deref bs nb;
    if b_used hn =? 0 then join_blocks bs b hn else mret bs.

(** "join with previous segment if it's free" *)
Definition join_with_prev (bs : gmap Z block) (b : Z) : res (gmap Z block) :=
  hb ← deref bs b;
  let pb := b_prev hb in
  if pb =? 0 then mret bs
  else
    hp ← deref bs pb;
    if b_used hp =? 0 then join_blocks bs pb hb else mret bs.

Definition Heap_Free (st : heap_t) (ptr : Z) : res heap_t :=
  if ptr =? 0 then mret st
  else
    let b := u32 (ptr - sizeof_block) in
    bs ← update (blocks st) b (set_used 0);
    bs ← join_with_next bs b;
    bs ← join_with_prev bs b;
    mret (mk_heap bs (end_word st)).

Fixpoint check_blocks (fuel : nat) (bs : gmap Z block) (b : Z) : res unit :=
  match fuel with
  | O => Fault OutOfFuel
  | S fuel' =>
      if b =? 0 then mret ()
      else
        hb ← deref bs b;
        c_assert ((b_used hb =? 0) || (b_used hb =? USED_MARK));;
        check_blocks fuel' bs (b_next hb)
  end.

Definition Heap_CheckIntegrity (st : heap_t) : res Z :=
  c_assert (end_word st =? USED_MARK);;
  check_blocks (S (base.size (blocks st))) (blocks st) heap;;
  mret EOK.
End operations.

(** ** Abstract view: the list of segments *)

Record seg := mk_seg {
  s_used : bool;
  s_size : Z;
  s_prev : Z
}.

Definition used_word (u : bool) : Z := if u then USED_MARK else 0.

(** The segments [l] are linked from address [a] on, each next to the one before
    it; the last one's [next] is [nx]. *)
Fixpoint chain (bs : gmap Z block) (a : Z) (l : list seg) (nx : Z) : Prop :=
  match l with
  | [] => True
  | s :: l' =>
      bs !! a = Some (mk_block (used_word (s_used s)) (s_size s) (s_prev s)
                        (match l' with [] => nx | _ => a + s_size s end)) ∧
      chain bs (a + s_size s) l' nx
  end.

Fixpoint total (l : list seg) : Z :=
  match l with [] => 0 | s :: l' => s_size s + total l' end.

(** Each [prev] points to the segment before ([p] for the first one). *)
Fixpoint prevs_ok (p a : Z) (l : list seg) : Prop :=
  match l with
  | [] => True
  | s :: l' => s_prev s = p ∧ prevs_ok a (a + s_size s) l'
  end.

(** A segment holds at least its header and keeps the next one aligned. *)
Definition seg_ok (s : seg) : Prop := sizeof_block ≤ s_size s ∧ (8 | s_size s).

(** Where the linker may place the array: [ALIGNED(8)], not at null, and not
    wrapping around the address space. *)
Definition placed (heap : Z) : Prop :=
  0 < heap ∧ (8 | heap) ∧ heap + SYS_HEAP_SIZE < 4294967296.

Definition wf_heap (heap : Z) (st : heap_t) (l : list seg) : Prop :=
  placed heap ∧ l ≠ [] ∧ Forall seg_ok l ∧ total l = SYS_HEAP_SIZE ∧
  chain (blocks st) heap l 0.

(** ** Lemmas on chains *)

Create HintDb heap.
#[export] Hint Extern 1 (0 < _) => unfold sizeof_block in *; lia : heap.

Ltac heap_lia := unfold seg_ok, sizeof_block, placed, SYS_HEAP_SIZE in *; lia.

Lemma total_app l1 l2 : total (l1 ++ l2) = total l1 + total l2.
Proof. induction l1; simpl; lia. Qed.

Lemma total_nonneg l : Forall seg_ok l → 16 * length l ≤ total l.
Proof. induction 1; simpl in *; heap_lia. Qed.

Lemma total_divide l : Forall seg_ok l → (8 | total l).
Proof.
  induction 1 as [|s l [_ Hs] _ IH]; simpl; [apply Z.divide_0_r|].
  by apply Z.divide_add_r.
Qed.

Lemma chain_app bs a l1 l2 nx :
  l2 ≠ [] →
  chain bs a (l1 ++ l2) nx ↔ chain bs a l1 (a + total l1) ∧ chain bs (a + total l1) l2 nx.
Proof.
  intros Hl2. revert a. induction l1 as [|s l1 IH]; intros a; simpl.
  - rewrite Z.add_0_r. tauto.
  - rewrite IH, Z.add_assoc. destruct l1 as [|s' l1]; simpl.
    + rewrite Z.add_0_r. destruct l2; [done|]. tauto.
    + tauto.
Qed.

Lemma chain_frame bs bs' a l nx :
  (∀ i, a ≤ i < a + total l → bs' !! i = bs !! i) →
  Forall seg_ok l → chain bs a l nx → chain bs' a l nx.
Proof.
  revert a. induction l as [|s l IH]; intros a Hf Hok; [done|].
  apply Forall_cons in Hok as [[Hs _] Hok]. pose proof (total_nonneg l Hok).
  simpl in *. intros [Hh Hl]. split.
  - rewrite Hf; [done|heap_lia].
  - apply IH; [|done..]. intros i Hi. apply Hf. heap_lia.
Qed.

Lemma chain_insert_out bs a l nx x b :
  ¬ (a ≤ x < a + total l) → Forall seg_ok l → chain bs a l nx → chain (<[x := b]> bs) a l nx.
Proof.
  intros Hx. apply chain_frame. intros i Hi. apply lookup_insert_ne. lia.
Qed.

Lemma chain_length bs a l nx :
  Forall seg_ok l → chain bs a l nx → (length l ≤ size bs)%nat.
Proof.
  intros Hok. revert bs a. induction Hok as [|s l [Hs _] Hok IH]; intros bs a; simpl; [lia|].
  intros [Hh Hl]. assert (length l ≤ size (delete a bs))%nat as IH'.
  { apply (IH _ (a + s_size s)). eapply chain_frame; [|done..].
    intros i Hi. apply lookup_delete_ne. heap_lia. }
  rewrite map_size_delete, Hh in IH'. simpl in IH'.
  assert (size bs ≠ O); [|lia].
  intros H0%map_size_empty_inv. by rewrite H0, lookup_empty in Hh.
Qed.

Lemma chain_deref bs a s l nx :
  0 < a → chain bs a (s :: l) nx →
  deref bs a = Ok (mk_block (used_word (s_used s)) (s_size s) (s_prev s)
                     (match l with [] => nx | _ => a + s_size s end)).
Proof.
  intros Ha [Hh _]. unfold deref. rewrite Hh. by destruct (Z.eqb_spec a 0); [lia|].
Qed.

Lemma deref_some bs a b : 0 < a → bs !! a = Some b → deref bs a = Ok b.
Proof. intros Ha Hb. unfold deref. rewrite Hb. by destruct (Z.eqb_spec a 0); [lia|]. Qed.

Lemma update_some bs a b f : 0 < a → bs !! a = Some b → update bs a f = Ok (<[a := f b]> bs).
Proof. intros Ha Hb. unfold update. by rewrite (deref_some bs a b Ha Hb). Qed.

Lemma used_word_zero u : (used_word u =? 0) = negb u.
Proof. by destruct u. Qed.

(** ** Best fit on segments *)

(** The choice [Heap_Malloc] makes among the segments [l] placed from [a] on:
    address and size of the block it takes. *)
Fixpoint pick (size a : Z) (l : list seg) (best : option (Z * Z)) : option (Z * Z) :=
  match l with
  | [] => best
  | s :: l' =>
      if s_used s then pick size (a + s_size s) l' best
      else if match best with
              | None => true
              | Some (_, sz) => (size <=? s_size s) && (s_size s <? sz)
              end
      then if s_size s =? size then Some (a, s_size s)
           else pick size (a + s_size s) l' (Some (a, s_size s))
      else pick size (a + s_size s) l' best
  end.

Definition picked (best : option (Z * Z)) : Z :=
  match best with None => 0 | Some (x, _) => x end.

(** [best] is a candidate the loop may hold: null, or a block of that size. *)
Definition candidate (bs : gmap Z block) (best : option (Z * Z)) : Prop :=
  match best with
  | None => True
  | Some (x, sz) => 0 < x ∧ ∃ b, bs !! x = Some b ∧ b_size b = sz
  end.

Lemma best_fit_loop_ok bs size l : ∀ fuel a best,
  chain bs a l 0 → Forall seg_ok l → 0 < a → (length l < fuel)%nat → candidate bs best →
  best_fit_loop fuel bs size (match l with [] => 0 | _ => a end) (picked best)
  = Ok (picked (pick size a l best)).
Proof.
  induction l as [|s l IH]; intros [|fuel] a best Hc Hok Ha Hf Hb; simpl in Hf; try lia; [done|].
  apply Forall_cons in Hok as [Hs Hok].
  assert (Ha' : 0 < a + s_size s) by heap_lia.
  assert (candidate bs (Some (a, s_size s))) as Hcand.
  { split; [done|]. eexists. split; [apply Hc|done]. }
  simpl best_fit_loop. destruct (Z.eqb_spec a 0); [lia|].
  rewrite (chain_deref _ _ _ _ _ Ha Hc). simpl. rewrite used_word_zero, negb_involutive.
  destruct Hc as [_ Hc].
  destruct (s_used s); [by apply (IH fuel (a + s_size s) best); [..|lia|]|].
  destruct best as [[x sz]|]; simpl picked.
  - destruct Hb as (Hx & b & Hb & <-). destruct (Z.eqb_spec x 0); [lia|].
    rewrite (deref_some _ _ _ Hx Hb). simpl.
    destruct ((size <=? s_size s) && (s_size s <? b_size b)).
    + destruct (s_size s =? size); [done|].
      by apply (IH fuel (a + s_size s) (Some (a, s_size s))); [..|lia|].
    + apply (IH fuel (a + s_size s) (Some (x, b_size b))); [done..|lia|]. simpl; eauto.
  - simpl. destruct (s_size s =? size); [done|].
    by apply (IH fuel (a + s_size s) (Some (a, s_size s))); [..|lia|].
Qed.

Lemma pick_split size l : ∀ a best x sz,
  pick size a l best = Some (x, sz) →
  best = Some (x, sz) ∨
  ∃ l1 s l2, l = l1 ++ s :: l2 ∧ s_used s = false ∧ s_size s = sz ∧ x = a + total l1.
Proof.
  assert (Hhere : ∀ a s l', s_used s = false →
    ∃ l1 s0 l2, s :: l' = l1 ++ s0 :: l2 ∧ s_used s0 = false ∧ s_size s0 = s_size s ∧
                a = a + total l1).
  { intros a s l' Hu. exists [], s, l'. simpl. split_and!; try done. lia. }
  induction l as [|s l IH]; intros a best x sz; simpl; [by auto|].
  assert (Hnext : ∀ best', pick size (a + s_size s) l best' = Some (x, sz) →
    best' = Some (x, sz) ∨ ∃ l1 s0 l2, s :: l = l1 ++ s0 :: l2 ∧ s_used s0 = false ∧
      s_size s0 = sz ∧ x = a + total l1).
  { intros best' [?|(l1 & s0 & l2 & -> & ? & ? & ->)]%IH; [by left|right].
    exists (s :: l1), s0, l2. simpl. split_and!; try done. lia. }
  destruct (s_used s) eqn:Hu; [apply Hnext|].
  destruct (match best with Some _ => _ | None => _ end); [|apply Hnext].
  destruct (s_size s =? size).
  - intros [= <- <-]. right. by apply Hhere.
  - intros [[= <- <-]|?]%Hnext; right; [by apply Hhere|done].
Qed.

Lemma pick_None size a l best :
  pick size a l best = None ↔ best = None ∧ Forall (λ s, s_used s = true) l.
Proof.
  revert a best. induction l as [|s l IH]; intros a best; simpl.
  { rewrite Forall_nil. tauto. }
  rewrite Forall_cons. destruct (s_used s) eqn:Hu.
  { rewrite IH. tauto. }
  destruct best as [[x sz]|]; simpl; repeat case_match; rewrite ?IH; intuition congruence.
Qed.

(** A candidate that is too small is never replaced. *)
Lemma pick_stuck size l : ∀ a x sz,
  sz < size → pick size a l (Some (x, sz)) = Some (x, sz).
Proof.
  induction l as [|s l IH]; intros a x sz Hsz; simpl; [done|].
  destruct (s_used s); [by apply IH|].
  destruct (Z.leb_spec size (s_size s)), (Z.ltb_spec (s_size s) sz); simpl; try lia; by apply IH.
Qed.

(** A candidate that is large enough is only replaced by a tighter one, and the
    result is the tightest among all free segments that are large enough. *)
Lemma pick_tightest size l : ∀ a x sz,
  size ≤ sz →
  ∃ x' sz', pick size a l (Some (x, sz)) = Some (x', sz') ∧ size ≤ sz' ≤ sz ∧
    Forall (λ s, s_used s = false → size ≤ s_size s → sz' ≤ s_size s) l.
Proof.
  induction l as [|s l IH]; intros a x sz Hsz; simpl.
  { exists x, sz. split_and!; auto; lia. }
  destruct (s_used s) eqn:Hu.
  { destruct (IH (a + s_size s) x sz Hsz) as (x' & sz' & -> & ? & ?).
    exists x', sz'. split_and!; try done; try lia. constructor; [congruence|done]. }
  destruct ((size <=? s_size s) && (s_size s <? sz)) eqn:E.
  2:{ destruct (IH (a + s_size s) x sz Hsz) as (x' & sz' & -> & ? & ?).
      exists x', sz'. split_and!; try done; try lia. constructor; [lia|done]. }
  apply andb_true_iff in E as [?%Z.leb_le ?%Z.ltb_lt].
  destruct (Z.eqb_spec (s_size s) size).
  - exists a, (s_size s). split_and!; try done; try lia.
    constructor; [lia|]. apply Forall_true. lia.
  - destruct (IH (a + s_size s) a (s_size s)) as (x' & sz' & -> & ? & ?); [done|].
    exists x', sz'. split_and!; try done; try lia. constructor; [lia|done].
Qed.

(** The first free segment. *)
Definition first_free (l : list seg) : option seg :=
  head (base.filter (λ s, s_used s = false) l).

Lemma pick_first_free size l : ∀ a f,
  first_free l = Some f →
  (s_size f < size → ∃ x, pick size a l None = Some (x, s_size f)) ∧
  (size ≤ s_size f → ∃ x sz, pick size a l None = Some (x, sz) ∧ size ≤ sz ∧
     Forall (λ s, s_used s = false → size ≤ s_size s → sz ≤ s_size s) l).
Proof.
  unfold first_free.
  induction l as [|s l IH]; intros a f; [done|].
  rewrite filter_cons. simpl. destruct (s_used s) eqn:Hu; simpl; intros Hf.
  { destruct (IH (a + s_size s) f Hf) as [IH1 IH2]. split; [done|].
    intros Hs. destruct (IH2 Hs) as (x & sz & -> & ? & ?).
    exists x, sz. split_and!; try done. constructor; [congruence|done]. }
  injection Hf as ->. split; intros Hs; destruct (Z.eqb_spec (s_size f) size).
  - lia.
  - exists a. by apply pick_stuck.
  - exists a, (s_size f). split_and!; try done. constructor; [lia|]. apply Forall_true. lia.
  - destruct (pick_tightest size l (a + s_size f) a (s_size f) Hs) as (x & sz & -> & ? & ?).
    exists x, sz. split_and!; try done; try lia. constructor; [lia|done].
Qed.

(** ** [Heap_Malloc] refines the choice on segments *)

(** The block [s] at address [a] after it was taken for a request of [size]. *)
Definition taken (size a : Z) (s : seg) : list seg :=
  if size + 2 * sizeof_block <=? s_size s
  then [mk_seg true size (s_prev s); mk_seg false (s_size s - size) a]
  else [mk_seg true (s_size s) (s_prev s)].

Lemma block_size_for_eq size :
  0 ≤ size ≤ 4294967232 → block_size_for size = 8 * ((size + 7) / 8) + 16.
Proof.
  intros Hs. unfold block_size_for, sizeof_block.
  rewrite <- Z.ldiff_land. change 7 with (Z.ones 3) at 2.
  rewrite Z.ldiff_ones_r, Z.shiftl_mul_pow2, Z.shiftr_div_pow2 by lia.
  change (2 ^ 3) with 8. word_lia.
Qed.

Lemma taken_total size a s : total (taken size a s) = s_size s.
Proof. unfold taken. case_match; simpl; lia. Qed.

Lemma taken_ok size a s :
  sizeof_block ≤ size → (8 | size) → seg_ok s → Forall seg_ok (taken size a s).
Proof.
  intros Hsz Hdiv [Hs Hd]. unfold taken. case_match eqn:E; repeat constructor; simpl; try done.
  - heap_lia.
  - by apply Z.divide_sub_r.
Qed.

Lemma taken_not_nil size a s : taken size a s ≠ [].
Proof. unfold taken. by case_match. Qed.

(** Where the last segment before [l2] points: to [l2] at [a], or to [nx]. *)
Definition next_of (l2 : list seg) (a nx : Z) : Z := match l2 with [] => nx | _ => a end.

Lemma chain_app_next bs a l1 l2 nx :
  chain bs a (l1 ++ l2) nx ↔
  chain bs a l1 (next_of l2 (a + total l1) nx) ∧ chain bs (a + total l1) l2 nx.
Proof.
  destruct l2 as [|s l2].
  - rewrite app_nil_r. simpl. tauto.
  - by apply chain_app.
Qed.

Lemma next_of_app l1 l2 a nx : l1 ≠ [] → next_of (l1 ++ l2) a nx = a.
Proof. by destruct l1. Qed.

(** Replace the segments [g] by [g'] of the same total size, when the headers
    outside of their range are as they were. *)
Lemma chain_replace bs bs' a l1 g g' l2 nx :
  chain bs a (l1 ++ g ++ l2) nx → Forall seg_ok (l1 ++ g ++ l2) →
  g ≠ [] → g' ≠ [] → total g' = total g →
  (∀ i, ¬ (a + total l1 ≤ i < a + total l1 + total g) → bs' !! i = bs !! i) →
  chain bs' (a + total l1) g' (next_of l2 (a + total l1 + total g) nx) →
  chain bs' a (l1 ++ g' ++ l2) nx.
Proof.
  rewrite !Forall_app. intros Hc (Hok1 & Hok & Hok2) Hg Hg' Htot Hf Hmid.
  pose proof (total_nonneg _ Hok). pose proof (total_nonneg _ Hok1).
  rewrite chain_app_next, chain_app_next, next_of_app in Hc by done.
  rewrite chain_app_next, chain_app_next, next_of_app by done.
  destruct Hc as (Hc1 & _ & Hc2). rewrite Htot. split_and!; [|done|].
  - eapply chain_frame; [|done..]. intros i Hi. apply Hf. lia.
  - eapply chain_frame; [|done..]. intros i Hi. apply Hf. lia.
Qed.

Lemma wf_mem_range heap l1 l2 :
  placed heap → Forall seg_ok (l1 ++ l2) → total (l1 ++ l2) = SYS_HEAP_SIZE →
  0 < heap + total l1 ∧ heap + total l1 + total l2 < 4294967296 ∧ (8 | heap + total l1).
Proof.
  intros (Hp & Hd & Hlt) Hok Ht. rewrite total_app in Ht. apply Forall_app in Hok as [Hok1 Hok2].
  pose proof (total_nonneg _ Hok1). pose proof (total_nonneg _ Hok2).
  split_and!; [lia..|]. by apply Z.divide_add_r, total_divide.
Qed.

(** The header updates [Heap_Malloc] makes on the block it chose. *)
Lemma malloc_take bs x s nx size :
  0 < x → x + s_size s < 4294967296 → sizeof_block ≤ size → size + 2 * sizeof_block < 4294967296 →
  seg_ok s → s_used s = false → chain bs x [s] nx →
  ∃ bs1 bs2,
    (if u32 (size + 2 * sizeof_block) <=? s_size s then
       let new_block := u32 (x + size) in
       let bs' := <[new_block := mk_block 0 (u32 (s_size s - size)) x nx]> bs in
       update bs' x (λ b, set_size size (set_next new_block b))
     else Ok bs) = Ok bs1 ∧
    update bs1 x (set_used USED_MARK) = Ok bs2 ∧
    (∀ i, ¬ (x ≤ i < x + s_size s) → bs2 !! i = bs !! i) ∧
    chain bs2 x (taken size x s) nx.
Proof.
  intros Hx Hend Hsz Hov [Hs _] Hu [Hh _]. rewrite Hu in Hh. simpl in Hh.
  unfold taken. rewrite u32_small by (unfold is_u32; heap_lia).
  destruct (Z.leb_spec (size + 2 * sizeof_block) (s_size s)).
  - rewrite !u32_small by (unfold is_u32; heap_lia).
    eexists _, _. split_and!.
    + apply update_some; [done|]. rewrite lookup_insert_ne by heap_lia. exact Hh.
    + apply update_some; [done|]. apply lookup_insert_eq.
    + intros i Hi. rewrite !lookup_insert_ne by heap_lia. done.
    + simpl. split_and!; [by rewrite lookup_insert_eq| |done].
      rewrite !lookup_insert_ne, lookup_insert_eq by heap_lia. done.
  - eexists _, _. split_and!; [done|by apply update_some| |].
    + intros i Hi. rewrite lookup_insert_ne by heap_lia. done.
    + simpl. split; [|done]. by rewrite lookup_insert_eq.
Qed.

Lemma Heap_Malloc_picked heap st l req :
  wf_heap heap st l → 0 ≤ req ≤ 4294967232 →
  match pick (block_size_for req) heap l None with
  | None => Heap_Malloc heap st req = Ok (st, 0)
  | Some (x, sz) => ∃ l1 s l2 st',
      l = l1 ++ s :: l2 ∧ s_used s = false ∧ s_size s = sz ∧ x = heap + total l1 ∧
      Heap_Malloc heap st req = Ok (st', x + sizeof_block) ∧
      wf_heap heap st' (l1 ++ taken (block_size_for req) x s ++ l2) ∧
      end_word st' = end_word st
  end.
Proof.
  intros (Hp & Hnil & Hok & Htot & Hc) Hreq.
  assert (Hsize : 16 ≤ block_size_for req ≤ 4294967248 ∧ (8 | block_size_for req)).
  { rewrite block_size_for_eq by lia. split; [lia|]. exists ((req + 7) / 8 + 2). lia. }
  destruct Hsize as [Hsize Hdiv].
  pose proof (best_fit_loop_ok (blocks st) (block_size_for req) l (S (size (blocks st)))
    heap None Hc Hok ltac:(heap_lia) ltac:(pose proof (chain_length _ _ _ _ Hok Hc); lia) I)
    as Hloop.
  replace (match l with [] => 0 | _ => heap end) with heap in Hloop by (by destruct l).
  unfold Heap_Malloc. simpl picked in Hloop. rewrite Hloop, bind_Ok.
  destruct (pick _ heap l None) as [[x sz]|] eqn:Hpick; [|done].
  apply pick_split in Hpick as [?|(l1 & s & l2 & -> & Hu & <- & ->)]; [done|].
  destruct (wf_mem_range heap l1 (s :: l2) Hp Hok Htot) as (Hx & Hend & Hal).
  pose proof (proj1 (Forall_app _ _ _) Hok) as [Hok1 [Hs Hok2]%Forall_cons].
  pose proof (total_nonneg _ Hok2). simpl total in Hend.
  change (s :: l2) with ([s] ++ l2) in Hc, Hok, Htot.
  rewrite (chain_app_next _ _ l1), (chain_app_next _ _ [s]), next_of_app in Hc by done.
  destruct Hc as (Hc1 & Hcs & Hc2).
  destruct (malloc_take (blocks st) (heap + total l1) s _ (block_size_for req)
    Hx ltac:(lia) ltac:(heap_lia) ltac:(heap_lia) Hs Hu Hcs) as (bs1 & bs2 & Hb1 & Hb2 & Hf & Hm).
  simpl picked. destruct (Z.eqb_spec (heap + total l1) 0); [lia|].
  rewrite (chain_deref _ _ _ _ _ Hx Hcs). simpl in Hb1 |- *.
  exists l1, s, l2, (mk_heap bs2 (end_word st)). split_and!; try done.
  - change (mret (blocks st)) with (Ok (blocks st)).
    rewrite Hb1, bind_Ok, Hb2, bind_Ok. simpl.
    by rewrite u32_small by (unfold is_u32; heap_lia).
  - pose proof (taken_ok (block_size_for req) (heap + total l1) s ltac:(heap_lia) Hdiv Hs) as Htk.
    split_and!; try done.
    + intros [_ [?%taken_not_nil _]%app_nil]%app_nil. done.
    + rewrite !Forall_app. done.
    + rewrite !total_app, taken_total in *. simpl in Htot. lia.
    + eapply (chain_replace (blocks st) _ _ _ [s]); try done.
      * rewrite chain_app_next, (chain_app_next _ _ [s]). by rewrite next_of_app.
      * apply taken_not_nil.
      * rewrite taken_total. simpl. lia.
      * simpl. rewrite Z.add_0_r. exact Hf.
Qed.

(** ** [Heap_Free] refines joining on segments *)

Definition joined (p n : seg) : seg := mk_seg (s_used p) (s_size p + s_size n) (s_prev p).
Definition retarget (x : Z) (s : seg) : seg := mk_seg (s_used s) (s_size s) x.
Definition released (s : seg) : seg := mk_seg false (s_size s) (s_prev s).

Definition header (s : seg) (nx : Z) : block :=
  mk_block (used_word (s_used s)) (s_size s) (s_prev s) nx.

(** Join the freed segment [b] at [x] with the segments [l2] after it. *)
Definition join_next (x : Z) (b : seg) (l2 : list seg) : res (seg * list seg) :=
  match l2 with
  | n :: l2' =>
      if s_used n then Ok (b, l2)
      else match l2' with
           | [] => Fault NullDeref
           | q :: r => Ok (joined b n, retarget x q :: r)
           end
  | [] => Ok (b, [])
  end.

(** Join it with the segment before it, the last one of [l1]. *)
Definition join_prev (heap : Z) (l1 : list seg) (b : seg) (l2 : list seg) : res (list seg) :=
  match last l1 with
  | Some p =>
      if s_used p then Ok (l1 ++ b :: l2)
      else match l2 with
           | [] => Fault NullDeref
           | q :: r =>
               let l1' := take (length l1 - 1) l1 in
               Ok (l1' ++ joined p b :: retarget (heap + total l1') q :: r)
           end
  | None => Ok (b :: l2)
  end.

Definition free_segs (heap : Z) (l1 : list seg) (b : seg) (l2 : list seg) : res (list seg) :=
  '(b, l2) ← join_next (heap + total l1) (released b) l2;
  join_prev heap l1 b l2.

Section join.
Context (bs : gmap Z block) (a : Z) (l1 : list seg) (nx : Z).
Hypothesis Ha : 0 < a.

Lemma chain_at s l2 :
  Forall seg_ok l1 → chain bs a (l1 ++ s :: l2) nx →
  0 < a + total l1 ∧
  bs !! (a + total l1) = Some (header s (next_of l2 (a + total l1 + s_size s) nx)).
Proof.
  intros Hok Hc. pose proof (total_nonneg _ Hok). split; [lia|].
  apply chain_app_next in Hc as [_ [Hh _]]. exact Hh.
Qed.

(** Releasing a block only changes its mark. *)
Lemma chain_release b l2 :
  Forall seg_ok (l1 ++ b :: l2) → chain bs a (l1 ++ b :: l2) nx →
  ∃ bs', update bs (a + total l1) (set_used 0) = Ok bs' ∧
         chain bs' a (l1 ++ released b :: l2) nx.
Proof.
  intros Hok Hc. pose proof (proj1 (Forall_app _ _ _) Hok) as [Hok1 [[Hs _] Hok2]%Forall_cons].
  destruct (chain_at _ _ Hok1 Hc) as [Hx Hb].
  eexists. split; [by apply update_some|].
  eapply (chain_replace bs _ _ _ [b] [released b]); try done.
  - intros i Hi. rewrite lookup_insert_ne; [done|]. simpl in Hi. heap_lia.
  - simpl. rewrite lookup_insert_eq, Z.add_0_r. done.
Qed.

(** Joining two neighbours that are followed by a third one. *)
Lemma join_blocks_ok p n q l2 :
  Forall seg_ok (l1 ++ p :: n :: q :: l2) → chain bs a (l1 ++ p :: n :: q :: l2) nx →
  a + total (l1 ++ p :: n :: q :: l2) < 4294967296 →
  let x := a + total l1 in
  ∃ bs', join_blocks bs x (header n (x + s_size p + s_size n)) = Ok bs' ∧
         chain bs' a (l1 ++ joined p n :: retarget x q :: l2) nx.
Proof.
  intros Hok Hc Hend x.
  pose proof (proj1 (Forall_app _ _ _) Hok) as [Hok1 [[Hp Hpd] [[Hn Hnd] [[Hq Hqd] Hok2]%Forall_cons]%Forall_cons]%Forall_cons].
  pose proof (total_nonneg _ Hok1). pose proof (total_nonneg _ Hok2).
  rewrite total_app in Hend. simpl in Hend.
  destruct (chain_at _ _ Hok1 Hc) as [Hx Hhp]. fold x in Hx, Hhp.
  apply chain_app_next in Hc as Hc'. destruct Hc' as (_ & _ & _ & Hhq & _). fold x in Hhq.
  unfold join_blocks. rewrite (update_some _ _ _ _ Hx Hhp), bind_Ok. simpl.
  erewrite update_some; [|done|apply lookup_insert_eq]. rewrite bind_Ok.
  erewrite update_some; [|heap_lia|rewrite !lookup_insert_ne by heap_lia; exact Hhq].
  eexists. split; [done|].
  eapply (chain_replace bs _ _ _ [p; n; q] [joined p n; retarget x q]); try done.
  - simpl. lia.
  - intros i Hi. simpl in Hi. rewrite !lookup_insert_ne by heap_lia. done.
  - fold x. unfold joined, retarget. simpl. split_and!; [| |done].
    + rewrite lookup_insert_ne, lookup_insert_eq by heap_lia.
      rewrite u32_small by (unfold is_u32; heap_lia). by rewrite Z.add_assoc.
    + rewrite Z.add_assoc, lookup_insert_eq.
      unfold set_prev. simpl. do 3 f_equal. destruct l2; simpl; lia.
Qed.

(** The comma expression dereferences null when nothing follows. *)
Lemma join_blocks_last p n :
  nx = 0 → Forall seg_ok (l1 ++ [p; n]) → chain bs a (l1 ++ [p; n]) nx →
  join_blocks bs (a + total l1) (header n nx) = Fault NullDeref.
Proof.
  intros Hnx Hok Hc. apply Forall_app in Hok as [Hok1 _].
  destruct (chain_at p [n] Hok1 Hc) as [Hx Hhp]. rewrite Hnx.
  unfold join_blocks. rewrite (update_some _ _ _ _ Hx Hhp), bind_Ok. simpl.
  erewrite update_some; [|done|apply lookup_insert_eq]. done.
Qed.
End join.

(** Address of the last segment of [l] placed from [a] on, [p] if there is none. *)
Fixpoint last_addr (p a : Z) (l : list seg) : Z :=
  match l with [] => p | s :: l' => last_addr a (a + s_size s) l' end.

Lemma last_addr_snoc p a l s : last_addr p a (l ++ [s]) = a + total l.
Proof.
  revert p a. induction l as [|s' l IH]; intros p a; simpl; [lia|]. rewrite IH. lia.
Qed.

Lemma prevs_ok_app p a l1 l2 :
  prevs_ok p a (l1 ++ l2) ↔ prevs_ok p a l1 ∧ prevs_ok (last_addr p a l1) (a + total l1) l2.
Proof.
  revert p a. induction l1 as [|s l1 IH]; intros p a; simpl.
  - rewrite Z.add_0_r. tauto.
  - rewrite IH, Z.add_assoc. tauto.
Qed.

(** A well-linked list of segments below the top of the address space. *)
Definition linked (bs : gmap Z block) (a : Z) (l : list seg) : Prop :=
  0 < a ∧ a + total l < 4294967296 ∧ Forall seg_ok l ∧ chain bs a l 0.

Lemma seg_ok_joined p n : seg_ok p → seg_ok n → seg_ok (joined p n).
Proof.
  intros [Hp Hpd] [Hn Hnd]. split; simpl; [heap_lia|]. by apply Z.divide_add_r.
Qed.

Lemma linked_join bs a l1 p n q l2 :
  linked bs a (l1 ++ p :: n :: q :: l2) →
  let x := a + total l1 in
  ∃ bs', join_blocks bs x (header n (x + s_size p + s_size n)) = Ok bs' ∧
         linked bs' a (l1 ++ joined p n :: retarget x q :: l2).
Proof.
  intros (Ha & Hend & Hok & Hc) x.
  destruct (join_blocks_ok bs a l1 0 Ha p n q l2 Hok Hc Hend) as (bs' & Hj & Hc').
  exists bs'. split; [done|]. rewrite total_app in Hend. simpl in Hend.
  split_and!; [done| |  |done].
  - rewrite total_app. simpl. lia.
  - apply Forall_app in Hok as [? [? [? [? ?]%Forall_cons]%Forall_cons]%Forall_cons].
    apply Forall_app; split; [done|]. constructor; [by apply seg_ok_joined|].
    by constructor.
Qed.

Lemma join_with_next_ok bs a l1 b l2 :
  linked bs a (l1 ++ b :: l2) →
  let x := a + total l1 in
  match join_next x b l2 with
  | Fault e => join_with_next bs x = Fault e
  | Ok (b', l2') => ∃ bs', join_with_next bs x = Ok bs' ∧ linked bs' a (l1 ++ b' :: l2')
  end.
Proof.
  intros Hl x. pose proof Hl as (Ha & Hend & Hok & Hc).
  pose proof (proj1 (Forall_app _ _ _) Hok) as [Hok1 [Hb Hok2]%Forall_cons].
  destruct (chain_at bs a l1 0 Ha b l2 Hok1 Hc) as [Hx Hhb]. fold x in Hx, Hhb.
  unfold join_with_next. rewrite (deref_some _ _ _ Hx Hhb), bind_Ok. simpl b_next.
  destruct l2 as [|n l2]; simpl; [by exists bs|].
  destruct (Z.eqb_spec (x + s_size b) 0); [heap_lia|].
  apply chain_app_next in Hc as Hc'. destruct Hc' as (_ & _ & Hhn & _). fold x in Hhn.
  erewrite deref_some; [|heap_lia|exact Hhn]. rewrite bind_Ok. simpl b_used.
  rewrite used_word_zero. destruct (s_used n); simpl; [by exists bs|].
  destruct l2 as [|q l2].
  - by apply (join_blocks_last bs a l1 0 Ha b n).
  - by apply linked_join.
Qed.

Lemma join_with_prev_ok bs a l1 b l2 :
  linked bs a (l1 ++ b :: l2) →
  s_prev b = last_addr 0 a l1 →
  let x := a + total l1 in
  match join_prev a l1 b l2 with
  | Fault e => join_with_prev bs x = Fault e
  | Ok l => ∃ bs', join_with_prev bs x = Ok bs' ∧ linked bs' a l
  end.
Proof.
  intros Hl Hprev x. pose proof Hl as (Ha & Hend & Hok & Hc).
  pose proof (proj1 (Forall_app _ _ _) Hok) as [Hok1 [Hb Hok2]%Forall_cons].
  destruct (chain_at bs a l1 0 Ha b l2 Hok1 Hc) as [Hx Hhb]. fold x in Hx, Hhb.
  unfold join_with_prev, join_prev. rewrite (deref_some _ _ _ Hx Hhb), bind_Ok.
  simpl b_prev. rewrite Hprev. clear Hprev.
  destruct l1 as [|p l1 _] using rev_ind; simpl; [by exists bs|].
  rewrite last_addr_snoc, last_snoc, length_app, Nat.add_sub, take_app_length.
  rewrite <- app_assoc in Hl, Hok, Hc. simpl in Hl, Hok, Hc.
  apply Forall_app in Hok1 as [Hok1 _].
  destruct (chain_at bs a l1 0 Ha p (b :: l2) Hok1 Hc) as [Hy Hhp].
  destruct (Z.eqb_spec (a + total l1) 0); [lia|].
  rewrite (deref_some _ _ _ Hy Hhp), bind_Ok. simpl b_used.
  rewrite used_word_zero. destruct (s_used p); simpl.
  { exists bs. by rewrite <- app_assoc. }
  assert (x = a + total l1 + s_size p) as ->. { unfold x. rewrite total_app. simpl. lia. }
  destruct l2 as [|q l2].
  - by apply (join_blocks_last bs a l1 0 Ha p b).
  - by apply linked_join.
Qed.


(** The merges keep the total size and the back links. *)
Lemma join_next_keeps heap l1 b l2 b' l2' :
  join_next (heap + total l1) b l2 = Ok (b', l2') →
  prevs_ok 0 heap (l1 ++ b :: l2) →
  total (l1 ++ b' :: l2') = total (l1 ++ b :: l2) ∧ prevs_ok 0 heap (l1 ++ b' :: l2').
Proof.
  rewrite !total_app, !prevs_ok_app. destruct l2 as [|n l2]; simpl; [by intros [= <- <-]|].
  destruct (s_used n); [by intros [= <- <-]|].
  destruct l2 as [|q l2]; [done|]. intros [= <- <-]. simpl.
  intros (? & ? & _ & _ & ?). rewrite !Z.add_assoc in *. split_and!; try done; lia.
Qed.

Lemma join_prev_keeps heap l1 b l2 l' :
  join_prev heap l1 b l2 = Ok l' →
  prevs_ok 0 heap (l1 ++ b :: l2) →
  total l' = total (l1 ++ b :: l2) ∧ prevs_ok 0 heap l' ∧ l' ≠ [].
Proof.
  unfold join_prev. destruct l1 as [|p l1 _] using rev_ind; [by intros [= <-]|].
  rewrite last_snoc, length_app, Nat.add_sub, take_app_length.
  destruct (s_used p).
  { intros [= <-] H. split_and!; [done..|]. by destruct l1. }
  destruct l2 as [|q l2]; [done|]. intros [= <-].
  rewrite <- app_assoc, !total_app, !prevs_ok_app. simpl.
  intros (? & [? _] & _ & _ & ?). rewrite !Z.add_assoc, !Z.add_0_r in *.
  split_and!; try done. by destruct l1.
Qed.

(** An allocation succeeds on a well-formed heap exactly when a segment is free. *)
Lemma first_free_None l : first_free l = None ↔ Forall (λ s, s_used s = true) l.
Proof.
  unfold first_free. induction l as [|s l IH]; [done|].
  rewrite filter_cons, Forall_cons. destruct (s_used s); simpl; [tauto|]. split; [done|]. by intros [? _].
Qed.

Lemma chain_check bs a l : ∀ fuel,
  0 < a → Forall seg_ok l → chain bs a l 0 → (length l < fuel)%nat →
  check_blocks fuel bs (next_of l a 0) = Ok ().
Proof.
  revert a. induction l as [|s l IH]; intros a [|fuel] Ha Hok Hc Hf; simpl in Hf; try lia; [done|].
  apply Forall_cons in Hok as [[Hs _] Hok]. simpl. destruct (Z.eqb_spec a 0); [lia|].
  rewrite (chain_deref _ _ _ _ _ Ha Hc), bind_Ok. simpl b_used.
  replace ((used_word (s_used s) =? 0) || (used_word (s_used s) =? USED_MARK)) with true
    by (by destruct (s_used s)).
  apply IH; [heap_lia|done|by destruct Hc|lia].
Qed.

Lemma Heap_Free_segs heap st l1 b l2 :
  wf_heap heap st (l1 ++ b :: l2) → prevs_ok 0 heap (l1 ++ b :: l2) →
  match free_segs heap l1 b l2 with
  | Fault e => Heap_Free st (heap + total l1 + sizeof_block) = Fault e
  | Ok l' => ∃ st', Heap_Free st (heap + total l1 + sizeof_block) = Ok st' ∧
               wf_heap heap st' l' ∧ prevs_ok 0 heap l' ∧ end_word st' = end_word st
  end.
Proof.
  intros (Hp & _ & Hok & Htot & Hc) Hprevs.
  destruct (wf_mem_range heap l1 (b :: l2) Hp Hok Htot) as (Hx & Hend & _).
  pose proof (proj1 (Forall_app _ _ _) Hok) as [Hok1 [Hb Hok2]%Forall_cons].
  pose proof (total_nonneg _ Hok2). pose proof (proj1 Hb).
  assert (0 < heap) as Hh by heap_lia.
  destruct (chain_release (blocks st) heap l1 0 Hh b l2 Hok Hc) as (bs0 & Hu & Hc0).
  assert (linked bs0 heap (l1 ++ released b :: l2)) as Hl0.
  { split; [done|]. split; [|split; [|done]].
    - rewrite total_app in *. simpl in *. heap_lia.
    - apply Forall_app. by split; [|constructor]. }
  assert (prevs_ok 0 heap (l1 ++ released b :: l2)) as Hp0.
  { rewrite prevs_ok_app in *. done. }
  unfold Heap_Free, free_segs. simpl in Hend.
  destruct (Z.eqb_spec (heap + total l1 + sizeof_block) 0); [heap_lia|].
  replace (heap + total l1 + sizeof_block -u sizeof_block) with (heap + total l1)
    by (rewrite u32_small; unfold is_u32; heap_lia).
  rewrite Hu, bind_Ok.
  pose proof (join_with_next_ok bs0 heap l1 _ l2 Hl0) as Hn. simpl in Hn.
  destruct (join_next _ _ l2) as [[b1 l2']|e] eqn:Hjn; [|by rewrite Hn].
  destruct Hn as (bs1 & -> & Hl1). rewrite !bind_Ok.
  destruct (join_next_keeps _ _ _ _ _ _ Hjn Hp0) as [Ht1 Hp1].
  assert (s_prev b1 = last_addr 0 heap l1) as Hpb by by apply prevs_ok_app in Hp1 as [_ [? _]].
  pose proof (join_with_prev_ok bs1 heap l1 b1 l2' Hl1 Hpb) as Hpv. simpl in Hpv.
  destruct (join_prev heap l1 b1 l2') as [l'|e] eqn:Hjp; [|by rewrite Hpv].
  destruct Hpv as (bs2 & -> & _ & _ & Hok' & Hc').
  destruct (join_prev_keeps _ _ _ _ _ Hjp Hp1) as (Ht2 & Hp2 & Hnil).
  eexists. split; [done|]. split; [|done]. unfold wf_heap. do 4 (split; [try done|]); try done.
  rewrite Ht2, Ht1, <- Htot, !total_app. done.
Qed.

(** A fresh heap: one free segment. *)
Definition fresh : list seg := [mk_seg false SYS_HEAP_SIZE 0].

Lemma Heap_Init_wf heap st :
  placed heap → ∃ st', Heap_Init heap st = Ok (st', EOK) ∧ wf_heap heap st' fresh ∧
    prevs_ok 0 heap fresh ∧ end_word st' = USED_MARK.
Proof.
  intros Hp. eexists. split; [reflexivity|]. split; [|done].
  split; [done|]. split; [done|]. split; [|split; [done|]].
  - constructor; [|done]. split; simpl; [heap_lia|by exists 4608].
  - split; [|done]. simpl. by rewrite lookup_insert_eq.
Qed.

(** The addresses of the blocks in use, with the sizes of their user areas. *)
Fixpoint live (a : Z) (l : list seg) : list (Z * Z) :=
  match l with
  | [] => []
  | s :: l' => (if s_used s then [(a + sizeof_block, s_size s - sizeof_block)] else [])
                 ++ live (a + s_size s) l'
  end.

Lemma live_range a l p n :
  Forall seg_ok l → (p, n) ∈ live a l → a + sizeof_block ≤ p ∧ 0 ≤ n ∧ p + n ≤ a + total l.
Proof.
  revert a. induction l as [|s l IH]; intros a Hok; simpl; [by rewrite elem_of_nil|].
  apply Forall_cons in Hok as [[Hs _] Hok]. pose proof (total_nonneg _ Hok) as Hnn.
  rewrite elem_of_app. intros [Hin|Hin%IH]; [|heap_lia|done].
  destruct (s_used s); [|by apply elem_of_nil in Hin].
  apply list_elem_of_singleton in Hin as [= -> ->]. heap_lia.
Qed.

Lemma live_app a l1 l2 : live a (l1 ++ l2) = live a l1 ++ live (a + total l1) l2.
Proof.
  revert a. induction l1 as [|s l1 IH]; intros a; simpl; [by rewrite Z.add_0_r|].
  by rewrite IH, <- app_assoc, Z.add_assoc.
Qed.

Lemma live_joined a l1 p n q l2 :
  s_used p = false → s_used n = false →
  live a (l1 ++ joined p n :: retarget (a + total l1) q :: l2) = live a (l1 ++ p :: n :: q :: l2).
Proof.
  intros Hp Hn. rewrite !live_app. simpl. rewrite Hp, Hn. simpl. by rewrite !Z.add_assoc.
Qed.

(** Freeing takes exactly the freed block out of the live ones. *)
Lemma free_segs_live heap l1 b l2 l' :
  free_segs heap l1 b l2 = Ok l' →
  live heap l' = live heap l1 ++ live (heap + total l1 + s_size b) l2.
Proof.
  unfold free_segs. intros H. inv_ok. destruct a as [b' l2'].
  assert (live heap (l1 ++ b' :: l2') = live heap l1 ++ live (heap + total l1 + s_size b) l2
          ∧ s_used b' = false) as [<- Hb'].
  { rewrite live_app. destruct l2 as [|n l2]; simpl in Ha; [by simplify_eq/=|].
    destruct (s_used n) eqn:Hn; [by simplify_eq/=|]. destruct l2 as [|q l2]; [done|].
    simplify_eq/=. by rewrite Hn, Z.add_assoc. }
  unfold join_prev in H. destruct l1 as [|p l1 _] using rev_ind; [by simplify_eq/=|].
  rewrite last_snoc, length_app, Nat.add_sub, take_app_length in H.
  destruct (s_used p) eqn:Hp; [by simplify_eq/=|]. destruct l2' as [|q l2']; [done|].
  injection H as <-. rewrite live_joined by done. by rewrite <- app_assoc.
Qed.

(** Live areas in list order do not reach into each other. *)
Lemma live_sorted a l :
  Forall seg_ok l →
  ∀ i j p n q k, (i < j)%nat → live a l !! i = Some (p, n) → live a l !! j = Some (q, k) →
  p + n ≤ q - sizeof_block.
Proof.
  intros Hok. revert a. induction Hok as [|s l Hs Hok IH]; intros a i j p n q k Hij; [done|].
  simpl. destruct (s_used s); simpl; [|by apply IH].
  destruct i as [|i], j as [|j]; simpl; try lia.
  - intros [= <- <-] Hj%list_elem_of_lookup_2. apply live_range in Hj; [|done].
    destruct Hs. heap_lia.
  - apply IH. lia.
Qed.

(** A concrete placement and the heap right after [Heap_Init]. *)
Definition ram_heap : Z := 0x20000000.
Definition st_fresh : heap_t :=
  mk_heap {[ram_heap := mk_block 0 SYS_HEAP_SIZE 0 0]} USED_MARK.

Lemma ram_placed : placed ram_heap.
Proof. split; [done|]. split; [by exists 0x4000000|done]. Qed.

Lemma st_fresh_wf : wf_heap ram_heap st_fresh fresh.
Proof.
  destruct (Heap_Init_wf ram_heap (mk_heap ∅ 0) ram_placed) as (st & Hi & Hwf & _ & _).
  injection Hi as <-. exact Hwf.
Qed.

(** The segments after [a = Malloc 16, b = Malloc 16, c = Malloc 16]. *)
Definition three : list seg :=
  [mk_seg true 32 0; mk_seg true 32 ram_heap; mk_seg true 32 (ram_heap + 32);
   mk_seg false (SYS_HEAP_SIZE - 96) (ram_heap + 64)].
Definition st_three : heap_t :=
  mk_heap (<[ram_heap := mk_block USED_MARK 32 0 (ram_heap + 32)]>
          (<[ram_heap + 32 := mk_block USED_MARK 32 ram_heap (ram_heap + 64)]>
          (<[ram_heap + 64 := mk_block USED_MARK 32 (ram_heap + 32) (ram_heap + 96)]>
          {[ram_heap + 96 := mk_block 0 (SYS_HEAP_SIZE - 96) (ram_heap + 64) 0]}))) USED_MARK.

Lemma st_three_wf : wf_heap ram_heap st_three three.
Proof.
  split; [apply ram_placed|]. split; [done|].
  split; [|split; [done|by vm_compute]].
  repeat constructor; try done; try (by exists 4); by exists 4596.
Qed.

Lemma three_prevs : prevs_ok 0 ram_heap three.
Proof. by vm_compute. Qed.

(** ** Properties *)

(** C2: On a well-formed heap [Heap_Malloc] always terminates without faulting.
    It returns null, leaving the heap as it was, exactly when no segment is
    free; otherwise it takes one free segment, splitting off the rest when that
    is at least one header larger, returns an 8-aligned pointer just past that
    segment's header, and leaves a well-formed heap in which every other
    segment is what it was. *)
Theorem Heap_Malloc_refines heap st l req :
  wf_heap heap st l → 0 ≤ req ≤ 4294967232 →
  (Forall (λ s, s_used s = true) l ∧ Heap_Malloc heap st req = Ok (st, 0)) ∨
  ∃ l1 s l2 st', l = l1 ++ s :: l2 ∧ s_used s = false ∧
    let x := heap + total l1 in
    Heap_Malloc heap st req = Ok (st', x + sizeof_block) ∧ (8 | x + sizeof_block) ∧
    wf_heap heap st' (l1 ++ taken (block_size_for req) x s ++ l2) ∧
    end_word st' = end_word st.
Proof.
  intros Hwf Hreq. pose proof (Heap_Malloc_picked heap st l req Hwf Hreq) as H.
  destruct (pick _ heap l None) as [[x sz]|] eqn:Hpick.
  - destruct H as (l1 & s & l2 & st' & -> & Hu & Hsz & -> & Hm & Hwf' & He).
    destruct Hwf as (Hp & _ & Hok & Ht & _).
    destruct (wf_mem_range heap l1 (s :: l2) Hp Hok Ht) as (_ & _ & Hal).
    right. exists l1, s, l2, st'. do 2 (split; [done|]). simpl. split; [done|].
    split; [|done]. apply Z.divide_add_r; [exact Hal|by exists 2].
  - apply pick_None in Hpick as [_ ?]. by left.
Qed.

(** The block [Heap_Malloc] returns is large enough exactly when the first
    free block of the list is.  When it is, the block taken is the smallest of
    all free blocks that are large enough (best fit); when it is not, the
    search never lets go of that first block and the caller is handed a block
    smaller than requested. *)
Theorem Heap_Malloc_best_fit heap st l req f :
  wf_heap heap st l → 0 ≤ req ≤ 4294967232 → first_free l = Some f →
  ∃ l1 s l2 st', l = l1 ++ s :: l2 ∧ s_used s = false ∧
    Heap_Malloc heap st req = Ok (st', heap + total l1 + sizeof_block) ∧
    (s_size f < block_size_for req → s_size s = s_size f) ∧
    (block_size_for req ≤ s_size f →
       block_size_for req ≤ s_size s ∧
       Forall (λ s', s_used s' = false → block_size_for req ≤ s_size s' →
                     s_size s ≤ s_size s') l).
Proof.
  intros Hwf Hreq Hf. pose proof (Heap_Malloc_picked heap st l req Hwf Hreq) as H.
  destruct (pick_first_free (block_size_for req) l heap f Hf) as [Hsmall Hfit].
  destruct (pick _ heap l None) as [[x sz]|] eqn:Hpick.
  - destruct H as (l1 & s & l2 & st' & Hl & Hu & Hsz & -> & Hm & _).
    exists l1, s, l2, st'. split_and!; try done.
    + intros (? & [= _ <-])%Hsmall. done.
    + intros (? & ? & [= _ <-] & ? & ?)%Hfit. by rewrite Hsz.
  - apply pick_None in Hpick as [_ ?%first_free_None]. congruence.
Qed.

(** C3: Freeing a block of a heap whose back links are accurate does what
    joining the segments says: the block becomes free, is merged with a free
    successor and a free predecessor, the heap stays well-formed, the back
    links stay accurate and the other live blocks are what they were.  When a
    merge involves the last block of the heap the code writes through the null
    [next] pointer of that block instead. *)
Theorem Heap_Free_refines heap st l1 b l2 :
  wf_heap heap st (l1 ++ b :: l2) → prevs_ok 0 heap (l1 ++ b :: l2) →
  match free_segs heap l1 b l2 with
  | Fault e => Heap_Free st (heap + total l1 + sizeof_block) = Fault e
  | Ok l' => ∃ st', Heap_Free st (heap + total l1 + sizeof_block) = Ok st' ∧
               wf_heap heap st' l' ∧ prevs_ok 0 heap l' ∧ end_word st' = end_word st ∧
               live heap l' = live heap l1 ++ live (heap + total l1 + s_size b) l2
  end.
Proof.
  intros Hwf Hprevs. pose proof (Heap_Free_segs heap st l1 b l2 Hwf Hprevs) as H.
  destruct (free_segs heap l1 b l2) as [l'|e] eqn:E; [|done].
  destruct H as (st' & ? & ? & ? & ?). exists st'.
  do 4 (split; [done|]). by apply free_segs_live.
Qed.

(** The first allocation of a fresh heap cannot be freed again: its
    successor is the free last block, and the merge writes through null. *)
Theorem first_malloc_free_faults heap st req :
  placed heap → 0 ≤ req ≤ SYS_HEAP_SIZE - 56 →
  ∃ st0 st1 p, Heap_Init heap st = Ok (st0, EOK) ∧ Heap_Malloc heap st0 req = Ok (st1, p) ∧
    p ≠ 0 ∧ Heap_Free st1 p = Fault NullDeref.
Proof.
  intros Hp Hreq. destruct (Heap_Init_wf heap st Hp) as (st0 & Hi & Hwf & _ & _).
  assert (block_size_for req + 2 * sizeof_block ≤ SYS_HEAP_SIZE) as Hfit.
  { unfold SYS_HEAP_SIZE in *. rewrite block_size_for_eq by lia. heap_lia. }
  assert (taken (block_size_for req) heap (mk_seg false SYS_HEAP_SIZE 0)
    = [mk_seg true (block_size_for req) 0; mk_seg false (SYS_HEAP_SIZE - block_size_for req) heap])
    as Htk.
  { unfold taken. simpl. by rewrite (proj2 (Z.leb_le _ _) Hfit). }
  pose proof (Heap_Malloc_picked heap st0 fresh req Hwf ltac:(heap_lia)) as H.
  assert (pick (block_size_for req) heap fresh None = Some (heap, SYS_HEAP_SIZE)) as Hpick.
  { unfold fresh. cbn [pick s_used s_size]. by destruct (_ =? _). }
  rewrite Hpick in H. destruct H as (l1 & s & l2 & st1 & Hl & _ & _ & _ & Hm & Hwf1 & _).
  destruct l1 as [|? [|]]; [|done|done]. injection Hl as <- <-. cbn [total] in Hm, Hwf1. rewrite app_nil_l, app_nil_r in Hwf1.
  rewrite Htk in Hwf1. exists st0, st1, (heap + sizeof_block).
  do 2 (split; [done|]). split; [heap_lia|].
  pose proof (Heap_Free_segs heap st1 [] _ _ Hwf1) as Hf.
  cbn [total] in Hf. rewrite Z.add_0_r in Hf. by apply Hf.
Qed.

(** On a well-formed heap [Heap_CheckIntegrity] walks all blocks and
    returns [EOK] (it fails its assertion exactly when the signature word is
    damaged), and the user areas of the live blocks lie inside the array and
    are pairwise apart by at least a header. *)
Theorem wf_heap_integrity heap st l :
  wf_heap heap st l →
  Heap_CheckIntegrity heap st =
    (if end_word st =? USED_MARK then Ok EOK else Fault AssertFailed) ∧
  (∀ p n, (p, n) ∈ live heap l →
     heap + sizeof_block ≤ p ∧ 0 ≤ n ∧ p + n ≤ heap + SYS_HEAP_SIZE) ∧
  (∀ i j p n q k, (i < j)%nat → live heap l !! i = Some (p, n) → live heap l !! j = Some (q, k) →
     p + n ≤ q - sizeof_block).
Proof.
  intros (Hp & Hnil & Hok & Htot & Hc). rewrite <- Htot. split; [|split].
  - unfold Heap_CheckIntegrity. destruct (end_word st =? USED_MARK); [|done]. simpl c_assert.
    rewrite bind_Ok. pose proof (chain_length _ _ _ _ Hok Hc).
    pose proof (chain_check (blocks st) heap l (S (size (blocks st))) ltac:(heap_lia) Hok Hc
      ltac:(lia)) as H1.
    replace (next_of l heap 0) with heap in H1 by (by destruct l). by rewrite H1.
  - intros p n. by apply live_range.
  - by apply live_sorted.
Qed.

(** ** Witnesses and concrete runs *)

Lemma Heap_Malloc_refines_witness :
  wf_heap ram_heap st_fresh fresh ∧
  ∃ st', Heap_Malloc ram_heap st_fresh 100 = Ok (st', ram_heap + 16).
Proof.
  split; [apply st_fresh_wf|].
  destruct (Heap_Malloc_refines ram_heap st_fresh fresh 100 st_fresh_wf ltac:(lia))
    as [[Hall _]|(l1 & s & l2 & st' & Hl & _ & Hm & _)].
  - apply Forall_cons in Hall as [H _]. discriminate H.
  - exists st'. unfold fresh in Hl. destruct l1 as [|? [|]]; [|discriminate Hl|discriminate Hl].
    cbn [total] in Hm. rewrite Z.add_0_r in Hm. exact Hm.
Defined.

Lemma Heap_Malloc_best_fit_witness :
  ∃ l1 s l2 st', fresh = l1 ++ s :: l2 ∧ s_used s = false ∧
    Heap_Malloc ram_heap st_fresh 100 = Ok (st', ram_heap + total l1 + sizeof_block) ∧
    block_size_for 100 ≤ s_size s.
Proof.
  destruct (Heap_Malloc_best_fit ram_heap st_fresh fresh 100 (mk_seg false SYS_HEAP_SIZE 0)
    st_fresh_wf ltac:(lia) eq_refl) as (l1 & s & l2 & st' & Hl & Hu & Hm & _ & Hfit).
  exists l1, s, l2, st'. refine (conj Hl (conj Hu (conj Hm (proj1 (Hfit _))))).
  vm_compute. discriminate.
Defined.

Lemma Heap_Free_refines_witness :
  ∃ st', Heap_Free st_three (ram_heap + 32 + sizeof_block) = Ok st' ∧
    wf_heap ram_heap st'
      [mk_seg true 32 0; mk_seg false 32 ram_heap; mk_seg true 32 (ram_heap + 32);
       mk_seg false (SYS_HEAP_SIZE - 96) (ram_heap + 64)].
Proof.
  destruct (Heap_Free_refines ram_heap st_three [mk_seg true 32 0] (mk_seg true 32 ram_heap)
    [mk_seg true 32 (ram_heap + 32); mk_seg false (SYS_HEAP_SIZE - 96) (ram_heap + 64)]
    st_three_wf three_prevs) as (st' & Hf & Hwf & _).
  exists st'. split; [exact Hf|exact Hwf].
Defined.

Lemma first_malloc_free_faults_witness :
  ∃ st0 st1 p, Heap_Init ram_heap (mk_heap ∅ 0) = Ok (st0, EOK) ∧
    Heap_Malloc ram_heap st0 1000 = Ok (st1, p) ∧ p ≠ 0 ∧ Heap_Free st1 p = Fault NullDeref.
Proof. apply first_malloc_free_faults; [apply ram_placed | heap_lia]. Defined.

Lemma wf_heap_integrity_witness :
  Heap_CheckIntegrity ram_heap st_three = Ok EOK ∧
  live ram_heap three = [(ram_heap + 16, 16); (ram_heap + 48, 16); (ram_heap + 80, 16)].
Proof.
  split; [|reflexivity].
  destruct (wf_heap_integrity ram_heap st_three three st_three_wf) as [H _]. exact H.
Defined.

(** [a] and [c] are taken, [a] is given back: the first free block is too
    small for 1000 bytes, but it is returned and reaches into [c]. *)
Example small_block_for_large_request :
  ('(st, _) ← Heap_Init ram_heap (mk_heap ∅ 0);
   '(st, a) ← Heap_Malloc ram_heap st 16;
   '(st, c) ← Heap_Malloc ram_heap st 16;
   st ← Heap_Free st a;
   '(st, x) ← Heap_Malloc ram_heap st 1000;
   Ok (x - ram_heap, c - ram_heap)) = Ok (16, 48).
Proof. vm_compute. reflexivity. Qed.

(** Splitting leaves the [prev] of the block after the new one pointing to the
    block that was split; freeing across it later joins the wrong blocks and
    the last allocation overlaps the live block [n]. *)
Example stale_prev_overlaps :
  ('(st, _) ← Heap_Init ram_heap (mk_heap ∅ 0);
   '(st, a) ← Heap_Malloc ram_heap st 100;
   '(st, c) ← Heap_Malloc ram_heap st 16;
   '(st, d) ← Heap_Malloc ram_heap st 16;
   st ← Heap_Free st a;
   '(st, a) ← Heap_Malloc ram_heap st 16;
   '(st, n) ← Heap_Malloc ram_heap st 40;
   st ← Heap_Free st a;
   st ← Heap_Free st c;
   '(st, x) ← Heap_Malloc ram_heap st 40;
   Ok (x - ram_heap, n - ram_heap)) = Ok (16, 48).
Proof. vm_compute. reflexivity. Qed.
