(* ===== verification/CString.v ===== *)
(** * String and memory routines (util/src/string.c)

    Every routine runs over the byte memory [mem] of the prelude; a pointer is
    an address.  Loops over a size recurse on that size; loops that run until a
    terminator or until memory ends have fuel [S (size m)], which is enough
    because every iteration looks at one more mapped address: the theorems show
    that they return.  [char] is unsigned on this target. *)
From S2P Require Import Prelude.

(** ** Operations *)

(** One [*d++ = *s++] after the other, [k] times. *)
Fixpoint copy_run (m : mem) (d s : Z) (k : nat) : res (mem * Z * Z) :=
  match k with
  | O => Ok (m, d, s)
  | S k' =>
      b ← load8 m s;
      m ← store8 m d b;
      copy_run m (d + 1) (s + 1) k'
  end.

(** The [do ... while (--n > 0)] of Duff's device; the first round is entered
    in the middle and copies [k] bytes. *)
Fixpoint duff_loop (fuel : nat) (m : mem) (d s : Z) (k : nat) (n : Z) : res mem :=
  match fuel with
  | O => Fault OutOfFuel
  | S fuel' =>
      '(m, d, s) ← copy_run m d s k;
      let n := u32 (n - 1) in
      if 0 <? n then duff_loop fuel' m d s 8 n else Ok m
  end.

(** [memcpy]; the destination is returned by the code unchanged. *)
Definition memcpy (m : mem) (dst src size : Z) : res mem :=
  let n := u32 (size + 7) / 8 in
  if size =? 0 then Ok m
  else
    let k := if size mod 8 =? 0 then 8%nat else Z.to_nat (size mod 8) in
    duff_loop (S (base.size m)) m dst src k n.

Fixpoint memcmp_loop (m : mem) (p1 p2 : Z) (num : nat) : res Z :=
  match num with
  | O => Ok 0
  | S num' =>
      b1 ← load8 m p1;
      b2 ← load8 m p2;
      if b2 <? b1 then Ok 1
      else if b1 <? b2 then Ok (-1)
      else memcmp_loop m (p1 + 1) (p2 + 1) num'
  end.

Definition memcmp (m : mem) (p1 p2 num : Z) : res Z := memcmp_loop m p1 p2 (Z.to_nat num).

Fixpoint memset_loop (m : mem) (p value : Z) (size : nat) : res mem :=
  match size with
  | O => Ok m
  | S size' => m ← store8 m p value; memset_loop m (p + 1) value size'
  end.

Definition memset (m : mem) (ptr value size : Z) : res mem :=
  memset_loop m ptr value (Z.to_nat size).

Fixpoint strlen_loop (fuel : nat) (m : mem) (p ptr : Z) : res Z :=
  match fuel with
  | O => Fault OutOfFuel
  | S fuel' => c ← load8 m p; if c =? 0 then Ok (p - ptr) else strlen_loop fuel' m (p + 1) ptr
  end.

Definition strlen (m : mem) (ptr : Z) : res Z := strlen_loop (S (size m)) m ptr ptr.

(** [while ( *p++ && size < max_len)]: the byte is read before the limit is
    looked at. *)
Fixpoint strnlen_loop (fuel : nat) (m : mem) (p size max_len : Z) : res Z :=
  match fuel with
  | O => Fault OutOfFuel
  | S fuel' =>
      c ← load8 m p;
      if negb (c =? 0) && (size <? max_len) then strnlen_loop fuel' m (p + 1) (size + 1) max_len
      else Ok size
  end.

Definition strnlen (m : mem) (ptr max_len : Z) : res Z :=
  strnlen_loop (S (size m)) m ptr 0 max_len.

Fixpoint strcmp_loop (fuel : nat) (m : mem) (s1 s2 : Z) : res Z :=
  match fuel with
  | O => Fault OutOfFuel
  | S fuel' =>
      c1 ← load8 m s1;
      if c1 =? 0 then c2 ← load8 m s2; Ok (c1 - c2)
      else
        c2 ← load8 m s2;
        if c1 =? c2 then strcmp_loop fuel' m (s1 + 1) (s2 + 1) else Ok (c1 - c2)
  end.

Definition strcmp (m : mem) (s1 s2 : Z) : res Z := strcmp_loop (S (size m)) m s1 s2.

(** [tolower] and [toupper] of util/src/stdio.c. *)
Definition tolower (c : Z) : Z := if (65 <=? c) && (c <=? 90) then c - (65 - 97) else c.
Definition toupper (c : Z) : Z := if (97 <=? c) && (c <=? 122) then c - (97 - 65) else c.

Fixpoint strcicmp_loop (fuel : nat) (m : mem) (a b : Z) : res Z :=
  match fuel with
  | O => Fault OutOfFuel
  | S fuel' =>
      ca ← load8 m a;
      cb ← load8 m b;
      let d := tolower ca - tolower cb in
      if negb (d =? 0) || (ca =? 0) then Ok d else strcicmp_loop fuel' m (a + 1) (b + 1)
  end.

Definition strcicmp (m : mem) (a b : Z) : res Z := strcicmp_loop (S (size m)) m a b.

(** [d] is uninitialised until the first pair of characters was compared. *)
Fixpoint strncicmp_loop (m : mem) (a b : Z) (max_size : nat) (d : option Z) : res Z :=
  match max_size with
  | O => match d with Some d => Ok d | None => Fault Uninit end
  | S max_size' =>
      ca ← load8 m a;
      cb ← load8 m b;
      let d := tolower ca - tolower cb in
      if negb (d =? 0) || (ca =? 0) then Ok d
      else strncicmp_loop m (a + 1) (b + 1) max_size' (Some d)
  end.

Definition strncicmp (m : mem) (a b max_size : Z) : res Z :=
  strncicmp_loop m a b (Z.to_nat max_size) None.

Fixpoint strcpy_loop (fuel : nat) (m : mem) (dst src : Z) : res mem :=
  match fuel with
  | O => Fault OutOfFuel
  | S fuel' =>
      c ← load8 m src;
      m ← store8 m dst c;
      if c =? 0 then Ok m else strcpy_loop fuel' m (dst + 1) (src + 1)
  end.

Definition strcpy (m : mem) (dst src : Z) : res mem := strcpy_loop (S (size m)) m dst src.

(** First loop of [strncpy]: how many bytes were copied. *)
Fixpoint strncpy_copy (m : mem) (dst src : Z) (i : Z) (rem : nat) : res (mem * Z * nat) :=
  match rem with
  | O => Ok (m, i, O)
  | S rem' =>
      c ← load8 m (src + i);
      if c =? 0 then Ok (m, i, rem)
      else m ← store8 m (dst + i) c; strncpy_copy m dst src (i + 1) rem'
  end.

Definition strncpy (m : mem) (dst src size : Z) : res mem :=
  '(m, i, rem) ← strncpy_copy m dst src 0 (Z.to_nat size);
  memset_loop m (dst + i) 0 rem.

Fixpoint strlcpy_loop (m : mem) (dst src i : Z) (rem : nat) : res (mem * Z) :=
  c ← load8 m (src + i);
  if c =? 0 then Ok (m, i)
  else match rem with
       | O => Ok (m, i)
       | S rem' => m ← store8 m (dst + i) c; strlcpy_loop m dst src (i + 1) rem'
       end.

Definition strlcpy (m : mem) (dst src size : Z) : res (mem * Z) :=
  if size =? 0 then Ok (m, 0)
  else
    '(m, i) ← strlcpy_loop m dst src 0 (Z.to_nat (size - 1));
    m ← store8 m (dst + i) 0;
    Ok (m, i).

Fixpoint strstr_loop (fuel : nat) (m : mem) (s1 s2 n : Z) : res Z :=
  match fuel with
  | O => Fault OutOfFuel
  | S fuel' =>
      c ← load8 m s1;
      if c =? 0 then Ok 0
      else
        r ← memcmp m s1 s2 n;
        if r =? 0 then Ok s1 else strstr_loop fuel' m (s1 + 1) s2 n
  end.

(** [strstr]: a null result is 0. *)
Definition strstr (m : mem) (s1 s2 : Z) : res Z :=
  n ← strlen m s2; strstr_loop (S (size m)) m s1 s2 n.

(** Inner loop of [strcistr]: only the last difference survives. *)
Fixpoint strcistr_rest (fuel : nat) (m : mem) (a b d : Z) : res Z :=
  match fuel with
  | O => Fault OutOfFuel
  | S fuel' =>
      cb ← load8 m b;
      if cb =? 0 then Ok d
      else ca ← load8 m a; strcistr_rest fuel' m (a + 1) (b + 1) (tolower ca - tolower cb)
  end.

Fixpoint strcistr_loop (fuel : nat) (m : mem) (s1 s2 : Z) (d : option Z) : res Z :=
  match fuel with
  | O => Fault OutOfFuel
  | S fuel' =>
      c1 ← load8 m s1;
      if c1 =? 0 then
        match d with Some d => Ok (if d =? 0 then s1 else 0) | None => Fault Uninit end
      else
        c2 ← load8 m s2;
        let d := tolower c1 - tolower c2 in
        if negb (d =? 0) then strcistr_loop fuel' m (s1 + 1) s2 (Some d)
        else
          d ← strcistr_rest (S (size m)) m (s1 + 1) (s2 + 1) d;
          if d =? 0 then Ok s1 else strcistr_loop fuel' m (s1 + 1) s2 (Some d)
  end.

Definition strcistr (m : mem) (s1 s2 : Z) : res Z :=
  if s2 =? 0 then Ok s1 else strcistr_loop (S (size m)) m s1 s2 None.

(** ** Strings in memory *)

(** The NUL-terminated string [s] is stored at [a]. *)
Definition cstr (m : mem) (a : Z) (s : list Z) : Prop :=
  bytes_at m a (s ++ [0]) ∧ Forall (λ c, 0 < c < 256) s.

(** Two address ranges do not meet. *)
Definition apart (a n b k : Z) : Prop := a + n ≤ b ∨ b + k ≤ a.

Lemma cstr_nil m a : cstr m a [] → load8 m a = Ok 0.
Proof. intros [H _]. by apply load8_bytes in H. Qed.

Lemma cstr_cons m a c s : cstr m a (c :: s) → load8 m a = Ok c ∧ 0 < c < 256 ∧ cstr m (a + 1) s.
Proof.
  intros [H [Hc Hs]%Forall_cons]. split; [by eapply load8_bytes|]. by destruct H.
Qed.

Lemma cstr_length m a s : cstr m a s → (length s < size m)%nat.
Proof.
  intros [H _]. apply bytes_at_mapped, mapped_size in H. rewrite length_app in H. simpl in H. lia.
Qed.

Lemma cstr_u8 m a s : cstr m a s → Forall is_u8 s.
Proof. intros [_ H]. eapply Forall_impl; [exact H|]. intros c. simpl. word_lia. Qed.

Lemma cstr_frame m a s d l :
  cstr m a s → apart d (length l) a (length s + 1) → cstr (put_bytes m d l) a s.
Proof.
  intros [H Hs] Ha. split; [|done]. apply put_bytes_bytes_at_other; [|done].
  rewrite length_app. simpl. unfold apart in Ha. lia.
Qed.

Lemma store8_u8 m a v : is_Some (m !! a) → is_u8 v → store8 m a v = Ok (<[a := v]> m).
Proof. intros Ha Hv. rewrite store8_mapped by done. by rewrite u8_small. Qed.

(** ** Copying *)

Lemma copy_run_ok l : ∀ m d s,
  bytes_at m s l → mapped m d (length l) → Forall is_u8 l → apart d (length l) s (length l) →
  copy_run m d s (length l) = Ok (put_bytes m d l, d + length l, s + length l).
Proof.
  induction l as [|b l IH]; intros m d s Hs Hd Hl Ha; simpl.
  { by rewrite !Z.add_0_r. }
  rewrite (load8_bytes _ _ _ _ Hs), bind_Ok. destruct Hs as [Hb Hs].
  apply Forall_cons in Hl as [Hbu Hl]. apply mapped_cons in Hd as [Hd0 Hd].
  rewrite store8_u8, bind_Ok by done. simpl in Ha. rewrite IH.
  - do 2 f_equal; [f_equal|]; lia.
  - apply (put_bytes_bytes_at_other m d [b]); [|done]. unfold apart in Ha. simpl. lia.
  - by apply mapped_insert.
  - done.
  - unfold apart in *. lia.
Qed.

Lemma duff_loop_ok : ∀ fuel m d s k n l,
  bytes_at m s l → mapped m d (length l) → Forall is_u8 l → apart d (length l) s (length l) →
  1 ≤ n < 4294967296 → length l = (k + 8 * Z.to_nat (n - 1))%nat → (Z.to_nat n ≤ fuel)%nat →
  duff_loop fuel m d s k n = Ok (put_bytes m d l).
Proof.
  induction fuel as [|fuel IH]; intros m d s k n l Hs Hd Hl Ha Hn Hk Hf; [lia|]. simpl.
  assert (length (take k l) = k) as Htk by (rewrite length_take; lia).
  rewrite <- (take_drop k l) in Hs, Hd, Hl, Ha. rewrite length_app in Hd, Ha.
  apply bytes_at_app in Hs as [Hs1 Hs2]. apply mapped_app in Hd as [Hd1 Hd2].
  apply Forall_app in Hl as [Hl1 Hl2]. unfold apart in Ha.
  pose proof (copy_run_ok (take k l) m d s Hs1 Hd1 Hl1 ltac:(unfold apart; lia)) as Hrun.
  rewrite Htk in *. rewrite Hrun, bind_Ok. rewrite u32_small by (unfold is_u32; lia).
  destruct (Z.ltb_spec 0 (n - 1)).
  - rewrite (IH _ _ _ _ _ (drop k l)).
    + rewrite <- (take_drop k l) at 3. by rewrite put_bytes_app, Htk.
    + apply put_bytes_bytes_at_other; [rewrite Htk; lia|done].
    + by apply put_bytes_mapped.
    + done.
    + unfold apart. lia.
    + lia.
    + rewrite length_drop. lia.
    + lia.
  - rewrite take_ge; [done|lia].
Qed.

Lemma memcpy_ok m dst src l :
  bytes_at m src l → mapped m dst (length l) → Forall is_u8 l →
  apart dst (length l) src (length l) → length l < 4294967288 →
  memcpy m dst src (length l) = Ok (put_bytes m dst l).
Proof.
  intros Hs Hd Hl Ha Hn. unfold memcpy. destruct (Z.eqb_spec (length l) 0) as [E|E].
  { by destruct l. }
  pose proof (mapped_size m dst (length l) Hd).
  apply duff_loop_ok; try done; rewrite ?u32_small by (unfold is_u32; lia).
  - lia.
  - destruct (Z.eqb_spec (length l mod 8) 0); lia.
  - lia.
Qed.

Lemma memset_loop_ok n : ∀ m p v,
  mapped m p n → memset_loop m p v n = Ok (put_bytes m p (replicate n (u8 v))).
Proof.
  induction n as [|n IH]; intros m p v Hp; simpl; [done|].
  apply mapped_cons in Hp as [Hp0 Hp]. rewrite store8_mapped by done. rewrite bind_Ok.
  by apply IH, mapped_insert.
Qed.

(** ** Lengths *)

Lemma strlen_loop_ok s : ∀ fuel m p ptr,
  cstr m p s → (length s < fuel)%nat → strlen_loop fuel m p ptr = Ok (p + length s - ptr).
Proof.
  induction s as [|c s IH]; intros [|fuel] m p ptr Hs Hf; simpl in Hf; try lia; simpl.
  - rewrite (cstr_nil _ _ Hs), bind_Ok. simpl. f_equal. lia.
  - destruct (cstr_cons _ _ _ _ Hs) as (-> & Hc & Hs'). rewrite bind_Ok.
    destruct (Z.eqb_spec c 0); [lia|]. rewrite IH by (done || lia). f_equal. lia.
Qed.

Lemma strlen_ok m a s : cstr m a s → strlen m a = Ok (Z.of_nat (length s)).
Proof.
  intros Hs. pose proof (cstr_length _ _ _ Hs). unfold strlen.
  rewrite (strlen_loop_ok s) by (done || lia). f_equal. lia.
Qed.

Lemma strnlen_loop_ok s : ∀ fuel m p size max_len,
  cstr m p s → (length s < fuel)%nat → size ≤ max_len →
  strnlen_loop fuel m p size max_len = Ok (size + Z.min (length s) (max_len - size)).
Proof.
  induction s as [|c s IH]; intros [|fuel] m p size max_len Hs Hf Hm; simpl in Hf; try lia; simpl.
  - rewrite (cstr_nil _ _ Hs), bind_Ok. simpl. f_equal. lia.
  - destruct (cstr_cons _ _ _ _ Hs) as (-> & Hc & Hs'). rewrite bind_Ok.
    destruct (Z.eqb_spec c 0); [lia|]. simpl. destruct (Z.ltb_spec size max_len).
    + rewrite IH by (done || lia). f_equal. lia.
    + f_equal. lia.
Qed.

Lemma strnlen_ok m a s max_len :
  cstr m a s → 0 ≤ max_len → strnlen m a max_len = Ok (Z.min (length s) max_len).
Proof.
  intros Hs Hm. pose proof (cstr_length _ _ _ Hs). unfold strnlen.
  rewrite (strnlen_loop_ok s) by (done || lia). f_equal. lia.
Qed.

(** A buffer that is full up to the limit is read one byte past its end. *)
Lemma strnlen_loop_overread l : ∀ fuel m p size,
  bytes_at m p l → Forall (λ c, 0 < c < 256) l → m !! (p + length l) = None →
  (length l < fuel)%nat →
  strnlen_loop fuel m p size (size + length l) = Fault OutOfBounds.
Proof.
  induction l as [|c l IH]; intros [|fuel] m p size Hl Hc Hn Hf; simpl in Hf; try lia; simpl.
  - unfold load8. simpl in Hn. rewrite Z.add_0_r in Hn. by rewrite Hn.
  - rewrite (load8_bytes _ _ _ _ Hl), bind_Ok. destruct Hl as [_ Hl].
    apply Forall_cons in Hc as [Hc Hcs].
    destruct (Z.eqb_spec c 0); [lia|]. simpl.
    destruct (Z.ltb_spec size (size + S (length l))); [|lia].
    replace (size + S (length l)) with (size + 1 + length l) by lia.
    apply IH; try done; [|lia]. rewrite <- Hn. f_equal. simpl. lia.
Qed.

(** ** Comparing *)

(** Difference of the first characters in which two strings differ, an end
    counting as NUL. *)
Fixpoint str_diff (s1 s2 : list Z) : Z :=
  match s1, s2 with
  | [], [] => 0
  | [], d :: _ => 0 - d
  | c :: _, [] => c
  | c :: s1', d :: s2' => if c =? d then str_diff s1' s2' else c - d
  end.

Lemma str_diff_zero s1 s2 :
  Forall (λ c, 0 < c) s1 → Forall (λ c, 0 < c) s2 → str_diff s1 s2 = 0 ↔ s1 = s2.
Proof.
  intros H1. revert s2. induction H1 as [|c s1 Hc _ IH]; intros [|d s2] H2; simpl; try done.
  - apply Forall_cons in H2 as [? _]. split; [lia|done].
  - split; [lia|done].
  - apply Forall_cons in H2 as [Hd H2]. destruct (Z.eqb_spec c d) as [<-|Hne].
    + rewrite IH by done. split; congruence.
    + split; [lia|congruence].
Qed.

Lemma str_diff_antisym s1 s2 : str_diff s2 s1 = - str_diff s1 s2.
Proof.
  revert s2. induction s1 as [|c s1 IH]; intros [|d s2]; simpl; try lia.
  rewrite (Z.eqb_sym d c). destruct (c =? d); [apply IH|lia].
Qed.

Lemma strcmp_loop_ok s1 : ∀ fuel m a b s2,
  cstr m a s1 → cstr m b s2 → (length s1 < fuel)%nat →
  strcmp_loop fuel m a b = Ok (str_diff s1 s2).
Proof.
  induction s1 as [|c s1 IH]; intros [|fuel] m a b s2 H1 H2 Hf; simpl in Hf; try lia; simpl.
  - rewrite (cstr_nil _ _ H1), bind_Ok. simpl. destruct s2 as [|d s2].
    + by rewrite (cstr_nil _ _ H2).
    + by destruct (cstr_cons _ _ _ _ H2) as (-> & _).
  - destruct (cstr_cons _ _ _ _ H1) as (-> & Hc & H1'). rewrite bind_Ok.
    destruct (Z.eqb_spec c 0); [lia|]. destruct s2 as [|d s2].
    + rewrite (cstr_nil _ _ H2), bind_Ok. destruct (Z.eqb_spec c 0); [lia|]. f_equal. lia.
    + destruct (cstr_cons _ _ _ _ H2) as (-> & Hd & H2'). rewrite bind_Ok.
      destruct (c =? d); [|done]. apply IH; [done..|lia].
Qed.

Lemma tolower_pos c : 0 < c → 0 < tolower c.
Proof. unfold tolower. destruct (65 <=? c) eqn:?, (c <=? 90) eqn:?; simpl; lia. Qed.

Lemma strcicmp_loop_ok s1 : ∀ fuel m a b s2,
  cstr m a s1 → cstr m b s2 → (length s1 < fuel)%nat →
  strcicmp_loop fuel m a b = Ok (str_diff (map tolower s1) (map tolower s2)).
Proof.
  induction s1 as [|c s1 IH]; intros [|fuel] m a b s2 H1 H2 Hf; simpl in Hf; try lia; simpl.
  - rewrite (cstr_nil _ _ H1), bind_Ok. destruct s2 as [|d s2].
    + by rewrite (cstr_nil _ _ H2).
    + destruct (cstr_cons _ _ _ _ H2) as (-> & _). rewrite bind_Ok. by rewrite orb_true_r.
  - destruct (cstr_cons _ _ _ _ H1) as (-> & Hc & H1'). rewrite bind_Ok.
    pose proof (tolower_pos c ltac:(lia)). destruct s2 as [|d s2].
    + rewrite (cstr_nil _ _ H2), bind_Ok. change (tolower 0) with 0. rewrite Z.sub_0_r.
      by destruct (Z.eqb_spec (tolower c) 0); [lia|].
    + destruct (cstr_cons _ _ _ _ H2) as (-> & Hd & H2'). rewrite bind_Ok.
      destruct (Z.eqb_spec c 0); [lia|]. rewrite orb_false_r. simpl.
      destruct (Z.eqb_spec (tolower c) (tolower d)) as [->|Hne].
      * rewrite Z.sub_diag. simpl. apply IH; [done..|lia].
      * destruct (Z.eqb_spec (tolower c - tolower d) 0); [lia|done].
Qed.

Lemma strncicmp_loop_ok n : ∀ m a b s1 s2 d0,
  cstr m a s1 → cstr m b s2 → (n = O → d0 = Some 0) → (d0 = None ∨ d0 = Some 0) →
  strncicmp_loop m a b n d0 = Ok (str_diff (map tolower (take n s1)) (map tolower (take n s2))).
Proof.
  induction n as [|n IH]; intros m a b s1 s2 d0 H1 H2 Hn Hd0; simpl.
  { by rewrite Hn. }
  destruct s1 as [|c s1].
  - rewrite (cstr_nil _ _ H1), bind_Ok. destruct s2 as [|d s2].
    + by rewrite (cstr_nil _ _ H2).
    + destruct (cstr_cons _ _ _ _ H2) as (-> & _). rewrite bind_Ok. by rewrite orb_true_r.
  - destruct (cstr_cons _ _ _ _ H1) as (-> & Hc & H1'). rewrite bind_Ok.
    pose proof (tolower_pos c ltac:(lia)). destruct s2 as [|d s2].
    + rewrite (cstr_nil _ _ H2), bind_Ok. change (tolower 0) with 0. rewrite Z.sub_0_r.
      by destruct (Z.eqb_spec (tolower c) 0); [lia|].
    + destruct (cstr_cons _ _ _ _ H2) as (-> & Hd & H2'). rewrite bind_Ok.
      destruct (Z.eqb_spec c 0); [lia|]. rewrite orb_false_r. simpl.
      destruct (Z.eqb_spec (tolower c) (tolower d)) as [->|Hne].
      * rewrite Z.sub_diag. simpl. apply IH; auto.
      * destruct (Z.eqb_spec (tolower c - tolower d) 0); [lia|done].
Qed.

Lemma memcmp_loop_ok l1 : ∀ m a b l2,
  bytes_at m a l1 → bytes_at m b l2 → length l1 = length l2 →
  memcmp_loop m a b (length l1) = Ok (Z.sgn (str_diff l1 l2)).
Proof.
  induction l1 as [|c l1 IH]; intros m a b [|d l2] H1 H2 Hl; try done; simpl.
  rewrite (load8_bytes _ _ _ _ H1), bind_Ok, (load8_bytes _ _ _ _ H2), bind_Ok.
  destruct H1 as [_ H1], H2 as [_ H2].
  destruct (Z.ltb_spec d c), (Z.ltb_spec c d), (Z.eqb_spec c d); try lia; simpl.
  - f_equal. lia.
  - f_equal. lia.
  - apply IH; [done..|]. simpl in Hl. lia.
Qed.

(** ** Searching *)

(** Index of the first place in [s] where [t] starts. *)
Fixpoint find_sub (t s : list Z) : option nat :=
  match s with
  | [] => None
  | _ :: s' => if decide (t `prefix_of` s) then Some O else S <$> find_sub t s'
  end.

Lemma find_sub_Some t s i :
  find_sub t s = Some i ↔
  (i < length s)%nat ∧ t `prefix_of` drop i s ∧ ∀ j, (j < i)%nat → ¬ t `prefix_of` drop j s.
Proof.
  revert i. induction s as [|c s IH]; intros i; simpl.
  { split; [done|lia]. }
  destruct (decide (t `prefix_of` c :: s)) as [Hp|Hp].
  - split; [intros [= <-]; split; [lia|split; [done|lia]]|].
    intros (_ & _ & Hno). destruct i as [|i]; [done|]. by destruct (Hno O); [lia|].
  - rewrite fmap_Some. setoid_rewrite IH. split.
    + intros (i' & (Hi & Hpre & Hno) & ->). split; [lia|]. split; [done|].
      intros [|j] Hj; [done|]. apply Hno. lia.
    + intros (Hi & Hpre & Hno). destruct i as [|i]; [done|]. exists i. split; [|done].
      split; [lia|]. split; [done|]. intros j Hj. apply (Hno (S j)). lia.
Qed.

Lemma find_sub_None t s :
  find_sub t s = None ↔ ∀ j, (j < length s)%nat → ¬ t `prefix_of` drop j s.
Proof.
  induction s as [|c s IH]; simpl; [split; [lia|done]|].
  destruct (decide (t `prefix_of` c :: s)) as [Hp|Hp].
  - split; [done|]. intros H. by destruct (H O); [lia|].
  - rewrite fmap_None, IH. split.
    + intros H [|j] Hj; [done|]. apply H. lia.
    + intros H j Hj. apply (H (S j)). lia.
Qed.

(** Comparing a NUL-free [t] with the start of a string never reads past the
    string's terminator. *)
Lemma memcmp_prefix t : ∀ m a b s,
  cstr m a s → bytes_at m b t → Forall (λ c, 0 < c < 256) t →
  ∃ r, memcmp_loop m a b (length t) = Ok r ∧ (r = 0 ↔ t `prefix_of` s).
Proof.
  induction t as [|d t IH]; intros m a b s Hs Ht Hp; simpl.
  { exists 0. split; [done|]. split; [|done]. intros _. apply prefix_nil. }
  apply Forall_cons in Hp as [Hd Hp]. destruct s as [|c s].
  - rewrite (cstr_nil _ _ Hs), bind_Ok, (load8_bytes _ _ _ _ Ht), bind_Ok.
    destruct (Z.ltb_spec d 0), (Z.ltb_spec 0 d); try lia.
    exists (-1). split; [done|]. split; [done|]. by intros ?%prefix_nil_inv.
  - destruct (cstr_cons _ _ _ _ Hs) as (-> & Hc & Hs').
    rewrite bind_Ok, (load8_bytes _ _ _ _ Ht), bind_Ok. destruct Ht as [_ Ht].
    destruct (Z.ltb_spec d c), (Z.ltb_spec c d); try lia.
    + exists 1. split; [done|]. split; [done|]. intros ?%prefix_cons_inv_1. lia.
    + exists (-1). split; [done|]. split; [done|]. intros ?%prefix_cons_inv_1. lia.
    + destruct (IH m (a + 1) (b + 1) s Hs' Ht Hp) as (r & -> & Hr).
      exists r. split; [done|]. rewrite Hr. assert (d = c) as -> by lia. split.
      * apply prefix_cons.
      * apply prefix_cons_inv_2.
Qed.

Lemma strstr_loop_ok s : ∀ fuel m a b t,
  cstr m a s → cstr m b t → (length s < fuel)%nat →
  strstr_loop fuel m a b (length t) =
    Ok (match find_sub t s with Some i => a + i | None => 0 end).
Proof.
  induction s as [|c s IH]; intros [|fuel] m a b t Hs Ht Hf; simpl in Hf; try lia.
  - simpl. by rewrite (cstr_nil _ _ Hs).
  - cbn [strstr_loop find_sub]. destruct (cstr_cons _ _ _ _ Hs) as (-> & Hc & Hs').
    rewrite bind_Ok. destruct (Z.eqb_spec c 0); [lia|].
    unfold memcmp. rewrite Nat2Z.id.
    destruct (memcmp_prefix t m a b (c :: s) Hs) as (r & -> & Hr).
    { destruct Ht as [Ht _]. by apply bytes_at_app in Ht as [Ht _]. }
    { apply Ht. }
    rewrite bind_Ok. destruct (Z.eqb_spec r 0) as [->|Hne], (decide (t `prefix_of` c :: s)).
    + f_equal. lia.
    + tauto.
    + tauto.
    + rewrite (IH fuel m (a + 1) b t Hs' Ht) by lia.
      destruct (find_sub t s); simpl; f_equal. lia.
Qed.

(** ** Copying strings *)

Lemma strcpy_loop_ok s : ∀ fuel m dst src,
  cstr m src s → mapped m dst (length s + 1) → apart dst (length s + 1) src (length s + 1) →
  (length s < fuel)%nat → strcpy_loop fuel m dst src = Ok (put_bytes m dst (s ++ [0])).
Proof.
  induction s as [|c s IH]; intros [|fuel] m dst src Hs Hd Ha Hf; simpl in Hf, Hd; try lia; simpl.
  - rewrite (cstr_nil _ _ Hs), bind_Ok. apply mapped_cons in Hd as [Hd _].
    by rewrite store8_u8 by done.
  - pose proof (cstr_cons _ _ _ _ Hs) as (-> & Hc & Hs'). apply mapped_cons in Hd as [Hd0 Hd].
    rewrite bind_Ok, store8_u8, bind_Ok by (done || word_lia).
    destruct (Z.eqb_spec c 0); [lia|]. unfold apart in Ha. simpl in Ha.
    apply IH; [|by apply mapped_insert|unfold apart; lia|lia].
    apply (cstr_frame m (src + 1) s dst [c]); [done|]. unfold apart. simpl. lia.
Qed.

(** [strncpy] copies what is there of the string, [strlcpy] one byte less than
    the size: both loops, started at offset [i] with the rest [s]. *)
Lemma strncpy_copy_ok s : ∀ n m dst src i,
  cstr m (src + i) s → mapped m (dst + i) n → apart (dst + i) n (src + i) (length s + 1) →
  strncpy_copy m dst src i n =
    Ok (put_bytes m (dst + i) (take n s), i + length (take n s), (n - length s)%nat).
Proof.
  induction s as [|c s IH]; intros [|n] m dst src i Hs Hd Ha; simpl; rewrite ?Z.add_0_r; try done.
  - by rewrite (cstr_nil _ _ Hs).
  - pose proof (cstr_cons _ _ _ _ Hs) as (-> & Hc & Hs'). apply mapped_cons in Hd as [Hd0 Hd].
    rewrite bind_Ok. destruct (Z.eqb_spec c 0); [lia|].
    rewrite store8_u8, bind_Ok by (done || word_lia). unfold apart in Ha. simpl in Ha.
    rewrite IH; [rewrite Z.add_assoc; do 3 f_equal; lia|..].
    + rewrite Z.add_assoc. apply (cstr_frame m (src + i + 1) s (dst + i) [c]); [done|].
      unfold apart. simpl. lia.
    + rewrite Z.add_assoc. by apply mapped_insert.
    + unfold apart. lia.
Qed.

Lemma strlcpy_loop_ok s : ∀ n m dst src i,
  cstr m (src + i) s → mapped m (dst + i) n → apart (dst + i) n (src + i) (length s + 1) →
  strlcpy_loop m dst src i n =
    Ok (put_bytes m (dst + i) (take n s), i + length (take n s)).
Proof.
  induction s as [|c s IH]; intros n m dst src i Hs Hd Ha.
  - assert (strlcpy_loop m dst src i n = Ok (m, i)) as ->.
    { destruct n; simpl; by rewrite (cstr_nil _ _ Hs). }
    rewrite take_nil. simpl. by rewrite Z.add_0_r.
  - pose proof (cstr_cons _ _ _ _ Hs) as (Hl & Hc & Hs').
    destruct n as [|n]; simpl; rewrite Hl, bind_Ok; (destruct (Z.eqb_spec c 0); [lia|]).
    { by rewrite Z.add_0_r. }
    apply mapped_cons in Hd as [Hd0 Hd]. unfold apart in Ha. simpl in Ha.
    rewrite store8_u8, bind_Ok by (done || word_lia).
    rewrite IH; [rewrite Z.add_assoc; do 2 f_equal; lia|..].
    + rewrite Z.add_assoc. apply (cstr_frame m (src + i + 1) s (dst + i) [c]); [done|].
      unfold apart. simpl. lia.
    + rewrite Z.add_assoc. by apply mapped_insert.
    + unfold apart. lia.
Qed.

(** ** Properties *)

(** [memcpy] (Duff's device) copies every byte of the source and touches
    nothing else, for every size the round counter can hold, between ranges
    that do not meet. *)
Theorem memcpy_copies m dst src l :
  bytes_at m src l → mapped m dst (length l) → Forall is_u8 l →
  apart dst (length l) src (length l) → length l < 4294967288 →
  ∃ m', memcpy m dst src (length l) = Ok m' ∧ bytes_at m' dst l ∧ bytes_at m' src l ∧
        ∀ a, ¬ (dst ≤ a < dst + length l) → m' !! a = m !! a.
Proof.
  intros Hs Hd Hl Ha Hn. exists (put_bytes m dst l). split; [by apply memcpy_ok|].
  split; [apply put_bytes_bytes_at|]. split.
  - apply put_bytes_bytes_at_other; [|done]. unfold apart in Ha. lia.
  - apply put_bytes_lookup_ne.
Qed.

(** [strcmp], [strcicmp] and [strncicmp] return on any two strings; the
    result is the difference of the first characters that differ, so it is zero
    exactly for equal strings (equal up to case, up to case and length) and
    changes sign when the strings are swapped. *)
Theorem string_compare m a b s1 s2 n :
  cstr m a s1 → cstr m b s2 → 0 < n →
  strcmp m a b = Ok (str_diff s1 s2) ∧ (str_diff s1 s2 = 0 ↔ s1 = s2) ∧
  strcmp m b a = Ok (- str_diff s1 s2) ∧
  strcicmp m a b = Ok (str_diff (map tolower s1) (map tolower s2)) ∧
  (str_diff (map tolower s1) (map tolower s2) = 0 ↔ map tolower s1 = map tolower s2) ∧
  strncicmp m a b n = Ok (str_diff (map tolower (take (Z.to_nat n) s1))
                                   (map tolower (take (Z.to_nat n) s2))).
Proof.
  intros H1 H2 Hn. pose proof (cstr_length _ _ _ H1). pose proof (cstr_length _ _ _ H2).
  assert (∀ s m' a', cstr m' a' s → Forall (λ c, 0 < c) s) as Hpos.
  { intros s m' a' [_ Hs]. eapply Forall_impl; [exact Hs|]. simpl. lia. }
  split; [by apply strcmp_loop_ok; [..|lia]|]. split; [apply str_diff_zero; eauto|].
  split; [rewrite <- str_diff_antisym; by apply strcmp_loop_ok; [..|lia]|].
  split; [by apply strcicmp_loop_ok; [..|lia]|]. split.
  - apply str_diff_zero; apply Forall_fmap; eapply Forall_impl; eauto using tolower_pos.
  - apply strncicmp_loop_ok; auto. intros. lia.
Qed.

(** [strstr] stays inside both strings and returns the address of the first
    occurrence, or null when there is none. *)
Theorem strstr_first m a b s t :
  cstr m a s → cstr m b t → 0 < a →
  ∃ r, strstr m a b = Ok r ∧
    ((∃ i, r = a + Z.of_nat i ∧ (i < length s)%nat ∧ t `prefix_of` drop i s ∧
           ∀ j, (j < i)%nat → ¬ t `prefix_of` drop j s) ∨
     r = 0 ∧ ∀ j, (j < length s)%nat → ¬ t `prefix_of` drop j s).
Proof.
  intros Hs Ht Ha. pose proof (cstr_length _ _ _ Hs). unfold strstr.
  rewrite (strlen_ok _ _ _ Ht), bind_Ok, (strstr_loop_ok s) by (done || lia).
  eexists. split; [done|]. destruct (find_sub t s) as [i|] eqn:E.
  - left. exists i. split; [done|]. by apply find_sub_Some.
  - right. split; [done|]. by apply find_sub_None.
Qed.

(** [strcpy], [strncpy] and [strlcpy] write what they promise: the whole
    string, the string cut or zero-filled to the size, and the string cut to
    one byte less with a terminator, whose length is returned.  [strlcpy] thus
    always leaves a terminated string and never writes past the size. *)
Theorem string_copy m dst src s size :
  cstr m src s → mapped m dst (Nat.max (Z.to_nat size) (length s + 1)) →
  apart dst (Nat.max (Z.to_nat size) (length s + 1)) src (length s + 1) → 0 < size →
  strcpy m dst src = Ok (put_bytes m dst (s ++ [0])) ∧
  strncpy m dst src size =
    Ok (put_bytes m dst (take (Z.to_nat size) s ++ replicate (Z.to_nat size - length s) 0)) ∧
  ∃ m', strlcpy m dst src size = Ok (m', Z.min (length s) (size - 1)) ∧
        cstr m' dst (take (Z.to_nat (size - 1)) s) ∧
        ∀ a, ¬ (dst ≤ a < dst + size) → m' !! a = m !! a.
Proof.
  intros Hs Hd Ha Hn. pose proof (cstr_length _ _ _ Hs). unfold apart in Ha.
  assert (Hd1 : ∀ k, (k ≤ Nat.max (Z.to_nat size) (length s + 1))%nat → mapped m (dst + 0) k).
  { intros k Hk. rewrite Z.add_0_r. by eapply mapped_le. }
  assert (Hs0 : cstr m (src + 0) s) by (by rewrite Z.add_0_r).
  split; [|split].
  - apply strcpy_loop_ok; [done| |unfold apart; lia|lia]. eapply mapped_le; [|done]. lia.
  - unfold strncpy. rewrite (strncpy_copy_ok s), bind_Ok; [|done|apply Hd1; lia|unfold apart; lia].
    rewrite !Z.add_0_r, Z.add_0_l, memset_loop_ok, put_bytes_app; [done|].
    apply put_bytes_mapped. rewrite length_take.
    destruct (decide (Z.to_nat size ≤ length s)%nat).
    { replace (Z.to_nat size - length s)%nat with O by lia. intros i Hi. lia. }
    intros i Hi. apply (Hd1 (Z.to_nat size) ltac:(lia)). lia.
  - unfold strlcpy. destruct (Z.eqb_spec size 0); [lia|].
    rewrite (strlcpy_loop_ok s), bind_Ok; [|done|apply Hd1; lia|unfold apart; lia].
    set (t := take _ s). assert (length t ≤ size - 1) as Ht.
    { unfold t. rewrite length_take. lia. }
    rewrite !Z.add_0_r, Z.add_0_l, store8_u8, bind_Ok; [|apply (put_bytes_mapped m dst t (dst + 0) (Z.to_nat size)); [apply Hd1|]; lia|done].
    assert (<[dst + length t := 0]> (put_bytes m dst t) = put_bytes m dst (t ++ [0])) as ->.
    { by rewrite put_bytes_app. }
    eexists. split; [|split; [split|]].
    + do 2 f_equal. unfold t. rewrite length_take. lia.
    + apply put_bytes_bytes_at.
    + apply Forall_take, Hs.
    + intros a Hout. apply put_bytes_lookup_ne. rewrite length_app. simpl. lia.
Qed.

(** ** Witnesses and concrete runs *)

(** "abca" at 16, "bc" at 24 and sixteen bytes at 32. *)
Definition demo_mem : mem :=
  put_bytes (put_bytes (put_bytes ∅ 16 [97; 98; 99; 97; 0]) 24 [98; 99; 0]) 32 (replicate 16 7).

Lemma demo_abca : cstr demo_mem 16 [97; 98; 99; 97].
Proof. split; [by vm_compute|]. repeat constructor; lia. Qed.

Lemma demo_bc : cstr demo_mem 24 [98; 99].
Proof. split; [by vm_compute|]. repeat constructor; lia. Qed.

Lemma demo_mapped : mapped demo_mem 32 16.
Proof. apply (bytes_at_mapped _ _ (replicate 16 7)). apply put_bytes_bytes_at. Qed.

Lemma memcpy_copies_witness :
  ∃ m', memcpy demo_mem 32 16 4 = Ok m' ∧ bytes_at m' 32 [97; 98; 99; 97].
Proof.
  destruct (memcpy_copies demo_mem 32 16 [97; 98; 99; 97]) as (m' & Hm & Hb & _).
  - by vm_compute.
  - apply (mapped_le _ _ 16); [simpl; lia|apply demo_mapped].
  - repeat constructor; done.
  - right. simpl. lia.
  - simpl. lia.
  - exists m'. exact (conj Hm Hb).
Defined.

Lemma string_compare_witness : strcmp demo_mem 16 24 = Ok (-1).
Proof.
  exact (proj1 (string_compare demo_mem 16 24 _ _ 1 demo_abca demo_bc ltac:(lia))).
Defined.

Lemma strstr_first_witness : ∃ r, strstr demo_mem 16 24 = Ok r ∧ r = 17.
Proof.
  destruct (strstr_first demo_mem 16 24 _ _ demo_abca demo_bc ltac:(lia)) as (r & Hr & _).
  exists r. split; [exact Hr|]. vm_compute in Hr. by injection Hr.
Defined.

Lemma string_copy_witness : ∃ m', strlcpy demo_mem 32 16 3 = Ok (m', 2) ∧ cstr m' 32 [97; 98].
Proof.
  destruct (string_copy demo_mem 32 16 _ 3 demo_abca) as (_ & _ & m' & Hm & Hc & _).
  - apply (mapped_le _ _ 16); [simpl; lia|apply demo_mapped].
  - right. simpl. lia.
  - lia.
  - exists m'. exact (conj Hm Hc).
Defined.

(** "axc" does not contain "abc", but only the last comparison counts. *)
Example strcistr_false_match :
  let m := put_bytes (put_bytes ∅ 16 [97; 120; 99; 0]) 24 [97; 98; 99; 0] in
  strcistr m 16 24 = Ok 16.
Proof. vm_compute. reflexivity. Qed.

(** Searching in an empty string looks at an uninitialised variable. *)
Example strcistr_empty :
  let m := put_bytes (put_bytes ∅ 16 [0]) 24 [97; 0] in strcistr m 16 24 = Fault Uninit.
Proof. vm_compute. reflexivity. Qed.

(** [strnlen] on four bytes without a terminator reads the fifth. *)
Example strnlen_overread :
  strnlen (put_bytes ∅ 16 [97; 98; 99; 100]) 16 4 = Fault OutOfBounds.
Proof. vm_compute. reflexivity. Qed.
