(* ===== verification/Time.v ===== *)
(** * System time (sys/src/time.c, sys/time.h, sys/src/sleep.c)

    The SysTick peripheral is not under src/: its down counter [VAL] is an
    argument of the reading functions.  [systick_val] and [systick_ticks] say
    what a SysTick that was started at cycle 0 and whose overflow interrupt is
    never lost shows after [c] cycles of its clock; the accuracy theorems are
    stated for such readings. *)
From S2P Require Import Prelude.

(** ** Operations *)

Definition AHBCLOCK_HZ : Z := 84000000.
Definition RELOAD : Z := AHBCLOCK_HZ / 8 - 1.
Definition SYSTICK_LOAD_RELOAD : Z := 0x00ffffff.

(** [ticks += 1000] of the overflow handler. *)
Definition Time_TickHander (ticks : Z) : Z := u32 (ticks + 1000).

(** [Time_Init]: the reload and control registers after the call. *)
Definition Time_Init (ctrl : Z) : res (Z * Z * Z) :=
  c_assert (1000000 <? RELOAD);;
  c_assert (RELOAD <=? SYSTICK_LOAD_RELOAD);;
  Ok (RELOAD, Z.lor ctrl (Z.lor 1 2), EOK).

(** One pass of the LDREX/STREX loop sees [ticks] and [VAL]; the pass counts
    when no exception hit in between ([strex = 0]). *)
Record sample := mk_sample { sm_ticks : Z; sm_val : Z; sm_strex : Z }.

Definition time_value (ticks val : Z) : Z := u32 (ticks + (RELOAD - val) / (RELOAD / 1000)).

Fixpoint Time_GetTime (samples : list sample) : res Z :=
  match samples with
  | [] => Fault OutOfFuel
  | s :: samples' =>
      if sm_strex s =? 0 then Ok (time_value (sm_ticks s) (sm_val s)) else Time_GetTime samples'
  end.

Definition Time_GetUS (val : Z) : Z :=
  let us := u32 (RELOAD - val) mod (RELOAD / 100) in
  u32 (us * 10000) / (RELOAD / 100).

(** What one pass of the delay loop adds to [elapsed]. *)
Definition us_diff (curr_us prev_us : Z) : Z :=
  let diff := u32 (curr_us - prev_us) in
  if 10000 <? diff then u32 (10000 + diff) else diff.

(** The delay loop over the values [Time_GetUS] returns: how many of them it
    consumed when it is done. *)
Fixpoint delay_loop (us elapsed prev_us : Z) (readings : list Z) (n : nat) : res nat :=
  if elapsed <? us then
    match readings with
    | [] => Fault OutOfFuel
    | curr_us :: readings' =>
        delay_loop us (u32 (elapsed + us_diff curr_us prev_us)) curr_us readings' (S n)
    end
  else Ok n.

Definition Time_DelayUS (us : Z) (readings : list Z) : res nat :=
  match readings with
  | [] => Fault OutOfFuel
  | prev_us :: readings' => delay_loop us 0 prev_us readings' 0
  end.

(** [dtime], [dtime_m] of time.h: [time_t] is [uint32_t], [dtime_t] is [int32_t]. *)
Definition dtime (a b : Z) : Z := s32 (a - b).

Definition dtime_m (a b : Z) : Z := let diff := dtime a b in if diff <? 0 then 0 else diff.

(** One round of a waiting loop: the time and the cancel flag it sees before it
    yields. *)
Record round := mk_round { r_now : Z; r_cancelled : bool }.

(** [Sleep]: [dtime(...) < period] compares an [int32_t] with a [uint32_t], so
    the difference is converted to unsigned. *)
Fixpoint sleep_loop (ts period : Z) (rounds : list round) : res Z :=
  match rounds with
  | [] => Fault OutOfFuel
  | r :: rounds' =>
      if u32 (dtime (r_now r) ts) <? period then
        if r_cancelled r then Ok ECANCEL else sleep_loop ts period rounds'
      else Ok EOK
  end.

Definition Sleep (period now : Z) (rounds : list round) : res Z := sleep_loop now period rounds.

(** ** The SysTick after [c] cycles *)

Definition systick_val (c : Z) : Z := RELOAD - c mod (RELOAD + 1).
Definition systick_ticks (c : Z) : Z := Nat.iter (Z.to_nat (c / (RELOAD + 1))) Time_TickHander 0.

(** The value [Time_GetTime] returns at cycle [c]. *)
Definition time_at (c : Z) : Z := time_value (systick_ticks c) (systick_val c).

(** The same without wrap-around. *)
Definition ms_at (c : Z) : Z := 1000 * (c / 10500000) + c mod 10500000 / 10499.

Lemma ticks_iter n : Nat.iter n Time_TickHander 0 = u32 (1000 * n).
Proof.
  induction n as [|n IH]; [done|]. simpl Nat.iter. rewrite IH. unfold Time_TickHander. word_lia.
Qed.

Lemma time_at_ms c : 0 ≤ c → time_at c = u32 (ms_at c).
Proof.
  intros Hc. unfold time_at, time_value, systick_val, systick_ticks, ms_at.
  rewrite ticks_iter, Z2Nat.id by (apply Z.div_pos; [done|by vm_compute]).
  change (RELOAD / 1000) with 10499. change (RELOAD + 1) with 10500000.
  replace (RELOAD - (RELOAD - c mod 10500000)) with (c mod 10500000) by lia. word_lia.
Qed.

Lemma ms_at_mono c1 c2 : 0 ≤ c1 ≤ c2 → ms_at c1 ≤ ms_at c2.
Proof. unfold ms_at. lia. Qed.

(** A millisecond is 10500 cycles; the counter is at most one ahead. *)
Lemma ms_at_accurate c : 0 ≤ c → c / 10500 ≤ ms_at c ≤ c / 10500 + 1.
Proof. unfold ms_at. lia. Qed.

Lemma s32_small z : -2147483648 ≤ z < 2147483648 → s32 z = z.
Proof. word_lia. Qed.

Lemma dtime_u32 a b : dtime (u32 a) (u32 b) = s32 (a - b).
Proof. unfold dtime. word_lia. Qed.

(** ** Properties *)

(** For as long as two readings are less than 2^31 ms apart, [dtime] of
    [Time_GetTime] never goes backwards, whatever overflows happened in
    between, and measures the time that passed (10500 cycles are a millisecond)
    to within one millisecond; passes of the LDREX/STREX loop that an exception
    disturbed do not count. *)
Theorem Time_GetTime_dtime c1 c2 disturbed t1 t2 :
  0 ≤ c1 ≤ c2 → (c2 - c1) / 10500 < 2147483646 →
  Forall (λ s, sm_strex s ≠ 0) disturbed →
  Time_GetTime (disturbed ++ [mk_sample (systick_ticks c1) (systick_val c1) 0]) = Ok t1 →
  Time_GetTime (disturbed ++ [mk_sample (systick_ticks c2) (systick_val c2) 0]) = Ok t2 →
  0 ≤ dtime t2 t1 ∧ (c2 - c1) / 10500 - 1 ≤ dtime t2 t1 ≤ (c2 - c1) / 10500 + 2 ∧
  dtime_m t1 t2 = 0.
Proof.
  intros Hc Hd Hdist.
  assert (∀ s, sm_strex s = 0 → Time_GetTime (disturbed ++ [s]) =
            Ok (time_value (sm_ticks s) (sm_val s))) as Hget.
  { intros s Hs. induction Hdist as [|x l Hx _ IH]; simpl.
    - by rewrite Hs.
    - destruct (Z.eqb_spec (sm_strex x) 0); [done|apply IH]. }
  rewrite !Hget by done. simpl. fold (time_at c1) (time_at c2). intros [= <-] [= <-].
  rewrite !time_at_ms by lia. unfold dtime_m. rewrite !dtime_u32.
  pose proof (ms_at_mono c1 c2 Hc). pose proof (ms_at_accurate c1 ltac:(lia)).
  pose proof (ms_at_accurate c2 ltac:(lia)).
  assert (0 ≤ ms_at c2 - ms_at c1 ≤ 2147483647) as Hb by lia.
  rewrite (s32_small (ms_at c2 - ms_at c1)) by lia. split; [lia|]. split; [lia|].
  rewrite s32_small by lia. destruct (Z.ltb_spec (ms_at c1 - ms_at c2) 0); lia.
Qed.

(** Between two readings within one SysTick period and less than 9.998 ms
    apart, the delay loop advances by the time that passed, to within a
    microsecond; the wrap of the microsecond counter is accounted for. *)
Theorem delay_step_accurate x1 x2 :
  0 ≤ x1 ≤ x2 → x2 ≤ RELOAD → x2 - x1 ≤ 104988 →
  let d := us_diff (Time_GetUS (RELOAD - x2)) (Time_GetUS (RELOAD - x1)) in
  (d - 1) * 104999 ≤ 10000 * (x2 - x1) ≤ (d + 1) * 104999.
Proof.
  intros H1 H2 H3. unfold us_diff, Time_GetUS.
  replace (RELOAD - (RELOAD - x2)) with x2 by lia.
  replace (RELOAD - (RELOAD - x1)) with x1 by lia.
  change (RELOAD / 100) with 104999. change RELOAD with 10499999 in H2.
  rewrite !(u32_small x1), !(u32_small x2) by (unfold is_u32; lia).
  rewrite !(u32_small (_ * 10000)) by (unfold is_u32; lia).
  set (a := x1 mod 104999 * 10000 / 104999). set (b := x2 mod 104999 * 10000 / 104999).
  assert (0 ≤ a < 10000 ∧ 0 ≤ b < 10000) by (unfold a, b; lia).
  assert ((x1 mod 104999 ≤ x2 mod 104999 ∧ x2 - x1 = x2 mod 104999 - x1 mod 104999) ∨
          (x2 mod 104999 < x1 mod 104999 ∧ x2 - x1 = 104999 + x2 mod 104999 - x1 mod 104999))
    as Hw by lia.
  assert (104999 * a ≤ x1 mod 104999 * 10000 < 104999 * a + 104999) by (unfold a; lia).
  assert (104999 * b ≤ x2 mod 104999 * 10000 < 104999 * b + 104999) by (unfold b; lia).
  destruct (Z.ltb_spec 10000 (u32 (b - a))) as [Hlt|Hge].
  - assert (b < a) by word_lia.
    replace (u32 (10000 + u32 (b - a))) with (10000 + b - a) by word_lia. lia.
  - assert (a ≤ b) by word_lia. rewrite u32_small by (unfold is_u32; lia). lia.
Qed.

(** [Sleep] returns [EOK] only once [period] ms have passed on the clock,
    and [ECANCEL] only in a round in which the task was cancelled while time
    was left; it yields in every other round. *)
Theorem Sleep_returns period now rounds r :
  is_u32 period → Sleep period now rounds = Ok r →
  ∃ before last after, rounds = before ++ last :: after ∧
    Forall (λ x, u32 (r_now x - now) < period ∧ r_cancelled x = false) before ∧
    ((r = EOK ∧ period ≤ u32 (r_now last - now)) ∨
     (r = ECANCEL ∧ u32 (r_now last - now) < period ∧ r_cancelled last = true)).
Proof.
  intros Hp. unfold Sleep. induction rounds as [|x rounds IH]; [done|]. simpl.
  assert (u32 (dtime (r_now x) now) = u32 (r_now x - now)) as -> by (unfold dtime; word_lia).
  destruct (Z.ltb_spec (u32 (r_now x - now)) period) as [Hlt|Hge].
  - destruct (r_cancelled x) eqn:Hc.
    + intros [= <-]. exists [], x, rounds. split; [done|]. split; [done|]. right. done.
    + intros (before & last & after & -> & Hb & Hl)%IH.
      exists (x :: before), last, after. split; [done|]. split; [by constructor|done].
  - intros [= <-]. exists [], x, rounds. split; [done|]. split; [done|]. by left.
Qed.

(** ** Witnesses and concrete runs *)

Lemma Time_GetTime_dtime_witness :
  dtime (time_at 21000000) (time_at 10500) = 1999.
Proof.
  destruct (Time_GetTime_dtime 10500 21000000 [mk_sample 5 5 1] (time_at 10500) (time_at 21000000)
    ltac:(lia) ltac:(vm_compute; reflexivity) ltac:(repeat constructor; discriminate)
    ltac:(reflexivity) ltac:(reflexivity)) as [_ _].
  vm_compute. reflexivity.
Defined.

Lemma delay_step_accurate_witness :
  (us_diff (Time_GetUS (RELOAD - 105100)) (Time_GetUS (RELOAD - 104000)) - 1) * 104999
    ≤ 10000 * (105100 - 104000).
Proof.
  exact (proj1 (delay_step_accurate 104000 105100 ltac:(lia) ltac:(vm_compute; discriminate)
    ltac:(lia))).
Defined.

Lemma Sleep_returns_witness :
  let rounds := [mk_round 4294967295 false; mk_round 4 false; mk_round 9 false] in
  Sleep 10 4294967295 rounds = Ok EOK ∧
  ∃ before last after, rounds = before ++ last :: after ∧ 10 ≤ u32 (r_now last - 4294967295).
Proof.
  split; [reflexivity|].
  destruct (Sleep_returns 10 4294967295
    [mk_round 4294967295 false; mk_round 4 false; mk_round 9 false] EOK
    ltac:(unfold is_u32; lia) ltac:(reflexivity)) as (b & l & a & Hl & _ & [[_ H]|[H _]]).
  - exists b, l, a. exact (conj Hl H).
  - discriminate H.
Defined.

(** [RELOAD / 100] does not divide the SysTick period: the last hundred cycles
    start another run of the microsecond counter, which the reload cuts off.  A
    step of 44 cycles across the reload is taken for 9995 us. *)
Example delay_skips_at_reload :
  us_diff (Time_GetUS (systick_val 10500002)) (Time_GetUS (systick_val 10499958)) = 9995.
Proof. vm_compute. reflexivity. Qed.
