(* ===== verification/Critical.v ===== *)
(** * Critical sections and atomic accesses (sys/critical.h, sys/atomic.h)

    The state is the interrupt mask [BASEPRI], the nesting counter and a
    word-addressed view of the memory the atomic operations touch.  An
    interrupt that touches the same word may run between any two steps made
    while the mask is open. *)
From S2P Require Import Prelude.

Record cpu := mk_cpu {
  basepri : Z;
  nesting : Z;
  words : gmap Z Z
}.

Definition s32_dec (n : Z) : Z := s32 (n - 1).
Definition s32_inc (n : Z) : Z := s32 (n + 1).

Definition Critical_Enter (c : cpu) : cpu := mk_cpu 16 (s32_inc (nesting c)) (words c).

Definition Critical_Exit (c : cpu) : cpu :=
  let n := s32_dec (nesting c) in
  mk_cpu (if n =? 0 then 0 else basepri c) n (words c).

Definition read_word (c : cpu) (a : Z) : res Z :=
  match words c !! a with Some v => Ok v | None => Fault OutOfBounds end.

Definition write_word (c : cpu) (a v : Z) : res cpu :=
  match words c !! a with
  | Some _ => Ok (mk_cpu (basepri c) (nesting c) (<[a := u32 v]> (words c)))
  | None => Fault OutOfBounds
  end.

(** [Atomic_MOV32]: the new value is read from [src] after [dst]. *)
Definition Atomic_MOV32 (c : cpu) (dst src : Z) : res (cpu * Z) :=
  let c := Critical_Enter c in
  val ← read_word c dst;
  new ← read_word c src;
  c ← write_word c dst new;
  Ok (Critical_Exit c, val).

Definition Atomic_ADD32 (c : cpu) (dst value : Z) : res (cpu * Z) :=
  let c := Critical_Enter c in
  val ← read_word c dst;
  c ← write_word c dst (val + value);
  Ok (Critical_Exit c, val).

Definition Atomic_AND32 (c : cpu) (dst value : Z) : res (cpu * Z) :=
  let c := Critical_Enter c in
  val ← read_word c dst;
  c ← write_word c dst (Z.land val value);
  Ok (Critical_Exit c, val).

Definition Atomic_OR32 (c : cpu) (dst value : Z) : res (cpu * Z) :=
  let c := Critical_Enter c in
  val ← read_word c dst;
  c ← write_word c dst (Z.lor val value);
  Ok (Critical_Exit c, val).

Definition Atomic_XOR32 (c : cpu) (dst value : Z) : res (cpu * Z) :=
  let c := Critical_Enter c in
  val ← read_word c dst;
  c ← write_word c dst (Z.lxor val value);
  Ok (Critical_Exit c, val).

(** ** Invariant: interrupts are masked exactly inside a critical section *)

Definition masked_iff_nested (c : cpu) : Prop :=
  0 ≤ nesting c < 2147483647 ∧ basepri c = (if nesting c =? 0 then 0 else 16).

(** A program that enters and leaves critical sections. *)
Inductive section_op := Enter | Exit.

Definition run_op (c : cpu) (o : section_op) : cpu :=
  match o with Enter => Critical_Enter c | Exit => Critical_Exit c end.

Definition run_ops (c : cpu) (os : list section_op) : cpu := foldl run_op c os.

(** Nesting depth after [os] from depth [d]; [None] when an exit has no enter. *)
Fixpoint depth (d : nat) (os : list section_op) : option nat :=
  match os with
  | [] => Some d
  | Enter :: os' => depth (S d) os'
  | Exit :: os' => match d with O => None | S d' => depth d' os' end
  end.

Lemma Enter_inv c :
  masked_iff_nested c → nesting c < 2147483646 →
  masked_iff_nested (Critical_Enter c) ∧ nesting (Critical_Enter c) = nesting c + 1.
Proof.
  unfold masked_iff_nested, Critical_Enter, s32_inc. simpl. intros [Hn Hb] Hlt.
  replace (s32 (nesting c + 1)) with (nesting c + 1) by word_lia.
  destruct (Z.eqb_spec (nesting c + 1) 0); lia.
Qed.

Lemma Exit_inv c :
  masked_iff_nested c → 0 < nesting c →
  masked_iff_nested (Critical_Exit c) ∧ nesting (Critical_Exit c) = nesting c - 1.
Proof.
  unfold masked_iff_nested, Critical_Exit, s32_dec. simpl. intros [Hn Hb] Hlt.
  replace (s32 (nesting c - 1)) with (nesting c - 1) by word_lia.
  destruct (Z.eqb_spec (nesting c) 0); [lia|].
  destruct (Z.eqb_spec (nesting c - 1) 0); lia.
Qed.

(** An atomic operation leaves the section state as it found it. *)
Lemma enter_exit c ws :
  masked_iff_nested c → nesting c < 2147483646 →
  Critical_Exit (mk_cpu (basepri (Critical_Enter c)) (nesting (Critical_Enter c)) ws)
  = mk_cpu (basepri c) (nesting c) ws.
Proof.
  intros [Hn Hb] Hlt. unfold Critical_Exit, Critical_Enter, s32_dec, s32_inc. simpl.
  replace (s32 (s32 (nesting c + 1) - 1)) with (nesting c) by word_lia.
  rewrite Hb. by destruct (nesting c =? 0).
Qed.

(** ** Properties *)

(** Critical sections nest: whatever balanced or open sequence of enters
    and exits ran, interrupts are masked exactly while at least one section is
    open, so an inner exit never unmasks them for the outer section. *)
Theorem critical_nesting c os d :
  masked_iff_nested c → nesting c + length os < 2147483646 →
  depth (Z.to_nat (nesting c)) os = Some d →
  let c' := run_ops c os in
  nesting c' = d ∧ words c' = words c ∧ (basepri c' = 0 ↔ d = O) ∧ masked_iff_nested c'.
Proof.
  unfold run_ops. revert c. induction os as [|o os IH]; intros c Hinv Hlen Hd; simpl in *.
  - injection Hd as <-. destruct Hinv as [Hn Hb]. split; [lia|]. split; [done|].
    split; [|done]. rewrite Hb. destruct (Z.eqb_spec (nesting c) 0); lia.
  - assert (0 ≤ nesting c) as Hpos by apply Hinv. destruct o; simpl in *.
    + destruct (Enter_inv c Hinv ltac:(lia)) as [Hinv' Hn]. apply (IH (Critical_Enter c)); [done|lia|].
      by rewrite Hn, Z2Nat.inj_add, Nat.add_comm by lia.
    + destruct (Z.to_nat (nesting c)) as [|d'] eqn:E; [done|].
      destruct (Exit_inv c Hinv ltac:(lia)) as [Hinv' Hn]. apply (IH (Critical_Exit c)); [done|lia|].
      rewrite Hn. by replace (Z.to_nat (nesting c - 1)) with d' by lia.
Qed.

(** Each atomic operation is one read-modify-write of its word: it returns
    the old value, stores the new one, touches nothing else, runs with
    interrupts masked and leaves mask and nesting as they were, also inside an
    outer critical section. *)
Theorem atomic_read_modify_write c dst src v old new :
  masked_iff_nested c → nesting c < 2147483646 →
  words c !! dst = Some old → words c !! src = Some new →
  let set x := mk_cpu (basepri c) (nesting c) (<[dst := u32 x]> (words c)) in
  basepri (Critical_Enter c) = 16 ∧
  Atomic_MOV32 c dst src = Ok (set new, old) ∧
  Atomic_ADD32 c dst v = Ok (set (old + v), old) ∧
  Atomic_AND32 c dst v = Ok (set (Z.land old v), old) ∧
  Atomic_OR32 c dst v = Ok (set (Z.lor old v), old) ∧
  Atomic_XOR32 c dst v = Ok (set (Z.lxor old v), old).
Proof.
  intros Hinv Hlt Hd Hs set. split; [done|].
  unfold Atomic_MOV32, Atomic_ADD32, Atomic_AND32, Atomic_OR32, Atomic_XOR32,
    read_word, write_word. simpl words. rewrite Hd, Hs, !bind_Ok.
  rewrite !enter_exit by done. done.
Qed.

(** ** Witnesses *)

Definition cpu0 : cpu := mk_cpu 0 0 {[16 := 5; 20 := 9]}.

Lemma cpu0_inv : masked_iff_nested cpu0.
Proof. split; [simpl; lia|reflexivity]. Qed.

Lemma critical_nesting_witness :
  basepri (run_ops cpu0 [Enter; Enter; Exit]) ≠ 0.
Proof.
  destruct (critical_nesting cpu0 [Enter; Enter; Exit] 1 cpu0_inv ltac:(simpl; lia)
    ltac:(reflexivity)) as (_ & _ & [H _] & _).
  intros E. specialize (H E). discriminate H.
Defined.

Lemma atomic_read_modify_write_witness :
  Atomic_MOV32 cpu0 16 20 = Ok (mk_cpu 0 0 (<[16 := 9]> (words cpu0)), 5).
Proof.
  exact (proj1 (proj2 (atomic_read_modify_write cpu0 16 20 0 5 9 cpu0_inv ltac:(simpl; lia)
    ltac:(reflexivity) ltac:(reflexivity)))).
Defined.
