(* ===== verification/Queue.v ===== *)
(** * Queues (sys/src/queue.c)

    The descriptor [queue_t] is a record, the element buffer lies in the byte
    memory.  [holds] relates both to the list of elements in the queue; the
    theorems say that the operations implement a bounded FIFO on that list.
    The head and tail counters run modulo 2^32 while slots are taken modulo
    [count], so they only agree for ever when [count] divides 2^32; otherwise
    the statements ask that the counter does not wrap ([steady]). *)
From S2P Require Import Prelude CString Heap Time.

(** ** Data and operations *)

Record queue_t := mk_queue {
  q_size : Z;
  q_count : Z;
  q_ptr : Z;
  q_head : Z;
  q_tail : Z
}.

Definition sizeof_queue : Z := 24.

Definition set_head (h : Z) (q : queue_t) := mk_queue (q_size q) (q_count q) (q_ptr q) h (q_tail q).
Definition set_tail (t : Z) (q : queue_t) := mk_queue (q_size q) (q_count q) (q_ptr q) (q_head q) t.

(** [Queue_Create]: the descriptor and its address, or null. *)
Definition Queue_Create (heap : Z) (st : heap_t) (size count : Z)
  : res (heap_t * option (Z * queue_t)) :=
  '(st, q) ← Heap_Malloc heap st sizeof_queue;
  if q =? 0 then Ok (st, None)
  else
    '(st, ptr) ← Heap_Malloc heap st (u32 (size * count));
    if ptr =? 0 then st ← Heap_Free st q; Ok (st, None)
    else Ok (st, Some (q, mk_queue size (s32 count) ptr 0 0)).

Definition Queue_Destroy (st : heap_t) (q : Z) (d : queue_t) : res heap_t :=
  st ← Heap_Free st (q_ptr d);
  Heap_Free st q.

Definition Queue_GetUsed (q : queue_t) : Z := u32 (q_head q - q_tail q).

Definition Queue_GetFree (q : queue_t) : Z := u32 (u32 (q_count q) - Queue_GetUsed q).

Definition Queue_Drop (q : queue_t) (count : Z) : queue_t * Z :=
  let max_to_drop := Z.min count (Queue_GetUsed q) in
  (set_tail (u32 (q_tail q + max_to_drop)) q, max_to_drop).

Definition Queue_DropAll (q : queue_t) : queue_t * Z := Queue_Drop q (Queue_GetUsed q).

Definition Queue_IncreaseCount (q : queue_t) (count : Z) : queue_t * Z :=
  let max_to_add := Z.min count (Queue_GetFree q) in
  (set_head (u32 (q_head q + max_to_add)) q, max_to_add).

(** [counter % q->count]: the [int] is converted to [size_t]. *)
Definition slot_of (counter : Z) (q : queue_t) : res Z :=
  if u32 (q_count q) =? 0 then Fault DivByZero else Ok (counter mod u32 (q_count q)).

Definition Queue_Put (m : mem) (q : queue_t) (ptr count : Z) : res (mem * queue_t * Z) :=
  let to_write := Z.min count (Queue_GetFree q) in
  head_idx ← slot_of (q_head q) q;
  let to_wrap := Z.min (u32 (u32 (q_count q) - head_idx)) to_write in
  m ← memcpy m (q_ptr q + u32 (head_idx * q_size q)) ptr (u32 (to_wrap * q_size q));
  m ← memcpy m (q_ptr q) (ptr + u32 (to_wrap * q_size q))
        (u32 ((to_write - to_wrap) * q_size q));
  Ok (m, set_head (u32 (q_head q + to_write)) q, to_write).

Definition Queue_Peek (m : mem) (q : queue_t) (ptr count : Z) : res (mem * Z) :=
  let to_read := Z.min count (Queue_GetUsed q) in
  tail_idx ← slot_of (q_tail q) q;
  let to_wrap := Z.min (u32 (u32 (q_count q) - tail_idx)) to_read in
  m ← memcpy m ptr (q_ptr q + u32 (tail_idx * q_size q)) (u32 (to_wrap * q_size q));
  m ← memcpy m (ptr + u32 (to_wrap * q_size q)) (q_ptr q)
        (u32 ((to_read - to_wrap) * q_size q));
  Ok (m, to_read).

Definition Queue_Get (m : mem) (q : queue_t) (ptr count : Z) : res (mem * queue_t * Z) :=
  '(m, read) ← Queue_Peek m q ptr count;
  let '(q, _) := Queue_Drop q read in
  Ok (m, q, read).

(** A blocked caller: after each [Yield] the other tasks have done [rd_world],
    the clock shows [rd_now]. *)
Record wait_round := mk_wait_round {
  rd_now : Z;
  rd_cancelled : bool;
  rd_world : mem * queue_t → mem * queue_t
}.

(** [timeout && dtime(time(0), ts) > timeout || Yield_IsCancelled()] *)
Definition give_up_waiting (timeout ts : Z) (r : wait_round) : bool :=
  (negb (timeout =? 0) && (timeout <? dtime (rd_now r) ts)) || rd_cancelled r.

Fixpoint put_wait_loop (rounds : list wait_round) (m : mem) (q : queue_t)
    (ptr count timeout ts written : Z) : res (mem * queue_t * Z) :=
  match rounds with
  | [] => Fault OutOfFuel
  | r :: rounds' =>
      '(m, q, n) ← Queue_Put m q (ptr + u32 (written * q_size q)) (u32 (count - written));
      let written := u32 (written + n) in
      if written =? count then Ok (m, q, written)
      else if give_up_waiting timeout ts r then Ok (m, q, written)
      else
        let '(m, q) := rd_world r (m, q) in
        put_wait_loop rounds' m q ptr count timeout ts written
  end.

Definition Queue_PutWait (rounds : list wait_round) (m : mem) (q : queue_t)
    (ptr count timeout now : Z) : res (mem * queue_t * Z) :=
  put_wait_loop rounds m q ptr count timeout now 0.

Fixpoint get_wait_loop (rounds : list wait_round) (m : mem) (q : queue_t)
    (ptr count timeout ts read : Z) : res (mem * queue_t * Z) :=
  match rounds with
  | [] => Fault OutOfFuel
  | r :: rounds' =>
      '(m, q, n) ← Queue_Get m q (ptr + u32 (read * q_size q)) (u32 (count - read));
      let read := u32 (read + n) in
      if read =? count then Ok (m, q, read)
      else if give_up_waiting timeout ts r then Ok (m, q, read)
      else
        let '(m, q) := rd_world r (m, q) in
        get_wait_loop rounds' m q ptr count timeout ts read
  end.

Definition Queue_GetWait (rounds : list wait_round) (m : mem) (q : queue_t)
    (ptr count timeout now : Z) : res (mem * queue_t * Z) :=
  get_wait_loop rounds m q ptr count timeout now 0.

Definition Queue_GetFreeLinearMem (q : queue_t) : res (Z * Z) :=
  let to_write := Queue_GetFree q in
  head_idx ← slot_of (q_head q) q;
  let to_wrap := Z.min (u32 (u32 (q_count q) - head_idx)) to_write in
  Ok (q_ptr q + u32 (head_idx * q_size q), to_wrap).

Definition Queue_GetUsedLinearMem (q : queue_t) : res (Z * Z) :=
  let to_read := Queue_GetUsed q in
  tail_idx ← slot_of (q_tail q) q;
  let to_wrap := Z.min (u32 (u32 (q_count q) - tail_idx)) to_read in
  Ok (q_ptr q + u32 (tail_idx * q_size q), to_wrap).

(** ** The bytes of a ring buffer *)

(** The bytes [l] are stored in the ring of [cap] bytes at [p], from offset
    [off] on, wrapping around. *)
Definition ring (m : mem) (p cap off : Z) (l : list Z) : Prop :=
  ∀ i b, l !! i = Some b → m !! (p + (off + Z.of_nat i) mod cap) = Some b.

Lemma mod_once x cap : 0 ≤ x < 2 * cap → x mod cap = if x <? cap then x else x - cap.
Proof.
  intros Hx. destruct (Z.ltb_spec x cap).
  - apply Z.mod_small. lia.
  - symmetry. apply (Z.mod_unique_pos x cap 1); lia.
Qed.

Section ring.
Context (p cap off : Z).
Hypothesis Hoff : 0 ≤ off < cap.

(** What the two copies of [Queue_Peek] read. *)
Lemma ring_slices m l :
  length l ≤ cap → ring m p cap off l →
  let w := Z.to_nat (cap - off) in
  bytes_at m (p + off) (take w l) ∧ bytes_at m p (drop w l).
Proof.
  intros Hlen Hr w. rewrite !bytes_at_iff. split; intros i b Hi.
  - apply lookup_take_Some in Hi as [Hi Hw]. pose proof (lookup_lt_Some _ _ _ Hi).
    rewrite <- (Hr i b Hi). f_equal. rewrite mod_once by lia.
    destruct (Z.ltb_spec (off + i) cap); unfold w in *; lia.
  - rewrite lookup_drop in Hi. pose proof (lookup_lt_Some _ _ _ Hi).
    rewrite <- (Hr _ b Hi). f_equal. rewrite mod_once by lia.
    destruct (Z.ltb_spec (off + (w + i)%nat) cap); unfold w in *; lia.
Qed.

Lemma ring_take m l k : ring m p cap off l → ring m p cap off (take k l).
Proof. intros Hr i b [Hi _]%lookup_take_Some. by apply Hr. Qed.

Lemma ring_drop m l k :
  ring m p cap off l → ring m p cap ((off + Z.of_nat k) mod cap) (drop k l).
Proof.
  intros Hr i b Hi. rewrite lookup_drop in Hi. rewrite <- (Hr _ b Hi). do 2 f_equal.
  rewrite Zplus_mod_idemp_l. f_equal. lia.
Qed.

(** The two copies of [Queue_Put] append to the ring. *)
Lemma ring_push m l l2 :
  length l + length l2 ≤ cap → ring m p cap off l →
  let hd := (off + Z.of_nat (length l)) mod cap in
  let w := Z.to_nat (cap - hd) in
  ring (put_bytes (put_bytes m (p + hd) (take w l2)) p (drop w l2)) p cap off (l ++ l2).
Proof.
  intros Hlen Hr hd w i b Hi.
  assert (hd = if off + length l <? cap then off + length l else off + length l - cap) as Hhd
    by (unfold hd; apply mod_once; lia).
  assert (length (take w l2) = Nat.min w (length l2)) as Htk by apply length_take.
  assert (length (drop w l2) = (length l2 - w)%nat) as Hdr by apply length_drop.
  apply lookup_app_Some in Hi as [Hi|[Hge Hi]].
  - pose proof (lookup_lt_Some _ _ _ Hi). pose proof (Hr i b Hi) as Hm.
    rewrite mod_once in * by lia.
    rewrite !put_bytes_lookup_ne; [done|..];
      destruct (Z.ltb_spec (off + length l) cap), (Z.ltb_spec (off + i) cap); lia.
  - pose proof (lookup_lt_Some _ _ _ Hi). rewrite mod_once by lia.
    set (j := (i - length l)%nat) in *.
    destruct (decide (j < w)%nat) as [Hj|Hj].
    + rewrite put_bytes_lookup_ne.
      * pose proof (put_bytes_bytes_at m (p + hd) (take w l2)) as Hb.
        assert (take w l2 !! j = Some b) as Ht by (by apply lookup_take_Some).
        pose proof (bytes_at_lookup _ _ _ _ _ Hb Ht) as Hbj. rewrite <- Hbj. f_equal.
        destruct (Z.ltb_spec (off + length l) cap), (Z.ltb_spec (off + i) cap); lia.
      * destruct (Z.ltb_spec (off + length l) cap), (Z.ltb_spec (off + i) cap); lia.
    + pose proof (put_bytes_bytes_at (put_bytes m (p + hd) (take w l2)) p (drop w l2)) as Hb.
      assert (drop w l2 !! (j - w)%nat = Some b) as Ht.
      { rewrite lookup_drop. rewrite <- Hi. f_equal. lia. }
      pose proof (bytes_at_lookup _ _ _ _ _ Hb Ht) as Hbj. rewrite <- Hbj. f_equal.
      destruct (Z.ltb_spec (off + length l) cap), (Z.ltb_spec (off + i) cap); lia.
Qed.

Lemma ring_frame m l a k :
  (∀ x, p ≤ x < p + cap → ¬ (a ≤ x < a + Z.of_nat (length k))) →
  ring m p cap off l → ring (put_bytes m a k) p cap off l.
Proof.
  intros Hd Hr i b Hi. rewrite put_bytes_lookup_ne; [by apply Hr|]. apply Hd.
  pose proof (Z.mod_pos_bound (off + i) cap ltac:(lia)). lia.
Qed.
End ring.

(** ** The list of elements a queue holds *)

Definition is_elem (q : queue_t) (x : list Z) : Prop :=
  Z.of_nat (length x) = q_size q ∧ Forall is_u8 x.

(** The element buffer in bytes, and the offset of the slot a counter selects. *)
Definition q_cap (q : queue_t) : Z := q_count q * q_size q.
Definition q_off (counter : Z) (q : queue_t) : Z := counter mod q_count q * q_size q.

Record holds (m : mem) (q : queue_t) (xs : list (list Z)) : Prop := {
  h_size : 0 < q_size q;
  h_count : 0 < q_count q < 2147483648;
  h_cap : q_cap q < 4294967288;
  h_head : is_u32 (q_head q);
  h_tail : is_u32 (q_tail q);
  h_used : u32 (q_head q - q_tail q) = length xs;
  h_fits : length xs ≤ q_count q;
  h_sync : q_head q mod q_count q = (q_tail q mod q_count q + length xs) mod q_count q;
  h_elems : Forall (is_elem q) xs;
  h_mapped : mapped m (q_ptr q) (Z.to_nat (q_cap q));
  h_ring : ring m (q_ptr q) (q_cap q) (q_off (q_tail q) q) (concat xs)
}.

(** Advancing the counter by [n] does not upset the slot order. *)
Definition steady (q : queue_t) (counter n : Z) : Prop :=
  (q_count q | 4294967296) ∨ counter + n < 4294967296.

Lemma u32_mod_divide c x : 0 < c → (c | 4294967296) → u32 x mod c = x mod c.
Proof.
  intros Hc [k Hk]. unfold u32. rewrite (Z.mod_eq x 4294967296) by done.
  replace (x - 4294967296 * (x / 4294967296)) with (x + (- (k * (x / 4294967296))) * c).
  - apply Z_mod_plus_full.
  - rewrite Hk. ring.
Qed.

Lemma steady_mod q counter n :
  0 < q_count q → is_u32 counter → 0 ≤ n → steady q counter n →
  u32 (counter + n) mod q_count q = (counter mod q_count q + n) mod q_count q.
Proof.
  intros Hc Hu Hn [Hd|Hlt].
  - rewrite u32_mod_divide by done. by rewrite Zplus_mod_idemp_l.
  - rewrite u32_small by (unfold is_u32 in *; lia). by rewrite Zplus_mod_idemp_l.
Qed.

Lemma concat_length q xs :
  Forall (is_elem q) xs → Z.of_nat (length (concat xs)) = length xs * q_size q.
Proof. induction 1 as [|x xs [Hx _] _ IH]; simpl; [lia|]. rewrite length_app. lia. Qed.

Lemma concat_u8 q xs : Forall (is_elem q) xs → Forall is_u8 (concat xs).
Proof. induction 1 as [|x xs [_ Hx] _ IH]; simpl; [done|]. by apply Forall_app. Qed.

Lemma concat_take q xs k :
  Forall (is_elem q) xs →
  concat (take k xs) = take (Z.to_nat (k * q_size q)) (concat xs) ∧
  concat (drop k xs) = drop (Z.to_nat (k * q_size q)) (concat xs).
Proof.
  intros Hx. revert k. induction Hx as [|x xs [Hx _] _ IH]; intros [|k]; try done; simpl.
  - by rewrite take_nil, drop_nil.
  - destruct (IH k) as [-> ->].
    replace (Z.to_nat (S k * q_size q)) with (length x + Z.to_nat (k * q_size q))%nat by lia.
    by rewrite take_app_add, drop_app_add.
Qed.

Section holds.
Context (m : mem) (q : queue_t) (xs : list (list Z)).
Hypothesis H : holds m q xs.

Lemma holds_used : Queue_GetUsed q = length xs.
Proof. apply H. Qed.

Lemma holds_free : Queue_GetFree q = q_count q - length xs.
Proof.
  unfold Queue_GetFree. rewrite holds_used.
  pose proof (h_count _ _ _ H). pose proof (h_fits _ _ _ H). word_lia.
Qed.

Lemma holds_slot counter : is_u32 counter → slot_of counter q = Ok (counter mod q_count q).
Proof.
  intros Hu. unfold slot_of. pose proof (h_count _ _ _ H).
  rewrite u32_small by (unfold is_u32; lia). destruct (Z.eqb_spec (q_count q) 0); [lia|done].
Qed.

Lemma off_range counter : 0 ≤ q_off counter q < q_cap q.
Proof.
  unfold q_off, q_cap. pose proof (h_count _ _ _ H). pose proof (h_size _ _ _ H).
  pose proof (Z.mod_pos_bound counter (q_count q) ltac:(lia)). nia.
Qed.

Lemma head_off : q_off (q_head q) q = (q_off (q_tail q) q + length (concat xs)) mod q_cap q.
Proof.
  unfold q_off, q_cap. rewrite (concat_length q) by apply H. rewrite (h_sync _ _ _ H).
  rewrite <- Z.mul_add_distr_r, Z.mul_mod_distr_r; [done|..].
  - pose proof (h_count _ _ _ H). lia.
  - pose proof (h_size _ _ _ H). lia.
Qed.

Lemma contents_length : length (concat xs) ≤ q_cap q.
Proof.
  rewrite (concat_length q) by apply H. unfold q_cap.
  pose proof (h_fits _ _ _ H). pose proof (h_size _ _ _ H). nia.
Qed.
End holds.

(** The number of bytes each of the two copies of [Queue_Put] and [Queue_Peek]
    moves for [k] elements from the slot of [counter] on. *)
Lemma split_sizes q counter k :
  0 < q_size q → 0 < q_count q < 2147483648 → q_cap q < 4294967288 → 0 ≤ k ≤ q_count q →
  let w := u32 (u32 (q_count q) - counter mod q_count q) in
  u32 (counter mod q_count q * q_size q) = q_off counter q ∧
  u32 (Z.min w k * q_size q) = Z.min (q_cap q - q_off counter q) (k * q_size q) ∧
  u32 ((k - Z.min w k) * q_size q)
    = k * q_size q - Z.min (q_cap q - q_off counter q) (k * q_size q).
Proof.
  unfold q_cap, q_off. intros Hs Hc Hcap Hk.
  pose proof (Z.mod_pos_bound counter (q_count q) ltac:(lia)) as Hm.
  set (i := counter mod q_count q) in *. simpl.
  rewrite (u32_small (q_count q)) by (unfold is_u32; lia).
  rewrite (u32_small (q_count q - i)) by (unfold is_u32; lia).
  assert (0 ≤ i * q_size q ≤ q_count q * q_size q) by nia.
  assert (0 ≤ k * q_size q ≤ q_count q * q_size q) by nia.
  assert (Z.min (q_count q - i) k * q_size q
          = Z.min (q_count q * q_size q - i * q_size q) (k * q_size q)) as Hmin.
  { rewrite <- Z.mul_sub_distr_r. symmetry. apply Z.mul_min_distr_nonneg_r. lia. }
  rewrite (Z.mul_sub_distr_r k), Hmin, !u32_small by (unfold is_u32; lia). done.
Qed.

Lemma used_after_put h t n l :
  u32 (h - t) = l → 0 ≤ l + n < 4294967296 → u32 (u32 (h + n) - t) = l + n.
Proof. word_lia. Qed.

Lemma used_after_drop h t n l :
  u32 (h - t) = l → 0 ≤ l - n < 4294967296 → u32 (h - u32 (t + n)) = l - n.
Proof. word_lia. Qed.

(** ** Put and Peek on the list of elements *)

(** From here on remainders are opaque to [lia]: slots are taken modulo
    [count], which is not a constant. *)
#[local] Ltac Zify.zify_post_hook ::= idtac.

(** The caller's buffer of [n] bytes at [p] does not meet the element buffer. *)
Definition foreign (q : queue_t) (p n : Z) : Prop :=
  p + n ≤ q_ptr q ∨ q_ptr q + q_cap q ≤ p.

Lemma mapped_sub m a n b k :
  mapped m a n → a ≤ b → b + Z.of_nat k ≤ a + Z.of_nat n → mapped m b k.
Proof. intros Hm H1 H2 i Hi. apply Hm. lia. Qed.

Lemma Put_ok m q xs ys p :
  holds m q xs → Forall (is_elem q) ys → bytes_at m p (concat ys) →
  length xs + length ys ≤ q_count q →
  foreign q p (length (concat ys)) → steady q (q_head q) (length ys) →
  ∃ m', Queue_Put m q p (length ys)
          = Ok (m', set_head (u32 (q_head q + length ys)) q, Z.of_nat (length ys)) ∧
    holds m' (set_head (u32 (q_head q + length ys)) q) (xs ++ ys) ∧
    ∀ a, ¬ (q_ptr q ≤ a < q_ptr q + q_cap q) → m' !! a = m !! a.
Proof.
  intros H Hys Hsrc Hfit Hfor Hst. pose proof H as [Hs Hc Hcap Hh Ht Hu Hf Hsync Hx Hm Hr].
  destruct (split_sizes q (q_head q) (length ys) Hs Hc Hcap ltac:(lia)) as (E1 & E2 & E3).
  pose proof (off_range m q xs H (q_head q)) as Hoff.
  pose proof (off_range m q xs H (q_tail q)) as Hofft.
  pose proof (head_off m q xs H) as Hho.
  pose proof (concat_length q ys Hys) as Hly. pose proof (concat_length q xs Hx) as Hlx.
  set (L := concat ys) in *. set (w := Z.to_nat (q_cap q - q_off (q_head q) q)).
  assert (Hcl : length (concat xs) + length L ≤ q_cap q).
  { rewrite Hlx, Hly, <- Z.mul_add_distr_r. apply Z.mul_le_mono_nonneg_r; lia. }
  assert (Htk : Z.of_nat (length (take w L)) = Z.min (q_cap q - q_off (q_head q) q) (length ys * q_size q)).
  { rewrite length_take. unfold w. lia. }
  assert (Hdr : Z.of_nat (length (drop w L))
          = length ys * q_size q - Z.min (q_cap q - q_off (q_head q) q) (length ys * q_size q)).
  { rewrite length_drop. unfold w. lia. }
  assert (HL8 : Forall is_u8 L) by (by eapply concat_u8).
  pose proof Hsrc as Hsrc'. rewrite <- (take_drop w L) in Hsrc'.
  apply bytes_at_app in Hsrc' as [Hs1 Hs2].
  unfold foreign in Hfor. unfold Queue_Put.
  rewrite (holds_free m q xs H), (holds_slot m q xs H) by done. rewrite bind_Ok.
  rewrite Z.min_l by lia. rewrite E1, E2, E3, <- Hdr, <- Htk.
  rewrite memcpy_ok, bind_Ok; [|done|eapply mapped_sub; [done|lia|lia]|by apply Forall_take|
    unfold apart; lia|lia].
  rewrite memcpy_ok, bind_Ok; [|apply put_bytes_bytes_at_other; [lia|done]|
    apply put_bytes_mapped; eapply mapped_sub; [done|lia|lia]|by apply Forall_drop|
    unfold apart; lia|lia].
  eexists. split; [done|]. split.
  - assert (Hr' := ring_push (q_ptr q) (q_cap q) (q_off (q_tail q) q) Hofft m (concat xs) L Hcl Hr).
    rewrite <- Hho in Hr'. simpl in Hr'. fold w in Hr'.
    assert (concat xs ++ L = concat (xs ++ ys)) as Hcat by (symmetry; apply concat_app).
    rewrite Hcat in Hr'.
    split; try done; simpl.
    + apply u32_range.
    + rewrite length_app, Nat2Z.inj_add. apply used_after_put; [done|lia].
    + rewrite length_app. lia.
    + rewrite (steady_mod q) by (done || lia). rewrite Hsync.
      rewrite Zplus_mod_idemp_l, length_app. f_equal. lia.
    + by apply Forall_app.
    + by apply put_bytes_mapped, put_bytes_mapped.
  - intros a Ha. rewrite !put_bytes_lookup_ne by lia. done.
Qed.

Lemma Peek_ok m q xs p k :
  holds m q xs → (k ≤ length xs)%nat → mapped m p (length (concat (take k xs))) →
  foreign q p (length (concat (take k xs))) →
  Queue_Peek m q p k = Ok (put_bytes m p (concat (take k xs)), Z.of_nat k) ∧
  holds (put_bytes m p (concat (take k xs))) q xs.
Proof.
  intros H Hk Hmp Hfor. pose proof H as [Hs Hc Hcap Hh Ht Hu Hf Hsync Hx Hm Hr].
  destruct (split_sizes q (q_tail q) k Hs Hc Hcap ltac:(lia)) as (E1 & E2 & E3).
  pose proof (off_range m q xs H (q_tail q)) as Hoff.
  pose proof (contents_length m q xs H) as Hcl.
  assert (Hxk : Forall (is_elem q) (take k xs)) by by apply Forall_take.
  pose proof (concat_length q _ Hxk) as Hlk. rewrite length_take, Nat.min_l in Hlk by done.
  assert (HL8 : Forall is_u8 (concat (take k xs))) by by eapply concat_u8.
  assert (Hrk : ring m (q_ptr q) (q_cap q) (q_off (q_tail q) q) (concat (take k xs))).
  { rewrite (proj1 (concat_take q xs k Hx)). by apply ring_take. }
  assert (HLc : length (concat (take k xs)) ≤ q_cap q).
  { rewrite Hlk. apply Z.mul_le_mono_nonneg_r; lia. }
  set (L := concat (take k xs)) in *. set (w := Z.to_nat (q_cap q - q_off (q_tail q) q)).
  destruct (ring_slices _ _ _ Hoff m L HLc Hrk) as [Hs1 Hs2]. fold w in Hs1, Hs2.
  assert (Htk : Z.of_nat (length (take w L)) = Z.min (q_cap q - q_off (q_tail q) q) (k * q_size q)).
  { rewrite length_take. unfold w. lia. }
  assert (Hdr : Z.of_nat (length (drop w L))
          = k * q_size q - Z.min (q_cap q - q_off (q_tail q) q) (k * q_size q)).
  { rewrite length_drop. unfold w. lia. }
  unfold foreign in Hfor. split.
  - unfold Queue_Peek.
    rewrite (holds_used m q xs H), (holds_slot m q xs H) by done. rewrite bind_Ok.
    rewrite Z.min_l by lia. rewrite E1, E2, E3, <- Hdr, <- Htk.
    rewrite memcpy_ok, bind_Ok; [|done|eapply mapped_sub; [exact Hmp|lia|lia]|by apply Forall_take|
      unfold apart; lia|lia].
    rewrite memcpy_ok, bind_Ok; [|apply put_bytes_bytes_at_other; [lia|done]|
      apply put_bytes_mapped; eapply mapped_sub; [exact Hmp|lia|lia]|by apply Forall_drop|
      unfold apart; lia|lia].
    by rewrite <- put_bytes_app, take_drop.
  - split; try done; [by apply put_bytes_mapped|].
    apply (ring_frame _ _ _ Hoff); [|done]. intros x Hin. lia.
Qed.

Lemma Drop_ok m q xs k :
  holds m q xs → (k ≤ length xs)%nat → steady q (q_tail q) k →
  Queue_Drop q k = (set_tail (u32 (q_tail q + k)) q, Z.of_nat k) ∧
  holds m (set_tail (u32 (q_tail q + k)) q) (drop k xs).
Proof.
  intros H Hk Hst. pose proof H as [Hs Hc Hcap Hh Ht Hu Hf Hsync Hx Hm Hr].
  unfold Queue_Drop. rewrite (holds_used m q xs H), Z.min_l by lia. split; [done|].
  assert (Hmod : u32 (q_tail q + k) mod q_count q = (q_tail q mod q_count q + k) mod q_count q)
    by (apply steady_mod; (done || lia)).
  split; try done; simpl.
  - apply u32_range.
  - rewrite length_drop, Nat2Z.inj_sub by done. apply used_after_drop; [done|lia].
  - rewrite length_drop. lia.
  - rewrite Hmod, Zplus_mod_idemp_l, length_drop, Hsync. f_equal. lia.
  - by apply Forall_drop.
  - assert (q_off (u32 (q_tail q + k)) q = (q_off (q_tail q) q + Z.to_nat (k * q_size q)) mod q_cap q)
      as Hoff.
    { unfold q_off, q_cap. rewrite Hmod, Z2Nat.id by lia.
      rewrite <- Z.mul_add_distr_r, Z.mul_mod_distr_r by lia. done. }
    change (q_off (u32 (q_tail q + k)) (set_tail _ q)) with (q_off (u32 (q_tail q + k)) q).
    rewrite Hoff, (proj2 (concat_take q xs k Hx)). exact (ring_drop _ _ _ (off_range m q xs H (q_tail q)) _ _ _ Hr).
Qed.

(** Only the smaller of the request and the free space matters. *)
Lemma Put_limit m q p n k :
  Z.min n (Queue_GetFree q) = Z.min k (Queue_GetFree q) → Queue_Put m q p n = Queue_Put m q p k.
Proof. intros E. unfold Queue_Put. by rewrite E. Qed.

Lemma Get_limit m q p n k :
  Z.min n (Queue_GetUsed q) = Z.min k (Queue_GetUsed q) → Queue_Get m q p n = Queue_Get m q p k.
Proof. intros E. unfold Queue_Get, Queue_Peek. by rewrite E. Qed.

Lemma Get_ok m q xs p k :
  holds m q xs → (k ≤ length xs)%nat → mapped m p (length (concat (take k xs))) →
  foreign q p (length (concat (take k xs))) → steady q (q_tail q) k →
  Queue_Get m q p k = Ok (put_bytes m p (concat (take k xs)),
                          set_tail (u32 (q_tail q + k)) q, Z.of_nat k) ∧
  holds (put_bytes m p (concat (take k xs))) (set_tail (u32 (q_tail q + k)) q) (drop k xs).
Proof.
  intros H Hk Hm Hf Hst. destruct (Peek_ok m q xs p k H Hk Hm Hf) as [Hp H'].
  destruct (Drop_ok _ _ _ _ H' Hk Hst) as [Hd H'']. unfold Queue_Get.
  rewrite Hp, bind_Ok. rewrite Hd. done.
Qed.

(** A power-of-two sized (or otherwise dividing) queue is steady for ever. *)
Lemma divide_steady q c n : (q_count q | 4294967296) → steady q c n.
Proof. by left. Qed.

(** ** Waiting for elements *)

(** What other tasks may do while this one waits to read: append elements, and
    change any memory but the caller's buffer and the elements already there. *)
Definition producers (q0 : queue_t) (p n : Z) (f : mem * queue_t → mem * queue_t) : Prop :=
  ∀ m q xs, holds m q xs → q_size q = q_size q0 → q_count q = q_count q0 → q_ptr q = q_ptr q0 →
  ∃ ys, let '(m', q') := f (m, q) in
    holds m' q' (xs ++ ys) ∧ q_size q' = q_size q0 ∧ q_count q' = q_count q0 ∧
    q_ptr q' = q_ptr q0 ∧ ∀ a, p ≤ a < p + n → m' !! a = m !! a.

Lemma get_wait_loop_ok q0 p count timeout ts : ∀ rounds m q xs got res,
  holds m q xs → q_size q = q_size q0 → q_count q = q_count q0 → q_ptr q = q_ptr q0 →
  (q_count q0 | 4294967296) → foreign q0 p (count * q_size q0) → 0 ≤ count < 4294967296 →
  count * q_size q0 < 4294967296 →
  Forall (λ r, producers q0 p (count * q_size q0) (rd_world r)) rounds →
  Forall (is_elem q0) got → length got ≤ count → bytes_at m p (concat got) →
  mapped m p (Z.to_nat (count * q_size q0)) →
  get_wait_loop rounds m q p count timeout ts (length got) = Ok res →
  ∃ later, let '(m', q', n) := res in
    let all := (got ++ xs) ++ later in
    0 ≤ n ≤ count ∧ holds m' q' (drop (Z.to_nat n) all) ∧
    bytes_at m' p (concat (take (Z.to_nat n) all)) ∧
    (n = count ∨ ∃ r, r ∈ rounds ∧ give_up_waiting timeout ts r = true).
Proof.
  intros rounds. induction rounds as [|r rounds IH]; [done|].
  intros m q xs got res H Es Ec Ep Hdiv Hfor Hcnt Hov Hprod Hgot Hlen Hbytes Hmap.
  apply Forall_cons in Hprod as [Hr Hprod].
  pose proof (h_size _ _ _ H) as Hs. pose proof (h_elems _ _ _ H) as Hx.
  pose proof (concat_length q0 got Hgot) as Hlg.
  assert (0 ≤ length got * q_size q0 ≤ count * q_size q0) as Hg.
  { rewrite <- Es in *. split; [lia|]. apply Z.mul_le_mono_nonneg_r; lia. }
  set (k := Nat.min (Z.to_nat count - length got) (length xs)).
  assert (Hxk : Forall (is_elem q) (take k xs)) by by apply Forall_take.
  pose proof (concat_length q _ Hxk) as Hlk. rewrite length_take, Nat.min_l in Hlk by lia.
  assert (length (concat got) + length (concat (take k xs)) ≤ count * q_size q0) as Hroom.
  { rewrite Hlg, Hlk, Es, <- Z.mul_add_distr_r. apply Z.mul_le_mono_nonneg_r; lia. }
  simpl. rewrite Es, !u32_small by (unfold is_u32; lia).
  rewrite (Get_limit _ _ _ _ k) by (rewrite (holds_used m q xs H); lia). rewrite <- Hlg.
  destruct (Get_ok m q xs (p + length (concat got)) k H ltac:(lia)) as [Hget H'].
  { eapply mapped_sub; [exact Hmap|lia|lia]. }
  { unfold foreign, q_cap in *. rewrite Es, Ec, Ep. lia. }
  { apply divide_steady. by rewrite Ec. }
  rewrite Hget, bind_Ok. simpl. rewrite u32_small by (unfold is_u32; lia).
  set (m1 := put_bytes m _ _) in *. set (q1 := set_tail _ q) in *.
  assert (Forall (is_elem q0) (got ++ take k xs)) as Hgot1.
  { apply Forall_app. split; [done|]. eapply Forall_impl; [exact Hxk|].
    intros x [Hlx Hux]. split; [by rewrite <- Es|done]. }
  assert (Z.of_nat (length (got ++ take k xs)) = length got + k) as Hl1.
  { rewrite length_app, length_take. lia. }
  assert (bytes_at m1 p (concat (got ++ take k xs))) as Hb1.
  { rewrite concat_app. apply bytes_at_app. split; [|apply put_bytes_bytes_at].
    apply put_bytes_bytes_at_other; [lia|done]. }
  assert (got ++ xs = (got ++ take k xs) ++ drop k xs) as Hsplit.
  { by rewrite <- app_assoc, take_drop. }
  assert (∀ later, take (Z.to_nat (length got + k)) ((got ++ xs) ++ later) = got ++ take k xs ∧
                   drop (Z.to_nat (length got + k)) ((got ++ xs) ++ later) = drop k xs ++ later)
    as Hcut.
  { intros later. rewrite <- Hl1, Nat2Z.id, Hsplit, <- app_assoc.
    by rewrite take_app_length, drop_app_length. }
  destruct (Z.eqb_spec (length got + k) count) as [Hdone|Hmore];
    [|destruct (give_up_waiting timeout ts r) eqn:Hgu].
  - intros [= <-]. exists []. destruct (Hcut []) as [-> ->]. rewrite app_nil_r.
    split; [lia|]. split; [done|]. split; [done|]. by left.
  - intros [= <-]. exists []. destruct (Hcut []) as [-> ->]. rewrite app_nil_r.
    split; [lia|]. split; [done|]. split; [done|]. right. exists r. split; [|done]. left.
  - destruct (Hr m1 q1 (drop k xs) H' Es Ec Ep) as [ys Hw].
    destruct (rd_world r (m1, q1)) as [m2 q2]. destruct Hw as (H2 & Es2 & Ec2 & Ep2 & Hsame).
    rewrite <- Hl1. intros Hloop.
    destruct (IH m2 q2 (drop k xs ++ ys) (got ++ take k xs) res H2 Es2 Ec2 Ep2 Hdiv Hfor Hcnt Hov
      Hprod Hgot1 ltac:(lia)) as [later Hres]; [| |exact Hloop|].
    + apply bytes_at_iff. intros i b Hi. rewrite Hsame.
      * by apply (bytes_at_lookup m1 p _ i b Hb1).
      * pose proof (lookup_lt_Some _ _ _ Hi) as Hlt. rewrite concat_app, length_app in Hlt. lia.
    + intros i Hi. rewrite Hsame by lia. by apply (put_bytes_mapped m _ _ p _ Hmap).
    + exists (ys ++ later). destruct res as [[m' q'] n]. simpl in Hres |- *.
      replace ((got ++ xs) ++ ys ++ later)
        with (((got ++ take k xs) ++ drop k xs ++ ys) ++ later)
        by (rewrite Hsplit, <- !app_assoc; done).
      destruct Hres as (? & ? & ? & [?|(r' & ? & ?)]); (do 3 (split; [done|])); [by left|].
      right. exists r'. split; [by right|done].
Qed.

(** ** Properties *)

(** C30: [Queue_Put] appends to the FIFO as many of the caller's elements as
    are free, in order, wrapping around the end of the buffer, writes nothing
    outside of the buffer and returns how many it took - for a queue whose number
    of elements is a power of two, or as long as its head counter does not wrap
    ([steady]): slots are the remainder of the counters, which else jumps. *)
Theorem Queue_Put_fifo m q xs ys p :
  holds m q xs → Forall (is_elem q) ys → bytes_at m p (concat ys) →
  foreign q p (length (concat ys)) → steady q (q_head q) (length ys) →
  let k := Nat.min (length ys) (Z.to_nat (q_count q) - length xs) in
  ∃ m' q', Queue_Put m q p (length ys) = Ok (m', q', Z.of_nat k) ∧
    holds m' q' (xs ++ take k ys) ∧
    ∀ a, ¬ (q_ptr q ≤ a < q_ptr q + q_cap q) → m' !! a = m !! a.
Proof.
  intros H Hys Hb Hf Hst k. pose proof (h_fits _ _ _ H). pose proof (h_count _ _ _ H).
  assert (length (take k ys) = k) as Hk by (rewrite length_take; lia).
  rewrite (Put_limit _ _ _ _ (length (take k ys))) by (rewrite (holds_free m q xs H); lia).
  rewrite <- (take_drop k ys), concat_app in Hb, Hf. apply bytes_at_app in Hb as [Hb _].
  rewrite length_app in Hf.
  destruct (Put_ok m q xs (take k ys) p H) as (m' & Hput & H' & Hout); try done.
  - by apply Forall_take.
  - lia.
  - unfold foreign in *. lia.
  - destruct Hst as [?|?]; [by left|right]. lia.
  - rewrite Hk in Hput. exists m', (set_head (u32 (q_head q + length (take k ys))) q).
    by rewrite Hk in *.
Qed.

(** C31: [Queue_Get] hands out the oldest elements in order and removes exactly
    them; [Queue_Peek] hands out the same and removes nothing; [Queue_Drop]
    removes the same and hands out nothing.  Nothing but the caller's buffer is
    written.  As for [Queue_Put], the number of elements is a power of two, or the
    tail counter does not wrap ([steady]). *)
Theorem Queue_Get_fifo m q xs p n :
  let k := Nat.min n (length xs) in
  let out := put_bytes m p (concat (take k xs)) in
  holds m q xs → mapped m p (length (concat (take k xs))) →
  foreign q p (length (concat (take k xs))) → steady q (q_tail q) k →
  (Queue_Peek m q p n = Ok (out, Z.of_nat k) ∧ holds out q xs) ∧
  (∃ q', Queue_Get m q p n = Ok (out, q', Z.of_nat k) ∧ holds out q' (drop k xs)) ∧
  (∃ q', Queue_Drop q n = (q', Z.of_nat k) ∧ holds m q' (drop k xs)).
Proof.
  intros k out H Hm Hf Hst. pose proof (holds_used m q xs H) as Hu.
  assert (Z.min n (Queue_GetUsed q) = Z.min k (Queue_GetUsed q)) as E by (rewrite Hu; lia).
  assert (k ≤ length xs)%nat as Hk by lia. split; [|split].
  - destruct (Peek_ok m q xs p k H Hk Hm Hf) as [Hp H']. split; [|done].
    unfold Queue_Peek in *. by rewrite E.
  - rewrite (Get_limit _ _ _ _ k) by done. eexists. by apply Get_ok.
  - destruct (Drop_ok m q xs k H Hk Hst) as [Hd H']. eexists. split; [|exact H'].
    rewrite <- Hd. unfold Queue_Drop. by rewrite E.
Qed.

(** A task that waits in [Queue_GetWait] while others append to the queue
    gets one contiguous run of the FIFO: the bytes delivered followed by what
    is left in the queue are the elements that were there, then those that came
    in, none lost, repeated or reordered; fewer than asked for come back only
    after a timeout or a cancellation. *)
Theorem Queue_GetWait_fifo rounds m q xs p count timeout now m' q' n :
  holds m q xs → (q_count q | 4294967296) → 0 ≤ count → count * q_size q < 4294967296 →
  mapped m p (Z.to_nat (count * q_size q)) → foreign q p (count * q_size q) →
  Forall (λ r, producers q p (count * q_size q) (rd_world r)) rounds →
  Queue_GetWait rounds m q p count timeout now = Ok (m', q', n) →
  ∃ later, 0 ≤ n ≤ count ∧ holds m' q' (drop (Z.to_nat n) (xs ++ later)) ∧
    bytes_at m' p (concat (take (Z.to_nat n) (xs ++ later))) ∧
    (n = count ∨ ∃ r, r ∈ rounds ∧ give_up_waiting timeout now r = true).
Proof.
  intros H Hdiv Hc Hov Hm Hf Hp Hret. pose proof (h_size _ _ _ H).
  assert (count ≤ count * q_size q) by nia.
  apply (get_wait_loop_ok q p count timeout now rounds m q xs [] (m', q', n)); try done.
  lia.
Qed.

(** [Queue_Create] yields an empty queue with room for [count] elements
    when the heap handed it a buffer that is mapped and the buffer size does
    not overflow; it frees the descriptor when there is no buffer. *)
Theorem Queue_Create_empty heap st size count st1 st2 qa ptr m :
  0 < size → 0 < count < 2147483648 → count * size < 4294967288 →
  Heap_Malloc heap st sizeof_queue = Ok (st1, qa) → qa ≠ 0 →
  Heap_Malloc heap st1 (size * count) = Ok (st2, ptr) →
  (ptr ≠ 0 → mapped m ptr (Z.to_nat (count * size)) →
     ∃ q, Queue_Create heap st size count = Ok (st2, Some (qa, q)) ∧ holds m q [] ∧
          Queue_GetFree q = count ∧ ∀ st3, Heap_Free st2 ptr = Ok st3 →
          Queue_Destroy st2 qa q = Heap_Free st3 qa) ∧
  (ptr = 0 → Queue_Create heap st size count = (st3 ← Heap_Free st2 qa; Ok (st3, None))).
Proof.
  intros Hs Hc Hcap Hm1 Hqa Hm2. unfold Queue_Create. rewrite Hm1, bind_Ok.
  destruct (Z.eqb_spec qa 0); [done|]. rewrite u32_small by (unfold is_u32; nia).
  rewrite Hm2, bind_Ok. split.
  - intros Hptr Hmap. destruct (Z.eqb_spec ptr 0); [done|].
    assert (s32 count = count) as -> by (apply s32_small; lia).
    assert (holds m (mk_queue size count ptr 0 0) []) as Hh.
    { split; unfold q_cap; simpl; try done; lia. }
    eexists. split; [done|]. split; [exact Hh|]. split.
    + rewrite (holds_free _ _ _ Hh). simpl. lia.
    + intros st3 Hfree. unfold Queue_Destroy. simpl. by rewrite Hfree, bind_Ok.
  - intros ->. done.
Qed.

(** ** Witnesses and concrete runs *)

(** An empty queue of four elements of two bytes at 64 whose counters stand at
    3, and six bytes of user data at 16. *)
Definition demo_q : queue_t := mk_queue 2 4 64 3 3.
Definition demo_user : list (list Z) := [[1; 2]; [3; 4]; [5; 6]].
Definition demo_qmem : mem := put_bytes (put_bytes ∅ 64 (replicate 8 0)) 16 (concat demo_user).

Lemma demo_holds : holds demo_qmem demo_q [].
Proof.
  split; unfold q_cap; simpl; try done; try lia.
  apply put_bytes_mapped. apply (bytes_at_mapped _ _ (replicate 8 0)). apply put_bytes_bytes_at.
Qed.

Lemma demo_elems : Forall (is_elem demo_q) demo_user.
Proof. repeat constructor; done. Qed.

Lemma Queue_Put_fifo_witness :
  ∃ m' q', Queue_Put demo_qmem demo_q 16 3 = Ok (m', q', 3) ∧ holds m' q' demo_user.
Proof.
  destruct (Queue_Put_fifo demo_qmem demo_q [] demo_user 16 demo_holds demo_elems)
    as (m' & q' & Hp & Hh & _).
  - by vm_compute.
  - left. by vm_compute.
  - right. by vm_compute.
  - exists m', q'. exact (conj Hp Hh).
Defined.

(** Three elements around the end of the buffer. *)
Definition wrapped_q : queue_t := mk_queue 2 4 64 6 3.
Definition wrapped_qmem : mem := put_bytes (put_bytes ∅ 64 [3; 4; 5; 6; 0; 0; 1; 2]) 16 (replicate 8 9).

Lemma wrapped_holds : holds wrapped_qmem wrapped_q demo_user.
Proof.
  split; unfold q_cap; simpl; try done; try lia.
  - exact demo_elems.
  - apply put_bytes_mapped. apply (bytes_at_mapped _ _ [3; 4; 5; 6; 0; 0; 1; 2]). apply put_bytes_bytes_at.
  - intros i b Hi. do 6 (destruct i as [|i]; [injection Hi as <-; by vm_compute|]). done.
Qed.

(** Two of them are fetched. *)
Lemma Queue_Get_fifo_witness :
  ∃ q', Queue_Get wrapped_qmem wrapped_q 16 2 = Ok (put_bytes wrapped_qmem 16 [1; 2; 3; 4], q', 2) ∧
    holds (put_bytes wrapped_qmem 16 [1; 2; 3; 4]) q' [[5; 6]].
Proof.
  destruct (Queue_Get_fifo wrapped_qmem wrapped_q demo_user 16 2 wrapped_holds) as (_ & (q' & E & H) & _).
  - apply (mapped_le _ _ 8); [cbn; lia|]. apply (bytes_at_mapped _ _ (replicate 8 9)), put_bytes_bytes_at.
  - left. by vm_compute.
  - left. exists 1073741824. reflexivity.
  - exists q'. split; [exact E|exact H].
Defined.

Lemma demo_producer : producers demo_q 16 2 (λ s, s).
Proof.
  intros m q xs H Es Ec Ep. exists []. rewrite app_nil_r. done.
Qed.

Lemma Queue_GetWait_fifo_witness :
  let rounds := [mk_wait_round 0 false (λ s, s); mk_wait_round 0 true (λ s, s)] in
  ∃ later, bytes_at demo_qmem 16 (concat (take 0 ([] ++ later))) ∧
    ∃ r, r ∈ rounds ∧ give_up_waiting 0 0 r = true.
Proof.
  destruct (Queue_GetWait_fifo
    [mk_wait_round 0 false (λ s, s); mk_wait_round 0 true (λ s, s)]
    demo_qmem demo_q [] 16 1 0 0 demo_qmem demo_q 0 demo_holds) as (later & _ & _ & Hb & [Hn|Hr]).
  - exists 1073741824. reflexivity.
  - lia.
  - by vm_compute.
  - apply (mapped_le _ _ 6); [simpl; lia|].
    apply (bytes_at_mapped _ _ (concat demo_user)). apply put_bytes_bytes_at.
  - left. by vm_compute.
  - repeat constructor; apply demo_producer.
  - reflexivity.
  - discriminate Hn.
  - exists later. exact (conj Hb Hr).
Defined.

(** The heap after the descriptor and after the buffer were allocated. *)
Definition st_of (r : res (heap_t * Z)) : heap_t :=
  match r with Ok (st, _) => st | Fault _ => st_fresh end.
Definition st_q1 : heap_t :=
  Eval vm_compute in st_of (Heap_Malloc ram_heap st_fresh sizeof_queue).
Definition st_q2 : heap_t := Eval vm_compute in st_of (Heap_Malloc ram_heap st_q1 8).

Lemma Queue_Create_empty_witness :
  let m := put_bytes ∅ (ram_heap + 56) (replicate 8 0) in
  ∃ q, Queue_Create ram_heap st_fresh 2 4 = Ok (st_q2, Some (ram_heap + 16, q)) ∧ holds m q [].
Proof.
  assert (Heap_Malloc ram_heap st_fresh sizeof_queue = Ok (st_q1, ram_heap + 16)) as E1
    by (vm_compute; reflexivity).
  assert (Heap_Malloc ram_heap st_q1 (2 * 4) = Ok (st_q2, ram_heap + 56)) as E2
    by (vm_compute; reflexivity).
  destruct (proj1 (Queue_Create_empty ram_heap st_fresh 2 4 st_q1 st_q2 _ _
    (put_bytes ∅ (ram_heap + 56) (replicate 8 0)) ltac:(lia) ltac:(lia) ltac:(lia)
    E1 ltac:(discriminate) E2)) as (q & Hq & Hh & _).
  - discriminate.
  - apply (bytes_at_mapped _ _ (replicate 8 0)). apply put_bytes_bytes_at.
  - exists q. exact (conj Hq Hh).
Defined.

(** With a count that does not divide 2^32 the slots jump when the head counter
    wraps: the third element put into this queue of three is written over the
    second, and a byte that was never put comes out third. *)
Example counter_wrap_overwrites :
  let q := mk_queue 1 3 64 4294967294 4294967294 in
  let m := put_bytes (put_bytes ∅ 64 [0; 0; 0]) 16 [7; 8; 9] in
  ('(m, q, _) ← Queue_Put m q 16 2;
   '(m, q, _) ← Queue_Put m q 18 1;
   '(m, q, n) ← Queue_Get m q 16 3;
   Ok (get_bytes m 16 3)) = Ok (Some [7; 9; 0]).
Proof. vm_compute. reflexivity. Qed.

(** The size of the buffer is computed modulo 2^32. *)
Example create_size_overflow :
  match Queue_Create ram_heap st_fresh 65536 65537 with
  | Ok (st, Some (_, q)) => (q_cap q, block_size_for (u32 (65536 * 65537)))
  | _ => (0, 0)
  end = (4295032832, 65552).
Proof. vm_compute. reflexivity. Qed.
