(* ===== verification/Yield.v ===== *)
(** * The cooperative scheduler (sys/src/yield.c)

    Task control blocks live in a store from addresses to records and are linked
    into a ring; [curr_task] is the task that runs.  The stacks are a store of
    words.  The naked part of the PendSV handler (saving and restoring core
    registers) is assembly and not modelled: [Yield_PendSVHandler] is its C part,
    given the stack pointer the assembly computed.

    A task that calls [Yield] hands control to the others: functions that block
    take a list of [slice]s, each the time the caller sees while it runs and what
    the other tasks do to the scheduler state until it runs again. *)
From S2P Require Import Prelude Heap Time.

(** ** Data *)

Inductive task_state := TASK_PENDING | TASK_ACTIVE | TASK_DONE.

#[export] Instance task_state_eq_dec : EqDecision task_state.
Proof. solve_decision. Defined.

Record task := mk_task {
  t_sp : Z;
  t_next : Z;
  t_prev : Z;
  t_state : task_state;
  t_flags : Z;
  t_handler : Z;
  t_handler_arg : Z;
  t_handler_done : Z;
  t_shielded : Z;
  t_cancelled : Z;
  t_stack : Z;
  t_stack_size : Z;
  t_id : Z
}.

Definition TASK_FLAGS_COROUTINE : Z := 1.
Definition STACK_GUARD : Z := 0xdeadc0de.
Definition SYS_CORO_MAX_NUM : nat := 4.
Definition SYS_CORO_STACK_SIZE : Z := 256.

(** [sizeof] of the two stack frames: 17 and 50 words. *)
Definition sizeof_frame_basic : Z := 68.
Definition sizeof_task_frame : Z := 200.

Definition set_sp v t := mk_task v (t_next t) (t_prev t) (t_state t) (t_flags t) (t_handler t)
  (t_handler_arg t) (t_handler_done t) (t_shielded t) (t_cancelled t) (t_stack t) (t_stack_size t) (t_id t).
Definition set_tnext v t := mk_task (t_sp t) v (t_prev t) (t_state t) (t_flags t) (t_handler t)
  (t_handler_arg t) (t_handler_done t) (t_shielded t) (t_cancelled t) (t_stack t) (t_stack_size t) (t_id t).
Definition set_tprev v t := mk_task (t_sp t) (t_next t) v (t_state t) (t_flags t) (t_handler t)
  (t_handler_arg t) (t_handler_done t) (t_shielded t) (t_cancelled t) (t_stack t) (t_stack_size t) (t_id t).
Definition set_state v t := mk_task (t_sp t) (t_next t) (t_prev t) v (t_flags t) (t_handler t)
  (t_handler_arg t) (t_handler_done t) (t_shielded t) (t_cancelled t) (t_stack t) (t_stack_size t) (t_id t).
Definition set_done v t := mk_task (t_sp t) (t_next t) (t_prev t) (t_state t) (t_flags t) (t_handler t)
  (t_handler_arg t) v (t_shielded t) (t_cancelled t) (t_stack t) (t_stack_size t) (t_id t).
Definition set_shielded v t := mk_task (t_sp t) (t_next t) (t_prev t) (t_state t) (t_flags t) (t_handler t)
  (t_handler_arg t) (t_handler_done t) v (t_cancelled t) (t_stack t) (t_stack_size t) (t_id t).
Definition set_cancelled v t := mk_task (t_sp t) (t_next t) (t_prev t) (t_state t) (t_flags t) (t_handler t)
  (t_handler_arg t) (t_handler_done t) (t_shielded t) v (t_stack t) (t_stack_size t) (t_id t).
Definition set_stack v n t := mk_task (t_sp t) (t_next t) (t_prev t) (t_state t) (t_flags t) (t_handler t)
  (t_handler_arg t) (t_handler_done t) (t_shielded t) (t_cancelled t) v n (t_id t).

Record sched := mk_sched {
  tasks : gmap Z task;
  curr_task : Z;
  switch_cnt : Z;
  task_cnt : Z;
  next_task_id : Z;
  coroutines : list Z;
  stack_words : gmap Z Z;
  the_heap : heap_t
}.

Definition with_tasks ts s := mk_sched ts (curr_task s) (switch_cnt s) (task_cnt s) (next_task_id s)
  (coroutines s) (stack_words s) (the_heap s).
Definition with_curr c s := mk_sched (tasks s) c (switch_cnt s) (task_cnt s) (next_task_id s)
  (coroutines s) (stack_words s) (the_heap s).
Definition with_heap h s := mk_sched (tasks s) (curr_task s) (switch_cnt s) (task_cnt s) (next_task_id s)
  (coroutines s) (stack_words s) h.

(** Read or update the task a pointer points to. *)
Definition task_at (s : sched) (a : Z) : res task :=
  if a =? 0 then Fault NullDeref
  else match tasks s !! a with Some t => Ok t | None => Fault OutOfBounds end.

Definition upd_task (s : sched) (a : Z) (f : task → task) : res sched :=
  t ← task_at s a; Ok (with_tasks (<[a := f t]> (tasks s)) s).

(** ** Operations *)
Section operations.
(** Address of the heap array, [sizeof(task_t)] (it depends on the width of
    enums) and address of the code of [Yield_ExecuteTask]. *)
Context (heap sizeof_task execute_task : Z).

(** [Yield_AllocateTask]: [junk] is what the memory of the new control block
    held.  When there is no memory for the stack, the cleanup code frees the
    pointer [t] that was never assigned. *)
Definition Yield_AllocateTask (s : sched) (junk : task) (stack_size : Z) : res (sched * Z) :=
  let stack_and_frame_size := u32 (stack_size + sizeof_task_frame) in
  '(h, stack) ← Heap_Malloc heap (the_heap s) stack_and_frame_size;
  if stack =? 0 then Fault Uninit
  else
    '(h, t) ← Heap_Malloc heap h sizeof_task;
    if t =? 0 then
      h ← Heap_Free h stack;
      h ← Heap_Free h t;
      Ok (with_heap h s, 0)
    else
      Ok (with_heap h (with_tasks (<[t := set_stack stack stack_and_frame_size junk]> (tasks s)) s), t).

(** [Yield_DeallocateTask]; the control block is gone afterwards. *)
Definition Yield_DeallocateTask (s : sched) (a : Z) : res sched :=
  t ← task_at s a;
  h ← Heap_Free (the_heap s) (t_stack t);
  h ← Heap_Free h a;
  Ok (with_heap h (with_tasks (delete a (tasks s)) s)).

(** The initial stack frame of a task. *)
Definition frame_words (ws : gmap Z Z) (sp t : Z) : gmap Z Z :=
  <[sp := 0xFFFFFFFD]> (<[sp + 36 := t]> (<[sp + 56 := STACK_GUARD]>
    (<[sp + 60 := execute_task]> (<[sp + 64 := 0x01000000]> ws)))).

Definition initial_sp (stack stack_size : Z) : Z :=
  u32 (Z.land (u32 (stack + stack_size)) (Z.lnot 7) - sizeof_frame_basic).

Definition Yield_InitializeTask (s : sched) (a handler arg flags : Z) : res sched :=
  t ← task_at s a;
  c_assert (Z.land (t_stack t) 3 =? 0);;
  c_assert (Z.land (t_stack_size t) 3 =? 0);;
  c_assert (sizeof_task_frame <=? t_stack_size t);;
  let sp := initial_sp (t_stack t) (t_stack_size t) in
  let ws := frame_words (<[t_stack t := STACK_GUARD]> (stack_words s)) sp a in
  let t := mk_task sp (t_next t) (t_prev t) TASK_PENDING flags handler arg 0 (t_shielded t) 0
             (t_stack t) (t_stack_size t) (next_task_id s) in
  let s := mk_sched (<[a := t]> (tasks s)) (curr_task s) (switch_cnt s) (task_cnt s)
             (s32 (next_task_id s + 1)) (coroutines s) ws (the_heap s) in
  s ← (if curr_task s =? 0 then
         s ← upd_task s a (λ t, set_tprev a (set_tnext a t));
         Ok (with_curr a s)
       else
         c ← task_at s (curr_task s);
         s ← upd_task s a (set_tprev (t_prev c));
         s ← upd_task s a (set_tnext (curr_task s));
         c ← task_at s (curr_task s);
         s ← upd_task s (t_prev c) (set_tnext a);
         upd_task s (curr_task s) (set_tprev a));
  Ok (mk_sched (tasks s) (curr_task s) (switch_cnt s) (u32 (task_cnt s + 1)) (next_task_id s)
        (coroutines s) (stack_words s) (the_heap s)).

Definition Yield_CheckStack (s : sched) : res unit :=
  t ← task_at s (curr_task s);
  c_assert (t_stack t <? t_sp t);;
  match stack_words s !! t_stack t with
  | Some w => c_assert (w =? STACK_GUARD)
  | None => Fault OutOfBounds
  end.

(** The branch of [Yield_Schedule] for a completed task. *)
Definition unlink_current (s : sched) : res sched :=
  let a := curr_task s in
  t ← task_at s a;
  let s := with_curr (t_next t) s in
  s ← upd_task s (t_prev t) (set_tnext (t_next t));
  t ← task_at s a;
  s ← upd_task s (t_next t) (set_tprev (t_prev t));
  t ← task_at s a;
  c_assert (negb (t_prev t =? a) && negb (t_next t =? a));;
  s ← (if Z.land (t_flags t) TASK_FLAGS_COROUTINE =? 0 then Yield_DeallocateTask s a else Ok s);
  Ok (mk_sched (tasks s) (curr_task s) (switch_cnt s) (u32 (task_cnt s - 1)) (next_task_id s)
        (coroutines s) (stack_words s) (the_heap s)).

Fixpoint schedule_loop (fuel : nat) (s : sched) : res sched :=
  match fuel with
  | O => Fault OutOfFuel
  | S fuel' =>
      t ← task_at s (curr_task s);
      match t_state t with
      | TASK_DONE => s ← unlink_current s; schedule_loop fuel' s
      | TASK_ACTIVE =>
          s ← upd_task s (curr_task s) (set_state TASK_PENDING);
          t ← task_at s (curr_task s);
          schedule_loop fuel' (with_curr (t_next t) s)
      | TASK_PENDING => upd_task s (curr_task s) (set_state TASK_ACTIVE)
      end
  end.

(** [Yield_Schedule]; every task is looked at at most twice. *)
Definition Yield_Schedule (s : sched) : res sched :=
  let s := mk_sched (tasks s) (curr_task s) (u32 (switch_cnt s + 1)) (task_cnt s) (next_task_id s)
             (coroutines s) (stack_words s) (the_heap s) in
  schedule_loop (2 * size (tasks s) + 1) s.

(** The C part of the context switch: the stack pointer to restore. *)
Definition Yield_PendSVHandler (s : sched) (sp : Z) : res (sched * Z) :=
  s ← upd_task s (curr_task s) (set_sp sp);
  Yield_CheckStack s;;
  s ← Yield_Schedule s;
  t ← task_at s (curr_task s);
  Ok (s, t_sp t).

Fixpoint find_task (fuel : nat) (s : sched) (t task_id : Z) : res Z :=
  match fuel with
  | O => Fault OutOfFuel
  | S fuel' =>
      x ← task_at s t;
      if t_id x =? task_id then Ok t
      else if t_next x =? curr_task s then Ok 0
      else find_task fuel' s (t_next x) task_id
  end.

Definition Yield_GetTaskByID (s : sched) (task_id : Z) : res Z :=
  find_task (S (size (tasks s))) s (curr_task s) task_id.

(** [Yield_Start] up to the call of the first handler. *)
Definition Yield_Start (s : sched) : res sched :=
  c_assert (negb (curr_task s =? 0));;
  upd_task s (curr_task s)
    (λ t, set_state TASK_ACTIVE (set_sp (Z.land (u32 (t_stack t + t_stack_size t)) (Z.lnot 7)) t)).

(** [Yield_ExecuteTask] after the handler returned: what it changes before the
    first and before the second call of the scheduler. *)
Definition Yield_ExecuteTask_done (s : sched) (a : Z) : res sched := upd_task s a (set_done 1).
Definition Yield_ExecuteTask_exit (s : sched) (a : Z) : res sched := upd_task s a (set_state TASK_DONE).

Definition Yield_Task (s : sched) (junk : task) (handler arg stack_size : Z) : res (sched * Z) :=
  '(s, t) ← Yield_AllocateTask s junk stack_size;
  if t =? 0 then Ok (s, EFATAL)
  else
    s ← Yield_InitializeTask s t handler arg 0;
    x ← task_at s t;
    Ok (s, t_id x).

(** First slot of the pool that is empty or whose coroutine has completed. *)
Fixpoint find_slot (s : sched) (l : list Z) (i : nat) : res (option nat) :=
  match l with
  | [] => Ok None
  | c :: l' =>
      if c =? 0 then Ok (Some i)
      else
        t ← task_at s c;
        if bool_decide (t_state t = TASK_DONE) then Ok (Some i) else find_slot s l' (S i)
  end.

(** One slice of the caller: the time it sees, and what happens to the state
    when it yields at the end of the slice. *)
Record slice := mk_slice {
  sl_now : Z;
  sl_world : sched → sched
}.

(** [for (; !found; Yield())]: [Yield] also runs after a slot was found. *)
Fixpoint run_find (slices : list slice) (s : sched) : res (sched * nat) :=
  match slices with
  | [] => Fault OutOfFuel
  | sl :: slices' =>
      f ← find_slot s (coroutines s) 0;
      match f with
      | Some i => Ok (sl_world sl s, i)
      | None => run_find slices' (sl_world sl s)
      end
  end.

Definition set_coro (i : nat) (c : Z) (s : sched) : sched :=
  mk_sched (tasks s) (curr_task s) (switch_cnt s) (task_cnt s) (next_task_id s)
    (<[i := c]> (coroutines s)) (stack_words s) (the_heap s).

(** What [Yield_Run] does with the slot [i] once the loop is over. *)
Definition run_start (s : sched) (i : nat) (junk : task) (handler arg : Z) : res (sched * Z) :=
  match coroutines s !! i with
  | None => Fault OutOfBounds
  | Some c =>
      '(s, c) ← (if c =? 0 then
                   '(s, t) ← Yield_AllocateTask s junk SYS_CORO_STACK_SIZE;
                   Ok (set_coro i t s, t)
                 else Ok (s, c));
      if c =? 0 then Ok (s, EFATAL)
      else
        s ← Yield_InitializeTask s c handler arg TASK_FLAGS_COROUTINE;
        x ← task_at s c;
        Ok (s, t_id x)
  end.

Definition Yield_Run (slices : list slice) (s : sched) (junk : task) (handler arg : Z)
  : res (sched * Z) :=
  '(s, i) ← run_find slices s;
  run_start s i junk handler arg.

(** The loop of [Yield_Wait]; it also returns the slices that are left. *)
Fixpoint wait_done (slices : list slice) (s : sched) (t timeout ts : Z)
  : res (sched * list slice * Z) :=
  match slices with
  | [] => Fault OutOfFuel
  | sl :: slices' =>
      x ← task_at s t;
      if negb (t_handler_done x =? 0) then Ok (s, slices, EOK)
      else if negb (timeout =? 0) && (timeout <? dtime (sl_now sl) ts)
      then Ok (s, slices, ETIMEOUT)
      else wait_done slices' (sl_world sl s) t timeout ts
  end.

Definition Yield_Wait (slices : list slice) (s : sched) (task_id timeout : Z)
  : res (sched * list slice * Z) :=
  match slices with
  | [] => Fault OutOfFuel
  | sl :: _ =>
      t ← Yield_GetTaskByID s task_id;
      if t =? 0 then Ok (s, slices, EOK) else wait_done slices s t timeout (sl_now sl)
  end.

(** [Yield_WaitAll] over the ids before the terminating zero. *)
Fixpoint Yield_WaitAll_loop (ids : list Z) (slices : list slice) (s : sched) (timeout ts : Z)
  : res (sched * list slice * Z) :=
  match ids with
  | [] => Ok (s, slices, EOK)
  | id :: ids' =>
      match slices with
      | [] => Fault OutOfFuel
      | sl :: _ =>
          let left := if timeout =? 0 then 0 else s32 (timeout - dtime (sl_now sl) ts) in
          '(s, slices, ec) ← Yield_Wait slices s id left;
          if ec =? EOK then Yield_WaitAll_loop ids' slices s timeout ts else Ok (s, slices, ec)
      end
  end.

Definition Yield_WaitAll (ids : list Z) (slices : list slice) (s : sched) (timeout : Z)
  : res (sched * list slice * Z) :=
  match slices with
  | [] => Fault OutOfFuel
  | sl :: _ => Yield_WaitAll_loop ids slices s timeout (sl_now sl)
  end.

(** [Yield_Parallel]: each coroutine with the slices its start takes; [ids] is
    the caller's array, or none for a null pointer. *)
Fixpoint parallel_loop (coros : list (Z * Z * list slice * task)) (s : sched)
    (ids : option (list Z)) (n : nat) : res (sched * option (list Z) * Z) :=
  match coros with
  | [] =>
      match ids with
      | None => Fault NullDeref
      | Some l => if decide (n < length l)%nat then Ok (s, Some (<[n := 0]> l), Z.of_nat n)
                  else Fault OutOfBounds
      end
  | (handler, arg, slices, junk) :: coros' =>
      '(s, ec) ← Yield_Run slices s junk handler arg;
      if ec <? EOK then Ok (s, ids, ec)
      else
        match ids with
        | None => parallel_loop coros' s None (S n)
        | Some l => if decide (n < length l)%nat
                    then parallel_loop coros' s (Some (<[n := ec]> l)) (S n)
                    else Fault OutOfBounds
        end
  end.

Definition Yield_Parallel (coros : list (Z * Z * list slice * task)) (s : sched)
    (ids : option (list Z)) : res (sched * option (list Z) * Z) :=
  parallel_loop coros s ids 0.

Definition Yield_GetTaskID (s : sched) : res Z := t ← task_at s (curr_task s); Ok (t_id t).

Definition Yield_Shield (s : sched) (enable : Z) : res sched :=
  upd_task s (curr_task s) (set_shielded (if enable =? 0 then 0 else 1)).

Definition Yield_Cancel (s : sched) (task_id : Z) : res (sched * Z) :=
  t ← Yield_GetTaskByID s task_id;
  if t =? 0 then Ok (s, EFATAL) else s ← upd_task s t (set_cancelled 1); Ok (s, EOK).

Fixpoint Yield_CancelAll (s : sched) (ids : list Z) : res sched :=
  match ids with
  | [] => Ok s
  | id :: ids' => '(s, _) ← Yield_Cancel s id; Yield_CancelAll s ids'
  end.

Definition Yield_IsCancelled (s : sched) : res bool :=
  t ← task_at s (curr_task s);
  Ok ((t_shielded t =? 0) && negb (t_cancelled t =? 0)).
End operations.

(** ** The ring of tasks *)

Definition edge (ts : gmap Z task) (x y : Z) : Prop :=
  t_next <$> ts !! x = Some y ∧ t_prev <$> ts !! y = Some x.

(** From [x] through the tasks [l] to [z]. *)
Fixpoint links (ts : gmap Z task) (x : Z) (l : list Z) (z : Z) : Prop :=
  match l with
  | [] => edge ts x z
  | y :: l' => edge ts x y ∧ links ts y l' z
  end.

(** The current task is [x], the others follow it in the order [l]. *)
Definition ring (s : sched) (x : Z) (l : list Z) : Prop :=
  curr_task s = x ∧ links (tasks s) x l x ∧ NoDup (x :: l) ∧ Forall (λ a, 0 < a) (x :: l).

(** A control block apart from its links. *)
Definition unlinked (t : task) : task := set_tnext 0 (set_tprev 0 t).
Definition view (s : sched) (a : Z) : option task := unlinked <$> tasks s !! a.
Definition state_of (s : sched) (a : Z) : option task_state := t_state <$> tasks s !! a.

Lemma links_snoc ts x l y z : links ts x (l ++ [y]) z ↔ links ts x l y ∧ edge ts y z.
Proof.
  revert x. induction l as [|a l IH]; intros x; simpl; [done|]. rewrite IH. tauto.
Qed.

Lemma links_app ts x l1 y l2 z :
  links ts x (l1 ++ y :: l2) z ↔ links ts x l1 y ∧ links ts y l2 z.
Proof.
  revert x. induction l1 as [|a l1 IH]; intros x; simpl; [done|]. rewrite IH. tauto.
Qed.

(** Only the [next] of the sources and the [prev] of the targets matter. *)
Lemma links_ext ts ts' x l z :
  (∀ a, a ∈ x :: l → t_next <$> ts' !! a = t_next <$> ts !! a) →
  (∀ a, a ∈ l ++ [z] → t_prev <$> ts' !! a = t_prev <$> ts !! a) →
  links ts x l z → links ts' x l z.
Proof.
  revert x. induction l as [|y l IH]; intros x Hn Hp; simpl.
  - intros [H1 H2]. split; [rewrite Hn by left; done|]. rewrite Hp; [done|]. left.
  - intros [[H1 H2] Hl]. split.
    + split; [rewrite Hn by left; done|]. rewrite Hp by left. done.
    + apply IH; [|by intros a Ha; apply Hp; right|done]. intros a Ha. apply Hn. by right.
Qed.

Lemma links_mapped ts x l z a : links ts x l z → a ∈ x :: l → is_Some (ts !! a).
Proof.
  revert x. induction l as [|y l IH]; intros x; simpl.
  - intros [H _] ->%list_elem_of_singleton. by apply fmap_Some in H as (t & -> & _).
  - intros [[H _] Hl] [->|Ha]%elem_of_cons; [|by eapply IH].
    by apply fmap_Some in H as (t & -> & _).
Qed.

Lemma task_at_some s a t : 0 < a → tasks s !! a = Some t → task_at s a = Ok t.
Proof. intros Ha Ht. unfold task_at. rewrite Ht. by destruct (Z.eqb_spec a 0); [lia|]. Qed.

Lemma upd_task_some s a t f :
  0 < a → tasks s !! a = Some t → upd_task s a f = Ok (with_tasks (<[a := f t]> (tasks s)) s).
Proof. intros Ha Ht. unfold upd_task. by rewrite (task_at_some s a t). Qed.

(** Updates that leave the links alone leave the ring alone. *)
Lemma links_upd ts x l z a t f :
  ts !! a = Some t → t_next (f t) = t_next t → t_prev (f t) = t_prev t →
  links ts x l z → links (<[a := f t]> ts) x l z.
Proof.
  intros Ht Hn Hp. apply links_ext; intros b _; destruct (decide (b = a)) as [->|Hne];
    rewrite ?lookup_insert_eq, ?lookup_insert_ne by done; rewrite ?Ht; simpl; by rewrite ?Hn, ?Hp.
Qed.

Lemma ring_head s x l : ring s x l → 0 < x ∧ is_Some (tasks s !! x).
Proof.
  intros (_ & Hl & _ & Hp). apply Forall_cons in Hp as [Hp _]. split; [done|].
  eapply links_mapped; [exact Hl|left].
Qed.

Lemma ring_mem s x l a : ring s x l → a ∈ x :: l → 0 < a ∧ is_Some (tasks s !! a).
Proof.
  intros (_ & Hl & _ & Hp) Ha. split; [by eapply Forall_forall in Hp|].
  by eapply links_mapped.
Qed.

(** Moving on to the next task rotates the ring. *)
Lemma ring_rotate s x y l :
  ring s x (y :: l) → ring (with_curr y s) y (l ++ [x]).
Proof.
  intros (Hc & Hl & Hn & Hp). simpl in Hl. destruct Hl as [He Hl].
  split; [done|]. split; [by apply links_snoc|]. split.
  - change (NoDup ((y :: l) ++ [x])). by rewrite <- Permutation_cons_append.
  - change (Forall (λ a, 0 < a) ((y :: l) ++ [x])).
    apply Forall_cons in Hp as [? ?]. apply Forall_app. split; [done|]. by constructor.
Qed.

(** *** Insertion and removal *)

Lemma links_insert ts ts' x l t p :
  NoDup (x :: l) → t ∉ x :: l → links ts x l x → t_prev <$> ts !! x = Some p →
  edge ts' p t → edge ts' t x →
  (∀ a, a ≠ t → a ≠ p → t_next <$> ts' !! a = t_next <$> ts !! a) →
  (∀ a, a ≠ t → a ≠ x → t_prev <$> ts' !! a = t_prev <$> ts !! a) →
  links ts' x (l ++ [t]) x.
Proof.
  intros Hnd Ht Hl Hp He1 He2 Hn Hpr. apply links_snoc. split; [|done].
  destruct l as [|q l _] using rev_ind.
  - destruct Hl as [_ Hx]. assert (p = x) as -> by congruence. done.
  - apply links_snoc in Hl as [Hl [_ Hx]]. assert (p = q) as -> by congruence.
    apply links_snoc. split; [|done].
    change (NoDup ((x :: l) ++ [q])) in Hnd. apply NoDup_app in Hnd as (Hnd1 & Hq & _).
    eapply links_ext; [| |exact Hl].
    + intros a Ha. apply Hn.
      * intros ->. apply Ht. change (t ∈ (x :: l) ++ [q]). apply elem_of_app. by left.
      * intros ->. apply (Hq q Ha). by left.
    + intros a Ha. apply Hpr.
      * intros ->. apply Ht. by right.
      * intros ->. apply elem_of_app in Ha as [Ha|Ha].
        -- apply NoDup_cons in Hnd1 as [Hx1 _]. done.
        -- apply (Hq x); [left|done].
Qed.

Lemma links_remove ts ts' x y l p :
  NoDup (x :: y :: l) → links ts x (y :: l) x → t_prev <$> ts !! x = Some p →
  edge ts' p y →
  (∀ a, a ≠ p → t_next <$> ts' !! a = t_next <$> ts !! a) →
  (∀ a, a ≠ y → t_prev <$> ts' !! a = t_prev <$> ts !! a) →
  links ts' y l y ∧ p ∈ y :: l.
Proof.
  intros Hnd [_ Hl] Hp He Hn Hpr. apply NoDup_cons in Hnd as [Hx Hnd].
  destruct l as [|q l _] using rev_ind.
  - destruct Hl as [_ Hq]. assert (p = y) as -> by congruence. split; [done|left].
  - apply links_snoc in Hl as [Hl [_ Hq]]. assert (p = q) as -> by congruence.
    split; [|right; apply elem_of_app; right; left].
    apply links_snoc. split; [|done].
    change (NoDup ((y :: l) ++ [q])) in Hnd. apply NoDup_app in Hnd as (Hnd1 & Hqn & _).
    eapply links_ext; [| |exact Hl].
    + intros a Ha. apply Hn. intros ->. apply (Hqn q Ha). by left.
    + intros a Ha. apply Hpr. intros ->. apply elem_of_app in Ha as [Ha|Ha].
      * by apply NoDup_cons in Hnd1 as [? _].
      * apply (Hqn y); [left|done].
Qed.

Lemma ring_prev s x l :
  ring s x l → ∃ p, t_prev <$> tasks s !! x = Some p ∧ p ∈ x :: l.
Proof.
  intros (_ & Hl & _ & _). destruct l as [|q l _] using rev_ind.
  - destruct Hl as [_ H]. exists x. split; [done|left].
  - apply links_snoc in Hl as [_ [_ H]]. exists q. split; [done|].
    right. apply elem_of_app. right. left.
Qed.

(** The links and the views after one link was changed. *)
Lemma set_next_facts (ts : gmap Z task) a t v :
  ts !! a = Some t →
  let ts' := <[a := set_tnext v t]> ts in
  t_next <$> ts' !! a = Some v ∧
  (∀ b, b ≠ a → t_next <$> ts' !! b = t_next <$> ts !! b) ∧
  (∀ b, t_prev <$> ts' !! b = t_prev <$> ts !! b) ∧
  (∀ b, unlinked <$> ts' !! b = unlinked <$> ts !! b).
Proof.
  intros Ht ts'. unfold ts'. split; [by rewrite lookup_insert_eq|]. split.
  - intros b Hb. by rewrite lookup_insert_ne.
  - split; intros b; destruct (decide (b = a)) as [->|Hb];
      [rewrite lookup_insert_eq, Ht|rewrite lookup_insert_ne by done|
       rewrite lookup_insert_eq, Ht|rewrite lookup_insert_ne by done]; done.
Qed.

Lemma set_prev_facts (ts : gmap Z task) a t v :
  ts !! a = Some t →
  let ts' := <[a := set_tprev v t]> ts in
  t_prev <$> ts' !! a = Some v ∧
  (∀ b, b ≠ a → t_prev <$> ts' !! b = t_prev <$> ts !! b) ∧
  (∀ b, t_next <$> ts' !! b = t_next <$> ts !! b) ∧
  (∀ b, unlinked <$> ts' !! b = unlinked <$> ts !! b).
Proof.
  intros Ht ts'. unfold ts'. split; [by rewrite lookup_insert_eq|]. split.
  - intros b Hb. by rewrite lookup_insert_ne.
  - split; intros b; destruct (decide (b = a)) as [->|Hb];
      [rewrite lookup_insert_eq, Ht|rewrite lookup_insert_ne by done|
       rewrite lookup_insert_eq, Ht|rewrite lookup_insert_ne by done]; done.
Qed.

Lemma view_some s s' a : view s' a = view s a → is_Some (tasks s !! a) → is_Some (tasks s' !! a).
Proof.
  unfold view. intros E [t Ht]. rewrite Ht in E. simpl in E. apply fmap_Some in E as (t' & H & _).
  by exists t'.
Qed.

Lemma view_state s s' a : view s' a = view s a → state_of s' a = state_of s a.
Proof.
  unfold view, state_of. intros E.
  assert (∀ o : option task, t_state <$> o = t_state <$> (unlinked <$> o)) as Hs by by intros [].
  by rewrite Hs, E, <- Hs.
Qed.

(** *** Completed tasks *)

(** What happens to the heap when the completed task [t] at [a] is unlinked. *)
Definition release (h : heap_t) (a : Z) (t : task) : res heap_t :=
  if Z.land (t_flags t) TASK_FLAGS_COROUTINE =? 0 then
    h ← Heap_Free h (t_stack t); Heap_Free h a
  else Ok h.

Lemma unlink_ok s x y l t :
  ring s x (y :: l) → tasks s !! x = Some t →
  match release (the_heap s) x t with
  | Fault e => unlink_current s = Fault e
  | Ok h => ∃ s', unlink_current s = Ok s' ∧ ring s' y l ∧ the_heap s' = h ∧
      (∀ a, a ≠ x → view s' a = view s a) ∧ task_cnt s' = u32 (task_cnt s - 1)
  end.
Proof.
  intros Hr Ht. destruct (ring_prev _ _ _ Hr) as (p & Hp & _).
  pose proof Hr as (Hc & Hl & Hnd & Hpos).
  assert (t_prev t = p) as Htp by (by rewrite Ht in Hp; injection Hp).
  assert (t_next t = y) as Htn by (destruct Hl as [[H _] _]; rewrite Ht in H; by injection H).
  assert (p ∈ y :: l) as Hpin.
  { destruct l as [|q l _] using rev_ind.
    - destruct Hl as [_ [_ H]]. rewrite Ht in H. injection H as H. rewrite Htp in H.
      subst p. left.
    - destruct Hl as [_ Hl]. apply links_snoc in Hl as [_ [_ H]]. rewrite Ht in H.
      injection H as H. rewrite Htp in H. subst p. right. apply elem_of_app. right. left. }
  assert (p ≠ x ∧ y ≠ x) as [Hpx Hyx].
  { apply NoDup_cons in Hnd as [Hx _]. split; [by intros ->|]. intros ->. apply Hx. left. }
  destruct (ring_mem _ _ _ p Hr ltac:(by right)) as [Hp0 [tp Htsp]].
  destruct (ring_mem _ _ _ y Hr ltac:(right; left)) as [Hy0 _].
  destruct (ring_head _ _ _ Hr) as [Hx0 _].
  set (ts1 := <[p := set_tnext y tp]> (tasks s)).
  destruct (set_next_facts (tasks s) p tp y Htsp) as (N1 & N2 & N3 & N4). fold ts1 in N1, N2, N3, N4.
  assert (is_Some (ts1 !! y)) as [ty Hty].
  { unfold ts1. apply lookup_insert_is_Some'. right.
    by destruct (ring_mem _ _ _ y Hr ltac:(right; left)). }
  set (ts2 := <[y := set_tprev p ty]> ts1).
  destruct (set_prev_facts ts1 y ty p Hty) as (P1 & P2 & P3 & P4). fold ts2 in P1, P2, P3, P4.
  assert (ts1 !! x = Some t) as Hx1 by (unfold ts1; by rewrite lookup_insert_ne).
  assert (ts2 !! x = Some t) as Hx2 by (unfold ts2; by rewrite lookup_insert_ne).
  assert (links ts2 y l y) as Hl2.
  { eapply (links_remove (tasks s) ts2 x y l p Hnd Hl Hp).
    - split; [by rewrite P3, N1|done].
    - intros a Ha. by rewrite P3, N2.
    - intros a Ha. by rewrite P2, N3. }
  unfold unlink_current. rewrite Hc, (task_at_some _ _ _ Hx0 Ht), bind_Ok, Htn, Htp.
  rewrite (upd_task_some (with_curr y s) p tp) by done. rewrite bind_Ok. fold ts1.
  rewrite (task_at_some _ x t) by done. rewrite bind_Ok, Htn, Htp.
  rewrite (upd_task_some _ y ty) by done. rewrite bind_Ok. fold ts2.
  rewrite (task_at_some _ x t) by done. rewrite bind_Ok, Htn, Htp.
  destruct (Z.eqb_spec p x); [done|]. destruct (Z.eqb_spec y x); [done|]. simpl c_assert.
  rewrite bind_Ok. unfold release.
  assert (ring_ts : ∀ s', curr_task s' = y → (∀ a, a ≠ x → tasks s' !! a = ts2 !! a) → ring s' y l).
  { intros s' Hc' Hts. apply NoDup_cons in Hnd as [Hx Hnd]. apply Forall_cons in Hpos as [_ Hpos].
    split; [done|]. split; [|done]. eapply links_ext; [| |exact Hl2].
    - intros a Ha. rewrite Hts; [done|]. by intros ->.
    - intros a Ha. rewrite Hts; [done|]. intros ->. apply elem_of_app in Ha as [Ha|Ha].
      + apply Hx. by right.
      + apply list_elem_of_singleton in Ha. by subst. }
  destruct (Z.land (t_flags t) TASK_FLAGS_COROUTINE =? 0).
  - unfold Yield_DeallocateTask. rewrite (task_at_some _ x t) by done. rewrite bind_Ok. simpl.
    destruct (Heap_Free (the_heap s) (t_stack t)) as [h1|e]; simpl; [|done].
    destruct (Heap_Free h1 x) as [h2|e]; simpl; [|done].
    eexists. split; [done|]. split; [|split; [done|split; [|done]]].
    + apply ring_ts; [done|]. intros a Ha. simpl. by rewrite lookup_delete_ne.
    + intros a Ha. unfold view. simpl. by rewrite lookup_delete_ne, P4, N4.
  - simpl. eexists. split; [done|]. split; [|split; [done|split; [|done]]].
    + by apply ring_ts.
    + intros a Ha. unfold view. simpl. by rewrite P4, N4.
Qed.

(** The last task of all must not complete. *)
Lemma unlink_last s x t :
  ring s x [] → tasks s !! x = Some t → unlink_current s = Fault AssertFailed.
Proof.
  intros Hr Ht. pose proof Hr as (Hc & [Hn Hp] & _ & _). destruct (ring_head _ _ _ Hr) as [Hx0 _].
  rewrite Ht in Hn, Hp. injection Hn as Hn. injection Hp as Hp.
  unfold unlink_current. rewrite Hc, (task_at_some _ _ _ Hx0 Ht), bind_Ok, Hn, Hp.
  rewrite (upd_task_some (with_curr x s) x t) by done. rewrite bind_Ok.
  erewrite task_at_some; [|done|apply lookup_insert_eq]. rewrite bind_Ok. simpl t_next. simpl t_prev.
  erewrite upd_task_some; [|done|apply lookup_insert_eq]. rewrite bind_Ok.
  erewrite task_at_some; [|done|apply lookup_insert_eq]. rewrite bind_Ok. simpl. rewrite Hp.
  by rewrite Z.eqb_refl.
Qed.

(** *** Choosing the next task *)

Lemma ring_upd s x l a t f :
  ring s x l → tasks s !! a = Some t → t_next (f t) = t_next t → t_prev (f t) = t_prev t →
  ring (with_tasks (<[a := f t]> (tasks s)) s) x l.
Proof.
  intros (Hc & Hl & Hr) Ht Hn Hp. split; [done|]. split; [|done]. by apply links_upd.
Qed.

(** Completed tasks at the head of the ring go, in order. *)
Fixpoint release_all (s : sched) (h : heap_t) (ds : list Z) : res heap_t :=
  match ds with
  | [] => Ok h
  | d :: ds' =>
      match tasks s !! d with
      | Some t => h ← release h d t; release_all s h ds'
      | None => Fault OutOfBounds
      end
  end.

Lemma release_view h a t t' : unlinked t = unlinked t' → release h a t = release h a t'.
Proof. destruct t, t'. by intros [=]; subst. Qed.

Lemma release_all_view s s' h ds :
  (∀ a, a ∈ ds → view s' a = view s a) → release_all s' h ds = release_all s h ds.
Proof.
  revert h. induction ds as [|d ds IH]; intros h Hv; simpl; [done|].
  pose proof (Hv d ltac:(left)) as E. unfold view in E.
  destruct (tasks s' !! d) as [t'|], (tasks s !! d) as [t|]; simpl in E; try done.
  apply (inj Some) in E. rewrite (release_view h d t' t) by done.
  destruct (release h d t) as [h'|]; simpl; [|done]. apply IH. intros b Hb. apply Hv. by right.
Qed.

(** The head of the ring is the first task after the completed ones [ds]. *)
Lemma schedule_skip ds : ∀ fuel s x l y l',
  ring s x l → x :: l = ds ++ y :: l' →
  Forall (λ d, state_of s d = Some TASK_DONE) ds → state_of s y = Some TASK_PENDING →
  (length ds < fuel)%nat →
  match release_all s (the_heap s) ds with
  | Fault e => schedule_loop fuel s = Fault e
  | Ok h => ∃ s', schedule_loop fuel s = Ok s' ∧ ring s' y l' ∧ the_heap s' = h ∧
      view s' y = set_state TASK_ACTIVE <$> view s y ∧
      (∀ a, a ≠ y → a ∉ ds → view s' a = view s a)
  end.
Proof.
  induction ds as [|d ds IH]; intros [|fuel] s x l y l' Hr Hl Hd Hy Hf; simpl in Hf; try lia.
  - injection Hl as -> ->. destruct (ring_head _ _ _ Hr) as [Hy0 [t Ht]].
    simpl. assert (curr_task s = y) as -> by apply Hr. unfold state_of in Hy. rewrite Ht in Hy.
    rewrite (task_at_some _ _ _ Hy0 Ht), bind_Ok.
    injection Hy as ->. rewrite (upd_task_some _ _ _ _ Hy0 Ht).
    eexists. split; [done|]. split; [by apply ring_upd|]. split; [done|]. unfold view. simpl. split.
    + by rewrite lookup_insert_eq, Ht.
    + intros a Ha _. by rewrite lookup_insert_ne.
  - simpl in Hl. injection Hl as <- Hl. apply Forall_cons in Hd as [Hx Hd].
    destruct l as [|x' l]; [by destruct ds|].
    destruct (ring_head _ _ _ Hr) as [Hx0 [t Ht]]. simpl release_all. rewrite Ht. simpl.
    assert (curr_task s = x) as -> by apply Hr. unfold state_of in Hx. rewrite Ht in Hx.
    rewrite (task_at_some _ _ _ Hx0 Ht), bind_Ok. injection Hx as ->.
    pose proof (unlink_ok s x x' l t Hr Ht) as Hu. destruct (release (the_heap s) x t) as [h|e].
    2:{ by rewrite Hu. }
    destruct Hu as (s1 & -> & Hr1 & Hh & Hv & _). rewrite !bind_Ok.
    assert (Hnx : ∀ a, a ∈ x' :: l → a ≠ x).
    { intros a Ha ->. destruct Hr as (_ & _ & Hnd & _). by apply NoDup_cons in Hnd as [? _]. }
    assert (Hin : ∀ a, a ∈ ds ++ y :: l' → view s1 a = view s a).
    { intros a Ha. apply Hv, Hnx. by rewrite Hl. }
    pose proof (IH fuel s1 x' l y l' Hr1 Hl) as IH1. rewrite Hh in IH1.
    rewrite (release_all_view s s1) in IH1.
    2:{ intros a Ha. apply Hin, elem_of_app. by left. }
    assert (match release_all s h ds with
      | Ok h0 => ∃ s', schedule_loop fuel s1 = Ok s' ∧ ring s' y l' ∧ the_heap s' = h0 ∧
          view s' y = set_state TASK_ACTIVE <$> view s1 y ∧
          (∀ a, a ≠ y → a ∉ ds → view s' a = view s1 a)
      | Fault f => schedule_loop fuel s1 = Fault f end) as IH2.
    { apply IH1; [| |lia].
      - apply Forall_forall. intros a Ha. rewrite (view_state s).
        + by eapply Forall_forall in Hd.
        + apply Hin, elem_of_app. by left.
      - rewrite (view_state s); [done|]. apply Hin, elem_of_app. right. left. }
    destruct (release_all s h ds) as [h'|e]; [|done].
    destruct IH2 as (s' & Hs' & Hr' & Hh' & Hvy & Hva). exists s'.
    split; [done|]. split; [done|]. split; [done|]. split.
    + rewrite Hvy. f_equal. apply Hin, elem_of_app. right. left.
    + intros a Ha Hna. rewrite elem_of_cons in Hna. rewrite Hva by tauto. apply Hv. tauto.
Qed.

(** *** One call of the scheduler *)

Lemma ring_size s x l : ring s x l → (length (x :: l) ≤ size (tasks s))%nat.
Proof.
  intros Hr. pose proof Hr as (_ & _ & Hnd & _). rewrite <- size_dom.
  rewrite <- (size_list_to_set (C := gset Z)) by done. apply subseteq_size.
  intros a Ha%elem_of_list_to_set. apply elem_of_dom. by eapply ring_mem.
Qed.

Lemma state_view s s' a st :
  view s' a = set_state st <$> view s a → is_Some (tasks s !! a) → state_of s' a = Some st.
Proof.
  unfold view, state_of. intros E [t Ht]. rewrite Ht in E. simpl in E.
  apply fmap_Some in E as (t' & -> & E'). simpl. f_equal. by apply (f_equal t_state) in E'.
Qed.

(** The order in which the scheduler looks at the tasks: the running task goes
    to the back of the ring, a completed one stays in front. *)
Definition turn (s : sched) (x : Z) (l : list Z) : list Z :=
  if decide (state_of s x = Some TASK_ACTIVE) then l ++ [x] else x :: l.

Definition count_switch (s : sched) : sched :=
  mk_sched (tasks s) (curr_task s) (u32 (switch_cnt s + 1)) (task_cnt s) (next_task_id s)
    (coroutines s) (stack_words s) (the_heap s).

(** What [Yield_Schedule] does to the running task [x] before it looks at the
    others. *)
Lemma schedule_active fuel s x l t :
  ring s x l → tasks s !! x = Some t → t_state t = TASK_ACTIVE →
  ∃ s1 y l1, schedule_loop (S fuel) s = schedule_loop fuel s1 ∧ ring s1 y l1 ∧
    y :: l1 = l ++ [x] ∧ the_heap s1 = the_heap s ∧
    view s1 x = set_state TASK_PENDING <$> view s x ∧ (∀ a, a ≠ x → view s1 a = view s a).
Proof.
  intros Hr Ht Ha. destruct (ring_head _ _ _ Hr) as [Hx0 _].
  assert (curr_task s = x) as Hc by apply Hr.
  assert (Hr' := ring_upd s x l x t (set_state TASK_PENDING) Hr Ht eq_refl eq_refl).
  assert (t_next t = hd x l) as Hn.
  { destruct Hr as (_ & Hl & _). destruct l as [|y l]; destruct Hl as [H _].
    - rewrite Ht in H. by injection H.
    - destruct H as [H _]. rewrite Ht in H. by injection H. }
  simpl. rewrite Hc, (task_at_some _ _ _ Hx0 Ht), bind_Ok, Ha.
  rewrite (upd_task_some _ _ _ _ Hx0 Ht), bind_Ok. simpl curr_task. rewrite Hc.
  erewrite task_at_some; [|done|apply lookup_insert_eq]. rewrite bind_Ok. simpl t_next. rewrite Hn.
  set (s1 := with_tasks _ s) in *. exists (with_curr (hd x l) s1), (hd x l), (tail (l ++ [x])).
  split; [done|]. split; [destruct l as [|y l]; [split; [done|apply Hr']|by apply ring_rotate]|].
  split; [by destruct l|]. split; [done|]. unfold view. simpl. split.
  - by rewrite lookup_insert_eq, Ht.
  - intros a Hne. by rewrite lookup_insert_ne.
Qed.

Lemma Schedule_ok s x l ds y l' :
  ring s x l → turn s x l = ds ++ y :: l' →
  Forall (λ a, state_of s a ≠ Some TASK_ACTIVE) l →
  Forall (λ d, state_of s d = Some TASK_DONE) ds → state_of s y ≠ Some TASK_DONE →
  match release_all s (the_heap s) ds with
  | Fault e => Yield_Schedule s = Fault e
  | Ok h => ∃ s', Yield_Schedule s = Ok s' ∧ ring s' y l' ∧ the_heap s' = h ∧
      view s' y = set_state TASK_ACTIVE <$> view s y ∧
      (state_of s x = Some TASK_ACTIVE → x ≠ y → view s' x = set_state TASK_PENDING <$> view s x) ∧
      (∀ a, a ≠ x → a ≠ y → a ∉ ds → view s' a = view s a)
  end.
Proof.
  intros Hr Ht Hact Hd Hy. pose proof (ring_size _ _ _ Hr) as Hsz.
  destruct (ring_head _ _ _ Hr) as [Hx0 [t Htx]].
  assert (Hpend : ∀ a, a ∈ l → a ≠ x → a = y → state_of s y = Some TASK_PENDING).
  { intros a Ha _ <-. rewrite Forall_forall in Hact. specialize (Hact a Ha).
    destruct (ring_mem _ _ _ a Hr ltac:(by right)) as [_ [ta Hta]].
    unfold state_of in *. rewrite Hta in *. simpl in *. by destruct (t_state ta). }
  unfold Yield_Schedule. fold (count_switch s).
  assert (ring (count_switch s) x l) as Hr0 by exact Hr.
  replace (2 * size (tasks s) + 1)%nat with (S (2 * size (tasks s)))%nat by lia.
  unfold turn in Ht. destruct (decide (state_of s x = Some TASK_ACTIVE)) as [Hxa|Hxn].
  - assert (t_state t = TASK_ACTIVE) as Hts by (unfold state_of in Hxa; rewrite Htx in Hxa; by injection Hxa).
    destruct (schedule_active (2 * size (tasks s)) (count_switch s) x l t Hr0 Htx Hts)
      as (s1 & z & l1 & -> & Hr1 & Hl1 & Hh1 & Hvx & Hva).
    assert (x ∉ ds) as Hxds.
    { intros Hin. rewrite Forall_forall in Hd. specialize (Hd x Hin). congruence. }
    assert (length ds < length (x :: l))%nat as Hlen.
    { apply (f_equal length) in Ht. rewrite !length_app in Ht. simpl in *. lia. }
    pose proof (schedule_skip ds (2 * size (tasks s)) s1 z l1 y l' Hr1 (eq_trans Hl1 Ht)) as Hskip.
    rewrite Hh1 in Hskip. rewrite (release_all_view s s1) in Hskip by
      (intros a Ha; apply (Hva a); intros ->; done).
    assert (state_of s1 y = Some TASK_PENDING) as Hy1.
    { destruct (decide (y = x)) as [->|Hyx].
      - apply (state_view (count_switch s)); [done|by exists t].
      - rewrite (view_state (count_switch s)) by by apply Hva.
        assert (y ∈ l ++ [x]) as Hin by (rewrite Ht; apply elem_of_app; right; left).
        apply elem_of_app in Hin as [Hin|Hin%list_elem_of_singleton]; [|done].
        by apply (Hpend y). }
    assert (Forall (λ d, state_of s1 d = Some TASK_DONE) ds) as Hd1.
    { eapply Forall_impl; [apply Forall_and; split; [exact Hd|]|].
      - apply Forall_forall. intros a Ha. exact Ha.
      - intros a [Hda Hin]. rewrite (view_state (count_switch s)); [done|].
        apply Hva. by intros ->. }
    specialize (Hskip Hd1 Hy1 ltac:(simpl in *; lia)). simpl the_heap in Hskip.
    destruct (release_all s (the_heap s) ds) as [h|e]; [|done].
    destruct Hskip as (s' & Hs' & Hr' & Hh' & Hvy & Hvo). exists s'.
    split; [done|]. split; [done|]. split; [done|]. split; [|split].
    + rewrite Hvy. destruct (decide (y = x)) as [->|Hyx].
      * rewrite Hvx. unfold view. simpl. rewrite Htx. done.
      * by rewrite (Hva y Hyx).
    + intros _ Hxy. by rewrite Hvo.
    + intros a Hax Hay Had. by rewrite Hvo, Hva.
  - assert (state_of s y = Some TASK_PENDING) as Hy1.
    { destruct (decide (y = x)) as [->|Hyx].
      - unfold state_of in *. rewrite Htx in *. simpl in *. by destruct (t_state t).
      - assert (y ∈ x :: l) as Hin by (rewrite Ht; apply elem_of_app; right; left).
        apply elem_of_cons in Hin as [?|Hin]; [done|]. by apply (Hpend y). }
    assert (length ds < length (x :: l))%nat as Hlen.
    { apply (f_equal length) in Ht. rewrite !length_app in Ht. simpl in *. lia. }
    pose proof (schedule_skip ds (S (2 * size (tasks s))) (count_switch s) x l y l' Hr0 Ht Hd Hy1
      ltac:(simpl in *; lia)) as Hskip.
    rewrite (release_all_view s (count_switch s)) in Hskip by done. simpl the_heap in Hskip.
    destruct (release_all s (the_heap s) ds) as [h|e]; [|done].
    destruct Hskip as (s' & Hs' & Hr' & Hh' & Hvy & Hvo). exists s'.
    split; [done|]. split; [done|]. split; [done|]. split; [done|]. split; [done|].
    intros a _ Hay Had. by apply Hvo.
Qed.

(** *** Looking up tasks *)

Lemma find_task_ok l : ∀ fuel s x z l0 id,
  ring s x l0 → links (tasks s) z l x → 0 < z → Forall (λ a, 0 < a) l → x ∉ l →
  (length l < fuel)%nat →
  find_task fuel s z id =
    Ok (default 0 (head (base.filter (λ a, t_id <$> tasks s !! a = Some id) (z :: l)))).
Proof.
  induction l as [|y l IH]; intros [|fuel] s x z l0 id Hr Hl Hz Hp Hx Hf; simpl in Hf; try lia.
  - assert (curr_task s = x) as Hc by apply Hr. destruct Hl as [Hn _].
    apply fmap_Some in Hn as (t & Ht & ->). simpl. rewrite (task_at_some _ _ _ Hz Ht), bind_Ok.
    rewrite filter_cons, filter_nil, Ht. simpl. rewrite Hc, Z.eqb_refl.
    destruct (Z.eqb_spec (t_id t) id), (decide (Some (t_id t) = Some id)); first [done|congruence].
  - assert (curr_task s = x) as Hc by apply Hr. destruct Hl as [[Hn Hpv] Hl].
    apply fmap_Some in Hn as (t & Ht & ->). simpl find_task. rewrite (task_at_some _ _ _ Hz Ht), bind_Ok.
    rewrite filter_cons, Ht. simpl fmap. apply Forall_cons in Hp as [Hy Hp].
    rewrite elem_of_cons in Hx.
    destruct (Z.eqb_spec (t_id t) id), (decide (Some (t_id t) = Some id));
      try first [done|congruence].
    rewrite Hc. destruct (Z.eqb_spec (t_next t) x) as [E|_]; [destruct Hx; by left|].
    rewrite (IH fuel s x _ l0 id) by (done || tauto || lia). done.
Qed.

Lemma GetTaskByID_ok s x l id :
  ring s x l →
  Yield_GetTaskByID s id =
    Ok (default 0 (head (base.filter (λ a, t_id <$> tasks s !! a = Some id) (x :: l)))).
Proof.
  intros Hr. pose proof (ring_size _ _ _ Hr). pose proof Hr as (Hc & Hl & Hnd & Hp).
  apply Forall_cons in Hp as [Hx Hp]. apply NoDup_cons in Hnd as [Hnx _].
  unfold Yield_GetTaskByID. rewrite Hc. apply (find_task_ok l _ s x x l); try done. simpl in *. lia.
Qed.

(** *** New tasks *)

Lemma InitializeTask_ring execute_task s x l a t handler arg flags :
  ring s x l → tasks s !! a = Some t → 0 < a → a ∉ x :: l →
  (4 | t_stack t) → (4 | t_stack_size t) → sizeof_task_frame ≤ t_stack_size t →
  0 ≤ t_stack t → 
  ∃ s', Yield_InitializeTask execute_task s a handler arg flags = Ok s' ∧ ring s' x (l ++ [a]) ∧
    view s' a = Some (mk_task (initial_sp (t_stack t) (t_stack_size t)) 0 0 TASK_PENDING flags
      handler arg 0 (t_shielded t) 0 (t_stack t) (t_stack_size t) (next_task_id s)) ∧
    (∀ b, b ≠ a → view s' b = view s b) ∧ next_task_id s' = s32 (next_task_id s + 1) ∧
    task_cnt s' = u32 (task_cnt s + 1) ∧
    stack_words s' = frame_words execute_task (<[t_stack t := STACK_GUARD]> (stack_words s))
      (initial_sp (t_stack t) (t_stack_size t)) a.
Proof.
  intros Hr Ht Ha Hnin Hst Hsz Hge Hst0.
  destruct (ring_prev _ _ _ Hr) as (p & Hp & Hpin).
  destruct (ring_mem _ _ _ p Hr Hpin) as [Hp0 [tp Htp]].
  destruct (ring_head _ _ _ Hr) as [Hx0 [tx Htx]]. pose proof Hr as (Hc & Hl & Hnd & Hpos).
  assert (a ≠ x ∧ a ≠ p) as [Hax Hap].
  { split; [intros ->; apply Hnin; left|by intros ->]. }
  assert (∀ z, (4 | z) → Z.land z 3 = 0) as Hland.
  { intros z [k ->]. change 3 with (Z.ones 2). rewrite Z.land_ones by lia. apply Z.mod_mul. lia. }
  unfold Yield_InitializeTask. rewrite (task_at_some _ _ _ Ha Ht), bind_Ok.
  rewrite !Hland by done. simpl c_assert. rewrite !bind_Ok.
  destruct (Z.leb_spec sizeof_task_frame (t_stack_size t)); [|lia]. simpl c_assert. rewrite bind_Ok.
  rewrite Hc. simpl curr_task. destruct (Z.eqb_spec x 0); [lia|].
  set (t0 := mk_task _ _ _ _ _ _ _ _ _ _ _ _ _).
  set (ts0 := <[a := t0]> (tasks s)). set (s0 := mk_sched ts0 _ _ _ _ _ _ _).
  assert (ts0 !! x = Some tx) as H0x by (unfold ts0; by rewrite lookup_insert_ne).
  assert (ts0 !! a = Some t0) as H0a by apply lookup_insert_eq.
  assert (t_prev tx = p) as Htxp by (rewrite Htx in Hp; by injection Hp).
  rewrite (task_at_some s0 x tx) by done. rewrite bind_Ok, Htxp.
  rewrite (upd_task_some s0 a t0) by done. rewrite bind_Ok.
  set (ts1 := <[a := set_tprev p t0]> ts0). change (tasks s0) with ts0. fold ts1.
  assert (ts1 !! a = Some (set_tprev p t0)) as H1a by apply lookup_insert_eq.
  simpl curr_task. rewrite (upd_task_some _ a (set_tprev p t0)) by done. rewrite bind_Ok.
  set (ts2 := <[a := set_tnext x (set_tprev p t0)]> ts1).
  change (tasks (with_tasks ts1 s0)) with ts1. fold ts2.
  assert (ts2 !! x = Some tx) as H2x by (unfold ts2, ts1; by rewrite !lookup_insert_ne).
  assert (ts2 !! p = Some tp) as H2p by (unfold ts2, ts1, ts0; by rewrite !lookup_insert_ne).
  rewrite (task_at_some _ x tx) by done. rewrite bind_Ok, Htxp.
  rewrite (upd_task_some _ p tp) by done. rewrite bind_Ok.
  set (ts3 := <[p := set_tnext a tp]> ts2). simpl tasks. fold ts3.
  assert (is_Some (ts3 !! x)) as [tx3 H3x].
  { unfold ts3. apply lookup_insert_is_Some'. right. by exists tx. }
  rewrite (upd_task_some _ x tx3) by done. rewrite bind_Ok.
  set (ts4 := <[x := set_tprev a tx3]> ts3). simpl tasks. fold ts4.
  destruct (set_next_facts ts2 p tp a H2p) as (N1 & N2 & N3 & N4). fold ts3 in N1, N2, N3, N4.
  destruct (set_prev_facts ts3 x tx3 a H3x) as (P1 & P2 & P3 & P4). fold ts4 in P1, P2, P3, P4.
  assert (Hother : ∀ b, b ≠ a → ts2 !! b = tasks s !! b).
  { intros b Hb. unfold ts2, ts1, ts0. by rewrite !lookup_insert_ne by done. }
  eexists. split; [done|]. split; [split; [done|split; [|split]]|].
  - simpl. eapply (links_insert (tasks s) ts4 x l a p); try done.
    + split; [by rewrite P3, N1|]. rewrite P2, N3 by done. unfold ts2. by rewrite lookup_insert_eq.
    + split; [|done]. rewrite P3, N2 by done. unfold ts2. by rewrite lookup_insert_eq.
    + intros b Hba Hbp. by rewrite P3, N2, Hother.
    + intros b Hba Hbx. by rewrite P2, N3, Hother.
  - change (NoDup ((x :: l) ++ [a])). rewrite <- Permutation_cons_append. by apply NoDup_cons.
  - change (Forall (λ a, 0 < a) ((x :: l) ++ [a])). apply Forall_app. split; [done|by constructor].
  - unfold view. simpl. split; [|split; [|done]].
    + rewrite P4, N4. unfold ts2. by rewrite lookup_insert_eq.
    + intros b Hb. by rewrite P4, N4, Hother.
Qed.

(** The first frame lies inside the stack, above the guard, and leaves the stack
    pointer 8-aligned when it has been popped. *)
Lemma initial_sp_ok stack size :
  0 ≤ stack → sizeof_task_frame ≤ size → stack + size < 4294967296 →
  (8 | initial_sp stack size + sizeof_frame_basic) ∧
  stack + 4 ≤ initial_sp stack size ∧ initial_sp stack size + sizeof_frame_basic ≤ stack + size.
Proof.
  unfold initial_sp, sizeof_task_frame, sizeof_frame_basic. intros H0 Hs He.
  rewrite (u32_small (stack + size)) by (unfold is_u32; lia).
  assert (Z.land (stack + size) (Z.lnot 7) = 8 * ((stack + size) / 8)) as ->.
  { rewrite <- Z.ldiff_land. change 7 with (Z.ones 3).
    rewrite Z.ldiff_ones_r, Z.shiftl_mul_pow2, Z.shiftr_div_pow2 by lia.
    change (2 ^ 3) with 8. lia. }
  rewrite u32_small by (unfold is_u32; lia). split; [|lia].
  exists ((stack + size) / 8). lia.
Qed.

(** ** Properties *)

(** C4: [Yield_Schedule] always terminates and hands the processor to the first
    task, in ring order after the one that ran, that has not completed.
    Completed tasks met on the way leave the ring and - unless they are
    coroutines - have their stack and control block freed in that order; the
    task that ran goes back to pending, and no other control block changes. *)
Theorem Yield_Schedule_next s x l ds y l' :
  ring s x l → turn s x l = ds ++ y :: l' →
  Forall (λ a, state_of s a ≠ Some TASK_ACTIVE) l →
  Forall (λ d, state_of s d = Some TASK_DONE) ds → state_of s y ≠ Some TASK_DONE →
  match release_all s (the_heap s) ds with
  | Fault e => Yield_Schedule s = Fault e
  | Ok h => ∃ s', Yield_Schedule s = Ok s' ∧ ring s' y l' ∧ the_heap s' = h ∧
      view s' y = set_state TASK_ACTIVE <$> view s y ∧
      (state_of s x = Some TASK_ACTIVE → x ≠ y → view s' x = set_state TASK_PENDING <$> view s x) ∧
      (∀ a, a ≠ x → a ≠ y → a ∉ ds → view s' a = view s a)
  end.
Proof. intros. by eapply Schedule_ok. Qed.

(** A ring whose head runs and whose other tasks wait. *)
Definition running (s : sched) (x : Z) (l : list Z) : Prop :=
  ring s x l ∧ state_of s x = Some TASK_ACTIVE ∧
  Forall (λ a, state_of s a = Some TASK_PENDING) l.

Lemma running_step s x l :
  running s x l →
  ∃ s' y l', Yield_Schedule s = Ok s' ∧ running s' y l' ∧ y :: l' = l ++ [x] ∧
             the_heap s' = the_heap s.
Proof.
  intros (Hr & Hx & Hl). destruct (l ++ [x]) as [|y l'] eqn:E; [by destruct l|].
  assert (turn s x l = [] ++ y :: l') as Ht by (unfold turn; rewrite decide_True by done; done).
  assert (Hin : ∀ a, a ∈ y :: l' → a = x ∨ a ∈ l).
  { intros a Ha. rewrite <- E in Ha. apply elem_of_app in Ha as [?|?%list_elem_of_singleton]; tauto. }
  assert (Hlf : ∀ a, a ∈ l → state_of s a = Some TASK_PENDING) by by apply Forall_forall.
  assert (state_of s y ≠ Some TASK_DONE) as Hy.
  { destruct (Hin y ltac:(left)) as [->|Hy%Hlf]; congruence. }
  pose proof (Schedule_ok s x l [] y l' Hr Ht) as H. simpl in H.
  destruct H as (s' & Hs & Hr' & Hh & Hvy & Hvx & Hva).
  { eapply Forall_impl; [exact Hl|]. simpl. congruence. }
  { constructor. }
  { done. }
  exists s', y, l'. split; [done|]. split; [|done]. split; [done|].
  destruct (ring_mem _ _ _ y Hr) as [_ Hys].
  { destruct (Hin y ltac:(left)) as [->|?]; [left|by right]. }
  split; [by apply (state_view s)|]. apply Forall_forall. intros a Ha.
  assert (a ≠ y) as Hay.
  { intros ->. destruct Hr' as (_ & _ & Hnd & _). by apply NoDup_cons in Hnd as [? _]. }
  destruct (decide (a = x)) as [->|Hax].
  - apply (state_view s); [by apply Hvx|]. exact (proj2 (ring_head _ _ _ Hr)).
  - rewrite (view_state s) by (apply Hva; [done..|apply not_elem_of_nil]).
    destruct (Hin a ltac:(by right)) as [?|?]; [done|by apply Hlf].
Qed.

(** C36: Round robin.  As long as tasks only yield, the scheduler runs them in
    ring order for ever: after [n] switches the task at position [n] modulo the
    number of tasks runs, so between two turns of a task every other task runs
    exactly once. *)
Theorem Yield_round_robin n s x l :
  running s x l →
  ∃ s' y l', Nat.iter n (λ r, r ≫= Yield_Schedule) (Ok s) = Ok s' ∧ running s' y l' ∧
    (x :: l) !! (n mod length (x :: l))%nat = Some y ∧ y :: l' ≡ₚ x :: l.
Proof.
  intros Hrun.
  assert (∃ s' y l', Nat.iter n (λ r, r ≫= Yield_Schedule) (Ok s) = Ok s' ∧ running s' y l' ∧
    length l' = length l ∧ y :: l' ≡ₚ x :: l ∧
    ∀ i, (i < length (x :: l))%nat →
      (y :: l') !! i = (x :: l) !! ((n + i) mod length (x :: l))%nat) as
    (s' & y & l' & Hi & Hr & _ & Hperm & Hrot).
  { induction n as [|n (s1 & x1 & l1 & Hi & Hr & Hlen & Hperm & Hrot)].
    - exists s, x, l. split; [done|]. split; [done|]. split; [done|]. split; [done|].
      intros i Hlt. by rewrite Nat.mod_small.
    - destruct (running_step s1 x1 l1 Hr) as (s2 & y & l2 & Hs & Hr2 & Hl2 & _).
      exists s2, y, l2. split; [simpl; by rewrite Hi|]. split; [done|].
      assert (length l2 = length l) as Hlen2.
      { apply (f_equal length) in Hl2. rewrite length_app in Hl2. simpl in Hl2. lia. }
      split; [done|]. split.
      { rewrite Hl2, <- Permutation_cons_append. done. }
      intros i Hlt. rewrite Hl2. simpl length in *.
      destruct (decide (i < length l1)%nat) as [Hil|Hil].
      + rewrite lookup_app_l by done. change (l1 !! i) with ((x1 :: l1) !! S i).
        rewrite Hrot by lia. f_equal. f_equal. lia.
      + assert (i = length l1) as -> by lia. rewrite lookup_app_r, Nat.sub_diag by lia.
        change ([x1] !! 0%nat) with ((x1 :: l1) !! 0%nat). rewrite Hrot by lia.
        f_equal. rewrite Hlen, Nat.add_0_r.
        replace (S n + length l)%nat with (n + 1 * S (length l))%nat by lia.
        by rewrite Nat.Div0.mod_add. }
  exists s', y, l'. split; [done|]. split; [done|]. split; [|done].
  pose proof (Hrot O ltac:(simpl; lia)) as H0. by rewrite Nat.add_0_r in H0.
Qed.

(** [Yield_InitializeTask] puts a new task at the end of the ring, pending,
    with a fresh id and a guarded stack, so that it runs after all tasks that
    are there; its first frame lies within the stack, above the guard word, and
    leaves an 8-aligned stack pointer.  The shielded flag is not initialised:
    it stays what the memory held before. *)
Theorem Yield_InitializeTask_appends execute_task s x l a t handler arg flags :
  ring s x l → tasks s !! a = Some t → 0 < a → a ∉ x :: l →
  (4 | t_stack t) → (4 | t_stack_size t) → sizeof_task_frame ≤ t_stack_size t →
  0 ≤ t_stack t → t_stack t + t_stack_size t < 4294967296 →
  ∃ s' sp, Yield_InitializeTask execute_task s a handler arg flags = Ok s' ∧
    ring s' x (l ++ [a]) ∧
    view s' a = Some (mk_task sp 0 0 TASK_PENDING flags handler arg 0 (t_shielded t) 0
                        (t_stack t) (t_stack_size t) (next_task_id s)) ∧
    (∀ b, b ≠ a → view s' b = view s b) ∧ next_task_id s' = s32 (next_task_id s + 1) ∧
    stack_words s' !! t_stack t = Some STACK_GUARD ∧
    stack_words s' !! sp = Some 0xFFFFFFFD ∧ stack_words s' !! (sp + 60) = Some execute_task ∧
    (8 | sp + sizeof_frame_basic) ∧ t_stack t < sp ∧
    sp + sizeof_frame_basic ≤ t_stack t + t_stack_size t.
Proof.
  intros Hr Ht Ha Hn Hs4 Hz4 Hge H0 Hend.
  destruct (InitializeTask_ring execute_task s x l a t handler arg flags Hr Ht Ha Hn Hs4 Hz4 Hge H0)
    as (s' & Hi & Hr' & Hv & Hvo & Hid & _ & Hw).
  destruct (initial_sp_ok (t_stack t) (t_stack_size t) H0 Hge Hend) as (Hal & Hlo & Hhi).
  set (sp := initial_sp _ _) in *. exists s', sp. rewrite Hw. unfold frame_words.
  do 5 (split; [done|]). split.
  { rewrite !lookup_insert_ne by lia. apply lookup_insert_eq. }
  split; [apply lookup_insert_eq|]. split.
  { rewrite !lookup_insert_ne by lia. apply lookup_insert_eq. }
  split; [done|]. lia.
Qed.

(** [Yield_GetTaskByID] walks the ring once and finds the first task with
    the id, so [Yield_Cancel] marks exactly that task and fails with [EFATAL]
    when there is none; a task sees the mark unless it is shielded. *)
Theorem Yield_Cancel_marks s x l id :
  ring s x l →
  match head (base.filter (λ a, t_id <$> tasks s !! a = Some id) (x :: l)) with
  | None => Yield_Cancel s id = Ok (s, EFATAL)
  | Some a => ∃ s', Yield_Cancel s id = Ok (s', EOK) ∧ ring s' x l ∧
      view s' a = set_cancelled 1 <$> view s a ∧ (∀ b, b ≠ a → view s' b = view s b) ∧
      (a = x → ∃ t, tasks s !! x = Some t ∧ Yield_IsCancelled s' = Ok (t_shielded t =? 0))
  end.
Proof.
  intros Hr. unfold Yield_Cancel. rewrite (GetTaskByID_ok s x l id Hr), bind_Ok.
  destruct (head _) as [a|] eqn:Hh; simpl default; [|done].
  assert (a ∈ x :: l) as Hin.
  { apply head_Some_elem_of, list_elem_of_filter in Hh. tauto. }
  destruct (ring_mem _ _ _ _ Hr Hin) as [Ha [t Ht]].
  destruct (Z.eqb_spec a 0); [lia|]. rewrite (upd_task_some _ _ _ _ Ha Ht), bind_Ok.
  eexists. split; [done|]. split; [by apply ring_upd|]. unfold view. simpl. split.
  - by rewrite lookup_insert_eq, Ht.
  - split; [intros b Hb; by rewrite lookup_insert_ne|]. intros ->. exists t. split; [done|].
    unfold Yield_IsCancelled. simpl. assert (curr_task s = x) as -> by apply Hr.
    erewrite task_at_some; [|done|apply lookup_insert_eq]. rewrite bind_Ok. simpl.
    by rewrite andb_true_r.
Qed.

(** The state after the slices [sls]. *)
Definition run_slices (s : sched) (sls : list slice) : sched :=
  foldl (λ s sl, sl_world sl s) s sls.

(** [Yield_Wait] gives up the processor until the task's handler has
    returned and only then reports [EOK]; with a timeout it reports [ETIMEOUT]
    in the first slice that starts later than that and in which the handler is
    still running.  Without a timeout it never reports [ETIMEOUT]; for an id
    that no task has it returns at once. *)
Theorem Yield_Wait_returns slices s x l id timeout s' rest ec a :
  ring s x l → head (base.filter (λ a, t_id <$> tasks s !! a = Some id) (x :: l)) = Some a →
  Yield_Wait slices s id timeout = Ok (s', rest, ec) →
  let ts := match slices with [] => 0 | sl :: _ => sl_now sl end in
  let finished s := match tasks s !! a with Some t => negb (t_handler_done t =? 0) | None => false end in
  ∃ before sl, slices = before ++ rest ∧ head rest = Some sl ∧ s' = run_slices s before ∧
    (∀ b1 b2, before = b1 ++ b2 → b2 ≠ [] → finished (run_slices s b1) = false) ∧
    ((ec = EOK ∧ finished s' = true) ∨
     (ec = ETIMEOUT ∧ finished s' = false ∧ timeout ≠ 0 ∧ timeout < dtime (sl_now sl) ts)).
Proof.
  intros Hr Hh Hw ts finished. pose proof Hh as Hin.
  apply head_Some_elem_of, list_elem_of_filter in Hin as [_ Hin].
  destruct (ring_mem _ _ _ _ Hr Hin) as [Ha _]. unfold Yield_Wait in Hw.
  destruct slices as [|sl0 slices]; [done|].
  rewrite (GetTaskByID_ok s x l id Hr), Hh, bind_Ok in Hw. simpl default in Hw.
  destruct (Z.eqb_spec a 0); [lia|].
  change (sl_now sl0) with ts in Hw. clearbody ts. clear Hr Hh Hin.
  revert s Hw. generalize (sl0 :: slices). clear sl0 slices.
  intros sls. induction sls as [|sl sls IH]; intros s Hw; [done|]. simpl in Hw.
  unfold task_at in Hw. destruct (Z.eqb_spec a 0); [lia|].
  destruct (tasks s !! a) as [t|] eqn:Ht; [|done]. rewrite bind_Ok in Hw.
  destruct (negb (t_handler_done t =? 0)) eqn:Hd.
  - injection Hw as <- <- <-. exists [], sl. do 3 (split; [done|]). split.
    + intros [|b b1] [|b' b2] E Hb2; done.
    + left. split; [done|]. unfold finished. by rewrite Ht.
  - destruct (negb (timeout =? 0) && (timeout <? dtime (sl_now sl) ts)) eqn:Hto.
    + injection Hw as <- <- <-. exists [], sl. do 3 (split; [done|]). split.
      * intros [|b b1] [|b' b2] E Hb2; done.
      * right. apply andb_true_iff in Hto as [Ht0 Hlt%Z.ltb_lt]. unfold finished. rewrite Ht.
        destruct (Z.eqb_spec timeout 0); done.
    + destruct (IH _ Hw) as (before & sl' & -> & Hhd & -> & Hb & Hres).
      exists (sl :: before), sl'. do 3 (split; [done|]). split; [|done].
      intros [|b b1] b2 E Hb2; simpl.
      * unfold finished. by rewrite Ht.
      * injection E as <- E. by apply (Hb b1 b2).
Qed.

(** A coroutine slot is chosen before the last [Yield] of [Yield_Run] and
    not looked at again: the start that follows takes the slot's control block
    as it is then, also when another task has meanwhile started a coroutine in
    it, and initialises it again while it is linked. *)
Theorem Yield_Run_slot slices s junk handler arg heap sizeof_task execute_task s1 i c :
  run_find slices s = Ok (s1, i) → coroutines s1 !! i = Some c → c ≠ 0 →
  (∃ before sl after, slices = before ++ sl :: after ∧
     find_slot (run_slices s before) (coroutines (run_slices s before)) 0 = Ok (Some i) ∧
     s1 = sl_world sl (run_slices s before)) ∧
  Yield_Run heap sizeof_task execute_task slices s junk handler arg =
    (s' ← Yield_InitializeTask execute_task s1 c handler arg TASK_FLAGS_COROUTINE;
     x ← task_at s' c;
     Ok (s', t_id x)).
Proof.
  intros Hf Hc Hc0. split.
  - revert s Hf. induction slices as [|sl slices IH]; intros s Hf; [done|]. simpl in Hf.
    destruct (find_slot s (coroutines s) 0) as [[j|]|] eqn:E; simpl in Hf; [|..|done].
    + injection Hf as <- <-. exists [], sl, slices. done.
    + destruct (IH _ Hf) as (b & sl' & after & -> & ? & ?). exists (sl :: b), sl', after. done.
  - unfold Yield_Run. rewrite Hf, bind_Ok. unfold run_start. rewrite Hc.
    destruct (Z.eqb_spec c 0); [done|]. rewrite bind_Ok. by destruct (Z.eqb_spec c 0).
Qed.

(** ** Witnesses and concrete runs *)

Definition demo_task (nx pv : Z) (st : task_state) (id flags : Z) : task :=
  mk_task 0 nx pv st flags 0 0 0 0 0 (4096 * id) 400 id.

(** Three tasks with the ids 1, 2, 3 at 100, 200, 300 and a fourth control block
    at 400; the first one runs. *)
Definition demo_sched : sched :=
  mk_sched {[100 := demo_task 200 300 TASK_ACTIVE 1 0; 200 := demo_task 300 100 TASK_PENDING 2 0;
             300 := demo_task 100 200 TASK_PENDING 3 0; 400 := demo_task 0 0 TASK_DONE 7 1]}
    100 0 3 8 [400; 0; 0; 0] {[4096 := STACK_GUARD]} st_fresh.

Lemma demo_ring : ring demo_sched 100 [200; 300].
Proof.
  split; [done|]. split; [by vm_compute|]. split.
  - apply (bool_decide_unpack _). by vm_compute.
  - repeat constructor.
Qed.

Lemma demo_running : running demo_sched 100 [200; 300].
Proof. split; [apply demo_ring|]. split; [done|]. by repeat constructor. Qed.

Lemma Yield_Schedule_next_witness :
  ∃ s', Yield_Schedule demo_sched = Ok s' ∧ ring s' 200 [300; 100].
Proof.
  pose proof (Yield_Schedule_next demo_sched 100 [200; 300] [] 200 [300; 100] demo_ring eq_refl)
    as H.
  destruct H as (s' & Hs & Hr & _).
  - repeat constructor; discriminate.
  - constructor.
  - discriminate.
  - exists s'. exact (conj Hs Hr).
Defined.

Lemma Yield_round_robin_witness :
  ∃ s' l', Nat.iter 5 (λ r, r ≫= Yield_Schedule) (Ok demo_sched) = Ok s' ∧ running s' 300 l'.
Proof.
  destruct (Yield_round_robin 5 demo_sched 100 [200; 300] demo_running)
    as (s' & y & l' & Hs & Hr & Hy & _).
  exists s', l'. split; [exact Hs|]. injection Hy as <-. exact Hr.
Defined.

Lemma Yield_InitializeTask_appends_witness :
  ∃ s', Yield_InitializeTask 64 demo_sched 400 8 9 1 = Ok s' ∧ ring s' 100 [200; 300; 400].
Proof.
  destruct (Yield_InitializeTask_appends 64 demo_sched 100 [200; 300] 400
    (demo_task 0 0 TASK_DONE 7 1) 8 9 1 demo_ring) as (s' & sp & Hi & Hr & _).
  - reflexivity.
  - lia.
  - apply (bool_decide_unpack _). vm_compute. exact I.
  - exists 7168. reflexivity.
  - exists 100. reflexivity.
  - vm_compute. discriminate.
  - vm_compute. discriminate.
  - vm_compute. reflexivity.
  - exists s'. exact (conj Hi Hr).
Defined.

Lemma Yield_Cancel_marks_witness :
  ∃ s', Yield_Cancel demo_sched 3 = Ok (s', EOK) ∧ ring s' 100 [200; 300].
Proof.
  pose proof (Yield_Cancel_marks demo_sched 100 [200; 300] 3 demo_ring) as H.
  destruct H as (s' & Hc & Hr & _). exists s'. exact (conj Hc Hr).
Defined.

(** The other tasks let task 3 finish during the second slice. *)
Definition finish_3 (s : sched) : sched :=
  match Yield_ExecuteTask_done s 300 with Ok s' => s' | Fault _ => s end.

Lemma Yield_Wait_returns_witness :
  ∃ s' rest before, Yield_Wait [mk_slice 0 (λ s, s); mk_slice 1 finish_3; mk_slice 2 (λ s, s)]
    demo_sched 3 0 = Ok (s', rest, EOK) ∧
    s' = run_slices demo_sched before ∧ before ++ rest =
      [mk_slice 0 (λ s, s); mk_slice 1 finish_3; mk_slice 2 (λ s, s)].
Proof.
  destruct (Yield_Wait_returns
    [mk_slice 0 (λ s, s); mk_slice 1 finish_3; mk_slice 2 (λ s, s)] demo_sched 100 [200; 300] 3 0
    (finish_3 demo_sched) [mk_slice 2 (λ s, s)] EOK 300 demo_ring eq_refl eq_refl)
    as (before & sl & Hs & _ & Hr & _).
  exists (finish_3 demo_sched), [mk_slice 2 (λ s, s)], before.
  split; [reflexivity|]. split; [exact Hr|symmetry; exact Hs].
Defined.

Lemma Yield_Run_slot_witness :
  Yield_Run ram_heap 52 64 [mk_slice 0 (λ s, s)] demo_sched (demo_task 0 0 TASK_DONE 0 0) 8 9 =
    (s' ← Yield_InitializeTask 64 demo_sched 400 8 9 TASK_FLAGS_COROUTINE;
     x ← task_at s' 400; Ok (s', t_id x)).
Proof.
  exact (proj2 (Yield_Run_slot [mk_slice 0 (λ s, s)] demo_sched (demo_task 0 0 TASK_DONE 0 0) 8 9
    ram_heap 52 64 demo_sched 0 400 eq_refl eq_refl ltac:(discriminate))).
Defined.

(** Two tasks start a coroutine at the same time: while the first one yields
    after it chose the slot, the second one starts a coroutine there (its own
    last [Yield] left out).  The first one then initialises the same, already
    linked block, whose [next] becomes a pointer to itself: once the scheduler
    gets there it never comes back to the tasks 1 to 3. *)
Definition other_run (s : sched) : sched :=
  match Yield_Run ram_heap 52 64 [mk_slice 0 (λ s, s)] s (demo_task 0 0 TASK_DONE 0 0) 5 6 with
  | Ok (s', _) => s'
  | Fault _ => s
  end.

Example Yield_Run_race :
  match Yield_Run ram_heap 52 64 [mk_slice 0 other_run] demo_sched (demo_task 0 0 TASK_DONE 0 0) 8 9 with
  | Ok (s, _) => (t_next <$> tasks s !! 300, t_next <$> tasks s !! 400, t_prev <$> tasks s !! 400,
                  t_handler <$> tasks s !! 400)
  | Fault _ => (None, None, None, None)
  end = (Some 400, Some 400, Some 400, Some 8).
Proof. vm_compute. reflexivity. Qed.

(** [Yield_Parallel] writes the terminating zero also through a null array. *)
Example Yield_Parallel_null heap sizeof_task execute_task s :
  Yield_Parallel heap sizeof_task execute_task [] s None = Fault NullDeref.
Proof. reflexivity. Qed.

(** When the first task of [Yield_WaitAll] finishes exactly at the end of the
    timeout, the time left is 0, which means no timeout: the second wait goes
    on although a million milliseconds have passed. *)
Example WaitAll_loses_timeout :
  Yield_WaitAll [3; 2] [mk_slice 0 (λ s, s); mk_slice 4 finish_3; mk_slice 5 (λ s, s);
    mk_slice 6 (λ s, s); mk_slice 1000000 (λ s, s)] demo_sched 5 = Fault OutOfFuel.
Proof. vm_compute. reflexivity. Qed.

(** Without memory for the stack an unassigned pointer is freed. *)
Example AllocateTask_uninit :
  ('(h, _) ← Heap_Malloc ram_heap st_fresh (SYS_HEAP_SIZE - 16);
   Yield_AllocateTask ram_heap 52 (with_heap h demo_sched) (demo_task 0 0 TASK_DONE 0 0) 256)
  = Fault Uninit.
Proof. vm_compute. reflexivity. Qed.
