(* ===== verification/Sem.v ===== *)
(** * Semaphores (sys/src/sem.c)

    A semaphore is a word of an enum with the values of [SEM_RELEASED] and
    [SEM_LOCKED]; the code stores task ids in it.  How wide that enum is depends
    on the ABI (one byte with short enums), so its number of bits is a
    parameter, and ids that do not fit are truncated.

    Tasks switch only when they yield.  What a task does to the semaphores
    between two yields is one [sem_step] of the system of all tasks. *)
From stdpp Require Import relations.
From S2P Require Import Prelude Time.

(** ** Operations *)

Abbreviation sems := (gmap Z Z).

Definition SEM_RELEASED : Z := 0.
Definition SEM_LOCKED : Z := 1.

Section operations.
Context (sem_bits : Z).

(** Read and write the semaphore at an address. *)
Definition sem_get (m : sems) (s : Z) : res Z :=
  match m !! s with Some v => Ok v | None => Fault OutOfBounds end.

Definition sem_set (m : sems) (s v : Z) : res sems :=
  match m !! s with Some _ => Ok (<[s := v mod 2 ^ sem_bits]> m) | None => Fault OutOfBounds end.

(** One slice of a blocking call: the time the caller sees, and what the others
    do to the semaphores when it yields. *)
Record sem_slice := mk_sem_slice { ss_now : Z; ss_world : sems → sems }.

(** One test of the loop of [Sem_Lock], and the assignment after it. *)
Definition lock_try (m : sems) (sem task_id : Z) : res (sems * bool) :=
  v ← sem_get m sem;
  if (v =? SEM_RELEASED) || (v =? task_id) then m ← sem_set m sem task_id; Ok (m, true)
  else Ok (m, false).

Fixpoint lock_loop (slices : list sem_slice) (m : sems) (sem timeout task_id ts : Z)
  : res (sems * Z) :=
  match slices with
  | [] => Fault OutOfFuel
  | sl :: slices' =>
      '(m, got) ← lock_try m sem task_id;
      if (got : bool) then Ok (m, EOK)
      else if negb (timeout =? 0) && (timeout <? dtime (ss_now sl) ts) then Ok (m, ETIMEOUT)
      else lock_loop slices' (ss_world sl m) sem timeout task_id ts
  end.

Definition Sem_Lock (slices : list sem_slice) (m : sems) (sem timeout task_id : Z)
  : res (sems * Z) :=
  match slices with
  | [] => Fault OutOfFuel
  | sl :: _ => lock_loop slices m sem timeout task_id (ss_now sl)
  end.

(** "lock as many as possible": how many were locked. *)
Fixpoint lock_prefix (m : sems) (l : list Z) (task_id : Z) (n : nat) : res (sems * nat) :=
  match l with
  | [] => Ok (m, n)
  | s :: l' =>
      v ← sem_get m s;
      if (v =? SEM_RELEASED) || (v =? task_id) then
        m ← sem_set m s task_id; lock_prefix m l' task_id (S n)
      else Ok (m, n)
  end.

(** "some were locked, release them", from the last one down. *)
Fixpoint release_prefix (m : sems) (l : list Z) : res sems :=
  match l with
  | [] => Ok m
  | s :: l' => m ← release_prefix m l'; sem_set m s SEM_RELEASED
  end.

(** One round of [Sem_LockMultiple]. *)
Definition lock_all_try (m : sems) (l : list Z) (task_id : Z) : res (sems * bool) :=
  '(m, n) ← lock_prefix m l task_id 0;
  if bool_decide (n = length l) then Ok (m, true)
  else m ← release_prefix m (take n l); Ok (m, false).

Fixpoint lock_all_loop (slices : list sem_slice) (m : sems) (l : list Z) (timeout task_id ts : Z)
  : res (sems * Z) :=
  match slices with
  | [] => Fault OutOfFuel
  | sl :: slices' =>
      if (timeout =? 0) || (dtime (ss_now sl) ts <? timeout) then
        '(m, got) ← lock_all_try m l task_id;
        if (got : bool) then Ok (m, EOK)
        else lock_all_loop slices' (ss_world sl m) l timeout task_id ts
      else Ok (m, ETIMEOUT)
  end.

Definition Sem_LockMultiple (slices : list sem_slice) (m : sems) (l : list Z)
    (timeout task_id : Z) : res (sems * Z) :=
  match slices with
  | [] => Fault OutOfFuel
  | sl :: _ => lock_all_loop slices m l timeout task_id (ss_now sl)
  end.

Definition Sem_Release (m : sems) (sem : Z) : res (sems * Z) :=
  m ← sem_set m sem SEM_RELEASED; Ok (m, EOK).

Fixpoint Sem_ReleaseMultiple (m : sems) (l : list Z) : res (sems * Z) :=
  match l with
  | [] => Ok (m, EOK)
  | s :: l' => m ← sem_set m s SEM_RELEASED; Sem_ReleaseMultiple m l'
  end.

(** ** The system of all tasks *)

(** Besides the semaphores a state has the pairs of a semaphore and a task that
    believes it holds it. *)
Definition system : Type := sems * gset (Z * Z).

Definition holding (id : Z) (l : list Z) : gset (Z * Z) := list_to_set ((λ s, (s, id)) <$> l).

(** A task id the enum can hold. *)
Definition fits (id : Z) : Prop := 0 < id < 2 ^ sem_bits.

(** Tasks release only what they hold, and ask for several semaphores only while
    they hold none of them. *)
Inductive sem_step : system → system → Prop :=
| step_lock m m' H s id got :
    fits id → lock_try m s id = Ok (m', got) →
    sem_step (m, H) (m', if got : bool then H ∪ {[(s, id)]} else H)
| step_lock_all m m' H l id got :
    fits id → (∀ s, s ∈ l → (s, id) ∉ H) → lock_all_try m l id = Ok (m', got) →
    sem_step (m, H) (m', if got : bool then H ∪ holding id l else H)
| step_release m m' H s id :
    (s, id) ∈ H → Sem_Release m s = Ok (m', EOK) → sem_step (m, H) (m', H ∖ {[(s, id)]})
| step_release_all m m' H l id :
    (∀ s, s ∈ l → (s, id) ∈ H) → Sem_ReleaseMultiple m l = Ok (m', EOK) →
    sem_step (m, H) (m', H ∖ holding id l).

(** The semaphores say who holds them. *)
Definition accurate (st : system) : Prop :=
  let '(m, H) := st in
  (∀ s id, (s, id) ∈ H → m !! s = Some id) ∧
  (∀ s v, m !! s = Some v → v = SEM_RELEASED ∨ (s, v) ∈ H) ∧
  (∀ s id, (s, id) ∈ H → fits id).

Lemma fits_mod id : fits id → id mod 2 ^ sem_bits = id.
Proof. intros Hf. apply Z.mod_small. unfold fits in Hf. lia. Qed.

Lemma zero_mod : 0 mod 2 ^ sem_bits = 0.
Proof. apply Zmod_0_l. Qed.

Lemma sem_set_some m s v x : m !! s = Some x → sem_set m s v = Ok (<[s := v mod 2 ^ sem_bits]> m).
Proof. intros H. unfold sem_set. by rewrite H. Qed.

Lemma lock_try_ok m s id v :
  m !! s = Some v → fits id →
  lock_try m s id =
    if (v =? SEM_RELEASED) || (v =? id) then Ok (<[s := id]> m, true) else Ok (m, false).
Proof.
  intros Hv Hf. unfold lock_try, sem_get. rewrite Hv, bind_Ok.
  destruct ((v =? SEM_RELEASED) || (v =? id)); [|done].
  by rewrite (sem_set_some m s id v), fits_mod by done.
Qed.

(** The first [n] semaphores of the list now carry the id, the one after them
    belongs to another task. *)
Lemma lock_prefix_ok id l : ∀ m n m' k,
  fits id → lock_prefix m l id n = Ok (m', k) →
  ∃ j, k = (n + j)%nat ∧ (j ≤ length l)%nat ∧
    (∀ s, s ∈ take j l → m' !! s = Some id ∧ (m !! s = Some 0 ∨ m !! s = Some id)) ∧
    (∀ s, s ∉ take j l → m' !! s = m !! s) ∧
    ((j < length l)%nat → ∃ s v, l !! j = Some s ∧ m' !! s = Some v ∧ v ≠ 0 ∧ v ≠ id).
Proof.
  induction l as [|s l IH]; intros m n m' k Hf Hp; simpl in Hp.
  - injection Hp as <- <-. exists O. split; [lia|]. split; [simpl; lia|]. split.
    + intros s Hs. by apply elem_of_nil in Hs.
    + split; [done|simpl; lia].
  - unfold sem_get in Hp. destruct (m !! s) as [v|] eqn:Hv; [|done]. rewrite bind_Ok in Hp.
    destruct ((v =? SEM_RELEASED) || (v =? id)) eqn:Hfree.
    + rewrite (sem_set_some m s id v Hv), bind_Ok, fits_mod in Hp by done.
      destruct (IH _ _ _ _ Hf Hp) as (j & -> & Hj & Hin & Hout & Hend). exists (S j).
      split; [lia|]. split; [simpl; lia|].
      assert (m !! s = Some 0 ∨ m !! s = Some id) as Hs0.
      { apply orb_true_iff in Hfree as [?%Z.eqb_eq|?%Z.eqb_eq]; subst; [by left|by right]. }
      split; [|split].
      * simpl. intros x [->|Hx]%elem_of_cons.
        -- split; [|done]. destruct (decide (s ∈ take j l)) as [Hs|Hs]; [by apply Hin|].
           rewrite Hout by done. apply lookup_insert_eq.
        -- destruct (Hin x Hx) as [H1 H2]. split; [done|].
           destruct (decide (x = s)) as [->|Hne]; [done|]. by rewrite lookup_insert_ne in H2.
      * simpl. intros x [Hxs Hx]%not_elem_of_cons. rewrite Hout by done.
        by rewrite lookup_insert_ne.
      * simpl. intros Hlt. apply Hend. lia.
    + injection Hp as <- <-. exists O. split; [lia|]. split; [simpl; lia|]. split.
      * intros x Hx. by apply elem_of_nil in Hx.
      * split; [done|]. intros _. exists s, v. apply orb_false_iff in Hfree as [?%Z.eqb_neq ?%Z.eqb_neq].
        done.
Qed.

Lemma release_prefix_ok l : ∀ m m',
  release_prefix m l = Ok m' →
  (∀ s, s ∈ l → m' !! s = Some 0) ∧ (∀ s, s ∉ l → m' !! s = m !! s).
Proof.
  induction l as [|s l IH]; intros m m' Hr; simpl in Hr.
  - injection Hr as <-. split; [|done]. intros s Hs. by apply elem_of_nil in Hs.
  - destruct (release_prefix m l) as [m1|] eqn:E; [|done]. rewrite bind_Ok in Hr.
    destruct (IH _ _ E) as [Hin Hout]. unfold sem_set in Hr. destruct (m1 !! s); [|done].
    injection Hr as <-. change SEM_RELEASED with 0. rewrite zero_mod. split.
    + intros x Hx. destruct (decide (x = s)) as [->|Hne]; [apply lookup_insert_eq|].
      rewrite lookup_insert_ne by done. apply Hin. by apply elem_of_cons in Hx as [?|?].
    + intros x [Hxs Hx]%not_elem_of_cons. rewrite lookup_insert_ne by done. by apply Hout.
Qed.

(** All or nothing. *)
Lemma lock_all_try_ok m l id m' got :
  fits id → lock_all_try m l id = Ok (m', got) →
  (∀ s, s ∉ l → m' !! s = m !! s) ∧
  if got
  then ∀ s, s ∈ l → m' !! s = Some id ∧ (m !! s = Some 0 ∨ m !! s = Some id)
  else (∃ s v, s ∈ l ∧ m' !! s = Some v ∧ v ≠ 0 ∧ v ≠ id) ∧
       ∀ s, s ∈ l → m' !! s = m !! s ∨ m !! s = Some id ∧ m' !! s = Some 0.
Proof.
  intros Hf. unfold lock_all_try. destruct (lock_prefix m l id 0) as [[m1 k]|] eqn:E; [|done].
  rewrite bind_Ok. destruct (lock_prefix_ok id l m 0 m1 k Hf E) as (j & -> & Hj & Hin & Hout & Hend).
  simpl. case_bool_decide as Hall.
  - intros [= <- <-]. subst j. rewrite take_ge in Hin, Hout by done. done.
  - destruct (release_prefix m1 (take j l)) as [m2|] eqn:E2; [|done]. rewrite bind_Ok.
    intros [= <- <-]. destruct (release_prefix_ok _ _ _ E2) as [Rin Rout].
    assert (Hsub : ∀ s, s ∈ take j l → s ∈ l).
    { intros s Hs. rewrite <- (take_drop j l). apply elem_of_app. by left. }
    split; [|split].
    + intros s Hs. rewrite Rout, Hout; auto.
    + destruct (Hend ltac:(lia)) as (s & v & Hs & Hv & H0 & Hid). exists s, v.
      split; [by eapply list_elem_of_lookup_2|]. split; [|done]. rewrite Rout; [done|].
      intros Hin'. destruct (Hin s Hin') as [Hm _]. congruence.
    + intros s Hs. destruct (decide (s ∈ take j l)) as [Ht|Ht].
      * destruct (Hin s Ht) as [_ [Hm|Hm]]; rewrite (Rin s Ht); [left; congruence|by right].
      * left. by rewrite Rout, Hout.
Qed.

Lemma release_all_ok l : ∀ m m',
  Sem_ReleaseMultiple m l = Ok (m', EOK) →
  (∀ s, s ∈ l → m' !! s = Some 0) ∧ (∀ s, s ∉ l → m' !! s = m !! s).
Proof.
  induction l as [|s l IH]; intros m m' Hr; simpl in Hr.
  - injection Hr as <-. split; [|done]. intros s Hs. by apply elem_of_nil in Hs.
  - unfold sem_set in Hr. destruct (m !! s); [|done]. rewrite bind_Ok in Hr.
    destruct (IH _ _ Hr) as [Hin Hout]. change SEM_RELEASED with 0 in Hout. rewrite zero_mod in Hout.
    split.
    + intros x [->|Hx]%elem_of_cons; [|by apply Hin].
      destruct (decide (s ∈ l)); [by apply Hin|]. rewrite Hout by done. apply lookup_insert_eq.
    + intros x [Hxs Hx]%not_elem_of_cons. rewrite Hout by done. by rewrite lookup_insert_ne.
Qed.

Lemma elem_of_holding s id id' l : (s, id) ∈ holding id' l ↔ id = id' ∧ s ∈ l.
Proof.
  unfold holding. rewrite elem_of_list_to_set, list_elem_of_fmap. split.
  - intros (x & [= -> ->] & Hx). done.
  - intros [-> Hs]. by exists s.
Qed.
End operations.

(** ** Properties *)

Lemma sem_step_accurate bits st st' : accurate bits st → sem_step bits st st' → accurate bits st'.
Proof.
  intros Hacc Hst. destruct Hst as [m m' H s id got Hf Ht|m m' H l id got Hf Hno Ht|
                                    m m' H s id Hin Hr|m m' H l id Hin Hr].
  - destruct Hacc as (Ha & Hb & Hc).
    destruct (m !! s) as [v|] eqn:Hv; [|unfold lock_try, sem_get in Ht; by rewrite Hv in Ht].
    rewrite (lock_try_ok bits m s id v Hv Hf) in Ht.
    destruct ((v =? SEM_RELEASED) || (v =? id)) eqn:E; injection Ht as <- <-; [|by split].
    assert (v = 0 ∨ v = id) as Hv0.
    { apply orb_true_iff in E as [?%Z.eqb_eq|?%Z.eqb_eq]; subst; [by left|by right]. }
    split; [|split].
    + intros s' id' Hs'. apply elem_of_union in Hs' as [Hs'|Hs'].
      * pose proof (Ha _ _ Hs') as Hm. destruct (decide (s' = s)) as [->|Hne].
        -- assert (v = id') as -> by congruence. pose proof (Hc _ _ Hs') as Hf'. unfold fits in Hf'.
           destruct Hv0 as [-> | ->]; [lia|]. apply lookup_insert_eq.
        -- by rewrite lookup_insert_ne.
      * apply elem_of_singleton in Hs' as [= -> ->]. apply lookup_insert_eq.
    + intros s' v' Hs'. destruct (decide (s' = s)) as [->|Hne].
      * rewrite lookup_insert_eq in Hs'. injection Hs' as <-. right.
        by apply elem_of_union_r, elem_of_singleton.
      * rewrite lookup_insert_ne in Hs' by done. destruct (Hb _ _ Hs'); [by left|right; by apply elem_of_union_l].
    + intros s' id' Hs'. apply elem_of_union in Hs' as [Hs'|Hs']; [by eapply Hc|].
      by apply elem_of_singleton in Hs' as [= -> ->].
  - destruct Hacc as (Ha & Hb & Hc). destruct (lock_all_try_ok bits m l id m' got Hf Ht) as [Hout Hin].
    assert (Hmine : ∀ s, s ∈ l → m !! s ≠ Some id).
    { intros s Hs Hm. destruct (Hb _ _ Hm) as [->|HH]; [unfold fits in Hf; change SEM_RELEASED with 0 in Hf; lia|].
      by apply (Hno s). }
    destruct got.
    + split; [|split].
      * intros s id' Hs. apply elem_of_union in Hs as [Hs|[-> Hs]%elem_of_holding].
        -- pose proof (Ha _ _ Hs) as Hm. destruct (decide (s ∈ l)) as [Hsl|Hsl]; [|by rewrite Hout].
           destruct (Hin s Hsl) as [_ [Hm0|Hm0]]; [|by destruct (Hmine s)].
           pose proof (Hc _ _ Hs) as Hf'. unfold fits in Hf'. rewrite Hm in Hm0. injection Hm0. lia.
        -- by apply Hin.
      * intros s v Hs. destruct (decide (s ∈ l)) as [Hsl|Hsl].
        -- destruct (Hin s Hsl) as [Hm _]. rewrite Hm in Hs. injection Hs as <-. right.
           apply elem_of_union. right. by apply elem_of_holding.
        -- rewrite Hout in Hs by done. destruct (Hb _ _ Hs); [by left|right; by apply elem_of_union_l].
      * intros s id' Hs. apply elem_of_union in Hs as [Hs|[-> Hs]%elem_of_holding]; [by eapply Hc|done].
    + destruct Hin as [_ Hin].
      assert (∀ s, m' !! s = m !! s) as Heq.
      { intros s. destruct (decide (s ∈ l)) as [Hsl|Hsl]; [|by apply Hout].
        destruct (Hin s Hsl) as [?|[Hm _]]; [done|]. by destruct (Hmine s). }
      split; [|split; [|done]]; intros s v; rewrite Heq; [by apply Ha|by apply Hb].
  - destruct Hacc as (Ha & Hb & Hc). unfold Sem_Release, sem_set in Hr.
    destruct (m !! s) eqn:Hv; [|done]. injection Hr as <-. change SEM_RELEASED with 0. rewrite zero_mod.
    split; [|split].
    + intros s' id' [Hs' Hne]%elem_of_difference. rewrite elem_of_singleton in Hne.
      destruct (decide (s' = s)) as [->|Hns]; [|rewrite lookup_insert_ne by done; by apply Ha].
      destruct Hne. pose proof (Ha _ _ Hs'). pose proof (Ha _ _ Hin). congruence.
    + intros s' v' Hs'. destruct (decide (s' = s)) as [->|Hns].
      * rewrite lookup_insert_eq in Hs'. injection Hs' as <-. by left.
      * rewrite lookup_insert_ne in Hs' by done. destruct (Hb _ _ Hs'); [by left|right; set_solver].
    + intros s' id' [Hs' _]%elem_of_difference. by eapply Hc.
  - destruct Hacc as (Ha & Hb & Hc). destruct (release_all_ok bits l m m' Hr) as [Rin Rout].
    split; [|split].
    + intros s' id' [Hs' Hne]%elem_of_difference. rewrite elem_of_holding in Hne.
      destruct (decide (s' ∈ l)) as [Hsl|Hsl]; [|rewrite Rout by done; by apply Ha].
      destruct Hne. split; [|done]. pose proof (Ha _ _ Hs'). pose proof (Ha _ _ (Hin _ Hsl)). congruence.
    + intros s' v' Hs'. destruct (decide (s' ∈ l)) as [Hsl|Hsl].
      * rewrite Rin in Hs' by done. injection Hs' as <-. by left.
      * rewrite Rout in Hs' by done. destruct (Hb _ _ Hs'); [by left|right].
        apply elem_of_difference. rewrite elem_of_holding. tauto.
    + intros s' id' [Hs' _]%elem_of_difference. by eapply Hc.
Qed.

(** C5: Mutual exclusion.  However the tasks interleave their calls of
    [Sem_Lock], [Sem_LockMultiple], [Sem_Release] and [Sem_ReleaseMultiple], no
    two tasks ever hold the same semaphore, the semaphore carries the id of its
    holder, and it reads released exactly when nobody holds it - as long as the
    ids fit the enum that stores them, tasks release only what they hold, and a
    task calls [Sem_LockMultiple] only while it holds none of the semaphores of
    its list (what happens else is shown by the examples below). *)
Theorem sem_mutual_exclusion bits m0 m H :
  (∀ s v, m0 !! s = Some v → v = SEM_RELEASED) →
  rtc (sem_step bits) (m0, ∅) (m, H) →
  (∀ s id1 id2, (s, id1) ∈ H → (s, id2) ∈ H → id1 = id2) ∧
  (∀ s id, (s, id) ∈ H → m !! s = Some id) ∧
  (∀ s v, m !! s = Some v → v = SEM_RELEASED ↔ ∀ id, (s, id) ∉ H).
Proof.
  intros H0 Hrtc. assert (accurate bits (m, H)) as (Ha & Hb & Hc).
  { assert (accurate bits (m0, ∅)) as Hacc.
    { split; [set_solver|]. split; [|set_solver]. intros s v Hv. left. by eapply H0. }
    revert Hacc. induction Hrtc as [|x y z Hst _ IH]; [done|]. intros Hacc.
    by eapply IH, sem_step_accurate. }
  split; [|split; [done|]].
  - intros s id1 id2 H1%Ha H2%Ha. congruence.
  - intros s v Hv. split.
    + intros -> id Hin. pose proof (Ha _ _ Hin) as Hm. pose proof (Hc _ _ Hin) as Hf.
      rewrite Hv in Hm. injection Hm as Hm. unfold fits in Hf. change SEM_RELEASED with 0 in Hm. lia.
    + intros Hno. destruct (Hb _ _ Hv) as [?|Hin]; [done|]. by destruct (Hno v).
Qed.

(** The semaphores after the slices [sls] in which a lock did not succeed. *)
Definition worlds (m : sems) (sls : list sem_slice) : sems :=
  foldl (λ m sl, ss_world sl m) m sls.

(** [Sem_Lock] takes the semaphore in the first of its slices in which it
    finds it free or its own, and then the caller holds it; it changes nothing
    in the slices before.  [ETIMEOUT] comes back only with a timeout, in a slice
    later than that in which somebody else held the semaphore. *)
Theorem Sem_Lock_returns bits slices m sem timeout id m' ec :
  fits bits id → Sem_Lock bits slices m sem timeout id = Ok (m', ec) →
  let ts := match slices with [] => 0 | sl :: _ => ss_now sl end in
  let free m := m !! sem = Some 0 ∨ m !! sem = Some id in
  ∃ before sl after, slices = before ++ sl :: after ∧
    (∀ b1 b2, before = b1 ++ b2 → b2 ≠ [] → ¬ free (worlds m b1)) ∧
    ((ec = EOK ∧ free (worlds m before) ∧ m' = <[sem := id]> (worlds m before)) ∨
     (ec = ETIMEOUT ∧ ¬ free (worlds m before) ∧ m' = worlds m before ∧ timeout ≠ 0 ∧
      timeout < dtime (ss_now sl) ts)).
Proof.
  intros Hf Hl ts free. unfold Sem_Lock in Hl. destruct slices as [|sl0 slices]; [done|].
  change (ss_now sl0) with ts in Hl. clearbody ts. revert m Hl.
  generalize (sl0 :: slices). clear sl0 slices.
  intros sls. induction sls as [|sl sls IH]; intros m Hl; [done|]. simpl in Hl.
  destruct (m !! sem) as [v|] eqn:Hv; [|unfold lock_try, sem_get in Hl; by rewrite Hv in Hl].
  rewrite (lock_try_ok bits m sem id v Hv Hf) in Hl.
  destruct ((v =? SEM_RELEASED) || (v =? id)) eqn:E.
  - injection Hl as <- <-. exists [], sl, sls. split; [done|]. split.
    { intros [|b b1] [|b' b2] Eq Hb2; done. }
    left. split; [done|]. split; [|done]. unfold free. simpl. rewrite Hv.
    apply orb_true_iff in E as [?%Z.eqb_eq|?%Z.eqb_eq]; subst; [by left|by right].
  - assert (¬ free m) as Hnf.
    { unfold free. rewrite Hv. apply orb_false_iff in E as [?%Z.eqb_neq ?%Z.eqb_neq].
      change SEM_RELEASED with 0 in *. intros [?|?]; congruence. }
    rewrite bind_Ok in Hl.
    destruct (negb (timeout =? 0) && (timeout <? dtime (ss_now sl) ts)) eqn:Hto.
    + injection Hl as <- <-. exists [], sl, sls. split; [done|]. split.
      { intros [|b b1] [|b' b2] Eq Hb2; done. }
      right. apply andb_true_iff in Hto as [Ht0 Hlt%Z.ltb_lt].
      destruct (Z.eqb_spec timeout 0); [done|]. done.
    + destruct (IH _ Hl) as (before & sl' & after & -> & Hb & Hres).
      exists (sl :: before), sl', after. split; [done|]. split; [|done].
      intros [|b b1] b2 Eq Hb2; [done|]. injection Eq as <- Eq. by apply (Hb b1 b2).
Qed.

(** A round of [Sem_LockMultiple] takes all semaphores of the list or none:
    when one of them belongs to another task everything is as it was before the
    round, except that semaphores the caller already held are released. *)
Theorem Sem_LockMultiple_round bits m l id m' got :
  fits bits id → lock_all_try bits m l id = Ok (m', got) →
  (∀ s, s ∉ l → m' !! s = m !! s) ∧
  (got = true → ∀ s, s ∈ l → m' !! s = Some id ∧ (m !! s = Some 0 ∨ m !! s = Some id)) ∧
  (got = false →
     (∃ s v, s ∈ l ∧ m' !! s = Some v ∧ v ≠ 0 ∧ v ≠ id) ∧
     (∀ s, s ∈ l → m' !! s = m !! s ∨ m !! s = Some id ∧ m' !! s = Some 0) ∧
     ((∀ s, s ∈ l → m !! s ≠ Some id) → m' = m)).
Proof.
  intros Hf Ht. destruct (lock_all_try_ok bits m l id m' got Hf Ht) as [Hout Hin].
  split; [done|]. destruct got; split; try done. intros _. destruct Hin as [Hex Hin].
  split; [done|]. split; [done|]. intros Hno. apply map_eq. intros s.
  destruct (decide (s ∈ l)) as [Hs|Hs]; [|by apply Hout].
  destruct (Hin s Hs) as [?|[Hm _]]; [done|]. by destruct (Hno s).
Qed.

(** ** Witnesses and concrete runs *)

Definition demo_sems : sems := {[10 := 0; 11 := 0]}.

Lemma sem_mutual_exclusion_witness :
  (∀ s v, demo_sems !! s = Some v → v = SEM_RELEASED) ∧
  ∃ m, rtc (sem_step 8) (demo_sems, ∅) (m, ∅ ∪ {[(10, 5)]}) ∧ m !! 10 = Some 5.
Proof.
  assert (∀ s v, demo_sems !! s = Some v → v = SEM_RELEASED) as H0.
  { intros s v. unfold demo_sems. rewrite lookup_insert_Some.
    intros [[_ <-]|[_ Hs]]; [done|]. by apply lookup_singleton_Some in Hs as [_ <-]. }
  split; [exact H0|]. exists (<[10 := 5]> demo_sems).
  assert (rtc (sem_step 8) (demo_sems, ∅) (<[10 := 5]> demo_sems, ∅ ∪ {[(10, 5)]})) as Hr.
  { apply rtc_once. apply (step_lock 8 demo_sems _ ∅ 10 5 true); [by vm_compute|reflexivity]. }
  split; [exact Hr|]. apply (proj1 (proj2 (sem_mutual_exclusion 8 _ _ _ H0 Hr)) 10 5).
  apply elem_of_union_r, elem_of_singleton. reflexivity.
Defined.

Lemma Sem_Lock_returns_witness :
  let sls := [mk_sem_slice 0 (λ m, m); mk_sem_slice 3 (λ m, <[10 := 0]> m); mk_sem_slice 4 (λ m, m)] in
  ∃ before sl after, sls = before ++ sl :: after ∧ worlds (<[10 := 7]> demo_sems) before !! 10 ≠ None.
Proof.
  destruct (Sem_Lock_returns 8
    [mk_sem_slice 0 (λ m, m); mk_sem_slice 3 (λ m, <[10 := 0]> m); mk_sem_slice 4 (λ m, m)]
    (<[10 := 7]> demo_sems) 10 0 5 (<[10 := 5]> (<[10 := 0]> (<[10 := 7]> demo_sems))) EOK
    ltac:(by vm_compute) ltac:(reflexivity))
    as (b & sl & a & Hs & _ & [(_ & Hf & _)|(Hf & _)]).
  - exists b, sl, a. split; [exact Hs|]. intros E. destruct Hf as [Hf|Hf]; rewrite E in Hf; discriminate Hf.
  - discriminate Hf.
Defined.

Lemma Sem_LockMultiple_round_witness :
  lock_all_try 8 (<[11 := 7]> demo_sems) [10; 11] 5 = Ok (<[11 := 7]> demo_sems, false) ∧
  ∃ s v, s ∈ [10; 11] ∧ <[11 := 7]> demo_sems !! s = Some v ∧ v ≠ 0 ∧ v ≠ 5.
Proof.
  assert (lock_all_try 8 (<[11 := 7]> demo_sems) [10; 11] 5 = Ok (<[11 := 7]> demo_sems, false)) as H
    by (vm_compute; reflexivity).
  split; [exact H|].
  exact (proj1 (proj2 (proj2 (Sem_LockMultiple_round 8 _ _ 5 _ _ ltac:(by vm_compute) H)) eq_refl)).
Defined.

(** With a one-byte enum the ids 1 and 257 are the same, and a task with the id
    256 leaves a semaphore it locked released. *)
Example sem_id_truncated :
  ('(m, a) ← lock_try 8 demo_sems 10 256;
   '(m, b) ← lock_try 8 m 10 1;
   Ok (a, b)) = Ok (true, true).
Proof. vm_compute. reflexivity. Qed.

(** A round that fails gives away the semaphore the task held before. *)
Example lock_multiple_releases_own :
  ('(m, _) ← lock_try 8 (<[11 := 7]> demo_sems) 10 5;
   '(m, got) ← lock_all_try 8 m [10; 11] 5;
   Ok (m !! 10, got)) = Ok (Some 0, false).
Proof. vm_compute. reflexivity. Qed.
