(* ===== verification/Ev.v ===== *)
(** * Events (sys/src/ev.c)

    Callback functions are not under the control of the event: what calling one
    does to the event is the parameter [call].  A function pointer is a number,
    0 for none; a listener slot is free when its task id is 0. *)
From S2P Require Import Prelude Time.

Record ev_listener := mk_listener {
  l_task_id : Z;
  l_ev_id : Z
}.

Definition SYS_EV_MAX_CBS : nat := 8.
Definition EV_LISTENERS : nat := 4.

Record ev := mk_ev {
  e_arg : Z;
  e_id : Z;
  e_cb : list Z;
  e_listeners : list ev_listener
}.

Definition set_cb (cb : list Z) (e : ev) := mk_ev (e_arg e) (e_id e) cb (e_listeners e).
Definition set_listeners (l : list ev_listener) (e : ev) := mk_ev (e_arg e) (e_id e) (e_cb e) l.

(** ** Operations *)

(** Put [v] into the first slot that holds [x]. *)
Fixpoint replace_first (x v : Z) (l : list Z) : option (list Z) :=
  match l with
  | [] => None
  | c :: l' => if c =? x then Some (v :: l') else (c ::.) <$> replace_first x v l'
  end.

Definition Ev_Subscribe (e : ev) (callback : Z) : ev * Z :=
  match replace_first 0 callback (e_cb e) with
  | Some cb => (set_cb cb e, EOK)
  | None => (e, EFATAL)
  end.

Definition Ev_Unsubscribe (e : ev) (callback : Z) : ev * Z :=
  match replace_first callback 0 (e_cb e) with
  | Some cb => (set_cb cb e, EOK)
  | None => (e, EFATAL)
  end.

(** One slice of a waiting task: the time it sees and what the others do to the
    event when it yields. *)
Record ev_slice := mk_ev_slice { es_now : Z; es_world : ev → ev }.

Section notify.
(** [call f arg]: what calling the function at [f] with [arg] does to the event. *)
Context (call : Z → Z → ev → ev).

(** The loop over the callback slots, which are read as they are when their turn
    comes; the calls made, in order. *)
Fixpoint call_slots (n : nat) (i : nat) (arg : Z) (e : ev) : ev * list (Z * Z) :=
  match n with
  | O => (e, [])
  | S n' =>
      match e_cb e !! i with
      | Some cb =>
          if cb =? 0 then call_slots n' (S i) arg e
          else
            let '(e', log) := call_slots n' (S i) arg (call cb arg e) in
            (e', (cb, arg) :: log)
      | None => (e, [])
      end
  end.

(** "all listeners are done?" *)
Definition all_acked (e : ev) : bool :=
  forallb (λ l, negb (negb (l_task_id l =? 0) && negb (l_ev_id l =? e_id e))) (e_listeners e).

Fixpoint ack_loop (slices : list ev_slice) (e : ev) : res (ev * list ev_slice) :=
  match slices with
  | [] => Fault OutOfFuel
  | sl :: slices' => if all_acked e then Ok (e, slices) else ack_loop slices' (es_world sl e)
  end.

Definition Ev_Notify (slices : list ev_slice) (e : ev) (arg : Z)
  : res (ev * list (Z * Z) * list ev_slice) :=
  let e := mk_ev arg (u32 (e_id e + 1)) (e_cb e) (e_listeners e) in
  let '(e, log) := call_slots SYS_EV_MAX_CBS 0 arg e in
  '(e, slices) ← ack_loop slices e;
  Ok (e, log, slices).
End notify.

(** Wait while the event id is [id]; the code, and the event then. *)
Fixpoint wait_id (slices : list ev_slice) (e : ev) (id timeout ts : Z) : res (ev * Z) :=
  match slices with
  | [] => Fault OutOfFuel
  | sl :: slices' =>
      if negb (id =? e_id e) then Ok (e, EOK)
      else if negb (timeout =? 0) && (timeout <? dtime (es_now sl) ts) then Ok (e, ETIMEOUT)
      else wait_id slices' (es_world sl e) id timeout ts
  end.

Definition Ev_Wait (slices : list ev_slice) (e : ev) (timeout : Z) : res (ev * Z) :=
  match slices with
  | [] => Fault OutOfFuel
  | sl :: _ => wait_id slices e (e_id e) timeout (es_now sl)
  end.

Fixpoint free_listener (l : list ev_listener) (i : nat) : option nat :=
  match l with
  | [] => None
  | x :: l' => if l_task_id x =? 0 then Some i else free_listener l' (S i)
  end.

(** [Ev_Listen]: the index of the listener, or null. *)
Definition Ev_Listen (e : ev) (task_id : Z) : ev * option nat :=
  match free_listener (e_listeners e) 0 with
  | None => (e, None)
  | Some i => (set_listeners (<[i := mk_listener (u32 task_id) (e_id e)]> (e_listeners e)) e, Some i)
  end.

(** [Ev_Capture]: the listener's event id is read again in every round. *)
Fixpoint capture_loop (slices : list ev_slice) (e : ev) (i : nat) (timeout ts : Z)
  : res (ev * option Z * Z) :=
  match slices with
  | [] => Fault OutOfFuel
  | sl :: slices' =>
      match e_listeners e !! i with
      | None => Fault OutOfBounds
      | Some l =>
          if negb (e_id e =? l_ev_id l) then Ok (e, Some (e_arg e), EOK)
          else if negb (timeout =? 0) && (timeout <? dtime (es_now sl) ts)
          then Ok (e, None, ETIMEOUT)
          else capture_loop slices' (es_world sl e) i timeout ts
      end
  end.

Definition Ev_Capture (slices : list ev_slice) (e : ev) (i : nat) (timeout : Z)
  : res (ev * option Z * Z) :=
  match slices with
  | [] => Fault OutOfFuel
  | sl :: _ => capture_loop slices e i timeout (es_now sl)
  end.

Definition Ev_Ack (e : ev) (i : nat) : res ev :=
  match e_listeners e !! i with
  | None => Fault OutOfBounds
  | Some l => Ok (set_listeners (<[i := mk_listener (l_task_id l) (e_id e)]> (e_listeners e)) e)
  end.

Definition Ev_ListenEnd (e : ev) (i : nat) : res ev :=
  match e_listeners e !! i with
  | None => Fault OutOfBounds
  | Some l => Ok (set_listeners (<[i := mk_listener 0 (l_ev_id l)]> (e_listeners e)) e)
  end.

(** ** Well-formed events *)

Definition wf_ev (e : ev) : Prop :=
  length (e_cb e) = SYS_EV_MAX_CBS ∧ length (e_listeners e) = EV_LISTENERS ∧ is_u32 (e_id e).

(** The callbacks an event has. *)
Definition subscribed (e : ev) : list Z := base.filter (λ c, c ≠ 0) (e_cb e).

Lemma replace_first_Some x v l l' :
  replace_first x v l = Some l' ↔ ∃ l1 l2, l = l1 ++ x :: l2 ∧ (x ∉ l1) ∧ l' = l1 ++ v :: l2.
Proof.
  revert l'. induction l as [|c l IH]; intros l'; simpl.
  { split; [done|]. intros (l1 & l2 & E & _). by destruct l1. }
  destruct (Z.eqb_spec c x) as [->|Hne].
  - split.
    + intros [= <-]. exists [], l. split; [done|]. split; [apply not_elem_of_nil|done].
    + intros (l1 & l2 & E & Hn & ->). destruct l1 as [|d l1]; [by injection E as ->|].
      injection E as -> E. destruct Hn. left.
  - rewrite fmap_Some. setoid_rewrite IH. split.
    + intros (y & (l1 & l2 & -> & Hn & ->) & ->). exists (c :: l1), l2.
      split; [done|]. split; [|done]. by apply not_elem_of_cons.
    + intros (l1 & l2 & E & Hn & ->). destruct l1 as [|d l1]; [by injection E as ->|].
      injection E as -> E. apply not_elem_of_cons in Hn as [_ Hn]. exists (l1 ++ v :: l2). split; [|done].
      exists l1, l2. by subst.
Qed.

Lemma replace_first_None x v l : replace_first x v l = None ↔ x ∉ l.
Proof.
  induction l as [|c l IH]; simpl; [split; [intros _; apply not_elem_of_nil|done]|].
  rewrite not_elem_of_cons. destruct (Z.eqb_spec c x) as [->|Hne].
  - split; [done|tauto].
  - rewrite fmap_None, IH. split; [|tauto]. intros H. split; [congruence|done].
Qed.

Lemma call_slots_log call arg : ∀ n i e,
  (∀ f a x, e_cb (call f a x) = e_cb x) → (length (e_cb e) = i + n)%nat →
  (call_slots call n i arg e).2 = map (λ f, (f, arg)) (base.filter (λ c, c ≠ 0) (drop i (e_cb e))).
Proof.
  induction n as [|n IH]; intros i e Hcb Hlen; simpl.
  - rewrite drop_ge by lia. done.
  - destruct (lookup_lt_is_Some_2 (e_cb e) i) as [c Hc]; [lia|].
    rewrite (drop_S (e_cb e) c i Hc), Hc, filter_cons.
    destruct (Z.eqb_spec c 0) as [->|Hne].
    + rewrite IH by (done || lia). by rewrite decide_False by (intros H; by destruct H).
    + rewrite decide_True by done. simpl.
      specialize (IH (S i) (call c arg e) Hcb). rewrite Hcb in IH. specialize (IH ltac:(lia)).
      destruct (call_slots call n (S i) arg (call c arg e)) as [e' log]. simpl in *. by rewrite IH.
Qed.

Lemma ack_loop_ok : ∀ slices e e' rest,
  ack_loop slices e = Ok (e', rest) →
  ∃ before, slices = before ++ rest ∧ e' = foldl (λ e sl, es_world sl e) e before ∧
    all_acked e' = true ∧
    ∀ b1 b2, before = b1 ++ b2 → b2 ≠ [] → all_acked (foldl (λ e sl, es_world sl e) e b1) = false.
Proof.
  induction slices as [|sl slices IH]; intros e e' rest Ha; [done|]. simpl in Ha.
  destruct (all_acked e) eqn:E.
  - injection Ha as <- <-. exists []. do 3 (split; [done|]). intros [|b1 b1'] [|b2 b2'] Eq Hb2; done.
  - destruct (IH _ _ _ Ha) as (before & -> & -> & Hall & Hb). exists (sl :: before).
    do 3 (split; [done|]). intros [|b b1] b2 Eq Hb2; [done|]. injection Eq as <- Eq.
    by apply (Hb b1 b2).
Qed.

Lemma all_acked_iff e :
  all_acked e = true ↔
  ∀ i l, e_listeners e !! i = Some l → l_task_id l ≠ 0 → l_ev_id l = e_id e.
Proof.
  unfold all_acked. rewrite forallb_forall. split.
  - intros H i l Hl Hid. specialize (H l).
    apply list_elem_of_lookup_2, list_elem_of_In, H in Hl.
    destruct (Z.eqb_spec (l_task_id l) 0), (Z.eqb_spec (l_ev_id l) (e_id e)); done.
  - intros H l [i Hl]%list_elem_of_In%list_elem_of_lookup.
    destruct (Z.eqb_spec (l_task_id l) 0), (Z.eqb_spec (l_ev_id l) (e_id e)); try done.
    by destruct n0; eapply H.
Qed.

(** ** Properties *)

(** [Ev_Notify] calls every subscribed callback once, in slot order, with
    the argument, and returns exactly in the first slice in which every active
    listener has acknowledged the current event id. *)
Theorem Ev_Notify_delivers call slices e arg e' log rest :
  wf_ev e → (∀ f a x, e_cb (call f a x) = e_cb x) →
  Ev_Notify call slices e arg = Ok (e', log, rest) →
  log = map (λ f, (f, arg)) (subscribed e) ∧
  ∃ e1 before, slices = before ++ rest ∧ e' = foldl (λ e sl, es_world sl e) e1 before ∧
    (call_slots call SYS_EV_MAX_CBS 0 arg (mk_ev arg (u32 (e_id e + 1)) (e_cb e) (e_listeners e))).1 = e1 ∧
    (∀ i l, e_listeners e' !! i = Some l → l_task_id l ≠ 0 → l_ev_id l = e_id e') ∧
    (∀ b1 b2, before = b1 ++ b2 → b2 ≠ [] →
       all_acked (foldl (λ e sl, es_world sl e) e1 b1) = false).
Proof.
  intros (Hc & _ & _) Hcb Hn. unfold Ev_Notify in Hn.
  pose proof (call_slots_log call arg SYS_EV_MAX_CBS 0
    (mk_ev arg (u32 (e_id e + 1)) (e_cb e) (e_listeners e)) Hcb Hc) as Hlog.
  destruct (call_slots _ _ _ _ _) as [e1 log1]. simpl in Hlog.
  destruct (ack_loop slices e1) as [[e2 rest2]|] eqn:E; [|done]. injection Hn as <- <- <-.
  split; [by rewrite Hlog|]. destruct (ack_loop_ok _ _ _ _ E) as (before & ? & ? & Hall & ?).
  exists e1, before. do 3 (split; [done|]). split; [|done]. by apply all_acked_iff.
Qed.

(** A listener does not miss an event: after [Ev_Listen] the next
    [Ev_Notify] of the event is seen by [Ev_Capture] with its argument, does not
    return before the listener's [Ev_Ack] (or [Ev_ListenEnd]), and a
    [Ev_Capture] after the acknowledgement waits for a new event again. *)
Theorem Ev_listener_sees_event e task_id e1 i arg slices sl call :
  wf_ev e → is_u32 task_id → task_id ≠ 0 → Ev_Listen e task_id = (e1, Some i) →
  (∀ f a x, call f a x = x) →
  let e2 := mk_ev arg (u32 (e_id e1 + 1)) (e_cb e1) (e_listeners e1) in
  (call_slots call SYS_EV_MAX_CBS 0 arg e2).1 = e2 ∧
  Ev_Capture (sl :: slices) e2 i 0 = Ok (e2, Some arg, EOK) ∧
  all_acked e2 = false ∧
  ∃ e3 e4, Ev_Ack e2 i = Ok e3 ∧ Ev_ListenEnd e2 i = Ok e4 ∧
    (∀ j l, e_listeners e3 !! j = Some l → l_task_id l ≠ 0 → j = i → l_ev_id l = e_id e3) ∧
    (∀ l, e_listeners e4 !! i = Some l → l_task_id l = 0) ∧
    Ev_Capture [sl] e3 i 0 = Fault OutOfFuel.
Proof.
  intros (Hc & Hl & Hid) Htid Hnz Hlisten Hcall e2.
  unfold Ev_Listen in Hlisten. destruct (free_listener (e_listeners e) 0) as [k|] eqn:E; [|done].
  injection Hlisten as <- <-. simpl in e2.
  assert (∃ x, e_listeners e !! k = Some x) as [x Hx].
  { assert (∀ l n, free_listener l n = Some k → ∃ x, l !! (k - n)%nat = Some x ∧ (n ≤ k)%nat) as Hf.
    { induction l as [|y l IH]; intros n Hf; [done|]. simpl in Hf.
      destruct (l_task_id y =? 0).
      - injection Hf as ->. exists y. rewrite Nat.sub_diag. split; [done|lia].
      - destruct (IH _ Hf) as (z & Hz & Hle). exists z. split; [|lia].
        by replace (k - n)%nat with (S (k - S n))%nat by lia. }
    destruct (Hf _ _ E) as (x & Hx & _). exists x. by rewrite Nat.sub_0_r in Hx. }
  pose proof (lookup_lt_Some _ _ _ Hx) as Hlt.
  assert (e_listeners e2 !! k = Some (mk_listener task_id (e_id e))) as Hk.
  { unfold e2. simpl. rewrite u32_small by done. by rewrite list_lookup_insert_eq. }
  assert (u32 (e_id e + 1) ≠ e_id e) as Hne by word_lia.
  split; [|split; [|split]].
  - assert (∀ n j y, (call_slots call n j arg y).1 = y) as Hcs; [|apply Hcs].
    induction n as [|n IH]; intros j y; simpl; [done|].
    destruct (e_cb y !! j) as [c|]; [|done]. destruct (c =? 0); [apply IH|].
    specialize (IH (S j) (call c arg y)). destruct (call_slots _ _ _ _ _). simpl in *.
    by rewrite IH, Hcall.
  - unfold Ev_Capture. simpl. unfold e2 in Hk. simpl in Hk. rewrite Hk. simpl.
    by destruct (Z.eqb_spec (u32 (e_id e + 1)) (e_id e)).
  - apply not_true_iff_false. rewrite all_acked_iff. intros H. specialize (H _ _ Hk Hnz).
    simpl in H. congruence.
  - unfold Ev_Ack, Ev_ListenEnd. rewrite Hk. do 2 eexists. do 2 (split; [done|]).
    apply lookup_lt_Some in Hk. split; [|split].
    + intros j l Hj _ ->. simpl in Hj. rewrite list_lookup_insert_eq in Hj by done. by injection Hj as <-.
    + intros l Hj. simpl in Hj. rewrite list_lookup_insert_eq in Hj by done. by injection Hj as <-.
    + unfold Ev_Capture. simpl. rewrite list_lookup_insert_eq by done. simpl. by rewrite Z.eqb_refl.
Qed.

(** Subscribing takes the first free slot and fails with [EFATAL] exactly
    when all slots are taken; unsubscribing what was just subscribed restores
    the event, and fails exactly for callbacks that are not subscribed. *)
Theorem Ev_Subscribe_roundtrip e f :
  f ≠ 0 → f ∉ e_cb e →
  ((0 ∉ e_cb e) ∧ Ev_Subscribe e f = (e, EFATAL)) ∨
  (0 ∈ e_cb e ∧ ∃ e', Ev_Subscribe e f = (e', EOK) ∧ subscribed e' ≡ₚ f :: subscribed e ∧
     Ev_Unsubscribe e' f = (e, EOK) ∧ Ev_Unsubscribe e f = (e, EFATAL)).
Proof.
  intros Hf Hnin. unfold Ev_Subscribe, Ev_Unsubscribe.
  destruct (replace_first 0 f (e_cb e)) as [cb|] eqn:E.
  - right. pose proof E as (l1 & l2 & Hl & Hn & ->)%replace_first_Some. split.
    { rewrite Hl. apply elem_of_app. right. left. }
    eexists. split; [done|]. split; [|split].
    + unfold subscribed. simpl. rewrite Hl, !filter_app, !filter_cons.
      rewrite decide_True by done. rewrite decide_False by (intros H; by destruct H).
      symmetry. apply Permutation_middle.
    + simpl. assert (replace_first f 0 (l1 ++ f :: l2) = Some (e_cb e)) as ->.
      { apply replace_first_Some. exists l1, l2. split; [done|]. split; [|done].
        rewrite Hl in Hnin. intros Hin. apply Hnin, elem_of_app. by left. }
      by destruct e.
    + by rewrite (proj2 (replace_first_None f 0 (e_cb e)) Hnin).
  - left. split; [by eapply replace_first_None|done].
Qed.

(** ** Witnesses *)

Definition demo_ev : ev :=
  mk_ev 0 4294967295 [0; 77; 0; 78; 0; 0; 0; 0] (replicate 4 (mk_listener 0 0)).

Lemma demo_ev_wf : wf_ev demo_ev.
Proof. split; [done|]. split; [done|]. unfold is_u32. simpl. lia. Qed.

Lemma Ev_Notify_delivers_witness :
  ∃ e', Ev_Notify (λ _ _ x, x) [mk_ev_slice 0 (λ e, e)] demo_ev 9
    = Ok (e', [(77, 9); (78, 9)], [mk_ev_slice 0 (λ e, e)]) ∧ e_id e' = 0.
Proof.
  destruct (Ev_Notify_delivers (λ _ _ x, x) [mk_ev_slice 0 (λ e, e)] demo_ev 9
    (mk_ev 9 0 (e_cb demo_ev) (e_listeners demo_ev)) [(77, 9); (78, 9)] [mk_ev_slice 0 (λ e, e)]
    demo_ev_wf ltac:(reflexivity) ltac:(vm_compute; reflexivity)) as [_ _].
  eexists. split; [vm_compute; reflexivity|reflexivity].
Defined.

Lemma Ev_listener_sees_event_witness :
  ∃ e1, Ev_Listen demo_ev 5 = (e1, Some 0%nat) ∧
    all_acked (mk_ev 9 (u32 (e_id e1 + 1)) (e_cb e1) (e_listeners e1)) = false.
Proof.
  destruct (Ev_Listen demo_ev 5) as [e1 o] eqn:E. assert (o = Some 0%nat) as -> by
    (vm_compute in E; injection E as _ <-; reflexivity).
  exists e1. split; [reflexivity|].
  exact (proj1 (proj2 (proj2 (Ev_listener_sees_event demo_ev 5 e1 0 9 [] (mk_ev_slice 0 (λ e, e))
    (λ _ _ x, x) demo_ev_wf ltac:(unfold is_u32; lia) ltac:(discriminate) E ltac:(reflexivity))))).
Defined.

Lemma Ev_Subscribe_roundtrip_witness :
  ∃ e', Ev_Subscribe demo_ev 5 = (e', EOK) ∧ Ev_Unsubscribe e' 5 = (demo_ev, EOK).
Proof.
  destruct (Ev_Subscribe_roundtrip demo_ev 5) as [[H _]|(_ & e' & Hs & _ & Hu & _)].
  - discriminate.
  - apply (bool_decide_unpack _). vm_compute. exact I.
  - exfalso. apply H. left.
  - exists e'. exact (conj Hs Hu).
Defined.
