(* ===== verification/Base64.v ===== *)
(** * Base64 (util/src/base64.c)

    The input is the list of its bytes, indexed the way the code indexes it;
    the output is the list of the bytes written from [out] on.  The tables are
    those of the source.  [char] constants: ['+'] is 43, ['='] is 61. *)
From S2P Require Import Prelude.

Definition enc : list Z :=
  [65; 66; 67; 68; 69; 70; 71; 72; 73; 74; 75; 76; 77; 78; 79; 80; 81; 82; 83; 84; 85; 86; 87; 88;
   89; 90; 97; 98; 99; 100; 101; 102; 103; 104; 105; 106; 107; 108; 109; 110; 111; 112; 113; 114;
   115; 116; 117; 118; 119; 120; 121; 122; 48; 49; 50; 51; 52; 53; 54; 55; 56; 57; 43; 47].

(** Offset by ['+']; 64 marks characters that are not in the alphabet. *)
Definition dec : list Z :=
  [62; 64; 64; 64; 63; 52; 53; 54; 55; 56; 57; 58; 59; 60; 61; 64;
   64; 64; 0; 64; 64; 64; 0; 1; 2; 3; 4; 5; 6; 7; 8; 9;
   10; 11; 12; 13; 14; 15; 16; 17; 18; 19; 20; 21; 22; 23; 24; 25;
   64; 64; 64; 64; 64; 64; 26; 27; 28; 29; 30; 31; 32; 33; 34; 35;
   36; 37; 38; 39; 40; 41; 42; 43; 44; 45; 46; 47; 48; 49; 50; 51].

(** [a[i]] with a C index. *)
Definition index (l : list Z) (i : Z) : res Z :=
  if i <? 0 then Fault OutOfBounds
  else match l !! Z.to_nat i with Some b => Ok b | None => Fault OutOfBounds end.

Definition enc_at (value k : Z) : Z := nth (Z.to_nat (Z.land (Z.shiftr value k) 0x3f)) enc 0.

(** The loop over whole blocks, and the block that is left. *)
Fixpoint encode_blocks (inp : list Z) : list Z :=
  match inp with
  | a :: b :: c :: inp' =>
      let value := Z.lor (Z.lor (Z.shiftl a 16) (Z.shiftl b 8)) (Z.shiftl c 0) in
      [enc_at value 18; enc_at value 12; enc_at value 6; enc_at value 0] ++ encode_blocks inp'
  | [a; b] =>
      let value := Z.lor (Z.shiftl a 16) (Z.shiftl b 8) in
      [enc_at value 18; enc_at value 12; enc_at value 6; 61]
  | [a] => let value := Z.shiftl a 16 in [enc_at value 18; enc_at value 12; 61; 61]
  | [] => []
  end.

(** [Base64_Encode]: the bytes written and the value returned. *)
Definition Base64_Encode (inp : list Z) (out_size : Z) : list Z * Z :=
  let in_size := Z.of_nat (length inp) in
  if out_size <? u32 (4 * u32 (in_size + 2)) / 3 then ([], EFATAL)
  else let out := encode_blocks inp in (out, Z.of_nat (length out)).

Definition dec_at (c : Z) : res Z := index dec (c - 43).

Definition decode_value (c1 c2 c3 c4 : Z) : res Z :=
  v1 ← dec_at c1;
  v2 ← dec_at c2;
  v3 ← dec_at c3;
  v4 ← dec_at c4;
  Ok (Z.lor (Z.lor (Z.lor (Z.shiftl v1 18) (Z.shiftl v2 12)) (Z.shiftl v3 6)) (Z.shiftl v4 0)).

Fixpoint decode_blocks (inp : list Z) (last_block_size : Z) : res (list Z) :=
  match inp with
  | [] => Ok []
  | c1 :: c2 :: c3 :: c4 :: inp' =>
      value ← decode_value c1 c2 c3 c4;
      match inp' with
      | [] =>
          Ok ([u8 (Z.shiftr value 16)]
                ++ (if 1 <? last_block_size then [u8 (Z.shiftr value 8)] else [])
                ++ (if 2 <? last_block_size then [u8 (Z.shiftr value 0)] else []))
      | _ =>
          out ← decode_blocks inp' last_block_size;
          Ok ([u8 (Z.shiftr value 16); u8 (Z.shiftr value 8); u8 (Z.shiftr value 0)] ++ out)
      end
  | _ => Fault OutOfBounds
  end.

Definition Base64_Decode (inp : list Z) (out_size : Z) : res (list Z * Z) :=
  let in_size := Z.of_nat (length inp) in
  if negb (Z.land in_size 0x3 =? 0) then Ok ([], EFATAL)
  else
    e1 ← index inp (in_size - 1);
    e2 ← index inp (in_size - 2);
    let last_block_size := 3 - (if e1 =? 61 then 1 else 0) - (if e2 =? 61 then 1 else 0) in
    if out_size <? u32 (u32 (in_size * 3) / 4 - (3 - last_block_size)) then Ok ([], EFATAL)
    else out ← decode_blocks inp last_block_size; Ok (out, Z.of_nat (length out)).

(** ** Lemmas *)

Definition sextet (z : Z) : Prop := 0 <= z < 64.

(** Decoding an encoded six-bit value gives it back; no character of the
    alphabet is the filler. *)
Lemma dec_enc i : sextet i → dec_at (nth (Z.to_nat i) enc 0) = Ok i ∧ nth (Z.to_nat i) enc 0 ≠ 61.
Proof.
  intros Hi. assert (forallb (λ k, match dec_at (nth k enc 0) with
      | Ok v => (v =? Z.of_nat k) && negb (nth k enc 0 =? 61)
      | Fault _ => false
      end) (seq 0 64) = true) as H by (vm_compute; reflexivity).
  rewrite forallb_forall in H. unfold sextet in Hi. specialize (H (Z.to_nat i)).
  rewrite <- list_elem_of_In, elem_of_seq in H. specialize (H ltac:(lia)).
  destruct (dec_at _) as [v|]; [|done].
  apply andb_true_iff in H as [->%Z.eqb_eq H]. rewrite Z2Nat.id by lia. split; [done|].
  by destruct (Z.eqb_spec (nth (Z.to_nat i) enc 0) 61).
Qed.

Lemma dec_enc_at v k : 0 ≤ v → 0 ≤ k → dec_at (enc_at v k) = Ok (v / 2 ^ k mod 64) ∧ enc_at v k ≠ 61.
Proof.
  intros Hv Hk. unfold enc_at. change 0x3f with 63. rewrite land_63, Z.shiftr_div_pow2 by done.
  apply dec_enc. unfold sextet. lia.
Qed.

Lemma dec_at_enc_at v k : 0 ≤ v → 0 ≤ k → dec_at (enc_at v k) = Ok (v / 2 ^ k mod 64).
Proof. intros Hv Hk. by apply dec_enc_at. Qed.

(** Four sextets put together again. *)
Lemma sextets v :
  0 ≤ v < 16777216 →
  Z.lor (Z.lor (Z.lor (Z.shiftl (v / 2 ^ 18 mod 64) 18) (Z.shiftl (v / 2 ^ 12 mod 64) 12))
    (Z.shiftl (v / 2 ^ 6 mod 64) 6)) (Z.shiftl (v / 2 ^ 0 mod 64) 0) = v.
Proof.
  intros Hv. change (2 ^ 18) with 262144. change (2 ^ 12) with 4096. change (2 ^ 6) with 64.
  change (2 ^ 0) with 1. rewrite <- !Z.lor_assoc, Z.shiftl_0_r.
  assert (∀ a b c d, sextet b → sextet c → sextet d →
    Z.lor (Z.shiftl a 18) (Z.lor (Z.shiftl b 12) (Z.lor (Z.shiftl c 6) d))
    = a * 262144 + b * 4096 + c * 64 + d) as Hpack.
  { unfold sextet. intros a b c d Hb Hc Hd. rewrite (lor_shiftl c d 6) by (change (2 ^ 6) with 64; lia).
    change (2 ^ 6) with 64.
    rewrite (lor_shiftl b _ 12) by (change (2 ^ 12) with 4096; lia). change (2 ^ 12) with 4096.
    rewrite (lor_shiftl a _ 18) by (change (2 ^ 18) with 262144; lia).
    change (2 ^ 18) with 262144. lia. }
  rewrite Hpack by (unfold sextet; lia). lia.
Qed.

Lemma decode_value_enc v :
  0 ≤ v < 16777216 →
  decode_value (enc_at v 18) (enc_at v 12) (enc_at v 6) (enc_at v 0) = Ok v.
Proof.
  intros Hv. unfold decode_value.
  rewrite !dec_at_enc_at, !bind_Ok by lia. by rewrite sextets.
Qed.

(** Padding decodes to zero bits. *)
Lemma decode_value_pad1 v :
  0 ≤ v < 16777216 → v mod 64 = 0 →
  decode_value (enc_at v 18) (enc_at v 12) (enc_at v 6) 61 = Ok v.
Proof.
  intros Hv H0. unfold decode_value. change (dec_at 61) with (Ok 0).
  rewrite !dec_at_enc_at, !bind_Ok by lia. rewrite <- (sextets v Hv) at 4. change (2 ^ 0) with 1.
  by rewrite Z.div_1_r, H0.
Qed.

Lemma decode_value_pad2 v :
  0 ≤ v < 16777216 → v mod 4096 = 0 →
  decode_value (enc_at v 18) (enc_at v 12) 61 61 = Ok v.
Proof.
  intros Hv H0. unfold decode_value. change (dec_at 61) with (Ok 0).
  rewrite !dec_at_enc_at, !bind_Ok by lia. rewrite <- (sextets v Hv) at 3.
  change (2 ^ 0) with 1. change (2 ^ 6) with 64.
  replace (v / 64 mod 64) with 0 by lia. replace (v / 1 mod 64) with 0 by lia. done.
Qed.

Lemma pack3 a b c :
  is_u8 a → is_u8 b → is_u8 c →
  Z.lor (Z.lor (Z.shiftl a 16) (Z.shiftl b 8)) (Z.shiftl c 0) = a * 65536 + b * 256 + c.
Proof.
  unfold is_u8. intros Ha Hb Hc. rewrite <- Z.lor_assoc, Z.shiftl_0_r.
  rewrite (lor_shiftl b c 8) by (change (2 ^ 8) with 256; lia). change (2 ^ 8) with 256.
  rewrite (lor_shiftl a _ 16) by (change (2 ^ 16) with 65536; lia).
  change (2 ^ 16) with 65536. lia.
Qed.

Lemma u8_shiftr v k : 0 ≤ k → u8 (Z.shiftr v k) = v / 2 ^ k mod 256.
Proof. intros Hk. unfold u8. by rewrite Z.shiftr_div_pow2. Qed.

(** Size of the last decoded block. *)
Definition last_size (n : nat) : Z :=
  match (n mod 3)%nat with 1%nat => 1 | 2%nat => 2 | _ => 3 end.

Definition block3 (a b c : Z) : Z := a * 65536 + b * 256 + c.

Lemma pack2 a b : is_u8 a → is_u8 b → Z.lor (Z.shiftl a 16) (Z.shiftl b 8) = block3 a b 0.
Proof.
  intros Ha Hb. pose proof (pack3 a b 0 Ha Hb ltac:(done)) as H.
  by rewrite Z.shiftl_0_l, Z.lor_0_r in H.
Qed.

Lemma pack1 a : is_u8 a → Z.shiftl a 16 = block3 a 0 0.
Proof. intros Ha. rewrite Z.shiftl_mul_pow2 by lia. unfold block3. lia. Qed.

Lemma block3_range a b c : is_u8 a → is_u8 b → is_u8 c → 0 ≤ block3 a b c < 16777216.
Proof. unfold block3. word_lia. Qed.

Lemma unpack3 a b c :
  is_u8 a → is_u8 b → is_u8 c →
  [u8 (Z.shiftr (block3 a b c) 16); u8 (Z.shiftr (block3 a b c) 8); u8 (Z.shiftr (block3 a b c) 0)]
  = [a; b; c].
Proof.
  unfold block3, is_u8. intros Ha Hb Hc. rewrite !u8_shiftr by lia.
  change (2 ^ 16) with 65536. change (2 ^ 8) with 256. change (2 ^ 0) with 1.
  f_equal; [lia|]. f_equal; [lia|]. f_equal. lia.
Qed.

(** Induction over a list three elements at a time. *)
Lemma list_ind3 {A} (P : list A → Prop) :
  P [] → (∀ a, P [a]) → (∀ a b, P [a; b]) → (∀ a b c l, P l → P (a :: b :: c :: l)) → ∀ l, P l.
Proof.
  intros H0 H1 H2 H3. fix IH 1. intros [|a [|b [|c l]]]; [done..|]. apply H3, IH.
Qed.

Lemma encode_blocks_length l :
  length (encode_blocks l) = (4 * ((length l + 2) / 3))%nat.
Proof.
  induction l as [|a|a b|a b c l IH] using list_ind3; try done. simpl length. rewrite IH.
  replace (S (S (S (length l))) + 2)%nat with (length l + 2 + 1 * 3)%nat by lia.
  rewrite Nat.div_add by lia. lia.
Qed.

Lemma encode_blocks_size l :
  Z.of_nat (length (encode_blocks l)) = 4 * ((length l + 2) / 3).
Proof. rewrite encode_blocks_length, Nat2Z.inj_mul, Nat2Z.inj_div, Nat2Z.inj_add. done. Qed.

Lemma last_size_Z n :
  last_size n = if Z.of_nat n mod 3 =? 1 then 1 else if Z.of_nat n mod 3 =? 2 then 2 else 3.
Proof.
  unfold last_size. assert (Z.of_nat n mod 3 = Z.of_nat (n mod 3)) as ->
    by (symmetry; apply (Nat2Z.inj_mod n 3)).
  pose proof (Nat.mod_upper_bound n 3 ltac:(lia)).
  destruct (n mod 3)%nat as [|[|[|k]]]; [done..|lia].
Qed.

Lemma encode_blocks_nil l : encode_blocks l = [] ↔ l = [].
Proof. by destruct l as [|a [|b [|c l]]]. Qed.

Lemma decode_blocks_encode l :
  Forall is_u8 l → decode_blocks (encode_blocks l) (last_size (length l)) = Ok l.
Proof.
  induction l as [|a|a b|a b c l IH] using list_ind3; intros Hl; [done|..].
  - apply Forall_cons in Hl as [Ha _]. simpl encode_blocks. rewrite pack1 by done.
    cbn [decode_blocks]. rewrite decode_value_pad2.
    + rewrite bind_Ok. simpl. pose proof (unpack3 a 0 0 Ha ltac:(done) ltac:(done)) as H.
      by injection H as -> _ _.
    + by apply block3_range.
    + unfold block3. lia.
  - apply Forall_cons in Hl as [Ha Hl]. apply Forall_cons in Hl as [Hb _].
    simpl encode_blocks. rewrite pack2 by done. cbn [decode_blocks]. rewrite decode_value_pad1.
    + rewrite bind_Ok. simpl. pose proof (unpack3 a b 0 Ha Hb ltac:(done)) as H.
      by injection H as -> -> _.
    + by apply block3_range.
    + unfold block3. lia.
  - apply Forall_cons in Hl as [Ha Hl]. apply Forall_cons in Hl as [Hb Hl].
    apply Forall_cons in Hl as [Hc Hl]. specialize (IH Hl).
    assert (last_size (length (a :: b :: c :: l)) = last_size (length l)) as Hls.
    { unfold last_size. simpl length.
      replace (S (S (S (length l))))%nat with (length l + 1 * 3)%nat by lia.
      by rewrite Nat.Div0.mod_add. }
    rewrite Hls. cbn [encode_blocks]. rewrite pack3 by done. fold (block3 a b c).
    cbn [app decode_blocks]. rewrite decode_value_enc, bind_Ok by by apply block3_range.
    pose proof (unpack3 a b c Ha Hb Hc) as H.
    destruct (encode_blocks l) as [|d e] eqn:E.
    + apply encode_blocks_nil in E as ->. simpl. injection H as -> -> ->. done.
    + rewrite IH, bind_Ok. injection H as -> -> ->. done.
Qed.

(** The two last characters of an encoding tell the size of the last block. *)
Lemma encode_blocks_last l :
  l ≠ [] →
  ∃ front c3 c4, encode_blocks l = front ++ [c3; c4] ∧
    3 - (if c4 =? 61 then 1 else 0) - (if c3 =? 61 then 1 else 0) = last_size (length l).
Proof.
  assert (∀ v k, 0 ≤ v → 0 ≤ k → (enc_at v k =? 61) = false) as Hno.
  { intros v k Hv Hk. apply Z.eqb_neq. by apply dec_enc_at. }
  induction l as [|a|a b|a b c l IH] using list_ind3; intros Hne; [done|..].
  - eexists [_; _], 61, 61. split; reflexivity.
  - eexists [_; _], _, 61. split; [reflexivity|].
    destruct (Z.eqb_spec (enc_at (Z.lor (Z.shiftl a 16) (Z.shiftl b 8)) 6) 61) as [E|_]; [|done].
    exfalso. revert E. unfold enc_at. change 0x3f with 63. rewrite land_63.
    apply dec_enc. unfold sextet. lia.
  - assert (last_size (length (a :: b :: c :: l)) = last_size (length l)) as ->.
    { unfold last_size. simpl length.
      replace (S (S (S (length l))))%nat with (length l + 1 * 3)%nat by lia.
      by rewrite Nat.Div0.mod_add. }
    cbn [encode_blocks]. set (v := Z.lor _ _).
    destruct l as [|d l].
    + exists [enc_at v 18; enc_at v 12], (enc_at v 6), (enc_at v 0). split; [done|].
      assert (∀ k, (enc_at v k =? 61) = false) as Hv.
      { intros k. apply Z.eqb_neq. unfold enc_at. change 0x3f with 63. rewrite land_63.
        apply dec_enc. unfold sextet. lia. }
      by rewrite !Hv.
    + destruct IH as (front & c3 & c4 & -> & H); [done|].
      exists ([enc_at v 18; enc_at v 12; enc_at v 6; enc_at v 0] ++ front), c3, c4.
      by rewrite <- app_assoc.
Qed.

Lemma index_app_r l1 l2 i :
  length l1 ≤ i → index (l1 ++ l2) i = index l2 (i - length l1).
Proof.
  intros Hi. unfold index. destruct (Z.ltb_spec i 0); [lia|].
  destruct (Z.ltb_spec (i - length l1) 0); [lia|]. rewrite lookup_app_r by lia.
  by replace (Z.to_nat (i - length l1)) with (Z.to_nat i - length l1)%nat by lia.
Qed.

(** ** Properties *)

(** [Base64_Encode] never writes more than [out_size] bytes: it returns
    [EFATAL] and writes nothing, or it writes four characters per started group
    of three bytes, all from the alphabet or ['='], and returns their number. *)
Theorem Base64_Encode_bounds inp out_size out r :
  length inp < 1073741820 → Forall is_u8 inp → Base64_Encode inp out_size = (out, r) →
  (r = EFATAL ∧ out = [] ∧ out_size < 4 * (length inp + 2) / 3) ∨
  (r = length out ∧ length out ≤ out_size ∧
   Z.of_nat (length out) = 4 * ((length inp + 2) / 3) ∧ 4 * (length inp + 2) / 3 ≤ out_size).
Proof.
  intros Hlen _. unfold Base64_Encode.
  rewrite (u32_small (length inp + 2)), (u32_small (4 * _)) by (unfold is_u32; lia).
  destruct (Z.ltb_spec out_size (4 * (length inp + 2) / 3)); intros [= <- <-].
  - left. done.
  - right. pose proof (encode_blocks_size inp) as He.
    split; [done|]. rewrite He. split; [lia|]. done.
Qed.

(** C33: Round trip: decoding the encoding of any non-empty byte string, with an
    output buffer of just its size, gives the string back. *)
Theorem Base64_roundtrip l out_size enc_size :
  l ≠ [] → Forall is_u8 l → length l < 1073741820 →
  4 * (length l + 2) / 3 ≤ enc_size → length l ≤ out_size < 4294967296 →
  ∃ s n, Base64_Encode l enc_size = (s, n) ∧ n = length s ∧
         Base64_Decode s out_size = Ok (l, Z.of_nat (length l)).
Proof.
  intros Hne Hl Hlen Henc Hout. exists (encode_blocks l), (length (encode_blocks l)).
  pose proof (encode_blocks_size l) as He.
  split; [|split; [done|]].
  { unfold Base64_Encode. rewrite (u32_small (length l + 2)), (u32_small (4 * _)) by (unfold is_u32; lia).
    destruct (Z.ltb_spec enc_size (4 * (length l + 2) / 3)); [lia|done]. }
  unfold Base64_Decode. rewrite He. change 0x3 with 3. rewrite land_3.
  replace (4 * ((length l + 2) / 3) mod 4) with 0 by lia. simpl.
  destruct (encode_blocks_last l Hne) as (front & c3 & c4 & Hs & Hsize).
  assert (Z.of_nat (length front) = 4 * ((length l + 2) / 3) - 2) as Hfl.
  { rewrite Hs, length_app in He. simpl in He. lia. }
  rewrite Hs, !index_app_r by lia. rewrite Hfl.
  replace (4 * ((length l + 2) / 3) - 1 - (4 * ((length l + 2) / 3) - 2)) with 1 by lia.
  replace (4 * ((length l + 2) / 3) - 2 - (4 * ((length l + 2) / 3) - 2)) with 0 by lia.
  change (index [c3; c4] 1) with (Ok c4). change (index [c3; c4] 0) with (Ok c3).
  rewrite !bind_Ok, Hsize, <- Hs.
  assert (Hls : 4 * ((length l + 2) / 3) * 3 / 4 - (3 - last_size (length l)) = length l).
  { rewrite last_size_Z. destruct (Z.eqb_spec (length l mod 3) 1), (Z.eqb_spec (length l mod 3) 2); lia. }
  rewrite (u32_small (4 * ((length l + 2) / 3) * 3)) by (unfold is_u32; lia).
  rewrite Hls, u32_small by (unfold is_u32; lia).
  destruct (Z.ltb_spec out_size (length l)); [lia|].
  by rewrite decode_blocks_encode, bind_Ok.
Qed.

(** ** Witnesses and concrete runs *)

Lemma Base64_Encode_bounds_witness :
  Base64_Encode [77; 97] 5 = ([84; 87; 69; 61], 4) ∧ 4 ≤ 5.
Proof.
  split; [reflexivity|].
  destruct (Base64_Encode_bounds [77; 97] 5 _ _ ltac:(simpl; lia) ltac:(by repeat constructor) eq_refl)
    as [[H _]|(_ & H & _)].
  - discriminate H.
  - exact H.
Defined.

Lemma Base64_roundtrip_witness :
  ∃ s n, Base64_Encode [0; 255; 16; 3] 8 = (s, n) ∧ n = length s ∧
         Base64_Decode s 4 = Ok ([0; 255; 16; 3], 4).
Proof.
  apply (Base64_roundtrip [0; 255; 16; 3] 4 8).
  - discriminate.
  - by repeat constructor.
  - simpl; lia.
  - vm_compute. discriminate.
  - simpl; lia.
Defined.

(** Decoding nothing reads the byte in front of the input. *)
Example decode_empty : Base64_Decode [] 10 = Fault OutOfBounds.
Proof. reflexivity. Qed.

(** A character outside of ['+'] to ['z'] is looked up outside of the table. *)
Example decode_space : Base64_Decode [32; 65; 65; 65] 10 = Fault OutOfBounds.
Proof. reflexivity. Qed.

(** A buffer of exactly the encoded size is refused. *)
Example encode_exact_refused : (Base64_Encode [77; 97] 4).2 = EFATAL.
Proof. reflexivity. Qed.
