(* ===== verification/Words.v ===== *)
(** * Byte order and bit macros (util/endian.h, util/bit.h, util/msblsb.h),
      random numbers and hashing (util/src/lfsr32.c, util/src/jenkins.c)

    The macros are used with unsigned arguments; the arguments of the 64-bit ones
    are taken modulo 2^64. *)
From S2P Require Import Prelude.

(** ** util/endian.h *)

Definition HTOBE16 (x : Z) : Z :=
  Z.lor (Z.shiftl (Z.land (u16 x) 0xff) 8) (Z.shiftr (Z.land (u16 x) 0xff00) 8).
Definition BETOH16 (x : Z) : Z := HTOBE16 x.

Definition HTOBE32 (x : Z) : Z :=
  Z.lor (Z.lor (Z.lor (Z.shiftl (Z.land (u32 x) 0x000000ff) 24)
                      (Z.shiftl (Z.land (u32 x) 0x0000ff00) 8))
               (Z.shiftr (Z.land (u32 x) 0x00ff0000) 8))
        (Z.shiftr (Z.land (u32 x) 0xff000000) 24).
Definition BETOH32 (x : Z) : Z := HTOBE32 x.

Definition HTOBE64 (x : Z) : Z :=
  Z.lor (Z.shiftl (HTOBE32 (Z.land (u64 x) 0xffffffff)) 32)
        (HTOBE32 (Z.land (Z.shiftr (u64 x) 32) 0xffffffff)).
Definition BETOH64 (x : Z) : Z := HTOBE64 x.

(** ** util/msblsb.h *)

Definition MSB0 (x : Z) : Z := if x =? 0 then -1 else 0.
Definition MSB1 (x : Z) : Z := if 0x0001 <? x then 1 + MSB0 (Z.shiftr x 1) else MSB0 x.
Definition MSB2 (x : Z) : Z := if 0x0003 <? x then 2 + MSB1 (Z.shiftr x 2) else MSB1 x.
Definition MSB3 (x : Z) : Z := if 0x000f <? x then 4 + MSB2 (Z.shiftr x 4) else MSB2 x.
Definition MSB4 (x : Z) : Z := if 0x00ff <? x then 8 + MSB3 (Z.shiftr x 8) else MSB3 x.
Definition MSB (x : Z) : Z := if 0xffff <? x then 16 + MSB4 (Z.shiftr x 16) else MSB4 x.

Definition LSB0 (x : Z) : Z := if x =? 0 then -32 else 0.
Definition LSB1 (x : Z) : Z := if Z.land x 0x0001 =? 0 then 1 + LSB0 (Z.shiftr x 1) else LSB0 x.
Definition LSB2 (x : Z) : Z := if Z.land x 0x0003 =? 0 then 2 + LSB1 (Z.shiftr x 2) else LSB1 x.
Definition LSB3 (x : Z) : Z := if Z.land x 0x000f =? 0 then 4 + LSB2 (Z.shiftr x 4) else LSB2 x.
Definition LSB4 (x : Z) : Z := if Z.land x 0x00ff =? 0 then 8 + LSB3 (Z.shiftr x 8) else LSB3 x.
Definition LSB (x : Z) : Z := if Z.land x 0xffff =? 0 then 16 + LSB4 (Z.shiftr x 16) else LSB4 x.

(** ** util/bit.h, on [uint32_t] words *)

Definition BITS_RD (x pos_mask : Z) : Z := Z.shiftr (Z.land x pos_mask) (LSB pos_mask).
Definition BITS_CLR (x pos_mask : Z) : Z := Z.land x (u32 (Z.lnot pos_mask)).
Definition BITS_SET (x pos_mask : Z) : Z := Z.lor x pos_mask.
Definition BITS_WR (x pos_mask value : Z) : Z :=
  Z.lor (Z.land x (u32 (Z.lnot pos_mask))) (Z.land (u32 (Z.shiftl value (LSB pos_mask))) pos_mask).

(** [flags & f]. *)
Definition has (flags f : Z) : bool := negb (Z.land flags f =? 0).

(** ** util/src/lfsr32.c, util/src/jenkins.c *)

Definition LFSR32_Next (x : Z) : Z :=
  let bit := Z.land (Z.lxor (Z.lxor (Z.lxor (Z.shiftr x 0) (Z.shiftr x 10)) (Z.shiftr x 30))
                            (Z.shiftr x 31)) 1 in
  Z.lor (Z.shiftr x 1) (u32 (Z.shiftl bit 31)).

(** One round of the loop over the key. *)
Definition jenkins_step (hash key : Z) : Z :=
  let hash := u32 (hash + key) in
  let hash := u32 (hash + u32 (Z.shiftl hash 10)) in
  Z.lxor hash (Z.shiftr hash 6).

Definition Jenkins_OAAT (iv : Z) (key : list Z) : Z :=
  let hash := foldl jenkins_step iv key in
  let hash := u32 (hash + u32 (Z.shiftl hash 3)) in
  let hash := Z.lxor hash (Z.shiftr hash 11) in
  u32 (hash + u32 (Z.shiftl hash 15)).

(** ** Lemmas *)

(** A byte of a word, picked by a mask. *)
Lemma land_byte x k : 0 ≤ k → Z.land x (Z.shiftl 255 k) = x / 2 ^ k mod 256 * 2 ^ k.
Proof.
  intros Hk. rewrite <- Z.shiftr_div_pow2, <- (Z.shiftl_mul_pow2 _ k), <- land_255 by done.
  apply Z.bits_inj'. intros i Hi. rewrite Z.land_spec.
  destruct (decide (i < k)).
  - rewrite !Z.shiftl_spec_low by done. apply andb_false_r.
  - rewrite !Z.shiftl_spec, Z.land_spec, Z.shiftr_spec by lia.
    by replace (i - k + k) with i by lia.
Qed.

Definition byte (i x : Z) : Z := x / 256 ^ i mod 256.

Lemma HTOBE16_bytes x : HTOBE16 x = byte 0 x * 256 + byte 1 x.
Proof.
  unfold HTOBE16, byte. change 0xff with 255. rewrite land_255.
  change 0xff00 with (Z.shiftl 255 8). rewrite land_byte by lia.
  rewrite Z.shiftr_div_pow2 by lia. change (2 ^ 8) with 256.
  rewrite lor_shiftl by (change (2 ^ 8) with 256; lia). change (2 ^ 8) with 256.
  change (256 ^ 0) with 1. change (256 ^ 1) with 256. word_lia.
Qed.

Lemma HTOBE32_bytes x :
  HTOBE32 x = byte 0 x * 16777216 + byte 1 x * 65536 + byte 2 x * 256 + byte 3 x.
Proof.
  unfold HTOBE32, byte. change 0xff with 255. rewrite land_255.
  change 0xff00 with (Z.shiftl 255 8). change 0xff0000 with (Z.shiftl 255 16).
  change 0xff000000 with (Z.shiftl 255 24). rewrite !land_byte by lia.
  rewrite !Z.shiftr_div_pow2 by lia. change (256 ^ 0) with 1. change (256 ^ 1) with 256.
  change (256 ^ 2) with 65536. change (256 ^ 3) with 16777216.
  change (2 ^ 8) with 256. change (2 ^ 16) with 65536. change (2 ^ 24) with 16777216.
  set (b1 := u32 x / 256 mod 256). set (b2 := u32 x / 65536 mod 256).
  set (b3 := u32 x / 16777216 mod 256). rewrite <- !Z.lor_assoc.
  assert (Z.shiftl (b1 * 256) 8 = Z.shiftl b1 16) as ->.
  { rewrite !Z.shiftl_mul_pow2 by lia. change (2 ^ 8) with 256. change (2 ^ 16) with 65536. lia. }
  assert (b2 * 65536 / 256 = Z.shiftl b2 8) as ->.
  { rewrite Z.shiftl_mul_pow2 by lia. change (2 ^ 8) with 256. lia. }
  replace (b3 * 16777216 / 16777216) with b3 by lia.
  assert (0 ≤ b1 < 256 ∧ 0 ≤ b2 < 256 ∧ 0 ≤ b3 < 256) by (unfold b1, b2, b3; lia).
  rewrite (lor_shiftl b2 b3 8) by (change (2 ^ 8) with 256; lia). change (2 ^ 8) with 256.
  rewrite (lor_shiftl b1 _ 16) by (change (2 ^ 16) with 65536; lia). change (2 ^ 16) with 65536.
  rewrite (lor_shiftl _ _ 24) by (change (2 ^ 24) with 16777216; lia).
  change (2 ^ 24) with 16777216.
  assert (b1 = x / 256 mod 256 ∧ b2 = x / 65536 mod 256 ∧ b3 = x / 16777216 mod 256) as (-> & -> & ->)
    by (unfold b1, b2, b3; word_lia).
  replace (u32 x mod 256) with (x / 1 mod 256) by word_lia. lia.
Qed.

Lemma HTOBE32_u32 x : is_u32 (HTOBE32 x).
Proof. rewrite HTOBE32_bytes. unfold byte, is_u32. lia. Qed.

Lemma HTOBE32_involutive x : HTOBE32 (HTOBE32 x) = u32 x.
Proof.
  rewrite (HTOBE32_bytes (HTOBE32 x)), (HTOBE32_bytes x). unfold byte.
  change (256 ^ 0) with 1. change (256 ^ 1) with 256. change (256 ^ 2) with 65536.
  change (256 ^ 3) with 16777216. word_lia.
Qed.

Lemma HTOBE16_involutive x : HTOBE16 (HTOBE16 x) = u16 x.
Proof.
  rewrite (HTOBE16_bytes (HTOBE16 x)), (HTOBE16_bytes x). unfold byte.
  change (256 ^ 0) with 1. change (256 ^ 1) with 256. word_lia.
Qed.

(** *** Position of the highest and the lowest bit *)

Lemma log2_shift x s : 0 ≤ s → 2 ^ s ≤ x → Z.log2 x = s + Z.log2 (Z.shiftr x s).
Proof.
  intros Hs Hx. rewrite Z.log2_shiftr by lia.
  pose proof (Z.log2_le_pow2 x s ltac:(lia)) as [H _]. specialize (H Hx). lia.
Qed.

Ltac msb_step s inner :=
  let H := fresh in
  match goal with |- (if ?b then _ else _) = _ => destruct b eqn:H end;
  [apply Z.ltb_lt in H; rewrite (log2_shift _ s) by (change (2 ^ s) with (2 ^ s); lia);
   rewrite inner; [done|]; rewrite Z.shiftr_div_pow2 by lia
  |apply Z.ltb_ge in H; apply inner; lia].

Lemma MSB0_ok x : 0 < x < 2 → MSB0 x = Z.log2 x.
Proof. intros Hx. by replace x with 1 by lia. Qed.
Lemma MSB1_ok x : 0 < x < 4 → MSB1 x = Z.log2 x.
Proof. intros Hx. unfold MSB1. msb_step 1 MSB0_ok. change (2 ^ 1) with 2. lia. Qed.
Lemma MSB2_ok x : 0 < x < 16 → MSB2 x = Z.log2 x.
Proof. intros Hx. unfold MSB2. msb_step 2 MSB1_ok. change (2 ^ 2) with 4. lia. Qed.
Lemma MSB3_ok x : 0 < x < 256 → MSB3 x = Z.log2 x.
Proof. intros Hx. unfold MSB3. msb_step 4 MSB2_ok. change (2 ^ 4) with 16. lia. Qed.
Lemma MSB4_ok x : 0 < x < 65536 → MSB4 x = Z.log2 x.
Proof. intros Hx. unfold MSB4. msb_step 8 MSB3_ok. change (2 ^ 8) with 256. lia. Qed.
Lemma MSB_ok x : 0 < x < 4294967296 → MSB x = Z.log2 x.
Proof. intros Hx. unfold MSB. msb_step 16 MSB4_ok. change (2 ^ 16) with 65536. lia. Qed.

(** [n] is the position of the lowest set bit of [x]. *)
Definition lowest_bit (x n : Z) : Prop := 0 ≤ n ∧ x mod 2 ^ n = 0 ∧ x / 2 ^ n mod 2 = 1.

Lemma lowest_bit_shift x s n :
  0 ≤ s → x mod 2 ^ s = 0 → lowest_bit (Z.shiftr x s) n → lowest_bit x (s + n).
Proof.
  intros Hs Hm (Hn & H0 & H1). rewrite Z.shiftr_div_pow2 in H0, H1 by done.
  assert (0 < 2 ^ s ∧ 0 < 2 ^ n) as [Hps Hpn] by (split; apply Z.pow_pos_nonneg; lia).
  unfold lowest_bit. rewrite Z.pow_add_r by done. split; [lia|].
  rewrite <- Z.div_div by lia. split; [|done].
  rewrite Z.rem_mul_r by lia. rewrite Hm, H0. lia.
Qed.

Ltac lsb_step s inner :=
  let H := fresh in
  match goal with |- lowest_bit _ (if ?b then _ else _) => destruct b eqn:H end;
  [apply Z.eqb_eq in H; apply lowest_bit_shift; [lia|exact H|];
   apply inner; rewrite Z.shiftr_div_pow2 by lia
  |apply Z.eqb_neq in H; apply inner; [exact H|..]].

Lemma land_mask x k : 0 ≤ k → Z.land x (Z.ones k) = x mod 2 ^ k.
Proof. apply Z.land_ones. Qed.

Lemma LSB0_ok x : x mod 2 ≠ 0 → lowest_bit x (LSB0 x).
Proof.
  intros Hx. unfold LSB0. destruct (Z.eqb_spec x 0); [by subst|].
  split; [done|]. change (2 ^ 0) with 1. lia.
Qed.
Lemma LSB1_ok x : x mod 4 ≠ 0 → lowest_bit x (LSB1 x).
Proof.
  intros Hx. unfold LSB1. change 0x0001 with 1. rewrite land_1.
  lsb_step 1 LSB0_ok. change (2 ^ 1) with 2 in *. lia.
Qed.
Lemma LSB2_ok x : x mod 16 ≠ 0 → lowest_bit x (LSB2 x).
Proof.
  intros Hx. unfold LSB2. change 0x0003 with (Z.ones 2). rewrite land_mask by done.
  lsb_step 2 LSB1_ok. change (2 ^ 2) with 4 in *. lia.
Qed.
Lemma LSB3_ok x : x mod 256 ≠ 0 → lowest_bit x (LSB3 x).
Proof.
  intros Hx. unfold LSB3. change 0x000f with (Z.ones 4). rewrite land_mask by done.
  lsb_step 4 LSB2_ok. change (2 ^ 4) with 16 in *. lia.
Qed.
Lemma LSB4_ok x : x mod 65536 ≠ 0 → lowest_bit x (LSB4 x).
Proof.
  intros Hx. unfold LSB4. change 0x00ff with (Z.ones 8). rewrite land_mask by done.
  lsb_step 8 LSB3_ok. change (2 ^ 8) with 256 in *. lia.
Qed.
Lemma LSB_ok x : 0 < x < 4294967296 → lowest_bit x (LSB x).
Proof.
  intros Hx. unfold LSB. change 0xffff with (Z.ones 16). rewrite land_mask by done.
  lsb_step 16 LSB4_ok. change (2 ^ 16) with 65536 in *. lia.
Qed.

(** *** The shift register *)

(** Bit [i] of the next state. *)
Lemma LFSR32_bits x i :
  is_u32 x → 0 ≤ i →
  Z.testbit (LFSR32_Next x) i =
    if i =? 31 then xorb (xorb (xorb (Z.testbit x 0) (Z.testbit x 10)) (Z.testbit x 30)) (Z.testbit x 31)
    else Z.testbit x (i + 1).
Proof.
  intros Hx Hi. unfold LFSR32_Next. rewrite Z.lor_spec, Z.shiftr_spec by done.
  set (b := Z.land _ 1).
  assert (b = Z.b2z (xorb (xorb (xorb (Z.testbit x 0) (Z.testbit x 10)) (Z.testbit x 30)) (Z.testbit x 31)))
    as ->.
  { unfold b. rewrite land_1, <- Z.bit0_mod, !Z.lxor_spec, !Z.shiftr_spec by done. done. }
  set (c := xorb _ _).
  assert (u32 (Z.shiftl (Z.b2z c) 31) = Z.shiftl (Z.b2z c) 31) as -> by by destruct c.
  rewrite Z.shiftl_spec by done. destruct (Z.eqb_spec i 31) as [->|Hne].
  - rewrite Z.sub_diag, Z.b2z_bit0. assert (Z.testbit x (31 + 1) = false) as ->; [|done].
    apply Z.bits_above_log2; [apply Hx|]. destruct (decide (x = 0)) as [->|]; [done|].
    apply Z.log2_lt_pow2; [unfold is_u32 in Hx; lia|apply Hx].
  - assert (Z.testbit (Z.b2z c) (i - 31) = false) as ->; [|apply orb_false_r].
    destruct (decide (i < 31)); [by apply Z.testbit_neg_r; lia|].
    destruct c; [|apply Z.bits_0]. apply (Z.bits_above_log2 1); [done|]. simpl. lia.
Qed.

Lemma u32_bits x i : is_u32 x → 32 ≤ i → Z.testbit x i = false.
Proof.
  intros Hx Hi. destruct (decide (x = 0)) as [->|]; [apply Z.bits_0|]. unfold is_u32 in Hx.
  apply Z.bits_above_log2; [lia|]. apply Z.log2_lt_pow2; [lia|].
  pose proof (Z.pow_le_mono_r 2 32 i ltac:(lia) ltac:(lia)). lia.
Qed.

Lemma LFSR32_u32 x : is_u32 x → is_u32 (LFSR32_Next x).
Proof.
  intros Hx. assert (u32 (LFSR32_Next x) = LFSR32_Next x) as <-; [|apply u32_range].
  unfold u32. change 4294967296 with (2 ^ 32). apply Z.bits_inj'. intros i Hi.
  destruct (decide (i < 32)); [by apply Z.mod_pow2_bits_low|].
  rewrite Z.mod_pow2_bits_high, LFSR32_bits by (done || lia).
  destruct (Z.eqb_spec i 31); [lia|]. symmetry. apply u32_bits; [done|lia].
Qed.

(** ** Properties *)

(** The byte-order macros reverse the bytes of a word of their width, and
    doing it twice gives the word back. *)
Theorem endian_reverse x :
  HTOBE16 x = byte 0 x * 256 + byte 1 x ∧ BETOH16 (HTOBE16 x) = u16 x ∧
  HTOBE32 x = byte 0 x * 16777216 + byte 1 x * 65536 + byte 2 x * 256 + byte 3 x ∧
  BETOH32 (HTOBE32 x) = u32 x ∧ BETOH64 (HTOBE64 x) = u64 x.
Proof.
  split; [apply HTOBE16_bytes|]. split; [apply HTOBE16_involutive|].
  split; [apply HTOBE32_bytes|]. split; [apply HTOBE32_involutive|].
  assert (∀ y, HTOBE64 y = HTOBE32 (u64 y) * 4294967296 + HTOBE32 (u64 y / 4294967296)) as H64.
  { intros y. unfold HTOBE64. change 0xffffffff with (Z.ones 32). rewrite !land_mask by lia.
    rewrite Z.shiftr_div_pow2 by lia. change (2 ^ 32) with 4294967296.
    rewrite lor_shiftl by (done || apply HTOBE32_u32). change (2 ^ 32) with 4294967296.
    assert (∀ z, HTOBE32 (z mod 4294967296) = HTOBE32 z) as E.
    { intros z. rewrite !HTOBE32_bytes. unfold byte. change (256 ^ 0) with 1.
      change (256 ^ 1) with 256. change (256 ^ 2) with 65536. change (256 ^ 3) with 16777216. lia. }
    by rewrite !E. }
  unfold BETOH64. rewrite (H64 (HTOBE64 x)), (H64 x).
  pose proof (HTOBE32_u32 (u64 x)) as R1. pose proof (HTOBE32_u32 (u64 x / 4294967296)) as R2.
  set (a := HTOBE32 (u64 x)) in *. set (b := HTOBE32 (u64 x / 4294967296)) in *.
  assert (u64 (a * 4294967296 + b) = a * 4294967296 + b) as -> by (unfold is_u32 in *; word_lia).
  replace ((a * 4294967296 + b) / 4294967296) with a by (unfold is_u32 in *; lia).
  assert (HTOBE32 (a * 4294967296 + b) = HTOBE32 b) as ->.
  { rewrite !HTOBE32_bytes. unfold byte. change (256 ^ 0) with 1.
    change (256 ^ 1) with 256. change (256 ^ 2) with 65536. change (256 ^ 3) with 16777216. lia. }
  unfold a, b. rewrite !HTOBE32_involutive. word_lia.
Qed.

(** [MSB] and [LSB] find the highest and the lowest set bit of any non-zero
    32-bit word. *)
Theorem msb_lsb_bits x :
  0 < x < 4294967296 → MSB x = Z.log2 x ∧ lowest_bit x (LSB x) ∧ MSB 0 = -1.
Proof. intros Hx. split; [by apply MSB_ok|]. split; [by apply LSB_ok|done]. Qed.

(** The shift register permutes the 32-bit words: no two states have the
    same successor, and it never gets stuck in zero. *)
Theorem LFSR32_permutes x y :
  is_u32 x → is_u32 y →
  (LFSR32_Next x = LFSR32_Next y → x = y) ∧ (LFSR32_Next x = 0 → x = 0).
Proof.
  assert (∀ a b, is_u32 a → is_u32 b → LFSR32_Next a = LFSR32_Next b → a = b) as Hinj.
  { intros a b Ha Hb E.
    assert (∀ i, 0 ≤ i → Z.testbit (LFSR32_Next a) i = Z.testbit (LFSR32_Next b) i) as Ei by by rewrite E.
    assert (∀ i, 1 ≤ i → Z.testbit a i = Z.testbit b i) as Hhigh.
    { intros i Hi. destruct (decide (i < 32)) as [Hlt|Hge].
      - specialize (Ei (i - 1) ltac:(lia)). rewrite !LFSR32_bits in Ei by (done || lia).
        destruct (Z.eqb_spec (i - 1) 31); [lia|]. by rewrite Z.sub_add in Ei.
      - by rewrite !u32_bits by (done || lia). }
    apply Z.bits_inj'. intros i Hi. destruct (decide (1 ≤ i)) as [H1|H1]; [by apply Hhigh|].
    replace i with 0 by lia. specialize (Ei 31 ltac:(lia)).
    rewrite !LFSR32_bits, Z.eqb_refl in Ei by (done || lia).
    rewrite (Hhigh 10), (Hhigh 30), (Hhigh 31) in Ei by lia.
    destruct (Z.testbit a 0), (Z.testbit b 0), (Z.testbit b 10), (Z.testbit b 30), (Z.testbit b 31); done. }
  intros Hx Hy. split; [by apply Hinj|]. intros E. apply (Hinj x 0 Hx); [by vm_compute|].
  by rewrite E.
Qed.

(** ** Witnesses and concrete runs *)

Lemma msb_lsb_bits_witness : MSB 0x00ff0000 = 23 ∧ LSB 0x00ff0000 = 16.
Proof.
  destruct (msb_lsb_bits 0x00ff0000 ltac:(lia)) as (H & _ & _).
  split; [rewrite H; reflexivity|reflexivity].
Defined.

Lemma LFSR32_permutes_witness : LFSR32_Next 1 = 2147483648 ∧ (LFSR32_Next 1 = 0 → 1 = 0).
Proof.
  split; [reflexivity|].
  exact (proj2 (LFSR32_permutes 1 1 ltac:(unfold is_u32; lia) ltac:(unfold is_u32; lia))).
Defined.

(** The known hash of "a". *)
Example jenkins_a : Jenkins_OAAT 0 [97] = 0xca2e9442.
Proof. vm_compute. reflexivity. Qed.
