(* ===== verification/Sha.v ===== *)
(** * SHA-1 and SHA-2 (util/src/sha1.c, util/src/sha2.c)

    Both files drive the same buffering and padding loop over different block
    functions, so the loop is modelled once, for a block function [compress].
    The specification is the padding of the standard; the theorems say that any
    way of feeding a message to [Digest] computes it.

    The message buffer [w] is a list of 64 bytes; its word view reads and writes
    little-endian words, as the union in the code does on this target. *)
From S2P Require Import Prelude Words.

(** ** Words in byte buffers *)

Fixpoint le_words (l : list Z) : list Z :=
  match l with
  | a :: b :: c :: d :: l' => (a + b * 256 + c * 65536 + d * 16777216) :: le_words l'
  | _ => []
  end.

Definition le_bytes (x : Z) : list Z := [byte 0 x; byte 1 x; byte 2 x; byte 3 x].
Definition be_bytes (x : Z) : list Z := [byte 3 x; byte 2 x; byte 1 x; byte 0 x].

Fixpoint be_words (l : list Z) : list Z :=
  match l with
  | a :: b :: c :: d :: l' => (a * 16777216 + b * 65536 + c * 256 + d) :: be_words l'
  | _ => []
  end.

(** Overwrite the bytes from [i] on with [k]. *)
Definition splice (i : nat) (k l : list Z) : list Z := take i l ++ k ++ drop (i + length k) l.

(** ** The block functions *)

(** [SHA1_LRot32], [SHA2_RRot32]. *)
Definition SHA1_LRot32 (x bits : Z) : Z := Z.lor (u32 (Z.shiftl x bits)) (Z.shiftr x (32 - bits)).
Definition SHA2_RRot32 (x bits : Z) : Z := Z.lor (Z.shiftr x bits) (u32 (Z.shiftl x (32 - bits))).

Definition SHA1_F (round b c d : Z) : Z :=
  if round <=? 19 then Z.lor (Z.land b c) (Z.land (u32 (Z.lnot b)) d)
  else if round <=? 39 then Z.lxor (Z.lxor b c) d
  else if round <=? 59 then Z.lor (Z.lor (Z.land b c) (Z.land b d)) (Z.land c d)
  else Z.lxor (Z.lxor b c) d.

(** [SHA1_ScheduleMessage]: the words after the first sixteen, one at a time. *)
Fixpoint sha1_extend (n : nat) (out : list Z) : list Z :=
  match n with
  | O => out
  | S n' =>
      let i := length out in
      let w k := nth (i - k) out 0 in
      sha1_extend n' (out ++ [SHA1_LRot32 (Z.lxor (Z.lxor (Z.lxor (w 3%nat) (w 8%nat)) (w 14%nat)) (w 16%nat)) 1])
  end.

Definition SHA1_ScheduleMessage (inp : list Z) : list Z := sha1_extend 64 inp.

Definition sha1_k (round : Z) : Z :=
  if round <=? 19 then 0x5A827999
  else if round <=? 39 then 0x6ED9EBA1
  else if round <=? 59 then 0x8F1BBCDC
  else 0xCA62C1D6.

Definition sha1_round (st : Z * Z * Z * Z * Z) (rw : Z * Z) : Z * Z * Z * Z * Z :=
  let '(a, b, c, d, e) := st in
  let '(round, w) := rw in
  let f := SHA1_F round b c d in
  let t := u32 (SHA1_LRot32 a 5 + f + e + sha1_k round + w) in
  (t, a, SHA1_LRot32 b 30, c, d).

Definition SHA1_Rounds (h : list Z) (w : list Z) : list Z :=
  match h with
  | [h0; h1; h2; h3; h4] =>
      let '(a, b, c, d, e) := foldl sha1_round (h0, h1, h2, h3, h4) (zip (seqZ 0 80) w) in
      [u32 (h0 + a); u32 (h1 + b); u32 (h2 + c); u32 (h3 + d); u32 (h4 + e)]
  | _ => h
  end.

Definition sha1_compress (h words : list Z) : list Z :=
  SHA1_Rounds h (SHA1_ScheduleMessage words).

(** The rows of the table in the source. *)
Definition sha2_k : list Z := concat [
  [0x428a2f98; 0x71374491; 0xb5c0fbcf; 0xe9b5dba5; 0x3956c25b; 0x59f111f1; 0x923f82a4; 0xab1c5ed5];
  [0xd807aa98; 0x12835b01; 0x243185be; 0x550c7dc3; 0x72be5d74; 0x80deb1fe; 0x9bdc06a7; 0xc19bf174];
  [0xe49b69c1; 0xefbe4786; 0x0fc19dc6; 0x240ca1cc; 0x2de92c6f; 0x4a7484aa; 0x5cb0a9dc; 0x76f988da];
  [0x983e5152; 0xa831c66d; 0xb00327c8; 0xbf597fc7; 0xc6e00bf3; 0xd5a79147; 0x06ca6351; 0x14292967];
  [0x27b70a85; 0x2e1b2138; 0x4d2c6dfc; 0x53380d13; 0x650a7354; 0x766a0abb; 0x81c2c92e; 0x92722c85];
  [0xa2bfe8a1; 0xa81a664b; 0xc24b8b70; 0xc76c51a3; 0xd192e819; 0xd6990624; 0xf40e3585; 0x106aa070];
  [0x19a4c116; 0x1e376c08; 0x2748774c; 0x34b0bcb5; 0x391c0cb3; 0x4ed8aa4a; 0x5b9cca4f; 0x682e6ff3];
  [0x748f82ee; 0x78a5636f; 0x84c87814; 0x8cc70208; 0x90befffa; 0xa4506ceb; 0xbef9a3f7; 0xc67178f2]].

Fixpoint sha2_extend (n : nat) (out : list Z) : list Z :=
  match n with
  | O => out
  | S n' =>
      let i := length out in
      let w k := nth (i - k) out 0 in
      let o2 := w 2%nat in
      let o15 := w 15%nat in
      let s0 := Z.lxor (Z.lxor (SHA2_RRot32 o15 7) (SHA2_RRot32 o15 18)) (Z.shiftr o15 3) in
      let s1 := Z.lxor (Z.lxor (SHA2_RRot32 o2 17) (SHA2_RRot32 o2 19)) (Z.shiftr o2 10) in
      sha2_extend n' (out ++ [u32 (w 16%nat + s0 + w 7%nat + s1)])
  end.

Definition SHA2_ScheduleMessage (inp : list Z) : list Z := sha2_extend 48 inp.

Definition sha2_round (st : Z * Z * Z * Z * Z * Z * Z * Z) (kw : Z * Z) :=
  let '(a, b, c, d, e, f, g, h) := st in
  let '(k, w) := kw in
  let s1 := Z.lxor (Z.lxor (SHA2_RRot32 e 6) (SHA2_RRot32 e 11)) (SHA2_RRot32 e 25) in
  let ch := Z.lxor (Z.land e f) (Z.land (u32 (Z.lnot e)) g) in
  let t1 := u32 (h + s1 + ch + k + w) in
  let s0 := Z.lxor (Z.lxor (SHA2_RRot32 a 2) (SHA2_RRot32 a 13)) (SHA2_RRot32 a 22) in
  let ma := Z.lxor (Z.lxor (Z.land a b) (Z.land a c)) (Z.land b c) in
  let t2 := u32 (s0 + ma) in
  (u32 (t1 + t2), a, b, c, u32 (d + t1), e, f, g).

Definition SHA2_Rounds (s : list Z) (w : list Z) : list Z :=
  match s with
  | [h0; h1; h2; h3; h4; h5; h6; h7] =>
      let '(a, b, c, d, e, f, g, h) :=
        foldl sha2_round (h0, h1, h2, h3, h4, h5, h6, h7) (zip sha2_k w) in
      [u32 (h0 + a); u32 (h1 + b); u32 (h2 + c); u32 (h3 + d);
       u32 (h4 + e); u32 (h5 + f); u32 (h6 + g); u32 (h7 + h)]
  | _ => s
  end.

Definition sha2_compress (h words : list Z) : list Z :=
  SHA2_Rounds h (SHA2_ScheduleMessage words).

(** ** The digest loop *)

Record sha_state := mk_sha {
  sh_h : list Z;
  sh_total_len : Z;
  sh_w_len : Z;
  sh_w : list Z;
  sh_finalized : Z
}.

Section digest.
Context (compress : list Z → list Z → list Z).

(** The loop of [Digest]: [p] is the data that remains. *)
Fixpoint digest_loop (fuel : nat) (s : sha_state) (final : bool) (p : list Z)
    (trailing_bit_added : bool) : res (sha_state * Z) :=
  match fuel with
  | O => Fault OutOfFuel
  | S fuel' =>
      let b_copy := Z.min (u32 (64 - sh_w_len s)) (length p) in
      let b_left := u32 (64 - sh_w_len s - b_copy) in
      let w := splice (Z.to_nat (sh_w_len s)) (take (Z.to_nat b_copy) p) (sh_w s) in
      let p := drop (Z.to_nat b_copy) p in
      let w_len := u32 (sh_w_len s + b_copy) in
      if negb (b_left =? 0) && negb final then
        Ok (mk_sha (sh_h s) (sh_total_len s) w_len w (sh_finalized s), EOK)
      else
        let '(w, trailing_bit_added) :=
          if b_left =? 0 then (w, trailing_bit_added)
          else
            let w := splice (Z.to_nat w_len) (replicate (Z.to_nat b_left) 0) w in
            if trailing_bit_added then (w, true) else (splice (Z.to_nat w_len) [0x80] w, true) in
        let '(w, data_size_added) :=
          if 8 <? b_left then
            let total_bits := u64 (sh_total_len s * 8) in
            let w := splice 56 (le_bytes (HTOBE32 (Z.shiftr total_bits 32))) w in
            (splice 60 (le_bytes (HTOBE32 total_bits)) w, true)
          else (w, false) in
        let words := map HTOBE32 (le_words w) in
        let s := mk_sha (compress (sh_h s) words) (sh_total_len s) 0
                   (concat (map le_bytes words)) (sh_finalized s) in
        if data_size_added then
          Ok (mk_sha (map BETOH32 (sh_h s)) (sh_total_len s) (sh_w_len s) (sh_w s) (sh_finalized s), EOK)
        else digest_loop fuel' s final p trailing_bit_added
  end.

Definition Digest (s : sha_state) (final : bool) (p : list Z) : res (sha_state * Z) :=
  if negb (sh_finalized s =? 0) then Ok (s, EARGVAL)
  else
    let s := mk_sha (sh_h s) (u32 (sh_total_len s + length p)) (sh_w_len s) (sh_w s)
               (if final then 1 else 0) in
    digest_loop (length p / 64 + 3) s final p false.
End digest.

(** ** The interface of sha1.c and sha2.c *)

Definition SHA1_InitState : sha_state :=
  mk_sha [0x67452301; 0xEFCDAB89; 0x98BADCFE; 0x10325476; 0xC3D2E1F0] 0 0 (replicate 64 0) 0.

Definition SHA1_Digest : sha_state → bool → list Z → res (sha_state * Z) := Digest sha1_compress.

(** The bytes [GetHashVal] copies out, and its result. *)
Definition SHA1_GetHashVal (s : sha_state) (size : Z) : list Z * Z :=
  if sh_finalized s =? 0 then ([], EARGVAL)
  else let size := Z.min size 20 in
       (take (Z.to_nat size) (concat (map le_bytes (sh_h s))), size).

Definition digits : list Z := [48; 49; 50; 51; 52; 53; 54; 55; 56; 57; 97; 98; 99; 100; 101; 102].
Definition hex_digit (v : Z) : Z := nth (Z.to_nat v) digits 0.

(** The loop of [GetHashStr]: two digits per byte as far as [n] characters go. *)
Fixpoint hex_string (n : nat) (h : list Z) : list Z :=
  match n, h with
  | O, _ => []
  | S O, b :: _ => [hex_digit (Z.shiftr b 4)]
  | S (S n'), b :: h' => hex_digit (Z.shiftr b 4) :: hex_digit (Z.land b 0xf) :: hex_string n' h'
  | _, [] => []
  end.

Definition get_hash_str (s : sha_state) (char_cnt size : Z) : list Z * Z :=
  if sh_finalized s =? 0 then ([], EARGVAL)
  else if size =? 0 then ([], 0)
  else
    let size := if char_cnt + 1 <? size then char_cnt + 1 else size in
    let str := hex_string (Z.to_nat (size - 1)) (concat (map le_bytes (sh_h s))) ++ [0] in
    (str, Z.of_nat (length str)).

Definition SHA1_GetHashStr (s : sha_state) (size : Z) : list Z * Z := get_hash_str s 40 size.

Inductive sha2_type := SHA2_TYPE_224 | SHA2_TYPE_256.

Definition SHA2_InitState (type : sha2_type) : sha_state :=
  match type with
  | SHA2_TYPE_256 =>
      mk_sha [0x6a09e667; 0xbb67ae85; 0x3c6ef372; 0xa54ff53a; 0x510e527f; 0x9b05688c; 0x1f83d9ab;
              0x5be0cd19] 0 0 (replicate 64 0) 0
  | SHA2_TYPE_224 =>
      mk_sha [0xc1059ed8; 0x367cd507; 0x3070dd17; 0xf70e5939; 0xffc00b31; 0x68581511; 0x64f98fa7;
              0xbefa4fa4] 0 0 (replicate 64 0) 0
  end.

Definition SHA2_Digest : sha_state → bool → list Z → res (sha_state * Z) := Digest sha2_compress.

(** [SHA2_GetHashVal]: [byte_cnt] counts the digits, not the bytes; copying more
    than the 32 bytes of [h] reads past it. *)
Definition SHA2_GetHashVal (type : sha2_type) (s : sha_state) (size : Z) : res (list Z * Z) :=
  if sh_finalized s =? 0 then Ok ([], EARGVAL)
  else
    let byte_cnt := match type with SHA2_TYPE_224 => 7 * 4 * 2 | SHA2_TYPE_256 => 8 * 4 * 2 end in
    let size := Z.min size byte_cnt in
    if 32 <? size then Fault OutOfBounds
    else Ok (take (Z.to_nat size) (concat (map le_bytes (sh_h s))), size).

Definition SHA2_GetHashStr (type : sha2_type) (s : sha_state) (size : Z) : list Z * Z :=
  get_hash_str s (match type with SHA2_TYPE_224 => 7 * 4 * 2 | SHA2_TYPE_256 => 8 * 4 * 2 end) size.

(** ** The specification: padding of the standard *)

(** Cut a message into blocks of 64 bytes. *)
Fixpoint blocks_of (n : nat) (l : list Z) : list (list Z) :=
  match n with O => [] | S n' => take 64 l :: blocks_of n' (drop 64 l) end.
Definition blocks (l : list Z) : list (list Z) := blocks_of (length l / 64) l.

(** A one bit, zeros, and the length in bits as a 64-bit big-endian number. *)
Definition sha_padding (len : nat) : list Z :=
  [0x80] ++ replicate ((119 - len mod 64) mod 64) 0
    ++ be_bytes (len * 8 / 4294967296) ++ be_bytes (len * 8).

Definition sha_spec (compress : list Z → list Z → list Z) (h0 : list Z) (msg : list Z) : list Z :=
  foldl (λ h b, compress h (be_words b)) h0 (blocks (msg ++ sha_padding (length msg))).

(** Known hashes of "abc" and of the empty message. *)
Example sha1_abc :
  ('(s, _) ← SHA1_Digest SHA1_InitState true [97; 98; 99];
   Ok (take 8 (SHA1_GetHashStr s 100).1)) = Ok [97; 57; 57; 57; 51; 101; 51; 54].
Proof. vm_compute. reflexivity. Qed.

Example sha256_empty :
  ('(s, _) ← SHA2_Digest (SHA2_InitState SHA2_TYPE_256) true [];
   '(v, n) ← SHA2_GetHashVal SHA2_TYPE_256 s 4; Ok (v, n)) = Ok ([0xe3; 0xb0; 0xc4; 0x42], 4).
Proof. vm_compute. reflexivity. Qed.

Example sha1_abc_spec :
  sha_spec sha1_compress (sh_h SHA1_InitState) [97; 98; 99] =
  [0xa9993e36; 0x4706816a; 0xba3e2571; 0x7850c26c; 0x9cd0d89d].
Proof. vm_compute. reflexivity. Qed.

(** ** Lemmas on buffers *)

(** Induction four elements at a time. *)
Lemma list_ind4 {A} (P : list A → Prop) :
  (∀ l, (length l < 4)%nat → P l) →
  (∀ a b c d l, P l → P (a :: b :: c :: d :: l)) → ∀ l, P l.
Proof.
  intros H0 H4. fix IH 1. intros [|a [|b [|c [|d l]]]]; try (apply H0; simpl; lia). apply H4, IH.
Qed.

Lemma short_words l : (length l < 4)%nat → le_words l = [] ∧ be_words l = [].
Proof. destruct l as [|a [|b [|c [|d l]]]]; simpl; try done. lia. Qed.

Lemma le_bytes_HTOBE32 x : le_bytes (HTOBE32 x) = be_bytes x.
Proof.
  unfold le_bytes, be_bytes. rewrite !HTOBE32_bytes. unfold byte.
  change (256 ^ 0) with 1. change (256 ^ 1) with 256. change (256 ^ 2) with 65536.
  change (256 ^ 3) with 16777216. repeat (f_equal; [lia|]). f_equal. lia.
Qed.

Lemma HTOBE32_le_words l : Forall is_u8 l → map HTOBE32 (le_words l) = be_words l.
Proof.
  induction l as [l Hl|a b c d l IH] using list_ind4; intros Hu.
  { destruct (short_words l Hl) as [-> ->]. done. }
  apply Forall_cons in Hu as [Ha Hu]. apply Forall_cons in Hu as [Hb Hu].
  apply Forall_cons in Hu as [Hc Hu]. apply Forall_cons in Hu as [Hd Hu].
  simpl. f_equal; [|by apply IH]. rewrite HTOBE32_bytes. unfold byte, is_u8 in *.
  change (256 ^ 0) with 1. change (256 ^ 1) with 256. change (256 ^ 2) with 65536.
  change (256 ^ 3) with 16777216. lia.
Qed.

Lemma le_bytes_u8 x : Forall is_u8 (le_bytes x).
Proof. unfold le_bytes, byte, is_u8. repeat constructor; lia. Qed.

Lemma be_bytes_u8 x : Forall is_u8 (be_bytes x).
Proof. unfold be_bytes, byte, is_u8. repeat constructor; lia. Qed.

Lemma le_words_length l : (length l mod 4 = 0)%nat → (4 * length (le_words l) = length l)%nat.
Proof.
  induction l as [l Hl|a b c d l IH] using list_ind4; intros Hm.
  { rewrite Nat.mod_small in Hm by done. by destruct l. }
  simpl length in *. replace (S (S (S (S (length l)))))%nat with (length l + 1 * 4)%nat in Hm by lia.
  rewrite Nat.Div0.mod_add in Hm. specialize (IH Hm). lia.
Qed.

Lemma concat_le_bytes_length l : length (concat (map le_bytes l)) = (4 * length l)%nat.
Proof. induction l as [|x l IH]; simpl; lia. Qed.

Lemma concat_le_bytes_u8 l : Forall is_u8 (concat (map le_bytes l)).
Proof.
  induction l as [|x l IH]; simpl; [done|].
  apply (Forall_app is_u8 (le_bytes x)). split; [apply le_bytes_u8|done].
Qed.

Section splice.
Context (i : nat) (k l : list Z).
Hypothesis Hi : (i + length k ≤ length l)%nat.

Lemma splice_words_length : length (splice i k l) = length l.
Proof. unfold splice. rewrite !length_app, length_take, length_drop. lia. Qed.

Lemma splice_take : take (i + length k) (splice i k l) = take i l ++ k.
Proof.
  unfold splice. rewrite app_assoc. apply take_app_length'.
  rewrite length_app, length_take. lia.
Qed.

Lemma splice_full : (i + length k = length l)%nat → splice i k l = take i l ++ k.
Proof. intros E. unfold splice. rewrite drop_ge by lia. by rewrite app_nil_r. Qed.
End splice.

(** ** The loop against the specification *)
Section digest_ok.
Context (compress : list Z → list Z → list Z) (h0 : list Z).

Definition blk (h b : list Z) : list Z := compress h (be_words b).

(** The state after the blocks [bs] were processed, with the bytes [t] in the
    buffer. *)
Definition holds_msg (s : sha_state) (bs : list (list Z)) (t : list Z) : Prop :=
  sh_h s = foldl blk h0 bs ∧ sh_w_len s = Z.of_nat (length t) ∧ (length t < 64)%nat ∧
  length (sh_w s) = 64%nat ∧ take (length t) (sh_w s) = t ∧ Forall is_u8 t.

(** A full buffer is processed. *)
Lemma digest_step fuel s final bs t p tr :
  holds_msg s bs t → Forall is_u8 p → (64 ≤ length t + length p)%nat → length p < 4294967296 →
  ∃ s', digest_loop compress (S fuel) s final p tr
        = digest_loop compress fuel s' final (drop (64 - length t) p) tr ∧
    holds_msg s' (bs ++ [t ++ take (64 - length t) p]) [] ∧
    sh_total_len s' = sh_total_len s ∧ sh_finalized s' = sh_finalized s.
Proof.
  intros (Hh & Hwl & Ht & Hw & Htk & Htu) Hp Hlen Hp32. simpl. rewrite Hwl.
  set (c := (64 - length t)%nat).
  assert (Z.min (u32 (64 - length t)) (length p) = Z.of_nat c) as ->.
  { rewrite u32_small by (unfold is_u32; lia). lia. }
  assert (u32 (64 - length t - c) = 0) as -> by (unfold c; rewrite u32_small; unfold is_u32; lia).
  simpl. rewrite !Nat2Z.id.
  assert (length (take c p) = c) as Hc by (rewrite length_take; lia).
  assert (splice (length t) (take c p) (sh_w s) = t ++ take c p) as ->.
  { rewrite splice_full by (rewrite Hc; lia). by rewrite Htk. }
  assert (Forall is_u8 (t ++ take c p)) as Hu.
  { apply Forall_app. split; [done|]. by apply Forall_take. }
  rewrite HTOBE32_le_words by done.
  eexists. split; [done|]. split; [|done].
  split; [simpl; by rewrite foldl_app, Hh|]. split; [done|]. split; [simpl; lia|].
  split; [|done]. simpl. rewrite concat_le_bytes_length, <- HTOBE32_le_words, length_map by done.
  rewrite le_words_length; rewrite length_app, Hc; [lia|].
  by replace (length t + c)%nat with 64%nat by lia.
Qed.

(** What fits is stored. *)
Lemma digest_store fuel s bs t p tr :
  holds_msg s bs t → Forall is_u8 p → (length t + length p < 64)%nat →
  ∃ s', digest_loop compress (S fuel) s false p tr = Ok (s', EOK) ∧ holds_msg s' bs (t ++ p) ∧
    sh_total_len s' = sh_total_len s ∧ sh_finalized s' = sh_finalized s.
Proof.
  intros (Hh & Hwl & Ht & Hw & Htk & Htu) Hp Hlen. simpl. rewrite Hwl.
  assert (Z.min (u32 (64 - length t)) (length p) = length p) as ->.
  { rewrite u32_small by (unfold is_u32; lia). lia. }
  rewrite (u32_small (64 - length t - length p)) by (unfold is_u32; lia).
  destruct (Z.eqb_spec (64 - length t - length p) 0); [lia|]. simpl.
  rewrite !Nat2Z.id, take_ge by lia. eexists. split; [done|]. split; [|done].
  split; [done|]. simpl. rewrite length_app. split; [rewrite u32_small by (unfold is_u32; lia); lia|].
  split; [done|]. split; [rewrite splice_words_length; [done|lia]|]. split.
  - rewrite splice_take by lia. by rewrite Htk.
  - by apply Forall_app.
Qed.

Lemma digest_absorb fuel : ∀ s bs t p tr,
  holds_msg s bs t → Forall is_u8 p → length p < 4294967296 →
  (length t + length p < 64 * fuel)%nat →
  ∃ s' bs' t', digest_loop compress fuel s false p tr = Ok (s', EOK) ∧ holds_msg s' bs' t' ∧
    concat bs' ++ t' = concat bs ++ t ++ p ∧
    (Forall (λ b, length b = 64%nat) bs → Forall (λ b, length b = 64%nat) bs') ∧
    sh_total_len s' = sh_total_len s ∧ sh_finalized s' = sh_finalized s.
Proof.
  induction fuel as [|fuel IH]; intros s bs t p tr Hs Hp Hp32 Hf; [lia|].
  destruct (decide (length t + length p < 64)%nat) as [Hlt|Hge].
  - destruct (digest_store fuel s bs t p tr Hs Hp Hlt) as (s' & Hd & Hs' & ? & ?).
    exists s', bs, (t ++ p). done.
  - destruct (digest_step fuel s false bs t p tr Hs Hp ltac:(lia) Hp32) as (s1 & -> & Hs1 & Ht1 & Hf1).
    assert (length t < 64)%nat by apply Hs.
    destruct (IH s1 _ [] (drop (64 - length t) p) tr Hs1) as (s' & bs' & t' & Hd & Hs' & Hc & Hb & Ht' & Hf').
    + by apply Forall_drop.
    + rewrite length_drop. lia.
    + rewrite length_drop. simpl. lia.
    + exists s', bs', t'. split; [done|]. split; [done|]. split; [|split; [|split; congruence]].
      * rewrite Hc, concat_app. simpl. rewrite app_nil_r, <- !app_assoc. by rewrite take_drop.
      * intros Hbs. apply Hb, Forall_app. split; [done|]. constructor; [|done].
        rewrite length_app, length_take. lia.
Qed.

(** *** The last blocks *)

Definition size_field (total_len : Z) : list Z :=
  be_bytes (Z.shiftr (u64 (total_len * 8)) 32) ++ be_bytes (u64 (total_len * 8)).

Definition last_blocks (x : list Z) (total_len : Z) : list (list Z) :=
  if decide (length x ≤ 55)%nat
  then [x ++ [0x80] ++ replicate (55 - length x) 0 ++ size_field total_len]
  else [x ++ [0x80] ++ replicate (63 - length x) 0; replicate 56 0 ++ size_field total_len].

Lemma splice_size w total_len :
  length w = 64%nat →
  splice 60 (le_bytes (HTOBE32 (u64 (total_len * 8))))
    (splice 56 (le_bytes (HTOBE32 (Z.shiftr (u64 (total_len * 8)) 32))) w)
  = take 56 w ++ size_field total_len.
Proof.
  intros Hw. rewrite !le_bytes_HTOBE32. set (a := be_bytes (Z.shiftr _ _)). set (b := be_bytes _).
  assert (length a = 4%nat ∧ length b = 4%nat) as [Ha Hb] by done.
  rewrite splice_full; rewrite ?splice_words_length; rewrite ?Ha, ?Hb, ?Hw; try lia.
  pose proof (splice_take 56 a w ltac:(lia)) as E. rewrite Ha in E.
  change (56 + 4)%nat with 60%nat in E. rewrite E. unfold size_field. by rewrite <- app_assoc.
Qed.

Lemma pad_u8 x n total_len :
  Forall is_u8 x → Forall is_u8 (x ++ [0x80] ++ replicate n 0 ++ size_field total_len) ∧
  Forall is_u8 (x ++ [0x80] ++ replicate n 0) ∧
  Forall is_u8 (replicate n 0 ++ size_field total_len).
Proof.
  intros Hx. assert (Forall is_u8 (size_field total_len)) as Hs.
  { apply Forall_app. split; apply be_bytes_u8. }
  assert (Forall is_u8 (replicate n 0)) as Hr by (apply Forall_replicate; done).
  assert (Forall is_u8 [0x80]) as H80 by (repeat constructor; done).
  rewrite !Forall_app. tauto.
Qed.

(** Zeros and the one bit behind the message bytes. *)
Lemma splice_pad x w :
  (length x < 64)%nat → length w = 64%nat → take (length x) w = x →
  splice (length x) [0x80] (splice (length x) (replicate (64 - length x) 0) w)
  = x ++ [0x80] ++ replicate (63 - length x) 0.
Proof.
  intros Hx Hw Htk. rewrite (splice_full _ (replicate _ _)) by (rewrite length_replicate; lia).
  rewrite Htk. unfold splice. rewrite take_app_length. f_equal. f_equal.
  rewrite drop_app_ge by (simpl; lia). simpl.
  rewrite drop_replicate. f_equal. lia.
Qed.

Lemma digest_last fuel s bs t p :
  holds_msg s bs t → Forall is_u8 p → (length t + length p < 64)%nat →
  ∃ s', digest_loop compress (S (S fuel)) s true p false = Ok (s', EOK) ∧
    sh_h s' = map BETOH32 (foldl blk h0 (bs ++ last_blocks (t ++ p) (sh_total_len s))) ∧
    sh_finalized s' = sh_finalized s.
Proof.
  intros (Hh & Hwl & Ht & Hw & Htk & Htu) Hp Hlen.
  set (x := t ++ p). assert (length x = (length t + length p)%nat) as Hx by apply length_app.
  assert (Forall is_u8 x) as Hxu by (by apply Forall_app).
  cbn [digest_loop]. rewrite Hwl.
  assert (Z.min (u32 (64 - length t)) (length p) = length p) as ->.
  { rewrite u32_small by (unfold is_u32; lia). lia. }
  rewrite (u32_small (64 - length t - length p)) by (unfold is_u32; lia).
  destruct (Z.eqb_spec (64 - length t - length p) 0); [lia|]. rewrite andb_false_r.
  rewrite (u32_small (length t + length p)) by (unfold is_u32; lia).
  rewrite !Nat2Z.id, take_ge, drop_ge by lia.
  replace (Z.to_nat (length t + length p)) with (length x) by lia.
  replace (Z.to_nat (64 - length t - length p)) with (64 - length x)%nat by lia.
  set (w := splice (length t) p (sh_w s)).
  assert (length w = 64%nat) as Hw64 by (unfold w; rewrite splice_words_length; lia).
  assert (take (length x) w = x) as Hwx.
  { unfold w. rewrite Hx, splice_take by lia. by rewrite Htk. }
  cbv iota. rewrite (splice_pad x w) by (done || lia).
  set (pw := x ++ [0x80] ++ replicate (63 - length x) 0).
  assert (length pw = 64%nat) as Hpw.
  { unfold pw. rewrite !length_app, length_replicate. simpl. lia. }
  unfold last_blocks. destruct (decide (length x ≤ 55)%nat) as [H55|H55].
  - destruct (Z.ltb_spec 8 (64 - length t - length p)); [|lia].
    cbv zeta iota. rewrite splice_size by done.
    assert (take 56 pw = x ++ [0x80] ++ replicate (55 - length x) 0) as Htp.
    { unfold pw. rewrite take_app_ge by lia. f_equal.
      replace (56 - length x)%nat with (1 + (55 - length x))%nat by lia. simpl. f_equal.
      rewrite take_replicate. f_equal. lia. }
    rewrite Htp, <- !app_assoc. destruct (pad_u8 x (55 - length x) (sh_total_len s) Hxu) as [Hu _].
    rewrite HTOBE32_le_words by exact Hu. eexists. split; [done|]. split; [|done].
    simpl. by rewrite foldl_app, Hh.
  - destruct (Z.ltb_spec 8 (64 - length t - length p)); [lia|].
    cbv zeta iota. cbn [sh_w_len sh_h sh_total_len sh_w sh_finalized].
    destruct (pad_u8 x (63 - length x) (sh_total_len s) Hxu) as (_ & Hu & _).
    rewrite (HTOBE32_le_words pw) by exact Hu.
    change (u32 (64 - 0)) with 64. change (length []) with O. change (Z.min 64 0%nat) with 0.
    change (u32 (64 - 0 - 0)) with 64. change (64 =? 0) with false. cbv iota.
    change (8 <? 64) with true. change (u32 (0 + 0)) with 0. simpl Z.to_nat. cbv zeta iota.
    set (w2 := concat (map le_bytes (be_words pw))).
    assert (length w2 = 64%nat) as Hw2.
    { unfold w2. rewrite concat_le_bytes_length, <- HTOBE32_le_words, length_map by exact Hu.
      by rewrite le_words_length; rewrite Hpw. }
    assert (splice 0 (replicate 64 0) (splice 0 (take 0 []) w2) = replicate 64 0) as Hz.
    { rewrite splice_full; [done|..]; rewrite splice_words_length by (simpl; lia); rewrite Hw2; simpl; lia. }
    change (negb false && negb true) with false. cbv iota.
    change (splice (Z.to_nat 0) (replicate (Z.to_nat 64) 0) (splice (Z.to_nat 0) (take (Z.to_nat 0) []) w2))
      with (splice 0 (replicate 64 0) (splice 0 (take 0 []) w2)).
    rewrite Hz, splice_size by done.
    change (take 56 (replicate 64 0)) with (replicate 56 0).
    destruct (pad_u8 x 56 (sh_total_len s) Hxu) as (_ & _ & Hu2).
    rewrite HTOBE32_le_words by exact Hu2. eexists. split; [done|]. split; [|done].
    cbn [sh_h]. rewrite foldl_app. simpl foldl. by rewrite Hh.
Qed.

Lemma digest_final fuel : ∀ s bs t p,
  holds_msg s bs t → Forall is_u8 p → length p < 4294967296 →
  Forall (λ b, length b = 64%nat) bs → (length t + length p < 64 * fuel)%nat →
  ∃ s' bs' x, digest_loop compress (S fuel) s true p false = Ok (s', EOK) ∧
    sh_h s' = map BETOH32 (foldl blk h0 (bs' ++ last_blocks x (sh_total_len s))) ∧
    Forall (λ b, length b = 64%nat) bs' ∧ (length x < 64)%nat ∧ concat bs' ++ x = concat bs ++ t ++ p ∧
    sh_finalized s' = sh_finalized s.
Proof.
  induction fuel as [|fuel IH]; intros s bs t p Hs Hp Hp32 Hbs Hf; [lia|].
  destruct (decide (length t + length p < 64)%nat) as [Hlt|Hge].
  - destruct (digest_last fuel s bs t p Hs Hp Hlt) as (s' & Hd & Hh & Hfin).
    exists s', bs, (t ++ p). rewrite length_app. done.
  - destruct (digest_step (S fuel) s true bs t p false Hs Hp ltac:(lia) Hp32)
      as (s1 & -> & Hs1 & Ht1 & Hf1).
    assert (length t < 64)%nat by apply Hs.
    destruct (IH s1 _ [] (drop (64 - length t) p) Hs1) as (s' & bs' & x & Hd & Hh & Hb & Hx & Hc & Hfin).
    + by apply Forall_drop.
    + rewrite length_drop. lia.
    + apply Forall_app. split; [done|]. constructor; [|done]. rewrite length_app, length_take. lia.
    + rewrite length_drop. simpl. lia.
    + exists s', bs', x. split; [done|]. rewrite <- Ht1. split; [done|]. split; [done|]. split; [done|].
      split; [|congruence]. rewrite Hc, concat_app. simpl.
      rewrite app_nil_r, <- !app_assoc. by rewrite take_drop.
Qed.
End digest_ok.

(** ** Whole messages *)

Lemma blocks_app (b l : list Z) : length b = 64%nat → blocks (b ++ l) = b :: blocks l.
Proof.
  intros Hb. unfold blocks. rewrite length_app, Hb.
  replace ((64 + length l) / 64)%nat with (S (length l / 64)).
  - simpl. by rewrite take_app_length', drop_app_length' by done.
  - replace (64 + length l)%nat with (length l + 1 * 64)%nat by lia. rewrite Nat.div_add by lia. lia.
Qed.

Lemma blocks_concat (bs : list (list Z)) : Forall (λ b, length b = 64%nat) bs → blocks (concat bs) = bs.
Proof.
  induction 1 as [|b bs Hb _ IH]; [done|]. simpl. rewrite blocks_app by done. by rewrite IH.
Qed.

Lemma concat_blocks_length (bs : list (list Z)) :
  Forall (λ b, length b = 64%nat) bs → length (concat bs) = (64 * length bs)%nat.
Proof. induction 1 as [|b bs Hb _ IH]; simpl; [done|]. rewrite length_app, IH. lia. Qed.

Lemma size_field_ok n :
  n < 4294967296 → 0 ≤ n → size_field n = be_bytes (n * 8 / 4294967296) ++ be_bytes (n * 8).
Proof.
  intros Hn H0. unfold size_field. assert (u64 (n * 8) = n * 8) as -> by word_lia.
  by rewrite Z.shiftr_div_pow2 by lia.
Qed.

(** The blocks the loop makes of the end of a message are those of the padded
    message. *)
Lemma last_blocks_ok bs x msg :
  Forall (λ b, length b = 64%nat) bs → (length x < 64)%nat → msg = concat bs ++ x →
  length msg < 4294967296 →
  blocks (msg ++ sha_padding (length msg)) = bs ++ last_blocks x (length msg).
Proof.
  intros Hbs Hx -> Hlen. rewrite <- app_assoc.
  assert (length (concat bs ++ x) mod 64 = length x)%nat as Hmod.
  { rewrite length_app, concat_blocks_length by done.
    replace (64 * length bs + length x)%nat with (length x + length bs * 64)%nat by lia.
    rewrite Nat.Div0.mod_add. by apply Nat.mod_small. }
  unfold sha_padding. rewrite Hmod, <- size_field_ok by lia.
  set (n := length (concat bs ++ x)) in *. unfold last_blocks.
  assert (length (size_field n) = 8%nat) as Hsf by done.
  rewrite <- (blocks_concat (bs ++ _)).
  - rewrite concat_app. f_equal. f_equal.
    destruct (decide (length x ≤ 55)%nat); cbn [concat]; rewrite app_nil_r, <- ?app_assoc.
    + do 2 f_equal. replace ((119 - length x) mod 64)%nat with (55 - length x)%nat; [done|].
      replace (119 - length x)%nat with (55 - length x + 1 * 64)%nat by lia.
      rewrite Nat.Div0.mod_add. symmetry. apply Nat.mod_small. lia.
    + do 2 f_equal. rewrite app_assoc, <- replicate_add. do 2 f_equal.
      rewrite Nat.mod_small by lia. lia.
  - apply Forall_app. split; [done|]. destruct (decide (length x ≤ 55)%nat).
    + constructor; [|done]. rewrite !length_app, length_replicate, Hsf. simpl. lia.
    + constructor; [|constructor; [|done]]; rewrite !length_app, !length_replicate; [simpl|rewrite Hsf]; lia.
Qed.

Section streams.
Context (compress : list Z → list Z → list Z) (h0 : list Z).

(** Feed chunks that are not the last. *)
Fixpoint feed (s : sha_state) (chunks : list (list Z)) : res sha_state :=
  match chunks with
  | [] => Ok s
  | c :: chunks' => '(s, ec) ← Digest compress s false c; if ec =? EOK then feed s chunks' else Fault AssertFailed
  end.

(** The state after the message [msg] was fed. *)
Definition absorbed (s : sha_state) (msg : list Z) : Prop :=
  ∃ bs t, holds_msg compress h0 s bs t ∧ Forall (λ b, length b = 64%nat) bs ∧ msg = concat bs ++ t ∧
          sh_total_len s = length msg ∧ sh_finalized s = 0.

Lemma fuel_enough t n : (t < 64)%nat → (t + n < 64 * (n / 64 + 2))%nat.
Proof. intros Ht. pose proof (Nat.div_mod n 64 ltac:(lia)). pose proof (Nat.mod_upper_bound n 64 ltac:(lia)). lia. Qed.

Lemma Digest_absorb s msg p :
  absorbed s msg → Forall is_u8 p → length msg + length p < 4294967296 →
  ∃ s', Digest compress s false p = Ok (s', EOK) ∧ absorbed s' (msg ++ p).
Proof.
  intros (bs & t & Hs & Hbs & -> & Htot & Hfin) Hp Hlen. unfold Digest. rewrite Hfin. simpl.
  rewrite Htot, u32_small by (unfold is_u32; lia).
  assert (length t < 64)%nat as Ht by apply Hs.
  set (s1 := mk_sha _ _ _ _ _).
  pose proof (fuel_enough (length t) (length p) Ht) as Hfuel.
  destruct (digest_absorb compress h0 (length p / 64 + 3) s1 bs t p false Hs Hp ltac:(lia) ltac:(lia))
    as (s' & bs' & t' & Hd & Hs' & Hc & Hb & Htl & Hf).
  exists s'. split; [exact Hd|]. exists bs', t'. split; [done|]. split; [by apply Hb|].
  split; [by rewrite Hc, <- app_assoc|]. split; [|by rewrite Hf].
  rewrite Htl. unfold s1. cbn [sh_total_len]. rewrite !length_app in *. lia.
Qed.

Lemma feed_ok chunks : ∀ s msg,
  absorbed s msg → Forall (Forall is_u8) chunks → length msg + length (concat chunks) < 4294967296 →
  ∃ s', feed s chunks = Ok s' ∧ absorbed s' (msg ++ concat chunks).
Proof.
  induction chunks as [|c chunks IH]; intros s msg Hs Hu Hlen; simpl.
  { exists s. by rewrite app_nil_r. }
  apply Forall_cons in Hu as [Hc Hu]. simpl in Hlen. rewrite length_app in Hlen.
  destruct (Digest_absorb s msg c Hs Hc ltac:(lia)) as (s1 & -> & Hs1). rewrite bind_Ok. simpl.
  destruct (IH s1 _ Hs1 Hu) as (s' & -> & Hs'); [rewrite length_app; lia|].
  exists s'. by rewrite app_assoc.
Qed.

Lemma Digest_final s msg p :
  absorbed s msg → Forall is_u8 p → length msg + length p < 4294967296 →
  ∃ s', Digest compress s true p = Ok (s', EOK) ∧
    sh_h s' = map BETOH32 (sha_spec compress h0 (msg ++ p)) ∧ sh_finalized s' = 1.
Proof.
  intros (bs & t & Hs & Hbs & -> & Htot & Hfin) Hp Hlen. unfold Digest. rewrite Hfin. change (negb (0 =? 0)) with false. cbv iota zeta.
  rewrite Htot, u32_small by (unfold is_u32; lia).
  assert (length t < 64)%nat as Ht by apply Hs.
  set (s1 := mk_sha _ _ _ _ _).
  pose proof (fuel_enough (length t) (length p) Ht) as Hfuel.
  replace (length p / 64 + 3)%nat with (S (length p / 64 + 2)) by lia.
  destruct (digest_final compress h0 (length p / 64 + 2) s1 bs t p Hs Hp ltac:(lia) Hbs Hfuel)
    as (s' & bs' & x & Hd & Hh & Hb & Hx & Hc & Hf).
  exists s'. split; [exact Hd|]. split; [|by rewrite Hf].
  rewrite Hh. unfold sha_spec. rewrite (last_blocks_ok bs' x); try done.
  - unfold s1. cbn [sh_total_len]. rewrite !length_app. do 4 f_equal. lia.
  - by rewrite Hc, <- app_assoc.
  - rewrite length_app. lia.
Qed.
End streams.

Lemma init_absorbed compress h : absorbed compress h (mk_sha h 0 0 (replicate 64 0) 0) [].
Proof.
  exists [], []. split; [|done]. split; [done|]. split; [done|]. split; [simpl; lia|]. done.
Qed.

(** The stored state holds the hash in the byte order of the standard. *)
Lemma hash_bytes h : concat (map le_bytes (map BETOH32 h)) = concat (map be_bytes h).
Proof.
  induction h as [|x h IH]; [done|]. cbn [map concat]. rewrite IH. f_equal. apply le_bytes_HTOBE32.
Qed.

Lemma foldl_length {A} (f : list Z → A → list Z) n l :
  (∀ h b, length h = n → length (f h b) = n) → ∀ h, length h = n → length (foldl f h l) = n.
Proof. intros Hf. induction l as [|b l IH]; intros h Hh; simpl; [done|]. by apply IH, Hf. Qed.

Lemma sha1_spec_length msg : length (sha_spec sha1_compress (sh_h SHA1_InitState) msg) = 5%nat.
Proof.
  apply foldl_length; [|done]. intros h b Hh. unfold sha1_compress, SHA1_Rounds.
  destruct h as [|h0 [|h1 [|h2 [|h3 [|h4 [|]]]]]]; try done.
  by destruct (foldl sha1_round _ _) as [[[[? ?] ?] ?] ?].
Qed.

Lemma sha2_spec_length type msg : length (sha_spec sha2_compress (sh_h (SHA2_InitState type)) msg) = 8%nat.
Proof.
  apply foldl_length; [|by destruct type]. intros h b Hh. unfold sha2_compress, SHA2_Rounds.
  destruct h as [|h0 [|h1 [|h2 [|h3 [|h4 [|h5 [|h6 [|h7 [|]]]]]]]]]; try done.
  by destruct (foldl sha2_round _ _) as [[[[[[[? ?] ?] ?] ?] ?] ?] ?].
Qed.

Lemma concat_be_bytes_length l : length (concat (map be_bytes l)) = (4 * length l)%nat.
Proof. induction l as [|x l IH]; simpl; lia. Qed.

(** ** Properties *)

(** C32: However a message is cut into chunks, feeding them to [SHA1_Digest] and
    the last one with [final] set terminates and leaves the hash of the padded
    message, which [SHA1_GetHashVal] hands out in big-endian order; a finished
    state takes no more data. *)
Theorem SHA1_streaming chunks last more :
  Forall (Forall is_u8) chunks → Forall is_u8 last → length (concat chunks) + length last < 4294967296 →
  ∃ s s', feed sha1_compress SHA1_InitState chunks = Ok s ∧ SHA1_Digest s true last = Ok (s', EOK) ∧
    SHA1_GetHashVal s' 20 =
      (concat (map be_bytes (sha_spec sha1_compress (sh_h SHA1_InitState) (concat chunks ++ last))), 20) ∧
    SHA1_Digest s' true more = Ok (s', EARGVAL).
Proof.
  intros Hc Hl Hlen.
  destruct (feed_ok sha1_compress (sh_h SHA1_InitState) chunks SHA1_InitState []
    (init_absorbed _ _) Hc ltac:(simpl; lia)) as (s & Hs & Ha).
  destruct (Digest_final sha1_compress (sh_h SHA1_InitState) s _ last Ha Hl Hlen) as (s' & Hd & Hh & Hf).
  exists s, s'. split; [done|]. split; [done|]. unfold SHA1_GetHashVal, SHA1_Digest, Digest.
  rewrite Hf, Hh, hash_bytes. simpl. split; [|done].
  rewrite take_ge; [done|]. rewrite concat_be_bytes_length, sha1_spec_length. lia.
Qed.

(** The same for [SHA2_Digest], of both sizes.  [SHA2_GetHashVal] hands out
    up to 32 bytes of it; asked for more it reads past the state words, because
    it counts hexadecimal digits instead of bytes. *)
Theorem SHA2_streaming type chunks last size :
  Forall (Forall is_u8) chunks → Forall is_u8 last → length (concat chunks) + length last < 4294967296 →
  ∃ s s', feed sha2_compress (SHA2_InitState type) chunks = Ok s ∧ SHA2_Digest s true last = Ok (s', EOK) ∧
    (0 ≤ size ≤ 32 → SHA2_GetHashVal type s' size = Ok
      (take (Z.to_nat size) (concat (map be_bytes
        (sha_spec sha2_compress (sh_h (SHA2_InitState type)) (concat chunks ++ last)))), size)) ∧
    (32 < size → SHA2_GetHashVal type s' size = Fault OutOfBounds).
Proof.
  intros Hc Hl Hlen.
  destruct (feed_ok sha2_compress (sh_h (SHA2_InitState type)) chunks (SHA2_InitState type) []) as (s & Hs & Ha).
  { destruct type; apply init_absorbed. }
  { done. }
  { simpl; lia. }
  destruct (Digest_final sha2_compress (sh_h (SHA2_InitState type)) s _ last Ha Hl Hlen) as (s' & Hd & Hh & Hf).
  exists s, s'. split; [done|]. split; [done|]. unfold SHA2_GetHashVal. rewrite Hf, Hh, hash_bytes. simpl.
  split; intros Hsz.
  - replace (Z.min size _) with size by (destruct type; lia).
    destruct (Z.ltb_spec 32 size); [lia|done].
  - destruct type; rewrite (proj2 (Z.ltb_lt 32 _)) by lia; done.
Qed.

(** ** Witnesses *)

Lemma SHA1_streaming_witness :
  ∃ s s', feed sha1_compress SHA1_InitState [[97]; [98]] = Ok s ∧ SHA1_Digest s true [99] = Ok (s', EOK) ∧
    (SHA1_GetHashVal s' 20).2 = 20.
Proof.
  destruct (SHA1_streaming [[97]; [98]] [99] []) as (s & s' & Hf & Hd & Hv & _).
  - repeat constructor; done.
  - repeat constructor; done.
  - simpl; lia.
  - exists s, s'. rewrite Hv. exact (conj Hf (conj Hd eq_refl)).
Defined.

Lemma SHA2_streaming_witness :
  ∃ s s', feed sha2_compress (SHA2_InitState SHA2_TYPE_224) [[97]] = Ok s ∧
    SHA2_Digest s true [99] = Ok (s', EOK) ∧ SHA2_GetHashVal SHA2_TYPE_224 s' 40 = Fault OutOfBounds.
Proof.
  destruct (SHA2_streaming SHA2_TYPE_224 [[97]] [99] 40) as (s & s' & Hf & Hd & _ & Hv).
  - repeat constructor; done.
  - repeat constructor; done.
  - simpl; lia.
  - exists s, s'. exact (conj Hf (conj Hd (Hv ltac:(lia)))).
Defined.
