(* ===== verification/Frames.v ===== *)
(** * Frame headers (net/tcpip/*_frame.h, eth_addr.h, ip_addr.h)

    A packed header is a range of bytes in memory and a header pointer its
    address.  Each accessor reads or writes its field there.  Hardware addresses
    are lists of six bytes, internet addresses 32-bit words. *)
From S2P Require Import Prelude Words.

(** ** eth_frame.h *)

Definition TCPIP_ETH_ETHTYPE_IP : Z := 0x0800.
Definition TCPIP_ETH_ETHTYPE_ARP : Z := 0x0806.
Definition sizeof_eth : Z := 14.

(** Assignment of the six bytes of an address. *)
Definition store_mac (m : mem) (a : Z) (mac : list Z) : res mem :=
  m ← store8 m a (mac !!! 0%nat); m ← store8 m (a + 1) (mac !!! 1%nat);
  m ← store8 m (a + 2) (mac !!! 2%nat); m ← store8 m (a + 3) (mac !!! 3%nat);
  m ← store8 m (a + 4) (mac !!! 4%nat); store8 m (a + 5) (mac !!! 5%nat).

Definition load_mac (m : mem) (a : Z) : res (list Z) :=
  b0 ← load8 m a; b1 ← load8 m (a + 1); b2 ← load8 m (a + 2);
  b3 ← load8 m (a + 3); b4 ← load8 m (a + 4); b5 ← load8 m (a + 5);
  Ok [b0; b1; b2; b3; b4; b5].

Definition TCPIPEthFrame_SetDA (m : mem) (eth : Z) (da : list Z) := store_mac m (eth + 0) da.
Definition TCPIPEthFrame_GetDA (m : mem) (eth : Z) := load_mac m (eth + 0).
Definition TCPIPEthFrame_SetSA (m : mem) (eth : Z) (sa : list Z) := store_mac m (eth + 6) sa.
Definition TCPIPEthFrame_GetSA (m : mem) (eth : Z) := load_mac m (eth + 6).
Definition TCPIPEthFrame_SetEthType (m : mem) (eth ethtype : Z) :=
  store16 m (eth + 12) (HTOBE16 ethtype).
Definition TCPIPEthFrame_GetEthType (m : mem) (eth : Z) : res Z :=
  v ← load16 m (eth + 12); Ok (BETOH16 v).

(** ** arp_frame.h *)

Definition TCPIP_ARP_HTYPE_ETHERNET : Z := 1.
Definition TCPIP_ARP_PTYPE_IP : Z := TCPIP_ETH_ETHTYPE_IP.
Definition TCPIP_ARP_OPER_REQUEST : Z := 1.
Definition TCPIP_ARP_OPER_REPLY : Z := 2.
Definition sizeof_arp : Z := 8.
Definition sizeof_arp_pld : Z := 20.

Definition TCPIPArpFrame_SetHType (m : mem) (arp htype : Z) := store16 m (arp + 0) (HTOBE16 htype).
Definition TCPIPArpFrame_GetHType (m : mem) (arp : Z) : res Z :=
  v ← load16 m (arp + 0); Ok (BETOH16 v).
Definition TCPIPArpFrame_SetPType (m : mem) (arp ptype : Z) := store16 m (arp + 2) (HTOBE16 ptype).
Definition TCPIPArpFrame_GetPType (m : mem) (arp : Z) : res Z :=
  v ← load16 m (arp + 2); Ok (BETOH16 v).
Definition TCPIPArpFrame_SetHLen (m : mem) (arp hlen : Z) := store8 m (arp + 4) hlen.
Definition TCPIPArpFrame_GetHLen (m : mem) (arp : Z) := load8 m (arp + 4).
Definition TCPIPArpFrame_SetPLen (m : mem) (arp plen : Z) := store8 m (arp + 5) plen.
Definition TCPIPArpFrame_GetPLen (m : mem) (arp : Z) := load8 m (arp + 5).
Definition TCPIPArpFrame_SetOper (m : mem) (arp oper : Z) := store16 m (arp + 6) (HTOBE16 oper).
Definition TCPIPArpFrame_GetOper (m : mem) (arp : Z) : res Z :=
  v ← load16 m (arp + 6); Ok (HTOBE16 v).

Definition TCPIPArpFrameETHIP_SetSHA (m : mem) (pld : Z) (sha : list Z) := store_mac m (pld + 0) sha.
Definition TCPIPArpFrameETHIP_GetSHA (m : mem) (pld : Z) := load_mac m (pld + 0).
Definition TCPIPArpFrameETHIP_SetSPA (m : mem) (pld spa : Z) := store32 m (pld + 6) (HTOBE32 spa).
Definition TCPIPArpFrameETHIP_GetSPA (m : mem) (pld : Z) : res Z :=
  v ← load32 m (pld + 6); Ok (BETOH32 v).
Definition TCPIPArpFrameETHIP_SetTHA (m : mem) (pld : Z) (tha : list Z) := store_mac m (pld + 10) tha.
Definition TCPIPArpFrameETHIP_GetTHA (m : mem) (pld : Z) := load_mac m (pld + 10).
Definition TCPIPArpFrameETHIP_SetTPA (m : mem) (pld tpa : Z) := store32 m (pld + 16) (HTOBE32 tpa).
Definition TCPIPArpFrameETHIP_GetTPA (m : mem) (pld : Z) : res Z :=
  v ← load32 m (pld + 16); Ok (BETOH32 v).

(** ** ip_frame.h *)

Definition TCPIP_IP_HDR_LEN_VER_VER : Z := 0xF0.
Definition TCPIP_IP_HDR_LEN_VER_HDRLEN : Z := 0x0F.
Definition TCPIP_IP_FLAGS_DF : Z := 0x4000.
Definition TCPIP_IP_FLAGS_MF : Z := 0x8000.
Definition TCPIP_IP_FLAGS_FOFFS : Z := 0x03FF.
Definition TCPIP_IP_FLAGS_ALL : Z := Z.lor TCPIP_IP_FLAGS_DF TCPIP_IP_FLAGS_MF.
Definition TCPIP_IP_PROTOCOL_ICMP : Z := 1.
Definition TCPIP_IP_PROTOCOL_TCP : Z := 6.
Definition TCPIP_IP_PROTOCOL_UDP : Z := 17.
Definition sizeof_ip : Z := 20.

Definition TCPIPIpFrame_GetHdrLen (m : mem) (ip : Z) : res Z :=
  v ← load8 m (ip + 0); Ok (BITS_RD v TCPIP_IP_HDR_LEN_VER_HDRLEN * 4).
Definition TCPIPIpFrame_SetHdrLen (m : mem) (ip hdr_len : Z) : res mem :=
  v ← load8 m (ip + 0);
  store8 m (ip + 0) (BITS_WR v TCPIP_IP_HDR_LEN_VER_HDRLEN (hdr_len / 4)).
Definition TCPIPIpFrame_GetVersion (m : mem) (ip : Z) : res Z :=
  v ← load8 m (ip + 0); Ok (BITS_RD v TCPIP_IP_HDR_LEN_VER_VER).
Definition TCPIPIpFrame_SetVersion (m : mem) (ip version : Z) : res mem :=
  v ← load8 m (ip + 0);
  store8 m (ip + 0) (BITS_WR v TCPIP_IP_HDR_LEN_VER_VER version).
Definition TCPIPIpFrame_GetTos (m : mem) (ip : Z) := load8 m (ip + 1).
Definition TCPIPIpFrame_SetTos (m : mem) (ip tos : Z) := store8 m (ip + 1) tos.
Definition TCPIPIpFrame_GetLength (m : mem) (ip : Z) : res Z :=
  v ← load16 m (ip + 2); Ok (BETOH16 v).
Definition TCPIPIpFrame_SetLength (m : mem) (ip length : Z) :=
  store16 m (ip + 2) (HTOBE16 (u16 length)).
(** The return type is [uint8_t]. *)
Definition TCPIPIpFrame_GetIdentification (m : mem) (ip : Z) : res Z :=
  v ← load16 m (ip + 4); Ok (u8 (BETOH16 v)).
Definition TCPIPIpFrame_SetIdentification (m : mem) (ip identification : Z) :=
  store16 m (ip + 4) (HTOBE16 (u16 identification)).
Definition TCPIPIpFrame_GetFlags (m : mem) (ip : Z) : res Z :=
  v ← load16 m (ip + 6); Ok (Z.land (BETOH16 v) TCPIP_IP_FLAGS_ALL).
Definition TCPIPIpFrame_SetFlags (m : mem) (ip flags : Z) : res mem :=
  v ← load16 m (ip + 6);
  let flags_fragment_offset := u16 (Z.land (BETOH16 v) (Z.lnot TCPIP_IP_FLAGS_ALL)) in
  store16 m (ip + 6) (HTOBE16 (u16 (Z.lor flags_fragment_offset flags))).
Definition TCPIPIpFrame_GetFragmentOffset (m : mem) (ip : Z) : res Z :=
  v ← load16 m (ip + 6); Ok (Z.land (BETOH16 v) TCPIP_IP_FLAGS_FOFFS).
Definition TCPIPIpFrame_SetFragmentOffset (m : mem) (ip offset : Z) : res mem :=
  v ← load16 m (ip + 6);
  let flags_fragment_offset := u16 (Z.land (BETOH16 v) (Z.lnot TCPIP_IP_FLAGS_FOFFS)) in
  store16 m (ip + 6) (HTOBE16 (u16 (Z.lor flags_fragment_offset offset))).
Definition TCPIPIpFrame_GetTTL (m : mem) (ip : Z) := load8 m (ip + 8).
Definition TCPIPIpFrame_SetTTL (m : mem) (ip ttl : Z) := store8 m (ip + 8) ttl.
Definition TCPIPIpFrame_GetProtocol (m : mem) (ip : Z) := load8 m (ip + 9).
Definition TCPIPIpFrame_SetProtocol (m : mem) (ip protocol : Z) := store8 m (ip + 9) protocol.
(** The return type is [uint8_t]. *)
Definition TCPIPIpFrame_GetChecksum (m : mem) (ip : Z) : res Z :=
  v ← load16 m (ip + 10); Ok (u8 (BETOH16 v)).
Definition TCPIPIpFrame_SetChecksum (m : mem) (ip checksum : Z) :=
  store16 m (ip + 10) (HTOBE16 (u16 checksum)).
Definition TCPIPIpFrame_GetSrcAddr (m : mem) (ip : Z) : res Z :=
  v ← load32 m (ip + 12); Ok (BETOH32 v).
Definition TCPIPIpFrame_SetSrcAddr (m : mem) (ip src_addr : Z) :=
  store32 m (ip + 12) (HTOBE32 src_addr).
Definition TCPIPIpFrame_GetDstAddr (m : mem) (ip : Z) : res Z :=
  v ← load32 m (ip + 16); Ok (BETOH32 v).
Definition TCPIPIpFrame_SetDstAddr (m : mem) (ip dst_addr : Z) :=
  store32 m (ip + 16) (HTOBE32 dst_addr).

(** The bytes of words in memory order. *)
Definition le16 (v : Z) : list Z := [u8 v; u8 (v / 256)].
Definition le32 (v : Z) : list Z := le16 v ++ le16 (v / 65536).

(** The pseudo header as the bytes of the local [tcpip_ip_pseudo_hdr_t]. *)
Definition TCPIPIpFrame_GetPseudoHdr (m : mem) (ip : Z) : res (list Z) :=
  length ← TCPIPIpFrame_GetLength m ip;
  hdr_len ← TCPIPIpFrame_GetHdrLen m ip;
  let pld_len := u16 (length - hdr_len) in
  src_addr ← load32 m (ip + 12);
  dst_addr ← load32 m (ip + 16);
  protocol ← load8 m (ip + 9);
  Ok (le32 src_addr ++ le32 dst_addr ++ [0; protocol] ++ le16 (HTOBE16 pld_len)).
Definition sizeof_pseudo_hdr : Z := 12.

(** ** icmp_frame.h *)

Definition TCPIP_ICMP_TYPE_ECHO_REPLY : Z := 0.
Definition TCPIP_ICMP_TYPE_ECHO_REQUEST : Z := 8.
Definition sizeof_icmp : Z := 4.
Definition sizeof_echo : Z := 4.

Definition TCPIPIcmpFrame_GetType (m : mem) (icmp : Z) := load8 m (icmp + 0).
Definition TCPIPIcmpFrame_SetType (m : mem) (icmp type : Z) := store8 m (icmp + 0) type.
Definition TCPIPIcmpFrame_GetCode (m : mem) (icmp : Z) := load8 m (icmp + 1).
Definition TCPIPIcmpFrame_SetCode (m : mem) (icmp code : Z) := store8 m (icmp + 1) code.
Definition TCPIPIcmpFrame_GetChecksum (m : mem) (icmp : Z) : res Z :=
  v ← load16 m (icmp + 2); Ok (BETOH16 v).
Definition TCPIPIcmpFrame_SetChecksum (m : mem) (icmp checksum : Z) :=
  store16 m (icmp + 2) (HTOBE16 (u16 checksum)).
Definition TCPIPIcmpFrameEcho_SetID (m : mem) (echo id : Z) :=
  store16 m (echo + 0) (HTOBE16 (u16 id)).
Definition TCPIPIcmpFrameEcho_GetID (m : mem) (echo : Z) : res Z :=
  v ← load16 m (echo + 0); Ok (BETOH16 v).
Definition TCPIPIcmpFrameEcho_SetSeqNo (m : mem) (echo seqno : Z) :=
  store16 m (echo + 2) (HTOBE16 (u16 seqno)).
Definition TCPIPIcmpFrameEcho_GetSeqNo (m : mem) (echo : Z) : res Z :=
  v ← load16 m (echo + 2); Ok (BETOH16 v).

(** ** udp_frame.h *)

Definition sizeof_udp : Z := 8.

Definition TCPIPUdpFrame_GetSrcPort (m : mem) (udp : Z) : res Z :=
  v ← load16 m (udp + 0); Ok (BETOH16 v).
Definition TCPIPUdpFrame_SetSrcPort (m : mem) (udp src_port : Z) :=
  store16 m (udp + 0) (HTOBE16 (u16 src_port)).
Definition TCPIPUdpFrame_GetDstPort (m : mem) (udp : Z) : res Z :=
  v ← load16 m (udp + 2); Ok (BETOH16 v).
Definition TCPIPUdpFrame_SetDstPort (m : mem) (udp dst_port : Z) :=
  store16 m (udp + 2) (HTOBE16 (u16 dst_port)).
Definition TCPIPUdpFrame_GetLength (m : mem) (udp : Z) : res Z :=
  v ← load16 m (udp + 4); Ok (BETOH16 v).
Definition TCPIPUdpFrame_SetLength (m : mem) (udp length : Z) :=
  store16 m (udp + 4) (HTOBE16 (u16 length)).
Definition TCPIPUdpFrame_GetChecksum (m : mem) (udp : Z) : res Z :=
  v ← load16 m (udp + 6); Ok (BETOH16 v).
Definition TCPIPUdpFrame_SetChecksum (m : mem) (udp checksum : Z) :=
  store16 m (udp + 6) (HTOBE16 (u16 checksum)).

(** ** tcp_frame.h *)

Definition TCPIP_TCP_FLAGS_DOFFS_FLAGS : Z := 0x03FF.
Definition TCPIP_TCP_FLAGS_DOFFS : Z := 0xF000.
Definition TCPIP_TCP_FLAGS_FIN : Z := 0x0001.
Definition TCPIP_TCP_FLAGS_SYN : Z := 0x0002.
Definition TCPIP_TCP_FLAGS_RST : Z := 0x0004.
Definition TCPIP_TCP_FLAGS_PSH : Z := 0x0008.
Definition TCPIP_TCP_FLAGS_ACK : Z := 0x0010.
Definition sizeof_tcp : Z := 20.

Definition TCPIPTcpFrame_GetSrcPort (m : mem) (tcp : Z) : res Z :=
  v ← load16 m (tcp + 0); Ok (BETOH16 v).
Definition TCPIPTcpFrame_SetSrcPort (m : mem) (tcp src_port : Z) :=
  store16 m (tcp + 0) (HTOBE16 (u16 src_port)).
Definition TCPIPTcpFrame_GetDstPort (m : mem) (tcp : Z) : res Z :=
  v ← load16 m (tcp + 2); Ok (BETOH16 v).
Definition TCPIPTcpFrame_SetDstPort (m : mem) (tcp dst_port : Z) :=
  store16 m (tcp + 2) (HTOBE16 (u16 dst_port)).
Definition TCPIPTcpFrame_GetSeq (m : mem) (tcp : Z) : res Z :=
  v ← load32 m (tcp + 4); Ok (BETOH32 v).
Definition TCPIPTcpFrame_SetSeq (m : mem) (tcp seq : Z) := store32 m (tcp + 4) (HTOBE32 seq).
Definition TCPIPTcpFrame_GetAck (m : mem) (tcp : Z) : res Z :=
  v ← load32 m (tcp + 8); Ok (BETOH32 v).
Definition TCPIPTcpFrame_SetAck (m : mem) (tcp ack : Z) := store32 m (tcp + 8) (HTOBE32 ack).
Definition TCPIPTcpFrame_GetDataOffs (m : mem) (tcp : Z) : res Z :=
  v ← load16 m (tcp + 12); Ok (BITS_RD (BETOH16 v) TCPIP_TCP_FLAGS_DOFFS * 4).
Definition TCPIPTcpFrame_SetDataOffs (m : mem) (tcp doffs : Z) : res mem :=
  v ← load16 m (tcp + 12);
  let fdo := BETOH16 v in
  store16 m (tcp + 12) (HTOBE16 (BITS_WR fdo TCPIP_TCP_FLAGS_DOFFS (doffs / 4))).
Definition TCPIPTcpFrame_GetFlags (m : mem) (tcp : Z) : res Z :=
  v ← load16 m (tcp + 12); Ok (BITS_RD (BETOH16 v) TCPIP_TCP_FLAGS_DOFFS_FLAGS).
Definition TCPIPTcpFrame_SetFlags (m : mem) (tcp flags : Z) : res mem :=
  v ← load16 m (tcp + 12);
  let fdo := BETOH16 v in
  store16 m (tcp + 12) (HTOBE16 (BITS_WR fdo TCPIP_TCP_FLAGS_DOFFS_FLAGS flags)).
Definition TCPIPTcpFrame_GetWindow (m : mem) (tcp : Z) : res Z :=
  v ← load16 m (tcp + 14); Ok (BETOH16 v).
Definition TCPIPTcpFrame_SetWindow (m : mem) (tcp win : Z) := store16 m (tcp + 14) (HTOBE16 win).
Definition TCPIPTcpFrame_GetChecksum (m : mem) (tcp : Z) : res Z :=
  v ← load16 m (tcp + 16); Ok (BETOH16 v).
Definition TCPIPTcpFrame_SetChecksum (m : mem) (tcp checksum : Z) :=
  store16 m (tcp + 16) (HTOBE16 (u16 checksum)).
Definition TCPIPTcpFrame_GetUrgentPtr (m : mem) (tcp : Z) : res Z :=
  v ← load16 m (tcp + 18); Ok (BETOH16 v).
Definition TCPIPTcpFrame_SetUrgentPtr (m : mem) (tcp urgent_pointer : Z) :=
  store16 m (tcp + 18) (HTOBE16 (u16 urgent_pointer)).

(** ** Bit fields

    A mask of [w] bits from bit [lo] on. *)
Definition mask (lo w : Z) : Z := Z.shiftl (Z.ones w) lo.

Lemma land_mask_field x lo w :
  0 ≤ lo → 0 ≤ w → Z.land x (mask lo w) = x / 2 ^ lo mod 2 ^ w * 2 ^ lo.
Proof.
  intros Hlo Hw. unfold mask.
  rewrite <- Z.shiftr_div_pow2, <- Z.land_ones, <- (Z.shiftl_mul_pow2 _ lo) by done.
  apply Z.bits_inj'. intros i Hi. rewrite Z.land_spec.
  destruct (decide (i < lo)).
  - rewrite !Z.shiftl_spec_low by done. apply andb_false_r.
  - rewrite !Z.shiftl_spec, Z.land_spec, Z.shiftr_spec by lia.
    by replace (i - lo + lo) with i by lia.
Qed.

Lemma ldiff_sub x k : Z.ldiff x k = x - Z.land x k.
Proof.
  rewrite Z.sub_nocarry_ldiff; [|apply Z.bits_inj'; intros i Hi];
    rewrite ?Z.ldiff_spec, ?Z.land_spec, ?Z.bits_0;
    [apply Z.bits_inj'; intros i Hi; rewrite !Z.ldiff_spec, Z.land_spec|];
    by destruct (Z.testbit x i), (Z.testbit k i).
Qed.

Lemma land_u32_lnot x k : is_u32 x → Z.land x (u32 (Z.lnot k)) = x - Z.land x k.
Proof.
  intros Hx. rewrite <- ldiff_sub, Z.ldiff_land. unfold u32. change 4294967296 with (2 ^ 32).
  rewrite <- Z.land_ones, (Z.land_comm (Z.lnot k)), Z.land_assoc by done.
  f_equal. rewrite Z.land_ones by done. by apply Z.mod_small.
Qed.

Lemma lor_disjoint a b : Z.land a b = 0 → Z.lor a b = a + b.
Proof. intros H. rewrite <- Z.add_lor_land, H. lia. Qed.

(** Replacing the bits under a mask. *)
Lemma lor_field x y lo w :
  0 ≤ lo → 0 ≤ w →
  Z.lor (x - Z.land x (mask lo w)) (Z.land y (mask lo w)) =
  x - Z.land x (mask lo w) + Z.land y (mask lo w).
Proof.
  intros Hlo Hw. apply lor_disjoint. rewrite <- ldiff_sub.
  apply Z.bits_inj'. intros i Hi. rewrite Z.bits_0, !Z.land_spec, Z.ldiff_spec.
  by destruct (Z.testbit x i), (Z.testbit y i), (Z.testbit (mask lo w) i).
Qed.

(** [BITS_RD] and [BITS_WR] with a mask whose lowest bit is [lo]. *)
Section bit_fields.
Context (lo w : Z) (Hlo : 0 ≤ lo) (Hw : 0 < w) (Hsum : lo + w ≤ 32).
Context (Hlsb : LSB (mask lo w) = lo).

Lemma BITS_RD_field x : BITS_RD x (mask lo w) = x / 2 ^ lo mod 2 ^ w.
Proof.
  unfold BITS_RD. rewrite Hlsb, land_mask_field, Z.shiftr_div_pow2 by lia.
  apply Z.div_mul. apply Z.pow_nonzero; lia.
Qed.

Lemma BITS_WR_field x v :
  is_u32 x → 0 ≤ v →
  BITS_WR x (mask lo w) v = x - x / 2 ^ lo mod 2 ^ w * 2 ^ lo + v mod 2 ^ w * 2 ^ lo.
Proof.
  intros Hx Hv. unfold BITS_WR. rewrite Hlsb, land_u32_lnot by done.
  rewrite lor_field, !land_mask_field by lia.
  assert (0 < 2 ^ lo) by (apply Z.pow_pos_nonneg; lia).
  assert (0 < 2 ^ w) by (apply Z.pow_pos_nonneg; lia).
  do 2 f_equal. unfold u32. change 4294967296 with (2 ^ 32).
  rewrite Z.shiftl_mul_pow2 by done.
  replace (2 ^ 32) with (2 ^ lo * (2 ^ w * 2 ^ (32 - lo - w)))
    by (rewrite <- !Z.pow_add_r by lia; f_equal; lia).
  assert (0 < 2 ^ (32 - lo - w)) by (apply Z.pow_pos_nonneg; lia).
  rewrite (Z.mul_comm v), Z.mul_mod_distr_l, (Z.mul_comm (2 ^ lo)), Z.div_mul by nia.
  rewrite Z.rem_mul_r by lia. rewrite (Z.mul_comm (2 ^ w)), Z.mod_add by lia.
  apply Z.mod_mod. lia.
Qed.
End bit_fields.

(** ** Fields of a header

    Each pair of accessors, where its field lies, which values may be stored in
    it and what is read back. *)

Record field := mk_field {
  f_ty : Type;
  f_get : mem → Z → res f_ty;
  f_set : mem → Z → f_ty → res mem;
  f_off : Z;
  f_len : nat;
  f_ok : f_ty → Prop;
  f_kept : f_ty → f_ty
}.

(** [n] bytes from [a] on are mapped. *)
Definition octets (m : mem) (a : Z) (n : nat) : Prop :=
  ∃ l, length l = n ∧ Forall is_u8 l ∧ bytes_at m a l.

(** Two ranges have the same contents. *)
Definition agree (m : mem) (a : Z) (m' : mem) (a' : Z) (n : nat) : Prop :=
  ∀ i, 0 ≤ i < n → m !! (a + i) = m' !! (a' + i).

(** A setter writes its field only, and the getter reads its field only. *)
Record field_ok (f : field) : Prop := {
  fo_set : ∀ m p v, octets m (p + f_off f) (f_len f) → f_ok f v →
    ∃ bs, length bs = f_len f ∧ Forall is_u8 bs ∧
      f_set f m p v = Ok (put_bytes m (p + f_off f) bs) ∧
      f_get f (put_bytes m (p + f_off f) bs) p = Ok (f_kept f v);
  fo_read : ∀ m p m' p',
    agree m (p + f_off f) m' (p' + f_off f) (f_len f) → f_get f m p = f_get f m' p'
}.

Lemma octets_mapped m a n : octets m a n → mapped m a n.
Proof. intros (l & <- & _ & H). by apply bytes_at_mapped. Qed.

Lemma octets_get m a n (k : nat) :
  octets m a n → (k < n)%nat → ∃ b, is_u8 b ∧ load8 m (a + k) = Ok b.
Proof.
  intros (l & Hl & Hu & H) Hk. destruct (lookup_lt_is_Some_2 l k) as [b Hb]; [lia|].
  exists b. split; [by eapply Forall_lookup_1|by apply bytes_at_load8 with (l := l)].
Qed.

Lemma octets_put m a n p bs :
  octets m a n → Forall is_u8 bs → octets (put_bytes m p bs) a n.
Proof.
  intros (l & <- & Hu & H) Hbs.
  destruct (mapped_get_bytes (put_bytes m p bs) a (length l)) as (l' & Hl' & H').
  { apply put_bytes_mapped. by apply bytes_at_mapped. }
  exists l'. repeat (split; [done|]). split; [|done].
  apply Forall_lookup. intros i b Hi.
  pose proof (bytes_at_lookup _ _ _ _ _ H' Hi) as Hb.
  destruct (decide (p ≤ a + i < p + length bs)) as [Hin|Hout].
  - destruct (lookup_lt_is_Some_2 bs (Z.to_nat (a + i - p))) as [c Hc]; [lia|].
    pose proof (bytes_at_lookup _ _ _ _ _ (put_bytes_bytes_at m p bs) Hc) as Hcb.
    replace (p + Z.of_nat (Z.to_nat (a + i - p))) with (a + i) in Hcb by lia.
    rewrite Hcb in Hb. injection Hb as <-. by eapply Forall_lookup_1.
  - rewrite put_bytes_lookup_ne in Hb by done.
    destruct (lookup_lt_is_Some_2 l i) as [c Hc].
    { pose proof (lookup_lt_Some _ _ _ Hi). lia. }
    rewrite (bytes_at_lookup _ _ _ _ _ H Hc) in Hb. injection Hb as <-.
    exact (Forall_lookup_1 _ _ _ _ Hu Hc).
Qed.

Lemma octets_sub m a n (k j : nat) : octets m a n → (k + j ≤ n)%nat → octets m (a + k) j.
Proof.
  intros (l & <- & Hu & H) Hk. exists (take j (drop k l)).
  split; [rewrite length_take, length_drop; lia|].
  split; [by apply Forall_take, Forall_drop|].
  rewrite <- (take_drop k l) in H. apply bytes_at_app in H as [_ H].
  rewrite length_take_le in H by lia.
  rewrite <- (take_drop j (drop k l)) in H. by apply bytes_at_app in H as [H _].
Qed.

(** Big-endian words. *)
Definition be16 (v : Z) : list Z := [byte 1 v; byte 0 v].
Definition be32 (v : Z) : list Z := [byte 3 v; byte 2 v; byte 1 v; byte 0 v].

Ltac byte_arith :=
  unfold byte in *; change (256 ^ 0) with 1 in *; change (256 ^ 1) with 256 in *;
  change (256 ^ 2) with 65536 in *; change (256 ^ 3) with 16777216 in *.

Lemma byte_u8 i v : is_u8 (byte i v).
Proof. unfold byte, is_u8. lia. Qed.
Lemma be16_u8 v : Forall is_u8 (be16 v).
Proof. repeat constructor; apply byte_u8. Qed.
Lemma be32_u8 v : Forall is_u8 (be32 v).
Proof. repeat constructor; apply byte_u8. Qed.
#[export] Hint Resolve byte_u8 be16_u8 be32_u8 : word.

Lemma store16_be m a v :
  mapped m a 2 → store16 m a (HTOBE16 v) = Ok (put_bytes m a (be16 v)).
Proof.
  intros H. rewrite store16_put, HTOBE16_bytes by done. unfold be16.
  do 2 f_equal. byte_arith. repeat (apply (f_equal2 cons); [word_lia|]). done.
Qed.

Lemma store32_be m a v :
  mapped m a 4 → store32 m a (HTOBE32 v) = Ok (put_bytes m a (be32 v)).
Proof.
  intros H. rewrite store32_put, HTOBE32_bytes by done. unfold be32.
  do 2 f_equal. byte_arith. repeat (apply (f_equal2 cons); [word_lia|]). done.
Qed.

Lemma load16_be m a v :
  bytes_at m a (be16 v) → load16 m a = Ok (HTOBE16 v).
Proof.
  intros (H1 & H2 & _). unfold load16, load8. rewrite H1, bind_Ok, H2, bind_Ok, HTOBE16_bytes.
  f_equal. lia.
Qed.

Lemma load32_be m a v :
  bytes_at m a (be32 v) → load32 m a = Ok (HTOBE32 v).
Proof.
  intros (H1 & H2 & H3 & H4 & _). unfold load32, load16, load8.
  replace (a + 1 + 1) with (a + 2) in * by lia. replace (a + 2 + 1) with (a + 2 + 1) in * by lia.
  rewrite H1, bind_Ok, H2, bind_Ok, bind_Ok, H3, bind_Ok, H4, !bind_Ok, HTOBE32_bytes.
  f_equal. lia.
Qed.

Lemma u16_be v : is_u16 v → BETOH16 (HTOBE16 v) = v.
Proof. intros H. unfold BETOH16. rewrite HTOBE16_involutive. by apply u16_small. Qed.

(** Every pair of bytes is the big-endian form of some word. *)
Lemma octets_be16 m a : octets m a 2 → ∃ v, is_u16 v ∧ bytes_at m a (be16 v).
Proof.
  intros ([|b1 [|b0 [|]]] & Hl & Hu & H); try done.
  inversion_clear Hu as [|? ? U1 Hu']. inversion_clear Hu' as [|? ? U0 _].
  exists (b1 * 256 + b0). split; [word_lia|].
  unfold be16. byte_arith. replace ((b1 * 256 + b0) / 256 mod 256) with b1 by word_lia.
  by replace ((b1 * 256 + b0) / 1 mod 256) with b0 by word_lia.
Qed.

(** Loads from ranges with the same contents. *)
Lemma agree_at m a m' a' n k : agree m a m' a' n → 0 ≤ k < n → m !! (a + k) = m' !! (a' + k).
Proof. intros H. apply H. Qed.
Lemma agree_load8 m a m' a' : agree m a m' a' 1 → load8 m a = load8 m' a'.
Proof.
  intros H. apply (agree_at _ _ _ _ _ 0) in H; [|lia]. rewrite !Z.add_0_r in H.
  unfold load8. by rewrite H.
Qed.
Lemma agree_sub m a m' a' n (k : Z) (j : nat) :
  agree m a m' a' n → 0 ≤ k → k + j ≤ n → agree m (a + k) m' (a' + k) j.
Proof. intros H Hk Hj i Hi. rewrite <- !Z.add_assoc. apply H. lia. Qed.
Lemma agree_load16 m a m' a' : agree m a m' a' 2 → load16 m a = load16 m' a'.
Proof.
  intros H. unfold load16. rewrite (agree_load8 m (a + 1) m' (a' + 1)).
  - rewrite (agree_load8 m a m' a'); [done|]. intros i Hi. apply H. lia.
  - by apply (agree_sub _ _ _ _ 2).
Qed.
Lemma agree_load32 m a m' a' : agree m a m' a' 4 → load32 m a = load32 m' a'.
Proof.
  intros H. unfold load32. rewrite (agree_load16 m (a + 2) m' (a' + 2)).
  - rewrite (agree_load16 m a m' a'); [done|]. intros i Hi. apply H. lia.
  - by apply (agree_sub _ _ _ _ 4).
Qed.
Lemma agree_load_mac m a m' a' : agree m a m' a' 6 → load_mac m a = load_mac m' a'.
Proof.
  intros H. unfold load_mac. rewrite (agree_load8 m a m' a') by (intros i Hi; apply H; lia).
  rewrite (agree_load8 _ _ _ _ (agree_sub _ _ _ _ _ 1 1 H ltac:(lia) ltac:(lia))),
    (agree_load8 _ _ _ _ (agree_sub _ _ _ _ _ 2 1 H ltac:(lia) ltac:(lia))),
    (agree_load8 _ _ _ _ (agree_sub _ _ _ _ _ 3 1 H ltac:(lia) ltac:(lia))),
    (agree_load8 _ _ _ _ (agree_sub _ _ _ _ _ 4 1 H ltac:(lia) ltac:(lia))),
    (agree_load8 _ _ _ _ (agree_sub _ _ _ _ _ 5 1 H ltac:(lia) ltac:(lia))).
  done.
Qed.

(** *** Field shapes *)

Section shapes.
Context (off : Z) (Hoff : 0 ≤ off).

Lemma field_octet :
  field_ok (mk_field Z (λ m p, load8 m (p + off)) (λ m p v, store8 m (p + off) v)
              off 1 (λ _, True) u8).
Proof.
  split; simpl.
  - intros m p v Ho _. exists [u8 v]. split; [done|]. split; [repeat constructor; apply u8_range|].
    rewrite store8_put by by apply octets_mapped. split; [done|].
    apply (load8_bytes _ _ _ []), put_bytes_bytes_at.
  - intros m p m' p' H. by apply agree_load8.
Qed.

Lemma field_be16 :
  field_ok (mk_field Z (λ m p, v ← load16 m (p + off); Ok (BETOH16 v))
              (λ m p v, store16 m (p + off) (HTOBE16 v)) off 2 (λ _, True) u16).
Proof.
  split; simpl.
  - intros m p v Ho _. exists (be16 v). split; [done|]. split; [auto with word|].
    rewrite store16_be by by apply octets_mapped. split; [done|].
    rewrite (load16_be _ _ v) by apply put_bytes_bytes_at. unfold BETOH16.
    by rewrite bind_Ok, HTOBE16_involutive.
  - intros m p m' p' H. by rewrite (agree_load16 _ _ _ _ H).
Qed.

Lemma field_be32 :
  field_ok (mk_field Z (λ m p, v ← load32 m (p + off); Ok (BETOH32 v))
              (λ m p v, store32 m (p + off) (HTOBE32 v)) off 4 (λ _, True) u32).
Proof.
  split; simpl.
  - intros m p v Ho _. exists (be32 v). split; [done|]. split; [auto with word|].
    rewrite store32_be by by apply octets_mapped. split; [done|].
    rewrite (load32_be _ _ v) by apply put_bytes_bytes_at. unfold BETOH32.
    by rewrite bind_Ok, HTOBE32_involutive.
  - intros m p m' p' H. by rewrite (agree_load32 _ _ _ _ H).
Qed.

(** The value is converted to [uint16_t] first, the result maybe to a narrower type. *)
Lemma field_be16_conv (ret kept : Z → Z) :
  (∀ v, ret (u16 v) = kept v) →
  field_ok (mk_field Z (λ m p, v ← load16 m (p + off); Ok (ret (BETOH16 v)))
              (λ m p v, store16 m (p + off) (HTOBE16 (u16 v))) off 2 (λ _, True) kept).
Proof.
  intros H. destruct field_be16 as [Hs Hr]. split; simpl in *.
  - intros m p v Ho Hv. destruct (Hs m p (u16 v) Ho I) as (bs & ? & ? & ? & E).
    exists bs. repeat (split; [done|]). rewrite (u16_small (u16 v)) in E by apply u16_range.
    apply bind_Ok_inv in E as (w & -> & E). injection E as E. by rewrite bind_Ok, E, H.
  - intros m p m' p' Ha. by rewrite (agree_load16 _ _ _ _ Ha).
Qed.

(** Part of a byte or of a word, updated in place. *)
Lemma field_upd8 (upd : Z → Z → Z) (dec kept : Z → Z) (ok : Z → Prop) :
  (∀ x v, is_u8 x → ok v → dec (u8 (upd x v)) = kept v) →
  field_ok (mk_field Z (λ m p, v ← load8 m (p + off); Ok (dec v))
              (λ m p v, x ← load8 m (p + off); store8 m (p + off) (upd x v)) off 1 ok kept).
Proof.
  intros H. split; simpl.
  - intros m p v Ho Hv. destruct (octets_get _ _ _ 0 Ho ltac:(lia)) as (x & Hx & E).
    rewrite Z.add_0_r in E. rewrite E, bind_Ok, store8_put by by apply octets_mapped.
    eexists. split; [|split; [|split; [done|]]]; [done|repeat constructor; apply u8_range|].
    erewrite load8_bytes by apply put_bytes_bytes_at. rewrite bind_Ok. f_equal. auto.
  - intros m p m' p' Ha. by rewrite (agree_load8 _ _ _ _ Ha).
Qed.

Lemma field_upd16 (upd : Z → Z → Z) (dec kept : Z → Z) (ok : Z → Prop) :
  (∀ x v, is_u16 x → ok v → dec (u16 (upd x v)) = kept v) →
  field_ok (mk_field Z (λ m p, v ← load16 m (p + off); Ok (dec (BETOH16 v)))
              (λ m p v, x ← load16 m (p + off); store16 m (p + off) (HTOBE16 (upd (BETOH16 x) v)))
              off 2 ok kept).
Proof.
  intros H. split; simpl.
  - intros m p v Ho Hv. destruct (octets_be16 _ _ Ho) as (x & Hx & E).
    rewrite (load16_be _ _ _ E), bind_Ok, store16_be by by apply octets_mapped.
    eexists. split; [|split; [|split; [done|]]]; [done|auto with word|].
    erewrite load16_be by apply put_bytes_bytes_at. rewrite bind_Ok, (u16_be x) by done.
    unfold BETOH16. rewrite HTOBE16_involutive. f_equal. auto.
  - intros m p m' p' Ha. by rewrite (agree_load16 _ _ _ _ Ha).
Qed.
End shapes.

Definition is_mac (l : list Z) : Prop := length l = 6%nat ∧ Forall is_u8 l.

Lemma store8_in m a n k v :
  mapped m a n → 0 ≤ k < n → store8 m (a + k) v = Ok (<[a + k := u8 v]> m).
Proof. intros H Hk. apply store8_mapped, H. lia. Qed.

Lemma store_mac_put m a mac :
  mapped m a 6 → is_mac mac → store_mac m a mac = Ok (put_bytes m a mac).
Proof.
  intros Hm [Hl Hu]. destruct mac as [|b0 [|b1 [|b2 [|b3 [|b4 [|b5 [|]]]]]]]; try done.
  repeat (apply Forall_cons_1 in Hu as [? Hu]). unfold store_mac.
  rewrite <- (Z.add_0_r a) at 1. cbn [put_bytes].
  do 5 rewrite (store8_in _ a 6), bind_Ok by (auto 10 with cmem; lia).
  rewrite (store8_in _ a 6) by (auto 10 with cmem; lia).
  rewrite Z.add_0_r, <- !Z.add_assoc. cbn [Z.add Pos.add Pos.succ].
  by rewrite !u8_small.
Qed.

Lemma load_mac_bytes m a mac : bytes_at m a mac → length mac = 6%nat → load_mac m a = Ok mac.
Proof.
  intros H Hl. destruct mac as [|b0 [|b1 [|b2 [|b3 [|b4 [|b5 [|]]]]]]]; try done.
  destruct H as (H0 & H1 & H2 & H3 & H4 & H5 & _).
  replace (a + 1 + 1) with (a + 2) in * by lia. replace (a + 2 + 1) with (a + 3) in * by lia.
  replace (a + 3 + 1) with (a + 4) in * by lia. replace (a + 4 + 1) with (a + 5) in * by lia.
  unfold load_mac, load8. by rewrite H0, H1, H2, H3, H4, H5.
Qed.

Lemma field_mac off :
  field_ok (mk_field (list Z) (λ m p, load_mac m (p + off)) (λ m p v, store_mac m (p + off) v)
              off 6 is_mac id).
Proof.
  split; simpl.
  - intros m p v Ho Hv. exists v. split; [apply Hv|]. split; [apply Hv|].
    rewrite store_mac_put by (done || by apply octets_mapped). split; [done|].
    apply load_mac_bytes; [apply put_bytes_bytes_at|apply Hv].
  - intros m p m' p' H. by apply agree_load_mac.
Qed.

(** *** The headers *)

Record header := mk_header { h_size : nat; h_fields : list field }.

Definition any {A} (_ : A) : Prop := True.
Definition unsigned (v : Z) : Prop := 0 ≤ v.
Definition ip_flags (v : Z) : Prop := Z.land v TCPIP_IP_FLAGS_ALL = v.
Definition ip_offset (v : Z) : Prop := 0 ≤ v < 1024.

Definition eth_header : header := mk_header 14 [
  mk_field (list Z) TCPIPEthFrame_GetDA TCPIPEthFrame_SetDA 0 6 is_mac id;
  mk_field (list Z) TCPIPEthFrame_GetSA TCPIPEthFrame_SetSA 6 6 is_mac id;
  mk_field Z TCPIPEthFrame_GetEthType TCPIPEthFrame_SetEthType 12 2 any u16].

Definition arp_header : header := mk_header 8 [
  mk_field Z TCPIPArpFrame_GetHType TCPIPArpFrame_SetHType 0 2 any u16;
  mk_field Z TCPIPArpFrame_GetPType TCPIPArpFrame_SetPType 2 2 any u16;
  mk_field Z TCPIPArpFrame_GetHLen TCPIPArpFrame_SetHLen 4 1 any u8;
  mk_field Z TCPIPArpFrame_GetPLen TCPIPArpFrame_SetPLen 5 1 any u8;
  mk_field Z TCPIPArpFrame_GetOper TCPIPArpFrame_SetOper 6 2 any u16].

Definition arp_pld_header : header := mk_header 20 [
  mk_field (list Z) TCPIPArpFrameETHIP_GetSHA TCPIPArpFrameETHIP_SetSHA 0 6 is_mac id;
  mk_field Z TCPIPArpFrameETHIP_GetSPA TCPIPArpFrameETHIP_SetSPA 6 4 any u32;
  mk_field (list Z) TCPIPArpFrameETHIP_GetTHA TCPIPArpFrameETHIP_SetTHA 10 6 is_mac id;
  mk_field Z TCPIPArpFrameETHIP_GetTPA TCPIPArpFrameETHIP_SetTPA 16 4 any u32].

Definition ip_header : header := mk_header 20 [
  mk_field Z TCPIPIpFrame_GetHdrLen TCPIPIpFrame_SetHdrLen 0 1 unsigned (λ v, v / 4 mod 16 * 4);
  mk_field Z TCPIPIpFrame_GetVersion TCPIPIpFrame_SetVersion 0 1 unsigned (λ v, v mod 16);
  mk_field Z TCPIPIpFrame_GetTos TCPIPIpFrame_SetTos 1 1 any u8;
  mk_field Z TCPIPIpFrame_GetLength TCPIPIpFrame_SetLength 2 2 any u16;
  mk_field Z TCPIPIpFrame_GetIdentification TCPIPIpFrame_SetIdentification 4 2 any u8;
  mk_field Z TCPIPIpFrame_GetFlags TCPIPIpFrame_SetFlags 6 2 ip_flags id;
  mk_field Z TCPIPIpFrame_GetFragmentOffset TCPIPIpFrame_SetFragmentOffset 6 2 ip_offset id;
  mk_field Z TCPIPIpFrame_GetTTL TCPIPIpFrame_SetTTL 8 1 any u8;
  mk_field Z TCPIPIpFrame_GetProtocol TCPIPIpFrame_SetProtocol 9 1 any u8;
  mk_field Z TCPIPIpFrame_GetChecksum TCPIPIpFrame_SetChecksum 10 2 any u8;
  mk_field Z TCPIPIpFrame_GetSrcAddr TCPIPIpFrame_SetSrcAddr 12 4 any u32;
  mk_field Z TCPIPIpFrame_GetDstAddr TCPIPIpFrame_SetDstAddr 16 4 any u32].

Definition icmp_header : header := mk_header 4 [
  mk_field Z TCPIPIcmpFrame_GetType TCPIPIcmpFrame_SetType 0 1 any u8;
  mk_field Z TCPIPIcmpFrame_GetCode TCPIPIcmpFrame_SetCode 1 1 any u8;
  mk_field Z TCPIPIcmpFrame_GetChecksum TCPIPIcmpFrame_SetChecksum 2 2 any u16].

Definition echo_header : header := mk_header 4 [
  mk_field Z TCPIPIcmpFrameEcho_GetID TCPIPIcmpFrameEcho_SetID 0 2 any u16;
  mk_field Z TCPIPIcmpFrameEcho_GetSeqNo TCPIPIcmpFrameEcho_SetSeqNo 2 2 any u16].

Definition udp_header : header := mk_header 8 [
  mk_field Z TCPIPUdpFrame_GetSrcPort TCPIPUdpFrame_SetSrcPort 0 2 any u16;
  mk_field Z TCPIPUdpFrame_GetDstPort TCPIPUdpFrame_SetDstPort 2 2 any u16;
  mk_field Z TCPIPUdpFrame_GetLength TCPIPUdpFrame_SetLength 4 2 any u16;
  mk_field Z TCPIPUdpFrame_GetChecksum TCPIPUdpFrame_SetChecksum 6 2 any u16].

Definition tcp_header : header := mk_header 20 [
  mk_field Z TCPIPTcpFrame_GetSrcPort TCPIPTcpFrame_SetSrcPort 0 2 any u16;
  mk_field Z TCPIPTcpFrame_GetDstPort TCPIPTcpFrame_SetDstPort 2 2 any u16;
  mk_field Z TCPIPTcpFrame_GetSeq TCPIPTcpFrame_SetSeq 4 4 any u32;
  mk_field Z TCPIPTcpFrame_GetAck TCPIPTcpFrame_SetAck 8 4 any u32;
  mk_field Z TCPIPTcpFrame_GetDataOffs TCPIPTcpFrame_SetDataOffs 12 2 unsigned (λ v, v / 4 mod 16 * 4);
  mk_field Z TCPIPTcpFrame_GetFlags TCPIPTcpFrame_SetFlags 12 2 unsigned (λ v, v mod 1024);
  mk_field Z TCPIPTcpFrame_GetWindow TCPIPTcpFrame_SetWindow 14 2 any u16;
  mk_field Z TCPIPTcpFrame_GetChecksum TCPIPTcpFrame_SetChecksum 16 2 any u16;
  mk_field Z TCPIPTcpFrame_GetUrgentPtr TCPIPTcpFrame_SetUrgentPtr 18 2 any u16].

Definition headers : list header :=
  [eth_header; arp_header; arp_pld_header; ip_header; icmp_header; echo_header; udp_header; tcp_header].

(** *** Every accessor *)

(** Storing into [f] leaves what [g] reads. *)
Definition leaves (f g : field) : Prop :=
  ∀ m p v bs, octets m (p + f_off f) (f_len f) → f_ok f v → length bs = f_len f →
    f_set f m p v = Ok (put_bytes m (p + f_off f) bs) →
    f_get g (put_bytes m (p + f_off f) bs) p = f_get g m p.

Definition apart (f g : field) : Prop :=
  f_off f + f_len f ≤ f_off g ∨ f_off g + f_len g ≤ f_off f.

Lemma apart_leaves f g : field_ok g → apart f g → leaves f g.
Proof.
  intros [_ Hr] Ha m p v bs _ _ Hl _. apply Hr. intros i Hi. apply put_bytes_lookup_ne.
  unfold apart in Ha. lia.
Qed.

(** [R] holds between any two elements at different positions. *)
Definition pairwise {A} (R : A → A → Prop) (l : list A) : Prop :=
  ∀ i j x y, l !! i = Some x → l !! j = Some y → i ≠ j → R x y.

Lemma pairwise_nil {A} (R : A → A → Prop) : pairwise R [].
Proof. by intros i j x y. Qed.

Lemma pairwise_cons {A} (R : A → A → Prop) x l :
  Forall (λ y, R x y ∧ R y x) l → pairwise R l → pairwise R (x :: l).
Proof.
  intros Hx Hl [|i] [|j] a b; simpl; intros Ha Hb Hij; [done|..].
  - injection Ha as <-. by apply (Forall_lookup_1 _ _ _ _ Hx Hb).
  - injection Hb as <-. by apply (Forall_lookup_1 _ _ _ _ Hx Ha).
  - apply (Hl i j); [done..|lia].
Qed.

Definition within (n : nat) (f : field) : Prop := 0 ≤ f_off f ∧ f_off f + f_len f ≤ n.

Definition header_ok (h : header) : Prop :=
  Forall (λ f, field_ok f ∧ within (h_size h) f) (h_fields h) ∧ pairwise leaves (h_fields h).

Lemma header_ok_intro h :
  Forall (λ f, field_ok f ∧ within (h_size h) f) (h_fields h) →
  pairwise (λ f g, apart f g ∨ leaves f g) (h_fields h) → header_ok h.
Proof.
  intros Hf Hp. split; [done|]. intros i j f g Hi Hj Hij.
  destruct (Hp i j f g Hi Hj Hij) as [Ha|]; [|done].
  apply apart_leaves; [|done]. apply (Forall_lookup_1 _ _ _ _ Hf Hj).
Qed.

(** Two parts of the same byte or word. *)
Lemma leaves_upd8 off upd ok kept dec ok' kept' set' dec' :
  (∀ x v, is_u8 x → ok v → dec' (u8 (upd x v)) = dec' x) →
  leaves (mk_field Z dec (λ m p v, x ← load8 m (p + off); store8 m (p + off) (upd x v)) off 1 ok kept)
    (mk_field Z (λ m p, v ← load8 m (p + off); Ok (dec' v)) set' off 1 ok' kept').
Proof.
  intros H m p v bs Ho Hv Hl E. cbn [f_ty f_set f_get f_off f_len f_ok] in *.
  destruct (octets_get _ _ _ 0 Ho ltac:(lia)) as (x & Hx & Ex). rewrite Z.add_0_r in Ex.
  rewrite Ex, bind_Ok, store8_put in E by by apply octets_mapped.
  assert (put_bytes m (p + off) bs = put_bytes m (p + off) [u8 (upd x v)]) as -> by congruence.
  rewrite Ex. rewrite (load8_bytes _ _ (u8 (upd x v)) []) by apply put_bytes_bytes_at.
  rewrite !bind_Ok. f_equal. auto.
Qed.

Lemma leaves_upd16 off upd ok kept dec ok' kept' set' dec' :
  (∀ x v, is_u16 x → ok v → dec' (u16 (upd x v)) = dec' x) →
  leaves (mk_field Z dec (λ m p v, x ← load16 m (p + off);
                            store16 m (p + off) (HTOBE16 (upd (BETOH16 x) v))) off 2 ok kept)
    (mk_field Z (λ m p, v ← load16 m (p + off); Ok (dec' (BETOH16 v))) set' off 2 ok' kept').
Proof.
  intros H m p v bs Ho Hv Hl E. cbn [f_ty f_set f_get f_off f_len f_ok] in *.
  destruct (octets_be16 _ _ Ho) as (x & Hx & Ex).
  rewrite (load16_be _ _ _ Ex), bind_Ok, store16_be in E by by apply octets_mapped.
  assert (put_bytes m (p + off) bs = put_bytes m (p + off) (be16 (upd (BETOH16 (HTOBE16 x)) v)))
    as -> by congruence.
  rewrite (load16_be _ _ _ Ex).
  erewrite load16_be by apply put_bytes_bytes_at. rewrite !bind_Ok, (u16_be x) by done.
  unfold BETOH16. rewrite HTOBE16_involutive. f_equal. auto.
Qed.

Ltac fields_tac tac :=
  apply header_ok_intro; cbn [h_fields h_size];
  [repeat (apply Forall_cons; split; [split; [tac|unfold within; cbn; lia]|]); apply Forall_nil_2
  |repeat (apply pairwise_cons;
     [repeat (apply Forall_cons; split; [split|]); try apply Forall_nil_2;
        try (left; unfold apart; cbn; lia)|]); try apply pairwise_nil].

Lemma eth_header_ok : header_ok eth_header.
Proof. fields_tac ltac:(first [apply (field_mac 0)|apply (field_mac 6)|apply (field_be16 12)]). Qed.

Ltac be16_conv off :=
  first [apply (field_be16_conv off u8)|apply (field_be16_conv off id)]; intros ?; unfold id; word_lia.

Lemma arp_header_ok : header_ok arp_header.
Proof.
  fields_tac ltac:(first [apply (field_be16 0)|apply (field_be16 2)|apply (field_octet 4)
    |apply (field_octet 5)|apply (field_be16 6)]).
Qed.

Lemma arp_pld_header_ok : header_ok arp_pld_header.
Proof.
  fields_tac ltac:(first [apply (field_mac 0)|apply (field_be32 6)|apply (field_mac 10)
    |apply (field_be32 16)]).
Qed.

Lemma icmp_header_ok : header_ok icmp_header.
Proof.
  fields_tac ltac:(first [apply (field_octet 0)|apply (field_octet 1)|be16_conv 2]).
Qed.

Lemma echo_header_ok : header_ok echo_header.
Proof. fields_tac ltac:(first [be16_conv 0|be16_conv 2]). Qed.

Lemma udp_header_ok : header_ok udp_header.
Proof. fields_tac ltac:(first [be16_conv 0|be16_conv 2|be16_conv 4|be16_conv 6]). Qed.

(** *** Bit fields of the IP and TCP headers *)

Lemma BITS_8 (x v : Z) : is_u8 x → 0 ≤ v →
  BITS_RD x 0x0F = x mod 16 ∧ BITS_RD x 0xF0 = x / 16 mod 16 ∧
  BITS_WR x 0x0F v = x - x mod 16 + v mod 16 ∧
  BITS_WR x 0xF0 v = x - x / 16 mod 16 * 16 + v mod 16 * 16.
Proof.
  intros Hx Hv. assert (is_u32 x) by word_lia.
  change 0x0F with (mask 0 4). change 0xF0 with (mask 4 4).
  rewrite !BITS_RD_field, !BITS_WR_field by (done || lia).
  change (2 ^ 0) with 1. change (2 ^ 4) with 16. rewrite Z.div_1_r. lia.
Qed.

Lemma BITS_16 (x v : Z) : is_u16 x → 0 ≤ v →
  BITS_RD x 0x03FF = x mod 1024 ∧ BITS_RD x 0xF000 = x / 4096 mod 16 ∧
  BITS_WR x 0x03FF v = x - x mod 1024 + v mod 1024 ∧
  BITS_WR x 0xF000 v = x - x / 4096 mod 16 * 4096 + v mod 16 * 4096.
Proof.
  intros Hx Hv. assert (is_u32 x) by word_lia.
  change 0x03FF with (mask 0 10). change 0xF000 with (mask 12 4).
  rewrite !BITS_RD_field, !BITS_WR_field by (done || lia).
  change (2 ^ 0) with 1. change (2 ^ 10) with 1024. change (2 ^ 12) with 4096.
  change (2 ^ 4) with 16. rewrite Z.div_1_r. lia.
Qed.

Lemma replace_field x v lo w :
  0 ≤ lo → 0 ≤ w → Z.land v (mask lo w) = v →
  Z.lor (Z.land x (Z.lnot (mask lo w))) v = x - x / 2 ^ lo mod 2 ^ w * 2 ^ lo + v.
Proof.
  intros Hlo Hw Hv. rewrite <- Z.ldiff_land, ldiff_sub. rewrite <- Hv at 1.
  by rewrite lor_field, Hv, land_mask_field.
Qed.

Lemma flags_all : TCPIP_IP_FLAGS_ALL = mask 14 2.
Proof. reflexivity. Qed.

Lemma ip_flags_range v : ip_flags v → ∃ k, 0 ≤ k < 4 ∧ v = k * 16384.
Proof.
  unfold ip_flags. rewrite flags_all, land_mask_field by done. intros <-.
  exists (v / 2 ^ 14 mod 2 ^ 2). change (2 ^ 14) with 16384. change (2 ^ 2) with 4. lia.
Qed.

Lemma set_flags_word x v :
  is_u16 x → ip_flags v →
  u16 (u16 (Z.lor (u16 (Z.land x (Z.lnot TCPIP_IP_FLAGS_ALL))) v)) = x mod 16384 + v.
Proof.
  intros Hx Hv. destruct (ip_flags_range v Hv) as (k & Hk & E).
  assert (Z.land x (Z.lnot (mask 14 2)) = x mod 16384) as Hc.
  { rewrite <- Z.ldiff_land, ldiff_sub, land_mask_field by done.
    change (2 ^ 14) with 16384. change (2 ^ 2) with 4. word_lia. }
  unfold ip_flags in Hv. rewrite flags_all in *.
  rewrite (u16_small (Z.land x _)) by (rewrite Hc; word_lia).
  rewrite replace_field by done. change (2 ^ 14) with 16384. change (2 ^ 2) with 4.
  subst. word_lia.
Qed.

Lemma set_offset_word x v :
  is_u16 x → ip_offset v →
  u16 (u16 (Z.lor (u16 (Z.land x (Z.lnot TCPIP_IP_FLAGS_FOFFS))) v)) = x - x mod 1024 + v.
Proof.
  intros Hx Hv. unfold ip_offset in Hv. change TCPIP_IP_FLAGS_FOFFS with (mask 0 10).
  assert (Z.land x (Z.lnot (mask 0 10)) = x - x mod 1024) as Hc.
  { rewrite <- Z.ldiff_land, ldiff_sub, land_mask_field by done.
    change (2 ^ 0) with 1. change (2 ^ 10) with 1024. rewrite Z.div_1_r. lia. }
  rewrite (u16_small (Z.land x _)) by (rewrite Hc; word_lia).
  rewrite replace_field by (done || (rewrite land_mask_field by done;
    change (2 ^ 0) with 1; change (2 ^ 10) with 1024; lia)).
  change (2 ^ 0) with 1. change (2 ^ 10) with 1024. rewrite Z.div_1_r. word_lia.
Qed.

Lemma get_flags_word y : Z.land y TCPIP_IP_FLAGS_ALL = y / 16384 mod 4 * 16384.
Proof. rewrite flags_all, land_mask_field by done. reflexivity. Qed.

Lemma get_offset_word y : Z.land y TCPIP_IP_FLAGS_FOFFS = y mod 1024.
Proof.
  change TCPIP_IP_FLAGS_FOFFS with (mask 0 10). rewrite land_mask_field by done.
  change (2 ^ 0) with 1. change (2 ^ 10) with 1024. rewrite Z.div_1_r. lia.
Qed.

(** What is read back from a word after an update of one of its parts: the new
    value from that part, the old one from the other. *)
Section updated_words.
Context (x v : Z) (Hv : 0 ≤ v).

Lemma hdr_len_word (Hx : is_u8 x) (y := u8 (BITS_WR x 0x0F (v / 4))) :
  BITS_RD y 0x0F * 4 = v / 4 mod 16 * 4 ∧ BITS_RD y 0xF0 = BITS_RD x 0xF0.
Proof.
  destruct (BITS_8 x (v / 4) Hx ltac:(lia)) as (_ & -> & E & _).
  destruct (BITS_8 y 0 (u8_range _) ltac:(lia)) as (-> & -> & _). unfold y. rewrite E. word_lia.
Qed.

Lemma version_word (Hx : is_u8 x) (y := u8 (BITS_WR x 0xF0 v)) :
  BITS_RD y 0xF0 = v mod 16 ∧ BITS_RD y 0x0F * 4 = BITS_RD x 0x0F * 4.
Proof.
  destruct (BITS_8 x v Hx Hv) as (-> & _ & _ & E).
  destruct (BITS_8 y 0 (u8_range _) ltac:(lia)) as (-> & -> & _). unfold y. rewrite E. word_lia.
Qed.

Lemma doffs_word (Hx : is_u16 x) (y := u16 (BITS_WR x 0xF000 (v / 4))) :
  BITS_RD y 0xF000 * 4 = v / 4 mod 16 * 4 ∧ BITS_RD y 0x03FF = BITS_RD x 0x03FF.
Proof.
  destruct (BITS_16 x (v / 4) Hx ltac:(lia)) as (-> & _ & _ & E).
  destruct (BITS_16 y 0 (u16_range _) ltac:(lia)) as (-> & -> & _). unfold y. rewrite E. word_lia.
Qed.

Lemma tcp_flags_word (Hx : is_u16 x) (y := u16 (BITS_WR x 0x03FF v)) :
  BITS_RD y 0x03FF = v mod 1024 ∧ BITS_RD y 0xF000 * 4 = BITS_RD x 0xF000 * 4.
Proof.
  destruct (BITS_16 x v Hx Hv) as (_ & -> & E & _).
  destruct (BITS_16 y 0 (u16_range _) ltac:(lia)) as (-> & -> & _). unfold y. rewrite E. word_lia.
Qed.
End updated_words.

Lemma ip_flags_word x v :
  is_u16 x → ip_flags v →
  let y := u16 (u16 (Z.lor (u16 (Z.land x (Z.lnot TCPIP_IP_FLAGS_ALL))) v)) in
  Z.land y TCPIP_IP_FLAGS_ALL = v ∧
  Z.land y TCPIP_IP_FLAGS_FOFFS = Z.land x TCPIP_IP_FLAGS_FOFFS.
Proof.
  intros Hx Hv y. unfold y. rewrite set_flags_word by done.
  destruct (ip_flags_range _ Hv) as (k & ? & ->).
  rewrite get_flags_word, !get_offset_word. word_lia.
Qed.

Lemma ip_offset_word x v :
  is_u16 x → ip_offset v →
  let y := u16 (u16 (Z.lor (u16 (Z.land x (Z.lnot TCPIP_IP_FLAGS_FOFFS))) v)) in
  Z.land y TCPIP_IP_FLAGS_FOFFS = v ∧
  Z.land y TCPIP_IP_FLAGS_ALL = Z.land x TCPIP_IP_FLAGS_ALL.
Proof.
  intros Hx Hv y. unfold y. rewrite set_offset_word by done. unfold ip_offset in Hv.
  rewrite !get_flags_word, get_offset_word. word_lia.
Qed.

Lemma ip_header_ok : header_ok ip_header.
Proof.
  fields_tac ltac:(first
    [ apply (field_upd8 0 (λ x v, BITS_WR x 0x0F (v / 4)) (λ x, BITS_RD x 0x0F * 4));
      intros x v Hx Hv; by apply hdr_len_word
    | apply (field_upd8 0 (λ x v, BITS_WR x 0xF0 v) (λ x, BITS_RD x 0xF0));
      intros x v Hx Hv; by apply version_word
    | apply (field_octet 1) | be16_conv 2 | be16_conv 4
    | apply (field_upd16 6 (λ x v, u16 (Z.lor (u16 (Z.land x (Z.lnot TCPIP_IP_FLAGS_ALL))) v))
        (λ x, Z.land x TCPIP_IP_FLAGS_ALL)); intros x v Hx Hv; by apply ip_flags_word
    | apply (field_upd16 6 (λ x v, u16 (Z.lor (u16 (Z.land x (Z.lnot TCPIP_IP_FLAGS_FOFFS))) v))
        (λ x, Z.land x TCPIP_IP_FLAGS_FOFFS)); intros x v Hx Hv; by apply ip_offset_word
    | apply (field_octet 8) | apply (field_octet 9) | be16_conv 10
    | apply (field_be32 12) | apply (field_be32 16)]).
  all: right.
  - apply (leaves_upd8 0 (λ x v, BITS_WR x 0x0F (v / 4))). intros x v Hx Hv. by apply hdr_len_word.
  - apply (leaves_upd8 0 (λ x v, BITS_WR x 0xF0 v) _ _ _ _ _ _ (λ x, BITS_RD x 0x0F * 4)).
    intros x v Hx Hv. by apply version_word.
  - apply (leaves_upd16 6 (λ x v, u16 (Z.lor (u16 (Z.land x (Z.lnot TCPIP_IP_FLAGS_ALL))) v))
      _ _ _ _ _ _ (λ x, Z.land x TCPIP_IP_FLAGS_FOFFS)).
    intros x v Hx Hv. by apply ip_flags_word.
  - apply (leaves_upd16 6 (λ x v, u16 (Z.lor (u16 (Z.land x (Z.lnot TCPIP_IP_FLAGS_FOFFS))) v))
      _ _ _ _ _ _ (λ x, Z.land x TCPIP_IP_FLAGS_ALL)).
    intros x v Hx Hv. by apply ip_offset_word.
Qed.

Lemma tcp_header_ok : header_ok tcp_header.
Proof.
  fields_tac ltac:(first
    [ be16_conv 0 | be16_conv 2 | apply (field_be32 4) | apply (field_be32 8)
    | apply (field_upd16 12 (λ x v, BITS_WR x 0xF000 (v / 4)) (λ x, BITS_RD x 0xF000 * 4));
      intros x v Hx Hv; by apply doffs_word
    | apply (field_upd16 12 (λ x v, BITS_WR x 0x03FF v) (λ x, BITS_RD x 0x03FF));
      intros x v Hx Hv; by apply tcp_flags_word
    | apply (field_be16 14) | be16_conv 16 | be16_conv 18]).
  all: right.
  - apply (leaves_upd16 12 (λ x v, BITS_WR x 0xF000 (v / 4)) _ _ _ _ _ _ (λ x, BITS_RD x 0x03FF)).
    intros x v Hx Hv. by apply doffs_word.
  - apply (leaves_upd16 12 (λ x v, BITS_WR x 0x03FF v) _ _ _ _ _ _ (λ x, BITS_RD x 0xF000 * 4)).
    intros x v Hx Hv. by apply tcp_flags_word.
Qed.

Lemma headers_ok : Forall header_ok headers.
Proof.
  repeat apply Forall_cons_2; try apply Forall_nil_2.
  - apply eth_header_ok.
  - apply arp_header_ok.
  - apply arp_pld_header_ok.
  - apply ip_header_ok.
  - apply icmp_header_ok.
  - apply echo_header_ok.
  - apply udp_header_ok.
  - apply tcp_header_ok.
Qed.

(** Setting a field: the statement of the property below, for use in proofs. *)
Lemma header_set h i f m p v :
  h ∈ headers → h_fields h !! i = Some f →
  octets m p (h_size h) → f_ok f v →
  ∃ m', f_set f m p v = Ok m' ∧ octets m' p (h_size h) ∧
    f_get f m' p = Ok (f_kept f v) ∧
    (∀ j g, h_fields h !! j = Some g → j ≠ i → f_get g m' p = f_get g m p) ∧
    (∀ a, ¬ (p ≤ a < p + h_size h) → m' !! a = m !! a).
Proof.
  intros Hh Hi Ho Hv. pose proof headers_ok as HF. rewrite Forall_forall in HF.
  destruct (HF h Hh) as [Hf Hl].
  destruct (Forall_lookup_1 _ _ _ _ Hf Hi) as [[Hs _] [Hw1 Hw2]].
  assert (octets m (p + f_off f) (f_len f)) as Hof.
  { replace (f_off f) with (Z.of_nat (Z.to_nat (f_off f))) by lia.
    apply octets_sub with (n := h_size h); [done|lia]. }
  destruct (Hs m p v Hof Hv) as (bs & Hlen & Hu & E & G).
  exists (put_bytes m (p + f_off f) bs). split; [done|]. split; [by apply octets_put|].
  split; [done|]. split.
  - intros j g Hj Hne. by apply (Hl i j f g Hi Hj (not_eq_sym Hne) m p v bs).
  - intros a Ha. apply put_bytes_lookup_ne. lia.
Qed.

(** What is known of a header: fields, by their position, and their values. *)
Definition known (h : header) (m : mem) (p : Z) (K : list (nat * sigT f_ty)) : Prop :=
  Forall (λ iv, h_fields h !! iv.1 = Some (projT1 iv.2) ∧ f_get (projT1 iv.2) m p = Ok (projT2 iv.2)) K.

Definition learn (i : nat) (v : sigT f_ty) (K : list (nat * sigT f_ty)) : list (nat * sigT f_ty) :=
  (i, v) :: filter (λ jv, jv.1 ≠ i) K.

Lemma known_get h m p K i f v : known h m p K → (i, existT f v) ∈ K → f_get f m p = Ok v.
Proof. intros H Hi. apply (proj1 (Forall_forall _ _) H) in Hi as [_ E]. exact E. Qed.

(** A setter adds its field to what is known. *)
Lemma set_known h i f m p v K :
  h ∈ headers → h_fields h !! i = Some f → octets m p (h_size h) → f_ok f v → known h m p K →
  ∃ m', f_set f m p v = Ok m' ∧ octets m' p (h_size h) ∧ known h m' p (learn i (existT f (f_kept f v)) K) ∧
    (∀ a, ¬ (p ≤ a < p + h_size h) → m' !! a = m !! a).
Proof.
  intros Hh Hi Ho Hv HK. destruct (header_set h i f m p v Hh Hi Ho Hv) as (m' & E & Ho' & G & Hoth & Hout).
  exists m'. split; [done|]. split; [done|]. split; [|done]. apply Forall_cons_2; [done|].
  apply Forall_forall. intros [j [g w]] Hj. apply list_elem_of_filter in Hj as [Hne Hj].
  apply (proj1 (Forall_forall _ _) HK) in Hj as [Hj Hg]. cbn in *. split; [done|]. by rewrite (Hoth j g).
Qed.

(** The same bytes elsewhere are the same header. *)
Lemma known_agree h m p m' p' K :
  h ∈ headers → agree m p m' p' (h_size h) → known h m p K → known h m' p' K.
Proof.
  intros Hh Ha HK. pose proof headers_ok as HF. rewrite Forall_forall in HF.
  destruct (HF h Hh) as [Hf _]. apply Forall_forall. intros [j [g w]] Hj.
  apply (proj1 (Forall_forall _ _) HK) in Hj as [Hj Hg]. cbn in *. split; [done|].
  destruct (Forall_lookup_1 _ _ _ _ Hf Hj) as [[_ Hr] [Hw1 Hw2]].
  rewrite <- Hg. symmetry. apply Hr, (agree_sub _ _ _ _ (h_size h)); [done|lia..].
Qed.

(** ** Properties *)

(** For every field of every header: the setter writes inside the header,
    the getter then returns the stored value (as far as the field can keep it),
    all other getters of the header return what they did before, and memory
    outside the header is untouched. *)
Theorem header_fields h i f m p v :
  h ∈ headers → h_fields h !! i = Some f →
  octets m p (h_size h) → f_ok f v →
  ∃ m', f_set f m p v = Ok m' ∧ octets m' p (h_size h) ∧
    f_get f m' p = Ok (f_kept f v) ∧
    (∀ j g, h_fields h !! j = Some g → j ≠ i → f_get g m' p = f_get g m p) ∧
    (∀ a, ¬ (p ≤ a < p + h_size h) → m' !! a = m !! a).
Proof. intros. by apply header_set. Qed.

(** ** Witnesses *)

Definition demo_hdr : mem := put_bytes ∅ 100 (replicate 20 0).

Lemma header_fields_witness :
  ∃ m', TCPIPTcpFrame_SetDataOffs demo_hdr 100 20 = Ok m' ∧
    TCPIPTcpFrame_GetDataOffs m' 100 = Ok 20 ∧ TCPIPTcpFrame_GetFlags m' 100 = Ok 0.
Proof.
  destruct (header_fields tcp_header 4 (mk_field Z TCPIPTcpFrame_GetDataOffs
    TCPIPTcpFrame_SetDataOffs 12 2 unsigned (λ v, v / 4 mod 16 * 4)) demo_hdr 100 20)
    as (m' & E & _ & G & Hoth & _).
  - unfold headers. set_solver.
  - reflexivity.
  - exists (replicate 20 0). split; [done|]. split; [by repeat constructor|]. apply put_bytes_bytes_at.
  - vm_compute. discriminate.
  - exists m'. split; [exact E|]. split; [exact G|].
    rewrite (Hoth 5%nat (mk_field Z TCPIPTcpFrame_GetFlags TCPIPTcpFrame_SetFlags 12 2 unsigned
      (λ v, v mod 1024)) eq_refl ltac:(lia) : TCPIPTcpFrame_GetFlags m' 100 = _).
    reflexivity.
Defined.

(** The getters of identification and checksum return one byte of the field. *)
Example checksum_truncated :
  (m ← TCPIPIpFrame_SetChecksum demo_hdr 100 0x1234; TCPIPIpFrame_GetChecksum m 100) = Ok 0x34.
Proof. reflexivity. Qed.

(** The fragmentation fields do not lie where RFC 791 puts them: the "more
    fragments" bit of the wire format counts as neither flag nor offset. *)
Example more_fragments_unseen :
  let m := put_bytes demo_hdr 106 [0x20; 0x00] in
  TCPIPIpFrame_GetFlags m 100 = Ok 0 ∧ TCPIPIpFrame_GetFragmentOffset m 100 = Ok 0.
Proof. split; reflexivity. Qed.
