(* ===== verification/Checksum.v ===== *)
(** * Internet checksum (net/tcpip/src/checksum.c, ip_checksum.c, icmp_checksum.c,
      udp_checksum.c, tcp_checksum.c)

    The checksum is the one's complement of the one's complement sum of the
    16-bit big-endian words of a buffer.  The specification is its closed form
    ([oc_norm]); theorems: the loop computes it, a frame whose checksum was set
    is valid, and a single changed byte makes it invalid. *)
From S2P Require Import Prelude Words Frames.

(** ** Operations *)

(** [if ((sum += val) < val) sum += 1] on [uint16_t]. *)
Definition add_carry (sum val : Z) : Z :=
  let sum := u16 (sum + val) in if sum <? val then u16 (sum + 1) else sum.

Fixpoint checksum_loop (fuel : nat) (m : mem) (p size sum : Z) : res Z :=
  match fuel with
  | O => Fault OutOfFuel
  | S fuel' =>
      if 2 <=? size then
        v ← load16 m p;
        checksum_loop fuel' m (p + 2) (size - 2) (add_carry sum (BETOH16 v))
      else if negb (size =? 0) then
        v ← load8 m p;
        Ok (add_carry sum (BETOH16 v))
      else Ok sum
  end.

Definition TCPIPChecksum_Checksum (m : mem) (sum ptr size : Z) : res Z :=
  checksum_loop (S (base.size m)) m ptr size (u16 sum).

(** *** ip_checksum.c *)

Definition TCPIPIpChecksum_Compute (m : mem) (ip : Z) : res Z :=
  hdr_len ← TCPIPIpFrame_GetHdrLen m ip;
  sum ← TCPIPChecksum_Checksum m 0 ip (u32 hdr_len);
  Ok (u16 (Z.lnot sum)).

Definition TCPIPIpChecksum_Set (m : mem) (ip : Z) : res mem :=
  m ← TCPIPIpFrame_SetChecksum m ip 0;
  checksum ← TCPIPIpChecksum_Compute m ip;
  TCPIPIpFrame_SetChecksum m ip checksum.

Definition TCPIPIpChecksum_IsValid (m : mem) (ip : Z) : res bool :=
  checksum ← TCPIPIpChecksum_Compute m ip; Ok (checksum =? 0).

(** *** icmp_checksum.c *)

Definition TCPIPIcmpChecksum_Compute (m : mem) (icmp size : Z) : res Z :=
  sum ← TCPIPChecksum_Checksum m 0 icmp size; Ok (u16 (Z.lnot sum)).

Definition TCPIPIcmpChecksum_Set (m : mem) (icmp size : Z) : res mem :=
  m ← TCPIPIcmpFrame_SetChecksum m icmp 0;
  checksum ← TCPIPIcmpChecksum_Compute m icmp size;
  TCPIPIcmpFrame_SetChecksum m icmp checksum.

Definition TCPIPIcmpChecksum_IsValid (m : mem) (icmp size : Z) : res bool :=
  checksum ← TCPIPIcmpChecksum_Compute m icmp size; Ok (checksum =? 0).

(** *** udp_checksum.c

    The pseudo header is a local object, summed up in a memory of its own. *)

Definition TCPIPUdpChecksum_Compute (m : mem) (ip udp : Z) : res Z :=
  phdr ← TCPIPIpFrame_GetPseudoHdr m ip;
  sum ← TCPIPChecksum_Checksum (put_bytes ∅ 0 phdr) 0 0 sizeof_pseudo_hdr;
  length ← TCPIPIpFrame_GetLength m ip;
  hdr_len ← TCPIPIpFrame_GetHdrLen m ip;
  sum ← TCPIPChecksum_Checksum m sum udp (u32 (length - hdr_len));
  Ok (u16 (Z.lnot sum)).

Definition TCPIPUdpChecksum_Set (m : mem) (ip udp : Z) : res mem :=
  m ← TCPIPUdpFrame_SetChecksum m udp 0;
  checksum ← TCPIPUdpChecksum_Compute m ip udp;
  TCPIPUdpFrame_SetChecksum m udp checksum.

Definition TCPIPUdpChecksum_IsValid (m : mem) (ip udp : Z) : res bool :=
  checksum ← TCPIPUdpChecksum_Compute m ip udp; Ok (checksum =? 0).

(** *** tcp_checksum.c *)

Definition TCPIPTcpChecksum_Compute (m : mem) (ip udp : Z) : res Z :=
  phdr ← TCPIPIpFrame_GetPseudoHdr m ip;
  sum ← TCPIPChecksum_Checksum (put_bytes ∅ 0 phdr) 0 0 sizeof_pseudo_hdr;
  length ← TCPIPIpFrame_GetLength m ip;
  hdr_len ← TCPIPIpFrame_GetHdrLen m ip;
  sum ← TCPIPChecksum_Checksum m sum udp (u32 (length - hdr_len));
  Ok (u16 (Z.lnot sum)).

Definition TCPIPTcpChecksum_Set (m : mem) (ip udp : Z) : res mem :=
  m ← TCPIPTcpFrame_SetChecksum m udp 0;
  checksum ← TCPIPTcpChecksum_Compute m ip udp;
  TCPIPTcpFrame_SetChecksum m udp checksum.

Definition TCPIPTcpChecksum_IsValid (m : mem) (ip udp : Z) : res bool :=
  checksum ← TCPIPTcpChecksum_Compute m ip udp; Ok (checksum =? 0).

(** ** Specification

    The sum of the 16-bit words of a buffer, an odd last byte padded with zero. *)
Fixpoint words (l : list Z) : Z :=
  match l with
  | a :: b :: l' => a * 256 + b + words l'
  | [a] => a * 256
  | [] => 0
  end.

(** The one's complement sum of words with total [t]: zero only for zero, else
    the representative of [t] modulo 65535 in 1, ..., 65535. *)
Definition oc_norm (t : Z) : Z := if t =? 0 then 0 else (t - 1) mod 65535 + 1.

(** ** The loop *)

Lemma oc_norm_range t : 0 ≤ t → is_u16 (oc_norm t).
Proof. intros Ht. unfold oc_norm. destruct (t =? 0); word_lia. Qed.

Lemma oc_norm_small t : is_u16 t → oc_norm t = t.
Proof. intros Ht. unfold oc_norm. destruct (Z.eqb_spec t 0); word_lia. Qed.

Lemma add_carry_norm a b : is_u16 a → is_u16 b → add_carry a b = oc_norm (a + b).
Proof.
  intros Ha Hb. unfold add_carry, oc_norm. cbv zeta.
  destruct (Z.ltb_spec (u16 (a + b)) b), (Z.eqb_spec (a + b) 0); word_lia.
Qed.

Lemma oc_norm_add t b : 0 ≤ t → 0 ≤ b → oc_norm (oc_norm t + b) = oc_norm (t + b).
Proof.
  intros Ht Hb. unfold oc_norm.
  destruct (Z.eqb_spec t 0) as [->|Hne]; [by rewrite Z.add_0_l|].
  destruct (Z.eqb_spec (t + b) 0); [lia|].
  destruct (Z.eqb_spec ((t - 1) mod 65535 + 1 + b) 0); [lia|].
  replace ((t - 1) mod 65535 + 1 + b - 1) with ((t - 1) mod 65535 + b) by lia.
  rewrite Zplus_mod_idemp_l. f_equal. f_equal. lia.
Qed.

Lemma words_nonneg l : Forall is_u8 l → 0 ≤ words l.
Proof.
  revert l. fix IH 1. intros [|a [|b l]] H; simpl; [done|..].
  - apply Forall_cons_1 in H as [? _]. word_lia.
  - apply Forall_cons_1 in H as [? H]. apply Forall_cons_1 in H as [? H].
    specialize (IH l H). word_lia.
Qed.

Lemma BETOH16_bytes a b : is_u8 a → is_u8 b → BETOH16 (a + 256 * b) = a * 256 + b.
Proof. intros Ha Hb. unfold BETOH16. rewrite HTOBE16_bytes. byte_arith. word_lia. Qed.

Lemma BETOH16_byte a : is_u8 a → BETOH16 a = a * 256.
Proof. intros Ha. unfold BETOH16. rewrite HTOBE16_bytes. byte_arith. word_lia. Qed.

Lemma checksum_loop_ok : ∀ l fuel m p t,
  Forall is_u8 l → bytes_at m p l → 0 ≤ t → (length l < fuel)%nat →
  checksum_loop fuel m p (length l) (oc_norm t) = Ok (oc_norm (t + words l)).
Proof.
  fix IH 1. intros [|a [|b l]] [|fuel] m p t Hu Hm Ht Hf; try (simpl in Hf; lia).
  - simpl. by rewrite Z.add_0_r.
  - apply Forall_cons_1 in Hu as [Ha _]. cbn [checksum_loop length]. cbn -[BETOH16 add_carry load8 oc_norm].
    rewrite (load8_bytes _ _ _ _ Hm), bind_Ok, BETOH16_byte by done.
    rewrite add_carry_norm by (word_lia || by apply oc_norm_range).
    by rewrite oc_norm_add by word_lia.
  - apply Forall_cons_1 in Hu as [Ha Hu]. apply Forall_cons_1 in Hu as [Hb Hu].
    destruct Hm as (Hma & Hmb & Hm). cbn [checksum_loop].
    assert ((2 <=? Z.of_nat (length (a :: b :: l))) = true) as -> by (apply Z.leb_le; simpl; lia).
    unfold load16, load8. rewrite Hma, bind_Ok, Hmb, !bind_Ok, BETOH16_bytes by done.
    rewrite add_carry_norm by (word_lia || by apply oc_norm_range).
    rewrite oc_norm_add by word_lia.
    replace (Z.of_nat (length (a :: b :: l)) - 2) with (Z.of_nat (length l)) by (simpl; lia).
    replace (p + 2) with (p + 1 + 1) by lia.
    rewrite IH by (done || word_lia || (simpl in Hf; lia)). cbn [words]. do 2 f_equal. lia.
Qed.

Lemma Checksum_ok m sum p l :
  is_u16 sum → Forall is_u8 l → bytes_at m p l →
  TCPIPChecksum_Checksum m sum p (length l) = Ok (oc_norm (sum + words l)).
Proof.
  intros Hs Hu Hm. unfold TCPIPChecksum_Checksum. rewrite u16_small by done.
  rewrite <- (oc_norm_small sum) at 1 by done.
  apply checksum_loop_ok; [done..|word_lia|].
  apply bytes_at_mapped, mapped_size in Hm. lia.
Qed.

(** ** Setting the checksum field *)

Lemma u16_lnot s : is_u16 s → u16 (Z.lnot s) = 65535 - s.
Proof. intros Hs. unfold Z.lnot. word_lia. Qed.

Lemma words_app : ∀ l1 l2, Nat.even (length l1) = true → words (l1 ++ l2) = words l1 + words l2.
Proof.
  fix IH 1. intros [|a [|b l1]] l2 H; simpl in *; [done..|]. rewrite IH by done. lia.
Qed.

Lemma words_be16 v l : is_u16 v → words (be16 v ++ l) = v + words l.
Proof. intros Hv. simpl. byte_arith. word_lia. Qed.

Lemma words_splice l k v :
  Nat.even k = true → (k + 2 ≤ length l)%nat → is_u16 v →
  words (splice l k (be16 v)) = words (take k l) + v + words (drop (k + 2) l).
Proof.
  intros Hk Hl Hv. unfold splice. rewrite words_app by (by rewrite length_take_le by lia).
  rewrite words_be16 by done. change (length (be16 v)) with 2%nat. lia.
Qed.

Lemma splice_u8 l k bs : Forall is_u8 l → Forall is_u8 bs → Forall is_u8 (splice l k bs).
Proof. intros Hl Hb. unfold splice. repeat apply Forall_app_2; auto using Forall_take, Forall_drop. Qed.

(** The field is zeroed, the checksum [65535 - oc_norm t] of the rest is put
    there: the total becomes a multiple of 65535. *)
Lemma checksum_cancels t : 0 ≤ t → oc_norm (t + (65535 - oc_norm t)) = 65535.
Proof.
  intros Ht. rewrite Z.add_comm. unfold oc_norm.
  destruct (Z.eqb_spec t 0) as [->|Hne]; [reflexivity|].
  destruct (Z.eqb_spec (65535 - ((t - 1) mod 65535 + 1) + t) 0); [lia|]. lia.
Qed.

Lemma oc_norm_valid t : 0 ≤ t → oc_norm t = 65535 ↔ 0 < t ∧ t mod 65535 = 0.
Proof. intros Ht. unfold oc_norm. destruct (Z.eqb_spec t 0); lia. Qed.

(** A checksum over the bytes at [p] and words that add up to [t], with its
    field at the even offset [k]. *)
Section field.
Context (m : mem) (p : Z) (l : list Z) (k : nat) (t : Z).
Context (compute : mem → res Z) (set_field : mem → Z → res mem).
Context (Hm : bytes_at m p l) (Hu : Forall is_u8 l) (Ht : 0 ≤ t).
Context (Heven : Nat.even k = true) (Hk : (k + 2 ≤ length l)%nat).
Context (Hcompute : ∀ v, is_u16 v →
  compute (put_bytes m p (splice l k (be16 v))) = Ok (65535 - oc_norm (t + words (splice l k (be16 v))))).
Context (Hset : ∀ m' v, mapped m' p (length l) → is_u16 v →
  set_field m' v = Ok (put_bytes m' (p + k) (be16 v))).

Let rest := t + words (take k l) + words (drop (k + 2) l).
Let sum := 65535 - oc_norm rest.

Lemma rest_nonneg : 0 ≤ rest.
Proof.
  pose proof (words_nonneg (take k l) ltac:(by apply Forall_take)).
  pose proof (words_nonneg (drop (k + 2) l) ltac:(by apply Forall_drop)). unfold rest. lia.
Qed.

Lemma sum_u16 : is_u16 sum.
Proof. pose proof (oc_norm_range rest rest_nonneg). unfold sum. word_lia. Qed.

Lemma total_splice v : is_u16 v → t + words (splice l k (be16 v)) = rest + v.
Proof. intros Hv. rewrite words_splice by done. unfold rest. lia. Qed.

Lemma set_field_put m' v :
  bytes_at m' p l → is_u16 v → set_field m' v = Ok (put_bytes m' p (splice l k (be16 v))).
Proof.
  intros H Hv. rewrite Hset by (done || by apply bytes_at_mapped).
  by rewrite (put_bytes_splice _ _ l) by done.
Qed.

Lemma splice_splice bs bs' :
  length bs = 2%nat → length bs' = 2%nat → splice (splice l k bs) k bs' = splice l k bs'.
Proof.
  intros H H'. unfold splice. rewrite H, H'.
  assert (length (take k l) = k) as Hlen by (rewrite length_take; lia).
  rewrite <- Hlen at 1. rewrite take_app_length. f_equal. f_equal.
  rewrite app_assoc, drop_app_length'; [done|]. rewrite length_app. lia.
Qed.

Lemma set_checksum :
  (m' ← set_field m 0; c ← compute m'; set_field m' c) = Ok (put_bytes m p (splice l k (be16 sum))) ∧
  compute (put_bytes m p (splice l k (be16 sum))) = Ok 0.
Proof.
  assert (is_u16 0) as H0 by word_lia. pose proof sum_u16 as Hs.
  rewrite set_field_put, bind_Ok, Hcompute, bind_Ok, total_splice, Z.add_0_r by done.
  fold sum. split.
  - rewrite Hset; [|by apply put_bytes_mapped, bytes_at_mapped|done].
    rewrite (put_bytes_splice _ _ (splice l k (be16 0))), splice_splice by
      (done || apply put_bytes_bytes_at || (rewrite splice_length by done; done)).
    rewrite put_bytes_overwrite by by rewrite !splice_length. done.
  - rewrite Hcompute, total_splice by done. unfold sum.
    rewrite checksum_cancels by apply rest_nonneg. done.
Qed.
End field.

(** ** The four layers *)

Inductive layer :=
| LayerIP (ip : Z)
| LayerICMP (icmp size : Z)
| LayerUDP (ip udp : Z)
| LayerTCP (ip tcp : Z).

Definition layer_compute (L : layer) (m : mem) : res Z :=
  match L with
  | LayerIP ip => TCPIPIpChecksum_Compute m ip
  | LayerICMP icmp size => TCPIPIcmpChecksum_Compute m icmp size
  | LayerUDP ip udp => TCPIPUdpChecksum_Compute m ip udp
  | LayerTCP ip tcp => TCPIPTcpChecksum_Compute m ip tcp
  end.

Definition layer_set (L : layer) (m : mem) : res mem :=
  match L with
  | LayerIP ip => TCPIPIpChecksum_Set m ip
  | LayerICMP icmp size => TCPIPIcmpChecksum_Set m icmp size
  | LayerUDP ip udp => TCPIPUdpChecksum_Set m ip udp
  | LayerTCP ip tcp => TCPIPTcpChecksum_Set m ip tcp
  end.

Definition layer_valid (L : layer) (m : mem) : res bool :=
  match L with
  | LayerIP ip => TCPIPIpChecksum_IsValid m ip
  | LayerICMP icmp size => TCPIPIcmpChecksum_IsValid m icmp size
  | LayerUDP ip udp => TCPIPUdpChecksum_IsValid m ip udp
  | LayerTCP ip tcp => TCPIPTcpChecksum_IsValid m ip tcp
  end.

(** Where the bytes under the checksum start, and the offset of its field. *)
Definition layer_ptr (L : layer) : Z :=
  match L with
  | LayerIP ip => ip | LayerICMP icmp _ => icmp | LayerUDP _ udp => udp | LayerTCP _ tcp => tcp
  end.
Definition layer_off (L : layer) : nat :=
  match L with LayerIP _ => 10 | LayerICMP _ _ => 2 | LayerUDP _ _ => 6 | LayerTCP _ _ => 16 end%nat.

(** A segment of [n] bytes at [seg] behind the IP header at [ip], which says so. *)
Definition segment_of (m : mem) (ip seg : Z) (n : nat) : Prop :=
  octets m ip 20 ∧ (ip + 20 ≤ seg ∨ seg + n ≤ ip) ∧
  ∃ hl, TCPIPIpFrame_GetHdrLen m ip = Ok hl ∧ TCPIPIpFrame_GetLength m ip = Ok (hl + n) ∧
        0 ≤ hl ∧ hl + n < 65536.

(** The checksum of layer [L] covers the bytes [l]. *)
Definition covers (L : layer) (m : mem) (l : list Z) : Prop :=
  bytes_at m (layer_ptr L) l ∧ Forall is_u8 l ∧ (layer_off L + 2 ≤ length l)%nat ∧
  match L with
  | LayerIP _ => ∃ b, l !! 0%nat = Some b ∧ Z.of_nat (length l) = b mod 16 * 4
  | LayerICMP _ size => size = length l
  | LayerUDP ip seg | LayerTCP ip seg => segment_of m ip seg (length l)
  end.

(** The first byte of an IP header says how long it is. *)
Definition same_extent (L : layer) (l l' : list Z) : Prop :=
  length l' = length l ∧ match L with LayerIP _ => l' !! 0%nat = l !! 0%nat | _ => True end.

Lemma agree_put m p bs a (n : nat) : a + n ≤ p ∨ p + length bs ≤ a → agree (put_bytes m p bs) a m a n.
Proof. intros H i Hi. apply put_bytes_lookup_ne. lia. Qed.

Lemma agree_pseudo m m' ip :
  agree m ip m' ip 20 →
  TCPIPIpFrame_GetPseudoHdr m ip = TCPIPIpFrame_GetPseudoHdr m' ip ∧
  TCPIPIpFrame_GetLength m ip = TCPIPIpFrame_GetLength m' ip ∧
  TCPIPIpFrame_GetHdrLen m ip = TCPIPIpFrame_GetHdrLen m' ip.
Proof.
  intros H.
  assert (load8 m (ip + 0) = load8 m' (ip + 0)) as E0 
    by (apply agree_load8, (agree_sub _ _ _ _ 20 0 1); [done|lia..]).
  assert (load16 m (ip + 2) = load16 m' (ip + 2)) as E2 
    by (apply agree_load16, (agree_sub _ _ _ _ 20 2 2); [done|lia..]).
  assert (load8 m (ip + 9) = load8 m' (ip + 9)) as E9 
    by (apply agree_load8, (agree_sub _ _ _ _ 20 9 1); [done|lia..]).
  assert (load32 m (ip + 12) = load32 m' (ip + 12)) as E12 
    by (apply agree_load32, (agree_sub _ _ _ _ 20 12 4); [done|lia..]).
  assert (load32 m (ip + 16) = load32 m' (ip + 16)) as E16 
    by (apply agree_load32, (agree_sub _ _ _ _ 20 16 4); [done|lia..]).
  unfold TCPIPIpFrame_GetPseudoHdr, TCPIPIpFrame_GetLength, TCPIPIpFrame_GetHdrLen.
  by rewrite E0, E2, E9, E12, E16.
Qed.

Lemma octets_load16 m a : octets m a 2 → ∃ v, load16 m a = Ok v.
Proof.
  intros H. destruct (octets_be16 _ _ H) as (v & _ & E). exists (HTOBE16 v). by apply load16_be.
Qed.

Lemma octets_load32 m a : octets m a 4 → ∃ v, load32 m a = Ok v.
Proof.
  intros H. destruct (octets_load16 m a) as [v1 E1]; [apply (octets_sub _ _ _ 0 2) in H; [|lia];
    by rewrite Z.add_0_r in H|].
  destruct (octets_load16 m (a + 2)) as [v2 E2]; [by apply (octets_sub _ _ _ 2 2) in H; [|lia]|].
  exists (v1 + 65536 * v2). unfold load32. by rewrite E1, bind_Ok, E2.
Qed.

Lemma pseudo_ok m ip n seg :
  segment_of m ip seg n →
  ∃ phdr, TCPIPIpFrame_GetPseudoHdr m ip = Ok phdr ∧ length phdr = 12%nat ∧ Forall is_u8 phdr.
Proof.
  intros (Ho & _ & hl & Eh & El & _). unfold TCPIPIpFrame_GetPseudoHdr. rewrite El, bind_Ok, Eh, bind_Ok.
  destruct (octets_load32 m (ip + 12)) as [sa ->]; [by apply (octets_sub _ _ _ 12 4) in Ho; [|lia]|].
  destruct (octets_load32 m (ip + 16)) as [da ->]; [by apply (octets_sub _ _ _ 16 4) in Ho; [|lia]|].
  destruct (octets_get _ _ _ 9 Ho ltac:(lia)) as (pr & Hpr & E9).
  change (ip + 9%nat) with (ip + 9) in E9. rewrite E9, !bind_Ok.
  eexists. split; [done|]. split; [done|]. unfold le32, le16.
  repeat apply Forall_cons_2; try apply Forall_nil_2; try apply u8_range; [word_lia|done].
Qed.

Lemma transport_sum m ip seg l l' :
  bytes_at m seg l → segment_of m ip seg (length l) → length l' = length l → Forall is_u8 l' →
  let m' := put_bytes m seg l' in
  ∃ phdr, TCPIPIpFrame_GetPseudoHdr m ip = Ok phdr ∧ Forall is_u8 phdr ∧
    (∀ cont : Z → res Z,
      (phdr ← TCPIPIpFrame_GetPseudoHdr m' ip;
       sum ← TCPIPChecksum_Checksum (put_bytes ∅ 0 phdr) 0 0 sizeof_pseudo_hdr;
       length ← TCPIPIpFrame_GetLength m' ip;
       hdr_len ← TCPIPIpFrame_GetHdrLen m' ip;
       sum ← TCPIPChecksum_Checksum m' sum seg (u32 (length - hdr_len));
       cont sum) = cont (oc_norm (words phdr + words l'))).
Proof.
  intros Hm Hs Hl Hu m'. destruct (pseudo_ok _ _ _ _ Hs) as (phdr & Ep & Hlp & Hup).
  destruct Hs as (Ho & Ha & hl & Eh & El & Hhl & Hmax).
  exists phdr. split; [done|]. split; [done|]. intros cont.
  destruct (agree_pseudo m' m ip) as (-> & -> & ->).
  { apply agree_put. rewrite Hl. lia. }
  rewrite Ep, bind_Ok. change sizeof_pseudo_hdr with (Z.of_nat 12). rewrite <- Hlp.
  rewrite (Checksum_ok _ _ _ phdr), bind_Ok by (done || apply put_bytes_bytes_at).
  rewrite El, bind_Ok, Eh, bind_Ok.
  replace (u32 (hl + length l - hl)) with (Z.of_nat (length l')) by word_lia.
  pose proof (words_nonneg _ Hup). pose proof (words_nonneg _ Hu).
  rewrite (Checksum_ok _ _ _ l'), bind_Ok by (done || apply put_bytes_bytes_at || by apply oc_norm_range).
  by rewrite Z.add_0_l, oc_norm_add.
Qed.

Lemma compute_ok L m l :
  covers L m l → ∃ t, 0 ≤ t ∧
    ∀ l', same_extent L l l' → Forall is_u8 l' →
      layer_compute L (put_bytes m (layer_ptr L) l') = Ok (65535 - oc_norm (t + words l')).
Proof.
  assert (∀ m0 p l', Forall is_u8 l' →
    TCPIPChecksum_Checksum (put_bytes m0 p l') 0 p (length l') = Ok (oc_norm (0 + words l'))) as Hsum.
  { intros m0 p l' Hu. apply Checksum_ok; [done..|apply put_bytes_bytes_at]. }
  assert (∀ t l', 0 ≤ t → Forall is_u8 l' →
    u16 (Z.lnot (oc_norm (t + words l'))) = 65535 - oc_norm (t + words l')) as Hnot.
  { intros t l' Ht Hu. apply u16_lnot, oc_norm_range. pose proof (words_nonneg _ Hu). lia. }
  intros (Hm & Hu & Hk & HL). destruct L as [ip|icmp size|ip udp|ip tcp]; simpl in *.
  - exists 0. split; [done|]. intros l' [Hl' He] Hu'. destruct HL as (b & Hb & Hlen).
    unfold TCPIPIpChecksum_Compute, TCPIPIpFrame_GetHdrLen.
    rewrite <- He in Hb. pose proof (Forall_lookup_1 _ _ _ _ Hu' Hb) as Hbu.
    pose proof (bytes_at_load8 _ _ _ 0 _ (put_bytes_bytes_at m ip l') Hb) as E0.
    change (ip + 0%nat) with (ip + 0) in E0. rewrite E0, !bind_Ok.
    change TCPIP_IP_HDR_LEN_VER_HDRLEN with 0x0F. rewrite (proj1 (BITS_8 b 0 Hbu ltac:(lia))).
    rewrite u32_small, <- Hlen, <- Hl' by word_lia. by rewrite Hsum, bind_Ok, Hnot.
  - exists 0. split; [done|]. intros l' [Hl' _] Hu'. unfold TCPIPIcmpChecksum_Compute.
    rewrite HL, <- Hl'. by rewrite Hsum, bind_Ok, Hnot.
  - destruct (transport_sum _ _ _ _ l Hm HL eq_refl Hu) as (phdr & E & Hup & _).
    exists (words phdr). pose proof (words_nonneg _ Hup). split; [done|]. intros l' [Hl' _] Hu'.
    destruct (transport_sum _ _ _ _ l' Hm HL Hl' Hu') as (phdr' & E' & _ & H').
    rewrite E in E'. injection E' as <-. unfold TCPIPUdpChecksum_Compute. by rewrite H', Hnot.
  - destruct (transport_sum _ _ _ _ l Hm HL eq_refl Hu) as (phdr & E & Hup & _).
    exists (words phdr). pose proof (words_nonneg _ Hup). split; [done|]. intros l' [Hl' _] Hu'.
    destruct (transport_sum _ _ _ _ l' Hm HL Hl' Hu') as (phdr' & E' & _ & H').
    rewrite E in E'. injection E' as <-. unfold TCPIPTcpChecksum_Compute. by rewrite H', Hnot.
Qed.

Lemma layer_off_even L : Nat.even (layer_off L) = true.
Proof. by destruct L. Qed.

Lemma splice_extent L m l v :
  covers L m l → same_extent L l (splice l (layer_off L) (be16 v)).
Proof.
  intros (_ & _ & Hk & _). split; [by apply splice_length|].
  destruct L; try done. unfold splice. destruct l; [simpl in Hk; lia|done].
Qed.

Lemma words_change : ∀ l i b b', l !! i = Some b →
  words (<[i := b']> l) = words l + (b' - b) * (if Nat.even i then 256 else 1).
Proof.
  fix IH 1. intros [|x [|y l]] [|[|i]] b b' H; simpl in *; try discriminate H;
    try (injection H as ->; lia).
  rewrite (IH _ _ _ _ H). lia.
Qed.

Lemma splice_one l i b b' : l !! i = Some b → splice l i [b'] = <[i := b']> l.
Proof.
  intros H. rewrite insert_take_drop by by eapply lookup_lt_Some. unfold splice.
  by rewrite Nat.add_1_r.
Qed.

Lemma layer_valid_compute L m c :
  layer_compute L m = Ok c → layer_valid L m = Ok (c =? 0).
Proof.
  destruct L; simpl; unfold TCPIPIpChecksum_IsValid, TCPIPIcmpChecksum_IsValid,
    TCPIPUdpChecksum_IsValid, TCPIPTcpChecksum_IsValid; by intros ->.
Qed.

(** Setting a checksum, for use in proofs. *)
Lemma set_valid L m l :
  covers L m l →
  ∃ c, is_u16 c ∧
    let m' := put_bytes m (layer_ptr L) (splice l (layer_off L) (be16 c)) in
    layer_set L m = Ok m' ∧ layer_valid L m' = Ok true.
Proof.
  intros H. destruct (compute_ok _ _ _ H) as (t & Ht & Hc).
  pose proof H as (Hm & Hu & Hk & _).
  set (setf := match L with
    | LayerIP ip => λ m, TCPIPIpFrame_SetChecksum m ip
    | LayerICMP icmp _ => λ m, TCPIPIcmpFrame_SetChecksum m icmp
    | LayerUDP _ udp => λ m, TCPIPUdpFrame_SetChecksum m udp
    | LayerTCP _ tcp => λ m, TCPIPTcpFrame_SetChecksum m tcp end).
  assert (∀ m' v, mapped m' (layer_ptr L) (length l) → is_u16 v →
    setf m' v = Ok (put_bytes m' (layer_ptr L + layer_off L) (be16 v))) as Hset.
  { intros m' v Hm' Hv. apply (mapped_le _ _ _ (layer_off L + 2)%nat) in Hm'; [|done].
    apply mapped_app in Hm' as [_ Hm']. unfold setf.
    destruct L; cbn [layer_ptr layer_off] in *;
    unfold TCPIPIpFrame_SetChecksum, TCPIPIcmpFrame_SetChecksum, TCPIPUdpFrame_SetChecksum,
      TCPIPTcpFrame_SetChecksum; rewrite (u16_small v) by done; by apply store16_be. }
  destruct (set_checksum m (layer_ptr L) l (layer_off L) t (layer_compute L) setf Hm Hu Ht
    (layer_off_even L) Hk) as [E V].
  { intros v Hv. apply Hc; [by apply (splice_extent _ m)|by apply splice_u8, be16_u8]. }
  { exact Hset. }
  eexists. split; [|split].
  - by apply (sum_u16 l (layer_off L) t).
  - rewrite <- E. by destruct L.
  - by rewrite (layer_valid_compute _ _ _ V).
Qed.

(** ** Properties *)

(** C34: The checksum loop reads exactly the buffer and returns the one's
    complement sum of its 16-bit big-endian words and the initial value, an odd
    last byte counting as the high byte of a word; chunks of even size may be
    summed up one after the other. *)
Theorem Checksum_sum m sum p l1 l2 :
  is_u16 sum → Forall is_u8 (l1 ++ l2) → bytes_at m p (l1 ++ l2) → Nat.even (length l1) = true →
  TCPIPChecksum_Checksum m sum p (length (l1 ++ l2)) = Ok (oc_norm (sum + words (l1 ++ l2))) ∧
  (s ← TCPIPChecksum_Checksum m sum p (length l1);
   TCPIPChecksum_Checksum m s (p + length l1) (length l2)) = Ok (oc_norm (sum + words (l1 ++ l2))).
Proof.
  intros Hs Hu Hm He. split; [by apply Checksum_ok|].
  apply Forall_app in Hu as [Hu1 Hu2]. apply bytes_at_app in Hm as [Hm1 Hm2].
  pose proof (words_nonneg _ Hu1). pose proof (words_nonneg _ Hu2).
  rewrite Checksum_ok, bind_Ok by done. rewrite Checksum_ok by (done || apply oc_norm_range; word_lia).
  rewrite oc_norm_add, words_app by (done || word_lia). do 2 f_equal. lia.
Qed.

(** Setting the checksum of an IP header, an ICMP message, a UDP datagram or
    a TCP segment writes the two bytes of the checksum field only, and the
    result passes the validity check of its layer. *)
Theorem Checksum_Set_valid L m l :
  covers L m l →
  ∃ c, is_u16 c ∧
    let m' := put_bytes m (layer_ptr L) (splice l (layer_off L) (be16 c)) in
    layer_set L m = Ok m' ∧ layer_valid L m' = Ok true.
Proof. apply set_valid. Qed.

(** A frame that passed the check of its layer fails it after any one of
    the bytes under the checksum was changed (except for the first byte of an IP
    header, which holds its length). *)
Theorem Checksum_detects L m l i b b' :
  covers L m l → layer_valid L m = Ok true →
  l !! i = Some b → is_u8 b' → b' ≠ b → match L with LayerIP _ => i ≠ 0%nat | _ => True end →
  layer_valid L (put_bytes m (layer_ptr L + i) [b']) = Ok false.
Proof.
  intros H V Hi Hb' Hne Hi0. destruct (compute_ok _ _ _ H) as (t & Ht & Hc).
  pose proof H as (Hm & Hu & Hk & _).
  pose proof (lookup_lt_Some _ _ _ Hi) as Hlt. pose proof (Forall_lookup_1 _ _ _ _ Hu Hi) as Hb.
  rewrite (put_bytes_splice _ _ l), (splice_one _ _ _ _ Hi) by (done || simpl; lia).
  assert (Forall is_u8 (<[i := b']> l)) as Hu' by by apply Forall_insert.
  assert (same_extent L l (<[i := b']> l)) as He.
  { split; [apply length_insert|]. destruct L; try done. by apply list_lookup_insert_ne. }
  assert (layer_valid L m = Ok (65535 - oc_norm (t + words l) =? 0)) as Hv.
  { apply layer_valid_compute. rewrite <- (put_bytes_eq _ _ _ Hm). apply Hc; [|done].
    split; [done|by destruct L]. }
  rewrite V in Hv. injection Hv as Hv. symmetry in Hv. apply Z.eqb_eq in Hv.
  rewrite (layer_valid_compute _ _ _ (Hc _ He Hu')). f_equal. apply Z.eqb_neq. intros E.
  pose proof (words_nonneg _ Hu). pose proof (words_nonneg _ Hu').
  assert (oc_norm (t + words l) = 65535) as [_ V1]%oc_norm_valid by lia; [|lia].
  assert (oc_norm (t + words (<[i := b']> l)) = 65535) as [_ V2]%oc_norm_valid by lia; [|lia].
  rewrite (words_change _ _ _ b' Hi) in V2. destruct (Nat.even i); word_lia.
Qed.

(** ** Witnesses and concrete runs *)

Definition demo_ip_bytes : list Z := [0x45; 0; 0; 40; 0; 0; 0x40; 0; 64; 6; 0; 0; 10; 0; 0; 1; 10; 0; 0; 2].
Definition demo_tcp_bytes : list Z := [0; 80; 4; 210] ++ replicate 8 7 ++ [0x50; 0x10; 1; 0; 0; 0; 0; 0].
Definition demo_net : mem := put_bytes (put_bytes ∅ 0 demo_ip_bytes) 20 demo_tcp_bytes.

Lemma demo_covers : covers (LayerTCP 0 20) demo_net demo_tcp_bytes.
Proof.
  split; [apply put_bytes_bytes_at|]. split; [by repeat constructor|]. split; [simpl; lia|].
  split; [|split; [simpl; lia|]].
  - exists demo_ip_bytes. split; [done|]. split; [by repeat constructor|].
    apply put_bytes_bytes_at_other; [simpl; lia|]. apply put_bytes_bytes_at.
  - exists 20. split; [reflexivity|]. split; [reflexivity|]. simpl. lia.
Qed.

Lemma Checksum_sum_witness :
  TCPIPChecksum_Checksum (put_bytes ∅ 0 [0xff; 0xff; 0; 1; 2]) 0 0 5 = Ok 0x0201.
Proof.
  destruct (Checksum_sum (put_bytes ∅ 0 [0xff; 0xff; 0; 1; 2]) 0 0 [0xff; 0xff] [0; 1; 2]) as [H _].
  - word_lia.
  - by repeat constructor.
  - apply (put_bytes_bytes_at ∅ 0).
  - reflexivity.
  - exact H.
Defined.

Lemma Checksum_Set_valid_witness :
  ∃ m', TCPIPTcpChecksum_Set demo_net 0 20 = Ok m' ∧ TCPIPTcpChecksum_IsValid m' 0 20 = Ok true.
Proof.
  destruct (Checksum_Set_valid (LayerTCP 0 20) demo_net demo_tcp_bytes demo_covers)
    as (c & _ & E & V). eexists. split; [exact E|exact V].
Defined.

(** The same segment with its checksum in place. *)
Definition demo_tcp_valid : list Z := splice demo_tcp_bytes 16 (be16 0x7994).

Definition demo_valid_net : mem := put_bytes (put_bytes ∅ 0 demo_ip_bytes) 20 demo_tcp_valid.

Lemma Checksum_detects_witness :
  TCPIPTcpChecksum_IsValid (put_bytes demo_valid_net (20 + 3%nat) [211]) 0 20 = Ok false.
Proof.
  refine (Checksum_detects (LayerTCP 0 20) demo_valid_net demo_tcp_valid 3 210 211 _ _ _ _ _ _).
  - split; [apply put_bytes_bytes_at|]. split; [by repeat constructor|]. split; [simpl; lia|].
    split; [|split; [simpl; lia|]].
    + exists demo_ip_bytes. split; [done|]. split; [by repeat constructor|].
      apply put_bytes_bytes_at_other; [simpl; lia|]. apply put_bytes_bytes_at.
    + exists 20. split; [reflexivity|]. split; [reflexivity|]. simpl. lia.
  - vm_compute. reflexivity.
  - reflexivity.
  - word_lia.
  - lia.
  - exact I.
Defined.
