(* ===== verification/ByteQueue.v ===== *)
(** * Byte queues, as the sockets use them

    What queue.c promises to its callers, for queues of bytes whose capacity
    divides 2^32 (so are all socket queues of the program): a class of laws over an abstract
    relation between memory, descriptor and contents.  The instance discharges
    the laws with the lemmas of Queue.v. *)
From S2P Require Import Prelude CString Heap Time Queue.

(** The buffer of [n] bytes at [p] lies outside the element buffer. *)
Class ByteFifo (fifo : mem → queue_t → list Z → Prop) := {
  fifo_used m q l : fifo m q l → Queue_GetUsed q = length l;
  fifo_free m q l : fifo m q l → Queue_GetFree q = q_count q - length l ∧ length l ≤ q_count q;
  fifo_cap m q l : fifo m q l → q_count q < 2147483648;
  fifo_u8 m q l : fifo m q l → Forall is_u8 l;
  fifo_mapped m q l : fifo m q l → mapped m (q_ptr q) (Z.to_nat (q_cap q));
  fifo_put m q l bs p :
    fifo m q l → Forall is_u8 bs → bytes_at m p bs → foreign q p (length bs) →
    let k := Nat.min (length bs) (Z.to_nat (q_count q) - length l) in
    ∃ m' q', Queue_Put m q p (length bs) = Ok (m', q', Z.of_nat k) ∧
      fifo m' q' (l ++ take k bs) ∧ q_count q' = q_count q ∧ q_ptr q' = q_ptr q ∧ q_size q' = q_size q ∧
      ∀ a, ¬ (q_ptr q ≤ a < q_ptr q + q_cap q) → m' !! a = m !! a;
  fifo_peek m q l p n :
    fifo m q l → 0 ≤ n → let bs := take (Z.to_nat n) l in
    mapped m p (length bs) → foreign q p (length bs) →
    Queue_Peek m q p n = Ok (put_bytes m p bs, Z.of_nat (length bs));
  fifo_drop m q l n :
    fifo m q l → 0 ≤ n → let k := length (take (Z.to_nat n) l) in
    ∃ q', Queue_Drop q n = (q', Z.of_nat k) ∧ fifo m q' (drop (Z.to_nat n) l) ∧
      q_count q' = q_count q ∧ q_ptr q' = q_ptr q ∧ q_size q' = q_size q;
  fifo_frame m m' q l :
    fifo m q l → (∀ a, q_ptr q ≤ a < q_ptr q + q_cap q → m' !! a = m !! a) → fifo m' q l
}.

(** The caller's own writes. *)
Lemma fifo_put_bytes `{ByteFifo fifo} m q l p bs :
  fifo m q l → foreign q p (length bs) → fifo (put_bytes m p bs) q l.
Proof.
  intros Hq Hf. apply (fifo_frame m); [done|]. intros a Ha. apply put_bytes_lookup_ne.
  unfold foreign in Hf. lia.
Qed.

(** Same element buffer. *)
Definition same_buffer (q q0 : queue_t) : Prop :=
  q_ptr q = q_ptr q0 ∧ q_count q = q_count q0 ∧ q_size q = q_size q0.

Lemma foreign_same q q0 p n : same_buffer q q0 → foreign q0 p n → foreign q p n.
Proof. unfold foreign, q_cap. by intros (-> & -> & ->). Qed.

Lemma foreign_le q p n k : foreign q p n → k ≤ n → foreign q p k.
Proof. unfold foreign. lia. Qed.

Lemma same_buffer_trans q1 q2 q3 : same_buffer q1 q2 → same_buffer q2 q3 → same_buffer q1 q3.
Proof. unfold same_buffer. intuition congruence. Qed.

(** Bytes for which there is room are all appended ... *)
Lemma fifo_put_all `{ByteFifo fifo} m q l bs p :
  fifo m q l → Forall is_u8 bs → bytes_at m p bs → foreign q p (length bs) →
  length l + length bs ≤ q_count q →
  ∃ m' q', Queue_Put m q p (length bs) = Ok (m', q', Z.of_nat (length bs)) ∧
    fifo m' q' (l ++ bs) ∧ same_buffer q' q ∧
    ∀ a, ¬ (q_ptr q ≤ a < q_ptr q + q_cap q) → m' !! a = m !! a.
Proof.
  intros Hf Hu Hb Hfor Hroom. destruct (fifo_put m q l bs p Hf Hu Hb Hfor) as (m' & q' & E & Hf' & Hc & Hp & Hs & Ho).
  assert (Nat.min (length bs) (Z.to_nat (q_count q) - length l) = length bs) as Hmin by lia.
  rewrite Hmin in *. rewrite take_ge in Hf' by done. exists m', q'.
  split; [done|]. split; [done|]. by split.
Qed.

(** ... and bytes that are there are all fetched. *)
Lemma fifo_get `{ByteFifo fifo} m q l n p :
  fifo m q l → (n ≤ length l)%nat → mapped m p n → foreign q p n →
  ∃ q', Queue_Get m q p n = Ok (put_bytes m p (take n l), q', Z.of_nat n) ∧
    fifo (put_bytes m p (take n l)) q' (drop n l) ∧ same_buffer q' q.
Proof.
  intros Hf Hn Hm Hfor. assert (length (take n l) = n) as Hl by (rewrite length_take; lia).
  unfold Queue_Get.
  assert (Queue_Peek m q p n = Ok (put_bytes m p (take n l), Z.of_nat n)) as ->.
  { pose proof (fifo_peek m q l p n Hf ltac:(lia)) as E. cbv zeta in E. rewrite Nat2Z.id, Hl in E. by apply E. }
  rewrite bind_Ok. destruct (fifo_drop m q l n Hf ltac:(lia)) as (q' & E & Hf' & Hc & Hp & Hs).
  rewrite E, Nat2Z.id in *. exists q'. split; [done|]. split; [|done].
  apply fifo_put_bytes; [done|]. rewrite Hl. eapply foreign_same; [|exact Hfor]. done.
Qed.

(** ** The instance *)

Definition byte_queue (m : mem) (q : queue_t) (l : list Z) : Prop :=
  holds m q (map (λ b, [b]) l) ∧ q_size q = 1 ∧ (q_count q | 4294967296) ∧ Forall is_u8 l.

Lemma concat_singletons (l : list Z) : concat (map (λ b, [b]) l) = l.
Proof. induction l as [|b l IH]; [done|]. simpl. by rewrite IH. Qed.

Lemma take_singletons (l : list Z) k : concat (take k (map (λ b, [b]) l)) = take k l.
Proof. by rewrite firstn_map, concat_singletons. Qed.

Lemma elem_singletons q (l : list Z) :
  q_size q = 1 → Forall is_u8 l → Forall (is_elem q) (map (λ b, [b]) l).
Proof.
  intros Hs Hl. induction Hl as [|b l Hb _ IH]; constructor; [|done].
  split; [by rewrite Hs|by apply Forall_cons_2; [|constructor]].
Qed.

Lemma holds_frame m m' q xs :
  holds m q xs → (∀ a, q_ptr q ≤ a < q_ptr q + q_cap q → m' !! a = m !! a) → holds m' q xs.
Proof.
  intros H Ha. pose proof (off_range m q xs H (q_tail q)) as Ho. destruct H. split; try done.
  - intros i Hi. rewrite Ha by lia. by apply h_mapped.
  - intros i b Hi. rewrite Ha; [by apply h_ring|].
    pose proof (Z.mod_pos_bound (q_off (q_tail q) q + i) (q_cap q) ltac:(lia)). lia.
Qed.

Section instance.
Context (m : mem) (q : queue_t) (l : list Z) (H : byte_queue m q l).

Let xs := map (λ b, [b]) l.

Lemma singletons_length : length xs = length l.
Proof. apply length_map. Qed.

Lemma byte_put bs p :
  Forall is_u8 bs → bytes_at m p bs → foreign q p (length bs) →
  let k := Nat.min (length bs) (Z.to_nat (q_count q) - length l) in
  ∃ m' q', Queue_Put m q p (length bs) = Ok (m', q', Z.of_nat k) ∧
    byte_queue m' q' (l ++ take k bs) ∧ q_count q' = q_count q ∧ q_ptr q' = q_ptr q ∧ q_size q' = q_size q ∧
    ∀ a, ¬ (q_ptr q ≤ a < q_ptr q + q_cap q) → m' !! a = m !! a.
Proof.
  intros Hbs Hb Hf k. destruct H as (Hh & Hs & Hd & Hl). set (ys := map (λ b, [b]) (take k bs)).
  pose proof (h_fits _ _ _ Hh) as Hfit. fold xs in Hfit. rewrite singletons_length in Hfit.
  pose proof (h_count _ _ _ Hh) as Hc.
  assert (length (take k bs) = k) as Hk by (rewrite length_take; lia).
  assert (length ys = k) as Hky by (unfold ys; rewrite length_map; done).
  rewrite (Queue.Put_limit _ _ _ _ (length ys))
    by (rewrite (holds_free _ _ _ Hh); fold xs; rewrite singletons_length; lia).
  rewrite <- (take_drop k bs) in Hb. apply bytes_at_app in Hb as [Hb _].
  destruct (Put_ok m q xs ys p Hh) as (m' & E & Hh' & Hout).
  - apply elem_singletons; [done|by apply Forall_take].
  - unfold ys. by rewrite concat_singletons.
  - rewrite singletons_length. lia.
  - unfold ys. rewrite concat_singletons, Hk. unfold foreign in *. lia.
  - by left.
  - exists m', (set_head (u32 (q_head q + length ys)) q). rewrite Hky in E |- *.
    split; [exact E|]. split; [|done]. split; [|split; [done|split; [done|]]].
    + rewrite Hky in Hh'. unfold xs, ys in Hh'. by rewrite <- map_app in Hh'.
    + apply Forall_app_2; [done|by apply Forall_take].
Qed.

Lemma byte_peek p n :
  0 ≤ n → let bs := take (Z.to_nat n) l in
  mapped m p (length bs) → foreign q p (length bs) →
  Queue_Peek m q p n = Ok (put_bytes m p bs, Z.of_nat (length bs)).
Proof.
  intros Hn bs Hm Hf. destruct H as (Hh & Hs & Hd & Hl).
  assert (concat (take (length bs) xs) = bs) as Hbs.
  { unfold xs. rewrite take_singletons. unfold bs. rewrite length_take.
    destruct (decide (Z.to_nat n ≤ length l)%nat); [by rewrite Nat.min_l by done|].
    rewrite Nat.min_r, !take_ge by lia. done. }
  destruct (Peek_ok m q xs p (length bs) Hh) as [E _]; rewrite ?Hbs; try done.
  - rewrite singletons_length. unfold bs. rewrite length_take. lia.
  - rewrite Hbs in E. rewrite <- E. unfold Queue_Peek. rewrite (holds_used _ _ _ Hh).
    fold xs. rewrite singletons_length.
    assert (Z.min n (length l) = Z.min (length bs) (length l)) as ->; [|done].
    unfold bs. rewrite length_take. lia.
Qed.

Lemma byte_drop n :
  0 ≤ n → let k := length (take (Z.to_nat n) l) in
  ∃ q', Queue_Drop q n = (q', Z.of_nat k) ∧ byte_queue m q' (drop (Z.to_nat n) l) ∧
    q_count q' = q_count q ∧ q_ptr q' = q_ptr q ∧ q_size q' = q_size q.
Proof.
  intros Hn k. destruct H as (Hh & Hs & Hd & Hl).
  assert (k = Nat.min (Z.to_nat n) (length l)) as Hk by apply length_take.
  destruct (Drop_ok m q xs k Hh) as [E Hh'].
  - rewrite singletons_length. lia.
  - by left.
  - exists (set_tail (u32 (q_tail q + k)) q). split; [|split; [|done]].
    + rewrite <- E. unfold Queue_Drop. rewrite (holds_used _ _ _ Hh). fold xs.
      rewrite singletons_length.
      assert (Z.min n (length l) = Z.min k (length l)) as ->; [|done]. lia.
    + split; [|split; [done|split; [done|by apply Forall_drop]]].
      unfold xs in Hh'. rewrite skipn_map in Hh'.
      assert (drop (Z.to_nat n) l = drop k l) as ->; [|done].
      destruct (decide (Z.to_nat n ≤ length l)%nat); [by rewrite Hk, Nat.min_l by done|].
      rewrite Hk, Nat.min_r, !drop_ge by lia. done.
Qed.
End instance.

#[export] Instance byte_queue_fifo : ByteFifo byte_queue.
Proof.
  split.
  - intros m q l (Hh & _). rewrite (holds_used _ _ _ Hh). by rewrite length_map.
  - intros m q l (Hh & _). rewrite (holds_free _ _ _ Hh).
    pose proof (h_fits _ _ _ Hh) as Hf. rewrite length_map in *. lia.
  - intros m q l (Hh & _). apply (h_count _ _ _ Hh).
  - intros m q l H. apply H.
  - intros m q l (Hh & _). apply (h_mapped _ _ _ Hh).
  - intros m q l bs p H. by apply byte_put.
  - intros m q l p n H. by apply byte_peek.
  - intros m q l n H. by apply byte_drop.
  - intros m m' q l (Hh & Hs & Hd & Hl) Ha. split; [by apply (holds_frame m)|done].
Qed.

(** An empty queue over a mapped buffer. *)
Lemma byte_queue_empty m p count h :
  0 < count < 2147483648 → (count | 4294967296) → is_u32 h → mapped m p (Z.to_nat count) →
  byte_queue m (mk_queue 1 count p h h) [].
Proof.
  intros Hc Hd Hh Hm. split; [|by split; [|split; [|constructor]]].
  split; unfold q_cap; cbn [q_size q_count q_ptr q_head q_tail map length concat]; try done; try lia.
  - by rewrite Z.sub_diag.
  - by rewrite Z.add_0_r, Z.mod_mod by lia.
  - by rewrite Z.mul_1_r.
Qed.
