(* ===== verification/Net.v ===== *)
(** * The network stack: state and interface layer (net/tcpip/tcpip.h, ip_addr.c,
      eth_addr.c, rxtx.c, eth.c)

    [net] holds all variables of the stack and the byte memory its buffers lie
    in.  Functions that may [Yield] run in the [task] monad: the program's other
    tasks are a list of state changes, one for each time the caller yields. *)
From S2P Require Import Prelude Heap Time Queue Words Frames.

(** ** Data *)

Definition TCPIP_RXTX_BUF_SIZE : Z := 1528.
Definition TCPIP_ARP_TABLE_SIZE : nat := 5.
Definition TCPIP_ARP_ATTEMPTS : nat := 5.
Definition TCPIP_TCP_SOCK_NUM : nat := 4.
Definition TCPIP_UDP_SOCK_NUM : nat := 4.
Definition TX_BUF_NUM : nat := 4.

Definition TCPIP_FRAME_FLAGS_ETH : Z := 1.
Definition TCPIP_FRAME_FLAGS_IP : Z := 2.
Definition TCPIP_FRAME_FLAGS_ARP : Z := 4.
Definition TCPIP_FRAME_FLAGS_ICMP : Z := 4.
Definition TCPIP_FRAME_FLAGS_TCP : Z := 8.
Definition TCPIP_FRAME_FLAGS_UDP : Z := 16.

(** [tcpip_frame_t]; [fr_l3] is the union of [ip] and [arp], [fr_l4] the one of
    [icmp], [tcp] and [udp]. *)
Record frame := mk_frame {
  fr_flags : Z; fr_ptr : Z; fr_size : Z; fr_bufid : Z;
  fr_eth : Z; fr_l3 : Z; fr_l4 : Z
}.

(** [struct tx_buf] without its bytes, which are in memory. *)
Record tx_buf := mk_tx_buf { tb_size : Z; tb_allocated : Z }.

(** [struct arp_entry]. *)
Record arp_entry := mk_arp_entry { ae_ha : list Z; ae_pa : Z; ae_ts : Z }.

(** [tcpip_udp_sock_t]; a null queue pointer is [None]. *)
Record udp_sock := mk_udp_sock {
  us_loc_port : Z; us_rxq : option queue_t;
  us_rx_offs : Z; us_rx_size : Z; us_rx_ip : Z; us_rx_port : Z
}.

(** [enum tcpip_tcp_sock_state], [enum tcp_sock_link_state]. *)
Inductive tcp_state :=
| TCP_FREE | TCP_CLOSED | TCP_LISTEN | TCP_CONNECT | TCP_ESTABLISHING | TCP_ESTABLISHED | TCP_CLOSING.
Inductive link_state := LINK_CLOSED | LINK_OPEN | LINK_CLOSING.

#[export] Instance tcp_state_eq_dec : EqDecision tcp_state.
Proof. solve_decision. Defined.
#[export] Instance link_state_eq_dec : EqDecision link_state.
Proof. solve_decision. Defined.

(** [tcpip_tcp_sock_t]. *)
Record tcp_sock := mk_tcp_sock {
  ts_state : tcp_state;
  ts_loc_link : link_state; ts_rem_link : link_state;
  ts_loc_port : Z; ts_rem_port : Z; ts_addr : Z;
  ts_rxq : option queue_t; ts_txq : option queue_t;
  ts_rx_seq_init : Z; ts_rx_seq_recvd : Z; ts_rx_seq_acked : Z; ts_rx_flags : Z; ts_rx_win : Z;
  ts_tx_seq_init : Z; ts_tx_seq_start : Z; ts_tx_seq_end : Z; ts_tx_win : Z; ts_tx_flags : Z;
  ts_tx_retr_ts : Z; ts_tx_retr_cnt : Z;
  ts_syn_fin_ts : Z
}.

(** The stack.  [n_rx_buf] and [n_tx_base] are the addresses of [rx_buf] and
    [tx_buf]; [n_rx_frame] is the static frame descriptor of the reception task;
    [n_lock] is the semaphore of tcp_sock.c.  Of the rest of the system there are
    the heap, the clock, the random number generator, and id and cancel flag of
    the running task. *)
Record net := mk_net {
  n_mem : mem;
  n_heap_base : Z; n_heap : heap_t; n_now : Z; n_rand : Z; n_cancelled : bool; n_task : Z;
  n_rx_buf : Z; n_tx_base : Z; n_rx_frame : frame; n_tx : list tx_buf;
  n_ip : Z; n_mask : Z; n_gway : Z;
  n_arp : list arp_entry;
  n_echo_seqno : Z; n_echo_id : Z; n_echo_ackno : Z;
  n_udp : list udp_sock;
  n_tcp : list tcp_sock; n_lock : Z
}.

Definition set_mem (m : mem) (n : net) : net :=
  mk_net m (n_heap_base n) (n_heap n) (n_now n) (n_rand n) (n_cancelled n) (n_task n)
    (n_rx_buf n) (n_tx_base n) (n_rx_frame n) (n_tx n) (n_ip n) (n_mask n) (n_gway n) (n_arp n)
    (n_echo_seqno n) (n_echo_id n) (n_echo_ackno n) (n_udp n) (n_tcp n) (n_lock n).
Definition set_tx (tx : list tx_buf) (n : net) : net :=
  mk_net (n_mem n) (n_heap_base n) (n_heap n) (n_now n) (n_rand n) (n_cancelled n) (n_task n)
    (n_rx_buf n) (n_tx_base n) (n_rx_frame n) tx (n_ip n) (n_mask n) (n_gway n) (n_arp n)
    (n_echo_seqno n) (n_echo_id n) (n_echo_ackno n) (n_udp n) (n_tcp n) (n_lock n).
Definition set_arp (arp : list arp_entry) (n : net) : net :=
  mk_net (n_mem n) (n_heap_base n) (n_heap n) (n_now n) (n_rand n) (n_cancelled n) (n_task n)
    (n_rx_buf n) (n_tx_base n) (n_rx_frame n) (n_tx n) (n_ip n) (n_mask n) (n_gway n) arp
    (n_echo_seqno n) (n_echo_id n) (n_echo_ackno n) (n_udp n) (n_tcp n) (n_lock n).
Definition set_ip_config (ip mask gway : Z) (n : net) : net :=
  mk_net (n_mem n) (n_heap_base n) (n_heap n) (n_now n) (n_rand n) (n_cancelled n) (n_task n)
    (n_rx_buf n) (n_tx_base n) (n_rx_frame n) (n_tx n) ip mask gway (n_arp n) (n_echo_seqno n)
    (n_echo_id n) (n_echo_ackno n) (n_udp n) (n_tcp n) (n_lock n).
Definition set_echo (seqno id ackno : Z) (n : net) : net :=
  mk_net (n_mem n) (n_heap_base n) (n_heap n) (n_now n) (n_rand n) (n_cancelled n) (n_task n)
    (n_rx_buf n) (n_tx_base n) (n_rx_frame n) (n_tx n) (n_ip n) (n_mask n) (n_gway n) (n_arp n)
    seqno id ackno (n_udp n) (n_tcp n) (n_lock n).
Definition set_udp (udp : list udp_sock) (n : net) : net :=
  mk_net (n_mem n) (n_heap_base n) (n_heap n) (n_now n) (n_rand n) (n_cancelled n) (n_task n)
    (n_rx_buf n) (n_tx_base n) (n_rx_frame n) (n_tx n) (n_ip n) (n_mask n) (n_gway n) (n_arp n)
    (n_echo_seqno n) (n_echo_id n) (n_echo_ackno n) udp (n_tcp n) (n_lock n).
Definition set_tcp (tcp : list tcp_sock) (n : net) : net :=
  mk_net (n_mem n) (n_heap_base n) (n_heap n) (n_now n) (n_rand n) (n_cancelled n) (n_task n)
    (n_rx_buf n) (n_tx_base n) (n_rx_frame n) (n_tx n) (n_ip n) (n_mask n) (n_gway n) (n_arp n)
    (n_echo_seqno n) (n_echo_id n) (n_echo_ackno n) (n_udp n) tcp (n_lock n).
Definition set_rand (rand : Z) (n : net) : net :=
  mk_net (n_mem n) (n_heap_base n) (n_heap n) (n_now n) rand (n_cancelled n) (n_task n)
    (n_rx_buf n) (n_tx_base n) (n_rx_frame n) (n_tx n) (n_ip n) (n_mask n) (n_gway n) (n_arp n)
    (n_echo_seqno n) (n_echo_id n) (n_echo_ackno n) (n_udp n) (n_tcp n) (n_lock n).
Definition set_heap (heap : heap_t) (n : net) : net :=
  mk_net (n_mem n) (n_heap_base n) heap (n_now n) (n_rand n) (n_cancelled n) (n_task n)
    (n_rx_buf n) (n_tx_base n) (n_rx_frame n) (n_tx n) (n_ip n) (n_mask n) (n_gway n) (n_arp n)
    (n_echo_seqno n) (n_echo_id n) (n_echo_ackno n) (n_udp n) (n_tcp n) (n_lock n).
Definition set_rx_frame (fr : frame) (n : net) : net :=
  mk_net (n_mem n) (n_heap_base n) (n_heap n) (n_now n) (n_rand n) (n_cancelled n) (n_task n)
    (n_rx_buf n) (n_tx_base n) fr (n_tx n) (n_ip n) (n_mask n) (n_gway n) (n_arp n)
    (n_echo_seqno n) (n_echo_id n) (n_echo_ackno n) (n_udp n) (n_tcp n) (n_lock n).
Definition set_lock (lock : Z) (n : net) : net :=
  mk_net (n_mem n) (n_heap_base n) (n_heap n) (n_now n) (n_rand n) (n_cancelled n) (n_task n)
    (n_rx_buf n) (n_tx_base n) (n_rx_frame n) (n_tx n) (n_ip n) (n_mask n) (n_gway n) (n_arp n)
    (n_echo_seqno n) (n_echo_id n) (n_echo_ackno n) (n_udp n) (n_tcp n) lock.

(** ** Tasks *)

(** What the other tasks do in the time between two [Yield]s of this one. *)
Abbreviation worlds := (list (net → net)).

Definition task (A : Type) : Type := net → worlds → res (A * net * worlds).

#[export] Instance task_ret : MRet task := λ A a n ws, Ok (a, n, ws).
#[export] Instance task_bind : MBind task := λ A B f t n ws,
  match t n ws with Ok (a, n, ws) => f a n ws | Fault e => Fault e end.

Definition Yield : task unit := λ n ws,
  match ws with [] => Fault OutOfFuel | w :: ws => Ok ((), w n, ws) end.

Definition gets {A} (f : net → A) : task A := λ n ws, Ok (f n, n, ws).
Definition modify (f : net → net) : task unit := λ n ws, Ok ((), f n, ws).

(** Reading memory and updating memory. *)
Definition reads {A} (f : mem → res A) : task A := λ n ws,
  match f (n_mem n) with Ok a => Ok (a, n, ws) | Fault e => Fault e end.
Definition writes (f : mem → res mem) : task unit := λ n ws,
  match f (n_mem n) with Ok m => Ok ((), set_mem m n, ws) | Fault e => Fault e end.

Lemma task_bind_Ok {A B} (t : task A) (f : A → task B) n ws a n' ws' :
  t n ws = Ok (a, n', ws') → (t ≫= f) n ws = f a n' ws'.
Proof. intros E. unfold mbind, task_bind. by rewrite E. Qed.

Lemma writes_Ok f n ws m : f (n_mem n) = Ok m → writes f n ws = Ok ((), set_mem m n, ws).
Proof. intros E. unfold writes. by rewrite E. Qed.

Lemma reads_Ok {A} (f : mem → res A) n ws a : f (n_mem n) = Ok a → reads f n ws = Ok (a, n, ws).
Proof. intros E. unfold reads. by rewrite E. Qed.

(** One step of a task whose result is known. *)
Ltac task_step H := cbv beta; erewrite task_bind_Ok; [cbv beta|H].

(** [for (ts = time(0); dtime(time(0), ts) < period; Yield())] of [Sleep]. *)
Fixpoint sleep_until (ts period : Z) (n : net) (ws : worlds) : res (Z * net * worlds) :=
  if u32 (dtime (n_now n) ts) <? period then
    if n_cancelled n then Ok (ECANCEL, n, ws)
    else match ws with
         | [] => Fault OutOfFuel
         | w :: ws => sleep_until ts period (w n) ws
         end
  else Ok (EOK, n, ws).

Definition Sleep (period : Z) : task Z := λ n ws, sleep_until (n_now n) period n ws.

(** A computation on values of the task, and a state change that may fault. *)
Definition lift {A} (r : res A) : task A := λ n ws,
  match r with Ok a => Ok (a, n, ws) | Fault e => Fault e end.
Definition try_modify (f : net → res net) : task unit := λ n ws,
  match f n with Ok n => Ok ((), n, ws) | Fault e => Fault e end.

(** [Seed_GetRand] of dev/src/seed.c. *)
Definition Seed_GetRand : task Z := λ n ws,
  let rand := LFSR32_Next (n_rand n) in Ok (rand, set_rand rand n, ws).

(** ** Addresses (ip_addr.c, eth_addr.c) *)

Definition TCPIP_ETH_ADDRESS : list Z := [0; 1; 2; 3; 4; 100].
Definition TCPIP_ETH_ADDR_BCAST : list Z := [255; 255; 255; 255; 255; 255].
Definition TCPIP_ETH_ADDR_ZERO : list Z := [0; 0; 0; 0; 0; 0].

(** [TCPIP_IP_ADDR(a, b, c, d)]. *)
Definition TCPIP_IP_ADDR (a b c d : Z) : Z := d + 256 * c + 65536 * b + 16777216 * a.
Definition TCPIP_IP_ADDR_BCAST : Z := TCPIP_IP_ADDR 255 255 255 255.
Definition TCPIP_IP_ADDR_ANY : Z := TCPIP_IP_ADDR 0 0 0 0.

Definition TCPIPEthAddr_GetMAC : list Z := TCPIP_ETH_ADDRESS.

(** The addresses are compared as three half words. *)
Definition TCPIPEthAddr_AddressMatch (a b : list Z) : bool :=
  let mac16 (l : list Z) (i : nat) := l !!! (2 * i)%nat + 256 * l !!! (2 * i + 1)%nat in
  (mac16 a 0%nat =? mac16 b 0%nat) && (mac16 a 1%nat =? mac16 b 1%nat) && (mac16 a 2%nat =? mac16 b 2%nat).

Definition TCPIPEthAddr_IsMatchingUnicast (a : list Z) : bool :=
  TCPIPEthAddr_AddressMatch a TCPIPEthAddr_GetMAC.

Definition TCPIPIpAddr_GetIP (n : net) : Z := n_ip n.
Definition TCPIPIpAddr_SetIP (ip : Z) (n : net) : net := set_ip_config ip (n_mask n) (n_gway n) n.
Definition TCPIPIpAddr_GetSubnetMask (n : net) : Z := n_mask n.
Definition TCPIPIpAddr_SetSubnetMask (ip : Z) (n : net) : net := set_ip_config (n_ip n) ip (n_gway n) n.
Definition TCPIPIpAddr_GetGatewayIP (n : net) : Z := n_gway n.
Definition TCPIPIpAddr_SetGatewayIP (ip : Z) (n : net) : net := set_ip_config (n_ip n) (n_mask n) ip n.

Definition TCPIPIpAddr_AddressMatch (a b : Z) : bool := a =? b.
Definition TCPIPIpAddr_Next (ip : Z) : Z := u32 (ip + 1).
Definition TCPIPIpAddr_IsMatchingUnicast (n : net) (a : Z) : bool := a =? n_ip n.
Definition TCPIPIpAddr_IsMatchingBroadcast (n : net) (a : Z) : bool :=
  (a =? TCPIP_IP_ADDR_BCAST) ||
  ((Z.land a (n_mask n) =? n_ip n) && (Z.land a (~u (n_mask n)) =? ~u (n_mask n))).
Definition TCPIPIpAddr_IsMatchingMulticast (a : Z) : bool :=
  (TCPIP_IP_ADDR 224 0 0 0 <=? a) && (a <=? TCPIP_IP_ADDR 239 255 255 255).
Definition TCPIPIpAddr_IsMatchingAny (a : Z) : bool := a =? TCPIP_IP_ADDR_ANY.
Definition TCPIPIpAddr_IsWithinSubnet (n : net) (a : Z) : bool :=
  Z.land a (n_mask n) =? Z.land (n_ip n) (n_mask n).

(** ** rxtx.c *)

Definition sizeof_tx_buf : Z := 8 + TCPIP_RXTX_BUF_SIZE.

(** The address of [tx_buf[i].buf]. *)
Definition tx_buf_addr (n : net) (i : Z) : Z := n_tx_base n + i * sizeof_tx_buf + 8.

(** [for (t = tx_buf; t != end && t->allocated; t++)]: the index of [t]. *)
Fixpoint find_tx (l : list tx_buf) : nat :=
  match l with
  | [] => O
  | t :: l' => if tb_allocated t =? 0 then O else S (find_tx l')
  end.

(** [TCPIPRxTx_Alloc]: the loop yields once more after it found a buffer. *)
Fixpoint alloc_loop (n : net) (ws : worlds) : res (nat * net * worlds) :=
  match ws with
  | [] => Fault OutOfFuel
  | w :: ws =>
      let i := find_tx (n_tx n) in
      let n := w n in
      if (i =? length (n_tx n))%nat then alloc_loop n ws else Ok (i, n, ws)
  end.

Definition upd_tx (f : tx_buf → tx_buf) (i : nat) (n : net) : net :=
  set_tx (alter f i (n_tx n)) n.

(** The caller's descriptor is uninitialised; [frame] keeps the pointers it has. *)
Definition TCPIPRxTx_Alloc (fr : frame) : task (frame * Z) :=
  i ← (alloc_loop : task nat);
  modify (upd_tx (λ t, mk_tx_buf (tb_size t) 1) i);;
  ptr ← gets (λ n, tx_buf_addr n (Z.of_nat i));
  mret (mk_frame 0 ptr TCPIP_RXTX_BUF_SIZE (Z.of_nat i) (fr_eth fr) (fr_l3 fr) (fr_l4 fr), EOK).

Definition TCPIPRxTx_Drop (fr : frame) : task Z :=
  modify (upd_tx (λ _, mk_tx_buf 0 0) (Z.to_nat (fr_bufid fr)));;
  mret EOK.

Definition TCPIPRxTx_Send (fr : frame) : task Z :=
  modify (upd_tx (λ t, mk_tx_buf (fr_size fr) (tb_allocated t)) (Z.to_nat (fr_bufid fr)));;
  mret EOK.

(** ** eth.c *)

Definition TCPIPEth_Alloc (fr : frame) : task (frame * Z) :=
  '(f, ec) ← TCPIPRxTx_Alloc fr;
  if negb (ec =? EOK) then mret (f, ec)
  else
    let eth := fr_ptr f in
    mret (mk_frame (Z.lor (fr_flags f) TCPIP_FRAME_FLAGS_ETH) (eth + sizeof_eth) (fr_size f)
            (fr_bufid f) eth (fr_l3 f) (fr_l4 f), EOK).

Definition TCPIPEth_Drop (fr : frame) : task Z := TCPIPRxTx_Drop fr.

Definition TCPIPEth_Send (fr : frame) (da : list Z) (ethtype : Z) : task Z :=
  let eth := fr_eth fr in
  writes (λ m, TCPIPEthFrame_SetDA m eth da);;
  writes (λ m, TCPIPEthFrame_SetSA m eth TCPIPEthAddr_GetMAC);;
  writes (λ m, TCPIPEthFrame_SetEthType m eth ethtype);;
  TCPIPRxTx_Send (mk_frame (Z.lor (fr_flags fr) TCPIP_FRAME_FLAGS_ETH) eth
    (u32 (fr_size fr + sizeof_eth)) (fr_bufid fr) eth (fr_l3 fr) (fr_l4 fr)).

(** ** The state after startup

    All variables zero but for the configured addresses; [rx], [tx] and [heap]
    are the addresses of the buffers and of the heap. *)
Definition boot_net (m : mem) (rx tx heap : Z) (h : heap_t) (rand : Z) : net :=
  mk_net m heap h 0 rand false 1 rx tx (mk_frame 0 0 0 0 0 0 0) (replicate TX_BUF_NUM (mk_tx_buf 0 0))
    (TCPIP_IP_ADDR 192 168 50 124) (TCPIP_IP_ADDR 255 255 255 0) (TCPIP_IP_ADDR 192 168 50 124)
    (replicate TCPIP_ARP_TABLE_SIZE (mk_arp_entry TCPIP_ETH_ADDR_ZERO 0 0))
    0 0 0 (replicate TCPIP_UDP_SOCK_NUM (mk_udp_sock 0 None 0 0 0 0))
    (replicate TCPIP_TCP_SOCK_NUM (mk_tcp_sock TCP_FREE LINK_CLOSED LINK_CLOSED 0 0 0 None None
      0 0 0 0 0 0 0 0 0 0 0 0 0)) 0.
