(* ===== verification/Arp.v ===== *)
(** * Address resolution (net/tcpip/src/arp_table.c, arp.c)

    The table is a list of entries in array order.  Theorems: the table's update
    and lookup, and what the stack does with an incoming ARP frame. *)
From S2P Require Import Prelude Heap Time Queue Words Frames Net.

(** ** arp_table.c *)

Definition empty_entry : arp_entry := mk_arp_entry TCPIP_ETH_ADDR_ZERO 0 0.

Definition TCPIPArpTable_ResetTable (n : net) : net :=
  set_arp (map (λ _, empty_entry) (n_arp n)) n.

(** The search loop: the last entry with the hardware address, and the entry
    with the largest positive age ([oldest_dtime] is the age). *)
Fixpoint update_search (now : Z) (ha : list Z) (l : list arp_entry) (i : Z)
    (ha_id oldest_id oldest_dtime : Z) : Z * Z :=
  match l with
  | [] => (ha_id, oldest_id)
  | e :: l' =>
      let ha_id := if TCPIPEthAddr_AddressMatch ha (ae_ha e) then i else ha_id in
      if oldest_dtime <? dtime now (ae_ts e) then
        update_search now ha l' (i + 1) ha_id i (dtime now (ae_ts e))
      else update_search now ha l' (i + 1) ha_id oldest_id oldest_dtime
  end.

(** The index of the entry that is overwritten; -1 when the search found none. *)
Definition update_index (now : Z) (ha : list Z) (l : list arp_entry) : Z :=
  let '(ha_id, oldest_id) := update_search now ha l 0 (-1) (-1) 0 in
  if 0 <=? ha_id then ha_id else oldest_id.

Definition TCPIPArpTable_UpdateTable (ha : list Z) (pa : Z) (n : net) : res net :=
  let i := update_index (n_now n) ha (n_arp n) in
  if i <? 0 then Fault OutOfBounds
  else Ok (set_arp (<[Z.to_nat i := mk_arp_entry ha pa (n_now n)]> (n_arp n)) n).

(** The first entry with the protocol address, which is then refreshed. *)
Fixpoint find_pa (pa : Z) (l : list arp_entry) : option (nat * arp_entry) :=
  match l with
  | [] => None
  | e :: l' =>
      if TCPIPIpAddr_AddressMatch (ae_pa e) pa then Some (O, e)
      else '(i, e) ← find_pa pa l'; Some (S i, e)
  end.

Definition TCPIPArpTable_GetHWAddr (pa : Z) (n : net) : net * option (list Z) :=
  match find_pa pa (n_arp n) with
  | Some (i, e) =>
      (set_arp (<[i := mk_arp_entry (ae_ha e) (ae_pa e) (n_now n)]> (n_arp n)) n, Some (ae_ha e))
  | None => (n, None)
  end.

(** ** arp.c *)

Definition null_frame : frame := mk_frame 0 0 0 0 0 0 0.

Definition TCPIPArp_SendFrame (eth_da : list Z) (oper : Z) (sha : list Z) (spa : Z)
    (tha : list Z) (tpa : Z) : task Z :=
  '(fr, ec) ← TCPIPEth_Alloc null_frame;
  if negb (ec =? EOK) then mret ec
  else
    let arp := fr_ptr fr in
    let arp_eth_ip := arp + sizeof_arp in
    writes (λ m, TCPIPArpFrame_SetOper m arp oper);;
    writes (λ m, TCPIPArpFrame_SetHLen m arp 6);;
    writes (λ m, TCPIPArpFrame_SetPLen m arp 4);;
    writes (λ m, TCPIPArpFrame_SetHType m arp TCPIP_ARP_HTYPE_ETHERNET);;
    writes (λ m, TCPIPArpFrame_SetPType m arp TCPIP_ARP_PTYPE_IP);;
    writes (λ m, TCPIPArpFrameETHIP_SetSHA m arp_eth_ip sha);;
    writes (λ m, TCPIPArpFrameETHIP_SetTHA m arp_eth_ip tha);;
    writes (λ m, TCPIPArpFrameETHIP_SetSPA m arp_eth_ip spa);;
    writes (λ m, TCPIPArpFrameETHIP_SetTPA m arp_eth_ip tpa);;
    TCPIPEth_Send (mk_frame (Z.lor (fr_flags fr) TCPIP_FRAME_FLAGS_ARP) (fr_ptr fr)
      (sizeof_arp + sizeof_arp_pld) (fr_bufid fr) (fr_eth fr) arp (fr_l4 fr))
      eth_da TCPIP_ETH_ETHTYPE_ARP.

(** The checks both handlers start with. *)
Definition arp_is_eth_ip (m : mem) (arp : Z) : res bool :=
  htype ← TCPIPArpFrame_GetHType m arp;
  ptype ← TCPIPArpFrame_GetPType m arp;
  if negb (htype =? TCPIP_ARP_HTYPE_ETHERNET) || negb (ptype =? TCPIP_ARP_PTYPE_IP) then Ok false
  else
    hlen ← TCPIPArpFrame_GetHLen m arp;
    plen ← TCPIPArpFrame_GetPLen m arp;
    if negb (hlen =? 6) || negb (plen =? 4) then Ok false else Ok true.

Definition TCPIPArp_ProcessRequest (fr : frame) : task Z :=
  let arp := fr_l3 fr in
  let arp_eth_ip := arp + sizeof_arp in
  ok ← reads (λ m, arp_is_eth_ip m arp);
  if negb ok then mret EUNKPROT
  else
    spa ← reads (λ m, TCPIPArpFrameETHIP_GetSPA m arp_eth_ip);
    tpa ← reads (λ m, TCPIPArpFrameETHIP_GetTPA m arp_eth_ip);
    ip ← gets TCPIPIpAddr_GetIP;
    if negb (TCPIPIpAddr_AddressMatch tpa ip) then mret EOK
    else
      sha ← reads (λ m, TCPIPArpFrameETHIP_GetSHA m arp_eth_ip);
      sa ← reads (λ m, TCPIPEthFrame_GetSA m (fr_eth fr));
      try_modify (TCPIPArpTable_UpdateTable sha spa);;
      ip ← gets TCPIPIpAddr_GetIP;
      TCPIPArp_SendFrame sa TCPIP_ARP_OPER_REPLY TCPIPEthAddr_GetMAC ip sha spa;;
      mret EOK.

Definition TCPIPArp_ProcessReply (fr : frame) : task Z :=
  let arp := fr_l3 fr in
  let arp_eth_ip := arp + sizeof_arp in
  ok ← reads (λ m, arp_is_eth_ip m arp);
  if negb ok then mret EUNKPROT
  else
    spa ← reads (λ m, TCPIPArpFrameETHIP_GetSPA m arp_eth_ip);
    tpa ← reads (λ m, TCPIPArpFrameETHIP_GetTPA m arp_eth_ip);
    sha ← reads (λ m, TCPIPArpFrameETHIP_GetSHA m arp_eth_ip);
    tha ← reads (λ m, TCPIPArpFrameETHIP_GetTHA m arp_eth_ip);
    unicast ← gets (λ n, TCPIPIpAddr_IsMatchingUnicast n tpa);
    if negb unicast || negb (TCPIPEthAddr_IsMatchingUnicast tha) then mret EOK
    else try_modify (TCPIPArpTable_UpdateTable sha spa);; mret EOK.

Definition TCPIPArp_Reset (n : net) : net := TCPIPArpTable_ResetTable n.

(** The descriptor is updated in place; the callers do not use it afterwards. *)
Definition TCPIPArp_Input (fr : frame) : task Z :=
  let fr := mk_frame (Z.lor (fr_flags fr) TCPIP_FRAME_FLAGS_ARP) (fr_ptr fr) (fr_size fr)
              (fr_bufid fr) (fr_eth fr) (fr_ptr fr) (fr_l4 fr) in
  oper ← reads (λ m, TCPIPArpFrame_GetOper m (fr_l3 fr));
  if oper =? TCPIP_ARP_OPER_REQUEST then TCPIPArp_ProcessRequest fr
  else if oper =? TCPIP_ARP_OPER_REPLY then TCPIPArp_ProcessReply fr
  else mret EUNKREQ.

(** One lookup of the table. *)
Definition arp_lookup (pa : Z) : task (option (list Z)) := λ n ws,
  let '(n, ha) := TCPIPArpTable_GetHWAddr pa n in Ok (ha, n, ws).

Fixpoint arp_attempts (k : nat) (pa : Z) : task (option (list Z)) :=
  match k with
  | O => mret None
  | S k' =>
      found ← arp_lookup pa;
      match found with
      | Some ha => mret (Some ha)
      | None =>
          ip ← gets TCPIPIpAddr_GetIP;
          TCPIPArp_SendFrame TCPIP_ETH_ADDR_BCAST TCPIP_ARP_OPER_REQUEST TCPIPEthAddr_GetMAC ip
            TCPIP_ETH_ADDR_BCAST pa;;
          Sleep 300;;
          arp_attempts k' pa
      end
  end.

(** The address, or [None] for [EUNKADDR]. *)
Definition TCPIPArp_GetHWAddr (pa : Z) : task (option (list Z)) :=
  bcast ← gets (λ n, TCPIPIpAddr_IsMatchingBroadcast n pa);
  if TCPIPIpAddr_IsMatchingAny pa || bcast then mret (Some TCPIP_ETH_ADDR_BCAST)
  else arp_attempts TCPIP_ARP_ATTEMPTS pa.

(** ** The table *)

Definition age (now : Z) (e : arp_entry) : Z := dtime now (ae_ts e).
Definition has_ha (ha : list Z) (e : arp_entry) : Prop := TCPIPEthAddr_AddressMatch ha (ae_ha e) = true.

(** The entry at [k] is the last one that satisfies [P]. *)
Definition last_with (P : arp_entry → Prop) (l : list arp_entry) (k : nat) (e : arp_entry) : Prop :=
  l !! k = Some e ∧ P e ∧ Forall (λ x, ¬ P x) (drop (S k) l).

(** The entry at [k] is the first one of the largest age, which is more than [d]. *)
Definition oldest (now d : Z) (l : list arp_entry) (k : nat) (e : arp_entry) : Prop :=
  l !! k = Some e ∧ d < age now e ∧ Forall (λ x, age now x ≤ age now e) l ∧
  Forall (λ x, age now x < age now e) (take k l).

Lemma update_search_ha now ha : ∀ l i h o d,
  let h' := (update_search now ha l i h o d).1 in
  (h' = h ∧ Forall (λ x, ¬ has_ha ha x) l) ∨ (∃ k e, h' = i + Z.of_nat k ∧ last_with (has_ha ha) l k e).
Proof.
  induction l as [|e l IH]; intros i h o d; simpl; [by left|].
  set (h1 := if TCPIPEthAddr_AddressMatch ha (ae_ha e) then i else h).
  assert (let h' := (update_search now ha l (i + 1) h1
                      (if d <? dtime now (ae_ts e) then i else o)
                      (if d <? dtime now (ae_ts e) then dtime now (ae_ts e) else d)).1 in
    (h' = h ∧ Forall (λ x, ¬ has_ha ha x) (e :: l)) ∨
    (∃ k x, h' = i + Z.of_nat k ∧ last_with (has_ha ha) (e :: l) k x)) as H.
  { destruct (IH (i + 1) h1 (if d <? dtime now (ae_ts e) then i else o)
      (if d <? dtime now (ae_ts e) then dtime now (ae_ts e) else d)) as [[-> HF]|(k & x & -> & H)].
    - unfold h1. destruct (TCPIPEthAddr_AddressMatch ha (ae_ha e)) eqn:E.
      + right. exists O, e. split; [lia|]. done.
      + left. split; [done|]. constructor; [|done]. unfold has_ha. by rewrite E.
    - right. exists (S k), x. split; [lia|done]. }
  by destruct (d <? dtime now (ae_ts e)).
Qed.

Lemma update_search_oldest now ha : ∀ l i h o d,
  let o' := (update_search now ha l i h o d).2 in
  (o' = o ∧ Forall (λ x, age now x ≤ d) l) ∨ (∃ k e, o' = i + Z.of_nat k ∧ oldest now d l k e).
Proof.
  induction l as [|e l IH]; intros i h o d; simpl; [by left|].
  set (h1 := if TCPIPEthAddr_AddressMatch ha (ae_ha e) then i else h).
  destruct (Z.ltb_spec d (dtime now (ae_ts e))) as [Hlt|Hge].
  - right. destruct (IH (i + 1) h1 i (dtime now (ae_ts e))) as [[-> HF]|(k & x & -> & Hx & Hd & HF & HT)].
    + exists O, e. split; [lia|]. split; [done|]. split; [done|]. split; [|apply Forall_nil_2].
      constructor; [done|]. done.
    + exists (S k), x. split; [lia|]. split; [done|]. split; [unfold age in *; lia|].
      split; (constructor; [unfold age in *; lia|done]).
  - destruct (IH (i + 1) h1 o d) as [[-> HF]|(k & x & -> & Hx & Hd & HF & HT)].
    + left. split; [done|]. by constructor.
    + right. exists (S k), x. split; [lia|]. split; [done|]. split; [done|].
      split; (constructor; [unfold age in *; lia|done]).
Qed.

(** Which entry an update replaces. *)
Lemma update_index_cases now ha l :
  (∃ k e, update_index now ha l = Z.of_nat k ∧ last_with (has_ha ha) l k e) ∨
  (Forall (λ x, ¬ has_ha ha x) l ∧
    ((∃ k e, update_index now ha l = Z.of_nat k ∧ oldest now 0 l k e) ∨
     (update_index now ha l = -1 ∧ Forall (λ x, age now x ≤ 0) l))).
Proof.
  unfold update_index. pose proof (update_search_ha now ha l 0 (-1) (-1) 0) as Hh.
  pose proof (update_search_oldest now ha l 0 (-1) (-1) 0) as Hq.
  destruct (update_search now ha l 0 (-1) (-1) 0) as [h o]. cbn in Hh, Hq.
  destruct Hh as [[-> HF]|(k & e & -> & H)].
  - right. split; [done|]. destruct Hq as [[-> HA]|(k & e & -> & H)]; [by right|].
    left. by exists k, e.
  - left. exists k, e. by destruct (Z.leb_spec 0 (0 + Z.of_nat k)); [|lia].
Qed.

(** Two half words that are equal have equal bytes. *)
Lemma half_word_inj a b c d : is_u8 a → is_u8 b → is_u8 c → is_u8 d → a + 256 * b = c + 256 * d → a = c ∧ b = d.
Proof. word_lia. Qed.

Lemma address_match_eq a b : is_mac a → is_mac b → TCPIPEthAddr_AddressMatch a b = true ↔ a = b.
Proof.
  intros [Ha Ua] [Hb Ub]. split; [|intros ->; unfold TCPIPEthAddr_AddressMatch; by rewrite !Z.eqb_refl].
  do 7 (destruct a as [|? a]; try discriminate Ha). do 7 (destruct b as [|? b]; try discriminate Hb).
  repeat (apply Forall_cons_1 in Ua as [? Ua]). repeat (apply Forall_cons_1 in Ub as [? Ub]).
  unfold TCPIPEthAddr_AddressMatch. cbn. rewrite !andb_true_iff, !Z.eqb_eq.
  intros [[[-> ->]%half_word_inj [-> ->]%half_word_inj] [-> ->]%half_word_inj]; done.
Qed.

(** A table of well-formed entries, where a hardware address occurs once. *)
Definition arp_ok (l : list arp_entry) : Prop :=
  Forall (λ e, is_mac (ae_ha e)) l ∧
  ∀ i j x y, l !! i = Some x → l !! j = Some y → ae_ha x = ae_ha y → i = j ∨ ae_ha x = TCPIP_ETH_ADDR_ZERO.

Lemma arp_ok_insert l k e x :
  arp_ok l → l !! k = Some e → is_mac (ae_ha x) →
  ae_ha x = ae_ha e ∨ Forall (λ y, ae_ha y ≠ ae_ha x) l →
  arp_ok (<[k := x]> l).
Proof.
  intros [HF HN] Hk Hx Hc. split; [by apply Forall_insert|].
  intros i j a b Ha Hb. apply list_lookup_insert_Some in Ha, Hb.
  destruct Ha as [(-> & <- & _)|[Hi Ha]], Hb as [(-> & <- & _)|[Hj Hb]]; [by left|..|by apply HN].
  - intros E. destruct Hc as [Hc|Hc]; [|by destruct (Forall_lookup_1 _ _ _ _ Hc Hb)].
    rewrite Hc in E |- *. eauto.
  - intros E. destruct Hc as [Hc|Hc]; [|by destruct (Forall_lookup_1 _ _ _ _ Hc Ha)].
    rewrite Hc in E. eauto.
Qed.

(** An update replaces one entry. *)
Lemma update_table_Ok ha pa n n' :
  TCPIPArpTable_UpdateTable ha pa n = Ok n' →
  ∃ k e, n_arp n !! k = Some e ∧ n' = set_arp (<[k := mk_arp_entry ha pa (n_now n)]> (n_arp n)) n ∧
    (has_ha ha e ∨ Forall (λ x, ¬ has_ha ha x) (n_arp n)).
Proof.
  unfold TCPIPArpTable_UpdateTable. intros H.
  destruct (update_index_cases (n_now n) ha (n_arp n)) as [(k & e & E & Hl)|[HF [(k & e & E & Ho)|[E _]]]];
    rewrite E in H; [..|done]; destruct (Z.ltb_spec (Z.of_nat k) 0); try lia;
    rewrite Nat2Z.id in H; injection H as <-; exists k, e.
  - destruct Hl as (Hk & He & _). by repeat split; [..|left].
  - destruct Ho as (Hk & _). by repeat split; [..|right].
Qed.

Lemma find_pa_Some pa l i e : find_pa pa l = Some (i, e) → l !! i = Some e ∧ ae_pa e = pa.
Proof.
  revert i. induction l as [|x l IH]; intros i H; [done|]. simpl in H.
  unfold TCPIPIpAddr_AddressMatch in H. destruct (Z.eqb_spec (ae_pa x) pa) as [E|].
  - by injection H as <- <-.
  - destruct (find_pa pa l) as [[j y]|] eqn:Ef; [|done]. injection H as <- <-. by apply IH.
Qed.

Lemma find_pa_None pa l : find_pa pa l = None ↔ Forall (λ e, ae_pa e ≠ pa) l.
Proof.
  induction l as [|x l IH]; simpl; [by split; [constructor|]|].
  unfold TCPIPIpAddr_AddressMatch. rewrite Forall_cons, <- IH.
  destruct (Z.eqb_spec (ae_pa x) pa) as [E|E]; [by split; [|intros [? _]]|].
  destruct (find_pa pa l) as [[]|]; [by split; [|intros [_ ?]]|done].
Qed.

(** ** Properties *)

(** An update of the ARP table replaces exactly one entry by the given
    addresses with the current time: the last one with this hardware address;
    without such an entry the first of those whose age is largest.  When no entry
    has that hardware address and none is older than zero (which includes entries
    that were used in the current millisecond and those whose age overflowed),
    the write goes to the element before the array. *)
Theorem UpdateTable_victim ha pa n :
  let l := n_arp n in
  let put k := Ok (set_arp (<[k := mk_arp_entry ha pa (n_now n)]> l) n) in
  (∃ k e, last_with (has_ha ha) l k e ∧ TCPIPArpTable_UpdateTable ha pa n = put k) ∨
  (Forall (λ x, ¬ has_ha ha x) l ∧ ∃ k e, oldest (n_now n) 0 l k e ∧ TCPIPArpTable_UpdateTable ha pa n = put k) ∨
  (Forall (λ x, ¬ has_ha ha x) l ∧ Forall (λ x, age (n_now n) x ≤ 0) l ∧
    TCPIPArpTable_UpdateTable ha pa n = Fault OutOfBounds).
Proof.
  cbv zeta. unfold TCPIPArpTable_UpdateTable.
  destruct (update_index_cases (n_now n) ha (n_arp n)) as [(k & e & E & Hl)|[HF [(k & e & E & Ho)|[E HA]]]];
    rewrite E; [left|right; left|right; right; done].
  - exists k, e. split; [done|]. destruct (Z.ltb_spec (Z.of_nat k) 0); [lia|]. by rewrite Nat2Z.id.
  - split; [done|]. exists k, e. split; [done|].
    destruct (Z.ltb_spec (Z.of_nat k) 0); [lia|]. by rewrite Nat2Z.id.
Qed.

Lemma empty_entries_ok l : Forall (λ e, e = empty_entry) l → arp_ok l.
Proof.
  intros H. split.
  - eapply Forall_impl; [exact H|]. intros e ->. split; [done|]. by repeat constructor.
  - intros i j x y Hx _ _. right. by rewrite (Forall_lookup_1 _ _ _ _ H Hx : x = empty_entry).
Qed.

(** C37: The table keeps its size, its entries stay well formed and every
    hardware address but zero is in at most one of them: so it is after startup
    and after a reset, and so it stays under updates with valid addresses and
    under lookups. *)
Theorem arp_table_ok ha pa n :
  is_mac ha →
  (∀ m rx tx heap h rand, arp_ok (n_arp (boot_net m rx tx heap h rand))) ∧
  (arp_ok (n_arp n) →
    (∀ n', TCPIPArpTable_UpdateTable ha pa n = Ok n' → arp_ok (n_arp n') ∧ length (n_arp n') = length (n_arp n)) ∧
    arp_ok (n_arp (TCPIPArpTable_GetHWAddr pa n).1) ∧
    length (n_arp (TCPIPArpTable_GetHWAddr pa n).1) = length (n_arp n)) ∧
  arp_ok (n_arp (TCPIPArp_Reset n)) ∧ length (n_arp (TCPIPArp_Reset n)) = length (n_arp n).
Proof.
  intros Hha. split; [|split; [|split]].
  - intros. apply empty_entries_ok. by repeat constructor.
  - intros Hok. split.
    + intros n' (k & e & Hk & -> & Hc)%update_table_Ok. split; [|apply length_insert].
      pose proof (proj1 Hok) as HM. cbn. apply (arp_ok_insert _ k e); [done..|]. cbn.
      destruct Hc as [Hc|Hc]; [left|right].
      * apply address_match_eq; [done|by eapply (Forall_lookup_1 _ _ _ _ HM)|done].
      * apply Forall_forall. intros x Hx E. rewrite Forall_forall in Hc, HM.
        apply (Hc x Hx), address_match_eq; [done|by apply HM|done].
    + unfold TCPIPArpTable_GetHWAddr. destruct (find_pa pa (n_arp n)) as [[i e]|] eqn:Ef; [|done].
      apply find_pa_Some in Ef as [Hi _]. split; [|apply length_insert].
      apply (arp_ok_insert _ i e); [done..| |by left]. exact (Forall_lookup_1 _ _ _ _ (proj1 Hok) Hi).
  - apply empty_entries_ok, Forall_fmap, Forall_true. done.
  - apply length_map.
Qed.

(** After an update a lookup of the protocol address returns the hardware
    address, unless the table had it under another one. *)
Theorem arp_learns ha pa n n' :
  TCPIPArpTable_UpdateTable ha pa n = Ok n' →
  Forall (λ e, ae_pa e = pa → ae_ha e = ha) (n_arp n) →
  (TCPIPArpTable_GetHWAddr pa n').2 = Some ha.
Proof.
  intros (k & e & Hk & -> & _)%update_table_Ok HF. unfold TCPIPArpTable_GetHWAddr.
  set (l := n_arp (set_arp _ n)).
  assert (Forall (λ e, ae_pa e = pa → ae_ha e = ha) l) as Hl by by apply Forall_insert.
  destruct (find_pa pa l) as [[i x]|] eqn:Ef.
  - apply find_pa_Some in Ef as [Hi Hp]. cbn. f_equal. by apply (Forall_lookup_1 _ _ _ _ Hl Hi).
  - apply find_pa_None in Ef. apply (Forall_lookup_1 _ _ k (mk_arp_entry ha pa (n_now n))) in Ef; [done|].
    apply list_lookup_insert_eq. by eapply lookup_lt_Some.
Qed.

(** ** Witnesses and concrete runs *)

Definition arp_demo : net :=
  set_arp [mk_arp_entry [2; 0; 0; 0; 0; 7] 3232248327 0; mk_arp_entry [2; 0; 0; 0; 0; 9] 3232248330 4294967200]
    (boot_net ∅ 0 0 0 (mk_heap ∅ 0) 1).

Lemma arp_demo_ok : arp_ok (n_arp arp_demo).
Proof.
  split; [repeat constructor; word_lia|]. intros i j x y Hx Hy.
  destruct i as [|[|i]]; simplify_eq/=; destruct j as [|[|j]]; simplify_eq/=; by left.
Qed.

Lemma arp_table_ok_witness :
  ∃ n', TCPIPArpTable_UpdateTable [2; 0; 0; 0; 0; 5] 3232248325 arp_demo = Ok n' ∧ arp_ok (n_arp n') ∧
    (ae_pa <$> n_arp n') = [3232248327; 3232248325].
Proof.
  destruct (arp_table_ok [2; 0; 0; 0; 0; 5] 3232248325 arp_demo) as (_ & H & _).
  - split; [done|]. repeat constructor; word_lia.
  - destruct (H arp_demo_ok) as [H' _]. eexists. split; [reflexivity|].
    split; [apply H'; reflexivity|]. reflexivity.
Defined.

Lemma arp_learns_witness :
  ∃ n', TCPIPArpTable_UpdateTable [2; 0; 0; 0; 0; 5] 3232248325 arp_demo = Ok n' ∧
    (TCPIPArpTable_GetHWAddr 3232248325 n').2 = Some [2; 0; 0; 0; 0; 5].
Proof.
  eexists. split; [reflexivity|]. eapply (arp_learns _ _ arp_demo); [reflexivity|].
  repeat constructor; intros E; discriminate E.
Defined.

(** A station that changes its hardware address is not found at the new one as
    long as the entry with the old one comes first. *)
Example stale_entry_wins :
  match TCPIPArpTable_UpdateTable [2; 0; 0; 0; 0; 5] 3232248327 arp_demo with
  | Ok n' => (TCPIPArpTable_GetHWAddr 3232248327 n').2 = Some [2; 0; 0; 0; 0; 7]
  | Fault _ => False
  end.
Proof. reflexivity. Qed.

(** Right after startup, before the first millisecond has passed, there is no
    entry to replace. *)
Example update_before_first_tick :
  TCPIPArpTable_UpdateTable [2; 0; 0; 0; 0; 5] 3232248325 (boot_net ∅ 0 0 0 (mk_heap ∅ 0) 1) = Fault OutOfBounds.
Proof. reflexivity. Qed.
