(* ===== verification/Ip.v ===== *)
(** * Internet protocol, output side (net/tcpip/src/ip.c)

    Allocation of frames and [TCPIPIp_Send].  The input side, which calls the
    upper layers, is in Stack.v. *)
From S2P Require Import Prelude Heap Time Queue Words Frames Checksum Net Arp.

(** [TCPIPIp_Alloc]. *)
Definition TCPIPIp_Alloc (fr : frame) : task (frame * Z) :=
  '(f, ec) ← TCPIPEth_Alloc fr;
  if negb (ec =? EOK) then mret (f, ec)
  else
    let ip := fr_ptr f in
    mret (mk_frame (Z.lor (fr_flags f) TCPIP_FRAME_FLAGS_IP) (ip + sizeof_ip) (fr_size f)
            (fr_bufid f) (fr_eth f) ip (fr_l4 f), EOK).

Definition TCPIPIp_Drop (fr : frame) : task Z := TCPIPEth_Drop fr.

(** The header of an outgoing packet, up to its checksum. *)
Definition ip_fill_header (ip src_addr dst_addr proto size : Z) : task unit :=
  writes (λ m, TCPIPIpFrame_SetHdrLen m ip sizeof_ip);;
  writes (λ m, TCPIPIpFrame_SetVersion m ip 4);;
  writes (λ m, TCPIPIpFrame_SetSrcAddr m ip src_addr);;
  writes (λ m, TCPIPIpFrame_SetDstAddr m ip dst_addr);;
  writes (λ m, TCPIPIpFrame_SetProtocol m ip proto);;
  writes (λ m, TCPIPIpFrame_SetTTL m ip 255);;
  writes (λ m, TCPIPIpFrame_SetLength m ip (size + sizeof_ip));;
  writes (λ m, TCPIPIpFrame_SetTos m ip 0);;
  writes (λ m, TCPIPIpFrame_SetIdentification m ip 0);;
  writes (λ m, TCPIPIpFrame_SetFlags m ip 0);;
  writes (λ m, TCPIPIpFrame_SetFragmentOffset m ip 0);;
  writes (λ m, TCPIPIpChecksum_Set m ip).

(** The hardware address a packet goes to, or [None] with the error of ARP. *)
Definition ip_next_hop (dst_addr : Z) : task (option (list Z)) :=
  bcast ← gets (λ n, TCPIPIpAddr_IsMatchingBroadcast n dst_addr);
  if (bcast : bool) then mret (Some TCPIP_ETH_ADDR_BCAST)
  else if TCPIPIpAddr_IsMatchingMulticast dst_addr then
    mret (Some [0x01; 0x00; 0x5E; u8 (dst_addr / 65536); u8 (dst_addr / 256); u8 dst_addr])
  else
    hop ← gets (λ n, if TCPIPIpAddr_IsWithinSubnet n dst_addr then dst_addr
                     else TCPIPIpAddr_GetGatewayIP n);
    TCPIPArp_GetHWAddr hop.

(** [TCPIPIp_Send]. *)
Definition TCPIPIp_Send (fr : frame) (dst_addr proto : Z) : task Z :=
  let ip := fr_eth fr + sizeof_eth in
  src_addr ← gets TCPIPIpAddr_GetIP;
  ip_fill_header ip src_addr dst_addr proto (fr_size fr);;
  (if proto =? TCPIP_IP_PROTOCOL_TCP then writes (λ m, TCPIPTcpChecksum_Set m ip (fr_l4 fr))
   else if proto =? TCPIP_IP_PROTOCOL_UDP then writes (λ m, TCPIPUdpChecksum_Set m ip (fr_l4 fr))
   else mret ());;
  eth_da ← ip_next_hop dst_addr;
  match eth_da with
  | None => TCPIPIp_Drop fr;; mret EUNKADDR
  | Some eth_da =>
      TCPIPEth_Send (mk_frame (fr_flags fr) ip (u32 (fr_size fr + sizeof_ip)) (fr_bufid fr)
        (fr_eth fr) (fr_l3 fr) (fr_l4 fr)) eth_da TCPIP_ETH_ETHTYPE_IP
  end.
