(* ===== verification/Icmp.v ===== *)
(** * Internet control messages (net/tcpip/src/icmp.c)

    Echo requests are answered, echo replies wake the task that pings.  As in
    the code, the header [TCPIPIcmp_Input] looks at is the one the frame
    descriptor held before the call. *)
From S2P Require Import Prelude CString Heap Time Queue Words Frames Checksum Net Arp Ip.

(** [data] is null in [TCPIPIcmp_Ping], where [data_size] is 0. *)
Definition TCPIPIcmp_SendEcho (da type id seqno data data_size : Z) : task Z :=
  '(fr, ec) ← TCPIPIp_Alloc null_frame;
  if negb (ec =? EOK) then mret ec
  else
    let icmp := fr_ptr fr in
    let echo := icmp + sizeof_icmp in
    writes (λ m, TCPIPIcmpFrame_SetType m icmp type);;
    writes (λ m, TCPIPIcmpFrame_SetCode m icmp 0);;
    writes (λ m, TCPIPIcmpFrameEcho_SetID m echo id);;
    writes (λ m, TCPIPIcmpFrameEcho_SetSeqNo m echo seqno);;
    writes (λ m, memcpy m (echo + sizeof_echo) data data_size);;
    let tot_size := u32 (data_size + sizeof_icmp + sizeof_echo) in
    writes (λ m, TCPIPIcmpChecksum_Set m icmp tot_size);;
    TCPIPIp_Send (mk_frame (Z.lor (fr_flags fr) TCPIP_FRAME_FLAGS_ICMP) (fr_ptr fr) tot_size
      (fr_bufid fr) (fr_eth fr) (fr_l3 fr) icmp) da TCPIP_IP_PROTOCOL_ICMP.

Definition TCPIPIcmp_ProcessEchoRequest (fr : frame) : task Z :=
  let icmp := fr_l4 fr in
  let echo := icmp + sizeof_icmp in
  id ← reads (λ m, TCPIPIcmpFrameEcho_GetID m echo);
  seqno ← reads (λ m, TCPIPIcmpFrameEcho_GetSeqNo m echo);
  sa ← reads (λ m, TCPIPIpFrame_GetSrcAddr m (fr_l3 fr));
  let data_size := u32 (fr_size fr - sizeof_icmp - sizeof_echo) in
  TCPIPIcmp_SendEcho sa TCPIP_ICMP_TYPE_ECHO_REPLY id seqno (echo + sizeof_echo) data_size.

Definition TCPIPIcmp_ProcessEchoResponse (fr : frame) : task Z :=
  let icmp := fr_l4 fr in
  let echo := icmp + sizeof_icmp in
  da ← reads (λ m, TCPIPIpFrame_GetSrcAddr m (fr_l3 fr));
  id ← reads (λ m, TCPIPIcmpFrameEcho_GetID m echo);
  seqno ← reads (λ m, TCPIPIcmpFrameEcho_GetSeqNo m echo);
  modify (λ n,
    if TCPIPIpAddr_IsMatchingUnicast n da && (n_echo_id n =? id) && negb (n_echo_ackno n =? 0)
    then set_echo (n_echo_seqno n) (n_echo_id n) seqno n else n);;
  mret EOK.

Definition TCPIPIcmp_Input (fr : frame) : task Z :=
  let icmp := fr_l4 fr in
  let fr := mk_frame (fr_flags fr) (fr_ptr fr) (fr_size fr) (fr_bufid fr) (fr_eth fr) (fr_l3 fr)
              (fr_ptr fr) in
  modify (set_rx_frame fr);;
  valid ← reads (λ m, TCPIPIcmpChecksum_IsValid m icmp (fr_size fr));
  if negb valid then mret EFATAL
  else
    let fr := mk_frame (Z.lor (fr_flags fr) TCPIP_FRAME_FLAGS_ICMP) (fr_ptr fr) (fr_size fr)
                (fr_bufid fr) (fr_eth fr) (fr_l3 fr) (fr_l4 fr) in
    modify (set_rx_frame fr);;
    type ← reads (λ m, TCPIPIcmpFrame_GetType m icmp);
    if type =? TCPIP_ICMP_TYPE_ECHO_REQUEST then TCPIPIcmp_ProcessEchoRequest fr
    else if type =? TCPIP_ICMP_TYPE_ECHO_REPLY then TCPIPIcmp_ProcessEchoResponse fr
    else mret 0.

(** [while (echo_ackno) Yield()] *)
Fixpoint ping_lock (n : net) (ws : worlds) : res (unit * net * worlds) :=
  if n_echo_ackno n =? 0 then Ok ((), n, ws)
  else match ws with
       | [] => Fault OutOfFuel
       | w :: ws => ping_lock (w n) ws
       end.

(** The wait for the reply. *)
Fixpoint ping_wait (timeout ts ec : Z) (n : net) (ws : worlds) : res (Z * net * worlds) :=
  if n_echo_ackno n =? n_echo_seqno n then Ok (ec, n, ws)
  else if negb (timeout =? 0) && (timeout <=? dtime (n_now n) ts) then Ok (EUNREACHABLE, n, ws)
  else match ws with
       | [] => Fault OutOfFuel
       | w :: ws => ping_wait timeout ts ec (w n) ws
       end.

(** The sequence number after the last one: never zero. *)
Definition next_echo_seqno (seqno : Z) : Z :=
  let s := u16 (seqno + 1) in if s =? 0 then 1 else s.

Definition TCPIPIcmp_Ping (da timeout : Z) : task Z :=
  ts ← gets n_now;
  (ping_lock : task unit);;
  modify (λ n, set_echo (next_echo_seqno (n_echo_seqno n)) (n_echo_id n) 0xffff n);;
  modify (λ n, set_echo (n_echo_seqno n) 1 (n_echo_ackno n) n);;
  seqno ← gets n_echo_seqno;
  ec ← TCPIPIcmp_SendEcho da TCPIP_ICMP_TYPE_ECHO_REQUEST 1 seqno 0 0;
  let ec := if EOK <? ec then EOK else ec in
  ec ← (if ec <? EOK then mret ec else (ping_wait timeout ts ec : task Z));
  modify (λ n, set_echo (n_echo_seqno n) (n_echo_id n) 0 n);;
  mret ec.
