(* ===== verification/Udp.v ===== *)
(** * User datagrams (net/tcpip/src/udp.c, udp_sock.c)

    A socket's queue holds datagrams back to back, each behind a header with its
    size, source address and source port.  Queue transfers of single values go
    through the bytes of C objects (the frame descriptor, automatic variables,
    fields of the socket); [obj] is the address of such an object. *)
From S2P Require Import Prelude CString Heap Time Queue ByteQueue Words Frames Checksum Net Arp Ip.

(** ** udp.c *)

Definition TCPIPUdp_Alloc (fr : frame) : task (frame * Z) :=
  '(f, ec) ← TCPIPIp_Alloc fr;
  if negb (ec =? EOK) then mret (f, ec)
  else
    let udp := fr_ptr f in
    mret (mk_frame (Z.lor (fr_flags f) TCPIP_FRAME_FLAGS_UDP) (udp + sizeof_udp) (fr_size f)
            (fr_bufid f) (fr_eth f) (fr_l3 f) udp, EOK).

Definition TCPIPUdp_Drop (fr : frame) : task Z := TCPIPIp_Drop fr.

Definition TCPIPUdp_Send (fr : frame) (dst_addr src_port dst_port : Z) : task Z :=
  let udp := fr_l4 fr in
  writes (λ m, TCPIPUdpFrame_SetSrcPort m udp src_port);;
  writes (λ m, TCPIPUdpFrame_SetDstPort m udp dst_port);;
  writes (λ m, TCPIPUdpFrame_SetLength m udp (fr_size fr + sizeof_udp));;
  TCPIPIp_Send (mk_frame (fr_flags fr) udp (u32 (fr_size fr + sizeof_udp)) (fr_bufid fr)
    (fr_eth fr) (fr_l3 fr) udp) dst_addr TCPIP_IP_PROTOCOL_UDP.

(** ** udp_sock.c *)

Definition upd_us_rx (rxq : option queue_t) (offs size ip port : Z) (s : udp_sock) : udp_sock :=
  mk_udp_sock (us_loc_port s) rxq offs size ip port.

(** The bytes of an object with value [v]. *)
Definition obj16 (v : Z) : list Z := [u8 v; u8 (v / 256)].
Definition obj32 (v : Z) : list Z := [u8 v; u8 (v / 256); u8 (v / 65536); u8 (v / 16777216)].

Section sockets.
Context (obj : Z).

(** [Queue_Put(sock->rxq, &object, sizeof(object))]. *)
Definition put_object (m : mem) (q : queue_t) (bs : list Z) : res (mem * queue_t) :=
  '(m, q, _) ← Queue_Put (put_bytes m obj bs) q obj (length bs); Ok (m, q).

Definition TCPIPUdpSock_ProcessIncoming (m : mem) (fr : frame) (s : udp_sock)
  : res (mem * udp_sock * Z) :=
  let udp := fr_l4 fr in
  dst_port ← TCPIPUdpFrame_GetDstPort m udp;
  src_port ← TCPIPUdpFrame_GetSrcPort m udp;
  ip ← TCPIPIpFrame_GetSrcAddr m (fr_l3 fr);
  if (us_loc_port s =? 0) || negb (us_loc_port s =? dst_port) then Ok (m, s, EUNREACHABLE)
  else
    let b_to_put := u32 (4 + 4 + 2 + fr_size fr) in
    match us_rxq s with
    | None => Fault NullDeref
    | Some rxq =>
        if Queue_GetFree rxq <? b_to_put then Ok (m, s, EOK)
        else
          '(m, rxq) ← put_object m rxq (obj32 (fr_size fr));
          '(m, rxq) ← put_object m rxq (obj32 ip);
          '(m, rxq) ← put_object m rxq (obj16 src_port);
          '(m, rxq, _) ← Queue_Put m rxq (fr_ptr fr) (fr_size fr);
          Ok (m, upd_us_rx (Some rxq) (us_rx_offs s) (us_rx_size s) (us_rx_ip s) (us_rx_port s) s, EOK)
    end.

(** The loop over the sockets; [ec] is the code of the last one tried. *)
Fixpoint udp_process_sockets (m : mem) (fr : frame) (ec : Z) (l : list udp_sock)
  : res (mem * list udp_sock * Z) :=
  match l with
  | [] => Ok (m, [], ec)
  | s :: l' =>
      '(m, s, ec) ← TCPIPUdpSock_ProcessIncoming m fr s;
      if ec =? EOK then Ok (m, s :: l', EOK)
      else '(m, l', ec) ← udp_process_sockets m fr ec l'; Ok (m, s :: l', ec)
  end.

Definition TCPIPUdpSock_Input (fr : frame) : task Z := λ n ws,
  '(m, l, ec) ← udp_process_sockets (n_mem n) fr EFATAL (n_udp n);
  Ok (ec, set_udp l (set_mem m n), ws).

(** [TCPIPUdp_Input].  The size is the length field less the header. *)
Definition TCPIPUdp_Input (fr : frame) : task Z :=
  let udp := fr_ptr fr in
  length ← reads (λ m, TCPIPUdpFrame_GetLength m udp);
  let fr := mk_frame (Z.lor (fr_flags fr) TCPIP_FRAME_FLAGS_UDP) (udp + sizeof_udp)
              (u32 (length - sizeof_udp)) (fr_bufid fr) (fr_eth fr) (fr_l3 fr) udp in
  modify (set_rx_frame fr);;
  TCPIPUdpSock_Input fr.

Fixpoint find_free_udp (l : list udp_sock) : nat :=
  match l with
  | [] => O
  | s :: l' => if us_loc_port s =? 0 then O else S (find_free_udp l')
  end.

Definition TCPIPUdpSock_CreateSocket (port rx_size : Z) (n : net) : res (net * option nat) :=
  let i := find_free_udp (n_udp n) in
  match n_udp n !! i with
  | None => Ok (n, None)
  | Some s =>
      '(h, rxq) ← Queue_Create (n_heap_base n) (n_heap n) 1 rx_size;
      c_assert (bool_decide (is_Some rxq));;
      Ok (set_udp (<[i := mk_udp_sock port (snd <$> rxq) (us_rx_offs s) (us_rx_size s) (us_rx_ip s)
                          (us_rx_port s)]> (n_udp n)) (set_heap h n), Some i)
  end.

(** [rxq] is the address of the queue's descriptor. *)
Definition TCPIPUdpSock_DestroySocket (i : nat) (rxq : Z) (n : net) : res net :=
  match n_udp n !! i with
  | None => Fault OutOfBounds
  | Some s =>
      match us_rxq s with
      | None => Fault NullDeref
      | Some q =>
          h ← Queue_Destroy (n_heap n) rxq q;
          Ok (set_udp (<[i := mk_udp_sock 0 (us_rxq s) (us_rx_offs s) (us_rx_size s) (us_rx_ip s)
                              (us_rx_port s)]> (n_udp n)) (set_heap h n))
      end
  end.

Definition get_udp (i : nat) : task udp_sock := λ n ws,
  match n_udp n !! i with Some s => Ok (s, n, ws) | None => Fault OutOfBounds end.
Definition put_udp (i : nat) (s : udp_sock) : task unit := modify (λ n, set_udp (<[i := s]> (n_udp n)) n).

(** [Queue_Get] on the socket's queue. *)
Definition udp_get (i : nat) (ptr count : Z) : task Z := λ n ws,
  match n_udp n !! i with
  | None => Fault OutOfBounds
  | Some s =>
      match us_rxq s with
      | None => Fault NullDeref
      | Some rxq =>
          '(m, rxq, read) ← Queue_Get (n_mem n) rxq ptr count;
          Ok (read, set_udp (<[i := upd_us_rx (Some rxq) (us_rx_offs s) (us_rx_size s) (us_rx_ip s)
                                      (us_rx_port s) s]> (n_udp n)) (set_mem m n), ws)
      end
  end.

(** The loop of [Queue_GetWait] on the socket's queue. *)
Fixpoint udp_get_wait (i : nat) (ptr count timeout ts read : Z) (n : net) (ws : worlds)
  : res (Z * net * worlds) :=
  '(b_read, n, _) ← udp_get i (ptr + read) (u32 (count - read)) n ([] : worlds);
  let read := u32 (read + b_read) in
  if read =? count then Ok (read, n, ws)
  else if (negb (timeout =? 0) && (timeout <? dtime (n_now n) ts)) || n_cancelled n then Ok (read, n, ws)
  else match ws with
       | [] => Fault OutOfFuel
       | w :: ws => udp_get_wait i ptr count timeout ts read (w n) ws
       end.

(** The value a queue transfer left in an object. *)
Definition load_obj (f : mem → Z → res Z) : task Z := reads (λ m, f m obj).

(** The header of the next datagram; false after a timeout. *)
Definition recv_header (i : nat) (timeout : Z) : task bool :=
  s ← get_udp i;
  ts ← gets n_now;
  writes (λ m, store32 m obj (us_rx_size s));;
  b_read ← (udp_get_wait i obj 4 timeout ts 0 : task Z);
  rx_size ← load_obj load32;
  s ← get_udp i;
  put_udp i (upd_us_rx (us_rxq s) (us_rx_offs s) rx_size (us_rx_ip s) (us_rx_port s) s);;
  if b_read =? 0 then mret false
  else
    writes (λ m, store32 m obj (us_rx_ip s));;
    udp_get i obj 4;;
    rx_ip ← load_obj load32;
    writes (λ m, store16 m obj (us_rx_port s));;
    udp_get i obj 2;;
    rx_port ← load_obj load16;
    s ← get_udp i;
    put_udp i (upd_us_rx (us_rxq s) 0 (us_rx_size s) rx_ip rx_port s);;
    mret true.

(** [TCPIPUdpSock_RecvFrom]: the code or number of bytes, address and port. *)
Definition TCPIPUdpSock_RecvFrom (i : nat) (ptr size timeout : Z) : task (Z * Z * Z) :=
  s ← get_udp i;
  waited ← (if us_rx_offs s =? us_rx_size s then recv_header i timeout else mret true);
  s ← get_udp i;
  if negb (waited : bool) then mret (ETIMEOUT, us_rx_ip s, us_rx_port s)
  else
    b_read ← udp_get i ptr (Z.min size (us_rx_size s));
    s ← get_udp i;
    put_udp i (upd_us_rx (us_rxq s) (u32 (us_rx_offs s + b_read)) (us_rx_size s) (us_rx_ip s) (us_rx_port s) s);;
    mret (b_read, us_rx_ip s, us_rx_port s).
End sockets.

(** [memcpy] is not bounded by the size of the buffer. *)
Definition TCPIPUdpSock_SendTo (i : nat) (addr port ptr size : Z) : task Z :=
  '(fr, ec) ← TCPIPUdp_Alloc null_frame;
  if negb (ec =? EOK) then mret ec
  else
    writes (λ m, memcpy m (fr_ptr fr) ptr size);;
    s ← get_udp i;
    TCPIPUdp_Send (mk_frame (fr_flags fr) (fr_ptr fr) size (fr_bufid fr) (fr_eth fr) (fr_l3 fr) (fr_l4 fr))
      addr (us_loc_port s) port.

(** ** Datagrams in a socket *)

Record datagram := mk_datagram { dg_ip : Z; dg_port : Z; dg_data : list Z }.

(** A datagram the way it lies in the queue. *)
Definition dg_bytes (d : datagram) : list Z :=
  obj32 (length (dg_data d)) ++ obj32 (dg_ip d) ++ obj16 (dg_port d) ++ dg_data d.

Definition dg_ok (d : datagram) : Prop :=
  is_u32 (dg_ip d) ∧ is_u16 (dg_port d) ∧ Forall is_u8 (dg_data d) ∧ length (dg_data d) < 4294967286.

Lemma obj16_ok v : Forall is_u8 (obj16 v).
Proof. repeat constructor; apply u8_range. Qed.
Lemma obj32_ok v : Forall is_u8 (obj32 v).
Proof. repeat constructor; apply u8_range. Qed.

Lemma load_obj16 m a v : is_u16 v → bytes_at m a (obj16 v) → load16 m a = Ok v.
Proof.
  intros Hv H. pose proof (load16_bytes m a _ 0 _ _ H eq_refl eq_refl) as E. rewrite Z.add_0_r in E.
  rewrite E. f_equal. word_lia.
Qed.

Lemma load_obj32 m a v : is_u32 v → bytes_at m a (obj32 v) → load32 m a = Ok v.
Proof.
  intros Hv H. pose proof (load32_bytes m a _ 0 _ _ _ _ H eq_refl eq_refl eq_refl eq_refl) as E.
  rewrite Z.add_0_r in E. rewrite E. f_equal. word_lia.
Qed.

Lemma store_obj16 m a v : mapped m a 2 → store16 m a v = Ok (put_bytes m a (obj16 v)).
Proof. apply store16_put. Qed.
Lemma store_obj32 m a v : mapped m a 4 → store32 m a v = Ok (put_bytes m a (obj32 v)).
Proof. apply store32_put. Qed.

Section datagrams.
Context {fifo : mem → queue_t → list Z → Prop} `{!ByteFifo fifo} (obj : Z).

(** The socket holds the datagrams [ds], and none is half read. *)
Definition holds_datagrams (m : mem) (s : udp_sock) (q0 : queue_t) (ds : list datagram) : Prop :=
  (∃ q, us_rxq s = Some q ∧ same_buffer q q0 ∧ fifo m q (concat (dg_bytes <$> ds))) ∧
  Forall dg_ok ds ∧ us_rx_offs s = us_rx_size s.

Lemma put_object_ok m q l bs :
  fifo m q l → Forall is_u8 bs → foreign q obj (length bs) → length l + length bs ≤ q_count q →
  ∃ m' q', put_object obj m q bs = Ok (m', q') ∧ fifo m' q' (l ++ bs) ∧ same_buffer q' q ∧
    ∀ a, ¬ (q_ptr q ≤ a < q_ptr q + q_cap q) → ¬ (obj ≤ a < obj + length bs) → m' !! a = m !! a.
Proof.
  intros Hf Hu Hfor Hroom. unfold put_object.
  destruct (fifo_put_all (put_bytes m obj bs) q l bs obj) as (m' & q' & E & Hf' & Hb & Ho);
    [by apply fifo_put_bytes|done|apply put_bytes_bytes_at|done|done|].
  rewrite E, bind_Ok. exists m', q'. split; [done|]. split; [done|]. split; [done|].
  intros a H1 H2. rewrite Ho by done. by apply put_bytes_lookup_ne.
Qed.

Lemma bytes_at_frame m m' a l :
  bytes_at m a l → (∀ i, a ≤ i < a + length l → m' !! i = m !! i) → bytes_at m' a l.
Proof.
  revert a. induction l as [|b l IH]; intros a; [done|]. intros [Hb Hl] H. cbn [length] in H.
  split; [rewrite H; [done|lia]|]. apply IH; [done|]. intros i Hi. apply H. lia.
Qed.

(** The frame [fr] is the datagram [d] to [port]. *)
Definition carries (m : mem) (fr : frame) (port : Z) (d : datagram) : Prop :=
  TCPIPUdpFrame_GetDstPort m (fr_l4 fr) = Ok port ∧
  TCPIPUdpFrame_GetSrcPort m (fr_l4 fr) = Ok (dg_port d) ∧
  TCPIPIpFrame_GetSrcAddr m (fr_l3 fr) = Ok (dg_ip d) ∧
  fr_size fr = length (dg_data d) ∧ bytes_at m (fr_ptr fr) (dg_data d) ∧ dg_ok d.

(** A datagram for which there is room is appended as a whole. *)
Lemma deliver_ok m s fr q0 q l d :
  us_rxq s = Some q → same_buffer q q0 → fifo m q l → us_loc_port s ≠ 0 → carries m fr (us_loc_port s) d →
  foreign q0 (fr_ptr fr) (fr_size fr) → foreign q0 obj 4 →
  obj + 4 ≤ fr_ptr fr ∨ fr_ptr fr + fr_size fr ≤ obj →
  length l + length (dg_bytes d) ≤ q_count q0 →
  ∃ m' q', TCPIPUdpSock_ProcessIncoming obj m fr s =
      Ok (m', upd_us_rx (Some q') (us_rx_offs s) (us_rx_size s) (us_rx_ip s) (us_rx_port s) s, EOK) ∧
    same_buffer q' q0 ∧ fifo m' q' (l ++ dg_bytes d).
Proof.
  intros Hq Hb Hf Hp (Edst & Esrc & Eip & Hsize & Hdata & Hd) Hfr Hobj Hap Hroom.
  pose proof Hd as (Hip & Hport & Hu & Hlen).
  unfold TCPIPUdpSock_ProcessIncoming. rewrite Edst, bind_Ok, Esrc, bind_Ok, Eip, bind_Ok.
  destruct (Z.eqb_spec (us_loc_port s) 0); [done|]. rewrite Z.eqb_refl. cbn [orb negb]. rewrite Hq.
  assert (length (dg_bytes d) = 10 + length (dg_data d))%nat as Hdl by done.
  destruct (fifo_free _ _ _ Hf) as [Efree Hle]. pose proof Hb as (Hbp & Hbc & Hbs).
  rewrite Efree, Hsize, Hbc, u32_small by word_lia.
  destruct (Z.ltb_spec (q_count q0 - length l) (4 + 4 + 2 + length (dg_data d))); [lia|].
  destruct (put_object_ok m q l (obj32 (length (dg_data d)))) as (m1 & q1 & -> & Hf1 & Hb1 & Ho1);
    [done|apply obj32_ok|by apply (foreign_same _ q0)|cbn; lia|]. rewrite bind_Ok.
  assert (same_buffer q1 q0) as Hb10 by by eapply same_buffer_trans. pose proof Hb10 as (Hbp1 & Hbc1 & Hbs1).
  destruct (put_object_ok m1 q1 _ (obj32 (dg_ip d)) Hf1) as (m2 & q2 & -> & Hf2 & Hb2 & Ho2);
    [apply obj32_ok|by apply (foreign_same _ q0)|rewrite length_app; cbn; lia|]. rewrite bind_Ok.
  assert (same_buffer q2 q0) as Hb20 by by eapply same_buffer_trans. pose proof Hb20 as (Hbp2 & Hbc2 & Hbs2).
  destruct (put_object_ok m2 q2 _ (obj16 (dg_port d)) Hf2) as (m3 & q3 & -> & Hf3 & Hb3 & Ho3);
    [apply obj16_ok|apply (foreign_same _ q0); [done|by apply (foreign_le _ _ 4)]|rewrite !length_app; cbn; lia|].
  rewrite bind_Ok.
  assert (same_buffer q3 q0) as Hb30 by by eapply same_buffer_trans. pose proof Hb30 as (Hbp3 & Hbc3 & Hbs3).
  assert (bytes_at m3 (fr_ptr fr) (dg_data d)) as Hdata3.
  { eapply bytes_at_frame; [exact Hdata|]. intros i Hi.
    unfold foreign, q_cap in *. rewrite Hbp, Hbc, Hbs in Ho1. rewrite Hbp1, Hbc1, Hbs1 in Ho2.
    rewrite Hbp2, Hbc2, Hbs2 in Ho3. change (length (obj32 _)) with 4%nat in Ho1, Ho2.
    change (length (obj16 _)) with 2%nat in Ho3.
    rewrite Ho3, Ho2, Ho1 by lia. done. }
  destruct (fifo_put_all m3 q3 _ (dg_data d) (fr_ptr fr) Hf3) as (m4 & q4 & -> & Hf4 & Hb4 & _);
    [done|done|apply (foreign_same _ q0); [done|by rewrite <- Hsize]|rewrite !length_app; cbn; lia|].
  rewrite bind_Ok. do 2 eexists. split; [reflexivity|]. split; [by eapply same_buffer_trans|].
  unfold dg_bytes. by rewrite <- !app_assoc in Hf4.
Qed.

(** The socket [i] of a state. *)
Definition sock_at (i : nat) (n : net) (s : udp_sock) : Prop := n_udp n !! i = Some s.

Lemma get_udp_Ok i n ws s : sock_at i n s → get_udp i n ws = Ok (s, n, ws).
Proof. intros H. unfold get_udp. by rewrite H. Qed.

Lemma put_udp_at i n ws s s0 :
  sock_at i n s0 → ∃ n', put_udp i s n ws = Ok ((), n', ws) ∧ sock_at i n' s ∧ n_mem n' = n_mem n.
Proof.
  intros H. eexists. split; [reflexivity|]. split; [|done].
  unfold sock_at. cbn. rewrite list_lookup_insert_eq; [done|]. by eapply lookup_lt_Some.
Qed.

Lemma udp_get_ok i n ws s q q0 bs l p :
  sock_at i n s → us_rxq s = Some q → same_buffer q q0 → fifo (n_mem n) q (bs ++ l) →
  mapped (n_mem n) p (length bs) → foreign q0 p (length bs) →
  ∃ n' q', udp_get i p (length bs) n ws = Ok (Z.of_nat (length bs), n', ws) ∧
    n_mem n' = put_bytes (n_mem n) p bs ∧
    sock_at i n' (upd_us_rx (Some q') (us_rx_offs s) (us_rx_size s) (us_rx_ip s) (us_rx_port s) s) ∧
    same_buffer q' q0 ∧ fifo (n_mem n') q' l.
Proof.
  intros Hi Hq Hb Hf Hm Hfor. unfold udp_get. rewrite Hi, Hq.
  destruct (fifo_get (n_mem n) q (bs ++ l) (length bs) p Hf) as (q' & E & Hf' & Hb');
    [rewrite length_app; lia|done|by apply (foreign_same _ q0)|].
  rewrite take_app_length, drop_app_length in *. rewrite E, bind_Ok.
  eexists. exists q'. split; [reflexivity|]. split; [done|]. split; [|split; [by eapply same_buffer_trans|done]].
  unfold sock_at. cbn. rewrite list_lookup_insert_eq; [done|]. by eapply lookup_lt_Some.
Qed.

(** A value fetched into the object. *)
Lemma udp_get_wait_ok i n ws s q q0 bs l timeout ts :
  sock_at i n s → us_rxq s = Some q → same_buffer q q0 → fifo (n_mem n) q (bs ++ l) →
  length bs = 4%nat → mapped (n_mem n) obj 4 → foreign q0 obj 4 →
  ∃ n' q', udp_get_wait i obj 4 timeout ts 0 n ws = Ok (4, n', ws) ∧
    n_mem n' = put_bytes (n_mem n) obj bs ∧
    sock_at i n' (upd_us_rx (Some q') (us_rx_offs s) (us_rx_size s) (us_rx_ip s) (us_rx_port s) s) ∧
    same_buffer q' q0 ∧ fifo (n_mem n') q' l.
Proof.
  intros Hi Hq Hb Hf Hl Hm Hfor.
  destruct (udp_get_ok i n [] s q q0 bs l obj Hi Hq Hb Hf) as (n' & q' & E & H); [by rewrite Hl..|].
  exists n', q'. split; [|done].
  destruct ws; cbn [udp_get_wait]; rewrite Z.add_0_r; change (u32 (4 - 0)) with (Z.of_nat 4);
    rewrite <- Hl, E, bind_Ok, Hl; reflexivity.
Qed.

Lemma recv_header_ok i n ws s q0 d ds timeout :
  sock_at i n s → holds_datagrams (n_mem n) s q0 (d :: ds) → mapped (n_mem n) obj 4 → foreign q0 obj 4 →
  ∃ n' s' q', recv_header obj i timeout n ws = Ok (true, n', ws) ∧ sock_at i n' s' ∧
    us_rx_offs s' = 0 ∧ us_rx_size s' = length (dg_data d) ∧ us_rx_ip s' = dg_ip d ∧ us_rx_port s' = dg_port d ∧
    us_rxq s' = Some q' ∧ same_buffer q' q0 ∧
    fifo (n_mem n') q' (dg_data d ++ concat (dg_bytes <$> ds)) ∧
    (∀ p k, mapped (n_mem n) p k → mapped (n_mem n') p k).
Proof.
  intros Hi [(q & Hq & Hb & Hf) [Hds Hoffs]] Hm Hfor.
  apply Forall_cons_1 in Hds as [(Hip & Hport & Hu & Hlen) _].
  cbn [fmap list_fmap concat] in Hf. unfold dg_bytes at 1 in Hf. rewrite <- !app_assoc in Hf.
  unfold recv_header.
  task_step ltac:(by apply get_udp_Ok). task_step ltac:(reflexivity).
  task_step ltac:(by apply writes_Ok, store_obj32).
  set (n1 := set_mem _ n).
  destruct (udp_get_wait_ok i n1 ws s q q0 (obj32 (length (dg_data d))) _ timeout (n_now n) Hi Hq Hb
    (fifo_put_bytes _ _ _ _ (obj32 (us_rx_size s)) Hf (foreign_same _ _ _ _ Hb Hfor)) eq_refl) as
    (n2 & q2 & E2 & Hm2 & Hi2 & Hb2 & Hf2); [by apply put_bytes_mapped|done|].
  task_step ltac:(exact E2).
  task_step ltac:(apply reads_Ok; rewrite Hm2; eapply load_obj32; [|apply put_bytes_bytes_at]; word_lia).
  task_step ltac:(by apply get_udp_Ok).
  edestruct (put_udp_at i n2 ws) as (n3 & E3 & Hi3 & Hm3); [exact Hi2|].
  task_step ltac:(exact E3). change (4 =? 0) with false. cbv iota.
  assert (mapped (n_mem n3) obj 4) as Hmo3 by (rewrite Hm3, Hm2; by do 2 apply put_bytes_mapped).
  task_step ltac:(by apply writes_Ok, store_obj32).
  set (n4 := set_mem _ n3). rewrite Hm2 in Hf2.
  destruct (udp_get_ok i n4 ws _ q2 q0 (obj32 (dg_ip d)) (obj16 (dg_port d) ++ dg_data d ++ concat (dg_bytes <$> ds))
    obj Hi3 eq_refl Hb2)
    as (n5 & q5 & E5 & Hm5 & Hi5 & Hb5 & Hf5);
    [|by apply put_bytes_mapped|done|].
  { cbn [n4 n_mem set_mem]. rewrite Hm3, Hm2. apply fifo_put_bytes; [done|by apply (foreign_same _ q0)]. }
  task_step ltac:(exact E5).
  task_step ltac:(apply reads_Ok; rewrite Hm5; eapply load_obj32; [|apply put_bytes_bytes_at]; done).
  assert (mapped (n_mem n5) obj 4) as Hmo5 by (rewrite Hm5; by do 2 apply put_bytes_mapped).
  task_step ltac:(apply writes_Ok, store_obj16; by apply (mapped_le _ _ 4); [lia|]).
  set (n6 := set_mem _ n5).
  destruct (udp_get_ok i n6 ws _ q5 q0 (obj16 (dg_port d)) (dg_data d ++ concat (dg_bytes <$> ds)) obj
    Hi5 eq_refl Hb5)
    as (n7 & q7 & E7 & Hm7 & Hi7 & Hb7 & Hf7);
    [| |by apply (foreign_le _ _ 4)|].
  { apply fifo_put_bytes; [done|]. apply (foreign_same _ q0); [done|]. by apply (foreign_le _ _ 4). }
  { apply put_bytes_mapped. by apply (mapped_le _ _ 4); [cbn; lia|]. }
  task_step ltac:(exact E7).
  task_step ltac:(apply reads_Ok; rewrite Hm7; eapply load_obj16; [|apply put_bytes_bytes_at]; done).
  task_step ltac:(by apply get_udp_Ok).
  edestruct (put_udp_at i n7 ws) as (n8 & E8 & Hi8 & Hm8); [exact Hi7|].
  task_step ltac:(exact E8).
  eexists n8, _, q7. split; [reflexivity|]. split; [exact Hi8|]. do 6 (split; [done|]).
  rewrite Hm8. split; [done|]. intros p k Hk. rewrite Hm7. cbn [n6 n_mem set_mem]. rewrite Hm5.
  cbn [n4 n_mem set_mem]. rewrite Hm3, Hm2. by repeat apply put_bytes_mapped.
Qed.

(** ... and otherwise dropped. *)
Lemma deliver_full m s fr q0 q l d :
  us_rxq s = Some q → same_buffer q q0 → fifo m q l → us_loc_port s ≠ 0 → carries m fr (us_loc_port s) d →
  q_count q0 < length l + length (dg_bytes d) →
  TCPIPUdpSock_ProcessIncoming obj m fr s = Ok (m, s, EOK).
Proof.
  intros Hq Hb Hf Hp (Edst & Esrc & Eip & Hsize & Hdata & Hd) Hroom.
  unfold TCPIPUdpSock_ProcessIncoming. rewrite Edst, bind_Ok, Esrc, bind_Ok, Eip, bind_Ok.
  destruct (Z.eqb_spec (us_loc_port s) 0); [done|]. rewrite Z.eqb_refl. cbn [orb negb]. rewrite Hq.
  assert (length (dg_bytes d) = 10 + length (dg_data d))%nat as Hdl by done.
  destruct (fifo_free _ _ _ Hf) as [Efree Hle]. destruct Hb as (_ & Hbc & _). destruct Hd as (_ & _ & _ & Hlen).
  rewrite Efree, Hsize, Hbc, u32_small by word_lia.
  destruct (Z.ltb_spec (q_count q0 - length l) (4 + 4 + 2 + length (dg_data d))); [done|lia].
Qed.

(** [k] bytes of the datagram [d] were read, and [ds] lie behind it. *)
Definition half_read (m : mem) (s : udp_sock) (q0 : queue_t) (d : datagram) (k : nat) (ds : list datagram) : Prop :=
  (∃ q, us_rxq s = Some q ∧ same_buffer q q0 ∧ fifo m q (drop k (dg_data d) ++ concat (dg_bytes <$> ds))) ∧
  Forall dg_ok (d :: ds) ∧ us_rx_offs s = k ∧ us_rx_size s = length (dg_data d) ∧ us_rx_ip s = dg_ip d ∧ us_rx_port s = dg_port d ∧
  (k ≤ length (dg_data d))%nat.

(** What a socket holds: a datagram that was begun, and others behind it. *)
Definition contents (m : mem) (s : udp_sock) (q0 : queue_t) (begun : option (datagram * nat)) (ds : list datagram) : Prop :=
  match begun with Some (d, k) => half_read m s q0 d k ds | None => holds_datagrams m s q0 ds end.
Definition unread (begun : option (datagram * nat)) (ds : list datagram) : list Z :=
  (if begun is Some (d, k) then drop k (dg_data d) else []) ++ concat (dg_bytes <$> ds).

Lemma contents_queue m s q0 begun ds : contents m s q0 begun ds →
  ∃ q, us_rxq s = Some q ∧ same_buffer q q0 ∧ fifo m q (unread begun ds).
Proof. destruct begun as [[d k]|]; by intros [H _]. Qed.

Lemma contents_more m s q0 begun ds d m' q' :
  contents m s q0 begun ds → dg_ok d → same_buffer q' q0 → fifo m' q' (unread begun ds ++ dg_bytes d) →
  contents m' (upd_us_rx (Some q') (us_rx_offs s) (us_rx_size s) (us_rx_ip s) (us_rx_port s) s) q0 begun (ds ++ [d]).
Proof.
  intros H Hd Hb Hf. assert (fifo m' q' (unread begun (ds ++ [d]))) as Hf'.
  { unfold unread in *. rewrite fmap_app, concat_app. cbn [fmap list_fmap concat]. by rewrite app_nil_r, app_assoc. }
  destruct begun as [[d0 k]|].
  - destruct H as (_ & Hds & H). split; [by exists q'|]. split; [|exact H]. apply (Forall_app_2 _ (d0 :: ds)); [done|]. by apply Forall_singleton.
  - destruct H as (_ & Hds & H). split; [by exists q'|]. split; [|exact H]. apply Forall_app_2; [done|]. by apply Forall_singleton.
Qed.

Lemma all_read m s q0 d ds : half_read m s q0 d (length (dg_data d)) ds → holds_datagrams m s q0 ds.
Proof.
  intros ((q & Hq & Hb & Hf) & Hds & Ho & Hz & _). rewrite drop_all in Hf. split; [by exists q|].
  split; [by apply Forall_cons_1 in Hds as [_ ?]|]. by rewrite Ho, Hz.
Qed.

(** The end of a reception: the next bytes of the datagram. *)
Lemma next_bytes i n ws s q0 d k ds p size :
  sock_at i n s → half_read (n_mem n) s q0 d k ds → 0 ≤ size →
  let b := Z.to_nat (Z.min size (length (dg_data d))) in
  (k + b ≤ length (dg_data d))%nat → mapped (n_mem n) p b → foreign q0 p b →
  ∃ n' s', (b_read ← udp_get i p (Z.min size (us_rx_size s)); s ← get_udp i;
      put_udp i (upd_us_rx (us_rxq s) (u32 (us_rx_offs s + b_read)) (us_rx_size s) (us_rx_ip s) (us_rx_port s) s);;
      mret (b_read, us_rx_ip s, us_rx_port s) : task (Z * Z * Z)) n ws = Ok ((Z.of_nat b, dg_ip d, dg_port d), n', ws) ∧
    bytes_at (n_mem n') p (take b (drop k (dg_data d))) ∧ sock_at i n' s' ∧ half_read (n_mem n') s' q0 d (k + b) ds.
Proof.
  intros Hi ((q & Hq & Hb & Hf) & Hds & Ho & Hz & Hip & Hport & Hk) Hsize b Hroom Hmp Hfp.
  pose proof (Forall_inv Hds) as (_ & _ & _ & Hlen). set (data := dg_data d) in *.
  assert (length (take b (drop k data)) = b) as Hl by (rewrite length_take, length_drop; lia).
  rewrite <- (take_drop b (drop k data)), <- app_assoc, drop_drop in Hf.
  destruct (udp_get_ok i n ws s q q0 (take b (drop k data)) _ p Hi Hq Hb Hf) as (n2 & q2 & E2 & Hm2 & Hi2 & Hb2 & Hf2); [by rewrite Hl..|].
  rewrite Hl in E2. rewrite Hz. replace (Z.min size (length data)) with (Z.of_nat b) by lia.
  task_step ltac:(exact E2). task_step ltac:(by apply get_udp_Ok).
  edestruct (put_udp_at i n2 ws) as (n3 & E3 & Hi3 & Hm3); [exact Hi2|]. task_step ltac:(exact E3).
  cbn [us_rx_ip us_rx_port upd_us_rx]. rewrite Hip, Hport. exists n3. eexists. split; [reflexivity|]. rewrite Hm3.
  split; [rewrite Hm2; apply put_bytes_bytes_at|]. split; [exact Hi3|].
  split; [exists q2; split; [done|]; by split|]. split; [done|]. cbn. rewrite Ho. split; [word_lia|]. by split_and!.
Qed.

(** A reader gets the oldest datagram from its start on, or the rest of the one it
    has begun. *)
Lemma recv_first i n ws s q0 d ds p size timeout :
  sock_at i n s → holds_datagrams (n_mem n) s q0 (d :: ds) → mapped (n_mem n) obj 4 → foreign q0 obj 4 → 0 ≤ size →
  let b := Z.to_nat (Z.min size (length (dg_data d))) in mapped (n_mem n) p b → foreign q0 p b →
  ∃ n' s', TCPIPUdpSock_RecvFrom obj i p size timeout n ws = Ok ((Z.of_nat b, dg_ip d, dg_port d), n', ws) ∧
    bytes_at (n_mem n') p (take b (dg_data d)) ∧ sock_at i n' s' ∧ half_read (n_mem n') s' q0 d b ds.
Proof.
  intros Hi Hh Hm Hfor Hsize b Hmp Hfp. pose proof Hh as [_ [Hds Hoffs]].
  destruct (recv_header_ok i n ws s q0 d ds timeout Hi Hh Hm Hfor) as
    (n1 & s1 & q1 & E1 & Hi1 & Ho1 & Hz1 & Ha1 & Hp1 & Hq1 & Hb1 & Hf1 & Hm1).
  destruct (next_bytes i n1 ws s1 q0 d 0 ds p size Hi1) as (n2 & s2 & E2 & H); [|done|lia|by apply Hm1|done|].
  { split; [by exists q1|]. split; [done|]. split; [done|]. split; [done|]. split; [done|]. split; [done|lia]. }
  unfold TCPIPUdpSock_RecvFrom. task_step ltac:(by apply get_udp_Ok).
  rewrite Hoffs, Z.eqb_refl. task_step ltac:(exact E1). task_step ltac:(by apply get_udp_Ok).
  cbn [negb]. by exists n2, s2.
Qed.

Lemma recv_rest i n ws s q0 d k ds p size timeout :
  sock_at i n s → half_read (n_mem n) s q0 d k ds → (k < length (dg_data d))%nat → 0 ≤ size →
  let b := Z.to_nat (Z.min size (length (dg_data d))) in (k + b ≤ length (dg_data d))%nat → mapped (n_mem n) p b → foreign q0 p b →
  ∃ n' s', TCPIPUdpSock_RecvFrom obj i p size timeout n ws = Ok ((Z.of_nat b, dg_ip d, dg_port d), n', ws) ∧
    bytes_at (n_mem n') p (take b (drop k (dg_data d))) ∧ sock_at i n' s' ∧ half_read (n_mem n') s' q0 d (k + b) ds.
Proof.
  intros Hi Hh Hk Hsize b Hroom Hmp Hfp. pose proof Hh as (_ & _ & Ho & Hz & _).
  destruct (next_bytes i n ws s q0 d k ds p size Hi Hh Hsize Hroom Hmp Hfp) as (n2 & s2 & E2 & H).
  unfold TCPIPUdpSock_RecvFrom. task_step ltac:(by apply get_udp_Ok).
  destruct (Z.eqb_spec (us_rx_offs s) (us_rx_size s)); [lia|]. task_step ltac:(reflexivity). task_step ltac:(by apply get_udp_Ok).
  cbn [negb]. by exists n2, s2.
Qed.

(** Frames for other ports. *)
Lemma deliver_other m s fr port src ip :
  TCPIPUdpFrame_GetDstPort m (fr_l4 fr) = Ok port → TCPIPUdpFrame_GetSrcPort m (fr_l4 fr) = Ok src →
  TCPIPIpFrame_GetSrcAddr m (fr_l3 fr) = Ok ip → us_loc_port s = 0 ∨ us_loc_port s ≠ port →
  TCPIPUdpSock_ProcessIncoming obj m fr s = Ok (m, s, EUNREACHABLE).
Proof.
  intros Edst Esrc Eip Hp. unfold TCPIPUdpSock_ProcessIncoming. rewrite Edst, bind_Ok, Esrc, bind_Ok, Eip, bind_Ok.
  replace ((us_loc_port s =? 0) || negb (us_loc_port s =? port)) with true by lia. done.
Qed.
End datagrams.

(** ** Properties *)

(** C12: A socket is a queue of datagrams, of which the first may have been begun,
    in a buffer whose size is a power of two ([byte_queue]).  An incoming datagram
    for its port is appended whole when there is room for it and its header, else
    dropped without a trace; frames for other ports, and all of them while the
    socket is not bound, change nothing.  A reader gets the oldest datagram from
    its start on, as much as its buffer holds, with the address and the port of its
    sender; a reader of a datagram that was begun gets its next bytes, as long as
    what is asked for is not more than is left of it - else the code reads on into
    the next datagram, which is outside of this theorem.  Behind the last byte the
    socket is at the next datagram.  None of them waits. *)
Theorem udp_socket_fifo obj q0 ds :
  foreign q0 obj 4 →
  (∀ m s fr begun d, contents (fifo := byte_queue) m s q0 begun ds → us_loc_port s ≠ 0 →
     carries m fr (us_loc_port s) d → foreign q0 (fr_ptr fr) (fr_size fr) →
     obj + 4 ≤ fr_ptr fr ∨ fr_ptr fr + fr_size fr ≤ obj →
     if decide (length (unread begun ds) + length (dg_bytes d) ≤ q_count q0) then
       ∃ m' s', TCPIPUdpSock_ProcessIncoming obj m fr s = Ok (m', s', EOK) ∧
         contents (fifo := byte_queue) m' s' q0 begun (ds ++ [d])
     else TCPIPUdpSock_ProcessIncoming obj m fr s = Ok (m, s, EOK)) ∧
  (∀ m s fr port d, carries m fr port d → us_loc_port s = 0 ∨ us_loc_port s ≠ port →
     TCPIPUdpSock_ProcessIncoming obj m fr s = Ok (m, s, EUNREACHABLE)) ∧
  (∀ i n ws s d k p size timeout, sock_at i n s → 0 ≤ size → mapped (n_mem n) obj 4 →
     (k = 0%nat ∧ contents (fifo := byte_queue) (n_mem n) s q0 None (d :: ds)) ∨
     ((k < length (dg_data d))%nat ∧ contents (fifo := byte_queue) (n_mem n) s q0 (Some (d, k)) ds) →
     let b := Z.to_nat (Z.min size (length (dg_data d))) in
     (k + b ≤ length (dg_data d))%nat → mapped (n_mem n) p b → foreign q0 p b →
     ∃ n' s', TCPIPUdpSock_RecvFrom obj i p size timeout n ws = Ok ((Z.of_nat b, dg_ip d, dg_port d), n', ws) ∧
       bytes_at (n_mem n') p (take b (drop k (dg_data d))) ∧ sock_at i n' s' ∧
       contents (fifo := byte_queue) (n_mem n') s' q0 (Some (d, (k + b)%nat)) ds ∧
       ((k + b = length (dg_data d))%nat → contents (fifo := byte_queue) (n_mem n') s' q0 None ds)).
Proof.
  intros Hobj. split; [|split].
  - intros m s fr begun d Hh Hp Hc Hf Ha. destruct (contents_queue m s q0 begun ds Hh) as (q & Hq & Hb & Hfifo). destruct (decide _) as [Hr|Hr].
    + destruct (deliver_ok (fifo := byte_queue) obj m s fr q0 q _ d Hq Hb Hfifo Hp Hc Hf Hobj Ha Hr) as (m' & q' & E & Hb' & Hf').
      eexists m', _. split; [exact E|]. eapply contents_more; [exact Hh|apply Hc|done|done].
    + apply (deliver_full (fifo := byte_queue) obj m s fr q0 q _ d Hq Hb Hfifo Hp Hc). lia.
  - intros m s fr port d (Edst & Esrc & Eip & _) Hp. by eapply deliver_other.
  - intros i n ws s d k p size timeout Hi Hs Hm Hst b Hroom Hmp Hf.
    assert (∃ n' s', TCPIPUdpSock_RecvFrom obj i p size timeout n ws = Ok ((Z.of_nat b, dg_ip d, dg_port d), n', ws) ∧
      bytes_at (n_mem n') p (take b (drop k (dg_data d))) ∧ sock_at i n' s' ∧
      half_read (fifo := byte_queue) (n_mem n') s' q0 d (k + b) ds) as (n' & s' & E & Hb & Hi' & Hh).
    { destruct Hst as [[-> Hh]|[Hk Hh]]; [by eapply recv_first|by eapply recv_rest]. }
    exists n', s'. split_and!; try done. intros Ek. rewrite Ek in Hh. by eapply all_read.
Qed.

(** *** Concrete inputs *)

(** An IP header at 100, a UDP header at 120 and data at 128; queue, objects and
    the reader's buffer behind. *)
Definition udp_demo_frame : frame := mk_frame 0 128 4 0 0 100 120.
Definition udp_demo_datagram : datagram := mk_datagram 3232248330 4000 [1; 2; 3; 4].
Definition udp_demo_mem : mem :=
  put_bytes (put_bytes (put_bytes (put_bytes ∅ 112 [192; 168; 50; 10]) 120 [15; 160; 0; 67; 0; 12; 0; 0])
    128 [1; 2; 3; 4]) 200 (replicate 100 0).
Definition udp_demo_queue : queue_t := mk_queue 1 32 200 0 0.
Definition udp_demo_sock : udp_sock := mk_udp_sock 67 (Some udp_demo_queue) 0 0 0 0.

Lemma udp_demo_holds : holds_datagrams (fifo := byte_queue) udp_demo_mem udp_demo_sock udp_demo_queue [].
Proof.
  split; [|by split; [apply Forall_nil_2|]]. exists udp_demo_queue. split; [done|]. split; [done|].
  apply byte_queue_empty; [lia|by exists 134217728|done|].
  apply (mapped_le _ _ 100); [lia|]. apply (bytes_at_mapped _ _ (replicate 100 0)), put_bytes_bytes_at.
Qed.

Lemma udp_demo_carries : carries udp_demo_mem udp_demo_frame 67 udp_demo_datagram.
Proof.
  split; [done|]. split; [done|]. split; [done|]. split; [done|]. split; [by vm_compute|].
  split; [done|]. split; [done|]. split; [by repeat constructor|done].
Qed.

(** The datagram is delivered, and its first two bytes are read. *)
Definition udp_demo_delivered : mem * udp_sock :=
  match TCPIPUdpSock_ProcessIncoming 260 udp_demo_mem udp_demo_frame udp_demo_sock with
  | Ok (m, s, _) => (m, s)
  | Fault _ => (∅, udp_demo_sock)
  end.
Definition udp_demo_net : net :=
  let '(m, s) := udp_demo_delivered in set_udp [s] (set_mem m (boot_net udp_demo_mem 0 0 0 (mk_heap ∅ 0) 1)).

Lemma udp_demo_done : TCPIPUdpSock_ProcessIncoming 260 udp_demo_mem udp_demo_frame udp_demo_sock = Ok (udp_demo_delivered.1, udp_demo_delivered.2, EOK).
Proof. by vm_compute. Qed.

Lemma ok_pair {A B C} (m m' : A) (s s' : B) (c : C) : Ok (m, s, c) = Ok (m', s', c) → m' = m ∧ s' = s.
Proof. by intros [= <- <-]. Qed.

Lemma udp_demo_free : mapped (n_mem udp_demo_net) 260 30.
Proof. apply (bytes_at_mapped _ _ (default [] (get_bytes (n_mem udp_demo_net) 260 30))). by vm_compute. Qed.

Lemma udp_socket_fifo_witness :
  holds_datagrams (fifo := byte_queue) udp_demo_delivered.1 udp_demo_delivered.2 udp_demo_queue [udp_demo_datagram] ∧
  ∃ n', TCPIPUdpSock_RecvFrom 260 0 280 2 0 udp_demo_net [] = Ok ((2, 3232248330, 4000), n', []) ∧ bytes_at (n_mem n') 280 [1; 2].
Proof.
  destruct (udp_socket_fifo 260 udp_demo_queue []) as (Hput & _ & Hget); [right; by vm_compute|].
  destruct (Hput udp_demo_mem udp_demo_sock udp_demo_frame None udp_demo_datagram udp_demo_holds) as (m & s & E & Hh);
    [discriminate|exact udp_demo_carries|left; by vm_compute|right; by vm_compute|].
  rewrite udp_demo_done in E. apply ok_pair in E as [-> ->]. split; [exact Hh|].
  destruct (Hget 0%nat udp_demo_net [] udp_demo_delivered.2 udp_demo_datagram 0%nat 280 2 0) as (n' & s' & E' & Hb & _).
  - by vm_compute.
  - lia.
  - apply (mapped_le _ _ 30); [lia|]. apply udp_demo_free.
  - left. split; [done|]. exact Hh.
  - cbn. lia.
  - intros a Ha. apply udp_demo_free. cbn in Ha. lia.
  - right. by vm_compute.
  - exists n'. split; [exact E'|exact Hb].
Defined.

(** A delivery and two reads on socket 0. *)
Definition udp_demo_reads (size1 size2 : Z) : res (Z * Z * Z * option (list Z)) :=
  let n := boot_net udp_demo_mem 0 0 0 (mk_heap ∅ 0) 1 in
  '(m, s, _) ← TCPIPUdpSock_ProcessIncoming 260 udp_demo_mem udp_demo_frame udp_demo_sock;
  '(m, s, _) ← TCPIPUdpSock_ProcessIncoming 260 m udp_demo_frame s;
  '(_, n, _) ← TCPIPUdpSock_RecvFrom 260 0 280 size1 0 (set_udp [s] (set_mem m n)) [];
  '(r, n, _) ← TCPIPUdpSock_RecvFrom 260 0 280 size2 0 n [];
  Ok (r, get_bytes (n_mem n) 280 4).

Example udp_reads_in_order : udp_demo_reads 4 4 = Ok (4, 3232248330, 4000, Some [1; 2; 3; 4]).
Proof. vm_compute. reflexivity. Qed.

(** A reader with a small buffer reads on behind the end of its datagram: the
    limit is the size of the datagram, not what is left of it. *)
Example udp_reads_over_end : udp_demo_reads 2 4 = Ok (4, 3232248330, 4000, Some [3; 4; 4; 0]).
Proof. vm_compute. reflexivity. Qed.

(** A length field below 8 makes the size wrap; ten bytes of header then wrap
    the check for room, and the queue is filled from memory behind the frame. *)
Example udp_short_length_fills :
  let fr := mk_frame 0 128 (u32 (0 - sizeof_udp)) 0 0 100 120 in
  let m := put_bytes udp_demo_mem 128 (replicate 40 9) in
  match TCPIPUdpSock_ProcessIncoming 260 m fr udp_demo_sock with
  | Ok (_, s, _) => Queue_GetFree <$> us_rxq s = Some 0
  | Fault _ => False
  end.
Proof. vm_compute. reflexivity. Qed.
