(* ===== verification/Tcp.v ===== *)
(** * Transmission control protocol (net/tcpip/src/tcp.c, tcp_sock.c)

    A segment is read from the byte memory through the frame descriptor; the
    socket queues are those of Queue.v.  Theorems: the handshake, in-order
    delivery, the bookkeeping of the send queue, retransmission, and closing. *)
From S2P Require Import Prelude Heap Time Queue Words Frames Checksum Net Arp Ip.

(** ** tcp.c *)

Definition TCPIPTcp_Alloc (fr : frame) : task (frame * Z) :=
  '(f, ec) ← TCPIPIp_Alloc fr;
  if negb (ec =? EOK) then mret (f, ec)
  else
    let tcp := fr_ptr f in
    mret (mk_frame (Z.lor (fr_flags f) TCPIP_FRAME_FLAGS_TCP) (tcp + sizeof_tcp) (fr_size f)
            (fr_bufid f) (fr_eth f) (fr_l3 f) tcp, EOK).

Definition TCPIPTcp_Drop (fr : frame) : task Z := TCPIPIp_Drop fr.

Definition TCPIPTcp_Send (fr : frame) (dst_addr src_port dst_port seq ack win flags : Z) : task Z :=
  let tcp := fr_l4 fr in
  writes (λ m, TCPIPTcpFrame_SetFlags m tcp flags);;
  writes (λ m, TCPIPTcpFrame_SetDataOffs m tcp sizeof_tcp);;
  writes (λ m, TCPIPTcpFrame_SetDstPort m tcp dst_port);;
  writes (λ m, TCPIPTcpFrame_SetSrcPort m tcp src_port);;
  writes (λ m, TCPIPTcpFrame_SetSeq m tcp seq);;
  writes (λ m, TCPIPTcpFrame_SetAck m tcp ack);;
  writes (λ m, TCPIPTcpFrame_SetWindow m tcp win);;
  writes (λ m, TCPIPTcpFrame_SetUrgentPtr m tcp 0);;
  TCPIPIp_Send (mk_frame (fr_flags fr) tcp (u32 (fr_size fr + sizeof_tcp)) (fr_bufid fr)
    (fr_eth fr) (fr_l3 fr) tcp) dst_addr TCPIP_IP_PROTOCOL_TCP.

(** ** Socket updates *)

Definition upd_state (st : tcp_state) (s : tcp_sock) : tcp_sock :=
  mk_tcp_sock st (ts_loc_link s) (ts_rem_link s) (ts_loc_port s) (ts_rem_port s) (ts_addr s)
    (ts_rxq s) (ts_txq s) (ts_rx_seq_init s) (ts_rx_seq_recvd s) (ts_rx_seq_acked s) (ts_rx_flags s)
    (ts_rx_win s) (ts_tx_seq_init s) (ts_tx_seq_start s) (ts_tx_seq_end s) (ts_tx_win s) (ts_tx_flags s)
    (ts_tx_retr_ts s) (ts_tx_retr_cnt s) (ts_syn_fin_ts s).
Definition upd_links (loc rem : link_state) (s : tcp_sock) : tcp_sock :=
  mk_tcp_sock (ts_state s) loc rem (ts_loc_port s) (ts_rem_port s) (ts_addr s)
    (ts_rxq s) (ts_txq s) (ts_rx_seq_init s) (ts_rx_seq_recvd s) (ts_rx_seq_acked s) (ts_rx_flags s)
    (ts_rx_win s) (ts_tx_seq_init s) (ts_tx_seq_start s) (ts_tx_seq_end s) (ts_tx_win s) (ts_tx_flags s)
    (ts_tx_retr_ts s) (ts_tx_retr_cnt s) (ts_syn_fin_ts s).
Definition upd_peer (loc_port rem_port addr : Z) (s : tcp_sock) : tcp_sock :=
  mk_tcp_sock (ts_state s) (ts_loc_link s) (ts_rem_link s) loc_port rem_port addr
    (ts_rxq s) (ts_txq s) (ts_rx_seq_init s) (ts_rx_seq_recvd s) (ts_rx_seq_acked s) (ts_rx_flags s)
    (ts_rx_win s) (ts_tx_seq_init s) (ts_tx_seq_start s) (ts_tx_seq_end s) (ts_tx_win s) (ts_tx_flags s)
    (ts_tx_retr_ts s) (ts_tx_retr_cnt s) (ts_syn_fin_ts s).
Definition upd_queues (rxq txq : option queue_t) (s : tcp_sock) : tcp_sock :=
  mk_tcp_sock (ts_state s) (ts_loc_link s) (ts_rem_link s) (ts_loc_port s) (ts_rem_port s) (ts_addr s)
    rxq txq (ts_rx_seq_init s) (ts_rx_seq_recvd s) (ts_rx_seq_acked s) (ts_rx_flags s)
    (ts_rx_win s) (ts_tx_seq_init s) (ts_tx_seq_start s) (ts_tx_seq_end s) (ts_tx_win s) (ts_tx_flags s)
    (ts_tx_retr_ts s) (ts_tx_retr_cnt s) (ts_syn_fin_ts s).
Definition upd_rx (recvd acked win : Z) (s : tcp_sock) : tcp_sock :=
  mk_tcp_sock (ts_state s) (ts_loc_link s) (ts_rem_link s) (ts_loc_port s) (ts_rem_port s) (ts_addr s)
    (ts_rxq s) (ts_txq s) (ts_rx_seq_init s) recvd acked (ts_rx_flags s)
    win (ts_tx_seq_init s) (ts_tx_seq_start s) (ts_tx_seq_end s) (ts_tx_win s) (ts_tx_flags s)
    (ts_tx_retr_ts s) (ts_tx_retr_cnt s) (ts_syn_fin_ts s).
Definition upd_tx_seq (init start send win : Z) (s : tcp_sock) : tcp_sock :=
  mk_tcp_sock (ts_state s) (ts_loc_link s) (ts_rem_link s) (ts_loc_port s) (ts_rem_port s) (ts_addr s)
    (ts_rxq s) (ts_txq s) (ts_rx_seq_init s) (ts_rx_seq_recvd s) (ts_rx_seq_acked s) (ts_rx_flags s)
    (ts_rx_win s) init start send win (ts_tx_flags s)
    (ts_tx_retr_ts s) (ts_tx_retr_cnt s) (ts_syn_fin_ts s).
Definition upd_flags (rx_flags tx_flags : Z) (s : tcp_sock) : tcp_sock :=
  mk_tcp_sock (ts_state s) (ts_loc_link s) (ts_rem_link s) (ts_loc_port s) (ts_rem_port s) (ts_addr s)
    (ts_rxq s) (ts_txq s) (ts_rx_seq_init s) (ts_rx_seq_recvd s) (ts_rx_seq_acked s) rx_flags
    (ts_rx_win s) (ts_tx_seq_init s) (ts_tx_seq_start s) (ts_tx_seq_end s) (ts_tx_win s) tx_flags
    (ts_tx_retr_ts s) (ts_tx_retr_cnt s) (ts_syn_fin_ts s).
Definition upd_retr (retr_ts retr_cnt : Z) (s : tcp_sock) : tcp_sock :=
  mk_tcp_sock (ts_state s) (ts_loc_link s) (ts_rem_link s) (ts_loc_port s) (ts_rem_port s) (ts_addr s)
    (ts_rxq s) (ts_txq s) (ts_rx_seq_init s) (ts_rx_seq_recvd s) (ts_rx_seq_acked s) (ts_rx_flags s)
    (ts_rx_win s) (ts_tx_seq_init s) (ts_tx_seq_start s) (ts_tx_seq_end s) (ts_tx_win s) (ts_tx_flags s)
    retr_ts retr_cnt (ts_syn_fin_ts s).
Definition upd_syn_fin_ts (t : Z) (s : tcp_sock) : tcp_sock :=
  mk_tcp_sock (ts_state s) (ts_loc_link s) (ts_rem_link s) (ts_loc_port s) (ts_rem_port s) (ts_addr s)
    (ts_rxq s) (ts_txq s) (ts_rx_seq_init s) (ts_rx_seq_recvd s) (ts_rx_seq_acked s) (ts_rx_flags s)
    (ts_rx_win s) (ts_tx_seq_init s) (ts_tx_seq_start s) (ts_tx_seq_end s) (ts_tx_win s) (ts_tx_flags s)
    (ts_tx_retr_ts s) (ts_tx_retr_cnt s) t.

(** Dereference of a queue pointer. *)
Definition deref (q : option queue_t) : res queue_t :=
  match q with Some q => Ok q | None => Fault NullDeref end.

(** ** Incoming segments *)

(** The fields of a segment that [TCPIPTcpSock_ProcessIncoming] extracts, and
    its payload. *)
Record segment := mk_segment {
  sg_src_port : Z; sg_ip : Z; sg_seq : Z; sg_ack : Z; sg_win : Z; sg_flags : Z;
  sg_ptr : Z; sg_size : Z
}.

Definition SYN_ACK : Z := Z.lor TCPIP_TCP_FLAGS_SYN TCPIP_TCP_FLAGS_ACK.
Definition SYN_FIN : Z := Z.lor TCPIP_TCP_FLAGS_FIN TCPIP_TCP_FLAGS_SYN.

(** Is the socket addressed?  Then the segment, else the error exit. *)
Definition tcp_match (m : mem) (fr : frame) (s : tcp_sock) : res (option segment) :=
  if decide (ts_state s = TCP_FREE ∨ ts_state s = TCP_CLOSED) then Ok None
  else
    let tcp := fr_l4 fr in
    src_port ← TCPIPTcpFrame_GetSrcPort m tcp;
    dst_port ← TCPIPTcpFrame_GetDstPort m tcp;
    if negb (ts_loc_port s =? dst_port) then Ok None
    else
      ip ← TCPIPIpFrame_GetSrcAddr m (fr_l3 fr);
      if negb (bool_decide (ts_state s = TCP_LISTEN)) &&
         (negb (ts_rem_port s =? src_port) || negb (TCPIPIpAddr_AddressMatch ip (ts_addr s)))
      then Ok None
      else
        seq ← TCPIPTcpFrame_GetSeq m tcp;
        ack ← TCPIPTcpFrame_GetAck m tcp;
        win ← TCPIPTcpFrame_GetWindow m tcp;
        flags ← TCPIPTcpFrame_GetFlags m tcp;
        Ok (Some (mk_segment src_port ip seq ack win flags (fr_ptr fr) (fr_size fr))).

Definition tcp_on_rst (sg : segment) (s : tcp_sock) : tcp_sock :=
  if has (sg_flags sg) TCPIP_TCP_FLAGS_RST then upd_state TCP_CLOSED s else s.

(** The second component is the state of the random number generator, the third
    one false for [goto error]. *)
Definition tcp_on_syn (now rand : Z) (sg : segment) (s : tcp_sock) : res (tcp_sock * Z * bool) :=
  if negb (has (sg_flags sg) TCPIP_TCP_FLAGS_SYN) then Ok (s, rand, true)
  else if negb (bool_decide (ts_state s = TCP_LISTEN)) &&
          (negb (bool_decide (ts_state s = TCP_CONNECT)) || negb (has (sg_flags sg) TCPIP_TCP_FLAGS_ACK))
  then Ok (s, rand, false)
  else
    let s := upd_peer (ts_loc_port s) (sg_src_port sg) (sg_ip sg) s in
    rxq ← deref (ts_rxq s);
    let s := upd_rx (u32 (sg_seq sg + 1)) (sg_seq sg) (Queue_GetFree rxq) s in
    let rand := LFSR32_Next rand in
    let s := upd_tx_seq (ts_tx_seq_init s) rand (ts_tx_seq_end s) (sg_win sg) s in
    let s := upd_retr 0 0 s in
    let s := if decide (ts_state s = TCP_LISTEN) then upd_state TCP_ESTABLISHING s
             else upd_links LINK_OPEN LINK_OPEN (upd_state TCP_ESTABLISHED s) in
    Ok (upd_syn_fin_ts now s, rand, true).

(** The first ACK after SYN+ACK, and the last one of a closing link. *)
Definition tcp_ack_state (s : tcp_sock) : tcp_sock :=
  let s := if decide (ts_state s = TCP_ESTABLISHING ∧ ts_tx_flags s = SYN_ACK)
           then upd_links LINK_OPEN LINK_OPEN (upd_state TCP_ESTABLISHED s) else s in
  if decide (ts_loc_link s = LINK_CLOSING) then
    let s := upd_links LINK_CLOSED (ts_rem_link s) s in
    if decide (ts_rem_link s = LINK_CLOSED) then upd_state TCP_CLOSED s else s
  else s.

(** Data is taken in sequence only. *)
Definition tcp_ack_data (m : mem) (sg : segment) (s : tcp_sock) : res (mem * tcp_sock) :=
  if sg_seq sg =? ts_rx_seq_recvd s then
    let recvd := if has (sg_flags sg) SYN_FIN then u32 (ts_rx_seq_recvd s + 1) else ts_rx_seq_recvd s in
    rxq ← deref (ts_rxq s);
    '(m, rxq, b_stored) ← Queue_Put m rxq (sg_ptr sg) (sg_size sg);
    Ok (m, upd_rx (u32 (recvd + b_stored)) (ts_rx_seq_acked s) (ts_rx_win s)
             (upd_queues (Some rxq) (ts_txq s) s))
  else Ok (m, upd_rx (ts_rx_seq_recvd s) (sg_seq sg) (ts_rx_win s) s).

(** Acknowledged data leaves the send queue. *)
Definition tcp_ack_sent (sg : segment) (s : tcp_sock) : res tcp_sock :=
  let b_acked := u32 (sg_ack sg - ts_tx_seq_start s) in
  txq ← deref (ts_txq s);
  let '(txq, _) := Queue_Drop txq b_acked in
  let s := upd_queues (ts_rxq s) (Some txq) s in
  let s := upd_tx_seq (ts_tx_seq_init s) (u32 (ts_tx_seq_start s + b_acked)) (ts_tx_seq_end s)
             (ts_tx_win s) s in
  Ok (if ts_tx_seq_start s =? ts_tx_seq_end s then upd_retr (ts_tx_retr_ts s) 0 s else s).

(** [ack - tx_seq_start > tx_seq_end - tx_seq_start] *)
Definition ack_out_of_range (sg : segment) (s : tcp_sock) : bool :=
  u32 (ts_tx_seq_end s - ts_tx_seq_start s) <? u32 (sg_ack sg - ts_tx_seq_start s).

Definition tcp_on_ack (m : mem) (sg : segment) (s : tcp_sock) : res (mem * tcp_sock * bool) :=
  if negb (has (sg_flags sg) TCPIP_TCP_FLAGS_ACK) then Ok (m, s, true)
  else if decide (ts_state s = TCP_CLOSED ∨ ts_state s = TCP_LISTEN) then Ok (m, s, false)
  else if ack_out_of_range sg s then Ok (m, s, false)
  else
    let s := tcp_ack_state s in
    '(m, s) ← tcp_ack_data m sg s;
    s ← tcp_ack_sent sg s;
    Ok (m, s, true).

Definition tcp_on_fin (now : Z) (sg : segment) (s : tcp_sock) : tcp_sock :=
  if negb (has (sg_flags sg) TCPIP_TCP_FLAGS_FIN) then s
  else
    let s := upd_state TCP_CLOSING s in
    let loc := if decide (ts_loc_link s = LINK_OPEN) then LINK_CLOSING else ts_loc_link s in
    upd_syn_fin_ts now (upd_links loc LINK_CLOSING s).

(** The socket's reaction to a segment addressed to it. *)
Definition tcp_receive (m : mem) (now rand : Z) (sg : segment) (s : tcp_sock)
  : res (mem * Z * tcp_sock * Z) :=
  let s := tcp_on_rst sg s in
  '(s, rand, ok) ← tcp_on_syn now rand sg s;
  if negb ok then Ok (m, rand, s, EFATAL)
  else
    '(m, s, ok) ← tcp_on_ack m sg s;
    if negb ok then Ok (m, rand, s, EFATAL)
    else
      let s := tcp_on_fin now sg s in
      Ok (m, rand, upd_flags (sg_flags sg) (ts_tx_flags s) s, EOK).

Definition TCPIPTcpSock_ProcessIncoming (m : mem) (now rand : Z) (fr : frame) (s : tcp_sock)
  : res (mem * Z * tcp_sock * Z) :=
  sg ← tcp_match m fr s;
  match sg with
  | None => Ok (m, rand, s, EFATAL)
  | Some sg => tcp_receive m now rand sg s
  end.

(** The loop over the sockets: the first one that accepts the frame ends it. *)
Fixpoint process_sockets (m : mem) (now rand : Z) (fr : frame) (l : list tcp_sock)
  : res (mem * Z * list tcp_sock * Z) :=
  match l with
  | [] => Ok (m, rand, [], EFATAL)
  | s :: l' =>
      '(m, rand, s, ec) ← TCPIPTcpSock_ProcessIncoming m now rand fr s;
      if ec =? EOK then Ok (m, rand, s :: l', EOK)
      else
        '(m, rand, l', ec) ← process_sockets m now rand fr l';
        Ok (m, rand, s :: l', ec)
  end.

(** [Sem_Lock(&lock, 0)] and [Sem_Release(&lock)]. *)
Fixpoint lock_sockets (n : net) (ws : worlds) : res (unit * net * worlds) :=
  if (n_lock n =? 0) || (n_lock n =? n_task n) then Ok ((), set_lock (n_task n) n, ws)
  else match ws with
       | [] => Fault OutOfFuel
       | w :: ws => lock_sockets (w n) ws
       end.

Definition release_sockets : task unit := modify (set_lock 0).

Definition TCPIPTcpSock_Input (fr : frame) : task Z :=
  (lock_sockets : task unit);;
  ec ← (λ n ws,
    '(m, rand, l, ec) ← process_sockets (n_mem n) (n_now n) (n_rand n) fr (n_tcp n);
    Ok (ec, set_tcp l (set_rand rand (set_mem m n)), ws)) : task Z;
  release_sockets;;
  mret (if ec =? EOK then EOK else EFATAL).

(** [TCPIPTcp_Input].  [frame->tcp] is set in the static descriptor. *)
Definition TCPIPTcp_Input (fr : frame) : task Z :=
  let tcp := fr_ptr fr in
  doffs ← reads (λ m, TCPIPTcpFrame_GetDataOffs m tcp);
  let fr := mk_frame (Z.lor (fr_flags fr) TCPIP_FRAME_FLAGS_TCP) (tcp + doffs) (u32 (fr_size fr - doffs))
              (fr_bufid fr) (fr_eth fr) (fr_l3 fr) tcp in
  modify (set_rx_frame fr);;
  TCPIPTcpSock_Input fr.

(** ** Outgoing segments *)

(** The flags a socket sends in its state; [None] without outgoing activity. *)
Definition outgoing_flags (s : tcp_sock) : option Z :=
  match ts_state s with
  | TCP_FREE | TCP_CLOSED | TCP_LISTEN => None
  | TCP_CONNECT => Some TCPIP_TCP_FLAGS_SYN
  | TCP_ESTABLISHING => Some SYN_ACK
  | TCP_ESTABLISHED => Some TCPIP_TCP_FLAGS_ACK
  | TCP_CLOSING =>
      Some (if decide (ts_loc_link s = LINK_CLOSING) then Z.lor TCPIP_TCP_FLAGS_ACK TCPIP_TCP_FLAGS_FIN
            else TCPIP_TCP_FLAGS_ACK)
  end.

(** Protection against SYN floods and FIN stalls. *)
Definition outgoing_stalled (now : Z) (s : tcp_sock) : bool :=
  bool_decide (ts_state s = TCP_ESTABLISHING ∨ ts_state s = TCP_CLOSING) &&
  (2000 <? dtime now (ts_syn_fin_ts s)).

(** Nothing to send. *)
Definition outgoing_idle (tx_flags : Z) (s : tcp_sock) : res bool :=
  if has tx_flags SYN_FIN then Ok false
  else if negb (ts_rx_seq_recvd s =? ts_rx_seq_acked s) then Ok false
  else
    txq ← deref (ts_txq s);
    if negb (Queue_GetUsed txq =? 0) then Ok false
    else rxq ← deref (ts_rxq s); Ok (Queue_GetFree rxq =? ts_rx_win s).

(** [dtime(time(0), sock->tx_retr_ts) < 300 * sock->tx_retr_cnt], unsigned. *)
Definition outgoing_too_early (now : Z) (s : tcp_sock) : bool :=
  u32 (dtime now (ts_tx_retr_ts s)) <? u32 (300 * ts_tx_retr_cnt s).

Definition get_sock (i : nat) : task tcp_sock := λ n ws,
  match n_tcp n !! i with Some s => Ok (s, n, ws) | None => Fault OutOfBounds end.
Definition put_sock (i : nat) (s : tcp_sock) : task unit := modify (λ n, set_tcp (<[i := s]> (n_tcp n)) n).

(** The payload is copied into the frame, the flags and [tx_seq_end] follow.
    Returns the size and the flags. *)
Definition outgoing_fill (m : mem) (fr : frame) (tx_flags : Z) (s : tcp_sock)
  : res (mem * tcp_sock * Z * Z) :=
  txq ← deref (ts_txq s);
  '(m, size) ← Queue_Peek m txq (fr_ptr fr) (fr_size fr);
  let tx_flags := if 0 <? size then Z.lor tx_flags TCPIP_TCP_FLAGS_PSH else tx_flags in
  let tx_seq_end := u32 (ts_tx_seq_start s + size) in
  let tx_seq_end := if has tx_flags SYN_FIN then u32 (tx_seq_end + 1) else tx_seq_end in
  Ok (m, upd_tx_seq (ts_tx_seq_init s) (ts_tx_seq_start s) tx_seq_end (ts_tx_win s) s, size, tx_flags).

(** After the frame was handed over. *)
Definition outgoing_sent (now tx_flags win : Z) (s : tcp_sock) : tcp_sock :=
  let s := upd_flags (ts_rx_flags s) tx_flags s in
  let s := upd_rx (ts_rx_seq_recvd s) (ts_rx_seq_recvd s) win s in
  let s := if negb (ts_tx_seq_end s =? ts_tx_seq_start s)
           then upd_retr now (u32 (ts_tx_retr_cnt s + 1)) s else s in
  if decide (ts_rem_link s = LINK_CLOSING) then
    let s := upd_links (ts_loc_link s) LINK_CLOSED s in
    if decide (ts_loc_link s = LINK_CLOSED) then upd_state TCP_CLOSED s else s
  else s.

Definition TCPIPTcpSock_ProcessOutgoing (i : nat) : task unit :=
  s ← get_sock i;
  now ← gets n_now;
  match outgoing_flags s with
  | None => mret ()
  | Some tx_flags =>
      if outgoing_stalled now s then put_sock i (upd_state TCP_CLOSED s)
      else
        idle ← lift (outgoing_idle tx_flags s);
        if (idle : bool) then mret ()
        else if outgoing_too_early now s then mret ()
        else
          '(fr, ec) ← TCPIPTcp_Alloc null_frame;
          if negb (ec =? EOK) then mret ()
          else
            s ← get_sock i;
            '(size, tx_flags) ← (λ n ws,
              '(m, s, size, tx_flags) ← outgoing_fill (n_mem n) fr tx_flags s;
              Ok ((size, tx_flags), set_tcp (<[i := s]> (n_tcp n)) (set_mem m n), ws)) : task (Z * Z);
            s ← get_sock i;
            rxq ← lift (deref (ts_rxq s));
            let win := u16 (Queue_GetFree rxq) in
            ec ← TCPIPTcp_Send (mk_frame (fr_flags fr) (fr_ptr fr) size (fr_bufid fr) (fr_eth fr)
                   (fr_l3 fr) (fr_l4 fr)) (ts_addr s) (ts_loc_port s) (ts_rem_port s)
                   (ts_tx_seq_start s) (ts_rx_seq_recvd s) win tx_flags;
            if ec <? EOK then mret ()
            else
              s ← get_sock i;
              now ← gets n_now;
              put_sock i (outgoing_sent now tx_flags win s)
  end.

(** One round of the task [TCPIPTcpSock_Output]. *)
Definition TCPIPTcpSock_Output_round : task unit :=
  (lock_sockets : task unit);;
  TCPIPTcpSock_ProcessOutgoing 0;;
  TCPIPTcpSock_ProcessOutgoing 1;;
  TCPIPTcpSock_ProcessOutgoing 2;;
  TCPIPTcpSock_ProcessOutgoing 3;;
  release_sockets.

(** ** Calls of the user *)

Definition TCPIPTcpSock_Reset (n : net) : net :=
  set_tcp (map (λ s, if decide (ts_state s ≠ TCP_FREE ∧ ts_state s ≠ TCP_CLOSED)
                     then upd_state TCP_CLOSED s else s) (n_tcp n)) n.

Fixpoint find_free_sock (l : list tcp_sock) : nat :=
  match l with
  | [] => O
  | s :: l' => if decide (ts_state s = TCP_FREE) then O else S (find_free_sock l')
  end.

(** The index of the socket, or null. *)
Definition TCPIPTcpSock_Create (rx_size tx_size : Z) (n : net) : res (net * option nat) :=
  let i := find_free_sock (n_tcp n) in
  match n_tcp n !! i with
  | None => Ok (n, None)
  | Some s =>
      '(h, rxq) ← Queue_Create (n_heap_base n) (n_heap n) 1 rx_size;
      '(h, txq) ← Queue_Create (n_heap_base n) h 1 tx_size;
      c_assert (bool_decide (is_Some rxq) && bool_decide (is_Some txq));;
      Ok (set_tcp (<[i := upd_queues (snd <$> rxq) (snd <$> txq) (upd_state TCP_CLOSED s)]> (n_tcp n))
            (set_heap h n), Some i)
  end.

(** [Queue_Drop(q, Queue_GetUsed(q))] on both queues. *)
Definition clear_queues (s : tcp_sock) : res tcp_sock :=
  rxq ← deref (ts_rxq s);
  txq ← deref (ts_txq s);
  Ok (upd_queues (Some (fst (Queue_Drop rxq (Queue_GetUsed rxq))))
                 (Some (fst (Queue_Drop txq (Queue_GetUsed txq)))) s).

(** The socket is prepared for [TCPIPTcpSock_Listen]. *)
Definition listen_start (port : Z) (s : tcp_sock) : res tcp_sock :=
  let s := upd_peer port (ts_rem_port s) (ts_addr s) (upd_flags 0 0 s) in
  clear_queues (upd_links LINK_CLOSED LINK_CLOSED (upd_state TCP_LISTEN s)).

Fixpoint listen_wait (i : nat) (timeout ts : Z) (n : net) (ws : worlds) : res (Z * net * worlds) :=
  match n_tcp n !! i with
  | None => Fault OutOfBounds
  | Some s =>
      if decide (ts_state s = TCP_ESTABLISHED) then Ok (EOK, n, ws)
      else if decide (ts_state s = TCP_CLOSED) then Ok (ENOCONNECT, n, ws)
      else if negb (timeout =? 0) && (timeout <=? dtime (n_now n) ts) &&
              bool_decide (ts_state s = TCP_LISTEN)
      then Ok (ETIMEOUT, set_tcp (<[i := upd_state TCP_CLOSED s]> (n_tcp n)) n, ws)
      else match ws with
           | [] => Fault OutOfFuel
           | w :: ws => listen_wait i timeout ts (w n) ws
           end
  end.

Definition TCPIPTcpSock_Listen (i : nat) (port timeout : Z) : task Z :=
  s ← get_sock i;
  if decide (ts_state s ≠ TCP_CLOSED ∧ ts_state s ≠ TCP_LISTEN) then mret EARGVAL
  else if port =? 0 then mret EARGVAL
  else
    s ← lift (listen_start port s);
    put_sock i s;;
    ts ← gets n_now;
    (listen_wait i timeout ts : task Z).

(** The socket is prepared for [TCPIPTcpSock_Connect]; [r] is the random number. *)
Definition connect_start (r now ip port : Z) (s : tcp_sock) : res tcp_sock :=
  let s := upd_flags 0 0 s in
  let s := upd_peer (u16 (r mod 34567 + 10000)) port ip s in
  let s := upd_tx_seq now now (ts_tx_seq_end s) (ts_tx_win s) s in
  clear_queues (upd_links LINK_CLOSED LINK_CLOSED (upd_state TCP_CONNECT s)).

Fixpoint connect_wait (i : nat) (timeout ts : Z) (n : net) (ws : worlds) : res (Z * net * worlds) :=
  match n_tcp n !! i with
  | None => Fault OutOfBounds
  | Some s =>
      if decide (ts_state s = TCP_ESTABLISHED) then Ok (EOK, n, ws)
      else
        let s := if negb (timeout =? 0) && (timeout <=? dtime (n_now n) ts)
                 then upd_state TCP_CLOSED s else s in
        let n := set_tcp (<[i := s]> (n_tcp n)) n in
        if decide (ts_state s = TCP_CLOSED) then Ok (ENOCONNECT, n, ws)
        else match ws with
             | [] => Fault OutOfFuel
             | w :: ws => connect_wait i timeout ts (w n) ws
             end
  end.

Definition TCPIPTcpSock_Connect (i : nat) (ip port timeout : Z) : task Z :=
  ts ← gets n_now;
  s ← get_sock i;
  if decide (ts_state s = TCP_CONNECT ∧ ts_rem_port s = port ∧ ts_addr s = ip) then mret EOK
  else if negb (bool_decide (ts_state s = TCP_CLOSED)) then mret EARGVAL
  else if port =? 0 then mret EARGVAL
  else
    r ← Seed_GetRand;
    now ← gets n_now;
    s ← lift (connect_start r now ip port s);
    put_sock i s;;
    (connect_wait i timeout ts : task Z).

Fixpoint recv_wait (i : nat) (ptr size timeout ts : Z) (n : net) (ws : worlds)
  : res (Z * net * worlds) :=
  match n_tcp n !! i with
  | None => Fault OutOfBounds
  | Some s =>
      rxq ← deref (ts_rxq s);
      '(m, rxq, b_read) ← Queue_Get (n_mem n) rxq ptr size;
      let n := set_tcp (<[i := upd_queues (Some rxq) (ts_txq s) s]> (n_tcp n)) (set_mem m n) in
      if negb (b_read =? 0) then Ok (b_read, n, ws)
      else if negb (timeout =? 0) && (timeout <? dtime (n_now n) ts) then Ok (ETIMEOUT, n, ws)
      else if negb (bool_decide (ts_state s = TCP_ESTABLISHED)) then Ok (ENOCONNECT, n, ws)
      else if size =? 0 then Ok (b_read, n, ws)
      else match ws with
           | [] => Fault OutOfFuel
           | w :: ws => recv_wait i ptr size timeout ts (w n) ws
           end
  end.

Definition TCPIPTcpSock_Recv (i : nat) (ptr size timeout : Z) : task Z := λ n ws,
  recv_wait i ptr size timeout (n_now n) n ws.

Fixpoint send_loop (i : nat) (ptr size timeout ts b_written : Z) (n : net) (ws : worlds)
  : res (Z * net * worlds) :=
  match n_tcp n !! i with
  | None => Fault OutOfBounds
  | Some s =>
      if negb (timeout =? 0) && (timeout <? dtime (n_now n) ts) then Ok (ETIMEOUT, n, ws)
      else if negb (bool_decide (ts_state s = TCP_ESTABLISHED)) then Ok (ENOCONNECT, n, ws)
      else
        txq ← deref (ts_txq s);
        '(m, txq, b_stored) ← Queue_Put (n_mem n) txq (ptr + b_written) (u32 (size - b_written));
        let n := set_tcp (<[i := upd_queues (ts_rxq s) (Some txq) s]> (n_tcp n)) (set_mem m n) in
        let b_written := u32 (b_written + b_stored) in
        if b_written <? size then
          match ws with
          | [] => Fault OutOfFuel
          | w :: ws => send_loop i ptr size timeout ts b_written (w n) ws
          end
        else Ok (b_written, n, ws)
  end.

Definition TCPIPTcpSock_Send (i : nat) (ptr size timeout : Z) : task Z := λ n ws,
  send_loop i ptr size timeout (n_now n) 0 n ws.

(** The local side of an open connection is closed. *)
Definition close_start (now : Z) (s : tcp_sock) : tcp_sock :=
  upd_syn_fin_ts now (upd_state TCP_CLOSING (upd_links LINK_CLOSING (ts_rem_link s) s)).

(** Flush of the send queue; [Some] error code when the time is over. *)
Fixpoint close_flush (i : nat) (timeout ts : Z) (n : net) (ws : worlds)
  : res (option Z * net * worlds) :=
  match n_tcp n !! i with
  | None => Fault OutOfBounds
  | Some s =>
      if negb (bool_decide (ts_state s = TCP_ESTABLISHED)) then Ok (None, n, ws)
      else
        txq ← deref (ts_txq s);
        if Queue_GetUsed txq =? 0 then Ok (None, n, ws)
        else if negb (timeout =? 0) && (timeout <? dtime (n_now n) ts)
        then Ok (Some ETIMEOUT, set_tcp (<[i := upd_state TCP_CLOSED s]> (n_tcp n)) n, ws)
        else match ws with
             | [] => Fault OutOfFuel
             | w :: ws => close_flush i timeout ts (w n) ws
             end
  end.

Fixpoint close_wait (i : nat) (timeout ts : Z) (n : net) (ws : worlds) : res (Z * net * worlds) :=
  match n_tcp n !! i with
  | None => Fault OutOfBounds
  | Some s =>
      if decide (ts_state s = TCP_CLOSED) then Ok (EOK, n, ws)
      else if negb (timeout =? 0) && (timeout <? dtime (n_now n) ts)
      then Ok (ETIMEOUT, set_tcp (<[i := upd_state TCP_CLOSED s]> (n_tcp n)) n, ws)
      else match ws with
           | [] => Fault OutOfFuel
           | w :: ws => close_wait i timeout ts (w n) ws
           end
  end.

Definition TCPIPTcpSock_Close (i : nat) (timeout : Z) : task Z :=
  ts ← gets n_now;
  s ← get_sock i;
  if decide (ts_state s = TCP_FREE ∨ ts_state s = TCP_LISTEN) then mret EARGVAL
  else
    late ← (close_flush i timeout ts : task (option Z));
    match late with
    | Some ec => mret ec
    | None =>
        s ← get_sock i;
        now ← gets n_now;
        (if decide (ts_loc_link s = LINK_OPEN)
         then put_sock i (close_start now s)
         else mret ());;
        (close_wait i timeout ts : task Z)
    end.
