(* ===== verification/Stack.v ===== *)
(** * The stack as a whole (net/tcpip/src/ip.c, eth.c, rxtx.c, tcpip.c)

    The input side of the lower layers, which calls the upper ones, and the tasks
    that connect the stack to the interface.  [obj] is the address of objects
    that UDP moves through its queues. *)
From S2P Require Import Prelude CString Heap Time Queue Words Frames Checksum Net Arp Ip Icmp Udp Tcp.

(** ** ip.c, eth.c *)

Section input.
Context (obj : Z).

(** [frame->ip = frame->ptr]. *)
Definition with_l3 (fr : frame) : frame :=
  mk_frame (fr_flags fr) (fr_ptr fr) (fr_size fr) (fr_bufid fr) (fr_eth fr) (fr_ptr fr) (fr_l4 fr).

(** What [TCPIPIp_Input] decides before it calls an upper layer: the error code
    it returns, or the protocol, header length and payload length. *)
Definition ip_accept (n : net) (ip : Z) : res (Z + Z * Z * Z) :=
  let m := n_mem n in
  valid ← TCPIPIpChecksum_IsValid m ip;
  if negb valid then Ok (inl EFATAL)
  else
    hdr_len ← TCPIPIpFrame_GetHdrLen m ip;
    length ← TCPIPIpFrame_GetLength m ip;
    let pld_len := u32 (length - hdr_len) in
    da ← TCPIPIpFrame_GetDstAddr m ip;
    if negb (TCPIPIpAddr_IsMatchingUnicast n da) && negb (TCPIPIpAddr_IsMatchingBroadcast n da) &&
       negb (TCPIPIpAddr_IsMatchingMulticast da)
    then Ok (inl EOK)
    else
      flags ← TCPIPIpFrame_GetFlags m ip;
      foffs ← TCPIPIpFrame_GetFragmentOffset m ip;
      if has flags TCPIP_IP_FLAGS_MF || negb (foffs =? 0) then Ok (inl EOK)
      else proto ← TCPIPIpFrame_GetProtocol m ip; Ok (inr (proto, hdr_len, pld_len)).

Definition TCPIPIp_Input (fr : frame) : task Z :=
  let ip := fr_ptr fr in
  let fr := with_l3 fr in
  modify (set_rx_frame fr);;
  n ← gets id;
  d ← lift (ip_accept n ip);
  match d with
  | inl ec => mret ec
  | inr (proto, hdr_len, pld_len) =>
      let fr := mk_frame (Z.lor (fr_flags fr) TCPIP_FRAME_FLAGS_IP) (ip + hdr_len) pld_len
                  (fr_bufid fr) (fr_eth fr) (fr_l3 fr) (fr_l4 fr) in
      modify (set_rx_frame fr);;
      if proto =? TCPIP_IP_PROTOCOL_ICMP then TCPIPIcmp_Input fr
      else if proto =? TCPIP_IP_PROTOCOL_TCP then TCPIPTcp_Input fr
      else if proto =? TCPIP_IP_PROTOCOL_UDP then TCPIPUdp_Input obj fr
      else mret EUNKPROT
  end.

Definition TCPIPEth_Input (fr : frame) : task Z :=
  let eth := fr_ptr fr in
  let fr := mk_frame (Z.lor (fr_flags fr) TCPIP_FRAME_FLAGS_ETH) (eth + sizeof_eth)
              (u32 (fr_size fr - sizeof_eth)) (fr_bufid fr) eth (fr_l3 fr) (fr_l4 fr) in
  modify (set_rx_frame fr);;
  ethtype ← reads (λ m, TCPIPEthFrame_GetEthType m eth);
  if ethtype =? TCPIP_ETH_ETHTYPE_IP then TCPIPIp_Input fr
  else if ethtype =? TCPIP_ETH_ETHTYPE_ARP then
    modify (set_rx_frame (with_l3 fr));;
    TCPIPArp_Input fr
  else mret EUNKPROT.

(** ** tcpip.c, rxtx.c *)

(** [TCPIP_Reset]; [notify] stands for the subscribers of [tcpip_ev]. *)
Definition TCPIP_Reset (notify : task unit) : task Z :=
  modify TCPIPArp_Reset;;
  modify TCPIPTcpSock_Reset;;
  notify;;
  mret EOK.

(** One round of [TCPIPRxTx_RxTask]: [USBEEM_Recv] returned [rx_size] and put
    [bytes] into the buffer.  The descriptor is static: its layer pointers are
    those of the frame before. *)
Definition TCPIPRxTx_RxTask_round (notify : task unit) (rx_size : Z) (bytes : list Z) : task unit :=
  modify (λ n, set_mem (put_bytes (n_mem n) (n_rx_buf n) bytes) n);;
  if 0 <? rx_size then
    fr ← gets (λ n, let fr := n_rx_frame n in
                 mk_frame 0 (n_rx_buf n) rx_size 0 (fr_eth fr) (fr_l3 fr) (fr_l4 fr));
    modify (set_rx_frame fr);;
    TCPIPEth_Input fr;;
    mret ()
  else if rx_size <? 0 then TCPIP_Reset notify;; mret ()
  else mret ().

(** The sender task looks at buffer [i]; [send] is [USBEEM_Send] of the bytes. *)
Definition tx_task_buffer (send : list Z → task unit) (i : nat) : task unit :=
  t ← gets (λ n, n_tx n !! i);
  match t with
  | None => mret ()
  | Some t =>
      if (tb_allocated t =? 0) || (tb_size t =? 0) then mret ()
      else
        bytes ← (λ n ws, match get_bytes (n_mem n) (tx_buf_addr n (Z.of_nat i)) (Z.to_nat (tb_size t)) with
                 | Some l => Ok (l, n, ws) | None => Fault OutOfBounds end) : task (list Z);
        send bytes;;
        modify (upd_tx (λ _, mk_tx_buf 0 0) i)
  end.

(** One round of [TCPIPRxTx_TxTask]. *)
Definition TCPIPRxTx_TxTask_round (send : list Z → task unit) : task unit :=
  tx_task_buffer send 0;;
  tx_task_buffer send 1;;
  tx_task_buffer send 2;;
  tx_task_buffer send 3.
End input.

(** ** Concrete runs *)

(** Reception buffer at 1000, transmission buffers at 3000; the sender of the
    frames is in the table. *)
Definition demo_boot (l4 : Z) : net :=
  let m := put_bytes (put_bytes ∅ 1000 (replicate 100 0)) 3000 (replicate 100 0) in
  let n := boot_net m 1000 3000 0 (mk_heap ∅ 0) 1 in
  set_rx_frame (mk_frame 0 0 0 0 0 0 l4)
    (set_arp [mk_arp_entry [2; 0; 0; 0; 0; 9] 3232248330 0] n).

(** An echo request from 192.168.50.10 with two bytes of data. *)
Definition demo_ping : list Z :=
  [0; 1; 2; 3; 4; 100; 2; 0; 0; 0; 0; 9; 8; 0;
   69; 0; 0; 30; 0; 0; 0; 0; 64; 1; 149; 8; 192; 168; 50; 10; 192; 168; 50; 124;
   8; 0; 143; 142; 0; 7; 0; 1; 104; 105].

(** The reply: addresses swapped, type 0, same identifier, number and data. *)
Definition demo_pong : list Z :=
  [2; 0; 0; 0; 0; 9; 0; 1; 2; 3; 4; 100; 8; 0;
   69; 0; 0; 30; 0; 0; 0; 0; 255; 1; 214; 7; 192; 168; 50; 124; 192; 168; 50; 10;
   0; 0; 151; 142; 0; 7; 0; 1; 104; 105].

Definition demo_answer (l4 : Z) : res (option (list Z)) :=
  '(_, n, _) ← TCPIPRxTx_RxTask_round 0 (mret ()) 44 demo_ping (demo_boot l4) [id];
  Ok (get_bytes (n_mem n) (tx_buf_addr n 0) 44).

Example ping_answered : demo_answer 1034 = Ok (Some demo_pong).
Proof. vm_compute. reflexivity. Qed.

(** The header that is checked is that of the packet before: right after the
    start the pointer is null. *)
Example first_ping_reads_null : demo_answer 0 = Fault OutOfBounds.
Proof. vm_compute. reflexivity. Qed.
