(* ===== verification/NetSpec.v ===== *)
(** * From one stack to another

    What the output side of a layer writes is what the input side of another
    stack reads, wherever the packet lies in its memory. *)
From S2P Require Import Prelude Heap Time Queue Words Frames Checksum Net Arp Ip Icmp Udp Tcp Stack.

(** ** Sequences of setters

    The header at [p] after some of its fields were written: what is known of
    it; the rest of the memory is as it was in [m0]. *)
Definition written (h : header) (p : Z) (m0 m : mem) (K : list (nat * sigT f_ty)) : Prop :=
  octets m p (h_size h) ∧ known h m p K ∧ (∀ a, ¬ (p ≤ a < p + h_size h) → m !! a = m0 !! a).

Lemma written_start h p m : octets m p (h_size h) → written h p m m [].
Proof. intros H. split; [done|]. split; [apply Forall_nil_2|done]. Qed.

Lemma writes_known h i f v p m0 K n ws {B} (k : unit → task B) :
  written h p m0 (n_mem n) K → h ∈ headers → h_fields h !! i = Some f → f_ok f v →
  ∃ m', (writes (λ m, f_set f m p v) ≫= k) n ws = k () (set_mem m' n) ws ∧
    written h p m0 (n_mem (set_mem m' n)) (learn i (existT f (f_kept f v)) K).
Proof.
  intros (Ho & HK & Hout) Hh Hi Hv.
  destruct (set_known h i f (n_mem n) p v K Hh Hi Ho Hv HK) as (m' & E & Ho' & HK' & Hout').
  exists m'. split; [by apply task_bind_Ok, writes_Ok|]. split; [done|]. split; [done|].
  intros a Ha. change (n_mem (set_mem m' n)) with m'. by rewrite Hout', Hout.
Qed.

(** Looking up what is known. *)
Lemma learn_here i v K : (i, v) ∈ learn i v K.
Proof. left. Qed.
Lemma learn_there i v j w K : (i, v) ∈ K → i ≠ j → (i, v) ∈ learn j w K.
Proof. intros H Hne. right. by apply list_elem_of_filter. Qed.

Lemma learn_other i v K : Forall (λ jv, jv.1 ≠ i) K → learn i v K = (i, v) :: K.
Proof.
  intros H. unfold learn. f_equal. induction H as [|jv K Hj _ IH]; [done|].
  by rewrite filter_cons_True, IH.
Qed.

Lemma learn_others i v K j : i ≠ j → Forall (λ jv, jv.1 ≠ j) K → Forall (λ jv, jv.1 ≠ j) (learn i v K).
Proof.
  intros Hi HK. apply Forall_cons_2; [done|]. apply Forall_forall. intros jv Hj.
  apply list_elem_of_filter in Hj as [_ Hj]. by apply (proj1 (Forall_forall _ _) HK).
Qed.

Lemma known_learn h m p i v K : known h m p (learn i v K) → Forall (λ jv, jv.1 ≠ i) K → known h m p K.
Proof. intros H HF. rewrite learn_other in H by done. by apply Forall_cons_1 in H as [_ H]. Qed.

Lemma learn_again i v w K : learn i v (learn i w K) = learn i v K.
Proof.
  unfold learn. rewrite filter_cons_False by (intros H; by apply H). f_equal.
  induction K as [|jv K IH]; [done|]. destruct (decide (jv.1 ≠ i)).
  - by rewrite !filter_cons_True, IH by done.
  - by rewrite !filter_cons_False, IH by done.
Qed.

Ltac learnt := repeat first [apply learn_here | apply learn_there; [|done]].

(** One setter of a task that fills a header. *)
Ltac fill_step h i v :=
  match goal with W : written h ?p ?m0 (n_mem ?n) ?K |- _ =>
    lazymatch eval cbv [h h_fields lookup list_lookup] in (h_fields h !! i) with Some ?f =>
    let m := fresh "m" in let E := fresh "E" in let W' := fresh "W" in
    edestruct (writes_known h i f v p m0 K n) as (m & E & W');
    [exact W|unfold headers; set_solver|reflexivity| |cbn [f_set] in E; rewrite E; clear E W]
    end
  end.

Lemma ip_header_in : ip_header ∈ headers.
Proof. unfold headers. set_solver. Qed.

(** The bytes under the checksum of a header of 20 bytes. *)
Lemma ip_covers m p :
  octets m p 20 → TCPIPIpFrame_GetHdrLen m p = Ok 20 →
  ∃ l, length l = 20%nat ∧ covers (LayerIP p) m l.
Proof.
  intros (l & Hl & Hu & Hm) Hh. exists l. split; [done|]. split; [done|]. split; [done|].
  split; [simpl; lia|]. destruct (lookup_lt_is_Some_2 l 0) as [b Hb]; [lia|].
  exists b. split; [done|]. rewrite Hl. unfold TCPIPIpFrame_GetHdrLen in Hh.
  pose proof (bytes_at_load8 _ _ _ 0 _ Hm Hb) as E. change (p + 0%nat) with (p + 0) in E.
  rewrite E, bind_Ok in Hh. injection Hh as Hh.
  pose proof (Forall_lookup_1 _ _ _ _ Hu Hb) as Hbu.
  change TCPIP_IP_HDR_LEN_VER_HDRLEN with 0x0F in Hh.
  rewrite (proj1 (BITS_8 b 0 Hbu ltac:(lia))) in Hh. lia.
Qed.

(** The checksum of the IP header keeps the rest of it. *)
Lemma ip_checksum_known m p K :
  octets m p 20 → known ip_header m p K → TCPIPIpFrame_GetHdrLen m p = Ok 20 →
  Forall (λ jv, jv.1 ≠ 9%nat) K →
  ∃ m', TCPIPIpChecksum_Set m p = Ok m' ∧ octets m' p 20 ∧ known ip_header m' p K ∧
    TCPIPIpChecksum_IsValid m' p = Ok true ∧ (∀ a, ¬ (p ≤ a < p + 20) → m' !! a = m !! a).
Proof.
  intros Ho HK Hh HF. destruct (ip_covers m p Ho Hh) as (l & _ & Hc).
  destruct (set_valid _ _ _ Hc) as (c & _ & E & V). cbn [layer_set layer_valid] in E, V.
  set (m' := put_bytes _ _ _) in *. exists m'. split; [exact E|].
  unfold TCPIPIpChecksum_Set in E.
  apply bind_Ok_inv in E as (m1 & E1 & E). apply bind_Ok_inv in E as (ck & _ & E2).
  set (f := mk_field Z TCPIPIpFrame_GetChecksum TCPIPIpFrame_SetChecksum 10 2 any u8).
  destruct (set_known ip_header 9 f m p 0 K ip_header_in eq_refl Ho I HK) as (m1' & E1' & Ho1 & K1 & Out1).
  assert (m1' = m1) as -> by (unfold f in E1'; cbn [f_set] in E1'; congruence).
  destruct (set_known ip_header 9 f m1 p ck _ ip_header_in eq_refl Ho1 I K1) as (m2 & E2' & Ho2 & K2 & Out2).
  assert (m2 = m') as -> by (unfold f in E2'; cbn [f_set] in E2'; congruence).
  split; [exact Ho2|]. split; [|split; [exact V|]].
  - rewrite learn_again in K2. by eapply known_learn.
  - intros a Ha. rewrite Out2 by done. by apply Out1.
Qed.

(** The check looks at the bytes of the header only. *)
Lemma ip_valid_agree m p m' p' :
  octets m p 20 → TCPIPIpFrame_GetHdrLen m p = Ok 20 → agree m p m' p' 20 →
  TCPIPIpFrame_GetHdrLen m' p' = Ok 20 →
  TCPIPIpChecksum_IsValid m' p' = TCPIPIpChecksum_IsValid m p.
Proof.
  intros Ho Hh Ha Hh'. destruct Ho as (l & Hl & Hu & Hm).
  assert (bytes_at m' p' l) as Hm'.
  { apply bytes_at_iff. intros i b Hi. rewrite <- Ha; [by eapply bytes_at_lookup|].
    apply lookup_lt_Some in Hi. lia. }
  unfold TCPIPIpChecksum_IsValid, TCPIPIpChecksum_Compute. rewrite Hh, Hh', !bind_Ok.
  change (u32 20) with (Z.of_nat 20). rewrite <- Hl, !(Checksum_ok _ _ _ l) by (done || word_lia). done.
Qed.

(** ** Internet protocol *)

(** What the getters return for a packet of [size] bytes. *)
Definition ip_reads (m : mem) (ip src dst proto size : Z) : Prop :=
  TCPIPIpFrame_GetHdrLen m ip = Ok 20 ∧ TCPIPIpFrame_GetVersion m ip = Ok 4 ∧
  TCPIPIpFrame_GetLength m ip = Ok (size + 20) ∧ TCPIPIpFrame_GetFlags m ip = Ok 0 ∧
  TCPIPIpFrame_GetFragmentOffset m ip = Ok 0 ∧ TCPIPIpFrame_GetTTL m ip = Ok 255 ∧
  TCPIPIpFrame_GetProtocol m ip = Ok proto ∧ TCPIPIpFrame_GetSrcAddr m ip = Ok src ∧
  TCPIPIpFrame_GetDstAddr m ip = Ok dst.

(** What a getter returns, from what is known. *)
Ltac known_fact h i HK :=
  lazymatch eval cbv [h h_fields lookup list_lookup] in (h_fields h !! i) with Some ?f =>
    let H := fresh "H" in
    eassert (f_get f _ _ = Ok _) as H by (eapply (known_get h _ _ _ i f); [exact HK|learnt]);
    cbn [f_get f_kept] in H; refine (eq_trans H _); clear H; f_equal
  end.

Lemma ip_fill_written n ws ip src dst proto size :
  octets (n_mem n) ip 20 → is_u32 src → is_u32 dst → is_u8 proto → 0 ≤ size → size + 20 < 65536 →
  ∃ m, ip_fill_header ip src dst proto size n ws = Ok ((), set_mem m n, ws) ∧
    (∀ a, ¬ (ip ≤ a < ip + 20) → m !! a = n_mem n !! a) ∧
    (∀ m' p, agree m ip m' p 20 →
      ip_reads m' p src dst proto size ∧ TCPIPIpChecksum_IsValid m' p = Ok true).
Proof.
  intros Ho Hsrc Hdst Hproto Hs1 Hs2.
  pose proof (written_start ip_header ip (n_mem n) Ho) as W.
  unfold ip_fill_header.
  fill_step ip_header 0%nat sizeof_ip; [done|].
  fill_step ip_header 1%nat 4; [done|].
  fill_step ip_header 10%nat src; [done|].
  fill_step ip_header 11%nat dst; [done|].
  fill_step ip_header 8%nat proto; [done|].
  fill_step ip_header 7%nat 255; [done|].
  fill_step ip_header 3%nat (size + sizeof_ip); [done|].
  fill_step ip_header 2%nat 0; [done|].
  fill_step ip_header 4%nat 0; [done|].
  fill_step ip_header 5%nat 0; [done|].
  fill_step ip_header 6%nat 0; [done|].
  match goal with W : written _ _ _ _ _ |- _ => destruct W as (Ho' & HK & Hout) end.
  match type of Ho' with octets (n_mem ?x) _ _ => set (n' := x) in * end.
  destruct (ip_checksum_known (n_mem n') ip _ Ho' HK) as (m' & E & Ho2 & HK2 & V & Out2).
  { by known_fact ip_header 0%nat HK. }
  { repeat (apply learn_others; [done|]). apply Forall_nil_2. }
  exists m'. split; [exact (writes_Ok _ n' ws m' E)|].
  split; [intros a Ha; by rewrite Out2, Hout|].
  intros mr p Ha. pose proof (known_agree _ _ _ _ _ _ ip_header_in Ha HK2) as HK3.
  assert (ip_reads mr p src dst proto size) as R.
  { repeat apply conj.
    - by known_fact ip_header 0%nat HK3.
    - by known_fact ip_header 1%nat HK3.
    - known_fact ip_header 3%nat HK3. apply u16_small. unfold sizeof_ip. word_lia.
    - by known_fact ip_header 5%nat HK3.
    - by known_fact ip_header 6%nat HK3.
    - by known_fact ip_header 7%nat HK3.
    - known_fact ip_header 8%nat HK3. by apply u8_small.
    - known_fact ip_header 10%nat HK3. by apply u32_small.
    - known_fact ip_header 11%nat HK3. by apply u32_small. }
  split; [exact R|]. rewrite (ip_valid_agree m' ip mr p); [done..| |done|apply R].
  by known_fact ip_header 0%nat HK2.
Qed.

(** A stack takes packets to this address. *)
Definition addressed (r : net) (dst : Z) : bool :=
  TCPIPIpAddr_IsMatchingUnicast r dst || TCPIPIpAddr_IsMatchingBroadcast r dst ||
  TCPIPIpAddr_IsMatchingMulticast dst.

Lemma ip_reads_accept r p src dst proto size :
  ip_reads (n_mem r) p src dst proto size → TCPIPIpChecksum_IsValid (n_mem r) p = Ok true →
  0 ≤ size → size + 20 < 65536 →
  ip_accept r p = Ok (if addressed r dst then inr (proto, 20, size) else inl EOK).
Proof.
  intros (E0 & _ & E3 & E5 & E6 & _ & E8 & _ & E11) V Hs1 Hs2. unfold ip_accept, addressed.
  rewrite V, bind_Ok. cbn [negb]. rewrite E0, bind_Ok, E3, bind_Ok, E11, bind_Ok.
  rewrite E5, E6, E8, !bind_Ok, u32_small by word_lia.
  destruct (TCPIPIpAddr_IsMatchingUnicast r dst), (TCPIPIpAddr_IsMatchingBroadcast r dst),
    (TCPIPIpAddr_IsMatchingMulticast dst); cbn; do 3 f_equal; lia.
Qed.

(** ** Properties *)

(** C35: The header that [TCPIPIp_Send] writes for a packet of [size] bytes
    changes nothing outside of the 20 bytes of the header, and any stack that
    finds these bytes, wherever in its memory, accepts the packet exactly when it
    is addressed to it, with the same protocol, source and size and the payload
    right behind the header. *)
Theorem ip_sent_accepted n ws ip dst proto size :
  octets (n_mem n) ip 20 → is_u32 (n_ip n) → is_u32 dst → is_u8 proto → 0 ≤ size → size + 20 < 65536 →
  ∃ m, ip_fill_header ip (n_ip n) dst proto size n ws = Ok ((), set_mem m n, ws) ∧
    (∀ a, ¬ (ip ≤ a < ip + 20) → m !! a = n_mem n !! a) ∧
    (∀ r p, agree m ip (n_mem r) p 20 →
      TCPIPIpFrame_GetSrcAddr (n_mem r) p = Ok (n_ip n) ∧
      ip_accept r p = Ok (if addressed r dst then inr (proto, 20, size) else inl EOK)).
Proof.
  intros Ho Hsrc Hdst Hp Hs1 Hs2.
  destruct (ip_fill_written n ws ip (n_ip n) dst proto size Ho Hsrc Hdst Hp Hs1 Hs2)
    as (m & E & Hout & Hr).
  exists m. split; [exact E|]. split; [exact Hout|]. intros r p Ha.
  destruct (Hr (n_mem r) p Ha) as [R V].
  split; [apply R|]. by apply (ip_reads_accept r p (n_ip n)).
Qed.

(** ** Witnesses *)

Definition ip_demo : net := boot_net (put_bytes ∅ 3014 (replicate 20 0xff)) 1000 3000 0 (mk_heap ∅ 0) 1.

Lemma ip_sent_accepted_witness :
  ∃ m, ip_fill_header 3014 (n_ip ip_demo) 3232248330 17 64 ip_demo [] = Ok ((), set_mem m ip_demo, []) ∧
    ip_accept (TCPIPIpAddr_SetIP 3232248330 (set_mem m ip_demo)) 3014 = Ok (inr (17, 20, 64)).
Proof.
  destruct (ip_sent_accepted ip_demo [] 3014 3232248330 17 64) as (m & E & _ & H).
  - exists (replicate 20 0xff). split; [done|]. split; [by repeat constructor|]. apply put_bytes_bytes_at.
  - vm_compute. split; congruence.
  - word_lia.
  - word_lia.
  - lia.
  - lia.
  - exists m. split; [exact E|].
    destruct (H (TCPIPIpAddr_SetIP 3232248330 (set_mem m ip_demo)) 3014) as [_ A].
    + intros i _. reflexivity.
    + exact A.
Defined.
