(* ===== verification/TcpSpec.v ===== *)
(** * What the TCP sockets guarantee

    An established connection is a pair of byte streams.  [conn] is a socket,
    the memory its queues lie in, and the history of the connection; [conn_step]
    runs the functions of Tcp.v for one event: a segment arrives, the
    application reads or writes, a segment is sent.  The invariant relates queues
    and sequence numbers to the two streams, whatever the network loses,
    repeats or reorders. *)
From S2P Require Import Prelude CString Heap Time Queue ByteQueue Words Frames Checksum Net Arp Ip Tcp.

(** ** Events of an established connection *)

Record conn := mk_conn {
  c_mem : mem;
  c_sock : tcp_sock;
  c_read : list Z;                 (* bytes the application has received *)
  c_written : list Z;              (* bytes the application has handed over *)
  c_sent : list (Z * list Z)       (* sequence number and payload of every segment sent *)
}.

Inductive event :=
| EvSegment (now rand : Z) (sg : segment) (payload : list Z)
| EvRead (p n : Z)
| EvWrite (p : Z) (bs : list Z)
| EvSend (fr : frame) (now win : Z).

(** The receiver put [payload] at [sg_ptr]; the application keeps [bs] at [p]. *)
Definition conn_step (c : conn) (e : event) : res conn :=
  let '(mk_conn m s rd wr sent) := c in
  match e with
  | EvSegment now rand sg payload =>
      '(m, _, s, _) ← tcp_receive (put_bytes m (sg_ptr sg) payload) now rand sg s;
      Ok (mk_conn m s rd wr sent)
  | EvRead p n =>
      rxq ← deref (ts_rxq s);
      '(m, rxq, b_read) ← Queue_Get m rxq p n;
      match get_bytes m p (Z.to_nat b_read) with
      | Some bs => Ok (mk_conn m (upd_queues (Some rxq) (ts_txq s) s) (rd ++ bs) wr sent)
      | None => Fault OutOfBounds
      end
  | EvWrite p bs =>
      txq ← deref (ts_txq s);
      '(m, txq, b_stored) ← Queue_Put (put_bytes m p bs) txq p (length bs);
      Ok (mk_conn m (upd_queues (ts_rxq s) (Some txq) s) rd (wr ++ take (Z.to_nat b_stored) bs) sent)
  | EvSend fr now win =>
      '(m, s, size, tx_flags) ← outgoing_fill m fr TCPIP_TCP_FLAGS_ACK s;
      match get_bytes m (fr_ptr fr) (Z.to_nat size) with
      | Some bs =>
          Ok (mk_conn m (outgoing_sent now tx_flags win s) rd wr (sent ++ [(ts_tx_seq_start s, bs)]))
      | None => Fault OutOfBounds
      end
  end.

Fixpoint conn_run (c : conn) (es : list event) : res conn :=
  match es with
  | [] => Ok c
  | e :: es' => c ← conn_step c e; conn_run c es'
  end.

(** A segment that carries data and acknowledgement only. *)
Definition plain_segment (sg : segment) : Prop :=
  has (sg_flags sg) TCPIP_TCP_FLAGS_ACK = true ∧ has (sg_flags sg) TCPIP_TCP_FLAGS_RST = false ∧
  has (sg_flags sg) SYN_FIN = false.

(** [bs] is what stream [S] has at offset [off]. *)
Definition slice_of (S : list Z) (off : nat) (bs : list Z) : Prop := bs = take (length bs) (drop off S).

Lemma no_syn_fin flags :
  has flags SYN_FIN = false →
  has flags TCPIP_TCP_FLAGS_SYN = false ∧ has flags TCPIP_TCP_FLAGS_FIN = false.
Proof.
  unfold has. rewrite !negb_false_iff, !Z.eqb_eq. intros H.
  change TCPIP_TCP_FLAGS_SYN with (Z.land SYN_FIN TCPIP_TCP_FLAGS_SYN).
  change TCPIP_TCP_FLAGS_FIN with (Z.land SYN_FIN TCPIP_TCP_FLAGS_FIN).
  by rewrite !Z.land_assoc, H.
Qed.

Lemma slice_app S off bs S' :
  (off + length bs ≤ length S)%nat → slice_of S off bs → slice_of (S ++ S') off bs.
Proof.
  unfold slice_of. intros Hl H. rewrite drop_app_le by lia.
  rewrite take_app_le; [done|]. rewrite length_drop. lia.
Qed.

(** State and send side are the same. *)
Record tx_same (s s' : tcp_sock) : Prop := {
  same_state : ts_state s' = ts_state s;
  same_loc : ts_loc_link s' = ts_loc_link s;
  same_rem : ts_rem_link s' = ts_rem_link s;
  same_txq : ts_txq s' = ts_txq s;
  same_start : ts_tx_seq_start s' = ts_tx_seq_start s;
  same_end : ts_tx_seq_end s' = ts_tx_seq_end s
}.

(** State and receive side are the same. *)
Record rx_same (s s' : tcp_sock) : Prop := {
  same_rstate : ts_state s' = ts_state s;
  same_rloc : ts_loc_link s' = ts_loc_link s;
  same_rrem : ts_rem_link s' = ts_rem_link s;
  same_rxq : ts_rxq s' = ts_rxq s;
  same_recvd : ts_rx_seq_recvd s' = ts_rx_seq_recvd s
}.

(** The reaction of a socket to a plain segment, where it takes one. *)
Lemma receive_ack m now rand sg s :
  plain_segment sg → ts_state s ≠ TCP_CLOSED → ts_state s ≠ TCP_LISTEN →
  tcp_receive m now rand sg s =
    if ack_out_of_range sg s then Ok (m, rand, s, EFATAL)
    else
      '(m, s) ← tcp_ack_data m sg (tcp_ack_state s);
      s ← tcp_ack_sent sg s;
      Ok (m, rand, upd_flags (sg_flags sg) (ts_tx_flags s) s, EOK).
Proof.
  intros (Hack & Hrst & Hsf) Hc Hl. destruct (no_syn_fin _ Hsf) as [Hsyn Hfin].
  unfold tcp_receive, tcp_on_rst, tcp_on_syn, tcp_on_ack, tcp_on_fin.
  rewrite Hrst, Hsyn. cbn [negb]. rewrite bind_Ok. cbn [negb]. rewrite Hack, Hfin. cbn [negb].
  rewrite decide_False by (by intros [E|E]).
  destruct (ack_out_of_range sg s); [by rewrite bind_Ok|].
  destruct (tcp_ack_data m sg _) as [[m' s']|]; [|done]. rewrite !bind_Ok.
  by destruct (tcp_ack_sent sg s').
Qed.

(** An open connection has no state change to make. *)
Lemma ack_state_open s :
  ts_state s = TCP_ESTABLISHED → ts_loc_link s = LINK_OPEN → tcp_ack_state s = s.
Proof.
  intros Hst Hloc. unfold tcp_ack_state. cbv zeta.
  destruct (decide (ts_state s = TCP_ESTABLISHING ∧ _)) as [[E _]|_]; [congruence|].
  destruct (decide (ts_loc_link s = LINK_CLOSING)) as [E|_]; [congruence|done].
Qed.

Lemma receive_plain m now rand sg s :
  plain_segment sg → ts_state s = TCP_ESTABLISHED → ts_loc_link s = LINK_OPEN →
  tcp_receive m now rand sg s =
    if ack_out_of_range sg s then Ok (m, rand, s, EFATAL)
    else
      '(m, s) ← tcp_ack_data m sg s;
      s ← tcp_ack_sent sg s;
      Ok (m, rand, upd_flags (sg_flags sg) (ts_tx_flags s) s, EOK).
Proof.
  intros Hp Hst Hloc. rewrite receive_ack by (done || by rewrite Hst). by rewrite ack_state_open.
Qed.

Section connection.
Context {fifo : mem → queue_t → list Z → Prop} `{!ByteFifo fifo}.

(** The remote stream and the sequence numbers of the first bytes. *)
Context (S : list Z) (irs iss : Z).

Context (rxq0 txq0 : queue_t).

Definition buffers_apart : Prop := foreign rxq0 (q_ptr txq0) (q_cap txq0).

(** What may arrive or be done: segments of the remote stream at any offset, in
    any order and number, with any acknowledgement; reads, writes and frames in
    mapped memory outside of the queues. *)
Definition event_ok (m : mem) (e : event) : Prop :=
  match e with
  | EvSegment now rand sg payload =>
      plain_segment sg ∧ sg_size sg = length payload ∧ Forall is_u8 payload ∧
      (∃ off, sg_seq sg = u32 (irs + Z.of_nat off) ∧ (off ≤ length S)%nat ∧ slice_of S off payload) ∧
      foreign rxq0 (sg_ptr sg) (length payload) ∧ foreign txq0 (sg_ptr sg) (length payload)
  | EvRead p n =>
      0 ≤ n ∧ mapped m p (Z.to_nat n) ∧ foreign rxq0 p n ∧ foreign txq0 p n
  | EvWrite p bs =>
      Forall is_u8 bs ∧ foreign rxq0 p (length bs) ∧ foreign txq0 p (length bs)
  | EvSend fr now win =>
      0 ≤ fr_size fr ∧ mapped m (fr_ptr fr) (Z.to_nat (fr_size fr)) ∧
      foreign rxq0 (fr_ptr fr) (fr_size fr) ∧ foreign txq0 (fr_ptr fr) (fr_size fr)
  end.

(** [k] bytes of the remote stream have been accepted, [a] bytes of the local
    one acknowledged, [e] bytes sent at least once. *)
Record conn_inv (m0 : mem) (c : conn) (k a e : nat) : Prop := {
  ci_state : ts_state (c_sock c) = TCP_ESTABLISHED;
  ci_links : ts_loc_link (c_sock c) = LINK_OPEN ∧ ts_rem_link (c_sock c) = LINK_OPEN;
  ci_rx : ∃ rxq buf, ts_rxq (c_sock c) = Some rxq ∧ same_buffer rxq rxq0 ∧ fifo (c_mem c) rxq buf ∧
            c_read c ++ buf = take k S;
  ci_recvd : ts_rx_seq_recvd (c_sock c) = u32 (irs + k) ∧ (k ≤ length S)%nat;
  ci_tx : ∃ txq, ts_txq (c_sock c) = Some txq ∧ same_buffer txq txq0 ∧
            fifo (c_mem c) txq (drop a (c_written c));
  ci_start : ts_tx_seq_start (c_sock c) = u32 (iss + a);
  ci_end : ts_tx_seq_end (c_sock c) = u32 (iss + e);
  ci_order : (a ≤ e ≤ length (c_written c))%nat;
  ci_sent : Forall (λ sb, ∃ off, sb.1 = u32 (iss + Z.of_nat off) ∧ (off + length sb.2 ≤ length (c_written c))%nat ∧
              slice_of (c_written c) off sb.2) (c_sent c);
  ci_mapped : ∀ p n, mapped m0 p n → mapped (c_mem c) p n
}.

(** What a queue holds is not changed by writes into the other queue's buffer. *)
Lemma fifo_beside m m' q l q' q0 :
  fifo m q l → same_buffer q' q0 → foreign q (q_ptr q0) (q_cap q0) →
  (∀ a, ¬ (q_ptr q' ≤ a < q_ptr q' + q_cap q') → m' !! a = m !! a) → fifo m' q l.
Proof.
  intros H (Ep & Ec & Es) Hf Hout. apply (fifo_frame m); [done|]. intros a Ha. apply Hout.
  unfold q_cap in *. rewrite Ep, Ec, Es. unfold foreign, q_cap in Hf. lia.
Qed.

(** *** One event *)

Context (m0 : mem) (Hapart : buffers_apart) (HS : length S < 4294967296) (HSu : Forall is_u8 S).

Lemma seq_offset_eq (off k : nat) :
  (off ≤ length S)%nat → (k ≤ length S)%nat → u32 (irs + off) = u32 (irs + k) → off = k.
Proof. intros Ho Hk E. word_lia. Qed.

Lemma mapped_after m m' q q' l l' p n :
  fifo m q l → fifo m' q' l' → same_buffer q' q →
  (∀ a, ¬ (q_ptr q ≤ a < q_ptr q + q_cap q) → m' !! a = m !! a) →
  mapped m p n → mapped m' p n.
Proof.
  intros H H' (Ep & Ec & Es) Hout Hm i Hi. apply fifo_mapped in H'.
  unfold q_cap in *. rewrite Ep, Ec, Es in H'.
  destruct (decide (q_ptr q ≤ i < q_ptr q + q_count q * q_size q)) as [Hin|Hin].
  - apply H'. lia.
  - rewrite Hout by done. by apply Hm.
Qed.

(** [tcp_ack_data] appends the payload, or as much of it as is free, when it is
    in sequence. *)
Lemma ack_data_ok m rxq buf sg s payload :
  ts_rxq s = Some rxq → fifo m rxq buf → sg_size sg = length payload → Forall is_u8 payload →
  has (sg_flags sg) SYN_FIN = false →
  foreign rxq (sg_ptr sg) (length payload) → bytes_at m (sg_ptr sg) payload →
  is_u32 (ts_rx_seq_recvd s) →
  ∃ m' s' rxq' j, tcp_ack_data m sg s = Ok (m', s') ∧
    tx_same s s' ∧ ts_rxq s' = Some rxq' ∧
    ts_rx_seq_recvd s' = u32 (ts_rx_seq_recvd s + Z.of_nat (Nat.min j (length payload))) ∧
    (j = 0%nat ∨ sg_seq sg = ts_rx_seq_recvd s) ∧
    fifo m' rxq' (buf ++ take j payload) ∧ same_buffer rxq' rxq ∧
    ∀ a, ¬ (q_ptr rxq ≤ a < q_ptr rxq + q_cap rxq) → m' !! a = m !! a.
Proof.
  intros Hq Hf Hsize Hu Hsf Hfor Hb Hrv. unfold tcp_ack_data. rewrite Hq, Hsf, Hsize.
  destruct (Z.eqb_spec (sg_seq sg) (ts_rx_seq_recvd s)) as [E|E].
  - destruct (fifo_put m rxq buf payload _ Hf Hu Hb Hfor) as (m' & q' & Ep & Hf' & Ec & Eptr & Es & Hout).
    cbn [deref]. rewrite bind_Ok, Ep, bind_Ok.
    do 2 eexists. exists q', (Nat.min (length payload) (Z.to_nat (q_count rxq) - length buf)).
    split; [done|]. split; [by split|]. split; [done|]. split; [cbn; do 2 f_equal; lia|].
    split; [by right|]. split; [exact Hf'|]. split; [by repeat split|done].
  - exists m. eexists. exists rxq, 0%nat. split; [done|]. split; [by split|]. split; [done|].
    split; [cbn; rewrite Z.add_0_r; by rewrite u32_small|]. split; [by left|].
    by rewrite take_0, app_nil_r.
Qed.

(** The payload of an acceptable segment extends what was accepted. *)
Lemma slice_extends (off k : nat) payload j rd buf :
  off = k → slice_of S off payload → rd ++ buf = take k S →
  rd ++ (buf ++ take j payload) = take (k + Nat.min j (length payload)) S.
Proof.
  intros -> Hp Hb. rewrite app_assoc, Hb. rewrite Hp at 1. by rewrite take_take, take_take_drop.
Qed.

(** [tcp_ack_sent] drops what is acknowledged. *)
Lemma ack_sent_ok m txq tx sg s :
  ts_txq s = Some txq → fifo m txq tx →
  ∃ s' txq', tcp_ack_sent sg s = Ok s' ∧ rx_same s s' ∧
    ts_txq s' = Some txq' ∧ same_buffer txq' txq ∧
    fifo m txq' (drop (Z.to_nat (u32 (sg_ack sg - ts_tx_seq_start s))) tx) ∧
    ts_tx_seq_start s' = u32 (ts_tx_seq_start s + u32 (sg_ack sg - ts_tx_seq_start s)) ∧
    ts_tx_seq_end s' = ts_tx_seq_end s.
Proof.
  intros Hq Hf. unfold tcp_ack_sent. rewrite Hq. cbn [deref]. rewrite bind_Ok.
  destruct (fifo_drop m txq tx (u32 (sg_ack sg - ts_tx_seq_start s)) Hf) as (q' & E & Hf' & Ec & Ep & Es);
    [word_lia|].
  rewrite E. eexists. exists q'. split; [done|].
  destruct (_ =? _); (split; [by split|]; split; [done|]; split; [done|]; split; [exact Hf'|done]).
Qed.

Lemma step_segment c k a e now rand sg payload :
  conn_inv m0 c k a e → event_ok m0 (EvSegment now rand sg payload) →
  ∃ c' k' a', conn_step c (EvSegment now rand sg payload) = Ok c' ∧ conn_inv m0 c' k' a' e.
Proof.
  intros [Hst Hlinks (rxq & buf & Hrq & Hrs & Hrf & Hrd) [Hrv Hk] (txq & Htq & Hts & Htf) Hsta Hend
    Hord Hsent Hmap] (Hplain & Hsize & Hu & (off & Hseq & Hoff & Hsl) & Hfr & Hft).
  destruct c as [m s rd wr sent]. cbn [c_mem c_sock c_read c_written c_sent] in *.
  set (m1 := put_bytes m (sg_ptr sg) payload).
  assert (fifo m1 rxq buf) as Hrf1 by (apply fifo_put_bytes; [done|by eapply foreign_same]).
  assert (fifo m1 txq (drop a wr)) as Htf1 by (apply fifo_put_bytes; [done|by eapply foreign_same]).
  assert (∀ p n, mapped m0 p n → mapped m1 p n) as Hmap1 by (intros; apply put_bytes_mapped; auto).
  unfold conn_step. fold m1. rewrite (receive_plain _ _ _ _ _ Hplain Hst) by apply Hlinks.
  destruct (ack_out_of_range sg s) eqn:Hrange.
  { rewrite bind_Ok. exists (mk_conn m1 s rd wr sent), k, a. split; [done|]. split; eauto 10. }
  destruct (ack_data_ok m1 rxq buf sg s payload) as (m2 & s2 & rxq2 & j & E2 & Hs2 & Hrq2 & Hrv2 & Hj & Hrf2 & Hb2 & Hout2);
    [done..|apply Hplain|by eapply foreign_same|apply put_bytes_bytes_at|rewrite Hrv; apply u32_range|].
  rewrite E2, bind_Ok.
  assert (fifo m2 txq (drop a wr)) as Htf2.
  { apply (fifo_beside m1 _ _ _ rxq rxq0); [done..| |done].
    eapply foreign_same; [exact Hts|]. unfold buffers_apart, foreign in *. lia. }
  destruct Hs2 as [Es2 El2 Er2 Et2 Est2 Een2].
  destruct (ack_sent_ok m2 txq (drop a wr) sg s2) as (s3 & txq3 & E3 & Hs3 & Htq3 & Hb3 & Htf3 & Hsta3 & Hend3);
    [congruence|done|].
  rewrite E3, !bind_Ok. destruct Hs3 as [Es3 El3 Er3 Erq3 Erv3].
  rewrite Est2, Hsta in *. unfold ack_out_of_range in Hrange. rewrite Hsta, Hend in Hrange.
  apply Z.ltb_ge in Hrange. set (b := u32 (sg_ack sg - u32 (iss + a))) in *.
  assert (0 ≤ b) by (unfold b; word_lia).
  assert (b ≤ e - a) as Hb.
  { pose proof (fifo_free _ _ _ Htf1) as [_ Hlen]. pose proof (fifo_cap _ _ _ Htf1).
    rewrite length_drop in Hlen. word_lia. }
  eexists. exists (k + Nat.min j (length payload))%nat, (a + Z.to_nat b)%nat.
  split; [reflexivity|]. split; cbn; try done.
  - congruence.
  - rewrite El3, Er3, El2, Er2. done.
  - exists rxq2, (buf ++ take j payload). split; [congruence|].
    split; [by eapply same_buffer_trans|]. split; [done|].
    destruct Hj as [->|Hj].
    + rewrite take_0, app_nil_r. cbn. by rewrite Nat.add_0_r.
    + apply (slice_extends off); [|done..]. apply seq_offset_eq; [done..|congruence].
  - rewrite Erv3, Hrv2, Hrv, u32_add_l. split; [f_equal; lia|].
    destruct Hj as [->|Hj]; [lia|].
    assert (off = k) as -> by (apply seq_offset_eq; [done..|congruence]).
    rewrite Hsl, length_take, length_drop. lia.
  - exists txq3. split; [done|]. split; [by eapply same_buffer_trans|].
    by rewrite <- drop_drop.
  - rewrite Hsta3, u32_add_l. f_equal. lia.
  - rewrite Hend3, Een2. done.
  - lia.
  - intros p n Hm. apply (mapped_after m1 m2 rxq rxq2 _ _ _ _ Hrf1 Hrf2); auto.
Qed.

Lemma mapped_Z m p n k : mapped m p (Z.to_nat n) → k ≤ n → mapped m p (Z.to_nat k).
Proof. intros H Hk. apply (mapped_le _ _ (Z.to_nat n)); [lia|done]. Qed.

Lemma step_read c k a e p n :
  conn_inv m0 c k a e → event_ok m0 (EvRead p n) →
  ∃ c', conn_step c (EvRead p n) = Ok c' ∧ conn_inv m0 c' k a e.
Proof.
  intros [Hst Hlinks (rxq & buf & Hrq & Hrs & Hrf & Hrd) Hrecvd (txq & Htq & Hts & Htf) Hsta Hend
    Hord Hsent Hmap] (Hn & Hmp & Hfr & Hft).
  destruct c as [m s rd wr sent]. cbn [c_mem c_sock c_read c_written c_sent] in *.
  set (bs := take (Z.to_nat n) buf).
  assert (length bs ≤ n) as Hbs by (unfold bs; rewrite length_take; lia).
  assert (foreign rxq p (length bs)) as Hfb by (eapply foreign_same, foreign_le; [exact Hrs|exact Hfr|done]).
  assert (mapped m p (length bs)) as Hmb.
  { apply (mapped_le _ _ (Z.to_nat n)); [lia|]. by apply Hmap. }
  unfold conn_step. rewrite Hrq. cbn [deref]. rewrite bind_Ok. unfold Queue_Get.
  rewrite (fifo_peek _ _ _ _ _ Hrf Hn Hmb Hfb), bind_Ok.
  destruct (fifo_drop m rxq buf (length bs) Hrf ltac:(lia)) as (q' & E & Hf' & Ec & Ep & Es).
  fold bs. rewrite E, bind_Ok, Nat2Z.id.
  rewrite (get_bytes_spec _ _ bs) by apply put_bytes_bytes_at.
  eexists. split; [reflexivity|]. split; cbn; try done.
  - exists q', (drop (length bs) buf). split; [done|].
    split; [by apply (same_buffer_trans _ rxq)|]. rewrite Nat2Z.id in Hf'. split.
    + apply fifo_put_bytes; [done|]. by apply (foreign_same _ rxq).
    + rewrite <- app_assoc. unfold bs at 1. rewrite <- Hrd. f_equal.
      unfold bs. rewrite length_take. destruct (decide (Z.to_nat n ≤ length buf)%nat).
      * rewrite Nat.min_l by done. apply take_drop.
      * rewrite Nat.min_r, take_ge, drop_ge, app_nil_r by lia. done.
  - exists txq. split; [done|]. split; [done|]. apply fifo_put_bytes; [done|].
    eapply foreign_same, foreign_le; [exact Hts|exact Hft|done].
  - intros. apply put_bytes_mapped. auto.
Qed.

Lemma step_write c k a e p bs :
  conn_inv m0 c k a e → event_ok m0 (EvWrite p bs) →
  ∃ c', conn_step c (EvWrite p bs) = Ok c' ∧ conn_inv m0 c' k a e.
Proof.
  intros [Hst Hlinks (rxq & buf & Hrq & Hrs & Hrf & Hrd) Hrecvd (txq & Htq & Hts & Htf) Hsta Hend
    Hord Hsent Hmap] (Hu & Hfr & Hft).
  destruct c as [m s rd wr sent]. cbn [c_mem c_sock c_read c_written c_sent] in *.
  set (m1 := put_bytes m p bs).
  assert (fifo m1 rxq buf) as Hrf1 by (apply fifo_put_bytes; [done|by eapply foreign_same]).
  assert (fifo m1 txq (drop a wr)) as Htf1 by (apply fifo_put_bytes; [done|by eapply foreign_same]).
  destruct (fifo_put m1 txq (drop a wr) bs p Htf1 Hu) as (m2 & q' & E & Hf' & Ec & Ep & Es & Hout);
    [apply put_bytes_bytes_at|by eapply foreign_same|].
  unfold conn_step. fold m1. rewrite Htq. cbn [deref]. rewrite bind_Ok, E, bind_Ok, Nat2Z.id.
  set (j := Nat.min _ _) in *. eexists. split; [reflexivity|]. split; cbn; try done.
  - exists rxq, buf. split; [done|]. split; [done|]. split; [|done].
    apply (fifo_beside m1 _ _ _ txq txq0); [done..| |done].
    eapply foreign_same; [exact Hrs|]. exact Hapart.
  - exists q'. split; [done|]. split; [by apply (same_buffer_trans _ txq)|].
    by rewrite drop_app_le by lia.
  - rewrite length_app. lia.
  - eapply Forall_impl; [exact Hsent|]. intros [q b] (off & E1 & E2 & E3). exists off. cbn in *.
    rewrite length_app. split; [done|]. split; [lia|]. by apply slice_app.
  - intros q n Hm. apply (mapped_after m1 m2 txq q' _ _ _ _ Htf1 Hf'); [by repeat split|done|].
    apply put_bytes_mapped. auto.
Qed.

Lemma step_send c k a e fr now win :
  conn_inv m0 c k a e → event_ok m0 (EvSend fr now win) →
  ∃ c' e', conn_step c (EvSend fr now win) = Ok c' ∧ conn_inv m0 c' k a e'.
Proof.
  intros [Hst Hlinks (rxq & buf & Hrq & Hrs & Hrf & Hrd) Hrecvd (txq & Htq & Hts & Htf) Hsta Hend
    Hord Hsent Hmap] (Hn & Hmp & Hfr & Hft).
  destruct c as [m s rd wr sent]. cbn [c_mem c_sock c_read c_written c_sent] in *.
  set (bs := take (Z.to_nat (fr_size fr)) (drop a wr)).
  assert (length bs ≤ fr_size fr) as Hbs by (unfold bs; rewrite length_take; lia).
  assert (length bs ≤ length wr - a)%nat as Hbw by (unfold bs; rewrite length_take, length_drop; lia).
  assert (foreign txq (fr_ptr fr) (length bs)) as Hfb
    by (eapply foreign_same, foreign_le; [exact Hts|exact Hft|done]).
  assert (mapped m (fr_ptr fr) (length bs)) as Hmb.
  { apply (mapped_le _ _ (Z.to_nat (fr_size fr))); [lia|]. by apply Hmap. }
  unfold conn_step, outgoing_fill. rewrite Htq. cbn [deref]. rewrite bind_Ok.
  rewrite (fifo_peek _ _ _ _ _ Htf Hn Hmb Hfb), bind_Ok. fold bs.
  assert (has (if 0 <? Z.of_nat (length bs) then Z.lor TCPIP_TCP_FLAGS_ACK TCPIP_TCP_FLAGS_PSH
               else TCPIP_TCP_FLAGS_ACK) SYN_FIN = false) as -> by by destruct (0 <? _).
  rewrite bind_Ok, Nat2Z.id, (get_bytes_spec _ _ bs) by apply put_bytes_bytes_at.
  eexists. exists (a + length bs)%nat. split; [reflexivity|].
  destruct Hlinks as [Hloc Hrem].
  assert (∀ s, ts_rem_link s = LINK_OPEN → ∀ now fl win,
    tx_same s (outgoing_sent now fl win s) ∧ rx_same s (outgoing_sent now fl win s)) as Hkeep.
  { clear. intros s Hs now fl win. unfold outgoing_sent. cbv zeta.
    destruct (negb _); rewrite decide_False by (cbn; rewrite Hs; discriminate); by split. }
  match goal with |- context [outgoing_sent now ?fl win ?s1] =>
    destruct (Hkeep s1 Hrem now fl win) as [[K1 K2 K3 K4 K5 K6] [K7 K8 K9 K10 K11]] end.
  split; cbn [c_mem c_sock c_read c_written c_sent]; rewrite ?K1, ?K2, ?K3, ?K4, ?K5, ?K6, ?K10, ?K11; cbn; try done.
  - exists rxq, buf. split; [done|]. split; [done|]. split; [|done]. apply fifo_put_bytes; [done|].
    eapply foreign_same, foreign_le; [exact Hrs|exact Hfr|done].
  - exists txq. split; [done|]. split; [done|]. by apply fifo_put_bytes.
  - rewrite Hsta, u32_add_l. f_equal. lia.
  - lia.
  - apply Forall_app_2; [done|]. apply Forall_cons_2; [|by apply Forall_nil_2]. exists a. cbn.
    split; [done|]. split; [lia|]. unfold slice_of, bs. rewrite length_take, length_drop.
    destruct (decide (Z.to_nat (fr_size fr) ≤ length wr - a)%nat).
    + by rewrite Nat.min_l.
    + rewrite Nat.min_r, !take_ge by (rewrite ?length_drop; lia). done.
  - intros. apply put_bytes_mapped. auto.
Qed.

Lemma conn_run_ok es : ∀ c k a e,
  conn_inv m0 c k a e → Forall (event_ok m0) es →
  ∃ c' k' a' e', conn_run c es = Ok c' ∧ conn_inv m0 c' k' a' e'.
Proof.
  induction es as [|ev es IH]; intros c k a e Hc Hes; [by eauto 10|].
  apply Forall_cons_1 in Hes as [Hev Hes]. cbn [conn_run].
  assert (∃ c' k' a' e', conn_step c ev = Ok c' ∧ conn_inv m0 c' k' a' e') as (c1 & k1 & a1 & e1 & E & H1).
  { destruct ev.
    - destruct (step_segment _ _ _ _ _ _ _ _ Hc Hev) as (c' & k' & a' & ? & ?). by eauto 10.
    - destruct (step_read _ _ _ _ _ _ Hc Hev) as (c' & ? & ?). by eauto 10.
    - destruct (step_write _ _ _ _ _ _ Hc Hev) as (c' & ? & ?). by eauto 10.
    - destruct (step_send _ _ _ _ _ _ _ Hc Hev) as (c' & e' & ? & ?). by eauto 10. }
  rewrite E, bind_Ok. by eapply IH.
Qed.
End connection.

(** ** Life of a socket *)

(** What the receiver, the sender and the user do with a socket, one call each. *)
Inductive sock_step : tcp_sock → tcp_sock → Prop :=
| step_receive m now rand sg s m' rand' s' ec :
    ts_state s ≠ TCP_FREE → ts_state s ≠ TCP_CLOSED →
    tcp_receive m now rand sg s = Ok (m', rand', s', ec) → sock_step s s'
| step_sent m fr fl s m' s' size fl' now win :
    outgoing_flags s = Some fl → outgoing_fill m fr fl s = Ok (m', s', size, fl') →
    sock_step s (outgoing_sent now fl' win s')
| step_unsent m fr fl s m' s' size fl' :
    outgoing_flags s = Some fl → outgoing_fill m fr fl s = Ok (m', s', size, fl') → sock_step s s'
| step_closed s : ts_state s ≠ TCP_FREE → sock_step s (upd_state TCP_CLOSED s)
| step_listen port s s' :
    ts_state s = TCP_CLOSED ∨ ts_state s = TCP_LISTEN → listen_start port s = Ok s' → sock_step s s'
| step_connect r now ip port s s' :
    ts_state s = TCP_CLOSED → connect_start r now ip port s = Ok s' → sock_step s s'
| step_close now s :
    ts_state s ≠ TCP_FREE → ts_state s ≠ TCP_LISTEN → ts_loc_link s = LINK_OPEN →
    sock_step s (close_start now s)
| step_queues rxq txq s : sock_step s (upd_queues rxq txq s).

(** The states and the two directions of the link. *)
Definition links_ok (s : tcp_sock) : Prop :=
  match ts_state s with
  | TCP_FREE | TCP_CLOSED => True
  | TCP_LISTEN => ts_loc_link s = LINK_CLOSED ∧ ts_rem_link s = LINK_CLOSED ∧ ts_tx_flags s = 0
  | TCP_CONNECT | TCP_ESTABLISHING => ts_loc_link s = LINK_CLOSED ∧ ts_rem_link s = LINK_CLOSED
  | TCP_ESTABLISHED => ts_loc_link s = LINK_OPEN ∧ ts_rem_link s = LINK_OPEN
  | TCP_CLOSING => ts_loc_link s ≠ LINK_OPEN ∧ ¬ (ts_loc_link s = LINK_CLOSED ∧ ts_rem_link s = LINK_CLOSED)
  end.

(** The segment that completes a handshake in this state. *)
Definition handshake (sg : segment) (s : tcp_sock) : Prop :=
  has (sg_flags sg) TCPIP_TCP_FLAGS_ACK = true ∧
  (ts_state s = TCP_CONNECT ∧ has (sg_flags sg) TCPIP_TCP_FLAGS_SYN = true ∨
   ts_state s = TCP_ESTABLISHING ∧ ts_tx_flags s = SYN_ACK ∧ ack_out_of_range sg s = false).

(** What [links_ok] depends on is the same. *)
Definition view (s : tcp_sock) : tcp_state * link_state * link_state * Z :=
  (ts_state s, ts_loc_link s, ts_rem_link s, ts_tx_flags s).

Lemma links_ok_view s s' : view s' = view s → links_ok s → links_ok s'.
Proof. unfold view, links_ok. intros E. injection E as -> -> -> ->. done. Qed.

Lemma on_syn_links now rand sg s s' rand' ok :
  tcp_on_syn now rand sg s = Ok (s', rand', ok) → links_ok s →
  links_ok s' ∧ ts_tx_flags s' = ts_tx_flags s ∧
  (s' = s ∨ ts_state s = TCP_LISTEN ∧ ts_state s' = TCP_ESTABLISHING ∨
   ts_state s = TCP_CONNECT ∧ has (sg_flags sg) TCPIP_TCP_FLAGS_SYN = true ∧
     has (sg_flags sg) TCPIP_TCP_FLAGS_ACK = true).
Proof.
  unfold tcp_on_syn. intros E Hl.
  destruct (has (sg_flags sg) TCPIP_TCP_FLAGS_SYN); [cbn [negb] in E|by injection E as <- _ _; auto].
  destruct (_ && _) eqn:Hguard; [by injection E as <- _ _; auto|].
  cbv zeta in E. cbn [ts_rxq upd_peer] in E. destruct (ts_rxq s) as [q|]; [|discriminate E].
  cbn [deref] in E. rewrite bind_Ok in E. injection E as <- _ _. cbn [ts_state upd_retr upd_tx_seq upd_rx upd_peer].
  unfold links_ok in Hl |- *. destruct (ts_state s) eqn:Hs; try discriminate Hguard.
  - rewrite decide_True by done. cbn. intuition auto.
  - rewrite decide_False by discriminate. destruct (has (sg_flags sg) TCPIP_TCP_FLAGS_ACK); [|discriminate Hguard]. cbn. by auto 10.
Qed.

Lemma ack_data_view m sg s m' s' : tcp_ack_data m sg s = Ok (m', s') → view s' = view s.
Proof.
  unfold tcp_ack_data. intros E. destruct (_ =? _); [|by injection E as _ <-].
  destruct (deref (ts_rxq s)) as [q|]; [|discriminate E]. rewrite bind_Ok in E.
  destruct (Queue_Put _ _ _ _) as [[[m1 q1] n]|]; [|discriminate E]. rewrite bind_Ok in E.
  by injection E as _ <-.
Qed.

Lemma ack_sent_view sg s s' : tcp_ack_sent sg s = Ok s' → view s' = view s.
Proof.
  unfold tcp_ack_sent. intros E. destruct (deref (ts_txq s)) as [q|]; [|discriminate E].
  rewrite bind_Ok in E. destruct (Queue_Drop _ _) as [q1 n]. injection E as <-. by destruct (_ =? _).
Qed.

Lemma ack_state_links s :
  links_ok s →
  links_ok (tcp_ack_state s) ∧
  (tcp_ack_state s = s ∨ ts_state s = TCP_ESTABLISHING ∧ ts_tx_flags s = SYN_ACK ∨
   ts_state (tcp_ack_state s) ≠ TCP_ESTABLISHED).
Proof.
  intros Hl. unfold tcp_ack_state.
  destruct (decide (ts_state s = TCP_ESTABLISHING ∧ ts_tx_flags s = SYN_ACK)) as [[E1 E2]|_].
  { cbv zeta. cbn [ts_loc_link upd_links]. rewrite decide_False by discriminate. split; [by split|by auto]. }
  cbv zeta. destruct (decide (ts_loc_link s = LINK_CLOSING)) as [E|_]; [|by auto].
  unfold links_ok in *. cbn [ts_rem_link upd_links]. destruct (decide (ts_rem_link s = LINK_CLOSED)) as [Er|Er].
  - cbn. split; [done|right; right; discriminate].
  - cbn. destruct (ts_state s) eqn:Hs; try (destruct Hl; congruence); try (by auto).
    split; [split; [discriminate|by intros []]|right; right; discriminate].
Qed.

Lemma on_ack_links m sg s m' s' ok :
  tcp_on_ack m sg s = Ok (m', s', ok) → links_ok s →
  links_ok s' ∧ (view s' = view s ∨ ts_state s' ≠ TCP_ESTABLISHED ∨
    has (sg_flags sg) TCPIP_TCP_FLAGS_ACK = true ∧ ts_state s = TCP_ESTABLISHING ∧
    ts_tx_flags s = SYN_ACK ∧ ack_out_of_range sg s = false).
Proof.
  unfold tcp_on_ack. intros E Hl.
  destruct (has (sg_flags sg) TCPIP_TCP_FLAGS_ACK); [cbn [negb] in E|by injection E as _ <- _; auto].
  destruct (decide _); [by injection E as _ <- _; auto|].
  destruct (ack_out_of_range sg s); [by injection E as _ <- _; auto|].
  destruct (tcp_ack_data m sg _) as [[m1 s1]|] eqn:E1; [|discriminate E]. rewrite bind_Ok in E.
  destruct (tcp_ack_sent sg s1) as [s2|] eqn:E2; [|discriminate E]. injection E as _ <- _.
  apply ack_data_view in E1. apply ack_sent_view in E2. rewrite E1 in E2.
  destruct (ack_state_links s Hl) as [Hl' Hc]. split; [by eapply links_ok_view|].
  destruct Hc as [Hc|[Hc|Hc]]; [by rewrite Hc in E2; auto|destruct Hc; by auto 10|].
  right; left. injection E2 as -> _ _ _. done.
Qed.

Lemma on_fin_links now sg s :
  links_ok s → links_ok (tcp_on_fin now sg s) ∧
  (tcp_on_fin now sg s = s ∨ ts_state (tcp_on_fin now sg s) = TCP_CLOSING).
Proof.
  unfold tcp_on_fin. intros Hl. destruct (has _ _); [cbn [negb]|by auto]. split; [|by auto].
  unfold links_ok. cbn. by destruct (decide (ts_loc_link s = LINK_OPEN)); (split; [|intros []]).
Qed.

(** A segment keeps the links in step with the state, and opens a connection
    only when it completes a handshake. *)
Lemma receive_links m now rand sg s m' rand' s' ec :
  tcp_receive m now rand sg s = Ok (m', rand', s', ec) → links_ok s →
  links_ok s' ∧ (ts_state s ≠ TCP_ESTABLISHED → ts_state s' = TCP_ESTABLISHED → handshake sg s).
Proof.
  unfold tcp_receive. intros E Hl.
  assert (links_ok (tcp_on_rst sg s) ∧ (tcp_on_rst sg s = s ∨ ts_state (tcp_on_rst sg s) = TCP_CLOSED))
    as [Hl0 H0] by (unfold tcp_on_rst; destruct (has _ _); [by split; [|right]|by auto]).
  destruct (tcp_on_syn now rand sg (tcp_on_rst sg s)) as [[[s1 r1] ok1]|] eqn:E1; [|discriminate E].
  rewrite bind_Ok in E. destruct (on_syn_links _ _ _ _ _ _ _ E1 Hl0) as (Hl1 & Hf1 & H1).
  assert (ts_state s ≠ TCP_ESTABLISHED → ts_state s1 = TCP_ESTABLISHED → handshake sg s) as K1.
  { intros Hn He. destruct H1 as [->|[[_ Hx]|(Hc & H)]]; [|congruence|].
    - destruct H0 as [H0|H0]; congruence.
    - destruct H0 as [H0|H0]; [|congruence]. rewrite H0 in Hc. split; [apply H|by left; split; [|apply H]]. }
  destruct ok1; cbn [negb] in E; [|by injection E as _ _ <- _].
  destruct (tcp_on_ack m sg s1) as [[[m2 s2] ok2]|] eqn:E2; [|discriminate E].
  rewrite bind_Ok in E. destruct (on_ack_links _ _ _ _ _ _ E2 Hl1) as (Hl2 & H2).
  assert (ts_state s ≠ TCP_ESTABLISHED → ts_state s2 = TCP_ESTABLISHED → handshake sg s) as K2.
  { intros Hn He. destruct H2 as [H2|[H2|(Ha & Hs & Hf & Hr)]]; [| congruence|].
    - apply K1; [done|]. injection H2. congruence.
    - destruct H1 as [->|[[Hx _]|(Hc & Hsyn & _)]].
      + destruct H0 as [H0|H0]; [rewrite H0 in *|congruence]. by split; [|right].
      + unfold links_ok in Hl0. rewrite Hx in Hl0. destruct Hl0 as (_ & _ & Hz). rewrite Hf1, Hz in Hf. discriminate Hf.
      + destruct H0 as [H0|H0]; [|congruence]. rewrite H0 in Hc. by split; [|left]. }
  destruct ok2; cbn [negb] in E; [|by injection E as _ _ <- _].
  destruct (on_fin_links now sg s2 Hl2) as [Hl3 H3]. injection E as _ _ <- _. split; [by apply (links_ok_view (tcp_on_fin now sg s2))|].
  intros Hn He. cbn in He. destruct H3 as [H3|H3]; [rewrite H3 in He; by apply K2|congruence].
Qed.

Lemma outgoing_fill_view m fr fl s m' s' size fl' :
  outgoing_fill m fr fl s = Ok (m', s', size, fl') → view s' = view s.
Proof.
  unfold outgoing_fill. intros E. destruct (deref (ts_txq s)) as [q|]; [|discriminate E].
  rewrite bind_Ok in E. destruct (Queue_Peek _ _ _ _) as [[m1 n]|]; [|discriminate E].
  rewrite bind_Ok in E. by injection E as _ <- _ _.
Qed.

Lemma outgoing_sent_links now fl win s :
  links_ok s → ts_state s ≠ TCP_LISTEN →
  links_ok (outgoing_sent now fl win s) ∧
  (ts_state (outgoing_sent now fl win s) = ts_state s ∨ ts_state (outgoing_sent now fl win s) = TCP_CLOSED).
Proof.
  intros Hl Hs. unfold outgoing_sent. cbv zeta. unfold links_ok in *.
  destruct (negb _); cbn; (destruct (decide (ts_rem_link s = LINK_CLOSING)) as [E|E];
    [cbn; destruct (decide (ts_loc_link s = LINK_CLOSED)) as [Ec|Ec]|]; cbn;
    destruct (ts_state s); try done; intuition congruence).
Qed.

Lemma clear_queues_view s s' : clear_queues s = Ok s' → view s' = view s.
Proof.
  unfold clear_queues. intros E. destruct (deref (ts_rxq s)); [|discriminate E]. rewrite bind_Ok in E.
  destruct (deref (ts_txq s)); [|discriminate E]. rewrite bind_Ok in E. by injection E as <-.
Qed.

(** Every step keeps [links_ok], and only a segment opens a connection. *)
Lemma step_links s s' :
  sock_step s s' → links_ok s →
  links_ok s' ∧ (ts_state s ≠ TCP_ESTABLISHED → ts_state s' = TCP_ESTABLISHED →
    ∃ m now rand sg m' rand' ec,
      tcp_receive m now rand sg s = Ok (m', rand', s', ec) ∧ handshake sg s).
Proof.
  intros Hstep Hl. destruct Hstep as [m now rand sg s m' rand' s' ec _ _ E|m fr fl s m' s' size fl' now win Ef E
    |m fr fl s m' s' size fl' Ef E|s _|port s s' _ E|r now ip port s s' _ E|now s Hf Hn Ho|rxq txq s].
  - destruct (receive_links _ _ _ _ _ _ _ _ _ E Hl) as [H1 H2]. split; [done|]. intros. by eauto 10.
  - apply outgoing_fill_view in E. assert (links_ok s') as Hl' by by eapply links_ok_view.
    injection E as Es _ _ _. destruct (outgoing_sent_links now fl' win s' Hl') as [H1 H2].
    { rewrite Es. intros Hx. unfold outgoing_flags in Ef. by rewrite Hx in Ef. }
    split; [done|]. intros. destruct H2; congruence.
  - apply outgoing_fill_view in E. split; [by eapply links_ok_view|]. injection E. congruence.
  - done.
  - apply clear_queues_view in E. split; [by eapply links_ok_view|].
    injection E as Es _ _ _. cbn in Es. congruence.
  - apply clear_queues_view in E. split; [by eapply links_ok_view|].
    injection E as Es _ _ _. cbn in Es. congruence.
  - split; [|done]. unfold links_ok. cbn. by split; [|intros []].
  - split; [by apply (links_ok_view s)|]. cbn in *; congruence.
Qed.

Lemma reachable_links s0 s : ts_state s0 = TCP_CLOSED → rtc sock_step s0 s → links_ok s.
Proof.
  intros H0 Hr. assert (links_ok s0) as Hl by (unfold links_ok; by rewrite H0). clear H0.
  induction Hr as [|s0 s1 s Hs _ IH]; [done|]. apply IH. by apply (step_links s0).
Qed.

(** ** Properties *)

(** A connection nothing has been sent over: the next byte from the remote side
    has number [irs], the next one to it [iss]. *)
Definition conn_open (m : mem) (s : tcp_sock) (irs iss : Z) : Prop :=
  ts_state s = TCP_ESTABLISHED ∧ ts_loc_link s = LINK_OPEN ∧ ts_rem_link s = LINK_OPEN ∧
  (∃ rxq txq, ts_rxq s = Some rxq ∧ ts_txq s = Some txq ∧
    byte_queue m rxq [] ∧ byte_queue m txq [] ∧ buffers_apart rxq txq) ∧
  ts_rx_seq_recvd s = u32 irs ∧ ts_tx_seq_start s = u32 iss ∧ ts_tx_seq_end s = u32 iss.

Lemma open_inv m s irs iss S rxq txq :
  conn_open m s irs iss → ts_rxq s = Some rxq → ts_txq s = Some txq →
  conn_inv (fifo := byte_queue) S irs iss rxq txq m (mk_conn m s [] [] []) 0 0 0.
Proof.
  intros (Hst & Hl & Hr & (rxq' & txq' & E1 & E2 & B1 & B2 & _) & Hv & Hs & He) E1' E2'.
  rewrite E1 in E1'. injection E1' as <-. rewrite E2 in E2'. injection E2' as <-.
  split; cbn; rewrite ?Z.add_0_r; try done.
  - exists rxq', []. by split; [|split; [|split]].
  - split; [done|lia].
  - exists txq'. by split; [|split].
Qed.

(** C1: Over an open connection both directions are byte streams.  Whatever
    segments of the remote stream [S] arrive - out of order, repeated, truncated
    by a full queue, with any acknowledgement - and however reads, writes and
    transmissions interleave with them, no call fails, and: what the application
    has read followed by what its queue holds is a prefix of [S], of the length
    the receive counter says; the send queue holds exactly what was written but
    not yet acknowledged; every segment sent carries the bytes of the written
    stream that its sequence number stands for. *)
Theorem tcp_streams m s irs iss S rxq txq es :
  conn_open m s irs iss → ts_rxq s = Some rxq → ts_txq s = Some txq →
  length S < 4294967296 → Forall (event_ok S irs rxq txq m) es →
  ∃ c, conn_run (mk_conn m s [] [] []) es = Ok c ∧
    (∃ q buf k, ts_rxq (c_sock c) = Some q ∧ byte_queue (c_mem c) q buf ∧
      c_read c ++ buf = take k S ∧ ts_rx_seq_recvd (c_sock c) = u32 (irs + Z.of_nat k)) ∧
    (∃ q a, ts_txq (c_sock c) = Some q ∧ byte_queue (c_mem c) q (drop a (c_written c)) ∧
      (a ≤ length (c_written c))%nat ∧ ts_tx_seq_start (c_sock c) = u32 (iss + Z.of_nat a)) ∧
    Forall (λ sb, ∃ off, sb.1 = u32 (iss + Z.of_nat off) ∧ slice_of (c_written c) off sb.2) (c_sent c).
Proof.
  intros Ho Hr Ht HS Hes.
  assert (buffers_apart rxq txq) as Ha.
  { destruct Ho as (_ & _ & _ & (r & t & E1 & E2 & _ & _ & Ha) & _). congruence. }
  destruct (conn_run_ok (fifo := byte_queue) S irs iss rxq txq m Ha HS es _ 0 0 0
    (open_inv _ _ _ _ S _ _ Ho Hr Ht) Hes) as (c & k & a & e & E & Hc).
  exists c. split; [done|]. destruct Hc as [_ _ (q & buf & ? & _ & ? & ?) [? _] (q' & ? & _ & ?) ? _ ? Hsent _].
  split; [by exists q, buf, k|]. split; [exists q', a; split; [done|split; [done|split; [lia|done]]]|].
  eapply Forall_impl; [exact Hsent|]. intros [x b] (off & ? & _ & ?). by exists off.
Qed.

(** *** Opening *)

(** A bare SYN, a SYN with acknowledgement. *)
Definition syn_segment (sg : segment) (ack : bool) : Prop :=
  has (sg_flags sg) TCPIP_TCP_FLAGS_SYN = true ∧ has (sg_flags sg) TCPIP_TCP_FLAGS_ACK = ack ∧
  has (sg_flags sg) TCPIP_TCP_FLAGS_RST = false ∧ has (sg_flags sg) TCPIP_TCP_FLAGS_FIN = false.

(** A socket with empty queues. *)
Definition idle_queues (m : mem) (s : tcp_sock) (rxq txq : queue_t) : Prop :=
  ts_rxq s = Some rxq ∧ ts_txq s = Some txq ∧ byte_queue m rxq [] ∧ byte_queue m txq [] ∧
  buffers_apart rxq txq.

(** The socket after a SYN; [st] with [loc] and [rem] is the new state. *)
Definition after_syn (now iss : Z) (sg : segment) (rxq : queue_t) (s s' : tcp_sock) : Prop :=
  ts_addr s' = sg_ip sg ∧ ts_rem_port s' = sg_src_port sg ∧ ts_loc_port s' = ts_loc_port s ∧
  ts_rx_seq_recvd s' = u32 (sg_seq sg + 1) ∧ ts_rx_seq_acked s' = sg_seq sg ∧
  ts_tx_seq_start s' = iss ∧ ts_tx_seq_end s' = ts_tx_seq_end s ∧ ts_tx_retr_cnt s' = 0 ∧
  ts_syn_fin_ts s' = now ∧ ts_rxq s' = ts_rxq s ∧ ts_txq s' = ts_txq s ∧ ts_tx_flags s' = ts_tx_flags s.

Lemma on_syn_ok now rand sg s rxq ack :
  syn_segment sg ack → ts_rxq s = Some rxq →
  (ts_state s = TCP_LISTEN ∨ ts_state s = TCP_CONNECT ∧ ack = true) →
  ∃ s', tcp_on_syn now rand sg s = Ok (s', LFSR32_Next rand, true) ∧
    after_syn now (LFSR32_Next rand) sg rxq s s' ∧
    (ts_state s = TCP_LISTEN → ts_state s' = TCP_ESTABLISHING ∧
       ts_loc_link s' = ts_loc_link s ∧ ts_rem_link s' = ts_rem_link s) ∧
    (ts_state s = TCP_CONNECT → ts_state s' = TCP_ESTABLISHED ∧
       ts_loc_link s' = LINK_OPEN ∧ ts_rem_link s' = LINK_OPEN).
Proof.
  intros (Hsyn & Hack & _) Hq Hst. unfold tcp_on_syn. rewrite Hsyn, Hack. cbn [negb].
  assert (negb (bool_decide (ts_state s = TCP_LISTEN)) &&
    (negb (bool_decide (ts_state s = TCP_CONNECT)) || negb ack) = false) as ->.
  { destruct Hst as [E|[E ->]]; rewrite E; reflexivity. }
  cbv zeta. cbn [ts_rxq upd_peer]. rewrite Hq. cbn [deref]. rewrite bind_Ok. eexists. split; [reflexivity|]. cbn [ts_state upd_retr upd_tx_seq upd_rx upd_peer].
  destruct Hst as [E|[E _]]; rewrite E.
  - rewrite decide_True by done. split; [by repeat split|]. split; [by repeat split|discriminate].
  - rewrite decide_False by discriminate. split; [by repeat split|]. split; [discriminate|by repeat split].
Qed.

(** A bare SYN changes nothing but the socket. *)
Lemma receive_syn m now rand sg s rxq :
  syn_segment sg false → ts_rxq s = Some rxq → ts_state s = TCP_LISTEN →
  ∃ s', tcp_receive m now rand sg s = Ok (m, LFSR32_Next rand, s', EOK) ∧
    after_syn now (LFSR32_Next rand) sg rxq s s' ∧ ts_state s' = TCP_ESTABLISHING ∧
    ts_loc_link s' = ts_loc_link s ∧ ts_rem_link s' = ts_rem_link s.
Proof.
  intros Hsg Hq Hst. destruct (on_syn_ok now rand sg s rxq false Hsg Hq (or_introl Hst))
    as (s' & E & Ha & Hl & _). destruct (Hl Hst) as (H1 & H2 & H3).
  destruct Hsg as (_ & Hack & Hrst & Hfin).
  unfold tcp_receive, tcp_on_rst. rewrite Hrst, E, bind_Ok. cbn [negb]. unfold tcp_on_ack, tcp_on_fin.
  rewrite Hack, Hfin. cbn [negb]. rewrite bind_Ok. cbn [negb].
  eexists. split; [reflexivity|]. by split; [|split].
Qed.

(** Nothing is queued: the segment carries flags only. *)
Lemma fill_empty m fr flags s txq :
  ts_txq s = Some txq → byte_queue m txq [] → 0 ≤ fr_size fr → foreign txq (fr_ptr fr) 0 →
  outgoing_fill m fr flags s =
    Ok (m, upd_tx_seq (ts_tx_seq_init s) (ts_tx_seq_start s)
             (if has flags SYN_FIN then u32 (u32 (ts_tx_seq_start s) + 1) else u32 (ts_tx_seq_start s))
             (ts_tx_win s) s, 0, flags).
Proof.
  intros Hq Hb Hn Hf. unfold outgoing_fill. rewrite Hq. cbn [deref]. rewrite bind_Ok.
  assert (take (Z.to_nat (fr_size fr)) ([] : list Z) = []) as Ht by by destruct (Z.to_nat _).
  rewrite (fifo_peek m txq [] (fr_ptr fr) (fr_size fr) Hb Hn); rewrite Ht; [|intros ? ?; simpl in *; lia|done].
  cbn [length put_bytes]. rewrite bind_Ok. change (0 <? Z.of_nat 0) with false. cbv iota zeta.
  by rewrite Z.add_0_r.
Qed.

(** An acknowledgement without data in a socket whose queues are empty. *)
Lemma ack_empty m sg s rxq txq :
  idle_queues m s rxq txq → sg_size sg = 0 → foreign rxq (sg_ptr sg) 0 →
  has (sg_flags sg) SYN_FIN = false →
  is_u32 (ts_rx_seq_recvd s) →
  ∃ m' s1 s' rxq' txq',
    tcp_ack_data m sg s = Ok (m', s1) ∧ tcp_ack_sent sg s1 = Ok s' ∧
    idle_queues m' s' rxq' txq' ∧ ts_state s' = ts_state s ∧
    ts_loc_link s' = ts_loc_link s ∧ ts_rem_link s' = ts_rem_link s ∧
    ts_rx_seq_recvd s' = ts_rx_seq_recvd s ∧
    ts_tx_seq_start s' = u32 (ts_tx_seq_start s + u32 (sg_ack sg - ts_tx_seq_start s)) ∧
    ts_tx_seq_end s' = ts_tx_seq_end s.
Proof.
  intros (Hr & Ht & Br & Bt & Ha) Hsize Hfr Hsf Hrv.
  destruct (ack_data_ok [] m rxq [] sg s []) as (m2 & s2 & rxq2 & j & E2 & Hs2 & Hr2 & Hv2 & _ & Br2 & Hb2 & Hout);
    [done|done|done|by apply Forall_nil_2|done|done| |done|].
  { done. }
  assert (byte_queue m2 txq []) as Bt2.
  { apply (fifo_beside m _ _ _ rxq rxq); [done|by repeat split| |done].
    unfold buffers_apart, foreign in *. lia. }
  destruct Hs2 as [H1 H2 H3 H4 H5 H6].
  destruct (ack_sent_ok [] m2 txq [] sg s2) as (s3 & txq3 & E3 & [H7 H8 H9 H10 H11] & Ht3 & Hb3 & Bt3 & Hst3 & Hen3);
    [congruence|done|].
  exists m2, s2, s3, rxq2, txq3. split; [done|]. split; [done|].
  rewrite take_nil in Br2. rewrite drop_nil in Bt3. cbn [length] in Hv2.
  rewrite Nat.min_0_r, Z.add_0_r, u32_small in Hv2 by done.
  split; [|repeat split; congruence].
  split; [congruence|]. split; [done|]. split; [done|]. split; [done|].
  destruct Hb2 as (P1 & P2 & P3), Hb3 as (P4 & P5 & P6).
  unfold buffers_apart, foreign, q_cap in *. rewrite P1, P2, P3, P4, P5, P6. done.
Qed.


(** ... and the whole reaction of a socket that opens, or is open. *)
Lemma receive_ack_empty m now rand sg s rxq txq :
  plain_segment sg → sg_size sg = 0 → foreign rxq (sg_ptr sg) 0 → ts_state s ≠ TCP_CLOSED → ts_state s ≠ TCP_LISTEN →
  idle_queues m s rxq txq → is_u32 (ts_rx_seq_recvd s) → ack_out_of_range sg s = false →
  tcp_ack_state s = upd_links LINK_OPEN LINK_OPEN (upd_state TCP_ESTABLISHED s) →
  ∃ m' s' rxq' txq', tcp_receive m now rand sg s = Ok (m', rand, s', EOK) ∧
    idle_queues m' s' rxq' txq' ∧ ts_state s' = TCP_ESTABLISHED ∧
    ts_loc_link s' = LINK_OPEN ∧ ts_rem_link s' = LINK_OPEN ∧
    ts_rx_seq_recvd s' = ts_rx_seq_recvd s ∧
    ts_tx_seq_start s' = u32 (ts_tx_seq_start s + u32 (sg_ack sg - ts_tx_seq_start s)) ∧
    ts_tx_seq_end s' = ts_tx_seq_end s.
Proof.
  intros Hp Hsize Hfr Hc Hl Hi Hv Hrange Hst. rewrite receive_ack by done. rewrite Hrange.
  destruct (ack_empty m sg (tcp_ack_state s) rxq txq) as
    (m' & s1 & s' & rxq' & txq' & E1 & E2 & Hq & H1 & H2 & H3 & H4 & H5 & H6);
    [by rewrite Hst|done|done|apply Hp|by rewrite Hst|].
  rewrite E1, bind_Ok, E2, bind_Ok, Hst in *.
  exists m'. eexists. exists rxq', txq'. split; [reflexivity|]. split; [exact Hq|].
  split; [exact H1|]. split; [exact H2|]. split; [exact H3|]. split; [exact H4|]. by split.
Qed.

(** The queues of an established socket with nothing sent make it open. *)
Lemma idle_open m s rxq txq irs iss :
  idle_queues m s rxq txq → ts_state s = TCP_ESTABLISHED → ts_loc_link s = LINK_OPEN →
  ts_rem_link s = LINK_OPEN → ts_rx_seq_recvd s = u32 irs → ts_tx_seq_start s = u32 iss →
  ts_tx_seq_end s = u32 iss → conn_open m s irs iss.
Proof.
  intros (Hr & Ht & Br & Bt & Ha) ???? ? ?. do 3 (split; [done|]). split; [|done]. by exists rxq, txq.
Qed.

Lemma plain_ack sg flags : sg_flags sg = flags → flags = TCPIP_TCP_FLAGS_ACK → plain_segment sg.
Proof. intros E ->. unfold plain_segment. by rewrite E. Qed.

Lemma ack_state_opens s :
  ts_state s = TCP_ESTABLISHING → ts_tx_flags s = SYN_ACK →
  tcp_ack_state s = upd_links LINK_OPEN LINK_OPEN (upd_state TCP_ESTABLISHED s).
Proof.
  intros E1 E2. unfold tcp_ack_state.
  by destruct (decide (ts_state s = TCP_ESTABLISHING ∧ ts_tx_flags s = SYN_ACK)) as [_|[]].
Qed.

(** What a SYN or SYN+ACK that was handed over leaves behind. *)
Lemma handshake_sent now win flags s :
  ts_rem_link s ≠ LINK_CLOSING → ts_tx_seq_end s ≠ ts_tx_seq_start s →
  outgoing_sent now flags win s =
    upd_retr now (u32 (ts_tx_retr_cnt s + 1))
      (upd_rx (ts_rx_seq_recvd s) (ts_rx_seq_recvd s) win (upd_flags (ts_rx_flags s) flags s)).
Proof.
  intros Hl Hn. unfold outgoing_sent. cbn [ts_tx_seq_end ts_tx_seq_start upd_rx upd_flags].
  destruct (Z.eqb_spec (ts_tx_seq_end s) (ts_tx_seq_start s)); [done|]. cbn [negb].
  by rewrite decide_False.
Qed.

(** Passive opening.  A SYN takes a listening socket with empty queues to
    ESTABLISHING, with a fresh random initial number [iss]; what the output side
    then sends is SYN+ACK numbered [iss] that acknowledges the SYN.  The
    acknowledgement [iss + 1] opens the connection exactly behind the two SYNs;
    any acknowledgement but [iss] and [iss + 1] is refused and leaves the
    handshake as it was. *)
Theorem tcp_passive_open m s rxq txq now rand syn fr now1 win now2 rand2 ak :
  ts_state s = TCP_LISTEN → ts_rem_link s = LINK_CLOSED → idle_queues m s rxq txq →
  is_u32 rand → syn_segment syn false →
  0 ≤ fr_size fr → foreign txq (fr_ptr fr) 0 →
  sg_flags ak = TCPIP_TCP_FLAGS_ACK → sg_size ak = 0 → foreign rxq (sg_ptr ak) 0 → is_u32 (sg_ack ak) →
  let iss := LFSR32_Next rand in
  ∃ s1 s2, tcp_receive m now rand syn s = Ok (m, iss, s1, EOK) ∧ ts_state s1 = TCP_ESTABLISHING ∧
    outgoing_flags s1 = Some SYN_ACK ∧ outgoing_fill m fr SYN_ACK s1 = Ok (m, s2, 0, SYN_ACK) ∧
    ts_tx_seq_start s2 = iss ∧ ts_rx_seq_recvd s2 = u32 (sg_seq syn + 1) ∧
    let s3 := outgoing_sent now1 SYN_ACK win s2 in
    (sg_ack ak = u32 (iss + 1) →
      ∃ m' s4, tcp_receive m now2 rand2 ak s3 = Ok (m', rand2, s4, EOK) ∧
        conn_open m' s4 (sg_seq syn + 1) (iss + 1)) ∧
    (sg_ack ak ≠ iss → sg_ack ak ≠ u32 (iss + 1) →
      tcp_receive m now2 rand2 ak s3 = Ok (m, rand2, s3, EFATAL)).
Proof.
  intros Hst Hrem Hq Hrand Hsyn Hfr Hff Hak Hsz Hfa Hau iss. pose proof Hq as (Hr & Ht & Br & Bt & Ha).
  assert (is_u32 iss) as Hiss by by apply LFSR32_u32.
  assert (plain_segment ak) as Hp by by eapply plain_ack.
  destruct (receive_syn m now rand syn s rxq Hsyn Hr Hst) as
    (s1 & E1 & (_ & _ & _ & Hrv & _ & Hs1 & _ & _ & _ & Hr1 & Ht1 & _) & Hst1 & Hl1 & Hrem1).
  fold iss in E1, Hs1. rewrite Ht in Ht1. rewrite Hr in Hr1.
  pose proof (fill_empty m fr SYN_ACK s1 txq Ht1 Bt Hfr Hff) as E2.
  change (has SYN_ACK SYN_FIN) with true in E2. cbv iota in E2. rewrite Hs1, (u32_small iss) in E2 by done.
  exists s1. eexists. split; [done|]. split; [done|]. split; [unfold outgoing_flags; by rewrite Hst1|].
  split; [exact E2|]. split; [done|]. split; [done|]. cbv zeta. clear E1 E2.
  assert (u32 (iss + 1) ≠ iss) as Hne by word_lia.
  rewrite handshake_sent; [|cbn; congruence|done].
  set (s3 := upd_retr _ _ _).
  assert (ack_out_of_range ak s3 = (1 <? u32 (sg_ack ak - iss))) as Hrange.
  { unfold ack_out_of_range, s3. cbn. f_equal. word_lia. }
  assert (ts_state s3 = TCP_ESTABLISHING) as Hst3 by done.
  split.
  - intros E.
    destruct (receive_ack_empty m now2 rand2 ak s3 rxq txq) as
      (m' & s4 & rxq' & txq' & E4 & Hq4 & H1 & H2 & H3 & H4 & H5 & H6);
      [done|done|done|rewrite Hst3; discriminate|rewrite Hst3; discriminate|exact (conj Hr1 (conj Ht1 (conj Br (conj Bt Ha))))| | | |].
    + unfold s3. cbn. rewrite Hrv. apply u32_range.
    + rewrite Hrange, E. apply Z.ltb_ge. word_lia.
    + by apply ack_state_opens.
    + exists m', s4. split; [done|]. unfold s3 in H4, H5, H6. cbn in H4, H5, H6.
      apply (idle_open m' s4 rxq' txq'); [done..|congruence| |done].
      rewrite H5, E. word_lia.
  - intros Hn0 Hn1. rewrite receive_ack by (done || rewrite Hst3; discriminate). rewrite Hrange.
    destruct (Z.ltb_spec 1 (u32 (sg_ack ak - iss))) as [|Hle]; [done|].
    exfalso. assert (u32 (sg_ack ak - iss) = 0 ∨ u32 (sg_ack ak - iss) = 1) as [E|E] by word_lia.
    + apply Hn0. word_lia.
    + apply Hn1. word_lia.
Qed.

(** Active opening.  A socket that connects sends SYN numbered [T], its
    initial number, and no data.  A SYN+ACK that acknowledges [T + 1] establishes
    the connection exactly behind the two SYNs, although the handler first
    overwrites the send counter by a random number. *)
Theorem tcp_active_open m s rxq txq T fr now1 win now2 rand sg :
  ts_state s = TCP_CONNECT → ts_rem_link s = LINK_CLOSED → idle_queues m s rxq txq →
  ts_tx_seq_start s = T → is_u32 T →
  0 ≤ fr_size fr → foreign txq (fr_ptr fr) 0 →
  sg_flags sg = SYN_ACK → is_u32 (sg_seq sg) → sg_ack sg = u32 (T + 1) →
  ∃ s1, outgoing_flags s = Some TCPIP_TCP_FLAGS_SYN ∧
    outgoing_fill m fr TCPIP_TCP_FLAGS_SYN s = Ok (m, s1, 0, TCPIP_TCP_FLAGS_SYN) ∧
    ts_tx_seq_start s1 = T ∧
    ∃ s2, tcp_receive m now2 rand sg (outgoing_sent now1 TCPIP_TCP_FLAGS_SYN win s1)
            = Ok (m, LFSR32_Next rand, s2, EOK) ∧
      conn_open m s2 (sg_seq sg + 1) (T + 1).
Proof.
  intros Hst Hrem Hq HT HTu Hfr Hff Hfl Hsu Hack. pose proof Hq as (Hr & Ht & Br & Bt & Ha).
  pose proof (fill_empty m fr TCPIP_TCP_FLAGS_SYN s txq Ht Bt Hfr Hff) as E2.
  change (has TCPIP_TCP_FLAGS_SYN SYN_FIN) with true in E2. cbv iota in E2. rewrite HT, (u32_small T) in E2 by done.
  eexists. split; [unfold outgoing_flags; by rewrite Hst|]. split; [exact E2|]. split; [done|].
  assert (u32 (T + 1) ≠ T) as Hne by word_lia.
  rewrite handshake_sent by (done || (cbn; congruence)). set (s1 := upd_retr _ _ _).
  assert (syn_segment sg true) as Hsg by (unfold syn_segment; by rewrite Hfl).
  destruct (on_syn_ok now2 rand sg s1 rxq true Hsg Hr (or_intror (conj Hst eq_refl))) as
    (s2 & E & (_ & _ & _ & Hrv & _ & Hs2 & He2 & _ & _ & Hr2 & Ht2 & _) & _ & Hc).
  destruct (Hc Hst) as (Hst2 & Hl2 & Hrem2).
  assert (ack_out_of_range sg s2 = false) as Hrange.
  { unfold ack_out_of_range. rewrite He2, Hs2, Hack. apply Z.ltb_irrefl. }
  assert (tcp_ack_data m sg s2 = Ok (m, upd_rx (ts_rx_seq_recvd s2) (sg_seq sg) (ts_rx_win s2) s2)) as Hd.
  { unfold tcp_ack_data. rewrite Hrv. destruct (Z.eqb_spec (sg_seq sg) (u32 (sg_seq sg + 1))); [word_lia|done]. }
  destruct (ack_sent_ok [] m txq [] sg (upd_rx (ts_rx_seq_recvd s2) (sg_seq sg) (ts_rx_win s2) s2)) as
    (s3 & txq3 & E3 & [H7 H8 H9 H10 H11] & Ht3 & Hb3 & Bt3 & Hst3 & Hen3); [exact (eq_trans Ht2 Ht)|done|].
  rewrite drop_nil in Bt3.
  exists (upd_flags (sg_flags sg) (ts_tx_flags s3) s3). split.
  - unfold tcp_receive, tcp_on_rst. rewrite Hfl. change (has SYN_ACK TCPIP_TCP_FLAGS_RST) with false.
    cbv iota. rewrite E, bind_Ok. cbn [negb]. unfold tcp_on_ack, tcp_on_fin. rewrite Hfl.
    change (has SYN_ACK TCPIP_TCP_FLAGS_ACK) with true. change (has SYN_ACK TCPIP_TCP_FLAGS_FIN) with false.
    cbn [negb]. rewrite decide_False by (rewrite Hst2; intros [|]; discriminate).
    rewrite Hrange, ack_state_open, Hd, bind_Ok, E3 by done. rewrite !bind_Ok. done.
  - apply (idle_open m _ rxq txq3); cbn; rewrite ?H7, ?H8, ?H9, ?H11, ?Hen3; cbn; try done.
    + split; [exact (eq_trans H10 (eq_trans Hr2 Hr))|]. split; [done|]. split; [done|]. split; [done|].
      destruct Hb3 as (P4 & P5 & P6). unfold buffers_apart, foreign, q_cap in *. by rewrite P4, P5, P6.
    + rewrite Hst3, Hack. cbn. word_lia.
Qed.

(** *** Life of a socket *)

(** C11: Whatever a socket has gone through since it was created, its links agree
    with its state: an established socket has both directions open, one that
    listens or opens has none, and a closing socket still has a direction to
    close - it cannot be left over with both closed.  It becomes established only
    by a segment that completes a handshake: a SYN+ACK when it connects, or an
    acknowledgement in range of the SYN+ACK it has sent. *)
Theorem tcp_socket_life s0 s :
  ts_state s0 = TCP_CLOSED → rtc sock_step s0 s →
  links_ok s ∧
  ∀ s', sock_step s s' → ts_state s ≠ TCP_ESTABLISHED → ts_state s' = TCP_ESTABLISHED →
    ∃ m now rand sg m' rand' ec,
      tcp_receive m now rand sg s = Ok (m', rand', s', ec) ∧ handshake sg s.
Proof.
  intros H0 Hr. pose proof (reachable_links _ _ H0 Hr) as Hl. split; [done|].
  intros s' Hs. by apply step_links.
Qed.

Lemma receive_error m now rand sg s m' rand' s' ec :
  tcp_receive m now rand sg s = Ok (m', rand', s', ec) → ec = EOK ∨ ec = EFATAL ∧ m' = m.
Proof.
  unfold tcp_receive. intros E.
  destruct (tcp_on_syn now rand sg _) as [[[s1 r1] ok1]|]; [|discriminate E]. rewrite bind_Ok in E.
  destruct ok1; cbn [negb] in E; [|injection E as <- _ _ <-; by right].
  destruct (tcp_on_ack m sg s1) as [[[m2 s2] ok2]|] eqn:E2; [|discriminate E]. rewrite bind_Ok in E.
  destruct ok2; cbn [negb] in E; [by injection E as _ _ _ <-; left|].
  injection E as <- _ _ <-. right. split; [done|]. revert E2. unfold tcp_on_ack.
  destruct (negb _); [discriminate|]. destruct (decide _); [congruence|].
  destruct (ack_out_of_range _ _); [congruence|]. cbv zeta.
  destruct (tcp_ack_data _ _ _) as [[]|]; [rewrite bind_Ok|discriminate].
  destruct (tcp_ack_sent _ _); discriminate.
Qed.

(** A frame given to the sockets changes only sockets it is addressed to -
    bound to its destination port and, unless they listen, to its source - and
    those by the steps of [tcp_receive]; it ends at the first one that accepts. *)
Theorem tcp_input_addressed m now rand fr l : ∀ m' rand' l' ec,
  process_sockets m now rand fr l = Ok (m', rand', l', ec) →
  Forall2 (λ s s', s' = s ∨ (∃ sg, tcp_match m fr s = Ok (Some sg)) ∧ sock_step s s') l l' ∧
  (ec = EOK ∨ m' = m).
Proof.
  revert rand. induction l as [|s l IH]; intros rand m' rand' l' ec E.
  { injection E as <- _ <- _. split; [constructor|by right]. }
  cbn [process_sockets] in E. unfold TCPIPTcpSock_ProcessIncoming in E.
  destruct (tcp_match m fr s) as [[sg|]|] eqn:Em; [| |discriminate E]; rewrite bind_Ok in E.
  - destruct (tcp_receive m now rand sg s) as [[[[m1 r1] s1] ec1]|] eqn:Er; [|discriminate E].
    rewrite bind_Ok in E.
    assert (sock_step s s1) as Hs.
    { revert Em. unfold tcp_match. destruct (decide _) as [|Hn]; [discriminate|]. intros _.
      apply (step_receive m now rand sg s m1 r1 s1 ec1); [| |done]; intros Hx; apply Hn; by auto. }
    destruct (receive_error _ _ _ _ _ _ _ _ _ Er) as [->|[-> ->]].
    + injection E as <- _ <- <-. split; [|by left]. constructor; [right; split; [by exists sg|done]|].
      apply Forall2_same_length_lookup_2; [done|]. intros i x y Hx Hy. left. congruence.
    + change (EFATAL =? EOK) with false in E.
      destruct (process_sockets m now r1 fr l) as [[[[m2 r2] l2] ec2]|] eqn:El; [|discriminate E].
      rewrite bind_Ok in E. injection E as <- _ <- <-. destruct (IH _ _ _ _ _ El). split; [|done].
      constructor; [right; split; [by exists sg|done]|done].
  - rewrite bind_Ok in E. change (EFATAL =? EOK) with false in E.
    destruct (process_sockets m now rand fr l) as [[[[m2 r2] l2] ec2]|] eqn:El; [|discriminate E].
    rewrite bind_Ok in E. injection E as <- _ <- <-. destruct (IH _ _ _ _ _ El). split; [|done].
    constructor; [by left|done].
Qed.

(** *** Concrete inputs *)

(** Two queues of eight bytes, room for a frame and for the user's data. *)
Definition tcp_demo_mem : mem := put_bytes ∅ 100 (replicate 64 0).
Definition tcp_demo_rxq : queue_t := mk_queue 1 8 100 4294967292 4294967292.
Definition tcp_demo_txq : queue_t := mk_queue 1 8 108 0 0.
Definition tcp_demo_frame : frame := mk_frame 0 120 16 0 0 0 0.

Definition tcp_demo (st : tcp_state) (link : link_state) (recvd start send : Z) : tcp_sock :=
  mk_tcp_sock st link link 80 4000 16777226 (Some tcp_demo_rxq) (Some tcp_demo_txq)
    0 recvd recvd 0 8 0 start send 1000 0 0 0 0.

(** The remote stream starts just below the wrap of the sequence numbers. *)
Definition tcp_demo_open : tcp_sock := tcp_demo TCP_ESTABLISHED LINK_OPEN 4294967294 7 7.

Definition tcp_demo_segment (seq ack flags size : Z) : segment :=
  mk_segment 4000 16777226 seq ack 1000 flags 140 size.

Lemma tcp_demo_mapped p n : 100 ≤ p → p + Z.of_nat n ≤ 164 → mapped tcp_demo_mem p n.
Proof.
  intros H1 H2. apply (mapped_sub _ 100 64); [|lia..].
  apply (bytes_at_mapped _ _ (replicate 64 0)). apply put_bytes_bytes_at.
Qed.

Lemma tcp_demo_queues st link recvd start send :
  idle_queues tcp_demo_mem (tcp_demo st link recvd start send) tcp_demo_rxq tcp_demo_txq.
Proof.
  split; [done|]. split; [done|]. split; [|split].
  - apply byte_queue_empty; [lia|by exists 536870912|done|apply tcp_demo_mapped; lia].
  - apply byte_queue_empty; [lia|by exists 536870912|done|apply tcp_demo_mapped; lia].
  - right. by vm_compute.
Qed.

Definition tcp_demo_stream : list Z := [11; 12; 13; 14].

(** The second half arrives first, then the first half, then the second again. *)
Definition tcp_demo_events : list event :=
  [ EvWrite 130 [1; 2; 3];
    EvSegment 0 0 (tcp_demo_segment 0 7 TCPIP_TCP_FLAGS_ACK 2) [13; 14];
    EvSend tcp_demo_frame 0 8;
    EvSegment 0 0 (tcp_demo_segment 4294967294 8 TCPIP_TCP_FLAGS_ACK 2) [11; 12];
    EvRead 150 1;
    EvSegment 0 0 (tcp_demo_segment 0 10 TCPIP_TCP_FLAGS_ACK 2) [13; 14];
    EvRead 150 8 ].

Lemma tcp_demo_events_ok :
  Forall (event_ok tcp_demo_stream 4294967294 tcp_demo_rxq tcp_demo_txq tcp_demo_mem) tcp_demo_events.
Proof.
  assert (∀ seq ack n off payload, seq = u32 (4294967294 + Z.of_nat off) → n = Z.of_nat (length payload) →
    (off ≤ 4)%nat → slice_of tcp_demo_stream off payload → Forall is_u8 payload →
    (length payload ≤ 8)%nat →
    event_ok tcp_demo_stream 4294967294 tcp_demo_rxq tcp_demo_txq tcp_demo_mem
      (EvSegment 0 0 (tcp_demo_segment seq ack TCPIP_TCP_FLAGS_ACK n) payload)) as Hseg.
  { intros seq ack n off payload -> -> Ho Hs Hu Hl. split; [by eapply plain_ack|]. split; [done|].
    split; [done|]. split; [by exists off|]. split; right; by vm_compute. }
  assert (∀ n, 0 ≤ n ≤ 8 →
    event_ok tcp_demo_stream 4294967294 tcp_demo_rxq tcp_demo_txq tcp_demo_mem (EvRead 150 n)) as Hread.
  { intros n Hn. split; [lia|]. split; [apply tcp_demo_mapped; lia|]. split; right; by vm_compute. }
  repeat apply Forall_cons_2; [| | | | | | |by apply Forall_nil_2].
  - split; [by repeat constructor|]. split; right; by vm_compute.
  - apply (Hseg _ _ _ 2%nat); [done|done|lia|done|by repeat constructor|cbn; lia].
  - split; [done|]. split; [apply tcp_demo_mapped; cbn; lia|]. split; right; by vm_compute.
  - apply (Hseg _ _ _ 0%nat); [done|done|lia|done|by repeat constructor|cbn; lia].
  - apply Hread. lia.
  - apply (Hseg _ _ _ 2%nat); [done|done|lia|done|by repeat constructor|cbn; lia].
  - apply Hread. lia.
Qed.

Lemma tcp_streams_witness :
  ∃ c, conn_run (mk_conn tcp_demo_mem tcp_demo_open [] [] []) tcp_demo_events = Ok c ∧
    ∃ q buf k, ts_rxq (c_sock c) = Some q ∧ byte_queue (c_mem c) q buf ∧
      c_read c ++ buf = take k tcp_demo_stream.
Proof.
  destruct (tcp_streams tcp_demo_mem tcp_demo_open 4294967294 7 tcp_demo_stream tcp_demo_rxq tcp_demo_txq
    tcp_demo_events) as (c & E & (q & buf & k & H1 & H2 & H3 & _) & _).
  - split; [done|]. split; [done|]. split; [done|]. split; [|done].
    exists tcp_demo_rxq, tcp_demo_txq. apply tcp_demo_queues.
  - done.
  - done.
  - by vm_compute.
  - apply tcp_demo_events_ok.
  - exists c. split; [exact E|]. exists q, buf, k. exact (conj H1 (conj H2 H3)).
Defined.

Example tcp_streams_computed :
  match conn_run (mk_conn tcp_demo_mem tcp_demo_open [] [] []) tcp_demo_events with
  | Ok c => c_read c = tcp_demo_stream ∧ c_sent c = [(7, [1; 2; 3])] ∧ ts_tx_seq_start (c_sock c) = 10
  | Fault _ => False
  end.
Proof. vm_compute. done. Qed.

Definition tcp_demo_syn : segment := tcp_demo_segment 41 0 TCPIP_TCP_FLAGS_SYN 0.

Lemma tcp_passive_open_witness :
  let s := tcp_demo TCP_LISTEN LINK_CLOSED 0 0 0 in
  ∃ s1, tcp_receive tcp_demo_mem 5 1 tcp_demo_syn s = Ok (tcp_demo_mem, 2147483648, s1, EOK) ∧
    ts_state s1 = TCP_ESTABLISHING.
Proof.
  destruct (tcp_passive_open tcp_demo_mem (tcp_demo TCP_LISTEN LINK_CLOSED 0 0 0) tcp_demo_rxq tcp_demo_txq
    5 1 tcp_demo_syn tcp_demo_frame 5 8 6 2147483648
    (tcp_demo_segment 42 2147483649 TCPIP_TCP_FLAGS_ACK 0)) as (s1 & s2 & E & H & _).
  - done.
  - done.
  - apply tcp_demo_queues.
  - done.
  - done.
  - done.
  - right. by vm_compute.
  - done.
  - done.
  - right. by vm_compute.
  - done.
  - exists s1. exact (conj E H).
Defined.

Lemma tcp_active_open_witness :
  let s := tcp_demo TCP_CONNECT LINK_CLOSED 0 7 0 in
  ∃ s1, outgoing_fill tcp_demo_mem tcp_demo_frame TCPIP_TCP_FLAGS_SYN s =
          Ok (tcp_demo_mem, s1, 0, TCPIP_TCP_FLAGS_SYN) ∧
    ∃ s2, tcp_receive tcp_demo_mem 6 1 (tcp_demo_segment 41 8 SYN_ACK 0)
            (outgoing_sent 5 TCPIP_TCP_FLAGS_SYN 8 s1) = Ok (tcp_demo_mem, 2147483648, s2, EOK) ∧
      conn_open tcp_demo_mem s2 42 8.
Proof.
  destruct (tcp_active_open tcp_demo_mem (tcp_demo TCP_CONNECT LINK_CLOSED 0 7 0) tcp_demo_rxq tcp_demo_txq
    7 tcp_demo_frame 5 8 6 1 (tcp_demo_segment 41 8 SYN_ACK 0)) as (s1 & _ & E & _ & s2 & H).
  - done.
  - done.
  - apply tcp_demo_queues.
  - done.
  - done.
  - done.
  - right. by vm_compute.
  - done.
  - done.
  - done.
  - exists s1. split; [exact E|]. exists s2. exact H.
Defined.

Definition tcp_demo_closed : tcp_sock := tcp_demo TCP_CLOSED LINK_CLOSED 0 0 0.

Lemma tcp_demo_listens :
  rtc sock_step tcp_demo_closed (upd_flags 0 0 (tcp_demo TCP_LISTEN LINK_CLOSED 0 0 0)).
Proof.
  apply rtc_once. apply (step_listen 80); [by left|]. vm_compute. done.
Qed.

Lemma tcp_socket_life_witness : links_ok (upd_flags 0 0 (tcp_demo TCP_LISTEN LINK_CLOSED 0 0 0)).
Proof. exact (proj1 (tcp_socket_life tcp_demo_closed _ eq_refl tcp_demo_listens)). Defined.

(** A frame for port 80 and a memory that holds its headers. *)
Definition tcp_demo_input : mem :=
  put_bytes tcp_demo_mem 140 [15; 160; 0; 80; 0; 0; 0; 41; 0; 0; 0; 0; 80; 2; 3; 232; 0; 0; 0; 0].

Lemma tcp_input_addressed_witness :
  ∃ m' rand' l' ec,
    process_sockets tcp_demo_input 5 1 (mk_frame 0 160 0 0 0 100 140)
      [tcp_demo_open; tcp_demo TCP_LISTEN LINK_CLOSED 0 0 0] = Ok (m', rand', l', ec) ∧
    (ec = EOK ∨ m' = tcp_demo_input) ∧
    (ts_state <$> l') = [TCP_ESTABLISHED; TCP_ESTABLISHING].
Proof.
  destruct (process_sockets tcp_demo_input 5 1 (mk_frame 0 160 0 0 0 100 140)
      [tcp_demo_open; tcp_demo TCP_LISTEN LINK_CLOSED 0 0 0]) as [[[[m' rand'] l'] ec]|] eqn:E.
  - exists m', rand', l', ec. split; [reflexivity|].
    split; [exact (proj2 (tcp_input_addressed _ _ _ _ _ _ _ _ _ E))|].
    assert (match process_sockets tcp_demo_input 5 1 (mk_frame 0 160 0 0 0 100 140)
              [tcp_demo_open; tcp_demo TCP_LISTEN LINK_CLOSED 0 0 0] with
            | Ok (_, _, l, _) => ts_state <$> l | Fault _ => [] end =
            [TCP_ESTABLISHED; TCP_ESTABLISHING]) as H by (vm_compute; reflexivity).
    rewrite E in H. exact H.
  - exfalso. assert (match process_sockets tcp_demo_input 5 1 (mk_frame 0 160 0 0 0 100 140)
              [tcp_demo_open; tcp_demo TCP_LISTEN LINK_CLOSED 0 0 0] with
            | Ok _ => true | Fault _ => false end = true) as H by (vm_compute; reflexivity).
    rewrite E in H. discriminate H.
Defined.

(** *** Where the code departs from the protocol *)

Definition received (m : mem) (now rand : Z) (sg : segment) (s : tcp_sock) : option (tcp_sock * Z) :=
  match tcp_receive m now rand sg s with Ok (_, _, s', ec) => Some (s', ec) | Fault _ => None end.

(** An acknowledgement that does not cover the SYN completes the handshake; the
    first byte of data is then numbered like the SYN. *)
Example ack_without_syn_establishes :
  let s := upd_flags 0 SYN_ACK (tcp_demo TCP_ESTABLISHING LINK_CLOSED 42 1000 1001) in
  match received tcp_demo_mem 6 1 (tcp_demo_segment 42 1000 TCPIP_TCP_FLAGS_ACK 0) s with
  | Some (s', ec) => ts_state s' = TCP_ESTABLISHED ∧ ts_tx_seq_start s' = 1000 ∧ ec = EOK
  | None => False
  end.
Proof. vm_compute. done. Qed.

(** The answer to a SYN is not checked before the state changes: with an
    acknowledgement out of range the segment is refused, the socket established. *)
Example refused_syn_ack_establishes :
  match received tcp_demo_mem 6 1 (tcp_demo_segment 41 9 SYN_ACK 0) (tcp_demo TCP_CONNECT LINK_CLOSED 0 7 8) with
  | Some (s', ec) => ts_state s' = TCP_ESTABLISHED ∧ ec = EFATAL
  | None => False
  end.
Proof. vm_compute. done. Qed.

(** A reset is accepted whatever its sequence number is ... *)
Example any_reset_closes :
  match received tcp_demo_mem 6 1 (tcp_demo_segment 123456 0 TCPIP_TCP_FLAGS_RST 0) tcp_demo_open with
  | Some (s', ec) => ts_state s' = TCP_CLOSED ∧ ec = EOK
  | None => False
  end.
Proof. vm_compute. done. Qed.

(** ... and does not end the processing: with FIN the socket is not closed. *)
Example reset_with_fin_is_closing :
  let flags := Z.lor TCPIP_TCP_FLAGS_RST TCPIP_TCP_FLAGS_FIN in
  match received tcp_demo_mem 6 1 (tcp_demo_segment 0 0 flags 0) tcp_demo_open with
  | Some (s', ec) => ts_state s' = TCP_CLOSING ∧ ec = EOK
  | None => False
  end.
Proof. vm_compute. done. Qed.

(** A FIN out of sequence closes the connection as well, although data is
    missing. *)
Example early_fin_closes :
  let flags := Z.lor TCPIP_TCP_FLAGS_ACK TCPIP_TCP_FLAGS_FIN in
  match received tcp_demo_mem 6 1 (tcp_demo_segment 100 7 flags 0) tcp_demo_open with
  | Some (s', ec) => ts_state s' = TCP_CLOSING ∧ ts_rx_seq_recvd s' = 4294967294 ∧ ec = EOK
  | None => False
  end.
Proof. vm_compute. done. Qed.

(** A FIN with more payload than the queue can take is counted before the
    payload is: the sequence number is that of the last byte, not of the FIN. *)
Example fin_counted_before_payload :
  let flags := Z.lor TCPIP_TCP_FLAGS_ACK TCPIP_TCP_FLAGS_FIN in
  match received tcp_demo_mem 6 1 (tcp_demo_segment 4294967294 7 flags 9) tcp_demo_open with
  | Some (s', ec) => ts_state s' = TCP_CLOSING ∧ ts_rx_seq_recvd s' = 7 ∧ ec = EOK
  | None => False
  end.
Proof. vm_compute. done. Qed.
