(* ===== verification/Stdio.v ===== *)
(** * Formatted printing and scanning (util/src/stdio.c): format specifiers

    The format specifier block and its parser, the routines that print and scan
    characters, strings and integers.  Floating point is in Double.v, the
    routines that run through a format string in Printf.v.  Strings are in
    memory; [char] is unsigned on this target, [int] and [long] have 32 bits,
    [long long] has 64. *)
From Stdlib Require Import Ascii String.
From S2P Require Import Prelude CString.

(** The code of a character. *)
Definition chr (a : ascii) : Z := Z.of_N (N_of_ascii a).
Arguments chr a%_char_scope.

Definition PARAMETER_NONE : Z := -1.
Definition FLAGS_NONE : Z := 0x00.
Definition FLAGS_MINUS : Z := 0x01.
Definition FLAGS_PLUS : Z := 0x02.
Definition FLAGS_SPACE : Z := 0x04.
Definition FLAGS_ZERO : Z := 0x08.
Definition FLAGS_HASH : Z := 0x10.
Definition WIDTH_NONE : Z := -1.
Definition WIDTH_PARAMETER : Z := -2.
Definition PRECISION_NONE : Z := -1.
Definition PRECISION_PARAMETER : Z := -2.
Definition LENGTH_NONE : Z := 0.
Definition LENGTH_CHAR : Z := 1.
Definition LENGTH_SHORT : Z := 2.
Definition LENGTH_LONG : Z := 3.
Definition LENGTH_LONG_LONG : Z := 4.
Definition LENGTH_LONG_DOUBLE : Z := 5.
Definition LENGTH_SIZE_T : Z := 6.
Definition LENGTH_INTMAX_T : Z := 7.
Definition LENGTH_PTRDIFF_T : Z := 8.
Definition TYPE_NONE : Z := 0.
Definition TYPE_INT : Z := 1.
Definition TYPE_DOUBLE : Z := 2.
Definition TYPE_STR : Z := 3.
Definition TYPE_CHAR : Z := 4.
Definition TYPE_PTR : Z := 5.
Definition TYPE_PRINT_LENGTH : Z := 6.
Definition TYPE_PERCENT : Z := 7.
Definition TYPE_END_OF_STRING : Z := 8.
Definition TYPEMOD_NONE : Z := 0x00.
Definition TYPEMOD_BASE_FROM_PREFIX : Z := 0x01.
Definition TYPEMOD_UNSIGNED : Z := 0x02.
Definition TYPEMOD_CAPITAL : Z := 0x04.
Definition TYPEMOD_HEX : Z := 0x08.
Definition TYPEMOD_OCTAL : Z := 0x10.
Definition TYPEMOD_EXP : Z := 0x20.
Definition TYPEMOD_TRUNC : Z := 0x40.
Definition TYPEMOD_HEXFLOAT : Z := 0x80.

(** [struct fs]. *)
Record fs := mk_fs {
  fs_flags : Z; fs_parameter : Z; fs_width : Z; fs_precision : Z; fs_length : Z;
  fs_type : Z; fs_type_modifiers : Z; fs_next_char : Z
}.

(** Is a bit of [flags] set? *)
Definition flag (flags f : Z) : bool := negb (Z.land flags f =? 0).

(** ** Characters *)

Definition digits : list Z := map chr (String.list_ascii_of_string "0123456789abcdef"%string).

Definition isdigit (c : Z) : bool := (chr "0" <=? c) && (c <=? chr "9").
Definition isxdigit (c : Z) : bool :=
  let c := tolower c in isdigit c || ((chr "a" <=? c) && (c <=? chr "f")).
Definition isspace (c : Z) : bool :=
  (c =? 9) || (c =? 10) || (c =? 11) || (c =? 12) || (c =? 13) || (c =? chr " ").

(** ** The format specifier *)

(** [while (isdigit( *c)) p = p * 10 + *c - '0', c++;]: the number and the end. *)
Fixpoint number_loop (fuel : nat) (m : mem) (p c : Z) : res (Z * Z) :=
  match fuel with
  | O => Fault OutOfFuel
  | S fuel' =>
      x ← load8 m c;
      if isdigit x then
        p ← ck32 (p * 10);
        p ← ck32 (p + x);
        number_loop fuel' m (p - chr "0") (c + 1)
      else Ok (p, c)
  end.

Definition scan_number (m : mem) (c : Z) : res (Z * Z) := number_loop (S (size m)) m 0 c.

(** Each of the following returns a value and the number of characters consumed. *)
Definition fs_process_parameter (m : mem) (format : Z) : res (Z * Z) :=
  x ← load8 m format;
  '(p, c) ←
    (if (chr "1" <=? x) || (x <=? chr "9") then
       '(p, c) ← scan_number m format;
       y ← load8 m c;
       if negb (y =? chr "$") then Ok (PARAMETER_NONE, format) else Ok (p, c + 1)
     else Ok (PARAMETER_NONE, format));
  Ok (p, c - format).

Fixpoint flags_loop (fuel : nat) (m : mem) (f c : Z) : res (Z * Z) :=
  match fuel with
  | O => Fault OutOfFuel
  | S fuel' =>
      x ← load8 m c;
      if x =? chr "-" then flags_loop fuel' m (Z.lor f FLAGS_MINUS) (c + 1)
      else if x =? chr "+" then
        flags_loop fuel' m (Z.land (Z.lor f FLAGS_PLUS) (Z.lnot FLAGS_SPACE)) (c + 1)
      else if x =? chr " " then
        flags_loop fuel' m (if Z.land f FLAGS_PLUS =? 0 then Z.lor f FLAGS_SPACE else f) (c + 1)
      else if x =? chr "0" then flags_loop fuel' m (Z.lor f FLAGS_ZERO) (c + 1)
      else if x =? chr "#" then flags_loop fuel' m (Z.lor f FLAGS_HASH) (c + 1)
      else Ok (f, c)
  end.

Definition fs_process_flags (m : mem) (format : Z) : res (Z * Z) :=
  '(f, c) ← flags_loop (S (size m)) m FLAGS_NONE format; Ok (f, c - format).

Definition fs_process_width (m : mem) (format : Z) : res (Z * Z) :=
  x ← load8 m format;
  if isdigit x then '(w, c) ← scan_number m format; Ok (w, c - format)
  else if x =? chr "*" then Ok (WIDTH_PARAMETER, 1)
  else Ok (WIDTH_NONE, 0).

Definition fs_process_precision (m : mem) (format : Z) : res (Z * Z) :=
  x ← load8 m format;
  if x =? chr "." then
    let c := format + 1 in
    y ← load8 m c;
    if isdigit y then '(p, c) ← scan_number m c; Ok (p, c - format)
    else if y =? chr "*" then Ok (PRECISION_PARAMETER, 2)
    else Ok (PRECISION_NONE, 1)
  else Ok (PRECISION_NONE, 0).

(** The loop of [fs_process_length] has at most two rounds that consume. *)
Fixpoint length_loop (fuel : nat) (m : mem) (l c : Z) : res (Z * Z) :=
  match fuel with
  | O => Fault OutOfFuel
  | S fuel' =>
      x ← load8 m c;
      if x =? chr "h" then
        if l =? LENGTH_NONE then length_loop fuel' m LENGTH_SHORT (c + 1)
        else if l =? LENGTH_SHORT then Ok (LENGTH_CHAR, c + 1)
        else Ok (l, c)
      else if x =? chr "l" then
        if l =? LENGTH_NONE then length_loop fuel' m LENGTH_LONG (c + 1)
        else if l =? LENGTH_LONG then Ok (LENGTH_LONG_LONG, c + 1)
        else Ok (l, c)
      else if x =? chr "L" then Ok (if l =? LENGTH_NONE then (LENGTH_LONG_DOUBLE, c + 1) else (l, c))
      else if x =? chr "z" then Ok (if l =? LENGTH_NONE then (LENGTH_SIZE_T, c + 1) else (l, c))
      else if x =? chr "j" then Ok (if l =? LENGTH_NONE then (LENGTH_INTMAX_T, c + 1) else (l, c))
      else if x =? chr "t" then Ok (if l =? LENGTH_NONE then (LENGTH_PTRDIFF_T, c + 1) else (l, c))
      else Ok (l, c)
  end.

Definition fs_process_length (m : mem) (format : Z) : res (Z * Z) :=
  '(l, c) ← length_loop 3 m LENGTH_NONE format; Ok (l, c - format).

(** Type, modifiers and characters consumed. *)
Definition type_of_char (x : Z) : Z * Z * Z :=
  if x =? chr "d" then (TYPE_INT, TYPEMOD_NONE, 1)
  else if x =? chr "i" then (TYPE_INT, TYPEMOD_BASE_FROM_PREFIX, 1)
  else if x =? chr "u" then (TYPE_INT, TYPEMOD_UNSIGNED, 1)
  else if x =? chr "x" then (TYPE_INT, Z.lor TYPEMOD_UNSIGNED TYPEMOD_HEX, 1)
  else if x =? chr "X" then (TYPE_INT, Z.lor (Z.lor TYPEMOD_UNSIGNED TYPEMOD_HEX) TYPEMOD_CAPITAL, 1)
  else if x =? chr "o" then (TYPE_INT, Z.lor TYPEMOD_UNSIGNED TYPEMOD_OCTAL, 1)
  else if x =? chr "f" then (TYPE_DOUBLE, TYPEMOD_NONE, 1)
  else if x =? chr "F" then (TYPE_DOUBLE, TYPEMOD_CAPITAL, 1)
  else if x =? chr "e" then (TYPE_DOUBLE, TYPEMOD_EXP, 1)
  else if x =? chr "E" then (TYPE_DOUBLE, Z.lor TYPEMOD_EXP TYPEMOD_CAPITAL, 1)
  else if x =? chr "g" then (TYPE_DOUBLE, TYPEMOD_TRUNC, 1)
  else if x =? chr "G" then (TYPE_DOUBLE, Z.lor TYPEMOD_TRUNC TYPEMOD_CAPITAL, 1)
  else if x =? chr "A" then (TYPE_DOUBLE, Z.lor TYPEMOD_HEXFLOAT TYPEMOD_CAPITAL, 1)
  else if x =? chr "a" then (TYPE_DOUBLE, TYPEMOD_HEXFLOAT, 1)
  else if x =? chr "s" then (TYPE_STR, TYPEMOD_NONE, 1)
  else if x =? chr "c" then (TYPE_CHAR, TYPEMOD_NONE, 1)
  else if x =? chr "p" then (TYPE_PTR, TYPEMOD_NONE, 1)
  else if x =? chr "n" then (TYPE_PRINT_LENGTH, TYPEMOD_NONE, 1)
  else if x =? chr "%" then (TYPE_PERCENT, TYPEMOD_NONE, 1)
  else if x =? 0 then (TYPE_END_OF_STRING, TYPEMOD_NONE, 0)
  else (TYPE_NONE, TYPEMOD_NONE, 0).

Definition fs_process_type (m : mem) (format : Z) : res (Z * Z * Z) :=
  x ← load8 m format; Ok (type_of_char x).

Definition fs_process_next_char (m : mem) (format : Z) : res Z := load8 m format.

Definition fs_process (m : mem) (format : Z) : res (fs * Z) :=
  let c := format in
  '(parameter, k) ← fs_process_parameter m c; let c := c + k in
  '(flags, k) ← fs_process_flags m c; let c := c + k in
  '(width, k) ← fs_process_width m c; let c := c + k in
  '(precision, k) ← fs_process_precision m c; let c := c + k in
  '(length, k) ← fs_process_length m c; let c := c + k in
  '(type, type_modifiers, k) ← fs_process_type m c; let c := c + k in
  next_char ← fs_process_next_char m c;
  Ok (mk_fs flags parameter width precision length type type_modifiers next_char, c - format).

(** ** Printing *)

(** [*d++ = c] for each character of [l]; [d] at the end. *)
Fixpoint put_chars (m : mem) (d : Z) (l : list Z) : res (mem * Z) :=
  match l with
  | [] => Ok (m, d)
  | c :: l' => m ← store8 m d c; put_chars m (d + 1) l'
  end.

(** [while (size && char_num) *d++ = *s, size--, char_num--;] *)
Fixpoint repeat_loop (fuel : nat) (m : mem) (d size char_num c : Z) : res (mem * Z) :=
  match fuel with
  | O => Fault OutOfFuel
  | S fuel' =>
      if negb (size =? 0) && negb (char_num =? 0) then
        m ← store8 m d c; repeat_loop fuel' m (d + 1) (size - 1) (char_num - 1) c
      else Ok (m, d)
  end.

Definition print_char (m : mem) (dst sz val : Z) (f : fs) : res (mem * Z) :=
  let char_num := if negb (fs_precision f =? PRECISION_NONE) then u32 (fs_precision f) else 1 in
  '(m, d) ← repeat_loop (S (size m)) m dst sz char_num val;
  Ok (m, d - dst).

(** [for (; *s && len; len--) *d++ = *s++;] *)
Fixpoint str_loop (fuel : nat) (m : mem) (d s len : Z) : res (mem * Z) :=
  match fuel with
  | O => Fault OutOfFuel
  | S fuel' =>
      c ← load8 m s;
      if negb (c =? 0) && negb (len =? 0) then
        m ← store8 m d c; str_loop fuel' m (d + 1) (s + 1) (len - 1)
      else Ok (m, d)
  end.

Definition print_str (m : mem) (dst sz val : Z) (f : fs) : res (mem * Z) :=
  let len := if negb (fs_precision f =? PRECISION_NONE) then u32 (fs_precision f) else sz in
  let len := if sz <? len then sz else len in
  '(m, d) ← str_loop (S (size m)) m dst val len;
  Ok (m, d - dst).

(** The members of the union of integers, from the bytes of the argument. *)
Definition sext (w v : Z) : Z := (v + 2 ^ (w - 1)) mod 2 ^ w - 2 ^ (w - 1).
Definition val_c (v : Z) : Z := u8 v.
Definition val_s (v : Z) : Z := sext 16 v.
Definition val_i (v : Z) : Z := sext 32 v.
Definition val_l (v : Z) : Z := sext 32 v.
Definition val_ll (v : Z) : Z := sext 64 v.

Definition NUM_SIZE : Z := 64 / 3 + 1 + 2 + 1.

(** [do { *--n = digits[v % b]; v /= b; } while (v);] with what [num] holds
    from [n] on. *)
Fixpoint digit_loop (fuel : nat) (v b : Z) (num : list Z) : res (list Z) :=
  match fuel with
  | O => Fault OutOfFuel
  | S fuel' =>
      if NUM_SIZE <=? length num then Fault OutOfBounds
      else
        let num := digits !!! Z.to_nat (v mod b) :: num in
        let v := v / b in
        if v =? 0 then Ok num else digit_loop fuel' v b num
  end.

Definition int_base (f : fs) : Z := if flag (fs_type_modifiers f) TYPEMOD_HEX then 16 else 10.

Definition int_negative (v : Z) (f : fs) : bool :=
  if flag (fs_type_modifiers f) TYPEMOD_UNSIGNED then false
  else if fs_length f =? LENGTH_LONG_LONG then val_ll v <? 0
  else if fs_length f =? LENGTH_LONG then val_l v <? 0
  else if fs_length f =? LENGTH_SHORT then val_s v <? 0
  else if fs_length f =? LENGTH_CHAR then sext 8 (val_c v) <? 0
  else val_i v <? 0.

(** The value that is printed.  The cases for [short] and [char] differ:
    [-(short)v] is sign-extended, [-(char)v] is not.  The negation of the most
    negative [long] or [long long], which C leaves undefined, wraps round. *)
Definition int_magnitude (v : Z) (f : fs) : Z :=
  let negative := int_negative v f in
  if fs_length f =? LENGTH_LONG_LONG then u64 (if negative then - val_ll v else val_ll v)
  else if fs_length f =? LENGTH_LONG then u32 (if negative then - val_l v else val_l v)
  else
    let u := u32 (val_i v) in
    if fs_length f =? LENGTH_SHORT then u32 (if negative then - sext 16 u else u16 u)
    else if fs_length f =? LENGTH_CHAR then u32 (if negative then - u8 u else u8 u)
    else if negative then u32 (- u) else u.

Definition int_prefix (v : Z) (f : fs) : list Z :=
  if int_negative v f then [chr "-"]
  else if negb (flag (fs_type_modifiers f) TYPEMOD_UNSIGNED) then
    if flag (fs_flags f) FLAGS_PLUS then [chr "+"]
    else if flag (fs_flags f) FLAGS_SPACE then [chr " "]
    else []
  else if flag (fs_flags f) FLAGS_HASH && (int_base f =? 16) then [chr "0"; chr "x"]
  else [].

(** Lengths of the leading zeros and of the leading space. *)
Definition int_padding (n_len p_len : Z) (f : fs) : res (Z * Z) :=
  lz_len ← (if negb (fs_precision f =? PRECISION_NONE)
            then d ← ck32 (fs_precision f - n_len); Ok (Z.max d 0) else Ok 0);
  if negb (fs_width f =? WIDTH_NONE) then
    if flag (fs_flags f) FLAGS_ZERO && (fs_precision f =? PRECISION_NONE) then
      d ← ck32 (fs_width f - (n_len + p_len)); Ok (Z.max d 0, 0)
    else
      sum ← ck32 (n_len + p_len + lz_len);
      d ← ck32 (fs_width f - sum); Ok (lz_len, Z.max d 0)
  else Ok (lz_len, 0).

(** What does not fit is cut off from the end. *)
Definition int_limit (ls_len p_len lz_len n_len sz : Z) : Z * Z * Z * Z :=
  let print_len := u32 (ls_len + p_len + lz_len + n_len) in
  if sz <? print_len then
    let n_len := s32 (n_len - u32 (print_len - sz)) in
    let '(lz_len, n_len) := if n_len <? 0 then (lz_len + n_len, 0) else (lz_len, n_len) in
    let '(p_len, lz_len) := if lz_len <? 0 then (p_len + lz_len, 0) else (p_len, lz_len) in
    let '(ls_len, lz_len) := if p_len <? 0 then (ls_len + p_len, 0) else (ls_len, lz_len) in
    (ls_len, p_len, lz_len, n_len)
  else (ls_len, p_len, lz_len, n_len).

(** [v] are the bytes the pointer points to, as a number. *)
Definition print_int (m : mem) (dst sz v : Z) (f : fs) : res (mem * Z) :=
  num ← digit_loop 64 (int_magnitude v f) (int_base f) [];
  let n_len := Z.of_nat (length num) in
  let prefix := int_prefix v f in
  let p_len := Z.of_nat (length prefix) in
  '(lz_len, ls_len) ← int_padding n_len p_len f;
  _ ← ck32 (ls_len + p_len + lz_len + n_len);
  let '(ls_len, p_len, lz_len, n_len) := int_limit ls_len p_len lz_len n_len sz in
  '(m, d) ← put_chars m dst (replicate (Z.to_nat ls_len) (chr " "));
  '(m, d) ← put_chars m d (take (Z.to_nat p_len) prefix);
  '(m, d) ← put_chars m d (replicate (Z.to_nat lz_len) (chr "0"));
  '(m, d) ← put_chars m d (take (Z.to_nat n_len) num);
  Ok (m, d - dst).

(** ** Scanning

    Each routine returns the number of characters consumed, negative for an
    error; [val] is the address of the destination, zero to discard the value. *)

(** [while (char_num && isspace( *s)) s++;] *)
Fixpoint eos_loop (fuel : nat) (m : mem) (s char_num : Z) : res Z :=
  match fuel with
  | O => Fault OutOfFuel
  | S fuel' =>
      if char_num =? 0 then Ok s
      else c ← load8 m s; if isspace c then eos_loop fuel' m (s + 1) char_num else Ok s
  end.

Definition scan_eos (m : mem) (str sz : Z) (f : fs) : res Z :=
  let char_num := if negb (fs_precision f =? PRECISION_NONE) then u32 (fs_precision f) else 1 in
  let char_num := if sz <? char_num then sz else char_num in
  s ← eos_loop (S (size m)) m str char_num;
  c ← load8 m s;
  Ok (if c =? 0 then s - str else -1).

(** The result has the end of the source and what is left of [char_num]. *)
Fixpoint chars_loop (fuel : nat) (m : mem) (d s sz char_num : Z) : res (mem * Z * Z) :=
  match fuel with
  | O => Fault OutOfFuel
  | S fuel' =>
      if negb (sz =? 0) && negb (char_num =? 0) && negb (s =? 0) then
        c ← load8 m s; m ← store8 m d c;
        chars_loop fuel' m (d + 1) (s + 1) (sz - 1) (char_num - 1)
      else Ok (m, s, char_num)
  end.

(** Without a destination nothing is read, only counted. *)
Definition scan_char (m : mem) (str sz val : Z) (f : fs) : res (mem * Z) :=
  let char_num := if negb (fs_precision f =? PRECISION_NONE) then u32 (fs_precision f) else 1 in
  if negb (val =? 0) then
    '(m, s, char_num) ← chars_loop (S (size m)) m val str sz char_num;
    Ok (m, if char_num =? 0 then s - str else -1)
  else if (str =? 0) && negb (char_num =? 0) then Ok (m, -1)
  else Ok (m, if sz <? char_num then -1 else char_num).

(** [for (; size && *s && isspace( *s); s++, size--);] *)
Fixpoint space_loop (fuel : nat) (m : mem) (s sz : Z) : res (Z * Z) :=
  match fuel with
  | O => Fault OutOfFuel
  | S fuel' =>
      if sz =? 0 then Ok (s, sz)
      else
        c ← load8 m s;
        if negb (c =? 0) && isspace c then space_loop fuel' m (s + 1) (sz - 1) else Ok (s, sz)
  end.

(** What a character of a string does: end the loop (with the number of
    characters it consumes), or go on, possibly with a character to store. *)
Inductive str_act := StrBreak (consumed : Z) | StrNext (in_quotes esc : bool) (store : option Z).

Definition str_step (c next_char len : Z) (in_quotes esc : bool) : str_act :=
  if esc then
    if (c =? next_char) && negb in_quotes then StrBreak 0 else StrNext in_quotes false (Some c)
  else if c =? 92 then StrNext in_quotes true None
  else if c =? 34 then
    if in_quotes then StrBreak 1
    else if len =? 0 then StrNext true false None
    else if c =? next_char then StrBreak 0
    else StrNext in_quotes false (Some c)
  else if isspace c || (c =? next_char) then
    if negb in_quotes then StrBreak 0 else StrNext in_quotes false (Some c)
  else StrNext in_quotes false (Some c).

Fixpoint scan_str_loop (fuel : nat) (m : mem) (d s val max_len next_char len : Z) (in_quotes esc : bool)
  : res (mem * Z * Z) :=
  match fuel with
  | O => Fault OutOfFuel
  | S fuel' =>
      c ← load8 m s;
      if c =? 0 then Ok (m, d, s)
      else
        match str_step c next_char len in_quotes esc with
        | StrBreak k => Ok (m, d, s + k)
        | StrNext in_quotes esc store =>
            match store with
            | Some x =>
                if negb (val =? 0) && negb (max_len =? 0) then
                  m ← store8 m d x;
                  scan_str_loop fuel' m (d + 1) (s + 1) val (max_len - 1) next_char (len + 1) in_quotes esc
                else scan_str_loop fuel' m d (s + 1) val max_len next_char (len + 1) in_quotes esc
            | None => scan_str_loop fuel' m d (s + 1) val max_len next_char (len + 1) in_quotes esc
            end
        end
  end.

(** The size limits what is stored, not what is read. *)
Definition scan_str (m : mem) (str sz val : Z) (f : fs) : res (mem * Z) :=
  '(s, sz) ← space_loop (S (size m)) m str sz;
  max_len ←
    (if negb (fs_precision f =? PRECISION_NONE) then
       p ← ck32 (fs_precision f - 1); Ok (Z.min (Z.max p 0) sz)
     else Ok sz);
  '(m, d, s) ← scan_str_loop (S (size m)) m val s val max_len (fs_next_char f) 0 false false;
  m ← (if negb (val =? 0) then store8 m d 0 else Ok m);
  Ok (m, s - str).

(** *** Integers *)

Inductive int_state := I_SIGN | I_PREFIX | I_INT | I_END | I_ERR.
#[export] Instance int_state_eq_dec : EqDecision int_state.
Proof. solve_decision. Defined.

(** The locals of [scan_int] that change in its loop. *)
Record int_scan := mk_int_scan {
  is_state : int_state; is_base : Z; is_sign : Z; is_digit_num : Z; is_buf : list Z
}.

(** The value of a digit: no digit below the letters is excluded. *)
Definition digit_value (c : Z) : Z := if isdigit c then c - chr "0" else c - chr "a" + 10.

Definition is_base_digit (base v : Z) : bool := u32 v <? u32 base.

Definition SCAN_BUF : Z := 30.

(** One round: the new locals and [advance]. *)
Definition int_step (tm : Z) (c : Z) (eos : bool) (st : int_scan) : int_scan * Z :=
  let '(mk_int_scan state base sign digit_num buf) := st in
  let buf_len := Z.of_nat (length buf) in
  match state with
  | I_SIGN =>
      if eos then (mk_int_scan I_ERR base sign digit_num buf, 0)
      else
        let next := if flag tm (Z.lor TYPEMOD_HEX TYPEMOD_BASE_FROM_PREFIX) then I_PREFIX else I_INT in
        if (c =? chr "+") || (c =? chr "-") then
          (mk_int_scan next base (if c =? chr "+" then 1 else -1) digit_num buf, 1)
        else (mk_int_scan next base sign digit_num buf, 0)
  | I_PREFIX =>
      if eos then (mk_int_scan I_INT (if base =? 0 then 10 else base) sign digit_num [], - buf_len)
      else
        match buf with
        | [b0] =>
            let prefix_base :=
              if (b0 =? chr "0") && (c =? chr "x") then 16
              else if (b0 =? chr "0") && (c =? chr "b") then 2 else 0 in
            let advance :=
              if (prefix_base =? 0) || (negb (base =? 0) && negb (prefix_base =? base)) then 1 - 2 else 1 in
            let base := if base =? 0 then (if negb (prefix_base =? 0) then prefix_base else 10) else base in
            (mk_int_scan I_INT base sign digit_num [], advance)
        | _ => (mk_int_scan I_PREFIX base sign digit_num (buf ++ [c]), 1)
        end
  | I_INT =>
      let v := digit_value c in
      if eos then
        (mk_int_scan (if negb (digit_num =? 0) then I_END else I_ERR) base sign digit_num buf, 0)
      else if is_base_digit base v then
        let buf := if (negb (v =? 0) || negb (buf_len =? 0)) && (buf_len <? SCAN_BUF) then buf ++ [v] else buf in
        (mk_int_scan I_INT base sign (digit_num + 1) buf, 1)
      else if negb (digit_num =? 0) then (mk_int_scan I_END base sign digit_num buf, 0)
      else (mk_int_scan I_ERR base sign digit_num buf, 0)
  | I_END | I_ERR => (st, 0)
  end.

Fixpoint scan_int_loop (fuel : nat) (m : mem) (tm s sz : Z) (st : int_scan) : res (int_scan * Z) :=
  match fuel with
  | O => Fault OutOfFuel
  | S fuel' =>
      if decide (is_state st = I_END ∨ is_state st = I_ERR) then Ok (st, s)
      else
        x ← load8 m s;
        let c := tolower x in
        let eos := (c =? 0) || (sz =? 0) in
        let '(st, advance) := int_step tm c eos st in
        scan_int_loop fuel' m tm (s + advance) (u32 (sz - advance)) st
  end.

Definition scan_base (tm : Z) : Z :=
  let k := Z.land tm (Z.lor (Z.lor TYPEMOD_HEX TYPEMOD_OCTAL) TYPEMOD_BASE_FROM_PREFIX) in
  if k =? TYPEMOD_HEX then 16
  else if k =? TYPEMOD_OCTAL then 8
  else if k =? TYPEMOD_BASE_FROM_PREFIX then 0
  else 10.

(** The number in the buffer, with its sign, as [unsigned long long]. *)
Definition scan_value (st : int_scan) : Z :=
  let ull := foldl (λ ull v, u64 (ull * is_base st + v)) 0 (is_buf st) in
  if is_sign st =? -1 then u64 (- ull) else ull.

(** The store of the result; the one for [char] writes a [long]. *)
Definition store_scanned (m : mem) (val v : Z) (f : fs) : res mem :=
  if fs_length f =? LENGTH_LONG_LONG then
    m ← store32 m val v; store32 m (val + 4) (v / 4294967296)
  else if fs_length f =? LENGTH_SHORT then store16 m val v
  else store32 m val v.

Definition scan_int (m : mem) (str sz val : Z) (f : fs) : res (mem * Z) :=
  '(s, sz) ← space_loop (S (size m)) m str sz;
  let sz := if negb (fs_precision f =? PRECISION_NONE) then Z.min (u32 (fs_precision f)) sz else sz in
  let tm := fs_type_modifiers f in
  '(st, s) ← scan_int_loop (6 + size m) m tm s sz (mk_int_scan I_SIGN (scan_base tm) 0 0 []);
  if (val =? 0) || bool_decide (is_state st = I_ERR) then
    Ok (m, if decide (is_state st = I_ERR) then -1 else s - str)
  else
    m ← store_scanned m val (scan_value st) f;
    Ok (m, s - str).
