(* ===== verification/Double.v ===== *)
(** * Printing and scanning of floating-point numbers (util/src/stdio.c)

    [float] and [double] are the binary32 and binary64 numbers of the Standard
    Library's [SpecFloat], rounded to nearest even as by the FPU and by the
    run-time library; [long double] is [double] on this target.  The functions of
    libm that [print_double] calls are parameters. *)
From Stdlib Require Import SpecFloat Ascii.
From S2P Require Import Prelude CString Stdio.

Abbreviation fp := spec_float.

(** *** The arithmetic of C *)

Abbreviation f32_mul := (SFmul 24 128).
Abbreviation f32_div := (SFdiv 24 128).
Abbreviation f64_mul := (SFmul 53 1024).
Abbreviation f64_div := (SFdiv 53 1024).
Abbreviation f64_add := (SFadd 53 1024).

Definition f32_of_int (z : Z) : fp := binary_normalize 24 128 z 0 false.
Definition f64_of_int (z : Z) : fp := binary_normalize 53 1024 z 0 false.

(** [(float)x]. *)
Definition f32_of_f64 (x : fp) : fp :=
  match x with
  | S754_finite s m e => binary_normalize 24 128 (if s then Z.neg m else Z.pos m) e false
  | _ => x
  end.

(** [(int)x], undefined when the truncated value does not fit. *)
Definition int_of_fp (x : fp) : res Z :=
  match x with
  | S754_zero _ => Ok 0
  | S754_finite s m e =>
      let v := if 0 <=? e then Z.pos m * 2 ^ e else Z.pos m / 2 ^ (- e) in
      ck32 (if s then - v else v)
  | _ => Fault Overflow
  end.

(** The object representation: significand field of [mw] bits, exponent of [ew]. *)
Definition fp_bits (mw ew : Z) (x : fp) : Z :=
  let sign (s : bool) := if s then 2 ^ (mw + ew) else 0 in
  let bias := 2 ^ (ew - 1) - 1 + mw in
  match x with
  | S754_zero s => sign s
  | S754_infinity s => sign s + (2 ^ ew - 1) * 2 ^ mw
  | S754_nan => (2 ^ ew - 1) * 2 ^ mw + 2 ^ (mw - 1)
  | S754_finite s m e =>
      if 2 ^ mw <=? Z.pos m then sign s + (e + bias) * 2 ^ mw + (Z.pos m - 2 ^ mw)
      else sign s + Z.pos m
  end.
Definition f32_bits : fp → Z := fp_bits 23 8.
Definition f64_bits : fp → Z := fp_bits 52 11.

Definition fp_isnan (x : fp) : bool := match x with S754_nan => true | _ => false end.
Definition fp_isinf (x : fp) : bool := match x with S754_infinity _ => true | _ => false end.

(** ** [scan_double] *)

Inductive dbl_state :=
| D_SIGN | D_SPECIAL | D_PREFIX | D_INT | D_FRAC | D_EXP_SIGN | D_EXP_INT | D_END | D_ERR.
#[export] Instance dbl_state_eq_dec : EqDecision dbl_state.
Proof. solve_decision. Defined.

(** The locals that change in the loop. *)
Record dbl_scan := mk_dbl_scan {
  ds_state : dbl_state; ds_sign : Z; ds_base : Z; ds_exp_sign : Z; ds_exp_val : Z; ds_e : Z;
  ds_is_nan : bool; ds_is_inf : bool; ds_digit_num : Z; ds_buf : list Z
}.

Definition dbl_start : dbl_scan := mk_dbl_scan D_SIGN 0 10 0 0 0 false false 0 [].

Definition DBL_BUF : Z := 64.

Definition is_text (buf : list Z) (a b c : ascii) : bool := bool_decide (buf = [chr a; chr b; chr c]).

(** One round: the new locals and [advance]. *)
Definition dbl_step (tm c : Z) (eos : bool) (st : dbl_scan) : res (dbl_scan * Z) :=
  let '(mk_dbl_scan state sign base exp_sign exp_val e is_nan is_inf digit_num buf) := st in
  let buf_len := Z.of_nat (length buf) in
  let v := digit_value c in
  match state with
  | D_SIGN =>
      let '(advance, sign) :=
        if negb eos && ((c =? chr "+") || (c =? chr "-")) then (1, if c =? chr "+" then 1 else -1)
        else (0, sign) in
      Ok (mk_dbl_scan D_SPECIAL sign base exp_sign exp_val e is_nan is_inf digit_num buf, advance)
  | D_SPECIAL =>
      if eos then
        Ok (mk_dbl_scan D_PREFIX sign base exp_sign exp_val e is_nan is_inf digit_num [], - buf_len)
      else
        let buf := buf ++ [c] in
        if is_text buf "i" "n" "f" then
          Ok (mk_dbl_scan D_END sign base exp_sign exp_val e is_nan true digit_num buf, 1)
        else if is_text buf "n" "a" "n" then
          Ok (mk_dbl_scan D_END sign base exp_sign exp_val e true is_inf digit_num buf, 1)
        else if (length buf =? 3)%nat then
          Ok (mk_dbl_scan D_PREFIX sign base exp_sign exp_val e is_nan is_inf digit_num [], 1 - 3)
        else Ok (mk_dbl_scan D_SPECIAL sign base exp_sign exp_val e is_nan is_inf digit_num buf, 1)
  | D_PREFIX =>
      if negb (flag tm TYPEMOD_HEXFLOAT) then
        Ok (mk_dbl_scan D_INT sign base exp_sign exp_val e is_nan is_inf digit_num buf, 0)
      else if eos then
        Ok (mk_dbl_scan D_INT sign base exp_sign exp_val e is_nan is_inf digit_num [], - buf_len)
      else
        let buf := buf ++ [c] in
        if (length buf =? 2)%nat then
          let '(base, advance) := if bool_decide (buf = [chr "0"; chr "x"]) then (16, 1) else (base, 1 - 2) in
          Ok (mk_dbl_scan D_INT sign base exp_sign exp_val e is_nan is_inf digit_num [], advance)
        else Ok (mk_dbl_scan D_PREFIX sign base exp_sign exp_val e is_nan is_inf digit_num buf, 1)
  | D_INT | D_FRAC =>
      if eos then
        Ok (mk_dbl_scan D_END sign base exp_sign exp_val e is_nan is_inf digit_num buf, 0)
      else if is_base_digit base v then
        let '(buf, e) :=
          if negb (v =? 0) || negb (buf_len =? 0) then
            (if buf_len <? DBL_BUF then buf ++ [v] else buf, if decide (state = D_INT) then e + 1 else e)
          else (buf, if decide (state = D_FRAC) then e - 1 else e) in
        Ok (mk_dbl_scan state sign base exp_sign exp_val e is_nan is_inf (digit_num + 1) buf, 1)
      else if negb (bool_decide (state = D_FRAC)) && (c =? chr ".") then
        Ok (mk_dbl_scan D_FRAC sign base exp_sign exp_val e is_nan is_inf digit_num buf, 1)
      else if (((base =? 10) && (c =? chr "e") && flag tm (Z.lor TYPEMOD_EXP TYPEMOD_HEXFLOAT)) ||
               ((base =? 16) && (c =? chr "p"))) && negb (digit_num =? 0) then
        Ok (mk_dbl_scan D_EXP_SIGN sign base exp_sign exp_val e is_nan is_inf digit_num buf, 1)
      else
        Ok (mk_dbl_scan (if negb (digit_num =? 0) then D_END else D_ERR)
              sign base exp_sign exp_val e is_nan is_inf digit_num buf, 0)
  | D_EXP_SIGN =>
      let '(advance, exp_sign) :=
        if negb eos && ((c =? chr "+") || (c =? chr "-")) then (1, if c =? chr "+" then 1 else -1)
        else (0, exp_sign) in
      Ok (mk_dbl_scan D_EXP_INT sign base exp_sign exp_val e is_nan is_inf 0 buf, advance)
  | D_EXP_INT =>
      if negb eos && isdigit c then
        x ← ck32 (exp_val * 10);
        exp_val ← ck32 (x + v);
        Ok (mk_dbl_scan D_EXP_INT sign base exp_sign exp_val e is_nan is_inf (digit_num + 1) buf, 1)
      else if negb (digit_num =? 0) then
        Ok (mk_dbl_scan D_END sign base exp_sign exp_val e is_nan is_inf digit_num buf, 0)
      else if flag tm TYPEMOD_EXP then
        Ok (mk_dbl_scan D_ERR sign base exp_sign exp_val e is_nan is_inf digit_num buf, 0)
      else
        Ok (mk_dbl_scan D_END sign base exp_sign exp_val e is_nan is_inf digit_num buf,
            if negb (exp_sign =? 0) then -2 else -1)
  | D_END | D_ERR => Ok (st, 0)
  end.

Fixpoint scan_double_loop (fuel : nat) (m : mem) (tm s sz : Z) (st : dbl_scan) : res (dbl_scan * Z) :=
  match fuel with
  | O => Fault OutOfFuel
  | S fuel' =>
      if decide (ds_state st = D_END ∨ ds_state st = D_ERR) then Ok (st, s)
      else
        x ← load8 m s;
        let c := tolower x in
        '(st, advance) ← dbl_step tm c ((c =? 0) || (sz =? 0)) st;
        scan_double_loop fuel' m tm (s + advance) (u32 (sz - advance)) st
  end.

(** [for (e_abs; e_abs; p *= p, e_abs >>= 1) if (e_abs & 1) base_e *= p;] *)
Fixpoint power_loop (e_abs : positive) (p base_e : fp) : fp :=
  match e_abs with
  | xH => f64_mul base_e p
  | xO e' => power_loop e' (f64_mul p p) base_e
  | xI e' => power_loop e' (f64_mul p p) (f64_mul base_e p)
  end.

(** [result += buf[i] * base_e, base_e *= base], from the last digit on. *)
Definition sum_digits (base : Z) (buf : list Z) (base_e : fp) : fp :=
  fst (foldr (λ v '(result, base_e),
         (f64_add result (f64_mul (f64_of_int v) base_e), f64_mul base_e (f64_of_int base)))
       (S754_zero false, base_e) buf).

Definition scan_double_value (st : dbl_scan) : res fp :=
  if ds_is_nan st then Ok S754_nan
  else if ds_is_inf st then Ok (S754_infinity (ds_sign st =? -1))
  else if negb (length (ds_buf st) =? 0)%nat then
    e ← ck32 (ds_e st + (if ds_exp_sign st =? -1 then - ds_exp_val st else ds_exp_val st));
    e ← ck32 (e - length (ds_buf st));
    let one := f64_of_int 1 in
    let base_e := match Z.abs e with
                  | Zpos e_abs => power_loop e_abs (f64_of_int (ds_base st)) one
                  | _ => one end in
    let base_e := if e <? 0 then f64_div one base_e else base_e in
    let result := sum_digits (ds_base st) (ds_buf st) base_e in
    Ok (if ds_sign st =? -1 then SFopp result else result)
  else Ok (S754_zero false).

Definition store_double (m : mem) (val : Z) (x : fp) (f : fs) : res mem :=
  if (fs_length f =? LENGTH_LONG_DOUBLE) || (fs_length f =? LENGTH_LONG) then
    m ← store32 m val (f64_bits x); store32 m (val + 4) (f64_bits x / 4294967296)
  else store32 m val (f32_bits (f32_of_f64 x)).

Definition scan_double (m : mem) (str sz val : Z) (f : fs) : res (mem * Z) :=
  '(s, sz) ← space_loop (S (size m)) m str sz;
  let sz := if negb (fs_precision f =? PRECISION_NONE) then Z.min (u32 (fs_precision f)) sz else sz in
  '(st, s) ← scan_double_loop (16 + 2 * size m) m (fs_type_modifiers f) s sz dbl_start;
  if decide (ds_state st = D_ERR) then Ok (m, -1)
  else if val =? 0 then Ok (m, s - str)
  else
    x ← scan_double_value st;
    m ← store_double m val x f;
    Ok (m, s - str).

(** ** [print_double] *)

(** The constants of the code as binary32 numbers. *)
Definition ln10 : fp := S754_finite false 9657742 (-22).
Definition ln16 : fp := S754_finite false 11629080 (-22).
Definition lb10 : fp := S754_finite false 13933176 (-22).
Definition lb16 : fp := f32_of_int 4.
Definition p10 : list fp := map f32_of_int [1; 10; 100; 1000; 10000; 100000; 1000000; 10000000; 100000000].
Definition p16 : list fp := map f32_of_int [0x1; 0x10; 0x100; 0x1000; 0x10000; 0x100000; 0x1000000].

Definition float_index (l : list fp) (i : Z) : res fp :=
  if i <? 0 then Fault OutOfBounds
  else match l !! Z.to_nat i with Some x => Ok x | None => Fault OutOfBounds end.

Definition NBUF_SIZE : Z := 48.
Definition EBUF_SIZE : Z := 8.

(** [*nptr++ = c] within a buffer of [sz] characters. *)
Definition push (sz : Z) (c : Z) (buf : list Z) : res (list Z) :=
  if sz <=? length buf then Fault OutOfBounds else Ok (buf ++ [c]).

(** The characters from position [pos] to [num_epos], the last digit first. *)
Fixpoint mantissa_loop (k : nat) (pos num_spos man_spos dec_pos base man_base_i : Z) (nbuf : list Z)
  : res (list Z) :=
  match k with
  | O => Ok nbuf
  | S k' =>
      nbuf ← (if (pos =? dec_pos) && negb (pos =? num_spos) then push NBUF_SIZE (chr ".") nbuf else Ok nbuf);
      if (man_spos <=? pos) && negb (man_base_i =? 0) then
        nbuf ← push NBUF_SIZE (digits !!! Z.to_nat (man_base_i mod base)) nbuf;
        mantissa_loop k' (pos + 1) num_spos man_spos dec_pos base (man_base_i / base) nbuf
      else
        nbuf ← push NBUF_SIZE (chr "0") nbuf;
        mantissa_loop k' (pos + 1) num_spos man_spos dec_pos base man_base_i nbuf
  end.

(** The digits of the exponent, at least two. *)
Fixpoint exponent_loop (fuel : nat) (pos exp : Z) (ebuf : list Z) : res (list Z) :=
  match fuel with
  | O => Fault OutOfFuel
  | S fuel' =>
      if (pos <? 2) || negb (exp =? 0) then
        ebuf ← push EBUF_SIZE (digits !!! Z.to_nat (exp mod 10)) ebuf;
        exponent_loop fuel' (pos + 1) (exp / 10) ebuf
      else Ok ebuf
  end.

(** [abs(x)] of util/abs.h. *)
Definition abs (x : Z) : Z := if x <? 0 then - x else x.

Section print.
(** [frexpf], [modff] (fraction and integral part) and [expf] of libm. *)
Context (frexpf : fp → fp * Z) (modff : fp → fp * fp) (expf : fp → fp).

(** Mantissa in [1/base, 1) and exponent to [base]. *)
Definition to_base (value : fp) (base : Z) : res (fp * Z) :=
  let ln_base := if base =? 10 then ln10 else ln16 in
  let lb_base := if base =? 10 then lb10 else lb16 in
  let '(man2, exp2) := frexpf value in
  let exp_base := f32_div (f32_of_int exp2) lb_base in
  let '(exp_base_f, expb_i) := modff exp_base in
  exp_base_i ← int_of_fp expb_i;
  let man_base := f32_mul man2 (expf (f32_mul exp_base_f ln_base)) in
  Ok (if SFleb (f32_of_int 1) man_base then (f32_div man_base (f32_of_int base), exp_base_i + 1)
      else (man_base, exp_base_i)).

(** The rounded mantissa as an integer of [mantissa_digits] digits; the exponent
    is adjusted when rounding made one more. *)
Definition integer_mantissa (man_base : fp) (exp_base_i base mantissa_digits : Z) : res (Z * Z) :=
  let p_base := if base =? 10 then p10 else p16 in
  p ← float_index p_base (mantissa_digits + 1);
  man_base_i ← int_of_fp (f32_mul man_base p);
  man_base_i ← ck32 (man_base_i + base / 2);
  let man_base_i := Z.quot man_base_i base in
  p ← float_index p_base mantissa_digits;
  Ok (if SFleb p (f32_of_int man_base_i) then (Z.quot man_base_i base, exp_base_i + 1)
      else (man_base_i, exp_base_i)).

(** Number and exponent as they are in [nbuf] and [ebuf]. *)
Definition render_double (value : fp) (f : fs) : res (list Z * list Z) :=
  let scientific := flag (fs_type_modifiers f) TYPEMOD_EXP in
  let precision := if fs_precision f =? PRECISION_NONE then 4 else fs_precision f in
  let base := if flag (fs_type_modifiers f) TYPEMOD_HEXFLOAT then 16 else 10 in
  let pb_len := if base =? 10 then Z.of_nat (length p10) else Z.of_nat (length p16) in
  '(man_base, exp_base_i) ← to_base value base;
  mantissa_digits ← ck32 ((if scientific then 1 else exp_base_i) + precision);
  let mantissa_digits := Z.min mantissa_digits (pb_len - 2) in
  '(man_base_i, exp_base_i) ← integer_mantissa man_base exp_base_i base mantissa_digits;
  let man_spos := exp_base_i - mantissa_digits in
  num_spos ← (if scientific then Ok man_spos else ck32 (- precision));
  let num_epos := if scientific then exp_base_i else Z.max 1 exp_base_i in
  let dec_pos := if scientific then num_epos - 1 else 0 in
  diff ← ck32 (num_epos - num_spos);
  c_assert (u32 diff <? NBUF_SIZE);;
  nbuf ← mantissa_loop (Z.to_nat diff) num_spos num_spos man_spos dec_pos base man_base_i [];
  if scientific then
    ebuf ← exponent_loop 11 0 (abs (exp_base_i - 1)) [];
    ebuf ← push EBUF_SIZE (if exp_base_i <? 1 then chr "-" else chr "+") ebuf;
    ebuf ← push EBUF_SIZE (if base =? 10 then chr "e" else chr "p") ebuf;
    Ok (nbuf, ebuf)
  else Ok (nbuf, []).

(** Space before and behind the number and zeros in front of it. *)
Definition double_padding (number_len : Z) (special : bool) (f : fs) : res (Z * Z * Z) :=
  if fs_width f =? WIDTH_NONE then Ok (0, 0, 0)
  else
    d ← ck32 (fs_width f - number_len);
    let width_left := Z.max d 0 in
    Ok (if flag (fs_flags f) FLAGS_MINUS then (0, width_left, 0)
        else if flag (fs_flags f) FLAGS_ZERO && negb special then (0, 0, width_left)
        else (width_left, 0, 0)).

(** All loops stop at [dend]: what is written is what fits before it.  [val] is
    the argument. *)
Definition print_double (m : mem) (dst sz : Z) (val : fp) (f : fs) : res (mem * Z) :=
  let value := f32_of_f64 val in
  let minus := SFltb value (S754_zero false) in
  let value := SFabs value in
  let sign := flag (fs_flags f) FLAGS_PLUS || flag (fs_flags f) FLAGS_SPACE || minus in
  let sign_space := flag (fs_flags f) FLAGS_SPACE in
  let base := if flag (fs_type_modifiers f) TYPEMOD_HEXFLOAT then 16 else 10 in
  let special := fp_isinf value || fp_isnan value in
  '(nbuf, ebuf) ←
    (if fp_isinf value then Ok ([chr "f"; chr "n"; chr "i"], [])
     else if fp_isnan value then Ok ([chr "n"; chr "a"; chr "n"], [])
     else render_double value f);
  let pbuf :=
    if fp_isnan value then []
    else
      (if sign then [if minus then chr "-" else if sign_space then chr " " else chr "+"] else []) ++
      (if (base =? 16) && negb special then [chr "0"; chr "x"] else []) in
  let number_len := Z.of_nat (length pbuf + length ebuf + length nbuf) in
  '(lspace_len, tspace_len, zeros_len) ← double_padding number_len special f;
  let limit := if fs_width f =? WIDTH_NONE then sz else fs_width f in
  let out := replicate (Z.to_nat lspace_len) (chr " ") ++ pbuf ++ replicate (Z.to_nat zeros_len) (chr "0") ++
    rev nbuf ++ rev ebuf ++ replicate (Z.to_nat tspace_len) (chr " ") in
  '(m, d) ← put_chars m dst (take (Z.to_nat (Z.min limit (Z.of_nat (length out)))) out);
  Ok (m, d - dst).
End print.
