(* ===== verification/Printf.v ===== *)
(** * Formatted printing and scanning (util/src/stdio.c): format strings

    [vsnprintf] and [vsnscanf] and their callers.  A variable argument list is a
    list of tagged values: [va_arg] with another type than that of the argument
    is undefined. *)
From Stdlib Require Import SpecFloat Ascii String.
From S2P Require Import Prelude CString Stdio Double.

(** ** Variable arguments *)

Inductive va :=
| VInt (i : Z)
| VLong (l : Z)
| VLongLong (ll : Z)
| VDouble (d : fp)
| VLongDouble (ld : fp)
| VPtr (p : Z).

Abbreviation va_list := (list va).

Definition va_int (args : va_list) : res (Z * va_list) :=
  match args with VInt i :: args => Ok (i, args) | _ => Fault BadVarArg end.
Definition va_ptr (args : va_list) : res (Z * va_list) :=
  match args with VPtr p :: args => Ok (p, args) | _ => Fault BadVarArg end.

(** The union of the integer types: its bytes as a number. *)
Definition va_integer (length : Z) (args : va_list) : res (Z * va_list) :=
  if length =? LENGTH_LONG_LONG then
    match args with VLongLong ll :: args => Ok (ll, args) | _ => Fault BadVarArg end
  else if length =? LENGTH_LONG then
    match args with VLong l :: args => Ok (l, args) | _ => Fault BadVarArg end
  else va_int args.

Definition va_double (length : Z) (args : va_list) : res (fp * va_list) :=
  if length =? LENGTH_LONG_DOUBLE then
    match args with VLongDouble ld :: args => Ok (ld, args) | _ => Fault BadVarArg end
  else match args with VDouble d :: args => Ok (d, args) | _ => Fault BadVarArg end.

Definition with_width (width flags : Z) (f : fs) : fs :=
  mk_fs flags (fs_parameter f) width (fs_precision f) (fs_length f) (fs_type f) (fs_type_modifiers f)
    (fs_next_char f).
Definition with_precision (precision : Z) (f : fs) : fs :=
  mk_fs (fs_flags f) (fs_parameter f) (fs_width f) precision (fs_length f) (fs_type f) (fs_type_modifiers f)
    (fs_next_char f).

(** Width and precision from the arguments. *)
Definition fetch_width (f : fs) (args : va_list) : res (fs * va_list) :=
  if fs_width f =? WIDTH_PARAMETER then
    '(width, args) ← va_int args;
    if width <? 0 then
      width ← ck32 (- width);
      Ok (with_width width (Z.lor (fs_flags f) FLAGS_MINUS) f, args)
    else Ok (with_width width (fs_flags f) f, args)
  else Ok (f, args).

Definition fetch_precision (f : fs) (args : va_list) : res (fs * va_list) :=
  if fs_precision f =? PRECISION_PARAMETER then
    '(precision, args) ← va_int args; Ok (with_precision precision f, args)
  else Ok (f, args).

(** ** Printing *)

Section printing.
Context (frexpf : fp → fp * Z) (modff : fp → fp * fp) (expf : fp → fp).

(** The [switch] on the type: memory, characters printed, arguments left. *)
Definition print_arg (m : mem) (s sz : Z) (f : fs) (args : va_list) : res (mem * Z * va_list) :=
  if fs_type f =? TYPE_CHAR then
    '(val, args) ← va_int args;
    '(m, k) ← print_char m s sz (u8 val) f; Ok (m, k, args)
  else if fs_type f =? TYPE_STR then
    '(val, args) ← va_ptr args;
    '(m, k) ← print_str m s sz val f; Ok (m, k, args)
  else if fs_type f =? TYPE_INT then
    '(v, args) ← va_integer (fs_length f) args;
    '(m, k) ← print_int m s sz v f; Ok (m, k, args)
  else if fs_type f =? TYPE_DOUBLE then
    '(v, args) ← va_double (fs_length f) args;
    '(m, k) ← print_double frexpf modff expf m s sz v f; Ok (m, k, args)
  else if fs_type f =? TYPE_PERCENT then
    m ← (if negb (sz =? 0) then store8 m s (chr "%") else Ok m);
    Ok (m, 1, args)
  else Ok (m, 0, args).

(** [sz] is the [_size] of the code, [s] the end of the output so far. *)
Fixpoint print_loop (fuel : nat) (m : mem) (s sz fmt : Z) (args : va_list) : res (mem * Z) :=
  match fuel with
  | O => Fault OutOfFuel
  | S fuel' =>
      c ← load8 m fmt;
      if c =? 0 then Ok (m, s)
      else if negb (c =? chr "%") then
        if negb (sz =? 0) then
          m ← store8 m s c; print_loop fuel' m (s + 1) (sz - 1) (fmt + 1) args
        else print_loop fuel' m s sz (fmt + 1) args
      else
        let fmt := fmt + 1 in
        '(f, k) ← fs_process m fmt;
        let fmt := fmt + k in
        '(f, args) ← fetch_width f args;
        '(f, args) ← fetch_precision f args;
        '(m, chars_printed, args) ← print_arg m s sz f args;
        print_loop fuel' m (s + chars_printed) (u32 (sz - chars_printed)) fmt args
  end.

Definition vsnprintf (m : mem) (str sz format : Z) (args : va_list) : res (mem * Z) :=
  '(m, s) ← print_loop (S (size m)) m str (if 0 <? sz then sz - 1 else 0) format args;
  m ← (if 0 <? sz then store8 m s 0 else Ok m);
  Ok (m, s - str).

Definition SIZE_MAX : Z := 4294967295.

Definition snprintf (m : mem) (out sz fmt : Z) (args : va_list) : res (mem * Z) :=
  vsnprintf m out sz fmt args.
Definition sprintf (m : mem) (out fmt : Z) (args : va_list) : res (mem * Z) :=
  vsnprintf m out SIZE_MAX fmt args.
End printing.

(** ** Scanning *)

(** [while (size && isspace( *str)) str++, size--;] *)
Fixpoint blank_loop (fuel : nat) (m : mem) (str sz : Z) : res (Z * Z) :=
  match fuel with
  | O => Fault OutOfFuel
  | S fuel' =>
      if sz =? 0 then Ok (str, sz)
      else c ← load8 m str; if isspace c then blank_loop fuel' m (str + 1) (sz - 1) else Ok (str, sz)
  end.

(** The destination, null for types without one and for discarded values. *)
Definition fetch_dest (f : fs) (args : va_list) : res (Z * va_list) :=
  if negb (fs_type f =? TYPE_PERCENT) && negb (fs_type f =? TYPE_END_OF_STRING) &&
     negb (fs_width f =? WIDTH_PARAMETER) then va_ptr args
  else Ok (0, args).

Definition scan_arg (m : mem) (str sz ptr : Z) (f : fs) : res (mem * Z) :=
  if fs_type f =? TYPE_CHAR then scan_char m str sz ptr f
  else if fs_type f =? TYPE_STR then scan_str m str sz ptr f
  else if fs_type f =? TYPE_INT then scan_int m str sz ptr f
  else if fs_type f =? TYPE_DOUBLE then scan_double m str sz ptr f
  else if fs_type f =? TYPE_PERCENT then
    c ← load8 m str; Ok (m, if negb (c =? chr "%") then -1 else 1)
  else if fs_type f =? TYPE_END_OF_STRING then
    k ← scan_eos m str sz f; Ok (m, k)
  else Ok (m, 0).

Fixpoint scan_loop (fuel : nat) (m : mem) (str sz fmt : Z) (args : va_list) (matches : Z)
  : res (mem * Z) :=
  match fuel with
  | O => Fault OutOfFuel
  | S fuel' =>
      c ← load8 m fmt;
      if c =? 0 then Ok (m, matches)
      else if negb (c =? chr "%") then
        if isspace c then
          '(str, sz) ← blank_loop (S (size m)) m str sz;
          scan_loop fuel' m str sz (fmt + 1) args matches
        else if sz =? 0 then Ok (m, matches)
        else
          x ← load8 m str;
          if c =? x then scan_loop fuel' m (str + 1) (sz - 1) (fmt + 1) args matches
          else Ok (m, matches)
      else
        let fmt := fmt + 1 in
        '(f, k) ← fs_process m fmt;
        let fmt := fmt + k in
        '(f, args) ← fetch_precision f args;
        '(ptr, args) ← fetch_dest f args;
        '(m, chars_consumed) ← scan_arg m str sz ptr f;
        if 0 <=? chars_consumed then
          scan_loop fuel' m (str + chars_consumed) (u32 (sz - chars_consumed)) fmt args
            (if negb (fs_type f =? TYPE_PERCENT) then matches + 1 else matches)
        else Ok (m, matches)
  end.

Definition vsnscanf (m : mem) (str sz format : Z) (args : va_list) : res (mem * Z) :=
  scan_loop (S (size m)) m str sz format args 0.

Definition snscanf (m : mem) (str sz format : Z) (args : va_list) : res (mem * Z) :=
  vsnscanf m str sz format args.
Definition sscanf (m : mem) (str format : Z) (args : va_list) : res (mem * Z) :=
  vsnscanf m str SIZE_MAX format args.

(** ** Concrete runs

    A buffer at 1000, the format at 2000, a text at 3000. *)
Definition text (s : string) : list Z := map chr (list_ascii_of_string s) ++ [0].

Definition stdio_mem (buf : nat) (fmt arg : string) : mem :=
  put_bytes (put_bytes (put_bytes ∅ 1000 (replicate buf 0xee)) 2000 (text fmt)) 3000 (text arg).

(** The functions of libm; [expf] on the two values it is applied to below. *)
Definition demo_frexpf (x : fp) : fp * Z :=
  match x with S754_finite s m e => (S754_finite s m (-24), e + 24) | _ => (x, 0) end.
Definition demo_modff (x : fp) : fp * fp :=
  match int_of_fp x with
  | Ok n => (SFsub 24 128 x (f32_of_int n), f32_of_int n)
  | Fault _ => (x, x)
  end.
Definition demo_expf (x : fp) : fp :=
  match x with S754_zero _ => f32_of_int 1 | _ => f32_of_int 2 end.

(** What [snprintf] leaves in a buffer of [buf] bytes when told [sz]. *)
Definition demo_print (buf : nat) (sz : Z) (fmt arg : string) (args : va_list) : res (option (list Z) * Z) :=
  '(m, k) ← snprintf demo_frexpf demo_modff demo_expf (stdio_mem buf fmt arg) 1000 sz 2000 args;
  Ok (get_bytes m 1000 (S (Z.to_nat k)), k).

Definition demo_scan (fmt arg : string) (args : va_list) : res (option (list Z) * Z) :=
  '(m, k) ← sscanf (stdio_mem 8 fmt arg) 3000 2000 args; Ok (get_bytes m 1000 8, k).

Example prints :
  demo_print 40 40 "%5d|%-3d|%+05i|%x|%.3s|%c" "abcdef"
    [VInt 42; VInt 7; VInt 12; VInt 0xbeef; VPtr 3000; VInt 65]
  = Ok (Some (text "   42|  7|+0012|beef|abc|A"), 26).
Proof. vm_compute. reflexivity. Qed.

Example truncates : demo_print 6 6 "%d-%s" "abcdef" [VInt 1234; VPtr 3000] = Ok (Some (text "1234-"), 5).
Proof. vm_compute. reflexivity. Qed.

Example prints_doubles :
  demo_print 40 40 "%f|%.2f|%8.1f|%+d" "" [VDouble (S754_zero false); VDouble (f64_of_int 1);
    VDouble (f64_of_int 1); VInt 5] = Ok (Some (text "0.0000|1.00|     1.0|+5"), 23).
Proof. vm_compute. reflexivity. Qed.

Example scans :
  demo_scan "a %d,%x%%" "a  -17,0xfF%" [VPtr 1000; VPtr 1004]
  = Ok (Some [0xef; 0xff; 0xff; 0xff; 0xff; 0; 0; 0], 2).
Proof. vm_compute. reflexivity. Qed.

Example scans_double :
  demo_scan "%lf" "-2.5" [VPtr 1000] = Ok (Some [0; 0; 0; 0; 0; 0; 4; 0xc0], 1).
Proof. vm_compute. reflexivity. Qed.

(** A percent sign that does not fit is counted: the remaining size wraps around
    and the output runs out of the buffer. *)
Example percent_overruns : demo_print 1 1 "%%x" "" [] = Fault OutOfBounds.
Proof. vm_compute. reflexivity. Qed.

(** The width of a floating-point number replaces the size of the buffer. *)
Example double_width_overruns :
  demo_print 4 4 "%8f" "" [VDouble (S754_zero false)] = Fault OutOfBounds.
Proof. vm_compute. reflexivity. Qed.

(** ... and cuts the number off. *)
Example double_width_truncates :
  demo_print 10 10 "%2f" "" [VDouble (S754_zero false)] = Ok (Some (text "0."), 2).
Proof. vm_compute. reflexivity. Qed.

(** A small number is looked up before the table of powers. *)
Example small_double_faults :
  demo_print 40 40 "%f" "" [VDouble (S754_finite false 4503599627370496 (-92))] = Fault OutOfBounds.
Proof. vm_compute. reflexivity. Qed.

(** Octal is printed in decimal, capital letters are not. *)
Example octal_is_decimal : demo_print 9 9 "%o %X" "" [VInt 8; VInt 171] = Ok (Some (text "8 ab"), 4).
Proof. vm_compute. reflexivity. Qed.

(** A negative [char] is not sign-extended before it is negated. *)
Example negative_char : demo_print 20 20 "%hhd" "" [VInt (-1)] = Ok (Some (text "-4294967041"), 11).
Proof. vm_compute. reflexivity. Qed.

(** The characters between capital and small letters pass as digits. *)
Example underscore_is_a_digit : demo_scan "%d" "12_" [VPtr 1000] = Ok (Some [128; 0; 0; 0; 0xee; 0xee; 0xee; 0xee], 1).
Proof. vm_compute. reflexivity. Qed.

(** Scanning into a [char] writes four bytes. *)
Example char_destination : demo_scan "%hhd" "5" [VPtr 1000] = Ok (Some [5; 0; 0; 0; 0xee; 0xee; 0xee; 0xee], 1).
Proof. vm_compute. reflexivity. Qed.

(** Characters are read beyond the end of the string. *)
Example chars_run_over : demo_scan "%.4c" "ab" [VPtr 1000] = Fault OutOfBounds.
Proof. vm_compute. reflexivity. Qed.

(** Nothing at all is a floating-point number, but not an integer. *)
Example empty_double :
  demo_scan "%f" "" [VPtr 1000] = Ok (Some [0; 0; 0; 0; 0xee; 0xee; 0xee; 0xee], 1) ∧
  demo_scan "%d" "" [VPtr 1000] = Ok (Some (replicate 8 0xee), 0).
Proof. split; vm_compute; reflexivity. Qed.
