(* ===== verification/PrintSpec.v ===== *)
(** * What the printing routines print

    The text of an integer ([int_text]) and of a format string with its arguments
    ([renders]) without sizes and memory; theorems: the code puts that text, cut
    off where the buffer ends, into memory and terminates it. *)
From Stdlib Require Import SpecFloat Ascii String.
From S2P Require Import Prelude CString Stdio Double Printf.

(** ** Characters and numerals *)

Definition digit_char (d : Z) : Z := digits !!! Z.to_nat d.

(** The numeral of [v] to base [b], in at most [k] digits. *)
Fixpoint numeral (k : nat) (b v : Z) : list Z :=
  match k with
  | O => []
  | S k' => (if v <? b then [] else numeral k' b (v / b)) ++ [digit_char (v mod b)]
  end.

Lemma numeral_length b : ∀ k v, (length (numeral k b v) ≤ k)%nat.
Proof.
  induction k as [|k IH]; intros v; simpl; [lia|]. rewrite length_app. simpl.
  destruct (v <? b); simpl; [lia|]. specialize (IH (v / b)). lia.
Qed.

(** Reading digits to base [b]. *)
Definition digits_value (b : Z) (l : list Z) : Z := foldl (λ a c, a * b + digit_value c) 0 l.

Lemma digits_value_snoc b l c : digits_value b (l ++ [c]) = digits_value b l * b + digit_value c.
Proof. unfold digits_value. by rewrite foldl_app. Qed.

Lemma digit_value_char d : 0 ≤ d < 16 → digit_value (digit_char d) = d.
Proof.
  intros Hd. assert (∀ k, (k < 16)%nat → digit_value (digit_char k) = k) as H.
  { do 16 (destruct k as [|k]; [reflexivity|]). lia. }
  rewrite <- (Z2Nat.id d) at 1 2 by lia. rewrite H by lia. lia.
Qed.

Lemma numeral_value b : 2 ≤ b ≤ 16 → ∀ k v, 0 ≤ v < b ^ Z.of_nat k → digits_value b (numeral k b v) = v.
Proof.
  intros Hb. induction k as [|k IH]; intros v Hv; [simpl in *; unfold digits_value; simpl; lia|].
  cbn [numeral]. rewrite digits_value_snoc, digit_value_char by lia.
  replace (Z.of_nat (S k)) with (1 + Z.of_nat k) in Hv by lia.
  rewrite Z.pow_add_r, Z.pow_1_r in Hv by lia.
  destruct (Z.ltb_spec v b); [unfold digits_value; simpl; rewrite Z.mod_small by lia; lia|].
  rewrite IH; [lia|]. split; [apply Z.div_pos; lia|]. apply Z.div_lt_upper_bound; lia.
Qed.

Lemma digit_loop_ok b : 2 ≤ b ≤ 16 → ∀ k fuel v num,
  0 ≤ v < b ^ Z.of_nat k → (k ≤ fuel)%nat → (0 < k)%nat → k + length num ≤ NUM_SIZE →
  digit_loop fuel v b num = Ok (numeral k b v ++ num).
Proof.
  intros Hb. induction k as [|k IH]; intros fuel v num Hv Hf Hk Hn; [lia|].
  destruct fuel as [|fuel]; [lia|]. cbn [digit_loop numeral].
  destruct (Z.leb_spec NUM_SIZE (length num)); [lia|].
  change (digits !!! Z.to_nat (v mod b)) with (digit_char (v mod b)).
  destruct (Z.ltb_spec v b) as [Hlt|Hge].
  - rewrite Z.div_small by lia. by destruct (Z.eqb_spec 0 0).
  - assert (0 < v / b) by (apply Z.div_str_pos; lia).
    destruct (Z.eqb_spec (v / b) 0); [lia|]. rewrite <- app_assoc.
    replace (Z.of_nat (S k)) with (1 + Z.of_nat k) in Hv by lia.
    rewrite Z.pow_add_r, Z.pow_1_r in Hv by lia.
    destruct k as [|k]; [simpl in Hv; lia|].
    apply IH; [|lia|lia|simpl; lia].
    split; [lia|]. apply Z.div_lt_upper_bound; lia.
Qed.

(** ** Writing text *)

Lemma put_chars_ok : ∀ l m d,
  mapped m d (length l) → Forall is_u8 l → put_chars m d l = Ok (put_bytes m d l, d + length l).
Proof.
  induction l as [|c l IH]; intros m d Hm Hu; simpl; [by rewrite Z.add_0_r|].
  apply Forall_cons_1 in Hu as [Hc Hu]. apply mapped_cons in Hm as [Hm0 Hm].
  rewrite store8_mapped, bind_Ok, u8_small by done.
  rewrite IH by auto with cmem. do 2 f_equal. lia.
Qed.

(** Two pieces in a row. *)
Lemma put_chars_app {B} l1 : ∀ l2 m d (k : mem → Z → res B),
  ('(m, d) ← put_chars m d l1; '(m, d) ← put_chars m d l2; k m d) =
  ('(m, d) ← put_chars m d (l1 ++ l2); k m d).
Proof.
  induction l1 as [|c l1 IH]; intros l2 m d k; simpl; [done|].
  destruct (store8 m d c) as [m'|]; simpl; [apply IH|done].
Qed.

Lemma take_same {A} (l : list A) (n k : nat) :
  n = k ∨ (length l ≤ n ∧ length l ≤ k)%nat → take n l = take k l.
Proof. intros [->|[H1 H2]]; [done|]. by rewrite !take_ge. Qed.

(** The lengths after the cut give the text up to the cut. *)
Lemma int_limit_take (A B C D : list Z) sz :
  0 ≤ sz < 4294967296 → length (A ++ B ++ C ++ D) < 2147483648 →
  let '(a, b, c, d) := int_limit (length A) (length B) (length C) (length D) sz in
  take (Z.to_nat a) A ++ take (Z.to_nat b) B ++ take (Z.to_nat c) C ++ take (Z.to_nat d) D =
  take (Z.to_nat sz) (A ++ B ++ C ++ D).
Proof.
  intros Hs Hl. rewrite !length_app in Hl. unfold int_limit.
  rewrite (u32_small (_ + _)) by word_lia.
  destruct (Z.ltb_spec sz (length A + length B + length C + length D)) as [Hlt|Hge].
  - rewrite u32_small by word_lia.
    replace (s32 _) with (sz - length A - length B - length C) by word_lia.
    rewrite !take_app.
    repeat match goal with |- context [?x <? 0] => destruct (Z.ltb_spec x 0) end;
      repeat apply (f_equal2 app); apply take_same; lia.
  - rewrite (take_ge (A ++ _)) by (rewrite !length_app; lia). rewrite !Nat2Z.id.
    by rewrite !take_ge by lia.
Qed.

Lemma int_limit_le ls p lz n sz :
  0 ≤ sz → 0 ≤ ls → 0 ≤ p → 0 ≤ lz → 0 ≤ n → ls + p + lz + n < 2147483648 →
  let '(ls', _, lz', _) := int_limit ls p lz n sz in ls' ≤ ls ∧ lz' ≤ lz.
Proof.
  intros. unfold int_limit. rewrite (u32_small (_ + _)) by word_lia.
  destruct (Z.ltb_spec sz (ls + p + lz + n)); [|lia]. rewrite u32_small by word_lia.
  replace (s32 _) with (sz - ls - p - lz) by word_lia.
  repeat match goal with |- context [?x <? 0] => destruct (Z.ltb_spec x 0) end; lia.
Qed.

(** ** Integers *)

(** The text of an integer: space, sign or prefix, zeros, digits. *)
Definition int_text (v : Z) (f : fs) : list Z :=
  let num := numeral 20 (int_base f) (int_magnitude v f) in
  let prefix := int_prefix v f in
  let zero_fill := flag (fs_flags f) FLAGS_ZERO && (fs_precision f =? PRECISION_NONE) in
  let width := if fs_width f =? WIDTH_NONE then 0 else fs_width f in
  let zeros :=
    if negb (fs_width f =? WIDTH_NONE) && zero_fill then Z.to_nat (width - length (prefix ++ num))
    else if negb (fs_precision f =? PRECISION_NONE) then Z.to_nat (fs_precision f - length num) else O in
  let body := prefix ++ replicate zeros (chr "0") ++ num in
  replicate (if zero_fill then O else Z.to_nat (width - length body)) (chr " ") ++ body.

(** Width and precision are far from overflow. *)
Definition small_fs (f : fs) : Prop :=
  -1 ≤ fs_width f ≤ 2147483600 ∧ -2147483600 ≤ fs_precision f ≤ 2147483600.

Lemma ck32_Ok z : -2147483648 ≤ z ≤ 2147483647 → ck32 z = Ok z.
Proof.
  intros H. unfold ck32. destruct (Z.leb_spec (-2147483648) z); [|lia].
  destruct (Z.leb_spec z 2147483647); [done|lia].
Qed.

Lemma int_base_range f : 2 ≤ int_base f ≤ 16.
Proof. unfold int_base. destruct (flag _ _); lia. Qed.

Lemma int_magnitude_range v f : 0 ≤ int_magnitude v f < 18446744073709551616.
Proof. unfold int_magnitude. repeat case_match; word_lia. Qed.

(** 20 digits are enough. *)
Lemma magnitude_digits v f : 0 ≤ int_magnitude v f < int_base f ^ Z.of_nat 20.
Proof.
  pose proof (int_magnitude_range v f). unfold int_base.
  destruct (flag _ _); (split; [lia|]); change (Z.of_nat 20) with 20; lia.
Qed.

Lemma int_digits v f :
  digit_loop 64 (int_magnitude v f) (int_base f) [] = Ok (numeral 20 (int_base f) (int_magnitude v f)).
Proof.
  rewrite (digit_loop_ok (int_base f) (int_base_range f) 20), app_nil_r;
    [done|apply magnitude_digits|lia|lia|done].
Qed.

(** The value of the argument in its C type. *)
Definition int_value (v : Z) (f : fs) : Z :=
  if flag (fs_type_modifiers f) TYPEMOD_UNSIGNED then
    if fs_length f =? LENGTH_LONG_LONG then u64 v
    else if fs_length f =? LENGTH_SHORT then u16 v
    else if fs_length f =? LENGTH_CHAR then u8 v
    else u32 v
  else
    if fs_length f =? LENGTH_LONG_LONG then sext 64 v
    else if fs_length f =? LENGTH_SHORT then sext 16 v
    else if fs_length f =? LENGTH_CHAR then sext 8 v
    else sext 32 v.

Ltac unfold_sext :=
  unfold sext in *; change (2 ^ 64) with 18446744073709551616 in *; change (2 ^ (64 - 1)) with 9223372036854775808 in *;
  change (2 ^ 32) with 4294967296 in *; change (2 ^ (32 - 1)) with 2147483648 in *;
  change (2 ^ 16) with 65536 in *; change (2 ^ (16 - 1)) with 32768 in *;
  change (2 ^ 8) with 256 in *; change (2 ^ (8 - 1)) with 128 in *.

Lemma int_magnitude_abs v f :
  (fs_length f = LENGTH_CHAR → 0 ≤ int_value v f) → int_magnitude v f = Z.abs (int_value v f).
Proof.
  unfold int_magnitude, int_value, int_negative, val_ll, val_l, val_s, val_i, val_c. unfold_sext.
  unfold LENGTH_LONG_LONG, LENGTH_LONG, LENGTH_SHORT, LENGTH_CHAR.
  generalize (fs_length f). intros len H.
  assert (len = 4 ∨ len = 3 ∨ len = 2 ∨ len = 1 ∨ (len ≠ 4 ∧ len ≠ 3 ∧ len ≠ 2 ∧ len ≠ 1))
    as [E|[E|[E|[E|(E4 & E3 & E2 & E1)]]]] by lia;
    try (rewrite E in *; cbn [Z.eqb Pos.eqb] in *);
    try (rewrite (proj2 (Z.eqb_neq _ _) E4), (proj2 (Z.eqb_neq _ _) E3),
           (proj2 (Z.eqb_neq _ _) E2), (proj2 (Z.eqb_neq _ _) E1));
    try specialize (H eq_refl); destruct (flag _ _);
    try match goal with |- context [if ?a <? 0 then _ else _] => destruct (Z.ltb_spec a 0) end; word_lia.
Qed.

Lemma int_prefix_length v f : (length (int_prefix v f) ≤ 2)%nat.
Proof. unfold int_prefix. repeat case_match; simpl; lia. Qed.

Lemma char_u8 a : is_u8 (chr a).
Proof. unfold chr, is_u8. pose proof (N_ascii_bounded a). lia. Qed.

Lemma digit_char_u8 d : is_u8 (digit_char d).
Proof.
  unfold digit_char. destruct (digits !! Z.to_nat d) as [c|] eqn:E.
  - rewrite (list_lookup_total_correct _ _ _ E).
    apply list_lookup_fmap_Some in E as (a & -> & _) || (unfold digits in E;
      apply list_elem_of_lookup_2, list_elem_of_fmap in E as (a & -> & _)); apply char_u8.
  - rewrite list_lookup_total_alt, E. simpl. word_lia.
Qed.

Lemma numeral_u8 b : ∀ k v, Forall is_u8 (numeral k b v).
Proof.
  induction k as [|k IH]; intros v; simpl; [constructor|].
  apply Forall_app_2; [by destruct (v <? b)|]. apply Forall_cons_2, Forall_nil_2. apply digit_char_u8.
Qed.

Lemma int_text_u8 v f : Forall is_u8 (int_text v f).
Proof.
  unfold int_text. rewrite !Forall_app. split; [|split; [|split]].
  - apply Forall_replicate, char_u8.
  - unfold int_prefix. repeat case_match; repeat apply Forall_cons_2; try apply Forall_nil_2; apply char_u8.
  - apply Forall_replicate, char_u8.
  - apply numeral_u8.
Qed.

(** The two lengths of padding. *)
Lemma int_padding_ok v f :
  small_fs f →
  let num := numeral 20 (int_base f) (int_magnitude v f) in
  let prefix := int_prefix v f in
  ∃ ls lz : nat, int_padding (length num) (length prefix) f = Ok (Z.of_nat lz, Z.of_nat ls) ∧
    int_text v f = replicate ls (chr " ") ++ prefix ++ replicate lz (chr "0") ++ num ∧
    ls + length prefix + lz + length num < 2147483648.
Proof.
  intros [Hw Hp] num prefix. pose proof (numeral_length (int_base f) 20 (int_magnitude v f)) as Hn.
  pose proof (int_prefix_length v f) as Hpl. fold num in Hn. fold prefix in Hpl.
  unfold int_padding, int_text. fold num prefix.
  destruct (Z.eqb_spec (fs_precision f) PRECISION_NONE) as [Ep|Ep]; cbn [negb].
  - rewrite bind_Ok, andb_true_r. destruct (Z.eqb_spec (fs_width f) WIDTH_NONE) as [Ew|Ew]; cbn [negb andb].
    + exists O, O. split; [done|]. split; [|simpl; lia].
      destruct (flag _ _); [done|]. by replace (Z.to_nat (0 - _)) with O by lia.
    + destruct (flag (fs_flags f) FLAGS_ZERO).
      * rewrite ck32_Ok, bind_Ok by lia. rewrite length_app.
        exists O, (Z.to_nat (fs_width f - (length prefix + length num)%nat)).
        split; [do 2 f_equal; lia|]. split; [done|lia].
      * rewrite ck32_Ok, bind_Ok, ck32_Ok, bind_Ok by lia.
        exists (Z.to_nat (fs_width f - length (prefix ++ num))), O.
        split; [rewrite length_app; do 2 f_equal; lia|]. split; [done|rewrite length_app; lia].
  - rewrite (ck32_Ok (fs_precision f - length num)), !bind_Ok by lia. rewrite !andb_false_r.
    set (lz := Z.to_nat (fs_precision f - length num)).
    replace (Z.max (fs_precision f - length num) 0) with (Z.of_nat lz) by lia.
    destruct (Z.eqb_spec (fs_width f) WIDTH_NONE) as [Ew|Ew]; cbn [negb].
    + exists O, lz. split; [done|]. split; [|lia].
      replace (Z.to_nat (0 - _)) with O by lia. done.
    + rewrite ck32_Ok, bind_Ok, ck32_Ok, bind_Ok by lia.
      exists (Z.to_nat (fs_width f - (length num + length prefix + lz))), lz.
      split; [do 2 f_equal; lia|]. split; [|lia].
      do 2 f_equal. rewrite !length_app, length_replicate. lia.
Qed.

(** [print_int] prints the text of the number as far as it fits. *)
Lemma print_int_ok m dst sz v f :
  small_fs f → 0 ≤ sz < 4294967296 →
  let out := take (Z.to_nat sz) (int_text v f) in
  mapped m dst (length out) → print_int m dst sz v f = Ok (put_bytes m dst out, Z.of_nat (length out)).
Proof.
  intros Hf Hs out Hm. unfold print_int. rewrite int_digits, bind_Ok.
  destruct (int_padding_ok v f Hf) as (ls & lz & E & Et & Hl). rewrite E, bind_Ok. clear E.
  set (num := numeral 20 (int_base f) (int_magnitude v f)) in *. set (prefix := int_prefix v f) in *.
  rewrite ck32_Ok, bind_Ok by lia.
  pose proof (int_limit_take (replicate ls (chr " ")) prefix (replicate lz (chr "0")) num sz Hs) as HT.
  pose proof (int_limit_le ls (length prefix) lz (length num) sz ltac:(lia) ltac:(lia) ltac:(lia)
    ltac:(lia) ltac:(lia) Hl) as HL.
  rewrite !length_app, !length_replicate in HT. specialize (HT ltac:(lia)).
  destruct (int_limit ls (length prefix) lz (length num) sz) as [[[a b] c] d].
  rewrite !take_replicate, !Nat.min_l in HT by lia. rewrite <- Et in HT. fold out in HT.
  assert (Forall is_u8 out) as Hu by apply Forall_take, int_text_u8.
  rewrite !put_chars_app, <- ?app_assoc, HT, put_chars_ok, bind_Ok by done. do 2 f_equal. lia.
Qed.

(** ** Format specifiers in memory

    The parser looks at the format string only and not behind its end. *)

(** [g] does the same to the same string in two memories of the same size, and
    consumes characters of the string only. *)
Definition local_parser {A} (g : mem → Z → res (A * Z)) : Prop :=
  ∀ l m m' c, size m' = size m → cstr m c l → cstr m' c l →
    g m' c = g m c ∧ ∀ v k, g m c = Ok (v, k) → 0 ≤ k ≤ length l.

Lemma number_loop_local : ∀ l fuel m m' p c, cstr m c l → cstr m' c l →
  number_loop fuel m' p c = number_loop fuel m p c ∧
  ∀ v c', number_loop fuel m p c = Ok (v, c') → c ≤ c' ≤ c + length l.
Proof.
  induction l as [|x l IH]; intros [|fuel] m m' p c H H'; cbn [number_loop]; try done.
  - rewrite (cstr_nil _ _ H), (cstr_nil _ _ H'), !bind_Ok. split; [done|].
    intros v c' [= <- <-]. simpl. lia.
  - apply cstr_cons in H as (-> & _ & H), H' as (-> & _ & H'). rewrite !bind_Ok.
    destruct (isdigit x); [|split; [done|]; intros v c' [= <- <-]; lia].
    destruct (ck32 (p * 10)) as [p1|]; [|done]. rewrite !bind_Ok.
    destruct (ck32 (p1 + x)) as [p2|]; [|done]. rewrite !bind_Ok.
    destruct (IH fuel m m' (p2 - chr "0") (c + 1) H H') as [-> Hk]. split; [done|].
    intros v c' E. apply Hk in E. simpl. lia.
Qed.

Lemma flags_loop_local : ∀ l fuel m m' f c, cstr m c l → cstr m' c l →
  flags_loop fuel m' f c = flags_loop fuel m f c ∧
  ∀ v c', flags_loop fuel m f c = Ok (v, c') → c ≤ c' ≤ c + length l.
Proof.
  induction l as [|x l IH]; intros [|fuel] m m' f c H H'; cbn [flags_loop]; try done.
  - rewrite (cstr_nil _ _ H), (cstr_nil _ _ H'), !bind_Ok. split; [done|].
    intros v c' [= <- <-]. simpl. lia.
  - apply cstr_cons in H as (-> & _ & H), H' as (-> & _ & H'). rewrite !bind_Ok.
    repeat match goal with |- context [x =? ?y] => destruct (x =? y) end;
      try (split; [done|]; intros v c' [= <- <-]; simpl; lia);
      match goal with |- flags_loop _ _ ?g _ = _ ∧ _ =>
        destruct (IH fuel m m' g (c + 1) H H') as [-> Hk] end;
      (split; [done|]; intros v c' E; apply Hk in E; simpl; lia).
Qed.

Lemma length_loop_local : ∀ fuel l m m' f c, cstr m c l → cstr m' c l →
  length_loop fuel m' f c = length_loop fuel m f c ∧
  ∀ v c', length_loop fuel m f c = Ok (v, c') → c ≤ c' ≤ c + length l.
Proof.
  induction fuel as [|fuel IH]; intros l m m' f c H H'; cbn [length_loop]; [done|].
  destruct l as [|x l].
  - rewrite (cstr_nil _ _ H), (cstr_nil _ _ H'), !bind_Ok. split; [done|].
    intros v c' [= <- <-]. simpl. lia.
  - apply cstr_cons in H as (-> & _ & H), H' as (-> & _ & H'). rewrite !bind_Ok.
    repeat match goal with |- context [if ?b then _ else _] => destruct b end;
      try (split; [done|]; intros v c' [= <- <-]; simpl; lia);
      match goal with |- length_loop _ _ ?g _ = _ ∧ _ =>
        destruct (IH l m m' g (c + 1) H H') as [-> Hk] end;
      (split; [done|]; intros v c' E; apply Hk in E; simpl; lia).
Qed.

(** The rest of a string. *)
Lemma cstr_drop m a l (k : Z) : cstr m a l → 0 ≤ k ≤ length l → cstr m (a + k) (drop (Z.to_nat k) l).
Proof.
  intros [H Hl] Hk. split; [|by apply Forall_drop].
  rewrite <- (take_drop (Z.to_nat k) l), <- app_assoc in H. apply bytes_at_app in H as [_ H].
  rewrite length_take_le in H by lia. by rewrite Z2Nat.id in H by lia.
Qed.

(** The first character; behind it the string goes on unless it was the NUL. *)
Lemma cstr_head m m' a l : cstr m a l → cstr m' a l →
  ∃ x, load8 m a = Ok x ∧ load8 m' a = Ok x ∧
    (x = 0 ∧ l = [] ∨ x ≠ 0 ∧ ∃ l', l = x :: l' ∧ cstr m (a + 1) l' ∧ cstr m' (a + 1) l').
Proof.
  destruct l as [|x l]; intros H H'.
  - exists 0. rewrite (cstr_nil _ _ H), (cstr_nil _ _ H'). auto.
  - apply cstr_cons in H as (E & Hx & H), H' as (E' & _ & H'). exists x.
    split; [done|]. split; [done|]. right. split; [lia|]. eauto.
Qed.

Lemma scan_number_local l m m' c : size m' = size m → cstr m c l → cstr m' c l →
  scan_number m' c = scan_number m c ∧
  ∀ v c', scan_number m c = Ok (v, c') → c ≤ c' ≤ c + length l.
Proof. intros Hs H H'. unfold scan_number. rewrite Hs. by apply number_loop_local. Qed.

Lemma parameter_local : local_parser fs_process_parameter.
Proof.
  intros l m m' c Hs H H'. unfold fs_process_parameter.
  destruct (cstr_head m m' c l H H') as (x & -> & -> & _). rewrite !bind_Ok.
  destruct (_ || _); [|rewrite !bind_Ok; split; [done|]; intros v k [= <- <-]; lia].
  destruct (scan_number_local l m m' c Hs H H') as [-> Hk].
  destruct (scan_number m c) as [[p c']|]; [|done]. rewrite !bind_Ok.
  specialize (Hk p c' eq_refl).
  pose proof (cstr_drop m c l (c' - c) H ltac:(lia)) as D.
  pose proof (cstr_drop m' c l (c' - c) H' ltac:(lia)) as D'.
  replace (c + (c' - c)) with c' in D, D' by lia.
  destruct (cstr_head m m' c' _ D D') as (y & -> & -> & Hy). rewrite !bind_Ok.
  destruct (Z.eqb_spec y (chr "$")) as [->|]; cbn [negb]; rewrite !bind_Ok;
    (split; [done|]); intros v k [= <- <-]; [|lia].
  destruct Hy as [[? _]|(_ & l' & E & _)]; [done|].
  apply (f_equal length) in E. rewrite length_drop in E. simpl in E. lia.
Qed.

Lemma flags_local : local_parser fs_process_flags.
Proof.
  intros l m m' c Hs H H'. unfold fs_process_flags. rewrite Hs.
  destruct (flags_loop_local l (S (size m)) m m' FLAGS_NONE c H H') as [-> Hk].
  destruct (flags_loop _ m _ c) as [[f c']|]; [|done]. rewrite !bind_Ok.
  specialize (Hk f c' eq_refl). split; [done|]. intros v k [= <- <-]. lia.
Qed.

Lemma length_local : local_parser fs_process_length.
Proof.
  intros l m m' c Hs H H'. unfold fs_process_length.
  destruct (length_loop_local 3 l m m' LENGTH_NONE c H H') as [-> Hk].
  destruct (length_loop _ m _ c) as [[f c']|]; [|done]. rewrite !bind_Ok.
  specialize (Hk f c' eq_refl). split; [done|]. intros v k [= <- <-]. lia.
Qed.

Lemma width_local : local_parser fs_process_width.
Proof.
  intros l m m' c Hs H H'. unfold fs_process_width.
  destruct (cstr_head m m' c l H H') as (x & -> & -> & Hx). rewrite !bind_Ok.
  destruct (isdigit x).
  - destruct (scan_number_local l m m' c Hs H H') as [-> Hk].
    destruct (scan_number m c) as [[p c']|]; [|done]. rewrite !bind_Ok.
    specialize (Hk p c' eq_refl). split; [done|]. intros v k [= <- <-]. lia.
  - destruct (Z.eqb_spec x (chr "*")) as [->|]; (split; [done|]); intros v k [= <- <-]; [|lia].
    destruct Hx as [[? _]|(_ & l' & -> & _)]; [done|]. simpl. lia.
Qed.

Lemma precision_local : local_parser fs_process_precision.
Proof.
  intros l m m' c Hs H H'. unfold fs_process_precision.
  destruct (cstr_head m m' c l H H') as (x & -> & -> & Hx). rewrite !bind_Ok.
  destruct (Z.eqb_spec x (chr ".")) as [->|]; [|split; [done|]; intros v k [= <- <-]; lia].
  destruct Hx as [[? _]|(_ & l' & -> & D & D')]; [done|].
  destruct (cstr_head m m' _ l' D D') as (y & -> & -> & Hy). rewrite !bind_Ok.
  destruct (isdigit y).
  - destruct (scan_number_local l' m m' _ Hs D D') as [-> Hk].
    destruct (scan_number m (c + 1)) as [[p c']|]; [|done]. rewrite !bind_Ok.
    specialize (Hk p c' eq_refl). split; [done|]. intros v k [= <- <-]. simpl. lia.
  - destruct (Z.eqb_spec y (chr "*")) as [->|]; (split; [done|]); intros v k [= <- <-]; simpl; [|lia].
    destruct Hy as [[? _]|(_ & l'' & -> & _)]; [done|]. simpl. lia.
Qed.

Lemma type_of_char_consumed x : 0 ≤ (type_of_char x).2 ≤ 1.
Proof. unfold type_of_char. by repeat (destruct (x =? _); [done|]). Qed.

Lemma type_local : local_parser fs_process_type.
Proof.
  intros l m m' c Hs H H'. unfold fs_process_type.
  destruct (cstr_head m m' c l H H') as (x & -> & -> & Hx). rewrite !bind_Ok. split; [done|].
  intros v k E. injection E as E. destruct Hx as [[-> ->]|(Hx & l' & -> & _)].
  - injection E as _ <-. simpl. lia.
  - pose proof (type_of_char_consumed x) as Hk. rewrite E in Hk. simpl in *. lia.
Qed.

(** The whole specifier. *)
Lemma fs_process_local : local_parser fs_process.
Proof.
  intros l m m' c Hs H H'. unfold fs_process.
  assert (∀ k, 0 ≤ k ≤ length l → ∃ l', cstr m (c + k) l' ∧ cstr m' (c + k) l' ∧ k + length l' = length l) as Hd.
  { intros k Hk. exists (drop (Z.to_nat k) l). rewrite length_drop.
    split; [by apply cstr_drop|]. split; [by apply cstr_drop|lia]. }
  assert (∀ {A B} (g : mem → Z → res (A * Z)) (k : Z) (cont cont' : A → Z → res (B * Z)),
    local_parser g → 0 ≤ k ≤ length l →
    (∀ a j, 0 ≤ k + j ≤ length l → cont' a j = cont a j ∧ ∀ v n, cont a j = Ok (v, n) → 0 ≤ n ≤ length l) →
    ('(a, j) ← g m' (c + k); cont' a j) = ('(a, j) ← g m (c + k); cont a j) ∧
    ∀ v n, ('(a, j) ← g m (c + k); cont a j) = Ok (v, n) → 0 ≤ n ≤ length l) as Hstep.
  { intros A B g k cont cont' Hg Hk Hc. destruct (Hd k Hk) as (l' & D & D' & Hl).
    destruct (Hg l' m m' (c + k) Hs D D') as [-> Hj].
    destruct (g m (c + k)) as [[a j]|]; [|done]. rewrite !bind_Ok. apply Hc.
    specialize (Hj a j eq_refl). lia. }
  replace (fs_process_parameter m' c) with (fs_process_parameter m' (c + 0)) by (f_equal; lia).
  replace (fs_process_parameter m c) with (fs_process_parameter m (c + 0)) by (f_equal; lia).
  apply Hstep; [apply parameter_local|lia|]. intros parameter k0 H0.
  apply Hstep; [apply flags_local|lia|]. intros flags k1 H1.
  rewrite <- !(Z.add_assoc c).
  apply Hstep; [apply width_local|lia|]. intros width k2 H2. rewrite <- !(Z.add_assoc c).
  apply Hstep; [apply precision_local|lia|]. intros precision k3 H3. rewrite <- !(Z.add_assoc c).
  apply Hstep; [apply length_local|lia|]. intros length_ k4 H4. rewrite <- !(Z.add_assoc c).
  apply Hstep; [apply type_local|lia|]. intros [type tm] k5 H5. rewrite <- !(Z.add_assoc c).
  unfold fs_process_next_char.
  destruct (Hd (k0 + k1 + k2 + k3 + k4 + k5) ltac:(lia)) as (l' & D & D' & _).
  destruct (cstr_head m m' _ l' D D') as (y & -> & -> & _). rewrite !bind_Ok.
  split; [done|]. intros v n [= _ <-]. lia.
Qed.

(** ** Characters and strings *)

Lemma repeat_loop_ok : ∀ (n fuel : nat) m d sz num c,
  Z.of_nat n = Z.min sz num → 0 ≤ sz → 0 ≤ num → (n < fuel)%nat → mapped m d n → is_u8 c →
  repeat_loop fuel m d sz num c = Ok (put_bytes m d (replicate n c), d + n).
Proof.
  induction n as [|n IH]; intros [|fuel] m d sz num c Hn Hs Hc Hf Hm Hu; try lia; cbn [repeat_loop].
  - destruct (Z.eqb_spec sz 0), (Z.eqb_spec num 0); cbn [negb andb]; try lia;
      simpl; by rewrite Z.add_0_r.
  - destruct (Z.eqb_spec sz 0), (Z.eqb_spec num 0); try lia; cbn [negb andb].
    apply mapped_cons in Hm as [Hm0 Hm].
    rewrite store8_u8, bind_Ok, IH by (done || lia || auto with cmem). simpl. do 2 f_equal. lia.
Qed.

(** How many characters [print_char] and [print_str] print at most. *)
Definition char_count (f : fs) : Z :=
  if negb (fs_precision f =? PRECISION_NONE) then u32 (fs_precision f) else 1.

Lemma print_char_ok m dst sz val f :
  0 ≤ sz → is_u8 val →
  let out := take (Z.to_nat sz) (replicate (Z.to_nat (char_count f)) val) in
  mapped m dst (length out) → print_char m dst sz val f = Ok (put_bytes m dst out, Z.of_nat (length out)).
Proof.
  intros Hs Hv out Hm. unfold print_char. fold (char_count f).
  assert (0 ≤ char_count f) as Hc by (unfold char_count; case_match; word_lia).
  unfold out in *. rewrite take_replicate, length_replicate in *.
  pose proof (mapped_size _ _ _ Hm).
  rewrite (repeat_loop_ok (Z.to_nat sz `min` Z.to_nat (char_count f))), bind_Ok by (done || lia).
  do 2 f_equal. lia.
Qed.

Lemma str_loop_ok : ∀ (s : list Z) (fuel : nat) m d p len,
  0 ≤ len → (length s < fuel)%nat → cstr m p s → apart d (length (take (Z.to_nat len) s)) p (length s + 1) →
  mapped m d (length (take (Z.to_nat len) s)) →
  str_loop fuel m d p len = Ok (put_bytes m d (take (Z.to_nat len) s), d + length (take (Z.to_nat len) s)).
Proof.
  induction s as [|c s IH]; intros [|fuel] m d p len Hlen Hf Hp Ha Hm; simpl in Hf; try lia; cbn [str_loop].
  - rewrite (cstr_nil _ _ Hp), bind_Ok, take_nil. simpl. by rewrite Z.add_0_r.
  - apply cstr_cons in Hp as (E & Hc & Hp). rewrite E, bind_Ok.
    destruct (Z.eqb_spec c 0); [lia|]. destruct (Z.eqb_spec len 0) as [->|Hne]; cbn [negb andb].
    { simpl. by rewrite Z.add_0_r. }
    replace (Z.to_nat len) with (S (Z.to_nat (len - 1))) in * by lia. cbn [take length] in *.
    apply mapped_cons in Hm as [Hm0 Hm]. rewrite store8_u8, bind_Ok by (done || word_lia).
    rewrite IH; [simpl; do 2 f_equal; lia|lia|lia| | |by auto with cmem].
    + change (<[d := c]> m) with (put_bytes m d [c]). apply cstr_frame; [done|].
      unfold apart in *. simpl in *. lia.
    + unfold apart in *. lia.
Qed.

Definition str_text (s : list Z) (f : fs) : list Z :=
  if negb (fs_precision f =? PRECISION_NONE) then take (Z.to_nat (u32 (fs_precision f))) s else s.

Lemma print_str_ok m dst sz p s f :
  0 ≤ sz → cstr m p s →
  let out := take (Z.to_nat sz) (str_text s f) in
  apart dst (length out) p (length s + 1) →
  mapped m dst (length out) → print_str m dst sz p f = Ok (put_bytes m dst out, Z.of_nat (length out)).
Proof.
  intros Hs Hp out Ha Hm. unfold print_str.
  set (len := if negb _ then _ else sz).
  assert (out = take (Z.to_nat (if sz <? len then sz else len)) s) as Eo.
  { unfold out, str_text, len. destruct (negb _).
    - rewrite take_take. f_equal. destruct (Z.ltb_spec sz (u32 (fs_precision f))); word_lia.
    - f_equal. by destruct (sz <? sz). }
  assert (0 ≤ len) by (unfold len; destruct (negb _); word_lia).
  assert (0 ≤ if sz <? len then sz else len) by by destruct (sz <? len).
  pose proof (cstr_length _ _ _ Hp).
  rewrite Eo in *. rewrite (str_loop_ok s), bind_Ok by (done || lia). do 2 f_equal. lia.
Qed.

(** ** Format strings *)

(** The text of the argument(s) a specifier takes; nothing is said of
    floating-point numbers. *)
Inductive arg_text (m : mem) (f : fs) : va_list → list Z → va_list → Prop :=
| text_char val args : fs_type f = TYPE_CHAR →
    arg_text m f (VInt val :: args) (replicate (Z.to_nat (char_count f)) (u8 val)) args
| text_str p s args : fs_type f = TYPE_STR → cstr m p s →
    arg_text m f (VPtr p :: args) (str_text s f) args
| text_int v args args' : fs_type f = TYPE_INT → small_fs f →
    va_integer (fs_length f) args = Ok (v, args') → arg_text m f args (int_text v f) args'
| text_percent args : fs_type f = TYPE_PERCENT → arg_text m f args [chr "%"] args
| text_none args : fs_type f ∉ [TYPE_CHAR; TYPE_STR; TYPE_INT; TYPE_DOUBLE; TYPE_PERCENT] →
    arg_text m f args [] args.

(** The format string at [fmt] with the arguments renders to a text; [pct] when
    there are percent signs in it. *)
Inductive renders (m : mem) : Z → va_list → list Z → bool → Prop :=
| renders_end fmt args : load8 m fmt = Ok 0 → renders m fmt args [] false
| renders_char fmt c args out pct :
    load8 m fmt = Ok c → c ≠ 0 → c ≠ chr "%" → renders m (fmt + 1) args out pct →
    renders m fmt args (c :: out) pct
| renders_spec fmt f k f1 f2 args args1 args2 args3 txt out pct :
    load8 m fmt = Ok (chr "%") → fs_process m (fmt + 1) = Ok (f, k) →
    fetch_width f args = Ok (f1, args1) → fetch_precision f1 args1 = Ok (f2, args2) →
    arg_text m f2 args2 txt args3 → renders m (fmt + 1 + k) args3 out pct →
    renders m fmt args (txt ++ out) ((fs_type f2 =? TYPE_PERCENT) || pct).

Section rendering.
Context (frexpf : fp → fp * Z) (modff : fp → fp * fp) (expf : fp → fp).

(** A string that is the same in two memories and clear of the [n] bytes at [b]. *)
Definition clear_str (m0 m : mem) (b : Z) (n : nat) (p : Z) : Prop :=
  ∀ s, cstr m0 p s → cstr m p s ∧ apart b n p (length s + 1).

Lemma clear_put m0 m b n p d l :
  clear_str m0 m b n p → b ≤ d → d + length l ≤ b + n → clear_str m0 (put_bytes m d l) b n p.
Proof.
  intros H Hd Hl s Hs. destruct (H s Hs) as [Hc Ha]. split; [|done].
  apply cstr_frame; [done|]. unfold apart in *. lia.
Qed.

(** One argument: [room] is what is left of the buffer. *)
Lemma print_arg_ok m m0 d room b n f args txt args' :
  arg_text m0 f args txt args' → 0 ≤ room < 4294967296 →
  (∀ p, VPtr p ∈ args → clear_str m0 m b n p) →
  (fs_type f = TYPE_PERCENT → 0 < room) →
  let out := take (Z.to_nat room) txt in
  b ≤ d → d + length out ≤ b + n → mapped m d (length out) →
  print_arg frexpf modff expf m d room f args = Ok (put_bytes m d out, Z.of_nat (length out), args').
Proof.
  intros Ht Hr Hs Hpct out Hd Hn Hm. unfold print_arg.
  destruct Ht as [val args E|p s args E Hp|v args args' E Hf Hv|args E|args E].
  - rewrite E. simpl. by rewrite print_char_ok by (done || apply u8_range || lia).
  - rewrite E. simpl. destruct (Hs p) with (s := s) as [Hc Ha]; [left|done|].
    rewrite (print_str_ok _ _ _ _ s) by (done || lia || (unfold apart in *; fold out; lia)). done.
  - rewrite E. simpl. rewrite Hv, bind_Ok. by rewrite print_int_ok.
  - rewrite E. simpl. specialize (Hpct E). destruct (Z.eqb_spec room 0); [lia|]. simpl.
    unfold out in *. rewrite (take_ge [_]) in * by (simpl; lia).
    apply mapped_cons in Hm as [Hm0 _]. by rewrite store8_u8 by (done || apply char_u8).
  - rewrite !not_elem_of_cons in E. destruct E as (E1 & E2 & E3 & E4 & E5 & _).
    do 5 (rewrite (proj2 (Z.eqb_neq _ _)) by done).
    unfold out. rewrite take_nil. done.
Qed.

Lemma size_put_bytes m d l : mapped m d (length l) → size (put_bytes m d l) = size m.
Proof.
  revert m d. induction l as [|c l IH]; intros m d Hm; simpl; [done|].
  apply mapped_cons in Hm as [[x Hx] Hm]. rewrite IH by auto with cmem.
  by rewrite map_size_insert, Hx.
Qed.

Lemma va_int_args args i args1 : va_int args = Ok (i, args1) → args1 ⊆ args.
Proof. destruct args as [|[]]; intros H; simplify_eq/=; set_solver. Qed.

Lemma fetch_width_args f args f1 args1 : fetch_width f args = Ok (f1, args1) → args1 ⊆ args.
Proof.
  unfold fetch_width. destruct (_ =? _); [|by intros [= _ <-]].
  intros ([w a] & Hw & H)%bind_Ok_inv. apply va_int_args in Hw. destruct (w <? 0); inv_ok; set_solver.
Qed.

Lemma fetch_precision_args f args f1 args1 : fetch_precision f args = Ok (f1, args1) → args1 ⊆ args.
Proof.
  unfold fetch_precision. destruct (_ =? _); [|by intros [= _ <-]].
  intros ([w a] & Hw & H)%bind_Ok_inv. apply va_int_args in Hw. inv_ok. set_solver.
Qed.

Lemma arg_text_args m f args txt args1 : arg_text m f args txt args1 → args1 ⊆ args.
Proof.
  destruct 1 as [| |v args args' _ _ H| |]; try set_solver.
  unfold va_integer in H.
  do 2 (destruct (_ =? _); [destruct args as [|[]]; simplify_eq/=; set_solver|]).
  by apply va_int_args in H.
Qed.

Lemma arg_text_percent m f args txt args1 :
  arg_text m f args txt args1 → fs_type f = TYPE_PERCENT → txt = [chr "%"].
Proof.
  destruct 1 as [? ? E|? ? ? E|? ? ? E|? E|? E]; intros T; rewrite T in E; try done.
  destruct E. rewrite !elem_of_cons. tauto.
Qed.

(** The loop over the format string. *)
Lemma print_loop_ok m0 b (n : nat) fmt args out pct :
  renders m0 fmt args out pct →
  ∀ l fuel m d room, cstr m0 fmt l → cstr m fmt l → apart b n fmt (length l + 1) →
  (length l < fuel)%nat → 0 ≤ room < 4294967296 → (pct = true → length out ≤ room) →
  (∀ p, VPtr p ∈ args → clear_str m0 m b n p) →
  size m = size m0 → b ≤ d → d + length (take (Z.to_nat room) out) ≤ b + n → mapped m b n →
  print_loop frexpf modff expf fuel m d room fmt args =
    Ok (put_bytes m d (take (Z.to_nat room) out), d + length (take (Z.to_nat room) out)).
Proof.
  induction 1 as [fmt args E|fmt c args out pct E Hc0 Hc H IH
    |fmt f k f1 f2 args args1 args2 args3 txt out pct E Hf Hw Hp Ht H IH];
    intros l [|fuel] m d room Hl Hl' Ha Hfuel Hr Hpct Hargs Hs Hd Hn Hm; try lia; cbn [print_loop];
    destruct (cstr_head m0 m fmt l Hl Hl') as (x & Ex & -> & Hx);
    rewrite E in Ex; injection Ex as <-; rewrite bind_Ok.
  - rewrite take_nil. simpl. by rewrite Z.add_0_r.
  - destruct (Z.eqb_spec c 0); [done|]. destruct (Z.eqb_spec c (chr "%")); [done|]. cbn [negb].
    destruct Hx as [[? _]|(_ & l' & -> & D & D')]; [done|].
    apply cstr_cons in Hl as (_ & Hcu & _). simpl in Hfuel, Hpct.
    assert (apart b n (fmt + 1) (length l' + 1)) as Ha' by (unfold apart in *; simpl in *; lia).
    destruct (Z.eqb_spec room 0) as [->|Hne]; cbn [negb].
    + apply (IH l'); try done; lia.
    + replace (Z.to_nat room) with (S (Z.to_nat (room - 1))) in * by lia. cbn [take length] in *.
      assert (is_Some (m !! d)) as Hmd by (apply Hm; lia).
      rewrite store8_u8, bind_Ok by (done || word_lia).
      change (<[d := c]> m) with (put_bytes m d [c]).
      rewrite (IH l'); try done; try lia.
      * simpl. do 2 f_equal. lia.
      * apply cstr_frame; [done|]. unfold apart in *. simpl in *. lia.
      * intros p Hp. apply clear_put; [by apply Hargs|done|simpl; lia].
      * rewrite size_put_bytes; [done|]. intros i Hi. apply Hm. simpl in Hi. lia.
      * by apply put_bytes_mapped.
  - destruct Hx as [[? _]|(_ & l' & -> & D & D')]; [done|]. change (chr "%" =? 0) with false.
    change (chr "%" =? chr "%") with true. cbn [negb]. cbv zeta.
    apply cstr_cons in Hl as (_ & _ & Hl). simpl in Hfuel, Hpct.
    destruct (fs_process_local l' m0 m (fmt + 1) Hs D D') as [-> Hk]. specialize (Hk _ _ Hf).
    rewrite Hf, bind_Ok, Hw, bind_Ok, Hp, bind_Ok.
    pose proof (fetch_width_args _ _ _ _ Hw) as S1. pose proof (fetch_precision_args _ _ _ _ Hp) as S2.
    pose proof (arg_text_args _ _ _ _ _ Ht) as S3.
    pose proof (arg_text_percent _ _ _ _ _ Ht) as Htp.
    assert (args2 ⊆ args ∧ args3 ⊆ args) as [T2 T3] by (clear -S1 S2 S3; set_solver).
    rewrite take_app, length_app in Hn. set (t := take (Z.to_nat room) txt) in *.
    assert (length t = Z.to_nat room `min` length txt)%nat as Ht' by apply length_take.
    rewrite (print_arg_ok m m0 d room b n f2 args2 txt args3); try done; try lia.
    + rewrite bind_Ok. fold t. rewrite u32_small by word_lia.
      rewrite (IH (drop (Z.to_nat k) l')); try lia.
      * rewrite take_app, put_bytes_app, length_app. fold t.
        replace (Z.to_nat room - length txt)%nat with (Z.to_nat (room - length t)) by lia.
        do 2 f_equal. lia.
      * by apply cstr_drop.
      * apply cstr_frame; [by apply cstr_drop|]. rewrite length_drop. unfold apart in *. simpl in *. lia.
      * rewrite length_drop. unfold apart in *. simpl in *. lia.
      * rewrite length_drop. lia.
      * intros ->. rewrite orb_true_r, length_app in Hpct. specialize (Hpct eq_refl). lia.
      * intros p' Hp'. apply clear_put; [by apply Hargs, T3|done|lia].
      * rewrite size_put_bytes; [done|]. intros i Hi. apply Hm. lia.
      * replace (Z.to_nat room - length txt)%nat with (Z.to_nat (room - length t)) in Hn by lia. lia.
      * by apply put_bytes_mapped.
    + intros p' Hp'. by apply Hargs, T2.
    + intros T. rewrite T in Hpct. specialize (Hpct eq_refl). rewrite (Htp T) in Hpct. simpl in Hpct. lia.
    + fold t. lia.
    + fold t. intros i Hi. apply Hm. lia.
Qed.
End rendering.

(** ** Properties *)

(** C6: [vsnprintf] puts the text that the format string renders to with its
    arguments into the buffer, cut off after [sz - 1] characters, behind it a
    NUL, and nothing anywhere else; it returns the number of characters it put
    there.  The strings must be clear of the buffer; the output of a format that
    prints percent signs must fit as a whole, since the code does not look whether
    there is room for a percent sign. *)
Theorem vsnprintf_renders frexpf modff expf m str sz fmt l args out pct :
  cstr m fmt l → renders m fmt args out pct → 0 < sz < 4294967296 →
  (pct = true → length out < sz) →
  let printed := take (Z.to_nat (sz - 1)) out in
  mapped m str (S (length printed)) → apart str (S (length printed)) fmt (length l + 1) →
  (∀ p s, VPtr p ∈ args → cstr m p s → apart str (S (length printed)) p (length s + 1)) →
  vsnprintf frexpf modff expf m str sz fmt args =
    Ok (put_bytes m str (printed ++ [0]), Z.of_nat (length printed)).
Proof.
  intros Hl Hout Hsz Hpct printed Hm Ha Hargs. unfold vsnprintf.
  destruct (Z.ltb_spec 0 sz); [|lia]. pose proof (cstr_length _ _ _ Hl).
  rewrite (print_loop_ok frexpf modff expf m str (S (length printed)) fmt args out pct Hout l); try done; try lia.
  - fold printed. rewrite bind_Ok, store8_put by (apply put_bytes_mapped; intros i Hi; apply Hm; lia).
    rewrite bind_Ok, put_bytes_app. do 2 f_equal. lia.
  - intros p Hp s Hs. split; [done|]. by apply Hargs.
  - fold printed. lia.
Qed.

(** The text of an integer: spaces up to the given width, the sign (or the
    prefix of a hexadecimal number), zeros as precision or width demand, and
    digits that read as the absolute value of the argument in its C type (but for
    negative numbers of type [char]). *)
Theorem print_int_prints m dst sz v f :
  small_fs f → 0 ≤ sz < 4294967296 → (fs_length f = LENGTH_CHAR → 0 ≤ int_value v f) →
  let out := take (Z.to_nat sz) (int_text v f) in
  mapped m dst (length out) →
  print_int m dst sz v f = Ok (put_bytes m dst out, Z.of_nat (length out)) ∧
  (fs_width f ≠ WIDTH_NONE → fs_width f ≤ length (int_text v f)) ∧
  (∃ k z num, int_text v f = replicate k (chr " ") ++ int_prefix v f ++ replicate z (chr "0") ++ num ∧
    digits_value (int_base f) num = Z.abs (int_value v f)).
Proof.
  intros Hf Hs Hc out Hm. split; [by apply print_int_ok|]. split.
  - intros Hw. unfold int_text. rewrite (proj2 (Z.eqb_neq _ _) Hw). cbn [negb].
    destruct (flag (fs_flags f) FLAGS_ZERO && _); cbn [andb]; rewrite !length_app, !length_replicate; lia.
  - unfold int_text. eexists _, _, _. split; [reflexivity|].
    rewrite (numeral_value _ (int_base_range f)), int_magnitude_abs; [done..|apply magnitude_digits].
Qed.

(** ** Witnesses *)

(** [snprintf(buf, 6, "%d-%s", 1234, "abcdef")]. *)
Definition render_mem : mem := stdio_mem 6 "%d-%s" "abcdef".
Definition render_args : va_list := [VInt 1234; VPtr 3000].

Lemma render_cstr fmt arg : Forall (λ c, 0 < c < 256) (map chr (list_ascii_of_string fmt)) →
  (length (list_ascii_of_string fmt) < 100)%nat →
  cstr (stdio_mem 6 fmt arg) 2000 (map chr (list_ascii_of_string fmt)).
Proof.
  intros H Hl. split; [|done]. unfold stdio_mem. apply put_bytes_bytes_at_other; [|apply put_bytes_bytes_at].
  right. rewrite length_app, length_map. simpl. lia.
Qed.

Lemma render_arg_cstr fmt arg : Forall (λ c, 0 < c < 256) (map chr (list_ascii_of_string arg)) →
  cstr (stdio_mem 6 fmt arg) 3000 (map chr (list_ascii_of_string arg)).
Proof. intros H. split; [|done]. apply put_bytes_bytes_at. Qed.

Definition spec_d : fs :=
  mk_fs FLAGS_NONE PARAMETER_NONE WIDTH_NONE PRECISION_NONE LENGTH_NONE TYPE_INT TYPEMOD_NONE (chr "-").
Definition spec_s : fs :=
  mk_fs FLAGS_NONE PARAMETER_NONE WIDTH_NONE PRECISION_NONE LENGTH_NONE TYPE_STR TYPEMOD_NONE 0.
Definition render_word : list Z := map chr (list_ascii_of_string "abcdef").
Definition render_out : list Z := int_text 1234 spec_d ++ chr "-" :: str_text render_word spec_s ++ [].

Lemma render_word_cstr : cstr render_mem 3000 render_word.
Proof. apply render_arg_cstr. repeat constructor; vm_compute; reflexivity. Qed.

Lemma render_demo : renders render_mem 2000 render_args render_out false.
Proof.
  apply (renders_spec render_mem 2000 spec_d 1 spec_d spec_d render_args render_args render_args [VPtr 3000]
    (int_text 1234 spec_d) (chr "-" :: str_text render_word spec_s ++ []) false);
    [vm_compute; reflexivity..| |].
  { apply text_int; [done|vm_compute; repeat split; congruence|done]. }
  apply renders_char; [vm_compute; reflexivity|done|done|].
  apply (renders_spec render_mem 2003 spec_s 1 spec_s spec_s [VPtr 3000] [VPtr 3000] [VPtr 3000] []
    (str_text render_word spec_s) [] false); [vm_compute; reflexivity..| |].
  { apply text_str; [done|apply render_word_cstr]. }
  apply renders_end. vm_compute. reflexivity.
Qed.

Lemma vsnprintf_renders_witness :
  vsnprintf demo_frexpf demo_modff demo_expf render_mem 1000 6 2000 render_args =
    Ok (put_bytes render_mem 1000 (text "1234-"), 5).
Proof.
  refine (vsnprintf_renders demo_frexpf demo_modff demo_expf render_mem 1000 6 2000 (map chr (list_ascii_of_string "%d-%s"))
    render_args render_out false _ _ _ _ _ _ _).
  - apply render_cstr; [repeat constructor; vm_compute; reflexivity|vm_compute; lia].
  - exact render_demo.
  - lia.
  - discriminate.
  - apply (mapped_le _ _ 6); [vm_compute; lia|]. do 2 apply put_bytes_mapped.
    apply (bytes_at_mapped _ _ (replicate 6 0xee)), put_bytes_bytes_at.
  - left. vm_compute. congruence.
  - intros p s Hp Hs. left. apply elem_of_cons in Hp as [[=]|Hp]. apply list_elem_of_singleton in Hp. injection Hp as ->.
    vm_compute. congruence.
Defined.

Lemma print_int_prints_witness :
  print_int (put_bytes ∅ 0 (replicate 8 0)) 0 8 (-42) (mk_fs FLAGS_NONE PARAMETER_NONE 5 PRECISION_NONE
    LENGTH_NONE TYPE_INT TYPEMOD_NONE 0) = Ok (put_bytes (put_bytes ∅ 0 (replicate 8 0)) 0 [32; 32; 45; 52; 50], 5).
Proof.
  refine (proj1 (print_int_prints (put_bytes ∅ 0 (replicate 8 0)) 0 8 (-42) (mk_fs FLAGS_NONE PARAMETER_NONE 5
    PRECISION_NONE LENGTH_NONE TYPE_INT TYPEMOD_NONE 0) _ _ _ _)).
  - split; vm_compute; split; congruence.
  - lia.
  - discriminate.
  - apply (mapped_le _ _ 8); [vm_compute; lia|]. apply (bytes_at_mapped _ _ (replicate 8 0)), put_bytes_bytes_at.
Defined.
