(* ===== verification/ScanSpec.v ===== *)
(** * What the scanning routines scan

    Integers that were printed are read back; every scan of every string with
    every format comes to an end. *)
From Stdlib Require Import SpecFloat Ascii String.
From S2P Require Import Prelude CString Stdio Double Printf PrintSpec.

(** ** Digits *)

Definition is_digit (b c : Z) : Prop := ∃ d, 0 ≤ d < b ∧ c = digit_char d.

Lemma digit_char_cases d : 0 ≤ d < 16 → d = 0 ∨ d = 1 ∨ d = 2 ∨ d = 3 ∨ d = 4 ∨ d = 5 ∨ d = 6 ∨ d = 7 ∨
  d = 8 ∨ d = 9 ∨ d = 10 ∨ d = 11 ∨ d = 12 ∨ d = 13 ∨ d = 14 ∨ d = 15.
Proof. lia. Qed.

(** What is known of the character of a digit. *)
Lemma digit_char_facts d : 0 ≤ d < 16 →
  tolower (digit_char d) = digit_char d ∧ 0 < digit_char d < 256 ∧ isspace (digit_char d) = false ∧
  digit_char d ≠ chr "+" ∧ digit_char d ≠ chr "-" ∧ digit_char d ≠ chr "x" ∧
  (d < 10 → digit_char d ≠ chr "b").
Proof.
  intros H. destruct (digit_char_cases d H) as [->|H']; [vm_compute; repeat split; try done; congruence|].
  repeat (destruct H' as [->|H']; [vm_compute; repeat split; try done; congruence|]).
  subst d. vm_compute. repeat split; try done; congruence.
Qed.

Lemma numeral_digits b : 2 ≤ b ≤ 16 → ∀ k v, Forall (is_digit b) (numeral k b v).
Proof.
  intros Hb. induction k as [|k IH]; intros v; simpl; [constructor|].
  apply Forall_app_2; [by destruct (v <? b)|]. repeat constructor. exists (v mod b). split; [lia|done].
Qed.

(** The buffer of [scan_int]: no leading zeros, and a value. *)
Definition int_buf (b : Z) (buf : list Z) (V : Z) : Prop :=
  foldl (λ ull v, u64 (ull * b + v)) 0 buf = V ∧
  (buf = [] ∧ V = 0 ∨ buf ≠ [] ∧ b ^ (length buf - 1) ≤ V).

Lemma int_buf_short b buf V : 2 ≤ b → int_buf b buf V → V < b ^ 20 → length buf ≤ 20.
Proof.
  intros Hb [_ [[-> _]|[_ H]]] HV; [simpl; lia|].
  destruct (decide (length buf ≤ 20)); [done|].
  pose proof (Z.pow_le_mono_r b 20 (length buf - 1) ltac:(lia) ltac:(lia)). lia.
Qed.

(** One digit more. *)
Lemma int_buf_digit b buf V d :
  2 ≤ b → int_buf b buf V → 0 ≤ V → 0 ≤ d < b → V * b + d < 18446744073709551616 →
  int_buf b (if negb (d =? 0) || negb (Z.of_nat (length buf) =? 0) then buf ++ [d] else buf) (V * b + d).
Proof.
  intros Hb [E Hw] HV Hd Hlt. destruct (Z.eqb_spec d 0) as [->|Hd0]; cbn [negb orb].
  - destruct (Z.eqb_spec (length buf) 0) as [H0|H0]; cbn [negb].
    + destruct buf; [|simpl in H0; lia]. simpl in E. subst V. split; [done|]. by left.
    + destruct Hw as [[-> _]|[Hne Hw]]; [done|]. split.
      * rewrite foldl_app, E. simpl. unfold u64. rewrite Z.mod_small; lia.
      * right. split; [by destruct buf|]. rewrite length_app. simpl.
        replace ((length buf + 1)%nat - 1) with (1 + (length buf - 1)) by lia.
        rewrite Z.pow_add_r, Z.pow_1_r by lia. nia.
  - split; [rewrite foldl_app, E; simpl; unfold u64; rewrite Z.mod_small; lia|].
    right. split; [by destruct buf|]. rewrite length_app. simpl.
    destruct Hw as [[-> ->]|[Hne Hw]]; [simpl; change (b ^ 0) with 1; lia|].
    replace ((length buf + 1)%nat - 1) with (1 + (length buf - 1)) by (destruct buf; simpl in *; [done|lia]).
    rewrite Z.pow_add_r, Z.pow_1_r by (destruct buf; simpl in *; [done|lia]). nia.
Qed.

Lemma digits_value_cons b c l : digits_value b (c :: l) = digit_value c * b ^ length l + digits_value b l.
Proof.
  induction l as [|x l IH] using rev_ind; [unfold digits_value; simpl; change (b ^ 0) with 1; lia|].
  rewrite app_comm_cons, !digits_value_snoc, IH, length_app. simpl.
  replace (Z.of_nat (length l + 1)%nat) with (Z.of_nat (length l) + 1) by lia.
  rewrite Z.pow_add_r, Z.pow_1_r by lia. lia.
Qed.

Lemma digits_value_nonneg b l : 2 ≤ b ≤ 16 → Forall (is_digit b) l → 0 ≤ digits_value b l.
Proof.
  intros Hb. induction 1 as [|c l (d & Hd & ->) _ IH]; [done|].
  rewrite digits_value_cons, digit_value_char by lia. pose proof (Z.pow_nonneg b (length l) ltac:(lia)). nia.
Qed.

(** The state [I_INT] reads all digits up to the end of the string. *)
Lemma scan_digits m tm b sign : 2 ≤ b ≤ 16 → ∀ ds fuel s sz n buf V,
  cstr m s ds → Forall (is_digit b) ds → (length ds + 2 ≤ fuel)%nat → length ds ≤ sz < 4294967296 →
  int_buf b buf V → 0 ≤ V → 0 ≤ n → 0 < n + length ds →
  V * b ^ length ds + digits_value b ds < b ^ 20 →
  V * b ^ length ds + digits_value b ds < 18446744073709551616 →
  ∃ buf', scan_int_loop fuel m tm s sz (mk_int_scan I_INT b sign n buf) =
      Ok (mk_int_scan I_END b sign (n + length ds) buf', s + length ds) ∧
    int_buf b buf' (V * b ^ length ds + digits_value b ds).
Proof.
  intros Hb. induction ds as [|c ds IH]; intros fuel s sz n buf V Hs Hds Hf Hsz Hbuf HV Hn Hpos Hlt Hlt64.
  - destruct fuel as [|[|fuel]]; simpl in Hf; try lia. cbn [scan_int_loop is_state].
    rewrite decide_False by (intros [?|?]; done). rewrite (cstr_nil _ _ Hs), bind_Ok. cbn [int_step].
    change (tolower 0 =? 0) with true. cbn [orb]. simpl in Hpos.
    destruct (Z.eqb_spec n 0); [lia|]. cbn [negb]. rewrite decide_True by by left.
    exists buf. unfold digits_value. simpl. rewrite !Z.add_0_r, Z.mul_1_r. done.
  - destruct fuel as [|fuel]; simpl in Hf; [lia|]. cbn [scan_int_loop is_state].
    rewrite decide_False by (intros [?|?]; done).
    apply Forall_cons_1 in Hds as [(d & Hd & ->) Hds]. apply cstr_cons in Hs as (E & _ & Hs).
    destruct (digit_char_facts d ltac:(lia)) as (Hlow & Hc & _).
    rewrite E, bind_Ok, Hlow. cbn [length] in *.
    destruct (Z.eqb_spec (digit_char d) 0); [lia|]. destruct (Z.eqb_spec sz 0); [lia|]. cbn [orb int_step].
    rewrite digit_value_char by lia. unfold is_base_digit. rewrite !u32_small by word_lia.
    destruct (Z.ltb_spec d b); [|lia].
    rewrite digits_value_cons, digit_value_char in Hlt, Hlt64 |- * by lia.
    pose proof (digits_value_nonneg b ds Hb Hds) as Hnn.
    pose proof (Z.pow_pos_nonneg b (length ds) ltac:(lia) ltac:(lia)) as Hp.
    replace (Z.of_nat (S (length ds))) with (1 + Z.of_nat (length ds)) in * by lia.
    rewrite (Z.pow_add_r b 1), Z.pow_1_r in * by lia.
    assert (0 ≤ V * b ∧ V ≤ V * b) as [HVb HVle] by nia.
    assert (V * b + d ≤ (V * b + d) * b ^ length ds) as Hle by nia.
    replace (V * (b * b ^ length ds) + (d * b ^ length ds + digits_value b ds))
      with ((V * b + d) * b ^ length ds + digits_value b ds) in * by lia.
    assert (V < b ^ 20 ∧ V * b + d < 18446744073709551616) as [HV20 Hd64] by lia.
    pose proof (int_buf_short b buf V ltac:(lia) Hbuf HV20) as Hshort.
    pose proof (int_buf_digit b buf V d ltac:(lia) Hbuf HV Hd Hd64) as Hbuf'.
    change SCAN_BUF with 30. destruct (Z.ltb_spec (length buf) 30); [|lia]. rewrite andb_true_r.
    destruct (IH fuel (s + 1) (sz - 1) (n + 1) _ _ Hs Hds ltac:(lia) ltac:(lia) Hbuf'
      ltac:(lia) ltac:(lia) ltac:(lia) Hlt Hlt64) as (buf' & E' & Hb').
    exists buf'. rewrite (u32_small (sz - 1)), E' by (clear -Hsz; word_lia). split; [do 2 f_equal; [f_equal; lia|lia]|done].
Qed.

Lemma isspace_zero : isspace 0 = false.
Proof. reflexivity. Qed.

(** Leading space. *)
Lemma space_loop_ok : ∀ k fuel m s sz t,
  cstr m s (replicate k (chr " ") ++ t) → (k < fuel)%nat → k + length t ≤ sz →
  match t with c :: _ => isspace c = false | [] => False end →
  space_loop fuel m s sz = Ok (s + k, sz - k).
Proof.
  induction k as [|k IH]; intros [|fuel] m s sz t Hs Hf Hsz Ht; try lia; cbn [space_loop].
  - destruct t as [|c t]; [done|]. apply cstr_cons in Hs as (E & Hc & _). simpl in Hsz.
    destruct (Z.eqb_spec sz 0); [lia|]. rewrite E, bind_Ok, Ht, andb_false_r. do 2 f_equal; lia.
  - cbn [replicate app] in Hs. apply cstr_cons in Hs as (E & _ & Hs).
    destruct (Z.eqb_spec sz 0); [lia|]. rewrite E, bind_Ok.
    change (negb (chr " " =? 0) && isspace (chr " ")) with true. cbn match.
    rewrite (IH fuel m (s + 1) (sz - 1) t) by (done || lia). do 2 f_equal; lia.
Qed.

(** One round on a character that is there. *)
Lemma scan_int_round fuel m tm s sz st x t :
  cstr m s (x :: t) → 0 < sz < 4294967296 → is_state st ≠ I_END → is_state st ≠ I_ERR →
  tolower x ≠ 0 →
  scan_int_loop (S fuel) m tm s sz st =
    let '(st, advance) := int_step tm (tolower x) false st in
    scan_int_loop fuel m tm (s + advance) (u32 (sz - advance)) st.
Proof.
  intros Hs Hsz H1 H2 Hx. cbn [scan_int_loop]. rewrite decide_False by tauto.
  apply cstr_cons in Hs as (E & _ & _). rewrite E, bind_Ok.
  destruct (Z.eqb_spec (tolower x) 0); [done|]. destruct (Z.eqb_spec sz 0); [lia|]. done.
Qed.

(** The optional sign. *)
Definition sign_text (sign : Z) : list Z :=
  if sign =? 1 then [chr "+"] else if sign =? -1 then [chr "-"] else [].

Definition after_sign (tm : Z) : int_state :=
  if flag tm (Z.lor TYPEMOD_HEX TYPEMOD_BASE_FROM_PREFIX) then I_PREFIX else I_INT.

Lemma scan_sign fuel m tm s sz base sign x t :
  sign = 1 ∨ sign = -1 ∨ sign = 0 →
  cstr m s (sign_text sign ++ x :: t) → length (sign_text sign) < sz < 4294967296 →
  tolower x ≠ 0 → tolower x ≠ chr "+" → tolower x ≠ chr "-" →
  scan_int_loop (S fuel) m tm s sz (mk_int_scan I_SIGN base 0 0 []) =
    scan_int_loop fuel m tm (s + length (sign_text sign)) (sz - length (sign_text sign))
      (mk_int_scan (after_sign tm) base sign 0 []).
Proof.
  intros Hsign Hs Hsz Hx0 Hxp Hxm.
  destruct Hsign as [->|[->| ->]]; cbn [sign_text Z.eqb Pos.eqb app length] in *;
    (erewrite scan_int_round; [|exact Hs|lia|done|done|done]); cbn [int_step];
    fold (after_sign tm).
  - change (tolower (chr "+") =? chr "+") with true. cbn [orb]. rewrite u32_small by word_lia. done.
  - change (tolower (chr "-") =? chr "+") with false. change (tolower (chr "-") =? chr "-") with true.
    cbn [orb]. rewrite u32_small by word_lia. done.
  - rewrite (proj2 (Z.eqb_neq _ _) Hxp), (proj2 (Z.eqb_neq _ _) Hxm). cbn [orb].
    rewrite u32_small by word_lia. do 2 f_equal; lia.
Qed.

(** The prefix: none in front of a numeral, or [0x]. *)
Lemma scan_no_prefix fuel m tm s sz B b sign ds :
  (B = 16 ∧ b = 16) ∨ (B = 0 ∧ b = 10) →
  cstr m s ds → ds ≠ [] → Forall (is_digit b) ds → length ds ≤ sz < 4294967296 →
  scan_int_loop (S (S fuel)) m tm s sz (mk_int_scan I_PREFIX B sign 0 []) =
    scan_int_loop fuel m tm s sz (mk_int_scan I_INT b sign 0 []).
Proof.
  intros HB Hs Hne Hds Hsz. destruct ds as [|c1 ds]; [done|].
  apply Forall_cons_1 in Hds as [(d1 & Hd1 & ->) Hds].
  destruct (digit_char_facts d1) as (L1 & C1 & _); [destruct HB as [[_ ->]|[_ ->]]; lia|].
  cbn [length] in Hsz.
  erewrite scan_int_round; [|exact Hs|lia|done|done|rewrite L1; lia]. rewrite L1.
  cbn [int_step app]. rewrite u32_small by word_lia.
  apply cstr_cons in Hs as (_ & _ & Hs).
  destruct ds as [|c2 ds].
  - cbn [scan_int_loop is_state]. rewrite decide_False by (intros [?|?]; done).
    rewrite (cstr_nil _ _ Hs), bind_Ok. change (tolower 0 =? 0) with true. cbn [orb int_step length].
    replace (s + 1 + - (1%nat)) with s by lia. rewrite u32_small by word_lia.
    replace (sz - 1 - - (1%nat)) with sz by lia. by destruct HB as [[-> ->]|[-> ->]].
  - apply Forall_cons_1 in Hds as [(d2 & Hd2 & ->) Hds]. simpl in Hsz.
    destruct (digit_char_facts d2) as (L2 & C2 & _ & _ & _ & Nx & Nb); [destruct HB as [[_ ->]|[_ ->]]; lia|].
    erewrite scan_int_round; [|exact Hs|lia|done|done|rewrite L2; lia]. rewrite L2. cbn [int_step].
    rewrite (proj2 (Z.eqb_neq _ _) Nx), andb_false_r.
    assert (s + 1 + (1 - 2) = s ∧ u32 (sz - 1 - (1 - 2)) = sz) as [Es Ez] by word_lia.
    destruct HB as [[-> ->]|[-> ->]].
    + destruct (_ && _); cbn; by rewrite Es, Ez.
    + rewrite (proj2 (Z.eqb_neq _ _) (Nb ltac:(lia))), andb_false_r. cbn. by rewrite Es, Ez.
Qed.

Lemma scan_0x_prefix fuel m tm s sz sign ds :
  cstr m s (chr "0" :: chr "x" :: ds) → 2 + length ds ≤ sz < 4294967296 →
  scan_int_loop (S (S fuel)) m tm s sz (mk_int_scan I_PREFIX 16 sign 0 []) =
    scan_int_loop fuel m tm (s + 2) (sz - 2) (mk_int_scan I_INT 16 sign 0 []).
Proof.
  intros Hs Hsz. erewrite scan_int_round; [|exact Hs|lia|done..].
  change (tolower (chr "0")) with (chr "0"). cbn [int_step app]. rewrite u32_small by word_lia.
  apply cstr_cons in Hs as (_ & _ & Hs).
  erewrite scan_int_round; [|exact Hs|lia|done..]. change (tolower (chr "x")) with (chr "x").
  cbn [int_step]. change ((chr "0" =? chr "0") && (chr "x" =? chr "x")) with true. cbn.
  rewrite u32_small by word_lia. replace (s + 1 + 1) with (s + 2) by lia.
  by replace (sz - 1 - 1) with (sz - 2) by lia.
Qed.

(** ** Integers *)

(** The modifiers of the types [d], [i], [u], [x] and [X]. *)
Definition plain_modifiers (tm : Z) : Prop :=
  tm ∈ [TYPEMOD_NONE; TYPEMOD_BASE_FROM_PREFIX; TYPEMOD_UNSIGNED; Z.lor TYPEMOD_UNSIGNED TYPEMOD_HEX;
        Z.lor (Z.lor TYPEMOD_UNSIGNED TYPEMOD_HEX) TYPEMOD_CAPITAL].

Lemma cstr_app m a l1 l2 : cstr m a (l1 ++ l2) → cstr m (a + length l1) l2.
Proof.
  intros H. apply (cstr_drop _ _ _ (length l1)) in H; [|rewrite length_app; lia].
  by rewrite Nat2Z.id, drop_app_length in H.
Qed.

(** The prefix state and what follows, for each set of modifiers. *)
Lemma scan_after_sign fuel m tm s sz b sign (hex : bool) ds :
  plain_modifiers tm → b = (if flag tm TYPEMOD_HEX then 16 else 10) →
  (hex = true → flag tm TYPEMOD_HEX = true) →
  let pre := if hex then [chr "0"; chr "x"] else [] in
  cstr m s (pre ++ ds) → ds ≠ [] → Forall (is_digit b) ds → length (pre ++ ds) ≤ sz < 4294967296 →
  ∃ fuel', (fuel ≤ fuel')%nat ∧
    scan_int_loop (S (S fuel)) m tm s sz (mk_int_scan (after_sign tm) (scan_base tm) sign 0 []) =
    scan_int_loop fuel' m tm (s + length pre) (sz - length pre) (mk_int_scan I_INT b sign 0 []).
Proof.
  intros Htm Hb Hhex pre Hs Hne Hds Hsz. unfold pre in *. clear pre.
  assert (∀ B, (B = 16 ∧ b = 16) ∨ (B = 0 ∧ b = 10) → hex = false →
    scan_int_loop (S (S fuel)) m tm s sz (mk_int_scan I_PREFIX B sign 0 []) =
    scan_int_loop fuel m tm (s + length (@nil Z)) (sz - length (@nil Z)) (mk_int_scan I_INT b sign 0 [])) as Hno.
  { intros B HB ->. rewrite (scan_no_prefix fuel m tm s sz B b sign ds) by done.
    simpl. by rewrite Z.add_0_r, Z.sub_0_r. }
  unfold plain_modifiers in Htm. rewrite !elem_of_cons in Htm.
  destruct Htm as [->|[->|[->|[->|[->|Htm]]]]]; [..|by apply elem_of_nil in Htm];
    cbn in Hb; subst b; (destruct hex; [try (by specialize (Hhex eq_refl)) | ]);
    cbn [length app] in *.
  1,3: exists (S (S fuel)); (split; [lia|]); by rewrite Z.add_0_r, Z.sub_0_r.
  1: exists fuel; split; [lia|]; apply (Hno 0); [by right|done].
  1,3: exists fuel; split; [lia|]; apply (scan_0x_prefix _ _ _ _ _ _ ds Hs); lia.
  all: exists fuel; split; [lia|]; apply (Hno 16); [by left|done].
Qed.

(** What [scan_int] makes of spaces, a sign or a prefix, and digits. *)
Lemma scan_text m s sz tm k sign (hex : bool) ds b V fuel :
  plain_modifiers tm → b = (if flag tm TYPEMOD_HEX then 16 else 10) →
  sign = 1 ∨ sign = -1 ∨ sign = 0 → (hex = true → flag tm TYPEMOD_HEX = true ∧ sign = 0) →
  let body := sign_text sign ++ (if hex then [chr "0"; chr "x"] else []) ++ ds in
  cstr m s (replicate k (chr " ") ++ body) → ds ≠ [] → Forall (is_digit b) ds →
  digits_value b ds = V → V < b ^ 20 → V < 18446744073709551616 →
  length (replicate k (chr " ") ++ body) ≤ sz < 4294967296 → (length body + 6 ≤ fuel)%nat →
  ∃ buf, scan_int_loop fuel m tm (s + k) (sz - k) (mk_int_scan I_SIGN (scan_base tm) 0 0 []) =
    Ok (mk_int_scan I_END b sign (length ds) buf, s + length (replicate k (chr " ") ++ body)) ∧
    int_buf b buf V.
Proof.
  intros Htm Hb Hsign Hhex body Hs Hne Hds HV Hlt Hlt64 Hsz Hfuel.
  assert (2 ≤ b ≤ 16) as Hb16 by (subst b; destruct (flag _ _); lia).
  assert (cstr m (s + k) body) as Hbody.
  { apply cstr_app in Hs. by rewrite length_replicate in Hs. }
  rewrite length_app, length_replicate in Hsz |- *.
  set (pre := if hex then [chr "0"; chr "x"] else []) in *.
  assert (∃ x t, pre ++ ds = x :: t ∧ tolower x ≠ 0 ∧ tolower x ≠ chr "+" ∧ tolower x ≠ chr "-") as (x & t & Ex & X0 & Xp & Xm).
  { unfold pre. destruct hex; [by eexists _, _|]. destruct ds as [|c ds]; [done|].
    apply Forall_cons_1 in Hds as [(d & Hd & ->) _]. exists (digit_char d), ds.
    destruct (digit_char_facts d) as (-> & ? & _ & ? & ? & _); [lia|]. repeat split; [lia|done..]. }
  unfold body in *. rewrite Ex in Hbody. rewrite Ex, length_app in Hsz, Hfuel. cbn [length] in Hsz, Hfuel.
  destruct fuel as [|[|[|fuel]]]; try lia.
  rewrite (scan_sign _ _ _ _ _ _ sign x t) by (done || lia).
  apply cstr_app in Hbody. rewrite <- Ex in Hbody.
  assert (length (pre ++ ds) = S (length t)) as El by by rewrite Ex.
  destruct (scan_after_sign fuel m tm (s + k + length (sign_text sign)) (sz - k - length (sign_text sign))
    b sign hex ds) as (fuel' & Hf' & ->); [done..| |exact Hbody|done|done|fold pre; lia|].
  { intros ->. by apply Hhex. }
  fold pre. apply cstr_app in Hbody. rewrite length_app in El.
  destruct (scan_digits m tm b sign Hb16 ds fuel' (s + k + length (sign_text sign) + length pre)
    (sz - k - length (sign_text sign) - length pre) 0 [] 0) as (buf & -> & Hbuf); try done; try lia.
  - split; [done|by left].
  - destruct ds; [done|simpl; lia].
  - exists buf. rewrite Z.mul_0_l, Z.add_0_l, HV in Hbuf. split; [|done].
    rewrite !length_app. do 2 f_equal. lia.
Qed.

Lemma digits_value_zeros b z l : digits_value b (replicate z (chr "0") ++ l) = digits_value b l.
Proof.
  induction z as [|z IH]; [done|]. cbn [replicate app]. rewrite digits_value_cons, IH.
  change (digit_value (chr "0")) with 0. lia.
Qed.

Lemma zeros_digits b z : 2 ≤ b → Forall (is_digit b) (replicate z (chr "0")).
Proof. intros Hb. apply Forall_replicate. exists 0. split; [lia|done]. Qed.

Lemma numeral_not_nil b v : numeral 20 b v ≠ [].
Proof. cbn [numeral]. intros H. by apply app_eq_nil in H as [_ H]. Qed.

(** The parts of a printed integer as [scan_int] sees them. *)
Lemma int_text_parts v f :
  ∃ k sign (hex : bool) ds,
    int_text v f = replicate k (chr " ") ++ sign_text sign ++ (if hex then [chr "0"; chr "x"] else []) ++ ds ∧
    (sign = 1 ∨ sign = -1 ∨ sign = 0) ∧
    (hex = true → flag (fs_type_modifiers f) TYPEMOD_HEX = true ∧ sign = 0) ∧
    ds ≠ [] ∧ Forall (is_digit (int_base f)) ds ∧ digits_value (int_base f) ds = int_magnitude v f ∧
    int_negative v f = (sign =? -1).
Proof.
  pose proof (int_base_range f) as Hb. unfold int_text.
  set (num := numeral 20 (int_base f) (int_magnitude v f)).
  set (k := if _ && _ then _ else _). set (z := if _ && _ then _ else _). clearbody k z.
  set (ds := replicate z (chr "0") ++ num).
  assert (ds ≠ []) as Hne.
  { intros H. apply app_eq_nil in H as [_ H]. by apply numeral_not_nil in H. }
  assert (Forall (is_digit (int_base f)) ds) as Hds.
  { apply Forall_app_2; [apply zeros_digits; lia|by apply numeral_digits]. }
  assert (digits_value (int_base f) ds = int_magnitude v f) as Hv.
  { unfold ds. rewrite digits_value_zeros. apply numeral_value; [done|apply magnitude_digits]. }
  unfold int_prefix. destruct (int_negative v f) eqn:Eneg.
  { exists k, (-1), false, ds. split; [done|]. split; [by right; left|]. done. }
  destruct (flag (fs_type_modifiers f) TYPEMOD_UNSIGNED); cbn [negb].
  - destruct (flag (fs_flags f) FLAGS_HASH && (int_base f =? 16)) eqn:Eh.
    + exists k, 0, true, ds. split; [done|]. split; [by right; right|]. split; [|done].
      apply andb_true_iff in Eh as [_ Eh]. intros _. split; [|done].
      unfold int_base in Eh. by destruct (flag (fs_type_modifiers f) TYPEMOD_HEX).
    + exists k, 0, false, ds. split; [done|]. split; [by right; right|]. done.
  - destruct (flag (fs_flags f) FLAGS_PLUS); [|destruct (flag (fs_flags f) FLAGS_SPACE)].
    + exists k, 1, false, ds. split; [done|]. split; [by left|]. done.
    + exists (k + 1)%nat, 0, false, ds. split; [|split; [by right; right|done]].
      rewrite replicate_add, <- app_assoc. done.
    + exists k, 0, false, ds. split; [done|]. split; [by right; right|]. done.
Qed.

(** Stores look at the bits of the value they store only. *)
Lemma store16_u16 m a v : store16 m a (u16 v) = store16 m a v.
Proof.
  unfold store16, store8. destruct (m !! a); [|done]. rewrite !bind_Ok.
  replace (u8 (u16 v)) with (u8 v) by word_lia. by replace (u8 (u16 v / 256)) with (u8 (v / 256)) by word_lia.
Qed.

Lemma store32_u32 m a v : store32 m a (u32 v) = store32 m a v.
Proof.
  unfold store32. rewrite <- (store16_u16 m a (u32 v)), <- (store16_u16 m a v).
  replace (u16 (u32 v)) with (u16 v) by word_lia.
  destruct (store16 m a (u16 v)) as [m'|]; [|done]. rewrite !bind_Ok.
  rewrite <- (store16_u16 m' _ (u32 v / 65536)), <- (store16_u16 m' _ (v / 65536)).
  by replace (u16 (u32 v / 65536)) with (u16 (v / 65536)) by word_lia.
Qed.

Lemma store_scanned_eq m val v f sign :
  fs_length f ≠ LENGTH_CHAR → int_negative v f = (sign =? -1) →
  store_scanned m val (if sign =? -1 then u64 (- int_magnitude v f) else int_magnitude v f) f =
  store_scanned m val v f.
Proof.
  intros Hc Hneg. rewrite <- Hneg. clear Hneg.
  rewrite int_magnitude_abs by done.
  set (X := if int_negative v f then u64 (- Z.abs (int_value v f)) else Z.abs (int_value v f)).
  assert (if fs_length f =? LENGTH_LONG_LONG then u64 X = u64 v
          else if fs_length f =? LENGTH_SHORT then u16 X = u16 v else u32 X = u32 v) as HX.
  { unfold X, int_negative, int_value, val_ll, val_l, val_s, val_i. unfold_sext.
    rewrite (proj2 (Z.eqb_neq _ _) Hc). clear X.
    destruct (Z.eqb_spec (fs_length f) LENGTH_LONG_LONG) as [_|].
    { destruct (flag _ _); [word_lia|].
      match goal with |- context [if ?a <? 0 then _ else _] => destruct (Z.ltb_spec a 0) end; word_lia. }
    destruct (Z.eqb_spec (fs_length f) LENGTH_SHORT) as [E|].
    { rewrite E. change (LENGTH_SHORT =? LENGTH_LONG) with false. destruct (flag _ _); [word_lia|].
      match goal with |- context [if ?a <? 0 then _ else _] => destruct (Z.ltb_spec a 0) end; word_lia. }
    destruct (flag _ _); [word_lia|]. destruct (fs_length f =? LENGTH_LONG);
      match goal with |- context [if ?a <? 0 then _ else _] => destruct (Z.ltb_spec a 0) end; word_lia. }
  unfold store_scanned. destruct (fs_length f =? LENGTH_LONG_LONG).
  - rewrite <- (store32_u32 m val X), <- (store32_u32 m val v). replace (u32 X) with (u32 v) by word_lia.
    destruct (store32 m val (u32 v)) as [m'|]; [|done]. rewrite !bind_Ok.
    rewrite <- (store32_u32 m' _ (X / _)), <- (store32_u32 m' _ (v / _)).
    by replace (u32 (X / 4294967296)) with (u32 (v / 4294967296)) by word_lia.
  - destruct (fs_length f =? LENGTH_SHORT).
    + by rewrite <- store16_u16, HX, store16_u16.
    + by rewrite <- store32_u32, HX, store32_u32.
Qed.

(** ** Termination

    [returns r]: the fuel of the loops in [r] was enough. *)
Definition returns {A} (r : res A) : Prop := r ≠ Fault OutOfFuel.

Lemma returns_Ok {A} (a : A) : returns (Ok a).
Proof. done. Qed.

Lemma returns_bind {A B} (r : res A) (g : A → res B) :
  returns r → (∀ a, r = Ok a → returns (g a)) → returns (r ≫= g).
Proof. intros Hr Hg. destruct r as [a|e]; simpl; [by apply Hg|]. intros [= ->]. done. Qed.

Lemma returns_load8 m a : returns (load8 m a).
Proof. unfold load8. by destruct (m !! a). Qed.
Lemma returns_store8 m a v : returns (store8 m a v).
Proof. unfold store8. by destruct (m !! a). Qed.
Lemma returns_ck32 z : returns (ck32 z).
Proof. unfold ck32. by destruct (_ && _). Qed.

Create HintDb returns.
#[export] Hint Resolve returns_Ok returns_load8 returns_store8 returns_ck32 : returns.

(** So many addresses below [c] were accessed that there is fuel for the rest of
    the memory. *)
Definition stepped (fuel : nat) (m : mem) (c : Z) : Prop :=
  ∃ X : gset Z, X ⊆ dom m ∧ (∀ x, x ∈ X → x < c) ∧ (size (dom m) < size X + fuel)%nat.

Lemma stepped_start m c k : (size m < k)%nat → stepped k m c.
Proof. intros H. exists ∅. rewrite size_dom, size_empty. split; [set_solver|]. split; [set_solver|lia]. Qed.

Lemma stepped_pos m c : ¬ stepped 0 m c.
Proof. intros (X & HX & _ & Hk). apply subseteq_size in HX. lia. Qed.

Lemma stepped_next fuel m c c' : stepped (S fuel) m c → is_Some (m !! c) → c < c' → stepped fuel m c'.
Proof.
  intros (X & HX & Hlt & Hk) Hc Hcc. exists (X ∪ {[c]}).
  assert (c ∉ X) as Hn by (intros Hin; specialize (Hlt c Hin); lia).
  split; [apply union_least; [done|]; by apply singleton_subseteq_l, elem_of_dom|].
  split; [intros x [Hx|Hx%elem_of_singleton]%elem_of_union; [specialize (Hlt x Hx); lia|lia]|].
  rewrite size_union, size_singleton by set_solver. lia.
Qed.

Lemma stepped_dom fuel m m' c : dom m' = dom m → stepped fuel m c → stepped fuel m' c.
Proof. unfold stepped. by intros ->. Qed.

Lemma load8_is_Some m a x : load8 m a = Ok x → is_Some (m !! a).
Proof. unfold load8. destruct (m !! a); [by eexists|done]. Qed.

Lemma store8_inv m a v m' : store8 m a v = Ok m' → is_Some (m !! a) ∧ dom m' = dom m.
Proof.
  unfold store8. destruct (m !! a) as [y|] eqn:E; [|done]. intros [= <-].
  split; [by eexists|]. rewrite dom_insert_L. apply subseteq_union_1_L, singleton_subseteq_l.
  by eapply elem_of_dom_2.
Qed.

Lemma stepped_load fuel m c x : stepped (S fuel) m c → load8 m c = Ok x → stepped fuel m (c + 1).
Proof. intros H E. apply (stepped_next fuel m c); [done|by eapply load8_is_Some|lia]. Qed.

Lemma stepped_store fuel m m' c v : stepped (S fuel) m c → store8 m c v = Ok m' → stepped fuel m' (c + 1).
Proof.
  intros H [E D]%store8_inv. apply (stepped_dom _ _ _ _ D). by apply (stepped_next fuel m c); [| |lia].
Qed.

Lemma stepped_load_store fuel m m' c x d v :
  stepped (S fuel) m c → load8 m c = Ok x → store8 m d v = Ok m' → stepped fuel m' (c + 1).
Proof.
  intros H E [_ D]%store8_inv. apply (stepped_dom _ _ _ _ D). by eapply stepped_load.
Qed.

(** A loop that accesses a character and goes on behind it. *)
Ltac step IH :=
  first
    [ apply returns_Ok | apply returns_load8 | apply returns_store8 | apply returns_ck32
    | apply IH; first [ eapply stepped_load; eassumption | eapply stepped_store; eassumption
                      | eapply stepped_load_store; eassumption ]
    | apply returns_bind; [|intros ? ?]
    | match goal with
      | |- returns (Fault _) => done
      | |- returns (if ?b then _ else _) => destruct b
      | |- returns (let '(_, _) := ?p in _) => destruct p
      | |- returns (match ?p with (_, _) => _ end) => destruct p
      end ].

Ltac steps IH := repeat step IH.

Ltac loop_returns fuel IH :=
  induction fuel as [|fuel IH]; intros; [by match goal with H : stepped 0 _ _ |- _ => apply stepped_pos in H end|].

Lemma number_loop_returns fuel : ∀ m p c, stepped fuel m c → returns (number_loop fuel m p c).
Proof. loop_returns fuel IH. cbn [number_loop]. steps IH. Qed.

Lemma flags_loop_returns fuel : ∀ m f c, stepped fuel m c → returns (flags_loop fuel m f c).
Proof. loop_returns fuel IH. cbn [flags_loop]. steps IH. Qed.

Lemma length_loop_returns m c : returns (length_loop 3 m LENGTH_NONE c).
Proof. cbn [length_loop]. steps idtac. Qed.

Lemma scan_number_returns m c : returns (scan_number m c).
Proof. apply number_loop_returns, stepped_start. lia. Qed.

Lemma fs_process_returns m c : returns (fs_process m c).
Proof.
  unfold fs_process, fs_process_parameter, fs_process_flags, fs_process_width, fs_process_precision,
    fs_process_length, fs_process_type, fs_process_next_char.
  repeat first [ apply scan_number_returns | apply length_loop_returns
               | apply flags_loop_returns, stepped_start; lia | step idtac ].
Qed.

(** The position never goes back. *)
Lemma number_loop_mono fuel : ∀ m p c v c', number_loop fuel m p c = Ok (v, c') → c ≤ c'.
Proof.
  induction fuel as [|fuel IH]; intros m p c v c' H; [done|]. cbn [number_loop] in H.
  apply bind_Ok_inv in H as (x & _ & H). destruct (isdigit x); [|by injection H as _ <-].
  inv_ok. apply IH in H. lia.
Qed.

Lemma flags_loop_mono fuel : ∀ m f c v c', flags_loop fuel m f c = Ok (v, c') → c ≤ c'.
Proof.
  induction fuel as [|fuel IH]; intros m f c v c' H; [done|]. cbn [flags_loop] in H.
  apply bind_Ok_inv in H as (x & _ & H).
  repeat match type of H with context [x =? ?y] => destruct (x =? y) end;
    first [apply IH in H; lia|by injection H as _ <-].
Qed.

Lemma length_loop_mono fuel : ∀ m l c v c', length_loop fuel m l c = Ok (v, c') → c ≤ c'.
Proof.
  induction fuel as [|fuel IH]; intros m l c v c' H; [done|]. cbn [length_loop] in H.
  apply bind_Ok_inv in H as (x & _ & H).
  repeat match type of H with (if ?b then _ else _) = _ => destruct b end;
    try (apply IH in H; lia); try destruct (l =? LENGTH_NONE); injection H as _ <-; lia.
Qed.

Lemma scan_number_mono m c v c' : scan_number m c = Ok (v, c') → c ≤ c'.
Proof. apply number_loop_mono. Qed.

(** The steps of a successful parser. *)
Ltac inv_parse :=
  repeat match goal with
  | H : (_ ≫= _) = Ok _ |- _ => apply bind_Ok_inv in H as (? & ? & H)
  | H : (match ?p with (_, _) => _ end) = Ok _ |- _ => destruct p
  | H : (if ?b then _ else _) = Ok _ |- _ => destruct b
  | H : Ok _ = Ok _ |- _ => injection H as H; subst
  end.

Lemma fs_process_nonneg m c f k : fs_process m c = Ok (f, k) → 0 ≤ k.
Proof.
  assert (∀ c v k, fs_process_parameter m c = Ok (v, k) → 0 ≤ k) as H0.
  { intros c' v k' H. unfold fs_process_parameter in H. inv_parse; simplify_eq; try lia;
      match goal with H : scan_number _ _ = Ok _ |- _ => apply scan_number_mono in H end; lia. }
  assert (∀ c v k, fs_process_flags m c = Ok (v, k) → 0 ≤ k) as H1.
  { intros c' v k' H. unfold fs_process_flags in H. inv_parse; simplify_eq.
    match goal with H : flags_loop _ _ _ _ = Ok _ |- _ => apply flags_loop_mono in H end. lia. }
  assert (∀ c v k, fs_process_width m c = Ok (v, k) → 0 ≤ k) as H2.
  { intros c' v k' H. unfold fs_process_width in H. inv_parse; simplify_eq; try lia;
      match goal with H : scan_number _ _ = Ok _ |- _ => apply scan_number_mono in H end; lia. }
  assert (∀ c v k, fs_process_precision m c = Ok (v, k) → 0 ≤ k) as H3.
  { intros c' v k' H. unfold fs_process_precision in H. inv_parse; simplify_eq; try lia;
      match goal with H : scan_number _ _ = Ok _ |- _ => apply scan_number_mono in H end; lia. }
  assert (∀ c v k, fs_process_length m c = Ok (v, k) → 0 ≤ k) as H4.
  { intros c' v k' H. unfold fs_process_length in H. inv_parse; simplify_eq.
    match goal with H : length_loop _ _ _ _ = Ok _ |- _ => apply length_loop_mono in H end. lia. }
  assert (∀ c v k, fs_process_type m c = Ok (v, k) → 0 ≤ k) as H5.
  { intros c' v k' H. unfold fs_process_type in H. inv_parse.
    match goal with H : type_of_char ?x = _ |- _ => pose proof (type_of_char_consumed x) as Hk; rewrite H in Hk end.
    simpl in *. lia. }
  unfold fs_process. intros H. inv_parse. simplify_eq.
  repeat match goal with
  | H : fs_process_parameter _ _ = _ |- _ => apply H0 in H
  | H : fs_process_flags _ _ = _ |- _ => apply H1 in H
  | H : fs_process_width _ _ = _ |- _ => apply H2 in H
  | H : fs_process_precision _ _ = _ |- _ => apply H3 in H
  | H : fs_process_length _ _ = _ |- _ => apply H4 in H
  | H : fs_process_type _ _ = _ |- _ => apply H5 in H
  end. lia.
Qed.

(** *** The scanning routines *)

Lemma eos_loop_returns fuel : ∀ m s n, stepped fuel m s → returns (eos_loop fuel m s n).
Proof. loop_returns fuel IH. cbn [eos_loop]. steps IH. Qed.

Lemma space_loop_returns fuel : ∀ m s sz, stepped fuel m s → returns (space_loop fuel m s sz).
Proof. loop_returns fuel IH. cbn [space_loop]. steps IH. Qed.

Lemma blank_loop_returns fuel : ∀ m s sz, stepped fuel m s → returns (blank_loop fuel m s sz).
Proof. loop_returns fuel IH. cbn [blank_loop]. steps IH. Qed.

Lemma chars_loop_returns fuel : ∀ m d s sz n, stepped fuel m s → returns (chars_loop fuel m d s sz n).
Proof. loop_returns fuel IH. cbn [chars_loop]. steps IH. Qed.

Lemma scan_str_loop_returns fuel : ∀ m d s val max_len nc len q e,
  stepped fuel m s → returns (scan_str_loop fuel m d s val max_len nc len q e).
Proof.
  loop_returns fuel IH. cbn [scan_str_loop]. steps IH.
  destruct (str_step _ _ _ _ _) as [k|q' e' [x|]]; steps IH.
Qed.

(** [scan_int]: in its last state it moves on in every round. *)
Lemma scan_int_ended fuel m tm s sz st :
  is_state st = I_END ∨ is_state st = I_ERR → scan_int_loop (S fuel) m tm s sz st = Ok (st, s).
Proof. intros H. cbn [scan_int_loop]. by rewrite decide_True. Qed.

Lemma scan_int_digits_return fuel : ∀ m tm s sz st,
  stepped fuel m s → is_state st = I_INT → returns (scan_int_loop (S fuel) m tm s sz st).
Proof.
  induction fuel as [|fuel IH]; intros m tm s sz st H Hst; [by apply stepped_pos in H|].
  destruct st as [state base sign n buf]. cbn in Hst. subst state.
  remember (S fuel) as fuel'. cbn [scan_int_loop is_state]. subst fuel'.
  rewrite decide_False by (intros [?|?]; done).
  apply returns_bind; [apply returns_load8|]. intros x E. cbn [int_step].
  destruct (_ || _).
  { destruct (negb _); by rewrite scan_int_ended by (first [by left|by right]). }
  destruct (is_base_digit _ _).
  { apply IH; [by eapply stepped_load|done]. }
  destruct (negb _); by rewrite scan_int_ended by (first [by left|by right]).
Qed.

Lemma scan_int_loop_returns m tm s sz base :
  returns (scan_int_loop (6 + size m) m tm s sz (mk_int_scan I_SIGN base 0 0 [])).
Proof.
  assert (∀ k s sz base sign buf, (size m + 3 ≤ k)%nat → (length buf ≤ 1)%nat →
    (length buf = 0%nat → (size m + 4 ≤ k)%nat) →
    returns (scan_int_loop k m tm s sz (mk_int_scan I_PREFIX base sign 0 buf))) as Hprefix.
  { induction k as [|k IH]; intros s' sz' base' sign buf Hk Hb Hk0; [lia|].
    cbn [scan_int_loop is_state]. rewrite decide_False by (intros [?|?]; done).
    apply returns_bind; [apply returns_load8|]. intros x _. cbn [int_step].
    destruct (_ || _).
    - destruct k as [|k]; [lia|]. apply scan_int_digits_return; [apply stepped_start; lia|done].
    - destruct buf as [|b0 [|]]; simpl in *; [|destruct k as [|k]; [lia|]|lia].
      + apply IH; simpl; lia.
      + apply scan_int_digits_return; [apply stepped_start; lia|done]. }
  change (6 + size m)%nat with (S (S (4 + size m))). remember (S (4 + size m)) as k eqn:Ek.
  cbn [scan_int_loop is_state]. rewrite decide_False by (intros [?|?]; done).
  apply returns_bind; [apply returns_load8|]. intros x _. cbn [int_step].
  destruct (_ || _); [subst k; by rewrite scan_int_ended by by right|]. fold (after_sign tm). unfold after_sign.
  destruct (_ || _), (flag _ _); try (apply Hprefix; simpl; lia);
    (subst k; apply scan_int_digits_return; [apply stepped_start; lia|done]).
Qed.

(** [scan_double]: likewise from the digits on, but for the sign of the exponent. *)
Lemma stepped_mono fuel m c c' : stepped fuel m c → c ≤ c' → stepped fuel m c'.
Proof. intros (X & HX & Hlt & Hk) Hc. exists X. split; [done|]. split; [|done]. intros x Hx. specialize (Hlt x Hx). lia. Qed.

Lemma scan_double_ended fuel m tm s sz st :
  ds_state st = D_END ∨ ds_state st = D_ERR → scan_double_loop (S fuel) m tm s sz st = Ok (st, s).
Proof. intros H. cbn [scan_double_loop]. by rewrite decide_True. Qed.

Lemma scan_double_round fuel m tm s sz st :
  ds_state st ≠ D_END → ds_state st ≠ D_ERR →
  (∀ x st' adv, load8 m s = Ok x →
    dbl_step tm (tolower x) ((tolower x =? 0) || (sz =? 0)) st = Ok (st', adv) →
    returns (scan_double_loop fuel m tm (s + adv) (u32 (sz - adv)) st')) →
  returns (scan_double_loop (S fuel) m tm s sz st).
Proof.
  intros H1 H2 H. cbn [scan_double_loop]. rewrite decide_False by tauto.
  apply returns_bind; [apply returns_load8|]. intros x Ex.
  apply returns_bind; [|intros [st' adv] E; by eapply H].
  destruct st as [state ? ? ? ? ? ? ? ? ?]. destruct state; cbn [dbl_step]; steps idtac.
Qed.

Ltac dbl_cases H :=
  cbn [dbl_step] in H;
  repeat match type of H with
  | (_ ≫= _) = Ok _ => apply bind_Ok_inv in H as (? & _ & H)
  | (if ?b then _ else _) = Ok _ => destruct b
  | (match ?p with (_, _) => _ end) = Ok _ => destruct p
  end; injection H as <- <-.

Lemma exp_int_returns fuel : ∀ m tm s sz st,
  stepped fuel m s → ds_state st = D_EXP_INT → returns (scan_double_loop (S fuel) m tm s sz st).
Proof.
  induction fuel as [|fuel IH]; intros m tm s sz st Hs Hst; [by apply stepped_pos in Hs|].
  apply scan_double_round; [by rewrite Hst..|]. intros x st' adv Ex E.
  destruct st as [state ? ? ? ? ? ? ? ? ?]. cbn in Hst. subst state. dbl_cases E;
    first [by rewrite scan_double_ended by (first [by left|by right])
          |apply IH; [by eapply stepped_load|done]].
Qed.

Lemma exp_sign_returns fuel m tm s sz st :
  stepped fuel m s → ds_state st = D_EXP_SIGN → returns (scan_double_loop (S (S fuel)) m tm s sz st).
Proof.
  intros Hs Hst. apply scan_double_round; [by rewrite Hst..|]. intros x st' adv Ex E.
  destruct st as [state ? ? ? ? ? ? ? ? ?]. cbn in Hst. subst state. cbn [dbl_step] in E.
  destruct (negb _ && _); injection E as <- <-; (apply exp_int_returns; [|done]);
    apply (stepped_mono _ _ s); (done || lia).
Qed.

Lemma int_frac_returns fuel : ∀ m tm s sz st,
  stepped fuel m s → ds_state st = D_INT ∨ ds_state st = D_FRAC →
  returns (scan_double_loop (S (S fuel)) m tm s sz st).
Proof.
  induction fuel as [|fuel IH]; intros m tm s sz st Hs Hst; [by apply stepped_pos in Hs|].
  apply scan_double_round; [by destruct Hst as [->| ->]..|]. intros x st' adv Ex E.
  destruct st as [state ? ? ? ? ? ? ? ? ?]. cbn in Hst.
  destruct Hst as [-> | ->]; cbn [dbl_step] in E;
    (destruct (_ || _); [injection E as <- <-; by rewrite scan_double_ended by by left|]);
    (destruct (is_base_digit _ _);
      [repeat match type of E with context [if ?b then _ else _] => destruct b end; injection E as <- <-;
       (apply IH; [by eapply stepped_load|first [by left|by right]])|]);
    cbn [negb bool_decide decide andb] in E;
    repeat match type of E with (if ?b then _ else _) = Ok _ => destruct b end;
    try (injection E as <- <-; apply IH; [by eapply stepped_load|by right]);
    try (injection E as <- <-; apply exp_sign_returns; [by eapply stepped_load|done]);
    injection E as <- <-; destruct (negb _); by rewrite scan_double_ended by (first [by left|by right]).
Qed.

Lemma dbl_prefix_returns m tm : ∀ k s sz st,
  ds_state st = D_PREFIX → (length (ds_buf st) ≤ 1)%nat → (size m + 5 ≤ k + length (ds_buf st))%nat →
  returns (scan_double_loop k m tm s sz st).
Proof.
  assert (∀ k s sz st, ds_state st = D_INT → (size m + 3 ≤ k)%nat → returns (scan_double_loop k m tm s sz st)) as Hint.
  { intros k s sz st Hst Hk. destruct k as [|[|k]]; try lia.
    apply int_frac_returns; [apply stepped_start; lia|by left]. }
  induction k as [|k IH]; intros s sz st Hst Hb Hk; [lia|].
  apply scan_double_round; [by rewrite Hst..|]. intros x st' adv _ E.
  destruct st as [state sign base es ev e ? ? dn buf]. cbn in Hst, Hb, Hk. subst state. cbn [dbl_step] in E.
  destruct (negb _); [injection E as <- <-; apply Hint; [done|lia]|].
  destruct (_ || _); [injection E as <- <-; apply Hint; [done|lia]|].
  destruct (length (buf ++ [_]) =? 2)%nat eqn:El.
  - destruct (if bool_decide _ then _ else _) in E. injection E as <- <-. apply Hint; [done|lia].
  - injection E as <- <-. apply Nat.eqb_neq in El. rewrite length_app in El. simpl in El.
    apply IH; [done|cbn; rewrite length_app; simpl; lia..].
Qed.

Lemma dbl_special_returns m tm : ∀ k s sz st,
  ds_state st = D_SPECIAL → (length (ds_buf st) ≤ 2)%nat → (size m + 9 ≤ k + length (ds_buf st))%nat →
  returns (scan_double_loop k m tm s sz st).
Proof.
  induction k as [|k IH]; intros s sz st Hst Hb Hk; [lia|].
  apply scan_double_round; [by rewrite Hst..|]. intros x st' adv _ E.
  destruct st as [state sign base es ev e ? ? dn buf]. cbn in Hst, Hb, Hk. subst state. cbn [dbl_step] in E.
  destruct (_ || _); [injection E as <- <-; apply dbl_prefix_returns; cbn; [done|lia..]|].
  destruct k as [|k]; [lia|].
  destruct (is_text _ _ _ _); [injection E as <- <-; by rewrite scan_double_ended by by left|].
  destruct (is_text _ _ _ _); [injection E as <- <-; by rewrite scan_double_ended by by left|].
  destruct (length (buf ++ [_]) =? 3)%nat eqn:El; injection E as <- <-.
  - apply dbl_prefix_returns; cbn; [done|lia..].
  - apply Nat.eqb_neq in El. rewrite length_app in El. simpl in El.
    apply IH; [done|cbn; rewrite length_app; simpl; lia..].
Qed.

Lemma scan_double_loop_returns m tm s sz : returns (scan_double_loop (16 + 2 * size m) m tm s sz dbl_start).
Proof.
  change (16 + 2 * size m)%nat with (S (15 + 2 * size m)). apply scan_double_round; [done..|].
  intros x st' adv _ E. unfold dbl_start in E. cbn [dbl_step] in E.
  destruct (_ && _); injection E as <- <-; apply dbl_special_returns; cbn; (done || lia).
Qed.

(** *** Whole routines: they return, and memory is mapped as before *)

Lemma returns_store16 m a v : returns (store16 m a v).
Proof. unfold store16. steps idtac. Qed.
Lemma returns_store32 m a v : returns (store32 m a v).
Proof. unfold store32. apply returns_bind; [apply returns_store16|]. intros. apply returns_store16. Qed.

Lemma store16_dom m a v m' : store16 m a v = Ok m' → dom m' = dom m.
Proof.
  unfold store16. intros (m1 & [_ D1]%store8_inv & [_ D2]%store8_inv)%bind_Ok_inv. congruence.
Qed.
Lemma store32_dom m a v m' : store32 m a v = Ok m' → dom m' = dom m.
Proof.
  unfold store32. intros (m1 & D1%store16_dom & D2%store16_dom)%bind_Ok_inv. congruence.
Qed.

(** [r] comes to an end and leaves the domain of [m] as it is. *)
Definition tame {A} (m : mem) (r : res (mem * A)) : Prop :=
  returns r ∧ ∀ m' a, r = Ok (m', a) → dom m' = dom m.

Lemma tame_ret {A} m (a : A) : tame m (Ok (m, a)).
Proof. split; [done|]. by intros m' b [= <- _]. Qed.

Lemma tame_bind {A B} m (r : res A) (g : A → res (mem * B)) :
  returns r → (∀ a, r = Ok a → tame m (g a)) → tame m (r ≫= g).
Proof.
  intros Hr Hg. split; [apply returns_bind; [done|]; intros a Ha; by apply Hg|].
  intros m' b (a & Ha & H)%bind_Ok_inv. by eapply Hg.
Qed.

Lemma tame_then {A B} m (r : res (mem * A)) (g : mem → A → res (mem * B)) :
  tame m r → (∀ m' a, dom m' = dom m → tame m' (g m' a)) → tame m ('(m', a) ← r; g m' a).
Proof.
  intros [Hr Hd] Hg. split.
  - apply returns_bind; [done|]. intros [m1 a] E. apply Hg. by eapply Hd.
  - intros m' b ([m1 a] & E & H)%bind_Ok_inv. specialize (Hd _ _ E).
    destruct (Hg m1 a Hd) as [_ Hd']. rewrite <- Hd. by eapply Hd'.
Qed.

Lemma tame_store8 {A} m a v (x : A) : tame m (m' ← store8 m a v; Ok (m', x)).
Proof.
  split; [steps idtac|]. intros m' b (m1 & [_ D]%store8_inv & H)%bind_Ok_inv. by injection H as <- _.
Qed.

Lemma tame_dom {A} m m' (r : res (mem * A)) : dom m' = dom m → tame m r → tame m' r.
Proof. intros E [Hr Hd]. split; [done|]. intros m1 a H. rewrite E. by eapply Hd. Qed.

Lemma chars_loop_dom fuel : ∀ m d s sz n m' s' n', chars_loop fuel m d s sz n = Ok (m', s', n') → dom m' = dom m.
Proof.
  induction fuel as [|fuel IH]; intros m d s sz n m' s' n' H; [done|]. cbn [chars_loop] in H.
  destruct (_ && _); [|by injection H as <-].
  apply bind_Ok_inv in H as (c & _ & H). apply bind_Ok_inv in H as (m1 & [_ D]%store8_inv & H).
  rewrite <- D. by eapply IH.
Qed.

Lemma scan_str_loop_dom fuel : ∀ m d s val k nc len q e m' d' s',
  scan_str_loop fuel m d s val k nc len q e = Ok (m', d', s') → dom m' = dom m.
Proof.
  induction fuel as [|fuel IH]; intros m d s val k nc len q e m' d' s' H; [done|]. cbn [scan_str_loop] in H.
  apply bind_Ok_inv in H as (c & _ & H). destruct (c =? 0); [by injection H as <-|].
  destruct (str_step _ _ _ _ _) as [j|q' e' [x|]]; [by injection H as <-| |by eapply IH].
  destruct (_ && _); [|by eapply IH].
  apply bind_Ok_inv in H as (m1 & [_ D]%store8_inv & H). rewrite <- D. by eapply IH.
Qed.

Lemma scan_char_tame m str sz val f : tame m (scan_char m str sz val f).
Proof.
  unfold scan_char. set (n := if negb (fs_precision f =? _) then _ else _).
  destruct (negb (val =? 0)).
  - apply tame_bind; [apply chars_loop_returns, stepped_start; lia|].
    intros [[m1 s] n1] H%chars_loop_dom. by apply (tame_dom m1), tame_ret.
  - destruct (_ && _); apply tame_ret.
Qed.

Lemma scan_str_tame m str sz val f : tame m (scan_str m str sz val f).
Proof.
  unfold scan_str. apply tame_bind; [apply space_loop_returns, stepped_start; lia|]. intros [s sz1] _.
  apply tame_bind; [destruct (negb _); steps idtac|]. intros max_len _.
  apply tame_bind; [apply scan_str_loop_returns, stepped_start; lia|].
  intros [[m1 d] s'] H%scan_str_loop_dom. apply (tame_dom m1); [done|].
  destruct (negb _); [apply tame_store8|apply tame_ret].
Qed.

Lemma tame_store {A} m (r : res mem) (x : A) :
  returns r → (∀ m', r = Ok m' → dom m' = dom m) → tame m (m' ← r; Ok (m', x)).
Proof.
  intros Hr Hd. split; [apply returns_bind; [done|]; done|].
  intros m' b (m1 & D%Hd & H)%bind_Ok_inv. by injection H as <- _.
Qed.

Lemma store_scanned_tame {A} m val v f (x : A) : tame m (m' ← store_scanned m val v f; Ok (m', x)).
Proof.
  apply tame_store; unfold store_scanned.
  - destruct (_ =? _); [apply returns_bind; [|intros]; apply returns_store32|].
    destruct (_ =? _); [apply returns_store16|apply returns_store32].
  - intros m'. destruct (_ =? _).
    + intros (m1 & D1%store32_dom & D2%store32_dom)%bind_Ok_inv. congruence.
    + destruct (_ =? _); [apply store16_dom|apply store32_dom].
Qed.

Lemma store_double_tame {A} m val v f (x : A) : tame m (m' ← store_double m val v f; Ok (m', x)).
Proof.
  apply tame_store; unfold store_double.
  - destruct (_ || _); [apply returns_bind; [|intros]; apply returns_store32|apply returns_store32].
  - intros m'. destruct (_ || _); [|apply store32_dom].
    intros (m1 & D1%store32_dom & D2%store32_dom)%bind_Ok_inv. congruence.
Qed.

Lemma scan_int_tame m str sz val f : tame m (scan_int m str sz val f).
Proof.
  unfold scan_int. apply tame_bind; [apply space_loop_returns, stepped_start; lia|]. intros [s sz1] _.
  apply tame_bind; [apply scan_int_loop_returns|]. intros [st s'] _.
  destruct (_ || _); [apply tame_ret|apply store_scanned_tame].
Qed.

Lemma scan_double_tame m str sz val f : tame m (scan_double m str sz val f).
Proof.
  unfold scan_double. apply tame_bind; [apply space_loop_returns, stepped_start; lia|]. intros [s sz1] _.
  apply tame_bind; [apply scan_double_loop_returns|]. intros [st s'] _.
  destruct (decide _); [apply tame_ret|]. destruct (val =? 0); [apply tame_ret|].
  apply tame_bind; [unfold scan_double_value; steps idtac|]. intros x _. apply store_double_tame.
Qed.

Lemma scan_arg_tame m str sz ptr f : tame m (scan_arg m str sz ptr f).
Proof.
  unfold scan_arg.
  destruct (_ =? _); [apply scan_char_tame|]. destruct (_ =? _); [apply scan_str_tame|].
  destruct (_ =? _); [apply scan_int_tame|]. destruct (_ =? _); [apply scan_double_tame|].
  destruct (_ =? _); [apply tame_bind; [apply returns_load8|intros; apply tame_ret]|].
  destruct (_ =? _); [|apply tame_ret]. apply tame_bind; [|intros; apply tame_ret].
  unfold scan_eos. set (n := if _ <? _ then _ else _). apply returns_bind; [apply eos_loop_returns, stepped_start; lia|].
  intros. steps idtac.
Qed.

Lemma va_int_returns args : returns (va_int args).
Proof. by destruct args as [|[]]. Qed.
Lemma va_ptr_returns args : returns (va_ptr args).
Proof. by destruct args as [|[]]. Qed.
Lemma fetch_precision_returns f args : returns (fetch_precision f args).
Proof.
  unfold fetch_precision. destruct (_ =? _); [|done]. apply returns_bind; [apply va_int_returns|]. by intros [].
Qed.
Lemma fetch_dest_returns f args : returns (fetch_dest f args).
Proof. unfold fetch_dest. destruct (_ && _); [apply va_ptr_returns|done]. Qed.

Lemma scan_loop_returns fuel : ∀ m str sz fmt args matches,
  stepped fuel m fmt → returns (scan_loop fuel m str sz fmt args matches).
Proof.
  induction fuel as [|fuel IH]; intros m str sz fmt args matches H; [by apply stepped_pos in H|].
  cbn [scan_loop]. apply returns_bind; [apply returns_load8|]. intros c Ec.
  pose proof (stepped_load _ _ _ _ H Ec) as H1.
  destruct (c =? 0); [done|]. destruct (negb (c =? chr "%")).
  - destruct (isspace c).
    + apply returns_bind; [apply blank_loop_returns, stepped_start; lia|]. intros [str' sz'] _. by apply IH.
    + destruct (sz =? 0); [done|]. apply returns_bind; [apply returns_load8|]. intros x _.
      destruct (c =? x); [by apply IH|done].
  - apply returns_bind; [apply fs_process_returns|]. intros [f k] Ef%fs_process_nonneg.
    apply returns_bind; [apply fetch_precision_returns|]. intros [f' args'] _.
    apply returns_bind; [apply fetch_dest_returns|]. intros [ptr args''] _.
    destruct (scan_arg_tame m str sz ptr f') as [Hr Hd].
    apply returns_bind; [done|]. intros [m' n] E. destruct (0 <=? n); [|done].
    apply IH. apply (stepped_dom _ m); [by eapply Hd|]. apply (stepped_mono _ _ (fmt + 1)); [done|lia].
Qed.

(** *** The printing routines *)

Lemma repeat_loop_returns fuel : ∀ m d sz n c, stepped fuel m d → returns (repeat_loop fuel m d sz n c).
Proof. loop_returns fuel IH. cbn [repeat_loop]. steps IH. Qed.

Lemma repeat_loop_dom fuel : ∀ m d sz n c m' d', repeat_loop fuel m d sz n c = Ok (m', d') → dom m' = dom m.
Proof.
  induction fuel as [|fuel IH]; intros m d sz n c m' d' H; [done|]. cbn [repeat_loop] in H.
  destruct (_ && _); [|by injection H as <-].
  apply bind_Ok_inv in H as (m1 & [_ D]%store8_inv & H). rewrite <- D. by eapply IH.
Qed.

Lemma str_loop_returns fuel : ∀ m d s len, stepped fuel m s → returns (str_loop fuel m d s len).
Proof. loop_returns fuel IH. cbn [str_loop]. steps IH. Qed.

Lemma str_loop_dom fuel : ∀ m d s len m' d', str_loop fuel m d s len = Ok (m', d') → dom m' = dom m.
Proof.
  induction fuel as [|fuel IH]; intros m d s len m' d' H; [done|]. cbn [str_loop] in H.
  apply bind_Ok_inv in H as (c & _ & H). destruct (_ && _); [|by injection H as <-].
  apply bind_Ok_inv in H as (m1 & [_ D]%store8_inv & H). rewrite <- D. by eapply IH.
Qed.

Lemma put_chars_tame l : ∀ m d, tame m (put_chars m d l).
Proof.
  induction l as [|c l IH]; intros m d; [apply tame_ret|]. cbn [put_chars].
  apply tame_bind; [apply returns_store8|]. intros m1 [_ D]%store8_inv. by apply (tame_dom m1).
Qed.

Lemma print_char_tame m d sz v f : tame m (print_char m d sz v f).
Proof.
  unfold print_char. fold (char_count f). apply tame_then; [|intros; apply tame_ret]. split.
  - apply repeat_loop_returns, stepped_start. lia.
  - intros m' d'. apply repeat_loop_dom.
Qed.

Lemma print_str_tame m d sz v f : tame m (print_str m d sz v f).
Proof.
  unfold print_str. set (len := if sz <? _ then _ else _). apply tame_then; [|intros; apply tame_ret]. split.
  - apply str_loop_returns, stepped_start. lia.
  - intros m' d'. apply str_loop_dom.
Qed.

Lemma print_int_tame m d sz v f : tame m (print_int m d sz v f).
Proof.
  unfold print_int. rewrite int_digits, bind_Ok.
  apply tame_bind; [unfold int_padding; steps idtac|]. intros [lz ls] _.
  apply tame_bind; [apply returns_ck32|]. intros _ _. destruct (int_limit _ _ _ _ _) as [[[a b] c] e].
  repeat (apply tame_then; [apply put_chars_tame|intros ? ? ?]). apply tame_ret.
Qed.

Section print_doubles.
Context (frexpf : fp → fp * Z) (modff : fp → fp * fp) (expf : fp → fp).

Lemma push_returns sz c buf : returns (push sz c buf).
Proof. unfold push. steps idtac. Qed.

Lemma mantissa_loop_returns k : ∀ pos a b c base v nbuf, returns (mantissa_loop k pos a b c base v nbuf).
Proof.
  induction k as [|k IH]; intros; cbn [mantissa_loop]; [done|].
  repeat first [apply push_returns | apply IH | step idtac].
Qed.

Lemma push_length sz c buf buf' : push sz c buf = Ok buf' → length buf' = S (length buf) ∧ Z.of_nat (length buf) < sz.
Proof.
  unfold push. destruct (Z.leb_spec sz (length buf)); [done|]. intros [= <-]. rewrite length_app. simpl. lia.
Qed.

Lemma exponent_loop_returns : ∀ fuel pos e ebuf, (9 ≤ fuel + length ebuf)%nat → (0 < fuel)%nat →
  returns (exponent_loop fuel pos e ebuf).
Proof.
  induction fuel as [|fuel IH]; intros pos e ebuf H Hf; [lia|]. cbn [exponent_loop].
  destruct (_ || _); [|done]. apply returns_bind; [apply push_returns|].
  intros ebuf' [Hl Hlt]%push_length. unfold EBUF_SIZE in Hlt. apply IH; lia.
Qed.

Lemma int_of_fp_returns x : returns (int_of_fp x).
Proof. destruct x; try done. apply returns_ck32. Qed.

Lemma float_index_returns l i : returns (float_index l i).
Proof. unfold float_index. destruct (i <? 0); [done|]. by destruct (l !! _). Qed.

Lemma render_double_returns x f : returns (render_double frexpf modff expf x f).
Proof.
  unfold render_double, to_base, integer_mantissa, c_assert.
  repeat first [ apply int_of_fp_returns | apply float_index_returns | apply mantissa_loop_returns
               | apply push_returns | apply exponent_loop_returns; simpl; lia | step idtac ].
Qed.

Lemma print_double_tame m d sz v f : tame m (print_double frexpf modff expf m d sz v f).
Proof.
  unfold print_double. set (x := SFabs _). set (minus := SFltb _ _).
  apply tame_bind; [destruct (fp_isinf x); [done|]; destruct (fp_isnan x); [done|apply render_double_returns]|].
  intros [nbuf ebuf] _. apply tame_bind; [unfold double_padding; steps idtac|]. intros [[a b] c] _.
  apply tame_then; [apply put_chars_tame|]. intros. apply tame_ret.
Qed.

Lemma print_arg_tame m s sz f args :
  returns (print_arg frexpf modff expf m s sz f args) ∧
  ∀ m' k args', print_arg frexpf modff expf m s sz f args = Ok (m', k, args') → dom m' = dom m.
Proof.
  assert (∀ {A} (r : res (A * va_list)) (g : A → res (mem * Z)), returns r → (∀ a, tame m (g a)) →
    returns ('(a, args) ← r; '(m', k) ← g a; Ok (m', k, args)) ∧
    ∀ m' k args', ('(a, args) ← r; '(m', k) ← g a; Ok (m', k, args)) = Ok (m', k, args') → dom m' = dom m) as Hstep.
  { intros A r g Hr Hg. split.
    - apply returns_bind; [done|]. intros [a args1] _. apply returns_bind; [apply Hg|]. by intros [].
    - intros m' k args' ([a args1] & _ & ([m1 k1] & E & H)%bind_Ok_inv)%bind_Ok_inv. injection H as <- _ _.
      by eapply Hg. }
  unfold print_arg.
  destruct (_ =? _); [apply Hstep; [apply va_int_returns|intros; apply print_char_tame]|].
  destruct (_ =? _); [apply Hstep; [apply va_ptr_returns|intros; apply print_str_tame]|].
  destruct (_ =? _).
  { apply Hstep; [|intros; apply print_int_tame]. unfold va_integer.
    do 2 (destruct (_ =? _); [by destruct args as [|[]]|]). apply va_int_returns. }
  destruct (_ =? _).
  { apply Hstep; [|intros; apply print_double_tame]. unfold va_double.
    destruct (_ =? _); by destruct args as [|[]]. }
  destruct (_ =? _); [|split; [done|by intros m' k args' [= <- _ _]]].
  destruct (negb _); (split; [steps idtac|]); intros m' k args'.
  - intros (m1 & [_ D]%store8_inv & H)%bind_Ok_inv. by injection H as <- _ _.
  - by intros [= <- _ _].
Qed.

Lemma print_loop_returns fuel : ∀ m s sz fmt args,
  stepped fuel m fmt → returns (print_loop frexpf modff expf fuel m s sz fmt args).
Proof.
  induction fuel as [|fuel IH]; intros m s sz fmt args H; [by apply stepped_pos in H|].
  cbn [print_loop]. apply returns_bind; [apply returns_load8|]. intros c Ec.
  pose proof (stepped_load _ _ _ _ H Ec) as H1.
  destruct (c =? 0); [done|]. destruct (negb (c =? chr "%")).
  - destruct (negb (sz =? 0)); [|by apply IH]. apply returns_bind; [apply returns_store8|].
    intros m' [_ D]%store8_inv. apply IH. by apply (stepped_dom _ m).
  - apply returns_bind; [apply fs_process_returns|]. intros [f k] Ef%fs_process_nonneg.
    apply returns_bind; [unfold fetch_width; repeat first [apply va_int_returns | step idtac]|]. intros [f' args'] _.
    apply returns_bind; [apply fetch_precision_returns|]. intros [f'' args''] _.
    destruct (print_arg_tame m s sz f'' args'') as [Hr Hd].
    apply returns_bind; [done|]. intros [[m' n] args3] E. apply IH.
    apply (stepped_dom _ m); [by eapply Hd|]. apply (stepped_mono _ _ (fmt + 1)); [done|lia].
Qed.
End print_doubles.

(** ** Properties *)

(** The loops get along with the fuel they are given. *)
Definition terminates {A} (r : res A) : Prop := r ≠ Fault OutOfFuel.

(** C7: Printing and scanning come to an end, whatever is in memory, whatever
    the format string and the arguments are: the loops either finish or run into
    an address that is not mapped. *)
Theorem stdio_terminates frexpf modff expf m str sz fmt args :
  terminates (vsnprintf frexpf modff expf m str sz fmt args) ∧
  terminates (vsnscanf m str sz fmt args).
Proof.
  split.
  - apply returns_bind; [apply print_loop_returns, stepped_start; lia|]. intros [m' s] _.
    apply returns_bind; [destruct (0 <? sz); steps idtac|]. done.
  - apply scan_loop_returns, stepped_start. lia.
Qed.

(** C10: An integer that was printed is read back, with any flags, width and
    precision, in decimal and hexadecimal and in all lengths but [char]: scanning
    its text consumes the whole text and stores the same bits. *)
Theorem int_roundtrip m s sz val m' v f f' :
  plain_modifiers (fs_type_modifiers f) → fs_length f ≠ LENGTH_CHAR →
  fs_type_modifiers f' = fs_type_modifiers f → fs_length f' = fs_length f →
  fs_precision f' = PRECISION_NONE → val ≠ 0 →
  cstr m s (int_text v f) → length (int_text v f) ≤ sz < 4294967296 →
  store_scanned m val v f = Ok m' →
  scan_int m s sz val f' = Ok (m', Z.of_nat (length (int_text v f))).
Proof.
  intros Htm Hc Etm El Ep Hval Hs Hsz Hst.
  destruct (int_text_parts v f) as (k & sign & hex & ds & Et & Hsign & Hhex & Hne & Hds & Hv & Hneg).
  pose proof (cstr_length _ _ _ Hs) as Hlen. rewrite Et in Hs, Hsz, Hlen |- *.
  unfold scan_int. rewrite Ep. change (PRECISION_NONE =? PRECISION_NONE) with true. cbn [negb].
  set (body := sign_text sign ++ (if hex then [chr "0"; chr "x"] else []) ++ ds) in *.
  assert (match body with c :: _ => isspace c = false | [] => False end) as Hbody.
  { unfold body. destruct Hsign as [->|[->| ->]]; try done. destruct hex; [done|].
    destruct ds as [|c ds]; [done|]. apply Forall_cons_1 in Hds as [(d & Hd & ->) _].
    pose proof (int_base_range f). apply (digit_char_facts d). lia. }
  rewrite length_app, length_replicate in Hlen, Hsz.
  rewrite (space_loop_ok k _ m s sz body), bind_Ok by (done || lia).
  rewrite Etm. destruct (scan_text m s sz (fs_type_modifiers f) k sign hex ds (int_base f) (int_magnitude v f)
    (6 + size m)) as (buf & E & Hbuf & _); try done.
  { apply magnitude_digits. } { apply int_magnitude_range. }
  { rewrite length_app, length_replicate. fold body. lia. } { fold body. lia. }
  rewrite E, bind_Ok. destruct (Z.eqb_spec val 0); [done|]. cbn [is_state orb].
  rewrite bool_decide_eq_false_2 by done. unfold scan_value. cbn [is_sign is_base is_buf].
  rewrite Hbuf. unfold store_scanned in Hst |- *. rewrite El. fold (store_scanned m val v f) in Hst.
  fold (store_scanned m val (if sign =? -1 then u64 (- int_magnitude v f) else int_magnitude v f) f).
  rewrite store_scanned_eq, Hst, bind_Ok by done. do 2 f_equal. fold body. lia.
Qed.

(** ** Witnesses *)

(** [%-+08x]-like flags do no harm: -1234 with a width of 9 and leading zeros. *)
Definition rt_fs : fs := mk_fs FLAGS_ZERO PARAMETER_NONE 9 PRECISION_NONE LENGTH_NONE TYPE_INT TYPEMOD_NONE 0.
Definition rt_scan : fs :=
  mk_fs FLAGS_NONE PARAMETER_NONE WIDTH_NONE PRECISION_NONE LENGTH_NONE TYPE_INT TYPEMOD_NONE 0.
Definition rt_mem : mem := put_bytes (put_bytes ∅ 16 (replicate 4 0)) 32 (text "-00001234").

Lemma int_roundtrip_witness :
  ∃ m', scan_int rt_mem 32 9 16 rt_scan = Ok (m', 9) ∧ get_bytes m' 16 4 = Some [0x2e; 0xfb; 0xff; 0xff].
Proof.
  eexists. split.
  - refine (int_roundtrip rt_mem 32 9 16 _ (-1234) rt_fs rt_scan _ _ _ _ _ _ _ _ _).
    + by left.
    + done.
    + reflexivity.
    + reflexivity.
    + reflexivity.
    + done.
    + split; [vm_compute; tauto|]. repeat constructor; vm_compute; reflexivity.
    + vm_compute. split; congruence.
    + vm_compute. reflexivity.
  - vm_compute. reflexivity.
Defined.
