(* ===== verification/Ffs.v ===== *)
(** * The file system (ffs/src/ffs.c, ffs/ffs.h)

    Files are descriptors that the build bundles: a name, a mode, a size and the
    place of the data.  A pointer to a descriptor is its index in the list of
    descriptors, a pointer to a file access block its index in the pool; names
    and data are in the byte memory.  The second part gives the abstract file
    system - a list of byte strings and of cursors - and shows that every
    operation implements it. *)
From S2P Require Import Prelude CString.

(** ** Data *)

Definition FFS_MODE_R : Z := 1.
Definition FFS_MODE_W : Z := 2.
Definition FFS_MODE_RW : Z := Z.lor FFS_MODE_R FFS_MODE_W.

(** The value of an [ffs_seek_mode_t] argument may be any integer. *)
Definition FFS_SEEK_SET : Z := 0.
Definition FFS_SEEK_CUR : Z := 1.
Definition FFS_SEEK_END : Z := 2.

Record ffs_file_desc := mk_desc { fd_name : Z; fd_mode : Z; fd_size : Z; fd_ptr : Z }.

Record ffs_file := mk_file {
  fp_used : Z; fp_task_id : Z; fp_fd : option nat; fp_mode : Z; fp_position : Z }.

(** The static data: descriptors, the arrays [files] that list them, the pool. *)
Record ffs := mk_ffs {
  f_mem : mem; f_descs : list ffs_file_desc; f_files : list (list nat); f_pool : list ffs_file }.

Definition zero_file : ffs_file := mk_file 0 0 None 0 0.
Definition fpool_init : list ffs_file := replicate 32 zero_file.

Definition with_position (p : Z) (f : ffs_file) : ffs_file :=
  mk_file (fp_used f) (fp_task_id f) (fp_fd f) (fp_mode f) p.
Definition with_used (u : Z) (f : ffs_file) : ffs_file :=
  mk_file u (fp_task_id f) (fp_fd f) (fp_mode f) (fp_position f).
Definition with_size (z : Z) (d : ffs_file_desc) : ffs_file_desc :=
  mk_desc (fd_name d) (fd_mode d) z (fd_ptr d).

Definition set_file (h : nat) (f : ffs_file) (s : ffs) : ffs :=
  mk_ffs (f_mem s) (f_descs s) (f_files s) (<[h := f]> (f_pool s)).
Definition set_desc (i : nat) (d : ffs_file_desc) (s : ffs) : ffs :=
  mk_ffs (f_mem s) (<[i := d]> (f_descs s)) (f_files s) (f_pool s).
Definition set_fmem (m : mem) (s : ffs) : ffs := mk_ffs m (f_descs s) (f_files s) (f_pool s).

Definition file_at (s : ffs) (h : nat) : res ffs_file :=
  match f_pool s !! h with Some f => Ok f | None => Fault OutOfBounds end.
(** [*fd] *)
Definition desc_at (s : ffs) (i : nat) : res ffs_file_desc :=
  match f_descs s !! i with Some d => Ok d | None => Fault OutOfBounds end.
(** [fp->fd->...]: the blocks of the pool start with a null [fd]. *)
Definition desc_of (s : ffs) (f : ffs_file) : res (nat * ffs_file_desc) :=
  match fp_fd f with
  | Some i => d ← desc_at s i; Ok (i, d)
  | None => Fault NullDeref
  end.

(** ** Operations *)

Fixpoint find_fd (s : ffs) (fds : list nat) (name : Z) : res (option nat) :=
  match fds with
  | [] => Ok None
  | i :: fds' =>
      d ← desc_at s i;
      c ← strcmp (f_mem s) (fd_name d) name;
      if c =? 0 then Ok (Some i) else find_fd s fds' name
  end.

Fixpoint find_file (s : ffs) (fdas : list (list nat)) (name : Z) : res (option nat) :=
  match fdas with
  | [] => Ok None
  | fds :: fdas' =>
      r ← find_fd s fds name;
      match r with Some i => Ok (Some i) | None => find_file s fdas' name end
  end.

Fixpoint find_unused (pool : list ffs_file) : option nat :=
  match pool with
  | [] => None
  | f :: pool' => if fp_used f =? 0 then Some O else S <$> find_unused pool'
  end.

(** A null [name] is 0; the result is the block or null. *)
Definition FFS_Open (task_id : Z) (s : ffs) (name mode : Z) : res (ffs * option nat) :=
  if (mode =? 0) || (name =? 0) then Ok (s, None)
  else
    found ← find_file s (f_files s) name;
    match found with
    | None => Ok (s, None)
    | Some i =>
        d ← desc_at s i;
        if negb (Z.land mode (Z.lnot (fd_mode d)) =? 0) then Ok (s, None)
        else
          match find_unused (f_pool s) with
          | None => Ok (s, None)
          | Some h => Ok (set_file h (mk_file 1 task_id (Some i) mode 0) s, Some h)
          end
    end.

Definition FFS_Read (s : ffs) (fp : option nat) (ptr size : Z) : res (ffs * Z) :=
  match fp with
  | None => Ok (s, EFATAL)
  | Some h =>
      f ← file_at s h;
      if Z.land (fp_mode f) FFS_MODE_R =? 0 then Ok (s, EFATAL)
      else
        '(i, d) ← desc_of s f;
        let size := Z.min size (fd_size d -u fp_position f) in
        m ← memcpy (f_mem s) ptr (fd_ptr d + fp_position f) size;
        Ok (set_file h (with_position (fp_position f +u size) f) (set_fmem m s), s32 size)
  end.

Definition FFS_Write (s : ffs) (fp : option nat) (ptr size : Z) : res (ffs * Z) :=
  match fp with
  | None => Ok (s, EFATAL)
  | Some h =>
      f ← file_at s h;
      if Z.land (fp_mode f) FFS_MODE_W =? 0 then Ok (s, EFATAL)
      else
        '(i, d) ← desc_of s f;
        m ← memcpy (f_mem s) (fd_ptr d + fp_position f) ptr size;
        let position := fp_position f +u size in
        let s := set_file h (with_position position f) (set_fmem m s) in
        let s := if fd_size d <? position then set_desc i (with_size position d) s else s in
        Ok (s, s32 size)
  end.

Definition FFS_Seek (s : ffs) (fp : option nat) (offset mode : Z) : res (ffs * Z) :=
  match fp with
  | None => Ok (s, EFATAL)
  | Some h =>
      f ← file_at s h;
      '(i, d) ← desc_of s f;
      let fsize := fd_size d in
      let fpos := fp_position f in
      new_pos ← (if mode =? FFS_SEEK_SET then Ok offset
                 else if mode =? FFS_SEEK_CUR then Ok (fpos +u offset)
                 else if mode =? FFS_SEEK_END then Ok (fsize +u offset)
                 else Fault AssertFailed);
      if fsize <? new_pos then Ok (s, EFATAL)
      else Ok (set_file h (with_position new_pos f) s, EOK)
  end.

(** [FFS_Tell] and [FFS_Size] with what they store through the pointer. *)
Definition FFS_Tell (s : ffs) (fp : option nat) : res (Z * option Z) :=
  match fp with
  | None => Ok (EFATAL, None)
  | Some h => f ← file_at s h; Ok (EOK, Some (fp_position f))
  end.

Definition FFS_Size (s : ffs) (fp : option nat) : res (Z * option Z) :=
  match fp with
  | None => Ok (EFATAL, None)
  | Some h => f ← file_at s h; '(i, d) ← desc_of s f; Ok (EOK, Some (fd_size d))
  end.

Definition FFS_Close (s : ffs) (fp : option nat) : res (ffs * Z) :=
  match fp with
  | None => Ok (s, EFATAL)
  | Some h =>
      f ← file_at s h;
      if fp_used f =? 0 then Ok (s, EFATAL)
      else Ok (set_file h (with_used 0 f) s, EOK)
  end.

(** ** The abstract file system

    A file is its byte string; cursors are the blocks of the pool.  An operation
    is undefined ([None]) where the caller breaks the contract: an unknown
    handle, an unknown seek mode, a write beyond the room the file has. *)

Inductive ffs_op :=
| OpOpen (name : list Z) (mode : Z)
| OpRead (fp : option nat) (size : Z)
| OpWrite (fp : option nat) (data : list Z)
| OpSeek (fp : option nat) (offset mode : Z)
| OpTell (fp : option nat)
| OpSize (fp : option nat)
| OpClose (fp : option nat).

Inductive ffs_ret :=
| RetFile (h : option nat)
| RetCode (code : Z)
| RetData (code : Z) (data : list Z)
| RetValue (code : Z) (v : option Z).

(** What the build fixes of a file; [l_cap] bytes are there for its data. *)
Record file_layout := mk_layout {
  l_name_at : Z; l_name : list Z; l_mode : Z; l_ptr : Z; l_cap : Z }.

Record afs := mk_afs { a_files : list (list Z); a_pool : list ffs_file }.

Definition move (s : afs) (h : nat) (f : ffs_file) (p : Z) : afs :=
  mk_afs (a_files s) (<[h := with_position p f]> (a_pool s)).

(** The position a seek asks for: offsets are 32-bit words, so that negative
    ones move back. *)
Definition seek_target (size position offset mode : Z) : option Z :=
  if mode =? FFS_SEEK_SET then Some offset
  else if mode =? FFS_SEEK_CUR then Some (u32 (position + offset))
  else if mode =? FFS_SEEK_END then Some (u32 (size + offset))
  else None.

(** The place of a file: the first one of that name in the order of the arrays. *)
Fixpoint find_name (ls : list file_layout) (order : list nat) (name : list Z) : option nat :=
  match order with
  | [] => None
  | i :: order' =>
      match ls !! i with
      | Some l => if decide (l_name l = name) then Some i else find_name ls order' name
      | None => find_name ls order' name
      end
  end.

Definition spec_open (ls : list file_layout) (order : list nat) (task_id : Z) (s : afs)
    (name : list Z) (mode : Z) : afs * ffs_ret :=
  match find_name ls order name, find_unused (a_pool s) with
  | Some i, Some h =>
      if (mode =? 0) || negb (Z.land mode (Z.lnot (from_option l_mode 0 (ls !! i))) =? 0)
      then (s, RetFile None)
      else (mk_afs (a_files s) (<[h := mk_file 1 task_id (Some i) mode 0]> (a_pool s)),
            RetFile (Some h))
  | _, _ => (s, RetFile None)
  end.

(** The block [fp] points to and its file. *)
Definition opened (s : afs) (fp : nat) : option (ffs_file * nat * list Z) :=
  f ← a_pool s !! fp; i ← fp_fd f; c ← a_files s !! i; Some (f, i, c).

Definition spec_step (ls : list file_layout) (order : list nat) (task_id : Z) (s : afs)
    (op : ffs_op) : option (afs * ffs_ret) :=
  match op with
  | OpOpen name mode => Some (spec_open ls order task_id s name mode)
  | OpRead None _ => Some (s, RetData EFATAL [])
  | OpRead (Some h) size =>
      '(f, _, c) ← opened s h;
      if Z.land (fp_mode f) FFS_MODE_R =? 0 then Some (s, RetData EFATAL [])
      else
        let data := take (Z.to_nat size) (drop (Z.to_nat (fp_position f)) c) in
        Some (move s h f (fp_position f + length data), RetData (length data) data)
  | OpWrite None _ => Some (s, RetCode EFATAL)
  | OpWrite (Some h) data =>
      '(f, i, c) ← opened s h;
      if Z.land (fp_mode f) FFS_MODE_W =? 0 then Some (s, RetCode EFATAL)
      else
        l ← ls !! i;
        if l_cap l <? fp_position f + length data then None
        else
          let c := take (Z.to_nat (fp_position f)) c ++ data ++
                   drop (Z.to_nat (fp_position f) + length data) c in
          Some (move (mk_afs (<[i := c]> (a_files s)) (a_pool s)) h f
                  (fp_position f + length data), RetCode (length data))
  | OpSeek None _ _ => Some (s, RetCode EFATAL)
  | OpSeek (Some h) offset mode =>
      '(f, _, c) ← opened s h;
      p ← seek_target (length c) (fp_position f) offset mode;
      if length c <? p then Some (s, RetCode EFATAL) else Some (move s h f p, RetCode EOK)
  | OpTell None | OpSize None => Some (s, RetValue EFATAL None)
  | OpTell (Some h) => f ← a_pool s !! h; Some (s, RetValue EOK (Some (fp_position f)))
  | OpSize (Some h) => '(f, _, c) ← opened s h; Some (s, RetValue EOK (Some (Z.of_nat (length c))))
  | OpClose None => Some (s, RetCode EFATAL)
  | OpClose (Some h) =>
      f ← a_pool s !! h;
      if fp_used f =? 0 then Some (s, RetCode EFATAL)
      else Some (mk_afs (a_files s) (<[h := with_used 0 f]> (a_pool s)), RetCode EOK)
  end.

(** ** The simulation

    A client calls the operations with a buffer of its own: names and data to be
    written are put there, data that was read is taken from there. *)

Definition ffs_step (buf task_id : Z) (s : ffs) (op : ffs_op) : res (ffs * ffs_ret) :=
  match op with
  | OpOpen name mode =>
      '(s, h) ← FFS_Open task_id (set_fmem (put_bytes (f_mem s) buf (name ++ [0])) s) buf mode;
      Ok (s, RetFile h)
  | OpRead fp size =>
      '(s, code) ← FFS_Read s fp buf size;
      Ok (s, RetData code (default [] (get_bytes (f_mem s) buf (Z.to_nat code))))
  | OpWrite fp data =>
      '(s, code) ← FFS_Write (set_fmem (put_bytes (f_mem s) buf data) s) fp buf (length data);
      Ok (s, RetCode code)
  | OpSeek fp offset mode => '(s, code) ← FFS_Seek s fp offset mode; Ok (s, RetCode code)
  | OpTell fp => '(code, v) ← FFS_Tell s fp; Ok (s, RetValue code v)
  | OpSize fp => '(code, v) ← FFS_Size s fp; Ok (s, RetValue code v)
  | OpClose fp => '(s, code) ← FFS_Close s fp; Ok (s, RetCode code)
  end.

Fixpoint ffs_run (buf task_id : Z) (s : ffs) (ops : list ffs_op) : res (ffs * list ffs_ret) :=
  match ops with
  | [] => Ok (s, [])
  | op :: ops' =>
      '(s, r) ← ffs_step buf task_id s op;
      '(s, rs) ← ffs_run buf task_id s ops';
      Ok (s, r :: rs)
  end.

Fixpoint spec_run (ls : list file_layout) (order : list nat) (task_id : Z) (a : afs)
    (ops : list ffs_op) : option (afs * list ffs_ret) :=
  match ops with
  | [] => Some (a, [])
  | op :: ops' =>
      '(a, r) ← spec_step ls order task_id a op;
      '(a, rs) ← spec_run ls order task_id a ops';
      Some (a, r :: rs)
  end.

(** The arguments fit into the buffer of the client and into their types. *)
Definition op_fits (room : nat) (op : ffs_op) : Prop :=
  match op with
  | OpOpen name _ => (length name < room)%nat ∧ Forall (λ c, 0 < c < 256) name
  | OpRead _ size => 0 ≤ size ≤ room
  | OpWrite _ data => (length data ≤ room)%nat ∧ Forall is_u8 data
  | OpSeek _ offset _ => is_u32 offset
  | _ => True
  end.

Record layout_ok (ls : list file_layout) (buf : Z) (room : nat) : Prop := {
  lo_buf : 0 < buf; lo_room : room < 2147483648;
  lo_cap : ∀ i l, ls !! i = Some l → 0 ≤ l_cap l < 2147483648;
  lo_buf_data : ∀ i l, ls !! i = Some l → apart buf room (l_ptr l) (l_cap l);
  lo_buf_name : ∀ i l, ls !! i = Some l → apart buf room (l_name_at l) (length (l_name l) + 1);
  lo_data_name : ∀ i j l k, ls !! i = Some l → ls !! j = Some k →
    apart (l_ptr l) (l_cap l) (l_name_at k) (length (l_name k) + 1);
  lo_data : ∀ i j l k, ls !! i = Some l → ls !! j = Some k → i ≠ j →
    apart (l_ptr l) (l_cap l) (l_ptr k) (l_cap k) }.

Definition file_ok (m : mem) (l : file_layout) (c : list Z) : Prop :=
  cstr m (l_name_at l) (l_name l) ∧ bytes_at m (l_ptr l) c ∧
  mapped m (l_ptr l) (Z.to_nat (l_cap l)) ∧ Forall is_u8 c ∧ length c ≤ l_cap l.

Definition cursor_ok (files : list (list Z)) (f : ffs_file) : Prop :=
  ∀ i, fp_fd f = Some i → ∃ c, files !! i = Some c ∧ 0 ≤ fp_position f ≤ length c.

Section Refinement.

Context (ls : list file_layout) (fdas : list (list nat)) (buf : Z) (room : nat) (task_id : Z).
Context (Hlayout : layout_ok ls buf room).
Context (Horder : Forall (λ i, (i < length ls)%nat) (concat fdas)).

Definition desc_for (l : file_layout) (c : list Z) : ffs_file_desc :=
  mk_desc (l_name_at l) (l_mode l) (length c) (l_ptr l).

(** The descriptors, the data in memory and the pool stand for [a]. *)
Record represents (s : ffs) (a : afs) : Prop := {
  rp_files : f_files s = fdas;
  rp_pool : f_pool s = a_pool a;
  rp_length : length (a_files a) = length ls;
  rp_descs : f_descs s = zip_with desc_for ls (a_files a);
  rp_buf : mapped (f_mem s) buf room;
  rp_data : ∀ i l c, ls !! i = Some l → a_files a !! i = Some c → file_ok (f_mem s) l c;
  rp_cursors : ∀ h f, a_pool a !! h = Some f → cursor_ok (a_files a) f }.

Lemma file_lookup s a i :
  represents s a → (i < length ls)%nat →
  ∃ l c, ls !! i = Some l ∧ a_files a !! i = Some c ∧ desc_at s i = Ok (desc_for l c) ∧
         file_ok (f_mem s) l c.
Proof.
  intros R Hi. destruct (lookup_lt_is_Some_2 ls i Hi) as [l Hl].
  destruct (lookup_lt_is_Some_2 (a_files a) i) as [c Hc]; [by rewrite (rp_length _ _ R)|].
  exists l, c. split_and!; [done..| |by eapply rp_data].
  unfold desc_at. rewrite (rp_descs _ _ R), lookup_zip_with, Hl. simpl. by rewrite Hc.
Qed.

(** What the client does to its buffer does not concern the files. *)
Lemma represents_buf s a l :
  represents s a → (length l ≤ room)%nat →
  represents (set_fmem (put_bytes (f_mem s) buf l) s) a.
Proof.
  intros R Hl. destruct R; split; try done.
  - by apply put_bytes_mapped.
  - intros i la c Hla Hc. destruct (rp_data0 _ _ _ Hla Hc) as (H1 & H2 & H3 & H4 & H5).
    pose proof (lo_buf_data _ _ _ Hlayout _ _ Hla). pose proof (lo_buf_name _ _ _ Hlayout _ _ Hla).
    unfold apart in *. split_and!; [|..|done|done].
    + apply cstr_frame; [done|]. unfold apart. lia.
    + apply put_bytes_bytes_at_other; [lia|done].
    + by apply put_bytes_mapped.
Qed.

Lemma represents_pool s a h f :
  represents s a → cursor_ok (a_files a) f →
  represents (set_file h f s) (mk_afs (a_files a) (<[h := f]> (a_pool a))).
Proof.
  intros R Hf. destruct R; split; try done; simpl.
  - by rewrite rp_pool0.
  - intros k g. destruct (decide (k = h)) as [->|Hne].
    + intros Hk. destruct (decide (h < length (a_pool a))%nat).
      * rewrite list_lookup_insert_eq in Hk by done. by injection Hk as <-.
      * rewrite list_insert_ge in Hk by lia. by eapply rp_cursors0.
    + rewrite list_lookup_insert_ne by done. apply rp_cursors0.
Qed.

(** What the abstract operation finds is what the code follows. *)
Lemma opened_desc s a h f i c :
  represents s a → opened a h = Some (f, i, c) →
  ∃ l, file_at s h = Ok f ∧ desc_of s f = Ok (i, desc_for l c) ∧ ls !! i = Some l ∧
       a_files a !! i = Some c ∧ fp_fd f = Some i ∧ file_ok (f_mem s) l c ∧
       0 ≤ fp_position f ≤ length c.
Proof.
  intros R H. unfold opened in H.
  destruct (a_pool a !! h) as [g|] eqn:Hg; [|done]. simpl in H.
  destruct (fp_fd g) as [j|] eqn:Hj; [|done]. simpl in H.
  destruct (a_files a !! j) as [e|] eqn:He; [|done]. simpl in H. injection H as -> -> ->.
  pose proof (lookup_lt_Some _ _ _ He) as Hlt. rewrite (rp_length _ _ R) in Hlt.
  destruct (file_lookup _ _ _ R Hlt) as (l & c' & Hl & Hc' & Hd & Hok). simplify_eq.
  destruct (rp_cursors _ _ R _ _ Hg _ Hj) as (c' & Hc & Hp). simplify_eq.
  exists l. unfold file_at, desc_of. rewrite (rp_pool _ _ R), Hg, Hj, Hd. done.
Qed.

(** *** Opening *)

Lemma find_fd_ok s a p name fds :
  represents s a → cstr (f_mem s) p name → Forall (λ i, (i < length ls)%nat) fds →
  find_fd s fds p = Ok (find_name ls fds name).
Proof.
  intros R Hn. induction 1 as [|i fds Hi _ IH]; [done|]. simpl.
  destruct (file_lookup _ _ _ R Hi) as (l & c & Hl & Hc & -> & Hok). rewrite bind_Ok, Hl. simpl.
  unfold strcmp. rewrite (strcmp_loop_ok (l_name l) _ _ _ _ name), bind_Ok; cycle 1.
  { apply Hok. } { done. } { pose proof (cstr_length _ _ _ (proj1 Hok)). lia. }
  assert (∀ b q, cstr (f_mem s) q b → Forall (λ c, 0 < c) b) as Hpos.
  { intros b q [_ H]. eapply Forall_impl; [exact H|]. simpl. lia. }
  pose proof (str_diff_zero (l_name l) name ltac:(eapply Hpos, Hok) ltac:(by eapply Hpos)) as Hz.
  destruct (decide (l_name l = name)) as [He|He], (Z.eqb_spec (str_diff (l_name l) name) 0);
    try tauto.
Qed.

Lemma find_name_app order1 order2 name :
  find_name ls (order1 ++ order2) name =
    match find_name ls order1 name with Some i => Some i | None => find_name ls order2 name end.
Proof.
  induction order1 as [|i order1 IH]; [done|]. simpl.
  destruct (ls !! i) as [l|]; [|done]. by destruct (decide (l_name l = name)).
Qed.

Lemma find_file_ok s a p name fs :
  represents s a → cstr (f_mem s) p name → Forall (λ i, (i < length ls)%nat) (concat fs) →
  find_file s fs p = Ok (find_name ls (concat fs) name).
Proof.
  intros R Hn. induction fs as [|fds fs IH]; [done|]. simpl. rewrite Forall_app. intros [H1 H2].
  rewrite (find_fd_ok _ _ p name _ R Hn H1), bind_Ok, find_name_app.
  destruct (find_name ls fds name); [done|]. by apply IH.
Qed.

Lemma find_name_lt order name i : find_name ls order name = Some i → (i < length ls)%nat.
Proof.
  induction order as [|j order IH]; [done|]. simpl. destruct (ls !! j) eqn:Hj; [|done].
  destruct (decide _); [|done]. intros [= <-]. by eapply lookup_lt_Some.
Qed.

Lemma open_ok s a p name mode :
  represents s a → cstr (f_mem s) p name → p ≠ 0 →
  let '(a', r) := spec_open ls (concat fdas) task_id a name mode in
  ∃ s' h, FFS_Open task_id s p mode = Ok (s', h) ∧ r = RetFile h ∧ f_mem s' = f_mem s ∧ represents s' a'.
Proof.
  intros R Hn Hp. unfold spec_open, FFS_Open.
  destruct (Z.eqb_spec p 0); [lia|]. rewrite orb_false_r.
  rewrite (rp_files _ _ R), (find_file_ok _ _ p name _ R Hn Horder), bind_Ok, (rp_pool _ _ R).
  destruct (find_name ls (concat fdas) name) as [i|] eqn:Hf; cycle 1.
  { destruct (mode =? 0); eauto 10. }
  apply find_name_lt in Hf.
  destruct (file_lookup _ _ _ R Hf) as (l & c & Hl & Hc & -> & _). rewrite bind_Ok, Hl. simpl.
  destruct (find_unused (a_pool a)) as [h|].
  - destruct (mode =? 0); simpl; [eauto 10|]. destruct (negb _); [eauto 10|].
    do 2 eexists. split_and!; [done..|]. apply represents_pool; [done|].
    intros j [= <-]. exists c. split; [done|]. simpl. lia.
  - destruct (mode =? 0); [eauto 10|]. destruct (negb _); eauto 10.
Qed.

(** *** Reading and writing *)

Lemma read_ok s a h size f i c :
  represents s a → opened a h = Some (f, i, c) → Z.land (fp_mode f) FFS_MODE_R ≠ 0 →
  0 ≤ size ≤ room →
  let data := take (Z.to_nat size) (drop (Z.to_nat (fp_position f)) c) in
  ∃ s', FFS_Read s (Some h) buf size = Ok (s', Z.of_nat (length data)) ∧
        f_mem s' = put_bytes (f_mem s) buf data ∧
        represents s' (move a h f (fp_position f + length data)).
Proof.
  intros R Ho Hm Hs data.
  destruct (opened_desc _ _ _ _ _ _ R Ho) as (l & Hf & Hd & Hl & Hc & Hi & Hok & Hp).
  unfold FFS_Read. rewrite Hf, bind_Ok. destruct (Z.eqb_spec (Z.land (fp_mode f) FFS_MODE_R) 0); [done|].
  rewrite Hd, bind_Ok. destruct Hok as (_ & Hb & _ & Hu & Hcap). simpl.
  pose proof (lo_cap _ _ _ Hlayout _ _ Hl). pose proof (lo_room _ _ _ Hlayout).
  assert (length data = Z.to_nat (Z.min size (length c - fp_position f))) as Hlen.
  { unfold data. rewrite length_take, length_drop. lia. }
  rewrite (u32_small (length c - _)) by word_lia.
  replace (Z.min size (length c - fp_position f)) with (Z.of_nat (length data)) by lia.
  assert (bytes_at (f_mem s) (l_ptr l + fp_position f) data) as Hdata.
  { rewrite <- (take_drop (Z.to_nat (fp_position f)) c) in Hb.
    apply bytes_at_app in Hb as [_ Hb]. rewrite length_take in Hb.
    rewrite <- (take_drop (Z.to_nat size) (drop _ c)) in Hb. apply bytes_at_app in Hb as [Hb _].
    by replace (l_ptr l + fp_position f) with (l_ptr l + (Z.to_nat (fp_position f) `min` length c)%nat) by lia. }
  rewrite memcpy_ok; cycle 1.
  { done. } { eapply mapped_le; [|apply (rp_buf _ _ R)]. lia. }
  { by apply Forall_take, Forall_drop. }
  { pose proof (lo_buf_data _ _ _ Hlayout _ _ Hl). unfold apart in *. lia. }
  { lia. }
  rewrite bind_Ok. replace (s32 (length data)) with (Z.of_nat (length data)) by (unfold s32; lia).
  rewrite u32_small by word_lia. eexists. split; [done|]. split; [done|].
  apply (represents_pool (set_fmem _ s) a); [apply represents_buf; [done|lia]|].
  intros j Hj. simpl in *. exists c. split; [congruence|lia].
Qed.

(** Data that is written at a place of a file, the rest of which stays. *)
Definition overwrite (c : list Z) (p : nat) (data : list Z) : list Z :=
  take p c ++ data ++ drop (p + length data) c.

Lemma overwrite_length c p data :
  (p ≤ length c)%nat → length (overwrite c p data) = (length c `max` (p + length data))%nat.
Proof. intros. unfold overwrite. rewrite !length_app, length_take, length_drop. lia. Qed.

Lemma overwrite_bytes m a c p data :
  bytes_at m a c → (p ≤ length c)%nat →
  bytes_at (put_bytes m (a + p) data) a (overwrite c p data).
Proof.
  intros Hb Hp. unfold overwrite.
  assert (bytes_at m a (take p c)) as H1.
  { rewrite <- (take_drop p c) in Hb. by apply bytes_at_app in Hb as [? _]. }
  assert (bytes_at m (a + p + length data) (drop (p + length data) c)) as H2.
  { destruct (decide (p + length data ≤ length c)%nat).
    - rewrite <- (take_drop (p + length data) c) in Hb. apply bytes_at_app in Hb as [_ Hb].
      rewrite length_take_le in Hb by lia. by replace (a + p + length data) with (a + (p + length data)%nat) by lia.
    - by rewrite drop_ge by lia. }
  apply bytes_at_app. rewrite length_take_le by lia. split.
  - apply put_bytes_bytes_at_other; [|done]. rewrite length_take_le by lia. lia.
  - apply bytes_at_app. split; [apply put_bytes_bytes_at|].
    apply put_bytes_bytes_at_other; [lia|done].
Qed.

Lemma desc_insert files i l c c' :
  length files = length ls → ls !! i = Some l → files !! i = Some c →
  <[i := desc_for l c']> (zip_with desc_for ls files) = zip_with desc_for ls (<[i := c']> files).
Proof.
  intros Hlen Hl Hc. apply list_eq. intros j. pose proof (lookup_lt_Some _ _ _ Hc).
  destruct (decide (j = i)) as [->|Hne].
  - rewrite list_lookup_insert_eq, lookup_zip_with, Hl by (rewrite length_zip_with; lia). simpl.
    by rewrite list_lookup_insert_eq by done.
  - rewrite list_lookup_insert_ne, !lookup_zip_with by done. by rewrite list_lookup_insert_ne.
Qed.

(** Writing into the room of file [i] leaves the other files and all names. *)
Lemma file_ok_write m i l c k lk ck (p : nat) data :
  ls !! i = Some l → ls !! k = Some lk → file_ok m l c → file_ok m lk ck →
  (p ≤ length c)%nat → p + length data ≤ l_cap l → Forall is_u8 data →
  file_ok (put_bytes m (l_ptr l + p) data) lk (if decide (i = k) then overwrite c p data else ck).
Proof.
  intros Hl Hk (N & B & M & U & L) (N' & B' & M' & U' & L') Hp Hcap Hd.
  pose proof (lo_data_name _ _ _ Hlayout _ _ _ _ Hl Hk).
  split_and!; try by apply put_bytes_mapped.
  - apply cstr_frame; [done|]. unfold apart in *. lia.
  - destruct (decide (i = k)) as [->|Hne].
    + simplify_eq. by apply overwrite_bytes.
    + apply put_bytes_bytes_at_other; [|done].
      pose proof (lo_data _ _ _ Hlayout _ _ _ _ Hl Hk Hne). unfold apart in *. lia.
  - destruct (decide (i = k)); [|done]. unfold overwrite. rewrite !Forall_app.
    split_and!; [by apply Forall_take|done|by apply Forall_drop].
  - destruct (decide (i = k)) as [->|]; [|done]. simplify_eq. rewrite overwrite_length by done. lia.
Qed.

Lemma write_ok s a h f i c l data :
  represents s a → opened a h = Some (f, i, c) → ls !! i = Some l →
  Z.land (fp_mode f) FFS_MODE_W ≠ 0 → bytes_at (f_mem s) buf data → (length data ≤ room)%nat →
  Forall is_u8 data → fp_position f + length data ≤ l_cap l →
  ∃ s', FFS_Write s (Some h) buf (length data) = Ok (s', Z.of_nat (length data)) ∧
        represents s' (move (mk_afs (<[i := overwrite c (Z.to_nat (fp_position f)) data]> (a_files a))
                               (a_pool a)) h f (fp_position f + length data)).
Proof.
  intros R Ho Hl Hm Hb Hlen Hu Hcap.
  destruct (opened_desc _ _ _ _ _ _ R Ho) as (l' & Hf & Hd & Hl' & Hc & Hi & Hok & Hp). simplify_eq.
  pose proof (lo_cap _ _ _ Hlayout _ _ Hl). pose proof (lo_room _ _ _ Hlayout).
  pose proof (lo_buf_data _ _ _ Hlayout _ _ Hl) as Hap. unfold apart in Hap.
  remember (Z.to_nat (fp_position f)) as p eqn:Ep.
  assert (fp_position f = Z.of_nat p) as Epos by lia. clear Ep. rewrite !Epos in *.
  unfold FFS_Write. rewrite Hf, bind_Ok.
  destruct (Z.eqb_spec (Z.land (fp_mode f) FFS_MODE_W) 0); [done|].
  rewrite Hd, bind_Ok, Epos.
  cbn [desc_for fd_ptr fd_size].
  assert (length c ≤ l_cap l) by apply Hok.
  rewrite memcpy_ok; [|done| |done|unfold apart; lia|lia]; cycle 1.
  { destruct Hok as (_ & _ & M & _). intros x Hx. apply M. lia. }
  rewrite bind_Ok, u32_small by word_lia.
  replace (s32 (length data)) with (Z.of_nat (length data)) by (unfold s32; lia).
  eexists. split; [done|]. set (m' := put_bytes _ _ _).
  assert (represents
    (mk_ffs m' (zip_with desc_for ls (<[i := overwrite c p data]> (a_files a))) fdas (a_pool a))
    (mk_afs (<[i := overwrite c p data]> (a_files a)) (a_pool a))) as R'.
  { pose proof (lookup_lt_Some _ _ _ Hc). split; try done; simpl.
    - by rewrite length_insert, (rp_length _ _ R).
    - apply put_bytes_mapped, (rp_buf _ _ R).
    - intros k lk ck Hk Hck. destruct (file_lookup s a k R) as (lk' & ck' & E1 & E2 & _ & Hokk).
      { by eapply lookup_lt_Some. }
      simplify_eq. assert (ck = if decide (i = k) then overwrite c p data else ck') as ->.
      { destruct (decide (i = k)) as [->|Hne].
        - rewrite list_lookup_insert_eq in Hck by done. congruence.
        - rewrite list_lookup_insert_ne in Hck by done. congruence. }
      eapply file_ok_write; eauto. lia.
    - intros k g Hg j Hj. destruct (rp_cursors _ _ R _ _ Hg _ Hj) as (cj & Hcj & Hpj).
      destruct (decide (j = i)) as [->|Hne].
      + exists (overwrite c p data). rewrite list_lookup_insert_eq by done. split; [done|].
        simplify_eq. rewrite overwrite_length by lia. lia.
      + exists cj. by rewrite list_lookup_insert_ne. }
  eapply (represents_pool _ _ h (with_position (p + length data) f)) in R'; cycle 1.
  { intros j Hj. simpl in *. simplify_eq. exists (overwrite c p data). simpl.
    rewrite list_lookup_insert_eq by (by eapply lookup_lt_Some). split; [done|].
    rewrite overwrite_length by lia. lia. }
  unfold move. simpl in R' |- *. match goal with |- represents ?x _ => assert (x =
    set_file h (with_position (p + length data) f)
      (mk_ffs m' (zip_with desc_for ls (<[i := overwrite c p data]> (a_files a))) fdas (a_pool a)))
    as -> end; [|exact R'].
  unfold set_file, set_desc, set_fmem. simpl.
  rewrite (rp_files _ _ R), (rp_pool _ _ R), (rp_descs _ _ R).
  rewrite <- (desc_insert _ _ l c) by (apply R || done).
  destruct (Z.ltb_spec (length c) (p + length data)); simpl; f_equal.
  - f_equal. unfold desc_for, with_size. simpl. f_equal. rewrite overwrite_length by lia. lia.
  - symmetry. rewrite list_insert_id; [done|]. rewrite lookup_zip_with, Hl. simpl. rewrite Hc. simpl.
    f_equal. unfold desc_for. f_equal. rewrite overwrite_length by lia. lia.
Qed.

(** *** The other operations *)

Lemma seek_ok s a h f i c offset mode p :
  represents s a → opened a h = Some (f, i, c) → is_u32 offset →
  seek_target (length c) (fp_position f) offset mode = Some p →
  ∃ s', FFS_Seek s (Some h) offset mode = Ok (s', if length c <? p then EFATAL else EOK) ∧
        f_mem s' = f_mem s ∧ represents s' (if length c <? p then a else move a h f p).
Proof.
  intros R Ho Hof Hp.
  destruct (opened_desc _ _ _ _ _ _ R Ho) as (l & Hf & Hd & Hl & Hc & Hi & Hok & Hpos).
  unfold FFS_Seek. rewrite Hf, bind_Ok, Hd, bind_Ok. simpl.
  assert (is_u32 p) as Hpu.
  { unfold seek_target in Hp. repeat destruct (_ =? _); simplify_eq; auto with word. }
  unfold seek_target in Hp.
  assert ((if mode =? FFS_SEEK_SET then Ok offset
           else if mode =? FFS_SEEK_CUR then Ok (fp_position f +u offset)
           else if mode =? FFS_SEEK_END then Ok (length c +u offset)
           else Fault AssertFailed) = Ok p) as ->.
  { repeat destruct (_ =? _); congruence. }
  rewrite bind_Ok. destruct (Z.ltb_spec (length c) p); eexists; (split; [done|]); (split; [done|]); [done|].
  apply represents_pool; [done|]. intros j Hj. exists c. simpl in *. simplify_eq.
  split; [done|]. unfold is_u32 in Hpu. lia.
Qed.

Lemma close_ok s a h f :
  represents s a → a_pool a !! h = Some f →
  represents (set_file h (with_used 0 f) s) (mk_afs (a_files a) (<[h := with_used 0 f]> (a_pool a))).
Proof. intros R Hf. apply represents_pool; [done|]. intros j Hj. by apply (rp_cursors _ _ R _ _ Hf). Qed.

(** A step of the client is simulated when the abstract one is defined. *)
Definition simulated (s : ffs) (a : afs) (op : ffs_op) : Prop :=
  ∀ a' r, spec_step ls (concat fdas) task_id a op = Some (a', r) →
  ∃ s', ffs_step buf task_id s op = Ok (s', r) ∧ represents s' a'.

Lemma ffs_step_open s a name mode :
  represents s a → op_fits room (OpOpen name mode) → simulated s a (OpOpen name mode).
Proof.
  intros R [Hlen Hn] a' r. cbn [spec_step ffs_step]. intros [= Hspec].
  set (s1 := set_fmem _ s).
  assert (represents s1 a) as R1 by (apply represents_buf; [done|rewrite length_app; simpl; lia]).
  assert (cstr (f_mem s1) buf name) as Hcs by (split; [apply put_bytes_bytes_at|done]).
  pose proof (lo_buf _ _ _ Hlayout). pose proof (open_ok s1 a buf name mode R1 Hcs ltac:(lia)) as Ho. rewrite Hspec in Ho.
  destruct Ho as (s' & h & -> & -> & _ & R'). eauto.
Qed.

Lemma ffs_step_read s a h size :
  represents s a → 0 ≤ size ≤ room → simulated s a (OpRead (Some h) size).
Proof.
  intros R Hfit a' r. cbn [spec_step ffs_step].
  destruct (opened a h) as [[[f i] c]|] eqn:Ho; [|done]. cbn. intros Hspec.
  destruct (opened_desc _ _ _ _ _ _ R Ho) as (l & Hf & _).
  destruct (Z.eqb_spec (Z.land (fp_mode f) FFS_MODE_R) 0) as [E|E]; simplify_eq.
  { rewrite Hf, bind_Ok, E. cbn. eauto. }
  destruct (read_ok _ _ _ size _ _ _ R Ho E Hfit) as (s' & Hrun & Hm & R').
  cbn in Hrun. rewrite Hrun, bind_Ok. eexists. split; [|done].
  by rewrite Nat2Z.id, Hm, (get_bytes_spec _ _ _ (put_bytes_bytes_at _ _ _)).
Qed.

Lemma ffs_step_write s a h data :
  represents s a → (length data ≤ room)%nat → Forall is_u8 data →
  simulated s a (OpWrite (Some h) data).
Proof.
  intros R Hlen Hu a' r. cbn [spec_step ffs_step]. set (s1 := set_fmem _ s).
  assert (represents s1 a) as R1 by (by apply represents_buf).
  destruct (opened a h) as [[[f i] c]|] eqn:Ho; [|done]. cbn. intros Hspec.
  destruct (opened_desc _ _ _ _ _ _ R1 Ho) as (l & Hf & _ & Hl & _).
  destruct (Z.eqb_spec (Z.land (fp_mode f) FFS_MODE_W) 0) as [E|E]; simplify_eq.
  { rewrite Hf, bind_Ok, E. cbn. eauto. }
  rewrite Hl in Hspec. cbn in Hspec.
  destruct (Z.ltb_spec (l_cap l) (fp_position f + length data)) as [|Hcap]; simplify_eq.
  destruct (write_ok s1 a h f i c l data R1 Ho Hl E) as (s' & Hrun & R');
    [apply put_bytes_bytes_at|done..|]. cbn in Hrun. rewrite Hrun, bind_Ok. eauto.
Qed.

Lemma ffs_step_seek s a h offset mode :
  represents s a → is_u32 offset → simulated s a (OpSeek (Some h) offset mode).
Proof.
  intros R Hfit a' r. cbn [spec_step ffs_step].
  destruct (opened a h) as [[[f i] c]|] eqn:Ho; [|done]. cbn. intros Hspec.
  destruct (seek_target (length c) (fp_position f) offset mode) as [p|] eqn:Hp; [|done].
  cbn in Hspec. destruct (seek_ok _ _ _ _ _ _ _ _ _ R Ho Hfit Hp) as (s' & Hrun & _ & R').
  cbn in Hrun. rewrite Hrun, bind_Ok. exists s'. destruct (length c <? p); by simplify_eq.
Qed.

Lemma ffs_step_ok s a op : represents s a → op_fits room op → simulated s a op.
Proof.
  intros R Hfit. destruct op as [name mode|[h|] size|[h|] data|[h|] offset mode|[h|]|[h|]|[h|]].
  1: by apply ffs_step_open.
  1: by apply ffs_step_read.
  2: by apply ffs_step_write; [done|apply Hfit..].
  3: by apply ffs_step_seek.
  all: intros a' r; cbn [spec_step ffs_step]; try (intros [= <- <-]; eexists; split; [done|]).
  - done.
  - apply (represents_buf _ _ data R), Hfit.
  - done.
  - unfold FFS_Tell, file_at. rewrite (rp_pool _ _ R).
    destruct (a_pool a !! h); cbn; [|done]. intros [= <- <-]. eauto.
  - done.
  - destruct (opened a h) as [[[f i] c]|] eqn:Ho; cbn; [|done]. intros [= <- <-].
    destruct (opened_desc _ _ _ _ _ _ R Ho) as (l & -> & Hd & _). rewrite bind_Ok, Hd. cbn. eauto.
  - done.
  - unfold FFS_Close, file_at. rewrite (rp_pool _ _ R).
    destruct (a_pool a !! h) as [f|] eqn:Hf; cbn; [|done]. intros Hspec.
    destruct (fp_used f =? 0); cbn; simplify_eq; eexists; (split; [done|]); [done|by apply close_ok].
  - done.
Qed.

End Refinement.

(** ** Properties *)

(** C8: the file system implements the abstract one.  Whatever a client does -
    opening, reading, writing, seeking, asking and closing in any order, as long
    as it keeps to its handles and to the room of the files - no call fails to
    return or touches memory outside of its file and its buffer, every call
    returns what the abstract operation returns, and what was read is the part
    of the file at the cursor; descriptors, data and cursors stand for the
    abstract files and cursors again. *)
Theorem ffs_refines ls fdas buf room task_id :
  layout_ok ls buf room → Forall (λ i, (i < length ls)%nat) (concat fdas) →
  ∀ ops s a a' rs,
    represents ls fdas buf room s a → Forall (op_fits room) ops →
    spec_run ls (concat fdas) task_id a ops = Some (a', rs) →
    ∃ s', ffs_run buf task_id s ops = Ok (s', rs) ∧ represents ls fdas buf room s' a'.
Proof.
  intros Hl Ho ops. induction ops as [|op ops IH]; intros s a a' rs R Hf; cbn.
  { intros [= <- <-]. eauto. }
  apply Forall_cons in Hf as [Hop Hops].
  destruct (spec_step ls (concat fdas) task_id a op) as [[a1 r]|] eqn:E1; cbn; [|done].
  destruct (spec_run ls (concat fdas) task_id a1 ops) as [[a2 rs2]|] eqn:E2; cbn; [|done].
  intros [= <- <-].
  destruct (ffs_step_ok ls fdas buf room task_id Hl Ho s a op R Hop _ _ E1) as (s1 & -> & R1).
  destruct (IH _ _ _ _ R1 Hops E2) as (s2 & E & R2). rewrite bind_Ok, E. cbn. eauto.
Qed.

(** A file system of two files: ["/a"] may be read, ["/b"] also written. *)
Definition demo_layout : list file_layout :=
  [ mk_layout 100 [47; 97] FFS_MODE_R 200 5; mk_layout 110 [47; 98] FFS_MODE_RW 210 8 ].
Definition demo_afs : afs := mk_afs [[1; 2; 3; 4; 5]; [6; 7]] fpool_init.
Definition demo_ffs_mem : mem :=
  put_bytes (put_bytes (put_bytes (put_bytes (put_bytes ∅ 100 [47; 97; 0]) 110 [47; 98; 0])
    200 [1; 2; 3; 4; 5]) 210 [6; 7; 0; 0; 0; 0; 0; 0]) 300 (replicate 16 0).
Definition demo_ffs : ffs :=
  mk_ffs demo_ffs_mem (zip_with desc_for demo_layout (a_files demo_afs)) [[0%nat]; [1%nat]] fpool_init.
Definition demo_ops : list ffs_op :=
  [ OpOpen [47; 97] FFS_MODE_R; OpOpen [47; 98] FFS_MODE_RW; OpOpen [47; 97] FFS_MODE_W;
    OpRead (Some 0%nat) 3; OpRead (Some 0%nat) 3; OpRead (Some 0%nat) 3;
    OpSeek (Some 0%nat) (2 ^ 32 - 2) FFS_SEEK_END; OpRead (Some 0%nat) 16;
    OpSeek (Some 0%nat) 6 FFS_SEEK_SET; OpTell (Some 0%nat); OpWrite (Some 0%nat) [9];
    OpSeek (Some 1%nat) 1 FFS_SEEK_CUR; OpWrite (Some 1%nat) [8; 9; 10]; OpSize (Some 1%nat);
    OpSeek (Some 1%nat) 0 FFS_SEEK_SET; OpRead (Some 1%nat) 16;
    OpClose (Some 0%nat); OpClose (Some 0%nat); OpOpen [47; 98] FFS_MODE_R; OpOpen [47] FFS_MODE_R ].
Definition demo_rets : list ffs_ret :=
  [ RetFile (Some 0%nat); RetFile (Some 1%nat); RetFile None;
    RetData 3 [1; 2; 3]; RetData 2 [4; 5]; RetData 0 [];
    RetCode EOK; RetData 2 [4; 5];
    RetCode EFATAL; RetValue EOK (Some 5); RetCode EFATAL;
    RetCode EOK; RetCode 3; RetValue EOK (Some 4);
    RetCode EOK; RetData 4 [6; 8; 9; 10];
    RetCode EOK; RetCode EFATAL; RetFile (Some 0%nat); RetFile None ].

Lemma demo_layout_ok : layout_ok demo_layout 300 16.
Proof.
  split; try lia; unfold apart.
  all: intros i; destruct i as [|[|i]]; try done.
  1-3: intros l [= <-]; cbn; lia.
  1-3: intros l [= <-]; cbn; lia.
  all: intros j; destruct j as [|[|j]]; try done; intros l k [= <-] [= <-]; cbn; try done; lia.
Qed.

Lemma demo_bytes :
  bytes_at demo_ffs_mem 100 [47; 97; 0] ∧ bytes_at demo_ffs_mem 110 [47; 98; 0] ∧
  bytes_at demo_ffs_mem 200 [1; 2; 3; 4; 5] ∧ bytes_at demo_ffs_mem 210 [6; 7; 0; 0; 0; 0; 0; 0] ∧
  bytes_at demo_ffs_mem 300 (replicate 16 0).
Proof. cbn [bytes_at replicate]. repeat split. Qed.

Lemma demo_represents : represents demo_layout [[0%nat]; [1%nat]] 300 16 demo_ffs demo_afs.
Proof.
  destruct demo_bytes as (B1 & B2 & B3 & B4 & B5). split; try done.
  - apply (bytes_at_mapped _ _ _ B5).
  - assert (∀ l, Forall (λ c, 0 < c < 256) l → Forall is_u8 l) as Hu.
    { intros l Hl. eapply Forall_impl; [exact Hl|]. intros c. unfold is_u8. simpl. lia. }
    intros [|[|i]] l c; try done; intros [= <-] [= <-]; unfold file_ok, cstr.
    + split_and!; [done|repeat constructor|done|apply (bytes_at_mapped _ _ _ B3)| |done].
      apply Hu. repeat constructor.
    + split_and!; [done|repeat constructor| |apply (bytes_at_mapped _ _ _ B4)| |done].
      * by apply (bytes_at_app _ _ [6; 7]) in B4 as [? _].
      * apply Hu. repeat constructor.
  - intros h f Hf i Hi. apply list_elem_of_lookup_2, elem_of_replicate in Hf as [-> _]. done.
Qed.

Lemma ffs_refines_witness :
  spec_run demo_layout [0%nat; 1%nat] 7 demo_afs demo_ops ≠ None ∧
  ∃ s' a', ffs_run 300 7 demo_ffs demo_ops = Ok (s', demo_rets) ∧
           represents demo_layout [[0%nat]; [1%nat]] 300 16 s' a'.
Proof.
  assert (snd <$> spec_run demo_layout [0%nat; 1%nat] 7 demo_afs demo_ops = Some demo_rets) as Hr
    by (vm_compute; reflexivity).
  split; [by intros E; rewrite E in Hr|].
  apply fmap_Some in Hr as ((a' & rs) & E & Hrs). simpl in Hrs. subst rs.
  destruct (ffs_refines demo_layout [[0%nat]; [1%nat]] 300 16 7 demo_layout_ok
    ltac:(repeat constructor) demo_ops demo_ffs demo_afs a' demo_rets demo_represents) as (s' & H & R).
  - repeat constructor; try done; cbn; lia.
  - exact E.
  - eauto.
Defined.

(** *** Where the code goes wrong *)

Definition ret_of (r : res (ffs * list ffs_ret)) : res (list ffs_ret) := snd <$> r.

(** A file that was closed can still be read, also when its block was given to
    another file in the meantime: [used] is looked at by [FFS_Close] only. *)
Example closed_file_reads :
  ret_of (ffs_run 300 7 demo_ffs
    [ OpOpen [47; 97] FFS_MODE_R; OpClose (Some 0%nat); OpRead (Some 0%nat) 2;
      OpOpen [47; 98] FFS_MODE_R; OpRead (Some 0%nat) 2 ]) =
  Ok [RetFile (Some 0%nat); RetCode EOK; RetData 2 [1; 2]; RetFile (Some 0%nat); RetData 2 [6; 7]].
Proof. vm_compute. reflexivity. Qed.

(** A write has no bound: past the room of its file it goes into what follows,
    which is the end of memory here. *)
Example write_over_room :
  ret_of (ffs_run 300 7 demo_ffs
    [OpOpen [47; 98] FFS_MODE_W; OpSeek (Some 0%nat) 0 FFS_SEEK_END; OpWrite (Some 0%nat) (replicate 7 9)])
  = Fault OutOfBounds.
Proof. vm_compute. reflexivity. Qed.

(** A block that was never opened has no descriptor. *)
Example seek_unopened : ret_of (ffs_run 300 7 demo_ffs [OpSeek (Some 3%nat) 0 FFS_SEEK_SET]) = Fault NullDeref.
Proof. vm_compute. reflexivity. Qed.
