(* ===== verification/DhcpFrame.v ===== *)
(** * DHCP frames (net/dhcp/frame.h, net/dhcp/src/frame.c)

    The header is a packed structure of 240 bytes; options follow it as type,
    length, value up to an end mark.  Each writer of an option returns the
    address behind it, or null when it does not fit; each reader returns the
    address of the next option, or null when the option is not what it expects. *)
From S2P Require Import Prelude CString Words Frames Net Arp.

Definition DHCP_OP_REQUEST : Z := 1.
Definition DHCP_OP_RESPONSE : Z := 2.
Definition DHCP_HTYPE_ETH : Z := 1.
Definition DHCP_FLAGS_BROADCAST : Z := 0x8000.

Definition DHCP_OPTION_SUBNET_MASK : Z := 1.
Definition DHCP_OPTION_ROUTER : Z := 3.
Definition DHCP_OPTION_DNS_SERVERS : Z := 6.
Definition DHCP_OPTION_REQUESTED_IP : Z := 50.
Definition DHCP_OPTION_LEASE_TIME : Z := 51.
Definition DHCP_OPTION_MESSAGE_TYPE : Z := 53.
Definition DHCP_OPTION_DHCP_SERVER : Z := 54.
Definition DHCP_OPTION_PARAM_LIST : Z := 55.
Definition DHCP_OPTION_END : Z := 255.

Definition DHCP_MSG_TYPE_DISCOVER : Z := 1.
Definition DHCP_MSG_TYPE_OFFER : Z := 2.
Definition DHCP_MSG_TYPE_REQUEST : Z := 3.
Definition DHCP_MSG_TYPE_DECLINE : Z := 4.
Definition DHCP_MSG_TYPE_ACK : Z := 5.
Definition DHCP_MSG_TYPE_NAK : Z := 6.
Definition DHCP_MSG_TYPE_RELEASE : Z := 7.
Definition DHCP_MSG_TYPE_INFORM : Z := 8.

(** [sizeof(dhcp_frame_t)]; [pld] lies at that offset. *)
Definition sizeof_dhcp : Z := 240.
Definition sizeof_opt_hdr : Z := 2.

(** ** Sets of options and addresses *)

Definition DHCP_OPTFLAGS_MSGTYPE : Z := 1.
Definition DHCP_OPTFLAGS_SUBNET : Z := 2.
Definition DHCP_OPTFLAGS_ROUTER : Z := 4.
Definition DHCP_OPTFLAGS_DNS_SERVERS : Z := 8.
Definition DHCP_OPTFLAGS_REQUESTED_IP : Z := 16.
Definition DHCP_OPTFLAGS_LEASE_TIME : Z := 32.
Definition DHCP_OPTFLAGS_DHCP_SERVER : Z := 64.
Definition DHCP_OPTFLAGS_REQ_PARAM_LIST : Z := 128.
Definition DHCP_OPTFLAGS_END : Z := 256.

Record dhcp_optset := mk_optset {
  os_optflags : Z; os_msg_type : Z; os_subnet : Z; os_router : Z; os_server : Z;
  os_dns : list Z; os_dns_cnt : Z; os_lease_time : Z;
  os_req_list : list Z; os_req_list_cnt : Z; os_req_ip : Z
}.

(** [{ 0 }]. *)
Definition zero_optset : dhcp_optset := mk_optset 0 0 0 0 0 (replicate 3 0) 0 0 (replicate 32 0) 0 0.

Definition os_set_flags (f : Z) (o : dhcp_optset) : dhcp_optset :=
  mk_optset f (os_msg_type o) (os_subnet o) (os_router o) (os_server o) (os_dns o) (os_dns_cnt o)
    (os_lease_time o) (os_req_list o) (os_req_list_cnt o) (os_req_ip o).
Definition os_set_msg_type (v : Z) (o : dhcp_optset) : dhcp_optset :=
  mk_optset (os_optflags o) v (os_subnet o) (os_router o) (os_server o) (os_dns o) (os_dns_cnt o)
    (os_lease_time o) (os_req_list o) (os_req_list_cnt o) (os_req_ip o).
Definition os_set_subnet (v : Z) (o : dhcp_optset) : dhcp_optset :=
  mk_optset (os_optflags o) (os_msg_type o) v (os_router o) (os_server o) (os_dns o) (os_dns_cnt o)
    (os_lease_time o) (os_req_list o) (os_req_list_cnt o) (os_req_ip o).
Definition os_set_router (v : Z) (o : dhcp_optset) : dhcp_optset :=
  mk_optset (os_optflags o) (os_msg_type o) (os_subnet o) v (os_server o) (os_dns o) (os_dns_cnt o)
    (os_lease_time o) (os_req_list o) (os_req_list_cnt o) (os_req_ip o).
Definition os_set_server (v : Z) (o : dhcp_optset) : dhcp_optset :=
  mk_optset (os_optflags o) (os_msg_type o) (os_subnet o) (os_router o) v (os_dns o) (os_dns_cnt o)
    (os_lease_time o) (os_req_list o) (os_req_list_cnt o) (os_req_ip o).
Definition os_set_dns (v : list Z) (n : Z) (o : dhcp_optset) : dhcp_optset :=
  mk_optset (os_optflags o) (os_msg_type o) (os_subnet o) (os_router o) (os_server o) v n
    (os_lease_time o) (os_req_list o) (os_req_list_cnt o) (os_req_ip o).
Definition os_set_lease_time (v : Z) (o : dhcp_optset) : dhcp_optset :=
  mk_optset (os_optflags o) (os_msg_type o) (os_subnet o) (os_router o) (os_server o) (os_dns o)
    (os_dns_cnt o) v (os_req_list o) (os_req_list_cnt o) (os_req_ip o).
Definition os_set_req_list (v : list Z) (n : Z) (o : dhcp_optset) : dhcp_optset :=
  mk_optset (os_optflags o) (os_msg_type o) (os_subnet o) (os_router o) (os_server o) (os_dns o)
    (os_dns_cnt o) (os_lease_time o) v n (os_req_ip o).
Definition os_set_req_ip (v : Z) (o : dhcp_optset) : dhcp_optset :=
  mk_optset (os_optflags o) (os_msg_type o) (os_subnet o) (os_router o) (os_server o) (os_dns o)
    (os_dns_cnt o) (os_lease_time o) (os_req_list o) (os_req_list_cnt o) v.

(** [opts->optflags |= f]. *)
Definition os_add_flag (f : Z) (o : dhcp_optset) : dhcp_optset :=
  os_set_flags (Z.lor (os_optflags o) f) o.

Definition DHCP_ADDRFLAGS_CIADDR : Z := 1.
Definition DHCP_ADDRFLAGS_YIADDR : Z := 2.
Definition DHCP_ADDRFLAGS_SIADDR : Z := 4.
Definition DHCP_ADDRFLAGS_GIADDR : Z := 8.
Definition DHCP_ADDRFLAGS_CHADDR : Z := 16.

Record dhcp_addrset := mk_addrset {
  as_addrflags : Z; as_ci : Z; as_yi : Z; as_si : Z; as_gi : Z; as_ch : list Z
}.

Definition zero_addrset : dhcp_addrset := mk_addrset 0 0 0 0 0 TCPIP_ETH_ADDR_ZERO.

(** ** Header fields *)

Definition DHCPFrame_Init (m : mem) (dhcp : Z) : res mem :=
  m ← memset m dhcp 0 sizeof_dhcp;
  store32 m (dhcp + 236) (HTOBE32 0x63825363).

Definition DHCPFrame_SetOP (m : mem) (dhcp op : Z) := store8 m (dhcp + 0) op.
Definition DHCPFrame_SetHType (m : mem) (dhcp htype : Z) := store8 m (dhcp + 1) htype.
Definition DHCPFrame_SetHLen (m : mem) (dhcp hlen : Z) := store8 m (dhcp + 2) hlen.
Definition DHCPFrame_SetHops (m : mem) (dhcp hops : Z) := store8 m (dhcp + 3) hops.
Definition DHCPFrame_SetXID (m : mem) (dhcp xid : Z) := store32 m (dhcp + 4) (HTOBE32 xid).
Definition DHCPFrame_SetFlags (m : mem) (dhcp flags : Z) := store16 m (dhcp + 10) (HTOBE16 flags).
Definition DHCPFrame_SetCIAddr (m : mem) (dhcp ciaddr : Z) := store32 m (dhcp + 12) (HTOBE32 ciaddr).
Definition DHCPFrame_SetYIAddr (m : mem) (dhcp yiaddr : Z) := store32 m (dhcp + 16) (HTOBE32 yiaddr).
Definition DHCPFrame_SetSIAddr (m : mem) (dhcp siaddr : Z) := store32 m (dhcp + 20) (HTOBE32 siaddr).
Definition DHCPFrame_SetGIAddr (m : mem) (dhcp giaddr : Z) := store32 m (dhcp + 24) (HTOBE32 giaddr).
Definition DHCPFrame_SetCHAddr (m : mem) (dhcp : Z) (chaddr : list Z) := store_mac m (dhcp + 28) chaddr.

Definition DHCPFrame_GetOP (m : mem) (dhcp : Z) := load8 m (dhcp + 0).
Definition DHCPFrame_GetHType (m : mem) (dhcp : Z) := load8 m (dhcp + 1).
Definition DHCPFrame_GetHLen (m : mem) (dhcp : Z) := load8 m (dhcp + 2).
Definition DHCPFrame_GetHops (m : mem) (dhcp : Z) := load8 m (dhcp + 3).
Definition DHCPFrame_GetXID (m : mem) (dhcp : Z) : res Z := v ← load32 m (dhcp + 4); Ok (BETOH32 v).
Definition DHCPFrame_GetCIAddr (m : mem) (dhcp : Z) : res Z := v ← load32 m (dhcp + 12); Ok (BETOH32 v).
Definition DHCPFrame_GetYIAddr (m : mem) (dhcp : Z) : res Z := v ← load32 m (dhcp + 16); Ok (BETOH32 v).
Definition DHCPFrame_GetSIAddr (m : mem) (dhcp : Z) : res Z := v ← load32 m (dhcp + 20); Ok (BETOH32 v).
Definition DHCPFrame_GetGIAddr (m : mem) (dhcp : Z) : res Z := v ← load32 m (dhcp + 24); Ok (BETOH32 v).
Definition DHCPFrame_GetCHAddr (m : mem) (dhcp : Z) := load_mac m (dhcp + 28).

(** ** Writing options *)

Definition DHCPFrameOpt_SetOptionsEnd (m : mem) (ptr size : Z) : res (mem * Z) :=
  if size <? 1 then Ok (m, 0)
  else m ← store8 m ptr DHCP_OPTION_END; Ok (m, ptr + 1).

(** [sizeof(struct pld)] is 3; [hdr.size] is read back. *)
Definition DHCPFrameOpt_SetMessageType (m : mem) (ptr size msg_type : Z) : res (mem * Z) :=
  if size <? 3 then Ok (m, 0)
  else
    m ← store8 m (ptr + 0) DHCP_OPTION_MESSAGE_TYPE;
    m ← store8 m (ptr + 1) (3 - sizeof_opt_hdr);
    m ← store8 m (ptr + 2) msg_type;
    hdr_size ← load8 m (ptr + 1);
    Ok (m, ptr + sizeof_opt_hdr + hdr_size).

Definition DHCPFrameOpt_SetRequestedIP (m : mem) (ptr size ip : Z) : res (mem * Z) :=
  if size <? 6 then Ok (m, 0)
  else
    m ← store8 m (ptr + 0) DHCP_OPTION_REQUESTED_IP;
    m ← store8 m (ptr + 1) (6 - sizeof_opt_hdr);
    m ← store32 m (ptr + 2) (HTOBE32 ip);
    hdr_size ← load8 m (ptr + 1);
    Ok (m, ptr + sizeof_opt_hdr + hdr_size).

(** [for (int i = 0; i < n; i++) pld->list[i] = req_list[i]]. *)
Fixpoint set_req_list (m : mem) (a : Z) (req_list : list Z) (i : nat) (n : nat) : res mem :=
  match n with
  | O => Ok m
  | S n =>
      match req_list !! i with
      | None => Fault OutOfBounds
      | Some r => m ← store8 m (a + i) r; set_req_list m a req_list (S i) n
      end
  end.

Definition DHCPFrameOpt_SetParameterRequestList (m : mem) (ptr size : Z) (req_list : list Z)
  (req_list_size : Z) : res (mem * Z) :=
  if size <? u32 (sizeof_opt_hdr + req_list_size) then Ok (m, 0)
  else
    m ← store8 m (ptr + 0) DHCP_OPTION_PARAM_LIST;
    m ← store8 m (ptr + 1) req_list_size;
    m ← set_req_list m (ptr + 2) req_list 0 (Z.to_nat req_list_size);
    Ok (m, ptr + sizeof_opt_hdr + req_list_size).

Definition DHCPFrameOpt_SetSubnetMask (m : mem) (ptr size mask : Z) : res (mem * Z) :=
  if size <? 6 then Ok (m, 0)
  else
    m ← store8 m (ptr + 0) DHCP_OPTION_SUBNET_MASK;
    m ← store8 m (ptr + 1) 4;
    m ← store32 m (ptr + 2) (HTOBE32 mask);
    hdr_size ← load8 m (ptr + 1);
    Ok (m, ptr + sizeof_opt_hdr + hdr_size).

Definition DHCPFrameOpt_SetRouterIP (m : mem) (ptr size ip : Z) : res (mem * Z) :=
  if size <? 6 then Ok (m, 0)
  else
    m ← store8 m (ptr + 0) DHCP_OPTION_ROUTER;
    m ← store8 m (ptr + 1) 4;
    m ← store32 m (ptr + 2) (HTOBE32 ip);
    hdr_size ← load8 m (ptr + 1);
    Ok (m, ptr + sizeof_opt_hdr + hdr_size).

Definition DHCPFrameOpt_SetLeaseTime (m : mem) (ptr size seconds : Z) : res (mem * Z) :=
  if size <? 6 then Ok (m, 0)
  else
    m ← store8 m (ptr + 0) DHCP_OPTION_LEASE_TIME;
    m ← store8 m (ptr + 1) 4;
    m ← store32 m (ptr + 2) (HTOBE32 seconds);
    hdr_size ← load8 m (ptr + 1);
    Ok (m, ptr + sizeof_opt_hdr + hdr_size).

(** [for (int i = 0; i < count; i++) pld->ip[i] = HTOBE32(ips[i].u32)]. *)
Fixpoint set_dns_list (m : mem) (ip : Z) (ips : list Z) (i : nat) (count : nat) : res mem :=
  match count with
  | O => Ok m
  | S count =>
      match ips !! i with
      | None => Fault OutOfBounds
      | Some a => m ← store32 m (ip + 4 * i) (HTOBE32 a); set_dns_list m ip ips (S i) count
      end
  end.

(** The size is compared with that of the header only. *)
Definition DHCPFrameOpt_SetDNSServerIP (m : mem) (ptr size : Z) (ips : list Z) (count : Z) : res (mem * Z) :=
  if size <? sizeof_opt_hdr then Ok (m, 0)
  else
    m ← store8 m (ptr + 0) DHCP_OPTION_DNS_SERVERS;
    m ← store8 m (ptr + 1) (count * 4);
    m ← set_dns_list m (ptr + 2) ips 0 (Z.to_nat count);
    hdr_size ← load8 m (ptr + 1);
    Ok (m, ptr + sizeof_opt_hdr + hdr_size).

Definition DHCPFrameOpt_SetDHCPServerIP (m : mem) (ptr size ip : Z) : res (mem * Z) :=
  if size <? 6 then Ok (m, 0)
  else
    m ← store8 m (ptr + 0) DHCP_OPTION_DHCP_SERVER;
    m ← store8 m (ptr + 1) 4;
    m ← store32 m (ptr + 2) (HTOBE32 ip);
    Ok (m, ptr + 6).

(** ** Reading options

    A reader's result is the address of the next option, null when it refuses,
    and the value it stores in the caller's object when it does not. *)

(** The address of the next option, the option's type and size. *)
Definition DHCPFrameOpt_GetOptionHdr (m : mem) (ptr size : Z) : res (Z * Z * Z) :=
  if size <? sizeof_opt_hdr then Ok (0, 0, 0)
  else
    hdr_size ← load8 m (ptr + 1);
    if size <? sizeof_opt_hdr + hdr_size then Ok (0, 0, 0)
    else
      option ← load8 m (ptr + 0);
      if option =? DHCP_OPTION_END then Ok (0, option, hdr_size)
      else Ok (ptr + sizeof_opt_hdr + hdr_size, option, hdr_size).

(** [pld->hdr.option != option || pld->hdr.size != size]. *)
Definition hdr_differs (m : mem) (ptr code size : Z) : res bool :=
  o ← load8 m (ptr + 0);
  if negb (o =? code) then Ok true
  else s ← load8 m (ptr + 1); Ok (negb (s =? size)).

Definition DHCPFrameOpt_GetMessageType (m : mem) (ptr : Z) : res (option Z) :=
  bad ← hdr_differs m ptr DHCP_OPTION_MESSAGE_TYPE 1;
  if (bad : bool) then Ok None else v ← load8 m (ptr + 2); Ok (Some v).

(** [BETOH32] of the word behind the header. *)
Definition get_opt32 (m : mem) (ptr code : Z) : res (option Z) :=
  bad ← hdr_differs m ptr code 4;
  if (bad : bool) then Ok None else v ← load32 m (ptr + 2); Ok (Some (BETOH32 v)).

Definition DHCPFrameOpt_GetRequestedIP (m : mem) (ptr : Z) := get_opt32 m ptr DHCP_OPTION_REQUESTED_IP.
Definition DHCPFrameOpt_GetSubnetMask (m : mem) (ptr : Z) := get_opt32 m ptr DHCP_OPTION_SUBNET_MASK.
Definition DHCPFrameOpt_GetRouterIP (m : mem) (ptr : Z) := get_opt32 m ptr DHCP_OPTION_ROUTER.
Definition DHCPFrameOpt_GetLeaseTime (m : mem) (ptr : Z) := get_opt32 m ptr DHCP_OPTION_LEASE_TIME.
Definition DHCPFrameOpt_GetDHCPServerIP (m : mem) (ptr : Z) := get_opt32 m ptr DHCP_OPTION_DHCP_SERVER.

Definition DHCPFrameOpt_GetParameterRequestList (m : mem) (ptr index : Z) : res (option Z) :=
  o ← load8 m (ptr + 0);
  if negb (o =? DHCP_OPTION_PARAM_LIST) then Ok None
  else
    s ← load8 m (ptr + 1);
    if s <=? index then Ok None
    else v ← load8 m (ptr + 2 + index); Ok (Some v).

Definition DHCPFrameOpt_GetDNSServerIP (m : mem) (ptr index : Z) : res (option Z) :=
  o ← load8 m (ptr + 0);
  if negb (o =? DHCP_OPTION_DNS_SERVERS) then Ok None
  else
    s ← load8 m (ptr + 1);
    if negb (s mod 4 =? 0) then Ok None
    else if s <=? u32 (index * 4) then Ok None
    else v ← load32 m (ptr + 2 + 4 * index); Ok (Some (BETOH32 v)).

(** ** frame.c *)

(** [adrs->addrflags & flag ? a : def]. *)
Definition if_flag {A} (flags flag : Z) (a def : A) : A := if has flags flag then a else def.

Definition DHCPFrame_RenderAddresses (m : mem) (frame size : Z) (adrs : dhcp_addrset) : res (mem * Z) :=
  if size <? sizeof_dhcp then Ok (m, EFATAL)
  else
    let f := as_addrflags adrs in
    m ← DHCPFrame_SetCIAddr m frame (if_flag f DHCP_ADDRFLAGS_CIADDR (as_ci adrs) 0);
    m ← DHCPFrame_SetYIAddr m frame (if_flag f DHCP_ADDRFLAGS_YIADDR (as_yi adrs) 0);
    m ← DHCPFrame_SetSIAddr m frame (if_flag f DHCP_ADDRFLAGS_SIADDR (as_si adrs) 0);
    m ← DHCPFrame_SetGIAddr m frame (if_flag f DHCP_ADDRFLAGS_GIADDR (as_gi adrs) 0);
    m ← DHCPFrame_SetCHAddr m frame (if_flag f DHCP_ADDRFLAGS_CHADDR (as_ch adrs) TCPIP_ETH_ADDR_ZERO);
    Ok (m, EOK).

(** [adrs->addrflags |= flag] unless the address is zero. *)
Definition flag_unless (zero : bool) (flag flags : Z) : Z := if zero then flags else Z.lor flags flag.

Definition DHCPFrame_ParseAddresses (m : mem) (frame size : Z) (adrs : dhcp_addrset)
  : res (dhcp_addrset * Z) :=
  if size <? sizeof_dhcp then Ok (adrs, EFATAL)
  else
    ci ← DHCPFrame_GetCIAddr m frame;
    let f := flag_unless (TCPIPIpAddr_AddressMatch ci 0) DHCP_ADDRFLAGS_CIADDR (as_addrflags adrs) in
    yi ← DHCPFrame_GetYIAddr m frame;
    let f := flag_unless (TCPIPIpAddr_AddressMatch yi 0) DHCP_ADDRFLAGS_YIADDR f in
    si ← DHCPFrame_GetSIAddr m frame;
    let f := flag_unless (TCPIPIpAddr_AddressMatch si 0) DHCP_ADDRFLAGS_SIADDR f in
    gi ← DHCPFrame_GetGIAddr m frame;
    let f := flag_unless (TCPIPIpAddr_AddressMatch gi 0) DHCP_ADDRFLAGS_GIADDR f in
    ch ← DHCPFrame_GetCHAddr m frame;
    let f := flag_unless (TCPIPEthAddr_AddressMatch ch TCPIP_ETH_ADDR_ZERO) DHCP_ADDRFLAGS_CHADDR f in
    Ok (mk_addrset f ci yi si gi ch, EOK).

(** [if (pcurr && (opts->optflags & flag)) pcurr = set(pcurr, size - (pcurr - pstart), ...)]. *)
Definition render_option (opts : dhcp_optset) (pstart size flag : Z) (set : mem → Z → Z → res (mem * Z))
  (m : mem) (pcurr : Z) : res (mem * Z) :=
  if negb (pcurr =? 0) && has (os_optflags opts) flag
  then set m pcurr (u32 (size - (pcurr - pstart))) else Ok (m, pcurr).

Definition DHCPFrame_RenderOptions (m : mem) (ptr size : Z) (opts : dhcp_optset) : res (mem * Z) :=
  let render := render_option opts ptr size in
  '(m, p) ← render DHCP_OPTFLAGS_MSGTYPE
    (λ m p s, DHCPFrameOpt_SetMessageType m p s (os_msg_type opts)) m ptr;
  '(m, p) ← render DHCP_OPTFLAGS_SUBNET
    (λ m p s, DHCPFrameOpt_SetSubnetMask m p s (os_subnet opts)) m p;
  '(m, p) ← render DHCP_OPTFLAGS_ROUTER
    (λ m p s, DHCPFrameOpt_SetRouterIP m p s (os_router opts)) m p;
  '(m, p) ← render DHCP_OPTFLAGS_DNS_SERVERS
    (λ m p s, DHCPFrameOpt_SetDNSServerIP m p s (os_dns opts) (os_dns_cnt opts)) m p;
  '(m, p) ← render DHCP_OPTFLAGS_REQUESTED_IP
    (λ m p s, DHCPFrameOpt_SetRequestedIP m p s (os_req_ip opts)) m p;
  '(m, p) ← render DHCP_OPTFLAGS_LEASE_TIME
    (λ m p s, DHCPFrameOpt_SetLeaseTime m p s (os_lease_time opts)) m p;
  '(m, p) ← render DHCP_OPTFLAGS_DHCP_SERVER
    (λ m p s, DHCPFrameOpt_SetDHCPServerIP m p s (os_server opts)) m p;
  '(m, p) ← render DHCP_OPTFLAGS_REQ_PARAM_LIST
    (λ m p s, DHCPFrameOpt_SetParameterRequestList m p s (os_req_list opts) (os_req_list_cnt opts)) m p;
  render DHCP_OPTFLAGS_END DHCPFrameOpt_SetOptionsEnd m p.

(** The object and the flag are set when the reader accepts. *)
Definition take_option (r : res (option Z)) (set : Z → dhcp_optset → dhcp_optset) (flag : Z)
  (opts : dhcp_optset) : res dhcp_optset :=
  v ← r; Ok (match v with Some v => os_add_flag flag (set v opts) | None => opts end).

(** [for (int i = 0; i < elems(array); i++) if (get(pcurr, &array[i], i)) cnt++]. *)
Fixpoint take_array (get : Z → res (option Z)) (l : list Z) (i cnt : Z) : res (list Z * Z) :=
  match l with
  | [] => Ok ([], cnt)
  | x :: l =>
      v ← get i;
      '(l, cnt) ← take_array get l (i + 1) (match v with Some _ => cnt + 1 | None => cnt end);
      Ok (match v with Some v => v | None => x end :: l, cnt)
  end.

(** The switch over the options. *)
Definition parse_option (m : mem) (pcurr opt_code : Z) (opts : dhcp_optset) : res dhcp_optset :=
  if opt_code =? DHCP_OPTION_MESSAGE_TYPE then
    take_option (DHCPFrameOpt_GetMessageType m pcurr) os_set_msg_type DHCP_OPTFLAGS_MSGTYPE opts
  else if opt_code =? DHCP_OPTION_REQUESTED_IP then
    take_option (DHCPFrameOpt_GetRequestedIP m pcurr) os_set_req_ip DHCP_OPTFLAGS_REQUESTED_IP opts
  else if opt_code =? DHCP_OPTION_SUBNET_MASK then
    take_option (DHCPFrameOpt_GetSubnetMask m pcurr) os_set_subnet DHCP_OPTFLAGS_SUBNET opts
  else if opt_code =? DHCP_OPTION_ROUTER then
    take_option (DHCPFrameOpt_GetRouterIP m pcurr) os_set_router DHCP_OPTFLAGS_ROUTER opts
  else if opt_code =? DHCP_OPTION_LEASE_TIME then
    take_option (DHCPFrameOpt_GetLeaseTime m pcurr) os_set_lease_time DHCP_OPTFLAGS_LEASE_TIME opts
  else if opt_code =? DHCP_OPTION_DNS_SERVERS then
    '(dns, cnt) ← take_array (DHCPFrameOpt_GetDNSServerIP m pcurr) (os_dns opts) 0 0;
    let opts := os_set_dns dns cnt opts in
    Ok (if cnt =? 0 then opts else os_add_flag DHCP_OPTFLAGS_DNS_SERVERS opts)
  else if opt_code =? DHCP_OPTION_DHCP_SERVER then
    take_option (DHCPFrameOpt_GetDHCPServerIP m pcurr) os_set_server DHCP_OPTFLAGS_DHCP_SERVER opts
  else if opt_code =? DHCP_OPTION_PARAM_LIST then
    '(l, cnt) ← take_array (DHCPFrameOpt_GetParameterRequestList m pcurr) (os_req_list opts) 0 0;
    let opts := os_set_req_list l cnt opts in
    Ok (if cnt =? 0 then opts else os_add_flag DHCP_OPTFLAGS_REQ_PARAM_LIST opts)
  else Ok opts.

(** The loop; each round steps over the two bytes of a header at least. *)
Fixpoint parse_options_loop (fuel : nat) (m : mem) (pstart size pcurr : Z) (opts : dhcp_optset)
  : res (Z * dhcp_optset) :=
  match fuel with
  | O => Fault OutOfFuel
  | S fuel =>
      if size =? 0 then Ok (0, opts)
      else
        c ← load8 m pcurr;
        if c =? DHCP_OPTION_END then Ok (pcurr + 1, os_add_flag DHCP_OPTFLAGS_END opts)
        else
          '(pnext, opt_code, _) ← DHCPFrameOpt_GetOptionHdr m pcurr (u32 (size - (pcurr - pstart)));
          if pnext =? 0 then Ok (0, opts)
          else
            opts ← parse_option m pcurr opt_code opts;
            parse_options_loop fuel m pstart size pnext opts
  end.

Definition DHCPFrame_ParseOptions (m : mem) (ptr size : Z) (opts : dhcp_optset) : res (Z * dhcp_optset) :=
  parse_options_loop (S (Z.to_nat size)) m ptr size ptr (os_set_flags 0 opts).

(** ** Header accessors *)

Definition dhcp_header : header := mk_header 240 [
  mk_field Z DHCPFrame_GetOP DHCPFrame_SetOP 0 1 any u8;
  mk_field Z DHCPFrame_GetHType DHCPFrame_SetHType 1 1 any u8;
  mk_field Z DHCPFrame_GetHLen DHCPFrame_SetHLen 2 1 any u8;
  mk_field Z DHCPFrame_GetHops DHCPFrame_SetHops 3 1 any u8;
  mk_field Z DHCPFrame_GetXID DHCPFrame_SetXID 4 4 any u32;
  mk_field Z DHCPFrame_GetCIAddr DHCPFrame_SetCIAddr 12 4 any u32;
  mk_field Z DHCPFrame_GetYIAddr DHCPFrame_SetYIAddr 16 4 any u32;
  mk_field Z DHCPFrame_GetSIAddr DHCPFrame_SetSIAddr 20 4 any u32;
  mk_field Z DHCPFrame_GetGIAddr DHCPFrame_SetGIAddr 24 4 any u32;
  mk_field (list Z) DHCPFrame_GetCHAddr DHCPFrame_SetCHAddr 28 6 is_mac id].

Lemma dhcp_header_ok : header_ok dhcp_header.
Proof.
  fields_tac ltac:(first [apply (field_octet 0)|apply (field_octet 1)|apply (field_octet 2)
    |apply (field_octet 3)|apply (field_be32 4)|apply (field_be32 12)|apply (field_be32 16)
    |apply (field_be32 20)|apply (field_be32 24)|apply (field_mac 28)]).
Qed.

(** ** Options as types and values *)

Definition tlv (o : Z * list Z) : list Z := o.1 :: Z.of_nat (length o.2) :: o.2.

(** The options a set stands for, in the order they are written. *)
Definition option_list (o : dhcp_optset) : list (Z * list Z) :=
  let on f x := if has (os_optflags o) f then [x] else [] in
  on DHCP_OPTFLAGS_MSGTYPE (DHCP_OPTION_MESSAGE_TYPE, [u8 (os_msg_type o)]) ++
  on DHCP_OPTFLAGS_SUBNET (DHCP_OPTION_SUBNET_MASK, be32 (os_subnet o)) ++
  on DHCP_OPTFLAGS_ROUTER (DHCP_OPTION_ROUTER, be32 (os_router o)) ++
  on DHCP_OPTFLAGS_DNS_SERVERS
    (DHCP_OPTION_DNS_SERVERS, concat (be32 <$> take (Z.to_nat (os_dns_cnt o)) (os_dns o))) ++
  on DHCP_OPTFLAGS_REQUESTED_IP (DHCP_OPTION_REQUESTED_IP, be32 (os_req_ip o)) ++
  on DHCP_OPTFLAGS_LEASE_TIME (DHCP_OPTION_LEASE_TIME, be32 (os_lease_time o)) ++
  on DHCP_OPTFLAGS_DHCP_SERVER (DHCP_OPTION_DHCP_SERVER, be32 (os_server o)) ++
  on DHCP_OPTFLAGS_REQ_PARAM_LIST
    (DHCP_OPTION_PARAM_LIST, u8 <$> take (Z.to_nat (os_req_list_cnt o)) (os_req_list o)).

Definition encode (l : list (Z * list Z)) : list Z := concat (tlv <$> l).

Definition option_bytes (o : dhcp_optset) : list Z :=
  encode (option_list o) ++ if has (os_optflags o) DHCP_OPTFLAGS_END then [DHCP_OPTION_END] else [].

(** The counters are those of the arrays. *)
Definition counts_ok (o : dhcp_optset) : Prop :=
  length (os_dns o) = 3%nat ∧ 0 ≤ os_dns_cnt o ≤ 3 ∧
  length (os_req_list o) = 32%nat ∧ 0 ≤ os_req_list_cnt o ≤ 32.

(** *** Writers *)

(** [set] writes [bs] when there is room for them, and nothing otherwise. *)
Definition writes_option (set : mem → Z → Z → res (mem * Z)) (bs : list Z) : Prop :=
  ∀ m p s, length bs ≤ s → mapped m p (length bs) → set m p s = Ok (put_bytes m p bs, p + length bs).
Definition rejects_option (set : mem → Z → Z → res (mem * Z)) (bs : list Z) : Prop :=
  ∀ m p s, s < length bs → set m p s = Ok (m, 0).

Lemma put_bytes_snoc m p l bs a :
  a = p + length l → put_bytes (put_bytes m p l) a bs = put_bytes m p (l ++ bs).
Proof. intros ->. symmetry. apply put_bytes_app. Qed.

(** The two bytes of an option's header. *)
Lemma store_header {A} m p n code sz (k : mem → res A) :
  mapped m p n → (2 ≤ n)%nat →
  (m ← store8 m (p + 0) code; m ← store8 m (p + 1) sz; k m) = k (put_bytes m p [u8 code; u8 sz]).
Proof.
  intros Hm Hn. rewrite store8_put, bind_Ok by (apply (mapped_le _ _ n); [lia|by rewrite Z.add_0_r]).
  rewrite store8_put, bind_Ok.
  - rewrite Z.add_0_r. by rewrite put_bytes_snoc.
  - apply put_bytes_mapped. intros i Hi. apply Hm. lia.
Qed.

Lemma mapped_from m p n k : mapped m p n → 0 ≤ k ≤ n → mapped m (p + k) (Z.to_nat (n - k)).
Proof. intros H Hk i Hi. apply H. lia. Qed.

Lemma load_second m p b0 b1 l : load8 (put_bytes m p (b0 :: b1 :: l)) (p + 1) = Ok b1.
Proof. apply (bytes_at_load8 _ _ (b0 :: b1 :: l) 1); [apply put_bytes_bytes_at|done]. Qed.

(** The options with one word. *)
Ltac word_option :=
  split; intros m p s Hs; [intros Hm|]; cbn [tlv fst snd length be32] in *;
  cbv delta [DHCPFrameOpt_SetSubnetMask DHCPFrameOpt_SetRouterIP DHCPFrameOpt_SetRequestedIP
    DHCPFrameOpt_SetLeaseTime DHCPFrameOpt_SetDHCPServerIP] beta;
  destruct (Z.ltb_spec s 6); try lia; [|done];
  change (6 - sizeof_opt_hdr) with 4;
  (rewrite (store_header m p 6) by (done || lia));
  (rewrite store32_be, bind_Ok by (apply put_bytes_mapped, (mapped_from _ _ 6 2); [done|lia]));
  (rewrite put_bytes_snoc by done); cbn [app]; rewrite ?load_second; cbn [be32]; rewrite ?bind_Ok;
  do 2 f_equal; unfold sizeof_opt_hdr; word_lia.

Lemma write_subnet o : let bs := tlv (DHCP_OPTION_SUBNET_MASK, be32 (os_subnet o)) in
  let set m p s := DHCPFrameOpt_SetSubnetMask m p s (os_subnet o) in writes_option set bs ∧ rejects_option set bs.
Proof. word_option. Qed.
Lemma write_router o : let bs := tlv (DHCP_OPTION_ROUTER, be32 (os_router o)) in
  let set m p s := DHCPFrameOpt_SetRouterIP m p s (os_router o) in writes_option set bs ∧ rejects_option set bs.
Proof. word_option. Qed.
Lemma write_req_ip o : let bs := tlv (DHCP_OPTION_REQUESTED_IP, be32 (os_req_ip o)) in
  let set m p s := DHCPFrameOpt_SetRequestedIP m p s (os_req_ip o) in writes_option set bs ∧ rejects_option set bs.
Proof. word_option. Qed.
Lemma write_lease o : let bs := tlv (DHCP_OPTION_LEASE_TIME, be32 (os_lease_time o)) in
  let set m p s := DHCPFrameOpt_SetLeaseTime m p s (os_lease_time o) in writes_option set bs ∧ rejects_option set bs.
Proof. word_option. Qed.
Lemma write_server o : let bs := tlv (DHCP_OPTION_DHCP_SERVER, be32 (os_server o)) in
  let set m p s := DHCPFrameOpt_SetDHCPServerIP m p s (os_server o) in writes_option set bs ∧ rejects_option set bs.
Proof. word_option. Qed.

Lemma write_msg_type o : let bs := tlv (DHCP_OPTION_MESSAGE_TYPE, [u8 (os_msg_type o)]) in
  let set m p s := DHCPFrameOpt_SetMessageType m p s (os_msg_type o) in writes_option set bs ∧ rejects_option set bs.
Proof.
  split; intros m p s Hs; [intros Hm|]; cbn [tlv fst snd length] in *; unfold DHCPFrameOpt_SetMessageType;
    destruct (Z.ltb_spec s 3); try lia; [|done].
  rewrite (store_header m p 3) by (done || lia).
  rewrite store8_put, bind_Ok by (apply put_bytes_mapped, (mapped_from _ _ 3 2); [done|lia]).
  rewrite put_bytes_snoc by done. cbn [app]. rewrite load_second, bind_Ok.
  do 2 f_equal. unfold sizeof_opt_hdr. word_lia.
Qed.

Lemma write_end : writes_option DHCPFrameOpt_SetOptionsEnd [DHCP_OPTION_END] ∧
  rejects_option DHCPFrameOpt_SetOptionsEnd [DHCP_OPTION_END].
Proof.
  split; intros m p s Hs; [intros Hm|]; cbn [length] in *; unfold DHCPFrameOpt_SetOptionsEnd;
    destruct (Z.ltb_spec s 1); try lia; [|done].
  by rewrite store8_put, bind_Ok.
Qed.

(** The loops over arrays. *)
Lemma set_req_list_ok l : ∀ n m a i,
  (i + n ≤ length l)%nat → mapped m (a + i) n →
  set_req_list m a l i n = Ok (put_bytes m (a + i) (u8 <$> take n (drop i l))).
Proof.
  induction n as [|n IH]; intros m a i Hl Hm; [by rewrite take_0|].
  cbn [set_req_list]. destruct (lookup_lt_is_Some_2 l i) as [r Hr]; [lia|]. rewrite Hr.
  rewrite store8_put, bind_Ok by (intros j Hj; apply Hm; lia).
  rewrite IH by (first [lia|apply put_bytes_mapped; intros j Hj; apply Hm; lia]).
  rewrite (drop_S _ _ _ Hr). cbn [take fmap list_fmap].
  rewrite put_bytes_snoc by (cbn; lia). done.
Qed.

Lemma set_dns_list_ok l : ∀ n m a i,
  (i + n ≤ length l)%nat → mapped m (a + 4 * i) (4 * n) →
  set_dns_list m a l i n = Ok (put_bytes m (a + 4 * i) (concat (be32 <$> take n (drop i l)))).
Proof.
  induction n as [|n IH]; intros m a i Hl Hm; [by rewrite take_0|].
  cbn [set_dns_list]. destruct (lookup_lt_is_Some_2 l i) as [r Hr]; [lia|]. rewrite Hr.
  rewrite store32_be, bind_Ok by (intros j Hj; apply Hm; lia).
  rewrite IH by (first [lia|apply put_bytes_mapped; intros j Hj; apply Hm; lia]).
  rewrite (drop_S _ _ _ Hr). cbn [take fmap list_fmap concat].
  rewrite put_bytes_snoc by (cbn; lia). done.
Qed.

(** The array of an option follows the two bytes of its header. *)
Lemma put_after_header m p b0 b1 bs :
  put_bytes (put_bytes m p [b0; b1]) (p + 2) bs = put_bytes m p (b0 :: b1 :: bs).
Proof. by rewrite put_bytes_snoc. Qed.

Lemma write_req_list o : counts_ok o →
  let bs := tlv (DHCP_OPTION_PARAM_LIST, u8 <$> take (Z.to_nat (os_req_list_cnt o)) (os_req_list o)) in
  let set m p s := DHCPFrameOpt_SetParameterRequestList m p s (os_req_list o) (os_req_list_cnt o) in
  writes_option set bs ∧ rejects_option set bs.
Proof.
  intros (_ & _ & Hlen & Hcnt) bs. set (n := Z.to_nat (os_req_list_cnt o)) in bs.
  assert (length bs = 2 + n)%nat as Hbs.
  { cbn. rewrite length_fmap, length_take. lia. }
  split; intros m p s; rewrite Hbs; [intros Hs Hm|intros Hs]; unfold DHCPFrameOpt_SetParameterRequestList;
    rewrite u32_small by (unfold sizeof_opt_hdr; word_lia);
    destruct (Z.ltb_spec s (sizeof_opt_hdr + os_req_list_cnt o)) as [H|H]; unfold sizeof_opt_hdr in *; try lia; [|done].
  rewrite (store_header m p (2 + n)) by (done || lia). fold n.
  rewrite set_req_list_ok by (first [lia|apply put_bytes_mapped; intros j Hj; apply Hm; lia]).
  rewrite bind_Ok, Z.add_0_r, drop_0, put_after_header. unfold bs, tlv. cbn [fst snd].
  rewrite length_fmap, length_take, Nat.min_l by lia.
  replace (u8 (os_req_list_cnt o)) with (Z.of_nat n) by word_lia. do 2 f_equal. lia.
Qed.

Lemma length_be32s l : length (concat (be32 <$> l)) = (4 * length l)%nat.
Proof. induction l as [|x l IH]; [done|]. cbn. rewrite IH. lia. Qed.

Lemma write_dns o : counts_ok o →
  let bs := tlv (DHCP_OPTION_DNS_SERVERS, concat (be32 <$> take (Z.to_nat (os_dns_cnt o)) (os_dns o))) in
  writes_option (λ m p s, DHCPFrameOpt_SetDNSServerIP m p s (os_dns o) (os_dns_cnt o)) bs.
Proof.
  intros (Hlen & Hcnt & _) bs. set (n := Z.to_nat (os_dns_cnt o)) in bs.
  assert (length bs = 2 + 4 * n)%nat as Hbs.
  { cbn [bs tlv length fst snd]. rewrite length_be32s, length_take. lia. }
  intros m p s. rewrite Hbs. intros Hs Hm. unfold DHCPFrameOpt_SetDNSServerIP.
  destruct (Z.ltb_spec s sizeof_opt_hdr) as [H|H]; unfold sizeof_opt_hdr in *; [lia|].
  rewrite (store_header m p (2 + 4 * n)) by (done || lia). fold n.
  rewrite set_dns_list_ok by (first [lia|apply put_bytes_mapped; intros j Hj; apply Hm; lia]).
  rewrite bind_Ok, Z.add_0_r, drop_0, put_after_header, load_second, bind_Ok. unfold bs, tlv. cbn [fst snd].
  rewrite length_be32s, length_take, Nat.min_l by lia.
  replace (u8 (os_dns_cnt o * 4)) with (Z.of_nat (4 * n)) by word_lia. do 2 f_equal. lia.
Qed.

(** *** The chain of writers *)

(** The state after the bytes [bs] were to be written: they were, or they do not
    fit and the pointer is null. *)
Definition rendered (m : mem) (ptr size : Z) (bs : list Z) (st : mem * Z) : Prop :=
  if decide (length bs ≤ size) then st = (put_bytes m ptr bs, ptr + length bs)
  else st.2 = 0 ∧ ∃ l, length l ≤ size ∧ st.1 = put_bytes m ptr l.

Section render.
Context (opts : dhcp_optset) (m : mem) (ptr size : Z).
Context (Hptr : 0 < ptr) (Hsize : 0 ≤ size < 4294967296) (Hm : mapped m ptr (Z.to_nat size)).

Lemma render_step flag set bs acc m1 p1 :
  rendered m ptr size acc (m1, p1) → writes_option set bs →
  rejects_option set bs ∨ has (os_optflags opts) flag = false ∨ length (acc ++ bs) ≤ size →
  ∃ st', render_option opts ptr size flag set m1 p1 = Ok st' ∧
    rendered m ptr size (acc ++ if has (os_optflags opts) flag then bs else []) st'.
Proof.
  intros Hst Hw Hr. unfold render_option.
  destruct (has (os_optflags opts) flag); [|exists (m1, p1); by rewrite andb_false_r, app_nil_r].
  rewrite andb_true_r. unfold rendered in Hst. destruct (decide _) as [Ha|Ha].
  - injection Hst as -> ->. destruct (Z.eqb_spec (ptr + length acc) 0) as [Hz|_]; [lia|]. cbn [negb].
    assert (u32 (size - (ptr + length acc - ptr)) = size - length acc) as -> by word_lia.
    destruct (decide (length (acc ++ bs) ≤ size)) as [Hb|Hb]; rewrite length_app in Hb.
    + rewrite Hw by (first [lia|apply put_bytes_mapped; intros j Hj; apply Hm; lia]).
      eexists. split; [done|]. unfold rendered. rewrite length_app.
      destruct (decide _); [|lia]. rewrite put_bytes_snoc by done. f_equal. lia.
    + destruct Hr as [Hr|[Hr|Hr]]; [|done|rewrite length_app in Hr; lia].
      rewrite Hr by lia. eexists. split; [done|]. unfold rendered. rewrite length_app.
      destruct (decide _); [lia|]. split; [done|]. by exists acc.
  - destruct Hst as [Hz Hl]. cbn in Hz. subst p1. exists (m1, 0). split; [done|].
    unfold rendered. rewrite length_app. destruct (decide _); [lia|]. done.
Qed.
End render.

Lemma encode_on (b : bool) x : encode (if b then [x] else []) = if b then tlv x else [].
Proof. destruct b; [|done]. unfold encode. cbn. by rewrite app_nil_r. Qed.
Lemma encode_app l1 l2 : encode (l1 ++ l2) = encode l1 ++ encode l2.
Proof. unfold encode. by rewrite fmap_app, concat_app. Qed.

Lemma render_options_ok opts m ptr size :
  counts_ok opts → 0 < ptr → 0 ≤ size < 4294967296 → mapped m ptr (Z.to_nat size) →
  has (os_optflags opts) DHCP_OPTFLAGS_DNS_SERVERS = false ∨ length (option_bytes opts) ≤ size →
  ∃ st, DHCPFrame_RenderOptions m ptr size opts = Ok st ∧ rendered m ptr size (option_bytes opts) st.
Proof.
  intros Hc Hptr Hsize Hm Hdns.
  assert (rendered m ptr size [] (m, ptr)) as H0.
  { unfold rendered. destruct (decide _); [|cbn in *; lia]. cbn. by rewrite Z.add_0_r. }
  unfold DHCPFrame_RenderOptions, option_bytes, option_list in *.
  rewrite !encode_app, !encode_on, <- !app_assoc in *.
  set (step := render_step opts m ptr size Hptr Hsize Hm).
  destruct (step DHCP_OPTFLAGS_MSGTYPE _ _ [] m ptr H0 (proj1 (write_msg_type opts)) (or_introl (proj2 (write_msg_type opts)))) as ([m1 p1] & -> & H1).
  rewrite bind_Ok. cbn [app] in H1.
  destruct (step DHCP_OPTFLAGS_SUBNET _ _ _ _ _ H1 (proj1 (write_subnet opts)) (or_introl (proj2 (write_subnet opts)))) as ([m2 p2] & -> & H2).
  rewrite bind_Ok.
  destruct (step DHCP_OPTFLAGS_ROUTER _ _ _ _ _ H2 (proj1 (write_router opts)) (or_introl (proj2 (write_router opts)))) as ([m3 p3] & -> & H3).
  rewrite bind_Ok.
  destruct (step DHCP_OPTFLAGS_DNS_SERVERS _ _ _ _ _ H3 (write_dns opts Hc)) as ([m4 p4] & -> & H4).
  { right. destruct (has _ DHCP_OPTFLAGS_DNS_SERVERS); [right|by left].
    destruct Hdns as [?|Hdns]; [done|]. rewrite !length_app in Hdns. rewrite !length_app. lia. }
  rewrite bind_Ok.
  destruct (step DHCP_OPTFLAGS_REQUESTED_IP _ _ _ _ _ H4 (proj1 (write_req_ip opts)) (or_introl (proj2 (write_req_ip opts)))) as ([m5 p5] & -> & H5).
  rewrite bind_Ok.
  destruct (step DHCP_OPTFLAGS_LEASE_TIME _ _ _ _ _ H5 (proj1 (write_lease opts)) (or_introl (proj2 (write_lease opts)))) as ([m6 p6] & -> & H6).
  rewrite bind_Ok.
  destruct (step DHCP_OPTFLAGS_DHCP_SERVER _ _ _ _ _ H6 (proj1 (write_server opts)) (or_introl (proj2 (write_server opts)))) as ([m7 p7] & -> & H7).
  rewrite bind_Ok.
  destruct (step DHCP_OPTFLAGS_REQ_PARAM_LIST _ _ _ _ _ H7 (proj1 (write_req_list opts Hc)) (or_introl (proj2 (write_req_list opts Hc)))) as ([m8 p8] & -> & H8).
  rewrite bind_Ok.
  destruct (step DHCP_OPTFLAGS_END _ _ _ _ _ H8 (proj1 write_end) (or_introl (proj2 write_end))) as ([m9 p9] & -> & H9).
  eexists. split; [done|]. by rewrite <- !app_assoc in H9.
Qed.

(** *** Readers *)

(** The big-endian word at position [k]. *)
Definition be_word (l : list Z) (k : nat) : Z :=
  16777216 * l !!! k + 65536 * l !!! S k + 256 * l !!! S (S k) + l !!! S (S (S k)).

(** What an option does to the set: nothing when its size is not the expected
    one; three addresses of name servers and 32 parameters are kept at most. *)
Definition apply_option (o : dhcp_optset) (x : Z * list Z) : dhcp_optset :=
  let '(code, data) := x in
  let n := length data in
  let word set flag := if decide (n = 4%nat) then os_add_flag flag (set (be_word data 0) o) else o in
  if code =? DHCP_OPTION_MESSAGE_TYPE then
    if decide (n = 1%nat) then os_add_flag DHCP_OPTFLAGS_MSGTYPE (os_set_msg_type (data !!! O) o) else o
  else if code =? DHCP_OPTION_REQUESTED_IP then word os_set_req_ip DHCP_OPTFLAGS_REQUESTED_IP
  else if code =? DHCP_OPTION_SUBNET_MASK then word os_set_subnet DHCP_OPTFLAGS_SUBNET
  else if code =? DHCP_OPTION_ROUTER then word os_set_router DHCP_OPTFLAGS_ROUTER
  else if code =? DHCP_OPTION_LEASE_TIME then word os_set_lease_time DHCP_OPTFLAGS_LEASE_TIME
  else if code =? DHCP_OPTION_DNS_SERVERS then
    let k := Nat.min (length (os_dns o)) (if n mod 4 =? 0 then Z.to_nat (n / 4) else O) in
    let o' := os_set_dns (((λ i, be_word data (4 * i)%nat) <$> seq 0 k) ++ drop k (os_dns o)) k o in
    if decide (k = O) then o' else os_add_flag DHCP_OPTFLAGS_DNS_SERVERS o'
  else if code =? DHCP_OPTION_DHCP_SERVER then word os_set_server DHCP_OPTFLAGS_DHCP_SERVER
  else if code =? DHCP_OPTION_PARAM_LIST then
    let k := Nat.min (length (os_req_list o)) n in
    let o' := os_set_req_list (take k data ++ drop k (os_req_list o)) k o in
    if decide (k = O) then o' else os_add_flag DHCP_OPTFLAGS_REQ_PARAM_LIST o'
  else o.

Lemma load_be_word m p l k :
  bytes_at m p l → Forall is_u8 l → (k + 4 ≤ length l)%nat →
  ∃ v, load32 m (p + k) = Ok v ∧ BETOH32 v = be_word l k.
Proof.
  intros H Hu Hk.
  destruct (lookup_lt_is_Some_2 l k) as [b0 H0]; [lia|].
  destruct (lookup_lt_is_Some_2 l (S k)) as [b1 H1]; [lia|].
  destruct (lookup_lt_is_Some_2 l (S (S k))) as [b2 H2]; [lia|].
  destruct (lookup_lt_is_Some_2 l (S (S (S k)))) as [b3 H3]; [lia|].
  exists (HTOBE32 (be_word l k)). unfold BETOH32. rewrite HTOBE32_involutive.
  assert (Hb : ∀ i b, l !! i = Some b → is_u8 b) by (intros i b; by apply Forall_lookup_1).
  pose proof (Hb _ _ H0); pose proof (Hb _ _ H1); pose proof (Hb _ _ H2); pose proof (Hb _ _ H3).
  rewrite (load32_bytes m p l k b0 b1 b2 b3) by done.
  assert (be_word l k = 16777216 * b0 + 65536 * b1 + 256 * b2 + b3) as ->.
  { unfold be_word. by rewrite !list_lookup_total_alt, H0, H1, H2, H3. }
  split; [|apply u32_small; word_lia]. f_equal. rewrite HTOBE32_bytes. byte_arith. word_lia.
Qed.

Lemma take_array_ok get f n : ∀ l (i : nat) cnt,
  (∀ j : nat, (j < i + length l)%nat → get (Z.of_nat j) = Ok (if decide (j < n)%nat then Some (f j) else None)) →
  let k := Nat.min (length l) (n - i) in
  take_array get l i cnt = Ok ((f <$> seq i k) ++ drop k l, cnt + k).
Proof.
  induction l as [|x l IH]; intros i cnt H; [cbn; by rewrite Z.add_0_r|].
  cbn [take_array length]. rewrite (H i) by (cbn; lia). rewrite bind_Ok.
  assert (Hn : Z.of_nat i + 1 = Z.of_nat (S i)) by lia. rewrite Hn.
  rewrite IH by (intros j Hj; apply H; cbn; lia). rewrite bind_Ok.
  destruct (decide (i < n)%nat).
  - replace (Nat.min (S (length l)) (n - i)) with (S (Nat.min (length l) (n - S i))) by lia.
    cbn [seq fmap list_fmap drop app]. do 2 f_equal. lia.
  - replace (n - i)%nat with O by lia. replace (n - S i)%nat with O by lia.
    rewrite !Nat.min_0_r. cbn. by rewrite drop_0.
Qed.

Section options.
Context (m : mem) (p : Z) (code : Z) (data : list Z).
Context (Hat : bytes_at m p (tlv (code, data))) (Hu : Forall is_u8 data) (Hn : (length data < 256)%nat).

Lemma tlv_code : load8 m (p + 0) = Ok code.
Proof. by apply (bytes_at_load8 _ _ (tlv (code, data)) 0). Qed.
Lemma tlv_size : load8 m (p + 1) = Ok (Z.of_nat (length data)).
Proof. by apply (bytes_at_load8 _ _ (tlv (code, data)) 1). Qed.
Lemma tlv_data : bytes_at m (p + 2) data.
Proof. apply (bytes_at_app _ _ [code; Z.of_nat (length data)] data) in Hat. apply Hat. Qed.

Lemma hdr_differs_ok n : hdr_differs m p code n = Ok (negb (Z.of_nat (length data) =? n)).
Proof. unfold hdr_differs. by rewrite tlv_code, bind_Ok, Z.eqb_refl, tlv_size. Qed.

Lemma get_opt32_ok :
  get_opt32 m p code = Ok (if decide (length data = 4%nat) then Some (be_word data 0) else None).
Proof.
  unfold get_opt32. rewrite hdr_differs_ok, bind_Ok.
  destruct (Z.eqb_spec (length data) 4), (decide (length data = 4%nat)); try lia; [|done]. cbn [negb].
  destruct (load_be_word m (p + 2) data 0 tlv_data Hu) as (v & E & Ev); [lia|].
  rewrite Z.add_0_r in E. by rewrite E, bind_Ok, Ev.
Qed.

Lemma take_word set flag o :
  take_option (get_opt32 m p code) set flag o =
  Ok (if decide (length data = 4%nat) then os_add_flag flag (set (be_word data 0) o) else o).
Proof. unfold take_option. rewrite get_opt32_ok, bind_Ok. by destruct (decide _). Qed.

Lemma get_req_ok (i : nat) : code = DHCP_OPTION_PARAM_LIST →
  DHCPFrameOpt_GetParameterRequestList m p i =
  Ok (if decide (i < length data)%nat then Some (data !!! i) else None).
Proof.
  intros Hc. unfold DHCPFrameOpt_GetParameterRequestList.
  rewrite tlv_code, bind_Ok, Hc, Z.eqb_refl, tlv_size, bind_Ok. cbn [negb].
  destruct (Z.leb_spec (length data) i), (decide (i < length data)%nat); try lia; [done|].
  destruct (lookup_lt_is_Some_2 data i) as [b Hb]; [done|].
  by rewrite (bytes_at_load8 _ _ _ _ _ tlv_data Hb), bind_Ok, list_lookup_total_alt, Hb.
Qed.

Lemma get_dns_ok (i : nat) : code = DHCP_OPTION_DNS_SERVERS → (i < 64)%nat →
  DHCPFrameOpt_GetDNSServerIP m p i =
  Ok (if decide (i < if (length data mod 4 =? 0)%Z then Z.to_nat (length data / 4) else 0)%nat
      then Some (be_word data (4 * i)%nat) else None).
Proof.
  intros Hc Hi. unfold DHCPFrameOpt_GetDNSServerIP.
  rewrite tlv_code, bind_Ok, Hc, Z.eqb_refl, tlv_size, bind_Ok. cbn [negb].
  rewrite u32_small by word_lia.
  destruct (Z.eqb_spec (length data mod 4) 0) as [H4|H4]; cbv iota; cbn [negb]; [|by destruct (decide _); [lia|]].
  destruct (Z.leb_spec (length data) (i * 4)), (decide (i < Z.to_nat (length data / 4))%nat); try lia; [done|].
  destruct (load_be_word m (p + 2) data (4 * i) tlv_data Hu) as (v & E & Ev); [lia|].
  replace (p + 2 + (4 * i)%nat) with (p + 2 + 4 * i) in E by lia. by rewrite E, bind_Ok, Ev.
Qed.
End options.

Lemma total_seq (data : list Z) k : (k ≤ length data)%nat → ((λ i, data !!! i) <$> seq 0 k) = take k data.
Proof.
  intros Hk. apply list_eq. intros i. destruct (decide (i < k)%nat) as [Hi|Hi].
  - rewrite list_lookup_fmap, lookup_seq_lt, lookup_take_lt by done. cbn. symmetry.
    apply list_lookup_lookup_total_lt. lia.
  - rewrite list_lookup_fmap, lookup_seq_ge, lookup_take_ge by lia. done.
Qed.

Lemma parse_option_ok m p code data o :
  bytes_at m p (tlv (code, data)) → Forall is_u8 data → (length data < 256)%nat →
  length (os_dns o) = 3%nat → length (os_req_list o) = 32%nat →
  parse_option m p code o = Ok (apply_option o (code, data)).
Proof.
  intros Hat Hu Hn Hd Hl. unfold parse_option, apply_option.
  destruct (Z.eqb_spec code DHCP_OPTION_MESSAGE_TYPE) as [Hc|_].
  { unfold take_option, DHCPFrameOpt_GetMessageType. rewrite <- Hc, (hdr_differs_ok _ _ _ _ Hat), bind_Ok.
    destruct (Z.eqb_spec (length data) 1), (decide (length data = 1%nat)); try lia; [|done]. cbn [negb].
    destruct data as [|v [|]]; try done.
    pose proof (bytes_at_load8 _ _ [v] 0 v (tlv_data _ _ _ _ Hat) eq_refl) as E. rewrite Z.add_0_r in E.
    by rewrite E. }
  destruct (Z.eqb_spec code DHCP_OPTION_REQUESTED_IP) as [Hc|_]; [rewrite Hc in *; by apply take_word|].
  destruct (Z.eqb_spec code DHCP_OPTION_SUBNET_MASK) as [Hc|_]; [rewrite Hc in *; by apply take_word|].
  destruct (Z.eqb_spec code DHCP_OPTION_ROUTER) as [Hc|_]; [rewrite Hc in *; by apply take_word|].
  destruct (Z.eqb_spec code DHCP_OPTION_LEASE_TIME) as [Hc|_]; [rewrite Hc in *; by apply take_word|].
  destruct (Z.eqb_spec code DHCP_OPTION_DNS_SERVERS) as [Hc|_].
  { rewrite (take_array_ok _ (λ i, be_word data (4 * i)%nat)
      (if length data mod 4 =? 0 then Z.to_nat (length data / 4) else O) _ 0)
      by (intros j Hj; apply (get_dns_ok m p code data); first [done|lia]). rewrite bind_Ok.
    rewrite Nat.sub_0_r, Z.add_0_l.
    set (k := Nat.min _ _). destruct (Z.eqb_spec k 0), (decide (k = O)); try lia; done. }
  destruct (Z.eqb_spec code DHCP_OPTION_DHCP_SERVER) as [Hc|_]; [rewrite Hc in *; by apply take_word|].
  destruct (Z.eqb_spec code DHCP_OPTION_PARAM_LIST) as [Hc|_]; [|done].
  rewrite (take_array_ok _ (λ i, data !!! i) (length data) _ 0)
    by (intros j Hj; by apply (get_req_ok m p code data)). rewrite bind_Ok.
  rewrite Nat.sub_0_r, Z.add_0_l. set (k := Nat.min _ _). rewrite total_seq by lia.
  destruct (Z.eqb_spec k 0), (decide (k = O)); try lia; done.
Qed.

Lemma length_apply o x :
  length (os_dns (apply_option o x)) = length (os_dns o) ∧
  length (os_req_list (apply_option o x)) = length (os_req_list o).
Proof.
  destruct x as [code data]. unfold apply_option.
  repeat case_match; cbn;
    rewrite ?length_app, ?length_fmap, ?length_seq, ?length_take, ?length_drop; lia.
Qed.

Lemma apply_arrays o l : length (os_dns o) = 3%nat → length (os_req_list o) = 32%nat →
  length (os_dns (foldl apply_option o l)) = 3%nat ∧ length (os_req_list (foldl apply_option o l)) = 32%nat.
Proof.
  revert o. induction l as [|x l IH]; intros o Hd Hr; [done|]. cbn.
  destruct (length_apply o x) as [E1 E2]. apply IH; congruence.
Qed.

(** An option has a type other than the end mark and a size of one byte. *)
Definition option_ok (x : Z * list Z) : Prop :=
  is_u8 x.1 ∧ x.1 ≠ DHCP_OPTION_END ∧ Forall is_u8 x.2 ∧ (length x.2 < 256)%nat.

Lemma get_hdr_ok m p x rest s :
  bytes_at m p (tlv x ++ rest) → option_ok x → length (tlv x) ≤ s →
  DHCPFrameOpt_GetOptionHdr m p s = Ok (p + length (tlv x), x.1, Z.of_nat (length x.2)).
Proof.
  intros Hat (_ & Hx & _) Hs. apply bytes_at_app in Hat as [Hat _]. cbn in Hs.
  unfold DHCPFrameOpt_GetOptionHdr, sizeof_opt_hdr. destruct x as [code data].
  destruct (Z.ltb_spec s 2); [lia|]. rewrite (tlv_size _ _ _ _ Hat), bind_Ok.
  cbn in *. destruct (Z.ltb_spec s (2 + length data)); [lia|].
  rewrite (tlv_code _ _ _ _ Hat), bind_Ok. destruct (Z.eqb_spec code DHCP_OPTION_END); [done|].
  do 3 f_equal. lia.
Qed.

(** One round of the loop. *)
Lemma parse_round fuel m pstart size p o x rest :
  bytes_at m p (tlv x ++ rest) → option_ok x → 0 < pstart ≤ p →
  p + length (tlv x) ≤ pstart + size → size < 4294967296 →
  length (os_dns o) = 3%nat → length (os_req_list o) = 32%nat →
  parse_options_loop (S fuel) m pstart size p o =
  parse_options_loop fuel m pstart size (p + length (tlv x)) (apply_option o x).
Proof.
  intros Hat Hx Hp Hs Hsize Hd Hr. cbn [parse_options_loop].
  destruct x as [code data]. pose proof Hx as (_ & Hend & Hu & Hn). pose proof Hat as [Hc _]. cbn in Hs.
  destruct (Z.eqb_spec size 0); [lia|]. unfold load8 at 1. cbn in Hc. rewrite Hc, bind_Ok.
  destruct (Z.eqb_spec code DHCP_OPTION_END); [done|].
  rewrite (get_hdr_ok m p (code, data) rest) by (first [done|cbn; word_lia]). rewrite bind_Ok.
  destruct (Z.eqb_spec (p + length (tlv (code, data))) 0); [lia|]. cbn [fst].
  apply bytes_at_app in Hat as [Hat _]. by rewrite (parse_option_ok m p code data o), bind_Ok.
Qed.

(** The options up to the end mark are applied in their order. *)
Lemma parse_loop_ok m pstart size : ∀ l fuel p o rest,
  bytes_at m p (encode l ++ DHCP_OPTION_END :: rest) → Forall option_ok l → (length l < fuel)%nat →
  0 < pstart ≤ p → p + length (encode l) ≤ pstart + size → 0 < size < 4294967296 →
  length (os_dns o) = 3%nat → length (os_req_list o) = 32%nat →
  parse_options_loop fuel m pstart size p o =
  Ok (p + length (encode l) + 1, os_add_flag DHCP_OPTFLAGS_END (foldl apply_option o l)).
Proof.
  induction l as [|x l IH]; intros [|fuel] p o rest Hat Hl Hf Hp Hs Hsize Hd Hr; try (cbn in Hf; lia).
  - cbn in Hat. destruct Hat as [Hc _]. cbn [parse_options_loop]. unfold load8 at 1. rewrite Hc.
    destruct (Z.eqb_spec size 0); [lia|]. cbn. do 2 f_equal. lia.
  - apply Forall_cons_1 in Hl as [Hx Hl]. unfold encode in *. cbn [fmap list_fmap concat] in *.
    rewrite <- app_assoc, length_app in *. destruct (length_apply o x) as [E1 E2].
    rewrite (parse_round _ _ _ _ _ _ x _ Hat) by (done || lia).
    apply bytes_at_app in Hat as [_ Hat]. cbn [length] in Hf.
    rewrite (IH fuel _ _ rest Hat) by (first [done|lia|congruence]). do 2 f_equal. lia.
Qed.

(** Either an option fits, or its header or its value does not. *)
Lemma front_option c l n :
  Forall is_u8 (c :: l) → c ≠ DHCP_OPTION_END → length (c :: l) = S n →
  (∃ x rest, c :: l = tlv x ++ rest ∧ option_ok x ∧ (length (tlv x) ≤ n)%nat) ∨
  n < 2 ∨ ∃ s l', l = s :: l' ∧ n < 2 + s.
Proof.
  intros Hu Hc Hl. destruct l as [|s l]; [right; left; cbn in Hl; lia|].
  apply Forall_cons_1 in Hu as [Huc Hu]. apply Forall_cons_1 in Hu as [Hus Hu].
  destruct (decide (n < 2 + s)); [by right; right; exists s, l|left].
  exists (c, take (Z.to_nat s) l), (drop (Z.to_nat s) l).
  assert (length (take (Z.to_nat s) l) = Z.to_nat s) as Ht by (rewrite length_take; cbn in Hl; word_lia).
  unfold tlv, option_ok. cbn [fst snd length app]. rewrite Ht, take_drop.
  split; [f_equal; f_equal; word_lia|]. split; [|word_lia]. split; [done|]. split; [done|].
  split; [by apply Forall_take|word_lia].
Qed.

(** Whatever the bytes are, the loop stays within the options and the byte
    behind them. *)
Lemma parse_loop_total m pstart size : ∀ fuel p o,
  octets m p (S (Z.to_nat (pstart + size - p))) → 0 < pstart ≤ p → p ≤ pstart + size →
  0 ≤ size < 4294967296 → (Z.to_nat (pstart + size - p) < fuel)%nat →
  length (os_dns o) = 3%nat → length (os_req_list o) = 32%nat →
  ∃ r o', parse_options_loop fuel m pstart size p o = Ok (r, o') ∧ (r = 0 ∨ p < r ≤ pstart + size + 1).
Proof.
  induction fuel as [|fuel IH]; intros p o Ho Hp Hend Hsize Hf Hd Hr; [lia|].
  destruct Ho as (l & Hl & Hu & Hat). destruct l as [|c l]; [done|].
  destruct (Z.eqb_spec size 0) as [->|Hz]; [by exists 0, o; split; [|left]|].
  destruct (decide (c = DHCP_OPTION_END)) as [->|Hc].
  { exists (p + 1), (os_add_flag DHCP_OPTFLAGS_END o). cbn [parse_options_loop].
    destruct (Z.eqb_spec size 0); [done|]. rewrite (load8_bytes _ _ _ _ Hat), bind_Ok. split; [done|]. right. lia. }
  destruct (front_option c l (Z.to_nat (pstart + size - p)) Hu Hc Hl) as [(x & rest & Hx & Hok & Hlen)|Hno].
  - rewrite Hx in Hat. rewrite (parse_round _ _ _ _ _ _ x rest) by (done || lia).
    destruct (length_apply o x) as [E1 E2].
    destruct (IH (p + length (tlv x)) (apply_option o x)) as (r & o' & E & Hr');
      [|lia|lia|done|cbn in *; lia|congruence|congruence|].
    { exists rest. apply bytes_at_app in Hat as [_ Hat]. rewrite Hx in Hl, Hu. rewrite length_app in Hl.
      split; [lia|]. split; [by apply Forall_app in Hu as [_ Hu]|done]. }
    exists r, o'. split; [done|]. destruct Hr' as [|Hr']; [by left|right; lia].
  - exists 0, o. split; [|by left]. cbn [parse_options_loop].
    destruct (Z.eqb_spec size 0); [done|]. rewrite (load8_bytes _ _ _ _ Hat), bind_Ok.
    destruct (Z.eqb_spec c DHCP_OPTION_END); [done|].
    rewrite u32_small by word_lia. unfold DHCPFrameOpt_GetOptionHdr, sizeof_opt_hdr.
    destruct (Z.ltb_spec (size - (p - pstart)) 2) as [|H2]; [done|].
    destruct Hno as [Hno|(s & l' & -> & Hno)]; [lia|].
    rewrite (bytes_at_load8 _ _ _ 1 s Hat eq_refl : load8 m (p + 1) = Ok s), bind_Ok.
    destruct (Z.ltb_spec (size - (p - pstart)) (2 + s)); [done|lia].
Qed.

(** ** Round trip *)

Definition upd (b : bool) (flag : Z) (set : dhcp_optset → dhcp_optset) (o : dhcp_optset) : dhcp_optset :=
  if b then os_add_flag flag (set o) else o.

Lemma upd_proj {A} (f : dhcp_optset → A) b flag set o :
  (∀ o, f (set o) = f o) → (∀ F o, f (os_add_flag F o) = f o) → f (upd b flag set o) = f o.
Proof. intros H1 H2. destruct b; cbn; [by rewrite H2, H1|done]. Qed.

Lemma upd_flags b flag set o :
  (∀ o, os_optflags (set o) = os_optflags o) →
  os_optflags (upd b flag set o) = Z.lor (os_optflags o) (if b then flag else 0).
Proof. intros H. destruct b; cbn; [by rewrite H|by rewrite Z.lor_0_r]. Qed.

Lemma apply_on (b : bool) x o : foldl apply_option o (if b then [x] else []) = if b then apply_option o x else o.
Proof. by destruct b. Qed.

Lemma be_word_be32 v l : is_u32 v → be_word (be32 v ++ l) 0 = v.
Proof. intros Hv. unfold be_word, be32. cbn. byte_arith. word_lia. Qed.

Lemma be_words l : Forall is_u32 l → ∀ i, (i < length l)%nat → be_word (concat (be32 <$> l)) (4 * i) = l !!! i.
Proof.
  induction 1 as [|v l Hv Hl IH]; intros i Hi; [cbn in Hi; lia|]. destruct i as [|i].
  - by apply be_word_be32.
  - change ((v :: l) !!! S i) with (l !!! i). rewrite <- (IH i) by (cbn in Hi; lia). unfold be_word. replace (4 * S i)%nat with (4 + 4 * i)%nat by lia. done.
Qed.

(** What the flags of a set announce. *)
Definition same_options (o o' : dhcp_optset) : Prop :=
  let on f := has (os_optflags o) f = true in
  os_optflags o' = os_optflags o ∧
  (on DHCP_OPTFLAGS_MSGTYPE → os_msg_type o' = os_msg_type o) ∧
  (on DHCP_OPTFLAGS_SUBNET → os_subnet o' = os_subnet o) ∧
  (on DHCP_OPTFLAGS_ROUTER → os_router o' = os_router o) ∧
  (on DHCP_OPTFLAGS_DNS_SERVERS → os_dns_cnt o' = os_dns_cnt o ∧
     take (Z.to_nat (os_dns_cnt o)) (os_dns o') = take (Z.to_nat (os_dns_cnt o)) (os_dns o)) ∧
  (on DHCP_OPTFLAGS_REQUESTED_IP → os_req_ip o' = os_req_ip o) ∧
  (on DHCP_OPTFLAGS_LEASE_TIME → os_lease_time o' = os_lease_time o) ∧
  (on DHCP_OPTFLAGS_DHCP_SERVER → os_server o' = os_server o) ∧
  (on DHCP_OPTFLAGS_REQ_PARAM_LIST → os_req_list_cnt o' = os_req_list_cnt o ∧
     take (Z.to_nat (os_req_list_cnt o)) (os_req_list o') = take (Z.to_nat (os_req_list_cnt o)) (os_req_list o)).

(** A set that can be sent: values of their types, no empty lists, an end mark. *)
Definition optset_ok (o : dhcp_optset) : Prop :=
  counts_ok o ∧ 0 ≤ os_optflags o < 512 ∧ has (os_optflags o) DHCP_OPTFLAGS_END = true ∧
  is_u8 (os_msg_type o) ∧ is_u32 (os_subnet o) ∧ is_u32 (os_router o) ∧ is_u32 (os_server o) ∧
  is_u32 (os_lease_time o) ∧ is_u32 (os_req_ip o) ∧ Forall is_u32 (os_dns o) ∧ Forall is_u8 (os_req_list o) ∧
  (has (os_optflags o) DHCP_OPTFLAGS_DNS_SERVERS = true → os_dns_cnt o ≠ 0) ∧
  (has (os_optflags o) DHCP_OPTFLAGS_REQ_PARAM_LIST = true → os_req_list_cnt o ≠ 0).

Lemma flags_rebuilt f : 0 ≤ f < 512 → has f DHCP_OPTFLAGS_END = true →
  let on x := if has f x then x else 0 in
  Z.lor (Z.lor (Z.lor (Z.lor (Z.lor (Z.lor (Z.lor (Z.lor (Z.lor 0 (on DHCP_OPTFLAGS_MSGTYPE))
    (on DHCP_OPTFLAGS_SUBNET)) (on DHCP_OPTFLAGS_ROUTER)) (on DHCP_OPTFLAGS_DNS_SERVERS))
    (on DHCP_OPTFLAGS_REQUESTED_IP)) (on DHCP_OPTFLAGS_LEASE_TIME)) (on DHCP_OPTFLAGS_DHCP_SERVER))
    (on DHCP_OPTFLAGS_REQ_PARAM_LIST)) DHCP_OPTFLAGS_END = f.
Proof.
  intros Hf Hend.
  assert (Forall (λ f, has f DHCP_OPTFLAGS_END = true →
    let on x := if has f x then x else 0 in
    Z.lor (Z.lor (Z.lor (Z.lor (Z.lor (Z.lor (Z.lor (Z.lor (Z.lor 0 (on DHCP_OPTFLAGS_MSGTYPE))
      (on DHCP_OPTFLAGS_SUBNET)) (on DHCP_OPTFLAGS_ROUTER)) (on DHCP_OPTFLAGS_DNS_SERVERS))
      (on DHCP_OPTFLAGS_REQUESTED_IP)) (on DHCP_OPTFLAGS_LEASE_TIME)) (on DHCP_OPTFLAGS_DHCP_SERVER))
      (on DHCP_OPTFLAGS_REQ_PARAM_LIST)) DHCP_OPTFLAGS_END = f) (seqZ 0 512)) as H.
  { apply (bool_decide_unpack _). vm_compute. exact I. }
  rewrite Forall_forall in H. apply H; [|done]. apply elem_of_seqZ. lia.
Qed.

Lemma apply_word (b : bool) code flag set o v :
  (∀ o data, apply_option o (code, data) =
     if decide (length data = 4%nat) then os_add_flag flag (set (be_word data 0) o) else o) →
  is_u32 v → (if b then apply_option o (code, be32 v) else o) = upd b flag (set v) o.
Proof. intros H Hv. rewrite H. cbn [be32 length]. rewrite decide_True by done. by rewrite <- (app_nil_r (be32 v)), be_word_be32. Qed.

Lemma apply_dns_eq o data :
  let k := Nat.min (length (os_dns o)) (if length data mod 4 =? 0 then Z.to_nat (length data / 4) else O) in
  let o' := os_set_dns (((λ i, be_word data (4 * i)%nat) <$> seq 0 k) ++ drop k (os_dns o)) k o in
  apply_option o (DHCP_OPTION_DNS_SERVERS, data) =
  if decide (k = O) then o' else os_add_flag DHCP_OPTFLAGS_DNS_SERVERS o'.
Proof. reflexivity. Qed.

Lemma apply_req_eq o data :
  let k := Nat.min (length (os_req_list o)) (length data) in
  let o' := os_set_req_list (take k data ++ drop k (os_req_list o)) k o in
  apply_option o (DHCP_OPTION_PARAM_LIST, data) =
  if decide (k = O) then o' else os_add_flag DHCP_OPTFLAGS_REQ_PARAM_LIST o'.
Proof. reflexivity. Qed.

Lemma apply_dns_list (b : bool) l n o :
  Forall is_u32 l → length (os_dns o) = 3%nat → (n ≤ 3)%nat → length l = n → (b = true → n ≠ O) →
  (if b then apply_option o (DHCP_OPTION_DNS_SERVERS, concat (be32 <$> l)) else o) =
  upd b DHCP_OPTFLAGS_DNS_SERVERS (os_set_dns (l ++ drop n (os_dns o)) n) o.
Proof.
  intros Hl Hd Hn Hln Hb. destruct b; [|done]. specialize (Hb eq_refl). rewrite apply_dns_eq.
  rewrite length_be32s, Hd, Hln.
  assert ((4 * n)%nat mod 4 = 0) as -> by lia. rewrite Z.eqb_refl.
  replace (Z.to_nat ((4 * n)%nat / 4)) with n by lia. rewrite Nat.min_r by done.
  assert (((λ i, be_word (concat (be32 <$> l)) (4 * i)) <$> seq 0 n) = l) as ->.
  { etransitivity; [|apply (take_ge l n); lia]. rewrite <- total_seq by lia.
    apply list_fmap_ext. intros i x Hi. apply be_words; [done|]. apply lookup_seq in Hi. lia. }
  by destruct (decide (n = O)).
Qed.

Lemma apply_req_list (b : bool) l n o :
  length (os_req_list o) = 32%nat → (n ≤ 32)%nat → length l = n → (b = true → n ≠ O) →
  (if b then apply_option o (DHCP_OPTION_PARAM_LIST, l) else o) =
  upd b DHCP_OPTFLAGS_REQ_PARAM_LIST (os_set_req_list (l ++ drop n (os_req_list o)) n) o.
Proof.
  intros Hd Hn Hln Hb. destruct b; [|done]. specialize (Hb eq_refl). rewrite apply_req_eq.
  rewrite Hd, Hln, Nat.min_r, (take_ge l n) by lia. by destruct (decide (n = O)).
Qed.

(** Reading the options of a set gives the set. *)
Lemma apply_all o o0 :
  optset_ok o → os_optflags o0 = 0 → length (os_dns o0) = 3%nat → length (os_req_list o0) = 32%nat →
  same_options o (os_add_flag DHCP_OPTFLAGS_END (foldl apply_option o0 (option_list o))).
Proof.
  intros ((Hd & Hdc & Hr & Hrc) & Hf & Hend & Hmt & Hsn & Hro & Hse & Hlt & Hri & Hdns & Hreq & Hdn & Hrn) H0 Hd0 Hr0.
  unfold option_list. rewrite !foldl_app, !apply_on.
  set (b1 := has _ DHCP_OPTFLAGS_MSGTYPE). set (b2 := has _ DHCP_OPTFLAGS_SUBNET).
  set (b3 := has _ DHCP_OPTFLAGS_ROUTER). set (b4 := has _ DHCP_OPTFLAGS_DNS_SERVERS) in *.
  set (b5 := has _ DHCP_OPTFLAGS_REQUESTED_IP). set (b6 := has _ DHCP_OPTFLAGS_LEASE_TIME).
  set (b7 := has _ DHCP_OPTFLAGS_DHCP_SERVER). set (b8 := has _ DHCP_OPTFLAGS_REQ_PARAM_LIST) in *.
  assert (∀ x, (if b1 then apply_option x (DHCP_OPTION_MESSAGE_TYPE, [u8 (os_msg_type o)]) else x) =
    upd b1 DHCP_OPTFLAGS_MSGTYPE (os_set_msg_type (os_msg_type o)) x) as E1.
  { intros x. rewrite u8_small by done. by destruct b1. }
  rewrite E1.
  rewrite (apply_word b2 DHCP_OPTION_SUBNET_MASK DHCP_OPTFLAGS_SUBNET os_set_subnet) by (reflexivity || done).
  rewrite (apply_word b3 DHCP_OPTION_ROUTER DHCP_OPTFLAGS_ROUTER os_set_router) by (reflexivity || done).
  rewrite (apply_word b5 DHCP_OPTION_REQUESTED_IP DHCP_OPTFLAGS_REQUESTED_IP os_set_req_ip) by (reflexivity || done).
  rewrite (apply_word b6 DHCP_OPTION_LEASE_TIME DHCP_OPTFLAGS_LEASE_TIME os_set_lease_time) by (reflexivity || done).
  rewrite (apply_word b7 DHCP_OPTION_DHCP_SERVER DHCP_OPTFLAGS_DHCP_SERVER os_set_server) by (reflexivity || done).
  set (n := Z.to_nat (os_dns_cnt o)). set (k := Z.to_nat (os_req_list_cnt o)).
  assert (length (take n (os_dns o)) = n) as Hn by (rewrite length_take; lia).
  assert (length (take k (os_req_list o)) = k) as Hk by (rewrite length_take; lia).
  assert (u8 <$> take k (os_req_list o) = take k (os_req_list o)) as ->.
  { rewrite <- (list_fmap_id (take k (os_req_list o))) at 2. apply list_fmap_ext. intros i x Hi.
    apply u8_small. eapply Forall_lookup_1; [|exact Hi]. by apply Forall_take. }
  rewrite (apply_dns_list b4 (take n (os_dns o)) n) by (first
    [by apply Forall_take|by rewrite !(upd_proj os_dns)|lia|done|intros Hb; specialize (Hdn Hb); lia]).
  rewrite (apply_req_list b8 (take k (os_req_list o)) k) by (first
    [by rewrite !(upd_proj os_req_list)|lia|done|intros Hb; specialize (Hrn Hb); lia]).
  unfold same_options. cbn [os_add_flag os_set_flags os_msg_type os_subnet os_router os_dns os_dns_cnt
    os_req_ip os_lease_time os_server os_req_list os_req_list_cnt os_optflags].
  split; [rewrite !upd_flags, H0 by done; by apply flags_rebuilt|].
  split; [intros Hb|split; [intros Hb|split; [intros Hb|split; [intros Hb; split|split; [intros Hb|
    split; [intros Hb|split; [intros Hb|intros Hb; split]]]]]]].
  - rewrite !(upd_proj os_msg_type) by done. unfold b1. by rewrite Hb.
  - rewrite !(upd_proj os_subnet) by done. unfold b2. by rewrite Hb.
  - rewrite !(upd_proj os_router) by done. unfold b3. by rewrite Hb.
  - rewrite !(upd_proj os_dns_cnt) by done. unfold b4. rewrite Hb. cbn. lia.
  - rewrite !(upd_proj os_dns) by done. unfold b4. rewrite Hb. cbn. by apply take_app_length'.
  - rewrite !(upd_proj os_req_ip) by done. unfold b5. by rewrite Hb.
  - rewrite !(upd_proj os_lease_time) by done. unfold b6. by rewrite Hb.
  - rewrite !(upd_proj os_server) by done. unfold b7. by rewrite Hb.
  - unfold b8. rewrite Hb. cbn. lia.
  - unfold b8. rewrite Hb. cbn. by apply take_app_length'.
Qed.

(** ** Addresses *)

(** A flag is set exactly when the address is not zero. *)
Definition flag_matches (f flag : Z) (zero : bool) : Prop := has f flag = negb zero.

Definition addrset_ok (a : dhcp_addrset) : Prop :=
  0 ≤ as_addrflags a < 32 ∧
  is_u32 (as_ci a) ∧ is_u32 (as_yi a) ∧ is_u32 (as_si a) ∧ is_u32 (as_gi a) ∧ is_mac (as_ch a) ∧
  flag_matches (as_addrflags a) DHCP_ADDRFLAGS_CIADDR (as_ci a =? 0) ∧
  flag_matches (as_addrflags a) DHCP_ADDRFLAGS_YIADDR (as_yi a =? 0) ∧
  flag_matches (as_addrflags a) DHCP_ADDRFLAGS_SIADDR (as_si a =? 0) ∧
  flag_matches (as_addrflags a) DHCP_ADDRFLAGS_GIADDR (as_gi a =? 0) ∧
  flag_matches (as_addrflags a) DHCP_ADDRFLAGS_CHADDR
    (TCPIPEthAddr_AddressMatch (as_ch a) TCPIP_ETH_ADDR_ZERO).

Lemma if_flag_matches f flag v : flag_matches f flag (v =? 0) → if_flag f flag v 0 = v.
Proof. unfold if_flag, flag_matches. intros ->. by destruct (Z.eqb_spec v 0) as [->|]. Qed.

Lemma addrflags_rebuilt f b1 b2 b3 b4 b5 :
  0 ≤ f < 32 → flag_matches f DHCP_ADDRFLAGS_CIADDR b1 → flag_matches f DHCP_ADDRFLAGS_YIADDR b2 →
  flag_matches f DHCP_ADDRFLAGS_SIADDR b3 → flag_matches f DHCP_ADDRFLAGS_GIADDR b4 →
  flag_matches f DHCP_ADDRFLAGS_CHADDR b5 →
  flag_unless b5 DHCP_ADDRFLAGS_CHADDR (flag_unless b4 DHCP_ADDRFLAGS_GIADDR
    (flag_unless b3 DHCP_ADDRFLAGS_SIADDR (flag_unless b2 DHCP_ADDRFLAGS_YIADDR
      (flag_unless b1 DHCP_ADDRFLAGS_CIADDR 0)))) = f.
Proof.
  intros Hf H1 H2 H3 H4 H5. unfold flag_matches in *.
  assert (Forall (λ f, flag_unless (negb (has f DHCP_ADDRFLAGS_CHADDR)) DHCP_ADDRFLAGS_CHADDR
    (flag_unless (negb (has f DHCP_ADDRFLAGS_GIADDR)) DHCP_ADDRFLAGS_GIADDR
    (flag_unless (negb (has f DHCP_ADDRFLAGS_SIADDR)) DHCP_ADDRFLAGS_SIADDR
    (flag_unless (negb (has f DHCP_ADDRFLAGS_YIADDR)) DHCP_ADDRFLAGS_YIADDR
    (flag_unless (negb (has f DHCP_ADDRFLAGS_CIADDR)) DHCP_ADDRFLAGS_CIADDR 0)))) = f) (seqZ 0 32)) as H.
  { apply (bool_decide_unpack _). vm_compute. exact I. }
  rewrite Forall_forall in H. specialize (H f ltac:(apply elem_of_seqZ; lia)). cbv beta in H.
  by rewrite H1, H2, H3, H4, H5, !negb_involutive in H.
Qed.

(** What lies at an address after further writes elsewhere. *)
Ltac written := repeat first
  [apply put_bytes_bytes_at
  |apply put_bytes_bytes_at_other; [first [left; cbn; lia|right; cbn; lia]|]].

Lemma get_be32 m a v : is_u32 v → bytes_at m a (be32 v) → (w ← load32 m a; Ok (BETOH32 w)) = Ok v.
Proof.
  intros Hv H. rewrite (load32_be _ _ _ H), bind_Ok. unfold BETOH32. rewrite HTOBE32_involutive.
  f_equal. by apply u32_small.
Qed.

Lemma zero_mac_ok : is_mac TCPIP_ETH_ADDR_ZERO.
Proof. split; [done|]. by repeat constructor. Qed.

Lemma render_addresses_ok m p size a :
  mapped m p 240 → sizeof_dhcp ≤ size →
  is_mac (if_flag (as_addrflags a) DHCP_ADDRFLAGS_CHADDR (as_ch a) TCPIP_ETH_ADDR_ZERO) →
  let f := as_addrflags a in
  DHCPFrame_RenderAddresses m p size a =
  Ok (put_bytes (put_bytes (put_bytes (put_bytes (put_bytes m
    (p + 12) (be32 (if_flag f DHCP_ADDRFLAGS_CIADDR (as_ci a) 0)))
    (p + 16) (be32 (if_flag f DHCP_ADDRFLAGS_YIADDR (as_yi a) 0)))
    (p + 20) (be32 (if_flag f DHCP_ADDRFLAGS_SIADDR (as_si a) 0)))
    (p + 24) (be32 (if_flag f DHCP_ADDRFLAGS_GIADDR (as_gi a) 0)))
    (p + 28) (if_flag f DHCP_ADDRFLAGS_CHADDR (as_ch a) TCPIP_ETH_ADDR_ZERO), EOK).
Proof.
  intros Hm Hs Hch f. unfold DHCPFrame_RenderAddresses. fold f. fold f in Hch.
  destruct (Z.ltb_spec size sizeof_dhcp); [lia|].
  assert (Hin : ∀ m' k j, mapped m' p 240 → 0 ≤ k → k + Z.of_nat j ≤ 240 → mapped m' (p + k) j).
  { intros m' k j H' Hk Hj i Hi. apply H'. lia. }
  unfold DHCPFrame_SetCIAddr, DHCPFrame_SetYIAddr, DHCPFrame_SetSIAddr, DHCPFrame_SetGIAddr, DHCPFrame_SetCHAddr.
  do 4 rewrite store32_be, bind_Ok by (apply Hin; [repeat apply put_bytes_mapped; done|lia..]).
  rewrite store_mac_put, bind_Ok; [done|apply Hin; [repeat apply put_bytes_mapped; done|lia..]|done].
Qed.

Lemma addresses_roundtrip_ok m p size a :
  mapped m p 240 → sizeof_dhcp ≤ size → addrset_ok a →
  ∃ m', DHCPFrame_RenderAddresses m p size a = Ok (m', EOK) ∧
    DHCPFrame_ParseAddresses m' p size zero_addrset = Ok (a, EOK).
Proof.
  intros Hm Hs (Hf & Hci & Hyi & Hsi & Hgi & Hch & F1 & F2 & F3 & F4 & F5).
  assert (if_flag (as_addrflags a) DHCP_ADDRFLAGS_CHADDR (as_ch a) TCPIP_ETH_ADDR_ZERO = as_ch a) as Ech.
  { unfold if_flag. rewrite F5. destruct (TCPIPEthAddr_AddressMatch _ _) eqn:E; [|done].
    by apply address_match_eq in E; [|done|apply zero_mac_ok]. }
  eexists. split; [apply render_addresses_ok; [done|done|by rewrite Ech]|].
  cbv zeta. rewrite Ech, !if_flag_matches by done.
  destruct Hch as [Hch Uch].
  unfold DHCPFrame_ParseAddresses, DHCPFrame_GetCIAddr, DHCPFrame_GetYIAddr, DHCPFrame_GetSIAddr,
    DHCPFrame_GetGIAddr, DHCPFrame_GetCHAddr.
  destruct (Z.ltb_spec size sizeof_dhcp); [lia|].
  rewrite (get_be32 _ (p + 12) (as_ci a)), bind_Ok by (done || written).
  rewrite (get_be32 _ (p + 16) (as_yi a)), bind_Ok by (done || written).
  rewrite (get_be32 _ (p + 20) (as_si a)), bind_Ok by (done || written).
  rewrite (get_be32 _ (p + 24) (as_gi a)), bind_Ok by (done || written).
  rewrite (load_mac_bytes _ (p + 28) (as_ch a)), bind_Ok by (done || written).
  unfold TCPIPIpAddr_AddressMatch. cbn [as_addrflags zero_addrset].
  rewrite (addrflags_rebuilt (as_addrflags a)) by done. by destruct a.
Qed.

Lemma length_encode l : (length l ≤ length (encode l))%nat.
Proof.
  induction l as [|x l IH]; [done|]. unfold encode in *. cbn [fmap list_fmap concat]. rewrite length_app. cbn in *. lia.
Qed.

Lemma option_list_ok o : optset_ok o → Forall option_ok (option_list o).
Proof.
  intros ((Hd & Hdc & Hr & Hrc) & _).
  assert (Hon : ∀ (b : bool) x, option_ok x → Forall option_ok (if b then [x] else [])).
  { intros [] x Hx; [by apply Forall_cons|by apply Forall_nil]. }
  assert (Hword : ∀ code v, is_u8 code → code ≠ DHCP_OPTION_END → option_ok (code, be32 v)).
  { intros code v Hc He. split; [done|]. split; [done|]. split; [apply be32_u8|cbn; lia]. }
  unfold option_list. repeat apply Forall_app_2; apply Hon; try (by apply Hword).
  - split; [done|]. split; [done|]. split; [repeat constructor; apply u8_range|cbn; lia].
  - split; [done|]. split; [done|]. split; [|cbn [snd]; rewrite length_be32s, length_take; lia].
    apply Forall_concat, Forall_fmap, Forall_true. intros v. apply be32_u8.
  - split; [done|]. split; [done|]. split; [|cbn [snd]; rewrite length_fmap, length_take; lia].
    apply Forall_fmap, Forall_true. intros v. apply u8_range.
Qed.

(** ** Properties *)

(** C28: What is written of a set of options is read back: when the options fit
    they are written at the start of the buffer, nothing else is touched, and
    the reader stops behind the end mark with the same flags and the values they
    announce. *)
Theorem dhcp_options_roundtrip o o0 m ptr size :
  optset_ok o → 0 < ptr → 0 ≤ size < 4294967296 → mapped m ptr (Z.to_nat size) →
  length (option_bytes o) ≤ size → length (os_dns o0) = 3%nat → length (os_req_list o0) = 32%nat →
  ∃ m' o', DHCPFrame_RenderOptions m ptr size o = Ok (m', ptr + length (option_bytes o)) ∧
    (∀ a, ¬ (ptr ≤ a < ptr + length (option_bytes o)) → m' !! a = m !! a) ∧
    DHCPFrame_ParseOptions m' ptr size o0 = Ok (ptr + length (option_bytes o), o') ∧
    same_options o o'.
Proof.
  intros Ho Hptr Hsize Hm Hfit Hd0 Hr0. pose proof Ho as (Hc & _ & Hend & _).
  destruct (render_options_ok o m ptr size Hc Hptr Hsize Hm (or_intror Hfit)) as (st & E & Hst).
  unfold rendered in Hst. rewrite decide_True in Hst by done. subst st.
  do 2 eexists. split; [exact E|]. split; [intros a Ha; by apply put_bytes_lookup_ne|].
  split; [|exact (apply_all o (os_set_flags 0 o0) Ho eq_refl Hd0 Hr0)].
  unfold DHCPFrame_ParseOptions. set (bs := option_bytes o) in *.
  assert (bs = encode (option_list o) ++ [DHCP_OPTION_END]) as Hbs by (unfold bs, option_bytes; by rewrite Hend).
  assert (length bs = length (encode (option_list o)) + 1)%nat as Hl by by rewrite Hbs, length_app.
  pose proof (length_encode (option_list o)) as Hle.
  rewrite (parse_loop_ok _ ptr size (option_list o) _ ptr _ []) by (first
    [rewrite <- Hbs; apply put_bytes_bytes_at|by apply option_list_ok|done|lia]).
  do 2 f_equal. lia.
Qed.

(** C38: Whatever bytes arrive, the parser terminates and reads nothing behind
    the options but one byte; its result is null or an address up to there. *)
Theorem dhcp_parse_total m ptr size o :
  octets m ptr (S (Z.to_nat size)) → 0 < ptr → 0 ≤ size < 4294967296 →
  length (os_dns o) = 3%nat → length (os_req_list o) = 32%nat →
  ∃ r o', DHCPFrame_ParseOptions m ptr size o = Ok (r, o') ∧ (r = 0 ∨ ptr < r ≤ ptr + size + 1).
Proof.
  intros Ho Hptr Hsize Hd Hr. unfold DHCPFrame_ParseOptions.
  replace (Z.to_nat size) with (Z.to_nat (ptr + size - ptr)) in * by lia.
  by apply parse_loop_total; first [done|lia].
Qed.

(** Without a list of name servers the writer keeps to its buffer: it
    returns the address behind the options, or null when they do not fit. *)
Theorem dhcp_render_bounded o m ptr size :
  counts_ok o → has (os_optflags o) DHCP_OPTFLAGS_DNS_SERVERS = false →
  0 < ptr → 0 ≤ size < 4294967296 → mapped m ptr (Z.to_nat size) →
  ∃ m' p', DHCPFrame_RenderOptions m ptr size o = Ok (m', p') ∧
    (∀ a, ¬ (ptr ≤ a < ptr + size) → m' !! a = m !! a) ∧
    p' = (if decide (length (option_bytes o) ≤ size) then ptr + length (option_bytes o) else 0).
Proof.
  intros Hc Hd Hptr Hsize Hm.
  destruct (render_options_ok o m ptr size Hc Hptr Hsize Hm (or_introl Hd)) as ([m' p'] & E & Hst).
  exists m', p'. split; [done|]. unfold rendered in Hst. destruct (decide _) as [Hl|Hl].
  - injection Hst as -> ->. split; [|done]. intros a Ha. apply put_bytes_lookup_ne. lia.
  - destruct Hst as [Hp (l & Hl' & Hm')]. cbn in Hp, Hm'. subst. split; [|done].
    intros a Ha. apply put_bytes_lookup_ne. lia.
Qed.

(** *** Concrete inputs *)

(** An offer with two name servers, as the server and a client would send it. *)
Definition demo_opts : dhcp_optset :=
  mk_optset 383 DHCP_MSG_TYPE_OFFER (TCPIP_IP_ADDR 255 255 255 0) (TCPIP_IP_ADDR 192 168 50 1)
    (TCPIP_IP_ADDR 192 168 50 1) [TCPIP_IP_ADDR 8 8 8 8; TCPIP_IP_ADDR 8 8 4 4; 0] 2 60
    (replicate 32 0) 0 (TCPIP_IP_ADDR 192 168 50 100).
Definition demo_buf : mem := put_bytes ∅ 1000 (replicate 64 170).

Lemma demo_buf_mapped n : (n ≤ 64)%nat → mapped demo_buf 1000 n.
Proof.
  intros Hn. apply (mapped_le _ _ 64); [done|].
  apply (bytes_at_mapped _ _ (replicate 64 170)), put_bytes_bytes_at.
Qed.

Lemma demo_opts_ok : optset_ok demo_opts.
Proof. by apply (bool_decide_unpack _). Qed.

Lemma dhcp_options_roundtrip_witness :
  ∃ m' o', DHCPFrame_RenderOptions demo_buf 1000 64 demo_opts = Ok (m', 1044) ∧
    DHCPFrame_ParseOptions m' 1000 64 zero_optset = Ok (1044, o') ∧ same_options demo_opts o'.
Proof.
  destruct (dhcp_options_roundtrip demo_opts zero_optset demo_buf 1000 64) as (m' & o' & E1 & _ & E2 & H).
  - exact demo_opts_ok.
  - lia.
  - lia.
  - by apply demo_buf_mapped.
  - by vm_compute.
  - done.
  - done.
  - exists m', o'. split; [exact E1|]. split; [exact E2|exact H].
Defined.

(** The options of a request, cut off before the end mark. *)
Definition demo_cut : mem := put_bytes ∅ 1000 [53; 1; 3; 50; 4; 192; 168].

Lemma dhcp_parse_total_witness :
  ∃ r o', DHCPFrame_ParseOptions demo_cut 1000 6 zero_optset = Ok (r, o') ∧ (r = 0 ∨ 1000 < r ≤ 1007).
Proof.
  apply (dhcp_parse_total demo_cut 1000 6 zero_optset).
  - exists [53; 1; 3; 50; 4; 192; 168]. split; [done|]. split; [by repeat constructor|]. by vm_compute.
  - lia.
  - lia.
  - done.
  - done.
Defined.

Lemma dhcp_render_bounded_witness :
  ∃ m', DHCPFrame_RenderOptions demo_buf 1000 12 (os_set_flags 375 demo_opts) = Ok (m', 0) ∧
    ∀ a, ¬ (1000 ≤ a < 1012) → m' !! a = demo_buf !! a.
Proof.
  destruct (dhcp_render_bounded (os_set_flags 375 demo_opts) demo_buf 1000 12) as (m' & p' & E & H & Hp).
  - by apply (bool_decide_unpack _).
  - done.
  - lia.
  - lia.
  - apply demo_buf_mapped; lia.
  - exists m'. split; [|exact H]. rewrite E. f_equal. by rewrite Hp.
Defined.

(** Name servers are written behind the end of the buffer: the room left is
    compared with the size of the option's header only. *)
Example dns_over_end :
  let o := os_set_flags DHCP_OPTFLAGS_DNS_SERVERS demo_opts in
  match DHCPFrame_RenderOptions demo_buf 1000 4 o with
  | Ok (m, p) => p = 1010 ∧ get_bytes m 1004 6 = Some [8; 8; 8; 8; 4; 4]
  | Fault _ => False
  end.
Proof. by vm_compute. Qed.

(** Options that end without an end mark are read one byte too far. *)
Example parse_over_end :
  DHCPFrame_ParseOptions (put_bytes ∅ 1000 [53; 1; 3]) 1000 3 zero_optset = Fault OutOfBounds.
Proof. by vm_compute. Qed.

(** The byte 0 pads options; here it is read as the type of an option, the end
    mark as its size. *)
Example pad_swallows_end :
  DHCPFrame_ParseOptions (put_bytes ∅ 1000 [53; 1; 3; 0; 255; 0]) 1000 5 zero_optset =
  Ok (0, os_add_flag DHCP_OPTFLAGS_MSGTYPE (os_set_msg_type 3 zero_optset)).
Proof. by vm_compute. Qed.
