(* ===== verification/Dhcp.v ===== *)
(** * The DHCP server (net/dhcp/src/server.c)

    The recordbook is the server's only state; it is a value beside the state of
    the stack.  Sending waits for a transmission buffer, and the stack may be
    reset in the meantime: [other] is what becomes of the book while a response
    is sent, nothing or [DHCPSrv_Reset].  [buf] is the address of the work buffer
    on the stack, [obj] that of the objects UDP moves through its queues. *)
From S2P Require Import Prelude CString Heap Time Queue Words Frames Net Arp Udp DhcpFrame.

(** config.h *)
Definition DHCP_SRV_PORT : Z := 67.
Definition ip_range_start : Z := TCPIP_IP_ADDR 192 168 50 100.
Definition ip_range_end : Z := TCPIP_IP_ADDR 192 168 50 110.
Definition DHCP_SRV_RECORDBOOK_CAPACITY : nat := 4.

Inductive dhcp_state := STATE_FREE | STATE_OFFER | STATE_ASSIGNED.

#[export] Instance dhcp_state_eq_dec : EqDecision dhcp_state.
Proof. solve_decision. Defined.

Record dhcp_record := mk_record { r_state : dhcp_state; r_ts : Z; r_mac : list Z; r_ip : Z }.

Definition zero_record : dhcp_record := mk_record STATE_FREE 0 TCPIP_ETH_ADDR_ZERO 0.

Abbreviation book := (list dhcp_record).

Definition set_record_state (st : dhcp_state) (ts : Z) (r : dhcp_record) : dhcp_record :=
  mk_record st ts (r_mac r) (r_ip r).

(** An entry that has not been touched for 15 minutes is freed. *)
Definition expire (now : Z) (r : dhcp_record) : dhcp_record :=
  if negb (bool_decide (r_state r = STATE_FREE)) && (15 * 60 * 1000 <? dtime now (r_ts r))
  then set_record_state STATE_FREE (r_ts r) r else r.

(** [(!ha || match) && (!ip || match)]. *)
Definition record_matches (ha : option (list Z)) (ip : option Z) (r : dhcp_record) : bool :=
  match ha with None => true | Some h => TCPIPEthAddr_AddressMatch (r_mac r) h end &&
  match ip with None => true | Some a => TCPIPIpAddr_AddressMatch (r_ip r) a end.

(** The book and the position of the record; without addresses a free record is
    looked for. *)
Fixpoint DHCPSrv_FindRecord (now : Z) (ha : option (list Z)) (ip : option Z) (l : book)
  : book * option nat :=
  match l with
  | [] => ([], None)
  | r :: l' =>
      match ha, ip with
      | None, None =>
          let r := expire now r in
          if bool_decide (r_state r = STATE_FREE) then (r :: l', Some O)
          else let '(l'', i) := DHCPSrv_FindRecord now ha ip l' in (r :: l'', S <$> i)
      | _, _ =>
          if record_matches ha ip r then (r :: l', Some O)
          else let '(l'', i) := DHCPSrv_FindRecord now ha ip l' in (r :: l'', S <$> i)
      end
  end.

(** [for (; !found && !match(ip, ip_range_end); ip = next(ip))]: the address is
    stepped once more after one was found. *)
Fixpoint scan_addresses (fuel : nat) (now : Z) (l : book) (ip : Z) : res (Z * bool) :=
  match fuel with
  | O => Fault OutOfFuel
  | S fuel =>
      if TCPIPIpAddr_AddressMatch ip ip_range_end then Ok (ip, false)
      else
        match (DHCPSrv_FindRecord now None (Some ip) l).2 with
        | None => Ok (TCPIPIpAddr_Next ip, true)
        | Some _ => scan_addresses fuel now l (TCPIPIpAddr_Next ip)
        end
  end.

(** The book, and the position of the record with the reserved address. *)
Definition DHCPSrv_ReserveAddress (now : Z) (hw : list Z) (l : book) : res (book * option (nat * Z)) :=
  let '(l, rec) := DHCPSrv_FindRecord now (Some hw) None l in
  match rec ≫= (λ i, r ← l !! i; Some (i, r_ip r)) with
  | Some (i, ip) =>
      if negb (ip =? 0) then Ok (l, Some (i, ip))
      else
        '(ip, found) ← scan_addresses (S (Z.to_nat (ip_range_end - ip_range_start))) now l ip_range_start;
        if negb (found : bool) then Ok (l, None)
        else Ok (alter (λ r, mk_record (r_state r) (r_ts r) hw ip) i l, Some (i, ip))
  | None =>
      let '(l, rec) := DHCPSrv_FindRecord now None None l in
      match rec with
      | None => Ok (l, None)
      | Some i =>
          '(ip, found) ← scan_addresses (S (Z.to_nat (ip_range_end - ip_range_start))) now l ip_range_start;
          if negb (found : bool) then Ok (l, None)
          else Ok (alter (λ r, mk_record (r_state r) (r_ts r) hw ip) i l, Some (i, ip))
      end
  end.

(** [DHCPSrv_Reset]. *)
Definition DHCPSrv_Reset (l : book) : book := (λ _, zero_record) <$> l.

(** A memory operation that returns a value. *)
Definition updates {A} (f : mem → res (mem * A)) : task A := λ n ws,
  match f (n_mem n) with Ok (m, a) => Ok (a, set_mem m n, ws) | Fault e => Fault e end.

Section server.
Context (obj buf : Z).

(** [sizeof(buf)]. *)
Definition sizeof_buf : Z := 512.

Definition DHCPSrv_SendResponse (sock : nat) (ip port xid : Z) (adrs : dhcp_addrset) (opts : dhcp_optset)
  : task Z :=
  let frame := buf in
  let opt_ptr := frame + sizeof_dhcp in
  writes (λ m, DHCPFrame_Init m frame);;
  writes (λ m, DHCPFrame_SetOP m frame DHCP_OP_RESPONSE);;
  writes (λ m, DHCPFrame_SetHType m frame DHCP_HTYPE_ETH);;
  writes (λ m, DHCPFrame_SetHLen m frame 6);;
  writes (λ m, DHCPFrame_SetHops m frame 0);;
  writes (λ m, DHCPFrame_SetFlags m frame 0);;
  writes (λ m, DHCPFrame_SetXID m frame xid);;
  ec ← updates (λ m, DHCPFrame_RenderAddresses m frame sizeof_buf adrs);
  if ec <? EOK then mret EFATAL
  else
    opt_ptr ← updates (λ m, DHCPFrame_RenderOptions m opt_ptr (sizeof_buf - sizeof_dhcp) opts);
    if opt_ptr =? 0 then mret EFATAL
    else TCPIPUdpSock_SendTo sock ip port frame (opt_ptr - buf).

(** The addresses and options of a refusal. *)
Definition nak_addrs (n : net) (ch : list Z) : dhcp_addrset :=
  mk_addrset (Z.lor DHCP_ADDRFLAGS_SIADDR DHCP_ADDRFLAGS_CHADDR) 0 0 (TCPIPIpAddr_GetIP n) 0 ch.
Definition nak_opts : dhcp_optset :=
  os_set_flags (Z.lor DHCP_OPTFLAGS_MSGTYPE DHCP_OPTFLAGS_END) (os_set_msg_type DHCP_MSG_TYPE_NAK zero_optset).

(** A client without an address is answered by broadcast. *)
Definition nak_ip (ip : Z) : Z := if TCPIPIpAddr_IsMatchingAny ip then TCPIP_IP_ADDR_BCAST else ip.

Definition DHCPSrv_SendResponseNAK (sock : nat) (ip port xid : Z) (ch : list Z) : task Z :=
  n ← gets id;
  DHCPSrv_SendResponse sock (nak_ip ip) port xid (nak_addrs n ch) nak_opts.

(** The addresses and options of an offer and of an acknowledgment. *)
Definition resp_addrs (n : net) (yi : Z) (ch : list Z) : dhcp_addrset :=
  mk_addrset (Z.lor (Z.lor (Z.lor DHCP_ADDRFLAGS_YIADDR DHCP_ADDRFLAGS_SIADDR) DHCP_ADDRFLAGS_CHADDR)
                DHCP_ADDRFLAGS_GIADDR)
    0 yi (TCPIPIpAddr_GetIP n) (TCPIPIpAddr_GetGatewayIP n) ch.

Definition resp_opts (n : net) (msg_type lease_time : Z) : dhcp_optset :=
  mk_optset (Z.lor (Z.lor (Z.lor (Z.lor (Z.lor DHCP_OPTFLAGS_MSGTYPE DHCP_OPTFLAGS_SUBNET)
                DHCP_OPTFLAGS_ROUTER) DHCP_OPTFLAGS_LEASE_TIME) DHCP_OPTFLAGS_DHCP_SERVER) DHCP_OPTFLAGS_END)
    msg_type (TCPIPIpAddr_GetSubnetMask n) (TCPIPIpAddr_GetGatewayIP n) (TCPIPIpAddr_GetIP n)
    (replicate 3 0) 0 lease_time (replicate 32 0) 0 0.

(** The handlers return the book and the error code. *)
Definition DHCPSrv_ProcessDiscover (other : book → book) (sock : nat) (port frame : Z) (adrs : dhcp_addrset)
  (l : book) : task (book * Z) :=
  xid ← reads (λ m, DHCPFrame_GetXID m frame);
  if (xid =? 0) || negb (has (as_addrflags adrs) DHCP_ADDRFLAGS_CHADDR) then mret (l, EFATAL)
  else
    now ← gets n_now;
    '(l, rec) ← lift (DHCPSrv_ReserveAddress now (as_ch adrs) l);
    match rec with
    | None => mret (l, EFATAL)
    | Some (i, reserved_ip) =>
        let l := alter (set_record_state STATE_OFFER now) i l in
        n ← gets id;
        ec ← DHCPSrv_SendResponse sock TCPIP_IP_ADDR_BCAST port xid
               (resp_addrs n reserved_ip (as_ch adrs)) (resp_opts n DHCP_MSG_TYPE_OFFER (1 * 60));
        mret (other l, ec)
    end.

(** The address of a former lease, else the one that was offered. *)
Definition requested_address (adrs : dhcp_addrset) (opts : dhcp_optset) : option Z :=
  if has (as_addrflags adrs) DHCP_ADDRFLAGS_CIADDR then Some (as_ci adrs)
  else if has (os_optflags opts) DHCP_OPTFLAGS_REQUESTED_IP then Some (os_req_ip opts)
  else None.

Definition DHCPSrv_ProcessRequest (other : book → book) (sock : nat) (ip port frame : Z)
  (adrs : dhcp_addrset) (opts : dhcp_optset) (l : book) : task (book * Z) :=
  xid ← reads (λ m, DHCPFrame_GetXID m frame);
  if (xid =? 0) || negb (has (as_addrflags adrs) DHCP_ADDRFLAGS_CHADDR) then mret (l, EFATAL)
  else
    match requested_address adrs opts with
    | None => mret (l, EFATAL)
    | Some req_addr =>
        now ← gets n_now;
        let '(l, rec) := DHCPSrv_FindRecord now (Some (as_ch adrs)) (Some req_addr) l in
        match rec ≫= (λ i, r ← l !! i; if decide (r_state r = STATE_FREE) then None else Some (i, r)) with
        | None => ec ← DHCPSrv_SendResponseNAK sock ip port xid (as_ch adrs); mret (other l, ec)
        | Some (i, r) =>
            n ← gets id;
            ec ← DHCPSrv_SendResponse sock TCPIP_IP_ADDR_BCAST port xid
                   (resp_addrs n (r_ip r) (as_ch adrs)) (resp_opts n DHCP_MSG_TYPE_ACK (15 * 60));
            let l := other l in
            if ec <? EOK then mret (l, EFATAL)
            else now ← gets n_now; mret (alter (set_record_state STATE_ASSIGNED now) i l, ec)
        end
    end.

(** A release leaves the error code uninitialised. *)
Definition DHCPSrv_Process (other : book → book) (sock : nat) (ip port frame : Z) (adrs : dhcp_addrset)
  (opts : dhcp_optset) (l : book) : task (book * Z) :=
  if os_msg_type opts =? DHCP_MSG_TYPE_DISCOVER then DHCPSrv_ProcessDiscover other sock port frame adrs l
  else if os_msg_type opts =? DHCP_MSG_TYPE_REQUEST then
    DHCPSrv_ProcessRequest other sock ip port frame adrs opts l
  else if os_msg_type opts =? DHCP_MSG_TYPE_RELEASE then lift (Fault Uninit)
  else mret (l, EFATAL).

Definition DHCPSrv_Input (other : book → book) (sock : nat) (ip port ptr size : Z) (l : book)
  : task (book * Z) :=
  let frame := ptr in
  htype ← reads (λ m, DHCPFrame_GetHType m frame);
  hlen ← reads (λ m, DHCPFrame_GetHLen m frame);
  if negb (htype =? DHCP_HTYPE_ETH) || negb (hlen =? 6) then mret (l, EFATAL)
  else
    '(adrs, ec) ← reads (λ m, DHCPFrame_ParseAddresses m frame size zero_addrset);
    if ec <? EOK then mret (l, EFATAL)
    else
      '(r, opts) ← reads (λ m, DHCPFrame_ParseOptions m (frame + sizeof_dhcp) (u32 (size - sizeof_dhcp)) zero_optset);
      if r =? 0 then mret (l, EFATAL)
      else if negb (has (os_optflags opts) DHCP_OPTFLAGS_MSGTYPE) then mret (l, EFATAL)
      else
        op ← reads (λ m, DHCPFrame_GetOP m frame);
        if op =? DHCP_OP_REQUEST then DHCPSrv_Process other sock ip port frame adrs opts l
        else mret (l, EFATAL).

(** One round of the task's loop; [rx_buf] is its static buffer of 512 bytes. *)
Definition DHCPSrv_Task_round (other : book → book) (sock : nat) (rx_buf : Z) (l : book) : task book :=
  '(ec, ip, port) ← TCPIPUdpSock_RecvFrom obj sock rx_buf 512 0;
  if ec <? EOK then mret l
  else '(l, _) ← DHCPSrv_Input other sock ip port rx_buf ec l; mret l.
End server.

(** ** The recordbook *)

Lemma find_matches now ha ip : ∀ l,
  ha ≠ None ∨ ip ≠ None →
  (DHCPSrv_FindRecord now ha ip l).1 = l ∧
  match (DHCPSrv_FindRecord now ha ip l).2 with
  | Some i => ∃ r, l !! i = Some r ∧ record_matches ha ip r = true
  | None => Forall (λ r, record_matches ha ip r = false) l
  end.
Proof.
  intros l H. assert (Heq : ∀ r l', DHCPSrv_FindRecord now ha ip (r :: l') =
    if record_matches ha ip r then (r :: l', Some O)
    else let '(l'', i) := DHCPSrv_FindRecord now ha ip l' in (r :: l'', S <$> i)).
  { intros r l'. destruct ha, ip; try done. by destruct H. }
  induction l as [|r l [IH1 IH2]]; [by split; [|apply Forall_nil_2]|]. rewrite Heq.
  destruct (record_matches ha ip r) eqn:Em; [by split; [|exists r]|].
  destruct (DHCPSrv_FindRecord now ha ip l) as [l'' [i|]]; cbn in *; subst l''; (split; [done|]).
  - done.
  - by apply Forall_cons_2.
Qed.

(** What identifies a client in the book. *)
Definition ids (l : book) : list (list Z * Z) := (λ r, (r_mac r, r_ip r)) <$> l.

Lemma expire_ids now r : (r_mac (expire now r), r_ip (expire now r)) = (r_mac r, r_ip r).
Proof. unfold expire. by destruct (_ && _). Qed.

Lemma find_free now : ∀ l,
  ids (DHCPSrv_FindRecord now None None l).1 = ids l ∧
  match (DHCPSrv_FindRecord now None None l).2 with
  | Some i => ∃ r, (DHCPSrv_FindRecord now None None l).1 !! i = Some r ∧ r_state r = STATE_FREE
  | None => Forall (λ r, r_state (expire now r) ≠ STATE_FREE) l
  end.
Proof.
  induction l as [|r l [IH1 IH2]]; [by split; [|apply Forall_nil_2]|]. cbn [DHCPSrv_FindRecord].
  destruct (bool_decide_reflect (r_state (expire now r) = STATE_FREE)) as [Hf|Hf].
  - split; [cbn; by rewrite expire_ids|]. by exists (expire now r).
  - destruct (DHCPSrv_FindRecord now None None l) as [l'' [i|]]; cbn in *.
    + split; [by rewrite expire_ids, IH1|]. done.
    + split; [by rewrite expire_ids, IH1|]. by apply Forall_cons_2.
Qed.

(** The second address of the range. *)
Definition second_ip : Z := TCPIPIpAddr_Next ip_range_start.

(** Of each client there is one record at most, and no address other than the
    second one of the range is ever given out. *)
Definition ids_ok (l : list (list Z * Z)) : Prop :=
  length l = DHCP_SRV_RECORDBOOK_CAPACITY ∧
  Forall (λ x, is_mac x.1 ∧ (x.2 = 0 ∨ x.2 = second_ip)) l ∧
  ∀ i j x y, l !! i = Some x → l !! j = Some y → x.1 = y.1 → x.1 ≠ TCPIP_ETH_ADDR_ZERO → i = j.

Definition book_ok (l : book) : Prop := ids_ok (ids l).

Lemma ids_lookup l i r : l !! i = Some r → ids l !! i = Some (r_mac r, r_ip r).
Proof. intros H. unfold ids. by rewrite list_lookup_fmap, H. Qed.

Lemma ids_state st ts i l : ids (alter (set_record_state st ts) i l) = ids l.
Proof.
  apply list_eq. intros j. unfold ids. rewrite !list_lookup_fmap.
  destruct (decide (i = j)) as [->|Hij]; [rewrite list_lookup_alter_eq|by rewrite list_lookup_alter_ne].
  by destruct (l !! j).
Qed.

Lemma book_ok_elem l r : book_ok l → r ∈ l → is_mac (r_mac r) ∧ (r_ip r = 0 ∨ r_ip r = second_ip).
Proof.
  intros (_ & H & _) Hr. apply list_elem_of_lookup_1 in Hr as [i Hi].
  exact (Forall_lookup_1 _ _ _ _ H (ids_lookup _ _ _ Hi)).
Qed.

(** The first address of the range is never in the book. *)
Lemma scan_second now l :
  book_ok l →
  scan_addresses (S (Z.to_nat (ip_range_end - ip_range_start))) now l ip_range_start = Ok (second_ip, true).
Proof.
  intros Hok. cbn [scan_addresses].
  assert (TCPIPIpAddr_AddressMatch ip_range_start ip_range_end = false) as -> by done.
  destruct (find_matches now None (Some ip_range_start) l) as [_ Hf]; [by right|].
  destruct (DHCPSrv_FindRecord _ _ _ _).2 as [i|]; [|done].
  destruct Hf as (r & Hi & Hr). apply Z.eqb_eq in Hr.
  destruct (book_ok_elem l r Hok) as [_ [E|E]]; [by apply list_elem_of_lookup_2 with i|rewrite Hr in E; done..].
Qed.

Lemma ids_alter f x i l : ids (alter (λ r, mk_record (r_state r) (r_ts r) f x) i l) = alter (λ _, (f, x)) i (ids l).
Proof.
  apply list_eq. intros j. unfold ids. rewrite list_lookup_fmap.
  destruct (decide (i = j)) as [->|Hij].
  - rewrite !list_lookup_alter_eq, list_lookup_fmap. by destruct (l !! j).
  - rewrite !list_lookup_alter_ne by done. by rewrite list_lookup_fmap.
Qed.

Lemma ids_ok_alter l i hw :
  ids_ok l → is_mac hw → (∀ j y, l !! j = Some y → y.1 = hw → i = j) →
  ids_ok (alter (λ _, (hw, second_ip)) i l).
Proof.
  intros (Hl & Hf & Hd) Hw Hu. split; [by rewrite length_alter|]. split.
  - apply Forall_lookup. intros j y. destruct (decide (i = j)) as [->|Hij].
    + rewrite list_lookup_alter_eq. destruct (l !! j); [|done]. intros [= <-]. split; [done|by right].
    + rewrite list_lookup_alter_ne by done. intros Hy. exact (Forall_lookup_1 _ _ _ _ Hf Hy).
  - intros j k x y Hj Hk E Hz.
    destruct (decide (i = j)) as [->|Hij], (decide (j = k)) as [|Hjk]; try done.
    + rewrite list_lookup_alter_ne in Hk by done. rewrite list_lookup_alter_eq in Hj.
      destruct (l !! j); [|done]. injection Hj as <-. by apply (Hu k y).
    + destruct (decide (i = k)) as [->|Hik].
      * rewrite list_lookup_alter_ne in Hj by done. rewrite list_lookup_alter_eq in Hk.
        destruct (l !! k); [|done]. injection Hk as <-. symmetry. by apply (Hu j x).
      * rewrite list_lookup_alter_ne in Hj, Hk by done. by apply (Hd j k x y).
Qed.

(** *** Reservation *)

Definition known (hw : list Z) (l : book) : Prop := Exists (λ r, r_mac r = hw) l.
Definition has_free (now : Z) (l : book) : Prop := Exists (λ r, r_state (expire now r) = STATE_FREE) l.

(** The record at [i] is the client's. *)
Definition owns (l : book) (i : nat) (hw : list Z) : Prop :=
  ∃ r, l !! i = Some r ∧ r_mac r = hw ∧ r_ip r = second_ip.

Lemma matches_mac l i r hw :
  book_ok l → l !! i = Some r → is_mac hw → record_matches (Some hw) None r = true ↔ r_mac r = hw.
Proof.
  intros Hok Hi Hw. unfold record_matches. rewrite andb_true_r. apply address_match_eq; [|done].
  apply (book_ok_elem l r Hok). by apply list_elem_of_lookup_2 with i.
Qed.

Lemma reserve_ok now hw l :
  book_ok l → is_mac hw → hw ≠ TCPIP_ETH_ADDR_ZERO →
  ∃ l' r, DHCPSrv_ReserveAddress now hw l = Ok (l', r) ∧ book_ok l' ∧
    match r with
    | Some (i, ip) => ip = second_ip ∧ owns l' i hw
    | None => ¬ known hw l ∧ ¬ has_free now l
    end.
Proof.
  intros Hok Hw Hz. unfold DHCPSrv_ReserveAddress.
  destruct (find_matches now (Some hw) None l) as [El Hm]; [by left|].
  destruct (DHCPSrv_FindRecord now (Some hw) None l) as [l0 [i|]]; cbn in El; subst l0; cbn [mbind option_bind].
  - destruct Hm as (r & Hi & Hr). rewrite Hi. cbn [mbind option_bind].
    apply (matches_mac l i r hw Hok Hi Hw) in Hr.
    destruct (book_ok_elem l r Hok) as [_ Hip]; [by apply list_elem_of_lookup_2 with i|].
    destruct Hip as [Hip|Hip]; rewrite Hip.
    + cbn [Z.eqb negb]. rewrite scan_second, bind_Ok by done. cbn [negb].
      do 2 eexists. split; [reflexivity|]. split.
      * unfold book_ok. rewrite ids_alter. apply ids_ok_alter; [done|done|].
        intros j y Hj Hy. destruct Hok as (_ & _ & Hd). eapply Hd; [by apply ids_lookup|exact Hj|..]; cbn; congruence.
      * split; [done|]. exists (mk_record (r_state r) (r_ts r) hw second_ip).
        by rewrite list_lookup_alter_eq, Hi.
    + change (second_ip =? 0) with false. cbn [negb]. do 2 eexists. split; [reflexivity|]. split; [done|].
      split; [done|]. by exists r.
  - cbn [snd] in Hm. assert (Hno : ∀ r, r ∈ l → r_mac r ≠ hw).
    { intros r Hr E. rewrite Forall_forall in Hm. specialize (Hm r Hr).
      apply list_elem_of_lookup_1 in Hr as [i Hi]. apply (matches_mac l i r hw Hok Hi Hw) in E. congruence. }
    destruct (find_free now l) as [Eids Hf].
    assert (book_ok (DHCPSrv_FindRecord now None None l).1) as Hok' by (unfold book_ok; by rewrite Eids).
    destruct (DHCPSrv_FindRecord now None None l) as [l' [i|]]; cbn [fst snd] in *.
    + destruct Hf as (r & Hi & _). rewrite scan_second, bind_Ok by done. cbn [negb].
      do 2 eexists. split; [reflexivity|]. split.
      * unfold book_ok. rewrite ids_alter. apply ids_ok_alter; [done|done|].
        intros j y Hj Hy. exfalso. rewrite Eids in Hj. unfold ids in Hj. rewrite list_lookup_fmap in Hj.
        destruct (l !! j) as [r'|] eqn:Hr'; [|done]. injection Hj as <-.
        by apply (Hno r'); [apply list_elem_of_lookup_2 with j|].
      * split; [done|]. exists (mk_record (r_state r) (r_ts r) hw second_ip).
        by rewrite list_lookup_alter_eq, Hi.
    + do 2 eexists. split; [reflexivity|]. split; [done|]. split.
      * intros Hk. apply Exists_exists in Hk as (r & Hr & E). by apply (Hno r).
      * intros Hk. apply Exists_exists in Hk as (r & Hr & E). rewrite Forall_forall in Hf. by apply (Hf r Hr).
Qed.

Lemma zero_book_ok l : length l = DHCP_SRV_RECORDBOOK_CAPACITY → book_ok (DHCPSrv_Reset l).
Proof.
  intros Hl. unfold book_ok, ids, DHCPSrv_Reset. rewrite <- list_fmap_compose. split; [by rewrite !length_fmap|]. split.
  - apply Forall_fmap, Forall_true. intros r. split; [apply zero_mac_ok|by left].
  - intros i j x y Hi Hj. rewrite list_lookup_fmap in Hi. destruct (l !! i); [|done]. by injection Hi as <-.
Qed.

Lemma reset_ok l : book_ok l → book_ok (DHCPSrv_Reset l).
Proof. intros (Hl & _). apply zero_book_ok. unfold ids in Hl. by rewrite length_fmap in Hl. Qed.

(** ** The handlers keep the book *)

Lemma task_bind_inv {A B} (t : task A) (f : A → task B) n ws r :
  (t ≫= f) n ws = Ok r → ∃ a n' ws', t n ws = Ok (a, n', ws') ∧ f a n' ws' = Ok r.
Proof. unfold mbind, task_bind. destruct (t n ws) as [[[a n'] ws']|]; [|done]. eauto. Qed.

Lemma reads_inv {A} (f : mem → res A) n ws a n' ws' :
  reads f n ws = Ok (a, n', ws') → f (n_mem n) = Ok a ∧ n' = n ∧ ws' = ws.
Proof. unfold reads. destruct (f (n_mem n)); [|done]. by intros [= <- <- <-]. Qed.

(** Every step of a run that returned. *)
Ltac inv_task :=
  repeat match goal with
  | H : (_ ≫= _) ?n ?ws = Ok _ |- _ =>
      let a := fresh "a" in let n' := fresh "n" in let w := fresh "ws" in let E := fresh "E" in
      apply task_bind_inv in H as (a & n' & w & E & H)
  | H : mret _ _ _ = Ok _ |- _ => injection H as H; subst
  end.

(** What the book may become while a response waits. *)
Definition interference (other : book → book) : Prop := other = id ∨ other = DHCPSrv_Reset.

Lemma interference_ok other l : interference other → book_ok l → book_ok (other l).
Proof. intros [->| ->]; [done|apply reset_ok]. Qed.

Lemma state_ok st ts i l : book_ok l → book_ok (alter (set_record_state st ts) i l).
Proof. unfold book_ok. by rewrite ids_state. Qed.

Section keep.
Context (buf : Z) (other : book → book) (Hother : interference other).

Lemma discover_keeps sock port frame adrs l n ws l' ec n' ws' :
  book_ok l → is_mac (as_ch adrs) → (has (as_addrflags adrs) DHCP_ADDRFLAGS_CHADDR = true → as_ch adrs ≠ TCPIP_ETH_ADDR_ZERO) →
  DHCPSrv_ProcessDiscover buf other sock port frame adrs l n ws = Ok ((l', ec), n', ws') → book_ok l'.
Proof.
  intros Hok Hw Hz. unfold DHCPSrv_ProcessDiscover. intros H. inv_task.
  destruct ((_ =? 0) || _) eqn:Ex; inv_task; [done|]. apply orb_false_iff in Ex as [_ Ex].
  apply negb_false_iff in Ex. injection E0 as <- <- <-.
  destruct (reserve_ok (n_now n0) (as_ch adrs) l Hok Hw (Hz Ex)) as (l1 & r & Er & Hok1 & _).
  unfold lift in E1. rewrite Er in E1. injection E1 as <- <- <-. cbv beta iota in H.
  destruct r as [[i ip]|]; inv_task; [|done]. by apply interference_ok, state_ok.
Qed.

Lemma request_keeps sock ip port frame adrs opts l n ws l' ec n' ws' :
  book_ok l →
  DHCPSrv_ProcessRequest buf other sock ip port frame adrs opts l n ws = Ok ((l', ec), n', ws') → book_ok l'.
Proof.
  intros Hok. unfold DHCPSrv_ProcessRequest. intros H. inv_task.
  destruct ((_ =? 0) || _); inv_task; [done|].
  destruct (requested_address adrs opts) as [a0|]; inv_task; [|done].
  match type of H with context [DHCPSrv_FindRecord ?now ?ha ?ip l] =>
    destruct (find_matches now ha ip l) as [El _]; [by left|]; destruct (DHCPSrv_FindRecord now ha ip l) as [l1 oi] end.
  cbn in El. subst l1. destruct (oi ≫= _) as [[i r]|]; inv_task; [|by apply interference_ok].
  destruct (_ <? EOK); inv_task; [by apply interference_ok|]. by apply state_ok, interference_ok.
Qed.

(** The client's address of a parsed frame. *)
Lemma parsed_mac m p size adrs ec :
  octets m p 240 → DHCPFrame_ParseAddresses m p size zero_addrset = Ok (adrs, ec) →
  is_mac (as_ch adrs) ∧ (has (as_addrflags adrs) DHCP_ADDRFLAGS_CHADDR = true → as_ch adrs ≠ TCPIP_ETH_ADDR_ZERO).
Proof.
  intros Ho. unfold DHCPFrame_ParseAddresses. destruct (size <? sizeof_dhcp).
  { intros [= <- <-]. split; [apply zero_mac_ok|done]. }
  assert (octets m (p + 28) 6) as (ch & Hl & Hu & Hch) by (apply (octets_sub m p 240 28 6); [done|lia]).
  assert (Hmac : is_mac ch) by done. clear Hl Hu.
  unfold DHCPFrame_GetCHAddr. rewrite (load_mac_bytes _ _ ch) by (done || apply Hmac). intros H. inv_ok.
  cbn [as_ch as_addrflags]. split; [exact Hmac|]. intros Hf Hz. rewrite Hz in Hf. revert Hf.
  assert (TCPIPEthAddr_AddressMatch TCPIP_ETH_ADDR_ZERO TCPIP_ETH_ADDR_ZERO = true) as -> by done.
  unfold flag_unless. cbn [as_addrflags zero_addrset].
  by repeat (destruct (TCPIPIpAddr_AddressMatch _ 0)).
Qed.

Lemma input_keeps sock ip port ptr size l n ws l' ec n' ws' :
  book_ok l → octets (n_mem n) ptr 240 →
  DHCPSrv_Input buf other sock ip port ptr size l n ws = Ok ((l', ec), n', ws') → book_ok l'.
Proof.
  intros Hok Ho. unfold DHCPSrv_Input. intros H. inv_task.
  apply reads_inv in E as (_ & -> & ->). apply reads_inv in E0 as (_ & -> & ->).
  destruct (negb _ || _); inv_task; [done|]. apply reads_inv in E as (E & -> & ->).
  destruct a1 as [adrs e]. apply parsed_mac in E as [Hmac Hz]; [|done].
  destruct (e <? EOK); inv_task; [done|]. apply reads_inv in E as (_ & -> & ->). destruct a1 as [r opts].
  destruct (r =? 0); inv_task; [done|]. destruct (negb _); inv_task; [done|].
  destruct (_ =? DHCP_OP_REQUEST); inv_task; [|done]. unfold DHCPSrv_Process in H.
  destruct (_ =? DHCP_MSG_TYPE_DISCOVER); [by eapply discover_keeps|].
  destruct (_ =? DHCP_MSG_TYPE_REQUEST); [by eapply request_keeps|].
  destruct (_ =? DHCP_MSG_TYPE_RELEASE); [done|]. by inv_task.
Qed.
End keep.

(** Whatever frames arrive, with resets between them and while responses wait. *)
Inductive book_step (buf : Z) : book → book → Prop :=
| step_input other sock ip port ptr size n ws l l' ec n' ws' :
    interference other → octets (n_mem n) ptr 240 →
    DHCPSrv_Input buf other sock ip port ptr size l n ws = Ok ((l', ec), n', ws') → book_step buf l l'
| step_reset l : book_step buf l (DHCPSrv_Reset l).

Definition reachable_book (buf : Z) (l : book) : Prop :=
  rtc (book_step buf) (replicate DHCP_SRV_RECORDBOOK_CAPACITY zero_record) l.

Lemma empty_book_ok : book_ok (replicate DHCP_SRV_RECORDBOOK_CAPACITY zero_record).
Proof. by apply (zero_book_ok (replicate DHCP_SRV_RECORDBOOK_CAPACITY zero_record)). Qed.

Lemma reachable_book_ok buf l : reachable_book buf l → book_ok l.
Proof.
  assert (∀ l0, rtc (book_step buf) l0 l → book_ok l0 → book_ok l) as Hgen.
  { induction 1 as [|l0 l1 l2 Hs _ IH]; [done|]. intros Hok. apply IH.
    destruct Hs as [other sock ip port ptr size n ws l0 l1 ec n' ws' Hother Ho E|l0]; [|by apply reset_ok].
    by eapply input_keeps. }
  intros H. exact (Hgen _ H empty_book_ok).
Qed.


(** ** Responses *)

(** The frame of a response, byte by byte. *)
Definition response_header (xid : Z) (a : dhcp_addrset) : list Z :=
  let f := as_addrflags a in
  [DHCP_OP_RESPONSE; DHCP_HTYPE_ETH; 6; 0] ++ be32 xid ++ [0; 0] ++ be16 0 ++
  be32 (if_flag f DHCP_ADDRFLAGS_CIADDR (as_ci a) 0) ++ be32 (if_flag f DHCP_ADDRFLAGS_YIADDR (as_yi a) 0) ++
  be32 (if_flag f DHCP_ADDRFLAGS_SIADDR (as_si a) 0) ++ be32 (if_flag f DHCP_ADDRFLAGS_GIADDR (as_gi a) 0) ++
  if_flag f DHCP_ADDRFLAGS_CHADDR (as_ch a) TCPIP_ETH_ADDR_ZERO ++ replicate 10 0 ++
  replicate 192 0 ++ be32 0x63825363.

Definition response_bytes (xid : Z) (a : dhcp_addrset) (o : dhcp_optset) : list Z :=
  response_header xid a ++ option_bytes o.

Lemma put_field m p l (k : Z) bs :
  0 ≤ k → k + length bs ≤ length l →
  put_bytes (put_bytes m p l) (p + k) bs = put_bytes m p (splice l (Z.to_nat k) bs).
Proof.
  intros Hk Hl. rewrite <- (Z2Nat.id k) at 1 by done.
  rewrite (put_bytes_splice _ p l) by (first [apply put_bytes_bytes_at|lia]).
  rewrite put_bytes_overwrite; [done|]. unfold splice. rewrite !length_app, length_take, length_drop. lia.
Qed.

(** Stores into a block that is known. *)
Section block.
Context (m : mem) (p : Z) (l : list Z) (k : Z) (Hk : 0 ≤ k).

Lemma block_mapped (n : nat) : k + n ≤ length l → mapped (put_bytes m p l) (p + k) n.
Proof.
  intros Hn. pose proof (bytes_at_mapped _ _ _ (put_bytes_bytes_at m p l)) as H. intros i Hi. apply H. lia.
Qed.

Lemma block_store8 v : k + 1 ≤ length l →
  store8 (put_bytes m p l) (p + k) v = Ok (put_bytes m p (splice l (Z.to_nat k) [u8 v])).
Proof. intros H. rewrite store8_put by (by apply block_mapped). by rewrite put_field. Qed.

Lemma block_be16 v : k + 2 ≤ length l →
  store16 (put_bytes m p l) (p + k) (HTOBE16 v) = Ok (put_bytes m p (splice l (Z.to_nat k) (be16 v))).
Proof. intros H. rewrite store16_be by (by apply block_mapped). by rewrite put_field. Qed.

Lemma block_be32 v : k + 4 ≤ length l →
  store32 (put_bytes m p l) (p + k) (HTOBE32 v) = Ok (put_bytes m p (splice l (Z.to_nat k) (be32 v))).
Proof. intros H. rewrite store32_be by (by apply block_mapped). by rewrite put_field. Qed.

Lemma block_mac mac : k + 6 ≤ length l → is_mac mac →
  store_mac (put_bytes m p l) (p + k) mac = Ok (put_bytes m p (splice l (Z.to_nat k) mac)).
Proof.
  intros H Hm. rewrite store_mac_put by (first [done|apply block_mapped; lia]). rewrite put_field; [done|done|].
  destruct Hm as [-> _]. lia.
Qed.
End block.

Lemma splice_len l k bs : (k + length bs ≤ length l)%nat → length (splice l k bs) = length l.
Proof. intros H. unfold splice. rewrite !length_app, length_take, length_drop. lia. Qed.

(** A block of known length after a store. *)
Ltac block_len := repeat (rewrite splice_len; [|cbn [length be16 be32]; try lia]); rewrite ?length_replicate; cbn [length be16 be32]; lia.

Lemma frame_init m p : mapped m p 240 →
  DHCPFrame_Init m p = Ok (put_bytes m p (splice (replicate 240 0) 236 (be32 0x63825363))).
Proof.
  intros Hm. unfold DHCPFrame_Init, memset. rewrite memset_loop_ok, bind_Ok by done.
  change (u8 0) with 0. by rewrite block_be32.
Qed.

Lemma updates_Ok {A} (f : mem → res (mem * A)) n ws m a :
  f (n_mem n) = Ok (m, a) → updates f n ws = Ok (a, set_mem m n, ws).
Proof. intros E. unfold updates. by rewrite E. Qed.

(** The addresses go into a block of the size of the header. *)
Lemma addresses_block m p l a :
  length l = 240%nat →
  is_mac (if_flag (as_addrflags a) DHCP_ADDRFLAGS_CHADDR (as_ch a) TCPIP_ETH_ADDR_ZERO) →
  let f := as_addrflags a in
  DHCPFrame_RenderAddresses (put_bytes m p l) p sizeof_buf a =
  Ok (put_bytes m p (splice (splice (splice (splice (splice l
    12 (be32 (if_flag f DHCP_ADDRFLAGS_CIADDR (as_ci a) 0)))
    16 (be32 (if_flag f DHCP_ADDRFLAGS_YIADDR (as_yi a) 0)))
    20 (be32 (if_flag f DHCP_ADDRFLAGS_SIADDR (as_si a) 0)))
    24 (be32 (if_flag f DHCP_ADDRFLAGS_GIADDR (as_gi a) 0)))
    28 (if_flag f DHCP_ADDRFLAGS_CHADDR (as_ch a) TCPIP_ETH_ADDR_ZERO)), EOK).
Proof.
  intros Hl Hch f. assert (mapped (put_bytes m p l) p 240) as Hm.
  { rewrite <- Hl. apply (bytes_at_mapped _ _ l), put_bytes_bytes_at. }
  rewrite render_addresses_ok by done. fold f. fold f in Hch.
  do 4 rewrite put_field by (first [lia|block_len]).
  rewrite put_field by (first [lia|destruct Hch as [-> _]; block_len]). done.
Qed.

Lemma response_header_eq xid a :
  is_mac (if_flag (as_addrflags a) DHCP_ADDRFLAGS_CHADDR (as_ch a) TCPIP_ETH_ADDR_ZERO) →
  let f := as_addrflags a in
  splice (splice (splice (splice (splice
    (splice (splice (splice (splice (splice (splice (splice (replicate 240 0) 236 (be32 0x63825363))
      0 [u8 DHCP_OP_RESPONSE]) 1 [u8 DHCP_HTYPE_ETH]) 2 [u8 6]) 3 [u8 0]) 10 (be16 0)) 4 (be32 xid))
    12 (be32 (if_flag f DHCP_ADDRFLAGS_CIADDR (as_ci a) 0)))
    16 (be32 (if_flag f DHCP_ADDRFLAGS_YIADDR (as_yi a) 0)))
    20 (be32 (if_flag f DHCP_ADDRFLAGS_SIADDR (as_si a) 0)))
    24 (be32 (if_flag f DHCP_ADDRFLAGS_GIADDR (as_gi a) 0)))
    28 (if_flag f DHCP_ADDRFLAGS_CHADDR (as_ch a) TCPIP_ETH_ADDR_ZERO) = response_header xid a.
Proof.
  intros [Hl _] f. unfold response_header. fold f. fold f in Hl.
  destruct (if_flag f DHCP_ADDRFLAGS_CHADDR _ _) as [|c0 [|c1 [|c2 [|c3 [|c4 [|c5 [|]]]]]]]; done.
Qed.

Section responses.
Context (buf : Z) (n : net) (ws : worlds).
Context (Hbuf : 0 < buf) (Hmap : mapped (n_mem n) buf 512).

Lemma send_response_ok sock ip port xid a o :
  is_mac (if_flag (as_addrflags a) DHCP_ADDRFLAGS_CHADDR (as_ch a) TCPIP_ETH_ADDR_ZERO) →
  counts_ok o → length (option_bytes o) ≤ 272 →
  DHCPSrv_SendResponse buf sock ip port xid a o n ws =
  TCPIPUdpSock_SendTo sock ip port buf (240 + length (option_bytes o))
    (set_mem (put_bytes (n_mem n) buf (response_bytes xid a o)) n) ws.
Proof.
  intros Hch Hc Hlen. unfold DHCPSrv_SendResponse. set (m := n_mem n) in *.
  assert (mapped m buf 240) as Hm by by apply (mapped_le _ _ 512); [lia|].
  task_step ltac:(by apply writes_Ok, frame_init). fold m.
  unfold DHCPFrame_SetOP, DHCPFrame_SetHType, DHCPFrame_SetHLen, DHCPFrame_SetHops, DHCPFrame_SetFlags,
    DHCPFrame_SetXID.
  do 4 task_step ltac:(apply writes_Ok, block_store8; [lia|block_len]).
  task_step ltac:(apply writes_Ok, block_be16; [lia|block_len]).
  task_step ltac:(apply writes_Ok, block_be32; [lia|block_len]).
  task_step ltac:(apply updates_Ok, addresses_block; [block_len|done]).
  change (EOK <? EOK) with false. cbv iota.
  match goal with |- _ (set_mem (put_bytes m buf ?l) ?x) ws = _ =>
    change (set_mem (put_bytes m buf l) x) with (set_mem (put_bytes m buf l) n);
    replace l with (response_header xid a) by (symmetry; exact (response_header_eq xid a Hch)) end.
  assert (length (response_header xid a) = 240%nat) as Hh.
  { unfold response_header. destruct Hch as [Hch _]. rewrite !length_app, Hch, !length_replicate. done. }
  assert (mapped (put_bytes m buf (response_header xid a)) (buf + sizeof_dhcp) 272) as Hm2.
  { apply put_bytes_mapped. exact (mapped_from _ _ 512 240 Hmap ltac:(lia)). }
  destruct (render_options_ok o (put_bytes m buf (response_header xid a)) (buf + sizeof_dhcp) 272 Hc ltac:(unfold sizeof_dhcp; lia) ltac:(lia) Hm2 (or_intror Hlen))
    as (st & E & Hst).
  unfold rendered in Hst. rewrite decide_True in Hst by done. subst st.
  task_step ltac:(apply updates_Ok; exact E).
  destruct (Z.eqb_spec (buf + sizeof_dhcp + length (option_bytes o)) 0); [unfold sizeof_dhcp in *; lia|].
  cbn [n_mem set_mem] in *. rewrite put_bytes_snoc by (rewrite Hh; done). fold (response_bytes xid a o).
  replace (buf + sizeof_dhcp + length (option_bytes o) - buf) with (240 + length (option_bytes o))
    by (unfold sizeof_dhcp; lia). reflexivity.
Qed.

(** The socket is given the response's bytes. *)
Definition sends (sock : nat) (ip port xid : Z) (a : dhcp_addrset) (o : dhcp_optset) (t : Z → task (book * Z))
  : res (book * Z * net * worlds) :=
  (ec ← TCPIPUdpSock_SendTo sock ip port buf (240 + length (option_bytes o)); t ec)
    (set_mem (put_bytes (n_mem n) buf (response_bytes xid a o)) n) ws.

Lemma bind_sends sock ip port xid a o (t : Z → task (book * Z)) :
  is_mac (if_flag (as_addrflags a) DHCP_ADDRFLAGS_CHADDR (as_ch a) TCPIP_ETH_ADDR_ZERO) →
  counts_ok o → length (option_bytes o) ≤ 272 →
  (ec ← DHCPSrv_SendResponse buf sock ip port xid a o; t ec) n ws = sends sock ip port xid a o t.
Proof. intros H1 H2 H3. unfold sends, mbind, task_bind. by rewrite send_response_ok. Qed.

Lemma resp_counts k t lt : counts_ok (resp_opts k t lt) ∧ length (option_bytes (resp_opts k t lt)) ≤ 272.
Proof. split; [by repeat split|]. change (length (option_bytes (resp_opts k t lt))) with 28%nat. lia. Qed.
End responses.

(** A client's request for an address, of which the book has one record at most. *)
Definition leased (l : book) (i : nat) (hw : list Z) (a ts : Z) (st : dhcp_state) : Prop :=
  l !! i = Some (mk_record st ts hw a).

Lemma find_record now hw a l i r :
  book_ok l → is_mac hw → hw ≠ TCPIP_ETH_ADDR_ZERO → l !! i = Some r → r_mac r = hw → r_ip r = a →
  DHCPSrv_FindRecord now (Some hw) (Some a) l = (l, Some i).
Proof.
  intros Hok Hw Hz Hi Hm Ha.
  destruct (find_matches now (Some hw) (Some a) l) as [El Hf]; [by left|].
  assert (Hmatch : ∀ j x, l !! j = Some x → record_matches (Some hw) (Some a) x = true ↔ r_mac x = hw ∧ r_ip x = a).
  { intros j x Hj. unfold record_matches, TCPIPIpAddr_AddressMatch. rewrite andb_true_iff, Z.eqb_eq.
    rewrite address_match_eq; [done| |done]. apply (book_ok_elem l x Hok). by apply list_elem_of_lookup_2 with j. }
  destruct (DHCPSrv_FindRecord now (Some hw) (Some a) l) as [l0 [j|]]; cbn [fst snd] in *; subst l0.
  - destruct Hf as (x & Hj & Hx). apply (Hmatch j x Hj) in Hx as [Hxm _].
    destruct Hok as (_ & _ & Hd). do 2 f_equal.
    by apply (Hd j i _ _ (ids_lookup _ _ _ Hj) (ids_lookup _ _ _ Hi)); cbn; congruence.
  - exfalso. rewrite Forall_forall in Hf.
    assert (record_matches (Some hw) (Some a) r = true) as E by by apply (Hmatch i r Hi).
    rewrite (Hf r) in E; [done|]. by apply list_elem_of_lookup_2 with i.
Qed.

(** ** Properties *)

(** C29: Whatever the clients send and whenever the stack is reset, the book has
    four records, no client is in it twice, and the only address that is ever
    given out is the second one of the range, 192.168.50.101. *)
Theorem dhcp_one_address buf l :
  reachable_book buf l →
  length l = 4%nat ∧
  Forall (λ r, r_ip r = 0 ∨ r_ip r = TCPIP_IP_ADDR 192 168 50 101) l ∧
  ∀ i j r s, l !! i = Some r → l !! j = Some s → r_mac r = r_mac s → r_mac r ≠ TCPIP_ETH_ADDR_ZERO → i = j.
Proof.
  intros (Hl & Hf & Hd)%reachable_book_ok. split; [by unfold ids in Hl; rewrite length_fmap in Hl|]. split.
  - apply Forall_lookup. intros i r Hi. exact (proj2 (Forall_lookup_1 _ _ _ _ Hf (ids_lookup _ _ _ Hi))).
  - intros i j r s Hi Hj. exact (Hd i j _ _ (ids_lookup _ _ _ Hi) (ids_lookup _ _ _ Hj)).
Qed.

(** A client that is in the book, or for which a record is free, and that
    says who it is, is offered the address: the record is marked before the
    offer, whose bytes are those of [response_bytes], is handed to the socket for
    everybody.  When there is neither, nothing is sent. *)
Theorem dhcp_offer buf other sock port frame adrs l n ws xid :
  0 < buf → mapped (n_mem n) buf 512 → reachable_book buf l →
  DHCPFrame_GetXID (n_mem n) frame = Ok xid → xid ≠ 0 → is_mac (as_ch adrs) →
  as_ch adrs ≠ TCPIP_ETH_ADDR_ZERO → has (as_addrflags adrs) DHCP_ADDRFLAGS_CHADDR = true →
  (∃ l' i, leased l' i (as_ch adrs) (TCPIP_IP_ADDR 192 168 50 101) (n_now n) STATE_OFFER ∧ book_ok l' ∧
     DHCPSrv_ProcessDiscover buf other sock port frame adrs l n ws =
     sends buf n ws sock TCPIP_IP_ADDR_BCAST port xid
       (resp_addrs n (TCPIP_IP_ADDR 192 168 50 101) (as_ch adrs)) (resp_opts n DHCP_MSG_TYPE_OFFER 60)
       (λ ec, mret (other l', ec))) ∨
  (¬ known (as_ch adrs) l ∧ ¬ has_free (n_now n) l ∧
   ∃ l', DHCPSrv_ProcessDiscover buf other sock port frame adrs l n ws = Ok (l', EFATAL, n, ws)).
Proof.
  intros Hbuf Hm Hok%reachable_book_ok Hx Hxid Hw Hz Hch. set (hw := as_ch adrs) in *.
  destruct (reserve_ok (n_now n) hw l Hok Hw Hz) as (l1 & r & Er & Hok1 & Hr).
  unfold DHCPSrv_ProcessDiscover. fold hw.
  assert (reads (λ m, DHCPFrame_GetXID m frame) n ws = Ok (xid, n, ws)) as Ex by by apply reads_Ok.
  destruct r as [[i ip]|].
  - left. destruct Hr as [-> (r & Hi & Hmac & Hip)].
    exists (alter (set_record_state STATE_OFFER (n_now n)) i l1), i. split; [|split; [by apply state_ok|]].
    { unfold leased. rewrite list_lookup_alter_eq, Hi. cbn. unfold set_record_state. by rewrite Hmac, Hip. }
    task_step ltac:(exact Ex). destruct (Z.eqb_spec xid 0); [done|]. rewrite Hch. cbn [orb negb].
    task_step ltac:(reflexivity). task_step ltac:(unfold lift; rewrite Er; reflexivity). cbv beta iota.
    task_step ltac:(reflexivity). change (id n) with n.
    by apply bind_sends; [done|done|exact Hw|apply (resp_counts n)..].
  - right. destruct Hr as [Hk Hf]. split; [done|]. split; [done|]. exists l1.
    task_step ltac:(exact Ex). destruct (Z.eqb_spec xid 0); [done|]. rewrite Hch. cbn [orb negb].
    task_step ltac:(reflexivity). task_step ltac:(unfold lift; rewrite Er; reflexivity). reflexivity.
Qed.

(** C24: A client's request for the address it was offered or has leased is
    acknowledged, and the record is assigned once the response is on its way;
    any other request is refused. *)
Theorem dhcp_request buf other sock ip port frame adrs opts l n ws xid a :
  0 < buf → mapped (n_mem n) buf 512 → book_ok l →
  DHCPFrame_GetXID (n_mem n) frame = Ok xid → xid ≠ 0 → is_mac (as_ch adrs) →
  as_ch adrs ≠ TCPIP_ETH_ADDR_ZERO → has (as_addrflags adrs) DHCP_ADDRFLAGS_CHADDR = true →
  requested_address adrs opts = Some a →
  (∃ i ts st, leased l i (as_ch adrs) a ts st ∧ st ≠ STATE_FREE ∧
     DHCPSrv_ProcessRequest buf other sock ip port frame adrs opts l n ws =
     sends buf n ws sock TCPIP_IP_ADDR_BCAST port xid
       (resp_addrs n a (as_ch adrs)) (resp_opts n DHCP_MSG_TYPE_ACK 900)
       (λ ec, if ec <? EOK then mret (other l, EFATAL)
              else now ← gets n_now; mret (alter (set_record_state STATE_ASSIGNED now) i (other l), ec))) ∨
  ((∀ i ts st, leased l i (as_ch adrs) a ts st → st = STATE_FREE) ∧
   DHCPSrv_ProcessRequest buf other sock ip port frame adrs opts l n ws =
   sends buf n ws sock (nak_ip ip) port xid (nak_addrs n (as_ch adrs)) nak_opts (λ ec, mret (other l, ec))).
Proof.
  intros Hbuf Hm Hok Hx Hxid Hw Hz Hch Ha. set (hw := as_ch adrs) in *. unfold DHCPSrv_ProcessRequest. fold hw.
  assert (reads (λ m, DHCPFrame_GetXID m frame) n ws = Ok (xid, n, ws)) as Ex by by apply reads_Ok.
  destruct (decide (Exists (λ r, r_mac r = hw ∧ r_ip r = a ∧ r_state r ≠ STATE_FREE) l)) as [He|Hne].
  - left. apply Exists_exists in He as (r & Hr & Hmac & Hip & Hst). apply list_elem_of_lookup_1 in Hr as [i Hi].
    exists i, (r_ts r), (r_state r). split; [unfold leased; rewrite Hi; by destruct r; cbn in *; subst|].
    split; [done|].
    task_step ltac:(exact Ex). destruct (Z.eqb_spec xid 0); [done|]. rewrite Hch, Ha. cbn [orb negb].
    task_step ltac:(reflexivity). rewrite (find_record _ hw a l i r) by done. cbn [mbind option_bind].
    rewrite Hi. cbn [mbind option_bind]. rewrite decide_False by done.
    task_step ltac:(reflexivity). change (id n) with n. rewrite Hip.
    by apply bind_sends; [done|done|exact Hw|apply (resp_counts n)..].
  - right. assert (Hno : ∀ r, r ∈ l → r_mac r = hw → r_ip r = a → r_state r = STATE_FREE).
    { intros r Hr Hmac Hip. destruct (decide (r_state r = STATE_FREE)); [done|]. destruct Hne.
      apply Exists_exists. by exists r. }
    split. { intros i ts st Hi. by apply (Hno _ (list_elem_of_lookup_2 _ _ _ Hi)). }
    task_step ltac:(exact Ex). destruct (Z.eqb_spec xid 0); [done|]. rewrite Hch, Ha. cbn [orb negb].
    task_step ltac:(reflexivity).
    destruct (find_matches (n_now n) (Some hw) (Some a) l) as [El Hf]; [by left|].
    destruct (DHCPSrv_FindRecord _ _ _ _) as [l0 oi]. cbn [fst snd] in *. subst l0.
    assert (oi ≫= (λ i, r ← l !! i; if decide (r_state r = STATE_FREE) then None else Some (i, r)) = None) as ->.
    { destruct oi as [i|]; [|done]. destruct Hf as (r & Hi & Hr). cbn. rewrite Hi. cbn.
      unfold record_matches, TCPIPIpAddr_AddressMatch in Hr. apply andb_true_iff in Hr as [Hmac Hip].
      apply address_match_eq in Hmac; [|apply (book_ok_elem l r Hok); by apply list_elem_of_lookup_2 with i|done].
      rewrite decide_True; [done|]. apply Hno; [by apply list_elem_of_lookup_2 with i|done|by apply Z.eqb_eq]. }
    unfold DHCPSrv_SendResponseNAK. rewrite <- (bind_sends buf n ws) by (done || exact Hw || by repeat split). reflexivity.
Qed.

(** *** Concrete runs *)

(** A client's frame at 1000, the work buffer at 2000, transmission buffers from
    3000 on; the server's socket is the first one. *)
Definition dhcp_demo_frame (mac opts : list Z) : list Z :=
  [DHCP_OP_REQUEST; DHCP_HTYPE_ETH; 6; 0] ++ be32 0x3903f326 ++ replicate 20 0 ++ mac ++ replicate 10 0 ++
  replicate 192 0 ++ be32 0x63825363 ++ opts.
Definition dhcp_demo_net (bytes : list Z) : net :=
  let m := put_bytes (put_bytes (put_bytes ∅ 1000 bytes) 2000 (replicate 512 0)) 3000 (replicate 400 0) in
  set_udp [mk_udp_sock DHCP_SRV_PORT None 0 0 0 0] (boot_net m 0 3000 0 (mk_heap ∅ 0) 1).
Definition demo_mac (i : Z) : list Z := [2; 0; 0; 0; 0; i].
Definition demo_discover : list Z := [53; 1; 1; 255].
Definition demo_request (a : Z) : list Z := [53; 1; 3; 50; 4] ++ be32 a ++ [255].
Definition demo_book : book := replicate DHCP_SRV_RECORDBOOK_CAPACITY zero_record.

(** The frame is handled; the book, the code, and the address and message type of
    the response in the work buffer. *)
Definition dhcp_demo_input (i : Z) (opts : list Z) (l : book) : res (book * Z * (Z * Z)) :=
  let bytes := dhcp_demo_frame (demo_mac i) opts in
  let n := dhcp_demo_net bytes in
  '(l, ec, n, _) ← DHCPSrv_Input 2000 id 0 0 68 1000 (length bytes) l n [id; id];
  yi ← DHCPFrame_GetYIAddr (n_mem n) 2000;
  t ← load8 (n_mem n) 2242;
  Ok (l, ec, (yi, t)).

(** Two clients ask one after the other and are offered the same address. *)
Example two_clients_one_address :
  match dhcp_demo_input 1 demo_discover demo_book with
  | Ok (l, ec, r) =>
      ec = EOK ∧ r = (TCPIP_IP_ADDR 192 168 50 101, DHCP_MSG_TYPE_OFFER) ∧
      match dhcp_demo_input 2 demo_discover l with
      | Ok (l, ec, r) =>
          ec = EOK ∧ r = (TCPIP_IP_ADDR 192 168 50 101, DHCP_MSG_TYPE_OFFER) ∧
          (λ r, (r_mac r, r_ip r)) <$> take 2 l =
            [(demo_mac 1, TCPIP_IP_ADDR 192 168 50 101); (demo_mac 2, TCPIP_IP_ADDR 192 168 50 101)]
      | Fault _ => False
      end
  | Fault _ => False
  end.
Proof. by vm_compute. Qed.

(** A release ends in the use of an uninitialised code. *)
Example release_uninitialised :
  dhcp_demo_input 1 [53; 1; 7; 255] demo_book = Fault Uninit.
Proof. by vm_compute. Qed.

(** The magic cookie is not looked at. *)
Example cookie_ignored :
  let bytes := take 236 (dhcp_demo_frame (demo_mac 1) []) ++ [0; 0; 0; 0] ++ demo_discover in
  match DHCPSrv_Input 2000 id 0 0 68 1000 (length bytes) demo_book (dhcp_demo_net bytes) [id; id] with
  | Ok (l, ec, _, _) => ec = EOK
  | Fault _ => False
  end.
Proof. by vm_compute. Qed.

(** *** Applications *)

Lemma dhcp_demo_mapped bytes : mapped (n_mem (dhcp_demo_net bytes)) 2000 512.
Proof.
  apply put_bytes_mapped. apply (bytes_at_mapped _ _ (replicate 512 0)), put_bytes_bytes_at.
Qed.

Lemma demo_mac_ok : is_mac (demo_mac 1).
Proof. split; [done|]. by repeat constructor. Qed.

Definition dhcp_demo_n : net := dhcp_demo_net (dhcp_demo_frame (demo_mac 1) demo_discover).
Definition dhcp_demo_run : res (book * Z * net * worlds) :=
  DHCPSrv_Input 2000 id 0 0 68 1000 244 demo_book dhcp_demo_n [id; id].

Lemma dhcp_demo_octets : octets (n_mem dhcp_demo_n) 1000 240.
Proof.
  exists (take 240 (dhcp_demo_frame (demo_mac 1) demo_discover)). split; [by vm_compute|].
  split; [by apply (bool_decide_unpack _)|]. by vm_compute.
Qed.

Lemma dhcp_one_address_witness :
  ∃ l, reachable_book 2000 l ∧ length l = 4%nat ∧
    Forall (λ r, r_ip r = 0 ∨ r_ip r = TCPIP_IP_ADDR 192 168 50 101) l.
Proof.
  assert (match dhcp_demo_run with Ok _ => True | Fault _ => False end) as H by (vm_compute; exact I).
  destruct dhcp_demo_run as [[[[l ec] n'] ws']|] eqn:E; [|destruct H]. clear H.
  assert (reachable_book 2000 l) as Hr.
  { eapply rtc_l; [|apply rtc_refl]. eapply (step_input 2000 id); [by left|apply dhcp_demo_octets|exact E]. }
  exists l. split; [exact Hr|]. destruct (dhcp_one_address 2000 l Hr) as (H1 & H2 & _). by split.
Defined.

Lemma dhcp_offer_witness :
  ∃ l' i, leased l' i (demo_mac 1) (TCPIP_IP_ADDR 192 168 50 101) 0 STATE_OFFER ∧
    DHCPSrv_ProcessDiscover 2000 id 0 68 1000 (mk_addrset 16 0 0 0 0 (demo_mac 1)) demo_book dhcp_demo_n [id; id] =
    sends 2000 dhcp_demo_n [id; id] 0 TCPIP_IP_ADDR_BCAST 68 0x3903f326
      (resp_addrs dhcp_demo_n (TCPIP_IP_ADDR 192 168 50 101) (demo_mac 1))
      (resp_opts dhcp_demo_n DHCP_MSG_TYPE_OFFER 60) (λ ec, mret (l', ec)).
Proof.
  destruct (dhcp_offer 2000 id 0 68 1000 (mk_addrset 16 0 0 0 0 (demo_mac 1)) demo_book dhcp_demo_n [id; id] 0x3903f326)
    as [(l' & i & H1 & _ & H2)|(_ & Hf & _)].
  - lia.
  - apply dhcp_demo_mapped.
  - apply rtc_refl.
  - by vm_compute.
  - discriminate.
  - exact demo_mac_ok.
  - discriminate.
  - reflexivity.
  - exists l', i. split; [exact H1|exact H2].
  - destruct Hf. left. reflexivity.
Defined.

(** The client asks for the address it has in the book. *)
Definition demo_leased : book := mk_record STATE_OFFER 0 (demo_mac 1) (TCPIP_IP_ADDR 192 168 50 101) :: replicate 3 zero_record.

Lemma demo_leased_ok : book_ok demo_leased.
Proof.
  split; [done|]. split.
  - unfold ids, demo_leased. cbn [fmap list_fmap replicate r_mac r_ip zero_record].
    repeat (apply Forall_cons_2; [split; [split; [done|by repeat constructor]|first [by left|by right]]|]). by apply Forall_nil_2.
  - intros [|i] j x y Hi Hj.
    + injection Hi as <-. do 4 (destruct j as [|j]; [injection Hj as <-; done|]). done.
    + do 3 (destruct i as [|i]; [injection Hi as <-; done|]). done.
Qed.

Lemma dhcp_request_witness :
  let adrs := mk_addrset 16 0 0 0 0 (demo_mac 1) in
  let opts := os_set_req_ip (TCPIP_IP_ADDR 192 168 50 101) (os_set_flags DHCP_OPTFLAGS_REQUESTED_IP zero_optset) in
  ∃ i ts st, leased demo_leased i (demo_mac 1) (TCPIP_IP_ADDR 192 168 50 101) ts st ∧ st ≠ STATE_FREE ∧
    DHCPSrv_ProcessRequest 2000 id 0 0 68 1000 adrs opts demo_leased dhcp_demo_n [id; id] =
    sends 2000 dhcp_demo_n [id; id] 0 TCPIP_IP_ADDR_BCAST 68 0x3903f326
      (resp_addrs dhcp_demo_n (TCPIP_IP_ADDR 192 168 50 101) (demo_mac 1))
      (resp_opts dhcp_demo_n DHCP_MSG_TYPE_ACK 900)
      (λ ec, if ec <? EOK then mret (demo_leased, EFATAL)
             else now ← gets n_now; mret (alter (set_record_state STATE_ASSIGNED now) i demo_leased, ec)).
Proof.
  intros adrs opts.
  destruct (dhcp_request 2000 id 0 0 68 1000 adrs opts demo_leased dhcp_demo_n [id; id] 0x3903f326
    (TCPIP_IP_ADDR 192 168 50 101)) as [H|[H _]].
  - lia.
  - apply dhcp_demo_mapped.
  - exact demo_leased_ok.
  - by vm_compute.
  - discriminate.
  - exact demo_mac_ok.
  - discriminate.
  - reflexivity.
  - reflexivity.
  - exact H.
  - specialize (H 0%nat 0 STATE_OFFER eq_refl). discriminate H.
Defined.
