(* ===== verification/Mdns.v ===== *)
(** * The mDNS server (net/mdns/frame.h, net/mdns/src/frame.c, net/mdns/src/server.c)

    Names on the wire are labels with their lengths, or pointers to names earlier
    in the frame.  The loop that follows pointers has no bound in the code: the
    definitions that decode names take fuel, and for frames whose pointers run in
    a circle no fuel is enough.  [qname], [rsps] and [buf] are the addresses of
    arrays on the stack, [name] that of the device name. *)
From stdpp Require Import relations.
From S2P Require Import Prelude CString Heap Queue ByteQueue Words Frames Net Udp DhcpFrame Dhcp.

(** config.h *)
Definition MDNS_SRV_PORT : Z := 5353.
Definition MDNS_SRV_MCAST_IP : Z := TCPIP_IP_ADDR 224 0 0 251.

(** ** frame.h *)

Definition MDNS_FRAME_HDR_FLAGS_QR : Z := 0x8000.
Definition MDNS_FRAME_HDR_FLAGS_QR_QUERY : Z := 0x0000.
Definition MDNS_FRAME_HDR_FLAGS_QR_RESP : Z := 0x8000.
Definition MDNS_FRAME_HDR_FLAGS_OPCODE : Z := 0x7800.
Definition MDNS_FRAME_HDR_FLAGS_OPCODE_STD_QUERY : Z := 0x0000.
Definition MDNS_FRAME_HDR_FLAGS_RCODE_OK : Z := 0x0000.
Definition MDNS_RECORD_TYPE_A : Z := 1.
Definition MDNS_RECORD_CLASS_IA : Z := 1.

Definition sizeof_mdns : Z := 12.
Definition sizeof_question : Z := 4.
Definition sizeof_answer : Z := 10.
Definition sizeof_rdata_a : Z := 4.

(** [BETOH16], [BETOH32] of a field. *)
Definition get16 (m : mem) (a : Z) : res Z := v ← load16 m a; Ok (BETOH16 v).
Definition get32 (m : mem) (a : Z) : res Z := v ← load32 m a; Ok (BETOH32 v).

Definition MDNSFrame_GetTransactionID (m : mem) (mdns : Z) := get16 m (mdns + 0).
Definition MDNSFrame_GetFlags (m : mem) (mdns : Z) := get16 m (mdns + 2).
Definition MDNSFrame_GetQuestionsCount (m : mem) (mdns : Z) := get16 m (mdns + 4).
Definition MDNSFrame_GetAnswersCount (m : mem) (mdns : Z) := get16 m (mdns + 6).
Definition MDNSFrame_GetAuthorityRRCount (m : mem) (mdns : Z) := get16 m (mdns + 8).
Definition MDNSFrame_GetAdditionalRRCount (m : mem) (mdns : Z) := get16 m (mdns + 10).
Definition MDNSFrame_SetTransactionID (m : mem) (mdns v : Z) := store16 m (mdns + 0) (HTOBE16 (u16 v)).
Definition MDNSFrame_SetFlags (m : mem) (mdns v : Z) := store16 m (mdns + 2) (HTOBE16 (u16 v)).
Definition MDNSFrame_SetQuestionsCount (m : mem) (mdns v : Z) := store16 m (mdns + 4) (HTOBE16 (u16 v)).
Definition MDNSFrame_SetAnswersCount (m : mem) (mdns v : Z) := store16 m (mdns + 6) (HTOBE16 (u16 v)).
Definition MDNSFrame_SetAuthorityRRCount (m : mem) (mdns v : Z) := store16 m (mdns + 8) (HTOBE16 (u16 v)).
Definition MDNSFrame_SetAdditionalRRCount (m : mem) (mdns v : Z) := store16 m (mdns + 10) (HTOBE16 (u16 v)).

Definition MDNSFrameQuestion_GetType (m : mem) (q : Z) := get16 m (q + 0).
Definition MDNSFrameQuestion_GetClass (m : mem) (q : Z) := get16 m (q + 2).
Definition MDNSFrameQuestion_SetType (m : mem) (q v : Z) := store16 m (q + 0) (HTOBE16 (u16 v)).
Definition MDNSFrameQuestion_SetClass (m : mem) (q v : Z) := store16 m (q + 2) (HTOBE16 (u16 v)).

Definition MDNSFrameAnswer_GetType (m : mem) (a : Z) := get16 m (a + 0).
Definition MDNSFrameAnswer_GetClass (m : mem) (a : Z) := get16 m (a + 2).
Definition MDNSFrameAnswer_GetTTL (m : mem) (a : Z) := get32 m (a + 4).
Definition MDNSFrameAnswer_GetRDLength (m : mem) (a : Z) := get16 m (a + 8).
Definition MDNSFrameAnswer_SetType (m : mem) (a v : Z) := store16 m (a + 0) (HTOBE16 (u16 v)).
Definition MDNSFrameAnswer_SetClass (m : mem) (a v : Z) := store16 m (a + 2) (HTOBE16 (u16 v)).
Definition MDNSFrameAnswer_SetTTL (m : mem) (a v : Z) := store32 m (a + 4) (HTOBE32 v).
Definition MDNSFrameAnswer_SetRDLength (m : mem) (a v : Z) := store16 m (a + 8) (HTOBE16 (u16 v)).

Definition MDNSFrameRDataA_SetIP (m : mem) (a ip : Z) := store32 m (a + 0) (HTOBE32 ip).
Definition MDNSFrameRDataA_GetIP (m : mem) (a : Z) := get32 m (a + 0).

(** ** frame.c *)

(** [for (dl = d + 1; *s && *s != '.' && (dst_size - 1); dst_size--) *dl++ = *s++]. *)
Fixpoint encode_label (fuel : nat) (m : mem) (s dl dst_size : Z) : res (mem * Z * Z * Z) :=
  match fuel with
  | O => Fault OutOfFuel
  | S fuel =>
      c ← load8 m s;
      if negb (c =? 0) && negb (c =? 46) && negb (dst_size - 1 =? 0) then
        m ← store8 m dl c;
        encode_label fuel m (s + 1) (dl + 1) (dst_size - 1)
      else Ok (m, s, dl, dst_size)
  end.

(** The outer loop: what is left of the name goes to [d]. *)
Fixpoint encode_name (fuel : nat) (m : mem) (s dst d dst_size : Z) : res (mem * Z) :=
  match fuel with
  | O => Fault OutOfFuel
  | S fuel =>
      c ← load8 m s;
      if c =? 0 then
        if dst_size =? 0 then Ok (m, EFATAL)
        else m ← store8 m d 0; Ok (m, d + 1 - dst)
      else if dst_size <? 1 then Ok (m, EFATAL)
      else
        '(m, s, dl, dst_size) ← encode_label (S (size m)) m s (d + 1) dst_size;
        c ← load8 m s;
        if (negb (c =? 0) && negb (c =? 46)) || (0x40 <? dl - d) || (negb (c =? 0) && (dl - d =? 1))
        then Ok (m, EFATAL)
        else
          m ← store8 m d (dl - d - 1);
          encode_name fuel m (if c =? 0 then s else s + 1) dst dl dst_size
  end.

Definition MDNSFrame_EncodeName (m : mem) (name dst dst_size : Z) : res (mem * Z) :=
  encode_name (S (size m)) m name dst dst dst_size.

(** [for (size_t i = l_size; i > 0 && i--;) *d++ = *s++]. *)
Fixpoint copy_label (m : mem) (d s : Z) (n : nat) : res mem :=
  match n with
  | O => Ok m
  | S n => c ← load8 m s; m ← store8 m d c; copy_label m (d + 1) (s + 1) n
  end.

(** The loop over labels and pointers. *)
Fixpoint decode_loop (fuel : nat) (m : mem) (ss se ds de s d bconsumed : Z) (pointer_was_used : bool)
  : res (mem * Z) :=
  match fuel with
  | O => Fault OutOfFuel
  | S fuel =>
      let bleft := if s <? se then se - s else 0 in
      if bleft =? 0 then Ok (m, EFATAL)
      else
        c ← load8 m s;
        if c <? 0x40 then
          let l_size := c in
          if (bleft - 1 <? l_size) || (u32 (de - d) <? l_size + 1) then Ok (m, EARGVAL)
          else
            let bconsumed := if pointer_was_used then bconsumed else bconsumed + (l_size + 1) in
            if l_size =? 0 then
              m ← (if negb (d - ds =? 0) then store8 m (d - 1) 0 else store8 m d 0);
              Ok (m, bconsumed)
            else
              m ← copy_label m d (s + 1) (Z.to_nat l_size);
              m ← store8 m (d + l_size) 46;
              decode_loop fuel m ss se ds de (s + 1 + l_size) (d + l_size + 1) bconsumed pointer_was_used
        else if (2 <=? bleft) && (0xc0 <=? c) then
          c1 ← load8 m (s + 1);
          let l_offs := Z.lor (Z.shiftl (Z.land c 0x3f) 8) c1 in
          let bconsumed := if pointer_was_used then bconsumed else bconsumed + 2 in
          decode_loop fuel m ss se ds de (ss + l_offs) d bconsumed true
        else Ok (m, EFATAL)
  end.

Definition MDNSFrame_DecodeName (fuel : nat) (m : mem) (src frame frame_size dst dst_size : Z) : res (mem * Z) :=
  let offset := src - frame in
  decode_loop fuel m (src - offset) (src + frame_size - offset) dst (dst + dst_size) src dst 0 false.

(** ** server.c *)

Record mdns_record := mk_mdns_record { mr_type : Z; mr_ip : Z; mr_name : Z }.

Section server.
Context (fuel : nat) (obj name qname rsps buf : Z).

Definition records : list mdns_record := [mk_mdns_record MDNS_RECORD_TYPE_A 0 name].

(** The loop over the records. *)
Fixpoint find_mdns_record (m : mem) (type name : Z) (l : list mdns_record) : res (option mdns_record) :=
  match l with
  | [] => Ok None
  | r :: l =>
      if negb (mr_type r =? type) then find_mdns_record m type name l
      else d ← strcmp m name (mr_name r); if d =? 0 then Ok (Some r) else find_mdns_record m type name l
  end.

Definition MDNSSrv_FindRecord (m : mem) (type name : Z) : res (option mdns_record) :=
  find_mdns_record m type name records.

Definition MDNSSrv_SendResponse (sock : nat) (ip port transaction_id rcode answers_cnt ptr rsps_size : Z)
  : task Z :=
  if 512 <? rsps_size + sizeof_mdns then mret EFATAL
  else
    let frame := buf in
    writes (λ m, MDNSFrame_SetTransactionID m frame transaction_id);;
    writes (λ m, MDNSFrame_SetFlags m frame
      (Z.lor (Z.lor MDNS_FRAME_HDR_FLAGS_QR_RESP MDNS_FRAME_HDR_FLAGS_OPCODE_STD_QUERY) rcode));;
    writes (λ m, MDNSFrame_SetQuestionsCount m frame 0);;
    writes (λ m, MDNSFrame_SetAnswersCount m frame answers_cnt);;
    writes (λ m, MDNSFrame_SetAuthorityRRCount m frame 0);;
    writes (λ m, MDNSFrame_SetAdditionalRRCount m frame 0);;
    writes (λ m, memcpy m (frame + sizeof_mdns) ptr rsps_size);;
    TCPIPUdpSock_SendTo sock ip port frame (sizeof_mdns + rsps_size).

(** The address behind the answer, or null; [my_ip] is the own address. *)
Definition MDNSSrv_RenderAnswerA (m : mem) (my_ip ptr size : Z) (rec : mdns_record) : res (mem * Z) :=
  '(m, ec) ← MDNSFrame_EncodeName m (mr_name rec) ptr size;
  if ec <? EOK then Ok (m, 0)
  else
    let fields := ptr + ec in
    let rdata := fields + sizeof_answer in
    if size <? u32 (ec + sizeof_answer + sizeof_rdata_a) then Ok (m, 0)
    else
      m ← MDNSFrameAnswer_SetType m fields MDNS_RECORD_TYPE_A;
      m ← MDNSFrameAnswer_SetClass m fields MDNS_RECORD_CLASS_IA;
      m ← MDNSFrameAnswer_SetTTL m fields 60;
      m ← MDNSFrameAnswer_SetRDLength m fields sizeof_rdata_a;
      let ip := if TCPIPIpAddr_AddressMatch (mr_ip rec) 0 then my_ip else mr_ip rec in
      m ← MDNSFrameRDataA_SetIP m rdata ip;
      Ok (m, fields + sizeof_answer + sizeof_rdata_a).

(** The address of the next question or null, the response pointer and the number
    of answers. *)
Definition MDNSSrv_ProcessQuestion (m : mem) (my_ip ptr frame frame_size rsp rsp_size : Z)
  : res (mem * (Z * Z * Z)) :=
  '(m, ec) ← MDNSFrame_DecodeName fuel m ptr frame frame_size qname (256 - 1);
  if ec <? EOK then Ok (m, (0, rsp, 0))
  else
    let fields := ptr + ec in
    class ← MDNSFrameQuestion_GetClass m fields;
    if negb (class =? MDNS_RECORD_CLASS_IA) then Ok (m, (0, rsp, 0))
    else
      let p := fields + sizeof_question in
      qtype ← MDNSFrameQuestion_GetType m fields;
      rec ← MDNSSrv_FindRecord m qtype qname;
      match rec with
      | None => Ok (m, (p, rsp, 0))
      | Some rec =>
          if qtype =? MDNS_RECORD_TYPE_A then
            '(m, r) ← MDNSSrv_RenderAnswerA m my_ip rsp rsp_size rec;
            Ok (m, (p, r, if r =? 0 then 0 else 1))
          else Fault AssertFailed
      end.

(** The loop over the questions: response pointer and total, or an error. *)
Fixpoint process_questions (qnum : nat) (m : mem) (my_ip p frame size r rtotal : Z)
  : res (mem * option (Z * Z)) :=
  match qnum with
  | O => Ok (m, Some (r, rtotal))
  | S qnum =>
      '(m, (p, r, rnum)) ← MDNSSrv_ProcessQuestion m my_ip p frame size r (256 - (r - rsps));
      if (p =? 0) || (r =? 0) then Ok (m, None)
      else process_questions qnum m my_ip p frame size r (rtotal + rnum)
  end.

Definition MDNSSrv_Input (sock : nat) (ip port ptr size : Z) : task Z :=
  let frame := ptr in
  transaction_id ← reads (λ m, MDNSFrame_GetTransactionID m frame);
  flags ← reads (λ m, MDNSFrame_GetFlags m frame);
  if negb (Z.land flags MDNS_FRAME_HDR_FLAGS_QR =? MDNS_FRAME_HDR_FLAGS_QR_QUERY) then mret EFATAL
  else if negb (Z.land flags MDNS_FRAME_HDR_FLAGS_OPCODE =? MDNS_FRAME_HDR_FLAGS_OPCODE_STD_QUERY) then mret EFATAL
  else
    qnum ← reads (λ m, MDNSFrame_GetQuestionsCount m frame);
    my_ip ← gets TCPIPIpAddr_GetIP;
    a ← updates (λ m, process_questions (Z.to_nat qnum) m my_ip (frame + sizeof_mdns) frame size rsps 0);
    match a with
    | None => mret EFATAL
    | Some (r, rtotal) =>
        if rtotal =? 0 then mret EFATAL
        else MDNSSrv_SendResponse sock MDNS_SRV_MCAST_IP port transaction_id MDNS_FRAME_HDR_FLAGS_RCODE_OK
               rtotal rsps (r - rsps)
    end.

(** One round of the task's loop. *)
Definition MDNSSrv_Task_round (sock : nat) (rx_buf : Z) : task unit :=
  '(ec, ip, port) ← TCPIPUdpSock_RecvFrom obj sock rx_buf 512 0;
  if ec <? EOK then mret ()
  else MDNSSrv_Input sock ip port rx_buf ec;; mret ().
End server.

(** ** Names *)

(** A label as it may be encoded, and as it may be decoded. *)
Definition label_ok (l : list Z) : Prop := (0 < length l < 64)%nat ∧ Forall (λ c, 0 < c < 256 ∧ c ≠ 46) l.
Definition wire_label_ok (l : list Z) : Prop := (0 < length l < 64)%nat ∧ Forall is_u8 l.

(** The labels each with a dot behind it; the name has no dot at its end. *)
Definition dots (ls : list (list Z)) : list Z := concat ((λ l, l ++ [46]) <$> ls).
Fixpoint name_of (ls : list (list Z)) : list Z :=
  match ls with
  | [] => []
  | l :: ls => match ls with [] => l | _ => l ++ 46 :: name_of ls end
  end.

(** The name on the wire. *)
Definition wire (ls : list (list Z)) : list Z := concat ((λ l, Z.of_nat (length l) :: l) <$> ls) ++ [0].

Lemma name_of_cons l ls : name_of (l :: ls) = l ++ match ls with [] => [] | _ => 46 :: name_of ls end.
Proof. destruct ls; [symmetry; apply app_nil_r|done]. Qed.

Lemma dots_name ls : ls ≠ [] → dots ls = name_of ls ++ [46].
Proof.
  induction ls as [|l ls IH]; [done|]. intros _. rewrite name_of_cons. unfold dots in *. cbn [fmap list_fmap concat].
  destruct ls as [|l' ls]; [cbn; by rewrite !app_nil_r|]. rewrite IH by done. by rewrite <- !app_assoc.
Qed.

Lemma wire_cons l ls : wire (l :: ls) = (Z.of_nat (length l) :: l) ++ wire ls.
Proof. unfold wire. cbn. by rewrite <- app_assoc. Qed.

Lemma label_wire_ok l : label_ok l → wire_label_ok l.
Proof. intros [Hl Hf]. split; [done|]. eapply Forall_impl; [exact Hf|]. cbv beta. word_lia. Qed.

(** Equal results, component by component. *)
Ltac tuple_lia :=
  repeat first [match goal with |- (_, _) = (_, _) => apply f_equal2 end|match goal with |- Ok _ = Ok _ => apply f_equal end]; first [done|lia].

(** *** Encoding *)

(** A byte stored in front of those that follow it. *)
Lemma put_before m d v l : <[d := v]> (put_bytes m (d + 1) l) = put_bytes m d (v :: l).
Proof.
  apply map_eq. intros i. cbn [put_bytes].
  destruct (decide (i = d)) as [->|Hi].
  - rewrite lookup_insert_eq, put_bytes_lookup_ne by lia. by rewrite lookup_insert_eq.
  - rewrite lookup_insert_ne by done.
    destruct (decide (d + 1 ≤ i < d + 1 + length l)) as [Hin|Hout].
    + destruct (lookup_lt_is_Some_2 l (Z.to_nat (i - (d + 1)))) as [b Hb]; [lia|].
      replace i with (d + 1 + Z.of_nat (Z.to_nat (i - (d + 1)))) by lia.
      by rewrite !(bytes_at_lookup _ _ _ _ _ (put_bytes_bytes_at _ (d + 1) l) Hb).
    + rewrite !put_bytes_lookup_ne by lia. by rewrite lookup_insert_ne.
Qed.

Lemma cstr_mid m s l c rest : cstr m s (l ++ c :: rest) → cstr m (s + length l + 1) rest.
Proof.
  revert s. induction l as [|x l IH]; intros s H; cbn [app length] in *.
  - apply cstr_cons in H as (_ & _ & H). by replace (s + 0%nat + 1) with (s + 1) by lia.
  - apply cstr_cons in H as (_ & _ & H). apply IH in H. by replace (s + S (length l) + 1) with (s + 1 + length l + 1) by lia.
Qed.

Lemma cstr_at m s l rest : cstr m s (l ++ rest) → load8 m (s + length l) = Ok (match rest with [] => 0 | c :: _ => c end).
Proof.
  revert s. induction l as [|x l IH]; intros s H; cbn [app length] in *.
  - rewrite Z.add_0_r. destruct rest; [by apply cstr_nil|by apply cstr_cons in H as [H _]].
  - apply cstr_cons in H as (_ & _ & H). apply IH in H. by replace (s + S (length l)) with (s + 1 + length l) by lia.
Qed.

Lemma encode_label_ok l : ∀ fuel m s dl size rest,
  cstr m s (l ++ rest) → Forall (λ c, 0 < c < 256 ∧ c ≠ 46) l → (rest = [] ∨ ∃ r, rest = 46 :: r) →
  (length l < fuel)%nat → length l < size → mapped m dl (length l) →
  CString.apart s (length (l ++ rest) + 1) dl (length l) →
  encode_label fuel m s dl size = Ok (put_bytes m dl l, s + length l, dl + length l, size - length l).
Proof.
  induction l as [|c l IH]; intros [|fuel] m s dl size rest Hc Hl Hr Hf Hs Hm Ha; try (cbn in Hf; lia).
  - cbn [encode_label length put_bytes]. pose proof (cstr_at m s [] rest Hc) as E. cbn [length] in E.
    rewrite !Z.add_0_r in *. rewrite E, bind_Ok, Z.sub_0_r. by destruct Hr as [->|[r ->]].
  - cbn [encode_label length app] in *. apply Forall_cons_1 in Hl as [[Hc0 Hdot] Hl].
    pose proof Hc as Hc1. apply cstr_cons in Hc1 as (E & _ & Hc1). rewrite E, bind_Ok.
    destruct (Z.eqb_spec c 0); [lia|]. destruct (Z.eqb_spec c 46); [lia|].
    destruct (Z.eqb_spec (size - 1) 0); [lia|]. cbn [negb andb].
    apply mapped_cons in Hm as [Hm0 Hm]. rewrite store8_u8, bind_Ok by (done || word_lia).
    rewrite (IH fuel _ (s + 1) (dl + 1) (size - 1) rest); [|..|done|done|lia|lia| |].
    + tuple_lia.
    + change (<[dl := c]> m) with (put_bytes m dl [c]). apply cstr_frame; [done|]. unfold CString.apart in *. cbn in *. lia.
    + by apply mapped_insert.
    + unfold CString.apart in *. lia.
Qed.

Lemma name_length l ls : Forall label_ok (l :: ls) → (length l ≤ length (name_of (l :: ls)))%nat.
Proof. intros _. rewrite name_of_cons, length_app. lia. Qed.

Definition chars (ls : list (list Z)) : nat := length (concat ls).

Lemma encode_name_ok ls : ∀ fuel m s dst d size,
  cstr m s (name_of ls) → Forall label_ok ls → (length ls < fuel)%nat → chars ls + 1 ≤ size →
  mapped m d (length (wire ls)) → CString.apart s (length (name_of ls) + 1) d (length (wire ls)) →
  encode_name fuel m s dst d size = Ok (put_bytes m d (wire ls), d + length (wire ls) - dst).
Proof.
  induction ls as [|l ls IH]; intros [|fuel] m s dst d size Hc Hl Hf Hs Hm Ha; try (cbn in Hf; lia).
  - cbn [encode_name]. rewrite (cstr_nil _ _ Hc), bind_Ok. cbn [Z.eqb].
    destruct (Z.eqb_spec size 0); [cbn in Hs; lia|].
    apply mapped_cons in Hm as [Hm _]. rewrite store8_mapped, bind_Ok by done. done.
  - apply Forall_cons_1 in Hl as [[Hlen Hu] Hl]. cbn [encode_name]. rewrite name_of_cons in Hc, Ha.
    rewrite wire_cons, length_app in *. cbn [length app] in *.
    assert (chars (l :: ls) = length l + chars ls)%nat as Hch by (unfold chars; cbn; by rewrite length_app).
    rewrite Hch in Hs. set (rest := match ls with [] => [] | _ => 46 :: name_of ls end) in *.
    assert (rest = [] ∨ ∃ r, rest = 46 :: r) as Hrest by (unfold rest; destruct ls; [by left|right; eauto]).
    assert (∃ c, load8 m s = Ok c ∧ c ≠ 0) as (c & E & Hc0).
    { destruct l as [|c l]; [cbn in Hlen; lia|]. apply cstr_cons in Hc as (E & Hc0 & _). exists c. split; [done|lia]. }
    rewrite E, bind_Ok. destruct (Z.eqb_spec c 0); [done|].
    destruct (Z.ltb_spec size 1); [lia|].
    assert (mapped m (d + 1) (length l)) as Hml by (intros i Hi; apply Hm; lia).
    rewrite length_app in Ha.
    rewrite (encode_label_ok l _ m s (d + 1) size rest Hc Hu Hrest), bind_Ok;
      [|pose proof (cstr_length _ _ _ Hc) as H'; rewrite length_app in H'; lia|lia|done|unfold CString.apart in *; rewrite length_app; lia].
    assert (cstr (put_bytes m (d + 1) l) s (l ++ rest)) as Hc2.
    { apply cstr_frame; [done|]. unfold CString.apart in *. rewrite length_app. lia. }
    rewrite (cstr_at _ _ _ _ Hc2), bind_Ok.
    assert (d + 1 + length l - d = length l + 1) as -> by lia.
    assert ((negb (match rest with [] => 0 | c :: _ => c end =? 0) && negb (match rest with [] => 0 | c :: _ => c end =? 46)) = false)
      as -> by by destruct Hrest as [->|[r ->]].
    destruct (Z.ltb_spec 0x40 (length l + 1)); [lia|]. cbn [orb].
    destruct (Z.eqb_spec (length l + 1) 1); [lia|]. rewrite andb_false_r.
    assert (is_Some (put_bytes m (d + 1) l !! d)) as Hd0.
    { apply (put_bytes_mapped m (d + 1) l d 1); [intros i Hi; apply Hm; lia|lia]. }
    rewrite store8_u8, bind_Ok by (done || word_lia).
    rewrite put_before. replace (length l + 1 - 1) with (Z.of_nat (length l)) by lia.
    assert (cstr (put_bytes m d (Z.of_nat (length l) :: l)) s (l ++ rest)) as Hc3.
    { apply cstr_frame; [done|]. change (length (Z.of_nat (length l) :: l)) with (S (length l)).
      unfold CString.apart in *. rewrite length_app. lia. }
    set (m1 := put_bytes m d (Z.of_nat (length l) :: l)) in *.
    set (s' := if match rest with [] => 0 | c :: _ => c end =? 0 then s + length l else s + length l + 1).
    assert (cstr m1 s' (name_of ls) ∧ s ≤ s' ∧ s' + length (name_of ls) ≤ s + (length l + length rest)%nat) as (Hcs & Hs1 & Hs2).
    { unfold s', rest in *. destruct ls as [|l' ls].
      - cbn [Z.eqb]. split; [|cbn; lia]. rewrite app_nil_r in Hc3. split; [|by apply Forall_nil_2].
        destruct Hc3 as [Hb _]. by apply bytes_at_app in Hb as [_ Hb].
      - change (46 =? 0) with false. cbv iota. split; [by apply cstr_mid in Hc3|]. cbn [length]. lia. }
    rewrite (IH fuel); [|done|done|lia|lia| |].
    + unfold m1. rewrite put_bytes_snoc by (cbn; lia). tuple_lia.
    + apply put_bytes_mapped. intros i Hi. apply Hm. lia.
    + unfold CString.apart in *. lia.
Qed.

(** *** Decoding *)

Lemma load8_at m a b : m !! a = Some b → load8 m a = Ok b.
Proof. unfold load8. by intros ->. Qed.

(** At [s] the frame has a name with the labels [ls]; [k] bytes of it lie there,
    the rest where a pointer leads. *)
Inductive dns_name (m : mem) (frame fsize : Z) : Z → list (list Z) → Z → Prop :=
| dns_end s : s < frame + fsize → m !! s = Some 0 → dns_name m frame fsize s [] 1
| dns_label s l ls k :
    s + 1 + length l ≤ frame + fsize → wire_label_ok l → bytes_at m s (Z.of_nat (length l) :: l) →
    dns_name m frame fsize (s + 1 + length l) ls k → dns_name m frame fsize s (l :: ls) (1 + length l + k)
| dns_pointer s c0 c1 ls k :
    s + 2 ≤ frame + fsize → 0xc0 ≤ c0 < 256 → is_u8 c1 → bytes_at m s [c0; c1] →
    dns_name m frame fsize (frame + (256 * (c0 - 0xc0) + c1)) ls k → dns_name m frame fsize s ls 2.

Lemma pointer_offset c0 c1 : 0xc0 ≤ c0 < 256 → is_u8 c1 →
  Z.lor (Z.shiftl (Z.land c0 0x3f) 8) c1 = 256 * (c0 - 0xc0) + c1.
Proof.
  intros H0 H1. rewrite lor_shiftl by (try change (2 ^ 8) with 256; word_lia).
  change 0x3f with 63. rewrite land_63. change (2 ^ 8) with 256. word_lia.
Qed.

Lemma copy_label_ok l : ∀ m d s,
  bytes_at m s l → Forall is_u8 l → mapped m d (length l) → CString.apart d (length l) s (length l) →
  copy_label m d s (length l) = Ok (put_bytes m d l).
Proof.
  induction l as [|c l IH]; intros m d s Hs Hu Hm Ha; [done|]. destruct Hs as [Hc Hs].
  apply Forall_cons_1 in Hu as [Hcu Hu]. apply mapped_cons in Hm as [Hm0 Hm]. cbn [copy_label length put_bytes] in *.
  unfold load8. rewrite Hc, bind_Ok, store8_u8, bind_Ok by done.
  apply IH; [|done|by apply mapped_insert|unfold CString.apart in *; lia].
  change (<[d := c]> m) with (put_bytes m d [c]). apply put_bytes_bytes_at_other; [|done].
  unfold CString.apart in *. cbn. lia.
Qed.

(** The last dot becomes the end of the string. *)
Lemma store_last m p acc c v :
  is_u8 v → mapped m p (length acc + 1) →
  store8 (put_bytes m p (acc ++ [c])) (p + length acc) v = Ok (put_bytes m p (acc ++ [v])).
Proof.
  intros Hv Hm. rewrite store8_u8; [|apply (put_bytes_mapped _ _ _ _ _ Hm); lia|done]. f_equal.
  rewrite !put_bytes_app. cbn [put_bytes]. by rewrite insert_insert_eq.
Qed.

Section decode.
Context (m : mem) (frame fsize ds dsize : Z).
Context (Hd : 0 ≤ dsize < 4294967296) (Hm : mapped m ds (Z.to_nat dsize)).
Context (Hapart : CString.apart frame fsize ds dsize).

Lemma frame_bytes acc s l :
  bytes_at m s l → frame ≤ s → s + length l ≤ frame + fsize → length acc ≤ dsize →
  bytes_at (put_bytes m ds acc) s l.
Proof.
  intros H Hs Hl Ha. apply put_bytes_bytes_at_other; [|done]. unfold CString.apart in Hapart. lia.
Qed.

Lemma decode_ok s ls k : dns_name m frame fsize s ls k → frame ≤ s →
  ∃ need, ∀ fuel acc b used, (need ≤ fuel)%nat → (acc = [] ∨ ∃ a, acc = a ++ [46]) →
    length (acc ++ dots ls) + 1 ≤ dsize →
    decode_loop fuel (put_bytes m ds acc) frame (frame + fsize) ds (ds + dsize) s (ds + length acc) b used =
    Ok (put_bytes m ds (match acc ++ dots ls with [] => [0] | x => removelast x ++ [0] end),
        if used : bool then b else b + k).
Proof.
  induction 1 as [s Hs H0|s l ls k Hs [Hl Hu] Hb H IH|s c0 c1 ls k Hs Hc0 Hc1 Hb H IH]; intros Hframe.
  - exists 1%nat. intros [|fuel] acc b used Hf Hacc Hroom; [lia|]. unfold dots in *. cbn [fmap list_fmap concat] in *.
    rewrite app_nil_r in *. cbn [decode_loop]. destruct (Z.ltb_spec s (frame + fsize)); [|lia].
    destruct (Z.eqb_spec (frame + fsize - s) 0); [lia|].
    assert (bytes_at (put_bytes m ds acc) s [0]) as [E _] by (apply frame_bytes; [by split|done|cbn; lia|lia]).
    rewrite (load8_at _ _ _ E), bind_Ok. cbn [Z.ltb Z.compare].
    destruct (Z.ltb_spec (frame + fsize - s - 1) 0); [lia|].
    rewrite u32_small by word_lia. destruct (Z.ltb_spec (ds + dsize - (ds + length acc)) (0 + 1)); [lia|]. cbn [orb Z.eqb].
    destruct Hacc as [->|[a ->]].
    + replace (ds + length (@nil Z) - ds) with 0 by (cbn; lia).
      cbn [Z.eqb negb length put_bytes]. rewrite Z.add_0_r, store8_u8, bind_Ok; [done|apply Hm; lia|word_lia].
    + rewrite length_app in *. cbn [length] in *.
      destruct (Z.eqb_spec (ds + (length a + 1)%nat - ds) 0); [lia|]. cbn [negb].
      replace (ds + (length a + 1)%nat - 1) with (ds + length a) by lia.
      rewrite store_last, bind_Ok by (first [word_lia|intros i Hi; apply Hm; lia]).
      assert (∀ x : list Z, match x ++ [46] with [] => [0] | y => removelast y ++ [0] end = x ++ [0]) as ->; [|done].
      intros x. destruct (x ++ [46]) eqn:Ex; [by destruct x|]. rewrite <- Ex. by rewrite removelast_last.
  - destruct (IH ltac:(lia)) as [need Hneed]. exists (S need).
    intros [|fuel] acc b used Hf Hacc Hroom; [lia|]. cbn [decode_loop].
    destruct (Z.ltb_spec s (frame + fsize)); [|lia]. destruct (Z.eqb_spec (frame + fsize - s) 0); [lia|].
    assert (bytes_at (put_bytes m ds acc) s (Z.of_nat (length l) :: l)) as [E El].
    { apply frame_bytes; [done|done|cbn; lia|]. rewrite length_app in Hroom. lia. }
    rewrite (load8_at _ _ _ E), bind_Ok. destruct (Z.ltb_spec (length l) 0x40); [|lia].
    unfold dots in Hroom. cbn [fmap list_fmap concat] in Hroom. fold (dots ls) in Hroom. rewrite !length_app in Hroom.
    cbn [length] in Hroom.
    destruct (Z.ltb_spec (frame + fsize - s - 1) (length l)); [lia|].
    rewrite u32_small by word_lia. destruct (Z.ltb_spec (ds + dsize - (ds + length acc)) (length l + 1)); [lia|]. cbn [orb].
    destruct (Z.eqb_spec (length l) 0); [lia|]. rewrite Nat2Z.id.
    rewrite copy_label_ok; [|done|done|apply put_bytes_mapped; intros i Hi; apply Hm; lia|unfold CString.apart in *; lia].
    rewrite bind_Ok, put_bytes_snoc by done.
    assert (is_Some (put_bytes m ds (acc ++ l) !! (ds + length acc + length l))) as Hdot.
    { apply (put_bytes_mapped m ds (acc ++ l) (ds + length acc + length l) 1); [intros i Hi; apply Hm; lia|lia]. }
    rewrite store8_u8, bind_Ok by (done || word_lia).
    change (<[ds + length acc + length l := 46]> (put_bytes m ds (acc ++ l))) with
      (put_bytes (put_bytes m ds (acc ++ l)) (ds + length acc + length l) [46]).
    rewrite put_bytes_snoc by (rewrite length_app; lia).
    replace (ds + length acc + length l + 1) with (ds + length ((acc ++ l) ++ [46])) by (rewrite !length_app; cbn; lia).
    replace (s + 1 + length l) with (s + 1 + length l) by done.
    rewrite Hneed; [|lia|right; by exists (acc ++ l)|rewrite !length_app; cbn; lia].
    assert (((acc ++ l) ++ [46]) ++ dots ls = acc ++ dots (l :: ls)) as ->.
    { unfold dots. cbn. by rewrite <- !app_assoc. }
    f_equal. f_equal. destruct used; lia.
  - destruct (IH ltac:(word_lia)) as [need Hneed]. exists (S need).
    intros [|fuel] acc b used Hf Hacc Hroom; [lia|]. cbn [decode_loop].
    destruct (Z.ltb_spec s (frame + fsize)); [|lia]. destruct (Z.eqb_spec (frame + fsize - s) 0); [lia|].
    assert (bytes_at (put_bytes m ds acc) s [c0; c1]) as (E0 & E1 & _).
    { apply frame_bytes; [done|done|cbn; lia|]. rewrite length_app in Hroom. lia. }
    rewrite (load8_at _ _ _ E0), bind_Ok. destruct (Z.ltb_spec c0 0x40); [lia|].
    destruct (Z.leb_spec 2 (frame + fsize - s)); [|lia]. destruct (Z.leb_spec 0xc0 c0); [|lia]. cbn [andb].
    rewrite (load8_at _ _ _ E1), bind_Ok, pointer_offset by done.
    rewrite Hneed by (done || lia). done.
Qed.
End decode.

Lemma wire_name m frame fsize ls : ∀ s,
  bytes_at m s (wire ls) → Forall wire_label_ok ls → s + length (wire ls) ≤ frame + fsize →
  dns_name m frame fsize s ls (length (wire ls)).
Proof.
  induction ls as [|l ls IH]; intros s Hb Hl Hs.
  - apply dns_end; [cbn in Hs; lia|apply Hb].
  - apply Forall_cons_1 in Hl as [Hl0 Hl]. rewrite wire_cons in *. rewrite length_app in *.
    apply bytes_at_app in Hb as [Hb0 Hb]. cbn [length] in *.
    replace (Z.of_nat (S (length l) + length (wire ls))) with (1 + length l + length (wire ls)) by lia.
    apply dns_label; [lia|done|done|]. apply IH; [|done|lia].
    by replace (s + 1 + length l) with (s + S (length l)) by lia.
Qed.

Lemma removelast_dots ls : match dots ls with [] => [0] | x => removelast x ++ [0] end = name_of ls ++ [0].
Proof.
  destruct ls as [|l ls]; [done|]. rewrite dots_name by done.
  destruct (name_of (l :: ls) ++ [46]) eqn:E; [by destruct (name_of (l :: ls))|]. by rewrite <- E, removelast_last.
Qed.

Lemma length_dots ls : (length (dots ls) ≤ length (name_of ls) + 1)%nat.
Proof. destruct ls as [|l ls]; [cbn; lia|]. rewrite dots_name by done. rewrite length_app. cbn. lia. Qed.

(** A decoded name. *)
Lemma decode_name_ok m src frame fsize dst dsize ls k :
  dns_name m frame fsize src ls k → frame ≤ src → 0 ≤ dsize < 4294967296 → mapped m dst (Z.to_nat dsize) →
  CString.apart frame fsize dst dsize → length (name_of ls) + 2 ≤ dsize →
  ∃ need, ∀ fuel, (need ≤ fuel)%nat →
    MDNSFrame_DecodeName fuel m src frame fsize dst dsize = Ok (put_bytes m dst (name_of ls ++ [0]), k).
Proof.
  intros H Hs Hd Hm Ha Hroom. destruct (decode_ok m frame fsize dst dsize Hd Hm Ha src ls k H Hs) as [need Hneed].
  exists need. intros fuel Hf. unfold MDNSFrame_DecodeName.
  replace (src - (src - frame)) with frame by lia. replace (src + fsize - (src - frame)) with (frame + fsize) by lia.
  pose proof (Hneed fuel [] 0 false Hf (or_introl eq_refl)) as E. cbn [app length put_bytes] in E.
  rewrite !Z.add_0_r in E. pose proof (length_dots ls). rewrite E by lia. by rewrite removelast_dots.
Qed.

Lemma name_chars ls : Forall label_ok ls → Forall (λ c, 0 < c < 256) (name_of ls).
Proof.
  induction 1 as [|l ls [_ Hl] _ IH]; [by apply Forall_nil_2|]. rewrite name_of_cons.
  apply Forall_app_2; [eapply Forall_impl; [exact Hl|]; cbv beta; lia|].
  destruct ls; [by apply Forall_nil_2|]. by apply Forall_cons_2.
Qed.

(** *** Safety *)

(** A pointer in the frame, and a label. *)
Definition points (m : mem) (frame fsize s t : Z) : Prop :=
  frame ≤ s ∧ s + 2 ≤ frame + fsize ∧
  ∃ c0 c1, load8 m s = Ok c0 ∧ 0xc0 ≤ c0 ∧ load8 m (s + 1) = Ok c1 ∧ t = frame + (256 * (c0 - 0xc0) + c1).
Definition labels (m : mem) (frame fsize s t : Z) : Prop :=
  frame ≤ s < frame + fsize ∧ ∃ c, load8 m s = Ok c ∧ 0 < c < 0x40 ∧ t = s + 1 + c.
Definition leads_to (m : mem) (frame fsize s t : Z) : Prop := points m frame fsize s t ∨ labels m frame fsize s t.

(** Decoding visits each place at most once for every byte of the destination. *)
Definition enough (fsize dsize : Z) : nat := (Z.to_nat dsize + 1) * (Z.to_nat fsize + 2).

Section safe.
Context (m0 : mem) (frame fsize ds dsize : Z).
Context (Hd : 0 ≤ dsize < 4294967296) (Hm : mapped m0 ds (Z.to_nat dsize)).
Context (Hframe : octets m0 frame (Z.to_nat fsize)) (Hapart : CString.apart frame fsize ds dsize).

(** [m] is [m0] but for the destination. *)
Definition elsewhere (m : mem) : Prop := ∃ l, length l ≤ dsize ∧ m = put_bytes m0 ds l.

Lemma elsewhere_frame l i : length l ≤ dsize → frame ≤ i < frame + fsize →
  ∃ b, is_u8 b ∧ load8 (put_bytes m0 ds l) i = Ok b ∧ load8 m0 i = Ok b.
Proof.
  intros Hl Hi. destruct (octets_get m0 frame (Z.to_nat fsize) (Z.to_nat (i - frame)) Hframe) as (b & Hb & E); [lia|].
  exists b. replace (frame + Z.to_nat (i - frame)) with i in E by lia. split; [done|]. split; [|done]. rewrite <- E. unfold load8.
  by rewrite put_bytes_lookup_ne by (unfold CString.apart in Hapart; lia).
Qed.

Lemma copy_label_total (n : nat) : ∀ (l : list Z) s,
  length l + n ≤ dsize → frame ≤ s → s + n ≤ frame + fsize →
  ∃ l', length l' = (length l + n)%nat ∧ copy_label (put_bytes m0 ds l) (ds + length l) s n = Ok (put_bytes m0 ds l').
Proof.
  induction n as [|n IH]; intros l s Hl Hs Hn; [exists l; split; [lia|done]|]. cbn [copy_label].
  destruct (elsewhere_frame l s) as (c & Hc & E & _); [lia|lia|]. rewrite E, bind_Ok.
  rewrite store8_u8, bind_Ok; [|apply (put_bytes_mapped m0 ds l (ds + length l) 1); [intros i Hi; apply Hm; lia|lia]|done].
  destruct (IH (l ++ [c]) (s + 1)) as (l' & Hl' & E'); [rewrite length_app; cbn; lia|lia|lia|].
  exists l'. rewrite length_app in Hl'. cbn in Hl'. split; [lia|]. rewrite <- E'.
  rewrite length_app. cbn [length]. replace (ds + (length l + 1)%nat) with (ds + length l + 1) by lia.
  by rewrite <- (put_bytes_snoc _ _ l [c] (ds + length l)).
Qed.

Abbreviation decode n l s b used := (decode_loop n (put_bytes m0 ds l) frame (frame + fsize) ds (ds + dsize) s (ds + length l) b used).
Abbreviation pointer := (points m0 frame fsize).

(** A name ends, well or not: the destination has room for a NUL, or it is not written. *)
Lemma decode_ends l b : length l + 1 ≤ dsize →
  ∃ m', (if negb (ds + length l - ds =? 0) then store8 (put_bytes m0 ds l) (ds + length l - 1) 0 else store8 (put_bytes m0 ds l) (ds + length l) 0) = Ok m' ∧
    elsewhere m' ∧ (m ← Ok m'; Ok (m, b)) = Ok (m', b : Z).
Proof.
  intros Hl. destruct (Z.eqb_spec (ds + length l - ds) 0) as [Hz|Hz]; cbn [negb].
  - rewrite store8_u8; [|apply (put_bytes_mapped m0 ds l (ds + length l) 1); [intros i Hi; apply Hm; lia|lia]|word_lia].
    eexists. split; [done|]. split; [|done]. exists (l ++ [0]). rewrite length_app. cbn [length]. split; [lia|].
    by rewrite <- (put_bytes_snoc _ _ l [0] (ds + length l)).
  - destruct (exists_last (l := l)) as (a & x & ->); [by intros ->; cbn in Hz; lia|].
    rewrite length_app in *. cbn [length] in *. replace (ds + (length a + 1)%nat - 1) with (ds + length a) by lia.
    rewrite store_last by (first [word_lia|intros i Hi; apply Hm; lia]).
    eexists. split; [done|]. split; [|done]. exists (a ++ [0]). rewrite length_app. cbn. split; [lia|done].
Qed.

(** A label is copied with a dot behind it. *)
Lemma decode_label l s (c : Z) : 0 < c → length l + c + 1 ≤ dsize → frame ≤ s → s + 1 + c ≤ frame + fsize →
  ∃ l' m', Z.of_nat (length l') = length l + c + 1 ∧ copy_label (put_bytes m0 ds l) (ds + length l) (s + 1) (Z.to_nat c) = Ok m' ∧
    store8 m' (ds + length l + c) 46 = Ok (put_bytes m0 ds l').
Proof.
  intros Hc Hl Hs He. destruct (copy_label_total (Z.to_nat c) l (s + 1)) as (l' & Hl' & E'); [lia|lia|lia|].
  exists (l' ++ [46]), (put_bytes m0 ds l'). rewrite length_app. cbn [length]. split; [lia|]. split; [done|].
  replace (ds + length l + c) with (ds + length l') by lia.
  rewrite store8_u8; [|apply (put_bytes_mapped m0 ds l' (ds + length l') 1); [intros i Hi; apply Hm; lia|lia]|word_lia].
  by rewrite <- (put_bytes_snoc _ _ l' [46] (ds + length l')).
Qed.

(** A turn of the loop: it returns, follows a pointer or copies a label. *)
Lemma decode_step l s b used : length l ≤ dsize → frame ≤ s →
  (∃ m' r, elsewhere m' ∧ ∀ fuel, decode (S fuel) l s b used = Ok (m', r)) ∨
  (∃ t b', pointer s t ∧ ∀ fuel, decode (S fuel) l s b used = decode fuel l t b' true) ∨
  (∃ t l' b', labels m0 frame fsize s t ∧ (length l < length l')%nat ∧ length l' ≤ dsize ∧
     ∀ fuel, decode (S fuel) l s b used = decode fuel l' t b' used).
Proof.
  intros Hl Hs. assert (Hkeep : elsewhere (put_bytes m0 ds l)) by by exists l. cbn [decode_loop].
  destruct (Z.ltb_spec s (frame + fsize)) as [Hin|Hout]; [|by left; do 2 eexists].
  destruct (Z.eqb_spec (frame + fsize - s) 0) as [?|_]; [lia|].
  destruct (elsewhere_frame l s) as (c & Hc & E & E0); [lia|lia|]. rewrite E. setoid_rewrite bind_Ok.
  destruct (Z.ltb_spec c 0x40) as [Hc4|Hc4].
  - destruct (Z.ltb_spec (frame + fsize - s - 1) c) as [|H1]; cbn [orb]; [by left; do 2 eexists|].
    rewrite u32_small by word_lia. destruct (Z.ltb_spec (ds + dsize - (ds + length l)) (c + 1)) as [|H2]; [by left; do 2 eexists|].
    destruct (Z.eqb_spec c 0) as [->|Hc0].
    + left. destruct (decode_ends l (if used then b else b + (0 + 1))) as (m' & -> & Hm' & E'); [lia|]. do 2 eexists. split; [done|]. by intros _.
    + right. right. destruct (decode_label l s c) as (l' & m' & Hl' & E1 & E2); [word_lia|lia|done|lia|]. rewrite E1. setoid_rewrite bind_Ok. rewrite E2.
      setoid_rewrite bind_Ok. replace (ds + length l + c + 1) with (ds + length l') by lia.
      exists (s + 1 + c), l'. eexists. split; [split; [lia|]; exists c; split_and!; done || word_lia|]. split; [word_lia|]. split; [word_lia|done].
  - destruct (Z.leb_spec 2 (frame + fsize - s)) as [H2|H2]; cbn [andb]; [|by left; do 2 eexists].
    destruct (Z.leb_spec 0xc0 c) as [H3|H3]; [|by left; do 2 eexists].
    destruct (elsewhere_frame l (s + 1)) as (c1 & Hc1 & E1 & E10); [lia|lia|]. rewrite E1. setoid_rewrite bind_Ok.
    rewrite pointer_offset by (done || word_lia). right. left. eexists _, _. split; [|done].
    split; [done|]. split; [lia|]. by exists c, c1.
Qed.

Lemma pointer_step l s t b used : length l ≤ dsize → pointer s t → ∃ b', ∀ fuel, decode (S fuel) l s b used = decode fuel l t b' true.
Proof.
  intros Hl (Hs & He & c0 & c1 & E0 & Hc0 & E1 & ->). destruct (elsewhere_frame l s) as (x & Hx & F & F0); [lia|lia|].
  destruct (elsewhere_frame l (s + 1)) as (y & Hy & F1 & F10); [lia|lia|]. assert (x = c0) as -> by congruence. assert (y = c1) as -> by congruence.
  cbn [decode_loop]. destruct (Z.ltb_spec s (frame + fsize)); [|lia]. destruct (Z.eqb_spec (frame + fsize - s) 0); [lia|].
  rewrite F. setoid_rewrite bind_Ok. destruct (Z.ltb_spec c0 0x40); [lia|]. destruct (Z.leb_spec 2 (frame + fsize - s)); [|lia].
  destruct (Z.leb_spec 0xc0 c0); [|lia]. cbn [andb]. rewrite F1. setoid_rewrite bind_Ok. rewrite pointer_offset by (done || word_lia). by eexists.
Qed.

#[local] Instance pointer_dec s : Decision (∃ t, pointer s t).
Proof.
  destruct (decide (frame ≤ s ∧ s + 2 ≤ frame + fsize)) as [[Hs He]|H]; [|right; intros (t & ? & ? & _); lia].
  destruct (load8 m0 s) as [c0|] eqn:E0; [|right; intros (t & _ & _ & c0 & c1 & E & _); congruence].
  destruct (load8 m0 (s + 1)) as [c1|] eqn:E1; [|right; intros (t & _ & _ & c0' & c1 & _ & _ & E & _); congruence].
  destruct (decide (0xc0 ≤ c0)) as [Hc|Hc].
  - left. eexists. split; [done|]. split; [done|]. by exists c0, c1.
  - right. intros (t & _ & _ & c & c1' & E & Hc' & _). rewrite E0 in E. injection E as <-. done.
Defined.

Lemma pointer_in s t : pointer s t → frame ≤ t.
Proof.
  intros (Hs & He & c0 & c1 & E0 & Hc0 & E1 & ->). destruct (elsewhere_frame [] (s + 1)) as (y & Hy & _ & F); [cbn; lia|lia|].
  assert (y = c1) as -> by congruence. word_lia.
Qed.

(** *** Circles *)

Definition circle (s : Z) : Prop := ∃ u, rtc pointer s u ∧ tc pointer u u.

Lemma circle_goes_on s : circle s → ∃ t, pointer s t ∧ circle t.
Proof.
  intros (u & Hr & Hc). destruct Hr as [u|s t u Hst Htu]; [|exists t; split; [done|]; by exists u].
  assert (∃ t, pointer u t ∧ rtc pointer t u) as (t & Hut & Htu).
  { inversion Hc as [? ? H|? t ? H H']; subst; [by exists u|]. exists t. split; [done|by apply tc_rtc]. }
  exists t. split; [done|]. by exists u.
Qed.

Lemma circle_hangs fuel : ∀ l s b used, length l ≤ dsize → circle s → decode fuel l s b used = Fault OutOfFuel.
Proof.
  induction fuel as [|fuel IH]; intros l s b used Hl Hs; [done|]. destruct (circle_goes_on s Hs) as (t & Hst & Ht).
  destruct (pointer_step l s t b used Hl Hst) as [b' E]. rewrite E. by apply IH.
Qed.

(** A chain of pointers that is longer than the frame comes back. *)
Lemma long_chain n : ∀ (seen : gset Z) s t, (∀ v, v ∈ seen → frame ≤ v < frame + fsize ∧ tc pointer v s) →
  nsteps pointer n s t → (Z.to_nat fsize < size seen + n)%nat → circle s.
Proof.
  induction n as [|n IH]; intros seen s t Hseen Hst Hn.
  - assert (seen ⊆ list_to_set (seqZ frame fsize)) as Hsub%subseteq_size.
    { intros v Hv. apply elem_of_list_to_set, elem_of_seqZ. by apply Hseen. }
    pose proof (size_list_to_set (C := gset Z) (seqZ frame fsize) (NoDup_seqZ _ _)) as E. rewrite length_seqZ in E. lia.
  - inversion Hst as [|n' ? s' ? Hs Hst']; subst. destruct (decide (s ∈ seen)) as [Hin|Hnew].
    { exists s. split; [done|]. by apply Hseen. }
    destruct (IH ({[s]} ∪ seen) s' t) as (u & Hu & Hc); [|done| |exists u; split; [by eapply rtc_l|done]].
    + intros v [->%elem_of_singleton|Hv]%elem_of_union.
      * split; [destruct Hs as (? & ? & _); lia|by apply tc_once].
      * destruct (Hseen v Hv). split; [done|]. by eapply tc_r.
    + rewrite size_union, size_singleton by (by apply disjoint_singleton_l). lia.
Qed.

(** Pointers lead to a circle, or in so many steps to something else. *)
Lemma pointers_end l s b used : length l ≤ dsize → frame ≤ s →
  circle s ∨ ∃ k t b' used', (k ≤ Z.to_nat fsize)%nat ∧ rtc pointer s t ∧ frame ≤ t ∧ (¬ ∃ u, pointer t u) ∧
    (∀ fuel, decode (k + fuel) l s b used = decode fuel l t b' used') ∧ ∀ j, (j ≤ k)%nat → decode j l s b used = Fault OutOfFuel.
Proof.
  intros Hl Hs.
  assert (Hn : ∀ n, (∃ t, nsteps pointer n s t ∧ frame ≤ t ∧ ∃ b' used', (∀ fuel, decode (n + fuel) l s b used = decode fuel l t b' used') ∧
      ∀ j, (j ≤ n)%nat → decode j l s b used = Fault OutOfFuel) ∨
    ∃ k t b' used', (k < n)%nat ∧ rtc pointer s t ∧ frame ≤ t ∧ (¬ ∃ u, pointer t u) ∧
      (∀ fuel, decode (k + fuel) l s b used = decode fuel l t b' used') ∧ ∀ j, (j ≤ k)%nat → decode j l s b used = Fault OutOfFuel).
  { induction n as [|n [(t & Hst & Ht & b' & used' & E & E0)|(k & t & b' & used' & Hk & H)]].
    - left. exists s. split; [constructor|]. split; [done|]. exists b, used. split; [done|]. by intros [|j] Hj; [|lia].
    - destruct (decide (∃ u, pointer t u)) as [(u & Hu)|Hno].
      + destruct (pointer_step l t u b' used' Hl Hu) as [b2 F]. left. exists u. split; [by eapply nsteps_r|].
        split; [by eapply pointer_in|]. exists b2, true. assert (∀ fuel, decode (S n + fuel) l s b used = decode fuel l u b2 true) as En.
        { intros fuel. by rewrite <- F, <- E, Nat.add_succ_r. }
        split; [exact En|]. intros j Hj. destruct (decide (j = S n)) as [->|]; [|apply E0; lia]. rewrite <- (Nat.add_0_r (S n)). apply En.
      + right. exists n, t, b', used'. split; [lia|]. split; [by eapply rtc_nsteps_2|done].
    - right. exists k, t, b', used'. split; [lia|done]. }
  destruct (Hn (S (Z.to_nat fsize))) as [(t & Hst & _)|(k & t & b' & used' & Hk & H)].
  - left. apply (long_chain (S (Z.to_nat fsize)) ∅ s t); [set_solver|done|]. rewrite size_empty. lia.
  - right. exists k, t, b', used'. split; [lia|done].
Qed.

Lemma le_exists (k n : nat) : (k ≤ n)%nat → ∃ j, n = (k + j)%nat.
Proof. intros H. exists (n - k)%nat. lia. Qed.

(** With every label the room shrinks, so that in the end the name is decoded,
    refused, or in a circle. *)
Lemma decode_total (room : nat) : ∀ l s b used, length l + Z.of_nat room = dsize → frame ≤ s →
  (∃ m' r, elsewhere m' ∧ ∀ fuel, ((room + 1) * (Z.to_nat fsize + 2) ≤ fuel)%nat → decode fuel l s b used = Ok (m', r)) ∨
  (∃ t, rtc (leads_to m0 frame fsize) s t ∧ tc pointer t t) ∧ ∀ fuel, decode fuel l s b used = Fault OutOfFuel.
Proof.
  induction (lt_wf room) as [room _ IH]. intros l s b used Hl Hs. set (F := Z.to_nat fsize) in *.
  destruct (pointers_end l s b used) as [Hc|(k & t & b' & used' & Hk & Hst & Ht & Hno & E & E0)]; [lia|done| |].
  { right. split; [|intros fuel; apply circle_hangs; [lia|done]]. destruct Hc as (u & Hu & Hc). exists u. split; [|done].
    eapply rtc_subrel; [|exact Hu]. by left. }
  assert (rtc (leads_to m0 frame fsize) s t) as Hst' by (eapply rtc_subrel; [|exact Hst]; by left).
  destruct (decode_step l t b' used') as [(m' & r & Hm' & G)|[(u & b2 & Hu & _)|(u & l' & b2 & Hu & Hlt & Hle & G)]]; [lia|done| | |].
  - left. exists m', r. split; [done|]. intros fuel Hf. destruct (le_exists k fuel) as [[|j] ->]; [nia|lia|]. by rewrite E, G.
  - destruct Hno. by exists u.
  - destruct (IH (Z.to_nat (dsize - length l')) ltac:(lia) l' u b2 used') as [(m' & r & Hm' & E2)|[(v & Huv & Hv) E2]]; [lia| | |].
    + destruct Hu as (? & c & _ & ? & ->). lia.
    + left. exists m', r. split; [done|]. intros fuel Hf. destruct (le_exists k fuel) as [[|j] ->]; [nia|nia|]. rewrite E, G. apply E2. nia.
    + right. split.
      * exists v. split; [|done]. transitivity t; [exact Hst'|]. eapply rtc_l; [by right|done].
      * intros fuel. destruct (decide (fuel ≤ k)%nat) as [Hf|Hf]; [by apply E0|]. destruct (le_exists k fuel) as [[|j] ->]; [lia|lia|]. by rewrite E, G.
Qed.
End safe.

(** A pointer to itself is followed for ever. *)
Lemma decode_cycle m frame se ds de s c0 c1 :
  s + 2 ≤ se → 0xc0 ≤ c0 < 256 → is_u8 c1 → bytes_at m s [c0; c1] → frame + (256 * (c0 - 0xc0) + c1) = s →
  ∀ fuel d b used, decode_loop fuel m frame se ds de s d b used = Fault OutOfFuel.
Proof.
  intros Hs Hc0 Hc1 (E0 & E1 & _) Hp fuel. induction fuel as [|fuel IH]; intros d b used; [done|].
  cbn [decode_loop]. destruct (Z.ltb_spec s se); [|lia]. destruct (Z.eqb_spec (se - s) 0); [lia|].
  rewrite (load8_at _ _ _ E0), bind_Ok. destruct (Z.ltb_spec c0 0x40); [lia|].
  destruct (Z.leb_spec 2 (se - s)); [|lia]. destruct (Z.leb_spec 0xc0 c0); [|lia]. cbn [andb].
  rewrite (load8_at _ _ _ E1), bind_Ok, pointer_offset, Hp by done. apply IH.
Qed.

(** ** Answers *)

(** The answer to a question for the address, and the header in front of it. *)
Definition answer (ls : list (list Z)) (ip : Z) : list Z :=
  wire ls ++ be16 MDNS_RECORD_TYPE_A ++ be16 MDNS_RECORD_CLASS_IA ++ be32 60 ++ be16 4 ++ be32 ip.
Definition response_header (id : Z) : list Z :=
  be16 (u16 id) ++ be16 0x8000 ++ be16 0 ++ be16 1 ++ be16 0 ++ be16 0.

Lemma length_answer ls ip : length (answer ls ip) = (length (wire ls) + 14)%nat.
Proof. unfold answer. rewrite !length_app. cbn. lia. Qed.

Lemma store16_snoc m p l a v : a = p + length l → mapped m a 2 →
  store16 (put_bytes m p l) a (HTOBE16 v) = Ok (put_bytes m p (l ++ be16 v)).
Proof. intros -> H. rewrite store16_be by (by apply put_bytes_mapped). by rewrite put_bytes_snoc. Qed.
Lemma store32_snoc m p l a v : a = p + length l → mapped m a 4 →
  store32 (put_bytes m p l) a (HTOBE32 v) = Ok (put_bytes m p (l ++ be32 v)).
Proof. intros -> H. rewrite store32_be by (by apply put_bytes_mapped). by rewrite put_bytes_snoc. Qed.

Lemma wire_length ls : length (wire ls) = (chars ls + length ls + 1)%nat.
Proof.
  unfold chars. induction ls as [|l ls IH]; [done|]. rewrite wire_cons, length_app, IH. cbn. rewrite length_app. lia.
Qed.

Lemma render_answer_ok m my_ip p size ls a :
  cstr m a (name_of ls) → Forall label_ok ls → length (wire ls) + 14 ≤ size → size < 4294967296 →
  mapped m p (length (wire ls) + 14) → CString.apart a (length (name_of ls) + 1) p (length (wire ls) + 14) →
  MDNSSrv_RenderAnswerA m my_ip p size (mk_mdns_record MDNS_RECORD_TYPE_A 0 a) =
  Ok (put_bytes m p (answer ls my_ip), p + length (answer ls my_ip)).
Proof.
  intros Hc Hl Hs Hs2 Hm Ha. pose proof (wire_length ls) as Hw. set (w := length (wire ls)) in *.
  assert (Hin : ∀ (k j : nat), (k + j ≤ w + 14)%nat → mapped m (p + k) j) by (intros k j Hk i Hi; apply Hm; lia).
  unfold MDNSSrv_RenderAnswerA, MDNSFrame_EncodeName. cbn [mr_name mr_ip].
  rewrite (encode_name_ok ls), bind_Ok.
  - fold w. replace (p + w - p) with (Z.of_nat w) by lia. destruct (Z.ltb_spec w EOK) as [H|H]; [unfold EOK in H; lia|].
    unfold sizeof_answer, sizeof_rdata_a. rewrite u32_small by word_lia.
    destruct (Z.ltb_spec size (w + 10 + 4)); [lia|].
    unfold MDNSFrameAnswer_SetType, MDNSFrameAnswer_SetClass, MDNSFrameAnswer_SetTTL, MDNSFrameAnswer_SetRDLength,
      MDNSFrameRDataA_SetIP. change (TCPIPIpAddr_AddressMatch 0 0) with true. cbv iota.
    rewrite store16_snoc, bind_Ok by (first [fold w; lia|rewrite Z.add_0_r; apply (Hin w); lia]).
    rewrite store16_snoc, bind_Ok by (first [rewrite length_app; fold w; cbn; lia
      |replace (p + w + 2) with (p + (w + 2)%nat) by lia; apply Hin; lia]).
    rewrite store32_snoc, bind_Ok by (first [rewrite !length_app; fold w; cbn; lia
      |replace (p + w + 4) with (p + (w + 4)%nat) by lia; apply Hin; lia]).
    rewrite store16_snoc, bind_Ok by (first [rewrite !length_app; fold w; cbn; lia
      |replace (p + w + 8) with (p + (w + 8)%nat) by lia; apply Hin; lia]).
    rewrite store32_snoc, bind_Ok by (first [rewrite !length_app; fold w; cbn; lia
      |replace (p + w + 10 + 0) with (p + (w + 10)%nat) by lia; apply Hin; lia]).
    rewrite length_answer. fold w. unfold answer. rewrite <- !app_assoc. tuple_lia.
  - done.
  - done.
  - enough (length ls ≤ length (name_of ls))%nat by (pose proof (cstr_length _ _ _ Hc); lia).
    clear - Hl. induction Hl as [|l ls [Hl _] _ IH]; [done|]. rewrite name_of_cons, length_app. destruct ls; cbn in *; lia.
  - lia.
  - apply (mapped_le _ _ (w + 14)); [lia|done].
  - unfold CString.apart in *. lia.
Qed.

(** Four ranges that do not meet: the frame, the device name and two arrays. *)
Section question.
Context (m : mem) (name qname rsps frame fsize : Z) (ls : list (list Z)).
Context (Hname : cstr m name (name_of ls)) (Hls : Forall label_ok ls) (Hroom : (length (name_of ls) + 2 ≤ 255)%nat).
Context (Hq : mapped m qname 256) (Hr : mapped m rsps 256) (Hfit : (length (wire ls) + 14 ≤ 256)%nat).
Context (Hfq : CString.apart frame fsize qname 256) (Hnq : CString.apart name (length (name_of ls) + 1) qname 256).
Context (Hnr : CString.apart name (length (name_of ls) + 1) rsps 256).
Context (Hrsps : 0 < rsps).

Lemma question_ok k my_ip :
  dns_name m frame fsize (frame + 12) ls k → 0 < k → 12 + k + 4 ≤ fsize →
  bytes_at m (frame + 12 + k) (be16 MDNS_RECORD_TYPE_A ++ be16 MDNS_RECORD_CLASS_IA) →
  ∃ need, ∀ fuel, (need ≤ fuel)%nat →
    MDNSSrv_ProcessQuestion fuel name qname m my_ip (frame + 12) frame fsize rsps 256 =
    Ok (put_bytes (put_bytes m qname (name_of ls ++ [0])) rsps (answer ls my_ip),
        (frame + 12 + k + 4, rsps + length (answer ls my_ip), 1)).
Proof.
  intros Hdns Hk Hfs Hfields.
  assert (mapped m qname (Z.to_nat 255)) as Hq255 by (apply (mapped_le _ _ 256); [lia|done]).
  destruct (decode_name_ok m (frame + 12) frame fsize qname 255 ls k Hdns) as [need Hneed];
    [lia|lia|done|unfold CString.apart in *; lia|lia|].
  exists need. intros fuel Hf. unfold MDNSSrv_ProcessQuestion. change (256 - 1) with 255. rewrite Hneed, bind_Ok by done.
  set (m1 := put_bytes m qname (name_of ls ++ [0])).
  destruct (Z.ltb_spec k EOK) as [H|H]; [unfold EOK in H; lia|].
  assert (length (name_of ls ++ [0%Z]) = length (name_of ls) + 1)%nat as Hl0 by (rewrite length_app; cbn; lia).
  assert (bytes_at m1 (frame + 12 + k) (be16 MDNS_RECORD_TYPE_A ++ be16 MDNS_RECORD_CLASS_IA)) as Hf1.
  { apply put_bytes_bytes_at_other; [|done]. rewrite Hl0. unfold CString.apart in *. cbn. lia. }
  apply bytes_at_app in Hf1 as [Ht Hc]. cbn [length be16] in Hc. change (Z.of_nat 2) with 2 in Hc.
  unfold MDNSFrameQuestion_GetClass, MDNSFrameQuestion_GetType, get16. rewrite (Z.add_0_r (frame + 12 + k)).
  rewrite (load16_be _ _ _ Hc), bind_Ok, bind_Ok, u16_be by (vm_compute; split; congruence).
  change (negb (MDNS_RECORD_CLASS_IA =? MDNS_RECORD_CLASS_IA)) with false. cbv iota.
  rewrite (load16_be _ _ _ Ht), bind_Ok, bind_Ok, u16_be by (vm_compute; split; congruence).
  assert (cstr m1 name (name_of ls)) as Hn1.
  { apply cstr_frame; [done|]. rewrite Hl0. unfold CString.apart in *. lia. }
  assert (cstr m1 qname (name_of ls)) as Hq1 by (split; [apply put_bytes_bytes_at|by apply name_chars]).
  unfold MDNSSrv_FindRecord, records, find_mdns_record. cbn [mr_type mr_name].
  change (negb (MDNS_RECORD_TYPE_A =? MDNS_RECORD_TYPE_A)) with false. cbv iota.
  unfold strcmp. rewrite (strcmp_loop_ok (name_of ls) _ _ _ _ _ Hq1 Hn1) by (pose proof (cstr_length _ _ _ Hq1); lia).
  rewrite bind_Ok. assert (str_diff (name_of ls) (name_of ls) = 0) as ->.
  { apply str_diff_zero; [..|done]; (eapply Forall_impl; [by apply name_chars|]; cbv beta; lia). }
  cbn [Z.eqb]. rewrite bind_Ok. change (MDNS_RECORD_TYPE_A =? MDNS_RECORD_TYPE_A) with true. cbv iota.
  rewrite (render_answer_ok m1 my_ip rsps 256 ls name) by (first [done|lia
    |apply put_bytes_mapped, (mapped_le _ _ 256); [lia|done]|unfold CString.apart in *; lia]).
  rewrite bind_Ok. destruct (Z.eqb_spec (rsps + length (answer ls my_ip)) 0); [lia|]. done.
Qed.
End question.

Lemma answer_u8 ls ip : Forall label_ok ls → Forall is_u8 (answer ls ip).
Proof.
  intros H. unfold answer, wire. repeat apply Forall_app_2; try apply be16_u8; try apply be32_u8; [|by repeat constructor].
  apply Forall_concat, Forall_fmap. eapply Forall_impl; [exact H|]. intros l [Hl Hu]. cbn.
  apply Forall_cons_2; [word_lia|]. eapply Forall_impl; [exact Hu|]. cbv beta. word_lia.
Qed.

Lemma mdns_send_ok buf sock ip port id rsps bs n ws :
  mapped (n_mem n) buf 512 → bytes_at (n_mem n) rsps bs → Forall is_u8 bs → (length bs ≤ 256)%nat →
  CString.apart rsps (length bs) buf 512 →
  MDNSSrv_SendResponse buf sock ip port id 0 1 rsps (length bs) n ws =
  TCPIPUdpSock_SendTo sock ip port buf (12 + length bs)
    (set_mem (put_bytes (n_mem n) buf (response_header id ++ bs)) n) ws.
Proof.
  intros Hm Hb Hu Hl Ha. unfold MDNSSrv_SendResponse, sizeof_mdns. set (m := n_mem n) in *.
  destruct (Z.ltb_spec 512 (length bs + 12)); [lia|].
  assert (Hin : ∀ k j : nat, (k + j ≤ 512)%nat → mapped m (buf + k) j) by (intros k j Hk i Hi; apply Hm; lia).
  unfold MDNSFrame_SetTransactionID, MDNSFrame_SetFlags, MDNSFrame_SetQuestionsCount, MDNSFrame_SetAnswersCount,
    MDNSFrame_SetAuthorityRRCount, MDNSFrame_SetAdditionalRRCount.
  task_step ltac:(apply writes_Ok; apply (store16_snoc m buf []); [cbn; lia|rewrite Z.add_0_r; by apply (mapped_le _ _ 512); [lia|]]).
  task_step ltac:(apply writes_Ok; apply store16_snoc; [cbn; lia|apply (Hin 2%nat); lia]).
  task_step ltac:(apply writes_Ok; apply store16_snoc; [cbn; lia|apply (Hin 4%nat); lia]).
  task_step ltac:(apply writes_Ok; apply store16_snoc; [cbn; lia|apply (Hin 6%nat); lia]).
  task_step ltac:(apply writes_Ok; apply store16_snoc; [cbn; lia|apply (Hin 8%nat); lia]).
  task_step ltac:(apply writes_Ok; apply store16_snoc; [cbn; lia|apply (Hin 10%nat); lia]).
  match goal with |- context [put_bytes m buf (?l ++ be16 (u16 0))] => set (h := l ++ be16 (u16 0)) end.
  assert (length h = 12%nat) as Hh by done.
  task_step ltac:(apply writes_Ok; apply memcpy_ok; [|apply put_bytes_mapped, (Hin 12%nat); lia|exact Hu|unfold CString.apart in *; lia|lia];
    apply put_bytes_bytes_at_other; [rewrite Hh; unfold CString.apart in Ha; lia|exact Hb]).
  cbn [n_mem set_mem]. rewrite put_bytes_snoc by (rewrite Hh; lia).
  assert (h = response_header id) as -> by (unfold h, response_header; by rewrite <- !app_assoc). reflexivity.
Qed.

(** ** Properties *)

(** A name survives the wire.  A name of labels of 1 to 63 characters without
    dots is written as its labels, in as many bytes as the encoder says; a reader
    that meets them in a frame gets the name back and skips just those bytes.
    The encoder asks for the number of characters of the labels and one, although
    it writes the lengths of the labels as well. *)
Theorem mdns_name_roundtrip ls m name dst size frame fsize out osize :
  Forall label_ok ls → cstr m name (name_of ls) → chars ls + 1 ≤ size →
  mapped m dst (length (wire ls)) → CString.apart name (length (name_of ls) + 1) dst (length (wire ls)) →
  frame ≤ dst → dst + length (wire ls) ≤ frame + fsize →
  0 ≤ osize < 4294967296 → mapped m out (Z.to_nat osize) → CString.apart frame fsize out osize →
  length (name_of ls) + 2 ≤ osize →
  ∃ m1 need, MDNSFrame_EncodeName m name dst size = Ok (m1, Z.of_nat (length (wire ls))) ∧
    bytes_at m1 dst (wire ls) ∧ (∀ a, ¬ (dst ≤ a < dst + length (wire ls)) → m1 !! a = m !! a) ∧
    ∀ fuel, (need ≤ fuel)%nat → ∃ m2,
      MDNSFrame_DecodeName fuel m1 dst frame fsize out osize = Ok (m2, Z.of_nat (length (wire ls))) ∧
      cstr m2 out (name_of ls).
Proof.
  intros Hls Hc Hs Hm Ha Hf Hf2 Ho Hmo Hao Hroom.
  assert (bytes_at (put_bytes m dst (wire ls)) dst (wire ls)) as Hb by apply put_bytes_bytes_at.
  destruct (decode_name_ok (put_bytes m dst (wire ls)) dst frame fsize out osize ls (length (wire ls))) as [need Hneed];
    [|done|done|by apply put_bytes_mapped|done|done|].
  { apply wire_name; [done| |done]. eapply Forall_impl; [exact Hls|]. apply label_wire_ok. }
  exists (put_bytes m dst (wire ls)), need. split.
  - unfold MDNSFrame_EncodeName. rewrite (encode_name_ok ls) by (first [done|
      enough (length ls ≤ length (name_of ls))%nat by (pose proof (cstr_length _ _ _ Hc); lia);
      clear - Hls; induction Hls as [|l ls [Hl _] _ IH]; [done|]; rewrite name_of_cons, length_app; destruct ls; cbn in *; lia]).
    tuple_lia.
  - split; [done|]. split; [intros a Hna; by apply put_bytes_lookup_ne|]. intros fuel Hfu.
    exists (put_bytes (put_bytes m dst (wire ls)) out (name_of ls ++ [0])). split; [by apply Hneed|].
    split; [apply put_bytes_bytes_at|by apply name_chars].
Qed.

(** C39: Decoding reads none but the frame and writes none but the destination,
    whatever the frame holds.  Either it returns, after no more turns of the loop
    than [enough]; or the labels and pointers from the start of the name lead to a
    circle of nothing but pointers, and it never returns.  There is no other way
    for it to hang. *)
Theorem mdns_decode_safe m src frame fsize dst dsize :
  0 ≤ dsize < 4294967296 → mapped m dst (Z.to_nat dsize) → octets m frame (Z.to_nat fsize) →
  CString.apart frame fsize dst dsize → frame ≤ src →
  (∃ m' r, (∀ fuel, (enough fsize dsize ≤ fuel)%nat → MDNSFrame_DecodeName fuel m src frame fsize dst dsize = Ok (m', r)) ∧
     ∀ a, ¬ (dst ≤ a < dst + dsize) → m' !! a = m !! a) ∨
  (∃ s, rtc (leads_to m frame fsize) src s ∧ tc (points m frame fsize) s s) ∧
    ∀ fuel, MDNSFrame_DecodeName fuel m src frame fsize dst dsize = Fault OutOfFuel.
Proof.
  intros Hd Hm Hf Ha Hs. unfold MDNSFrame_DecodeName.
  replace (src - (src - frame)) with frame by lia. replace (src + fsize - (src - frame)) with (frame + fsize) by lia.
  destruct (decode_total m frame fsize dst dsize Hd Hm Hf Ha (Z.to_nat dsize) [] src 0 false) as [(m' & r & (l & Hl & ->) & E)|[Hc E]];
    [cbn; lia|done|left|right]; cbn [length put_bytes] in E; rewrite Z.add_0_r in E; [|done].
  exists (put_bytes m dst l), r. split; [exact E|]. intros a Hna. apply put_bytes_lookup_ne. lia.
Qed.

(** One packet of 14 bytes stops the device: a query whose name is a pointer to
    itself keeps the server in its loop for ever, and with it, as the loop does not
    yield, every other task. *)
Theorem mdns_query_hangs fuel name qname rsps buf sock ip port ptr n ws i0 i1 :
  is_u8 i0 → is_u8 i1 →
  bytes_at (n_mem n) ptr [i0; i1; 0; 0; 0; 1; 0; 0; 0; 0; 0; 0; 0xc0; 12] →
  MDNSSrv_Input fuel name qname rsps buf sock ip port ptr 14 n ws = Fault OutOfFuel.
Proof.
  intros H0 H1 Hb. unfold MDNSSrv_Input.
  assert (Hget : ∀ (k : nat) b0 b1, [i0; i1; 0; 0; 0; 1; 0; 0; 0; 0; 0; 0; 0xc0; 12] !! k = Some b0 →
    [i0; i1; 0; 0; 0; 1; 0; 0; 0; 0; 0; 0; 0xc0; 12] !! S k = Some b1 →
    get16 (n_mem n) (ptr + k) = Ok (BETOH16 (b0 + 256 * b1))).
  { intros k b0 b1 E0 E1. unfold get16. by rewrite (load16_bytes _ _ _ _ _ _ Hb E0 E1). }
  task_step ltac:(apply reads_Ok, (Hget 0%nat); reflexivity).
  task_step ltac:(apply reads_Ok, (Hget 2%nat); reflexivity).
  change (BETOH16 (0 + 256 * 0)) with 0.
  change (negb (Z.land 0 MDNS_FRAME_HDR_FLAGS_QR =? MDNS_FRAME_HDR_FLAGS_QR_QUERY)) with false.
  change (negb (Z.land 0 MDNS_FRAME_HDR_FLAGS_OPCODE =? MDNS_FRAME_HDR_FLAGS_OPCODE_STD_QUERY)) with false. cbv iota.
  task_step ltac:(apply reads_Ok, (Hget 4%nat); reflexivity).
  change (Z.to_nat (BETOH16 (0 + 256 * 1))) with 1%nat. task_step ltac:(reflexivity).
  unfold mbind, task_bind, updates. cbn [process_questions]. unfold MDNSSrv_ProcessQuestion, MDNSFrame_DecodeName.
  unfold sizeof_mdns. replace (ptr + 12 - (ptr + 12 - ptr)) with ptr by lia.
  rewrite (decode_cycle _ ptr _ _ _ (ptr + 12) 0xc0 12); [done|lia|lia|word_lia| |lia].
  apply (bytes_at_app _ _ [i0; i1; 0; 0; 0; 1; 0; 0; 0; 0; 0; 0] [0xc0; 12]) in Hb as [_ Hb]. exact Hb.
Qed.

(** C26: A query for the address of the device, its name spelt out or compressed, is
    answered by multicast with the device's name, class and address; the name and
    the answer in memory are the only other traces. *)
Theorem mdns_answers name qname rsps buf sock ip port ptr size ls id flags k n ws :
  let m := n_mem n in
  cstr m name (name_of ls) → Forall label_ok ls → (length (wire ls) + 14 ≤ 256)%nat → (length (name_of ls) + 2 ≤ 255)%nat →
  MDNSFrame_GetTransactionID m ptr = Ok id → MDNSFrame_GetFlags m ptr = Ok flags →
  Z.land flags MDNS_FRAME_HDR_FLAGS_QR = 0 → Z.land flags MDNS_FRAME_HDR_FLAGS_OPCODE = 0 →
  MDNSFrame_GetQuestionsCount m ptr = Ok 1 →
  dns_name m ptr size (ptr + 12) ls k → 0 < k → 12 + k + 4 ≤ size →
  bytes_at m (ptr + 12 + k) (be16 MDNS_RECORD_TYPE_A ++ be16 MDNS_RECORD_CLASS_IA) →
  0 < ptr → 0 < rsps → mapped m qname 256 → mapped m rsps 256 → mapped m buf 512 →
  CString.apart ptr size qname 256 → CString.apart name (length (name_of ls) + 1) qname 256 →
  CString.apart name (length (name_of ls) + 1) rsps 256 → CString.apart rsps 256 buf 512 →
  ∃ need, ∀ fuel, (need ≤ fuel)%nat →
    MDNSSrv_Input fuel name qname rsps buf sock ip port ptr size n ws =
    TCPIPUdpSock_SendTo sock MDNS_SRV_MCAST_IP port buf (12 + length (answer ls (TCPIPIpAddr_GetIP n)))
      (set_mem (put_bytes (put_bytes (put_bytes m qname (name_of ls ++ [0])) rsps (answer ls (TCPIPIpAddr_GetIP n)))
        buf (response_header id ++ answer ls (TCPIPIpAddr_GetIP n))) n) ws.
Proof.
  intros m Hname Hls Hfit Hroom Eid Eflags Hqr Hop Eq Hdns Hk Hs Hfields Hp0 Hr0 Hq Hr Hb Hfq Hnq Hnr Hrb.
  set (my_ip := TCPIPIpAddr_GetIP n).
  destruct (question_ok m name qname rsps ptr size ls Hname Hls Hroom Hq Hr Hfit Hfq Hnq Hnr Hr0 k my_ip Hdns Hk Hs Hfields)
    as [need Hneed].
  exists need. intros fuel Hf. unfold MDNSSrv_Input.
  task_step ltac:(apply reads_Ok; exact Eid). task_step ltac:(apply reads_Ok; exact Eflags). rewrite Hqr, Hop.
  change (negb (0 =? MDNS_FRAME_HDR_FLAGS_QR_QUERY)) with false.
  change (negb (0 =? MDNS_FRAME_HDR_FLAGS_OPCODE_STD_QUERY)) with false. cbv iota.
  task_step ltac:(apply reads_Ok; exact Eq). change (Z.to_nat 1) with 1%nat. task_step ltac:(reflexivity).
  fold my_ip. set (bs := answer ls my_ip) in *.
  assert (length bs = length (wire ls) + 14)%nat as Hl by apply length_answer.
  task_step ltac:(apply (updates_Ok _ _ _ (put_bytes (put_bytes m qname (name_of ls ++ [0])) rsps bs) (Some (rsps + length bs, 1)));
    cbn [process_questions]; rewrite Z.sub_diag, Z.sub_0_r, Hneed, bind_Ok by done;
    destruct (Z.eqb_spec (ptr + 12 + k + 4) 0); [lia|]; destruct (Z.eqb_spec (rsps + length bs) 0); [lia|]; reflexivity).
  cbn [Z.eqb Pos.eqb]. replace (rsps + length bs - rsps) with (Z.of_nat (length bs)) by lia.
  change MDNS_FRAME_HDR_FLAGS_RCODE_OK with 0.
  rewrite mdns_send_ok; [reflexivity|by do 2 apply put_bytes_mapped|apply put_bytes_bytes_at|by apply answer_u8|lia|].
  unfold CString.apart in *. lia.
Qed.

(** ** Applications *)

(** The device is called dev.local; the name is at 64, the frame at 1000, the
    arrays at 2000, 2300 and 2600, the buffer for sending at 3200. *)
Definition mdns_demo_labels : list (list Z) := [[100; 101; 118]; [108; 111; 99; 97; 108]].
Definition mdns_demo_mem (name bytes : list Z) : mem :=
  put_bytes (put_bytes (put_bytes ∅ 64 (name ++ [0])) 1000 bytes) 2000 (replicate 1600 0).
Definition mdns_demo_net (bytes : list Z) : net :=
  set_udp [mk_udp_sock MDNS_SRV_PORT None 0 0 0 0]
    (boot_net (mdns_demo_mem (name_of mdns_demo_labels) bytes) 0 3200 0 (mk_heap ∅ 0) 1).
Definition mdns_header (questions : Z) : list Z := [0; 7; 0; 0] ++ be16 questions ++ [0; 0; 0; 0; 0; 0].
Definition question (name : list Z) : list Z := name ++ be16 MDNS_RECORD_TYPE_A ++ be16 MDNS_RECORD_CLASS_IA.
Definition mdns_query : list Z := mdns_header 1 ++ question (wire mdns_demo_labels).

Lemma mdns_demo_labels_ok : Forall label_ok mdns_demo_labels.
Proof. repeat constructor; cbn; lia. Qed.

Lemma mdns_demo_zeros name bytes (k n : nat) : (k + n ≤ 1600)%nat → mapped (mdns_demo_mem name bytes) (2000 + k) n.
Proof. unfold mdns_demo_mem. apply (filled_mapped _ 2000 0 1600 k n). Qed.

Lemma mdns_demo_cstr : cstr (n_mem (mdns_demo_net mdns_query)) 64 (name_of mdns_demo_labels).
Proof. split; [by vm_compute|]. apply name_chars, mdns_demo_labels_ok. Qed.

Lemma mdns_name_roundtrip_witness :
  ∃ m1 need, MDNSFrame_EncodeName (n_mem (mdns_demo_net mdns_query)) 64 2000 100 = Ok (m1, 11) ∧
    ∀ fuel, (need ≤ fuel)%nat → ∃ m2,
      MDNSFrame_DecodeName fuel m1 2000 1900 200 2300 255 = Ok (m2, 11) ∧ cstr m2 2300 (name_of mdns_demo_labels).
Proof.
  destruct (mdns_name_roundtrip mdns_demo_labels (n_mem (mdns_demo_net mdns_query)) 64 2000 100 1900 200 2300 255)
    as (m1 & need & E & _ & _ & H).
  - exact mdns_demo_labels_ok.
  - exact mdns_demo_cstr.
  - vm_compute. discriminate.
  - apply (mdns_demo_zeros _ _ 0 11). lia.
  - left. vm_compute. discriminate.
  - lia.
  - vm_compute. discriminate.
  - lia.
  - apply (mdns_demo_zeros _ _ 300 255). lia.
  - left. lia.
  - vm_compute. discriminate.
  - exists m1, need. split; [exact E|exact H].
Defined.

(** A name that is decoded, and one that points to itself. *)
Definition mdns_circle : list Z := mdns_header 1 ++ [0xc0; 12].

Definition returns {A} (r : res A) : bool := match r with Ok _ => true | Fault _ => false end.

Lemma mdns_decode_safe_witness :
  (∃ m' r, ∀ fuel, (enough 27 255 ≤ fuel)%nat → MDNSFrame_DecodeName fuel (n_mem (mdns_demo_net mdns_query)) 1012 1000 27 2000 255 = Ok (m', r)) ∧
  ∃ s, tc (points (n_mem (mdns_demo_net mdns_circle)) 1000 14) s s.
Proof.
  split.
  - destruct (mdns_decode_safe (n_mem (mdns_demo_net mdns_query)) 1012 1000 27 2000 255) as [(m' & r & E & _)|[_ E]].
    + lia.
    + apply (mdns_demo_zeros _ _ 0 255). lia.
    + exists mdns_query. split; [reflexivity|]. split; [by apply (bool_decide_unpack _)|by vm_compute].
    + left. lia.
    + lia.
    + by exists m', r.
    + assert (returns (MDNSFrame_DecodeName 100 (n_mem (mdns_demo_net mdns_query)) 1012 1000 27 2000 255) = true) as H by (by vm_compute).
      by rewrite E in H.
  - destruct (mdns_decode_safe (n_mem (mdns_demo_net mdns_circle)) 1012 1000 14 2000 255) as [(m' & r & E & _)|[(s & _ & Hs) _]].
    + lia.
    + apply (mdns_demo_zeros _ _ 0 255). lia.
    + exists mdns_circle. split; [reflexivity|]. split; [by apply (bool_decide_unpack _)|by vm_compute].
    + left. lia.
    + lia.
    + assert (returns (MDNSFrame_DecodeName (enough 14 255) (n_mem (mdns_demo_net mdns_circle)) 1012 1000 14 2000 255) = false) as H by (by vm_compute).
      by rewrite E in H.
    + by exists s.
Defined.

Lemma mdns_query_hangs_witness :
  ∀ fuel, MDNSSrv_Input fuel 64 2000 2300 2600 0 5 6 1000 14
    (mdns_demo_net (mdns_header 1 ++ [0xc0; 12])) [id; id] = Fault OutOfFuel.
Proof. intros fuel. apply (mdns_query_hangs fuel _ _ _ _ _ _ _ _ _ _ 0 7); [word_lia|word_lia|]. by vm_compute. Defined.

Lemma mdns_answers_witness :
  let n := mdns_demo_net mdns_query in
  ∃ need m', ∀ fuel, (need ≤ fuel)%nat →
    MDNSSrv_Input fuel 64 2000 2300 2600 0 5 6 1000 27 n [id; id] =
    TCPIPUdpSock_SendTo 0 MDNS_SRV_MCAST_IP 6 2600 37 (set_mem m' n) [id; id].
Proof.
  intros n. destruct (mdns_answers 64 2000 2300 2600 0 5 6 1000 27 mdns_demo_labels 7 0 11 n [id; id]) as [need H].
  - exact mdns_demo_cstr.
  - exact mdns_demo_labels_ok.
  - by apply (bool_decide_unpack _).
  - by apply (bool_decide_unpack _).
  - by vm_compute.
  - by vm_compute.
  - reflexivity.
  - reflexivity.
  - by vm_compute.
  - apply (wire_name _ 1000 27 mdns_demo_labels 1012); [by vm_compute| |vm_compute; discriminate].
    eapply Forall_impl; [exact mdns_demo_labels_ok|]. apply label_wire_ok.
  - lia.
  - lia.
  - by vm_compute.
  - lia.
  - lia.
  - apply (mdns_demo_zeros _ _ 0 256). lia.
  - apply (mdns_demo_zeros _ _ 300 256). lia.
  - apply (mdns_demo_zeros _ _ 600 512). lia.
  - left. lia.
  - left. by vm_compute.
  - left. by vm_compute.
  - left. lia.
  - exists need. eexists. intros fuel Hf. exact (H fuel Hf).
Defined.

(** ** What the code does besides *)

(** Room for the characters and one byte passes the test; three bytes more are
    written behind it when the name has two labels. *)
Example encode_over_end :
  match MDNSFrame_EncodeName (n_mem (mdns_demo_net mdns_query)) 64 2000 9 with
  | Ok (m, ec) => ec = 11 ∧ bytes_at m 2000 (wire mdns_demo_labels)
  | Fault _ => False
  end.
Proof. by vm_compute. Qed.

(** The result of a frame: the code, and whether a response was written. *)
Definition mdns_demo_run (bytes : list Z) (n : net) : res (Z * bool) :=
  '(ec, n', _) ← MDNSSrv_Input 100 64 2000 2300 2600 0 5 6 1000 (length bytes) n [id; id];
  flags ← MDNSFrame_GetFlags (n_mem n') 2600;
  Ok (ec, flags =? MDNS_FRAME_HDR_FLAGS_QR_RESP).

(** A query is answered; the same query in capitals is not. *)
Example query_answered : match mdns_demo_run mdns_query (mdns_demo_net mdns_query) with Ok (_, b) => b = true | _ => False end.
Proof. by vm_compute. Qed.
Example query_in_capitals :
  let q := mdns_header 1 ++ question (wire [[68; 69; 86]; [76; 79; 67; 65; 76]]) in
  mdns_demo_run q (mdns_demo_net q) = Ok (EFATAL, false).
Proof. by vm_compute. Qed.

(** The type and the class of the last question are read behind the end of a frame
    that stops after its name. *)
Example fields_behind_the_frame :
  let q := mdns_header 1 ++ wire mdns_demo_labels in
  let n := mdns_demo_net (q ++ be16 MDNS_RECORD_TYPE_A ++ be16 MDNS_RECORD_CLASS_IA) in
  match mdns_demo_run q n with Ok (_, b) => b = true | _ => False end.
Proof. by vm_compute. Qed.

(** When the questions together ask for more answers than fit, none is sent: the
    answers that do fit are dropped with the rest. *)
Example eleven_questions :
  let q := mdns_header 11 ++ question (wire mdns_demo_labels) ++ concat (replicate 10 (question [0xc0; 12])) in
  mdns_demo_run q (mdns_demo_net q) = Ok (EFATAL, false).
Proof. by vm_compute. Qed.

(** A question of another class ends the frame although others follow. *)
Example foreign_class :
  let q := mdns_header 2 ++ wire mdns_demo_labels ++ be16 MDNS_RECORD_TYPE_A ++ be16 3 ++ question [0xc0; 12] in
  mdns_demo_run q (mdns_demo_net q) = Ok (EFATAL, false).
Proof. by vm_compute. Qed.
