(* ===== verification/Stream.v ===== *)
(** * Programs over a connection

    The servers above TCP (web sockets, HTTP) run in the monad [prog] of programs
    over a state [S] that offers a connection, its memory and the clock: the
    class [Stream].  [StreamLaws] states what such a server may rely on: a
    reception returns an error or at least one and at most [size] bytes and
    writes nowhere but into its buffer, a transmission sends everything or
    returns an error.  A script of what arrives and of what was sent implements
    the interface; the operations are those of a socket of Tcp. *)
From S2P Require Import Prelude.

(** ** The monad *)

Definition prog (S A : Type) : Type := S → res (A * S).

#[export] Instance prog_ret {S} : MRet (prog S) := λ A a s, Ok (a, s).
#[export] Instance prog_bind {S} : MBind (prog S) := λ A B f p s,
  match p s with Ok (a, s) => f a s | Fault e => Fault e end.

Lemma prog_bind_Ok {S A B} (p : prog S A) (f : A → prog S B) s a s' :
  p s = Ok (a, s') → (p ≫= f) s = f a s'.
Proof. intros H. unfold mbind, prog_bind. by rewrite H. Qed.

Lemma prog_bind_inv {S A B} (p : prog S A) (f : A → prog S B) s b s' :
  (p ≫= f) s = Ok (b, s') → ∃ a s1, p s = Ok (a, s1) ∧ f a s1 = Ok (b, s').
Proof. unfold mbind, prog_bind. destruct (p s) as [[a s1]|]; [eauto|done]. Qed.

Definition fault {S A} (e : fault) : prog S A := λ _, Fault e.
Definition lift_res {S A} (r : res A) : prog S A := λ s,
  match r with Ok a => Ok (a, s) | Fault e => Fault e end.
Definition check {S} (b : bool) : prog S unit := lift_res (c_assert b).

(** A program on a part of the state. *)
Definition on_snd {R S A} (p : prog S A) : prog (R * S) A := λ '(r, s),
  '(a, s) ← p s; Ok (a, (r, s)).
Definition get_fst {R S} : prog (R * S) R := λ '(r, s), Ok (r, (r, s)).
Definition put_fst {R S} (r : R) : prog (R * S) unit := λ '(_, s), Ok ((), (r, s)).

(** ** The interface *)

Class Stream (S : Type) := {
  st_mem : S → mem;
  st_set_mem : mem → S → S;
  (** [time(0)] and [Seed_GetRand()] *)
  st_now : S → Z;
  st_rand : prog S Z;
  (** [TCPIPTcpSock_Recv], [_Send], [_Listen], [_Connect], [_Close] of the socket *)
  st_recv : Z → Z → Z → prog S Z;
  st_send : Z → Z → Z → prog S Z;
  st_listen : Z → Z → prog S Z;
  st_connect : Z → Z → Z → prog S Z;
  st_close : Z → prog S Z;
  (** [Yield] *)
  st_yield : prog S unit
}.

Section memory.
Context {S : Type} `{Stream S}.

(** Functions on memory as programs. *)
Definition reads {A} (f : mem → res A) : prog S A := λ s, a ← f (st_mem s); Ok (a, s).
Definition writes (f : mem → res mem) : prog S unit := λ s,
  m ← f (st_mem s); Ok ((), st_set_mem m s).
Definition runs {A} (f : mem → res (mem * A)) : prog S A := λ s,
  '(m, a) ← f (st_mem s); Ok (a, st_set_mem m s).
Definition now : prog S Z := λ s, Ok (st_now s, s).

(** One step of a program whose result is known. *)
Lemma bind_reads {A B} (f : mem → res A) (g : A → prog S B) s a :
  f (st_mem s) = Ok a → (reads f ≫= g) s = g a s.
Proof. intros E. apply prog_bind_Ok. unfold reads. by rewrite E. Qed.

Lemma bind_writes {B} (f : mem → res mem) (g : unit → prog S B) s m :
  f (st_mem s) = Ok m → (writes f ≫= g) s = g () (st_set_mem m s).
Proof. intros E. apply prog_bind_Ok. unfold writes. by rewrite E. Qed.

Lemma prog_bind_now {B} (g : Z → prog S B) s : (now ≫= g) s = g (st_now s) s.
Proof. done. Qed.

End memory.

Lemma bind_ret {S A B} (a : A) (f : A → prog S B) s : (mret a ≫= f) s = f a s.
Proof. done. Qed.

Lemma bind_assoc {S A B C} (p : prog S A) (f : A → prog S B) (g : B → prog S C) s :
  ((p ≫= f) ≫= g) s = (p ≫= λ a, f a ≫= g) s.
Proof. unfold mbind, prog_bind. by destruct (p s) as [[a s']|]. Qed.

(** [size] bytes at [a] are private to the running program. *)
Class StreamLaws (S : Type) `{Stream S} := {
  sl_private : S → Z → Prop;
  sl_mem_set m s : st_mem (st_set_mem m s) = m;
  sl_private_set m s a : sl_private (st_set_mem m s) a ↔ sl_private s a;
  sl_recv p size timeout s r s' :
    0 ≤ size < 2147483648 → st_recv p size timeout s = Ok (r, s') →
    r < 0 ∨ (0 ≤ r ≤ size ∧ (0 < size → 0 < r));
  sl_recv_mem p size timeout s r s' :
    0 ≤ size < 2147483648 → st_recv p size timeout s = Ok (r, s') →
    (∀ a, sl_private s a → sl_private s' a) ∧
    (∀ a, sl_private s a → ¬ (p ≤ a < p + Z.max r 0) → st_mem s' !! a = st_mem s !! a) ∧
    (∀ a, p ≤ a < p + r → is_Some (st_mem s' !! a));
  sl_send p size timeout s r s' :
    0 ≤ size < 2147483648 → st_send p size timeout s = Ok (r, s') →
    (r < 0 ∨ r = size) ∧
    (∀ a, sl_private s a → sl_private s' a ∧ st_mem s' !! a = st_mem s !! a)
}.

(** ** A script

    The chunks in which data arrives, what was sent, the clock, and the memory
    of the program.  An empty chunk is a timeout; after the last chunk the peer
    is gone.  Every call that waits takes a millisecond. *)
Record script := mk_script {
  sc_mem : mem; sc_rx : list (list Z); sc_tx : list Z; sc_now : Z; sc_closed : bool }.

Definition sc_with (m : mem) (rx : list (list Z)) (tx : list Z) (s : script) : script :=
  mk_script m rx tx (sc_now s) (sc_closed s).

Fixpoint store_bytes (m : mem) (a : Z) (l : list Z) : res mem :=
  match l with
  | [] => Ok m
  | b :: l' => m ← store8 m a b; store_bytes m (a + 1) l'
  end.

Fixpoint load_bytes (m : mem) (a : Z) (n : nat) : res (list Z) :=
  match n with
  | O => Ok []
  | S n' => b ← load8 m a; l ← load_bytes m (a + 1) n'; Ok (b :: l)
  end.

Lemma store_bytes_ok m a l :
  mapped m a (length l) → Forall is_u8 l → store_bytes m a l = Ok (put_bytes m a l).
Proof.
  revert m a. induction l as [|b l IH]; intros m a Hm Hu; [done|]. simpl.
  apply mapped_cons in Hm as [Hb Hm]. apply Forall_cons in Hu as [Hbu Hu].
  rewrite store8_mapped, bind_Ok, u8_small by done. apply IH; [|done]. by apply mapped_insert.
Qed.

Lemma load_bytes_ok m a l : bytes_at m a l → load_bytes m a (length l) = Ok l.
Proof.
  revert a. induction l as [|b l IH]; intros a H; [done|]. simpl.
  rewrite (load8_bytes _ _ _ _ H), bind_Ok. destruct H as [_ H]. by rewrite (IH _ H).
Qed.

Definition sc_recv (p size timeout : Z) : prog script Z := λ s,
  if size =? 0 then Ok (0, s)
  else
    match sc_rx s with
    | [] => Ok (ENOCONNECT, s)
    | [] :: rx => Ok (ETIMEOUT, sc_with (sc_mem s) rx (sc_tx s) s)
    | c :: rx =>
        let data := take (Z.to_nat size) c in
        let rest := drop (Z.to_nat size) c in
        m ← store_bytes (sc_mem s) p data;
        Ok (Z.of_nat (length data),
            sc_with m (if bool_decide (rest = []) then rx else rest :: rx) (sc_tx s) s)
    end.

Definition sc_send (p size timeout : Z) : prog script Z := λ s,
  if sc_closed s then Ok (ENOCONNECT, s)
  else
    data ← load_bytes (sc_mem s) p (Z.to_nat size);
    Ok (size, sc_with (sc_mem s) (sc_rx s) (sc_tx s ++ data) s).

#[export] Instance script_stream : Stream script := {
  st_mem := sc_mem;
  st_set_mem m s := sc_with m (sc_rx s) (sc_tx s) s;
  st_now := sc_now;
  st_rand := λ s, Ok (sc_now s, mk_script (sc_mem s) (sc_rx s) (sc_tx s) (sc_now s + 1) (sc_closed s));
  st_recv := sc_recv;
  st_send := sc_send;
  st_listen := λ _ _ s, Ok (EOK, s);
  st_connect := λ _ _ _ s, Ok (EOK, s);
  st_close := λ _ s, Ok (EOK, mk_script (sc_mem s) (sc_rx s) (sc_tx s) (sc_now s) true);
  st_yield := λ s, Ok ((), s)
}.

Lemma store_bytes_mem l : ∀ m a m',
  store_bytes m a l = Ok m' →
  (∀ i, ¬ (a ≤ i < a + length l) → m' !! i = m !! i) ∧
  (∀ i, a ≤ i < a + length l → is_Some (m' !! i)) ∧ dom m' = dom m.
Proof.
  induction l as [|b l IH]; intros m a m' H; simpl in *; inv_ok; [split_and!; [done|lia|done]|].
  apply IH in H as (H1 & H2 & H3). unfold store8 in Ha.
  destruct (m !! a) as [x|] eqn:Ex; simplify_eq. split_and!.
  - intros i Hi. rewrite H1 by lia. apply lookup_insert_ne. lia.
  - intros i Hi. apply elem_of_dom. rewrite H3, dom_insert, elem_of_union, elem_of_singleton.
    destruct (decide (i = a)) as [|]; [by left|right]. apply elem_of_dom.
    assert (a + 1 ≤ i < a + 1 + length l) as Hi' by lia.
    apply H2, elem_of_dom in Hi'. rewrite H3, dom_insert in Hi'. apply elem_of_union in Hi' as [?|Hi'].
    + set_solver.
    + by apply elem_of_dom.
  - rewrite H3, dom_insert_lookup_L; [done|by eexists].
Qed.

#[export] Program Instance script_laws : StreamLaws script := { sl_private := λ _ _, True }.
Next Obligation. done. Qed.
Next Obligation. done. Qed.
Next Obligation.
  intros p size timeout s r s' Hs. cbn. unfold sc_recv. destruct (Z.eqb_spec size 0).
  { intros [= <- <-]. lia. }
  destruct (sc_rx s) as [|[|b c] rx]; [intros [= <- <-]; left; done..|].
  intros H. inv_ok. rewrite length_take. simpl. lia.
Qed.
Next Obligation.
  intros p size timeout s r s' Hs. cbn. unfold sc_recv. split; [done|].
  destruct (Z.eqb_spec size 0); [simplify_eq; split; [done|lia]|].
  destruct (sc_rx s) as [|[|b c] rx]; [simplify_eq; split; [done|unfold ENOCONNECT, ETIMEOUT; lia]..|].
  inv_ok. apply store_bytes_mem in Ha as (H1 & H2 & _). split; [intros a' _ Ha'|]; [apply H1|apply H2]; lia.
Qed.
Next Obligation.
  intros p size timeout s r s' Hs. cbn. unfold sc_send. destruct (sc_closed s).
  { intros [= <- <-]. split; [by left|done]. }
  intros H. inv_ok. split; [by right|done].
Qed.
