(* ===== verification/Websocket.v ===== *)
(** * Web sockets (net/websocket/src/websocket.c)

    Everything runs over a connection [S] of Stream.  A web socket is a record,
    local arrays are regions of memory whose addresses the functions take as
    arguments in front of those of the code, string literals are at addresses
    that the linker chose ([lit]).  Semaphores are the words of the record: a lock
    that another task holds has the program wait, which a script cannot resolve
    ([OutOfFuel]).  Loops over the lines of a header and over frames take fuel
    for the number of lines and frames the peer sends.  Warnings on the debug
    console are left out. *)
From Stdlib Require Import SpecFloat Ascii String.
From S2P Require Import Prelude CString Words Base64 Sha Stdio Double Printf Stream.

(** ** Constants and tables *)

Definition HTTP_VER_UNKNOWN : Z := 1.
Definition HTTP_VER_1V0 : Z := 2.
Definition HTTP_VER_1V1 : Z := 3.
Definition HTTP_VER_2V0 : Z := 4.
Definition HTTP_VER_3V0 : Z := 5.

Definition WS_FIELD_NAME_UNKNOWN : Z := 1.
Definition WS_FIELD_NAME_EMPTY : Z := 2.
Definition WS_FIELD_NAME_HOST : Z := 3.
Definition WS_FIELD_NAME_ORIGIN : Z := 4.
Definition WS_FIELD_NAME_CONNECTION : Z := 5.
Definition WS_FIELD_NAME_UPGRADE : Z := 6.
Definition WS_FIELD_NAME_SEC_WS_KEY : Z := 7.
Definition WS_FIELD_NAME_SEC_WS_PROTOCOL : Z := 8.
Definition WS_FIELD_NAME_SEC_WS_VERSION : Z := 9.
Definition WS_FIELD_NAME_SEC_WS_ACCEPT : Z := 10.

Definition WS_STATUS_UNKNOWN : Z := 1.
Definition WS_STATUS_101_SWITCHING_PROTOCOLS : Z := 2.
Definition WS_STATUS_400_BAD_REQUEST : Z := 3.
Definition WS_STATUS_404_NOT_FOUND : Z := 4.
Definition WS_STATUS_500_INTERNAL_SRV_ERR : Z := 5.

Definition WS_FIELD_TYPE_INT : Z := 1.
Definition WS_FIELD_TYPE_FLOAT : Z := 2.
Definition WS_FIELD_TYPE_STR : Z := 3.

Definition WS_HDR_FIN : Z := 0x8000.
Definition WS_HDR_OPCODE : Z := 0x0f00.
Definition WS_HDR_OPCODE_TEXT : Z := 0x0100.
Definition WS_HDR_OPCODE_BIN : Z := 0x0200.
Definition WS_HDR_OPCODE_CLOSE : Z := 0x0800.
Definition WS_HDR_OPCODE_PING : Z := 0x0900.
Definition WS_HDR_OPCODE_PONG : Z := 0x0A00.
Definition WS_HDR_MASKED : Z := 0x0080.
Definition WS_HDR_PLD_LEN : Z := 0x007f.

Definition WEBSOCKETS_MAX_LINE_LEN : Z := 256.

Record version_spec := mk_version_spec { vs_version : Z; vs_str : string }.
Record status_spec := mk_status_spec { ss_code : Z; ss_value : Z; ss_msg : string }.
Record field_spec := mk_field_spec { fsp_name : Z; fsp_type : Z; fsp_str : string }.

Definition version_lut : list version_spec :=
  [ mk_version_spec HTTP_VER_1V0 "HTTP/1.0"; mk_version_spec HTTP_VER_1V1 "HTTP/1.1";
    mk_version_spec HTTP_VER_2V0 "HTTP/2"; mk_version_spec HTTP_VER_3V0 "HTTP/3" ].

Definition status_lut : list status_spec :=
  [ mk_status_spec WS_STATUS_101_SWITCHING_PROTOCOLS 101 "Switching Protocols";
    mk_status_spec WS_STATUS_400_BAD_REQUEST 400 "Bad Request";
    mk_status_spec WS_STATUS_404_NOT_FOUND 404 "Not Found";
    mk_status_spec WS_STATUS_500_INTERNAL_SRV_ERR 500 "Internal Server Error" ].

Definition field_lut : list field_spec :=
  [ mk_field_spec WS_FIELD_NAME_HOST WS_FIELD_TYPE_STR "Host";
    mk_field_spec WS_FIELD_NAME_ORIGIN WS_FIELD_TYPE_STR "Origin";
    mk_field_spec WS_FIELD_NAME_CONNECTION WS_FIELD_TYPE_STR "Connection";
    mk_field_spec WS_FIELD_NAME_UPGRADE WS_FIELD_TYPE_STR "Upgrade";
    mk_field_spec WS_FIELD_NAME_SEC_WS_KEY WS_FIELD_TYPE_STR "Sec-WebSocket-Key";
    mk_field_spec WS_FIELD_NAME_SEC_WS_PROTOCOL WS_FIELD_TYPE_STR "Sec-WebSocket-Protocol";
    mk_field_spec WS_FIELD_NAME_SEC_WS_VERSION WS_FIELD_TYPE_INT "Sec-WebSocket-Version";
    mk_field_spec WS_FIELD_NAME_SEC_WS_ACCEPT WS_FIELD_TYPE_STR "Sec-WebSocket-Accept" ].

Definition magic : string := "258EAFA5-E914-47DA-95CA-C5AB0DC85B11".

(** The characters of a literal, without the terminator. *)
Definition chars (s : string) : list Z := map chr (list_ascii_of_string s).

(** *** websocket.h *)

Inductive websocket_state := WS_STATE_CLOSED | WS_STATE_LISTEN | WS_STATE_OPEN.
Inductive websocket_mode := WS_ROLE_SERVER | WS_ROLE_CLIENT.
Definition WS_DATA_TYPE_TEXT : Z := 0.
Definition WS_DATA_TYPE_BIN : Z := 1.

#[export] Instance websocket_state_eq_dec : EqDecision websocket_state.
Proof. solve_decision. Defined.
#[export] Instance websocket_mode_eq_dec : EqDecision websocket_mode.
Proof. solve_decision. Defined.

(** [mask] is the four bytes of the union. *)
Record websocket := mk_websocket {
  ws_state : websocket_state; ws_tx_sem : Z; ws_rx_sem : Z;
  ws_rx_size : Z; ws_rx_offs : Z; ws_rx_opcode : Z;
  ws_mask : list Z; ws_role : websocket_mode }.

Definition upd_ws_state (x : websocket_state) (w : websocket) : websocket :=
  mk_websocket x (ws_tx_sem w) (ws_rx_sem w) (ws_rx_size w) (ws_rx_offs w) (ws_rx_opcode w) (ws_mask w) (ws_role w).
Definition upd_sems (tx rx : Z) (w : websocket) : websocket :=
  mk_websocket (ws_state w) tx rx (ws_rx_size w) (ws_rx_offs w) (ws_rx_opcode w) (ws_mask w) (ws_role w).
Definition upd_rx (sz offs opcode : Z) (w : websocket) : websocket :=
  mk_websocket (ws_state w) (ws_tx_sem w) (ws_rx_sem w) sz offs opcode (ws_mask w) (ws_role w).
Definition upd_mask (mask : list Z) (w : websocket) : websocket :=
  mk_websocket (ws_state w) (ws_tx_sem w) (ws_rx_sem w) (ws_rx_size w) (ws_rx_offs w) (ws_rx_opcode w) mask (ws_role w).
Definition upd_role (role : websocket_mode) (w : websocket) : websocket :=
  mk_websocket (ws_state w) (ws_tx_sem w) (ws_rx_sem w) (ws_rx_size w) (ws_rx_offs w) (ws_rx_opcode w) (ws_mask w) role.

Definition is_role (w : websocket) (r : websocket_mode) : bool := bool_decide (ws_role w = r).

Section websocket.
Context {S : Type} `{Stream S} (lit : string → Z).
Context (frexpf : fp → fp * Z) (modff : fp → fp * fp) (expf : fp → fp).
Context (task_id : Z).

(** ** Look-up tables *)

(** The first entry a test accepts; the tests read memory. *)
Fixpoint lut_find {E} (test : E → prog S bool) (lut : list E) : prog S (option E) :=
  match lut with
  | [] => mret None
  | e :: lut' => b ← test e; if (b : bool) then mret (Some e) else lut_find test lut'
  end.

Definition given (p : Z) : bool := negb (p =? 0).

Definition version_matches (version str : Z) (l : version_spec) : prog S bool :=
  if given version && (version =? vs_version l) then mret true
  else if given str then
    r ← reads (λ m, strcmp m (lit (vs_str l)) str); mret (r =? 0)
  else mret false.

Definition WebSocket_GetVersionSpec (version str : Z) : prog S (option version_spec) :=
  check (negb (given version && given str));;
  check (given version || given str);;
  lut_find (version_matches version str) version_lut.

(** [strncicmp(lit, str, strlen(lit)) == 0] *)
Definition prefix_matches (l : string) (str : Z) : prog S bool :=
  n ← reads (λ m, strlen m (lit l));
  r ← reads (λ m, strncicmp m (lit l) str n);
  mret (r =? 0).

Definition status_matches (code code_val msg : Z) (l : status_spec) : prog S bool :=
  if given code && (ss_code l =? code) then mret true
  else if given code_val && (code_val =? ss_value l) then mret true
  else if given msg then prefix_matches (ss_msg l) msg
  else mret false.

Definition WebSocket_GetStatusCodeSpec (code code_val msg : Z) : prog S (option status_spec) :=
  check (negb (given code && given msg && given code_val));;
  check (given code || given msg || given code_val);;
  lut_find (status_matches code code_val msg) status_lut.

Definition field_matches (name str : Z) (l : field_spec) : prog S bool :=
  if given name && (fsp_name l =? name) then mret true
  else if given str then prefix_matches (fsp_str l) str
  else mret false.

Definition WebSocket_GetFieldSpec (name str : Z) : prog S (option field_spec) :=
  check (negb (given name && given str));;
  check (given name || given str);;
  lut_find (field_matches name str) field_lut.

(** ** Parsing of lines *)

Definition WebSocket_ParseRequestLine (method_str version_str line line_len url url_size : Z) : prog S Z :=
  k ← runs (λ m, snscanf m line line_len (lit "%.*s %.*s %.*s")
        [VInt 9; VPtr method_str; VInt url_size; VPtr url; VInt 9; VPtr version_str]);
  if negb (k =? 3) then mret EARGVAL
  else
    c ← reads (λ m, strcmp m method_str (lit "GET"));
    if negb (c =? 0) then mret EARGVAL
    else
      v_spec ← WebSocket_GetVersionSpec 0 version_str;
      match v_spec with None => mret EFATAL | Some _ => mret EOK end.

(** Error code, and what is stored for version and code; [s_spec] is followed
    without the test that is made on [v_spec] twice. *)
Definition WebSocket_ParseStatusLine (version_str code_str code_value line line_len : Z)
  : prog S (Z * option (Z * Z)) :=
  k ← runs (λ m, snscanf m line line_len (lit "%.*s %d %.*s")
        [VInt 15; VPtr version_str; VPtr code_value; VInt 63; VPtr code_str]);
  if negb (k =? 3) then mret (EARGVAL, None)
  else
    v_spec ← WebSocket_GetVersionSpec 0 version_str;
    match v_spec with
    | None => mret (EFATAL, None)
    | Some v =>
        cv ← reads (λ m, load32 m code_value);
        s_spec ← WebSocket_GetStatusCodeSpec 0 (s32 cv) 0;
        match s_spec with
        | None => fault NullDeref
        | Some s => mret (EOK, Some (vs_version v, ss_code s))
        end
    end.

(** [for (; vptr < line + line_len && *vptr && *vptr != ':'; vptr++);] *)
Fixpoint name_end (m : mem) (vptr : Z) (n : nat) : res Z :=
  match n with
  | O => Ok vptr
  | Datatypes.S n' =>
      c ← load8 m vptr;
      if negb (c =? 0) && negb (c =? chr ":") then name_end m (vptr + 1) n' else Ok vptr
  end.

(** [for (...; vptr < line + line_len && isspace( *vptr); vptr++);] *)
Fixpoint skip_space (m : mem) (vptr : Z) (n : nat) : res Z :=
  match n with
  | O => Ok vptr
  | Datatypes.S n' => c ← load8 m vptr; if isspace c then skip_space m (vptr + 1) n' else Ok vptr
  end.

(** Parse a value into the local union [fv]: is it well formed? *)
Definition parse_value (fv vptr vsize : Z) (fs : field_spec) : prog S bool :=
  if fsp_type fs =? WS_FIELD_TYPE_INT then
    k ← runs (λ m, snscanf m vptr vsize (lit "%i") [VPtr fv]); mret (k =? 1)
  else if fsp_type fs =? WS_FIELD_TYPE_FLOAT then
    k ← runs (λ m, snscanf m vptr vsize (lit "%a") [VPtr fv]); mret (k =? 1)
  else if fsp_type fs =? WS_FIELD_TYPE_STR then
    _ ← runs (λ m, strlcpy m fv vptr 32); mret true
  else fault AssertFailed.

(** The code and the name that is stored in the field ([None]: none), whose value
    is at [value]. *)
Definition WebSocket_ParseFieldLine (fv line line_len value : Z) : prog S (Z * option Z) :=
  c ← reads (λ m, load8 m line);
  if c =? 0 then mret (EOK, Some WS_FIELD_NAME_EMPTY)
  else
    vptr ← reads (λ m, name_end m line (Z.to_nat line_len));
    c ← reads (λ m, load8 m vptr);
    if negb (c =? chr ":") then mret (EFATAL, None)
    else
      vptr ← reads (λ m, skip_space m (vptr + 1) (Z.to_nat (line_len - (vptr + 1 - line))));
      let vsize := u32 (line_len - (vptr - line)) in
      fs ← WebSocket_GetFieldSpec 0 line;
      match fs with
      | Some fs =>
          conv_ok ← parse_value fv vptr vsize fs;
          if negb conv_ok then mret (EFATAL, Some WS_FIELD_NAME_UNKNOWN)
          else writes (λ m, memcpy m value fv 32);; mret (EOK, Some (fsp_name fs))
      | None =>
          _ ← runs (λ m, strlcpy m value vptr (Z.min 32 vsize));
          mret (EOK, Some WS_FIELD_NAME_UNKNOWN)
      end.

(** ** Sending lines *)

Definition send (ptr size : Z) : prog S Z := st_send ptr size 0.

Definition WebSocket_SendEmptyLine : prog S Z := send (lit (String "013" (String "010" ""))) 2.

Definition print (line sz : Z) (fmt : string) (args : va_list) : prog S Z :=
  runs (λ m, snprintf frexpf modff expf m line sz (lit fmt) args).

Definition crlf : string := String "013" (String "010" "").

(** The condition is the wrong way round: a null [url] is printed, any other
    one becomes the root. *)
Definition WebSocket_SendRequestLine (line url : Z) : prog S Z :=
  vspec ← WebSocket_GetVersionSpec HTTP_VER_1V1 0;
  match vspec with
  | None => fault NullDeref
  | Some v =>
      len ← print line (WEBSOCKETS_MAX_LINE_LEN + 1) ("GET %s %s" ++ crlf)
              [VPtr (if given url then lit "/" else url); VPtr (lit (vs_str v))];
      send line (u32 len)
  end.

Definition WebSocket_SendStatusLine (response version code : Z) : prog S Z :=
  vspec ← WebSocket_GetVersionSpec version 0;
  match vspec with
  | None => mret EFATAL
  | Some v =>
      cspec ← WebSocket_GetStatusCodeSpec code 0 0;
      match cspec with
      | None => mret EFATAL
      | Some c =>
          len ← print response WEBSOCKETS_MAX_LINE_LEN ("%s %d %s" ++ crlf)
                  [VPtr (lit (vs_str v)); VInt (ss_value c); VPtr (lit (ss_msg c))];
          send response (u32 len)
      end
  end.

(** The format a field type is printed with, and the type of its argument. *)
Definition field_format (type : Z) : option string :=
  if type =? WS_FIELD_TYPE_INT then Some ("%s: %i" ++ crlf)%string
  else if type =? WS_FIELD_TYPE_FLOAT then Some ("%s: %f" ++ crlf)%string
  else if type =? WS_FIELD_TYPE_STR then Some ("%s: %s" ++ crlf)%string
  else None.

Definition WebSocket_SendFieldLine (line name : Z) (arg : va) : prog S Z :=
  fs ← WebSocket_GetFieldSpec name 0;
  match fs with
  | None => mret EFATAL
  | Some fs =>
      match field_format (fsp_type fs) with
      | None => fault AssertFailed
      | Some fmt =>
          ec ← print line (WEBSOCKETS_MAX_LINE_LEN + 1) fmt [VPtr (lit (fsp_str fs)); arg];
          if ec <? EOK then mret ec else send line ec
      end
  end.

(** ** Receiving lines *)

(** The loop that receives: the place of the newline or an error.  [timeout] is 0
    for web sockets. *)
Fixpoint line_loop (fuel : nat) (line c sz timeout : Z) : prog S (Z + Z) :=
  match fuel with
  | O => fault OutOfFuel
  | Datatypes.S fuel' =>
      ec ← st_recv c 1 timeout;
      if ec <? EOK then mret (inr ec)
      else
        x ← reads (λ m, load8 m c);
        if x =? 10 then mret (inl c)
        else
          let c := c + 1 in
          if c - line =? sz then mret (inr EFATAL) else line_loop fuel' line c sz timeout
  end.

(** [for (; c > line && isspace( *(c - 1)); c--);] *)
Fixpoint trim_space (m : mem) (line : Z) (n : nat) : res Z :=
  match n with
  | O => Ok line
  | Datatypes.S n' => x ← load8 m (line + n'); if isspace x then trim_space m line n' else Ok (line + n)
  end.

Definition WebSocket_RecvLine (line sz : Z) : prog S Z :=
  r ← line_loop (Z.to_nat sz) line line sz 0;
  match r with
  | inr ec => mret ec
  | inl c =>
      c ← reads (λ m, trim_space m line (Z.to_nat (c - line)));
      writes (λ m, store8 m c 0);;
      mret (c - line)
  end.

(** Local arrays of the parsers, at a frame [fr]. *)
Definition WebSocket_RecvStatusLine (fr line : Z) : prog S (Z * Z) :=
  line_len ← WebSocket_RecvLine line WEBSOCKETS_MAX_LINE_LEN;
  if line_len <? EOK then mret (EFATAL, 0)
  else
    '(ec, r) ← WebSocket_ParseStatusLine fr (fr + 16) (fr + 80) line line_len;
    if ec <? EOK then mret (EFATAL, 0) else mret (EOK, from_option snd 0 r).

Definition WebSocket_RecvRequestLine (fr line url url_size : Z) : prog S Z :=
  line_len ← WebSocket_RecvLine line WEBSOCKETS_MAX_LINE_LEN;
  if line_len <? EOK then mret EFATAL
  else
    ec ← WebSocket_ParseRequestLine fr (fr + 10) line line_len url url_size;
    if ec <? EOK then mret EFATAL else mret EOK.

Definition Websocket_RecvFieldLine (fr line value : Z) : prog S (Z * option Z) :=
  line_len ← WebSocket_RecvLine line (WEBSOCKETS_MAX_LINE_LEN + 1);
  if line_len <? EOK then mret (EFATAL, None)
  else
    '(ec, name) ← WebSocket_ParseFieldLine fr line line_len value;
    if ec <? EOK then mret (EFATAL, name) else mret (EOK, name).

Definition WebSocket_SendErrorReply (line code : Z) : prog S Z :=
  ec ← WebSocket_SendStatusLine line HTTP_VER_1V1 code;
  if EOK <=? ec then WebSocket_SendEmptyLine else mret ec.

(** ** Frame headers

    [websocket_hdr_t] is the region at [pld]: the header word, behind it the mask,
    or a size of 16 or 64 bits and the mask. *)

Definition store64 (m : mem) (a v : Z) : res mem :=
  m ← store32 m a v; store32 m (a + 4) (v / 4294967296).
Definition load64 (m : mem) (a : Z) : res Z :=
  lo ← load32 m a; hi ← load32 m (a + 4); Ok (lo + 4294967296 * hi).

(** The size in the header word: 126 and 127 stand for the fields behind it. *)
Definition header_size (hdr : Z) : Z := Z.shiftr (Z.land hdr WS_HDR_PLD_LEN) (LSB WS_HDR_PLD_LEN).

(** How many bytes follow the header word: four are asked for where the 64-bit
    size has eight. *)
Definition header_rest (hdr : Z) : Z :=
  (if flag hdr WS_HDR_MASKED then 4 else 0) +
  (if header_size hdr <? 126 then 0 else if header_size hdr =? 126 then 2 else 4).

(** Where the mask is. *)
Definition mask_offset (hdr : Z) : Z :=
  if header_size hdr <? 126 then 2 else if header_size hdr =? 126 then 4 else 10.

Definition mask_wrong (w : websocket) (hdr : Z) : bool :=
  (is_role w WS_ROLE_SERVER && negb (flag hdr WS_HDR_MASKED)) ||
  (is_role w WS_ROLE_CLIENT && flag hdr WS_HDR_MASKED).

(** Error code, header word, size ([None]: not stored), and the socket. *)
Definition WebSocket_RecvHeader (w : websocket) (pld timeout : Z)
  : prog S (Z * Z * option Z * websocket) :=
  ec ← st_recv pld 2 timeout;
  if ec <? EOK then mret (ec, 0, None, w)
  else
    raw ← reads (λ m, load16 m pld);
    let hdr := BETOH16 raw in
    if mask_wrong w hdr then mret (EFATAL, hdr, None, w)
    else
      let decoded_size := header_size hdr in
      let size := if decoded_size <? 126 then Some decoded_size else None in
      ec ← st_recv (pld + 2) (header_rest hdr) 0;
      if ec <? EOK then mret (ec, hdr, size, w)
      else
        size ← (if decoded_size =? 126 then
                  v ← reads (λ m, load16 m (pld + 2)); mret (Some (BETOH16 v))
                else if decoded_size =? 127 then
                  v ← reads (λ m, load64 m (pld + 2)); mret (Some (u32 (BETOH64 v)))
                else mret size);
        if flag hdr WS_HDR_MASKED then
          mask ← reads (λ m, load_bytes m (pld + mask_offset hdr) 4);
          mret (EOK, hdr, size, upd_mask mask w)
        else mret (EOK, hdr, size, w).

Definition mask_bytes (v : Z) : list Z := [u8 v; u8 (v / 256); u8 (v / 65536); u8 (v / 16777216)].

Definition WebSocket_SendHeader (w : websocket) (pld hdr sz : Z) : prog S (Z * websocket) :=
  let hdr := Z.lor hdr WS_HDR_FIN in
  '(hdr, pld_size) ← (
    if sz <? 126 then mret (Z.lor hdr (Z.shiftl sz (LSB WS_HDR_PLD_LEN)), 2)
    else if sz <? 0xffff then
      writes (λ m, store16 m (pld + 2) (HTOBE16 sz));;
      mret (Z.lor hdr (Z.shiftl 126 (LSB WS_HDR_PLD_LEN)), 4)
    else
      writes (λ m, store64 m (pld + 2) (HTOBE64 sz));;
      mret (Z.lor hdr (Z.shiftl 127 (LSB WS_HDR_PLD_LEN)), 10));
  '(hdr, pld_size, w) ← (
    if is_role w WS_ROLE_CLIENT then
      t ← now;
      let w := upd_mask (mask_bytes t) w in
      writes (λ m, store_bytes m (pld + pld_size) (ws_mask w));;
      mret (Z.lor hdr WS_HDR_MASKED, pld_size + 4, w)
    else mret (hdr, pld_size, w));
  writes (λ m, store16 m pld (HTOBE16 (u16 hdr)));;
  ec ← send pld pld_size;
  mret (ec, w).

(** ** Payloads *)

(** [for (i = 0; i < n; i++) buf[i] ^= ws->mask.u8[i % 4];] *)
Fixpoint mask_loop (mask : list Z) (m : mem) (buf i : Z) (n : nat) : res mem :=
  match n with
  | O => Ok m
  | Datatypes.S n' =>
      x ← load8 m (buf + i);
      m ← store8 m (buf + i) (Z.lxor x (nth (Z.to_nat (i mod 4)) mask 0));
      mask_loop mask m buf (i + 1) n'
  end.

Fixpoint recv_payload_loop (fuel : nat) (w : websocket) (buf ptr sz offs : Z) : prog S Z :=
  match fuel with
  | O => fault OutOfFuel
  | Datatypes.S fuel' =>
      if offs <? sz then
        ec ← st_recv buf (Z.min 32 (sz - offs)) 0;
        if ec <? EOK then mret ec
        else
          (if is_role w WS_ROLE_SERVER
           then writes (λ m, mask_loop (ws_mask w) m buf 0 (Z.to_nat ec)) else mret ());;
          (if given ptr then writes (λ m, memcpy m (ptr + offs) buf ec) else mret ());;
          recv_payload_loop fuel' w buf ptr sz (offs + ec)
      else mret offs
  end.

Definition WebSocket_RecvPayload (w : websocket) (buf ptr sz : Z) : prog S Z :=
  recv_payload_loop (Datatypes.S (Z.to_nat sz)) w buf ptr sz 0.

Fixpoint send_payload_loop (fuel : nat) (w : websocket) (buf ptr sz offs : Z) : prog S Z :=
  match fuel with
  | O => fault OutOfFuel
  | Datatypes.S fuel' =>
      if offs <? sz then
        let t_size := Z.min 32 (sz - offs) in
        writes (λ m, memcpy m buf (ptr + offs) t_size);;
        (if is_role w WS_ROLE_CLIENT
         then writes (λ m, mask_loop (ws_mask w) m buf 0 (Z.to_nat t_size)) else mret ());;
        ec ← send buf t_size;
        if ec <? EOK then mret ec else send_payload_loop fuel' w buf ptr sz (offs + ec)
      else mret offs
  end.

Definition WebSocket_SendPayload (w : websocket) (buf ptr sz : Z) : prog S Z :=
  send_payload_loop (Datatypes.S (Z.to_nat sz)) w buf ptr sz 0.

(** ** The accept value *)

(** Of the bytes of [key]; the bytes written to [accept], at most 30. *)
Definition WebSocket_ComputeAccept (key : list Z) : res (list Z) :=
  '(sha1, _) ← SHA1_Digest SHA1_InitState false (take 24 key);
  '(sha1, _) ← SHA1_Digest sha1 true (chars magic);
  let '(hash, hash_size) := SHA1_GetHashVal sha1 20 in
  let '(accept, accept_size) := Base64_Encode (take (Z.to_nat hash_size) hash) 29 in
  if accept_size <? 0 then Fault OutOfBounds else Ok (accept ++ [0]).

(** ** The socket

    Addresses of the local arrays: a line, the locals of the parsers, the value
    of the current field, the URL, the frame header, the buffer of a payload, the
    payload of a control frame, key and accept value. *)
Record ws_locals := mk_ws_locals {
  lc_line : Z; lc_parse : Z; lc_value : Z; lc_url : Z; lc_pld : Z; lc_buf : Z;
  lc_ctrl : Z; lc_key : Z; lc_accept : Z }.

Context (lc : ws_locals).

(** [Sem_Lock(&ws->..., 0)]: free or its own, else the program waits. *)
Definition lock (v : Z) : prog S unit :=
  if (v =? 0) || (v =? task_id) then mret () else fault OutOfFuel.
Definition lock_tx (w : websocket) : prog S websocket :=
  lock (ws_tx_sem w);; mret (upd_sems task_id (ws_rx_sem w) w).
Definition lock_rx (w : websocket) : prog S websocket :=
  lock (ws_rx_sem w);; mret (upd_sems (ws_tx_sem w) task_id w).
Definition release_tx (w : websocket) : websocket := upd_sems 0 (ws_rx_sem w) w.
Definition release_rx (w : websocket) : websocket := upd_sems (ws_tx_sem w) 0 w.

(** Memory from the heap, not initialised, and whether a TCP socket was there. *)
Definition WebSocket_Create (from_heap : option websocket) (sock : bool) : prog S websocket :=
  check (bool_decide (is_Some from_heap));;
  check sock;;
  match from_heap with Some w => mret w | None => fault NullDeref end.

(** *** The opening handshake of the client *)

Definition bit_of (name : option Z) : Z := Z.shiftl 1 (from_option id 0 name).

Definition store_text (a : Z) (l : list Z) : prog S unit := writes (λ m, store_bytes m a l).

(** The tests of a field of the response; [false] is [goto error]. *)
Definition connect_field (name : option Z) : prog S bool :=
  if bool_decide (name = Some WS_FIELD_NAME_CONNECTION) then
    p ← reads (λ m, strcistr m (lc_value lc) (lit "Upgrade")); mret (negb (p =? 0))
  else if bool_decide (name = Some WS_FIELD_NAME_UPGRADE) then
    d ← reads (λ m, strcicmp m (lc_value lc) (lit "websocket")); mret (d =? 0)
  else if bool_decide (name = Some WS_FIELD_NAME_SEC_WS_ACCEPT) then
    n ← reads (λ m, strlen m (lc_value lc));
    if negb (n =? 28) then mret false
    else
      key ← reads (λ m, load_bytes m (lc_key lc) 24);
      accept ← lift_res (WebSocket_ComputeAccept key);
      store_text (lc_accept lc) accept;;
      d ← reads (λ m, memcmp m (lc_accept lc) (lc_value lc) 28); mret (d =? 0)
  else mret true.

(** The fields that came, or an error. *)
Fixpoint connect_fields (fuel : nat) (mask : Z) : prog S (option Z) :=
  match fuel with
  | O => fault OutOfFuel
  | Datatypes.S fuel' =>
      '(ec, name) ← Websocket_RecvFieldLine (lc_parse lc) (lc_line lc) (lc_value lc);
      if ec <? EOK then mret None
      else if bool_decide (name = Some WS_FIELD_NAME_EMPTY) then mret (Some mask)
      else
        ok ← connect_field name;
        if (ok : bool) then connect_fields fuel' (Z.lor mask (bit_of name)) else mret None
  end.

Definition connect_req_mask : Z :=
  Z.lor (Z.lor (bit_of (Some WS_FIELD_NAME_SEC_WS_ACCEPT)) (bit_of (Some WS_FIELD_NAME_CONNECTION)))
    (bit_of (Some WS_FIELD_NAME_UPGRADE)).

Definition ws_error (code : Z) (w : websocket) : prog S (Z * websocket) :=
  _ ← st_close 0; mret (code, upd_ws_state WS_STATE_CLOSED w).

Definition ws_opened (w : websocket) : prog S (Z * websocket) :=
  mret (EOK, upd_ws_state WS_STATE_OPEN (upd_rx 0 0 (ws_rx_opcode w) w)).

(** The key: sixteen random bytes in base64. *)
Definition make_key : prog S unit :=
  r0 ← st_rand; r1 ← st_rand; r2 ← st_rand; r3 ← st_rand;
  let '(key, key_size) := Base64_Encode (concat (map mask_bytes [r0; r1; r2; r3])) 25 in
  if key_size <? 0 then fault OutOfBounds else store_text (lc_key lc) (key ++ [0]).

Definition send_field := WebSocket_SendFieldLine (lc_line lc).

(** The request, from the request line to the empty line. *)
Definition send_request (url : Z) : prog S Z :=
  ec ← WebSocket_SendRequestLine (lc_line lc) url;
  if ec <? EOK then mret ec
  else
    make_key;;
    e1 ← send_field WS_FIELD_NAME_UPGRADE (VPtr (lit "websocket"));
    e2 ← send_field WS_FIELD_NAME_CONNECTION (VPtr (lit "Upgrade"));
    e3 ← send_field WS_FIELD_NAME_SEC_WS_KEY (VPtr (lc_key lc));
    e4 ← send_field WS_FIELD_NAME_SEC_WS_VERSION (VInt 13);
    e5 ← WebSocket_SendEmptyLine;
    mret (Z.lor (Z.lor (Z.lor (Z.lor (Z.lor ec e1) e2) e3) e4) e5).

Definition WebSocket_Connect (fuel : nat) (w : websocket) (ip port url : Z) : prog S (Z * websocket) :=
  if negb (bool_decide (ws_state w = WS_STATE_CLOSED)) || (port =? 0) then mret (EARGVAL, w)
  else
    let w := upd_role WS_ROLE_CLIENT w in
    ec ← st_connect ip port 0;
    if ec <? EOK then ws_error EFATAL w
    else
      ec ← send_request url;
      if ec <? EOK then ws_error EFATAL w
      else
        '(ec, code) ← WebSocket_RecvStatusLine (lc_parse lc) (lc_line lc);
        if (ec <? EOK) || negb (code =? WS_STATUS_101_SWITCHING_PROTOCOLS) then ws_error EFATAL w
        else
          mask ← connect_fields fuel 0;
          match mask with
          | None => ws_error EFATAL w
          | Some mask =>
              if negb (Z.land mask connect_req_mask =? connect_req_mask) then ws_error EFATAL w
              else ws_opened w
          end.

(** *** The opening handshake of the server *)

(** Wait for the TCP connection. *)
Fixpoint listen_loop (fuel : nat) (port timeout ts : Z) : prog S Z :=
  match fuel with
  | O => fault OutOfFuel
  | Datatypes.S fuel' =>
      ec ← st_listen port timeout;
      if ec =? ETIMEOUT then mret ec
      else
        t ← now;
        if given timeout && (timeout <? s32 (t - ts)) then mret ETIMEOUT
        else if ec <? EOK then listen_loop fuel' port timeout ts else mret ec
  end.

(** The tests of a field of the request; the result is the error code. *)
Definition listen_field (name : option Z) : prog S Z :=
  let bad_unless (b : bool) := if b then WS_STATUS_UNKNOWN else WS_STATUS_400_BAD_REQUEST in
  if bool_decide (name = Some WS_FIELD_NAME_CONNECTION) then
    p ← reads (λ m, strcistr m (lc_value lc) (lit "Upgrade")); mret (bad_unless (negb (p =? 0)))
  else if bool_decide (name = Some WS_FIELD_NAME_UPGRADE) then
    d ← reads (λ m, strcicmp m (lc_value lc) (lit "websocket")); mret (bad_unless (d =? 0))
  else if bool_decide (name = Some WS_FIELD_NAME_SEC_WS_VERSION) then
    v ← reads (λ m, load32 m (lc_value lc)); mret (bad_unless (s32 v =? 13))
  else if bool_decide (name = Some WS_FIELD_NAME_SEC_WS_KEY) then
    n ← reads (λ m, strlen m (lc_value lc));
    if negb (n =? 24) then mret WS_STATUS_400_BAD_REQUEST
    else writes (λ m, memcpy m (lc_key lc) (lc_value lc) 24);; mret WS_STATUS_UNKNOWN
  else mret WS_STATUS_UNKNOWN.

(** [ec], the error code, and the fields that came unless it is an error. *)
Fixpoint listen_fields (fuel : nat) (mask : Z) : prog S (Z * Z * option Z) :=
  match fuel with
  | O => fault OutOfFuel
  | Datatypes.S fuel' =>
      '(ec, name) ← Websocket_RecvFieldLine (lc_parse lc) (lc_line lc) (lc_value lc);
      if ec <? EOK then
        mret (ec, if ec =? EFATAL then WS_STATUS_400_BAD_REQUEST else WS_STATUS_UNKNOWN, None)
      else if bool_decide (name = Some WS_FIELD_NAME_EMPTY) then mret (ec, WS_STATUS_UNKNOWN, Some mask)
      else
        error_code ← listen_field name;
        if negb (error_code =? WS_STATUS_UNKNOWN) then mret (ec, error_code, None)
        else listen_fields fuel' (Z.lor mask (bit_of name))
  end.

Definition listen_req_mask : Z :=
  foldr Z.lor 0 (map (λ n, bit_of (Some n))
    [WS_FIELD_NAME_HOST; WS_FIELD_NAME_SEC_WS_VERSION; WS_FIELD_NAME_SEC_WS_KEY;
     WS_FIELD_NAME_CONNECTION; WS_FIELD_NAME_UPGRADE]).

(** The label [error]: it returns [ec], which is no error when the request was
    understood and refused. *)
Definition listen_error (ec error_code : Z) (w : websocket) : prog S (Z * websocket) :=
  (if negb (error_code =? WS_STATUS_UNKNOWN)
   then _ ← WebSocket_SendErrorReply (lc_line lc) error_code; mret () else mret ());;
  ws_error ec w.

Definition send_response (ec : Z) : prog S Z :=
  key ← reads (λ m, load_bytes m (lc_key lc) 24);
  accept ← lift_res (WebSocket_ComputeAccept key);
  store_text (lc_accept lc) accept;;
  e1 ← WebSocket_SendStatusLine (lc_line lc) HTTP_VER_1V1 WS_STATUS_101_SWITCHING_PROTOCOLS;
  e2 ← send_field WS_FIELD_NAME_UPGRADE (VPtr (lit "websocket"));
  e3 ← send_field WS_FIELD_NAME_CONNECTION (VPtr (lit "Upgrade"));
  e4 ← send_field WS_FIELD_NAME_SEC_WS_ACCEPT (VPtr (lc_accept lc));
  e5 ← WebSocket_SendEmptyLine;
  mret (Z.lor (Z.lor (Z.lor (Z.lor (Z.lor ec e1) e2) e3) e4) e5).

(** What follows the connection: request line, fields, response. *)
Definition listen_request (fuel : nat) (url : Z) (w : websocket) : prog S (Z * websocket) :=
  ec ← WebSocket_RecvRequestLine (lc_parse lc) (lc_line lc) (lc_url lc) (WEBSOCKETS_MAX_LINE_LEN + 1);
  if ec <? EOK then listen_error ec WS_STATUS_UNKNOWN w
  else
    d ← (if given url then reads (λ m, strcmp m url (lc_url lc)) else mret 0);
    if negb (d =? 0) then listen_error ec WS_STATUS_404_NOT_FOUND w
    else
      '(ec, error_code, mask) ← listen_fields fuel 0;
      match mask with
      | None => listen_error ec error_code w
      | Some mask =>
          if negb (Z.land mask listen_req_mask =? listen_req_mask)
          then listen_error ec WS_STATUS_400_BAD_REQUEST w
          else
            ec ← send_response ec;
            if ec <? EOK then listen_error ec error_code w else ws_opened w
      end.

Definition WebSocket_Listen (fuel : nat) (w : websocket) (port url timeout : Z) : prog S (Z * websocket) :=
  if negb (bool_decide (ws_state w = WS_STATE_CLOSED)) || (port =? 0) then mret (EARGVAL, w)
  else
    let w := upd_ws_state WS_STATE_LISTEN (upd_role WS_ROLE_SERVER w) in
    ts ← now;
    ec ← listen_loop fuel port timeout ts;
    if ec <? EOK then listen_error ec WS_STATUS_UNKNOWN w else listen_request fuel url w.

(** *** Frames *)

Definition ping_ival : Z := 1000.

(** The label [end]. *)
Definition recv_end (ec : Z) (dtype : option Z) (w : websocket) : prog S (Z * option Z * websocket) :=
  if ec <? EOK then _ ← st_close 3000; mret (ec, dtype, upd_ws_state WS_STATE_CLOSED w)
  else mret (ec, dtype, w).

(** A control frame: its payload is received and sent back. *)
Definition recv_control (w : websocket) : prog S (Z * websocket) :=
  ec ← WebSocket_RecvPayload w (lc_buf lc) (lc_ctrl lc) (Z.min 125 (ws_rx_size w));
  let w := release_rx w in
  if ec <? EOK then mret (ec, w)
  else
    let pld_size := ec in
    w ← lock_tx w;
    let rsp_opcode := if ws_rx_opcode w =? WS_HDR_OPCODE_CLOSE then WS_HDR_OPCODE_CLOSE
                      else WS_HDR_OPCODE_PONG in
    '(ec, w) ← WebSocket_SendHeader w (lc_pld lc) rsp_opcode pld_size;
    ec ← (if EOK <=? ec then WebSocket_SendPayload w (lc_buf lc) (lc_ctrl lc) pld_size else mret ec);
    let ec := if rsp_opcode =? WS_HDR_OPCODE_CLOSE then ENOCONNECT else ec in
    mret (ec, upd_rx 0 0 (ws_rx_opcode w) (release_tx w)).

(** A data frame: the next part of its payload. *)
Definition recv_data (w : websocket) (ptr sz : Z) : prog S (Z * option Z * websocket) :=
  ec ← WebSocket_RecvPayload w (lc_buf lc) ptr (Z.min sz (ws_rx_size w -u ws_rx_offs w));
  let w := if EOK <=? ec then upd_rx (ws_rx_size w) (ws_rx_offs w +u ec) (ws_rx_opcode w) w else w in
  let dtype := if ws_rx_opcode w =? WS_HDR_OPCODE_TEXT then WS_DATA_TYPE_TEXT else WS_DATA_TYPE_BIN in
  recv_end ec (Some dtype) (release_rx w).

(** A ping instead of the header that did not come; the new timeout.  Nothing
    counts the pings: [ping_cnt] stays zero. *)
Definition recv_ping (w : websocket) (timeout : Z) : prog S (Z * Z * websocket) :=
  w ← lock_tx w;
  '(ec, w) ← WebSocket_SendHeader w (lc_pld lc) WS_HDR_OPCODE_PING 0;
  mret (ec, if given timeout then timeout - ping_ival else timeout, release_tx w).

Fixpoint recv_again (fuel : nat) (w : websocket) (ptr sz timeout ping_cnt pong_cnt : Z)
  : prog S (Z * option Z * websocket) :=
  match fuel with
  | O => fault OutOfFuel
  | Datatypes.S fuel' =>
      w ← lock_rx w;
      '(hdr_ec, hdr_to, w) ← (
        if ws_rx_size w =? ws_rx_offs w then
          let hdr_to := if given timeout then Z.min timeout ping_ival else ping_ival in
          '(ec, hdr, size, w) ← WebSocket_RecvHeader w (lc_pld lc) hdr_to;
          let w := upd_rx (default (ws_rx_size w) size) (ws_rx_offs w) (ws_rx_opcode w) w in
          if ec <? EOK then mret (ec, hdr_to, w)
          else mret (EOK, hdr_to, upd_rx (ws_rx_size w) 0 (Z.land hdr WS_HDR_OPCODE) w)
        else mret (EOK, 0, w));
      if hdr_ec <? EOK then
        if (hdr_to <? ping_ival) || (pong_cnt +u 3 <? ping_cnt) then recv_end hdr_ec None w
        else
          '(ec, timeout, w) ← recv_ping w timeout;
          if ec <? EOK then recv_end ec None w
          else recv_again fuel' w ptr sz timeout ping_cnt pong_cnt
      else
        let opcode := ws_rx_opcode w in
        if (opcode =? WS_HDR_OPCODE_TEXT) || (opcode =? WS_HDR_OPCODE_BIN) then recv_data w ptr sz
        else if opcode =? WS_HDR_OPCODE_PONG then
          ec ← WebSocket_RecvPayload w (lc_buf lc) 0 (ws_rx_size w);
          let w := upd_rx 0 0 opcode w in
          if EOK <=? ec then recv_again fuel' w ptr sz timeout ping_cnt (pong_cnt +u 1)
          else recv_end ec None w
        else if (opcode =? WS_HDR_OPCODE_PING) || (opcode =? WS_HDR_OPCODE_CLOSE) then
          '(ec, w) ← recv_control w;
          if EOK <=? ec then recv_again fuel' w ptr sz timeout ping_cnt pong_cnt
          else recv_end ec None w
        else recv_end EFATAL None w
  end.

Definition WebSocket_Recv (fuel : nat) (w : websocket) (ptr sz timeout : Z)
  : prog S (Z * option Z * websocket) := recv_again fuel w ptr sz timeout 0 0.

Definition WebSocket_Send (w : websocket) (dtype ptr sz : Z) : prog S (Z * websocket) :=
  if negb ((dtype =? WS_DATA_TYPE_TEXT) || (dtype =? WS_DATA_TYPE_BIN)) then mret (EARGVAL, w)
  else
    let opcode := if dtype =? WS_DATA_TYPE_TEXT then WS_HDR_OPCODE_TEXT else WS_HDR_OPCODE_BIN in
    if negb (bool_decide (ws_state w = WS_STATE_OPEN)) then mret (ENOCONNECT, w)
    else
      w ← lock_tx w;
      '(ec, w) ← WebSocket_SendHeader w (lc_pld lc) opcode sz;
      ec ← (if EOK <=? ec then WebSocket_SendPayload w (lc_buf lc) ptr sz else mret ec);
      let w := release_tx w in
      if ec <? EOK then _ ← st_close 3000; mret (ec, upd_ws_state WS_STATE_CLOSED w)
      else mret (ec, w).

(** Wait for the close frame of the peer. *)
Fixpoint close_loop (fuel : nat) (w : websocket) (ec : Z) : prog S websocket :=
  match fuel with
  | O => fault OutOfFuel
  | Datatypes.S fuel' =>
      w ← lock_rx w;
      '(ec, hdr, w) ← (
        if ec <? EOK then mret (ec, 0, w)
        else
          '(ec, hdr, size, w) ← WebSocket_RecvHeader w (lc_pld lc) 0;
          ec ← (if EOK <=? ec then WebSocket_RecvPayload w (lc_buf lc) 0 (default 0 size) else mret ec);
          mret (ec, hdr, w));
      let w := release_rx w in
      if ec <? EOK then mret w
      else if Z.land hdr WS_HDR_OPCODE =? WS_HDR_OPCODE_CLOSE then mret w
      else st_yield;; close_loop fuel' w ec
  end.

Definition WebSocket_Close (fuel : nat) (w : websocket) : prog S (Z * websocket) :=
  w ← (if bool_decide (ws_state w = WS_STATE_OPEN) then
         w ← lock_tx w;
         '(ec, w) ← WebSocket_SendHeader w (lc_pld lc) WS_HDR_OPCODE_CLOSE 0;
         close_loop fuel (release_tx w) ec
       else mret w);
  if negb (bool_decide (ws_state w = WS_STATE_CLOSED)) then
    _ ← st_close 3000; mret (EOK, upd_ws_state WS_STATE_CLOSED w)
  else mret (EOK, w).

End websocket.
