(* ===== verification/WebSpec.v ===== *)
(** * What web sockets guarantee

    The frames of net/websocket/src/websocket.c against the frame format of RFC
    6455, and complete handshakes. *)
From Stdlib Require Import SpecFloat Ascii String.
From S2P Require Import Prelude Words Frames CString Stdio Printf Stream Websocket.

(** ** The frame format *)

(** Data under a mask, the first byte being at position [i] of the payload. *)
Fixpoint mask_from (mask : list Z) (i : Z) (l : list Z) : list Z :=
  match l with
  | [] => []
  | x :: l' => Z.lxor x (nth (Z.to_nat (i mod 4)) mask 0) :: mask_from mask (i + 1) l'
  end.

(** A client masks what it sends, a server does not. *)
Definition role_mask (role : websocket_mode) (mask l : list Z) : list Z :=
  if decide (role = WS_ROLE_CLIENT) then mask_from mask 0 l else l.

(** The first word: final frame, opcode, whether there is a mask, and the size or
    the mark of a 16-bit size. *)
Definition header_word (role : websocket_mode) (opcode n : Z) : Z :=
  0x8000 + opcode + (if decide (role = WS_ROLE_CLIENT) then 0x80 else 0) + (if n <? 126 then n else 126).

Definition size_field (n : Z) : list Z := if n <? 126 then [] else be16 n.
Definition mask_field (role : websocket_mode) (mask : list Z) : list Z :=
  if decide (role = WS_ROLE_CLIENT) then mask else [].

Definition frame_header (role : websocket_mode) (mask : list Z) (opcode n : Z) : list Z :=
  be16 (header_word role opcode n) ++ size_field n ++ mask_field role mask.

Lemma mask_from_length mask i l : length (mask_from mask i l) = length l.
Proof. revert i. induction l as [|x l IH]; intros i; simpl; [done|]. by rewrite IH. Qed.

Lemma mask_from_app mask i l1 l2 :
  mask_from mask i (l1 ++ l2) = mask_from mask i l1 ++ mask_from mask (i + length l1) l2.
Proof.
  revert i. induction l1 as [|x l1 IH]; intros i; simpl; [by rewrite Z.add_0_r|].
  rewrite IH. do 3 f_equal. lia.
Qed.

(** The mask repeats after four bytes. *)
Lemma mask_from_period mask i j l : i mod 4 = j mod 4 → mask_from mask i l = mask_from mask j l.
Proof.
  revert i j. induction l as [|x l IH]; intros i j Hij; simpl; [done|].
  rewrite Hij. f_equal. apply IH. lia.
Qed.

Lemma mask_from_involutive mask i l : mask_from mask i (mask_from mask i l) = l.
Proof.
  revert i. induction l as [|x l IH]; intros i; simpl; [done|]. rewrite IH. f_equal.
  by rewrite Z.lxor_assoc, Z.lxor_nilpotent, Z.lxor_0_r.
Qed.

Lemma lxor_u8 x y : is_u8 x → is_u8 y → is_u8 (Z.lxor x y).
Proof.
  unfold is_u8. intros Hx Hy.
  assert (0 ≤ Z.lxor x y) by (apply Z.lxor_nonneg; lia). split; [done|].
  destruct (decide (Z.lxor x y = 0)) as [->|]; [lia|].
  apply Z.log2_lt_cancel. change (Z.log2 256) with 8.
  pose proof (Z.log2_lxor x y ltac:(lia) ltac:(lia)).
  assert (∀ z, 0 ≤ z < 256 → Z.log2 z < 8) as Hl.
  { intros z Hz. destruct (decide (z = 0)) as [->|]; [done|]. apply Z.log2_lt_pow2; lia. }
  pose proof (Hl x Hx). pose proof (Hl y Hy). lia.
Qed.

Lemma nth_u8 mask i : Forall is_u8 mask → is_u8 (nth i mask 0).
Proof.
  intros H. destruct (decide (i < length mask)%nat).
  - eapply Forall_forall; [exact H|]. apply list_elem_of_In, nth_In. done.
  - rewrite nth_overflow by lia. unfold is_u8. lia.
Qed.

Lemma mask_from_u8 mask i l : Forall is_u8 mask → Forall is_u8 l → Forall is_u8 (mask_from mask i l).
Proof.
  intros Hm Hl. revert i. induction Hl as [|x l Hx Hl IH]; intros i; simpl; constructor; [|done].
  apply lxor_u8; [done|]. by apply nth_u8.
Qed.

(** ** Payloads *)

Lemma mask_loop_ok mask l : ∀ m buf i,
  bytes_at m (buf + i) l → Forall is_u8 l → Forall is_u8 mask →
  mask_loop mask m buf i (length l) = Ok (put_bytes m (buf + i) (mask_from mask i l)).
Proof.
  induction l as [|x l IH]; intros m buf i Hb Hl Hm; simpl; [done|].
  apply Forall_cons in Hl as [Hx Hl]. rewrite (load8_bytes _ _ _ _ Hb), bind_Ok.
  destruct Hb as [Hx0 Hb]. rewrite store8_u8, bind_Ok.
  - rewrite IH; [by rewrite Z.add_assoc| |done..].
    rewrite Z.add_assoc. by apply (put_bytes_bytes_at_other m (buf + i) [_]); [simpl; lia|].
  - by eexists.
  - apply lxor_u8; [done|]. by apply nth_u8.
Qed.

(** ** Headers *)

Definition frame_opcodes : list Z :=
  [WS_HDR_OPCODE_TEXT; WS_HDR_OPCODE_BIN; WS_HDR_OPCODE_CLOSE; WS_HDR_OPCODE_PING; WS_HDR_OPCODE_PONG].

Lemma all_below (P : Z → bool) (k : nat) n : forallb P (seqZ 0 k) = true → 0 ≤ n < k → P n = true.
Proof.
  intros H Hn. rewrite forallb_forall in H. apply H, list_elem_of_In, elem_of_seqZ. lia.
Qed.

(** What the sender puts together is the header word ... *)
Lemma header_word_sent role opcode n :
  opcode ∈ frame_opcodes → 0 ≤ n ≤ 126 →
  let hdr := Z.lor (Z.lor opcode WS_HDR_FIN) (Z.shiftl n (LSB WS_HDR_PLD_LEN)) in
  u16 (if decide (role = WS_ROLE_CLIENT) then Z.lor hdr WS_HDR_MASKED else hdr)
  = 0x8000 + opcode + (if decide (role = WS_ROLE_CLIENT) then 0x80 else 0) + n.
Proof.
  intros Ho Hn hdr. apply Z.eqb_eq.
  assert (forallb (λ o, forallb (λ k, forallb (λ r,
    let hdr := Z.lor (Z.lor o WS_HDR_FIN) (Z.shiftl k (LSB WS_HDR_PLD_LEN)) in
    u16 (if decide (r = WS_ROLE_CLIENT) then Z.lor hdr WS_HDR_MASKED else hdr)
    =? 0x8000 + o + (if decide (r = WS_ROLE_CLIENT) then 0x80 else 0) + k)
    [WS_ROLE_CLIENT; WS_ROLE_SERVER]) (seqZ 0 127)) frame_opcodes = true) as H by (vm_compute; reflexivity).
  rewrite forallb_forall in H. specialize (H opcode ltac:(by apply list_elem_of_In)).
  apply (all_below _ 127 n) in H; [|lia]. rewrite forallb_forall in H. apply (H role).
  destruct role; simpl; auto.
Qed.

(** ... in which the receiver finds the parts. *)
Lemma header_word_received role opcode n :
  opcode ∈ frame_opcodes → 0 ≤ n →
  let hdr := header_word role opcode n in
  is_u16 hdr ∧ header_size hdr = (if n <? 126 then n else 126) ∧
  flag hdr WS_HDR_MASKED = bool_decide (role = WS_ROLE_CLIENT) ∧ Z.land hdr WS_HDR_OPCODE = opcode.
Proof.
  intros Ho Hn. unfold header_word. set (k := if n <? 126 then n else 126).
  assert (0 ≤ k < 127%nat) as Hk by (unfold k; destruct (Z.ltb_spec n 126); lia). clearbody k.
  assert (forallb (λ o, forallb (λ k, forallb (λ r,
    let hdr := 0x8000 + o + (if decide (r = WS_ROLE_CLIENT) then 0x80 else 0) + k in
    (0 <=? hdr) && (hdr <? 65536) && (header_size hdr =? k) &&
    eqb (flag hdr WS_HDR_MASKED) (bool_decide (r = WS_ROLE_CLIENT)) && (Z.land hdr WS_HDR_OPCODE =? o))
    [WS_ROLE_CLIENT; WS_ROLE_SERVER]) (seqZ 0 127%nat)) frame_opcodes = true) as H by (vm_compute; reflexivity).
  rewrite forallb_forall in H. specialize (H opcode ltac:(by apply list_elem_of_In)).
  apply (all_below _ 127 k) in H; [|lia]. rewrite forallb_forall in H.
  assert (In role [WS_ROLE_CLIENT; WS_ROLE_SERVER]) as Hr by (destruct role; simpl; auto).
  specialize (H role Hr). simpl in H. rewrite !andb_true_iff, !Z.eqb_eq, eqb_true_iff in H.
  unfold is_u16. intuition lia.
Qed.

Section script.
Context (lit : string → Z).

Lemma send_ok s p l :
  sc_closed s = false → bytes_at (sc_mem s) p l →
  send p (length l) s = Ok (Z.of_nat (length l), sc_with (sc_mem s) (sc_rx s) (sc_tx s ++ l) s).
Proof.
  intros Hc Hl. unfold send. cbn. unfold sc_send. rewrite Hc, Nat2Z.id, (load_bytes_ok _ _ _ Hl). done.
Qed.

(** Only [n] bytes at [a] may have changed. *)
Definition only_at (a n : Z) (m m' : mem) : Prop :=
  (∀ i, ¬ (a ≤ i < a + n) → m' !! i = m !! i) ∧ ∀ i, is_Some (m !! i) → is_Some (m' !! i).

Lemma only_at_put m a l b n :
  b ≤ a → a + length l ≤ b + n → only_at b n m (put_bytes m a l).
Proof.
  intros H1 H2. split.
  - intros i Hi. apply put_bytes_lookup_ne. lia.
  - intros i Hi. apply (put_bytes_mapped m a l i 1); [|lia]. intros j Hj. by replace j with i by lia.
Qed.

Lemma only_at_refl a n m : only_at a n m m.
Proof. by split. Qed.

Lemma only_at_trans a n m1 m2 m3 : only_at a n m1 m2 → only_at a n m2 m3 → only_at a n m1 m3.
Proof.
  intros [H1 H2] [H3 H4]. split; [|by auto]. intros i Hi. by rewrite H3, H1.
Qed.

Lemma only_at_mapped a n m m' b k : only_at a n m m' → mapped m b k → mapped m' b k.
Proof. intros [_ H] Hm i Hi. by apply H, Hm. Qed.

Lemma only_at_bytes a n m m' b l :
  only_at a n m m' → a + n ≤ b ∨ b + length l ≤ a → bytes_at m b l → bytes_at m' b l.
Proof.
  intros [H _] Hd. rewrite !bytes_at_iff. intros Hb i c Hi. pose proof (lookup_lt_Some _ _ _ Hi).
  rewrite H by lia. by apply Hb.
Qed.

Lemma mask_bytes_u8 v : Forall is_u8 (mask_bytes v).
Proof. repeat constructor; apply u8_range. Qed.

(** The mask a socket uses for the next frame it sends. *)
Definition next_mask (w : websocket) (t : Z) : list Z :=
  if decide (ws_role w = WS_ROLE_CLIENT) then mask_bytes t else ws_mask w.

Lemma send_header_ok s w pld opcode n :
  sc_closed s = false → mapped (sc_mem s) pld 14 → opcode ∈ frame_opcodes → 0 ≤ n < 0xffff →
  let mask := next_mask w (sc_now s) in
  let hdr := frame_header (ws_role w) mask opcode n in
  ∃ m', WebSocket_SendHeader w pld opcode n s =
          Ok ((Z.of_nat (length hdr), upd_mask mask w), sc_with m' (sc_rx s) (sc_tx s ++ hdr) s) ∧
        only_at pld 14 (sc_mem s) m'.
Proof.
  intros Hc Hm Ho Hn mask hdr. unfold WebSocket_SendHeader.
  set (k := if n <? 126 then n else 126).
  assert (0 ≤ k ≤ 126) as Hk by (unfold k; destruct (Z.ltb_spec n 126); lia).
  set (h := Z.lor (Z.lor opcode WS_HDR_FIN) (Z.shiftl k (LSB WS_HDR_PLD_LEN))).
  set (m1 := put_bytes (sc_mem s) (pld + 2) (size_field n)).
  assert (only_at pld 14 (sc_mem s) m1) as O1.
  { apply only_at_put; [lia|]. unfold size_field. destruct (n <? 126); simpl; lia. }
  rewrite (prog_bind_Ok _ _ _ (h, 2 + length (size_field n)) (sc_with m1 (sc_rx s) (sc_tx s) s)); cycle 1.
  { subst h k m1. unfold size_field. destruct (Z.ltb_spec n 126); [simpl; by destruct s|].
    destruct (Z.ltb_spec n 65535); [|lia]. rewrite (bind_writes _ _ _ (put_bytes (sc_mem s) (pld + 2) (be16 n))); [done|].
    apply store16_be. intros i Hi. apply Hm. lia. }
  cbv beta iota. set (m2 := put_bytes m1 (pld + (2 + length (size_field n))) (mask_field (ws_role w) mask)).
  assert (only_at pld 14 (sc_mem s) m2) as O2.
  { eapply only_at_trans; [exact O1|]. apply only_at_put; [lia|]. subst mask. unfold mask_field, next_mask, size_field.
    destruct (decide _), (n <? 126); simpl; lia. }
  set (h2 := if decide (ws_role w = WS_ROLE_CLIENT) then Z.lor h WS_HDR_MASKED else h).
  rewrite (prog_bind_Ok _ _ _ (h2, Z.of_nat (length hdr), upd_mask mask w) (sc_with m2 (sc_rx s) (sc_tx s) s)); cycle 1.
  { subst hdr h2 m2 mask. unfold is_role, mask_field, next_mask, frame_header.
    rewrite !length_app. unfold mask_field. destruct (decide (ws_role w = WS_ROLE_CLIENT)) as [E|E].
    - rewrite bool_decide_true by done. rewrite prog_bind_now, (bind_writes _ _ _ (put_bytes m1 (pld + (2 + length (size_field n))) (mask_bytes (sc_now s)))).
      + simpl. unfold mret, prog_ret. do 4 f_equal. lia.
      + apply store_bytes_ok; [|apply mask_bytes_u8]. eapply only_at_mapped; [exact O1|].
        intros i Hi. apply Hm. unfold size_field in Hi. destruct (n <? 126); simpl in Hi; lia.
    - rewrite bool_decide_false by done. simpl. unfold mret, prog_ret.
      f_equal. f_equal. f_equal; [f_equal; lia|by destruct w]. }
  cbv beta iota. assert (mapped m2 pld 14) as Hm2 by (by eapply only_at_mapped).
  set (m3 := put_bytes m2 pld (be16 (header_word (ws_role w) opcode n))).
  rewrite (bind_writes _ _ _ m3); cycle 1.
  { unfold m3, h2, h. rewrite header_word_sent by done. apply store16_be. intros i Hi. apply Hm2. lia. }
  assert (bytes_at m3 pld hdr) as Hb.
  { unfold hdr, frame_header. rewrite !bytes_at_app. split; [apply put_bytes_bytes_at|].
    change (length (be16 _)) with 2%nat. split.
    - do 2 (apply put_bytes_bytes_at_other; [simpl; lia|]). apply put_bytes_bytes_at.
    - apply put_bytes_bytes_at_other; [simpl; lia|]. unfold m2. rewrite Z.add_assoc. apply put_bytes_bytes_at. }
  rewrite (prog_bind_Ok _ _ _ _ _ (send_ok (sc_with m3 (sc_rx s) (sc_tx s) s) pld hdr Hc Hb)). exists m3. split; [done|].
  eapply only_at_trans; [exact O2|]. apply only_at_put; simpl; lia.
Qed.

(** *** Payloads, 32 bytes at a time *)

Lemma role_mask_app role mask l1 l2 :
  (length l1 mod 4 = 0) → role_mask role mask (l1 ++ l2) = role_mask role mask l1 ++ role_mask role mask l2.
Proof.
  intros H. unfold role_mask. destruct (decide _); [|done]. rewrite mask_from_app. f_equal.
  apply mask_from_period. lia.
Qed.

Lemma role_mask_length role mask l : length (role_mask role mask l) = length l.
Proof. unfold role_mask. destruct (decide _); [apply mask_from_length|done]. Qed.

Lemma role_mask_u8 role mask l : Forall is_u8 mask → Forall is_u8 l → Forall is_u8 (role_mask role mask l).
Proof. intros. unfold role_mask. destruct (decide _); [by apply mask_from_u8|done]. Qed.

(** The masking of a chunk in the buffer, by whoever has to do it. *)
Lemma masked_step (b : bool) mask buf l s :
  bytes_at (sc_mem s) buf l → Forall is_u8 l → Forall is_u8 mask →
  ∃ m', (if b then writes (λ m, mask_loop mask m buf 0 (length l)) else mret ()) s =
          Ok ((), sc_with m' (sc_rx s) (sc_tx s) s) ∧
        bytes_at m' buf (if b then mask_from mask 0 l else l) ∧ only_at buf (length l) (sc_mem s) m'.
Proof.
  intros Hb Hl Hm. destruct b.
  - exists (put_bytes (sc_mem s) buf (mask_from mask 0 l)). split_and!.
    + unfold writes. cbn. pose proof (mask_loop_ok mask l (sc_mem s) buf 0) as E.
      rewrite Z.add_0_r in E. by rewrite E.
    + apply put_bytes_bytes_at.
    + apply only_at_put; rewrite ?mask_from_length; lia.
  - exists (sc_mem s). split; [by destruct s|]. split; [done|apply only_at_refl].
Qed.

Lemma send_payload_loop_ok w buf ptr sz : ∀ fuel s offs l,
  sc_closed s = false → bytes_at (sc_mem s) (ptr + offs) l → Forall is_u8 l → Forall is_u8 (ws_mask w) →
  mapped (sc_mem s) buf 32 → buf + 32 ≤ ptr + offs ∨ ptr + offs + length l ≤ buf →
  sz = offs + length l → (length l < fuel)%nat →
  ∃ m', send_payload_loop fuel w buf ptr sz offs s =
          Ok (sz, sc_with m' (sc_rx s) (sc_tx s ++ role_mask (ws_role w) (ws_mask w) l) s) ∧
        only_at buf 32 (sc_mem s) m'.
Proof.
  induction fuel as [|fuel IH]; intros s offs l Hc Hl Hu Hmu Hm Ha Hsz Hf; [lia|].
  cbn [send_payload_loop]. destruct (Z.ltb_spec offs sz) as [Hlt|Hge]; cycle 1.
  { assert (l = []) as -> by (destruct l; [done|simpl in *; lia]).
    exists (sc_mem s). split; [|apply only_at_refl]. unfold role_mask. destruct (decide _); simpl;
      rewrite app_nil_r; unfold mret, prog_ret; simpl in Hsz; (rewrite Hsz, Z.add_0_r; by destruct s). }
  set (l1 := take 32 l). set (l2 := drop 32 l).
  assert (length l1 = Z.to_nat (Z.min 32 (sz - offs))) as Hl1 by (unfold l1; rewrite length_take; lia).
  assert (l = l1 ++ l2) as El by (symmetry; apply take_drop).
  assert (length l1 ≠ 0%nat) by lia.
  replace (Z.min 32 (sz - offs)) with (Z.of_nat (length l1)) by lia.
  set (m1 := put_bytes (sc_mem s) buf l1).
  rewrite (bind_writes _ _ _ m1); cycle 1.
  { cbn. apply memcpy_ok; [by apply bytes_at_take|eapply mapped_le; [|exact Hm]; lia|by apply Forall_take|..].
    - unfold CString.apart. rewrite El, length_app in Ha. lia.
    - lia. }
  rewrite Nat2Z.id. destruct (masked_step (is_role w WS_ROLE_CLIENT) (ws_mask w) buf l1
      (sc_with m1 (sc_rx s) (sc_tx s) s)) as (m2 & E & Hb & O);
    [apply put_bytes_bytes_at|by apply Forall_take|exact Hmu|].
  rewrite (prog_bind_Ok _ _ _ _ _ E). clear E. cbn [sc_with sc_mem sc_rx sc_tx] in O |- *.
  assert ((if is_role w WS_ROLE_CLIENT then mask_from (ws_mask w) 0 l1 else l1)
          = role_mask (ws_role w) (ws_mask w) l1) as Er.
  { unfold role_mask, is_role. by destruct (ws_role w). }
  rewrite Er in Hb.
  assert (length l1 = length (role_mask (ws_role w) (ws_mask w) l1)) as Hrl by (by rewrite role_mask_length).
  pose proof (send_ok (sc_with m2 (sc_rx s) (sc_tx s) s) buf _ Hc Hb) as E. rewrite <- Hrl in E.
  rewrite (prog_bind_Ok _ _ _ _ _ E). clear E. destruct (Z.ltb_spec (length l1) EOK); [unfold EOK in *; lia|].
  assert (only_at buf 32 (sc_mem s) m2) as O2.
  { eapply only_at_trans; [apply (only_at_put _ buf l1); lia|]. destruct O as [O1 O2].
    split; [|done]. intros i Hi. apply O1. lia. }
  edestruct (IH (sc_with m2 (sc_rx s) (sc_tx s ++ role_mask (ws_role w) (ws_mask w) l1) s) (offs + length l1) l2)
    as (m' & E & O'); cbn; try done.
  - rewrite Z.add_assoc. eapply only_at_bytes; [exact O2| |].
    + rewrite El, length_app in Ha. lia.
    + unfold l2. rewrite El in Hl. apply bytes_at_app in Hl as [_ Hl]. exact Hl.
  - by apply Forall_drop.
  - by eapply only_at_mapped.
  - rewrite El, length_app in Ha. lia.
  - rewrite Hsz, El, length_app. lia.
  - rewrite El, length_app in Hf. lia.
  - exists m'. split; [|by eapply only_at_trans]. etransitivity; [exact E|]. cbn.
    assert (role_mask (ws_role w) (ws_mask w) l =
      role_mask (ws_role w) (ws_mask w) l1 ++ role_mask (ws_role w) (ws_mask w) l2) as Em.
    { rewrite El. destruct (decide (length l ≤ 32)%nat).
      - unfold l2. rewrite drop_ge by done. unfold role_mask. simpl.
        destruct (decide _); by rewrite !app_nil_r.
      - apply role_mask_app. rewrite Hl1. rewrite Hsz. lia. }
    rewrite Em, app_assoc. done.
Qed.

(** *** Receiving *)

Definition peer (role : websocket_mode) : websocket_mode :=
  match role with WS_ROLE_SERVER => WS_ROLE_CLIENT | WS_ROLE_CLIENT => WS_ROLE_SERVER end.

Definition rx_rest (k : nat) (c : list Z) (cs : list (list Z)) : list (list Z) :=
  if decide (drop k c = []) then cs else drop k c :: cs.

Lemma rx_rest_concat k c cs : concat (rx_rest k c cs) = drop k c ++ concat cs.
Proof. unfold rx_rest. destruct (decide _) as [->|]; done. Qed.

(** A reception takes from the front of the first chunk. *)
Lemma sc_recv_ok s p k timeout c cs :
  sc_rx s = c :: cs → c ≠ [] → (0 < k)%nat → Forall is_u8 c → mapped (sc_mem s) p k →
  st_recv p k timeout s =
    Ok (Z.of_nat (length (take k c)),
        sc_with (put_bytes (sc_mem s) p (take k c)) (rx_rest k c cs) (sc_tx s) s).
Proof.
  intros Hrx Hc Hk Hu Hm. cbn. unfold sc_recv. destruct (Z.eqb_spec k 0); [lia|]. rewrite Hrx.
  destruct c as [|b c]; [done|]. rewrite Nat2Z.id, store_bytes_ok, bind_Ok.
  - unfold rx_rest. case_bool_decide; by case_decide.
  - eapply mapped_le; [|exact Hm]. rewrite length_take. lia.
  - by apply Forall_take.
Qed.

(** Of the next [n] bytes, every chunk that ends before them has a multiple of
    four bytes: the mask starts anew with every reception. *)
Fixpoint aligned (n : nat) (cs : list (list Z)) : Prop :=
  match cs with
  | [] => True
  | c :: cs' => (0 < n)%nat → c ≠ [] ∧
      ((length c < n)%nat → length c mod 4 = 0 ∧ aligned (n - length c) cs')
  end.

Lemma aligned_rest n k c cs :
  aligned n (c :: cs) → (k ≤ n)%nat → k mod 4 = 0 ∨ (length c ≤ k)%nat →
  (length (take k c) < n)%nat →
  aligned (n - length (take k c)) (rx_rest k c cs) ∧ length (take k c) mod 4 = 0.
Proof.
  intros Hal Hk Hmod Hlt. destruct Hal as [Hne Hal]; [lia|]. rewrite length_take in *. unfold rx_rest.
  destruct (decide (drop k c = [])) as [E|E].
  - apply (f_equal length) in E. rewrite length_drop in E. simpl in E.
    replace (k `min` length c)%nat with (length c) in * by lia. by destruct (Hal Hlt).
  - assert (k < length c)%nat.
    { destruct (decide (k < length c)%nat); [done|]. rewrite drop_ge in E by lia. done. }
    replace (k `min` length c)%nat with k in * by lia. split; [|lia]. intros _. split; [done|].
    rewrite length_drop. intros Hlt'. destruct Hal as [H1 H2]; [lia|]. split; [lia|].
    by replace (n - k - (length c - k))%nat with (n - length c)%nat by lia.
Qed.

Lemma only_at_widen b k a n m m' : only_at b k m m' → a ≤ b → b + k ≤ a + n → only_at a n m m'.
Proof. intros [H1 H2] Hl Hr. split; [|done]. intros i Hi. apply H1. lia. Qed.

(** Only the buffer and the destination may have changed. *)
Definition only_two (a n b k : Z) (m m' : mem) : Prop :=
  (∀ i, ¬ (a ≤ i < a + n) → ¬ (b ≤ i < b + k) → m' !! i = m !! i) ∧
  ∀ i, is_Some (m !! i) → is_Some (m' !! i).

Lemma only_two_refl a n b k m : only_two a n b k m m.
Proof. by split. Qed.

Lemma only_two_trans a n b k m1 m2 m3 :
  only_two a n b k m1 m2 → only_two a n b k m2 m3 → only_two a n b k m1 m3.
Proof. intros [H1 H2] [H3 H4]. split; [|by auto]. intros i Hi Hj. by rewrite H3, H1. Qed.

Lemma only_two_mapped a n b k m m' p j : only_two a n b k m m' → mapped m p j → mapped m' p j.
Proof. intros [_ H] Hm i Hi. by apply H, Hm. Qed.

(** The piece [l] that was received is unmasked and copied to its place. *)
Lemma place_piece {A} w buf ptr offs l (g : prog script A) s :
  bytes_at (sc_mem s) buf l → (length l ≤ 32)%nat → Forall is_u8 l → Forall is_u8 (ws_mask w) →
  mapped (sc_mem s) (ptr + offs) (length l) → ptr ≠ 0 →
  buf + 32 ≤ ptr + offs ∨ ptr + offs + length l ≤ buf →
  ∃ m', ((if is_role w WS_ROLE_SERVER
          then writes (λ m, mask_loop (ws_mask w) m buf 0 (Z.to_nat (length l))) else mret ());;
         (if given ptr then writes (λ m, memcpy m (ptr + offs) buf (length l)) else mret ());; g) s =
        g (sc_with m' (sc_rx s) (sc_tx s) s) ∧
    bytes_at m' (ptr + offs) (role_mask (peer (ws_role w)) (ws_mask w) l) ∧
    only_two buf 32 (ptr + offs) (length l) (sc_mem s) m'.
Proof.
  intros Hb Hlen Hu Hmu Hd Hp Ha. rewrite Nat2Z.id.
  destruct (masked_step (is_role w WS_ROLE_SERVER) (ws_mask w) buf l s Hb Hu Hmu) as (m1 & E & Hb1 & O).
  rewrite (prog_bind_Ok _ _ _ _ _ E). clear E.
  replace (if is_role w WS_ROLE_SERVER then mask_from (ws_mask w) 0 l else l)
    with (role_mask (peer (ws_role w)) (ws_mask w) l) in Hb1
    by (unfold role_mask, is_role; by destruct (ws_role w)).
  set (l' := role_mask _ _ l) in *. assert (length l = length l') as Hl by (by unfold l'; rewrite role_mask_length).
  unfold given. destruct (Z.eqb_spec ptr 0); [done|]. cbn [negb].
  rewrite (bind_writes _ _ _ (put_bytes m1 (ptr + offs) l')); cycle 1.
  { cbn. rewrite Hl. apply memcpy_ok; [done| | | |lia].
    - rewrite <- Hl. by eapply only_at_mapped.
    - by apply role_mask_u8.
    - unfold CString.apart. lia. }
  exists (put_bytes m1 (ptr + offs) l'). split; [done|]. split; [apply put_bytes_bytes_at|]. split.
  - intros i Hi Hj. rewrite put_bytes_lookup_ne by lia. apply O. lia.
  - intros i Hi. apply (only_at_put m1 (ptr + offs) l' (ptr + offs) (length l)); [lia..|]. by apply O.
Qed.

Lemma recv_payload_loop_ok w buf ptr sz : ∀ fuel s offs l more,
  concat (sc_rx s) = l ++ more → aligned (length l) (sc_rx s) → Forall (Forall is_u8) (sc_rx s) →
  Forall is_u8 (ws_mask w) → mapped (sc_mem s) buf 32 → mapped (sc_mem s) (ptr + offs) (length l) →
  ptr ≠ 0 → buf + 32 ≤ ptr + offs ∨ ptr + offs + length l ≤ buf →
  sz = offs + length l → (length l < fuel)%nat →
  ∃ m' rx', recv_payload_loop fuel w buf ptr sz offs s = Ok (sz, sc_with m' rx' (sc_tx s) s) ∧
    concat rx' = more ∧ bytes_at m' (ptr + offs) (role_mask (peer (ws_role w)) (ws_mask w) l) ∧
    only_two buf 32 (ptr + offs) (length l) (sc_mem s) m'.
Proof.
  induction fuel as [|fuel IH]; intros s offs l more Hrx Hal Hu Hmu Hm Hd Hp Ha Hsz Hf; [lia|].
  cbn [recv_payload_loop]. destruct (Z.ltb_spec offs sz) as [Hlt|Hge]; cycle 1.
  { assert (l = []) as -> by (destruct l; [done|simpl in *; lia]).
    exists (sc_mem s), (sc_rx s). split_and!; [|done|unfold role_mask; by destruct (decide _)|done].
    simpl in Hsz. rewrite Hsz, Z.add_0_r. by destruct s. }
  destruct (sc_rx s) as [|c cs] eqn:Erx.
  { simpl in Hrx. symmetry in Hrx. apply app_nil in Hrx as [-> _]. simpl in *. lia. }
  remember (Z.to_nat (Z.min 32 (sz - offs))) as k eqn:Ek.
  replace (Z.min 32 (sz - offs)) with (Z.of_nat k) by lia.
  apply Forall_cons in Hu as [Huc Hucs]. assert (c ≠ []) as Hc by (apply Hal; lia).
  assert (mapped (sc_mem s) buf k) as Hmk by (eapply mapped_le; [|exact Hm]; lia).
  rewrite (prog_bind_Ok _ _ _ _ _ (sc_recv_ok s buf k 0 c cs Erx Hc ltac:(lia) Huc Hmk)).
  remember (take k c) as pc eqn:Epc.
  assert (length pc = (k `min` length c)%nat) as Hpl by (rewrite Epc; apply length_take).
  assert (length c ≠ 0%nat) as Hcl by (by destruct c).
  assert (c = pc ++ drop k c) as Ec by (rewrite Epc; symmetry; apply take_drop).
  destruct (Z.ltb_spec (length pc) EOK); [unfold EOK in *; lia|].
  assert (l = pc ++ drop (length pc) l ∧ drop k c ++ concat cs = drop (length pc) l ++ more) as [El Erest].
  { simpl in Hrx. rewrite Ec, <- app_assoc in Hrx.
    rewrite <- (take_drop (length pc) l), <- app_assoc in Hrx.
    apply app_inj_1 in Hrx as [H1 H2]; [|rewrite length_take; lia].
    split; [rewrite H1 at 1; by rewrite take_drop|done]. }
  remember (drop (length pc) l) as l2 eqn:El2.
  assert (length l = length pc + length l2)%nat as Hll by (rewrite El at 1; apply length_app).
  edestruct (place_piece w buf ptr offs pc
    (recv_payload_loop fuel w buf ptr sz (offs + length pc))
    (sc_with (put_bytes (sc_mem s) buf pc) (rx_rest k c cs) (sc_tx s) s)) as (m1 & E & Hb & O);
    [apply put_bytes_bytes_at|lia|rewrite Epc; by apply Forall_take|done| |done|lia|].
  { apply put_bytes_mapped. eapply mapped_le; [|exact Hd]. lia. }
  rewrite E. clear E.
  assert (aligned (length l2) (rx_rest k c cs) ∧ (l2 ≠ [] → length pc mod 4 = 0)) as [Hal2 Hmod].
  { destruct (decide (l2 = [])) as [->|Hne].
    - split; [|done]. simpl. destruct (rx_rest k c cs); simpl; [done|lia].
    - assert (length l2 ≠ 0%nat) by (by destruct l2).
      destruct (aligned_rest (length l) k c cs) as [H1 H2]; [done|lia|lia|rewrite <- Epc; lia|].
      rewrite <- Epc in *. split; [|done]. by replace (length l2) with (length l - length pc)%nat by lia. }
  destruct (IH (sc_with m1 (rx_rest k c cs) (sc_tx s) s) (offs + length pc) l2 more)
    as (m' & rx' & E & Hmore & Hb' & O'); cbn [sc_with sc_mem sc_rx sc_tx]; try done.
  - rewrite rx_rest_concat. by rewrite Erest.
  - unfold rx_rest. destruct (decide _); [done|]. constructor; [by apply Forall_drop|done].
  - eapply only_two_mapped; [exact O|]. by apply put_bytes_mapped.
  - rewrite Z.add_assoc. eapply only_two_mapped; [exact O|]. apply put_bytes_mapped.
    rewrite Hll in Hd. by apply mapped_app in Hd as [_ Hd].
  - lia.
  - lia.
  - lia.
  - exists m', rx'. split; [exact E|]. split; [done|]. split.
    + rewrite El. assert (role_mask (peer (ws_role w)) (ws_mask w) (pc ++ l2) =
        role_mask (peer (ws_role w)) (ws_mask w) pc ++ role_mask (peer (ws_role w)) (ws_mask w) l2) as ->.
      { destruct (decide (l2 = [])) as [->|Hne]; [|apply role_mask_app; by apply Hmod].
        unfold role_mask. destruct (decide _); simpl; by rewrite !app_nil_r. }
      rewrite bytes_at_app, role_mask_length. split; [|by rewrite <- Z.add_assoc].
      destruct O' as [O' _]. rewrite bytes_at_iff in Hb |- *. intros i x Hi.
      pose proof (lookup_lt_Some _ _ _ Hi) as Hlt'. rewrite role_mask_length in Hlt'.
      rewrite O'; [by apply Hb|lia|lia].
    + split.
      * intros i Hi Hj. destruct O' as [O' _], O as [O _]. rewrite O', O by lia. cbn.
        apply put_bytes_lookup_ne. lia.
      * intros i Hi. apply O', O. cbn. apply (only_at_put _ buf pc buf 32); [lia..|done].
Qed.

(** *** Receiving a header *)

(** A part of the first chunk is received whole. *)
Lemma recv_part s p l rest cs timeout :
  sc_rx s = (l ++ rest) :: cs → l ≠ [] → Forall is_u8 (l ++ rest) → mapped (sc_mem s) p (length l) →
  st_recv p (length l) timeout s =
    Ok (Z.of_nat (length l),
        sc_with (put_bytes (sc_mem s) p l) (if decide (rest = []) then cs else rest :: cs) (sc_tx s) s).
Proof.
  intros Hrx Hl Hu Hm. assert (length l ≠ 0%nat) by (by destruct l).
  rewrite (sc_recv_ok s p (length l) timeout (l ++ rest) cs); try done; [|by destruct l|lia].
  unfold rx_rest. by rewrite take_app_length, drop_app_length.
Qed.

Lemma header_rest_size role opcode n :
  opcode ∈ frame_opcodes → 0 ≤ n →
  ∀ mask, length mask = 4%nat →
  header_rest (header_word role opcode n) = length (size_field n ++ mask_field role mask).
Proof.
  intros Ho Hn mask Hm. destruct (header_word_received role opcode n Ho Hn) as (_ & Hs & Hf & _).
  unfold header_rest. rewrite Hs, Hf, length_app. unfold size_field, mask_field.
  destruct (Z.ltb_spec n 126).
  - destruct (Z.ltb_spec n 126); [|lia]. case_bool_decide; case_decide; try done; simpl; lia.
  - simpl. case_bool_decide; case_decide; try done; simpl; lia.
Qed.

Lemma ws_recv_header_ok s w pld timeout mask opcode n rest cs :
  sc_rx s = (frame_header (peer (ws_role w)) mask opcode n ++ rest) :: cs →
  opcode ∈ frame_opcodes → 0 ≤ n < 0xffff → length mask = 4%nat → Forall is_u8 mask →
  Forall is_u8 rest → mapped (sc_mem s) pld 14 →
  ∃ m', WebSocket_RecvHeader w pld timeout s =
    Ok ((EOK, header_word (peer (ws_role w)) opcode n, Some n,
         if decide (ws_role w = WS_ROLE_SERVER) then upd_mask mask w else w),
        sc_with m' (if decide (rest = []) then cs else rest :: cs) (sc_tx s) s) ∧
    only_at pld 14 (sc_mem s) m'.
Proof.
  intros Hrx Ho Hn Hmask Hmu Hu Hm. set (role := peer (ws_role w)) in *.
  destruct (header_word_received role opcode n Ho ltac:(lia)) as (Hw & Hs & Hf & Hop).
  pose proof (header_rest_size role opcode n Ho ltac:(lia) mask Hmask) as Hrest.
  unfold WebSocket_RecvHeader, frame_header in *. rewrite <- app_assoc in Hrx.
  set (hdr := header_word role opcode n) in *. set (more := size_field n ++ mask_field role mask) in *.
  assert (Forall is_u8 more) as Hmore.
  { unfold more, size_field, mask_field. apply Forall_app. destruct (n <? 126), (decide _); split; auto with word. }
  assert (length more ≤ 6)%nat as Hml.
  { unfold more, size_field, mask_field. rewrite length_app. destruct (n <? 126), (decide _); simpl; lia. }
  pose proof (recv_part s pld (be16 hdr) (more ++ rest) cs timeout Hrx) as E.
  rewrite (prog_bind_Ok _ _ _ _ _ (E ltac:(done) ltac:(rewrite !Forall_app; auto with word)
    ltac:(intros i Hi; apply Hm; simpl in Hi; lia))). clear E.
  change (Z.of_nat (length (be16 hdr)) <? EOK) with false. cbv iota.
  set (m1 := put_bytes (sc_mem s) pld (be16 hdr)).
  rewrite (bind_reads _ _ _ (HTOBE16 hdr)) by (apply load16_be, put_bytes_bytes_at).
  rewrite u16_be by done. unfold mask_wrong, is_role. rewrite Hf.
  assert ((bool_decide (ws_role w = WS_ROLE_SERVER) && negb (bool_decide (role = WS_ROLE_CLIENT)) ||
           bool_decide (ws_role w = WS_ROLE_CLIENT) && bool_decide (role = WS_ROLE_CLIENT)) = false) as ->
    by (unfold role; by destruct (ws_role w)).
  rewrite Hs, Hrest. set (m2 := put_bytes m1 (pld + 2) more).
  rewrite (prog_bind_Ok _ _ _ (Z.of_nat (length more))
    (sc_with m2 (if decide (rest = []) then cs else rest :: cs) (sc_tx s) s)); cycle 1.
  { destruct (decide (more = [])) as [Em|Em].
    - unfold m2. rewrite Em. cbn. unfold sc_recv. simpl. by destruct (decide (rest = [])).
    - set (s1 := sc_with _ _ _ _). pose proof (recv_part s1 (pld + 2) more rest cs 0) as E.
      rewrite E; [done| |done|by rewrite Forall_app|].
      + unfold s1. cbn. destruct (decide (more ++ rest = [])) as [Ea|]; [|done].
        apply app_nil in Ea as [? _]. done.
      + eapply only_at_mapped; [apply (only_at_put _ _ _ pld 2); simpl; lia|].
        intros i Hi. apply Hm. lia. }
  destruct (Z.ltb_spec (length more) EOK); [unfold EOK in *; lia|].
  assert (bytes_at m2 (pld + 2) (size_field n ++ mask_field role mask)) as Hb by apply put_bytes_bytes_at.
  apply bytes_at_app in Hb as [Hb1 Hb2].
  rewrite (prog_bind_Ok _ _ _ (Some n)
    (sc_with m2 (if decide (rest = []) then cs else rest :: cs) (sc_tx s) s)); cycle 1.
  { unfold size_field in Hb1. destruct (Z.ltb_spec n 126) as [Hl|Hl].
    - destruct (Z.eqb_spec n 126), (Z.eqb_spec n 127); try lia. destruct (Z.ltb_spec n 126); [done|lia].
    - simpl (126 =? 126). cbv iota. rewrite (bind_reads _ _ _ (HTOBE16 n)) by (by apply load16_be).
      unfold mret, prog_ret. rewrite u16_be by (unfold is_u16; lia). done. }
  exists m2. split.
  - assert (mask_offset hdr = 2 + length (size_field n)) as Hoff.
    { unfold mask_offset, size_field. rewrite Hs. destruct (Z.ltb_spec n 126), (Z.ltb_spec 126 126);
        try lia; simpl; destruct (Z.ltb_spec n 126); done || lia. }
    rewrite Hoff. unfold role. destruct (ws_role w) eqn:Er; simpl.
    + rewrite (bind_reads _ _ _ mask); [done|]. cbn. rewrite Z.add_assoc.
      unfold role in Hb2.
      pose proof (load_bytes_ok _ _ _ Hb2) as E. change (load_bytes m2 (pld + 2 + length (size_field n)) (length mask) = Ok mask) in E.
      rewrite Hmask in E. exact E.
    + done.
  - eapply only_at_trans; apply only_at_put; simpl; lia.
Qed.

(** ** Whole frames *)

Definition data_opcode (dtype : Z) : Z :=
  if dtype =? WS_DATA_TYPE_TEXT then WS_HDR_OPCODE_TEXT else WS_HDR_OPCODE_BIN.
Definition is_data (dtype : Z) : Prop := dtype = WS_DATA_TYPE_TEXT ∨ dtype = WS_DATA_TYPE_BIN.

Lemma data_opcode_ok dtype : data_opcode dtype ∈ frame_opcodes.
Proof. unfold data_opcode. destruct (_ =? _); set_solver. Qed.

(** A region of [n] bytes at [a] is there and does not meet the one at [b]. *)
Definition beside (a n b k : Z) : Prop := a + n ≤ b ∨ b + k ≤ a.

(** The frame a socket sends. *)
Definition frame_of (w : websocket) (t dtype : Z) (payload : list Z) : list Z :=
  frame_header (ws_role w) (next_mask w t) (data_opcode dtype) (length payload) ++
  role_mask (ws_role w) (next_mask w t) payload.

Lemma lock_free task_id v (s : script) : v = 0 ∨ v = task_id → lock task_id v s = Ok ((), s).
Proof.
  intros Hv. unfold lock. destruct (Z.eqb_spec v 0), (Z.eqb_spec v task_id); try done. by destruct Hv.
Qed.

Lemma ws_send_ok task_id lc w s dtype ptr payload :
  is_data dtype → ws_state w = WS_STATE_OPEN → ws_tx_sem w = 0 ∨ ws_tx_sem w = task_id →
  sc_closed s = false → bytes_at (sc_mem s) ptr payload → Forall is_u8 payload →
  length payload < 0xffff → Forall is_u8 (ws_mask w) →
  mapped (sc_mem s) (lc_pld lc) 14 → mapped (sc_mem s) (lc_buf lc) 32 →
  beside (lc_pld lc) 14 ptr (length payload) → beside (lc_buf lc) 32 ptr (length payload) →
  ∃ m' w', WebSocket_Send task_id lc w dtype ptr (length payload) s =
    Ok ((Z.of_nat (length payload), w'),
        sc_with m' (sc_rx s) (sc_tx s ++ frame_of w (sc_now s) dtype payload) s) ∧
    ws_state w' = WS_STATE_OPEN ∧ ws_tx_sem w' = 0.
Proof.
  intros Hd Hst Hsem Hc Hb Hu Hlen Hmu Hmp Hmb Hd1 Hd2. unfold WebSocket_Send, beside in *.
  replace (negb _) with false by (destruct Hd as [-> | ->]; done).
  rewrite bool_decide_true by done. cbn [negb]. unfold lock_tx.
  rewrite bind_assoc, (prog_bind_Ok _ _ _ _ _ (lock_free task_id _ s Hsem)).
  rewrite bind_ret. fold (data_opcode dtype). set (w1 := upd_sems task_id (ws_rx_sem w) w).
  destruct (send_header_ok s w1 (lc_pld lc) (data_opcode dtype) (length payload) Hc Hmp
    (data_opcode_ok dtype) ltac:(lia)) as (m1 & E & O1).
  rewrite (prog_bind_Ok _ _ _ _ _ E). clear E. cbv beta iota.
  set (mask := next_mask w1 (sc_now s)) in *. set (hdr := frame_header _ _ _ _) in *.
  destruct (Z.leb_spec EOK (length hdr)); [|unfold EOK in *; lia].
  set (w2 := upd_mask mask w1). set (s1 := sc_with m1 (sc_rx s) (sc_tx s ++ hdr) s).
  destruct (send_payload_loop_ok w2 (lc_buf lc) ptr (length payload) (S (length payload)) s1 0 payload)
    as (m2 & E & O2); try done.
  - rewrite Z.add_0_r. eapply only_at_bytes; [exact O1| |done]. lia.
  - simpl. subst mask. unfold next_mask. destruct (decide _); [apply mask_bytes_u8|done].
  - by eapply only_at_mapped.
  - lia.
  - lia.
  - unfold WebSocket_SendPayload. rewrite Nat2Z.id, (prog_bind_Ok _ _ _ _ _ E).
    destruct (Z.ltb_spec (length payload) EOK); [unfold EOK in *; lia|].
    exists m2, (release_tx w2). split; [|done]. unfold mret, prog_ret, frame_of, s1. f_equal. f_equal.
    unfold sc_with. cbn. by rewrite <- app_assoc.
Qed.

(** What a receiver holds: it is not in the middle of a frame. *)
Record ready (task_id : Z) (lc : ws_locals) (w : websocket) (s : script) : Prop := {
  rd_frame : ws_rx_size w = ws_rx_offs w;
  rd_sem : ws_rx_sem w = 0 ∨ ws_rx_sem w = task_id;
  rd_mask : Forall is_u8 (ws_mask w);
  rd_pld : mapped (sc_mem s) (lc_pld lc) 14;
  rd_buf : mapped (sc_mem s) (lc_buf lc) 32 }.

Definition frame_arrives (hdr body more : list Z) (rx : list (list Z)) : Prop :=
  ∃ rest cs, rx = (hdr ++ rest) :: cs ∧ Forall is_u8 rest ∧ Forall (Forall is_u8) cs ∧
    rest ++ concat cs = body ++ more ∧
    aligned (length body) (if decide (rest = []) then cs else rest :: cs).

(** The payload of a frame whose header was taken in. *)
Lemma recv_data_part lc w s dtype ptr sz body more :
  is_data dtype → ws_rx_opcode w = data_opcode dtype → ws_rx_offs w = 0 →
  ws_rx_size w = length body → length body ≤ sz → length body < 0xffff → ptr ≠ 0 →
  Forall is_u8 (ws_mask w) → mapped (sc_mem s) (lc_buf lc) 32 → mapped (sc_mem s) ptr (length body) →
  beside (lc_buf lc) 32 ptr (length body) → concat (sc_rx s) = body ++ more →
  aligned (length body) (sc_rx s) → Forall (Forall is_u8) (sc_rx s) →
  ∃ s' w', recv_data lc w ptr sz s = Ok ((Z.of_nat (length body), Some dtype, w'), s') ∧
    bytes_at (sc_mem s') ptr (role_mask (peer (ws_role w)) (ws_mask w) body) ∧ concat (sc_rx s') = more ∧
    ws_rx_size w' = ws_rx_offs w' ∧ ws_rx_sem w' = 0 ∧ ws_state w' = ws_state w.
Proof.
  intros Hd Hop Ho Hs Hsz Hlen Hp Hmu Hb Hm Hd2 Hcat Hal Hu. unfold recv_data, beside in *.
  rewrite Ho, Hs, Z.sub_0_r, u32_small, Z.min_r by word_lia.
  destruct (recv_payload_loop_ok w (lc_buf lc) ptr (length body) (S (length body)) s 0 body more)
    as (m' & rx' & E & Hmore & Hbytes & O); rewrite ?Z.add_0_r; try done; try lia.
  unfold WebSocket_RecvPayload. rewrite Nat2Z.id, (prog_bind_Ok _ _ _ _ _ E).
  destruct (Z.leb_spec EOK (length body)); [|unfold EOK in *; lia].
  unfold recv_end. destruct (Z.ltb_spec (length body) EOK); [unfold EOK in *; lia|].
  cbn [upd_rx ws_rx_opcode]. rewrite Hop.
  assert ((if data_opcode dtype =? WS_HDR_OPCODE_TEXT then WS_DATA_TYPE_TEXT else WS_DATA_TYPE_BIN) = dtype)
    as -> by (by destruct Hd as [-> | ->]).
  do 2 eexists. split; [done|]. cbn. split_and!; try done; [by rewrite Z.add_0_r in Hbytes|].
  rewrite u32_small by word_lia. lia.
Qed.

Lemma recv_data_ok task_id lc w s dtype ptr sz timeout mask body more :
  is_data dtype → ready task_id lc w s → ptr ≠ 0 → mapped (sc_mem s) ptr (length body) →
  beside (lc_pld lc) 14 ptr (length body) → beside (lc_buf lc) 32 ptr (length body) →
  length body < 0xffff → length body ≤ sz → length mask = 4%nat → Forall is_u8 mask →
  frame_arrives (frame_header (peer (ws_role w)) mask (data_opcode dtype) (length body)) body more (sc_rx s) →
  ∃ s' w', WebSocket_Recv task_id lc 1 w ptr sz timeout s =
      Ok ((Z.of_nat (length body), Some dtype, w'), s') ∧
    bytes_at (sc_mem s') ptr (role_mask (peer (ws_role w)) mask body) ∧ concat (sc_rx s') = more ∧
    ws_rx_size w' = ws_rx_offs w' ∧ ws_rx_sem w' = 0 ∧ ws_state w' = ws_state w.
Proof.
  intros Hd [Hfr Hsem Hwm Hpld Hbuf] Hptr Hm Hd1 Hd2 Hlen Hsz Hml Hmu (rest & cs & Hrx & Hu & Hus & Hcat & Hal).
  unfold WebSocket_Recv. cbn [recv_again]. unfold lock_rx.
  rewrite bind_assoc, (prog_bind_Ok _ _ _ _ _ (lock_free task_id _ s Hsem)), bind_ret.
  set (w1 := upd_sems (ws_tx_sem w) task_id w).
  change (ws_rx_size w1) with (ws_rx_size w). change (ws_rx_offs w1) with (ws_rx_offs w).
  rewrite Hfr, Z.eqb_refl. set (hdr_to := if given timeout then _ else _).
  destruct (ws_recv_header_ok s w1 (lc_pld lc) hdr_to mask (data_opcode dtype) (length body) rest cs)
    as (m1 & E & O1); try done; [apply data_opcode_ok|lia|].
  rewrite bind_assoc, (prog_bind_Ok _ _ _ _ _ E). clear E.
  set (w2 := if decide (ws_role w1 = WS_ROLE_SERVER) then upd_mask mask w1 else w1).
  assert (ws_mask w2 = (if decide (ws_role w = WS_ROLE_SERVER) then mask else ws_mask w)) as Hm2.
  { unfold w2. cbn [ws_role w1 upd_sems]. destruct (decide (ws_role w1 = WS_ROLE_SERVER)) as [e|e], (decide (ws_role w = WS_ROLE_SERVER)); done. }
  assert (ws_role w2 = ws_role w ∧ ws_state w2 = ws_state w) as [Hr2 Hst2].
  { unfold w2. by destruct (decide (ws_role w1 = WS_ROLE_SERVER)). }
  clearbody w2. cbv beta iota.
  change (EOK <? EOK) with false. cbv iota. rewrite bind_ret. cbv beta iota.
  change (EOK <? EOK) with false. cbv iota. cbn [default].
  unfold EOK at 1. match goal with |- context [recv_data _ ?x _ _] => set (w3 := x) end.
  set (s3 := sc_with m1 _ _ _).
  assert (ws_mask w3 = ws_mask w2 ∧ ws_role w3 = ws_role w2 ∧ ws_state w3 = ws_state w2)
    as (Hm3 & Hr3 & Hst3) by done.
  assert (ws_rx_opcode w3 = data_opcode dtype) as Hop3.
  { unfold w3. cbn. apply header_word_received; [apply data_opcode_ok|lia]. }
  assert (role_mask (peer (ws_role w)) mask body = role_mask (peer (ws_role w3)) (ws_mask w3) body) as ->.
  { rewrite Hr3, Hm3, Hm2, Hr2. by destruct (ws_role w). }
  rewrite <- Hst2, <- Hst3. change (0 <? EOK) with false. cbv iota. rewrite Hop3.
  replace (_ || _) with true by (by destruct Hd as [-> | ->]).
  apply recv_data_part; try done.
  - rewrite Hm3, Hm2. by destruct (ws_role w).
  - by eapply only_at_mapped.
  - by eapply only_at_mapped.
  - cbn. destruct (decide (rest = [])) as [->|]; [done|]. by rewrite <- Hcat.
  - cbn. by destruct (decide (rest = [])); [|constructor].
Qed.
End script.

(** ** Lines *)

Lemma recv_byte s p c cs b timeout :
  sc_rx s = (b :: c) :: cs → is_u8 b → Forall is_u8 c → mapped (sc_mem s) p 1 →
  st_recv p 1 timeout s =
    Ok (1, sc_with (<[p := b]> (sc_mem s)) (if decide (c = []) then cs else c :: cs) (sc_tx s) s).
Proof. intros Hrx Hb Hc Hm. by apply (recv_part s p [b] c cs timeout); [| |constructor|]. Qed.

(** Receive bytes up to a newline, as long as the buffer has room. *)
Lemma line_loop_ok line sz timeout more : ∀ fuel l s c,
  concat (sc_rx s) = l ++ 10 :: more → Forall (λ c, c ≠ []) (sc_rx s) → Forall (Forall is_u8) (sc_rx s) →
  10 ∉ l → c - line + length l < sz → mapped (sc_mem s) c (S (length l)) → (length l < fuel)%nat →
  ∃ m' rx', line_loop fuel line c sz timeout s = Ok (inl (c + length l), sc_with m' rx' (sc_tx s) s) ∧
    concat rx' = more ∧ Forall (λ c, c ≠ []) rx' ∧ bytes_at m' c (l ++ [10]) ∧
    only_at c (S (length l)) (sc_mem s) m'.
Proof.
  induction fuel as [|fuel IH]; intros l s c Hrx Hne Hu Hl Hsz Hm Hf; [lia|]. cbn [line_loop].
  destruct (sc_rx s) as [|[|b r] cs] eqn:Erx.
  { by destruct l. }
  { by apply Forall_cons in Hne as [? _]. }
  apply Forall_cons in Hu as [[Hb Hur]%Forall_cons Hucs]. apply Forall_cons in Hne as [_ Hne].
  apply mapped_cons in Hm as [Hm0 Hm].
  rewrite (prog_bind_Ok _ _ _ _ _ (recv_byte s c r cs b timeout Erx Hb Hur
    ltac:(intros i Hi; by replace i with c by lia))).
  change (1 <? EOK) with false. cbv iota.
  set (rx1 := if decide (r = []) then cs else r :: cs).
  assert (concat rx1 = r ++ concat cs) as Hrx1 by (unfold rx1; by destruct (decide (r = [])) as [-> |]).
  assert (Forall (λ c, c ≠ []) rx1 ∧ Forall (Forall is_u8) rx1) as [Hne1 Hu1].
  { unfold rx1. destruct (decide (r = [])); split; try constructor; done. }
  rewrite (bind_reads _ _ _ b) by (cbn; unfold load8; by rewrite lookup_insert_eq).
  assert (only_at c 1 (sc_mem s) (<[c:=b]> (sc_mem s))) as O1 by (apply (only_at_put _ c [b]); simpl; lia).
  destruct l as [|x l]; simpl in Hrx.
  - injection Hrx as -> Hrx. rewrite Z.eqb_refl. simpl. exists (<[c := 10]> (sc_mem s)), rx1.
    rewrite Z.add_0_r. split_and!; [done|by rewrite Hrx1|done|by rewrite lookup_insert_eq|done|done].
  - injection Hrx as -> Hrx. apply not_elem_of_cons in Hl as [Hx Hl].
    destruct (Z.eqb_spec x 10); [done|]. simpl in Hsz, Hf. destruct (Z.eqb_spec (c + 1 - line) sz); [lia|].
    destruct (IH l (sc_with (<[c:=x]> (sc_mem s)) rx1 (sc_tx s) s) (c + 1))
      as (m' & rx' & E & Hm1 & Hn1 & Hb1 & O); try done; [by rewrite <- Hrx, <- Hrx1|lia| |lia|].
    { by eapply only_at_mapped. }
    exists m', rx'. split; [etransitivity; [exact E|]; do 3 f_equal; simpl; lia|].
    split_and!; try done.
    + simpl. split; [|done]. destruct O as [O _]. rewrite O by lia. apply lookup_insert_eq.
    + destruct O as [O O'], O1 as [O1 O1']. split; [|by auto]. intros i Hi. simpl in Hi. rewrite O, O1 by lia. done.
Qed.

Lemma trim_space_ok m line l :
  bytes_at m line l → ∃ k, trim_space m line (length l) = Ok (line + Z.of_nat k) ∧ (k ≤ length l)%nat ∧
    Forall (λ c, isspace c = true) (drop k l) ∧ (∀ c, last (take k l) = Some c → isspace c = false).
Proof.
  induction l as [|x l IH] using rev_ind; intros Hb.
  { exists 0%nat. simpl. rewrite Z.add_0_r. done. }
  apply bytes_at_app in Hb as [Hb Hx]. rewrite length_app, Nat.add_1_r. cbn [trim_space].
  rewrite (load8_bytes _ _ _ _ Hx), bind_Ok. destruct (isspace x) eqn:Ex.
  - destruct (IH Hb) as (k & -> & Hk & Hd & Ht). exists k. split_and!; [done|lia| |].
    + rewrite drop_app_le by done. apply Forall_app. by repeat constructor.
    + by rewrite take_app_le.
  - exists (S (length l)). split_and!; [done|lia| |].
    + rewrite drop_ge; [constructor|]. rewrite length_app. simpl. lia.
    + rewrite take_ge by (rewrite length_app; simpl; lia). rewrite last_snoc. by intros c [= <-].
Qed.

(** a line is received whatever the pieces are it arrives in: the function
    returns with the line in the buffer, its trailing white space (the carriage
    return) cut off and terminated by NUL, having taken exactly the bytes up to
    the newline from the connection and written nowhere but into the buffer. *)
Theorem ws_line_received s line sz l more :
  concat (sc_rx s) = l ++ 10 :: more → Forall (λ c, c ≠ []) (sc_rx s) → Forall (Forall is_u8) (sc_rx s) →
  10 ∉ l → length l < sz → mapped (sc_mem s) line (S (length l)) →
  ∃ k s', WebSocket_RecvLine line sz s = Ok (Z.of_nat k, s') ∧ (k ≤ length l)%nat ∧
    bytes_at (sc_mem s') line (take k l ++ [0]) ∧
    Forall (λ c, isspace c = true) (drop k l) ∧ (∀ c, last (take k l) = Some c → isspace c = false) ∧
    concat (sc_rx s') = more ∧ only_at line (S (length l)) (sc_mem s) (sc_mem s').
Proof.
  intros Hrx Hne Hu Hl Hsz Hm. unfold WebSocket_RecvLine.
  destruct (line_loop_ok line sz 0 more (Z.to_nat sz) l s line) as (m' & rx' & E & Hm' & _ & Hb & O);
    try done; try lia.
  rewrite (prog_bind_Ok _ _ _ _ _ E). clear E. cbv iota.
  replace (Z.to_nat (line + length l - line)) with (length l) by lia.
  apply bytes_at_app in Hb as [Hb _]. destruct (trim_space_ok m' line l Hb) as (k & Ek & Hk & Hd & Ht).
  rewrite (bind_reads _ _ _ (line + k)) by exact Ek.
  assert (mapped m' line (S (length l))) as Hm1 by (by eapply only_at_mapped).
  rewrite (bind_writes _ _ _ (<[line + k := 0]> m')); cycle 1.
  { cbn. apply store8_u8; [apply Hm1; lia|unfold is_u8; lia]. }
  exists k. eexists. split; [unfold mret, prog_ret; do 2 f_equal; lia|].
  split_and!; try done.
  - cbn. apply bytes_at_app. split.
    + apply (put_bytes_bytes_at_other m' (line + k) [0]); [rewrite length_take_le by done; lia|].
      by apply bytes_at_take.
    + rewrite length_take_le by done. simpl. by rewrite lookup_insert_eq.
  - cbn. eapply only_at_trans; [exact O|]. apply (only_at_put _ (line + k) [0]); simpl; lia.
Qed.

(** C9: what a web socket sends another one receives, for payloads of less than
    65535 bytes, the limit of the 16-bit length.  The sender puts the frame
    of RFC 6455 on the connection, masked if it is a client; a receiver in the
    other role that gets the header in one piece and the payload in any pieces,
    of which those before the last byte have a multiple of four bytes, returns
    the payload, unmasked, and its type, keeps what follows the frame for the next
    call and stays open. *)
Theorem ws_frame_roundtrip id1 id2 lc1 lc2 w1 w2 s1 s2 dtype ptr1 ptr2 payload sz timeout more :
  is_data dtype → length payload < 0xffff → Forall is_u8 payload →
  ws_state w1 = WS_STATE_OPEN → ws_tx_sem w1 = 0 ∨ ws_tx_sem w1 = id1 → Forall is_u8 (ws_mask w1) →
  sc_closed s1 = false → bytes_at (sc_mem s1) ptr1 payload →
  mapped (sc_mem s1) (lc_pld lc1) 14 → mapped (sc_mem s1) (lc_buf lc1) 32 →
  beside (lc_pld lc1) 14 ptr1 (length payload) → beside (lc_buf lc1) 32 ptr1 (length payload) →
  ws_role w2 = peer (ws_role w1) → ready id2 lc2 w2 s2 → length payload ≤ sz →
  ptr2 ≠ 0 → mapped (sc_mem s2) ptr2 (length payload) →
  beside (lc_pld lc2) 14 ptr2 (length payload) → beside (lc_buf lc2) 32 ptr2 (length payload) →
  ∃ hdr body s1' w1',
    WebSocket_Send id1 lc1 w1 dtype ptr1 (length payload) s1 = Ok ((Z.of_nat (length payload), w1'), s1') ∧
    sc_tx s1' = sc_tx s1 ++ hdr ++ body ∧ length body = length payload ∧ ws_state w1' = WS_STATE_OPEN ∧
    (frame_arrives hdr body more (sc_rx s2) →
     ∃ s2' w2',
       WebSocket_Recv id2 lc2 1 w2 ptr2 sz timeout s2 = Ok ((Z.of_nat (length payload), Some dtype, w2'), s2') ∧
       bytes_at (sc_mem s2') ptr2 payload ∧ concat (sc_rx s2') = more ∧
       ws_rx_size w2' = ws_rx_offs w2' ∧ ws_rx_sem w2' = 0 ∧ ws_state w2' = ws_state w2).
Proof.
  intros Hd Hlen Hu Hst Hsem Hmu Hc Hb Hm1 Hm2 Hb1 Hb2 Hrole Hready Hsz Hp2 Hmp Hb3 Hb4.
  destruct (ws_send_ok id1 lc1 w1 s1 dtype ptr1 payload) as (m1 & w1' & E & Hst' & _); try done.
  set (mask := next_mask w1 (sc_now s1)).
  exists (frame_header (ws_role w1) mask (data_opcode dtype) (length payload)), (role_mask (ws_role w1) mask payload).
  do 2 eexists. split; [exact E|]. split; [done|]. split; [apply role_mask_length|]. split; [done|].
  assert (peer (ws_role w2) = ws_role w1) as Hpeer by (rewrite Hrole; by destruct (ws_role w1)).
  assert (∃ mk, length mk = 4%nat ∧ Forall is_u8 mk ∧
    frame_header (ws_role w1) mask (data_opcode dtype) (length payload) =
      frame_header (ws_role w1) mk (data_opcode dtype) (length payload) ∧
    role_mask (ws_role w1) mask payload = role_mask (ws_role w1) mk payload) as (mk & Hml & Hmk & -> & ->).
  { unfold mask, next_mask, frame_header, mask_field, role_mask. destruct (decide (ws_role w1 = WS_ROLE_CLIENT)).
    - exists (mask_bytes (sc_now s1)). split; [done|]. by split; [apply mask_bytes_u8|].
    - exists [0; 0; 0; 0]. split; [done|]. split; [by repeat constructor|done]. }
  intros Har. set (body := role_mask (ws_role w1) mk payload) in *.
  assert (length body = length payload) as Hbl by apply role_mask_length. rewrite <- Hpeer, <- Hbl in Har.
  edestruct (recv_data_ok id2 lc2 w2 s2 dtype ptr2 sz timeout mk body more) as (s2' & w2' & E2 & Hb5 & H);
    try (first [done|rewrite Hbl; done]).
  rewrite Hbl in E2. exists s2', w2'. split; [exact E2|]. split; [|done].
  rewrite Hpeer in Hb5. replace payload with (role_mask (ws_role w1) mk body); [done|].
  unfold body, role_mask. destruct (decide _); [apply mask_from_involutive|done].
Qed.

(** ** Concrete runs

    The literals of the program, one after the other from address 1 on, the local
    arrays from 2000 on, an argument behind them. *)
Definition ws_literals : list string :=
  map vs_str version_lut ++ map ss_msg status_lut ++ map fsp_str field_lut ++
  ["%.*s %.*s %.*s"; "%.*s %d %.*s"; "GET"; "%i"; "%a"; crlf; "GET %s %s" ++ crlf; "%s %d %s" ++ crlf;
   "%s: %i" ++ crlf; "%s: %f" ++ crlf; "%s: %s" ++ crlf; "/"; "websocket"; "Upgrade"]%string.

Fixpoint literal_at (l : list string) (a : Z) (s : string) : Z :=
  match l with
  | [] => 0
  | x :: l' => if String.eqb x s then a else literal_at l' (a + 1 + String.length x) s
  end.

Definition ws_lit : string → Z := literal_at ws_literals 1.
Definition ws_mem (arg : list Z) : mem :=
  put_bytes (put_bytes (put_bytes ∅ 1 (concat (map (λ s, chars s ++ [0]) ws_literals)))
    2000 (replicate 1400 0xee)) 3400 arg.
Definition ws_lc : ws_locals := mk_ws_locals 2000 2300 2500 2550 2850 2870 2910 3050 3080.
Definition ws_closed : websocket := mk_websocket WS_STATE_CLOSED 0 0 0 0 0 [0; 0; 0; 0] WS_ROLE_SERVER.
Definition ws_open (role : websocket_mode) : websocket :=
  mk_websocket WS_STATE_OPEN 0 0 0 0 0 [0; 0; 0; 0] role.
Definition ws_script (arg : list Z) (rx : list (list Z)) : script :=
  mk_script (ws_mem arg) rx [] 0x12345678 false.
Definition lines (l : list string) : list Z := concat (map (λ s, chars (s ++ crlf)%string) l).
Definition to_string (l : list Z) : string :=
  string_of_list_ascii (map (λ z, ascii_of_N (Z.to_N z)) l).

Definition demo_listen (url : string) (request : list string) : res (Z * websocket_state * string) :=
  '((ec, w), s) ← WebSocket_Listen ws_lit demo_frexpf demo_modff demo_expf ws_lc 30 ws_closed 80 3400 0
     (ws_script (text url) [lines request]);
  Ok (ec, ws_state w, to_string (sc_tx s)).

Definition demo_connect (url : Z) (response : list string) : res (Z * websocket_state * string) :=
  '((ec, w), s) ← WebSocket_Connect ws_lit demo_frexpf demo_modff demo_expf ws_lc 30 ws_closed 1 80 url
     (ws_script (text "/chat") [lines response]);
  Ok (ec, ws_state w, to_string (sc_tx s)).

Definition demo_recv (w : websocket) (timeout : Z) (rx : list (list Z)) : res (Z * option (list Z) * websocket) :=
  '((ec, _, w), s) ← WebSocket_Recv 7 ws_lc 20 w 3400 100 timeout (ws_script (replicate 100 0) rx);
  Ok (ec, get_bytes (sc_mem s) 3400 (Z.to_nat ec), w).

Definition request : list string :=
  ["Host: server"; "Upgrade: websocket"; "Connection: keep-alive, Upgrade";
   "Sec-WebSocket-Key: dGhlIHNhbXBsZSBub25jZQ=="; "Sec-WebSocket-Version: 13"; ""]%string.

(** The sample handshake of RFC 6455. *)
Example handshake :
  demo_listen "/chat" ("GET /chat HTTP/1.1"%string :: request) =
  Ok (EOK, WS_STATE_OPEN, to_string (lines
    ["HTTP/1.1 101 Switching Protocols"; "Upgrade: websocket"; "Connection: Upgrade";
     "Sec-WebSocket-Accept: s3pPLMBiTxaQ9kYGzzhZRbK+xOo="; ""]%string)).
Proof. vm_compute. reflexivity. Qed.

(** A request that is refused makes the function return success, with the socket
    closed: [ec] is still that of the last line. *)
Example refusal_returns_success :
  demo_listen "/chat" ("GET /news HTTP/1.1"%string :: request) =
  Ok (EOK, WS_STATE_CLOSED, to_string (lines ["HTTP/1.1 404 Not Found"; ""]%string)).
Proof. vm_compute. reflexivity. Qed.

(** Field names are compared as far as the known name goes. *)
Example field_prefix_taken :
  demo_listen "/chat" ("GET /chat HTTP/1.1" :: "Upgrade-Insecure-Requests: 1" :: request)%string =
  Ok (EOK, WS_STATE_CLOSED, to_string (lines ["HTTP/1.1 400 Bad Request"; ""]%string)).
Proof. vm_compute. reflexivity. Qed.

(** The client asks for the root whatever URL it is given, and runs into the
    null pointer when it is given none; a status it does not know is followed
    through a null pointer, too. *)
Example request_line_root :
  demo_connect 3400 [] =
  Ok (EFATAL, WS_STATE_CLOSED, to_string (lines
    ["GET / HTTP/1.1"; "Upgrade: websocket"; "Connection: Upgrade";
     "Sec-WebSocket-Key: eFY0EnlWNBJ6VjQSe1Y0Eg=="; "Sec-WebSocket-Version: 13"; ""]%string)) ∧
  demo_connect 0 [] = Fault OutOfBounds.
Proof. split; vm_compute; reflexivity. Qed.

Example unknown_status : demo_connect 3400 ["HTTP/1.1 200 OK"%string] = Fault NullDeref.
Proof. vm_compute. reflexivity. Qed.

(** The mask starts anew with every reception: after a piece of two bytes the
    rest of the payload is garbage. *)
Definition masked_hello : list Z := [0x37 ; 0xfa; 0x21; 0x3d; 0x7f; 0x9f; 0x4d; 0x51; 0x58].
Example mask_restarts :
  (fst <$> demo_recv (ws_open WS_ROLE_SERVER) 0 [[0x81; 0x85] ++ masked_hello]) =
    Ok (5, Some (chars "Hello")) ∧
  (fst <$> demo_recv (ws_open WS_ROLE_SERVER) 0 [[0x81; 0x85] ++ take 6 masked_hello; drop 6 masked_hello]) =
    Ok (5, Some [72; 101; Z.lxor 0x4d 0x37; Z.lxor 0x51 0xfa; Z.lxor 0x58 0x21]).
Proof. split; vm_compute; reflexivity. Qed.

(** Of a 64-bit size only four bytes are taken from the connection, and the
    stack behind them: the size is wrong and the rest of it is read as data. *)
Example long_size_lost :
  (ws_rx_size ∘ snd <$> demo_recv (ws_open WS_ROLE_CLIENT) 0
    [[0x82; 127; 0; 0; 0; 0; 0; 1; 0; 0] ++ replicate 200 5]) = Ok 0xeeeeeeee.
Proof. vm_compute. reflexivity. Qed.

(** A timeout of a second is used up by the first ping and then means "none":
    the call goes on for as long as the peer keeps silent. *)
Example timeout_lost :
  (fst <$> demo_recv (ws_open WS_ROLE_CLIENT) 1000 [[]; []; []; []; []; []; [0x82; 1]; [9]]) = Ok (1, Some [9]).
Proof. vm_compute. reflexivity. Qed.

(** After an error the reception semaphore is not released. *)
Example semaphore_kept :
  (λ '(ec, _, w), (ec, ws_rx_sem w)) <$> demo_recv (ws_open WS_ROLE_CLIENT) 0 [[0x83; 0]] = Ok (EFATAL, 7).
Proof. vm_compute. reflexivity. Qed.

(** *** Witnesses *)

Definition plain_mem : mem := put_bytes ∅ 1 (replicate 400 0).
Definition hello_mem : mem := put_bytes plain_mem 200 (chars "Hello").
Definition hello_frame : list Z := [0x81; 0x85; 0x78; 0x56; 0x34; 0x12; 0x30; 0x33; 0x58; 0x7e; 0x17].
Definition hello_lc : ws_locals := mk_ws_locals 1 1 1 1 50 100 1 1 1.
Definition hello_tx : script := mk_script hello_mem [] [] 0x12345678 false.
Definition hello_rx : script :=
  mk_script plain_mem [take 10 hello_frame; drop 10 hello_frame ++ [7]; [8; 9]] [] 0 false.

Lemma plain_mapped a n : 1 ≤ a → a + Z.of_nat n ≤ 401 → mapped plain_mem a n.
Proof.
  intros H1 H2 i Hi. assert (mapped plain_mem 1 400) as H.
  { apply (bytes_at_mapped plain_mem 1 (replicate 400 0)), put_bytes_bytes_at. }
  apply H. lia.
Qed.

Lemma hello_mapped a n : 1 ≤ a → a + Z.of_nat n ≤ 401 → mapped hello_mem a n.
Proof. intros. by apply put_bytes_mapped, plain_mapped. Qed.

Lemma ws_frame_roundtrip_witness :
  ∃ s1' w1' s2' w2',
    WebSocket_Send 3 hello_lc (ws_open WS_ROLE_CLIENT) WS_DATA_TYPE_TEXT 200 5 hello_tx = Ok ((5, w1'), s1') ∧
    sc_tx s1' = hello_frame ∧
    WebSocket_Recv 4 hello_lc 1 (ws_open WS_ROLE_SERVER) 300 20 0 hello_rx =
      Ok ((5, Some WS_DATA_TYPE_TEXT, w2'), s2') ∧
    bytes_at (sc_mem s2') 300 (chars "Hello") ∧ concat (sc_rx s2') = [7; 8; 9].
Proof.
  assert (Forall is_u8 hello_frame) as Hu by (by repeat constructor).
  destruct (ws_frame_roundtrip 3 4 hello_lc hello_lc (ws_open WS_ROLE_CLIENT) (ws_open WS_ROLE_SERVER)
    hello_tx hello_rx WS_DATA_TYPE_TEXT 200 300 (chars "Hello") 20 0 [7; 8; 9])
    as (hdr & body & s1' & w1' & E1 & Htx & Hlen & _ & Hrecv);
    [by left|done|by repeat constructor|done|by left|by repeat constructor|done|apply put_bytes_bytes_at
    |by apply hello_mapped|by apply hello_mapped|by left|by left|done| |done|done|by apply plain_mapped
    |by left|by left|].
  - split; [done|by left|by repeat constructor|by apply plain_mapped|by apply plain_mapped].
  - assert (∃ s, snd <$> WebSocket_Send 3 hello_lc (ws_open WS_ROLE_CLIENT) WS_DATA_TYPE_TEXT 200 5 hello_tx
      = Ok s ∧ sc_tx s = hello_frame) as (s & Es & Hs) by (eexists; split; vm_compute; reflexivity).
    change (Z.of_nat (length (chars "Hello"))) with 5 in *. rewrite E1 in Es. injection Es as <-.
    simpl in Htx. rewrite Hs in Htx.
    assert (hdr = take 6 hello_frame ∧ body = drop 6 hello_frame) as [-> ->].
    { apply app_inj_2; [rewrite Hlen; done|by rewrite take_drop]. }
    destruct Hrecv as (s2' & w2' & E2 & Hb & Hm & _).
    { exists [0x30; 0x33; 0x58; 0x7e], [[0x17; 7]; [8; 9]].
      split_and!; [reflexivity|by repeat constructor|by repeat constructor|reflexivity|].
      change (aligned 5 [[0x30; 0x33; 0x58; 0x7e]; [0x17; 7]; [8; 9]]). simpl. intros _. split; [done|].
      intros _. split; [done|]. intros _. split; [done|lia]. }
    exists s1', w1', s2', w2'. split; [exact E1|]. split; [exact Hs|]. split; [exact E2|]. split; [exact Hb|exact Hm].
Defined.

Lemma ws_line_received_witness :
  ∃ s', WebSocket_RecvLine 50 20 (mk_script plain_mem [[71; 69]; [84; 32; 13; 10; 5]] [] 0 false) = Ok (3, s') ∧
    bytes_at (sc_mem s') 50 [71; 69; 84; 0] ∧ concat (sc_rx s') = [5].
Proof.
  destruct (ws_line_received (mk_script plain_mem [[71; 69]; [84; 32; 13; 10; 5]] [] 0 false) 50 20
    [71; 69; 84; 32; 13] [5]) as (k & s' & E & Hk & Hb & Hd & Ht & Hm & _);
    [reflexivity|by repeat constructor|by repeat constructor|by apply (bool_decide_unpack _)|simpl; lia
    |by apply plain_mapped|].
  assert (k = 3%nat) as ->.
  { destruct k as [|[|[|[|[|[|k]]]]]]; simpl in Hk, Hd, Ht; try reflexivity; try lia.
    - by apply Forall_inv in Hd.
    - by apply Forall_inv in Hd.
    - by apply Forall_inv in Hd.
    - by specialize (Ht 32 eq_refl).
    - by specialize (Ht 13 eq_refl). }
  exists s'. split; [exact E|]. split; [exact Hb|exact Hm].
Defined.
