(* ===== verification/Http.v ===== *)
(** * The HTTP server (net/uhttpsrv/uhttpsrv.h, net/uhttpsrv/src/uhttpsrv.c)

    The server runs over a connection [S] of Stream.  A request is a record; the
    arrays it points to and the local arrays of the functions are regions of memory
    ([http_locals]), literals are at addresses the linker chose ([lit]).  The
    functions return the request next to what the code returns; the fields of a
    request are a field at a time.  The callback of the instance is a program that
    gets the request.  The loop over the requests of a connection takes fuel for
    their number, the reader of a body as much as there are bytes.  Creating the
    tasks and the warnings on the debug console are left out. *)
From Stdlib Require Import SpecFloat Ascii String.
From S2P Require Import Prelude CString Words Stdio Double Printf Stream Websocket.

(** ** uhttpsrv.h *)

Definition HTTP_METHOD_UNKNOWN : Z := 0.
Definition HTTP_METHOD_GET : Z := 1.
Definition HTTP_METHOD_HEAD : Z := 2.
Definition HTTP_METHOD_POST : Z := 4.
Definition HTTP_METHOD_PUT : Z := 8.
Definition HTTP_METHOD_DELETE : Z := 16.
Definition HTTP_METHOD_CONNECT : Z := 32.
Definition HTTP_METHOD_OPTIONS : Z := 64.
Definition HTTP_METHOD_TRACE : Z := 128.
Definition HTTP_METHOD_PATCH : Z := 256.

Definition HTTP_STATUS_UNKNOWN : Z := 0.
Definition HTTP_STATUS_200_OK : Z := 1.
Definition HTTP_STATUS_101_SWITCHING_PROTOCOLS : Z := 2.
Definition HTTP_STATUS_400_BAD_REQUEST : Z := 3.
Definition HTTP_STATUS_404_NOT_FOUND : Z := 4.
Definition HTTP_STATUS_405_METHOD_NOT_ALLOWED : Z := 5.
Definition HTTP_STATUS_500_INTERNAL_SRV_ERR : Z := 6.

Definition HTTP_FIELD_NAME_UNKNOWN : Z := 0.
Definition HTTP_FIELD_NAME_EMPTY : Z := 1.
Definition HTTP_FIELD_NAME_CONTENT_LENGTH : Z := 2.
Definition HTTP_FIELD_NAME_SERVER : Z := 3.
Definition HTTP_FIELD_NAME_HOST : Z := 4.
Definition HTTP_FIELD_NAME_CONTENT_ENCODING : Z := 5.
Definition HTTP_FIELD_NAME_ACCEPT_ENCODING : Z := 6.
Definition HTTP_FIELD_NAME_CONNECTION : Z := 7.
Definition HTTP_FIELD_NAME_CONTENT_TYPE : Z := 8.
Definition HTTP_FIELD_NAME_ORIGIN : Z := 9.
Definition HTTP_FIELD_NAME_ALLOW : Z := 10.
Definition HTTP_FIELD_NAME_ACCESS_CONTROL_REQUEST_METHOD : Z := 11.
Definition HTTP_FIELD_NAME_ACCESS_CONTROL_REQUEST_HEADERS : Z := 12.
Definition HTTP_FIELD_NAME_ACCESS_CONTROL_ALLOW_ORIGIN : Z := 13.
Definition HTTP_FIELD_NAME_ACCESS_CONTROL_ALLOW_METHODS : Z := 14.
Definition HTTP_FIELD_NAME_ACCESS_CONTROL_ALLOW_HEADERS : Z := 15.
Definition HTTP_FIELD_NAME_UPGRADE : Z := 16.
Definition HTTP_FIELD_NAME_SEC_WS_KEY : Z := 17.
Definition HTTP_FIELD_NAME_SEC_WS_PROTOCOL : Z := 18.
Definition HTTP_FIELD_NAME_SEC_WS_VERSION : Z := 19.
Definition HTTP_FIELD_NAME_SEC_WS_ACCEPT : Z := 20.

(** [HTTP_FIELD_MASK_x = BIT_VAL(HTTP_FIELD_NAME_x)] *)
Definition field_mask (name : Z) : Z := Z.shiftl 1 name.

Definition HTTP_REQ_TYPE_STANDARD : Z := 0.
Definition HTTP_REQ_TYPE_WEBSOCKET : Z := 1.

Definition HTTP_STATE_ERROR : Z := -1.
Definition HTTP_STATE_READ_FIELDS : Z := 0.
Definition HTTP_STATE_READ_BODY : Z := 1.
Definition HTTP_STATE_SEND_STATUS : Z := 2.
Definition HTTP_STATE_SEND_FIELDS : Z := 3.
Definition HTTP_STATE_SEND_BODY : Z := 4.
Definition HTTP_STATE_DONE : Z := 5.

(** config.h *)
Definition UHTTPSRV_MAX_LINE_LEN : Z := 256.

(** The value is a number or the address of a text. *)
Record uhttp_field := mk_field { fl_name : Z; fl_name_str : Z; fl_name_str_len : Z; fl_value : Z }.

Record uhttp_ws := mk_uhttp_ws {
  hw_is_open : Z; hw_tx_sem : Z; hw_rx_sem : Z; hw_rx_size : Z; hw_rx_offs : Z; hw_rx_opcode : Z;
  hw_mask : list Z }.

(** [url], [line] and [ws_key] are arrays. *)
Record uhttp_request := mk_request {
  rq_method : Z; rq_type : Z; rq_state : Z; rq_line_len : Z; rq_body_bleft : Z; rq_resp_bleft : Z;
  rq_ws_fields : Z; rq_ws : uhttp_ws }.

Definition upd_type (x : Z) (r : uhttp_request) : uhttp_request :=
  mk_request (rq_method r) x (rq_state r) (rq_line_len r) (rq_body_bleft r) (rq_resp_bleft r) (rq_ws_fields r) (rq_ws r).
Definition upd_state (x : Z) (r : uhttp_request) : uhttp_request :=
  mk_request (rq_method r) (rq_type r) x (rq_line_len r) (rq_body_bleft r) (rq_resp_bleft r) (rq_ws_fields r) (rq_ws r).
Definition upd_line_len (x : Z) (r : uhttp_request) : uhttp_request :=
  mk_request (rq_method r) (rq_type r) (rq_state r) x (rq_body_bleft r) (rq_resp_bleft r) (rq_ws_fields r) (rq_ws r).
Definition upd_body_bleft (x : Z) (r : uhttp_request) : uhttp_request :=
  mk_request (rq_method r) (rq_type r) (rq_state r) (rq_line_len r) x (rq_resp_bleft r) (rq_ws_fields r) (rq_ws r).
Definition upd_resp_bleft (x : Z) (r : uhttp_request) : uhttp_request :=
  mk_request (rq_method r) (rq_type r) (rq_state r) (rq_line_len r) (rq_body_bleft r) x (rq_ws_fields r) (rq_ws r).
(** [req->ws_fields |= HTTP_FIELD_MASK_...] *)
Definition add_ws_field (name : Z) (r : uhttp_request) : uhttp_request :=
  mk_request (rq_method r) (rq_type r) (rq_state r) (rq_line_len r) (rq_body_bleft r) (rq_resp_bleft r)
    (Z.lor (rq_ws_fields r) (field_mask name)) (rq_ws r).
Definition upd_ws (x : uhttp_ws) (r : uhttp_request) : uhttp_request :=
  mk_request (rq_method r) (rq_type r) (rq_state r) (rq_line_len r) (rq_body_bleft r) (rq_resp_bleft r) (rq_ws_fields r) x.

(** ** uhttpsrv.c: tables *)

Definition HTTP_VER_UNKNOWN : Z := 0.
Definition HTTP_VER_1V0 : Z := 1.
Definition HTTP_VER_1V1 : Z := 2.
Definition HTTP_VER_2V0 : Z := 3.
Definition HTTP_VER_3V0 : Z := 4.

Definition HTTP_FIELD_TYPE_INT : Z := 0.
Definition HTTP_FIELD_TYPE_FLOAT : Z := 1.
Definition HTTP_FIELD_TYPE_STR : Z := 2.

Record uhttp_method_spec := mk_method_spec { hm_method : Z; hm_str : string }.
Record uhttp_version_spec := mk_http_version { hv_version : Z; hv_str : string }.
Record uhttp_field_spec := mk_http_field { hf_name : Z; hf_type : Z; hf_str : string }.
Record uhttp_status_code_spec := mk_http_status { hs_code : Z; hs_value : Z; hs_msg : string }.

Definition method_specs : list uhttp_method_spec :=
  [ mk_method_spec HTTP_METHOD_GET "GET";
    mk_method_spec HTTP_METHOD_HEAD "HEAD";
    mk_method_spec HTTP_METHOD_POST "POST";
    mk_method_spec HTTP_METHOD_PUT "PUT";
    mk_method_spec HTTP_METHOD_DELETE "DELETE";
    mk_method_spec HTTP_METHOD_CONNECT "CONNECT";
    mk_method_spec HTTP_METHOD_OPTIONS "OPTIONS";
    mk_method_spec HTTP_METHOD_TRACE "TRACE";
    mk_method_spec HTTP_METHOD_PATCH "PATCH" ].

Definition version_specs : list uhttp_version_spec :=
  [ mk_http_version HTTP_VER_1V0 "HTTP/1.0";
    mk_http_version HTTP_VER_1V1 "HTTP/1.1";
    mk_http_version HTTP_VER_2V0 "HTTP/2";
    mk_http_version HTTP_VER_3V0 "HTTP/3" ].

Definition field_specs : list uhttp_field_spec :=
  [ mk_http_field HTTP_FIELD_NAME_HOST HTTP_FIELD_TYPE_STR "host";
    mk_http_field HTTP_FIELD_NAME_CONTENT_LENGTH HTTP_FIELD_TYPE_INT "content-length";
    mk_http_field HTTP_FIELD_NAME_SERVER HTTP_FIELD_TYPE_STR "server";
    mk_http_field HTTP_FIELD_NAME_ACCESS_CONTROL_ALLOW_ORIGIN HTTP_FIELD_TYPE_STR "access-control-allow-origin";
    mk_http_field HTTP_FIELD_NAME_CONTENT_ENCODING HTTP_FIELD_TYPE_STR "content-encoding";
    mk_http_field HTTP_FIELD_NAME_ACCEPT_ENCODING HTTP_FIELD_TYPE_STR "accept-encoding";
    mk_http_field HTTP_FIELD_NAME_CONNECTION HTTP_FIELD_TYPE_STR "connection";
    mk_http_field HTTP_FIELD_NAME_CONTENT_TYPE HTTP_FIELD_TYPE_STR "content-type";
    mk_http_field HTTP_FIELD_NAME_ALLOW HTTP_FIELD_TYPE_STR "allow";
    mk_http_field HTTP_FIELD_NAME_ORIGIN HTTP_FIELD_TYPE_STR "origin";
    mk_http_field HTTP_FIELD_NAME_ACCESS_CONTROL_REQUEST_METHOD HTTP_FIELD_TYPE_STR "access-control-request-method";
    mk_http_field HTTP_FIELD_NAME_ACCESS_CONTROL_REQUEST_HEADERS HTTP_FIELD_TYPE_STR "access-control-request-headers";
    mk_http_field HTTP_FIELD_NAME_ACCESS_CONTROL_ALLOW_ORIGIN HTTP_FIELD_TYPE_STR "access-control-allow-origin";
    mk_http_field HTTP_FIELD_NAME_ACCESS_CONTROL_ALLOW_METHODS HTTP_FIELD_TYPE_STR "access-control-allow-methods";
    mk_http_field HTTP_FIELD_NAME_ACCESS_CONTROL_ALLOW_HEADERS HTTP_FIELD_TYPE_STR "access-control-allow-headers";
    mk_http_field HTTP_FIELD_NAME_UPGRADE HTTP_FIELD_TYPE_STR "Upgrade";
    mk_http_field HTTP_FIELD_NAME_SEC_WS_KEY HTTP_FIELD_TYPE_STR "Sec-WebSocket-Key";
    mk_http_field HTTP_FIELD_NAME_SEC_WS_PROTOCOL HTTP_FIELD_TYPE_STR "Sec-WebSocket-Protocol";
    mk_http_field HTTP_FIELD_NAME_SEC_WS_VERSION HTTP_FIELD_TYPE_INT "Sec-WebSocket-Version";
    mk_http_field HTTP_FIELD_NAME_SEC_WS_ACCEPT HTTP_FIELD_TYPE_STR "Sec-WebSocket-Accept" ].

Definition status_specs : list uhttp_status_code_spec :=
  [ mk_http_status HTTP_STATUS_200_OK 200 "OK";
    mk_http_status HTTP_STATUS_101_SWITCHING_PROTOCOLS 101 "Switching Protocols";
    mk_http_status HTTP_STATUS_400_BAD_REQUEST 400 "Bad Request";
    mk_http_status HTTP_STATUS_404_NOT_FOUND 404 "Not Found";
    mk_http_status HTTP_STATUS_405_METHOD_NOT_ALLOWED 405 "Method Not Allowed";
    mk_http_status HTTP_STATUS_500_INTERNAL_SRV_ERR 500 "Internal Server Error" ].
(** Addresses of the line and URL buffers, of the key in the request, and of the
    local arrays: method and version of the request line, the union [fv], the
    status line, a field line, the bytes dropped, and those of the web socket. *)
Record http_locals := mk_http_locals {
  hl_line : Z; hl_url : Z; hl_ws_key : Z; hl_method_str : Z; hl_version_str : Z; hl_fv : Z;
  hl_response : Z; hl_field : Z; hl_tmp : Z; hl_pld : Z; hl_buf : Z; hl_ctrl : Z; hl_accept : Z }.

Section http.
Context {S : Type} `{Stream S} (lit : string → Z).
Context (frexpf : fp → fp * Z) (modff : fp → fp * fp) (expf : fp → fp).
Context (hl : http_locals) (port timeout : Z).

(** [strcmp(l->str, str) == 0] *)
Definition exact_matches (l : string) (str : Z) : prog S bool :=
  r ← reads (λ m, strcmp m (lit l) str); mret (r =? 0).

Definition UHTTPSrv_GetMethodSpec (method str : Z) : prog S (option uhttp_method_spec) :=
  check (negb (given method && given str));;
  check (given method || given str);;
  lut_find (λ l, if given method && (method =? hm_method l) then mret true
                 else if given str then exact_matches (hm_str l) str else mret false) method_specs.

Definition UHTTPSrv_GetVersionSpec (version str : Z) : prog S (option uhttp_version_spec) :=
  check (negb (given version && given str));;
  check (given version || given str);;
  lut_find (λ l, if given version && (version =? hv_version l) then mret true
                 else if given str then exact_matches (hv_str l) str else mret false) version_specs.

Definition UHTTPSrv_GetFieldSpec (name str : Z) : prog S (option uhttp_field_spec) :=
  check (negb (given name && given str));;
  check (given name || given str);;
  lut_find (λ l, if given name && (hf_name l =? name) then mret true
                 else if given str then prefix_matches lit (hf_str l) str else mret false) field_specs.

Definition UHTTPSrv_GetStatusCodeSpec (code msg : Z) : prog S (option uhttp_status_code_spec) :=
  check (negb (given code && given msg));;
  check (given code || given msg);;
  lut_find (λ l, if given code && (hs_code l =? code) then mret true
                 else if given msg then prefix_matches lit (hs_msg l) msg else mret false) status_specs.

(** ** Parsing of lines *)

(** The code, method and version.  [v_spec] is followed without a test: the test
    behind it is made on [m_spec] once more. *)
Definition UHTTPSrv_ParseRequestLine (line line_len url url_size : Z) : prog S (Z * option (Z * Z)) :=
  k ← runs (λ m, snscanf m line line_len (lit "%.*s %.*s %.*s")
        [VInt 9; VPtr (hl_method_str hl); VInt url_size; VPtr url; VInt 9; VPtr (hl_version_str hl)]);
  if negb (k =? 3) then mret (EARGVAL, None)
  else
    m_spec ← UHTTPSrv_GetMethodSpec 0 (hl_method_str hl);
    match m_spec with
    | None => mret (EFATAL, None)
    | Some ms =>
        v_spec ← UHTTPSrv_GetVersionSpec 0 (hl_version_str hl);
        match v_spec with
        | None => fault NullDeref
        | Some v => mret (EOK, Some (hm_method ms, hv_version v))
        end
    end.

(** The value by its type; [None] if the conversion fails. *)
Definition field_value (vptr vsize type : Z) : prog S (option Z) :=
  if type =? HTTP_FIELD_TYPE_INT then
    k ← runs (λ m, snscanf m vptr vsize (lit "%i") [VPtr (hl_fv hl)]);
    if k =? 1 then v ← reads (λ m, load32 m (hl_fv hl)); mret (Some (s32 v)) else mret None
  else if type =? HTTP_FIELD_TYPE_FLOAT then
    k ← runs (λ m, snscanf m vptr vsize (lit "%a") [VPtr (hl_fv hl)]);
    if k =? 1 then v ← reads (λ m, load32 m (hl_fv hl)); mret (Some v) else mret None
  else if type =? HTTP_FIELD_TYPE_STR then mret (Some vptr)
  else fault AssertFailed.

(** [line + line_len] wraps like any address. *)
Definition UHTTPSrv_ParseFieldLine (line line_len : Z) (field : uhttp_field) : prog S (Z * uhttp_field) :=
  let line_end := line +u line_len in
  vptr ← reads (λ m, name_end m line (Z.to_nat (line_end - line)));
  c ← reads (λ m, load8 m vptr);
  if negb (c =? chr ":") then mret (EFATAL, field)
  else
    let name_str_len := vptr - line in
    vptr ← reads (λ m, skip_space m (vptr + 1) (Z.to_nat (line_end - (vptr + 1))));
    let vsize := u32 (line_len - (vptr - line)) in
    let field := mk_field HTTP_FIELD_NAME_UNKNOWN line name_str_len (fl_value field) in
    fs ← UHTTPSrv_GetFieldSpec 0 line;
    match fs with
    | None => mret (EOK, mk_field HTTP_FIELD_NAME_UNKNOWN line name_str_len vptr)
    | Some fs =>
        fv ← field_value vptr vsize (hf_type fs);
        match fv with
        | None => mret (EFATAL, field)
        | Some v => mret (EOK, mk_field (hf_name fs) line name_str_len v)
        end
    end.

Definition print_http (out sz : Z) (fmt : string) (args : va_list) : prog S Z :=
  print lit frexpf modff expf out sz fmt args.

(** The format a field type is printed with. *)
Definition http_format (type : Z) : option string :=
  if type =? HTTP_FIELD_TYPE_INT then Some ("%s: %i" ++ crlf)%string
  else if type =? HTTP_FIELD_TYPE_FLOAT then Some ("%s: %f" ++ crlf)%string
  else if type =? HTTP_FIELD_TYPE_STR then Some ("%s: %s" ++ crlf)%string
  else None.

Definition UHTTPSrv_RenderFieldLine (out sz name : Z) (arg : va) : prog S Z :=
  fs ← UHTTPSrv_GetFieldSpec name 0;
  match fs with
  | None => mret EFATAL
  | Some fs =>
      match http_format (hf_type fs) with
      | None => fault AssertFailed
      | Some fmt => print_http out sz fmt [VPtr (lit (hf_str fs)); arg]
      end
  end.

(** ** Lines on the connection *)

Definition UHTTPSrv_RecvLine (line sz : Z) : prog S Z :=
  r ← line_loop (Z.to_nat sz) line line sz timeout;
  match r with
  | inr ec => mret ec
  | inl c =>
      c ← reads (λ m, trim_space m line (Z.to_nat (c - line)));
      writes (λ m, store8 m c 0);;
      mret (c - line)
  end.

Definition UHTTPSrv_SendStatusLine (version code : Z) : prog S Z :=
  vspec ← UHTTPSrv_GetVersionSpec version 0;
  match vspec with
  | None => mret EFATAL
  | Some v =>
      cspec ← UHTTPSrv_GetStatusCodeSpec code 0;
      match cspec with
      | None => mret EFATAL
      | Some c =>
          len ← print_http (hl_response hl) 32 ("%s %d %s" ++ crlf)
                  [VPtr (lit (hv_str v)); VInt (hs_value c); VPtr (lit (hs_msg c))];
          st_send (hl_response hl) len timeout
      end
  end.

Definition UHTTPSrv_SendEmptyLine : prog S Z := st_send (lit crlf) 2 timeout.

(** ** Requests *)

(** The wrong state is an error, and an error stays. *)
Definition enter (state : Z) (req : uhttp_request) : uhttp_request :=
  if rq_state req =? state then req else upd_state HTTP_STATE_ERROR req.
Definition failed (req : uhttp_request) : bool := rq_state req =? HTTP_STATE_ERROR.

Definition ws_fields_req : Z :=
  foldr Z.lor 0 (map field_mask
    [HTTP_FIELD_NAME_HOST; HTTP_FIELD_NAME_SEC_WS_VERSION; HTTP_FIELD_NAME_SEC_WS_KEY;
     HTTP_FIELD_NAME_CONNECTION; HTTP_FIELD_NAME_UPGRADE]).

(** The switch over the name of a field. *)
Definition use_field (req : uhttp_request) (field : uhttp_field) : prog S uhttp_request :=
  let name := fl_name field in
  let v := fl_value field in
  let mark (b : bool) := if b then add_ws_field name req else req in
  if name =? HTTP_FIELD_NAME_CONTENT_LENGTH then mret (upd_body_bleft (u32 v) req)
  else if name =? HTTP_FIELD_NAME_CONNECTION then
    d ← reads (λ m, strcicmp m v (lit "Upgrade")); mret (mark (d =? 0))
  else if name =? HTTP_FIELD_NAME_UPGRADE then
    d ← reads (λ m, strcicmp m v (lit "websocket")); mret (mark (d =? 0))
  else if name =? HTTP_FIELD_NAME_SEC_WS_VERSION then mret (mark (v =? 13))
  else if name =? HTTP_FIELD_NAME_HOST then
    n ← reads (λ m, strlen m v); mret (mark (negb (n =? 0)))
  else if name =? HTTP_FIELD_NAME_SEC_WS_KEY then
    n ← reads (λ m, strlen m v);
    if n =? 24 then writes (λ m, strncpy m (hl_ws_key hl) v 24);; mret (mark true) else mret req
  else mret req.

(** The empty line: what comes next, and what kind of request it is. *)
Definition end_of_fields (req : uhttp_request) : uhttp_request :=
  let req := upd_state (if rq_body_bleft req =? 0 then HTTP_STATE_SEND_STATUS else HTTP_STATE_READ_BODY) req in
  upd_type (if (rq_method req =? HTTP_METHOD_GET) && (rq_body_bleft req =? 0) && (rq_ws_fields req =? ws_fields_req)
            then HTTP_REQ_TYPE_WEBSOCKET else HTTP_REQ_TYPE_STANDARD) req.

(** [line_len] is unsigned, so that [line_len < EOK] never holds: an error of the
    reception becomes a length of almost [2^32]. *)
Definition UHTTPSrv_ReadHeaderField (req : uhttp_request) (field : uhttp_field)
  : prog S (Z * uhttp_request * uhttp_field) :=
  let req := enter HTTP_STATE_READ_FIELDS req in
  if failed req then mret (EFATAL, req, field)
  else
    len ← UHTTPSrv_RecvLine (hl_line hl) UHTTPSRV_MAX_LINE_LEN;
    let req := upd_line_len (u32 len) req in
    if rq_line_len req =? 0 then
      mret (EOK, end_of_fields req,
            mk_field HTTP_FIELD_NAME_EMPTY (fl_name_str field) (fl_name_str_len field) (fl_value field))
    else
      '(ec, field) ← UHTTPSrv_ParseFieldLine (hl_line hl) (rq_line_len req) field;
      if ec <? EOK then mret (HTTP_STATE_ERROR, upd_state HTTP_STATE_ERROR req, field)
      else req ← use_field req field; mret (EOK, req, field).

(** Reads until there are [sz] bytes; a null [ptr] drops them. *)
Fixpoint read_body_loop (fuel : nat) (ptr p8 sz brcvd : Z) : prog S (option Z) :=
  match fuel with
  | O => fault OutOfFuel
  | Datatypes.S fuel' =>
      if brcvd <? sz then
        ec ← st_recv (if given ptr then p8 else hl_tmp hl)
               (if given ptr then sz - brcvd else Z.min 16 (sz - brcvd)) timeout;
        if ec <? EOK then mret None else read_body_loop fuel' ptr (p8 + ec) sz (brcvd + ec)
      else mret (Some brcvd)
  end.

Definition UHTTPSrv_ReadBody (req : uhttp_request) (ptr sz : Z) : prog S (Z * uhttp_request) :=
  let req := enter HTTP_STATE_READ_BODY req in
  if failed req then mret (rq_state req, req)
  else
    let sz := Z.min sz (rq_body_bleft req) in
    if sz =? 0 then mret (EOK, req)
    else
      r ← read_body_loop (Datatypes.S (Z.to_nat sz)) ptr ptr sz 0;
      match r with
      | None => mret (HTTP_STATE_ERROR, upd_state HTTP_STATE_ERROR req)
      | Some brcvd =>
          let req := upd_body_bleft (rq_body_bleft req -u brcvd) req in
          mret (s32 brcvd, if rq_body_bleft req =? 0 then upd_state HTTP_STATE_SEND_STATUS req else req)
      end.

Definition UHTTPSrv_SendHeaderField (req : uhttp_request) (name : Z) (arg : va) : prog S (Z * uhttp_request) :=
  let req := enter HTTP_STATE_SEND_FIELDS req in
  if failed req then mret (rq_state req, req)
  else
    ec ← UHTTPSrv_RenderFieldLine (hl_field hl) 256 name arg;
    ec ← (if ec <? EOK then mret ec else st_send (hl_field hl) ec timeout);
    if ec <? EOK then mret (HTTP_STATE_ERROR, upd_state HTTP_STATE_ERROR req) else mret (EOK, req).

(** At the end the state is set anew, whatever happened to the fields. *)
Definition UHTTPSrv_SendStatus (req : uhttp_request) (code res_size : Z) : prog S (Z * uhttp_request) :=
  if failed req then mret (rq_state req, req)
  else
    ec ← UHTTPSrv_SendStatusLine HTTP_VER_1V1 code;
    if ec <? EOK then mret (HTTP_STATE_ERROR, upd_state HTTP_STATE_ERROR req)
    else
      let req := upd_state HTTP_STATE_SEND_FIELDS req in
      '(_, req) ← UHTTPSrv_SendHeaderField req HTTP_FIELD_NAME_CONTENT_LENGTH (VInt (s32 res_size));
      '(_, req) ← UHTTPSrv_SendHeaderField req HTTP_FIELD_NAME_SERVER (VPtr (lit "uHTTP"));
      '(_, req) ← UHTTPSrv_SendHeaderField req HTTP_FIELD_NAME_CONNECTION (VPtr (lit "keep-alive"));
      '(_, req) ← UHTTPSrv_SendHeaderField req HTTP_FIELD_NAME_ACCESS_CONTROL_ALLOW_ORIGIN (VPtr (lit "*"));
      let req := upd_state HTTP_STATE_SEND_FIELDS (upd_resp_bleft res_size req) in
      mret (if failed req then EFATAL else EOK, req).

Definition UHTTPSrv_EndHeader (req : uhttp_request) : prog S (Z * uhttp_request) :=
  let req := enter HTTP_STATE_SEND_FIELDS req in
  if failed req then mret (rq_state req, req)
  else
    ec ← UHTTPSrv_SendEmptyLine;
    if ec <? EOK then mret (EFATAL, upd_state HTTP_STATE_ERROR req)
    else mret (EOK, upd_state (if rq_resp_bleft req =? 0 then HTTP_STATE_DONE else HTTP_STATE_SEND_BODY) req).

Definition UHTTPSrc_SendBody (req : uhttp_request) (ptr sz : Z) : prog S (Z * uhttp_request) :=
  let req := enter HTTP_STATE_SEND_BODY req in
  if failed req then mret (rq_state req, req)
  else if sz =? 0 then mret (EOK, req)
  else if rq_resp_bleft req <? sz then mret (EFATAL, req)
  else
    ec ← st_send ptr sz timeout;
    if ec <? EOK then mret (HTTP_STATE_ERROR, upd_state HTTP_STATE_ERROR req)
    else
      let req := upd_resp_bleft (rq_resp_bleft req -u ec) req in
      mret (ec, if rq_resp_bleft req =? 0 then upd_state HTTP_STATE_DONE req else req).

(** ** The serving task *)

Definition new_ws : uhttp_ws := mk_uhttp_ws 0 0 0 0 0 0 [0; 0; 0; 0].
Definition new_request (method line_len : Z) : uhttp_request :=
  mk_request method HTTP_REQ_TYPE_STANDARD HTTP_STATE_READ_FIELDS line_len 0 0 0 new_ws.

Context (callback : uhttp_request → prog S (Z * uhttp_request)).

(** The requests of one connection. *)
Fixpoint serve_requests (fuel : nat) : prog S unit :=
  match fuel with
  | O => fault OutOfFuel
  | Datatypes.S fuel' =>
      line_len ← UHTTPSrv_RecvLine (hl_line hl) UHTTPSRV_MAX_LINE_LEN;
      if line_len <? EOK then mret ()
      else
        '(ec, mv) ← UHTTPSrv_ParseRequestLine (hl_line hl) line_len (hl_url hl) UHTTPSRV_MAX_LINE_LEN;
        match mv with
        | Some (method, _) =>
            '(ec, req) ← callback (new_request method line_len);
            if negb (ec =? EOK) || negb (rq_state req =? HTTP_STATE_DONE) then mret ()
            else st_yield;; serve_requests fuel'
        | None => mret ()
        end
  end.

(** One round of the task's loop: a connection. *)
Definition UHTTPSrv_ServeTask_round (fuel : nat) : prog S unit :=
  ec ← st_listen port 0;
  if ec <? EOK then mret ()
  else serve_requests fuel;; _ ← st_close 0; mret ().
End http.
