(* ===== verification/HttpSpec.v ===== *)
(** * What the HTTP server guarantees

    The accounting of bodies over any connection; the response on the connection,
    the reception of a body and of a request line over the script of Stream. *)
From Stdlib Require Import SpecFloat Ascii String.
From S2P Require Import Prelude Words Frames CString Stdio Double Printf PrintSpec ScanSpec Stream Websocket WebSpec Http.

(** ** Accounting

    What the calls of a callback promise and deliver: the length the client
    declared and the bytes of the body that were read, the length announced to the
    client and the bytes that were sent. *)
Record account := mk_account { ac_declared : Z; ac_read : Z; ac_announced : Z; ac_sent : Z }.

Definition note_field (ec : Z) (field : uhttp_field) (a : account) : account :=
  if (ec =? EOK) && (fl_name field =? HTTP_FIELD_NAME_CONTENT_LENGTH)
  then mk_account (u32 (fl_value field)) (ac_read a) (ac_announced a) (ac_sent a) else a.
Definition note_read (r : Z) (a : account) : account :=
  mk_account (ac_declared a) (ac_read a + Z.max r 0) (ac_announced a) (ac_sent a).
Definition note_status (ec n : Z) (a : account) : account :=
  if ec =? EOK then mk_account (ac_declared a) (ac_read a) n 0 else a.
Definition note_sent (r : Z) (a : account) : account :=
  mk_account (ac_declared a) (ac_read a) (ac_announced a) (ac_sent a + Z.max r 0).

(** The states and what the accounts are in them. *)
Definition http_ok (req : uhttp_request) (a : account) : Prop :=
  is_u32 (rq_body_bleft req) ∧ is_u32 (rq_resp_bleft req) ∧
  (rq_state req = HTTP_STATE_ERROR ∨
   rq_state req = HTTP_STATE_READ_FIELDS ∧ ac_read a = 0 ∧ rq_body_bleft req = ac_declared a ∨
   rq_state req = HTTP_STATE_READ_BODY ∧ 0 < rq_body_bleft req ∧ ac_read a + rq_body_bleft req = ac_declared a ∨
   rq_state req = HTTP_STATE_SEND_STATUS ∧ ac_read a = ac_declared a ∨
   rq_state req = HTTP_STATE_SEND_FIELDS ∧ ac_sent a = 0 ∧ rq_resp_bleft req = ac_announced a ∨
   rq_state req = HTTP_STATE_SEND_BODY ∧ 0 < rq_resp_bleft req ∧ ac_sent a + rq_resp_bleft req = ac_announced a ∨
   rq_state req = HTTP_STATE_DONE ∧ ac_sent a = ac_announced a).

Ltac prog_inv H :=
  lazymatch type of H with
  | (_ ≫= _) _ = Ok _ => let a := fresh "r" in let s1 := fresh "s" in let E := fresh "E" in
      apply prog_bind_inv in H as (a & s1 & E & H); cbv beta iota in H
  end.

(** Of the cases of [http_ok], the one of the state at hand. *)
Ltac only_state H :=
  unfold HTTP_STATE_ERROR, HTTP_STATE_READ_FIELDS, HTTP_STATE_READ_BODY, HTTP_STATE_SEND_STATUS,
    HTTP_STATE_SEND_FIELDS, HTTP_STATE_SEND_BODY, HTTP_STATE_DONE in H; intuition discriminate.

Section accounting.
Context {S : Type} `{StreamLaws S} (lit : string → Z).
Context (frexpf : fp → fp * Z) (modff : fp → fp * fp) (expf : fp → fp).
Context (hl : http_locals) (timeout : Z).

Inductive http_call : uhttp_request * account * S → uhttp_request * account * S → Prop :=
| call_read_field req a s field ec req' field' s' :
    UHTTPSrv_ReadHeaderField lit hl timeout req field s = Ok ((ec, req', field'), s') →
    http_call (req, a, s) (req', note_field ec field' a, s')
| call_read_body req a s ptr sz r req' s' :
    0 ≤ sz → Z.min sz (rq_body_bleft req) < 2147483648 →
    UHTTPSrv_ReadBody hl timeout req ptr sz s = Ok ((r, req'), s') →
    http_call (req, a, s) (req', note_read r a, s')
| call_send_status req a s code n ec req' s' :
    is_u32 n → UHTTPSrv_SendStatus lit frexpf modff expf hl timeout req code n s = Ok ((ec, req'), s') →
    http_call (req, a, s) (req', note_status ec n a, s')
| call_send_field req a s name arg ec req' s' :
    UHTTPSrv_SendHeaderField lit frexpf modff expf hl timeout req name arg s = Ok ((ec, req'), s') →
    http_call (req, a, s) (req', a, s')
| call_end_header req a s ec req' s' :
    UHTTPSrv_EndHeader lit timeout req s = Ok ((ec, req'), s') →
    http_call (req, a, s) (req', a, s')
| call_send_body req a s ptr sz r req' s' :
    0 ≤ sz < 2147483648 → UHTTPSrc_SendBody timeout req ptr sz s = Ok ((r, req'), s') →
    http_call (req, a, s) (req', note_sent r a, s').

Lemma enter_cases st req :
  (rq_state req = st ∧ enter st req = req) ∨ enter st req = upd_state HTTP_STATE_ERROR req.
Proof. unfold enter. destruct (Z.eqb_spec (rq_state req) st); [left|right]; done. Qed.

Lemma enter_inv st req : st ≠ HTTP_STATE_ERROR → failed (enter st req) = false → rq_state req = st ∧ enter st req = req.
Proof.
  intros Hst. destruct (enter_cases st req) as [H'|E]; [done|]. by rewrite E.
Qed.

Lemma enter_failed st req : failed (enter st req) = true →
  rq_state (enter st req) = HTTP_STATE_ERROR ∧ rq_body_bleft (enter st req) = rq_body_bleft req ∧
  rq_resp_bleft (enter st req) = rq_resp_bleft req.
Proof. intros E%Z.eqb_eq. split; [done|]. by destruct (enter_cases st req) as [[_ ->] | ->]. Qed.

(** A request whose state alone changed. *)
Definition same_counts (req req' : uhttp_request) : Prop :=
  rq_body_bleft req' = rq_body_bleft req ∧ rq_resp_bleft req' = rq_resp_bleft req.

Lemma http_ok_error req a req' a' :
  http_ok req a → same_counts req req' → rq_state req' = HTTP_STATE_ERROR → http_ok req' a'.
Proof. intros (H1 & H2 & _) [E1 E2] Hs. unfold http_ok. rewrite E1, E2. auto. Qed.

(** *** One call *)

Lemma send_field_inv req name arg s ec req' s' :
  UHTTPSrv_SendHeaderField lit frexpf modff expf hl timeout req name arg s = Ok ((ec, req'), s') →
  (rq_state req = HTTP_STATE_SEND_FIELDS ∧ req' = req) ∨ (same_counts req req' ∧ rq_state req' = HTTP_STATE_ERROR).
Proof.
  unfold UHTTPSrv_SendHeaderField. destruct (failed (enter _ req)) eqn:Ef.
  { intros [= _ <- _]. apply enter_failed in Ef as (? & ? & ?). by right. }
  apply enter_inv in Ef as [Hs ->]; [|done]. intros E. do 2 prog_inv E.
  destruct (r0 <? EOK); injection E as _ <- _; [right|left]; done.
Qed.

Lemma use_field_inv req field s req' s' :
  use_field lit hl req field s = Ok (req', s') →
  rq_state req' = rq_state req ∧ rq_resp_bleft req' = rq_resp_bleft req ∧
  rq_body_bleft req' =
    (if fl_name field =? HTTP_FIELD_NAME_CONTENT_LENGTH then u32 (fl_value field) else rq_body_bleft req).
Proof.
  unfold use_field. set (b := fl_name field =? HTTP_FIELD_NAME_CONTENT_LENGTH). destruct b.
  { by intros [= <- _]. }
  assert (Hm : ∀ (b : bool), let q := if b then add_ws_field (fl_name field) req else req in
    rq_state q = rq_state req ∧ rq_resp_bleft q = rq_resp_bleft req ∧ rq_body_bleft q = rq_body_bleft req) by (by intros []).
  repeat match goal with |- (if ?b then _ else _) _ = _ → _ => destruct b end;
    intros E; repeat prog_inv E; try (injection E as <- _; first [done|apply Hm]).
  destruct (r =? 24); [|by injection E as <- _]. repeat prog_inv E. by injection E as <- _.
Qed.

Lemma read_field_ok req a field s ec req' field' s' :
  UHTTPSrv_ReadHeaderField lit hl timeout req field s = Ok ((ec, req', field'), s') →
  http_ok req a → http_ok req' (note_field ec field' a).
Proof.
  unfold UHTTPSrv_ReadHeaderField. intros E Ha. destruct (failed (enter _ req)) eqn:Ef.
  { injection E as _ <- _ _. apply enter_failed in Ef as (? & ? & ?). by eapply http_ok_error. }
  apply enter_inv in Ef as [Hs Eq]; [|done]. rewrite Eq in E. clear Eq.
  destruct Ha as (Hb & Hr & Ha). rewrite Hs in Ha.
  assert (ac_read a = 0 ∧ rq_body_bleft req = ac_declared a) as [Hread Hdecl] by only_state Ha.
  prog_inv E. destruct (rq_line_len _ =? 0).
  - injection E as <- <- <- _. unfold note_field. cbn [fl_name]. change (HTTP_FIELD_NAME_EMPTY =? HTTP_FIELD_NAME_CONTENT_LENGTH) with false.
    rewrite andb_false_r. unfold http_ok, end_of_fields. cbn.
    split; [done|]. split; [done|]. destruct (Z.eqb_spec (rq_body_bleft req) 0) as [Hz|Hz]; [|word_lia].
    do 3 right. left. split; [done|]. lia.
  - prog_inv E. destruct r0 as [ec1 f1]. destruct (ec1 <? EOK).
    { injection E as _ <- _ _. split; [done|]. split; [done|]. by left. }
    prog_inv E. injection E as <- <- <- _. apply use_field_inv in E2 as (Es & Er & Eb). unfold note_field.
    rewrite Z.eqb_refl. cbn [andb]. unfold http_ok. rewrite Es, Er, Eb. cbn [rq_state rq_body_bleft rq_resp_bleft upd_line_len]. rewrite Hs.
    destruct (fl_name f1 =? HTTP_FIELD_NAME_CONTENT_LENGTH); cbn.
    + split; [word_lia|]. split; [done|]. right. by left.
    + split; [done|]. split; [done|]. right. by left.
Qed.

Lemma read_body_loop_inv ptr sz : ∀ fuel p8 brcvd s r s',
  0 ≤ brcvd ≤ sz → sz < 2147483648 →
  read_body_loop hl timeout fuel ptr p8 sz brcvd s = Ok (r, s') → r = None ∨ r = Some sz.
Proof.
  induction fuel as [|fuel IH]; intros p8 brcvd s r s' Hb Hsz E; [done|]. cbn [read_body_loop] in E.
  destruct (Z.ltb_spec brcvd sz).
  - prog_inv E. destruct (Z.ltb_spec r0 EOK); [injection E as <- _; by left|].
    apply (sl_recv _ _ timeout s r0 s0) in E0; [|destruct (given ptr); lia].
    unfold EOK in *. eapply IH; [|done|exact E]. destruct (given ptr); lia.
  - injection E as <- _. right. f_equal. lia.
Qed.

Lemma read_body_ok req a ptr sz s r req' s' :
  0 ≤ sz → Z.min sz (rq_body_bleft req) < 2147483648 →
  UHTTPSrv_ReadBody hl timeout req ptr sz s = Ok ((r, req'), s') →
  http_ok req a → http_ok req' (note_read r a).
Proof.
  unfold UHTTPSrv_ReadBody. intros Hsz Hsz2 E Ha. destruct (failed (enter _ req)) eqn:Ef.
  { injection E as _ <- _. apply enter_failed in Ef as (? & ? & ?). by eapply http_ok_error. }
  apply enter_inv in Ef as [Hs Eq]; [|done]. rewrite Eq in E. clear Eq.
  destruct Ha as (Hb & Hr & Ha). rewrite Hs in Ha.
  assert (0 < rq_body_bleft req ∧ ac_read a + rq_body_bleft req = ac_declared a) as [Hpos Hsum] by only_state Ha.
  set (n := Z.min sz (rq_body_bleft req)) in *.
  destruct (Z.eqb_spec n 0) as [Hn|Hn].
  { injection E as <- <- _. unfold http_ok, note_read. cbn. rewrite Hs. split; [done|]. split; [done|]. right. right. left. split; [done|].
    unfold EOK. lia. }
  prog_inv E. apply (read_body_loop_inv ptr n) in E0 as [-> | ->]; [| |lia|done].
  { injection E as _ <- _. split; [done|]. split; [done|]. by left. }
  injection E as <- <- _.
  assert (rq_body_bleft req -u n = rq_body_bleft req - n) as En by (apply u32_small; word_lia).
  assert (s32 n = n) as En2 by word_lia.
  unfold http_ok, note_read. cbn [upd_body_bleft rq_body_bleft ac_read ac_declared ac_announced ac_sent]. rewrite En, En2.
  destruct (Z.eqb_spec (rq_body_bleft req - n) 0); cbn.
  - split; [word_lia|]. split; [done|]. do 3 right. left. split; [done|]. lia.
  - split; [word_lia|]. split; [done|]. rewrite Hs. do 2 right. left. split; [done|]. lia.
Qed.

Lemma send_status_ok req a code n s ec req' s' :
  is_u32 n → UHTTPSrv_SendStatus lit frexpf modff expf hl timeout req code n s = Ok ((ec, req'), s') →
  http_ok req a → http_ok req' (note_status ec n a).
Proof.
  unfold UHTTPSrv_SendStatus. intros Hn E Ha. destruct (failed req) eqn:Ef.
  { injection E as <- <- _. apply Z.eqb_eq in Ef. unfold note_status. rewrite Ef. done. }
  prog_inv E. destruct (r <? EOK).
  { injection E as <- <- _. by eapply http_ok_error. }
  prog_inv E. destruct r0 as [e1 q1]. prog_inv E. destruct r0 as [e2 q2]. prog_inv E. destruct r0 as [e3 q3].
  prog_inv E. destruct r0 as [e4 q4]. injection E as <- <- _.
  assert (rq_body_bleft q4 = rq_body_bleft req) as Hb.
  { assert (∀ q name arg t e q' t', UHTTPSrv_SendHeaderField lit frexpf modff expf hl timeout q name arg t = Ok ((e, q'), t') →
      rq_body_bleft q' = rq_body_bleft q) as Hf.
    { intros q name arg t e q' t' Eq. by apply send_field_inv in Eq as [[_ ->]|[[? _] _]]. }
    apply Hf in E1, E2, E3, E4. by rewrite E4, E3, E2, E1. }
  unfold http_ok, note_status. cbn. rewrite Hb. split; [apply Ha|]. split; [done|]. do 4 right. left. done.
Qed.

Lemma end_header_ok req a s ec req' s' :
  UHTTPSrv_EndHeader lit timeout req s = Ok ((ec, req'), s') → http_ok req a → http_ok req' a.
Proof.
  unfold UHTTPSrv_EndHeader. intros E Ha. destruct (failed (enter _ req)) eqn:Ef.
  { injection E as _ <- _. apply enter_failed in Ef as (? & ? & ?). by eapply http_ok_error. }
  apply enter_inv in Ef as [Hs Eq]; [|done]. rewrite Eq in E. clear Eq.
  prog_inv E. destruct (r <? EOK).
  { injection E as _ <- _. by eapply http_ok_error. }
  injection E as _ <- _. destruct Ha as (Hb & Hr & Ha). rewrite Hs in Ha.
  assert (ac_sent a = 0 ∧ rq_resp_bleft req = ac_announced a) as [Hz Hsum] by only_state Ha.
  unfold http_ok. cbn. split; [done|]. split; [done|].
  destruct (Z.eqb_spec (rq_resp_bleft req) 0).
  - do 6 right. split; [done|]. lia.
  - do 5 right. left. split; [done|]. word_lia.
Qed.

Lemma send_body_ok req a ptr sz s r req' s' :
  0 ≤ sz < 2147483648 → UHTTPSrc_SendBody timeout req ptr sz s = Ok ((r, req'), s') →
  http_ok req a → http_ok req' (note_sent r a).
Proof.
  unfold UHTTPSrc_SendBody. intros Hsz E Ha. destruct (failed (enter _ req)) eqn:Ef.
  { injection E as _ <- _. apply enter_failed in Ef as (? & ? & ?). by eapply http_ok_error. }
  apply enter_inv in Ef as [Hs Eq]; [|done]. rewrite Eq in E. clear Eq.
  assert (Hsame : ∀ r, r ≤ 0 → http_ok req (note_sent r a)).
  { intros r0 Hr0. unfold note_sent. rewrite Z.max_r, Z.add_0_r by done. by destruct a. }
  destruct (sz =? 0); [injection E as <- <- _; by apply Hsame|].
  destruct (Z.ltb_spec (rq_resp_bleft req) sz); [injection E as <- <- _; by apply Hsame|].
  prog_inv E. destruct (Z.ltb_spec r0 EOK).
  { injection E as _ <- _. by eapply http_ok_error. }
  injection E as <- <- _. apply (sl_send _ _ timeout s r0 s0) in E0 as [Hr0 _]; [|lia].
  assert (r0 = sz) as -> by (unfold EOK in *; lia).
  destruct Ha as (Hb & Hr & Ha). rewrite Hs in Ha.
  assert (0 < rq_resp_bleft req ∧ ac_sent a + rq_resp_bleft req = ac_announced a) as [Hpos Hsum] by only_state Ha.
  assert (rq_resp_bleft req -u sz = rq_resp_bleft req - sz) as En by (apply u32_small; word_lia).
  unfold http_ok, note_sent. cbn [upd_resp_bleft rq_resp_bleft ac_sent ac_announced]. rewrite En.
  destruct (Z.eqb_spec (rq_resp_bleft req - sz) 0); cbn.
  - split; [done|]. split; [word_lia|]. do 6 right. split; [done|]. lia.
  - split; [done|]. split; [word_lia|]. rewrite Hs. do 5 right. left. split; [done|]. lia.
Qed.

Lemma http_call_ok c c' : http_call c c' → http_ok c.1.1 c.1.2 → http_ok c'.1.1 c'.1.2.
Proof.
  intros [] Hok; cbn in *.
  - by eapply read_field_ok.
  - by eapply read_body_ok.
  - by eapply send_status_ok.
  - destruct (send_field_inv _ _ _ _ _ _ _ H1) as [[_ ->]|[]]; [done|]. by eapply http_ok_error.
  - by eapply end_header_ok.
  - by eapply send_body_ok.
Qed.
End accounting.

(** ** Formats

    The format specifiers the server uses, in any memory. *)

Definition plain_fs (type modifiers next : Z) : fs :=
  mk_fs FLAGS_NONE PARAMETER_NONE WIDTH_NONE PRECISION_NONE LENGTH_NONE type modifiers next.

(** An element of a list of constants. *)
Ltac literal := apply (bool_decide_unpack _); vm_compute; exact I.

(** A specifier of one letter. *)
Lemma fs_process_letter m a c next type modifiers :
  load8 m a = Ok c → load8 m (a + 1) = Ok next → c ∈ [chr "s"; chr "d"; chr "i"] →
  type_of_char c = (type, modifiers, 1) →
  fs_process m a = Ok (plain_fs type modifiers next, 1).
Proof.
  intros E En Hc Ht. unfold fs_process, fs_process_parameter, fs_process_flags, fs_process_width, fs_process_precision,
    fs_process_length, fs_process_type, fs_process_next_char, scan_number.
  cbn [number_loop flags_loop length_loop].
  assert (∀ (b : bool), isdigit c = b → b = false ∧ (c =? chr "$") = false ∧ (c =? chr "-") = false ∧ (c =? chr "+") = false ∧
    (c =? chr " ") = false ∧ (c =? chr "0") = false ∧ (c =? chr "#") = false ∧ (c =? chr "*") = false ∧
    (c =? chr ".") = false ∧ (c =? chr "h") = false ∧ (c =? chr "l") = false ∧ (c =? chr "L") = false ∧
    (c =? chr "z") = false ∧ (c =? chr "j") = false ∧ (c =? chr "t") = false) as Hn.
  { intros b <-. repeat (apply elem_of_cons in Hc as [-> | Hc]; [vm_compute; repeat split|]). by apply elem_of_nil in Hc. }
  destruct (Hn _ eq_refl) as (H1 & H2 & H3 & H4 & H5 & H6 & H7 & H8 & H9 & H10 & H11 & H12 & H13 & H14 & H15).
  repeat (first [rewrite E | rewrite bind_Ok | rewrite H1 | rewrite H2 | rewrite H3 | rewrite H4 | rewrite H5 | rewrite H6
    | rewrite H7 | rewrite H8 | rewrite H9 | rewrite H10 | rewrite H11 | rewrite H12 | rewrite H13 | rewrite H14 | rewrite H15
    | rewrite Z.sub_diag | rewrite Z.add_0_r]; cbn [negb]).
  destruct ((chr "1" <=? c) || (c <=? chr "9")); cbn [negb]; rewrite ?bind_Ok, ?Z.sub_diag, ?Z.add_0_r, ?E, ?bind_Ok, ?H3, ?H4, ?H5, ?H6, ?H7.
  all: repeat (first [rewrite E | rewrite bind_Ok | rewrite H1 | rewrite H2 | rewrite H3 | rewrite H4 | rewrite H5 | rewrite H6
    | rewrite H7 | rewrite H8 | rewrite H9 | rewrite H10 | rewrite H11 | rewrite H12 | rewrite H13 | rewrite H14 | rewrite H15
    | rewrite Ht | rewrite En | rewrite Z.sub_diag | rewrite Z.add_0_r]; cbn [negb]).
  all: unfold plain_fs; do 2 f_equal; lia.
Qed.

Definition decimal (v : Z) : list Z := int_text v (plain_fs TYPE_INT TYPEMOD_NONE 0).

Lemma cstr_unique m a s1 s2 : cstr m a s1 → cstr m a s2 → s1 = s2.
Proof.
  revert a s2. induction s1 as [|c s1 IH]; intros a [|d s2] H1 H2.
  - done.
  - apply cstr_nil in H1. apply cstr_cons in H2 as (E & ? & _). rewrite E in H1. injection H1 as ->. lia.
  - apply cstr_nil in H2. apply cstr_cons in H1 as (E & ? & _). rewrite E in H2. injection H2 as ->. lia.
  - apply cstr_cons in H1 as (E1 & _ & H1), H2 as (E2 & _ & H2). rewrite E1 in E2. injection E2 as ->. f_equal. by eapply IH.
Qed.

Lemma renders_nil m a args : cstr m a [] → renders m a args [] false.
Proof. intros H. apply renders_end. by apply cstr_nil. Qed.

Lemma renders_cons m a c l args out pct :
  cstr m a (c :: l) → c ≠ chr "%" → (cstr m (a + 1) l → renders m (a + 1) args out pct) → renders m a args (c :: out) pct.
Proof. intros H Hc Hr. apply cstr_cons in H as (E & Hc0 & H). apply renders_char; [done|lia|done|auto]. Qed.

Lemma cstr_next m a l : cstr m a l → load8 m a = Ok (match l with [] => 0 | c :: _ => c end).
Proof. intros H. destruct l; [by apply cstr_nil|]. by apply cstr_cons in H as [H _]. Qed.

Lemma renders_string m a l p t args out :
  cstr m a (chr "%" :: chr "s" :: l) → cstr m p t →
  (cstr m (a + 2) l → renders m (a + 2) args out false) → renders m a (VPtr p :: args) (t ++ out) false.
Proof.
  intros H Ht Hr. apply cstr_cons in H as (E & _ & H). apply cstr_cons in H as (E1 & _ & H).
  replace (a + 1 + 1) with (a + 2) in H by lia.
  eapply (renders_spec m a (plain_fs TYPE_STR TYPEMOD_NONE _) 1 (plain_fs TYPE_STR TYPEMOD_NONE _) (plain_fs TYPE_STR TYPEMOD_NONE _)
    _ (VPtr p :: args) (VPtr p :: args) args t out false); [done| |reflexivity..| |].
  - apply (fs_process_letter m (a + 1) (chr "s")); [done| |literal|done]. replace (a + 1 + 1) with (a + 2) by lia. by apply cstr_next.
  - exact (text_str m (plain_fs TYPE_STR TYPEMOD_NONE _) p t args eq_refl Ht).
  - replace (a + 1 + 1) with (a + 2) by lia. auto.
Qed.

Lemma renders_number m a c l v args out :
  c = chr "d" ∨ c = chr "i" → cstr m a (chr "%" :: c :: l) → 
  (cstr m (a + 2) l → renders m (a + 2) args out false) → renders m a (VInt v :: args) (decimal v ++ out) false.
Proof.
  intros Hc H Hr. apply cstr_cons in H as (E & _ & H). apply cstr_cons in H as (E1 & _ & H).
  replace (a + 1 + 1) with (a + 2) in H by lia.
  set (md := if decide (c = chr "d") then TYPEMOD_NONE else TYPEMOD_BASE_FROM_PREFIX).
  eapply (renders_spec m a (plain_fs TYPE_INT md _) 1 (plain_fs TYPE_INT md _) (plain_fs TYPE_INT md _)
    _ (VInt v :: args) (VInt v :: args) args (decimal v) out false); [done| |reflexivity..| |].
  - apply (fs_process_letter m (a + 1) c); [done| |destruct Hc as [-> | ->]; literal|by destruct Hc as [-> | ->]].
    replace (a + 1 + 1) with (a + 2) by lia. by apply cstr_next.
  - assert (decimal v = int_text v (plain_fs TYPE_INT md (match l with [] => 0 | c :: _ => c end))) as ->
      by (unfold md; destruct (decide _); reflexivity).
    apply text_int; [done|vm_compute; repeat split; congruence|done].
  - replace (a + 1 + 1) with (a + 2) by lia. auto.
Qed.

(** ** The response *)

Definition http_formats : list string :=
  ["%.*s %.*s %.*s"; "%i"; "%a"; crlf; "%s %d %s" ++ crlf; "%s: %i" ++ crlf; "%s: %f" ++ crlf; "%s: %s" ++ crlf;
   "uHTTP"; "keep-alive"; "*"; "Upgrade"; "websocket"]%string.
Definition http_strings : list string :=
  map hv_str version_specs ++ map hs_msg status_specs ++ map hm_str method_specs ++ map hf_str field_specs ++ http_formats.

Section response.
Context (lit : string → Z).
Context (frexpf : fp → fp * Z) (modff : fp → fp * fp) (expf : fp → fp).
Context (hl : http_locals) (timeout : Z).

(** The literals are in memory, beside the arrays that are printed into. *)
Record http_memory (m : mem) : Prop := {
  hm_lits : Forall (λ x, cstr m (lit x) (chars x)) http_strings;
  hm_response : mapped m (hl_response hl) 32;
  hm_field : mapped m (hl_field hl) 256;
  hm_apart : Forall (λ x, CString.apart (hl_response hl) 32 (lit x) (length (chars x) + 1) ∧
                          CString.apart (hl_field hl) 256 (lit x) (length (chars x) + 1)) http_strings }.

(** Only the two arrays have changed. *)
Definition only_printed (m m' : mem) : Prop := only_two (hl_response hl) 32 (hl_field hl) 256 m m'.

Lemma only_printed_bytes m m' a l :
  only_printed m m' → CString.apart (hl_response hl) 32 a (length l) → CString.apart (hl_field hl) 256 a (length l) →
  bytes_at m a l → bytes_at m' a l.
Proof.
  intros [Ho _] H1 H2. rewrite !bytes_at_iff. intros Hb i c Hi. pose proof (lookup_lt_Some _ _ _ Hi).
  unfold CString.apart in *. rewrite Ho by lia. by apply Hb.
Qed.

Lemma http_memory_printed m m' : http_memory m → only_printed m m' → http_memory m'.
Proof.
  intros [Hl Hr Hf Ha] Ho. split; [|by eapply only_two_mapped..|done].
  rewrite Forall_forall in Hl, Ha |- *. intros x Hx. destruct (Hl x Hx) as [Hb Hc], (Ha x Hx) as [A1 A2]. split; [|done].
  eapply only_printed_bytes; [exact Ho|..|exact Hb]; rewrite length_app; cbn [length];
    unfold CString.apart in *; lia.
Qed.

Lemma http_literal m x : http_memory m → x ∈ http_strings → cstr m (lit x) (chars x).
Proof. intros H Hx. pose proof (hm_lits _ H) as Hl. rewrite Forall_forall in Hl. by apply Hl. Qed.

(** Tests that look at the table alone. *)
Lemma lut_find_pure {E} (test : E → prog script bool) (p : E → bool) lut s :
  (∀ e, test e s = Ok (p e, s)) → lut_find test lut s = Ok (List.find p lut, s).
Proof.
  intros Ht. induction lut as [|e lut IH]; [done|]. cbn [lut_find List.find].
  rewrite (prog_bind_Ok _ _ _ _ _ (Ht e)). by destruct (p e).
Qed.

Lemma field_spec_named name s : name ≠ 0 →
  UHTTPSrv_GetFieldSpec lit name 0 s = Ok (List.find (λ l, hf_name l =? name) field_specs, s).
Proof.
  intros Hn. unfold UHTTPSrv_GetFieldSpec, check, lift_res. unfold given. destruct (Z.eqb_spec name 0); [done|].
  cbn [negb andb Z.eqb]. apply lut_find_pure. intros e. by destruct (hf_name e =? name).
Qed.

Lemma version_1v1 s : UHTTPSrv_GetVersionSpec lit HTTP_VER_1V1 0 s = Ok (Some (mk_http_version HTTP_VER_1V1 "HTTP/1.1"), s).
Proof. reflexivity. Qed.

Lemma status_spec_coded code s : code ≠ 0 →
  UHTTPSrv_GetStatusCodeSpec lit code 0 s = Ok (List.find (λ l, hs_code l =? code) status_specs, s).
Proof.
  intros Hn. unfold UHTTPSrv_GetStatusCodeSpec, check, lift_res. unfold given. destruct (Z.eqb_spec code 0); [done|].
  cbn [negb andb Z.eqb]. apply lut_find_pure. intros e. by destruct (hs_code e =? code).
Qed.

Lemma tx_send s p l : sc_closed s = false → bytes_at (sc_mem s) p l →
  st_send p (length l) timeout s = Ok (Z.of_nat (length l), sc_with (sc_mem s) (sc_rx s) (sc_tx s ++ l) s).
Proof. apply send_ok. Qed.

(** Printing a text and sending what there is room for. *)
Lemma print_ok s a sz fmt l args out :
  cstr (sc_mem s) (lit fmt) l → renders (sc_mem s) (lit fmt) args out false → 0 < sz < 4294967296 →
  let printed := take (Z.to_nat (sz - 1)) out in
  mapped (sc_mem s) a (Z.to_nat sz) → CString.apart a sz (lit fmt) (length l + 1) →
  (∀ p t, VPtr p ∈ args → cstr (sc_mem s) p t → CString.apart a sz p (length t + 1)) →
  print_http lit frexpf modff expf a sz fmt args s =
    Ok (Z.of_nat (length printed), sc_with (put_bytes (sc_mem s) a (printed ++ [0])) (sc_rx s) (sc_tx s) s).
Proof.
  intros Hl Hr Hsz printed Hm Ha Hargs. unfold print_http, print, runs. cbn [st_mem script_stream].
  assert (length printed ≤ sz - 1) as Hp by (unfold printed; rewrite length_take; lia).
  unfold snprintf. rewrite (vsnprintf_renders frexpf modff expf (sc_mem s) a sz (lit fmt) l args out false); try done; fold printed.
  - intros i Hi. apply Hm. lia.
  - unfold CString.apart in *. lia.
  - intros p t Hp' Ht. pose proof (Hargs p t Hp' Ht). unfold CString.apart in *. lia.
Qed.

(** The line of a field. *)
Definition http_line (name : string) (value : list Z) : list Z := chars name ++ chars ": " ++ value ++ chars crlf.

Lemma print_field_ok s fmt l name arg value (args := [VPtr (lit name); arg]) :
  sc_closed s = false → http_memory (sc_mem s) → fmt ∈ http_strings → chars fmt = l →
  renders (sc_mem s) (lit fmt) args (http_line name value) false → name ∈ http_strings →
  (length (http_line name value) ≤ 255)%nat →
  (∀ p t, arg = VPtr p → cstr (sc_mem s) p t → CString.apart (hl_field hl) 256 p (length t + 1)) →
  ∃ m', (ec ← print_http lit frexpf modff expf (hl_field hl) 256 fmt args;
         ec ← (if ec <? EOK then mret ec else st_send (hl_field hl) ec timeout);
         mret ec : prog script Z) s =
    Ok (Z.of_nat (length (http_line name value)), sc_with m' (sc_rx s) (sc_tx s ++ http_line name value) s) ∧
    only_printed (sc_mem s) m'.
Proof.
  intros Hc Hm Hfmt <- Hr Hname Hlen Harg. set (out := http_line name value) in *.
  assert (Hap : ∀ x, x ∈ http_strings → CString.apart (hl_field hl) 256 (lit x) (length (chars x) + 1)).
  { pose proof (hm_apart _ Hm) as Ha. rewrite Forall_forall in Ha. intros x Hx. by apply Ha. }
  assert (take (Z.to_nat (256 - 1)) out = out) as Et by (apply take_ge; lia).
  exists (put_bytes (sc_mem s) (hl_field hl) (out ++ [0])). split.
  - pose proof (print_ok s (hl_field hl) 256 fmt (chars fmt) args out) as E. cbv zeta in E. rewrite Et in E.
    rewrite (prog_bind_Ok _ _ _ _ _ (E ltac:(by apply http_literal) Hr ltac:(lia) (hm_field _ Hm) (Hap _ Hfmt)
      ltac:(intros p t Hp Ht; apply elem_of_cons in Hp as [[= ->]|Hp];
        [destruct (http_literal _ name Hm Hname) as [Hn1 Hn2];
         by rewrite (cstr_unique _ _ _ _ Ht (conj Hn1 Hn2)); apply Hap
        |apply list_elem_of_singleton in Hp; by apply Harg]))). clear E.
    destruct (Z.ltb_spec (length out) EOK) as [H|_]; [unfold EOK in H; lia|].
    rewrite (prog_bind_Ok _ _ _ _ _ (tx_send (sc_with (put_bytes (sc_mem s) (hl_field hl) (out ++ [0])) (sc_rx s) (sc_tx s) s)
      (hl_field hl) out Hc ltac:(cbn; eapply (proj1 (bytes_at_app _ _ out [0])), put_bytes_bytes_at))). reflexivity.
  - split.
    + intros i H1 H2. apply put_bytes_lookup_ne. rewrite length_app. cbn [length]. lia.
    + intros i Hi. apply (put_bytes_mapped (sc_mem s) (hl_field hl) (out ++ [0]) i 1); [|lia]. intros j Hj. by replace j with i by lia.
Qed.

Lemma renders_text_line m name p value :
  http_memory m → name ∈ http_strings → cstr m p value →
  renders m (lit ("%s: %s" ++ crlf)) [VPtr (lit name); VPtr p] (http_line name value) false.
Proof.
  intros Hm Hname Hp. pose proof (http_literal m ("%s: %s" ++ crlf) Hm ltac:(literal)) as Hf.
  change (chars ("%s: %s" ++ crlf)) with [37; 115; 58; 32; 37; 115; 13; 10] in Hf.
  change (http_line name value) with (chars name ++ 58 :: 32 :: value ++ [13; 10]).
  apply (renders_string m _ [58; 32; 37; 115; 13; 10] _ (chars name)); [done|by apply http_literal|]. intros H1.
  apply (renders_cons m _ 58 [32; 37; 115; 13; 10]); [done|done|]. intros H2.
  apply (renders_cons m _ 32 [37; 115; 13; 10]); [done|done|]. intros H3.
  apply (renders_string m _ [13; 10] _ value); [done|done|]. intros H4.
  apply (renders_cons m _ 13 [10]); [done|done|]. intros H5.
  apply (renders_cons m _ 10 []); [done|done|]. intros H6. by apply renders_nil.
Qed.

Lemma renders_number_line m name v :
  http_memory m → name ∈ http_strings →
  renders m (lit ("%s: %i" ++ crlf)) [VPtr (lit name); VInt v] (http_line name (decimal v)) false.
Proof.
  intros Hm Hname. pose proof (http_literal m ("%s: %i" ++ crlf) Hm ltac:(literal)) as Hf.
  change (chars ("%s: %i" ++ crlf)) with [37; 115; 58; 32; 37; 105; 13; 10] in Hf.
  change (http_line name (decimal v)) with (chars name ++ 58 :: 32 :: decimal v ++ [13; 10]).
  apply (renders_string m _ [58; 32; 37; 105; 13; 10] _ (chars name)); [done|by apply http_literal|]. intros H1.
  apply (renders_cons m _ 58 [32; 37; 105; 13; 10]); [done|done|]. intros H2.
  apply (renders_cons m _ 32 [37; 105; 13; 10]); [done|done|]. intros H3.
  apply (renders_number m _ (chr "i") [13; 10]); [by right|done|]. intros H4.
  apply (renders_cons m _ 13 [10]); [done|done|]. intros H5.
  apply (renders_cons m _ 10 []); [done|done|]. intros H6. by apply renders_nil.
Qed.

(** The status line; 31 characters of it are sent. *)
Definition status_line (c : uhttp_status_code_spec) : list Z :=
  chars "HTTP/1.1" ++ chars " " ++ decimal (hs_value c) ++ chars " " ++ chars (hs_msg c) ++ chars crlf.

Lemma renders_status m c :
  http_memory m → c ∈ status_specs →
  renders m (lit ("%s %d %s" ++ crlf)) [VPtr (lit "HTTP/1.1"); VInt (hs_value c); VPtr (lit (hs_msg c))] (status_line c) false.
Proof.
  intros Hm Hc. assert (hs_msg c ∈ http_strings) as Hmsg.
  { unfold http_strings. rewrite !elem_of_app. right. left. by apply list_elem_of_fmap_2. }
  pose proof (http_literal m ("%s %d %s" ++ crlf) Hm ltac:(literal)) as Hf.
  change (chars ("%s %d %s" ++ crlf)) with [37; 115; 32; 37; 100; 32; 37; 115; 13; 10] in Hf.
  change (status_line c) with (chars "HTTP/1.1" ++ 32 :: decimal (hs_value c) ++ 32 :: chars (hs_msg c) ++ [13; 10]).
  apply (renders_string m _ [32; 37; 100; 32; 37; 115; 13; 10] _ (chars "HTTP/1.1"));
    [done|apply http_literal; [done|literal]|]. intros H1.
  apply (renders_cons m _ 32 [37; 100; 32; 37; 115; 13; 10]); [done|done|]. intros H2.
  apply (renders_number m _ (chr "d") [32; 37; 115; 13; 10]); [by left|done|]. intros H3.
  apply (renders_cons m _ 32 [37; 115; 13; 10]); [done|done|]. intros H4.
  apply (renders_string m _ [13; 10] _ (chars (hs_msg c))); [done|by apply http_literal|]. intros H5.
  apply (renders_cons m _ 13 [10]); [done|done|]. intros H6.
  apply (renders_cons m _ 10 []); [done|done|]. intros H7. by apply renders_nil.
Qed.

(** *** Fields *)

(** The connection after a text was sent. *)
Definition sent (m : mem) (l : list Z) (s : script) : script := sc_with m (sc_rx s) (sc_tx s ++ l) s.

Lemma send_line_ok req s name str type fmt arg value :
  sc_closed s = false → http_memory (sc_mem s) → rq_state req = HTTP_STATE_SEND_FIELDS → name ≠ 0 →
  List.find (λ l, hf_name l =? name) field_specs = Some (mk_http_field name type str) → str ∈ http_strings →
  http_format type = Some fmt → fmt ∈ http_strings →
  renders (sc_mem s) (lit fmt) [VPtr (lit str); arg] (http_line str value) false →
  (length (http_line str value) ≤ 255)%nat →
  (∀ p t, arg = VPtr p → cstr (sc_mem s) p t → CString.apart (hl_field hl) 256 p (length t + 1)) →
  ∃ m', UHTTPSrv_SendHeaderField lit frexpf modff expf hl timeout req name arg s =
      Ok ((EOK, req), sent m' (http_line str value) s) ∧ only_printed (sc_mem s) m'.
Proof.
  intros Hc Hm Hst Hname Hfind Hstr Hfmt Hfmts Hr Hlen Harg.
  destruct (print_field_ok s fmt (chars fmt) str arg value Hc Hm Hfmts eq_refl Hr Hstr Hlen Harg) as (m' & E & Ho).
  exists m'. split; [|done]. unfold UHTTPSrv_SendHeaderField, enter, failed. rewrite Hst, Z.eqb_refl, Hst.
  change (HTTP_STATE_SEND_FIELDS =? HTTP_STATE_ERROR) with false. cbv iota. unfold UHTTPSrv_RenderFieldLine.
  rewrite bind_assoc, (prog_bind_Ok _ _ _ _ _ (field_spec_named name s Hname)), Hfind. cbn [hf_type hf_str]. rewrite Hfmt.
  prog_inv E. prog_inv E. injection E as -> ->. rewrite (prog_bind_Ok _ _ _ _ _ E0), (prog_bind_Ok _ _ _ _ _ E1).
  destruct (Z.ltb_spec (length (http_line str value)) EOK) as [H|_]; [unfold EOK in H; lia|]. reflexivity.
Qed.

Lemma send_text_ok req s name str p value :
  sc_closed s = false → http_memory (sc_mem s) → rq_state req = HTTP_STATE_SEND_FIELDS → name ≠ 0 →
  List.find (λ l, hf_name l =? name) field_specs = Some (mk_http_field name HTTP_FIELD_TYPE_STR str) → str ∈ http_strings →
  cstr (sc_mem s) p value → CString.apart (hl_field hl) 256 p (length value + 1) →
  (length (http_line str value) ≤ 255)%nat →
  ∃ m', UHTTPSrv_SendHeaderField lit frexpf modff expf hl timeout req name (VPtr p) s =
      Ok ((EOK, req), sent m' (http_line str value) s) ∧ only_printed (sc_mem s) m'.
Proof.
  intros Hc Hm Hst Hname Hfind Hstr Hp Hap Hlen. eapply send_line_ok; try done.
  - literal.
  - by apply renders_text_line.
  - intros q t [= <-] Ht. by rewrite (cstr_unique _ _ _ _ Ht Hp).
Qed.

Lemma send_literal_ok req s name str x :
  sc_closed s = false → http_memory (sc_mem s) → rq_state req = HTTP_STATE_SEND_FIELDS → name ≠ 0 →
  List.find (λ l, hf_name l =? name) field_specs = Some (mk_http_field name HTTP_FIELD_TYPE_STR str) → str ∈ http_strings →
  x ∈ http_strings → (length (http_line str (chars x)) ≤ 255)%nat →
  ∃ m', UHTTPSrv_SendHeaderField lit frexpf modff expf hl timeout req name (VPtr (lit x)) s =
      Ok ((EOK, req), sent m' (http_line str (chars x)) s) ∧ only_printed (sc_mem s) m'.
Proof.
  intros Hc Hm Hst Hname Hfind Hstr Hx Hlen. apply send_text_ok; try done; [by apply http_literal|].
  pose proof (hm_apart _ Hm) as Ha. rewrite Forall_forall in Ha. by apply Ha.
Qed.

(** Sign and digits. *)
Lemma decimal_parts v (f := plain_fs TYPE_INT TYPEMOD_NONE 0) :
  decimal v = int_prefix v f ++ numeral 20 (int_base f) (int_magnitude v f).
Proof.
  unfold decimal, int_text. fold f. cbn [fs_flags fs_width fs_precision f plain_fs].
  change (negb (WIDTH_NONE =? WIDTH_NONE)) with false. change (WIDTH_NONE =? WIDTH_NONE) with true.
  change (negb (PRECISION_NONE =? PRECISION_NONE)) with false. change (flag FLAGS_NONE FLAGS_ZERO) with false. cbn [andb replicate app].
  set (body := int_prefix v _ ++ _). by replace (Z.to_nat (0 - length body)) with 0%nat by lia.
Qed.

Lemma decimal_length v : (length (decimal v) ≤ 22)%nat.
Proof.
  rewrite decimal_parts, length_app.
  match goal with |- context [int_prefix ?a ?b] => pose proof (int_prefix_length a b) end.
  match goal with |- context [numeral ?a ?b ?c] => pose proof (numeral_length b a c) end. lia.
Qed.

Lemma send_number_ok req s name str v :
  sc_closed s = false → http_memory (sc_mem s) → rq_state req = HTTP_STATE_SEND_FIELDS → name ≠ 0 →
  List.find (λ l, hf_name l =? name) field_specs = Some (mk_http_field name HTTP_FIELD_TYPE_INT str) → str ∈ http_strings →
  (length (chars str) ≤ 200)%nat →
  ∃ m', UHTTPSrv_SendHeaderField lit frexpf modff expf hl timeout req name (VInt v) s =
      Ok ((EOK, req), sent m' (http_line str (decimal v)) s) ∧ only_printed (sc_mem s) m'.
Proof.
  intros Hc Hm Hst Hname Hfind Hstr Hlen. eapply send_line_ok; try done.
  - literal.
  - by apply renders_number_line.
  - pose proof (decimal_length v). unfold http_line. rewrite !length_app. change (length (chars ": ")) with 2%nat.
    change (length (chars crlf)) with 2%nat. lia.
Qed.

(** *** The header of a response *)

(** What precedes the fields the callback adds. *)
Definition response_head (c : uhttp_status_code_spec) (n : Z) : list Z :=
  take 31 (status_line c) ++ http_line "content-length" (decimal (s32 n)) ++
  http_line "server" (chars "uHTTP") ++ http_line "connection" (chars "keep-alive") ++
  http_line "access-control-allow-origin" (chars "*").

Lemma only_printed_trans m1 m2 m3 : only_printed m1 m2 → only_printed m2 m3 → only_printed m1 m3.
Proof. apply only_two_trans. Qed.

Lemma send_status_line_ok c s :
  sc_closed s = false → http_memory (sc_mem s) → c ∈ status_specs → hs_code c ≠ 0 →
  List.find (λ l, hs_code l =? hs_code c) status_specs = Some c →
  ∃ m', UHTTPSrv_SendStatusLine lit frexpf modff expf hl timeout HTTP_VER_1V1 (hs_code c) s =
      Ok (Z.of_nat (length (take 31 (status_line c))), sent m' (take 31 (status_line c)) s) ∧ only_printed (sc_mem s) m'.
Proof.
  intros Hc Hm Hin Hcode Hfind. pose proof (renders_status _ c Hm Hin) as Hren.
  remember (status_line c) as out eqn:Eout. clear Eout. set (line := take 31 out).
  exists (put_bytes (sc_mem s) (hl_response hl) (line ++ [0])). unfold UHTTPSrv_SendStatusLine.
  assert (Hap : ∀ x, x ∈ http_strings → CString.apart (hl_response hl) 32 (lit x) (length (chars x) + 1)).
  { pose proof (hm_apart _ Hm) as Ha. rewrite Forall_forall in Ha. intros x Hx. by apply Ha. }
  assert (hs_msg c ∈ http_strings) as Hmsg.
  { unfold http_strings. rewrite !elem_of_app. right. left. by apply list_elem_of_fmap_2. }
  assert ("HTTP/1.1"%string ∈ http_strings) as Hver by (literal).
  assert (("%s %d %s" ++ crlf)%string ∈ http_strings) as Hfmt by (literal).
  split.
  - rewrite (prog_bind_Ok _ _ _ _ _ (version_1v1 s)), (prog_bind_Ok _ _ _ _ _ (status_spec_coded (hs_code c) s Hcode)), Hfind.
    cbn [hv_str].
    pose proof (print_ok s (hl_response hl) 32 ("%s %d %s" ++ crlf) (chars ("%s %d %s" ++ crlf))
      [VPtr (lit "HTTP/1.1"); VInt (hs_value c); VPtr (lit (hs_msg c))] out) as E. cbv zeta in E.
    change (take (Z.to_nat (32 - 1)) out) with line in E.
    assert (length line ≤ 31)%nat as Hl by (unfold line; rewrite length_take; lia).
    rewrite (prog_bind_Ok _ _ _ _ _ (E ltac:(by apply http_literal) Hren ltac:(lia) (hm_response _ Hm) (Hap _ Hfmt)
      ltac:(intros p t Hp Ht; apply elem_of_cons in Hp as [[= ->]|Hp];
        [rewrite (cstr_unique _ _ _ _ Ht (http_literal _ _ Hm Hver)); by apply Hap|];
        apply elem_of_cons in Hp as [[=]|Hp]; apply list_elem_of_singleton in Hp; injection Hp as ->;
        rewrite (cstr_unique _ _ _ _ Ht (http_literal _ _ Hm Hmsg)); by apply Hap))). clear E.
    apply (tx_send (sc_with (put_bytes (sc_mem s) (hl_response hl) (line ++ [0])) (sc_rx s) (sc_tx s) s) (hl_response hl) line Hc).
    cbn. eapply (proj1 (bytes_at_app _ _ line [0])), put_bytes_bytes_at.
  - assert (length line ≤ 31)%nat as Hl by (unfold line; rewrite length_take; lia). split.
    + intros i H1 H2. apply put_bytes_lookup_ne. rewrite length_app. cbn [length]. lia.
    + intros i Hi. apply (put_bytes_mapped (sc_mem s) (hl_response hl) (line ++ [0]) i 1); [|lia]. intros j Hj. by replace j with i by lia.
Qed.

Lemma send_status_parts c n req s :
  sc_closed s = false → http_memory (sc_mem s) → c ∈ status_specs → hs_code c ≠ 0 →
  List.find (λ l, hs_code l =? hs_code c) status_specs = Some c → rq_state req ≠ HTTP_STATE_ERROR →
  ∃ m', UHTTPSrv_SendStatus lit frexpf modff expf hl timeout req (hs_code c) n s =
      Ok ((EOK, upd_state HTTP_STATE_SEND_FIELDS (upd_resp_bleft n req)), sent m' (response_head c n) s) ∧
    only_printed (sc_mem s) m'.
Proof.
  intros Hc Hm Hin Hcode Hfind Hst. unfold UHTTPSrv_SendStatus, failed.
  destruct (Z.eqb_spec (rq_state req) HTTP_STATE_ERROR); [done|].
  destruct (send_status_line_ok c s Hc Hm Hin Hcode Hfind) as (m1 & E1 & O1).
  rewrite (prog_bind_Ok _ _ _ _ _ E1). destruct (Z.ltb_spec (length (take 31 (status_line c))) EOK) as [H|_]; [unfold EOK in H; lia|].
  set (req1 := upd_state HTTP_STATE_SEND_FIELDS req).
  destruct (send_number_ok req1 (sent m1 (take 31 (status_line c)) s) HTTP_FIELD_NAME_CONTENT_LENGTH "content-length" (s32 n))
    as (m2 & E2 & O2); [done|by eapply http_memory_printed|done|done|done|literal|by apply (bool_decide_unpack _)|].
  rewrite (prog_bind_Ok _ _ _ _ _ E2). cbv beta iota.
  assert (only_printed (sc_mem s) m2) as O2' by (by eapply only_printed_trans).
  match goal with |- context [sent m2 ?l ?t] => set (s2 := sent m2 l t) end.
  destruct (send_literal_ok req1 s2 HTTP_FIELD_NAME_SERVER "server" "uHTTP")
    as (m3 & E3 & O3); [done|by eapply http_memory_printed|done|done|done|literal|literal|by apply (bool_decide_unpack _)|].
  rewrite (prog_bind_Ok _ _ _ _ _ E3). cbv beta iota.
  assert (only_printed (sc_mem s) m3) as O3' by (by eapply only_printed_trans).
  match goal with |- context [sent m3 ?l ?t] => set (s3 := sent m3 l t) end.
  destruct (send_literal_ok req1 s3 HTTP_FIELD_NAME_CONNECTION "connection" "keep-alive")
    as (m4 & E4 & O4); [done|by eapply http_memory_printed|done|done|done|literal|literal|by apply (bool_decide_unpack _)|].
  rewrite (prog_bind_Ok _ _ _ _ _ E4). cbv beta iota.
  assert (only_printed (sc_mem s) m4) as O4' by (by eapply only_printed_trans).
  match goal with |- context [sent m4 ?l ?t] => set (s4 := sent m4 l t) end.
  destruct (send_literal_ok req1 s4 HTTP_FIELD_NAME_ACCESS_CONTROL_ALLOW_ORIGIN "access-control-allow-origin" "*")
    as (m5 & E5 & O5); [done|by eapply http_memory_printed|done|done|done|literal|literal|by apply (bool_decide_unpack _)|].
  rewrite (prog_bind_Ok _ _ _ _ _ E5). cbv beta iota.
  exists m5. split; [|by eapply only_printed_trans]. unfold mret, prog_ret. do 2 f_equal.
  unfold s4, s3, s2, sent, response_head, sc_with. cbn [sc_mem sc_rx sc_tx sc_now sc_closed].
  f_equal. by rewrite <- !app_assoc.
Qed.

Lemma end_header_sent req s :
  sc_closed s = false → http_memory (sc_mem s) → rq_state req = HTTP_STATE_SEND_FIELDS →
  UHTTPSrv_EndHeader lit timeout req s =
    Ok ((EOK, upd_state (if rq_resp_bleft req =? 0 then HTTP_STATE_DONE else HTTP_STATE_SEND_BODY) req),
        sent (sc_mem s) (chars crlf) s).
Proof.
  intros Hc Hm Hst. unfold UHTTPSrv_EndHeader, enter, failed. rewrite Hst, Z.eqb_refl, Hst.
  change (HTTP_STATE_SEND_FIELDS =? HTTP_STATE_ERROR) with false. cbv iota.
  destruct (http_literal _ crlf Hm ltac:(literal)) as [Hb _]. apply bytes_at_app in Hb as [Hb _].
  unfold UHTTPSrv_SendEmptyLine. rewrite (prog_bind_Ok _ _ _ _ _ (tx_send s (lit crlf) (chars crlf) Hc Hb)). reflexivity.
Qed.

Lemma send_body_sent req p l s :
  sc_closed s = false → bytes_at (sc_mem s) p l → rq_state req = HTTP_STATE_SEND_BODY →
  l ≠ [] → length l ≤ rq_resp_bleft req → is_u32 (rq_resp_bleft req) →
  UHTTPSrc_SendBody timeout req p (length l) s =
    Ok ((Z.of_nat (length l),
         let req := upd_resp_bleft (rq_resp_bleft req - length l) req in
         if rq_resp_bleft req =? 0 then upd_state HTTP_STATE_DONE req else req),
        sent (sc_mem s) l s).
Proof.
  intros Hc Hb Hst Hl Hle Hu. unfold UHTTPSrc_SendBody, enter, failed. rewrite Hst, Z.eqb_refl, Hst.
  change (HTTP_STATE_SEND_BODY =? HTTP_STATE_ERROR) with false. cbv iota.
  assert (length l ≠ 0%nat) by (by destruct l). destruct (Z.eqb_spec (length l) 0); [lia|].
  destruct (Z.ltb_spec (rq_resp_bleft req) (length l)); [lia|].
  rewrite (prog_bind_Ok _ _ _ _ _ (tx_send s p l Hc Hb)). destruct (Z.ltb_spec (length l) EOK) as [H'|_]; [unfold EOK in H'; lia|].
  assert (rq_resp_bleft req -u length l = rq_resp_bleft req - length l) as -> by (apply u32_small; word_lia). reflexivity.
Qed.
End response.

(** ** Scanning the request line *)

(** A word: no white space, quote or backslash. *)
Definition word_char (c : Z) : Prop := 0 < c < 256 ∧ isspace c = false ∧ c ≠ 92 ∧ c ≠ 34.
Definition is_word (l : list Z) : Prop := l ≠ [] ∧ Forall word_char l.

Lemma scan_word_loop l : ∀ fuel m d s val max next len rest,
  cstr m s (l ++ rest) → Forall word_char l → (rest = [] ∨ ∃ r, rest = 32 :: r) → next = 32 ∨ next = 0 →
  (length l < fuel)%nat → length l ≤ max → val ≠ 0 → mapped m d (length l) →
  CString.apart d (length l) s (length (l ++ rest) + 1) →
  scan_str_loop fuel m d s val max next len false false = Ok (put_bytes m d l, d + length l, s + length l).
Proof.
  induction l as [|c l IH]; intros [|fuel] m d s val max next len rest Hc Hl Hr Hn Hf Hmax Hv Hm Ha; try (cbn in Hf; lia).
  - cbn [scan_str_loop length put_bytes]. rewrite (cstr_next _ _ _ Hc), bind_Ok. rewrite !Z.add_0_r.
    destruct Hr as [-> |[r ->]]; [done|]. cbn [app]. change (32 =? 0) with false. cbv iota.
    unfold str_step. change (32 =? 92) with false. change (32 =? 34) with false. change (isspace 32) with true. cbn [orb negb].
    by rewrite Z.add_0_r.
  - apply Forall_cons_1 in Hl as [(Hu & Hsp & H92 & H34) Hl]. cbn [app] in Hc. pose proof Hc as Hc1.
    apply cstr_cons in Hc1 as (E & _ & Hc1). cbn [scan_str_loop]. rewrite E, bind_Ok.
    destruct (Z.eqb_spec c 0); [lia|]. unfold str_step.
    destruct (Z.eqb_spec c 92); [done|]. destruct (Z.eqb_spec c 34); [done|]. rewrite Hsp.
    assert ((c =? next) = false) as ->. { apply Z.eqb_neq. destruct Hn as [-> | ->]; [|lia]. by intros ->. }
    cbn [orb]. cbv iota. destruct (Z.eqb_spec val 0); [done|]. cbn [length app] in *.
    destruct (Z.eqb_spec max 0); [lia|]. cbn [negb andb].
    apply mapped_cons in Hm as [Hm0 Hm]. rewrite store8_u8, bind_Ok by (done || word_lia).
    rewrite (IH fuel _ (d + 1) (s + 1) val (max - 1) next (len + 1) rest); try done; try lia.
    + cbn [put_bytes]. f_equal. f_equal; [f_equal; lia|lia].
    + change (<[d := c]> m) with (put_bytes m d [c]). apply cstr_frame; [done|].
      unfold CString.apart in *. cbn [length]. lia.
    + by apply mapped_insert.
    + unfold CString.apart in *. lia.
Qed.

Lemma scan_word m str sz val f l rest :
  cstr m str (l ++ rest) → is_word l → (rest = [] ∨ ∃ r, rest = 32 :: r) → fs_next_char f = 32 ∨ fs_next_char f = 0 →
  length l < fs_precision f < 2147483648 → length l ≤ sz → val ≠ 0 → mapped m val (length l + 1) →
  CString.apart val (length l + 1) str (length (l ++ rest) + 1) →
  scan_str m str sz val f = Ok (put_bytes m val (l ++ [0]), Z.of_nat (length l)).
Proof.
  intros Hc [Hne Hl] Hr Hn Hp Hsz Hv Hm Ha. unfold scan_str.
  assert (space_loop (S (size m)) m str sz = Ok (str, sz)) as ->.
  { cbn [space_loop]. destruct l as [|c l]; [done|]. cbn [length] in Hsz. destruct (Z.eqb_spec sz 0); [lia|].
    apply cstr_cons in Hc as (E & _). rewrite E, bind_Ok. apply Forall_cons_1 in Hl as [(Hu & Hsp & _) _].
    rewrite Hsp. by rewrite andb_false_r. }
  rewrite bind_Ok. unfold PRECISION_NONE. destruct (Z.eqb_spec (fs_precision f) (-1)); [lia|]. cbn [negb].
  rewrite ck32_Ok, bind_Ok, bind_Ok by lia. pose proof (cstr_length _ _ _ Hc) as Hlen. rewrite length_app in Hlen.
  rewrite (scan_word_loop l _ _ _ _ _ _ _ _ rest), bind_Ok; try done; try lia.
  - destruct (Z.eqb_spec val 0); [done|]. cbn [negb].
    rewrite store8_u8, bind_Ok; [|apply (put_bytes_mapped m val l (val + length l) 1); [intros i Hi; apply Hm; lia|lia]|word_lia].
    change (<[val + length l := 0]> (put_bytes m val l)) with (put_bytes (put_bytes m val l) (val + length l) [0]).
    rewrite <- put_bytes_app. do 2 f_equal. lia.
  - intros i Hi. apply Hm. lia.
  - unfold CString.apart in *. lia.
Qed.

(** [%.*s] and the character behind it. *)
Lemma fs_process_word m a next :
  load8 m a = Ok (chr ".") → load8 m (a + 1) = Ok (chr "*") → load8 m (a + 2) = Ok (chr "s") → load8 m (a + 3) = Ok next →
  fs_process m a = Ok (mk_fs FLAGS_NONE PARAMETER_NONE WIDTH_NONE PRECISION_PARAMETER LENGTH_NONE TYPE_STR TYPEMOD_NONE next, 3).
Proof.
  intros E0 E1 E2 E3. unfold fs_process, fs_process_parameter. rewrite E0, bind_Ok.
  change ((chr "1" <=? chr ".") || (chr "." <=? chr "9")) with true. cbv iota. unfold scan_number. cbn [number_loop].
  rewrite E0, bind_Ok. change (isdigit (chr ".")) with false. cbv iota. rewrite bind_Ok, E0, bind_Ok.
  change (negb (chr "." =? chr "$")) with true. cbv iota. rewrite bind_Ok, Z.sub_diag, bind_Ok, Z.add_0_r.
  unfold fs_process_flags. cbn [flags_loop]. rewrite E0, bind_Ok.
  change (chr "." =? chr "-") with false. change (chr "." =? chr "+") with false. change (chr "." =? chr " ") with false.
  change (chr "." =? chr "0") with false. change (chr "." =? chr "#") with false. cbv iota.
  rewrite bind_Ok, Z.sub_diag, bind_Ok, Z.add_0_r. unfold fs_process_width. rewrite E0, bind_Ok.
  change (isdigit (chr ".")) with false. change (chr "." =? chr "*") with false. cbv iota. rewrite bind_Ok, Z.add_0_r.
  unfold fs_process_precision. rewrite E0, bind_Ok. change (chr "." =? chr ".") with true. cbv iota. rewrite E1, bind_Ok.
  change (isdigit (chr "*")) with false. change (chr "*" =? chr "*") with true. cbv iota. rewrite bind_Ok.
  unfold fs_process_length. cbn [length_loop]. rewrite E2, bind_Ok.
  change (chr "s" =? chr "h") with false. change (chr "s" =? chr "l") with false. change (chr "s" =? chr "L") with false.
  change (chr "s" =? chr "z") with false. change (chr "s" =? chr "j") with false. change (chr "s" =? chr "t") with false. cbv iota.
  rewrite bind_Ok, Z.sub_diag, bind_Ok, Z.add_0_r. unfold fs_process_type. rewrite E2, bind_Ok, bind_Ok.
  change (type_of_char (chr "s")) with (TYPE_STR, TYPEMOD_NONE, 1). cbv beta iota.
  unfold fs_process_next_char. replace (a + 2 + 1) with (a + 3) by lia. rewrite E3, bind_Ok. do 2 f_equal. lia.
Qed.

Definition word_format : list Z := [37; 46; 42; 115].

(** One conversion of the scanner. *)
Lemma scan_loop_word fuel m str sz fmt fl p val args k l rest :
  cstr m fmt (word_format ++ fl) → (fl = [] ∨ ∃ r, fl = 32 :: r) →
  cstr m str (l ++ rest) → is_word l → (rest = [] ∨ ∃ r, rest = 32 :: r) →
  length l < p < 2147483648 → length l ≤ sz < 4294967296 → val ≠ 0 → mapped m val (length l + 1) →
  CString.apart val (length l + 1) str (length (l ++ rest) + 1) →
  scan_loop (S fuel) m str sz fmt (VInt p :: VPtr val :: args) k =
  scan_loop fuel (put_bytes m val (l ++ [0])) (str + length l) (sz - length l) (fmt + 4) args (k + 1).
Proof.
  intros Hf Hfl Hc Hw Hr Hp Hsz Hv Hm Ha. cbn [scan_loop].
  apply cstr_cons in Hf as (E & _ & Hf). rewrite E, bind_Ok. change (37 =? 0) with false. change (negb (37 =? chr "%")) with false. cbv iota zeta.
  apply cstr_cons in Hf as (E1 & _ & Hf). apply cstr_cons in Hf as (E2 & _ & Hf). apply cstr_cons in Hf as (E3 & _ & Hf).
  pose proof (cstr_next _ _ _ Hf) as E4.
  replace (fmt + 1 + 1 + 1 + 1) with (fmt + 1 + 3) in * by lia. replace (fmt + 1 + 1 + 1) with (fmt + 1 + 2) in * by lia.
  rewrite (fs_process_word _ _ _ E1 E2 E3 E4), bind_Ok. unfold fetch_precision. cbn [fs_precision].
  change (PRECISION_PARAMETER =? PRECISION_PARAMETER) with true. cbv iota. cbn [va_int]. rewrite bind_Ok.
  match goal with |- context [mbind _ (Ok (?x, VPtr val :: args))] => set (f := x) end. rewrite bind_Ok.
  unfold fetch_dest. change (fs_type f) with TYPE_STR. change (fs_width f) with WIDTH_NONE.
  change (negb (TYPE_STR =? TYPE_PERCENT) && negb (TYPE_STR =? TYPE_END_OF_STRING) && negb (WIDTH_NONE =? WIDTH_PARAMETER)) with true.
  cbv iota. cbn [va_ptr]. rewrite bind_Ok. unfold scan_arg. change (fs_type f) with TYPE_STR.
  change (TYPE_STR =? TYPE_CHAR) with false. change (TYPE_STR =? TYPE_STR) with true. cbv iota.
  rewrite (scan_word m str sz val f l rest), bind_Ok; try done; try lia.
  - destruct (Z.leb_spec 0 (length l)); [|lia]. change (negb (TYPE_STR =? TYPE_PERCENT)) with true. cbv iota.
    rewrite u32_small by word_lia. f_equal; lia.
  - cbn. destruct Hfl as [-> |[r ->]]; [by right|by left].
Qed.

(** The space between two conversions. *)
Lemma scan_loop_space fuel m str sz fmt fl args k l rest :
  cstr m fmt (32 :: fl) → cstr m str (32 :: l ++ rest) → is_word l → 2 ≤ sz →
  scan_loop (S fuel) m str sz fmt args k = scan_loop fuel m (str + 1) (sz - 1) (fmt + 1) args k.
Proof.
  intros Hf Hc [Hne Hl] Hsz. cbn [scan_loop]. apply cstr_cons in Hf as (E & _ & _). rewrite E, bind_Ok.
  change (32 =? 0) with false. change (negb (32 =? chr "%")) with true. change (isspace 32) with true. cbv iota.
  pose proof (cstr_length _ _ _ Hc) as Hlen. cbn [length] in Hlen.
  apply cstr_cons in Hc as (E1 & _ & Hc). destruct l as [|c l]; [done|]. apply cstr_cons in Hc as (E2 & _ & _).
  apply Forall_cons_1 in Hl as [(_ & Hsp & _) _].
  destruct (size m) as [|j] eqn:Ej; [lia|]. cbn [blank_loop].
  destruct (Z.eqb_spec sz 0); [lia|]. rewrite E1, bind_Ok. change (isspace 32) with true. cbv iota.
  destruct (Z.eqb_spec (sz - 1) 0); [lia|]. rewrite E2, bind_Ok, Hsp. by rewrite bind_Ok.
Qed.

Section parsing.
Context (lit : string → Z) (hl : http_locals) (timeout : Z).

Definition http_lits (m : mem) : Prop := Forall (λ x, cstr m (lit x) (chars x)) http_strings.

(** A region that is clear of the literals. *)
Definition clear_of_lits (a n : Z) : Prop :=
  Forall (λ x, CString.apart a n (lit x) (length (chars x) + 1)) http_strings.

Lemma http_lits_put m a l n : http_lits m → clear_of_lits a n → length l ≤ n → http_lits (put_bytes m a l).
Proof.
  unfold http_lits, clear_of_lits. rewrite !Forall_forall. intros H Ha Hl x Hx. pose proof (Ha x Hx).
  apply cstr_frame; [by apply H|]. unfold CString.apart in *. lia.
Qed.

Lemma http_lits_in m x : http_lits m → x ∈ http_strings → cstr m (lit x) (chars x).
Proof. unfold http_lits. rewrite Forall_forall. auto. Qed.

Lemma exact_matches_ok x p t s :
  cstr (sc_mem s) (lit x) (chars x) → cstr (sc_mem s) p t →
  exact_matches lit x p s = Ok (bool_decide (chars x = t), s).
Proof.
  intros Hx Ht. unfold exact_matches. rewrite (bind_reads _ _ _ (str_diff (chars x) t)).
  - unfold mret, prog_ret. do 2 f_equal. pose proof (proj2 Hx). pose proof (proj2 Ht).
    case_bool_decide as E; [apply Z.eqb_eq|apply Z.eqb_neq; intros E'; apply E; clear E; rename E' into E];
      (apply str_diff_zero in E || apply str_diff_zero); try done; (eapply Forall_impl; [eassumption|]; cbv beta; lia).
  - unfold strcmp. apply strcmp_loop_ok; [done|done|]. cbn. pose proof (cstr_length _ _ _ Hx). lia.
Qed.

(** Tests that compare strings. *)
Lemma lut_find_exact {E} (key : E → string) p t lut (test : E → prog script bool) s :
  (∀ e, test e = exact_matches lit (key e) p) → Forall (λ e, cstr (sc_mem s) (lit (key e)) (chars (key e))) lut →
  cstr (sc_mem s) p t →
  lut_find test lut s = Ok (List.find (λ e, bool_decide (chars (key e) = t)) lut, s).
Proof.
  intros Htest Hl Ht. induction Hl as [|e lut He Hl IH]; [done|]. cbn [lut_find List.find].
  rewrite Htest, (prog_bind_Ok _ _ _ _ _ (exact_matches_ok (key e) p t s He Ht)). by destruct (bool_decide _).
Qed.

Definition method_called (t : list Z) : option uhttp_method_spec :=
  List.find (λ e, bool_decide (chars (hm_str e) = t)) method_specs.
Definition version_called (t : list Z) : option uhttp_version_spec :=
  List.find (λ e, bool_decide (chars (hv_str e) = t)) version_specs.

Lemma method_spec_found p t s : http_lits (sc_mem s) → p ≠ 0 → cstr (sc_mem s) p t →
  UHTTPSrv_GetMethodSpec lit 0 p s = Ok (method_called t, s).
Proof.
  intros Hl Hp Ht. unfold UHTTPSrv_GetMethodSpec, check, lift_res, given. destruct (Z.eqb_spec p 0); [done|]. cbn [negb andb orb Z.eqb].
  apply (lut_find_exact hm_str p t); [done| |done]. apply Forall_forall. intros e He. apply http_lits_in; [done|].
  unfold http_strings. rewrite !elem_of_app. right. right. left. by apply list_elem_of_fmap_2.
Qed.

Lemma version_spec_found p t s : http_lits (sc_mem s) → p ≠ 0 → cstr (sc_mem s) p t →
  UHTTPSrv_GetVersionSpec lit 0 p s = Ok (version_called t, s).
Proof.
  intros Hl Hp Ht. unfold UHTTPSrv_GetVersionSpec, check, lift_res, given. destruct (Z.eqb_spec p 0); [done|]. cbn [negb andb orb Z.eqb].
  apply (lut_find_exact hv_str p t); [done| |done]. apply Forall_forall. intros e He. apply http_lits_in; [done|].
  unfold http_strings. rewrite !elem_of_app. left. by apply list_elem_of_fmap_2.
Qed.

(** The arrays of the parser: they lie apart from each other, from the literals
    and from the line. *)
Record parse_memory (m : mem) (line url : Z) : Prop := {
  pm_lits : http_lits m;
  pm_method : mapped m (hl_method_str hl) 10; pm_version : mapped m (hl_version_str hl) 10; pm_url : mapped m url 257;
  pm_null : hl_method_str hl ≠ 0 ∧ hl_version_str hl ≠ 0 ∧ url ≠ 0;
  pm_clear : clear_of_lits (hl_method_str hl) 10 ∧ clear_of_lits (hl_version_str hl) 10 ∧ clear_of_lits url 257;
  pm_line : CString.apart (hl_method_str hl) 10 line 257 ∧ CString.apart (hl_version_str hl) 10 line 257 ∧ CString.apart url 257 line 257;
  pm_arrays : CString.apart (hl_method_str hl) 10 (hl_version_str hl) 10 ∧ CString.apart (hl_method_str hl) 10 url 257 ∧
    CString.apart (hl_version_str hl) 10 url 257 }.

(** The text of a request line. *)
Definition request_text (method url version : list Z) : list Z := method ++ 32 :: url ++ 32 :: version.

Lemma request_text_length a b c : length (request_text a b c) = (length a + 1 + length b + 1 + length c)%nat.
Proof. unfold request_text. rewrite length_app. cbn [length]. rewrite length_app. cbn [length]. lia. Qed.

(** A further word and the space in front of it. *)
Lemma scan_next fuel m line sz fmt fl p val args k l rest :
  cstr m fmt (32 :: word_format ++ fl) → (fl = [] ∨ ∃ r, fl = 32 :: r) →
  cstr m line (32 :: l ++ rest) → is_word l → (rest = [] ∨ ∃ r, rest = 32 :: r) →
  length l < p < 2147483648 → length l + 1 ≤ sz < 4294967296 → val ≠ 0 → mapped m val (length l + 1) →
  CString.apart val (length l + 1) line (length (32 :: l ++ rest) + 1) →
  scan_loop (S (S fuel)) m line sz fmt (VInt p :: VPtr val :: args) k =
  scan_loop fuel (put_bytes m val (l ++ [0])) (line + (length l + 1)) (sz - (length l + 1)) (fmt + 5) args (k + 1).
Proof.
  intros Hf Hfl Hc Hw Hr Hp Hsz Hv Hm Ha.
  assert (length l ≠ 0%nat) by (by destruct Hw, l).
  rewrite (scan_loop_space _ m line sz fmt (word_format ++ fl) _ k l rest) by (done || lia).
  apply cstr_cons in Hf as (_ & _ & Hf). apply cstr_cons in Hc as (_ & _ & Hc).
  rewrite (scan_loop_word _ m _ _ _ fl p val _ k l rest); try done; try lia.
  - f_equal; lia.
  - cbn [length] in Ha. unfold CString.apart in *. lia.
Qed.

(** The three words are scanned into the three arrays. *)
Lemma scan_request m line url a b c :
  parse_memory m line url → cstr m line (request_text a b c) → is_word a → is_word b → is_word c →
  (length a ≤ 8)%nat → (length b ≤ 255)%nat → (length c ≤ 8)%nat → (length (request_text a b c) ≤ 256)%nat →
  snscanf m line (length (request_text a b c)) (lit "%.*s %.*s %.*s")
    [VInt 9; VPtr (hl_method_str hl); VInt 256; VPtr url; VInt 9; VPtr (hl_version_str hl)] =
  Ok (put_bytes (put_bytes (put_bytes m (hl_method_str hl) (a ++ [0])) url (b ++ [0])) (hl_version_str hl) (c ++ [0]), 3).
Proof.
  intros [Hlits Hm1 Hm2 Hm3 (Hn1 & Hn2 & Hn3) (Hc1 & Hc2 & Hc3) (Hl1 & Hl2 & Hl3) (Ha1 & Ha2 & Ha3)] Hc Ha Hb Hcw La Lb Lc Lt.
  pose proof (request_text_length a b c) as Ln.
  set (ms := hl_method_str hl) in *. set (vs := hl_version_str hl) in *.
  set (m1 := put_bytes m ms (a ++ [0])). set (m2 := put_bytes m1 url (b ++ [0])). set (m3 := put_bytes m2 vs (c ++ [0])).
  assert (∀ l : list Z, length (l ++ [0%Z]) = length l + 1)%nat as L0 by (intros l; rewrite length_app; done).
  assert (http_lits m1) as Hlits1 by (apply (http_lits_put _ _ _ 10); [done|done|rewrite L0; lia]).
  assert (http_lits m2) as Hlits2 by (apply (http_lits_put _ _ _ 257); [done|done|rewrite L0; lia]).
  assert (http_lits m3) as Hlits3 by (apply (http_lits_put _ _ _ 10); [done|done|rewrite L0; lia]).
  assert (cstr m1 line (request_text a b c)) as Hcm1 by (apply cstr_frame; [done|rewrite L0, Ln; unfold CString.apart in *; lia]).
  assert (cstr m2 line (request_text a b c)) as Hcm2 by (apply cstr_frame; [done|rewrite L0, Ln; unfold CString.apart in *; lia]).
  pose proof (http_lits_in m "%.*s %.*s %.*s" Hlits ltac:(literal)) as Hf.
  pose proof (http_lits_in m1 "%.*s %.*s %.*s" Hlits1 ltac:(literal)) as Hf1.
  pose proof (http_lits_in m2 "%.*s %.*s %.*s" Hlits2 ltac:(literal)) as Hf2.
  pose proof (http_lits_in m3 "%.*s %.*s %.*s" Hlits3 ltac:(literal)) as Hf3.
  set (fmt := lit "%.*s %.*s %.*s") in *.
  set (f2 := 32 :: word_format). change (chars "%.*s %.*s %.*s") with (word_format ++ 32 :: word_format ++ f2) in *.
  unfold snscanf, vsnscanf. pose proof (cstr_length _ _ _ Hf) as Hsize. rewrite length_app in Hsize. cbn in Hsize.
  replace (S (size m)) with (S (S (S (S (S (S (size m - 5))))))) by lia. clear Hsize.
  rewrite (scan_loop_word _ m line _ fmt (32 :: word_format ++ f2) 9 ms _ 0 a (32 :: b ++ 32 :: c)); [|done|right; by eexists|done|done
    |right; by eexists|lia|lia|done|apply (mapped_le _ _ 10); [lia|done]|fold (request_text a b c); rewrite Ln; unfold CString.apart in *; lia].
  fold m1. apply cstr_app in Hcm1, Hf1. change (fmt + length word_format) with (fmt + 4) in Hf1.
  rewrite (scan_next _ m1 _ _ (fmt + 4) f2 256 url _ _ b (32 :: c)); [|done|right; by eexists|done|done|right; by eexists|lia|lia|done
    |apply put_bytes_mapped, (mapped_le _ _ 257); [lia|done]|cbn [length]; rewrite length_app; cbn [length]; unfold CString.apart in *; lia].
  fold m2. unfold request_text in Hcm2. apply cstr_app in Hcm2, Hf2. rewrite app_comm_cons in Hcm2, Hf2. apply cstr_app in Hcm2, Hf2.
  replace (fmt + 4 + 5) with (fmt + length word_format + length (32 :: word_format)) by (cbn; lia).
  replace (line + length a + (length b + 1)) with (line + length a + length (32 :: b)) by (cbn [length]; lia).
  rewrite (scan_next _ m2 _ _ _ [] 9 vs _ _ c []); [|by rewrite app_nil_r|by left|by rewrite app_nil_r|done|by left|lia|lia|done
    |do 2 apply put_bytes_mapped; apply (mapped_le _ _ 10); [lia|done]|rewrite app_nil_r; cbn [length]; unfold CString.apart in *; lia].
  fold m3. cbn [scan_loop].
  assert (load8 m3 (fmt + length word_format + length (32 :: word_format) + 5) = Ok 0) as ->; [|done].
  apply cstr_app in Hf3. rewrite app_comm_cons in Hf3. apply cstr_app in Hf3. rewrite <- (app_nil_r f2) in Hf3. apply cstr_app in Hf3.
  by apply cstr_nil in Hf3.
Qed.

(** What the parser makes of three words. *)
Lemma parse_request_words line url a b c s :
  parse_memory (sc_mem s) line url → cstr (sc_mem s) line (request_text a b c) → is_word a → is_word b → is_word c →
  (length a ≤ 8)%nat → (length b ≤ 255)%nat → (length c ≤ 8)%nat → (length (request_text a b c) ≤ 256)%nat →
  ∃ m', cstr m' url b ∧
    UHTTPSrv_ParseRequestLine lit hl line (length (request_text a b c)) url 256 s =
    match method_called a with
    | None => Ok ((EFATAL, None), sc_with m' (sc_rx s) (sc_tx s) s)
    | Some ms =>
        match version_called c with
        | None => Fault NullDeref
        | Some v => Ok ((EOK, Some (hm_method ms, hv_version v)), sc_with m' (sc_rx s) (sc_tx s) s)
        end
    end.
Proof.
  intros Hpm Hc Ha Hb Hcw La Lb Lc Lt. pose proof (scan_request _ _ _ a b c Hpm Hc Ha Hb Hcw La Lb Lc Lt) as E.
  destruct Hpm as [Hlits Hm1 Hm2 Hm3 (Hn1 & Hn2 & Hn3) (Hc1 & Hc2 & Hc3) _ (Ha1 & Ha2 & Ha3)].
  set (m1 := put_bytes (sc_mem s) (hl_method_str hl) (a ++ [0])) in *. set (m2 := put_bytes m1 url (b ++ [0])) in *.
  set (m3 := put_bytes m2 (hl_version_str hl) (c ++ [0])) in *. exists m3.
  assert (∀ l : list Z, length (l ++ [0%Z]) = length l + 1)%nat as L0 by (intros l; rewrite length_app; done).
  assert (Hstr : ∀ m a0 l, is_word l → cstr (put_bytes m a0 (l ++ [0])) a0 l).
  { intros m a0 l [_ Hl]. split; [apply put_bytes_bytes_at|]. eapply Forall_impl; [exact Hl|]. by intros x [? _]. }
  assert (cstr m3 url b) as Hb3.
  { apply cstr_frame; [by apply Hstr|]. rewrite L0. unfold CString.apart in *. lia. }
  assert (cstr m3 (hl_method_str hl) a) as Ha3'.
  { do 2 (apply cstr_frame; [|rewrite L0; unfold CString.apart in *; lia]). by apply Hstr. }
  assert (http_lits m3) as Hlits3.
  { apply (http_lits_put _ _ _ 10); [|done|rewrite L0; lia]. apply (http_lits_put _ _ _ 257); [|done|rewrite L0; lia].
    apply (http_lits_put _ _ _ 10); [done|done|rewrite L0; lia]. }
  split; [done|]. unfold UHTTPSrv_ParseRequestLine.
  assert (runs (λ m, snscanf m line (length (request_text a b c)) (lit "%.*s %.*s %.*s")
      [VInt 9; VPtr (hl_method_str hl); VInt 256; VPtr url; VInt 9; VPtr (hl_version_str hl)]) s =
    Ok (3, sc_with m3 (sc_rx s) (sc_tx s) s)) as E1 by (unfold runs; cbn [st_mem script_stream]; by rewrite E).
  rewrite (prog_bind_Ok _ _ _ _ _ E1). change (negb (3 =? 3)) with false. cbv iota. set (s3 := sc_with m3 _ _ _).
  rewrite (prog_bind_Ok _ _ _ _ _ (method_spec_found (hl_method_str hl) a s3 Hlits3 Hn1 Ha3')).
  destruct (method_called a) as [me|]; [|done].
  rewrite (prog_bind_Ok _ _ _ _ _ (version_spec_found (hl_version_str hl) c s3 Hlits3 Hn2 (Hstr _ _ _ Hcw))).
  by destruct (version_called c).
Qed.
End parsing.

(** ** Reception of a body *)

Section body.
Context (hl : http_locals) (timeout : Z).

Lemma read_body_loop_ok ptr : ∀ fuel s p8 sz brcvd l more,
  concat (sc_rx s) = l ++ more → Forall (λ c, c ≠ []) (sc_rx s) → Forall (Forall is_u8) (sc_rx s) →
  mapped (sc_mem s) p8 (length l) → sz = brcvd + length l → (length l < fuel)%nat → ptr ≠ 0 →
  ∃ m' rx', read_body_loop hl timeout fuel ptr p8 sz brcvd s = Ok (Some sz, sc_with m' rx' (sc_tx s) s) ∧
    concat rx' = more ∧ bytes_at m' p8 l ∧ only_at p8 (length l) (sc_mem s) m'.
Proof.
  induction fuel as [|fuel IH]; intros s p8 sz brcvd l more Hrx Hne Hu Hm Hsz Hf Hp; [lia|]. cbn [read_body_loop].
  destruct (Z.ltb_spec brcvd sz) as [Hlt|Hge]; cycle 1.
  { assert (l = []) as -> by (destruct l; [done|cbn in Hsz; lia]). exists (sc_mem s), (sc_rx s).
    split; [|split; [done|split; [done|apply only_at_refl]]]. unfold mret, prog_ret. destruct s. cbn in *. do 3 f_equal. lia. }
  unfold given. destruct (Z.eqb_spec ptr 0); [done|]. cbn [negb].
  destruct (sc_rx s) as [|c cs] eqn:Erx.
  { cbn in Hrx. symmetry in Hrx. apply app_nil in Hrx as [-> _]. cbn in Hsz. lia. }
  apply Forall_cons in Hne as [Hc Hne]. apply Forall_cons in Hu as [Huc Hucs].
  replace (sz - brcvd) with (Z.of_nat (length l)) by lia.
  rewrite (prog_bind_Ok _ _ _ _ _ (sc_recv_ok s p8 (length l) timeout c cs Erx Hc ltac:(lia) Huc Hm)).
  destruct (Z.ltb_spec (length (take (length l) c)) EOK) as [H|_]; [unfold EOK in H; lia|].
  set (pc := take (length l) c). assert (length pc = (length l `min` length c)%nat) as Hpl by apply length_take.
  assert (length c ≠ 0%nat) by (by destruct c).
  assert (l = pc ++ drop (length pc) l ∧ drop (length l) c ++ concat cs = drop (length pc) l ++ more) as [El Erest].
  { cbn in Hrx. rewrite <- (take_drop (length l) c) in Hrx. fold pc in Hrx. rewrite <- app_assoc in Hrx.
    rewrite <- (take_drop (length pc) l) in Hrx at 2. rewrite <- app_assoc in Hrx.
    apply app_inj_1 in Hrx as [H1 H2]; [|rewrite length_take; lia]. split; [rewrite H1 at 1; by rewrite take_drop|done]. }
  remember (drop (length pc) l) as l2 eqn:El2.
  assert (length l = length pc + length l2)%nat as Hll by (rewrite El at 1; apply length_app).
  destruct (IH (sc_with (put_bytes (sc_mem s) p8 pc) (rx_rest (length l) c cs) (sc_tx s) s) (p8 + length pc) sz (brcvd + length pc) l2 more)
    as (m' & rx' & E & Hmore & Hb & O); cbn [sc_with sc_mem sc_rx sc_tx]; try done; try lia.
  - by rewrite rx_rest_concat.
  - unfold rx_rest. by destruct (decide _); [|constructor].
  - unfold rx_rest. destruct (decide _); [done|]. constructor; [by apply Forall_drop|done].
  - apply put_bytes_mapped. intros i Hi. apply Hm. lia.
  - exists m', rx'. split; [exact E|]. split; [done|]. split.
    + rewrite El. apply bytes_at_app. split; [|done]. destruct O as [O _].
      rewrite bytes_at_iff. intros i x Hi. pose proof (lookup_lt_Some _ _ _ Hi). rewrite O by lia.
      by apply (bytes_at_lookup _ _ _ _ _ (put_bytes_bytes_at _ p8 pc)).
    + eapply only_at_trans; [apply (only_at_put _ p8 pc p8 (length l)); lia|]. eapply only_at_widen; [exact O|lia|lia].
Qed.

(** The request after [n] bytes of its body were read. *)
Definition body_taken (n : Z) (req : uhttp_request) : uhttp_request :=
  let req := upd_body_bleft (rq_body_bleft req - n) req in
  if rq_body_bleft req =? 0 then upd_state HTTP_STATE_SEND_STATUS req else req.

Lemma read_body_taken req ptr sz s l more :
  rq_state req = HTTP_STATE_READ_BODY → is_u32 (rq_body_bleft req) →
  Z.of_nat (length l) = Z.min sz (rq_body_bleft req) → (0 < length l < 2147483648) → ptr ≠ 0 →
  concat (sc_rx s) = l ++ more → Forall (λ c, c ≠ []) (sc_rx s) → Forall (Forall is_u8) (sc_rx s) →
  mapped (sc_mem s) ptr (length l) →
  ∃ m' rx', UHTTPSrv_ReadBody hl timeout req ptr sz s = Ok ((Z.of_nat (length l), body_taken (length l) req), sc_with m' rx' (sc_tx s) s) ∧
    concat rx' = more ∧ bytes_at m' ptr l ∧ only_at ptr (length l) (sc_mem s) m'.
Proof.
  intros Hst Hu Hl Hpos Hp Hrx Hne Hub Hm. unfold UHTTPSrv_ReadBody, enter, failed. rewrite Hst, Z.eqb_refl, Hst.
  change (HTTP_STATE_READ_BODY =? HTTP_STATE_ERROR) with false. cbv iota. rewrite <- Hl.
  destruct (Z.eqb_spec (length l) 0); [lia|]. rewrite Nat2Z.id.
  destruct (read_body_loop_ok ptr (S (length l)) s ptr (length l) 0 l more) as (m' & rx' & E & Hmore & Hb & O); try done; try lia.
  rewrite (prog_bind_Ok _ _ _ _ _ E). exists m', rx'. split; [|done].
  assert (rq_body_bleft req -u length l = rq_body_bleft req - length l) as -> by (apply u32_small; word_lia).
  assert (s32 (length l) = length l) as -> by word_lia. reflexivity.
Qed.
End body.

(** The words of the tables, each of which finds its entry. *)
Lemma method_word ms : ms ∈ method_specs →
  is_word (chars (hm_str ms)) ∧ (length (chars (hm_str ms)) ≤ 8)%nat ∧ method_called (chars (hm_str ms)) = Some ms.
Proof.
  unfold method_specs. intros Hms. repeat (apply elem_of_cons in Hms as [-> |Hms];
    [split; [split; [done|repeat constructor; cbn; (lia || done)]|split; [cbn; lia|reflexivity]]|]). by apply elem_of_nil in Hms.
Qed.

Lemma http_version_word v : v ∈ version_specs →
  is_word (chars (hv_str v)) ∧ (length (chars (hv_str v)) ≤ 8)%nat ∧ version_called (chars (hv_str v)) = Some v.
Proof.
  unfold version_specs. intros Hv. repeat (apply elem_of_cons in Hv as [-> |Hv];
    [split; [split; [done|repeat constructor; cbn; (lia || done)]|split; [cbn; lia|reflexivity]]|]). by apply elem_of_nil in Hv.
Qed.

(** ** Properties *)

(** C21: Bodies are accounted for.  Whatever calls a callback makes, in any order
    and over any connection: when a response is done, the bytes of body that were
    sent are as many as were announced, and before a status is due as many bytes
    were read as the client declared; a request that is not in error is in one of
    the states in which its counters say what is left. *)
Theorem http_accounting {S : Type} `{StreamLaws S} lit frexpf modff expf hl timeout method len (s0 s : S) req a :
  rtc (http_call lit frexpf modff expf hl timeout) (new_request method len, mk_account 0 0 0 0, s0) (req, a, s) →
  http_ok req a.
Proof.
  intros Hr. assert (Hgen : ∀ c c', rtc (http_call lit frexpf modff expf hl timeout) c c' →
    http_ok c.1.1 c.1.2 → http_ok c'.1.1 c'.1.2).
  { induction 1 as [|c1 c2 c3 Hc _ IH]; [done|]. intros Hok. apply IH. by eapply http_call_ok. }
  apply (Hgen _ _ Hr). unfold http_ok. cbn. split; [word_lia|]. split; [word_lia|]. right. by left.
Qed.

(** C22: A response reaches the client: the status (the first 31 characters of its
    line), the fields of the server with the length of the body, the empty line
    and the body, in this order and nothing else; the request is then done. *)
Theorem http_response lit frexpf modff expf hl timeout c req p body s :
  sc_closed s = false → http_memory lit hl (sc_mem s) → c ∈ status_specs → rq_state req ≠ HTTP_STATE_ERROR →
  body ≠ [] → length body < 2147483648 → bytes_at (sc_mem s) p body →
  CString.apart (hl_response hl) 32 p (length body) → CString.apart (hl_field hl) 256 p (length body) →
  ∃ m' req', ('(_, req) ← UHTTPSrv_SendStatus lit frexpf modff expf hl timeout req (hs_code c) (length body);
    '(_, req) ← UHTTPSrv_EndHeader lit timeout req;
    UHTTPSrc_SendBody timeout req p (length body)) s =
    Ok ((Z.of_nat (length body), req'), sent m' (response_head c (length body) ++ chars crlf ++ body) s) ∧
    rq_state req' = HTTP_STATE_DONE ∧ only_printed hl (sc_mem s) m'.
Proof.
  intros Hc Hm Hin Hst Hne Hlen Hb Ha1 Ha2.
  assert (hs_code c ≠ 0 ∧ List.find (λ l, hs_code l =? hs_code c) status_specs = Some c) as [Hcode Hfind].
  { unfold status_specs in Hin. repeat (apply elem_of_cons in Hin as [-> |Hin]; [done|]). by apply elem_of_nil in Hin. }
  destruct (send_status_parts lit frexpf modff expf hl timeout c (length body) req s Hc Hm Hin Hcode Hfind Hst) as (m1 & E1 & O1).
  rewrite (prog_bind_Ok _ _ _ _ _ E1). set (req1 := upd_state HTTP_STATE_SEND_FIELDS _). cbv beta iota.
  assert (http_memory lit hl m1) as Hm1 by (by eapply http_memory_printed).
  rewrite (prog_bind_Ok _ _ _ _ _ (end_header_sent lit hl timeout req1 (sent m1 (response_head c (length body)) s) Hc Hm1 eq_refl)).
  cbv beta iota. change (rq_resp_bleft req1) with (Z.of_nat (length body)). assert (length body ≠ 0%nat) by (by destruct body).
  destruct (Z.eqb_spec (length body) 0); [lia|]. exists m1. eexists. split.
  - rewrite send_body_sent; [|done| |done|done|cbn; lia|cbn; word_lia].
    + unfold sent, sc_with. cbn [sc_mem sc_rx sc_tx sc_now sc_closed]. rewrite <- !app_assoc. reflexivity.
    + cbn. by eapply only_printed_bytes.
  - cbn. rewrite Z.sub_diag. done.
Qed.

(** A body is read whole: however it arrives, as many bytes as the caller has
    room for are put in place and no more are taken from the connection; when the
    last one was read the status is due. *)
Theorem http_body_received hl timeout req ptr sz s l more :
  rq_state req = HTTP_STATE_READ_BODY → is_u32 (rq_body_bleft req) →
  Z.of_nat (length l) = Z.min sz (rq_body_bleft req) → 0 < length l < 2147483648 → ptr ≠ 0 →
  concat (sc_rx s) = l ++ more → Forall (λ c, c ≠ []) (sc_rx s) → Forall (Forall is_u8) (sc_rx s) →
  mapped (sc_mem s) ptr (length l) →
  ∃ s', UHTTPSrv_ReadBody hl timeout req ptr sz s = Ok ((Z.of_nat (length l), body_taken (length l) req), s') ∧
    concat (sc_rx s') = more ∧ bytes_at (sc_mem s') ptr l ∧
    (∀ a, ¬ (ptr ≤ a < ptr + length l) → sc_mem s' !! a = sc_mem s !! a).
Proof.
  intros Hst Hu Hl Hpos Hp Hrx Hne Hub Hm.
  destruct (read_body_taken hl timeout req ptr sz s l more) as (m' & rx' & E & Hmore & Hb & O); try done.
  exists (sc_with m' rx' (sc_tx s) s). split; [exact E|]. split; [done|]. split; [done|]. apply O.
Qed.

(** C25: The request line.  A method and a version of the tables around any URL of up
    to 255 characters are recognised, and the URL is stored. *)
Theorem http_request_line lit hl line url_ptr ms v url s :
  ms ∈ method_specs → v ∈ version_specs → is_word url → (length url ≤ 235)%nat →
  parse_memory lit hl (sc_mem s) line url_ptr →
  let text := request_text (chars (hm_str ms)) url (chars (hv_str v)) in
  cstr (sc_mem s) line text →
  ∃ s', UHTTPSrv_ParseRequestLine lit hl line (length text) url_ptr 256 s =
      Ok ((EOK, Some (hm_method ms, hv_version v)), s') ∧ cstr (sc_mem s') url_ptr url.
Proof.
  intros Hms Hv Hurl Hlen Hpm text Hc.
  destruct (method_word ms Hms) as (H1 & H2 & H3).
  destruct (http_version_word v Hv) as (H4 & H5 & H6).
  destruct (parse_request_words lit hl line url_ptr _ url _ s Hpm Hc H1 Hurl H4) as (m' & Hu & E); try done; try lia.
  { rewrite request_text_length. lia. }
  rewrite H3, H6 in E. eexists. split; [exact E|exact Hu].
Qed.

(** C40: A version that is not in the table brings the server down: the entry that
    was not found is read through a null pointer, as the test behind the look-up
    is made on the method. *)
Theorem http_version_faults lit hl line url_ptr ms version url s :
  ms ∈ method_specs → is_word version → (length version ≤ 8)%nat → version_called version = None →
  is_word url → (length url ≤ 235)%nat → parse_memory lit hl (sc_mem s) line url_ptr →
  let text := request_text (chars (hm_str ms)) url version in
  cstr (sc_mem s) line text →
  UHTTPSrv_ParseRequestLine lit hl line (length text) url_ptr 256 s = Fault NullDeref.
Proof.
  intros Hms Hv Hvl Hnone Hurl Hlen Hpm text Hc.
  destruct (method_word ms Hms) as (H1 & H2 & H3).
  destruct (parse_request_words lit hl line url_ptr _ url _ s Hpm Hc H1 Hurl Hv) as (m' & Hu & E); try done; try lia.
  { rewrite request_text_length. lia. }
  by rewrite H3, Hnone in E.
Qed.

(** ** Concrete runs

    The literals one after the other from address 1 on, the arrays from 2000 on,
    an argument at 3400. *)
Definition http_lit : string → Z := literal_at http_strings 1.
Definition http_mem (arg : list Z) : mem :=
  put_bytes (put_bytes (put_bytes ∅ 1 (concat (map (λ s, chars s ++ [0]) http_strings)))
    2000 (replicate 1400 0xee)) 3400 arg.
Definition http_hl : http_locals := mk_http_locals 2000 2300 2600 2630 2640 2650 2660 2700 2960 2980 3000 3040 3170.
Definition http_script (arg : list Z) (rx : list (list Z)) : script := mk_script (http_mem arg) rx [] 0 false.
Definition http_demo_status := UHTTPSrv_SendStatus (S := script) http_lit demo_frexpf demo_modff demo_expf http_hl 1000.
Definition http_demo_field := UHTTPSrv_ReadHeaderField (S := script) http_lit http_hl 1000.

(** The literals are where they are said to be. *)
Definition lits_hold (m : mem) : bool :=
  forallb (λ x, bool_decide (get_bytes m (http_lit x) (length (chars x ++ [0])) = Some (chars x ++ [0])) &&
                forallb (λ c, (0 <? c) && (c <? 256)) (chars x)) http_strings.

Lemma lits_hold_ok m : lits_hold m = true → http_lits http_lit m.
Proof.
  unfold lits_hold, http_lits. rewrite forallb_forall, Forall_forall. intros H x Hx.
  specialize (H x ltac:(by apply list_elem_of_In)). apply andb_true_iff in H as [H1 H2]. apply bool_decide_eq_true in H1.
  split; [by apply get_bytes_length in H1 as [_ H1]|]. apply Forall_forall. intros c Hc.
  rewrite forallb_forall in H2. specialize (H2 c ltac:(by apply list_elem_of_In)). lia.
Qed.

Lemma http_mem_lits : http_lits http_lit (http_mem []).
Proof. apply lits_hold_ok. vm_compute. reflexivity. Qed.

Lemma http_mem_room (k n : nat) arg : (k + n ≤ 1400)%nat → mapped (http_mem arg) (2000 + k) n.
Proof. intros Hk. unfold http_mem. apply put_bytes_mapped, (filled_mapped _ 2000 0xee 1400 k n Hk). Qed.

Lemma http_lits_low : Forall (λ x, 0 < http_lit x ∧ http_lit x + (length (chars x) + 1) ≤ 2000) http_strings.
Proof. apply Forall_forall. intros x Hx. revert x Hx. apply Forall_forall. by apply (bool_decide_unpack _); vm_compute. Qed.

Lemma http_clear a n : 2000 ≤ a → clear_of_lits http_lit a n.
Proof.
  intros Ha. pose proof http_lits_low as H. unfold clear_of_lits. eapply Forall_impl; [exact H|]. cbv beta. intros x [_ Hx].
  right. lia.
Qed.

Lemma http_mem_arg_lits arg : http_lits http_lit (http_mem arg).
Proof.
  change (http_mem arg) with (put_bytes (http_mem []) 3400 arg). apply (http_lits_put _ _ _ _ (length arg)); [apply http_mem_lits| |done].
  apply http_clear. lia.
Qed.

Lemma http_mem_ok arg : http_memory http_lit http_hl (http_mem arg).
Proof.
  split.
  - apply http_mem_arg_lits.
  - apply (http_mem_room 660 32). lia.
  - apply (http_mem_room 700 256). lia.
  - pose proof (http_clear (hl_response http_hl) 32 ltac:(cbn; lia)) as H1. pose proof (http_clear (hl_field http_hl) 256 ltac:(cbn; lia)) as H2.
    unfold clear_of_lits in *. rewrite Forall_forall in H1, H2 |- *. auto.
Qed.

(** The response to a switch of protocols loses the end of its first line: there
    is room for 31 characters. *)
Example status_cut :
  (λ '(_, s), to_string (sc_tx s)) <$> http_demo_status (new_request 1 0) HTTP_STATUS_101_SWITCHING_PROTOCOLS 0 (http_script [] []) =
  Ok (String.append "HTTP/1.1 101 Switching Protocol" (to_string (lines
    ["content-length: 0"; "server: uHTTP"; "connection: keep-alive"; "access-control-allow-origin: *"]%string))).
Proof. vm_compute. reflexivity. Qed.

(** A field is taken for the known one that is a prefix of its name. *)
Example hostile_is_host :
  (λ '(_, req, f, _), (fl_name f, rq_ws_fields req)) <$>
    http_demo_field (new_request 1 0) (mk_field 0 0 0 0) (http_script [] [lines ["hostile: yes"%string]]) =
  Ok (HTTP_FIELD_NAME_HOST, field_mask HTTP_FIELD_NAME_HOST).
Proof. vm_compute. reflexivity. Qed.

(** A negative length is a body of almost [2^32] bytes. *)
Example negative_length :
  (λ '(_, req, _, _), rq_body_bleft req) <$>
    http_demo_field (new_request 1 0) (mk_field 0 0 0 0) (http_script [] [lines ["Content-Length: -5"%string]]) =
  Ok 4294967291.
Proof. vm_compute. reflexivity. Qed.

(** *** Witnesses *)

Definition demo_field_hello : list Z := chars "hello".

Lemma http_response_witness :
  ∃ m' req', ('(_, req) ← http_demo_status (new_request 1 0) HTTP_STATUS_200_OK 5;
    '(_, req) ← UHTTPSrv_EndHeader http_lit 1000 req;
    UHTTPSrc_SendBody 1000 req 3400 5) (http_script demo_field_hello []) =
    Ok ((5, req'), sent m' (response_head (mk_http_status HTTP_STATUS_200_OK 200 "OK") 5 ++ chars crlf ++ demo_field_hello)
      (http_script demo_field_hello [])) ∧ rq_state req' = HTTP_STATE_DONE.
Proof.
  destruct (http_response http_lit demo_frexpf demo_modff demo_expf http_hl 1000 (mk_http_status HTTP_STATUS_200_OK 200 "OK")
    (new_request 1 0) 3400 demo_field_hello (http_script demo_field_hello [])) as (m' & req' & E & Hd & _).
  - reflexivity.
  - apply http_mem_ok.
  - left.
  - discriminate.
  - discriminate.
  - by vm_compute.
  - apply put_bytes_bytes_at.
  - left. cbn. lia.
  - left. cbn. lia.
  - exists m', req'. split; [exact E|exact Hd].
Defined.

Lemma http_accounting_witness :
  ∃ req a s, rtc (http_call http_lit demo_frexpf demo_modff demo_expf http_hl 1000)
      (new_request 1 0, mk_account 0 0 0 0, http_script [] []) (req, a, s) ∧
    rq_state req = HTTP_STATE_DONE ∧ http_ok req a.
Proof.
  set (run := '(ec, req) ← http_demo_status (new_request 1 0) HTTP_STATUS_200_OK 0; UHTTPSrv_EndHeader http_lit 1000 req).
  assert (match run (http_script [] []) with Ok ((_, req), _) => rq_state req =? HTTP_STATE_DONE | _ => false end = true) as Hd
    by (vm_compute; reflexivity).
  destruct (run (http_script [] [])) as [[[ec req] s]|] eqn:E; [|discriminate Hd]. apply Z.eqb_eq in Hd.
  unfold run in E. clear run. apply prog_bind_inv in E as ([ec1 req1] & s1 & E1 & E2).
  assert (rtc (http_call http_lit demo_frexpf demo_modff demo_expf http_hl 1000)
    (new_request 1 0, mk_account 0 0 0 0, http_script [] []) (req, note_status ec1 0 (mk_account 0 0 0 0), s)) as Hr.
  { eapply rtc_l; [eapply call_send_status; [|exact E1]; word_lia|]. eapply rtc_l; [eapply call_end_header; exact E2|]. apply rtc_refl. }
  do 3 eexists. split; [exact Hr|]. split; [exact Hd|].
  exact (http_accounting http_lit demo_frexpf demo_modff demo_expf http_hl 1000 1 0 (http_script [] []) s req _ Hr).
Defined.

Lemma http_body_received_witness :
  ∃ s', UHTTPSrv_ReadBody http_hl 1000 (upd_state HTTP_STATE_READ_BODY (upd_body_bleft 7 (new_request 4 0))) 3400 5
      (http_script (replicate 5 0) [[1; 2]; [3; 4; 5; 6]; [7]]) =
      Ok ((5, upd_state HTTP_STATE_READ_BODY (upd_body_bleft 2 (new_request 4 0))), s') ∧
    concat (sc_rx s') = [6; 7] ∧ bytes_at (sc_mem s') 3400 [1; 2; 3; 4; 5].
Proof.
  destruct (http_body_received http_hl 1000 (upd_state HTTP_STATE_READ_BODY (upd_body_bleft 7 (new_request 4 0))) 3400 5
    (http_script (replicate 5 0) [[1; 2]; [3; 4; 5; 6]; [7]]) [1; 2; 3; 4; 5] [6; 7]) as (s' & E & H1 & H2 & _).
  - reflexivity.
  - cbn. word_lia.
  - reflexivity.
  - cbn. lia.
  - discriminate.
  - reflexivity.
  - by repeat constructor.
  - by repeat constructor.
  - apply (bytes_at_mapped _ _ (replicate 5 0)), put_bytes_bytes_at.
  - exists s'. split; [exact E|]. split; [exact H1|exact H2].
Defined.

Definition demo_parse (text : list Z) : script := http_script (text ++ [0]) [].

Lemma demo_parse_memory text : parse_memory http_lit http_hl (sc_mem (demo_parse text)) 3400 2300.
Proof.
  split.
  - apply http_mem_arg_lits.
  - apply (http_mem_room 630 10). lia.
  - apply (http_mem_room 640 10). lia.
  - apply (http_mem_room 300 257). lia.
  - done.
  - split; [|split]; apply http_clear; cbn; lia.
  - unfold CString.apart. cbn. lia.
  - unfold CString.apart. cbn. lia.
Qed.

Lemma http_request_line_witness :
  let text := chars "GET /index.html HTTP/1.1" in
  ∃ s', UHTTPSrv_ParseRequestLine http_lit http_hl 3400 24 2300 256 (demo_parse text) =
      Ok ((EOK, Some (HTTP_METHOD_GET, HTTP_VER_1V1)), s') ∧ cstr (sc_mem s') 2300 (chars "/index.html").
Proof.
  intros text.
  destruct (http_request_line http_lit http_hl 3400 2300 (mk_method_spec HTTP_METHOD_GET "GET") (mk_http_version HTTP_VER_1V1 "HTTP/1.1")
    (chars "/index.html") (demo_parse text)) as (s' & E & Hu).
  - left.
  - right. left.
  - split; [discriminate|]. repeat constructor; (reflexivity || discriminate).
  - by apply (bool_decide_unpack _).
  - apply demo_parse_memory.
  - split; [apply put_bytes_bytes_at|]. by apply (bool_decide_unpack _); vm_compute.
  - exists s'. split; [exact E|exact Hu].
Defined.

Lemma http_version_faults_witness :
  let text := chars "GET / HTTP/4" in
  UHTTPSrv_ParseRequestLine http_lit http_hl 3400 12 2300 256 (demo_parse text) = Fault NullDeref.
Proof.
  intros text.
  apply (http_version_faults http_lit http_hl 3400 2300 (mk_method_spec HTTP_METHOD_GET "GET") (chars "HTTP/4")
    (chars "/") (demo_parse text)).
  - left.
  - split; [discriminate|]. repeat constructor; (reflexivity || discriminate).
  - by apply (bool_decide_unpack _).
  - reflexivity.
  - split; [discriminate|]. repeat constructor; (reflexivity || discriminate).
  - by apply (bool_decide_unpack _).
  - apply demo_parse_memory.
  - split; [apply put_bytes_bytes_at|]. by apply (bool_decide_unpack _); vm_compute.
Defined.
