(* ===== verification/HttpWs.v ===== *)
(** * Web sockets of the HTTP server (net/uhttpsrv/src/ws.c, net/uhttpsrv/ws.h)

    The functions of ws.c work on the web socket inside a request; the masks, the
    header words and the locks are those of Websocket.  The second half relates the
    two implementations: a web socket of the HTTP server receives the header and the
    payload of a frame just as a server's socket of Websocket does, and sends them
    the same way.  Loops over frames take fuel for their number. *)
From Stdlib Require Import SpecFloat Ascii String.
From S2P Require Import Prelude CString Words Base64 Sha Stdio Double Printf Stream Websocket WebSpec Http HttpSpec.

(** ** ws.h *)

Definition HTTP_WS_DATA_TYPE_TEXT : Z := 0.
Definition HTTP_WS_DATA_TYPE_BIN : Z := 1.

(** ** ws.c *)

Definition upd_is_open (x : Z) (w : uhttp_ws) : uhttp_ws :=
  mk_uhttp_ws x (hw_tx_sem w) (hw_rx_sem w) (hw_rx_size w) (hw_rx_offs w) (hw_rx_opcode w) (hw_mask w).
Definition upd_hw_sems (tx rx : Z) (w : uhttp_ws) : uhttp_ws :=
  mk_uhttp_ws (hw_is_open w) tx rx (hw_rx_size w) (hw_rx_offs w) (hw_rx_opcode w) (hw_mask w).
Definition upd_hw_rx (sz offs opcode : Z) (w : uhttp_ws) : uhttp_ws :=
  mk_uhttp_ws (hw_is_open w) (hw_tx_sem w) (hw_rx_sem w) sz offs opcode (hw_mask w).
Definition upd_hw_mask (mask : list Z) (w : uhttp_ws) : uhttp_ws :=
  mk_uhttp_ws (hw_is_open w) (hw_tx_sem w) (hw_rx_sem w) (hw_rx_size w) (hw_rx_offs w) (hw_rx_opcode w) mask.

Section ws.
Context {S : Type} `{Stream S} (lit : string → Z).
Context (frexpf : fp → fp * Z) (modff : fp → fp * fp) (expf : fp → fp).
Context (hl : http_locals) (timeout : Z) (task_id : Z).

(** Error code, header word, size ([None]: not stored), and the socket.  Behind
    the header word there is always a mask. *)
Definition UHTTPSrvWS_RecvHeader (w : uhttp_ws) (hdr_timeout : Z) : prog S (Z * Z * option Z * uhttp_ws) :=
  let pld := hl_pld hl in
  ec ← st_recv pld 2 hdr_timeout;
  if ec <? EOK then mret (ec, 0, None, w)
  else
    raw ← reads (λ m, load16 m pld);
    let hdr := BETOH16 raw in
    if negb (flag hdr WS_HDR_MASKED) then mret (EFATAL, hdr, None, w)
    else
      let decoded_size := Z.shiftr (Z.land hdr WS_HDR_PLD_LEN) (LSB WS_HDR_PLD_LEN) in
      let bytes_to_get := 4 + (if decoded_size <? 126 then 0 else if decoded_size =? 126 then 2 else 4) in
      let size := if decoded_size <? 126 then Some decoded_size else None in
      ec ← st_recv (pld + 2) bytes_to_get 0;
      if ec <? EOK then mret (ec, hdr, size, w)
      else
        '(size, mask_ptr) ← (if decoded_size =? 126 then
                  v ← reads (λ m, load16 m (pld + 2)); mret (Some (BETOH16 v), pld + 4)
                else if decoded_size =? 127 then
                  v ← reads (λ m, load64 m (pld + 2)); mret (Some (u32 (BETOH64 v)), pld + 10)
                else mret (size, pld + 2));
        mask ← reads (λ m, load_bytes m mask_ptr 4);
        mret (EOK, hdr, size, upd_hw_mask mask w).

Definition UHTTPSrvWS_SendHeader (hdr sz : Z) : prog S Z :=
  let pld := hl_pld hl in
  let hdr := Z.lor hdr WS_HDR_FIN in
  '(hdr, pld_size) ← (
    if sz <? 126 then mret (Z.lor hdr (Z.shiftl sz (LSB WS_HDR_PLD_LEN)), 2)
    else if sz <? 0xffff then
      writes (λ m, store16 m (pld + 2) (HTOBE16 sz));;
      mret (Z.lor hdr (Z.shiftl 126 (LSB WS_HDR_PLD_LEN)), 4)
    else
      writes (λ m, store64 m (pld + 2) (HTOBE64 sz));;
      mret (Z.lor hdr (Z.shiftl 127 (LSB WS_HDR_PLD_LEN)), 10));
  writes (λ m, store16 m pld (HTOBE16 (u16 hdr)));;
  st_send pld pld_size 0.

Fixpoint hw_recv_loop (fuel : nat) (mask : list Z) (ptr sz offs : Z) : prog S Z :=
  match fuel with
  | O => fault OutOfFuel
  | Datatypes.S fuel' =>
      if offs <? sz then
        ec ← st_recv (hl_buf hl) (Z.min 32 (sz - offs)) 0;
        if ec <? EOK then mret ec
        else
          writes (λ m, mask_loop mask m (hl_buf hl) 0 (Z.to_nat ec));;
          (if given ptr then writes (λ m, memcpy m (ptr + offs) (hl_buf hl) ec) else mret ());;
          hw_recv_loop fuel' mask ptr sz (offs + ec)
      else mret offs
  end.

Definition UHTTPSrvWS_RecvPayload (w : uhttp_ws) (ptr sz : Z) : prog S Z :=
  hw_recv_loop (Datatypes.S (Z.to_nat sz)) (hw_mask w) ptr sz 0.

Fixpoint hw_send_loop (fuel : nat) (ptr sz offs : Z) : prog S Z :=
  match fuel with
  | O => fault OutOfFuel
  | Datatypes.S fuel' =>
      if offs <? sz then
        let t_size := Z.min 32 (sz - offs) in
        writes (λ m, memcpy m (hl_buf hl) (ptr + offs) t_size);;
        ec ← st_send (hl_buf hl) t_size 0;
        if ec <? EOK then mret ec else hw_send_loop fuel' ptr sz (offs + ec)
      else mret offs
  end.

Definition UHTTPSrvWS_SendPayload (ptr sz : Z) : prog S Z :=
  hw_send_loop (Datatypes.S (Z.to_nat sz)) ptr sz 0.

(** Of the bytes of [key]; the bytes written to [accept], at most 30. *)
Definition UHTTPSrvWS_ComputeAccept (key : list Z) : res (list Z) :=
  '(sha1, _) ← SHA1_Digest SHA1_InitState false (take 24 key);
  '(sha1, _) ← SHA1_Digest sha1 true (chars magic);
  let '(hash, hash_size) := SHA1_GetHashVal sha1 20 in
  let '(accept, accept_size) := Base64_Encode (take (Z.to_nat hash_size) hash) 29 in
  if accept_size <? 0 then Fault OutOfBounds else Ok (accept ++ [0]).

Definition send_http_field (req : uhttp_request) (name : Z) (arg : va) : prog S (Z * uhttp_request) :=
  UHTTPSrv_SendHeaderField lit frexpf modff expf hl timeout req name arg.

Definition UHTTPSrvWS_Accept (req : uhttp_request) : prog S (Z * uhttp_request) :=
  if negb (rq_type req =? HTTP_REQ_TYPE_WEBSOCKET) then mret (EARGVAL, req)
  else
    key ← reads (λ m, load_bytes m (hl_ws_key hl) 24);
    accept ← lift_res (UHTTPSrvWS_ComputeAccept key);
    writes (λ m, store_bytes m (hl_accept hl) accept);;
    '(e1, req) ← UHTTPSrv_SendStatus lit frexpf modff expf hl timeout req HTTP_STATUS_101_SWITCHING_PROTOCOLS 0;
    '(e2, req) ← send_http_field req HTTP_FIELD_NAME_UPGRADE (VPtr (lit "websocket"));
    '(e3, req) ← send_http_field req HTTP_FIELD_NAME_CONNECTION (VPtr (lit "Upgrade"));
    '(e4, req) ← send_http_field req HTTP_FIELD_NAME_SEC_WS_ACCEPT (VPtr (hl_accept hl));
    '(e5, req) ← UHTTPSrv_EndHeader lit timeout req;
    let ec := Z.lor (Z.lor (Z.lor (Z.lor (Z.lor EOK e1) e2) e3) e4) e5 in
    mret (ec, if EOK <=? ec then upd_ws (upd_is_open 1 (rq_ws req)) req else req).

(** *** Frames *)

Definition hw_lock_tx (w : uhttp_ws) : prog S uhttp_ws :=
  lock task_id (hw_tx_sem w);; mret (upd_hw_sems task_id (hw_rx_sem w) w).
Definition hw_lock_rx (w : uhttp_ws) : prog S uhttp_ws :=
  lock task_id (hw_rx_sem w);; mret (upd_hw_sems (hw_tx_sem w) task_id w).
Definition hw_release_tx (w : uhttp_ws) : uhttp_ws := upd_hw_sems 0 (hw_rx_sem w) w.
Definition hw_release_rx (w : uhttp_ws) : uhttp_ws := upd_hw_sems (hw_tx_sem w) 0 w.

(** The label [end]. *)
Definition hw_recv_end (ec : Z) (dtype : option Z) (w : uhttp_ws) : Z * option Z * uhttp_ws :=
  (ec, dtype, if ec <? EOK then upd_is_open 0 w else w).

(** A data frame: the next part of its payload. *)
Definition hw_recv_data (w : uhttp_ws) (ptr sz : Z) : prog S (Z * option Z * uhttp_ws) :=
  ec ← UHTTPSrvWS_RecvPayload w ptr (Z.min sz (hw_rx_size w -u hw_rx_offs w));
  let w := if EOK <=? ec then upd_hw_rx (hw_rx_size w) (hw_rx_offs w +u ec) (hw_rx_opcode w) w else w in
  let dtype := if hw_rx_opcode w =? WS_HDR_OPCODE_TEXT then HTTP_WS_DATA_TYPE_TEXT else HTTP_WS_DATA_TYPE_BIN in
  mret (hw_recv_end ec (Some dtype) (hw_release_rx w)).

(** A ping or close frame: its payload is received and sent back. *)
Definition hw_recv_control (w : uhttp_ws) : prog S (Z * uhttp_ws) :=
  ec ← UHTTPSrvWS_RecvPayload w (hl_ctrl hl) (Z.min 125 (hw_rx_size w));
  let w := hw_release_rx w in
  if ec <? EOK then mret (ec, w)
  else
    let pld_size := ec in
    w ← hw_lock_tx w;
    let rsp_opcode := if hw_rx_opcode w =? WS_HDR_OPCODE_CLOSE then WS_HDR_OPCODE_CLOSE else WS_HDR_OPCODE_PONG in
    ec ← UHTTPSrvWS_SendHeader rsp_opcode ec;
    ec ← (if EOK <=? ec then UHTTPSrvWS_SendPayload (hl_ctrl hl) pld_size else mret ec);
    let ec := if rsp_opcode =? WS_HDR_OPCODE_CLOSE then ENOCONNECT else ec in
    mret (ec, upd_hw_rx 0 0 (hw_rx_opcode w) (hw_release_tx w)).

(** A ping instead of the header that did not come; the new timeout.  Nothing
    counts the pings. *)
Definition hw_recv_ping (w : uhttp_ws) (recv_timeout : Z) : prog S (Z * Z * uhttp_ws) :=
  w ← hw_lock_tx w;
  ec ← UHTTPSrvWS_SendHeader WS_HDR_OPCODE_PING 0;
  mret (ec, if given recv_timeout then recv_timeout - ping_ival else recv_timeout, hw_release_tx w).

(** The loop behind the label [again]. *)
Fixpoint hw_again (fuel : nat) (w : uhttp_ws) (ptr sz recv_timeout ping_cnt pong_cnt : Z)
  : prog S (Z * option Z * uhttp_ws) :=
  match fuel with
  | O => fault OutOfFuel
  | Datatypes.S fuel' =>
      w ← hw_lock_rx w;
      '(hdr_ec, hdr_to, w) ← (
        if hw_rx_size w =? hw_rx_offs w then
          let hdr_to := if given recv_timeout then Z.min recv_timeout ping_ival else ping_ival in
          '(ec, hdr, size, w) ← UHTTPSrvWS_RecvHeader w hdr_to;
          let w := upd_hw_rx (default (hw_rx_size w) size) (hw_rx_offs w) (hw_rx_opcode w) w in
          if ec <? EOK then mret (ec, hdr_to, w)
          else mret (EOK, hdr_to, upd_hw_rx (hw_rx_size w) 0 (Z.land hdr WS_HDR_OPCODE) w)
        else mret (EOK, 0, w));
      if hdr_ec <? EOK then
        if (hdr_ec =? ENOCONNECT) || (hdr_to <? ping_ival) || (pong_cnt +u 3 <? ping_cnt) then mret (hw_recv_end hdr_ec None w)
        else
          '(ec, recv_timeout, w) ← hw_recv_ping w recv_timeout;
          if ec <? EOK then mret (hw_recv_end ec None w)
          else hw_again fuel' w ptr sz recv_timeout ping_cnt pong_cnt
      else
        let opcode := hw_rx_opcode w in
        if (opcode =? WS_HDR_OPCODE_TEXT) || (opcode =? WS_HDR_OPCODE_BIN) then hw_recv_data w ptr sz
        else if opcode =? WS_HDR_OPCODE_PONG then
          ec ← UHTTPSrvWS_RecvPayload w 0 (hw_rx_size w);
          let w := upd_hw_rx 0 0 opcode w in
          if EOK <=? ec then hw_again fuel' w ptr sz recv_timeout ping_cnt (pong_cnt +u 1)
          else mret (hw_recv_end ec None w)
        else if (opcode =? WS_HDR_OPCODE_PING) || (opcode =? WS_HDR_OPCODE_CLOSE) then
          '(ec, w) ← hw_recv_control w;
          if EOK <=? ec then hw_again fuel' w ptr sz recv_timeout ping_cnt pong_cnt
          else mret (hw_recv_end ec None w)
        else mret (hw_recv_end EFATAL None w)
  end.

Definition UHTTPSrvWS_Recv (fuel : nat) (req : uhttp_request) (ptr sz recv_timeout : Z)
  : prog S (Z * option Z * uhttp_request) :=
  '(ec, dtype, w) ← hw_again fuel (rq_ws req) ptr sz recv_timeout 0 0;
  mret (ec, dtype, upd_ws w req).

Definition UHTTPSrvWS_Send (req : uhttp_request) (dtype ptr sz : Z) : prog S (Z * uhttp_request) :=
  let w := rq_ws req in
  if negb ((dtype =? HTTP_WS_DATA_TYPE_TEXT) || (dtype =? HTTP_WS_DATA_TYPE_BIN)) then mret (EARGVAL, req)
  else
    let opcode := if dtype =? HTTP_WS_DATA_TYPE_TEXT then WS_HDR_OPCODE_TEXT else WS_HDR_OPCODE_BIN in
    if hw_is_open w =? 0 then mret (ENOCONNECT, req)
    else
      w ← hw_lock_tx w;
      ec ← UHTTPSrvWS_SendHeader opcode sz;
      ec ← (if EOK <=? ec then UHTTPSrvWS_SendPayload ptr sz else mret ec);
      let w := hw_release_tx w in
      mret (ec, upd_ws (if ec <? EOK then upd_is_open 0 w else w) req).

(** Wait for the close frame of the peer. *)
Fixpoint hw_close_loop (fuel : nat) (w : uhttp_ws) (ec : Z) : prog S uhttp_ws :=
  match fuel with
  | O => fault OutOfFuel
  | Datatypes.S fuel' =>
      w ← hw_lock_rx w;
      '(ec, hdr, w) ← (
        if ec <? EOK then mret (ec, 0, w)
        else
          '(ec, hdr, size, w) ← UHTTPSrvWS_RecvHeader w 0;
          ec ← (if EOK <=? ec then UHTTPSrvWS_RecvPayload w 0 (default 0 size) else mret ec);
          mret (ec, hdr, w));
      let w := hw_release_rx w in
      if ec <? EOK then mret w
      else if Z.land hdr WS_HDR_OPCODE =? WS_HDR_OPCODE_CLOSE then mret w
      else st_yield;; hw_close_loop fuel' w ec
  end.

Definition UHTTPSrvWS_Close (fuel : nat) (req : uhttp_request) : prog S (Z * uhttp_request) :=
  let w := rq_ws req in
  w ← (if hw_is_open w =? 0 then mret w
       else
         w ← hw_lock_tx w;
         ec ← UHTTPSrvWS_SendHeader WS_HDR_OPCODE_CLOSE 0;
         hw_close_loop fuel (hw_release_tx w) ec);
  mret (EOK, upd_ws (upd_is_open 0 w) req).
End ws.

(** ** The same as Websocket

    The web socket of a request as a socket of Websocket in the role of the server,
    over the same arrays. *)
Definition of_ws (w : uhttp_ws) : websocket :=
  mk_websocket (if hw_is_open w =? 0 then WS_STATE_CLOSED else WS_STATE_OPEN) (hw_tx_sem w) (hw_rx_sem w)
    (hw_rx_size w) (hw_rx_offs w) (hw_rx_opcode w) (hw_mask w) WS_ROLE_SERVER.
Definition lc_of (hl : http_locals) : ws_locals :=
  mk_ws_locals (hl_line hl) (hl_fv hl) (hl_fv hl) (hl_url hl) (hl_pld hl) (hl_buf hl) (hl_ctrl hl) (hl_ws_key hl) (hl_accept hl).

Lemma of_ws_sems w tx rx : of_ws (upd_hw_sems tx rx w) = upd_sems tx rx (of_ws w).
Proof. done. Qed.
Lemma of_ws_rx w a b c : of_ws (upd_hw_rx a b c w) = upd_rx a b c (of_ws w).
Proof. done. Qed.
Lemma of_ws_mask w m : of_ws (upd_hw_mask m w) = upd_mask m (of_ws w).
Proof. done. Qed.

(** A program whose result is changed. *)
Definition relabel {S A B} (f : A → B) (r : res (A * S)) : res (B * S) :=
  match r with Ok (a, s) => Ok (f a, s) | Fault e => Fault e end.

Lemma relabel_bind {S A B C} (f : B → C) (p : prog S A) (g : A → prog S B) s :
  relabel f ((p ≫= g) s) = (p ≫= λ a t, relabel f (g a t)) s.
Proof. unfold mbind, prog_bind. by destruct (p s) as [[]|]. Qed.

Lemma bind_same {S A B} (p : prog S A) (g h : A → prog S B) s : (∀ a t, g a t = h a t) → (p ≫= g) s = (p ≫= h) s.
Proof. intros E. unfold mbind, prog_bind. destruct (p s) as [[]|]; [apply E|done]. Qed.

Lemma bind_relabel {S A A' B} (f : A → A') (p : prog S A) (q : prog S A') (g : A' → prog S B) s :
  q s = relabel f (p s) → (q ≫= g) s = (p ≫= λ a, g (f a)) s.
Proof. intros E. unfold mbind, prog_bind. rewrite E. by destruct (p s) as [[]|]. Qed.

Section same.
Context {S : Type} `{Stream S} (hl : http_locals) (task_id : Z).
Let lc := lc_of hl.

Definition same_header : Z * Z * option Z * uhttp_ws → Z * Z * option Z * websocket := λ '(ec, hdr, size, w), (ec, hdr, size, of_ws w).
Definition same_recv : Z * option Z * uhttp_ws → Z * option Z * websocket := λ '(ec, dtype, w), (ec, dtype, of_ws w).
Definition same_code : Z * uhttp_ws → Z * websocket := λ '(ec, w), (ec, of_ws w).

Lemma header_size_range hdr : 0 ≤ header_size hdr < 128.
Proof.
  unfold header_size. change (LSB WS_HDR_PLD_LEN) with 0. rewrite Z.shiftr_0_r. change WS_HDR_PLD_LEN with (Z.ones 7).
  rewrite Z.land_ones by lia. change (2 ^ 7) with 128. lia.
Qed.

Lemma recv_header_same w t s :
  WebSocket_RecvHeader (of_ws w) (hl_pld hl) t s = relabel same_header (UHTTPSrvWS_RecvHeader hl w t s).
Proof.
  unfold WebSocket_RecvHeader, UHTTPSrvWS_RecvHeader. rewrite relabel_bind. apply bind_same. intros ec s1.
  destruct (ec <? EOK); [done|]. rewrite relabel_bind. apply bind_same. intros raw s2.
  unfold mask_wrong, is_role. cbn [of_ws ws_role bool_decide]. rewrite bool_decide_true, bool_decide_false by done. rewrite andb_false_l, orb_false_r. cbn [andb].
  destruct (flag (BETOH16 raw) WS_HDR_MASKED) eqn:Ef; [|done]. cbn [negb].
  assert (header_rest (BETOH16 raw) = 4 + (if header_size (BETOH16 raw) <? 126 then 0 else if header_size (BETOH16 raw) =? 126 then 2 else 4)) as ->
    by (unfold header_rest; by rewrite Ef).
  fold (header_size (BETOH16 raw)). set (n := header_size (BETOH16 raw)). rewrite relabel_bind. apply bind_same. intros ec2 s3.
  destruct (ec2 <? EOK); [done|]. unfold mask_offset. fold n.
  assert (∀ (d : Z), d = (if n <? 126 then 2 else if n =? 126 then 4 else 10) → ∀ (q : prog S (option Z)) (p : prog S (option Z * Z)),
    q s3 = relabel fst (p s3) → (∀ a s', p s3 = Ok (a, s') → a.2 = hl_pld hl + d) →
    (q ≫= λ size, mask ← reads (λ m, load_bytes m (hl_pld hl + d) 4); mret (EOK, BETOH16 raw, size, upd_mask mask (of_ws w))) s3 =
    relabel same_header ((p ≫= λ '(size, mask_ptr), mask ← reads (λ m, load_bytes m mask_ptr 4);
      mret (EOK, BETOH16 raw, size, upd_hw_mask mask w)) s3)) as Hend.
  { intros d _ q p Eq Ed. rewrite relabel_bind, (bind_relabel fst p q _ s3 Eq). unfold mbind at 1 3, prog_bind.
    destruct (p s3) as [[[size ptr] s4]|] eqn:Ep; [|done]. pose proof (Ed _ _ eq_refl) as Eptr. cbn in Eptr. rewrite Eptr.
    cbn [fst]. unfold mbind, prog_bind. by destruct (reads _ s4) as [[mask s5]|]. }
  apply Hend; [done|..].
  - destruct (Z.eqb_spec n 126); [|destruct (Z.eqb_spec n 127); [|done]]; unfold mbind, prog_bind;
      match goal with |- context [reads ?f s3] => destruct (reads f s3) as [[? ?]|] end; done.
  - intros a s'. destruct (Z.eqb_spec n 126) as [->|Hn1]; [|destruct (Z.eqb_spec n 127) as [->|Hn2]].
    + unfold mbind, prog_bind. match goal with |- context [reads ?f s3] => destruct (reads f s3) as [[? ?]|] end; [|done].
      by intros [= <- _].
    + unfold mbind, prog_bind. match goal with |- context [reads ?f s3] => destruct (reads f s3) as [[? ?]|] end; [|done].
      by intros [= <- _].
    + intros [= <- _]. cbn. destruct (Z.ltb_spec n 126) as [|Hge]; [done|]. exfalso.
      pose proof (header_size_range (BETOH16 raw)) as Hr. fold n in Hr. lia.
Qed.

Lemma send_header_same w hdr sz s :
  WebSocket_SendHeader (of_ws w) (hl_pld hl) hdr sz s = relabel (λ ec, (ec, of_ws w)) (UHTTPSrvWS_SendHeader hl hdr sz s).
Proof.
  unfold WebSocket_SendHeader, UHTTPSrvWS_SendHeader. rewrite relabel_bind. apply bind_same. intros [h k] s1.
  unfold is_role. cbn [of_ws ws_role]. rewrite bool_decide_false by done. rewrite bind_ret. cbv beta iota.
  rewrite relabel_bind. apply bind_same. intros [] s2. unfold send, mbind, prog_bind. by destruct (st_send _ _ _ s2) as [[]|].
Qed.

Lemma recv_loop_same fuel : ∀ w ptr sz offs s,
  recv_payload_loop fuel (of_ws w) (hl_buf hl) ptr sz offs s = hw_recv_loop hl fuel (hw_mask w) ptr sz offs s.
Proof.
  induction fuel as [|fuel IH]; intros w ptr sz offs s; [done|]. cbn [recv_payload_loop hw_recv_loop].
  destruct (offs <? sz); [|done]. apply bind_same. intros ec s1. destruct (ec <? EOK); [done|].
  unfold is_role. cbn [of_ws ws_role ws_mask]. rewrite bool_decide_true by done. apply bind_same. intros [] s2.
  apply bind_same. intros [] s3. apply IH.
Qed.

Lemma recv_payload_same w ptr sz s :
  WebSocket_RecvPayload (of_ws w) (hl_buf hl) ptr sz s = UHTTPSrvWS_RecvPayload hl w ptr sz s.
Proof. apply recv_loop_same. Qed.

Lemma send_loop_same fuel : ∀ w ptr sz offs s,
  send_payload_loop fuel (of_ws w) (hl_buf hl) ptr sz offs s = hw_send_loop hl fuel ptr sz offs s.
Proof.
  induction fuel as [|fuel IH]; intros w ptr sz offs s; [done|]. cbn [send_payload_loop hw_send_loop].
  destruct (offs <? sz); [|done]. apply bind_same. intros [] s1.
  unfold is_role. cbn [of_ws ws_role]. rewrite bool_decide_false by done. rewrite bind_ret. apply bind_same. intros ec s2.
  destruct (ec <? EOK); [done|]. apply IH.
Qed.

Lemma send_payload_same w ptr sz s :
  WebSocket_SendPayload (of_ws w) (hl_buf hl) ptr sz s = UHTTPSrvWS_SendPayload hl ptr sz s.
Proof. apply send_loop_same. Qed.

Lemma lock_rx_same w s : lock_rx (S := S) task_id (of_ws w) s = relabel of_ws (hw_lock_rx (S := S) task_id w s).
Proof. unfold lock_rx, hw_lock_rx. rewrite relabel_bind. by apply bind_same. Qed.
Lemma lock_tx_same w s : lock_tx (S := S) task_id (of_ws w) s = relabel of_ws (hw_lock_tx (S := S) task_id w s).
Proof. unfold lock_tx, hw_lock_tx. rewrite relabel_bind. by apply bind_same. Qed.

Lemma recv_control_same w s :
  recv_control task_id lc (of_ws w) s = relabel same_code (hw_recv_control hl task_id w s).
Proof.
  unfold recv_control, hw_recv_control. cbn [lc lc_of lc_buf lc_ctrl lc_pld]. rewrite relabel_bind.
  change (ws_rx_size (of_ws w)) with (hw_rx_size w).
  unfold mbind at 1, prog_bind at 1. rewrite recv_payload_same. unfold mbind at 4, prog_bind at 4.
  destruct (UHTTPSrvWS_RecvPayload hl w (hl_ctrl hl) (Z.min 125 (hw_rx_size w)) s) as [[ec s1]|]; [|done].
  destruct (ec <? EOK); [done|]. rewrite relabel_bind. change (release_rx (of_ws w)) with (of_ws (hw_release_rx w)).
  rewrite (bind_relabel of_ws _ _ _ _ (lock_tx_same (hw_release_rx w) s1)). apply bind_same. intros w2 s2.
  change (ws_rx_opcode (of_ws w2)) with (hw_rx_opcode w2). cbv zeta.
  rewrite (bind_relabel _ _ _ _ _ (send_header_same w2 _ ec s2)), relabel_bind. apply bind_same. intros ec2 s3. cbv beta iota.
  rewrite relabel_bind. unfold mbind, prog_bind. destruct (EOK <=? ec2).
  - rewrite send_payload_same. by destruct (UHTTPSrvWS_SendPayload hl (hl_ctrl hl) ec s3) as [[]|].
  - done.
Qed.

Lemma recv_ping_same w t s :
  recv_ping task_id lc (of_ws w) t s = relabel (λ '(ec, t, w), (ec, t, of_ws w)) (hw_recv_ping hl task_id w t s).
Proof.
  unfold recv_ping, hw_recv_ping. rewrite relabel_bind, (bind_relabel of_ws _ _ _ _ (lock_tx_same w s)).
  apply bind_same. intros w1 s1. rewrite relabel_bind, (bind_relabel _ _ _ _ _ (send_header_same w1 _ 0 s1)). by apply bind_same.
Qed.

(** A data frame that was received. *)
Lemma recv_data_same w ptr sz s ec dtype w' s' :
  hw_recv_data hl w ptr sz s = Ok ((ec, dtype, w'), s') → EOK ≤ ec →
  recv_data lc (of_ws w) ptr sz s = Ok (same_recv (ec, dtype, w'), s').
Proof.
  unfold hw_recv_data, recv_data. cbn [lc lc_of lc_buf]. intros E Hec.
  apply prog_bind_inv in E as (e & s1 & E1 & E). unfold mbind, prog_bind.
  rewrite recv_payload_same. change (ws_rx_size (of_ws w)) with (hw_rx_size w). change (ws_rx_offs (of_ws w)) with (hw_rx_offs w).
  rewrite E1. injection E as -> <- <- <-. unfold recv_end. destruct (Z.ltb_spec ec EOK); [lia|].
  destruct (Z.leb_spec EOK ec); [|lia]. done.
Qed.

(** The header stage of a reception. *)
Definition hw_header (w : uhttp_ws) (t : Z) : prog S (Z * Z * uhttp_ws) :=
  if hw_rx_size w =? hw_rx_offs w then
    let hdr_to := if given t then Z.min t ping_ival else ping_ival in
    '(ec, hdr, size, w) ← UHTTPSrvWS_RecvHeader hl w hdr_to;
    let w := upd_hw_rx (default (hw_rx_size w) size) (hw_rx_offs w) (hw_rx_opcode w) w in
    if ec <? EOK then mret (ec, hdr_to, w)
    else mret (EOK, hdr_to, upd_hw_rx (hw_rx_size w) 0 (Z.land hdr WS_HDR_OPCODE) w)
  else mret (EOK, 0, w).
Definition ws_header (w : websocket) (t : Z) : prog S (Z * Z * websocket) :=
  if ws_rx_size w =? ws_rx_offs w then
    let hdr_to := if given t then Z.min t ping_ival else ping_ival in
    '(ec, hdr, size, w) ← WebSocket_RecvHeader w (lc_pld lc) hdr_to;
    let w := upd_rx (default (ws_rx_size w) size) (ws_rx_offs w) (ws_rx_opcode w) w in
    if ec <? EOK then mret (ec, hdr_to, w)
    else mret (EOK, hdr_to, upd_rx (ws_rx_size w) 0 (Z.land hdr WS_HDR_OPCODE) w)
  else mret (EOK, 0, w).

Lemma header_stage_same w t s :
  ws_header (of_ws w) t s = relabel (λ '(ec, to, w), (ec, to, of_ws w)) (hw_header w t s).
Proof.
  unfold ws_header, hw_header. change (ws_rx_size (of_ws w)) with (hw_rx_size w). change (ws_rx_offs (of_ws w)) with (hw_rx_offs w).
  destruct (hw_rx_size w =? hw_rx_offs w); [|done]. cbv zeta. cbn [lc lc_of lc_pld].
  rewrite relabel_bind, (bind_relabel _ _ _ _ _ (recv_header_same w _ s)). apply bind_same. intros [[[ec hdr] size] w1] s1.
  cbn [same_header]. by destruct (ec <? EOK).
Qed.

(** One round of the loop, what follows being given. *)
Lemma again_same fuel : ∀ w ptr sz t pings pongs s r s',
  hw_again hl task_id fuel w ptr sz t pings pongs s = Ok (r, s') → EOK ≤ r.1.1 →
  recv_again task_id lc fuel (of_ws w) ptr sz t pings pongs s = Ok (same_recv r, s').
Proof.
  induction fuel as [|fuel IH]; intros w ptr sz t pings pongs s r s' E Hr; [done|]. cbn [hw_again recv_again] in *.
  apply prog_bind_inv in E as (w1 & s1 & E1 & E). rewrite (bind_relabel of_ws _ _ _ _ (lock_rx_same w s)).
  rewrite (prog_bind_Ok _ _ _ _ _ E1). fold (hw_header w1 t) in E. fold (ws_header (of_ws w1) t).
  apply prog_bind_inv in E as ([[hec hto] w2] & s2 & E2 & E). rewrite (bind_relabel _ _ _ _ _ (header_stage_same w1 t s1)).
  rewrite (prog_bind_Ok _ _ _ _ _ E2). cbv beta iota. destruct (Z.ltb_spec hec EOK) as [Hlt|Hge].
  - destruct (hec =? ENOCONNECT); cbn [orb] in E; [injection E as <- _; cbn in Hr; lia|].
    destruct ((hto <? ping_ival) || (pongs +u 3 <? pings)); [injection E as <- _; cbn in Hr; lia|].
    apply prog_bind_inv in E as ([[ec3 t3] w3] & s3 & E3 & E). rewrite (bind_relabel _ _ _ _ _ (recv_ping_same w2 t s2)).
    rewrite (prog_bind_Ok _ _ _ _ _ E3). cbv beta iota.
    destruct (Z.ltb_spec ec3 EOK); [injection E as <- _; cbn in Hr; lia|]. by apply IH.
  - cbv zeta in *. change (ws_rx_opcode (of_ws w2)) with (hw_rx_opcode w2).
    destruct ((hw_rx_opcode w2 =? WS_HDR_OPCODE_TEXT) || (hw_rx_opcode w2 =? WS_HDR_OPCODE_BIN)).
    { destruct r as [[ec dtype] w']. by apply recv_data_same. }
    destruct (hw_rx_opcode w2 =? WS_HDR_OPCODE_PONG).
    { apply prog_bind_inv in E as (ec3 & s3 & E3 & E).
      rewrite (prog_bind_Ok _ _ _ ec3 s3) by (rewrite <- E3; apply recv_payload_same).
      destruct (Z.leb_spec EOK ec3) as [Hok|Hok]; [by apply (IH (upd_hw_rx 0 0 (hw_rx_opcode w2) w2))|].
      injection E as <- _. cbn in Hr. lia. }
    destruct ((hw_rx_opcode w2 =? WS_HDR_OPCODE_PING) || (hw_rx_opcode w2 =? WS_HDR_OPCODE_CLOSE)).
    { apply prog_bind_inv in E as ([ec3 w3] & s3 & E3 & E). rewrite (bind_relabel _ _ _ _ _ (recv_control_same w2 s2)).
      rewrite (prog_bind_Ok _ _ _ _ _ E3). cbn [same_code].
      destruct (Z.leb_spec EOK ec3) as [Hok|Hok]; [by apply IH|]. injection E as <- _. cbn in Hr. lia. }
    injection E as <- _. cbn in Hr. unfold EFATAL, EOK in Hr. lia.
Qed.

(** A frame that arrives at once. *)
Lemma data_same_converse w ptr sz s ec dtype w1 s' :
  recv_data lc (of_ws w) ptr sz s = Ok ((ec, dtype, w1), s') → EOK ≤ ec →
  ∃ w', hw_recv_data hl w ptr sz s = Ok ((ec, dtype, w'), s') ∧ w1 = of_ws w'.
Proof.
  unfold hw_recv_data, recv_data. cbn [lc lc_of lc_buf]. intros E Hec.
  apply prog_bind_inv in E as (e & s1 & E1 & E). rewrite recv_payload_same in E1.
  change (ws_rx_size (of_ws w)) with (hw_rx_size w) in *. change (ws_rx_offs (of_ws w)) with (hw_rx_offs w) in *.
  rewrite (prog_bind_Ok _ _ _ _ _ E1). unfold recv_end in E. destruct (Z.ltb_spec e EOK) as [Hlt|Hge].
  { apply prog_bind_inv in E as (x & s2 & _ & E). injection E as -> _ _ _. lia. }
  injection E as -> <- <- <-. destruct (Z.leb_spec EOK ec); [|lia]. unfold hw_recv_end, mret, prog_ret.
  destruct (Z.ltb_spec ec EOK); [lia|]. by eexists.
Qed.

Lemma again_once w ptr sz t s ec dtype w1 s' :
  recv_again task_id lc 1 (of_ws w) ptr sz t 0 0 s = Ok ((ec, dtype, w1), s') → EOK ≤ ec →
  ∃ w', hw_again hl task_id 1 w ptr sz t 0 0 s = Ok ((ec, dtype, w'), s') ∧ w1 = of_ws w'.
Proof.
  intros E Hr. cbn [hw_again recv_again] in *. rewrite (bind_relabel of_ws _ _ _ _ (lock_rx_same w s)) in E.
  apply prog_bind_inv in E as (w2 & s1 & E1 & E). rewrite (prog_bind_Ok _ _ _ _ _ E1).
  fold (hw_header w2 t). fold (ws_header (of_ws w2) t) in E. rewrite (bind_relabel _ _ _ _ _ (header_stage_same w2 t s1)) in E.
  apply prog_bind_inv in E as ([[hec hto] w3] & s2 & E2 & E). rewrite (prog_bind_Ok _ _ _ _ _ E2). cbv beta iota zeta in *.
  assert (Hend : ∀ e d (v : websocket) t', recv_end e d v t' = Ok ((ec, dtype, w1), s') → e < EOK → False).
  { intros e d v t' H1 H2. unfold recv_end in H1. destruct (Z.ltb_spec e EOK); [|lia].
    apply prog_bind_inv in H1 as (x & s3 & _ & H1). injection H1 as -> _ _ _. lia. }
  destruct (Z.ltb_spec hec EOK) as [Hlt|Hge].
  - destruct ((hto <? ping_ival) || (0 +u 3 <? 0)); [by apply Hend in E|].
    apply prog_bind_inv in E as ([[ec3 t3] w4] & s3 & _ & E). destruct (Z.ltb_spec ec3 EOK); [by apply Hend in E|done].
  - change (ws_rx_opcode (of_ws w3)) with (hw_rx_opcode w3) in E.
    destruct ((hw_rx_opcode w3 =? WS_HDR_OPCODE_TEXT) || (hw_rx_opcode w3 =? WS_HDR_OPCODE_BIN)); [by apply data_same_converse|].
    destruct (hw_rx_opcode w3 =? WS_HDR_OPCODE_PONG).
    { apply prog_bind_inv in E as (ec3 & s3 & _ & E). destruct (Z.leb_spec EOK ec3); [done|]. by apply Hend in E. }
    destruct ((hw_rx_opcode w3 =? WS_HDR_OPCODE_PING) || (hw_rx_opcode w3 =? WS_HDR_OPCODE_CLOSE)); [|by apply Hend in E].
    apply prog_bind_inv in E as ([ec3 w4] & s3 & _ & E). destruct (Z.leb_spec EOK ec3); [done|]. by apply Hend in E.
Qed.
End same.

(** ** Properties *)

(** C23: What the web socket of the HTTP server receives without an error, a
    server's socket of the web socket module receives as well: the same bytes with
    the same type, leaving the connection and the socket the same. *)
Theorem http_ws_recv_same {S : Type} `{Stream S} hl task_id fuel req ptr sz timeout (s s' : S) ec dtype req' :
  UHTTPSrvWS_Recv hl task_id fuel req ptr sz timeout s = Ok ((ec, dtype, req'), s') → EOK ≤ ec →
  WebSocket_Recv task_id (lc_of hl) fuel (of_ws (rq_ws req)) ptr sz timeout s = Ok ((ec, dtype, of_ws (rq_ws req')), s').
Proof.
  intros E Hec. unfold UHTTPSrvWS_Recv in E. apply prog_bind_inv in E as ([[ec1 d1] w1] & s1 & E1 & E).
  injection E as -> -> <- <-. by apply (again_same hl task_id fuel (rq_ws req) ptr sz timeout 0 0 s _ _ E1).
Qed.

(** C27: A client of the web socket module talks to the HTTP server: the frame it
    puts on the connection, with a payload of less than 65535 bytes, is received
    with its payload, its type and nothing of what follows, when the header
    arrives in one piece and the payload in any pieces of which those before the
    last byte have a multiple of four bytes. *)
Theorem http_ws_receives id1 id2 lc1 hl w1 req s1 s2 dtype ptr1 ptr2 payload sz timeout more :
  is_data dtype → length payload < 0xffff → Forall is_u8 payload →
  ws_state w1 = WS_STATE_OPEN → ws_role w1 = WS_ROLE_CLIENT → ws_tx_sem w1 = 0 ∨ ws_tx_sem w1 = id1 → Forall is_u8 (ws_mask w1) →
  sc_closed s1 = false → bytes_at (sc_mem s1) ptr1 payload →
  mapped (sc_mem s1) (lc_pld lc1) 14 → mapped (sc_mem s1) (lc_buf lc1) 32 →
  beside (lc_pld lc1) 14 ptr1 (length payload) → beside (lc_buf lc1) 32 ptr1 (length payload) →
  ready id2 (lc_of hl) (of_ws (rq_ws req)) s2 → length payload ≤ sz →
  ptr2 ≠ 0 → mapped (sc_mem s2) ptr2 (length payload) →
  beside (hl_pld hl) 14 ptr2 (length payload) → beside (hl_buf hl) 32 ptr2 (length payload) →
  ∃ hdr body s1' w1',
    WebSocket_Send id1 lc1 w1 dtype ptr1 (length payload) s1 = Ok ((Z.of_nat (length payload), w1'), s1') ∧
    sc_tx s1' = sc_tx s1 ++ hdr ++ body ∧ length body = length payload ∧
    (frame_arrives hdr body more (sc_rx s2) →
     ∃ s2' req', UHTTPSrvWS_Recv hl id2 1 req ptr2 sz timeout s2 = Ok ((Z.of_nat (length payload), Some dtype, req'), s2') ∧
       bytes_at (sc_mem s2') ptr2 payload ∧ concat (sc_rx s2') = more ∧
       hw_rx_size (rq_ws req') = hw_rx_offs (rq_ws req') ∧ hw_rx_sem (rq_ws req') = 0).
Proof.
  intros Hd Hlen Hu Hst Hrole Hsem Hmu Hc Hb Hm1 Hm2 Hb1 Hb2 Hready Hsz Hp2 Hmp Hb3 Hb4.
  destruct (ws_send_ok id1 lc1 w1 s1 dtype ptr1 payload) as (m1 & w1' & E & Hst' & _); try done.
  unfold frame_of, next_mask in E. rewrite Hrole in E. rewrite decide_True in E by done.
  set (mask := mask_bytes (sc_now s1)) in *.
  exists (frame_header WS_ROLE_CLIENT mask (data_opcode dtype) (length payload)), (role_mask WS_ROLE_CLIENT mask payload).
  do 2 eexists. split; [exact E|]. split; [done|]. split; [apply role_mask_length|]. intros Har.
  set (body := role_mask WS_ROLE_CLIENT mask payload) in *.
  assert (length body = length payload) as Hbl by apply role_mask_length. rewrite <- Hbl in Har at 1.
  edestruct (recv_data_ok id2 (lc_of hl) (of_ws (rq_ws req)) s2 dtype ptr2 sz timeout mask body more) as (s2' & w2' & E2 & Hb5 & Hmore & Hsize & Hsem2 & _);
    try (first [done|rewrite Hbl; done|apply mask_bytes_u8]).
  rewrite Hbl in E2. apply again_once in E2 as (w' & E2 & ->); [|unfold EOK; lia].
  exists s2', (upd_ws w' req). split.
  { unfold UHTTPSrvWS_Recv. by rewrite (prog_bind_Ok _ _ _ _ _ E2). }
  split; [|done]. change (peer (ws_role (of_ws (rq_ws req)))) with WS_ROLE_CLIENT in Hb5.
  replace payload with (role_mask WS_ROLE_CLIENT mask body); [done|].
  unfold body, role_mask. rewrite !decide_True by done. apply mask_from_involutive.
Qed.

(** ** Concrete runs *)

(** The fields of a request, one call each. *)
Fixpoint read_fields (n : nat) (req : uhttp_request) : prog script uhttp_request :=
  match n with
  | O => mret req
  | S n => '(_, req, _) ← http_demo_field req (mk_field 0 0 0 0); read_fields n req
  end.

Definition demo_accept (fields : list string) : res (Z * Z * string) :=
  '((ec, req), s) ← (req ← read_fields (length fields) (new_request HTTP_METHOD_GET 0);
     UHTTPSrvWS_Accept http_lit demo_frexpf demo_modff demo_expf http_hl 1000 req) (http_script [] [lines fields]);
  Ok (ec, hw_is_open (rq_ws req), to_string (sc_tx s)).

(** The sample handshake of RFC 6455; the first line lacks its end. *)
Example http_upgrade :
  demo_accept ["Host: server"; "Upgrade: websocket"; "Connection: Upgrade"; "Sec-WebSocket-Key: dGhlIHNhbXBsZSBub25jZQ==";
    "Sec-WebSocket-Version: 13"; ""]%string =
  Ok (EOK, 1, String.append "HTTP/1.1 101 Switching Protocol" (to_string (lines
    ["content-length: 0"; "server: uHTTP"; "connection: keep-alive"; "access-control-allow-origin: *";
     "Upgrade: websocket"; "connection: Upgrade"; "Sec-WebSocket-Accept: s3pPLMBiTxaQ9kYGzzhZRbK+xOo="; ""]%string))).
Proof. vm_compute. reflexivity. Qed.

(** A list of options in the field is not understood: this is what browsers send. *)
Example upgrade_in_list :
  demo_accept ["Host: server"; "Upgrade: websocket"; "Connection: keep-alive, Upgrade"; "Sec-WebSocket-Key: dGhlIHNhbXBsZSBub25jZQ==";
    "Sec-WebSocket-Version: 13"; ""]%string = Ok (EARGVAL, 0, ""%string).
Proof. vm_compute. reflexivity. Qed.

(** After an error the reception semaphore is not released. *)
Example http_semaphore_kept :
  (λ '(ec, _, req, _), (ec, hw_rx_sem (rq_ws req))) <$>
    UHTTPSrvWS_Recv http_hl 7 20 (new_request 1 0) 3400 16 0 (http_script [] [[0x83; 0x80]; [1; 2; 3; 4]]) = Ok (EFATAL, 7).
Proof. vm_compute. reflexivity. Qed.

(** *** Witnesses *)

Definition hello_hl : http_locals := mk_http_locals 1 1 1 1 1 1 1 1 1 50 100 1 1.

Lemma http_ws_receives_witness :
  ∃ s1' w1' s2' req',
    WebSocket_Send 3 hello_lc (ws_open WS_ROLE_CLIENT) WS_DATA_TYPE_TEXT 200 5 hello_tx = Ok ((5, w1'), s1') ∧
    UHTTPSrvWS_Recv hello_hl 4 1 (new_request 1 0) 300 20 0 hello_rx = Ok ((5, Some WS_DATA_TYPE_TEXT, req'), s2') ∧
    bytes_at (sc_mem s2') 300 (chars "Hello") ∧ concat (sc_rx s2') = [7; 8; 9].
Proof.
  destruct (http_ws_receives 3 4 hello_lc hello_hl (ws_open WS_ROLE_CLIENT) (new_request 1 0) hello_tx hello_rx WS_DATA_TYPE_TEXT
    200 300 (chars "Hello") 20 0 [7; 8; 9]) as (hdr & body & s1' & w1' & E1 & Htx & Hlen & Hrecv);
    [by left|done|by repeat constructor|done|done|by left|by repeat constructor|done|apply put_bytes_bytes_at
    |by apply hello_mapped|by apply hello_mapped|by left|by left| |done|done|by apply plain_mapped|by left|by left|].
  - split; [done|by left|by repeat constructor|by apply plain_mapped|by apply plain_mapped].
  - assert (∃ s, snd <$> WebSocket_Send 3 hello_lc (ws_open WS_ROLE_CLIENT) WS_DATA_TYPE_TEXT 200 5 hello_tx
      = Ok s ∧ sc_tx s = hello_frame) as (s & Es & Hs) by (eexists; split; vm_compute; reflexivity).
    change (Z.of_nat (length (chars "Hello"))) with 5 in *. rewrite E1 in Es. injection Es as <-.
    simpl in Htx. rewrite Hs in Htx.
    assert (hdr = take 6 hello_frame ∧ body = drop 6 hello_frame) as [-> ->].
    { apply app_inj_2; [rewrite Hlen; done|by rewrite take_drop]. }
    destruct Hrecv as (s2' & req' & E2 & Hb & Hm & _).
    { exists [0x30; 0x33; 0x58; 0x7e], [[0x17; 7]; [8; 9]].
      split_and!; [reflexivity|by repeat constructor|by repeat constructor|reflexivity|].
      change (aligned 5 [[0x30; 0x33; 0x58; 0x7e]; [0x17; 7]; [8; 9]]). simpl. intros _. split; [done|].
      intros _. split; [done|]. intros _. split; [done|lia]. }
    exists s1', w1', s2', req'. split; [exact E1|]. split; [exact E2|]. split; [exact Hb|exact Hm].
Defined.

Lemma http_ws_recv_same_witness :
  match UHTTPSrvWS_Recv hello_hl 4 1 (new_request 1 0) 300 20 0 hello_rx with
  | Ok ((ec, dtype, req'), s') =>
      WebSocket_Recv 4 (lc_of hello_hl) 1 (of_ws new_ws) 300 20 0 hello_rx = Ok ((ec, dtype, of_ws (rq_ws req')), s')
  | Fault _ => False
  end.
Proof.
  assert (match UHTTPSrvWS_Recv hello_hl 4 1 (new_request 1 0) 300 20 0 hello_rx with Ok ((ec, _, _), _) => EOK <=? ec | _ => false end = true)
    as Hec by (vm_compute; reflexivity).
  destruct (UHTTPSrvWS_Recv hello_hl 4 1 (new_request 1 0) 300 20 0 hello_rx) as [[[[ec dtype] req'] s']|] eqn:E; [|discriminate Hec].
  apply Z.leb_le in Hec. exact (http_ws_recv_same hello_hl 4 1 (new_request 1 0) 300 20 0 hello_rx s' ec dtype req' E Hec).
Defined.
