(* ===== verification/Website.v ===== *)
(** * The web site and its programming interface (www/src/website.c, www/src/api.c)

    The callbacks of the two HTTP servers.  The state is the file system, the
    semaphore that guards the buffer for files, and the connection; the file
    system works on the memory of the connection.  Loops over header fields,
    frames and parts of a file take fuel for their number.  The theorems compose
    the file system and the HTTP server: what a client is sent is the file. *)
From Stdlib Require Import SpecFloat Ascii String.
From S2P Require Import Prelude CString Words Stdio Double Printf PrintSpec Ffs Stream Websocket WebSpec Http HttpSpec HttpWs.

(** ** website.c *)

(** The static data of the file system and [fbuf_sem]. *)
Record site := mk_site { si_ffs : ffs; si_sem : Z }.
(** The arrays [fbuf] and [buf]. *)
Record site_locals := mk_site_locals { sl_fbuf : Z; sl_buf : Z }.

Record mime_entry := mk_mime { me_type : string; me_ext : string }.
Definition mime_lut : list mime_entry :=
  [ mk_mime "text/html" ".htm"; mk_mime "text/html" ".html"; mk_mime "text/javascript" ".js"; mk_mime "text/css" ".css";
    mk_mime "image/svg+xml" ".svg"; mk_mime "image/jpeg" ".jpg"; mk_mime "image/jpeg" ".jpeg"; mk_mime "image/png" ".png" ].
Definition mime_def : string := "text/plain".

(** [for (; *ext != '.'; ext--);]: nothing stops it before the text. *)
Fixpoint last_dot (m : mem) (ext : Z) (fuel : nat) : res Z :=
  match fuel with
  | O => Fault OutOfFuel
  | S fuel' => c ← load8 m ext; if c =? chr "." then Ok ext else last_dot m (ext - 1) fuel'
  end.

Section website.
Context {S : Type} `{Stream S} (lit : string → Z).
Context (frexpf : fp → fp * Z) (modff : fp → fp * fp) (expf : fp → fp).
Context (hl : http_locals) (timeout : Z) (task_id : Z) (sl : site_locals).

(** The state that the programs of this file run on. *)
Definition site_prog (A : Type) : Type := prog (site * S) A.

Definition on_ffs {A} (f : ffs → res (ffs * A)) : site_prog A := λ '(t, s),
  '(fs, a) ← f (set_fmem (st_mem s) (si_ffs t)); Ok (a, (mk_site fs (si_sem t), st_set_mem (f_mem fs) s)).
Definition site_reads {A} (f : mem → res A) : site_prog A := on_snd (reads f).

(** The end of the text is found first; any address of memory may be passed on
    the way back. *)
Definition HTTPSrvWebsite_GetMimeTypeForFileExt (ext : Z) : site_prog Z :=
  on_snd (
    none ← (if ext =? 0 then mret true else c ← reads (λ m, load8 m ext); mret (c =? 0));
    if (none : bool) then mret (lit mime_def)
    else
      n ← reads (λ m, strlen m ext);
      ext ← reads (λ m, last_dot m (ext + n) (Datatypes.S (size m)));
      l ← lut_find (λ l, r ← reads (λ m, strcmp m ext (lit (me_ext l))); mret (r =? 0)) mime_lut;
      mret (lit (from_option me_type mime_def l))).

(** The calls of the HTTP server on the connection. *)
Definition site_status (req : uhttp_request) (code n : Z) : site_prog (Z * uhttp_request) :=
  on_snd (UHTTPSrv_SendStatus lit frexpf modff expf hl timeout req code n).
Definition site_field (req : uhttp_request) (name ptr : Z) : site_prog (Z * uhttp_request) :=
  on_snd (UHTTPSrv_SendHeaderField lit frexpf modff expf hl timeout req name (VPtr ptr)).
Definition site_end (req : uhttp_request) : site_prog (Z * uhttp_request) :=
  on_snd (UHTTPSrv_EndHeader lit timeout req).
Definition site_body (req : uhttp_request) (ptr sz : Z) : site_prog (Z * uhttp_request) :=
  on_snd (UHTTPSrc_SendBody timeout req ptr sz).

(** Every frame is sent back. *)
Fixpoint echo_loop (fuel : nat) (req : uhttp_request) : site_prog (Z * uhttp_request) :=
  match fuel with
  | O => fault OutOfFuel
  | Datatypes.S fuel' =>
      '(ec, dtype, req) ← on_snd (UHTTPSrvWS_Recv hl task_id fuel req (sl_buf sl) 16 0);
      if ec <? EOK then mret (ec, req)
      else
        '(ec, req) ← on_snd (UHTTPSrvWS_Send hl task_id req (default 0 dtype) (sl_buf sl) ec);
        if ec <? EOK then mret (ec, req) else on_snd st_yield;; echo_loop fuel' req
  end.

Definition HTTPSrvWebsite_CallbackWebSocket (fuel : nat) (req : uhttp_request) : site_prog (Z * uhttp_request) :=
  '(ec, req) ← on_snd (UHTTPSrvWS_Accept lit frexpf modff expf hl timeout req);
  if ec <? EOK then mret (ec, req) else echo_loop fuel req.

(** [with_sem (&fbuf_sem)]: released however the block is left. *)
Definition with_fbuf {A} (p : site_prog A) : site_prog A :=
  t ← get_fst; on_snd (lock task_id (si_sem t));; put_fst (mk_site (si_ffs t) task_id);;
  r ← p; t ← get_fst; put_fst (mk_site (si_ffs t) 0);; mret r.

(** The loop over the parts of the file; whether it ended without an error. *)
Fixpoint file_loop (fuel : nat) (fp : option nat) (req : uhttp_request) (fsize : Z) : site_prog (bool * uhttp_request) :=
  match fuel with
  | O => fault OutOfFuel
  | Datatypes.S fuel' =>
      if fsize =? 0 then mret (true, req)
      else
        fbuf_size ← on_ffs (λ fs, FFS_Read fs fp (sl_fbuf sl) 1024);
        if fbuf_size <=? 0 then mret (true, req)
        else
          '(ec, req) ← site_body req (sl_fbuf sl) fbuf_size;
          if ec <? EOK then mret (false, req) else file_loop fuel' fp req (fsize -u fbuf_size)
  end.

(** The first three bytes tell a compressed file, which is then rewound. *)
Definition content_encoding (fp : option nat) (req : uhttp_request) : site_prog uhttp_request :=
  k ← on_ffs (λ fs, FFS_Read fs fp (sl_fbuf sl) 3);
  if negb (k =? 3) then mret req
  else
    sig ← site_reads (λ m, load_bytes m (sl_fbuf sl) 3);
    '(_, req) ← ((if bool_decide (sig = [0x1f; 0x8b; 0x08]%Z)
                 then site_field req HTTP_FIELD_NAME_CONTENT_ENCODING (lit "gzip") else mret (EOK, req)) : site_prog (Z * uhttp_request));
    _ ← on_ffs (λ fs, FFS_Seek fs fp 0 FFS_SEEK_SET);
    mret req.

(** The file of a URL: status, block and size. *)
Definition open_file (fname : Z) : site_prog (Z * option nat * Z) :=
  fp ← on_ffs (λ fs, FFS_Open task_id fs fname FFS_MODE_R);
  let err_code := match fp with Some _ => HTTP_STATUS_200_OK | None => HTTP_STATUS_404_NOT_FOUND end in
  '(ec, v) ← on_ffs (λ fs, match fp with Some _ => r ← FFS_Size fs fp; Ok (fs, r) | None => Ok (fs, (EOK, None)) end);
  mret (if ec <? EOK then HTTP_STATUS_500_INTERNAL_SRV_ERR else err_code, fp, default 0 v).

(** When the body cannot be sent the file stays open. *)
Definition HTTPSrvWebsite_CallbackFiles (fuel : nat) (req : uhttp_request) : site_prog (Z * uhttp_request) :=
  c ← site_reads (λ m, strcmp m (lit "/") (hl_url hl));
  let fname := if c =? 0 then lit "/index.html" else hl_url hl in
  '(err_code, fp, fsize) ← open_file fname;
  let fsize := if err_code =? HTTP_STATUS_200_OK then fsize else 0 in
  '(_, req) ← site_status req err_code fsize;
  '(_, req) ← site_field req HTTP_FIELD_NAME_ACCESS_CONTROL_ALLOW_ORIGIN (lit "*");
  '(_, req) ← site_field req HTTP_FIELD_NAME_CONNECTION (lit "close");
  '(ok, req) ← with_fbuf (
    req ← content_encoding fp req;
    mime_type ← HTTPSrvWebsite_GetMimeTypeForFileExt fname;
    '(_, req) ← site_field req HTTP_FIELD_NAME_CONTENT_TYPE mime_type;
    '(ec, req) ← site_end req;
    if negb (ec =? EOK) then mret (true, req) else file_loop fuel fp req fsize);
  if negb ok then mret (EFATAL, req)
  else _ ← on_ffs (λ fs, FFS_Close fs fp); mret (EOK, req).

(** The fields of the request; [false]: the client takes no compressed files. *)
Fixpoint request_fields (fuel : nat) (req : uhttp_request) (field : uhttp_field) : site_prog (bool * uhttp_request) :=
  match fuel with
  | O => fault OutOfFuel
  | Datatypes.S fuel' =>
      if negb (rq_state req =? HTTP_STATE_READ_FIELDS) then mret (true, req)
      else
        '(ec, req, field) ← on_snd (UHTTPSrv_ReadHeaderField lit hl timeout req field);
        if ec <? EOK then mret (true, req)
        else if fl_name field =? HTTP_FIELD_NAME_ACCEPT_ENCODING then
          p ← site_reads (λ m, strstr m (fl_value field) (lit "gzip"));
          if p =? 0 then mret (false, req) else request_fields fuel' req field
        else request_fields fuel' req field
  end.

(** The body is dropped; its size is the greatest there is. *)
Definition drop_body (req : uhttp_request) : site_prog uhttp_request :=
  if rq_state req =? HTTP_STATE_READ_BODY then
    '(_, req) ← on_snd (UHTTPSrv_ReadBody hl timeout req 0 (u32 (-1))); mret req
  else mret req.

Definition no_field : uhttp_field := mk_field 0 0 0 0.

Definition HTTPSrvWebsite_Callback (fuel : nat) (req : uhttp_request) : site_prog (Z * uhttp_request) :=
  '(ok, req) ← request_fields fuel req no_field;
  if negb ok then mret (EFATAL, req)
  else
    req ← drop_body req;
    if rq_type req =? HTTP_REQ_TYPE_WEBSOCKET then HTTPSrvWebsite_CallbackWebSocket fuel req
    else if rq_type req =? HTTP_REQ_TYPE_STANDARD then HTTPSrvWebsite_CallbackFiles fuel req
    else
      '(_, req) ← site_status req HTTP_STATUS_400_BAD_REQUEST 0;
      '(_, req) ← site_end req;
      mret (EOK, req).
End website.

(** ** api.c *)

Record endpoint_spec := mk_endpoint { es_url : string; es_methods : Z }.
Record method_spec := mk_api_method { ms_method : Z; ms_name : string }.
(** The arrays [data] and [methods_str]. *)
Record api_locals := mk_api_locals { al_data : Z; al_methods_str : Z }.

Definition api_methods : list method_spec :=
  [ mk_api_method HTTP_METHOD_POST "POST"; mk_api_method HTTP_METHOD_GET "GET"; mk_api_method HTTP_METHOD_OPTIONS "OPTIONS" ].
Definition api_endpoints : list endpoint_spec := [ mk_endpoint "/" (Z.lor HTTP_METHOD_POST HTTP_METHOD_OPTIONS) ].

Section api.
Context {S : Type} `{Stream S} (lit : string → Z).
Context (frexpf : fp → fp * Z) (modff : fp → fp * fp) (expf : fp → fp).
Context (hl : http_locals) (timeout : Z) (al : api_locals).

Definition HTTPSrvApi_GetMethodSpec (method name : Z) : prog S (option method_spec) :=
  lut_find (λ l, if given method && (method =? ms_method l) then mret true
                 else if given name then r ← reads (λ m, strcicmp m (lit (ms_name l)) name); mret (r =? 0)
                 else mret false) api_methods.

Definition HTTPSrvApi_GetEnpointSpec (url : Z) : prog S (option endpoint_spec) :=
  lut_find (λ l, r ← reads (λ m, strcmp m (lit (es_url l)) url); mret (r =? 0)) api_endpoints.

(** All fields, whatever their reading returns ([all]) or until it fails. *)
Fixpoint consume_fields (fuel : nat) (all : bool) (req : uhttp_request) (field : uhttp_field) : prog S uhttp_request :=
  match fuel with
  | O => fault OutOfFuel
  | Datatypes.S fuel' =>
      if negb (rq_state req =? HTTP_STATE_READ_FIELDS) then mret req
      else
        '(ec, req, field) ← UHTTPSrv_ReadHeaderField lit hl timeout req field;
        if all || (EOK <=? ec) then consume_fields fuel' all req field else mret req
  end.

(** There is no command interface yet, so that [ec] is an error. *)
Definition HTTPSrvApi_ProcessPost (fuel : nat) (req : uhttp_request) : prog S (Z * uhttp_request) :=
  req ← consume_fields fuel true req no_field;
  '(data_len, req) ← UHTTPSrv_ReadBody hl timeout req (al_data al) 256;
  if data_len <? EOK then mret (HTTP_STATUS_400_BAD_REQUEST, req)
  else
    let ec := EFATAL in
    if ec <? EOK then mret (HTTP_STATUS_400_BAD_REQUEST, req)
    else
      '(_, req) ← UHTTPSrv_SendStatus lit frexpf modff expf hl timeout req HTTP_STATUS_200_OK ec;
      '(_, req) ← UHTTPSrv_EndHeader lit timeout req;
      '(_, req) ← UHTTPSrc_SendBody timeout req (al_data al) ec;
      mret (EOK, req).

(** The names of the methods [em] from the bit [m] on. *)
Fixpoint methods_loop (fuel : nat) (m em offs : Z) : prog S Z :=
  match fuel with
  | O => fault OutOfFuel
  | Datatypes.S fuel' =>
      if em =? 0 then mret offs
      else if Z.land em m =? 0 then methods_loop fuel' (u32 (Z.shiftl m 1)) em offs
      else
        let em := Z.land em (Z.lnot m) in
        l ← HTTPSrvApi_GetMethodSpec m 0;
        match l with
        | None => fault NullDeref
        | Some l =>
            n ← print_http lit frexpf modff expf (al_methods_str al + offs) (u32 (64 - offs - 1)) "%s%s"
                  [VPtr (lit (ms_name l)); VPtr (lit (if em =? 0 then "" else ", "))];
            methods_loop fuel' (u32 (Z.shiftl m 1)) em (offs + n)
        end
  end.

Definition HTTPSrvApi_ProcessOptions (fuel : nat) (req : uhttp_request) (es : endpoint_spec) : prog S (Z * uhttp_request) :=
  req ← consume_fields fuel false req no_field;
  '(_, req) ← UHTTPSrv_SendStatus lit frexpf modff expf hl timeout req HTTP_STATUS_200_OK 0;
  writes (λ m, store_bytes m (al_methods_str al) (replicate 64 0));;
  _ ← methods_loop 32 1 (es_methods es) 0;
  '(_, req) ← UHTTPSrv_SendHeaderField lit frexpf modff expf hl timeout req
                HTTP_FIELD_NAME_ACCESS_CONTROL_ALLOW_METHODS (VPtr (al_methods_str al));
  '(_, req) ← UHTTPSrv_SendHeaderField lit frexpf modff expf hl timeout req
                HTTP_FIELD_NAME_ACCESS_CONTROL_ALLOW_HEADERS (VPtr (lit "content-type"));
  '(_, req) ← UHTTPSrv_EndHeader lit timeout req;
  mret (HTTP_STATUS_UNKNOWN, req).

(** The label [send_status]. *)
Definition send_status (fuel : nat) (req : uhttp_request) (sc : Z) : prog S (Z * uhttp_request) :=
  req ← consume_fields fuel true req no_field;
  req ← (if rq_state req =? HTTP_STATE_READ_BODY
         then '(_, req) ← UHTTPSrv_ReadBody hl timeout req 0 (u32 (-1)); mret req else mret req);
  '(_, req) ← UHTTPSrv_SendStatus lit frexpf modff expf hl timeout req sc 0;
  '(_, req) ← UHTTPSrv_EndHeader lit timeout req;
  mret (EOK, req).

Definition HTTPSrvApi_ProcessRequest (fuel : nat) (req : uhttp_request) : prog S (Z * uhttp_request) :=
  es ← HTTPSrvApi_GetEnpointSpec (hl_url hl);
  match es with
  | None => send_status fuel req HTTP_STATUS_404_NOT_FOUND
  | Some es =>
      if Z.land (es_methods es) (rq_method req) =? 0 then send_status fuel req HTTP_STATUS_405_METHOD_NOT_ALLOWED
      else if rq_method req =? HTTP_METHOD_OPTIONS then
        '(sc, req) ← HTTPSrvApi_ProcessOptions fuel req es;
        if sc =? HTTP_STATUS_UNKNOWN then mret (EOK, req) else send_status fuel req sc
      else if rq_method req =? HTTP_METHOD_POST then
        '(sc, req) ← HTTPSrvApi_ProcessPost fuel req;
        if sc =? HTTP_STATUS_UNKNOWN then mret (EOK, req) else send_status fuel req sc
      else mret (EFATAL, req)
  end.
End api.

(** ** What a client is sent *)

Definition site_strings : list string :=
  ["/"; "/index.html"; "close"; "gzip"; mime_def; "text/html"; "text/javascript"; "text/css"; "image/svg+xml"; "image/jpeg";
   "image/png"; ".htm"; ".html"; ".js"; ".css"; ".svg"; ".jpg"; ".jpeg"; ".png"; "%s%s"; ""; ", "]%string.

Definition mime_of (ext : list Z) : string :=
  from_option me_type mime_def (List.find (λ e, bool_decide (chars (me_ext e) = ext)) mime_lut).
Definition is_gzip (c : list Z) : bool := bool_decide (take 3 c = [0x1f; 0x8b; 0x08]%Z).

(** The header of a file. *)
Definition file_head (c : list Z) (mime : string) : list Z :=
  response_head (mk_http_status HTTP_STATUS_200_OK 200 "OK") (length c) ++
  http_line "access-control-allow-origin" (chars "*") ++ http_line "connection" (chars "close") ++
  (if is_gzip c then http_line "content-encoding" (chars "gzip") else []) ++
  http_line "content-type" (chars mime) ++ chars crlf.

Lemma on_snd_Ok {R S A} (p : prog S A) (t : R) s a s' : p s = Ok (a, s') → on_snd p (t, s) = Ok (a, (t, s')).
Proof. intros E. unfold on_snd. by rewrite E. Qed.

Ltac go E := rewrite (prog_bind_Ok _ _ _ _ _ E); clear E; cbv beta iota.

(** What was sent since [s]. *)
Definition says (out : list Z) (s s' : script) : Prop := sc_tx s' = sc_tx s ++ out ∧ sc_rx s' = sc_rx s.
Lemma says_nil s : says [] s s.
Proof. split; [by rewrite app_nil_r|done]. Qed.
Lemma says_app o1 o2 s1 s2 s3 : says o1 s1 s2 → says o2 s2 s3 → says (o1 ++ o2) s1 s3.
Proof. intros [H1 H2] [H3 H4]. split; [by rewrite H3, H1, app_assoc|by rewrite H4]. Qed.

Section serve.
Context (lit : string → Z) (frexpf : fp → fp * Z) (modff : fp → fp * fp) (expf : fp → fp).
Context (hl : http_locals) (timeout task_id : Z) (sl : site_locals).
Context (ls : list file_layout) (fdas : list (list nat)).

(** Apart from the arrays that are printed into. *)
Definition off_prints (a n : Z) : Prop :=
  CString.apart (hl_response hl) 32 a n ∧ CString.apart (hl_field hl) 256 a n.

Record site_memory (url : list Z) (m : mem) : Prop := {
  sm_http : http_memory lit hl m;
  sm_lits : Forall (λ x, cstr m (lit x) (chars x)) site_strings;
  sm_url : cstr m (hl_url hl) url;
  sm_lits_clear : Forall (λ x, off_prints (lit x) (length (chars x) + 1)) site_strings;
  sm_lits_fbuf : Forall (λ x, CString.apart (sl_fbuf sl) 1024 (lit x) (length (chars x) + 1)) (http_strings ++ site_strings);
  sm_url_clear : off_prints (hl_url hl) (length url + 1);
  sm_url_fbuf : CString.apart (sl_fbuf sl) 1024 (hl_url hl) (length url + 1);
  sm_names : hl_url hl ≠ 0 ∧ lit "/index.html" ≠ 0 }.

(** The files and their names in memory, apart from the arrays. *)
Record files_beside : Prop := {
  fb_layout : layout_ok ls (sl_fbuf sl) 1024;
  fb_order : Forall (λ i, (i < length ls)%nat) (concat fdas);
  fb_fbuf : off_prints (sl_fbuf sl) 1024;
  fb_names : ∀ i l, ls !! i = Some l → off_prints (l_name_at l) (length (l_name l) + 1);
  fb_data : ∀ i l, ls !! i = Some l → off_prints (l_ptr l) (l_cap l) }.

Context (Hbeside : files_beside).

Record serving (url : list Z) (t : site) (s : script) (a : afs) : Prop := {
  sv_mem : site_memory url (sc_mem s);
  sv_open : sc_closed s = false;
  sv_files : represents ls fdas (sl_fbuf sl) 1024 (set_fmem (sc_mem s) (si_ffs t)) a }.

(** *** What printing and reading leave alone *)

Lemma printed_cstr m m' a l : only_printed hl m m' → off_prints a (length l + 1) → cstr m a l → cstr m' a l.
Proof.
  intros Ho [H1 H2] [Hb Hc]. split; [|done]. eapply only_printed_bytes; [exact Ho|..|exact Hb];
    rewrite length_app; cbn [length]; unfold CString.apart in *; lia.
Qed.

Lemma site_memory_printed url m m' : site_memory url m → only_printed hl m m' → site_memory url m'.
Proof.
  intros [H1 H2 H3 H4 H5 H6 H7 H8] Ho. split; try done.
  - by eapply http_memory_printed.
  - rewrite Forall_forall in H2, H4 |- *. intros x Hx. eapply printed_cstr; [done|by apply H4|by apply H2].
  - by eapply printed_cstr.
Qed.

Lemma represents_printed fs m m' a :
  represents ls fdas (sl_fbuf sl) 1024 (set_fmem m fs) a → only_printed hl m m' →
  represents ls fdas (sl_fbuf sl) 1024 (set_fmem m' fs) a.
Proof.
  intros [R1 R2 R3 R4 R5 R6 R7] Ho. split; try done.
  - by eapply only_two_mapped.
  - intros i l c Hl Hc. destruct (R6 i l c Hl Hc) as (H1 & H2 & H3 & H4 & H5). cbn in *.
    split; [by eapply printed_cstr, H1; [done|eapply fb_names]|]. split; [|split; [by eapply only_two_mapped|done]].
    destruct (fb_data Hbeside i l Hl) as [C1 C2]. unfold CString.apart in *.
    eapply only_printed_bytes; [done|..|exact H2]; unfold CString.apart; lia.
Qed.

Lemma serving_sent url t s a m' out :
  serving url t s a → only_printed hl (sc_mem s) m' → serving url t (sent m' out s) a.
Proof.
  intros [H1 H2 H3] Ho. split; [by eapply site_memory_printed|done|by eapply represents_printed].
Qed.

Lemma site_memory_read url m l : site_memory url m → (length l ≤ 1024)%nat → site_memory url (put_bytes m (sl_fbuf sl) l).
Proof.
  intros [[H1 H2 H3 H4] H5 H6 H7 H8 H9 H10 H11] Hl.
  assert (∀ x, x ∈ http_strings ++ site_strings → cstr m (lit x) (chars x) → cstr (put_bytes m (sl_fbuf sl) l) (lit x) (chars x)) as Hlit.
  { intros x Hx Hc. rewrite Forall_forall in H8. specialize (H8 x Hx). apply cstr_frame; [done|]. unfold CString.apart in *. lia. }
  split; try done; [split; try done| |].
  - rewrite Forall_forall in H1 |- *. intros x Hx. apply Hlit; [apply elem_of_app; by left|by apply H1].
  - by apply put_bytes_mapped.
  - by apply put_bytes_mapped.
  - rewrite Forall_forall in H5 |- *. intros x Hx. apply Hlit; [apply elem_of_app; by right|by apply H5].
  - apply cstr_frame; [done|]. unfold CString.apart in *. lia.
Qed.


(** *** Steps *)

Lemma site_literal url m x : site_memory url m → x ∈ site_strings → cstr m (lit x) (chars x).
Proof. intros H Hx. pose proof (sm_lits _ _ H) as Hl. rewrite Forall_forall in Hl. by apply Hl. Qed.

Lemma status_sent url t s a req n :
  serving url t s a → rq_state req ≠ HTTP_STATE_ERROR →
  ∃ s', site_status lit frexpf modff expf hl timeout req HTTP_STATUS_200_OK n (t, s) =
      Ok ((EOK, upd_state HTTP_STATE_SEND_FIELDS (upd_resp_bleft n req)), (t, s')) ∧
    serving url t s' a ∧ says (response_head (mk_http_status HTTP_STATUS_200_OK 200 "OK") n) s s'.
Proof.
  intros Hs Hst.
  destruct (send_status_parts lit frexpf modff expf hl timeout (mk_http_status HTTP_STATUS_200_OK 200 "OK") n req s)
    as (m' & E & Ho); try done; [apply (sv_open _ _ _ _ Hs)|apply (sm_http _ _ (sv_mem _ _ _ _ Hs))|by left|].
  eexists. split; [exact (on_snd_Ok _ t _ _ _ E)|]. split; [by apply serving_sent|by split].
Qed.

Lemma field_sent url t s a req name str p value :
  serving url t s a → rq_state req = HTTP_STATE_SEND_FIELDS → name ≠ 0 →
  List.find (λ l, hf_name l =? name) field_specs = Some (mk_http_field name HTTP_FIELD_TYPE_STR str) → str ∈ http_strings →
  cstr (sc_mem s) p value → CString.apart (hl_field hl) 256 p (length value + 1) → (length (http_line str value) ≤ 255)%nat →
  ∃ s', site_field lit frexpf modff expf hl timeout req name p (t, s) = Ok ((EOK, req), (t, s')) ∧
    serving url t s' a ∧ says (http_line str value) s s'.
Proof.
  intros Hs Hst Hn Hf Hstr Hp Ha Hl.
  destruct (send_text_ok lit frexpf modff expf hl timeout req s name str p value) as (m' & E & Ho); try done;
    [apply (sv_open _ _ _ _ Hs)|apply (sm_http _ _ (sv_mem _ _ _ _ Hs))|].
  eexists. split; [exact (on_snd_Ok _ t _ _ _ E)|]. split; [by apply serving_sent|by split].
Qed.

(** A field with a literal of this file. *)
Lemma literal_sent url t s a req name str x :
  serving url t s a → rq_state req = HTTP_STATE_SEND_FIELDS → name ≠ 0 →
  List.find (λ l, hf_name l =? name) field_specs = Some (mk_http_field name HTTP_FIELD_TYPE_STR str) → str ∈ http_strings →
  x ∈ site_strings → (length (http_line str (chars x)) ≤ 255)%nat →
  ∃ s', site_field lit frexpf modff expf hl timeout req name (lit x) (t, s) = Ok ((EOK, req), (t, s')) ∧
    serving url t s' a ∧ says (http_line str (chars x)) s s'.
Proof.
  intros Hs Hst Hn Hf Hstr Hx Hl. eapply field_sent; try done.
  - eapply site_literal; [apply Hs|done].
  - pose proof (sm_lits_clear _ _ (sv_mem _ _ _ _ Hs)) as Hc. rewrite Forall_forall in Hc. by apply Hc.
Qed.

(** Any origin is allowed: a literal of the HTTP server. *)
Lemma origin_sent url t s a req :
  serving url t s a → rq_state req = HTTP_STATE_SEND_FIELDS →
  ∃ s', site_field lit frexpf modff expf hl timeout req HTTP_FIELD_NAME_ACCESS_CONTROL_ALLOW_ORIGIN (lit "*") (t, s) =
      Ok ((EOK, req), (t, s')) ∧
    serving url t s' a ∧ says (http_line "access-control-allow-origin" (chars "*")) s s'.
Proof.
  intros Hs Hst. pose proof (sm_http _ _ (sv_mem _ _ _ _ Hs)) as Hh. eapply field_sent; try done.
  - literal.
  - eapply http_literal; [done|literal].
  - pose proof (hm_apart _ _ _ Hh) as Ha. rewrite Forall_forall in Ha. apply (Ha "*"%string). literal.
  - by apply (bool_decide_unpack _).
Qed.

Lemma header_ended url t s a req :
  serving url t s a → rq_state req = HTTP_STATE_SEND_FIELDS →
  ∃ s', site_end lit timeout req (t, s) =
      Ok ((EOK, upd_state (if rq_resp_bleft req =? 0 then HTTP_STATE_DONE else HTTP_STATE_SEND_BODY) req), (t, s')) ∧
    serving url t s' a ∧ says (chars crlf) s s'.
Proof.
  intros Hs Hst. eexists. split.
  - apply on_snd_Ok. apply (end_header_sent lit hl timeout); [apply Hs|apply (sm_http _ _ (sv_mem _ _ _ _ Hs))|done].
  - split; [|done]. apply serving_sent; [done|apply only_two_refl].
Qed.

(** The file system at work on the memory of the connection. *)
Lemma on_ffs_Ok {A} (f : ffs → res (ffs * A)) t s fs x :
  f (set_fmem (sc_mem s) (si_ffs t)) = Ok (fs, x) →
  on_ffs (S := script) f (t, s) = Ok (x, (mk_site fs (si_sem t), sc_with (f_mem fs) (sc_rx s) (sc_tx s) s)).
Proof. intros E. unfold on_ffs. cbn [st_mem script_stream]. by rewrite E. Qed.

Lemma set_fmem_same fs : set_fmem (f_mem fs) fs = fs.
Proof. by destruct fs. Qed.

(** An operation that leaves the memory as it is. *)
Lemma serving_ffs url t s a fs a' :
  serving url t s a → f_mem fs = sc_mem s → represents ls fdas (sl_fbuf sl) 1024 fs a' →
  let s' := sc_with (f_mem fs) (sc_rx s) (sc_tx s) s in
  serving url (mk_site fs (si_sem t)) s' a' ∧ says [] s s'.
Proof.
  intros [H1 H2 H3] Hm Hr s'. split; [|by split; cbn; [rewrite app_nil_r|]]. split; cbn; [by rewrite Hm|done|].
  by rewrite set_fmem_same.
Qed.

Lemma file_read url t s a h f i c n :
  serving url t s a → opened a h = Some (f, i, c) → Z.land (fp_mode f) FFS_MODE_R ≠ 0 → 0 ≤ n ≤ 1024 →
  let data := take (Z.to_nat n) (drop (Z.to_nat (fp_position f)) c) in
  ∃ t' s', on_ffs (S := script) (λ fs, FFS_Read fs (Some h) (sl_fbuf sl) n) (t, s) = Ok (Z.of_nat (length data), (t', s')) ∧
    si_sem t' = si_sem t ∧ bytes_at (sc_mem s') (sl_fbuf sl) data ∧
    serving url t' s' (move a h f (fp_position f + length data)) ∧ says [] s s'.
Proof.
  intros Hs Ho Hm Hn data.
  destruct (read_ok ls fdas (sl_fbuf sl) 1024 (fb_layout Hbeside) _ a h n f i c (sv_files _ _ _ _ Hs) Ho Hm Hn)
    as (fs & E & Hmem & R).
  do 2 eexists. split; [exact (on_ffs_Ok _ _ _ _ _ E)|]. split; [done|]. cbn. rewrite Hmem. cbn.
  split; [apply put_bytes_bytes_at|]. split; [|by split; cbn; [rewrite app_nil_r|]]. split; cbn.
  - apply site_memory_read; [apply Hs|]. unfold data. rewrite length_take. lia.
  - apply Hs.
  - rewrite <- (set_fmem_same fs), Hmem in R. exact R.
Qed.


(** *** The blocks of the pool *)

Lemma opened_pool a h f i c : opened a h = Some (f, i, c) → a_pool a !! h = Some f ∧ fp_fd f = Some i ∧ a_files a !! i = Some c.
Proof.
  unfold opened. destruct (a_pool a !! h) as [g|]; [|done]. cbn. destruct (fp_fd g) as [j|] eqn:Ej; [|done]. cbn.
  destruct (a_files a !! j) eqn:Ea; [|done]. cbn. by intros [= -> -> ->].
Qed.

Lemma opened_move a h f i c p :
  opened a h = Some (f, i, c) → opened (move a h f p) h = Some (with_position p f, i, c).
Proof.
  intros H. apply opened_pool in H as (H1 & H2 & H3). unfold opened, move. cbn.
  rewrite list_lookup_insert_eq by (by eapply lookup_lt_Some). cbn. rewrite H2. cbn. by rewrite H3.
Qed.

Lemma move_move a h f p q : move (move a h f p) h (with_position p f) q = move a h f q.
Proof. unfold move. cbn. by rewrite list_insert_insert_eq. Qed.

Lemma move_back a h f i c : opened a h = Some (f, i, c) → move a h f (fp_position f) = a.
Proof.
  intros H. apply opened_pool in H as (H & _). unfold move. destruct a, f. cbn in *. f_equal. by apply list_insert_id.
Qed.

Lemma find_unused_lt pool h : find_unused pool = Some h → (h < length pool)%nat.
Proof.
  revert h. induction pool as [|f pool IH]; intros h; [done|]. cbn. destruct (fp_used f =? 0); [intros [= <-]; lia|].
  intros (k & E & ->)%fmap_Some. apply IH in E. lia.
Qed.

(** *** The parts of the callback *)

(** A block for a file of the list. *)
Definition open_block (i h : nat) (a : afs) : afs :=
  mk_afs (a_files a) (<[h := mk_file 1 task_id (Some i) FFS_MODE_R 0]> (a_pool a)).

Lemma open_block_opened i h a c :
  a_files a !! i = Some c → find_unused (a_pool a) = Some h →
  opened (open_block i h a) h = Some (mk_file 1 task_id (Some i) FFS_MODE_R 0, i, c).
Proof.
  intros Hc Hh%find_unused_lt. unfold opened. cbn. rewrite list_lookup_insert_eq by done. cbn. by rewrite Hc.
Qed.

Lemma file_opened url t s a p name i h l c :
  serving url t s a → cstr (sc_mem s) p name → p ≠ 0 → find_name ls (concat fdas) name = Some i →
  ls !! i = Some l → a_files a !! i = Some c → Z.land FFS_MODE_R (Z.lnot (l_mode l)) = 0 → find_unused (a_pool a) = Some h →
  ∃ t' s', open_file task_id p (t, s) = Ok ((HTTP_STATUS_200_OK, Some h, Z.of_nat (length c)), (t', s')) ∧
    si_sem t' = si_sem t ∧ serving url t' s' (open_block i h a) ∧ says [] s s'.
Proof.
  intros Hs Hp Hp0 Hn Hl Hc Hm Hh.
  pose proof (open_ok ls fdas (sl_fbuf sl) 1024 task_id (fb_order Hbeside) _ a p name FFS_MODE_R (sv_files _ _ _ _ Hs) Hp Hp0) as E.
  unfold spec_open in E. rewrite Hn, Hh, Hl in E. cbn [from_option] in E. rewrite Hm in E. cbn in E.
  destruct E as (fs & h' & E & [= <-] & Hmem & R).
  destruct (serving_ffs url t s a fs _ Hs Hmem R) as [Hs' Hsay].
  destruct (opened_desc _ _ _ _ _ _ _ _ _ _ R (open_block_opened i h a c Hc Hh)) as (l' & Hf & Hd & _).
  unfold open_file. rewrite (prog_bind_Ok _ _ _ _ _ (on_ffs_Ok (λ fs, FFS_Open task_id fs p FFS_MODE_R) t s fs (Some h) E)). clear E.
  set (s1 := sc_with _ _ _ _) in *. do 2 eexists. split.
  - etrans; [apply prog_bind_Ok, (on_ffs_Ok _ _ s1 fs (EOK, Some (Z.of_nat (length c))))|reflexivity]. cbn [st_mem].
    unfold FFS_Size. change (set_fmem _ _) with (set_fmem (f_mem fs) fs). rewrite set_fmem_same, Hf, bind_Ok, Hd. done.
  - cbn. split; [done|]. split; [|done]. by destruct Hs'.
Qed.

Lemma encoding_told url t s a h f i c req :
  serving url t s a → opened a h = Some (f, i, c) → fp_position f = 0 → Z.land (fp_mode f) FFS_MODE_R ≠ 0 →
  (3 ≤ length c)%nat → rq_state req = HTTP_STATE_SEND_FIELDS →
  ∃ t' s', content_encoding lit frexpf modff expf hl timeout sl (Some h) req (t, s) = Ok (req, (t', s')) ∧
    si_sem t' = si_sem t ∧ serving url t' s' a ∧
    says (if is_gzip c then http_line "content-encoding" (chars "gzip") else []) s s'.
Proof.
  intros Hs Ho Hpos Hm Hlen Hst.
  destruct (file_read url t s a h f i c 3 Hs Ho Hm ltac:(lia)) as (t1 & s1 & E & Hsem1 & Hb & Hs1 & Say1).
  rewrite Hpos in E, Hb, Hs1. change (drop (Z.to_nat 0) c) with c in *. change (Z.to_nat 3) with 3%nat in *.
  assert (length (take 3 c) = 3%nat) as Ht by (rewrite length_take; lia). rewrite Ht in E, Hs1.
  unfold content_encoding. go E. change (negb (Z.of_nat 3 =? 3)) with false. cbv iota.
  assert (site_reads (λ m, load_bytes m (sl_fbuf sl) 3) (t1, s1) = Ok (take 3 c, (t1, s1))) as E.
  { apply on_snd_Ok. unfold reads. cbn [st_mem script_stream]. rewrite <- Ht at 1. by rewrite (load_bytes_ok _ _ _ Hb). }
  go E. change (bool_decide (take 3 c = [0x1f; 0x8b; 0x08]%Z)) with (is_gzip c).
  set (out := if is_gzip c then _ else []). set (a1 := move _ _ _ _) in *.
  assert (∃ s2, ((if is_gzip c then site_field lit frexpf modff expf hl timeout req HTTP_FIELD_NAME_CONTENT_ENCODING (lit "gzip")
      else mret (EOK, req)) : site_prog (Z * uhttp_request)) (t1, s1) = Ok ((EOK, req), (t1, s2)) ∧ serving url t1 s2 a1 ∧ says out s1 s2)
    as (s2 & E & Hs2 & Say2).
  { unfold out. destruct (is_gzip c); [|by exists s1; split; [|split; [|apply says_nil]]].
    apply literal_sent; try done; [literal|literal|by apply (bool_decide_unpack _)]. }
  go E.
  destruct (seek_ok ls fdas (sl_fbuf sl) 1024 (set_fmem (sc_mem s2) (si_ffs t1)) a1 h _ i c 0 FFS_SEEK_SET 0
    (sv_files _ _ _ _ Hs2) (opened_move _ _ _ _ _ _ Ho) ltac:(word_lia) eq_refl) as (fs & E & Hmem & R).
  destruct (Z.ltb_spec (length c) 0); [lia|].
  rewrite (prog_bind_Ok _ _ _ _ _ (on_ffs_Ok _ _ _ _ _ E)). unfold a1 in R. rewrite move_move in R.
  rewrite <- Hpos, (move_back _ _ _ _ _ Ho) in R.
  destruct (serving_ffs url t1 s2 _ fs _ Hs2 Hmem R) as [Hs3 Say3].
  do 2 eexists. split; [reflexivity|]. split; [done|]. split; [done|].
  pose proof (says_app _ _ _ _ _ (says_app _ _ _ _ _ Say1 Say2) Say3) as Say. cbn [app] in Say. by rewrite app_nil_r in Say.
Qed.


(** The way back from the end of a text to its last dot. *)
Lemma last_dot_ok m p rest : ∀ fuel,
  bytes_at m p (chr "." :: rest) → chr "." ∉ rest → (length rest < fuel)%nat →
  last_dot m (p + length rest) fuel = Ok p.
Proof.
  induction rest as [|x rest IH] using rev_ind; intros fuel Hb Hn Hf; (destruct fuel as [|fuel]; [cbn in Hf; lia|]).
  - cbn [length]. rewrite Z.add_0_r. cbn [last_dot]. rewrite (load8_bytes _ _ _ _ Hb), bind_Ok. by rewrite Z.eqb_refl.
  - rewrite length_app in Hf |- *. cbn [length] in *. change (chr "." :: rest ++ [x]) with ((chr "." :: rest) ++ [x]) in Hb.
    apply bytes_at_app in Hb as [Hb [Hx _]]. cbn [length] in Hx. apply not_elem_of_app in Hn as [Hn Hnx].
    rewrite list_elem_of_singleton in Hnx. cbn [last_dot].
    replace (p + (length rest + 1)%nat) with (p + S (length rest)) by lia. unfold load8 at 1. rewrite Hx, bind_Ok.
    destruct (Z.eqb_spec x (chr ".")); [congruence|].
    replace (p + S (length rest) - 1) with (p + length rest) by lia. apply IH; [done|done|lia].
Qed.

Lemma mime_found url t s a p base rest :
  serving url t s a → cstr (sc_mem s) p (base ++ chr "." :: rest) → p ≠ 0 → chr "." ∉ rest →
  HTTPSrvWebsite_GetMimeTypeForFileExt lit p (t, s) = Ok (lit (mime_of (chr "." :: rest)), (t, s)).
Proof.
  intros Hs Hp Hp0 Hn. apply on_snd_Ok. destruct (Z.eqb_spec p 0); [done|].
  assert (∃ c, load8 (sc_mem s) p = Ok c ∧ (c =? 0) = false) as (c0 & Hc0 & Hnz).
  { destruct base as [|b base]; apply cstr_cons in Hp as (H1 & H2 & _); eexists; (split; [exact H1|lia]). }
  rewrite bind_assoc, (bind_reads _ _ _ c0) by done. rewrite (prog_bind_Ok _ _ s false s) by (by rewrite <- Hnz).
  set (name := base ++ chr "." :: rest) in *. rewrite (bind_reads _ _ _ _ (strlen_ok _ _ _ Hp)).
  assert (cstr (sc_mem s) (p + length base) (chr "." :: rest)) as He.
  { destruct Hp as [Hb Hf]. unfold name in Hb, Hf. rewrite <- app_assoc in Hb. apply bytes_at_app in Hb as [_ Hb].
    apply Forall_app in Hf as [_ Hf]. by split. }
  rewrite (bind_reads _ _ _ (p + length base)); cycle 1.
  { replace (p + length name) with (p + length base + length (rest ++ [0])%Z)
      by (unfold name; rewrite !length_app; cbn [length]; lia).
    pose proof (cstr_length _ _ _ He) as Hsz. cbn [length] in Hsz. apply last_dot_ok; [apply He| |rewrite length_app; cbn [length st_mem script_stream]; lia].
    apply not_elem_of_app. split; [done|]. by rewrite list_elem_of_singleton. }
  assert (Hlut : ∀ lut, Forall (λ e, me_ext e ∈ site_strings) lut →
    lut_find (λ l, r ← reads (λ m, strcmp m (p + length base) (lit (me_ext l))); mret (r =? 0)) lut s =
    Ok (List.find (λ e, bool_decide (chars (me_ext e) = chr "." :: rest)) lut, s)).
  { induction 1 as [|e lut He' Hl IH]; [done|]. cbn [lut_find List.find].
    pose proof (site_literal _ _ _ (sv_mem _ _ _ _ Hs) He') as Hx.
    rewrite bind_assoc, (bind_reads _ _ _ (str_diff (chr "." :: rest) (chars (me_ext e)))); cycle 1.
    { unfold strcmp. pose proof (cstr_length _ _ _ He). apply strcmp_loop_ok; [done|done|cbn [st_mem script_stream]; lia]. }
    replace (str_diff (chr "." :: rest) (chars (me_ext e)) =? 0) with (bool_decide (chars (me_ext e) = chr "." :: rest)).
    { case_bool_decide; [done|apply IH]. }
    pose proof (str_diff_zero (chr "." :: rest) (chars (me_ext e))
      ltac:(eapply Forall_impl; [apply He|]; cbv beta; lia) ltac:(eapply Forall_impl; [apply Hx|]; cbv beta; lia)) as Hz.
    case_bool_decide; symmetry; [apply Z.eqb_eq|apply Z.eqb_neq]; rewrite Hz; congruence. }
  rewrite (prog_bind_Ok _ _ _ _ _ (Hlut mime_lut ltac:(repeat constructor; literal))). reflexivity.
Qed.

(** The body is the rest of the file, in parts. *)
Lemma file_sent fuel : ∀ url t s a h f i c req n,
  serving url t s a → opened a h = Some (f, i, c) → Z.land (fp_mode f) FFS_MODE_R ≠ 0 →
  0 ≤ fp_position f → fp_position f + n = length c → 0 ≤ n → length c < 2147483648 →
  rq_resp_bleft req = n → rq_state req = (if n =? 0 then HTTP_STATE_DONE else HTTP_STATE_SEND_BODY) →
  n ≤ 1024 * (Z.of_nat fuel - 1) →
  ∃ t' s' req', file_loop timeout sl fuel (Some h) req n (t, s) = Ok ((true, req'), (t', s')) ∧
    rq_state req' = HTTP_STATE_DONE ∧ si_sem t' = si_sem t ∧ serving url t' s' (move a h f (length c)) ∧
    says (drop (Z.to_nat (fp_position f)) c) s s'.
Proof.
  induction fuel as [|fuel IH]; intros url t s a h f i c req n Hs Ho Hm Hp Hn Hn0 Hc Hr Hst Hf; [lia|].
  cbn [file_loop]. destruct (Z.eqb_spec n 0) as [Hz|Hz].
  { exists t, s, req. split; [done|]. split; [done|]. split; [done|]. rewrite drop_ge by lia. split; [|apply says_nil].
    replace (Z.of_nat (length c)) with (fp_position f) by lia. by rewrite (move_back _ _ _ _ _ Ho). }
  destruct (file_read url t s a h f i c 1024 Hs Ho Hm ltac:(lia)) as (t1 & s1 & E & Hsem1 & Hb & Hs1 & Say1).
  set (data := take (Z.to_nat 1024) _) in *.
  assert (Z.of_nat (length data) = Z.min 1024 n) as Hk by (unfold data; rewrite length_take, length_drop; lia).
  go E. destruct (Z.leb_spec (length data) 0); [lia|].
  pose proof (send_body_sent timeout req (sl_fbuf sl) data s1 (sv_open _ _ _ _ Hs1) Hb Hst
    ltac:(destruct data; [cbn in *; lia|done]) ltac:(lia) ltac:(word_lia)) as E.
  unfold site_body. rewrite (prog_bind_Ok _ _ _ _ _ (on_snd_Ok _ t1 _ _ _ E)). clear E. cbv beta iota zeta.
  destruct (Z.ltb_spec (length data) EOK); [unfold EOK in *; lia|].
  assert (serving url t1 (sent (sc_mem s1) data s1) (move a h f (fp_position f + length data))) as Hs2
    by (apply serving_sent; [done|apply only_two_refl]).
  set (req1 := if _ =? 0 then upd_state _ _ else _).
  destruct (IH url t1 _ _ h (with_position (fp_position f + length data) f) i c req1 (n - length data) Hs2
    (opened_move _ _ _ _ _ _ Ho)) as (t' & s' & req' & E & Hd & Hsem & Hs' & Say).
  - done.
  - cbn. lia.
  - cbn. lia.
  - lia.
  - done.
  - unfold req1. destruct (_ =? 0); cbn; lia.
  - unfold req1. cbn [rq_resp_bleft upd_resp_bleft]. rewrite Hr. destruct (n - length data =? 0); [done|exact Hst].
  - lia.
  - exists t', s', req'. split.
    { rewrite u32_small by word_lia. exact E. }
    split; [done|]. split; [congruence|]. rewrite move_move in Hs'. split; [done|]. cbn in Say.
    replace (drop (Z.to_nat (fp_position f)) c) with ([] ++ data ++ drop (Z.to_nat (fp_position f + length data)) c).
    { eapply says_app; [exact Say1|]. eapply says_app; [|exact Say]. by split. }
    assert (drop (Z.to_nat (fp_position f + length data)) c = drop (Z.to_nat 1024) (drop (Z.to_nat (fp_position f)) c)) as ->.
    { rewrite drop_drop. destruct (decide (n ≤ 1024)); [|f_equal; lia].
      rewrite (drop_ge c (Z.to_nat (fp_position f + length data))) by lia. symmetry. apply drop_ge. lia. }
    apply take_drop.
Qed.


Lemma serving_lock url t s a v : serving url t s a → serving url (mk_site (si_ffs t) v) s a.
Proof. intros [H1 H2 H3]. by split. Qed.

Lemma with_fbuf_ok {A} (p : site_prog (S := script) A) t s r t' s' :
  si_sem t = 0 → p (mk_site (si_ffs t) task_id, s) = Ok (r, (t', s')) →
  with_fbuf task_id p (t, s) = Ok (r, (mk_site (si_ffs t') 0, s')).
Proof.
  intros Hsem E. unfold with_fbuf, get_fst, put_fst, lock, mbind, prog_bind. cbv beta iota. rewrite Hsem. cbn. by rewrite E.
Qed.

(** The name that stands for a URL, and where it is. *)
Definition name_of (url : list Z) : list Z := if bool_decide (url = chars "/") then chars "/index.html" else url.
Definition name_at (url : list Z) : Z := if bool_decide (url = chars "/") then lit "/index.html" else hl_url hl.

Lemma name_held url m : site_memory url m → cstr m (name_at url) (name_of url) ∧ name_at url ≠ 0.
Proof.
  intros H. unfold name_at, name_of. destruct (sm_names _ _ H). case_bool_decide; (split; [|done]); [|by apply H].
  eapply site_literal; [done|literal].
Qed.

Lemma url_compared url t s a {B} (k : Z → site_prog (S := script) B) :
  serving url t s a →
  ∃ d, site_reads (λ m, strcmp m (lit "/") (hl_url hl)) (t, s) = Ok (d, (t, s)) ∧
    (if d =? 0 then lit "/index.html" else hl_url hl) = name_at url.
Proof.
  intros Hs. pose proof (sv_mem _ _ _ _ Hs) as Hm. pose proof (site_literal _ _ "/" Hm ltac:(literal)) as Hx.
  pose proof (sm_url _ _ Hm) as Hu. exists (str_diff (chars "/") url). split.
  - apply on_snd_Ok. unfold reads. cbn [st_mem script_stream]. unfold strcmp.
    rewrite (strcmp_loop_ok (chars "/") _ _ _ _ url); [done|done|done|]. pose proof (cstr_length _ _ _ Hx). lia.
  - unfold name_at. pose proof (str_diff_zero (chars "/") url
      ltac:(eapply Forall_impl; [apply Hx|]; cbv beta; lia) ltac:(eapply Forall_impl; [apply Hu|]; cbv beta; lia)) as Hz.
    destruct (Z.eqb_spec (str_diff (chars "/") url) 0) as [E|E]; case_bool_decide as E'; try done; exfalso.
    + apply E'. symmetry. by apply Hz.
    + apply E, Hz. by symmetry.
Qed.

(** The file of a URL, sent. *)
Lemma callback_files_ok fuel url t s a req i h l c base rest :
  serving url t s a → si_sem t = 0 → rq_state req = HTTP_STATE_SEND_STATUS →
  name_of url = base ++ chr "." :: rest → chr "." ∉ rest →
  find_name ls (concat fdas) (name_of url) = Some i → ls !! i = Some l → a_files a !! i = Some c →
  Z.land FFS_MODE_R (Z.lnot (l_mode l)) = 0 → find_unused (a_pool a) = Some h →
  3 ≤ length c < 2147483648 → length c ≤ 1024 * (Z.of_nat fuel - 1) →
  ∃ t' s' req',
    HTTPSrvWebsite_CallbackFiles lit frexpf modff expf hl timeout task_id sl fuel req (t, s) = Ok ((EOK, req'), (t', s')) ∧
    rq_state req' = HTTP_STATE_DONE ∧ si_sem t' = 0 ∧
    serving url t' s' (mk_afs (a_files a) (<[h := mk_file 0 task_id (Some i) FFS_MODE_R (length c)]> (a_pool a))) ∧
    says (file_head c (mime_of (chr "." :: rest)) ++ c) s s'.
Proof.
  intros Hs Hsem Hst Hname Hrest Hfind Hl Hc Hmode Hh Hlen Hfuel.
  destruct (url_compared url t s a (λ _, mret ()) Hs) as (d & E & Hp).
  destruct (name_held url _ (sv_mem _ _ _ _ Hs)) as [Hheld Hp0].
  unfold HTTPSrvWebsite_CallbackFiles. go E. rewrite Hp. clear Hp d.
  destruct (file_opened url t s a _ _ i h l c Hs Hheld Hp0 Hfind Hl Hc Hmode Hh) as (t1 & s1 & E & Hsem1 & Hs1 & Y1).
  go E. rewrite Z.eqb_refl. cbv zeta.
  pose proof (open_block_opened i h a c Hc Hh) as Ho.
  destruct (status_sent url t1 s1 _ req (length c) Hs1 ltac:(by rewrite Hst)) as (s2 & E & Hs2 & Y2). go E.
  set (req1 := upd_state _ (upd_resp_bleft _ req)).
  destruct (origin_sent url t1 s2 _ req1 Hs2 eq_refl) as (s3 & E & Hs3 & Y3). go E.
  destruct (literal_sent url t1 s3 _ req1 HTTP_FIELD_NAME_CONNECTION "connection" "close" Hs3 eq_refl)
    as (s4 & E & Hs4 & Y4); [done|done|literal|literal|by apply (bool_decide_unpack _)|]. go E.
  apply (serving_lock _ _ _ _ task_id) in Hs4.
  destruct (encoding_told url _ s4 _ h _ i c req1 Hs4 Ho eq_refl ltac:(done) ltac:(lia) eq_refl) as (t5 & s5 & E5 & Hsem5 & Hs5 & Y5).
  assert (cstr (sc_mem s5) (name_at url) (base ++ chr "." :: rest)) as Hheld5
    by (rewrite <- Hname; apply (name_held url _ (sv_mem _ _ _ _ Hs5))).
  pose proof (mime_found url t5 s5 _ _ base rest Hs5 Hheld5 Hp0 Hrest) as E6.
  assert (mime_of (chr "." :: rest) ∈ site_strings ∧
    (length (http_line "content-type" (chars (mime_of (chr "." :: rest)))) ≤ 255)%nat) as [Hmime Hmlen].
  { unfold mime_of. destruct (List.find _ mime_lut) as [e|] eqn:Ef; [|split; [literal|by apply (bool_decide_unpack _)]].
    apply List.find_some in Ef as [Hin _]. apply list_elem_of_In in Hin. cbn [from_option].
    unfold mime_lut in Hin. repeat (apply elem_of_cons in Hin as [-> |Hin]; [split; [literal|by apply (bool_decide_unpack _)]|]).
    by apply elem_of_nil in Hin. }
  destruct (literal_sent url t5 s5 _ req1 HTTP_FIELD_NAME_CONTENT_TYPE "content-type" (mime_of (chr "." :: rest)) Hs5 eq_refl)
    as (s7 & E7 & Hs7 & Y7); [done|done|literal|done|done|].
  destruct (header_ended url t5 s7 _ req1 Hs7 eq_refl) as (s8 & E8 & Hs8 & Y8).
  set (req2 := upd_state _ req1) in E8.
  destruct (file_sent fuel url t5 s8 _ h _ i c req2 (length c) Hs8 Ho) as (t9 & s9 & req9 & E9 & Hd9 & Hsem9 & Hs9 & Y9);
    [done|done|done|lia|lia|done|done|done|].
  cbn [fp_position] in Y9. change (Z.to_nat 0) with 0%nat in Y9. rewrite drop_0 in Y9.
  match goal with |- context [with_fbuf task_id ?p] =>
    assert (with_fbuf task_id p (t1, s4) = Ok ((true, req9), (mk_site (si_ffs t9) 0, s9))) as E
      by (apply with_fbuf_ok; [congruence|]; go E5; go E6; go E7; go E8; exact E9)
  end.
  go E. cbn [negb]. apply (serving_lock _ _ _ _ 0) in Hs9. set (t10 := mk_site (si_ffs t9) 0) in *.
  assert (a_pool (move (open_block i h a) h (mk_file 1 task_id (Some i) FFS_MODE_R 0) (length c)) !! h =
    Some (mk_file 1 task_id (Some i) FFS_MODE_R (length c))) as Hpool.
  { unfold move. cbn. rewrite list_lookup_insert_eq; [done|]. rewrite length_insert. by apply find_unused_lt. }
  pose proof (close_ok ls fdas (sl_fbuf sl) 1024 _ _ h _ (sv_files _ _ _ _ Hs9) Hpool) as R.
  set (fs := set_file h _ _) in R.
  assert (FFS_Close (set_fmem (sc_mem s9) (si_ffs t10)) (Some h) = Ok (fs, EOK)) as E.
  { unfold FFS_Close, file_at. rewrite (rp_pool _ _ _ _ _ _ (sv_files _ _ _ _ Hs9)), Hpool. done. }
  rewrite (prog_bind_Ok _ _ _ _ _ (on_ffs_Ok _ t10 s9 fs EOK E)).
  destruct (serving_ffs url t10 s9 _ fs _ Hs9 eq_refl R) as [Hs10 Y10].
  do 3 eexists. split; [reflexivity|]. split; [done|]. split; [done|]. split.
  { unfold move, open_block in Hs10. cbn in Hs10. by rewrite !list_insert_insert_eq in Hs10. }
  pose proof (says_app _ _ _ _ _ (says_app _ _ _ _ _ (says_app _ _ _ _ _ Y1 Y2) (says_app _ _ _ _ _ Y3 Y4))
    (says_app _ _ _ _ _ (says_app _ _ _ _ _ Y5 Y7) (says_app _ _ _ _ _ Y8 (says_app _ _ _ _ _ Y9 Y10)))) as Y.
  rewrite app_nil_r in Y. unfold file_head. rewrite <- !app_assoc in Y. rewrite <- !app_assoc. exact Y.
Qed.
End serve.

(** ** Properties *)

(** C13: A file of three bytes or more reaches the client whole (a shorter one is
    announced but not sent).  For the URL of a file with a suffix that
    may be read, or for "/" and the index, a request whose fields were read is
    answered by the header with the length, the encoding and the type of the file
    and by the bytes of the file, in this order and nothing else; the request is
    done, the buffer is free again, nothing was received, and the files and the
    blocks of the other tasks are what they were. *)
Theorem website_serves_file lit frexpf modff expf hl timeout task_id sl ls fdas fuel url t s a req i h l c base rest :
  files_beside hl sl ls fdas → serving lit hl sl ls fdas url t s a → si_sem t = 0 → rq_state req = HTTP_STATE_SEND_STATUS →
  name_of url = base ++ chr "." :: rest → chr "." ∉ rest →
  find_name ls (concat fdas) (name_of url) = Some i → ls !! i = Some l → a_files a !! i = Some c →
  Z.land FFS_MODE_R (Z.lnot (l_mode l)) = 0 → find_unused (a_pool a) = Some h →
  3 ≤ length c < 2147483648 → length c ≤ 1024 * (Z.of_nat fuel - 1) →
  ∃ t' s' req',
    HTTPSrvWebsite_CallbackFiles lit frexpf modff expf hl timeout task_id sl fuel req (t, s) = Ok ((EOK, req'), (t', s')) ∧
    rq_state req' = HTTP_STATE_DONE ∧ si_sem t' = 0 ∧
    sc_tx s' = sc_tx s ++ file_head c (mime_of (chr "." :: rest)) ++ c ∧ sc_rx s' = sc_rx s ∧
    serving lit hl sl ls fdas url t' s' (mk_afs (a_files a) (<[h := mk_file 0 task_id (Some i) FFS_MODE_R (length c)]> (a_pool a))).
Proof.
  intros Hb Hs Hsem Hst Hname Hrest Hfind Hl Hc Hmode Hh Hlen Hfuel.
  destruct (callback_files_ok lit frexpf modff expf hl timeout task_id sl ls fdas Hb fuel url t s a req i h l c base rest)
    as (t' & s' & req' & E & Hd & Hsem' & Hs' & Htx & Hrx); try done.
  by exists t', s', req'.
Qed.

(** ** Concrete runs

    The literals of this file follow at 4000, names of files at 5000, their data
    at 6000, the arrays at 7000. *)
Definition site_lit (x : string) : Z :=
  let a := http_lit x in if a =? 0 then literal_at site_strings 4000 x else a.
Definition demo_sl : site_locals := mk_site_locals 7000 8100.
Definition demo_al : api_locals := mk_api_locals 8200 8500.

(** Names and data of the files. *)
Definition site_files : list (string * list Z) :=
  [("/index.html", chars "<html>hello</html>"); ("/a.js", chars "go();"); ("/b.gz.css", [0x1f; 0x8b; 0x08; 1; 2]); ("/tiny.png", [5; 6])]%string.
Definition site_layout : list file_layout :=
  imap (λ i '(name, data), mk_layout (5000 + 20 * i) (chars name) FFS_MODE_R (6000 + 50 * i) (length data)) site_files.
Definition site_afs : afs := mk_afs (map snd site_files) fpool_init.
Definition site_mem (url : string) : mem :=
  let m := put_bytes (http_mem []) 4000 (concat (map (λ s, chars s ++ [0]) site_strings)) in
  let m := foldr (λ l m, put_bytes m (l_name_at l) (l_name l ++ [0])) m site_layout in
  let m := foldr (λ '(l, data) m, put_bytes m (l_ptr l) data) m (zip site_layout (a_files site_afs)) in
  put_bytes (put_bytes m 7000 (replicate 1600 0)) 2300 (chars url ++ [0]).
Definition demo_site : site := mk_site (mk_ffs ∅ (zip_with desc_for site_layout (a_files site_afs)) [[0%nat; 1%nat]; [2%nat; 3%nat]] fpool_init) 0.
Definition site_script (url : string) (rx : list (list Z)) : script := mk_script (site_mem url) rx [] 0 false.

Definition demo_website := HTTPSrvWebsite_Callback (S := script) site_lit demo_frexpf demo_modff demo_expf http_hl 1000 7 demo_sl 60.
Definition demo_api := HTTPSrvApi_ProcessRequest (S := script) site_lit demo_frexpf demo_modff demo_expf http_hl 1000 demo_al 60.

(** Code, state, what was sent and the blocks in use. *)
Definition browse (url : string) (method : Z) (rx : list string) : res (Z * Z * string * nat) :=
  '((ec, req), (t, s)) ← demo_website (new_request method 0) (demo_site, site_script url [lines rx]);
  Ok (ec, rq_state req, to_string (sc_tx s), length (filter (λ f, fp_used f ≠ 0) (f_pool (si_ffs t)))).
Definition ask_api (url : string) (method : Z) (rx : list string) : res (Z * Z * string) :=
  '((ec, req), s) ← demo_api (new_request method 0) (site_script url [lines rx]);
  Ok (ec, rq_state req, to_string (sc_tx s)).

(** The script of a file and the header of its response. *)
Example browse_script :
  browse "/a.js" HTTP_METHOD_GET ["Host: x"; "Accept-Encoding: deflate, gzip"; ""]%string =
  Ok (EOK, HTTP_STATE_DONE, to_string (lines
    ["HTTP/1.1 200 OK"; "content-length: 5"; "server: uHTTP"; "connection: keep-alive"; "access-control-allow-origin: *";
     "access-control-allow-origin: *"; "connection: close"; "content-type: text/javascript"; ""]%string ++ chars "go();"), 0%nat).
Proof. vm_compute. reflexivity. Qed.

(** A file of less than three bytes is announced and not sent: the bytes read to
    look for a signature are only put back when there were three. *)
Example tiny_file_lost :
  browse "/tiny.png" HTTP_METHOD_GET [""]%string =
  Ok (EOK, HTTP_STATE_SEND_BODY, to_string (lines
    ["HTTP/1.1 200 OK"; "content-length: 2"; "server: uHTTP"; "connection: keep-alive"; "access-control-allow-origin: *";
     "access-control-allow-origin: *"; "connection: close"; "content-type: image/png"; ""]%string), 0%nat).
Proof. vm_compute. reflexivity. Qed.

(** A URL without a dot is searched for one below its first character, here to the
    end of memory. *)
Example name_without_dot : browse "/nofile" HTTP_METHOD_GET [""]%string = Fault OutOfBounds.
Proof. vm_compute. reflexivity. Qed.

(** A file that is not there is still given a type. *)
Example file_not_found :
  browse "/x.css" HTTP_METHOD_GET [""]%string =
  Ok (EOK, HTTP_STATE_DONE, to_string (lines
    ["HTTP/1.1 404 Not Found"; "content-length: 0"; "server: uHTTP"; "connection: keep-alive"; "access-control-allow-origin: *";
     "access-control-allow-origin: *"; "connection: close"; "content-type: text/css"; ""]%string), 0%nat).
Proof. vm_compute. reflexivity. Qed.

(** The connection is lost after a line that starts with a colon: the loop over
    the fields never ends. *)
Example lost_connection : browse "/a.js" HTTP_METHOD_GET [":"]%string = Fault OutOfFuel.
Proof. vm_compute. reflexivity. Qed.

Example api_options :
  ask_api "/" HTTP_METHOD_OPTIONS ["Host: x"; ""]%string =
  Ok (EOK, HTTP_STATE_DONE, to_string (lines
    ["HTTP/1.1 200 OK"; "content-length: 0"; "server: uHTTP"; "connection: keep-alive"; "access-control-allow-origin: *";
     "access-control-allow-methods: POST, OPTIONS"; "access-control-allow-headers: content-type"; ""]%string)).
Proof. vm_compute. reflexivity. Qed.

(** Every command is refused; one without a body is not even answered. *)
Example api_post_refused :
  ask_api "/" HTTP_METHOD_POST ["Content-Length: 1"; ""; "x"]%string =
  Ok (EOK, HTTP_STATE_DONE, to_string (lines
    ["HTTP/1.1 400 Bad Request"; "content-length: 0"; "server: uHTTP"; "connection: keep-alive"; "access-control-allow-origin: *"; ""]%string)).
Proof. vm_compute. reflexivity. Qed.
Example api_post_unanswered : ask_api "/" HTTP_METHOD_POST [""]%string = Ok (EOK, HTTP_STATE_ERROR, ""%string).
Proof. vm_compute. reflexivity. Qed.

(** *** Witnesses *)

Lemma held m a l : bool_decide (get_bytes m a (length l) = Some l) = true → bytes_at m a l.
Proof. intros H%bool_decide_eq_true. by apply get_bytes_length in H as [_ H]. Qed.
Lemma held_cstr m a l :
  bool_decide (get_bytes m a (length (l ++ [0])) = Some (l ++ [0])) && forallb (λ c, (0 <? c) && (c <? 256)) l = true → cstr m a l.
Proof.
  intros [H1%held H2]%andb_true_iff. split; [done|]. rewrite forallb_forall in H2. apply Forall_forall. intros c Hc.
  specialize (H2 c ltac:(by apply list_elem_of_In)). lia.
Qed.

(** Addresses are in order: literals, the arrays of the server, literals of this
    file, files, buffers. *)
Lemma site_lits_low : Forall (λ x, 0 < site_lit x ∧
    (site_lit x + (length (chars x) + 1) ≤ 2000 ∨ 4000 ≤ site_lit x ∧ site_lit x + (length (chars x) + 1) ≤ 5000)) (http_strings ++ site_strings).
Proof. by apply (bool_decide_unpack _); vm_compute. Qed.

Lemma demo_url_memory : site_memory site_lit http_hl demo_sl (chars "/a.js") (site_mem "/a.js").
Proof.
  pose proof site_lits_low as Hl. rewrite Forall_forall in Hl.
  assert (Forall (λ x, cstr (site_mem "/a.js") (site_lit x) (chars x)) (http_strings ++ site_strings)) as Hc.
  { assert (forallb (λ x, bool_decide (get_bytes (site_mem "/a.js") (site_lit x) (length (chars x ++ [0])) = Some (chars x ++ [0])) &&
      forallb (λ c, (0 <? c) && (c <? 256)) (chars x)) (http_strings ++ site_strings) = true) as H by (vm_compute; reflexivity).
    rewrite forallb_forall in H. apply Forall_forall. intros x Hx. apply held_cstr, H. by apply list_elem_of_In. }
  apply Forall_app in Hc as [Hc1 Hc2]. split; [split| | | | | | |]; try done.
  - apply (bytes_at_mapped _ _ (replicate 32 0xee)), held. by vm_compute.
  - apply (bytes_at_mapped _ _ (replicate 256 0xee)), held. by vm_compute.
  - apply Forall_forall. intros x Hx. specialize (Hl x ltac:(apply elem_of_app; by left)). cbn. unfold CString.apart. lia.
  - apply held_cstr. by vm_compute.
  - apply Forall_forall. intros x Hx. specialize (Hl x ltac:(apply elem_of_app; by right)). unfold off_prints, CString.apart. cbn. lia.
  - apply Forall_forall. intros x Hx. specialize (Hl x Hx). unfold CString.apart. cbn. lia.
  - unfold off_prints, CString.apart. cbn. lia.
  - unfold CString.apart. cbn. lia.
Qed.

Lemma site_files_beside : files_beside http_hl demo_sl site_layout [[0%nat; 1%nat]; [2%nat; 3%nat]].
Proof.
  split.
  - split; try (cbn; lia); unfold CString.apart; intros i; destruct i as [|[|[|[|i]]]]; try done.
    1-12: intros l [= <-]; cbn; lia.
    all: intros j; destruct j as [|[|[|[|j]]]]; try done; intros l k [= <-] [= <-]; cbn; try done; lia.
  - repeat constructor.
  - unfold off_prints, CString.apart. cbn. lia.
  - intros i; destruct i as [|[|[|[|i]]]]; try done; intros l [= <-]; unfold off_prints, CString.apart; cbn; lia.
  - intros i; destruct i as [|[|[|[|i]]]]; try done; intros l [= <-]; unfold off_prints, CString.apart; cbn; lia.
Qed.

Lemma demo_serving :
  serving site_lit http_hl demo_sl site_layout [[0%nat; 1%nat]; [2%nat; 3%nat]] (chars "/a.js") demo_site (site_script "/a.js" []) site_afs.
Proof.
  split; [apply demo_url_memory|done|]. split; try done.
  - apply (bytes_at_mapped _ _ (replicate 1024 0)), held. by vm_compute.
  - intros i; destruct i as [|[|[|[|i]]]]; try done; intros l c [= <-] [= <-];
      (split; [apply held_cstr; by vm_compute|]);
      match goal with |- bytes_at ?m ?p ?l ∧ _ => assert (bytes_at m p l) as Hb by (apply held; by vm_compute) end;
      (split; [exact Hb|]); (split; [exact (bytes_at_mapped _ _ _ Hb)|]); (split; [by repeat constructor|cbn; lia]).
  - intros h f Hf i Hi. apply list_elem_of_lookup_2, elem_of_replicate in Hf as [-> _]. done.
Qed.

Lemma website_serves_file_witness :
  ∃ t' s' req',
    HTTPSrvWebsite_CallbackFiles site_lit demo_frexpf demo_modff demo_expf http_hl 1000 7 demo_sl 2
      (upd_state HTTP_STATE_SEND_STATUS (new_request HTTP_METHOD_GET 0)) (demo_site, site_script "/a.js" []) = Ok ((EOK, req'), (t', s')) ∧
    sc_tx s' = file_head (chars "go();") "text/javascript" ++ chars "go();".
Proof.
  destruct (website_serves_file site_lit demo_frexpf demo_modff demo_expf http_hl 1000 7 demo_sl site_layout
    [[0%nat; 1%nat]; [2%nat; 3%nat]] 2 (chars "/a.js") demo_site (site_script "/a.js" []) site_afs
    (upd_state HTTP_STATE_SEND_STATUS (new_request HTTP_METHOD_GET 0)) 1%nat 0%nat (mk_layout 5020 (chars "/a.js") FFS_MODE_R 6050 5)
    (chars "go();") (chars "/a") (chars "js")) as (t' & s' & req' & E & _ & _ & Htx & _).
  - apply site_files_beside.
  - apply demo_serving.
  - reflexivity.
  - reflexivity.
  - reflexivity.
  - by apply (bool_decide_unpack _).
  - reflexivity.
  - reflexivity.
  - reflexivity.
  - reflexivity.
  - reflexivity.
  - cbn. lia.
  - cbn. lia.
  - exists t', s', req'. split; [exact E|exact Htx].
Defined.
