(* ===== verification/UsbDesc.v ===== *)
(** * USB descriptors (dev/usb_desc.h, dev/src/usb_desc.c)

    What the device tells about itself: the descriptors byte for byte, and a check
    of them against the rules of the USB specification and against the numbers the
    rest of the program relies on. *)
From S2P Require Import Prelude.

(** ** Data *)

Record usb_desc := mk_usb_desc { ud_ptr : Z; ud_size : Z }.
Record usb_descset := mk_descset {
  ds_device : usb_desc; ds_qualifier : usb_desc; ds_configs : list usb_desc; ds_strings : list usb_desc;
  ds_ifaces_num : Z; ds_endpoints_num : Z }.

Definition USB_CTRLEP_SIZE : Z := 64.
Definition USB_VCP_INT_SIZE : Z := 8.
Definition USB_VCP_TX_SIZE : Z := 32.
Definition USB_VCP_RX_SIZE : Z := 32.
Definition USB_EEM_TX_SIZE : Z := 64.
Definition USB_EEM_RX_SIZE : Z := 64.

Definition device_desc : list Z :=
  [0x12; 0x01; 0x00; 0x02; 0xEF; 0x02; 0x01; USB_CTRLEP_SIZE; 0x6B; 0x07; 0x27; 0x54;
   0x00; 0x02; 0x01; 0x02; 0x03; 0x01].
Definition qualifier_desc : list Z :=
  [10; 0x06; 0x00; 0x02; 0xef; 0x02; 0x01; USB_CTRLEP_SIZE; 0x01; 0x00].
Definition config0_desc : list Z :=
  [0x09; 0x02; 0x74; 0x00; 0x03; 0x01; 0x00; 0xC0; 0x32;
   0x08; 0x0B; 0x00; 0x02; 0x02; 0x02; 0x01; 0x00;
   0x09; 0x04; 0x00; 0x00; 0x01; 0x02; 0x02; 0x01; 0x00;
   0x05; 0x24; 0x00; 0x10; 0x01;
   0x05; 0x24; 0x06; 0x00; 0x01;
   0x05; 0x24; 0x01; 0x00; 0x01;
   0x04; 0x24; 0x02; 0x02;
   0x07; 0x05; 0x81; 0x03; Z.land USB_VCP_INT_SIZE 0xff; Z.shiftr USB_VCP_INT_SIZE 8; 0xFF;
   0x09; 0x04; 0x01; 0x00; 0x02; 0x0A; 0x00; 0x00; 0x00;
   0x07; 0x05; 0x82; 0x02; Z.land USB_VCP_TX_SIZE 0xff; Z.shiftr USB_VCP_TX_SIZE 8; 0x00;
   0x07; 0x05; 0x02; 0x02; Z.land USB_VCP_RX_SIZE 0xff; Z.shiftr USB_VCP_RX_SIZE 8; 0x00;
   0x09; 0x04; 0x02; 0x00; 0x02; 0x02; 0x0C; 0x07; 0x00;
   0x05; 0x24; 0x00; 0x10; 0x01;
   0x0D; 0x24; 0x0F; 0x04; 0x00; 0x00; 0x00; 0x00; 0xEA; 0x05; 0x00; 0x00; 0x00;
   0x07; 0x05; 0x83; 0x02; Z.land USB_EEM_TX_SIZE 0xff; Z.shiftr USB_EEM_TX_SIZE 8; 0x00;
   0x07; 0x05; 0x03; 0x02; Z.land USB_EEM_RX_SIZE 0xff; Z.shiftr USB_EEM_RX_SIZE 8; 0x00].
Definition string0_desc : list Z :=
  [12; 0x03; 89; 0; 105; 0; 101; 0; 108; 0; 100; 0].
Definition string1_desc : list Z :=
  [12; 0x03; 89; 0; 105; 0; 101; 0; 108; 0; 100; 0].
Definition string2_desc : list Z :=
  [10; 0x03; 48; 0; 49; 0; 50; 0; 51; 0].
Definition string3_desc : list Z :=
  [36; 0x03; 48; 0; 48; 0; 58; 0; 48; 0; 49; 0; 58; 0; 48; 0; 50; 0;
   58; 0; 48; 0; 51; 0; 58; 0; 48; 0; 49; 0; 58; 0; 54; 0; 52; 0].

(** The addresses of the arrays. *)
Record desc_addrs := mk_desc_addrs {
  da_device : Z; da_qualifier : Z; da_config0 : Z; da_string0 : Z; da_string1 : Z; da_string2 : Z; da_string3 : Z }.

Definition usb_descriptors (da : desc_addrs) : usb_descset :=
  mk_descset (mk_usb_desc (da_device da) (length device_desc)) (mk_usb_desc (da_qualifier da) (length qualifier_desc))
    [mk_usb_desc (da_config0 da) (length config0_desc)]
    [mk_usb_desc (da_string0 da) (length string0_desc); mk_usb_desc (da_string1 da) (length string1_desc);
     mk_usb_desc (da_string2 da) (length string2_desc); mk_usb_desc (da_string3 da) (length string3_desc)]
    3 4.

(** ** The rules

    Every descriptor starts with its length and its type. *)

Fixpoint split_desc (fuel : nat) (l : list Z) : option (list (list Z)) :=
  match fuel, l with
  | _, [] => Some []
  | O, _ => None
  | S fuel, len :: _ =>
      if (2 <=? len) && (len <=? length l) then
        ds ← split_desc fuel (drop (Z.to_nat len) l); Some (take (Z.to_nat len) l :: ds)
      else None
  end.

Definition byte_of (d : list Z) (i : nat) : Z := default 0 (d !! i).
Definition word_of (d : list Z) (i : nat) : Z := byte_of d i + 256 * byte_of d (S i).
Definition desc_type (d : list Z) : Z := byte_of d 1.
Definition DT_CONFIGURATION : Z := 2.
Definition DT_STRING : Z := 3.
Definition DT_INTERFACE : Z := 4.
Definition DT_ENDPOINT : Z := 5.

(** The endpoints up to the next interface. *)
Fixpoint endpoints (ds : list (list Z)) : list (list Z) :=
  match ds with
  | [] => []
  | d :: ds =>
      if desc_type d =? DT_INTERFACE then []
      else if desc_type d =? DT_ENDPOINT then d :: endpoints ds else endpoints ds
  end.

Fixpoint interfaces (ds : list (list Z)) : list (list Z * list (list Z)) :=
  match ds with
  | [] => []
  | d :: ds => if desc_type d =? DT_INTERFACE then (d, endpoints ds) :: interfaces ds else interfaces ds
  end.

Definition ep_address (d : list Z) : Z := byte_of d 2.

(** The first descriptor says how long all of it is and how many interfaces there
    are; interfaces are numbered from 0 and say how many endpoints they have; no two
    endpoints share an address, and those of the program are numbered below
    [endpoints_num]. *)
Definition config_ok (c : list Z) (ifaces_num endpoints_num : Z) : bool :=
  match split_desc (length c) c with
  | Some (d :: ds) =>
      let ifs := interfaces ds in
      let eps := concat (ifs.*2) in
      (desc_type d =? DT_CONFIGURATION) && (word_of d 2 =? length c) && (byte_of d 4 =? length ifs) &&
      (ifaces_num =? length ifs) && bool_decide ((λ i, byte_of i.1 2) <$> ifs = Z.of_nat <$> seq 0 (length ifs)) &&
      forallb (λ i, byte_of i.1 4 =? length i.2) ifs && bool_decide (NoDup (ep_address <$> eps)) &&
      forallb (λ e, (1 <=? Z.land (ep_address e) 0x7F) && (Z.land (ep_address e) 0x7F <? endpoints_num)) eps
  | _ => false
  end.

Definition string_ok (d : list Z) : bool := (byte_of d 0 =? length d) && (desc_type d =? DT_STRING).

(** The strings of a device: manufacturer, product, serial number. *)
Definition device_strings (d : list Z) : list Z := [byte_of d 14; byte_of d 15; byte_of d 16].

Section descriptors.
Context (da : desc_addrs).
Let ds := usb_descriptors da.

(** The descriptors the device answers with are well formed and agree with the
    number of interfaces and endpoints and the packet sizes of the program. *)
Theorem descriptors_wellformed :
  config_ok config0_desc (ds_ifaces_num ds) (ds_endpoints_num ds) = true ∧
  byte_of device_desc 0 = length device_desc ∧ byte_of device_desc 7 = USB_CTRLEP_SIZE ∧
  byte_of device_desc 17 = length (ds_configs ds) ∧
  byte_of qualifier_desc 0 = length qualifier_desc ∧
  Forall (λ d, string_ok d = true) [string0_desc; string1_desc; string2_desc; string3_desc] ∧
  Forall (λ i, is_Some (ds_strings ds !! Z.to_nat i)) (device_strings device_desc) ∧
  Forall is_u8 (device_desc ++ qualifier_desc ++ config0_desc ++ string0_desc ++ string1_desc ++ string2_desc ++ string3_desc).
Proof.
  split; [by vm_compute|]. do 3 (split; [done|]). split; [done|].
  split; [by repeat constructor|]. split; [by repeat (constructor; [by eexists|])|]. repeat (constructor; [vm_compute; by split|]); constructor.
Qed.

(** The Ethernet function names string 4 for its address, and there are strings up
    to 3: the address is string 3. *)
Example mac_string_missing :
  (ds' ← split_desc 116 config0_desc; d ← head (filter (λ d, (desc_type d, byte_of d 2) = (0x24, 0x0F)) ds'); Some (byte_of d 3)) = Some 4 ∧
  ds_strings ds !! 4%nat = None.
Proof. split; [by vm_compute|done]. Qed.

(** String 0 is to be the list of languages, and is the name once more. *)
Example no_languages : string0_desc = string1_desc.
Proof. done. Qed.
End descriptors.
