(* ===== verification/UsbCore.v ===== *)
(** * USB control transfers (dev/src/usb_core.c, the transfers of dev/src/usb.c, dev/src/usb_vcp.c)

    The device side of control transfers: setup packets, data and status stages
    and the standard requests.  The state is endpoint 0 in both directions - the
    transfer records of usb.c -, the static data of usb_core.c, and memory; what
    is written to registers is a list of [usb_hw].  The completion of transfers
    and what the host sends are events.  [usbcore_req_ev] has its subscribers as
    a parameter; the one of the program is the serial port.  The theorems are
    about any sequence of events the hardware may report. *)
From S2P Require Import Prelude Words Stream UsbDesc.

(** ** Data *)

Definition EUSB_RESET : Z := -20.
Definition USB_EP0 : Z := 0.
Definition USB_EP1 : Z := 1.
Definition USB_EPTYPE_CTL : Z := 0.
Definition USB_RX_FIFO_SIZE : Z := 384.
Definition USB_SETUP_REQTYPE_RECIPIENT : Z := 0x1F.
Definition USB_SETUP_REQTYPE_RECIPIENT_DEVICE : Z := 0x00.
Definition USB_SETUP_REQTYPE_RECIPIENT_IFACE : Z := 0x01.
Definition USB_SETUP_REQTYPE_RECIPIENT_EP : Z := 0x02.
Definition USB_SETUP_REQTYPE_TYPE : Z := 0x60.
Definition USB_SETUP_REQTYPE_TYPE_STANDARD : Z := 0x00.
Definition USB_SETUP_REQTYPE_DIR : Z := 0x80.
Definition USB_SETUP_REQ_GET_STATUS : Z := 0x00.
Definition USB_SETUP_REQ_CLEAR_FEATURE : Z := 0x01.
Definition USB_SETUP_REQ_SET_FEATURE : Z := 0x03.
Definition USB_SETUP_REQ_SET_ADDRESS : Z := 0x05.
Definition USB_SETUP_REQ_GET_DESCRIPTOR : Z := 0x06.
Definition USB_SETUP_REQ_GET_CONFIGURATION : Z := 0x08.
Definition USB_SETUP_REQ_SET_CONFIGURATION : Z := 0x09.
Definition USB_SETUP_REQ_GET_INTERFACE : Z := 0x0A.
Definition USB_SETUP_REQ_SET_INTERFACE : Z := 0x0B.
Definition USB_SETUP_DESCTYPE_DEVICE : Z := 0x01.
Definition USB_SETUP_DESCTYPE_CONFIGURATION : Z := 0x02.
Definition USB_SETUP_DESCTYPE_STRING : Z := 0x03.
Definition USB_SETUP_DESCTYPE_QUALIFIER : Z := 0x06.
Definition USB_SETUP_FEATURE_ENDPOINT_HALT : Z := 0x00.
Definition USB_DEV_DEFAULT : Z := 0x00.
Definition USB_DEV_ADDRESS : Z := 0x01.
Definition USB_DEV_CONFIGURED : Z := 0x02.
Definition USB_VCP_REQ_SET_LINE_CODING : Z := 0x20.
Definition USB_VCP_REQ_GET_LINE_CODING : Z := 0x21.
Definition USB_VCP_SET_CONTROL_LINE_STATE : Z := 0x22.

Record usb_setup := mk_setup { su_request_type : Z; su_request : Z; su_value : Z; su_index : Z; su_length : Z }.
Definition sizeof_setup : Z := 8.

(** The functions a transfer of endpoint 0 may end with. *)
Inductive usb_cb := SetupCallback | DataINCallback | StatusOUTCallback | StatusINCallback | DataOUTCallback.
#[export] Instance usb_cb_eq : EqDecision usb_cb.
Proof. solve_decision. Defined.

Record usb_ep := mk_ep {
  ep_ptr : Z; ep_ec : Z; ep_size : Z; ep_offs : Z; ep_callback : option usb_cb; ep_setup : Z }.

(** What is done to registers: packet counts and sizes of transfers, the address,
    stalls, sizes of the queues, types of endpoints. *)
Inductive usb_hw :=
| HwIN (pkt_cnt size : Z)
| HwOUT (pkt_cnt max_size : Z)
| HwSETUP
| HwStallIN
| HwStallOUT
| HwAddress (addr : Z)
| HwRxFifo (size : Z)
| HwTxFifo (ep_num size : Z)
| HwConfigIN (ep_num type mp_size : Z)
| HwConfigOUT (ep_num type mp_size : Z).

Record usb_device := mk_device {
  dv_state : Z; dv_address : Z; dv_configuration : Z; dv_status : Z; dv_ep_halt_tx : Z; dv_ep_halt_rx : Z;
  dv_alternate_settings : list Z }.

Record usb := mk_usb {
  ub_mem : mem; ub_in : usb_ep; ub_out : usb_ep;
  ub_index : Z; ub_ptr : Z; ub_size : Z; ub_offset : Z; ub_dev : usb_device; ub_hw : list usb_hw }.

(** The addresses of [ctl_setup], [buf] and [le]. *)
Record usb_arrays := mk_usb_arrays { ua_setup : Z; ua_buf : Z; ua_le : Z }.

Record usbcore_req_evarg := mk_req { ra_setup : usb_setup; ra_status : Z; ra_ptr : Z; ra_size : Z }.

Definition zero_ep : usb_ep := mk_ep 0 0 0 0 None 0.
(** [memset(&dev, 0, sizeof(dev))] *)
Definition zero_device : usb_device := mk_device 0 0 0 0 0 0 (replicate 10 0).

Definition set_in (e : usb_ep) (s : usb) : usb :=
  mk_usb (ub_mem s) e (ub_out s) (ub_index s) (ub_ptr s) (ub_size s) (ub_offset s) (ub_dev s) (ub_hw s).
Definition set_out (e : usb_ep) (s : usb) : usb :=
  mk_usb (ub_mem s) (ub_in s) e (ub_index s) (ub_ptr s) (ub_size s) (ub_offset s) (ub_dev s) (ub_hw s).
Definition set_usb_mem (m : mem) (s : usb) : usb :=
  mk_usb m (ub_in s) (ub_out s) (ub_index s) (ub_ptr s) (ub_size s) (ub_offset s) (ub_dev s) (ub_hw s).
Definition set_ctl (ptr size offset : Z) (s : usb) : usb :=
  mk_usb (ub_mem s) (ub_in s) (ub_out s) (ub_index s) ptr size offset (ub_dev s) (ub_hw s).
Definition set_index (i : Z) (s : usb) : usb :=
  mk_usb (ub_mem s) (ub_in s) (ub_out s) i (ub_ptr s) (ub_size s) (ub_offset s) (ub_dev s) (ub_hw s).
Definition set_dev (d : usb_device) (s : usb) : usb :=
  mk_usb (ub_mem s) (ub_in s) (ub_out s) (ub_index s) (ub_ptr s) (ub_size s) (ub_offset s) d (ub_hw s).

Definition modify (f : usb → usb) : prog usb unit := λ s, Ok ((), f s).
Definition get {A} (f : usb → A) : prog usb A := λ s, Ok (f s, s).
Definition usb_reads {A} (f : mem → res A) : prog usb A := λ s, a ← f (ub_mem s); Ok (a, s).
Definition usb_writes (f : mem → res mem) : prog usb unit := λ s, m ← f (ub_mem s); Ok ((), set_usb_mem m s).
Definition hw (c : usb_hw) : prog usb unit := modify (λ s,
  mk_usb (ub_mem s) (ub_in s) (ub_out s) (ub_index s) (ub_ptr s) (ub_size s) (ub_offset s) (ub_dev s) (ub_hw s ++ [c])).

(** ** Transfers (usb.c)

    Endpoint 0 is a control endpoint with packets of 64 bytes. *)

Definition packet_count (size : Z) : Z := Z.max 1 ((size + USB_CTRLEP_SIZE - 1) / USB_CTRLEP_SIZE).

Definition USB_StartINTransfer (ptr size : Z) (cb : usb_cb) : prog usb Z :=
  e ← get ub_in;
  if ep_ec e =? EBUSY then mret (ep_ec e)
  else
    modify (set_in (mk_ep ptr EBUSY size 0 (Some cb) (ep_setup e)));;
    hw (HwIN (packet_count size) size);; mret 0.

Definition USB_StartOUTTransfer (ptr size : Z) (cb : usb_cb) : prog usb Z :=
  e ← get ub_out;
  if ep_ec e =? EBUSY then mret (ep_ec e)
  else
    modify (set_out (mk_ep ptr EBUSY size 0 (Some cb) 0));;
    hw (HwOUT (packet_count size) USB_CTRLEP_SIZE);; mret 0.

Definition USB_StartSETUPTransfer (ptr size : Z) (cb : usb_cb) : prog usb Z :=
  e ← get ub_out;
  if ep_ec e =? EBUSY then mret (ep_ec e)
  else
    modify (set_out (mk_ep ptr EBUSY size 0 (Some cb) 1));;
    hw HwSETUP;; mret 0.

(** ** usb_core.c *)

Section core.
Context (ds : usb_descset) (ua : usb_arrays) (notify : usbcore_req_evarg → usbcore_req_evarg).

(** *** Stages *)

Definition USBCore_StartSETUPStage : prog usb unit :=
  o ← get ub_offset; modify (set_ctl 0 0 o);;
  _ ← USB_StartSETUPTransfer (ua_setup ua) (3 * sizeof_setup) SetupCallback; mret ().

Definition USBCore_StatusOUTCallback (error : Z) : prog usb unit := USBCore_StartSETUPStage.
Definition USBCore_StatusINCallback (error : Z) : prog usb unit := USBCore_StartSETUPStage.

Definition USBCore_StartStatusOUTStage : prog usb unit := _ ← USB_StartOUTTransfer 0 0 StatusOUTCallback; mret ().

Definition USBCore_DataINCallback (error : Z) : prog usb unit :=
  if error =? EUSB_RESET then USBCore_StartSETUPStage
  else
    '(ptr, size, offset) ← get (λ s, (ub_ptr s, ub_size s, ub_offset s));
    if USB_CTRLEP_SIZE <=? size -u offset then
      let offset := offset +u Z.min USB_CTRLEP_SIZE (size -u offset) in
      modify (set_ctl ptr size offset);;
      _ ← USB_StartINTransfer (ptr + offset) (Z.min USB_CTRLEP_SIZE (size -u offset)) DataINCallback; mret ()
    else USBCore_StartStatusOUTStage.

Definition USBCore_StartDataINStage (ptr size : Z) : prog usb unit :=
  modify (set_ctl ptr size 0);;
  _ ← USB_StartINTransfer ptr (Z.min USB_CTRLEP_SIZE size) DataINCallback;
  _ ← USB_StartOUTTransfer 0 0 StatusOUTCallback; mret ().

Definition USBCore_StartDataOUTStage (ptr size : Z) : prog usb unit :=
  modify (set_ctl ptr size 0);;
  _ ← USB_StartOUTTransfer ptr (Z.min USB_CTRLEP_SIZE size) DataOUTCallback; mret ().

Definition USBCore_StartStatusINStage : prog usb unit := _ ← USB_StartINTransfer 0 0 StatusINCallback; mret ().

Definition USBCore_AbortStage : prog usb unit := hw HwStallIN;; hw HwStallOUT;; USBCore_StartSETUPStage.

(** *** Requests with data: code, address and size of the data *)

Definition recipient (s : usb_setup) : Z := Z.land (su_request_type s) USB_SETUP_REQTYPE_RECIPIENT.

(** The descriptor of a type and an index; what there was if there is none of that
    index. *)
Definition descriptor (missing : usb_desc) (desc_type desc_index : Z) : option usb_desc :=
  if desc_type =? USB_SETUP_DESCTYPE_DEVICE then Some (ds_device ds)
  else if desc_type =? USB_SETUP_DESCTYPE_CONFIGURATION then
    Some (default missing (ds_configs ds !! Z.to_nat desc_index))
  else if desc_type =? USB_SETUP_DESCTYPE_STRING then
    Some (default missing (ds_strings ds !! Z.to_nat desc_index))
  else if desc_type =? USB_SETUP_DESCTYPE_QUALIFIER then Some (ds_qualifier ds)
  else None.

Definition USBCore_ProcessSetupGetDescriptor (s : usb_setup) (ptr size : Z) : Z * Z * Z :=
  let '(rc, ptr, size) :=
    if recipient s =? USB_SETUP_REQTYPE_RECIPIENT_DEVICE then
      match descriptor (mk_usb_desc ptr size) (Z.shiftr (su_value s) 8) (u8 (su_value s)) with
      | Some d => (EOK, ud_ptr d, ud_size d)
      | None => (EFATAL, ptr, size)
      end
    else if recipient s =? USB_SETUP_REQTYPE_RECIPIENT_IFACE then
      let a := notify (mk_req s EFATAL 0 0) in (ra_status a, ra_ptr a, ra_size a)
    else (EFATAL, ptr, size) in
  (rc, ptr, Z.min size (su_length s)).

(** The answer is put into [buf]. *)
Definition answer (bs : list Z) : prog usb (Z * Z * Z) :=
  usb_writes (λ m, store_bytes m (ua_buf ua) bs);; mret (EOK, ua_buf ua, Z.of_nat (length bs)).

Definition USBCore_ProcessSetupGetConfiguration (s : usb_setup) (ptr size : Z) : prog usb (Z * Z * Z) :=
  d ← get ub_dev;
  if (recipient s =? USB_SETUP_REQTYPE_RECIPIENT_DEVICE) &&
     ((su_value s =? 0) && (su_index s =? 0) && (su_length s =? 1)) && negb (dv_state d =? USB_DEV_DEFAULT)
  then answer [u8 (dv_configuration d)]
  else mret (EFATAL, ptr, size).

(** May the status of an endpoint be asked for? *)
Definition status_of_ep (d : usb_device) (ep_num : Z) : bool :=
  (ep_num =? USB_EP0) && negb (dv_state d =? USB_DEV_DEFAULT) ||
  (USB_EP0 <? ep_num) && (ep_num <? ds_endpoints_num ds) && (dv_state d =? USB_DEV_CONFIGURED).

Definition USBCore_ProcessSetupGetStatus (s : usb_setup) (ptr size : Z) : prog usb (Z * Z * Z) :=
  d ← get ub_dev;
  if negb (su_value s =? 0) || negb (su_length s =? 2) then mret (EFATAL, ptr, size)
  else if recipient s =? USB_SETUP_REQTYPE_RECIPIENT_DEVICE then
    if (su_index s =? 0) && negb (dv_state d =? USB_DEV_DEFAULT) then answer [u8 (dv_status d); 0]
    else mret (EFATAL, ptr, size)
  else if recipient s =? USB_SETUP_REQTYPE_RECIPIENT_IFACE then
    if (dv_state d =? USB_DEV_CONFIGURED) && (u8 (su_index s) <? ds_ifaces_num ds) then answer [0; 0]
    else mret (EFATAL, ptr, size)
  else if recipient s =? USB_SETUP_REQTYPE_RECIPIENT_EP then
    let ep_num := Z.land (su_index s) 0x7F in
    let ep_dir := Z.land (su_index s) 0x80 in
    if status_of_ep d ep_num then
      let ep_halt := u8 (if ep_dir =? 0 then dv_ep_halt_rx d else dv_ep_halt_tx d) in
      answer [if Z.land ep_halt (Z.shiftl 1 ep_num) =? 0 then 0 else 1; 0]
    else mret (EFATAL, ptr, size)
  else mret (EFATAL, ptr, size).

Definition USBCore_ProcessSetupGetInterface (s : usb_setup) (ptr size : Z) : prog usb (Z * Z * Z) :=
  d ← get ub_dev;
  let iface_num := u8 (su_index s) in
  if negb (su_value s =? 0) || negb (su_length s =? 1) then mret (EFATAL, ptr, size)
  else if (recipient s =? USB_SETUP_REQTYPE_RECIPIENT_IFACE) && (dv_state d =? USB_DEV_CONFIGURED) &&
          (iface_num <? ds_ifaces_num ds) then
    match dv_alternate_settings d !! Z.to_nat iface_num with
    | Some v => answer [u8 v]
    | None => fault OutOfBounds
    end
  else mret (EFATAL, ptr, size).

Definition USBCore_ProcessSetupData (s : usb_setup) : prog usb unit :=
  '(rc, ptr, size) ← (
    if (Z.land (su_request_type s) USB_SETUP_REQTYPE_TYPE =? USB_SETUP_REQTYPE_TYPE_STANDARD) &&
       has (su_request_type s) USB_SETUP_REQTYPE_DIR then
      if su_request s =? USB_SETUP_REQ_GET_DESCRIPTOR then mret (USBCore_ProcessSetupGetDescriptor s 0 0)
      else if su_request s =? USB_SETUP_REQ_GET_CONFIGURATION then USBCore_ProcessSetupGetConfiguration s 0 0
      else if su_request s =? USB_SETUP_REQ_GET_STATUS then USBCore_ProcessSetupGetStatus s 0 0
      else if su_request s =? USB_SETUP_REQ_GET_INTERFACE then USBCore_ProcessSetupGetInterface s 0 0
      else mret (EFATAL, 0, 0)
    else mret (EFATAL, 0, 0));
  let arg := notify (mk_req s rc ptr size) in
  let rc := ra_status arg in
  if has (su_request_type s) USB_SETUP_REQTYPE_DIR then
    if rc =? EOK then USBCore_StartDataINStage (ra_ptr arg) (ra_size arg) else USBCore_AbortStage
  else if rc =? EOK then
    ctl_ptr ← get ub_ptr;
    if ctl_ptr =? 0 then USBCore_StartDataOUTStage (ra_ptr arg) (ra_size arg) else USBCore_StartStatusINStage
  else USBCore_AbortStage.

(** *** Requests without data *)

Definition USBCore_ProcessSetupSetAddress (s : usb_setup) : prog usb Z :=
  d ← get ub_dev;
  if dv_state d =? USB_DEV_CONFIGURED then mret EFATAL
  else if negb (recipient s =? USB_SETUP_REQTYPE_RECIPIENT_DEVICE) then mret EFATAL
  else
    let address := su_value s in
    modify (set_dev (mk_device (if address =? 0 then USB_DEV_DEFAULT else USB_DEV_ADDRESS) address (dv_configuration d)
      (dv_status d) (dv_ep_halt_tx d) (dv_ep_halt_rx d) (dv_alternate_settings d)));;
    hw (HwAddress (u8 address));; mret EOK.

Definition USBCore_ProcessSetupSetConfiguration (s : usb_setup) : prog usb Z :=
  d ← get ub_dev;
  if dv_state d =? USB_DEV_DEFAULT then mret EFATAL
  else if negb (recipient s =? USB_SETUP_REQTYPE_RECIPIENT_DEVICE) then mret EFATAL
  else
    let configuration := su_value s in
    modify (set_dev (mk_device (if configuration =? 0 then USB_DEV_ADDRESS else USB_DEV_CONFIGURED) (dv_address d) configuration
      (dv_status d) (dv_ep_halt_tx d) (dv_ep_halt_rx d) (dv_alternate_settings d)));;
    mret EOK.

(** [change] sets or clears the bit of the endpoint in the mask of its direction. *)
Definition endpoint_feature (s : usb_setup) (change : Z → Z → Z) : prog usb Z :=
  d ← get ub_dev;
  let ep_num := Z.land (su_index s) 0x7F in
  let ep_dir := Z.land (su_index s) 0x80 in
  if (recipient s =? USB_SETUP_REQTYPE_RECIPIENT_EP) &&
     ((USB_EP1 <=? ep_num) && (ep_num <? ds_endpoints_num ds) && (su_value s =? USB_SETUP_FEATURE_ENDPOINT_HALT)) then
    let bit := Z.shiftl 1 ep_num in
    let tx := if ep_dir =? 0 then dv_ep_halt_tx d else change (dv_ep_halt_tx d) bit in
    let rx := if ep_dir =? 0 then change (dv_ep_halt_rx d) bit else dv_ep_halt_rx d in
    modify (set_dev (mk_device (dv_state d) (dv_address d) (dv_configuration d) (dv_status d) tx rx (dv_alternate_settings d)));;
    mret EOK
  else mret EFATAL.

Definition USBCore_ProcessSetupClearFeature (s : usb_setup) : prog usb Z :=
  endpoint_feature s (λ mask bit, Z.land mask (~u bit)).
Definition USBCore_ProcessSetupSetFeature (s : usb_setup) : prog usb Z :=
  if negb (su_length s =? 0) then mret EFATAL else endpoint_feature s Z.lor.

Definition USBCore_ProcessSetupSetInterface (s : usb_setup) : prog usb Z :=
  d ← get ub_dev;
  let iface_num := u8 (su_index s) in
  if negb (su_length s =? 0) then mret EFATAL
  else if (recipient s =? USB_SETUP_REQTYPE_RECIPIENT_IFACE) && (dv_state d =? USB_DEV_CONFIGURED) &&
          (iface_num <? ds_ifaces_num ds) then
    (if iface_num <? length (dv_alternate_settings d) then mret () else fault OutOfBounds);;
    modify (set_dev (mk_device (dv_state d) (dv_address d) (dv_configuration d) (dv_status d) (dv_ep_halt_tx d) (dv_ep_halt_rx d)
      (<[Z.to_nat iface_num := u8 (su_value s)]> (dv_alternate_settings d))));;
    mret EOK
  else mret EFATAL.

Definition USBCore_ProcessSetupNoData (s : usb_setup) : prog usb unit :=
  rc ← (
    if (Z.land (su_request_type s) USB_SETUP_REQTYPE_TYPE =? USB_SETUP_REQTYPE_TYPE_STANDARD) &&
       negb (has (su_request_type s) USB_SETUP_REQTYPE_DIR) then
      if su_request s =? USB_SETUP_REQ_SET_ADDRESS then USBCore_ProcessSetupSetAddress s
      else if su_request s =? USB_SETUP_REQ_SET_CONFIGURATION then USBCore_ProcessSetupSetConfiguration s
      else if su_request s =? USB_SETUP_REQ_CLEAR_FEATURE then USBCore_ProcessSetupClearFeature s
      else if su_request s =? USB_SETUP_REQ_SET_FEATURE then USBCore_ProcessSetupSetFeature s
      else if su_request s =? USB_SETUP_REQ_SET_INTERFACE then USBCore_ProcessSetupSetInterface s
      else mret EFATAL
    else mret EFATAL);
  let arg := notify (mk_req s rc 0 0) in
  if ra_status arg =? EOK then USBCore_StartStatusINStage else USBCore_AbortStage.

Definition USBCore_ProcessSetup (s : usb_setup) : prog usb unit :=
  if su_length s =? 0 then USBCore_ProcessSetupNoData s else USBCore_ProcessSetupData s.

(** [ctl_setup[ctl_index]] *)
Definition setup_at (m : mem) (p : Z) : res usb_setup :=
  request_type ← load8 m p; request ← load8 m (p + 1);
  value ← load16 m (p + 2); index ← load16 m (p + 4); len ← load16 m (p + 6);
  Ok (mk_setup request_type request value index len).

Definition USBCore_SetupCallback (error size : Z) : prog usb unit :=
  if error =? EUSB_RESET then mret ()
  else
    (if size =? 0 then mret () else modify (set_index (size / sizeof_setup -u 1)));;
    i ← get ub_index;
    s ← usb_reads (λ m, setup_at m (ua_setup ua + sizeof_setup * i));
    USBCore_ProcessSetup s.

(** A short packet ends the data: the setup packet is looked at once more. *)
Definition USBCore_DataOUTCallback (error size : Z) : prog usb unit :=
  if error =? EUSB_RESET then USBCore_StartSETUPStage
  else
    '(ptr, ctl_size, offset) ← get (λ s, (ub_ptr s, ub_size s, ub_offset s));
    let offset := offset +u size in
    modify (set_ctl ptr ctl_size offset);;
    if size =? USB_CTRLEP_SIZE then
      _ ← USB_StartOUTTransfer (ptr + offset) (Z.min USB_CTRLEP_SIZE (ctl_size -u offset)) DataOUTCallback; mret ()
    else USBCore_SetupCallback 0 0.

Definition USBCore_ResetCallback : prog usb unit :=
  hw (HwRxFifo USB_RX_FIFO_SIZE);; hw (HwTxFifo USB_EP0 USB_CTRLEP_SIZE);;
  modify (set_dev zero_device);;
  hw (HwConfigOUT USB_EP0 USB_EPTYPE_CTL USB_CTRLEP_SIZE);; hw (HwConfigIN USB_EP0 USB_EPTYPE_CTL USB_CTRLEP_SIZE).

Definition USBCore_EnumerationCallback : prog usb unit := USBCore_StartSETUPStage.

Definition USBCore_IsConfigured (link_active : bool) : prog usb bool :=
  d ← get ub_dev; mret ((dv_state d =? USB_DEV_CONFIGURED) && link_active).

(** *** The end of a transfer (usb.c) *)

Definition call_cb (cb : usb_cb) (error size : Z) : prog usb unit :=
  match cb with
  | SetupCallback => USBCore_SetupCallback error size
  | DataINCallback => USBCore_DataINCallback error
  | StatusOUTCallback => USBCore_StatusOUTCallback error
  | StatusINCallback => USBCore_StatusINCallback error
  | DataOUTCallback => USBCore_DataOUTCallback error size
  end.

(** [USB_FinishTransfer] for a direction. *)
Definition USB_FinishTransfer (ep : usb → usb_ep) (set : usb_ep → usb → usb) (ec : Z) : prog usb unit :=
  e ← get ep;
  modify (set (mk_ep (ep_ptr e) ec (ep_size e) (ep_offs e) None 0));;
  match ep_callback e with None => mret () | Some cb => call_cb cb ec (ep_offs e) end.

(** A packet from the host: what there is room for is stored, the rest dropped. *)
Definition USB_HandleRxlvlIsr (packet : list Z) : prog usb unit :=
  e ← get ub_out;
  let max_len := if (ep_ec e =? EBUSY) && (ep_offs e <? ep_size e) then ep_size e - ep_offs e else 0 in
  let n := Z.min max_len (length packet) in
  usb_writes (λ m, store_bytes m (ep_ptr e + ep_offs e) (take (Z.to_nat n) packet));;
  modify (set_out (mk_ep (ep_ptr e) (ep_ec e) (ep_size e) (ep_offs e + n) (ep_callback e) (ep_setup e))).

(** *** Events *)

Inductive usb_event :=
| EvSetup (packets : list (list Z))
| EvOut (packet : list Z)
| EvIn
| EvReset
| EvEnum.

Fixpoint receive (packets : list (list Z)) : prog usb unit :=
  match packets with [] => mret () | p :: packets' => USB_HandleRxlvlIsr p;; receive packets' end.

(** All of a transfer was taken by the host. *)
Definition all_sent : prog usb unit :=
  e ← get ub_in; modify (set_in (mk_ep (ep_ptr e) (ep_ec e) (ep_size e) (ep_size e) (ep_callback e) (ep_setup e))).

Definition usb_step (ev : usb_event) : prog usb unit :=
  match ev with
  | EvSetup packets => receive packets;; USB_FinishTransfer ub_out set_out EOK
  | EvOut packet => receive [packet];; USB_FinishTransfer ub_out set_out EOK
  | EvIn => all_sent;; USB_FinishTransfer ub_in set_in EOK
  | EvReset => USBCore_ResetCallback
  | EvEnum =>
      USB_FinishTransfer ub_in set_in EUSB_RESET;; USB_FinishTransfer ub_out set_out EUSB_RESET;;
      USBCore_EnumerationCallback
  end.

Fixpoint usb_run (evs : list usb_event) : prog usb unit :=
  match evs with [] => mret () | ev :: evs' => usb_step ev;; usb_run evs' end.
End core.

(** ** The serial port's requests (usb_vcp.c) *)

Definition sizeof_le : Z := 7.
Definition USBVCP_RequestCallback (le : Z) (a : usbcore_req_evarg) : usbcore_req_evarg :=
  let s := ra_setup a in
  if su_request s =? USB_VCP_REQ_SET_LINE_CODING then
    if ra_ptr a =? 0 then mk_req s EOK le sizeof_le else mk_req s EOK (ra_ptr a) (ra_size a)
  else if su_request s =? USB_VCP_REQ_GET_LINE_CODING then mk_req s EOK le sizeof_le
  else if su_request s =? USB_VCP_SET_CONTROL_LINE_STATE then mk_req s EOK (ra_ptr a) (ra_size a)
  else a.

(** ** The control endpoint is never lost *)

(** State, address and configuration of a device go together. *)
Definition device_ok (d : usb_device) : Prop :=
  length (dv_alternate_settings d) = 10%nat ∧
  (dv_state d = USB_DEV_DEFAULT ∧ dv_address d = 0 ∧ dv_configuration d = 0 ∨
   dv_state d = USB_DEV_ADDRESS ∧ dv_address d ≠ 0 ∧ dv_configuration d = 0 ∨
   dv_state d = USB_DEV_CONFIGURED ∧ dv_address d ≠ 0 ∧ dv_configuration d ≠ 0).

Definition busy (e : usb_ep) : Prop := ep_ec e = EBUSY.

(** A transfer in each direction: nothing under way, or one that may be. *)
Definition in_ok (e : usb_ep) : Prop :=
  ¬ busy e ∧ ep_callback e = None ∨
  busy e ∧ (ep_callback e = Some DataINCallback ∨ ep_callback e = Some StatusINCallback).
Definition out_ok (ua : usb_arrays) (m : mem) (e : usb_ep) : Prop :=
  ¬ busy e ∧ ep_callback e = None ∨
  busy e ∧ ep_offs e = 0 ∧
    (ep_callback e = Some SetupCallback ∧ ep_ptr e = ua_setup ua ∧ ep_size e = 24 ∧ ep_setup e = 1 ∨
     ep_callback e = Some StatusOUTCallback ∧ ep_size e = 0 ∧ ep_setup e = 0 ∨
     ep_callback e = Some DataOUTCallback ∧ 0 ≤ ep_size e < 64 ∧ mapped m (ep_ptr e) (Z.to_nat (ep_size e)) ∧ ep_setup e = 0).

(** What a subscriber may answer to a request that brings data: room for less than
    a packet. *)
Definition data_room (notify : usbcore_req_evarg → usbcore_req_evarg) (m : mem) : Prop :=
  ∀ s, let a := notify (mk_req s EFATAL 0 0) in ra_status a = EOK →
    0 ≤ ra_size a < 64 ∧ mapped m (ra_ptr a) (Z.to_nat (ra_size a)).

Record usb_ok (ua : usb_arrays) (notify : usbcore_req_evarg → usbcore_req_evarg) (s : usb) : Prop := {
  uo_setup : mapped (ub_mem s) (ua_setup ua) 24;
  uo_buf : mapped (ub_mem s) (ua_buf ua) 16;
  uo_room : data_room notify (ub_mem s);
  uo_index : 0 ≤ ub_index s ≤ 2;
  uo_dev : device_ok (ub_dev s);
  uo_in : in_ok (ub_in s);
  uo_out : out_ok ua (ub_mem s) (ub_out s) }.

(** One direction is waiting for the host. *)
Definition armed (s : usb) : Prop := busy (ub_in s) ∨ busy (ub_out s).

(** What the host and the hardware may do: up to three setup packets, data on an
    endpoint that takes some. *)
Definition possible (s : usb) (ev : usb_event) : Prop :=
  match ev with
  | EvSetup packets => (1 ≤ length packets ≤ 3)%nat ∧ Forall (λ p, length p = 8%nat ∧ Forall is_u8 p) packets
  | EvOut packet => busy (ub_out s) ∧ ep_setup (ub_out s) = 0 ∧ (length packet ≤ 64)%nat ∧ Forall is_u8 packet
  | _ => True
  end.

Section alive.
Context (ds : usb_descset) (ua : usb_arrays) (notify : usbcore_req_evarg → usbcore_req_evarg).
Context (Hds : ds_ifaces_num ds ≤ 10).

(** A program that gets to an end with a result and a state as said. *)
Definition leads {A} (p : prog usb A) (s : usb) (Q : A → usb → Prop) : Prop := ∃ a s', p s = Ok (a, s') ∧ Q a s'.
Definition good (s : usb) : Prop := usb_ok ua notify s ∧ armed s.

Lemma leads_bind {A B} (p : prog usb A) (q : A → prog usb B) s Q R :
  leads p s R → (∀ a s', R a s' → leads (q a) s' Q) → leads (p ≫= q) s Q.
Proof.
  intros (a & s' & E & HR) Hq. destruct (Hq a s' HR) as (b & s'' & E' & HQ). exists b, s''. split; [|done].
  by rewrite (prog_bind_Ok _ _ _ _ _ E).
Qed.

Lemma leads_ret {A} (a : A) s Q : Q a s → leads (mret a) s Q.
Proof. intros H. by exists a, s. Qed.

Lemma leads_unit {A} (p : prog usb A) s (Q : unit → usb → Prop) : leads p s (λ _, Q ()) → leads (p ≫= λ _, mret ()) s Q.
Proof. intros H. eapply leads_bind; [exact H|]. intros a s' HQ. by apply leads_ret. Qed.

Lemma leads_get {A B} (f : usb → A) (q : A → prog usb B) s Q : leads (q (f s)) s Q → leads (get f ≫= q) s Q.
Proof. intros H. apply (leads_bind _ _ _ _ (λ a s', a = f s ∧ s' = s)); [by exists (f s), s|]. by intros ? ? [-> ->]. Qed.

Lemma leads_modify {B} f (q : unit → prog usb B) s Q : leads (q ()) (f s) Q → leads (modify f ≫= q) s Q.
Proof. intros H. apply (leads_bind _ _ _ _ (λ _ s', s' = f s)); [by exists (), (f s)|]. by intros [] ? ->. Qed.

Lemma leads_hw {B} c (q : unit → prog usb B) s Q :
  usb_ok ua notify s → (∀ s', usb_ok ua notify s' → ub_in s' = ub_in s → ub_out s' = ub_out s → leads (q ()) s' Q) → leads (hw c ≫= q) s Q.
Proof. intros [] Hq. apply leads_modify, Hq; done. Qed.

(** *** Starting transfers *)

Lemma start_in s ptr size cb :
  usb_ok ua notify s → cb = DataINCallback ∨ cb = StatusINCallback →
  leads (USB_StartINTransfer ptr size cb) s (λ _ s', usb_ok ua notify s' ∧ busy (ub_in s') ∧ ub_out s' = ub_out s).
Proof.
  intros Hs Hcb. apply leads_get. destruct (Z.eqb_spec (ep_ec (ub_in s)) EBUSY) as [E|E]; [by apply leads_ret|].
  apply leads_modify, leads_hw.
  - destruct Hs. split; try done. right. split; [done|]. cbn. destruct Hcb as [-> | ->]; auto.
  - intros s' Hs' Ei Eo. apply leads_ret. rewrite Ei, Eo. done.
Qed.

Lemma start_out_with s e c :
  usb_ok ua notify s → out_ok ua (ub_mem s) e → busy e →
  leads (x ← get ub_out; if ep_ec x =? EBUSY then mret (ep_ec x) else (modify (set_out e);; hw c;; mret 0)) s
    (λ _ s', usb_ok ua notify s' ∧ busy (ub_out s')).
Proof.
  intros Hs He Hb. apply leads_get. destruct (Z.eqb_spec (ep_ec (ub_out s)) EBUSY) as [E|E]; [by apply leads_ret|].
  apply leads_modify, leads_hw.
  - destruct Hs. by split.
  - intros s' Hs' _ Eo. apply leads_ret. by rewrite Eo.
Qed.

(** *** Stages *)

Lemma setup_stage s : usb_ok ua notify s → leads (USBCore_StartSETUPStage ua) s (λ _, good).
Proof.
  intros Hs. apply leads_get, leads_modify. eapply leads_bind.
  - apply start_out_with; [by destruct Hs| |done]. right. split; [done|]. split; [done|]. by left.
  - intros _ s' [H1 H2]. apply leads_ret. split; [done|by right].
Qed.

Lemma status_in_stage s : usb_ok ua notify s → leads USBCore_StartStatusINStage s (λ _, good).
Proof.
  intros Hs. eapply leads_bind; [by apply start_in; [|right]|].
  intros _ s' (H1 & H2 & _). apply leads_ret. split; [done|by left].
Qed.

Lemma status_out_start s : usb_ok ua notify s →
  leads (USB_StartOUTTransfer 0 0 StatusOUTCallback) s (λ _ s', usb_ok ua notify s' ∧ busy (ub_out s')).
Proof. intros Hs. apply start_out_with; [done| |done]. right. split; [done|]. split; [done|]. right. by left. Qed.

Lemma status_out_stage s : usb_ok ua notify s → leads USBCore_StartStatusOUTStage s (λ _, good).
Proof.
  intros Hs. eapply leads_bind; [by apply status_out_start|].
  intros _ s' [H1 H2]. apply leads_ret. split; [done|by right].
Qed.

Lemma abort_stage s : usb_ok ua notify s → leads (USBCore_AbortStage ua) s (λ _, good).
Proof. intros Hs. apply leads_hw; [done|]. intros s1 H1 _ _. apply leads_hw; [done|]. intros s2 H2 _ _. by apply setup_stage. Qed.

Lemma data_in_stage s ptr size : usb_ok ua notify s → leads (USBCore_StartDataINStage ptr size) s (λ _, good).
Proof.
  intros Hs. apply leads_modify. eapply leads_bind; [apply start_in; [by destruct Hs|by left]|].
  intros _ s1 (H1 & _). eapply leads_bind; [by apply status_out_start|].
  intros _ s2 [H2 H3]. apply leads_ret. split; [done|by right].
Qed.

Lemma data_out_stage s ptr size :
  usb_ok ua notify s → 0 ≤ size < 64 → mapped (ub_mem s) ptr (Z.to_nat size) →
  leads (USBCore_StartDataOUTStage ptr size) s (λ _, good).
Proof.
  intros Hs Hsz Hm. apply leads_modify. replace (Z.min USB_CTRLEP_SIZE size) with size by (unfold USB_CTRLEP_SIZE; lia).
  eapply leads_bind.
  - apply start_out_with; [by destruct Hs| |done]. right. split; [done|]. split; [done|]. by right; right.
  - intros _ s' [H1 H2]. apply leads_ret. split; [done|by right].
Qed.


(** *** Requests *)

(** Memory that holds what it held at least. *)
Lemma usb_ok_mem s m' : usb_ok ua notify s → (∀ a, is_Some (ub_mem s !! a) → is_Some (m' !! a)) → usb_ok ua notify (set_usb_mem m' s).
Proof.
  intros [H1 H2 H3 H4 H5 H6 H7] Hm.
  assert (∀ a n, mapped (ub_mem s) a n → mapped m' a n) as Hmap by (intros a n H i Hi; by apply Hm, H).
  split; cbn; auto.
  - intros x y E. destruct (H3 x E) as [H8 H9]. split; [done|by apply Hmap].
  - destruct H7 as [H7|(H7 & H8 & H9)]; [by left|right]. split; [done|]. split; [done|].
    destruct H9 as [H9|[H9|(H9 & H10 & H11 & H12)]]; auto 10.
Qed.

Lemma stored s a bs :
  usb_ok ua notify s → mapped (ub_mem s) a (length bs) → Forall is_u8 bs →
  leads (usb_writes (λ m, store_bytes m a bs)) s (λ _ s', usb_ok ua notify s' ∧ ub_in s' = ub_in s ∧ ub_out s' = ub_out s).
Proof.
  intros Hs Hm Hu. exists (), (set_usb_mem (put_bytes (ub_mem s) a bs) s). split.
  - unfold usb_writes. by rewrite store_bytes_ok.
  - split; [|done]. apply usb_ok_mem; [done|]. intros i [c Hc].
    apply (put_bytes_mapped (ub_mem s) a bs i 1); [|lia]. intros j Hj. replace j with i by lia. by rewrite Hc.
Qed.

Definition same_ok (_ : Z * Z * Z) (s : usb) : Prop := usb_ok ua notify s.

Lemma answered s bs : usb_ok ua notify s → (length bs ≤ 16)%nat → Forall is_u8 bs → leads (answer ua bs) s same_ok.
Proof.
  intros Hs Hl Hu. eapply leads_bind; [apply stored; [done| |done]|].
  - eapply mapped_le; [|apply Hs]. done.
  - intros _ s' (H & _). by apply leads_ret.
Qed.

Ltac give_answer := apply answered; [done|cbn; lia|];
  repeat match goal with |- context [if ?b then 0 else 1] => destruct b end;
  repeat (apply Forall_cons; split); try apply Forall_nil; first [apply u8_range|word_lia].

Lemma get_configuration_ok s q ptr size : usb_ok ua notify s → leads (USBCore_ProcessSetupGetConfiguration ua q ptr size) s same_ok.
Proof. intros Hs. apply leads_get. destruct (_ && _); [give_answer|by apply leads_ret]. Qed.

Lemma get_status_ok s q ptr size : usb_ok ua notify s → leads (USBCore_ProcessSetupGetStatus ds ua q ptr size) s same_ok.
Proof.
  intros Hs. apply leads_get. cbv zeta.
  repeat match goal with |- leads (if ?b then _ else _) _ _ => destruct b end; try (by apply leads_ret); give_answer.
Qed.

Ltac cond E := match goal with |- leads (if ?b then _ else _) _ _ => destruct b eqn:E end.

Lemma interface_setting s i : usb_ok ua notify s → (u8 i <? ds_ifaces_num ds) = true →
  (Z.to_nat (u8 i) < length (dv_alternate_settings (ub_dev s)))%nat.
Proof. intros Hs Hi. destruct (uo_dev _ _ _ Hs) as [-> _]. pose proof (u8_range i). lia. Qed.

Lemma get_interface_ok s q ptr size : usb_ok ua notify s → leads (USBCore_ProcessSetupGetInterface ds ua q ptr size) s same_ok.
Proof.
  intros Hs. apply leads_get. cbv zeta. cond E0; [by apply leads_ret|]. clear E0. cond E; [|by apply leads_ret]. apply andb_true_iff in E as [_ E].
  destruct (lookup_lt_is_Some_2 _ _ (interface_setting s _ Hs E)) as [v ->]. give_answer.
Qed.

Lemma setup_data_ok s q : usb_ok ua notify s → leads (USBCore_ProcessSetupData ds ua notify q) s (λ _, good).
Proof.
  intros Hs. unfold USBCore_ProcessSetupData. destruct (has (su_request_type q) USB_SETUP_REQTYPE_DIR) eqn:Ed.
  - eapply (leads_bind _ _ _ _ same_ok).
    { destruct (_ && _); [|by apply leads_ret].
      repeat case_match; first [by apply leads_ret|by apply get_configuration_ok|by apply get_status_ok|by apply get_interface_ok]. }
    intros [[rc ptr] size] s1 H1. cbv zeta. cond E; [by apply data_in_stage|by apply abort_stage].
  - rewrite andb_false_r. eapply (leads_bind _ _ _ _ (λ r s', r = (EFATAL, 0, 0) ∧ s' = s)); [by apply leads_ret|].
    intros ? ? [-> ->]. destruct (Z.eqb_spec (ra_status (notify (mk_req q EFATAL 0 0))) EOK) as [E|E]; [|by apply abort_stage].
    destruct (uo_room _ _ _ Hs q E) as [H1 H2]. apply leads_get.
    destruct (ub_ptr s =? 0); [by apply data_out_stage|by apply status_in_stage].
Qed.

Definition code_ok (_ : Z) (s : usb) : Prop := usb_ok ua notify s.

Lemma usb_ok_dev s d : usb_ok ua notify s → device_ok d → usb_ok ua notify (set_dev d s).
Proof. intros [] Hd. by split. Qed.

Lemma set_address_ok s q : usb_ok ua notify s → leads (USBCore_ProcessSetupSetAddress q) s code_ok.
Proof.
  intros Hs. apply leads_get. destruct (Z.eqb_spec (dv_state (ub_dev s)) USB_DEV_CONFIGURED) as [E|E]; [by apply leads_ret|].
  destruct (negb _); [by apply leads_ret|]. apply leads_modify, leads_hw; [|intros; by apply leads_ret].
  apply usb_ok_dev; [done|]. destruct (uo_dev _ _ _ Hs) as [Hl Hd]. split; [done|]. cbn.
  assert (dv_configuration (ub_dev s) = 0) as Hc by (destruct Hd as [Hd|[Hd|Hd]]; [apply Hd|apply Hd|by destruct Hd]).
  destruct (Z.eqb_spec (su_value q) 0); [by left|by right; left].
Qed.

Lemma set_configuration_ok s q : usb_ok ua notify s → leads (USBCore_ProcessSetupSetConfiguration q) s code_ok.
Proof.
  intros Hs. apply leads_get. destruct (Z.eqb_spec (dv_state (ub_dev s)) USB_DEV_DEFAULT) as [E|E]; [by apply leads_ret|].
  destruct (negb _); [by apply leads_ret|]. apply leads_modify, leads_ret, usb_ok_dev; [done|].
  destruct (uo_dev _ _ _ Hs) as [Hl Hd]. split; [done|]. cbn.
  assert (dv_address (ub_dev s) ≠ 0) as Ha by (destruct Hd as [Hd|[Hd|Hd]]; [by destruct Hd|apply Hd|apply Hd]).
  destruct (Z.eqb_spec (su_value q) 0); [by right; left|by right; right].
Qed.

Lemma endpoint_feature_ok s q change : usb_ok ua notify s → leads (endpoint_feature ds q change) s code_ok.
Proof.
  intros Hs. apply leads_get. cbv zeta. cond E; [|by apply leads_ret]. by apply leads_modify, leads_ret, usb_ok_dev, (uo_dev _ _ _ Hs).
Qed.

Lemma set_feature_ok s q : usb_ok ua notify s → leads (USBCore_ProcessSetupSetFeature ds q) s code_ok.
Proof. intros Hs. unfold USBCore_ProcessSetupSetFeature. cond E; [by apply leads_ret|by apply endpoint_feature_ok]. Qed.

Lemma set_interface_ok s q : usb_ok ua notify s → leads (USBCore_ProcessSetupSetInterface ds q) s code_ok.
Proof.
  intros Hs. apply leads_get. cbv zeta. destruct (negb _); [by apply leads_ret|]. cond E; [|by apply leads_ret].
  apply andb_true_iff in E as [_ E]. pose proof (interface_setting s _ Hs E) as Hlt. pose proof (u8_range (su_index q)).
  destruct (Z.ltb_spec (u8 (su_index q)) (length (dv_alternate_settings (ub_dev s)))); [|lia].
  eapply (leads_bind _ _ _ _ (λ _ s', s' = s)); [by apply leads_ret|]. intros _ ? ->.
  apply leads_modify, leads_ret, usb_ok_dev; [done|]. destruct (uo_dev _ _ _ Hs) as [Hl Hd]. split; [|done]. cbn. by rewrite length_insert.
Qed.

Lemma setup_nodata_ok s q : usb_ok ua notify s → leads (USBCore_ProcessSetupNoData ds ua notify q) s (λ _, good).
Proof.
  intros Hs. eapply (leads_bind _ _ _ _ code_ok).
  { destruct (_ && _); [|by apply leads_ret].
    repeat (match goal with |- leads (if ?b then _ else _) _ _ => destruct b end; [first [by apply set_address_ok|by apply set_configuration_ok|by apply set_interface_ok
      |by apply set_feature_ok|by apply endpoint_feature_ok]|]). by apply leads_ret. }
  intros rc s1 H1. cbv zeta. cond E; [by apply status_in_stage|by apply abort_stage].
Qed.

Lemma setup_read s i : usb_ok ua notify s → 0 ≤ i ≤ 2 → ∃ q, setup_at (ub_mem s) (ua_setup ua + sizeof_setup * i) = Ok q.
Proof.
  intros Hs Hi. assert (∀ k, 0 ≤ k < 8 → ∃ c, load8 (ub_mem s) (ua_setup ua + sizeof_setup * i + k) = Ok c) as Hload.
  { intros k Hk. unfold load8. destruct (uo_setup _ _ _ Hs (ua_setup ua + sizeof_setup * i + k)) as [c ->]; [|by eexists].
    unfold sizeof_setup. lia. }
  destruct (Hload 0) as [c0 E0]; [lia|]. rewrite Z.add_0_r in E0. unfold setup_at. rewrite E0, bind_Ok.
  destruct (Hload 1) as [c1 ->]; [lia|]. rewrite bind_Ok. unfold load16.
  destruct (Hload 2) as [c2 ->], (Hload 3) as [c3 E3]; [lia..|]. replace (ua_setup ua + sizeof_setup * i + 2 + 1) with (ua_setup ua + sizeof_setup * i + 3) by lia.
  destruct (Hload 4) as [c4 ->], (Hload 5) as [c5 E5]; [lia..|]. replace (ua_setup ua + sizeof_setup * i + 4 + 1) with (ua_setup ua + sizeof_setup * i + 5) by lia.
  destruct (Hload 6) as [c6 ->], (Hload 7) as [c7 E7]; [lia..|]. replace (ua_setup ua + sizeof_setup * i + 6 + 1) with (ua_setup ua + sizeof_setup * i + 7) by lia.
  rewrite E3, E5, E7. cbn. by eexists.
Qed.

(** The size is nothing, or that of up to three packets. *)
Lemma setup_callback_ok s size :
  usb_ok ua notify s → size ∈ [0; 8; 16; 24]%Z → leads (USBCore_SetupCallback ds ua notify EOK size) s (λ _, good).
Proof.
  intros Hs Hsize. unfold USBCore_SetupCallback. change (EOK =? EUSB_RESET) with false. cbv iota.
  eapply (leads_bind _ _ _ _ (λ _ s', usb_ok ua notify s')).
  { destruct (Z.eqb_spec size 0) as [|Hz]; [by apply leads_ret|]. exists (), (set_index (size / sizeof_setup -u 1) s). split; [done|].
    destruct Hs. split; try done. cbn.
    repeat (apply elem_of_cons in Hsize as [-> |Hsize]; [done || (unfold sizeof_setup, u32; cbn; lia)|]). by apply elem_of_nil in Hsize. }
  intros _ s1 H1. apply leads_get. destruct (setup_read s1 _ H1 (uo_index _ _ _ H1)) as [q E].
  eapply (leads_bind _ _ _ _ (λ a s', a = q ∧ s' = s1)); [exists q, s1; unfold usb_reads; by rewrite E|].
  intros ? ? [-> ->]. unfold USBCore_ProcessSetup. destruct (su_length q =? 0); [by apply setup_nodata_ok|by apply setup_data_ok].
Qed.

(** *** Callbacks *)

Lemma data_in_callback_ok s : usb_ok ua notify s → leads (USBCore_DataINCallback ua EOK) s (λ _, good).
Proof.
  intros Hs. apply leads_get. cond E; [|by apply status_out_stage]. cbv zeta. apply leads_modify. eapply leads_bind.
  - apply start_in; [by destruct Hs|by left].
  - intros _ s' (H1 & H2 & _). apply leads_ret. split; [done|by left].
Qed.

Lemma data_out_callback_ok s size :
  usb_ok ua notify s → size ≠ 64 → leads (USBCore_DataOUTCallback ds ua notify EOK size) s (λ _, good).
Proof.
  intros Hs Hsz. apply leads_get. cbv zeta. apply leads_modify. destruct (Z.eqb_spec size USB_CTRLEP_SIZE) as [|_]; [done|].
  apply setup_callback_ok; [by destruct Hs|set_solver].
Qed.

(** *** The end of a transfer *)

Definition idle_out (s : usb) : usb := set_out (mk_ep 0 EOK 0 0 None 0) s.

Lemma finish_in_ok s ec :
  usb_ok ua notify s → ec = EOK ∨ ec = EUSB_RESET →
  leads (USB_FinishTransfer ds ua notify ub_in set_in ec) s
    (λ _ s', usb_ok ua notify s' ∧ (busy (ub_in s) ∨ busy (ub_out s) → armed s')).
Proof.
  intros Hs Hec. apply leads_get, leads_modify.
  set (s1 := set_in _ s). assert (usb_ok ua notify s1) as H1.
  { destruct Hs. split; try done. left. split; [|done]. by destruct Hec as [-> | ->]. }
  assert (∀ p : prog usb unit, leads p s1 (λ _, good) → leads p s1 (λ _ s', usb_ok ua notify s' ∧ (busy (ub_in s) ∨ busy (ub_out s) → armed s'))) as Hgood.
  { intros p (? & ? & ? & ?). eexists _, _. split; [done|]. split; [apply H0|intros _; apply H0]. }
  destruct (uo_in _ _ _ Hs) as [[Hb ->]|[_ [-> | ->]]].
  - apply leads_ret. split; [done|]. intros [H|H]; [done|by right].
  - apply Hgood. destruct Hec as [-> | ->]; [by apply data_in_callback_ok|by apply setup_stage].
  - by apply Hgood, setup_stage.
Qed.

(** Memory that is at least what it was. *)
Definition grows (m m' : mem) : Prop := ∀ a, is_Some (m !! a) → is_Some (m' !! a).

(** How much of some data an endpoint takes. *)
Definition taken (e : usb_ep) (l : Z) : Z := if ep_ec e =? EBUSY then Z.min (ep_size e - ep_offs e) l else 0.
Definition advance (n : Z) (e : usb_ep) : usb_ep := mk_ep (ep_ptr e) (ep_ec e) (ep_size e) (ep_offs e + n) (ep_callback e) (ep_setup e).

Definition room (m : mem) (e : usb_ep) : Prop :=
  busy e → 0 ≤ ep_offs e ≤ ep_size e ∧ mapped m (ep_ptr e) (Z.to_nat (ep_size e)).

Lemma packet_ok s p :
  let e := ub_out s in room (ub_mem s) e → Forall is_u8 p →
  leads (USB_HandleRxlvlIsr p) s (λ _ s',
    ∃ m', s' = set_out (advance (taken e (length p)) e) (set_usb_mem m' s) ∧ grows (ub_mem s) m').
Proof.
  intros e Hr Hp. apply leads_get. cbv zeta. fold e.
  assert (Z.min (if (ep_ec e =? EBUSY) && (ep_offs e <? ep_size e) then ep_size e - ep_offs e else 0) (length p) = taken e (length p)) as ->.
  { unfold taken. destruct (Z.eqb_spec (ep_ec e) EBUSY) as [E|E]; [|cbn; lia]. destruct (Hr E) as [? _].
    destruct (Z.ltb_spec (ep_offs e) (ep_size e)); cbn [andb]; lia. }
  assert (mapped (ub_mem s) (ep_ptr e + ep_offs e) (length (take (Z.to_nat (taken e (length p))) p))) as Hm.
  { intros a Ha. rewrite length_take in Ha. unfold taken in Ha. destruct (Z.eqb_spec (ep_ec e) EBUSY) as [E|E]; [|lia].
    destruct (Hr E) as [? Hm]. apply Hm. lia. }
  eapply (leads_bind _ _ _ _ (λ _ s', ∃ m', s' = set_usb_mem m' s ∧ grows (ub_mem s) m')).
  - eexists (), _. split; [unfold usb_writes; rewrite store_bytes_ok by (done || by apply Forall_take); reflexivity|].
    eexists. split; [done|]. intros a [c Hc].
    apply (put_bytes_mapped (ub_mem s) _ _ a 1); [|lia]. intros j Hj. replace j with a by lia. by rewrite Hc.
  - intros [] s' (m' & -> & Hg). eexists (), _. split; [done|]. by exists m'.
Qed.

Lemma mapped_grows m m' a n : grows m m' → mapped m a n → mapped m' a n.
Proof. intros Hg H i Hi. by apply Hg, H. Qed.

Lemma receive_ok packets : ∀ s, let e := ub_out s in
  room (ub_mem s) e → Forall (Forall is_u8) packets →
  leads (receive packets) s (λ _ s',
    ∃ m', s' = set_out (advance (taken e (length (concat packets))) e) (set_usb_mem m' s) ∧ grows (ub_mem s) m').
Proof.
  induction packets as [|p packets IH]; intros s e Hr Hp.
  - apply leads_ret. exists (ub_mem s). split; [|by intros ?]. destruct s as [m i o]; cbn in *. unfold set_out, set_usb_mem; cbn. f_equal.
    unfold advance, taken, e; cbn. destruct o as [ptr ec size offs cb st]; cbn in *. f_equal. case_match; [|lia].
    destruct Hr as [? _]; [by apply Z.eqb_eq|]. cbn in *. lia.
  - apply Forall_cons in Hp as [Hp Hps]. eapply leads_bind; [by apply packet_ok|].
    intros [] s1 (m1 & -> & Hg1). fold e.
    destruct (IH (set_out (advance (taken e (length p)) e) (set_usb_mem m1 s))) as ([] & s2 & E & m2 & -> & Hg2); [|done|].
    { cbn. intros Hb. destruct (Hr Hb) as [? Hm]. split; [|by eapply mapped_grows]. unfold taken. case_match; cbn; lia. }
    eexists (), _. split; [exact E|]. exists m2. split; [|intros a Ha; by apply Hg2, Hg1].
    unfold set_out, set_usb_mem; cbn. f_equal. unfold advance, taken; cbn. rewrite length_app.
    f_equal. destruct (Z.eqb_spec (ep_ec e) EBUSY) as [Eb|Eb]; [destruct (Hr Eb) as [? _]|]; lia.
Qed.

Definition out_done (e : usb_ep) : Prop :=
  match ep_callback e with
  | None | Some StatusOUTCallback => True
  | Some SetupCallback => ep_offs e ∈ [8; 16; 24]%Z
  | Some DataOUTCallback => ep_offs e ≠ 64
  | _ => False
  end.

Lemma finish_out_ok s :
  usb_ok ua notify (idle_out s) → out_done (ub_out s) →
  leads (USB_FinishTransfer ds ua notify ub_out set_out EOK) s
    (λ _ s', usb_ok ua notify s' ∧ (busy (ub_in s) ∨ ep_callback (ub_out s) ≠ None → armed s')).
Proof.
  intros Hs Hd. apply leads_get, leads_modify.
  set (s1 := set_out _ s). assert (usb_ok ua notify s1) as H1.
  { destruct Hs. split; try done. by left. }
  assert (∀ (p : prog usb unit) P, leads p s1 (λ _, good) → leads p s1 (λ _ s', usb_ok ua notify s' ∧ (P → armed s'))) as Hgood.
  { intros p P (? & ? & E & H). eexists _, _. split; [done|]. split; [apply H|intros _; apply H]. }
  unfold out_done in Hd. destruct (ep_callback (ub_out s)) as [cb|].
  - apply Hgood. destruct cb; try done; unfold call_cb.
    + apply setup_callback_ok; [done|]. apply elem_of_cons. by right.
    + by apply setup_stage.
    + by apply data_out_callback_ok.
  - apply leads_ret. split; [done|]. intros [H|H]; [by left|done].
Qed.

(** With a reset, whatever was under way is given up. *)
Lemma reset_out_ok s : usb_ok ua notify s → leads (USB_FinishTransfer ds ua notify ub_out set_out EUSB_RESET) s (λ _, usb_ok ua notify).
Proof.
  intros Hs. apply leads_get, leads_modify.
  set (s1 := set_out _ s). assert (usb_ok ua notify s1) as H1 by (destruct Hs; split; try done; by left).
  assert (leads (USBCore_StartSETUPStage ua) s1 (λ _, usb_ok ua notify)) as Hstage.
  { destruct (setup_stage s1 H1) as (? & ? & ? & ?). eexists _, _. split; [done|apply H0]. }
  destruct (uo_out _ _ _ Hs) as [[_ ->]|(_ & _ & [[-> _]|[[-> _]|[-> _]]])]; [by apply leads_ret|by apply leads_ret|done|done].
Qed.

Lemma out_room s : usb_ok ua notify s → room (ub_mem s) (ub_out s).
Proof.
  intros Hs Hb. destruct (uo_out _ _ _ Hs) as [[? _]|(_ & -> & [(_ & -> & -> & _)|[(_ & -> & _)|(_ & H & Hm & _)]])]; [done| | |].
  - split; [lia|apply (uo_setup _ _ _ Hs)].
  - split; [lia|]. intros i Hi. lia.
  - split; [lia|done].
Qed.

(** *** Events *)

Lemma received_ok s packets :
  usb_ok ua notify s → Forall (Forall is_u8) packets →
  (∀ e, out_ok ua (ub_mem s) e → e = ub_out s → out_done (advance (taken e (length (concat packets))) e)) →
  leads (receive packets;; USB_FinishTransfer ds ua notify ub_out set_out EOK) s
    (λ _ s', usb_ok ua notify s' ∧ (armed s → armed s')).
Proof.
  intros Hs Hp Hd. eapply leads_bind; [apply receive_ok; [by apply out_room|done]|].
  intros [] s1 (m' & -> & Hg). destruct (finish_out_ok (set_out (advance (taken (ub_out s) (length (concat packets))) (ub_out s)) (set_usb_mem m' s)))
    as (a & s' & E & H1 & H2).
  - change (usb_ok ua notify (set_usb_mem m' (idle_out s))). apply usb_ok_mem; [|done]. destruct Hs. split; try done. by left.
  - apply Hd; [apply Hs|done].
  - exists a, s'. split; [done|]. split; [done|]. intros [Ha|Ha]; apply H2; [by left|right]. cbn.
    destruct (uo_out _ _ _ Hs) as [[? _]|(_ & _ & [[-> _]|[[-> _]|[-> _]]])]; done.
Qed.

Lemma usb_reset_ok s : usb_ok ua notify s → leads (usb_step ds ua notify EvReset) s (λ _ s', usb_ok ua notify s' ∧ (armed s → armed s')).
Proof. intros []. eexists (), _. split; [reflexivity|]. split; [|done]. split; try done. split; [done|by left]. Qed.

Lemma enum_ok s : usb_ok ua notify s → leads (usb_step ds ua notify EvEnum) s (λ _, good).
Proof.
  intros Hs. destruct (finish_in_ok s EUSB_RESET) as (a & s' & E & H1 & H2); [done|by right|].
  eapply (leads_bind _ _ _ _ (λ _, usb_ok ua notify)); [by exists a, s'|]. intros _ s2 Hs2.
  eapply leads_bind; [by apply reset_out_ok|]. intros ? s3 Hs3. by apply setup_stage.
Qed.

Lemma step_ok s ev : good s → possible s ev → leads (usb_step ds ua notify ev) s (λ _, good).
Proof.
  intros [Hs Ha] Hp.
  assert (∀ p : prog usb unit, leads p s (λ _ s', usb_ok ua notify s' ∧ (armed s → armed s')) → leads p s (λ _, good)) as Hkeep.
  { intros p (x & s' & E & H1 & H2). exists x, s'. split; [done|]. split; [done|by apply H2]. }
  destruct ev as [packets|packet| | |]; cbn [usb_step].
  - destruct Hp as [Hn Hp]. apply Hkeep, received_ok; [done|by apply Forall_and in Hp as [_ Hp]|].
    assert (length (concat packets) = 8 * length packets)%nat as ->.
    { clear Hn. induction Hp as [|p ps [Hl _] _ IH]; [done|]. cbn [concat length]. rewrite length_app. lia. }
    intros e [[_ H]|(Hb & Ho & H)] _; unfold out_done, advance, taken; cbn; [by rewrite H|]. rewrite Ho, (proj2 (Z.eqb_eq _ _) Hb).
    destruct H as [(-> & _ & -> & _)|[(-> & _)|(-> & ? & _)]]; [|done|lia].
    destruct (length packets) as [|[|[|[|n]]]]; [lia|vm_compute; repeat constructor..|lia].
  - destruct Hp as (Hb & Hst & Hl & Hu). apply Hkeep.
    apply received_ok; [done|by apply Forall_singleton|]. intros e He ->. destruct He as [[? _]|(_ & Ho & H)]; [done|].
    unfold out_done, advance, taken; cbn. rewrite app_nil_r, Ho, (proj2 (Z.eqb_eq _ _) Hb).
    destruct H as [(_ & _ & _ & ?)|[(-> & _)|(-> & ? & _)]]; [congruence|done|lia].
  - apply Hkeep. apply leads_bind with (R := λ _ s', s' = set_in (advance (ep_size (ub_in s) - ep_offs (ub_in s)) (ub_in s)) s).
    { eexists (), _. split; [reflexivity|]. unfold advance. f_equal. f_equal. lia. }
    intros _ ? ->. set (s1 := set_in _ s). destruct (finish_in_ok s1 EOK) as (a & s' & E & H1 & H2); [|by left|].
    + destruct Hs. by split.
    + exists a, s'. split; [done|]. split; [done|]. exact H2.
  - by apply Hkeep, usb_reset_ok.
  - by apply enum_ok.
Qed.

(** Any number of events, each of them possible where it happens. *)
Fixpoint all_possible (evs : list usb_event) (s : usb) : Prop :=
  match evs with
  | [] => True
  | ev :: evs' => possible s ev ∧ ∀ s', usb_step ds ua notify ev s = Ok ((), s') → all_possible evs' s'
  end.
End alive.

(** ** A control read

    The host sends a setup packet, takes packets until one is short or it has as
    much as it asked for, and ends with an empty packet of its own. *)

Definition setup_bytes (q : usb_setup) : list Z :=
  [su_request_type q; su_request q; su_value q `mod` 256; su_value q / 256; su_index q `mod` 256; su_index q / 256;
   su_length q `mod` 256; su_length q / 256].

Definition setup_fits (q : usb_setup) : Prop :=
  is_u8 (su_request_type q) ∧ is_u8 (su_request q) ∧ is_u16 (su_value q) ∧ is_u16 (su_index q) ∧ is_u16 (su_length q).

Section host.
Context (ds : usb_descset) (ua : usb_arrays) (notify : usbcore_req_evarg → usbcore_req_evarg).

Fixpoint host_take (fuel : nat) (left : Z) : prog usb (list Z) :=
  match fuel with
  | O => fault OutOfFuel
  | S fuel =>
      e ← get ub_in;
      packet ← usb_reads (λ m, load_bytes m (ep_ptr e) (Z.to_nat (ep_size e)));
      usb_step ds ua notify EvIn;;
      if (length packet <? USB_CTRLEP_SIZE) || (left <=? length packet) then mret packet
      else rest ← host_take fuel (left - length packet); mret (packet ++ rest)
  end.

Definition control_read (fuel : nat) (q : usb_setup) : prog usb (list Z) :=
  usb_step ds ua notify (EvSetup [setup_bytes q]);;
  bs ← host_take fuel (su_length q);
  usb_step ds ua notify (EvOut []);; mret bs.
End host.

(** Waiting for a setup packet, with nothing left to send. *)
Record ready (ua : usb_arrays) (s : usb) : Prop := {
  rd_setup : mapped (ub_mem s) (ua_setup ua) 24;
  rd_in : ¬ busy (ub_in s);
  rd_out : busy (ub_out s) ∧ ep_callback (ub_out s) = Some SetupCallback ∧ ep_ptr (ub_out s) = ua_setup ua ∧
           ep_size (ub_out s) = 24 ∧ ep_offs (ub_out s) = 0 }.

(** [n] bytes at [ptr] are being sent, those from packet [i] on are left. *)
Record sending (ptr n : Z) (i : Z) (s : usb) : Prop := {
  sn_in : busy (ub_in s) ∧ ep_callback (ub_in s) = Some DataINCallback ∧
          ep_ptr (ub_in s) = ptr + 64 * i ∧ ep_size (ub_in s) = Z.min 64 (n - 64 * i);
  sn_ctl : ub_ptr s = ptr ∧ ub_size s = n ∧ ub_offset s = 64 * i }.

Definition waits_status (s : usb) : Prop := busy (ub_out s) ∧ ep_callback (ub_out s) = Some StatusOUTCallback.

Section reading.
Context (ds : usb_descset) (ua : usb_arrays) (notify : usbcore_req_evarg → usbcore_req_evarg).

Lemma setup_at_bytes m p q : setup_fits q → bytes_at m p (setup_bytes q) → setup_at m p = Ok q.
Proof.
  intros (H1 & H2 & H3 & H4 & H5) Hb. unfold setup_at.
  pose proof (bytes_at_load8 _ _ _ 0 _ Hb eq_refl) as E0. rewrite Z.add_0_r in E0. rewrite E0, bind_Ok.
  rewrite (bytes_at_load8 _ _ _ 1 _ Hb eq_refl : load8 m (p + 1) = _), bind_Ok.
  rewrite (load16_bytes _ _ _ 2 _ _ Hb eq_refl eq_refl : load16 m (p + 2) = _), bind_Ok.
  rewrite (load16_bytes _ _ _ 4 _ _ Hb eq_refl eq_refl : load16 m (p + 4) = _), bind_Ok.
  rewrite (load16_bytes _ _ _ 6 _ _ Hb eq_refl eq_refl : load16 m (p + 6) = _), bind_Ok.
  destruct q; cbn in *. repeat f_equal; lia.
Qed.

Ltac act := cbn [call_cb]; unfold hw; repeat first [apply leads_get|apply leads_modify]; cbn.

Lemma take_packet s (Q : unit → usb → Prop) cb :
  busy (ub_in s) → ep_callback (ub_in s) = Some cb →
  leads (call_cb ds ua notify cb EOK (ep_size (ub_in s))) (set_in (mk_ep (ep_ptr (ub_in s)) EOK (ep_size (ub_in s)) (ep_size (ub_in s)) None 0) s) Q →
  leads (usb_step ds ua notify EvIn) s Q.
Proof.
  intros Hb Hc HQ. apply (leads_bind _ _ _ _ (λ _ s', s' = set_in (mk_ep (ep_ptr (ub_in s)) (ep_ec (ub_in s)) (ep_size (ub_in s)) (ep_size (ub_in s)) (Some cb) (ep_setup (ub_in s))) s)).
  { eexists (), _. split; [reflexivity|]. by rewrite Hc. }
  intros _ ? ->. apply leads_get, leads_modify. exact HQ.
Qed.

(** The packet under way is taken: the next one is started, or the data is over. *)
Lemma packet_taken s ptr n i :
  sending ptr n i s → 0 ≤ i → 64 * i ≤ n < 2^32 → waits_status s →
  leads (usb_step ds ua notify EvIn) s (λ _ s', ub_mem s' = ub_mem s ∧ ub_out s' = ub_out s ∧ ub_dev s' = ub_dev s ∧
    (if 64 <=? n - 64 * i then sending ptr n (i + 1) s' else ¬ busy (ub_in s'))).
Proof.
  intros [(Hb & Hc & Hp & Hs) (H1 & H2 & H3)] Hi Hn [Hw _]. apply (take_packet _ _ _ Hb Hc).
  cbn [call_cb]. unfold USBCore_DataINCallback. change (EOK =? EUSB_RESET) with false. cbv iota. apply leads_get. cbn.
  rewrite H1, H2, H3. assert (n -u 64 * i = n - 64 * i) as -> by (rewrite u32_small by word_lia; lia).
  unfold USB_CTRLEP_SIZE. destruct (Z.leb_spec 64 (n - 64 * i)) as [Hl|Hl].
  - rewrite Z.min_l by lia. assert (64 * i +u 64 = 64 * (i + 1)) as -> by (rewrite u32_small by word_lia; lia).
    assert (n -u 64 * (i + 1) = n - 64 * (i + 1)) as -> by (rewrite u32_small by word_lia; lia).
    apply leads_modify. apply (leads_bind _ _ _ _ (λ _ s', ub_mem s' = ub_mem s ∧ ub_out s' = ub_out s ∧ ub_dev s' = ub_dev s ∧ sending ptr n (i + 1) s')).
    + act. apply leads_ret. done.
    + intros _ s' H. by apply leads_ret.
  - apply (leads_bind _ _ _ _ (λ _ s', ub_mem s' = ub_mem s ∧ ub_out s' = ub_out s ∧ ub_dev s' = ub_dev s ∧ ¬ busy (ub_in s'))).
    + apply leads_get. cbn. rewrite Hw. by apply leads_ret.
    + intros _ s' H. by apply leads_ret.
Qed.

Lemma host_takes ptr bs L (fuel : nat) : ∀ s i,
  let n := Z.of_nat (length bs) in
  sending ptr n i s → waits_status s → bytes_at (ub_mem s) ptr bs →
  0 ≤ i → 64 * i ≤ n < 2^32 → n ≤ L → (n = L → n `mod` 64 ≠ 0) → n - 64 * i < 64 * fuel →
  leads (host_take ds ua notify fuel (L - 64 * i)) s (λ r s',
    r = drop (Z.to_nat (64 * i)) bs ∧ ub_mem s' = ub_mem s ∧ ub_out s' = ub_out s ∧ ub_dev s' = ub_dev s ∧ ¬ busy (ub_in s')).
Proof.
  induction fuel as [|fuel IH]; intros s i n Hs Hw Hb Hi Hn HL Hm Hf; [lia|].
  cbn [host_take]. apply leads_get. destruct (sn_in _ _ _ _ Hs) as (_ & _ & -> & ->).
  set (k := Z.to_nat (Z.min 64 (n - 64 * i))). set (rest := drop (Z.to_nat (64 * i)) bs).
  assert (length rest = Z.to_nat (n - 64 * i)) as Hrest by (unfold rest; rewrite length_drop; lia).
  assert (length (take k rest) = k) as Hk by (rewrite length_take; lia).
  apply (leads_bind _ _ _ _ (λ r s', r = take k rest ∧ s' = s)).
  { exists (take k rest), s. split; [|done]. unfold usb_reads. rewrite <- Hk at 1. rewrite load_bytes_ok; [done|].
    apply bytes_at_take. replace (ptr + 64 * i) with (ptr + Z.to_nat (64 * i)) by lia. apply bytes_at_drop; [lia|done]. }
  intros ? ? [-> ->]. eapply leads_bind; [eapply packet_taken; [exact Hs|lia..|exact Hw]|].
  intros [] s1 (Em & Eo & Ed & Hs1). rewrite Hk. unfold USB_CTRLEP_SIZE. destruct (Z.leb_spec 64 (n - 64 * i)) as [Hl|Hl].
  - assert (k = 64%nat) as -> by (unfold k; lia). destruct (Z.leb_spec (L - 64 * i) 64%nat) as [Hx|Hx].
    { exfalso. assert (n = L) as E by lia. apply (Hm E). replace n with ((i + 1) * 64) by lia. apply Z.mod_mul. lia. }
    cbn [orb Z.ltb]. replace (64%nat <? 64) with false by done. cbn [orb].
    replace (L - 64 * i - 64%nat) with (L - 64 * (i + 1)) by lia.
    eapply leads_bind; [apply (IH s1 (i + 1)); try done; try lia|].
    + unfold waits_status. by rewrite Eo.
    + by rewrite Em.
    + intros r s2 (-> & Em2 & Eo2 & Ed2 & Hb2). apply leads_ret. split; [|by rewrite Em2, Eo2, Ed2].
      replace (Z.to_nat (64 * (i + 1))) with (Z.to_nat (64 * i) + 64)%nat by lia. rewrite <- drop_drop. fold rest. by rewrite take_drop.
  - replace (k <? 64) with true by (symmetry; apply Z.ltb_lt; lia). cbn [orb]. apply leads_ret. split; [|done].
    apply take_ge. lia.
Qed.

(** A setup packet is read back as it was sent. *)
Lemma setup_arrives s q (Q : unit → usb → Prop) :
  ready ua s → setup_fits q →
  (∀ s1, ub_mem s1 = put_bytes (ub_mem s) (ua_setup ua) (setup_bytes q) → ¬ busy (ub_in s1) → ¬ busy (ub_out s1) →
     ub_dev s1 = ub_dev s → ub_ptr s1 = ub_ptr s →
     leads (USBCore_ProcessSetup ds ua notify q) s1 Q) →
  leads (usb_step ds ua notify (EvSetup [setup_bytes q])) s Q.
Proof.
  intros [Hm Hi (Hb & Hc & Hp & Hs & Ho)] Hq HQ. cbn [usb_step receive].
  set (m' := put_bytes (ub_mem s) (ua_setup ua) (setup_bytes q)).
  apply (leads_bind _ _ _ _ (λ _ s1, s1 = set_out (mk_ep (ua_setup ua) EBUSY 24 8 (Some SetupCallback) (ep_setup (ub_out s))) (set_usb_mem m' s))).
  { apply leads_unit. apply leads_get. unfold busy in Hb. rewrite Hc, Hp, Hs, Ho, Hb, Z.add_0_r. cbv zeta.
    apply (leads_bind _ _ _ _ (λ _ s1, s1 = set_usb_mem m' s)).
    - eexists (), _. split; [|reflexivity]. unfold usb_writes.
      change (take _ (setup_bytes q)) with (setup_bytes q). rewrite store_bytes_ok; [done| |].
      + eapply mapped_le; [|exact Hm]. cbn. lia.
      + destruct Hq as (H1 & H2 & H3 & H4 & H5). repeat (apply Forall_cons; split); try done; try apply Forall_nil; word_lia.
    - intros _ ? ->. by eexists (), _. }
  intros _ ? ->. apply leads_get, leads_modify. cbn [ep_callback ub_out set_out call_cb ep_offs]. unfold USBCore_SetupCallback.
  change (EOK =? EUSB_RESET) with false. change (8 =? 0) with false. cbv iota. apply leads_modify, leads_get.
  set (s1 := set_index _ _). apply (leads_bind _ _ _ _ (λ r s', r = q ∧ s' = s1)).
  { exists q, s1. split; [|done]. unfold usb_reads. cbn [s1 ub_mem set_index ub_index set_out set_usb_mem].
    change (ua_setup ua + sizeof_setup * (8 / sizeof_setup -u 1)) with (ua_setup ua + 0). rewrite Z.add_0_r, (setup_at_bytes _ _ q); [done|done|].
    apply put_bytes_bytes_at. }
  intros ? ? [-> ->]. by apply HQ.
Qed.

(** The empty packet at the end brings the endpoint back to where it was. *)
Lemma status_taken s :
  mapped (ub_mem s) (ua_setup ua) 24 → waits_status s → ¬ busy (ub_in s) →
  leads (usb_step ds ua notify (EvOut [])) s (λ _ s', ready ua s' ∧ ub_mem s' = ub_mem s ∧ ub_dev s' = ub_dev s).
Proof.
  intros Hm [Hb Hc] Hi. cbn [usb_step receive].
  apply (leads_bind _ _ _ _ (λ _ s1, s1 = set_out (ub_out s) s)).
  { apply leads_unit. apply leads_get. cbv zeta.
    apply (leads_bind _ _ _ _ (λ _ s1, s1 = s)).
    - eexists (), _. split; [|reflexivity]. unfold usb_writes. rewrite take_nil. cbn. by destruct s.
    - intros _ ? ->. eexists (), _. split; [reflexivity|]. f_equal. destruct (ub_out s) as [p ec sz o c st]. f_equal. cbn. case_match; lia. }
  intros _ ? ->. apply leads_get, leads_modify. cbn [ep_callback ub_out set_out]. rewrite Hc.
  cbn [call_cb]. unfold USBCore_StatusOUTCallback, USBCore_StartSETUPStage. apply leads_get, leads_modify.
  apply (leads_bind _ _ _ _ (λ _ s', ready ua s' ∧ ub_mem s' = ub_mem s ∧ ub_dev s' = ub_dev s)).
  - act. apply leads_ret. split; [|done]. split; cbn; try done.
  - intros _ s' H. by apply leads_ret.
Qed.

Lemma descriptor_sent s1 q d :
  su_request_type q = USB_SETUP_REQTYPE_DIR → su_request q = USB_SETUP_REQ_GET_DESCRIPTOR → 0 < su_length q →
  descriptor ds (mk_usb_desc 0 0) (Z.shiftr (su_value q) 8) (u8 (su_value q)) = Some d →
  let n := Z.min (ud_size d) (su_length q) in
  notify (mk_req q EOK (ud_ptr d) n) = mk_req q EOK (ud_ptr d) n →
  ¬ busy (ub_in s1) → ¬ busy (ub_out s1) →
  leads (USBCore_ProcessSetup ds ua notify q) s1 (λ _ s2,
    sending (ud_ptr d) n 0 s2 ∧ waits_status s2 ∧ ub_mem s2 = ub_mem s1 ∧ ub_dev s2 = ub_dev s1).
Proof.
  intros Ht Hr HL Hd n Hn Hi Ho. unfold USBCore_ProcessSetup. rewrite (proj2 (Z.eqb_neq _ _)) by lia.
  unfold USBCore_ProcessSetupData. rewrite Ht, Hr. change (has USB_SETUP_REQTYPE_DIR USB_SETUP_REQTYPE_DIR) with true.
  change (Z.land USB_SETUP_REQTYPE_DIR USB_SETUP_REQTYPE_TYPE =? USB_SETUP_REQTYPE_TYPE_STANDARD) with true.
  change (USB_SETUP_REQ_GET_DESCRIPTOR =? USB_SETUP_REQ_GET_DESCRIPTOR) with true. cbn [andb].
  eapply (leads_bind _ _ _ _ (λ r s', r = (EOK, ud_ptr d, n) ∧ s' = s1)).
  { eexists _, _. split; [reflexivity|]. split; [|done]. unfold USBCore_ProcessSetupGetDescriptor, recipient. rewrite Ht.
    change (Z.land USB_SETUP_REQTYPE_DIR USB_SETUP_REQTYPE_RECIPIENT =? USB_SETUP_REQTYPE_RECIPIENT_DEVICE) with true. by rewrite Hd. }
  intros ? ? [-> ->]. rewrite Hn. cbn [ra_status ra_ptr ra_size Z.eqb EOK]. unfold USBCore_StartDataINStage. apply leads_modify.
  apply (leads_bind _ _ _ _ (λ _ s', sending (ud_ptr d) n 0 s' ∧ ub_out s' = ub_out s1 ∧ ub_mem s' = ub_mem s1 ∧ ub_dev s' = ub_dev s1)).
  { apply leads_get. cbn. unfold busy in Hi. rewrite (proj2 (Z.eqb_neq _ _) Hi). act. apply leads_ret. split; [|done].
    split; cbn; [|done]. repeat split; try done; unfold USB_CTRLEP_SIZE; lia. }
  intros _ s2 ([Hs2 Hc2] & Eo & Em & Ed). apply (leads_bind _ _ _ _ (λ _ s', sending (ud_ptr d) n 0 s' ∧ waits_status s' ∧ ub_mem s' = ub_mem s1 ∧ ub_dev s' = ub_dev s1)).
  { apply leads_get. unfold busy in Ho. rewrite Eo, (proj2 (Z.eqb_neq _ _) Ho). act. apply leads_ret. split; [by split|by repeat split]. }
  intros _ s3 H. by apply leads_ret.
Qed.
End reading.

(** *** The claims *)

(** C16: a control read gives the host the first [wLength] bytes of the descriptor
    it asks for - in packets of 64 bytes, the last one short - and the endpoint
    waits for the next setup packet after the status stage.  A transfer that ends
    with a full packet exactly where the host stops is excluded: one more packet
    is then left pending. *)
Theorem control_read_served ds ua notify s q d bs (fuel : nat) :
  ready ua s → setup_fits q →
  su_request_type q = USB_SETUP_REQTYPE_DIR → su_request q = USB_SETUP_REQ_GET_DESCRIPTOR → 0 < su_length q →
  descriptor ds (mk_usb_desc 0 0) (Z.shiftr (su_value q) 8) (u8 (su_value q)) = Some d →
  bytes_at (ub_mem s) (ud_ptr d) bs → ud_size d = length bs → length bs < 2^32 →
  ua_setup ua + 8 ≤ ud_ptr d ∨ ud_ptr d + length bs ≤ ua_setup ua →
  (∀ n, notify (mk_req q EOK (ud_ptr d) n) = mk_req q EOK (ud_ptr d) n) →
  (su_length q ≤ length bs → su_length q `mod` 64 ≠ 0) →
  length bs < 64 * fuel →
  ∃ s', control_read ds ua notify fuel q s = Ok (take (Z.to_nat (su_length q)) bs, s') ∧ ready ua s' ∧ ub_dev s' = ub_dev s.
Proof.
  intros Hs Hq Ht Hr HL Hd Hb Hsz Hlt Hdis Hn Hm Hf. set (n := Z.min (ud_size d) (su_length q)).
  assert (Z.of_nat (length (take (Z.to_nat (su_length q)) bs)) = n) as Hlen by (rewrite length_take; lia).
  enough (leads (control_read ds ua notify fuel q) s
    (λ r s', r = take (Z.to_nat (su_length q)) bs ∧ ready ua s' ∧ ub_dev s' = ub_dev s)) as (r & s' & E & -> & H) by (by exists s').
  eapply leads_bind.
  { apply setup_arrives; [done..|]. intros s1 Em Hi Ho Ed _. destruct (descriptor_sent ds ua notify s1 q d) as (a & s2 & E & H); [done..|].
    exists a, s2. split; [exact E|]. rewrite Em, Ed in H. exact H. }
  intros _ s2 (Hsend & Hw & Em & Ed).
  eapply (leads_bind _ _ _ _ (λ r s3, (r = take (Z.to_nat (su_length q)) bs ∧ ¬ busy (ub_in s3)) ∧ waits_status s3 ∧ ub_mem s3 = ub_mem s2 ∧ ub_dev s3 = ub_dev s)).
  { destruct (host_takes ds ua notify (ud_ptr d) (take (Z.to_nat (su_length q)) bs) (su_length q) fuel s2 0) as (r & s3 & E & H); rewrite ?Hlen; try done; try lia.
    - rewrite Em. apply bytes_at_take, put_bytes_bytes_at_other; [|done]. exact Hdis.
    - rewrite Z.sub_0_r in E. exists r, s3. split; [exact E|]. destruct H as (-> & H1 & H2 & H3 & H4).
      split; [done|]. unfold waits_status. by rewrite H2, H3. }
  intros r s3 ([-> Hi] & Hw3 & Em3 & Ed3). eapply leads_bind; [apply status_taken; [|done..]|].
  - rewrite Em3, Em. apply put_bytes_mapped, Hs.
  - intros _ s4 (H1 & _ & H2). apply leads_ret. by rewrite H2.
Qed.

Definition usb_init (m : mem) : usb := mk_usb m zero_ep zero_ep 0 0 0 0 zero_device [].

Lemma usb_run_two ds ua notify ev1 ev2 s s2 : usb_run ds ua notify [ev1; ev2] s = Ok ((), s2) →
  ∃ s1, usb_step ds ua notify ev1 s = Ok ((), s1) ∧ usb_step ds ua notify ev2 s1 = Ok ((), s2).
Proof.
  cbn [usb_run]. intros E. apply prog_bind_inv in E as ([] & s1 & E1 & E). exists s1. split; [done|].
  apply prog_bind_inv in E as ([] & s2' & E2 & E). rewrite E2. exact E.
Qed.

Section alive.
Context (ds : usb_descset) (ua : usb_arrays) (notify : usbcore_req_evarg → usbcore_req_evarg).
Context (Hds : ds_ifaces_num ds ≤ 10).

Lemma run_ok evs : ∀ s, good ua notify s → all_possible ds ua notify evs s → leads (usb_run ds ua notify evs) s (λ _, good ua notify).
Proof.
  induction evs as [|ev evs IH]; intros s Hs Hp; [by apply leads_ret|]. destruct Hp as [Hev Hp].
  destruct (step_ok ds ua notify Hds s ev Hs Hev) as ([] & s1 & E & H1).
  destruct (IH s1 H1 (Hp s1 E)) as ([] & s2 & E2 & H2). exists (), s2. split; [|done]. cbn [usb_run].
  by rewrite (prog_bind_Ok _ _ _ _ _ E).
Qed.

(** The first reset and the end of the enumeration. *)
Lemma start_ok m : mapped m (ua_setup ua) 24 → mapped m (ua_buf ua) 16 → data_room notify m →
  leads (usb_run ds ua notify [EvReset; EvEnum]) (usb_init m) (λ _, good ua notify).
Proof.
  intros H1 H2 H3. eapply leads_bind.
  - apply usb_reset_ok. split; try done; [split; [done|by left]|by left|by left].
  - intros [] s1 [Hs1 _]. by apply leads_unit, enum_ok.
Qed.
End alive.

(** C14: whatever the host does - any setup packet, in any number and order, data,
    resets - every event is handled without a fault and the control endpoint goes
    on waiting for the host in one direction at least; state, address and
    configuration of the device always go together. *)
Theorem usb_control_alive ds ua notify m evs :
  ds_ifaces_num ds ≤ 10 → mapped m (ua_setup ua) 24 → mapped m (ua_buf ua) 16 → data_room notify m →
  all_possible ds ua notify (EvReset :: EvEnum :: evs) (usb_init m) →
  ∃ s', usb_run ds ua notify (EvReset :: EvEnum :: evs) (usb_init m) = Ok ((), s') ∧ armed s' ∧ device_ok (ub_dev s').
Proof.
  intros Hds Hm1 Hm2 Hr Hp. destruct (start_ok ds ua notify m Hm1 Hm2 Hr) as ([] & s2 & E & H2).
  destruct (usb_run_two _ _ _ _ _ _ _ E) as (s1 & E1 & E2). destruct Hp as [_ Hp]. destruct (Hp s1 E1) as [_ Hp'].
  destruct (run_ok ds ua notify Hds evs s2 H2 (Hp' s2 E2)) as ([] & s' & E' & [H3 H4]). exists s'. split; [|split; [done|apply H3]].
  cbn [usb_run]. by rewrite (prog_bind_Ok _ _ _ _ _ E1), (prog_bind_Ok _ _ _ _ _ E2).
Qed.

(** *** Runs *)

Definition demo_da : desc_addrs := mk_desc_addrs 4000 4100 4200 4400 4500 4600 4700.
Definition demo_ua : usb_arrays := mk_usb_arrays 1000 1100 1200.
Definition demo_usb_mem : mem :=
  foldr (λ '(a, l) m, put_bytes m a l) ∅
    [(1000, replicate 24 0); (1100, replicate 16 0); (1200, replicate 7 0x55);
     (4000, device_desc); (4100, qualifier_desc); (4200, config0_desc);
     (4400, string0_desc); (4500, string1_desc); (4600, string2_desc); (4700, string3_desc)].

Definition demo_ds : usb_descset := usb_descriptors demo_da.
Definition demo_notify := USBVCP_RequestCallback (ua_le demo_ua).
Definition start : list usb_event := [EvReset; EvEnum].
Definition setup (request_type request value index len : Z) : usb_event :=
  EvSetup [setup_bytes (mk_setup request_type request value index len)].
Definition demo_run (evs : list usb_event) : res usb :=
  '(_, s) ← usb_run demo_ds demo_ua demo_notify evs (usb_init demo_usb_mem); Ok s.

(** What is under way in the two directions: size and callback. *)
Definition under_way (s : usb) : option (Z * option usb_cb) * option (Z * option usb_cb) :=
  let f e := if ep_ec e =? EBUSY then Some (ep_size e, ep_callback e) else None in (f (ub_in s), f (ub_out s)).
Definition demo_under_way (evs : list usb_event) := s ← demo_run evs; Ok (under_way s).
(** The same, after a control read. *)
Definition demo_read (evs : list usb_event) (q : usb_setup) : res (list Z * (option (Z * option usb_cb) * option (Z * option usb_cb))) :=
  s ← demo_run (start ++ evs); '(bs, s) ← control_read demo_ds demo_ua demo_notify 10 q s; Ok (bs, under_way s).
Definition get_descriptor (desc_type desc_index len : Z) : usb_setup :=
  mk_setup 0x80 USB_SETUP_REQ_GET_DESCRIPTOR (256 * desc_type + desc_index) 0 len.

Definition waiting : option (Z * option usb_cb) * option (Z * option usb_cb) := (None, Some (24, Some SetupCallback)).

Example started : demo_under_way start = Ok waiting.
Proof. vm_compute. reflexivity. Qed.

(** A device is found: its descriptor, an address, the whole of its configuration,
    which is chosen. *)
Definition set_address (a : Z) : list usb_event := [setup 0x00 USB_SETUP_REQ_SET_ADDRESS a 0 0; EvIn].
Definition set_configuration (c : Z) : list usb_event := [setup 0x00 USB_SETUP_REQ_SET_CONFIGURATION c 0 0; EvIn].
Example device_found :
  demo_read [] (get_descriptor 1 0 64) = Ok (device_desc, waiting) ∧
  demo_read (set_address 5) (get_descriptor 2 0 255) = Ok (config0_desc, waiting) ∧
  (s ← demo_run (start ++ set_address 5 ++ set_configuration 1); Ok (dv_state (ub_dev s), under_way s)) = Ok (USB_DEV_CONFIGURED, waiting).
Proof. vm_compute. done. Qed.

(** A halt is set, asked for and cleared. *)
Definition configured : list usb_event := set_address 5 ++ set_configuration 1.
Definition set_halt (ep : Z) : list usb_event := [setup 0x02 USB_SETUP_REQ_SET_FEATURE 0 ep 0; EvIn].
Definition clear_halt (ep : Z) : list usb_event := [setup 0x02 USB_SETUP_REQ_CLEAR_FEATURE 0 ep 0; EvIn].
Definition get_status (ep : Z) : usb_setup := mk_setup 0x82 USB_SETUP_REQ_GET_STATUS 0 ep 2.
Example halts :
  demo_read (configured ++ set_halt 0x82) (get_status 0x82) = Ok ([1; 0], waiting) ∧
  demo_read (configured ++ set_halt 0x82) (get_status 0x02) = Ok ([0; 0], waiting) ∧
  demo_read (configured ++ set_halt 0x82 ++ clear_halt 0x82) (get_status 0x82) = Ok ([0; 0], waiting).
Proof. vm_compute. done. Qed.

(** A request the device does not know is refused, and it waits for the next one. *)
Example unknown_request :
  (s ← demo_run (start ++ [setup 0x80 0x42 0 0 4]); Ok (drop 5 (ub_hw s), under_way s)) =
  Ok ([HwStallIN; HwStallOUT; HwSETUP], waiting).
Proof. vm_compute. reflexivity. Qed.

(** A string there is none of is not refused: the answer is empty. *)
Example missing_string : demo_read [] (get_descriptor 3 4 255) = Ok ([], waiting).
Proof. vm_compute. reflexivity. Qed.

(** The address is in use before the status stage, though it is to be so after it. *)
Example address_too_early :
  (s ← demo_run (start ++ [setup 0x00 USB_SETUP_REQ_SET_ADDRESS 5 0 0]); Ok (drop 5 (ub_hw s), under_way s)) =
  Ok ([HwAddress 5; HwIN 1 0], (Some (0, Some StatusINCallback), None)).
Proof. vm_compute. reflexivity. Qed.

(** A host that asks for 64 bytes of 116 does not take the empty packet that follows:
    that transfer stays, and the answer to the next request is never started. *)
Example full_packet_left :
  demo_read [] (get_descriptor 2 0 64) = Ok (take 64 config0_desc, (Some (0, Some DataINCallback), Some (24, Some SetupCallback))) ∧
  demo_read [setup 0x80 6 0x200 0 64; EvIn; EvOut []] (get_descriptor 1 0 18) = Ok ([], waiting).
Proof. vm_compute. done. Qed.

(** The answer to a request of the serial port is not cut to what is asked for. *)
Example line_coding_too_long :
  demo_read configured (mk_setup 0xA1 USB_VCP_REQ_GET_LINE_CODING 0 0 2) = Ok (replicate 7 0x55, waiting).
Proof. vm_compute. reflexivity. Qed.

(** A line coding is written and read back. *)
Definition line_coding : list Z := [0; 0xC2; 1; 0; 0; 0; 8].
Definition set_line_coding : list usb_event := [setup 0x21 USB_VCP_REQ_SET_LINE_CODING 0 0 7; EvOut line_coding; EvIn].
Example line_coding_kept :
  demo_read (configured ++ set_line_coding) (mk_setup 0xA1 USB_VCP_REQ_GET_LINE_CODING 0 0 7) = Ok (line_coding, waiting).
Proof. vm_compute. reflexivity. Qed.

(** Control line states come without data; with some announced, every packet is
    taken for data of which there is no room, and the status is never sent. *)
Example line_state_with_data :
  demo_under_way (start ++ configured ++ [setup 0x21 USB_VCP_SET_CONTROL_LINE_STATE 3 0 1; EvOut [0]; EvOut [0]]) =
  Ok (None, Some (0, Some DataOUTCallback)).
Proof. vm_compute. reflexivity. Qed.

(** A host that gives up a read and sends another setup packet loses that: endpoint
    0 is ready for a status stage only. *)
Example new_setup_lost :
  demo_under_way (start ++ [setup 0x80 6 0x100 0 18; setup 0x80 6 0x100 0 18; EvIn]) = Ok waiting ∧
  demo_under_way (start ++ [setup 0x80 6 0x100 0 18; EvIn; setup 0x80 6 0x100 0 18]) = Ok waiting.
Proof. vm_compute. done. Qed.

(** *** Witnesses *)

Definition possible_b (s : usb) (ev : usb_event) : bool :=
  let bytes := forallb (λ c, (0 <=? c) && (c <? 256)) in
  match ev with
  | EvSetup packets => bool_decide (1 ≤ length packets ≤ 3)%nat && forallb (λ p, (length p =? 8) && bytes p) packets
  | EvOut packet => (ep_ec (ub_out s) =? EBUSY) && (ep_setup (ub_out s) =? 0) && (length packet <=? 64) && bytes packet
  | _ => true
  end.
Fixpoint all_possible_b ds ua notify (evs : list usb_event) (s : usb) : bool :=
  match evs with
  | [] => true
  | ev :: evs =>
      possible_b s ev && match usb_step ds ua notify ev s with Ok (_, s) => all_possible_b ds ua notify evs s | Fault _ => true end
  end.

Lemma bytes_checked l : forallb (λ c, (0 <=? c) && (c <? 256)) l = true → Forall is_u8 l.
Proof. rewrite forallb_forall. intros H. apply Forall_forall. intros c Hc. specialize (H c ltac:(by apply list_elem_of_In)). word_lia. Qed.

Lemma all_possible_checked ds ua notify evs : ∀ s, all_possible_b ds ua notify evs s = true → all_possible ds ua notify evs s.
Proof.
  induction evs as [|ev evs IH]; intros s H; [done|]. cbn [all_possible_b] in H. apply andb_true_iff in H as [Hev H]. split.
  - destruct ev; try done; unfold possible_b in Hev; rewrite !andb_true_iff in Hev.
    + destruct Hev as [Hl%bool_decide_eq_true Hp]. split; [done|]. rewrite forallb_forall in Hp. apply Forall_forall. intros p Hin.
      specialize (Hp p ltac:(by apply list_elem_of_In)). apply andb_true_iff in Hp as [Hp1 Hp2]. split; [lia|by apply bytes_checked].
    + destruct Hev as [[[Hb Hs] Hl] Hu]. unfold possible, busy. repeat split; try lia. by apply bytes_checked.
  - intros s' E. rewrite E in H. by apply IH.
Qed.

Lemma demo_held a l : bool_decide (get_bytes demo_usb_mem a (length l) = Some l) = true → bytes_at demo_usb_mem a l.
Proof. intros H%bool_decide_eq_true. by apply get_bytes_length in H as [_ H]. Qed.

Lemma usb_demo_mapped a l : bool_decide (get_bytes demo_usb_mem a (length l) = Some l) = true → mapped demo_usb_mem a (length l).
Proof. intros H. by apply bytes_at_mapped, demo_held. Qed.

Lemma demo_data_room : data_room demo_notify demo_usb_mem.
Proof.
  intros s a. unfold a, demo_notify, USBVCP_RequestCallback. cbn [ra_setup ra_status ra_ptr ra_size].
  repeat case_match; cbn; try done; intros _; (split; [unfold sizeof_le; lia|]); try (intros i Hi; cbn in Hi; lia);
    by apply (usb_demo_mapped 1200 (replicate 7 0x55)).
Qed.

Definition demo_ready : usb :=
  mk_usb demo_usb_mem zero_ep (mk_ep 1000 EBUSY 24 0 (Some SetupCallback) 1) 0 0 0 0 zero_device [].

Lemma demo_is_ready : ready demo_ua demo_ready.
Proof.
  split.
  - apply (usb_demo_mapped 1000 (replicate 24 0)). by vm_compute.
  - done.
  - done.
Qed.

Lemma control_read_served_witness :
  ∃ s', control_read demo_ds demo_ua demo_notify 2 (get_descriptor 2 0 255) demo_ready = Ok (config0_desc, s') ∧ ready demo_ua s'.
Proof.
  destruct (control_read_served demo_ds demo_ua demo_notify demo_ready (get_descriptor 2 0 255) (mk_usb_desc 4200 116) config0_desc 2) as (s' & E & H & _).
  - exact demo_is_ready.
  - repeat split; by vm_compute.
  - reflexivity.
  - reflexivity.
  - by vm_compute.
  - by vm_compute.
  - apply demo_held. by vm_compute.
  - reflexivity.
  - by vm_compute.
  - left. by vm_compute.
  - reflexivity.
  - intros Hl. by vm_compute in Hl.
  - by vm_compute.
  - exists s'. split; [exact E|exact H].
Defined.

Lemma usb_control_alive_witness :
  ∃ s', usb_run demo_ds demo_ua demo_notify (EvReset :: EvEnum :: [setup 0x80 6 0x100 0 18; EvIn; EvOut []; EvReset; EvEnum])
    (usb_init demo_usb_mem) = Ok ((), s') ∧ armed s' ∧ device_ok (ub_dev s').
Proof.
  apply usb_control_alive.
  - by vm_compute.
  - by apply (usb_demo_mapped 1000 (replicate 24 0)).
  - by apply (usb_demo_mapped 1100 (replicate 16 0)).
  - apply demo_data_room.
  - apply all_possible_checked. by vm_compute.
Defined.
