(* ===== verification/UsbEem.v ===== *)
(** * Ethernet over USB (dev/src/usb_eem.c, dev/usb_eem.h)

    Ethernet frames travel in transfers of a bulk endpoint, each behind a header
    with its length and followed by four bytes of a checksum that is not one.  There
    is a ring of two buffers for each direction; the two tasks work on the rings and
    on a transfer buffer of their own, and are state machines here, with a step
    for what is done between two [Yield]s.  Transfers begin and end in
    dev/src/usb.c: what they bring and how they end are arguments of the steps. *)
From S2P Require Import Prelude Words.

(** ** Data *)

Definition EUSB_INACTIVE : Z := -22.
Definition USBEEM_HDR_TYPE : Z := 0x8000.
Definition USBEEM_HDR_TYPE_DATA : Z := 0x0000.
Definition USBEEM_HDR_DATA_CRC_DEADBEEF : Z := 0x0000.
Definition USBEEM_HDR_DATA_LENGTH : Z := 0x3FFF.
Definition USBEEM_HDR_CMD : Z := 0x3800.
Definition USBEEM_HDR_CMD_ECHO_REQ : Z := 0x0000.
Definition USBEEM_HDR_CMD_ECHO_RESP : Z := 0x0800.
Definition USBEEM_HDR_ECHO_LENGTH : Z := 0x07FF.
Definition USBEEM_MAX_ETH_FRAME_LEN : Z := 1518.
Definition USBEEM_BUF_CAPACITY : Z := 2.
Definition sizeof_hdr : Z := 2.
Definition sizeof_transfer : Z := 1518 + 4 + sizeof_hdr.

Inductive endiannes := END_UNKNOWN | END_LE | END_BE.
#[export] Instance endiannes_eq : EqDecision endiannes.
Proof. solve_decision. Defined.

Record buf := mk_buf { bf_size : Z; bf_pld : list Z }.
(** [rx] with [rx_head] and [rx_tail], and the same of [tx]. *)
Record ring := mk_ring { rg_bufs : list buf; rg_head : Z; rg_tail : Z }.

(** Where a task is: waiting for a transfer, at a frame of the transfer, waiting for
    a place for the payload of that frame. *)
Inductive rx_phase := RxIdle | RxFrame (size offs : Z) | RxPut (size offs pld_len : Z).
(** Gathering frames; a transfer under way, with all of the ring up to a place. *)
Inductive tx_phase := TxIdle | TxWait (data : list Z) (tail : Z).

Record eem := mk_eem {
  ee_rx : ring; ee_tx : ring; ee_endiannes : endiannes;
  ee_rx_transfer : list Z; ee_rx_phase : rx_phase; ee_tx_transfer : list Z; ee_tx_phase : tx_phase }.

Definition new_ring : ring := mk_ring (replicate 2 (mk_buf 0 (replicate 1518 0))) 0 0.
Definition new_eem : eem := mk_eem new_ring new_ring END_UNKNOWN (replicate 1524 0) RxIdle (replicate 1524 0) TxIdle.

Definition set_rx (r : ring) (s : eem) : eem :=
  mk_eem r (ee_tx s) (ee_endiannes s) (ee_rx_transfer s) (ee_rx_phase s) (ee_tx_transfer s) (ee_tx_phase s).
Definition set_tx (r : ring) (s : eem) : eem :=
  mk_eem (ee_rx s) r (ee_endiannes s) (ee_rx_transfer s) (ee_rx_phase s) (ee_tx_transfer s) (ee_tx_phase s).
Definition set_endiannes (e : endiannes) (s : eem) : eem :=
  mk_eem (ee_rx s) (ee_tx s) e (ee_rx_transfer s) (ee_rx_phase s) (ee_tx_transfer s) (ee_tx_phase s).
Definition set_rx_phase (p : rx_phase) (s : eem) : eem :=
  mk_eem (ee_rx s) (ee_tx s) (ee_endiannes s) (ee_rx_transfer s) p (ee_tx_transfer s) (ee_tx_phase s).
Definition set_rx_transfer (t : list Z) (s : eem) : eem :=
  mk_eem (ee_rx s) (ee_tx s) (ee_endiannes s) t (ee_rx_phase s) (ee_tx_transfer s) (ee_tx_phase s).
Definition set_tx_phase (t : list Z) (p : tx_phase) (s : eem) : eem :=
  mk_eem (ee_rx s) (ee_tx s) (ee_endiannes s) (ee_rx_transfer s) (ee_rx_phase s) t p.

(** Reading and writing inside of an array. *)
Definition read_at (l : list Z) (offs n : Z) : res (list Z) :=
  if (0 <=? offs) && (offs + n <=? length l) then Ok (take (Z.to_nat n) (drop (Z.to_nat offs) l)) else Fault OutOfBounds.
Definition write_at (l : list Z) (offs : Z) (bs : list Z) : res (list Z) :=
  if (0 <=? offs) && (offs + length bs <=? length l) then Ok (splice l (Z.to_nat offs) bs) else Fault OutOfBounds.

(** ** The rings *)

Definition ring_used (r : ring) : Z := rg_head r -u rg_tail r.
Definition slot (i : Z) : nat := Z.to_nat (i `mod` USBEEM_BUF_CAPACITY).
Definition ring_buf (r : ring) (i : Z) : res buf :=
  match rg_bufs r !! slot i with Some b => Ok b | None => Fault OutOfBounds end.

(** The slot at the head is filled. *)
Definition ring_put (r : ring) (bs : list Z) : res ring :=
  b ← ring_buf r (rg_head r);
  pld ← write_at (bf_pld b) 0 bs;
  Ok (mk_ring (<[slot (rg_head r) := mk_buf (length bs) pld]> (rg_bufs r)) (rg_head r +u 1) (rg_tail r)).

(** ** The header *)

(** Type, command and length of a header word. *)
Definition USBEEM_ExtractHdrFields (e : endiannes) (hdr : Z) : Z * Z * Z :=
  let hdr := if decide (e = END_LE) then hdr else BETOH16 hdr in
  let type := Z.land hdr USBEEM_HDR_TYPE in
  let cmd := Z.land hdr USBEEM_HDR_CMD in
  (type, cmd,
   if type =? USBEEM_HDR_TYPE_DATA then Z.shiftr (Z.land hdr USBEEM_HDR_DATA_LENGTH) (LSB USBEEM_HDR_DATA_LENGTH)
   else if (cmd =? USBEEM_HDR_CMD_ECHO_REQ) || (cmd =? USBEEM_HDR_CMD_ECHO_RESP) then
     Z.shiftr (Z.land hdr USBEEM_HDR_ECHO_LENGTH) (LSB USBEEM_HDR_ECHO_LENGTH)
   else 0).

(** The fields of the frame, and the byte order: as it is known, or as the frame
    that is all of the transfer of [ec] bytes tells it. *)
Definition rx_fields (e : endiannes) (hdr size ec : Z) : (Z * Z * Z) * endiannes :=
  if decide (e = END_UNKNOWN) then
    let be := USBEEM_ExtractHdrFields END_BE hdr in
    if (hdr =? 0) && (size =? 2) then (be, END_UNKNOWN)
    else if ec =? be.2 + sizeof_hdr then (be, END_BE)
    else
      let le := USBEEM_ExtractHdrFields END_LE hdr in
      if ec =? le.2 + sizeof_hdr then (le, END_LE) else (le, END_UNKNOWN)
  else (USBEEM_ExtractHdrFields e hdr, e).

(** ** The reception task *)

(** A transfer has ended with [data]. *)
Definition rx_transfer_done (data : list Z) (s : eem) : res eem :=
  t ← write_at (ee_rx_transfer s) 0 data;
  Ok (set_rx_phase (RxFrame (length data) 0) (set_rx_transfer t s)).

(** The frame at [offs]; at the end of the transfer the next one is waited for. *)
Definition rx_frame (size offs : Z) (s : eem) : res eem :=
  if offs <? size then
    h ← read_at (ee_rx_transfer s) offs 2;
    let hdr := match h with [b0; b1] => b0 + 256 * b1 | _ => 0 end in
    let '((type, cmd, pld_len), e) := rx_fields (ee_endiannes s) hdr size size in
    let s := set_endiannes e s in
    if negb (type =? USBEEM_HDR_TYPE_DATA) then Ok (set_rx_phase (RxFrame size (offs + (pld_len + sizeof_hdr))) s)
    else if pld_len <? 4 then Ok (set_rx_phase RxIdle s)
    else Ok (set_rx_phase (RxPut size offs pld_len) s)
  else Ok (set_rx_phase RxIdle s).

(** The payload is put into the ring, once there is a place. *)
Definition rx_put (size offs pld_len : Z) (s : eem) : res eem :=
  if ring_used (ee_rx s) =? USBEEM_BUF_CAPACITY then Ok s
  else
    bs ← read_at (ee_rx_transfer s) (offs + sizeof_hdr) (Z.min USBEEM_MAX_ETH_FRAME_LEN (pld_len - 4));
    r ← ring_put (ee_rx s) bs;
    Ok (set_rx_phase (RxFrame size (offs + (pld_len + sizeof_hdr))) (set_rx r s)).

Definition USBEEM_RxTask_step (s : eem) : res eem :=
  match ee_rx_phase s with
  | RxIdle => Ok s
  | RxFrame size offs => rx_frame size offs s
  | RxPut size offs pld_len => rx_put size offs pld_len s
  end.

(** ** The transmission task *)

(** Header, payload and what stands for the checksum. *)
Definition tx_frame (e : endiannes) (bs : list Z) : list Z :=
  let hdr := u16 (Z.lor (Z.lor USBEEM_HDR_TYPE_DATA USBEEM_HDR_DATA_CRC_DEADBEEF)
    (Z.shiftl (length bs + 4) (LSB USBEEM_HDR_DATA_LENGTH))) in
  let hdr := if decide (e = END_LE) then hdr else HTOBE16 hdr in
  [hdr `mod` 256; hdr / 256] ++ bs ++ [0xde; 0xad; 0xbe; 0xef].

(** As many frames as there is room for go into the transfer. *)
Fixpoint tx_pack (fuel : nat) (e : endiannes) (r : ring) (tail : Z) (transfer : list Z) (offs : Z) : res (list Z * Z * Z) :=
  match fuel with
  | O => Fault OutOfFuel
  | S fuel =>
      if rg_head r =? tail then Ok (transfer, offs, tail)
      else
        b ← ring_buf r tail;
        let frame_size := bf_size b + sizeof_hdr + 4 in
        if sizeof_transfer -u offs <? frame_size then Ok (transfer, offs, tail)
        else
          bs ← read_at (bf_pld b) 0 (bf_size b);
          transfer ← write_at transfer offs (tx_frame e bs);
          tx_pack fuel e r (tail +u 1) transfer (offs + frame_size)
  end.

(** [started]: the endpoint took the transfer. *)
Definition USBEEM_TxTask_step (started : bool) (s : eem) : res eem :=
  match ee_tx_phase s with
  | TxWait _ _ => Ok s
  | TxIdle =>
      if decide (ee_endiannes s = END_UNKNOWN) then Ok s
      else
        '(transfer, offs, tail) ← tx_pack 3 (ee_endiannes s) (ee_tx s) (rg_tail (ee_tx s)) (ee_tx_transfer s) 0;
        if (offs =? 0) || negb started then Ok (set_tx_phase transfer TxIdle s)
        else Ok (set_tx_phase transfer (TxWait (take (Z.to_nat offs) transfer) tail) s)
  end.

(** The transfer has ended: the buffers are free if it was taken. *)
Definition tx_transfer_done (ec : Z) (s : eem) : eem :=
  match ee_tx_phase s with
  | TxIdle => s
  | TxWait _ tail =>
      let r := ee_tx s in
      let s := if EOK <=? ec then set_tx (mk_ring (rg_bufs r) (rg_head r) tail) s else s in
      set_tx_phase (ee_tx_transfer s) TxIdle s
  end.

(** A reset of the bus. *)
Definition USBEEM_ResetCallback (s : eem) : eem := set_endiannes END_UNKNOWN s.

(** ** What the network stack calls *)

(** How a wait goes on: [elapsed] of the time out, cancellation, the state of the
    device. *)
Record poll := mk_poll { po_elapsed : Z; po_cancelled : bool; po_configured : bool }.
Definition gives_up (p : poll) (timeout : Z) : option Z :=
  if negb (timeout =? 0) && (timeout <? po_elapsed p) then Some ETIMEOUT
  else if po_cancelled p then Some ECANCEL
  else if negb (po_configured p) then Some EUSB_INACTIVE
  else None.

(** The result of a call at one of its turns: it waits on, gives up, or is done. *)
Inductive turn (A : Type) := Waits | GivesUp (ec : Z) | Done (a : A).
Arguments Waits {A}.
Arguments GivesUp {A} _.
Arguments Done {A} _.

Definition USBEEM_Recv (size timeout : Z) (p : poll) (s : eem) : res (turn (list Z) * eem) :=
  let r := ee_rx s in
  if ring_used r =? 0 then Ok (match gives_up p timeout with Some ec => GivesUp ec | None => Waits end, s)
  else
    b ← ring_buf r (rg_tail r);
    bs ← read_at (bf_pld b) 0 (Z.min size (bf_size b));
    Ok (Done bs, set_rx (mk_ring (rg_bufs r) (rg_head r) (rg_tail r +u 1)) s).

Definition USBEEM_Send (bs : list Z) (timeout : Z) (p : poll) (s : eem) : res (turn Z * eem) :=
  if USBEEM_MAX_ETH_FRAME_LEN <? length bs then Ok (GivesUp EARGVAL, s)
  else
    let r := ee_tx s in
    if ring_used r =? USBEEM_BUF_CAPACITY then Ok (match gives_up p timeout with Some ec => GivesUp ec | None => Waits end, s)
    else r ← ring_put r bs; Ok (Done (Z.of_nat (length bs)), set_tx r s).

(** ** The rings are queues *)

Definition payload (b : buf) : list Z := take (Z.to_nat (bf_size b)) (bf_pld b).
Definition ring_at (r : ring) (k : nat) : list Z := payload (default (mk_buf 0 []) (rg_bufs r !! slot (rg_tail r + k))).
(** What is in a ring, the oldest first. *)
Definition contents (r : ring) : list (list Z) := ring_at r <$> seq 0 (Z.to_nat (ring_used r)).

Definition buf_ok (b : buf) : Prop := length (bf_pld b) = 1518%nat ∧ 0 ≤ bf_size b ≤ 1518.
Record ring_ok (r : ring) : Prop := {
  ro_bufs : length (rg_bufs r) = 2%nat;
  ro_buf : Forall buf_ok (rg_bufs r);
  ro_head : is_u32 (rg_head r);
  ro_tail : is_u32 (rg_tail r);
  ro_used : ring_used r ≤ 2 }.

Lemma slot_u32 i : slot (u32 i) = slot i.
Proof. unfold slot, USBEEM_BUF_CAPACITY, u32. f_equal. apply Z.mod_mod_divide. by exists (2^31). Qed.

Lemma slot_lt i : (slot i < 2)%nat.
Proof. unfold slot, USBEEM_BUF_CAPACITY. lia. Qed.

Lemma slot_head r : slot (rg_head r) = slot (rg_tail r + ring_used r).
Proof. unfold ring_used. rewrite <- (slot_u32 (rg_tail r + _)). unfold u32. rewrite Zplus_mod_idemp_r. fold (u32 (rg_tail r + (rg_head r - rg_tail r))). rewrite slot_u32. f_equal. lia. Qed.

Lemma ring_used_range r : 0 ≤ ring_used r < 2^32.
Proof. apply u32_range. Qed.

Lemma rx_contents_length r : length (contents r) = Z.to_nat (ring_used r).
Proof. unfold contents. by rewrite length_fmap, length_seq. Qed.

Lemma contents_nil r : contents r = [] → ring_used r = 0.
Proof. intros H. pose proof (rx_contents_length r) as Hl. rewrite H in Hl. pose proof (ring_used_range r). cbn in Hl. lia. Qed.

Lemma ring_buf_ok r i : ring_ok r → ∃ b, ring_buf r i = Ok b ∧ rg_bufs r !! slot i = Some b ∧ buf_ok b.
Proof.
  intros Hr. destruct (lookup_lt_is_Some_2 (rg_bufs r) (slot i)) as [b Hb]; [rewrite (ro_bufs _ Hr); apply slot_lt|].
  exists b. unfold ring_buf. rewrite Hb. split; [done|]. split; [done|]. by apply (Forall_lookup_1 _ _ _ _ (ro_buf _ Hr) Hb).
Qed.

Lemma read_at_ok l offs n bs : 0 ≤ offs → 0 ≤ n → offs + n ≤ length l → bs = take (Z.to_nat n) (drop (Z.to_nat offs) l) → read_at l offs n = Ok bs.
Proof. intros H1 H2 H3 ->. unfold read_at. case_match; [done|lia]. Qed.

Lemma write_at_ok l offs bs : 0 ≤ offs → offs + length bs ≤ length l → write_at l offs bs = Ok (splice l (Z.to_nat offs) bs).
Proof. intros H1 H2. unfold write_at. case_match; [done|lia]. Qed.

Lemma ring_put_ok r bs :
  ring_ok r → ring_used r < 2 → (length bs ≤ 1518)%nat →
  ∃ r', ring_put r bs = Ok r' ∧ ring_ok r' ∧ contents r' = contents r ++ [bs].
Proof.
  intros Hr Hu Hl. destruct (ring_buf_ok r (rg_head r) Hr) as (b & E & Hb & [Hp Hs]). unfold ring_put. rewrite E, bind_Ok, write_at_ok, bind_Ok by lia.
  eexists. split; [reflexivity|]. pose proof (ring_used_range r) as Hur. pose proof (ro_head _ Hr) as Hh. pose proof (ro_tail _ Hr) as Ht.
  set (r' := mk_ring _ _ _). assert (ring_used r' = ring_used r + 1) as Hu'.
  { unfold ring_used, r' in *; cbn. unfold is_u32, u32 in *. rewrite Zminus_mod_idemp_l. replace (rg_head r + 1 - rg_tail r) with (rg_head r - rg_tail r + 1) by lia.
    rewrite <- Zplus_mod_idemp_l. apply Z.mod_small. lia. }
  assert (length (rg_bufs r) = 2%nat) as Hb2 by apply Hr.
  assert (payload (mk_buf (length bs) (splice (bf_pld b) (Z.to_nat 0) bs)) = bs) as Hpl.
  { unfold payload, splice; cbn. rewrite Nat2Z.id. change (Z.to_nat 0) with 0%nat. rewrite take_0. exact (take_app_length bs _). }
  split.
  - split; cbn; try done.
    + by rewrite length_insert.
    + apply Forall_insert; [apply Hr|]. split; cbn; [|lia]. rewrite splice_length; [done|]. cbn. lia.
    + apply u32_range.
    + lia.
  - unfold contents. rewrite Hu'. replace (Z.to_nat (ring_used r + 1)) with (S (Z.to_nat (ring_used r))) by lia. rewrite seq_S, fmap_app. f_equal.
    + apply list_fmap_ext. intros i k Hk. apply lookup_seq in Hk as [-> Hk]. unfold ring_at, r'; cbn. rewrite list_lookup_insert_ne; [done|].
      assert (ring_used r = 1) as E1 by lia. assert (i = 0%nat) as -> by lia. rewrite slot_head, E1. unfold slot, USBEEM_BUF_CAPACITY. lia.
    + cbn. f_equal. unfold ring_at, r'; cbn. rewrite Z2Nat.id by lia. rewrite <- slot_head, list_lookup_insert_eq; [done|]. rewrite Hb2. apply slot_lt.
Qed.

(** The ring without its oldest buffer. *)
Definition ring_pop (r : ring) : ring := mk_ring (rg_bufs r) (rg_head r) (rg_tail r +u 1).

Lemma ring_pop_ok r : ring_ok r → ring_used r ≠ 0 → ring_ok (ring_pop r) ∧ contents r = ring_at r 0 :: contents (ring_pop r).
Proof.
  intros Hr Hu. pose proof (ring_used_range r) as Hur. assert (ring_used (ring_pop r) = ring_used r - 1) as Hu'.
  { unfold ring_used, ring_pop in *; cbn. unfold u32 in *. rewrite Zminus_mod_idemp_r. replace (rg_head r - (rg_tail r + 1)) with (rg_head r - rg_tail r - 1) by lia.
    rewrite <- Zminus_mod_idemp_l. apply Z.mod_small. lia. }
  split.
  - destruct Hr. split; try done; [apply u32_range|lia].
  - unfold contents. rewrite Hu'. replace (Z.to_nat (ring_used r)) with (S (Z.to_nat (ring_used r - 1))) by lia. cbn. f_equal.
    rewrite <- fmap_S_seq, <- list_fmap_compose. apply list_fmap_ext. intros i k _. unfold ring_at, ring_pop; cbn.
    rewrite <- (slot_u32 ((rg_tail r +u 1) + k)). unfold u32. rewrite Zplus_mod_idemp_l. fold (u32 (rg_tail r + 1 + k)). rewrite slot_u32. do 4 f_equal. lia.
Qed.

(** ** Frames in a transfer *)

(** The header word of [n] bytes, checksum included; the host may say that the
    checksum is a valid one. *)
Definition header_word (crc : bool) (n : Z) : Z := n + (if crc then 0x4000 else 0).
(** What the program reads as a word. *)
Definition hdr_word (e : endiannes) (crc : bool) (n : Z) : Z :=
  if decide (e = END_LE) then header_word crc n else HTOBE16 (header_word crc n).
Definition same_bytes (w : Z) : bool := w / 256 =? w `mod` 256.

Record frame := mk_frame { fr_crc : bool; fr_pld : list Z; fr_fcs : list Z }.
Definition frame_bytes (e : endiannes) (f : frame) : list Z :=
  let w := hdr_word e (fr_crc f) (length (fr_pld f) + 4) in [w `mod` 256; w / 256] ++ fr_pld f ++ fr_fcs f.
Definition frame_ok (f : frame) : Prop := (length (fr_pld f) ≤ 1518)%nat ∧ length (fr_fcs f) = 4%nat.

Lemma frame_length e f : frame_ok f → length (frame_bytes e f) = (length (fr_pld f) + 6)%nat.
Proof. intros [_ H]. unfold frame_bytes. rewrite !length_app, H. cbn. lia. Qed.

(** For all lengths there are: the header is read as it was written, and tells the
    byte order unless it is the same in both. *)
Definition header_checks (e : endiannes) (crc : bool) (n : Z) : bool :=
  let w := hdr_word e crc n in
  let f := USBEEM_ExtractHdrFields e w in
  (0 <=? w) && (w <? 65536) && (f.1.1 =? 0) && (f.2 =? n) &&
  bool_decide (rx_fields END_UNKNOWN w (n + 2) (n + 2) =
    (USBEEM_ExtractHdrFields e w, if same_bytes (header_word crc n) then END_BE else e)).

Lemma headers_checked e crc n : e ≠ END_UNKNOWN → 4 ≤ n ≤ 1522 → header_checks e crc n = true.
Proof.
  intros He Hn.
  assert (forallb (λ n, forallb (λ e, forallb (λ crc, header_checks e crc n) [true; false]) [END_LE; END_BE]) (Z.of_nat <$> seq 4 1519) = true) as H
    by (vm_compute; reflexivity).
  rewrite forallb_forall in H. specialize (H n ltac:(apply list_elem_of_In, list_elem_of_fmap; exists (Z.to_nat n); split; [lia|apply elem_of_seq; lia])).
  cbv beta in H. rewrite forallb_forall in H. specialize (H e ltac:(by destruct e; cbn; auto)).
  cbv beta in H. rewrite forallb_forall in H. specialize (H crc ltac:(destruct crc; cbn; auto)). exact H.
Qed.

Lemma eem_header_fields e crc n : e ≠ END_UNKNOWN → 4 ≤ n ≤ 1522 →
  0 ≤ hdr_word e crc n < 65536 ∧ ∃ cmd, USBEEM_ExtractHdrFields e (hdr_word e crc n) = (0, cmd, n) ∧
  rx_fields END_UNKNOWN (hdr_word e crc n) (n + 2) (n + 2) = ((0, cmd, n), if same_bytes (header_word crc n) then END_BE else e).
Proof.
  intros He Hn. pose proof (headers_checked e crc n He Hn) as H. unfold header_checks in H. rewrite !andb_true_iff in H.
  destruct H as [[[[H1 H2] H3] H4] H5%bool_decide_eq_true]. split; [lia|].
  destruct (USBEEM_ExtractHdrFields e (hdr_word e crc n)) as [[t c] l] eqn:E. exists c. cbn in H3, H4. assert (t = 0) as -> by lia. assert (l = n) as -> by lia. done.
Qed.

(** The frames [fs] are what is left of a transfer. *)
Definition processing (e : endiannes) (fs : list frame) (s : eem) : Prop :=
  Forall frame_ok fs ∧ length (ee_rx_transfer s) = 1524%nat ∧
  match ee_rx_phase s with
  | RxIdle => fs = []
  | RxFrame size offs =>
      0 ≤ offs ≤ size ∧ size ≤ 1524 ∧ ee_endiannes s = e ∧
      take (Z.to_nat (size - offs)) (drop (Z.to_nat offs) (ee_rx_transfer s)) = concat (frame_bytes e <$> fs)
  | RxPut size offs pld_len =>
      0 ≤ offs ≤ size ∧ size ≤ 1524 ∧ ee_endiannes s = e ∧
      take (Z.to_nat (size - offs)) (drop (Z.to_nat offs) (ee_rx_transfer s)) = concat (frame_bytes e <$> fs) ∧
      ∃ f fs', fs = f :: fs' ∧ pld_len = length (fr_pld f) + 4
  end.

(** The first frame and where it is. *)
Lemma first_frame e f fs l size offs :
  frame_ok f → 0 ≤ offs ≤ size → size ≤ length l →
  take (Z.to_nat (size - offs)) (drop (Z.to_nat offs) l) = concat (frame_bytes e <$> f :: fs) →
  let n := length (fr_pld f) + 4 in
  offs + n + 2 ≤ size ∧
  (let w := hdr_word e (fr_crc f) n in read_at l offs 2 = Ok [w `mod` 256; w / 256]) ∧
  read_at l (offs + 2) (n - 4) = Ok (fr_pld f) ∧
  take (Z.to_nat (size - (offs + (n + 2)))) (drop (Z.to_nat (offs + (n + 2))) l) = concat (frame_bytes e <$> fs).
Proof.
  intros Hf Ho Hs E n. cbn [fmap list_fmap concat] in E. pose proof (frame_length e f Hf) as Hfl.
  assert (Z.to_nat (size - offs) = length (take (Z.to_nat (size - offs)) (drop (Z.to_nat offs) l))) as Hl by (rewrite length_take, length_drop; lia).
  assert (offs + n + 2 ≤ size) as Hle by (rewrite E, length_app, Hfl in Hl; lia).
  assert (∀ a k, (a + k ≤ length (fr_pld f) + 6)%nat →
    take k (drop (Z.to_nat offs + a) l) = take k (drop a (frame_bytes e f))) as Hin.
  { intros a k Hk. rewrite <- drop_drop.
    transitivity (take k (drop a (take (Z.to_nat (size - offs)) (drop (Z.to_nat offs) l)))).
    - rewrite skipn_firstn_comm, take_take. f_equal. lia.
    - rewrite E, drop_app_le by lia. rewrite take_app_le; [done|]. rewrite length_drop. lia. }
  split; [done|]. split; [|split].
  - cbv zeta. apply read_at_ok; [lia..|]. change (Z.to_nat 2) with 2%nat. specialize (Hin 0%nat 2%nat). rewrite Nat.add_0_r in Hin. rewrite Hin by lia. done.
  - apply read_at_ok; [lia..|]. replace (Z.to_nat (offs + 2)) with (Z.to_nat offs + 2)%nat by lia. replace (Z.to_nat (n - 4)) with (length (fr_pld f)) by lia.
    rewrite Hin by lia. exact (eq_sym (take_app_length (fr_pld f) (fr_fcs f))).
  - replace (Z.to_nat (offs + (n + 2))) with (Z.to_nat offs + length (frame_bytes e f))%nat by lia. rewrite <- drop_drop.
    replace (Z.to_nat (size - (offs + (n + 2)))) with (Z.to_nat (size - offs) - length (frame_bytes e f))%nat by lia.
    rewrite <- skipn_firstn_comm, E. apply drop_app_length.
Qed.

(** ** What is received *)

(** What the network stack gets in the end: what is in the ring and what is left of
    the transfer. *)
Definition to_come (fs : list frame) (s : eem) : list (list Z) := contents (ee_rx s) ++ (fr_pld <$> fs).

Record receiving (e : endiannes) (fs : list frame) (s : eem) : Prop := {
  rc_known : e ≠ END_UNKNOWN;
  rc_ring : ring_ok (ee_rx s);
  rc_frames : processing e fs s }.

Lemma rx_fields_known e hdr size ec : e ≠ END_UNKNOWN → rx_fields e hdr size ec = (USBEEM_ExtractHdrFields e hdr, e).
Proof. intros H. unfold rx_fields. by rewrite decide_False. Qed.

Lemma mod_div_word w : 0 ≤ w < 65536 → w `mod` 256 + 256 * (w / 256) = w.
Proof. lia. Qed.

(** A turn of the task loses nothing and changes no order; it goes on unless the
    ring is full. *)
Lemma rx_step_ok e fs s :
  receiving e fs s →
  ∃ s' fs', USBEEM_RxTask_step s = Ok s' ∧ receiving e fs' s' ∧ to_come fs' s' = to_come fs s ∧
    match ee_rx_phase s with
    | RxIdle => s' = s
    | RxFrame _ _ => fs' = fs ∧ ee_rx s' = ee_rx s ∧ (fs ≠ [] → ∃ a b c, ee_rx_phase s' = RxPut a b c)
    | RxPut _ _ _ => ring_used (ee_rx s) = 2 ∧ s' = s ∧ fs' = fs ∨ contents (ee_rx s') ≠ []
    end.
Proof.
  intros [He Hr (Hfs & Hlen & Hp)]. unfold USBEEM_RxTask_step. destruct (ee_rx_phase s) as [|size offs|size offs n] eqn:Ep.
  - exists s, fs. split; [done|]. split; [|done]. split; [done..|]. split; [done|]. split; [done|]. by rewrite Ep.
  - destruct Hp as (Ho & Hsz & Hend & E). unfold rx_frame. destruct (Z.ltb_spec offs size) as [Hlt|Hge].
    + destruct fs as [|f fs].
      { apply (f_equal length) in E. rewrite length_take, length_drop in E. cbn in E. lia. }
      pose proof (Forall_cons_1 _ _ _ Hfs) as [Hf _]. destruct (first_frame e f fs (ee_rx_transfer s) size offs Hf Ho) as (H1 & H2 & _ & _); [lia|done|].
      cbv zeta in H2. rewrite H2, bind_Ok. cbv iota beta.
      destruct (eem_header_fields e (fr_crc f) (length (fr_pld f) + 4) He) as (Hw & cmd & Hx & _); [destruct Hf; lia|].
      rewrite mod_div_word, Hend, rx_fields_known, Hx by done. change (0 =? USBEEM_HDR_TYPE_DATA) with true. cbn [negb].
      destruct (Z.ltb_spec (length (fr_pld f) + 4) 4); [lia|].
      eexists _, (f :: fs). split; [reflexivity|]. split; [|split; [done|split; [done|split; [done|intros _; by eexists _, _, _]]]].
      split; [done|done|]. split; [done|]. split; [done|]. cbn. repeat split; try lia; try done. by exists f, fs.
    + assert (fs = []) as ->.
      { destruct fs as [|f fs]; [done|]. apply (f_equal length) in E. rewrite length_take in E. cbn [fmap list_fmap concat] in E.
        pose proof (Forall_cons_1 _ _ _ Hfs) as [Hf _]. rewrite length_app, (frame_length _ _ Hf) in E. lia. }
      eexists _, []. split; [reflexivity|]. split; [|done]. split; [done|done|]. by split.
  - destruct Hp as (Ho & Hsz & Hend & E & f & fs' & -> & ->). unfold rx_put, USBEEM_BUF_CAPACITY.
    destruct (Z.eqb_spec (ring_used (ee_rx s)) 2) as [Hu|Hu].
    + exists s, (f :: fs'). split; [done|]. split; [|split; [done|by left]]. split; [done..|]. split; [done|]. split; [done|]. rewrite Ep. repeat split; try lia; try done. by exists f, fs'.
    + pose proof (Forall_cons_1 _ _ _ Hfs) as [Hf Hfs']. destruct (first_frame e f fs' (ee_rx_transfer s) size offs Hf Ho) as (H1 & _ & H3 & H4); [lia|done|].
      rewrite Z.min_r by (destruct Hf; unfold USBEEM_MAX_ETH_FRAME_LEN; lia). unfold sizeof_hdr. rewrite H3, bind_Ok.
      destruct (ring_put_ok (ee_rx s) (fr_pld f) Hr) as (r' & Er & Hr' & Hc); [pose proof (ro_used _ Hr); lia|apply Hf|]. rewrite Er, bind_Ok.
      eexists _, fs'. split; [reflexivity|]. split; [|split].
      * split; [done|done|]. split; [done|]. split; [done|]. cbn. repeat split; try lia; done.
      * unfold to_come. cbn. by rewrite Hc, <- app_assoc.
      * right. cbn. rewrite Hc. by destruct (contents (ee_rx s)).
Qed.

(** A call for a frame gives the oldest one. *)
Lemma eem_recv_ok e fs s size timeout p :
  receiving e fs s → 1518 ≤ size →
  match contents (ee_rx s) with
  | [] => ∃ t, USBEEM_Recv size timeout p s = Ok (t, s) ∧ ¬ (∃ bs, t = Done bs)
  | bs :: rest => ∃ s', USBEEM_Recv size timeout p s = Ok (Done bs, s') ∧ receiving e fs s' ∧ contents (ee_rx s') = rest ∧ ee_rx_phase s' = ee_rx_phase s
  end.
Proof.
  intros [He Hr Hp] Hsz. unfold USBEEM_Recv. destruct (Z.eqb_spec (ring_used (ee_rx s)) 0) as [E|E].
  - unfold contents. rewrite E. cbn. eexists. split; [reflexivity|]. intros [bs H]. by destruct (gives_up p timeout).
  - destruct (ring_pop_ok _ Hr E) as [Hr' Hc]. rewrite Hc. destruct (ring_buf_ok _ (rg_tail (ee_rx s)) Hr) as (b & Eb & Hb & [Hl Hs]).
    rewrite Eb, bind_Ok, Z.min_r by lia. rewrite (read_at_ok _ _ _ (payload b)); [|lia..|done]. rewrite bind_Ok.
    assert (payload b = ring_at (ee_rx s) 0) as -> by (unfold ring_at; by rewrite Z.add_0_r, Hb).
    eexists. split; [reflexivity|]. split; [by split|done].
Qed.

(** *** Any schedule, and a fair one *)

Inductive rx_event := EvTask | EvRecv (timeout : Z) (p : poll).

(** The frames given to calls with room for a frame. *)
Fixpoint rx_run (evs : list rx_event) (s : eem) : res (list (list Z) * eem) :=
  match evs with
  | [] => Ok ([], s)
  | EvTask :: evs => s ← USBEEM_RxTask_step s; rx_run evs s
  | EvRecv timeout p :: evs =>
      '(t, s) ← USBEEM_Recv 1518 timeout p s;
      '(got, s) ← rx_run evs s;
      Ok (match t with Done bs => bs :: got | _ => got end, s)
  end.

Lemma rx_run_ok evs : ∀ e fs s, receiving e fs s →
  ∃ got s' fs', rx_run evs s = Ok (got, s') ∧ receiving e fs' s' ∧ got ++ to_come fs' s' = to_come fs s.
Proof.
  induction evs as [|[|timeout p] evs IH]; intros e fs s Hs.
  - by exists [], s, fs.
  - destruct (rx_step_ok e fs s Hs) as (s1 & fs1 & E1 & H1 & Hc & _). destruct (IH e fs1 s1 H1) as (got & s2 & fs2 & E2 & H2 & Hc2).
    exists got, s2, fs2. cbn [rx_run]. rewrite E1, bind_Ok. split; [done|]. split; [done|]. by rewrite Hc2.
  - pose proof (eem_recv_ok e fs s 1518 timeout p Hs ltac:(lia)) as Hrecv. cbn [rx_run]. destruct (contents (ee_rx s)) as [|bs rest] eqn:Ec.
    + destruct Hrecv as (t & E1 & Ht). destruct (IH e fs s Hs) as (got & s2 & fs2 & E2 & H2 & Hc2).
      exists got, s2, fs2. rewrite E1, bind_Ok, E2, bind_Ok. split; [|done]. destruct t; [done|done|]. by destruct Ht; eexists.
    + destruct Hrecv as (s1 & E1 & H1 & Hc & _). destruct (IH e fs s1 H1) as (got & s2 & fs2 & E2 & H2 & Hc2).
      exists (bs :: got), s2, fs2. rewrite E1, bind_Ok, E2, bind_Ok. split; [done|]. split; [done|].
      cbn [app]. rewrite Hc2. unfold to_come. by rewrite Ec, Hc.
Qed.

(** Two turns of the task and a call. *)
Definition rounds (n : nat) (timeout : Z) (p : poll) : list rx_event := concat (replicate n [EvTask; EvTask; EvRecv timeout p]).

(** What a turn does to the ring. *)
Definition turn_effect (s s' : eem) (fs fs' : list frame) : Prop :=
  match ee_rx_phase s with
  | RxIdle => s' = s
  | RxFrame _ _ => fs' = fs ∧ ee_rx s' = ee_rx s ∧ (fs ≠ [] → ∃ a b c, ee_rx_phase s' = RxPut a b c)
  | RxPut _ _ _ => ring_used (ee_rx s) = 2 ∧ s' = s ∧ fs' = fs ∨ contents (ee_rx s') ≠ []
  end.

Lemma turn_keeps s s' fs fs' : turn_effect s s' fs fs' → contents (ee_rx s) ≠ [] → contents (ee_rx s') ≠ [].
Proof. unfold turn_effect. destruct (ee_rx_phase s); [by intros ->|by intros (_ & -> & _)|by intros [(_ & -> & _)|H]]. Qed.

(** A put into an empty ring is not put off. *)
Lemma put_turn s s' fs fs' a b c : turn_effect s s' fs fs' → ee_rx_phase s = RxPut a b c → contents (ee_rx s) = [] → contents (ee_rx s') ≠ [].
Proof.
  unfold turn_effect. intros Ht Hp Hc. rewrite Hp in Ht. destruct Ht as [(Hu & _)|H]; [|done].
  pose proof (rx_contents_length (ee_rx s)) as Hl. rewrite Hu, Hc in Hl. cbn in Hl. lia.
Qed.

(** After two turns there is something in the ring if anything is to come. *)
Lemma two_turns e fs s : receiving e fs s → to_come fs s ≠ [] →
  ∃ s1 s2 fs2, USBEEM_RxTask_step s = Ok s1 ∧ USBEEM_RxTask_step s1 = Ok s2 ∧ receiving e fs2 s2 ∧
    to_come fs2 s2 = to_come fs s ∧ contents (ee_rx s2) ≠ [].
Proof.
  intros Hs Hne. destruct (rx_step_ok e fs s Hs) as (s1 & fs1 & E1 & H1 & Hc1 & Hp1). destruct (rx_step_ok e fs1 s1 H1) as (s2 & fs2 & E2 & H2 & Hc2 & Hp2).
  change (turn_effect s s1 fs fs1) in Hp1. change (turn_effect s1 s2 fs1 fs2) in Hp2.
  exists s1, s2, fs2. split; [done|]. split; [done|]. split; [done|]. split; [congruence|].
  destruct (decide (contents (ee_rx s1) = [])) as [Hem|]; [|by eapply turn_keeps].
  destruct (decide (contents (ee_rx s) = [])) as [Hem0|Hn0]; [|by destruct (turn_keeps _ _ _ _ Hp1 Hn0)].
  assert (fs ≠ []) as Hfs by (intros ->; unfold to_come in Hne; by rewrite Hem0 in Hne).
  destruct (ee_rx_phase s) as [| |a b c] eqn:Ep.
  - destruct Hs as [_ _ (_ & _ & Hp)]. rewrite Ep in Hp. done.
  - unfold turn_effect in Hp1. rewrite Ep in Hp1. destruct Hp1 as (-> & _ & Hput). destruct (Hput Hfs) as (a & b & c & Ep1). by eapply put_turn.
  - by destruct (put_turn _ _ _ _ _ _ _ Hp1 Ep Hem0).
Qed.

Lemma rounds_deliver timeout p n : ∀ e fs s, receiving e fs s → (length (to_come fs s) ≤ n)%nat →
  ∃ s', rx_run (rounds n timeout p) s = Ok (to_come fs s, s').
Proof.
  induction n as [|n IH]; intros e fs s Hs Hn.
  - exists s. destruct (to_come fs s); [done|cbn in Hn; lia].
  - destruct (decide (to_come fs s = [])) as [Hem|Hne].
    + destruct (rx_run_ok (rounds (S n) timeout p) e fs s Hs) as (got & s' & fs' & E & _ & Hc). rewrite Hem in *. apply app_eq_nil in Hc as [-> _]. by exists s'.
    + destruct (two_turns e fs s Hs Hne) as (s1 & s2 & fs2 & E1 & E2 & H2 & Hc & Hr).
      pose proof (eem_recv_ok e fs2 s2 1518 timeout p H2 ltac:(lia)) as Hrecv.
      destruct (contents (ee_rx s2)) as [|bs rest] eqn:Ec; [done|]. destruct Hrecv as (s3 & E3 & H3 & Hc3 & _).
      assert (to_come fs s = bs :: to_come fs2 s3) as Htc by (rewrite <- Hc; unfold to_come; by rewrite Ec, Hc3).
      destruct (IH e fs2 s3 H3) as [s4 E4]; [rewrite Htc in Hn; cbn in Hn; lia|]. exists s4.
      change (rounds (S n) timeout p) with (EvTask :: EvTask :: EvRecv timeout p :: rounds n timeout p). cbn [rx_run].
      by rewrite E1, bind_Ok, E2, bind_Ok, E3, bind_Ok, E4, bind_Ok, Htc.
Qed.

(** ** What is sent *)

Definition sent_frame (bs : list Z) : frame := mk_frame false bs [0xde; 0xad; 0xbe; 0xef].

Lemma tx_frame_bytes e bs : (length bs ≤ 1518)%nat → tx_frame e bs = frame_bytes e (sent_frame bs).
Proof.
  intros Hl. unfold tx_frame, frame_bytes, hdr_word, header_word, sent_frame; cbn [fr_crc fr_pld fr_fcs].
  change (Z.lor USBEEM_HDR_TYPE_DATA USBEEM_HDR_DATA_CRC_DEADBEEF) with 0. change (LSB USBEEM_HDR_DATA_LENGTH) with 0.
  rewrite Z.lor_0_l, Z.shiftl_0_r. rewrite u16_small by word_lia. by rewrite Z.add_0_r.
Qed.

(** The frames that fit, from the oldest on. *)
Fixpoint fitting (room : Z) (l : list (list Z)) : list (list Z) :=
  match l with
  | [] => []
  | f :: l => if length f + 6 <=? room then f :: fitting (room - (length f + 6)) l else []
  end.

Definition from (r : ring) (tail : Z) : ring := mk_ring (rg_bufs r) (rg_head r) tail.

Lemma tx_pack_ok fuel : ∀ e r tail transfer offs,
  ring_ok (from r tail) → (length (contents (from r tail)) < fuel)%nat → length transfer = 1524%nat → 0 ≤ offs ≤ 1524 →
  let fs := fitting (1524 - offs) (contents (from r tail)) in
  ∃ transfer' offs' tail', tx_pack fuel e r tail transfer offs = Ok (transfer', offs', tail') ∧
    length transfer' = 1524%nat ∧ offs' = offs + length (concat (frame_bytes e ∘ sent_frame <$> fs)) ∧ offs' ≤ 1524 ∧
    take (Z.to_nat offs') transfer' = take (Z.to_nat offs) transfer ++ concat (frame_bytes e ∘ sent_frame <$> fs) ∧
    ring_ok (from r tail') ∧ contents (from r tail) = fs ++ contents (from r tail').
Proof.
  induction fuel as [|fuel IH]; intros e r tail transfer offs Hr Hf Hl Ho fs; [lia|]. cbn [tx_pack].
  assert (fs = [] →
    ∃ transfer' offs' tail', Ok (transfer, offs, tail) = Ok (transfer', offs', tail') ∧
    length transfer' = 1524%nat ∧ offs' = offs + length (concat (frame_bytes e ∘ sent_frame <$> fs)) ∧ offs' ≤ 1524 ∧
    take (Z.to_nat offs') transfer' = take (Z.to_nat offs) transfer ++ concat (frame_bytes e ∘ sent_frame <$> fs) ∧
    ring_ok (from r tail') ∧ contents (from r tail) = fs ++ contents (from r tail')) as Hstop.
  { intros ->. exists transfer, offs, tail. cbn. rewrite app_nil_r. split_and!; try done; lia. }
  pose proof (ro_head _ Hr) as Hh. pose proof (ro_tail _ Hr) as Ht. cbn in Hh, Ht.
  destruct (Z.eqb_spec (rg_head r) tail) as [E|E].
  - apply Hstop. unfold fs, contents, ring_used; cbn. rewrite E, Z.sub_diag. done.
  - assert (ring_used (from r tail) ≠ 0) as Hu by (unfold ring_used, from; cbn; word_lia).
    destruct (ring_pop_ok _ Hr Hu) as [Hr' Hc]. destruct (ring_buf_ok _ tail Hr) as (b & Eb & Hb & [Hp Hs]).
    change (ring_buf (from r tail) tail) with (ring_buf r tail) in Eb. rewrite Eb, bind_Ok.
    assert (ring_at (from r tail) 0 = payload b) as Hpay by (unfold ring_at; cbn [rg_tail from]; by rewrite Z.add_0_r, Hb).
    assert (length (payload b) = Z.to_nat (bf_size b)) as Hpl by (unfold payload; rewrite length_take; lia).
    unfold fs in *. rewrite Hc, Hpay in *. cbn [fitting] in *. rewrite Hpl, Z2Nat.id in * by lia.
    change (sizeof_transfer -u offs) with (u32 (1524 - offs)). rewrite u32_small by word_lia.
    replace (bf_size b + sizeof_hdr + 4) with (bf_size b + 6) by (unfold sizeof_hdr; lia).
    destruct (Z.ltb_spec (1524 - offs) (bf_size b + 6)) as [Hx|Hx].
    + apply Hstop. by rewrite (proj2 (Z.leb_gt _ _)) by lia.
    + rewrite (proj2 (Z.leb_le _ _)) in * by lia. rewrite (read_at_ok _ _ _ (payload b)), bind_Ok; [|lia..|done].
      assert (length (frame_bytes e (sent_frame (payload b))) = (Z.to_nat (bf_size b) + 6)%nat) as Hfl.
      { rewrite frame_length; [cbn; lia|]. split; cbn; [lia|done]. }
      rewrite tx_frame_bytes by lia. rewrite write_at_ok, bind_Ok by lia.
      set (tr1 := splice _ _ _). assert (length tr1 = 1524%nat) as Hl1 by (unfold tr1; rewrite splice_length; lia).
      destruct (IH e r (tail +u 1) tr1 (offs + (bf_size b + 6))) as (tr2 & offs2 & tail2 & E2 & H1 & H2 & H3 & H4 & H5 & H6); [done| |done|lia|].
      { cbn [length] in Hf. change (ring_pop (from r tail)) with (from r (tail +u 1)) in Hf. lia. }
      exists tr2, offs2, tail2. split; [exact E2|]. change (ring_pop (from r tail)) with (from r (tail +u 1)).
      replace (1524 - offs - (bf_size b + 6)) with (1524 - (offs + (bf_size b + 6))) by lia.
      cbn [fmap list_fmap concat compose]. rewrite length_app, Hfl. split; [done|]. split; [rewrite H2; unfold compose; lia|].
      split; [done|]. split; [|split; [done|cbn [app]; f_equal; exact H6]].
      rewrite H4, app_assoc. f_equal. unfold tr1, splice. rewrite app_assoc, take_app_le; [apply take_ge|]; rewrite length_app, length_take, Hfl; lia.
Qed.

Lemma contents_small r : ring_ok r → Forall (λ bs, (length bs ≤ 1518)%nat) (contents r).
Proof.
  intros Hr. apply Forall_fmap, Forall_forall. intros k _. unfold compose, ring_at, payload. rewrite length_take.
  destruct (rg_bufs r !! slot (rg_tail r + k)) as [b|] eqn:Eb; cbn; [|lia].
  destruct (Forall_lookup_1 _ _ _ _ (ro_buf _ Hr) Eb) as [H _]. lia.
Qed.

Lemma fitting_prefix room l : fitting room l `prefix_of` l.
Proof.
  revert room. induction l as [|f l IH]; intros room; [done|]. cbn. case_match; [by apply prefix_cons|apply prefix_nil].
Qed.

(** The sending of a frame: it goes to the end of the queue if there is a place. *)
Lemma eem_send_ok s bs timeout p :
  ring_ok (ee_tx s) →
  ∃ t s', USBEEM_Send bs timeout p s = Ok (t, s') ∧ ring_ok (ee_tx s') ∧
    match t with
    | Done n => n = length bs ∧ contents (ee_tx s') = contents (ee_tx s) ++ [bs]
    | Waits => s' = s ∧ ring_used (ee_tx s) = 2
    | GivesUp ec => s' = s ∧ (ec = EARGVAL ∧ 1518 < length bs ∨ ring_used (ee_tx s) = 2 ∧ gives_up p timeout = Some ec)
    end.
Proof.
  intros Hr. unfold USBEEM_Send, USBEEM_MAX_ETH_FRAME_LEN, USBEEM_BUF_CAPACITY. destruct (Z.ltb_spec 1518 (length bs)) as [Hl|Hl].
  - eexists _, s. split; [done|]. split; [done|]. split; [done|by left].
  - destruct (Z.eqb_spec (ring_used (ee_tx s)) 2) as [Hu|Hu].
    + eexists _, s. split; [done|]. split; [done|]. destruct (gives_up p timeout) eqn:Eg; [|done]. split; [done|by right].
    + destruct (ring_put_ok (ee_tx s) bs Hr) as (r' & E & Hr' & Hc); [pose proof (ro_used _ Hr); lia|lia|]. rewrite E, bind_Ok. eexists _, _. split; [done|]. by split.
Qed.

Record listening (e : endiannes) (s : eem) : Prop := {
  li_idle : ee_rx_phase s = RxIdle;
  li_end : ee_endiannes s = e;
  li_ring : ring_ok (ee_rx s);
  li_transfer : length (ee_rx_transfer s) = 1524%nat }.

Lemma transfer_done data s e : listening e s → (length data ≤ 1524)%nat →
  ∃ s1, rx_transfer_done data s = Ok s1 ∧ ee_rx s1 = ee_rx s ∧ ee_endiannes s1 = e ∧ ee_rx_phase s1 = RxFrame (length data) 0 ∧
    length (ee_rx_transfer s1) = 1524%nat ∧ take (length data) (ee_rx_transfer s1) = data.
Proof.
  intros [Hi He Hr Ht] Hl. unfold rx_transfer_done. rewrite write_at_ok, bind_Ok by lia.
  eexists. split; [reflexivity|]. split; [done|]. split; [done|]. split; [done|]. cbn [ee_rx_transfer set_rx_phase set_rx_transfer].
  split; [rewrite splice_length; cbn; lia|]. unfold splice. change (Z.to_nat 0) with 0%nat. rewrite take_0. exact (take_app_length data _).
Qed.

Lemma receiving_starts e fs s : e ≠ END_UNKNOWN → listening e s → Forall frame_ok fs → (length (concat (frame_bytes e <$> fs)) ≤ 1524)%nat →
  ∃ s1, rx_transfer_done (concat (frame_bytes e <$> fs)) s = Ok s1 ∧ receiving e fs s1 ∧ ee_rx s1 = ee_rx s.
Proof.
  intros He Hs Hfs Hl. destruct (transfer_done _ s e Hs Hl) as (s1 & E & H1 & H2 & H3 & H4 & H5). exists s1. split; [done|]. split; [|done].
  split; [done|rewrite H1; apply Hs|]. split; [done|]. split; [done|]. rewrite H3. split; [lia|]. split; [lia|]. split; [done|].
  rewrite Z.sub_0_r, Nat2Z.id. exact H5.
Qed.

(** *** The claims *)

(** the frames of a transfer reach the network stack once each, whole and in
    their order, behind those that were in the ring: whatever the schedule of the
    task and of the calls - time outs and full rings included -, what was given is
    a first part of them, and when task and calls take turns it is all of them. *)
Theorem eem_frames_received e s fs :
  e ≠ END_UNKNOWN → listening e s → Forall frame_ok fs → (length (concat (frame_bytes e <$> fs)) ≤ 1524)%nat →
  ∃ s1, rx_transfer_done (concat (frame_bytes e <$> fs)) s = Ok s1 ∧
    (∀ evs, ∃ got s2, rx_run evs s1 = Ok (got, s2) ∧ got `prefix_of` contents (ee_rx s) ++ (fr_pld <$> fs)) ∧
    (∀ n timeout p, (length (contents (ee_rx s)) + length fs ≤ n)%nat →
      ∃ s2, rx_run (rounds n timeout p) s1 = Ok (contents (ee_rx s) ++ (fr_pld <$> fs), s2)).
Proof.
  intros He Hs Hfs Hl. destruct (receiving_starts e fs s He Hs Hfs Hl) as (s1 & E & H1 & Hr). exists s1. split; [done|].
  assert (to_come fs s1 = contents (ee_rx s) ++ (fr_pld <$> fs)) as Hc by (unfold to_come; by rewrite Hr). split.
  - intros evs. destruct (rx_run_ok evs e fs s1 H1) as (got & s2 & fs2 & E2 & _ & Hg). exists got, s2. split; [done|].
    rewrite <- Hc, <- Hg. apply prefix_app_r. done.
  - intros n timeout p Hn. destruct (rounds_deliver timeout p n e fs s1 H1) as [s2 E2]; [rewrite Hc, length_app, length_fmap; lia|].
    exists s2. by rewrite E2, Hc.
Qed.

(** C15: what the transmission task packs into a transfer the reception task of the
    other side unpacks: the oldest frames, as many as fit - one at least -, the
    same and in their order; they leave the queue when the transfer is taken, and
    only then. *)
Theorem eem_roundtrip e s t timeout p :
  e ≠ END_UNKNOWN → ring_ok (ee_tx s) → contents (ee_tx s) ≠ [] → length (ee_tx_transfer s) = 1524%nat →
  ee_tx_phase s = TxIdle → ee_endiannes s = e → listening e t → contents (ee_rx t) = [] →
  let fs := fitting 1524 (contents (ee_tx s)) in
  ∃ s' data tail t1 t2, USBEEM_TxTask_step true s = Ok s' ∧ ee_tx_phase s' = TxWait data tail ∧ fs ≠ [] ∧
    contents (ee_tx s) = fs ++ contents (ee_tx (tx_transfer_done EOK s')) ∧
    (∀ ec, ec < 0 → contents (ee_tx (tx_transfer_done ec s')) = contents (ee_tx s)) ∧
    rx_transfer_done data t = Ok t1 ∧ rx_run (rounds 2 timeout p) t1 = Ok (fs, t2).
Proof.
  intros He Hr Hne Hlen Hph Hend Ht Hct fs. pose proof (contents_small _ Hr) as Hsm.
  assert (length (contents (ee_tx s)) ≤ 2)%nat as Hl2 by (rewrite rx_contents_length; pose proof (ro_used _ Hr); lia).
  assert (from (ee_tx s) (rg_tail (ee_tx s)) = ee_tx s) as Hfrom by (by destruct (ee_tx s)).
  destruct (tx_pack_ok 3 e (ee_tx s) (rg_tail (ee_tx s)) (ee_tx_transfer s) 0) as (tr & offs & tail & E & H1 & H2 & H3 & H4 & H5 & H6); rewrite ?Hfrom; [done|lia|done|lia|].
  rewrite Hfrom, Z.sub_0_r in *. fold fs in H2, H4, H6. change (Z.to_nat 0) with 0%nat in H4. rewrite take_0 in H4. cbn [app] in H4.
  assert (fs ≠ []) as Hfs.
  { unfold fs. destruct (contents (ee_tx s)) as [|f l]; [done|]. cbn. apply Forall_cons in Hsm as [Hf _]. by rewrite (proj2 (Z.leb_le _ _)) by lia. }
  assert (Forall frame_ok (sent_frame <$> fs)) as Hok.
  { apply Forall_fmap, Forall_forall. intros f Hf. split; [|done]. cbn. rewrite Forall_forall in Hsm. apply Hsm. rewrite H6. apply elem_of_app. by left. }
  rewrite list_fmap_compose in H2, H4.
  assert (1 ≤ offs) as Hoffs.
  { rewrite H2. destruct fs as [|f l]; [done|]. cbn [fmap list_fmap concat]. rewrite length_app, frame_length; [lia|]. by apply Forall_cons in Hok as [? _]. }
  destruct (receiving_starts e (sent_frame <$> fs) t He Ht Hok) as (t1 & E1 & Ht1 & Hrx); [lia|].
  assert (to_come (sent_frame <$> fs) t1 = fs) as Hc.
  { unfold to_come. rewrite Hrx, Hct, <- list_fmap_compose. cbn [app]. apply list_fmap_id. }
  destruct (rounds_deliver timeout p 2 e (sent_frame <$> fs) t1 Ht1) as [t2 E2]; [rewrite Hc; rewrite H6, length_app in Hl2; lia|]. rewrite Hc in E2.
  unfold USBEEM_TxTask_step. rewrite Hph, Hend, decide_False, E, bind_Ok by done.
  rewrite (proj2 (Z.eqb_neq _ _)) by lia. cbn [negb orb]. eexists _, _, tail, t1, t2. split; [reflexivity|]. split; [reflexivity|]. split; [done|].
  split; [exact H6|]. split; [|split; [by rewrite H4|done]].
  intros ec Hec. unfold tx_transfer_done. cbn [ee_tx_phase set_tx_phase]. by rewrite (proj2 (Z.leb_gt _ _)).
Qed.

(** the byte order is learned from a transfer of one frame, which is received;
    it is the one of the host unless the two bytes of the header are the same: then
    it is taken to be the big endian one. *)
Theorem eem_byte_order_learned e s f :
  e ≠ END_UNKNOWN → listening END_UNKNOWN s → contents (ee_rx s) = [] → frame_ok f →
  ∃ s1 s2 s3, rx_transfer_done (frame_bytes e f) s = Ok s1 ∧ USBEEM_RxTask_step s1 = Ok s2 ∧ USBEEM_RxTask_step s2 = Ok s3 ∧
    ee_endiannes s3 = (if same_bytes (header_word (fr_crc f) (length (fr_pld f) + 4)) then END_BE else e) ∧
    contents (ee_rx s3) = [fr_pld f].
Proof.
  intros He Hs Hc Hf. set (n := length (fr_pld f) + 4). assert (length (frame_bytes e f) = Z.to_nat (n + 2)) as Hl by (rewrite frame_length; [lia|done]).
  destruct (transfer_done (frame_bytes e f) s _ Hs) as (s1 & E & H1 & H2 & H3 & H4 & H5); [destruct Hf; lia|].
  destruct (first_frame e f [] (ee_rx_transfer s1) (n + 2) 0 Hf) as (_ & H6 & H7 & _); [lia|destruct Hf; lia| |].
  { rewrite Z.sub_0_r, <- Hl. change (Z.to_nat 0) with 0%nat. cbn [fmap list_fmap concat]. by rewrite app_nil_r, drop_0. }
  destruct (eem_header_fields e (fr_crc f) n He) as (Hw & cmd & _ & Hx); [destruct Hf; lia|]. fold n in H6, H7.
  destruct (ring_put_ok (ee_rx s1) (fr_pld f)) as (r' & Er & Hr' & Hcr).
  { rewrite H1. apply Hs. } { by rewrite H1, (contents_nil _ Hc). } { apply Hf. }
  exists s1. eexists _, _. split; [done|]. split.
  - unfold USBEEM_RxTask_step. rewrite H3. unfold rx_frame. rewrite Hl, Z2Nat.id by lia. rewrite (proj2 (Z.ltb_lt _ _)) by lia.
    cbv zeta in H6. rewrite H6, bind_Ok. cbv iota beta. rewrite mod_div_word, H2, Hx by done. change (0 =? USBEEM_HDR_TYPE_DATA) with true. cbn [negb].
    rewrite (proj2 (Z.ltb_ge _ _)) by lia. reflexivity.
  - split.
    + unfold USBEEM_RxTask_step. cbn [ee_rx_phase set_rx_phase]. unfold rx_put. cbn [ee_rx set_rx_phase set_endiannes ee_rx_transfer].
      rewrite (proj2 (Z.eqb_neq _ _)).
      2: { by rewrite H1, (contents_nil _ Hc). }
      rewrite Z.min_r by (destruct Hf; unfold USBEEM_MAX_ETH_FRAME_LEN; lia). unfold sizeof_hdr. rewrite H7, bind_Ok, Er, bind_Ok. reflexivity.
    + split; [done|]. cbn [ee_rx set_rx_phase set_rx]. by rewrite Hcr, H1, Hc.
Qed.

(** *** Runs *)

Definition demo_frame (n : nat) : frame := mk_frame true (replicate n 7) [1; 2; 3; 4].
Definition demo_poll : poll := mk_poll 0 false true.
Definition known (e : endiannes) : eem := set_endiannes e new_eem.
(** A transfer is processed; lengths of the frames given, and the byte order. *)
Definition demo_receive (s : eem) (data : list Z) : res (list nat * endiannes) :=
  s ← rx_transfer_done data s; '(got, s) ← rx_run (rounds 4 0 demo_poll) s; Ok (map length got, ee_endiannes s).

Example two_frames :
  demo_receive (known END_LE) (frame_bytes END_LE (demo_frame 42) ++ frame_bytes END_LE (demo_frame 60)) = Ok ([42; 60]%nat, END_LE).
Proof. vm_compute. reflexivity. Qed.

(** A little endian host that begins with a frame of 60 bytes and a valid checksum
    is taken for a big endian one: in place of its next frame, of 46 bytes with the
    checksum, the array is received, as the header is read as one of 0x2E40 bytes. *)
Example byte_order_mistaken :
  demo_receive new_eem (frame_bytes END_LE (demo_frame 60)) = Ok ([60]%nat, END_BE) ∧
  demo_receive (known END_BE) (frame_bytes END_LE (demo_frame 42)) = Ok ([1518]%nat, END_BE).
Proof. vm_compute. done. Qed.

(** With several frames in the first transfer the byte order is not learned, and they
    are read as little endian ones: the array is received in place of them. *)
Example several_frames_first :
  demo_receive new_eem (frame_bytes END_BE (demo_frame 42) ++ frame_bytes END_BE (demo_frame 42)) = Ok ([1518]%nat, END_UNKNOWN).
Proof. vm_compute. reflexivity. Qed.

(** The length of a header is believed: bytes of earlier transfers are received, or
    memory behind the array is read. *)
Example length_believed :
  demo_receive (known END_LE) [0xff; 0x3f] = Ok ([1518]%nat, END_LE) ∧
  demo_receive (known END_LE) (frame_bytes END_LE (demo_frame 42) ++ [0xff; 0x3f]) = Fault OutOfBounds.
Proof. vm_compute. done. Qed.

(** A frame without a checksum ends the transfer: what is behind it is lost. *)
Example short_frame_ends :
  demo_receive (known END_LE) ([0; 0] ++ frame_bytes END_LE (demo_frame 42)) = Ok ([], END_LE).
Proof. vm_compute. reflexivity. Qed.

(** Commands are skipped, an echo with its data. *)
Example commands_skipped :
  demo_receive (known END_LE) ([2; 0x80; 9; 9] ++ [0; 0xA8] ++ frame_bytes END_LE (demo_frame 42)) = Ok ([42]%nat, END_LE).
Proof. vm_compute. reflexivity. Qed.

(** *** Witnesses *)

Lemma new_ring_ok : ring_ok new_ring.
Proof. split; try (by vm_compute). by repeat constructor. Qed.

Lemma known_listening e : listening e (known e).
Proof. split; try done. apply new_ring_ok. Qed.

Lemma demo_frame_ok n : (n ≤ 1518)%nat → frame_ok (demo_frame n).
Proof. intros H. split; cbn; [by rewrite length_replicate|done]. Qed.

Lemma eem_frames_received_witness :
  ∃ s1, rx_transfer_done (concat (frame_bytes END_BE <$> [demo_frame 42; demo_frame 60; demo_frame 100])) (known END_BE) = Ok s1 ∧
    ∃ s2, rx_run (rounds 3 0 demo_poll) s1 = Ok ([replicate 42 7; replicate 60 7; replicate 100 7], s2).
Proof.
  destruct (eem_frames_received END_BE (known END_BE) [demo_frame 42; demo_frame 60; demo_frame 100]) as (s1 & E & _ & H).
  - done.
  - apply known_listening.
  - apply Forall_forall. intros f Hf. repeat (apply elem_of_cons in Hf as [-> |Hf]; [apply demo_frame_ok; lia|]). by apply elem_of_nil in Hf.
  - apply (bool_decide_unpack _). by vm_compute.
  - exists s1. split; [exact E|]. destruct (H 3%nat 0 demo_poll) as [s2 E2]; [by apply (bool_decide_unpack _)|]. by exists s2.
Defined.

(** The rings after frames of 1000 and 100 bytes were sent. *)
Definition demo_sender : eem :=
  match ('(_, s) ← USBEEM_Send (replicate 1000 8) 0 demo_poll (known END_LE); '(_, s) ← USBEEM_Send (replicate 1000 9) 0 demo_poll s; Ok s) with
  | Ok s => s | Fault _ => known END_LE end.

Lemma demo_sender_ok : ring_ok (ee_tx demo_sender).
Proof.
  split; try (by vm_compute).
  repeat (constructor; [split; [by vm_compute|vm_compute; by split]|]). constructor.
Qed.

Lemma eem_roundtrip_witness :
  ∃ s' data tail t1 t2, USBEEM_TxTask_step true demo_sender = Ok s' ∧ ee_tx_phase s' = TxWait data tail ∧
    contents (ee_tx (tx_transfer_done EOK s')) = [replicate 1000 9] ∧
    rx_transfer_done data (known END_LE) = Ok t1 ∧ rx_run (rounds 2 0 demo_poll) t1 = Ok ([replicate 1000 8], t2).
Proof.
  destruct (eem_roundtrip END_LE demo_sender (known END_LE) 0 demo_poll) as (s' & data & tail & t1 & t2 & E1 & E2 & _ & E3 & _ & E4 & E5).
  - done.
  - exact demo_sender_ok.
  - by vm_compute.
  - by vm_compute.
  - by vm_compute.
  - by vm_compute.
  - apply known_listening.
  - by vm_compute.
  - exists s', data, tail, t1, t2. split; [exact E1|]. split; [exact E2|].
    assert (fitting 1524 (contents (ee_tx demo_sender)) = [replicate 1000 8]) as Hf by (by vm_compute).
    assert (contents (ee_tx demo_sender) = [replicate 1000 8; replicate 1000 9]) as Hc by (by vm_compute).
    rewrite Hf, Hc in E3. rewrite Hf in E5. injection E3 as E3. by rewrite <- E3.
Defined.

Lemma eem_byte_order_learned_witness :
  ∃ s1 s2 s3, rx_transfer_done (frame_bytes END_LE (demo_frame 42)) new_eem = Ok s1 ∧ USBEEM_RxTask_step s1 = Ok s2 ∧ USBEEM_RxTask_step s2 = Ok s3 ∧
    ee_endiannes s3 = END_LE ∧ contents (ee_rx s3) = [replicate 42 7].
Proof.
  apply (eem_byte_order_learned END_LE new_eem (demo_frame 42)).
  - done.
  - apply known_listening.
  - by vm_compute.
  - apply demo_frame_ok. lia.
Defined.
