(* ===== verification/UsbVcp.v ===== *)
(** * The serial port over USB (dev/src/usb_vcp.c)

    Two byte queues between the callers and the tasks of the bulk endpoint.  The
    tasks are state machines with a step for what is done between two yields; the
    end of a transfer, with its data and its code, is an event of the hardware,
    and a call of the program has a step for each of its turns.  The queues are
    those of ByteQueue, in the memory of the program, where the tasks have their
    buffers.  The requests of the port are in UsbCore; its reset sets registers. *)
From S2P Require Import Prelude CString Heap Time Queue ByteQueue UsbDesc UsbEem.

(** ** The tasks *)

Inductive vcp_rx := RxStart | RxWaiting | RxPutting (written count : Z).
Inductive vcp_tx := TxGetting (read : Z) | TxSending (offs size : Z) | TxWaiting (offs size : Z).

Record vcp := mk_vcp { vc_mem : mem; vc_rxq : queue_t; vc_txq : queue_t; vc_rx : vcp_rx; vc_tx : vcp_tx }.

Definition set_vcp_rx (m : mem) (q : queue_t) (p : vcp_rx) (s : vcp) : vcp := mk_vcp m q (vc_txq s) p (vc_tx s).
Definition set_vcp_tx (m : mem) (q : queue_t) (p : vcp_tx) (s : vcp) : vcp := mk_vcp m (vc_rxq s) q (vc_rx s) p.

Section port.
(** The buffers of the tasks. *)
Context (rxb txb : Z).

(** [ec] is what the start of a transfer gives; [Queue_PutWait] puts what there is
    room for and waits with the rest. *)
Definition USBVCP_RxTask (ec : Z) (cancelled : bool) (s : vcp) : res vcp :=
  match vc_rx s with
  | RxStart => Ok (if (ec <? EOK) && negb (ec =? EBUSY) then s else set_vcp_rx (vc_mem s) (vc_rxq s) RxWaiting s)
  | RxWaiting => Ok s
  | RxPutting written count =>
      '(m, q, n) ← Queue_Put (vc_mem s) (vc_rxq s) (rxb + written) (count - written);
      let written := written +u n in
      Ok (set_vcp_rx m q (if (written =? count) || cancelled then RxStart else RxPutting written count) s)
  end.

(** A transfer has filled the buffer. *)
Definition rx_transferred (ec : Z) (data : list Z) (s : vcp) : vcp :=
  match vc_rx s with
  | RxWaiting => set_vcp_rx (put_bytes (vc_mem s) rxb data) (vc_rxq s) (if EOK <? ec then RxPutting 0 ec else RxStart) s
  | _ => s
  end.

(** [Queue_GetWait] waits for a whole buffer, five ticks at most; [elapsed] is how
    long it has waited. *)
Definition USBVCP_TxTask (elapsed ec : Z) (cancelled : bool) (s : vcp) : res vcp :=
  match vc_tx s with
  | TxGetting read =>
      '(m, q, n) ← Queue_Get (vc_mem s) (vc_txq s) (txb + read) (USB_VCP_TX_SIZE - read);
      let read := read +u n in
      Ok (set_vcp_tx m q (if (read =? USB_VCP_TX_SIZE) || (5 <? elapsed) || cancelled then TxSending 0 read else TxGetting read) s)
  | TxSending offs size =>
      Ok (set_vcp_tx (vc_mem s) (vc_txq s)
        (if offs =? size then TxGetting 0 else if ec <? EOK then TxSending offs size else TxWaiting offs size) s)
  | TxWaiting _ _ => Ok s
  end.

(** The bytes of a transfer: [size] of them from the offset on. *)
Definition tx_transfer (s : vcp) : option (list Z) :=
  match vc_tx s with TxWaiting offs size => get_bytes (vc_mem s) (txb + offs) (Z.to_nat size) | _ => None end.

Definition tx_transferred (ec : Z) (s : vcp) : vcp :=
  match vc_tx s with
  | TxWaiting offs size => set_vcp_tx (vc_mem s) (vc_txq s) (TxSending (if EOK <? ec then offs +u ec else offs) size) s
  | _ => s
  end.
End port.

(** ** The calls *)

(** A turn: it goes on with an offset, or returns. *)
Inductive call := More (offs : Z) | Result (ec : Z).

Definition USBVCP_Send (configured : bool) (elapsed timeout ptr size offs : Z) (s : vcp) : res (call * vcp) :=
  if offs <? size then
    if negb configured then Ok (Result EUSB_INACTIVE, s)
    else if negb (timeout =? 0) && (timeout <? elapsed) then Ok (Result (s32 offs), s)
    else
      '(m, q, n) ← Queue_Put (vc_mem s) (vc_txq s) (ptr + offs) (size - offs);
      Ok (More (offs +u n), set_vcp_tx m q (vc_tx s) s)
  else Ok (Result (s32 offs), s).

Definition USBVCP_Recv (configured : bool) (elapsed timeout ptr size offs : Z) (s : vcp) : res (call * vcp) :=
  if offs <? size then
    if negb configured then Ok (Result EUSB_INACTIVE, s)
    else if negb (timeout =? 0) && (timeout <? elapsed) then Ok (Result (s32 offs), s)
    else
      '(m, q, n) ← Queue_Get (vc_mem s) (vc_rxq s) (ptr + offs) (size - offs);
      Ok (More (offs +u n), set_vcp_rx m q (vc_rx s) s)
  else Ok (Result (s32 offs), s).

(** ** The bytes in memory *)

Lemma bytes_kept m m' a l : (∀ i, a ≤ i < a + length l → m' !! i = m !! i) → bytes_at m a l → bytes_at m' a l.
Proof.
  intros H. rewrite !bytes_at_iff. intros Hl i b Hi. pose proof (lookup_lt_Some _ _ _ Hi). rewrite H by lia. by apply Hl.
Qed.
Lemma mapped_kept m m' a n : (∀ i, a ≤ i < a + Z.of_nat n → m' !! i = m !! i) → mapped m a n → mapped m' a n.
Proof. intros H Hm i Hi. rewrite H by done. by apply Hm. Qed.

(** Bytes are fetched as far as there are any. *)
Lemma fifo_get_some `{ByteFifo fifo} m q l n p :
  fifo m q l → mapped m p n → foreign q p n →
  ∃ q', Queue_Get m q p n = Ok (put_bytes m p (take n l), q', Z.of_nat (length (take n l))) ∧
    fifo (put_bytes m p (take n l)) q' (drop n l) ∧ same_buffer q' q.
Proof.
  intros Hf Hm Hfor. destruct (decide (n ≤ length l)%nat) as [Hn|Hn].
  { rewrite length_take_le by done. by apply fifo_get. }
  assert (take n l = l) as Et by (apply take_ge; lia). rewrite Et. unfold Queue_Get.
  pose proof (fifo_peek m q l p n Hf ltac:(lia)) as E. cbv zeta in E. rewrite Nat2Z.id, Et in E.
  assert (foreign q p (length l)) as Hfl by (eapply foreign_le; [exact Hfor|lia]).
  rewrite E, bind_Ok; [|intros i Hi; apply Hm; lia|done].
  destruct (fifo_drop m q l (length l) Hf ltac:(lia)) as (q' & Ed & Hf' & Hc & Hp & Hs). rewrite Nat2Z.id, take_ge in Ed by done. rewrite Nat2Z.id in Hf'.
  rewrite Ed. exists q'. split; [done|]. split; [|done]. apply fifo_put_bytes; [|eapply foreign_same; [|exact Hfl]; done].
  rewrite drop_ge in Hf' |- * by lia. done.
Qed.

(** ** What is on its way *)

(** What the transfers have brought and the callers were given; what the callers
    have handed over and the transfers have taken. *)
Record traffic := mk_traffic { vw_received : list Z; vw_given : list Z; vw_accepted : list Z; vw_gone : list Z }.

Section streams.
Context `{ByteFifo fifo} (rxb txb : Z).

Definition rx_pending (p : vcp_rx) (m : mem) (rest : list Z) : Prop :=
  match p with
  | RxPutting w c => 0 ≤ w ∧ w + length rest = c ∧ c ≤ USB_VCP_RX_SIZE ∧ bytes_at m (rxb + w) rest ∧ Forall is_u8 rest
  | _ => rest = []
  end.

Definition tx_pending (p : vcp_tx) (m : mem) (rest : list Z) : Prop :=
  match p with
  | TxGetting r => Z.of_nat (length rest) = r ∧ r ≤ USB_VCP_TX_SIZE ∧ bytes_at m txb rest
  | TxSending o z => (o = 0 ∧ Z.of_nat (length rest) = z ∨ o = z ∧ rest = []) ∧ 0 ≤ z ≤ USB_VCP_TX_SIZE ∧ bytes_at m (txb + o) rest
  | TxWaiting o z => o = 0 ∧ Z.of_nat (length rest) = z ∧ z ≤ USB_VCP_TX_SIZE ∧ bytes_at m txb rest
  end.

Definition apart_from (a n p k : Z) : Prop := a + n ≤ p ∨ p + k ≤ a.

(** Queues and buffers lie apart. *)
Definition laid_out (rxq txq : queue_t) : Prop :=
  foreign rxq rxb USB_VCP_RX_SIZE ∧ foreign rxq txb USB_VCP_TX_SIZE ∧ foreign txq rxb USB_VCP_RX_SIZE ∧ foreign txq txb USB_VCP_TX_SIZE ∧
  foreign rxq (q_ptr txq) (q_cap txq) ∧ apart_from rxb USB_VCP_RX_SIZE txb USB_VCP_TX_SIZE.

Definition rx_side (m : mem) (q : queue_t) (p : vcp_rx) (v : traffic) : Prop :=
  ∃ l rest, fifo m q l ∧ rx_pending p m rest ∧ mapped m rxb 32 ∧ vw_received v = vw_given v ++ l ++ rest.
Definition tx_side (m : mem) (q : queue_t) (p : vcp_tx) (v : traffic) : Prop :=
  ∃ l rest, fifo m q l ∧ tx_pending p m rest ∧ mapped m txb 32 ∧ vw_accepted v = vw_gone v ++ rest ++ l.

Definition vcp_ok (s : vcp) (v : traffic) : Prop :=
  laid_out (vc_rxq s) (vc_txq s) ∧ rx_side (vc_mem s) (vc_rxq s) (vc_rx s) v ∧ tx_side (vc_mem s) (vc_txq s) (vc_tx s) v.

Definition agrees (m m' : mem) (a n : Z) : Prop := ∀ i, a ≤ i < a + n → m' !! i = m !! i.

Lemma rx_pending_kept m m' p rest : agrees m m' rxb USB_VCP_RX_SIZE → rx_pending p m rest → rx_pending p m' rest.
Proof.
  intros Hb Hr. unfold agrees in Hb. destruct p as [| |w c]; [done..|]. unfold rx_pending, USB_VCP_RX_SIZE in *. destruct Hr as (Hw & Hc & H32 & Hby & Hu).
  split_and!; try done. eapply bytes_kept; [|exact Hby]. intros i Hi. apply Hb. lia.
Qed.

Lemma tx_pending_kept m m' p rest : agrees m m' txb USB_VCP_TX_SIZE → tx_pending p m rest → tx_pending p m' rest.
Proof.
  intros Hb Hr. unfold agrees in Hb. destruct p as [r|o z|o z]; unfold tx_pending, USB_VCP_TX_SIZE in *.
  - destruct Hr as (Hl & Hr & Hby). split_and!; try done. eapply bytes_kept; [|exact Hby]. intros i Hi. apply Hb. lia.
  - destruct Hr as (Hl & Hr & Hby). split_and!; try done; try lia. eapply bytes_kept; [|exact Hby]. intros i Hi. apply Hb.
    destruct Hl as [[-> Hl]|[_ ->]]; cbn in *; lia.
  - destruct Hr as (Ho & Hl & Hr & Hby). split_and!; try done. eapply bytes_kept; [|exact Hby]. intros i Hi. apply Hb. lia.
Qed.

Lemma rx_side_kept m m' q p v v' :
  agrees m m' (q_ptr q) (q_cap q) → agrees m m' rxb USB_VCP_RX_SIZE → vw_received v' = vw_received v → vw_given v' = vw_given v →
  rx_side m q p v → rx_side m' q p v'.
Proof.
  intros Hq Hb E1 E2 (l & rest & Hf & Hr & Hm & E). exists l, rest. split_and!; [| | |congruence].
  - eapply fifo_frame; [exact Hf|exact Hq].
  - by eapply rx_pending_kept.
  - eapply mapped_kept; [|exact Hm]. exact Hb.
Qed.

Lemma tx_side_kept m m' q p v v' :
  agrees m m' (q_ptr q) (q_cap q) → agrees m m' txb USB_VCP_TX_SIZE → vw_accepted v' = vw_accepted v → vw_gone v' = vw_gone v →
  tx_side m q p v → tx_side m' q p v'.
Proof.
  intros Hq Hb E1 E2 (l & rest & Hf & Hr & Hm & E). exists l, rest. split_and!; [| | |congruence].
  - eapply fifo_frame; [exact Hf|exact Hq].
  - by eapply tx_pending_kept.
  - eapply mapped_kept; [|exact Hm]. exact Hb.
Qed.

(** What is written elsewhere. *)
Lemma agrees_put m a l b n : apart_from a (length l) b n → agrees m (put_bytes m a l) b n.
Proof. intros Ha i Hi. apply put_bytes_lookup_ne. unfold apart_from in Ha. lia. Qed.
Lemma agrees_queue m m' q b n : (∀ a, ¬ (q_ptr q ≤ a < q_ptr q + q_cap q) → m' !! a = m !! a) → foreign q b n → agrees m m' b n.
Proof. intros Hout Hf i Hi. apply Hout. unfold foreign in Hf. lia. Qed.

Lemma laid_out_same rxq txq rxq' txq' : same_buffer rxq' rxq → same_buffer txq' txq → laid_out rxq txq → laid_out rxq' txq'.
Proof. unfold laid_out, foreign, q_cap. intros (-> & -> & ->) (-> & -> & ->). done. Qed.

Lemma same_refl q : same_buffer q q. Proof. done. Qed.

(** A buffer of the program. *)
Definition off_port (s : vcp) (p n : Z) : Prop :=
  foreign (vc_rxq s) p n ∧ foreign (vc_txq s) p n ∧ apart_from rxb USB_VCP_RX_SIZE p n ∧ apart_from txb USB_VCP_TX_SIZE p n.

(** ** Each step keeps it *)

Lemma rx_task_ok s v ec c : vcp_ok s v → ∃ s', USBVCP_RxTask rxb ec c s = Ok s' ∧ (c = false → vcp_ok s' v).
Proof.
  intros (Hlay & Hrx & Htx). destruct s as [m rxq txq p tx]. cbn [vc_mem vc_rxq vc_txq vc_rx vc_tx] in *. unfold USBVCP_RxTask.
  cbn [vc_mem vc_rxq vc_txq vc_rx vc_tx]. destruct p as [| |w c0].
  - destruct ((ec <? EOK) && negb (ec =? EBUSY)); eexists; (split; [done|]); by intros _.
  - eexists. split; [done|]. by intros _.
  - destruct Hrx as (l & rest & Hf & (Hw & Hc & H32 & Hby & Hu) & Hm & E). unfold USB_VCP_RX_SIZE in H32.
    destruct Hlay as (L1 & L2 & L3 & L4 & L5 & L6).
    destruct (fifo_put m rxq l rest (rxb + w) Hf Hu Hby) as (m' & q' & Eq & Hf' & Hcnt & Hptr & Hsz & Hout).
    { unfold foreign, USB_VCP_RX_SIZE in L1 |- *. lia. }
    replace (c0 - w) with (Z.of_nat (length rest)) by lia. rewrite Eq, bind_Ok. cbv beta iota zeta.
    set (k := Nat.min (length rest) (Z.to_nat (q_count rxq) - length l)) in *. assert (k ≤ length rest)%nat as Hk by lia. clearbody k.
    rewrite u32_small by word_lia. eexists. split; [done|]. intros ->. rewrite orb_false_r. unfold set_vcp_rx, vcp_ok. cbn [vc_mem vc_rxq vc_txq vc_rx vc_tx].
    split; [by apply (laid_out_same rxq txq)|]. split.
    + exists (l ++ take k rest), (drop k rest). split_and!; [done| | |by rewrite <- app_assoc, take_drop].
      * destruct (Z.eqb_spec (w + k) c0) as [E1|E1]; [apply drop_ge; lia|]. unfold rx_pending, USB_VCP_RX_SIZE. rewrite length_drop. split_and!; try lia.
        -- eapply bytes_kept; [intros i Hi; apply Hout; unfold foreign, USB_VCP_RX_SIZE in L1; rewrite length_drop in Hi; lia|].
           rewrite <- (take_drop k rest) in Hby. apply bytes_at_app in Hby as [_ Hby]. rewrite length_take_le in Hby by done. by rewrite Z.add_assoc.
        -- by apply Forall_drop.
      * eapply mapped_kept; [|exact Hm]. intros i Hi. apply Hout. unfold foreign, USB_VCP_RX_SIZE in L1. lia.
    + eapply tx_side_kept; [by eapply agrees_queue|by eapply agrees_queue|done|done|exact Htx].
Qed.

Lemma tx_task_ok s v elapsed ec c : vcp_ok s v → ∃ s', USBVCP_TxTask txb elapsed ec c s = Ok s' ∧ vcp_ok s' v.
Proof.
  intros (Hlay & Hrx & Htx). destruct s as [m rxq txq rx p]. cbn [vc_mem vc_rxq vc_txq vc_rx vc_tx] in *. unfold USBVCP_TxTask.
  cbn [vc_mem vc_rxq vc_txq vc_rx vc_tx]. destruct p as [r|o z|o z].
  - destruct Htx as (l & rest & Hf & (Hl & H32 & Hby) & Hm & E). unfold USB_VCP_TX_SIZE in *. destruct Hlay as (L1 & L2 & L3 & L4 & L5 & L6).
    destruct (fifo_get_some m txq l (Z.to_nat (32 - r)) (txb + r) Hf) as (q' & Eq & Hf' & Hs).
    { intros i Hi. apply Hm. lia. }
    { unfold foreign, USB_VCP_TX_SIZE in L4 |- *. lia. }
    rewrite Z2Nat.id in Eq by lia. rewrite Eq, bind_Ok. cbv beta iota zeta. set (got := take (Z.to_nat (32 - r)) l) in *.
    assert (length got ≤ Z.to_nat (32 - r))%nat as Hg by (unfold got; rewrite length_take; lia).
    rewrite u32_small by word_lia. eexists. split; [done|]. unfold set_vcp_tx, vcp_ok. cbn [vc_mem vc_rxq vc_txq vc_rx vc_tx].
    assert (bytes_at (put_bytes m (txb + r) got) txb (rest ++ got)) as Hby'.
    { apply bytes_at_app. rewrite Hl. split; [|apply put_bytes_bytes_at]. apply put_bytes_bytes_at_other; [lia|done]. }
    assert (∀ b n, apart_from txb 32 b n → agrees m (put_bytes m (txb + r) got) b n) as Hag.
    { intros b n Hb. apply agrees_put. unfold apart_from in *. lia. }
    split; [by apply (laid_out_same rxq txq)|]. split.
    + eapply rx_side_kept; [apply Hag|apply Hag|done|done|exact Hrx].
      * unfold foreign, apart_from, USB_VCP_TX_SIZE in *. lia.
      * unfold apart_from, USB_VCP_TX_SIZE in *. lia.
    + exists (drop (Z.to_nat (32 - r)) l), (rest ++ got). split_and!; [done| |by apply put_bytes_mapped|].
      * destruct ((r + length got =? 32) || (5 <? elapsed) || c); unfold tx_pending, USB_VCP_TX_SIZE; rewrite length_app.
        -- split_and!; [left; lia|lia|lia|by rewrite Z.add_0_r].
        -- split_and!; [lia|lia|done].
      * unfold got. by rewrite <- app_assoc, take_drop.
  - eexists. split; [done|]. unfold set_vcp_tx. split; [done|]. split; [done|]. destruct Htx as (l & rest & Hf & Hr & Hm & E). exists l, rest. cbn [vc_mem vc_rxq vc_txq vc_rx vc_tx].
    split_and!; try done. destruct Hr as (Hl & Hz & Hby). destruct (Z.eqb_spec o z) as [-> |Hne].
    + assert (rest = []) as ->; [|by split_and!]. destruct Hl as [[Hl1 Hl2]|[_ Hl]].
      * apply nil_length_inv. lia.
      * exact Hl.
    + destruct Hl as [[-> Hl]|[? _]]; [|done]. rewrite Z.add_0_r in Hby.
      destruct (ec <? EOK); unfold tx_pending; [|by split_and!; try lia]. rewrite Z.add_0_r. split_and!; try done; lia.
  - eexists. by split.
Qed.

Lemma rx_done_ok s v (ec : Z) data :
  vcp_ok s v → vc_rx s = RxWaiting → Forall is_u8 data → length data ≤ USB_VCP_RX_SIZE → ec = length data ∨ ec ≤ EOK ∧ data = [] →
  vcp_ok (rx_transferred rxb ec data s) (mk_traffic (vw_received v ++ data) (vw_given v) (vw_accepted v) (vw_gone v)).
Proof.
  intros (Hlay & Hrx & Htx) Hp Hu Hl Hec. destruct s as [m rxq txq p tx]. cbn [vc_mem vc_rxq vc_txq vc_rx vc_tx] in *. subst p.
  unfold rx_transferred, set_vcp_rx, vcp_ok. cbn [vc_mem vc_rxq vc_txq vc_rx vc_tx]. destruct Hrx as (l & rest & Hf & -> & Hm & E).
  pose proof Hlay as (L1 & L2 & L3 & L4 & L5 & L6). unfold USB_VCP_RX_SIZE in Hl. split; [done|]. split.
  - exists l, data. split_and!; [|..|cbn; by rewrite E, app_nil_r, <- app_assoc].
    + apply fifo_put_bytes; [done|]. eapply foreign_le; [exact L1|unfold USB_VCP_RX_SIZE; lia].
    + unfold EOK in *. destruct (Z.ltb_spec 0 ec) as [H1|H1].
      * destruct Hec as [Hec|[Hec _]]; [|lia]. unfold rx_pending, USB_VCP_RX_SIZE. rewrite Z.add_0_r. split_and!; try done; try lia. apply put_bytes_bytes_at.
      * destruct Hec as [Hec|[_ Hd]]; [|exact Hd]. apply nil_length_inv. lia.
    + by apply put_bytes_mapped.
  - eapply tx_side_kept; [..|exact Htx]; [|..|done|done]; apply agrees_put; unfold foreign, apart_from, USB_VCP_RX_SIZE in *; lia.
Qed.

(** A whole transfer is taken, or none. *)
Lemma tx_done_ok s v bytes :
  vcp_ok s v → tx_transfer txb s = Some bytes →
  vcp_ok (tx_transferred (length bytes) s) (mk_traffic (vw_received v) (vw_given v) (vw_accepted v) (vw_gone v ++ bytes)).
Proof.
  intros (Hlay & Hrx & Htx) Hb. destruct s as [m rxq txq rx p]. cbn [vc_mem vc_rxq vc_txq vc_rx vc_tx] in *. unfold tx_transfer in Hb. cbn [vc_tx vc_mem] in Hb.
  destruct p as [r|o z|o z]; try done. destruct Htx as (l & rest & Hf & (-> & Hl & H32 & Hby) & Hm & E). rewrite Z.add_0_r in Hb.
  pose proof (get_bytes_spec _ _ _ Hby) as Hg. rewrite <- Hl, Nat2Z.id, Hg in Hb. injection Hb as <-. unfold USB_VCP_TX_SIZE in H32.
  unfold tx_transferred, set_vcp_tx, vcp_ok. cbn [vc_mem vc_rxq vc_txq vc_rx vc_tx]. split; [done|]. split; [done|].
  exists l, []. split_and!; [done| |done|cbn; by rewrite E, <- app_assoc]. unfold tx_pending, USB_VCP_TX_SIZE, EOK.
  destruct (Z.ltb_spec 0 (length rest)); [rewrite u32_small by word_lia|]; (split_and!; [|lia|lia|done]).
  - by right.
  - left. cbn. lia.
Qed.

Lemma tx_failed_ok s v ec : vcp_ok s v → ec ≤ EOK → vcp_ok (tx_transferred ec s) v.
Proof.
  intros (Hlay & Hrx & Htx) Hec. destruct s as [m rxq txq rx p]. cbn [vc_mem vc_rxq vc_txq vc_rx vc_tx] in *. unfold tx_transferred. cbn [vc_tx].
  destruct p as [r|o z|o z]; try done. unfold set_vcp_tx, vcp_ok. cbn [vc_mem vc_rxq vc_txq vc_rx vc_tx]. split; [done|]. split; [done|].
  destruct Htx as (l & rest & Hf & (-> & Hl & H32 & Hby) & Hm & E). exists l, rest. split_and!; try done. destruct (Z.ltb_spec EOK ec); [lia|].
  unfold tx_pending. rewrite Z.add_0_r. split_and!; try done; try lia.
Qed.

(** A turn of a call takes a part of what is left of its bytes ... *)
Lemma vcp_send_ok s v cfg elapsed timeout p bs offs :
  vcp_ok s v → off_port s p (length bs) → bytes_at (vc_mem s) p bs → Forall is_u8 bs → 0 ≤ offs → is_u32 (length bs) →
  ∃ r s', USBVCP_Send cfg elapsed timeout p (length bs) offs s = Ok (r, s') ∧
    match r with
    | Result _ => s' = s
    | More offs' => offs ≤ offs' ≤ length bs ∧
        vcp_ok s' (mk_traffic (vw_received v) (vw_given v) (vw_accepted v ++ take (Z.to_nat (offs' - offs)) (drop (Z.to_nat offs) bs)) (vw_gone v))
    end.
Proof.
  intros (Hlay & Hrx & Htx) (P1 & P2 & P3 & P4) Hby Hu Ho Hlen. unfold USBVCP_Send.
  destruct (Z.ltb_spec offs (length bs)) as [Hlt|]; [|by eexists _, _]. destruct cfg; [|by eexists _, _]. cbn [negb].
  destruct (negb (timeout =? 0) && (timeout <? elapsed)); [by eexists _, _|].
  destruct s as [m rxq txq rx p0]. unfold vcp_ok in *. cbn [vc_mem vc_rxq vc_txq vc_rx vc_tx] in *. pose proof Hlay as (L1 & L2 & L3 & L4 & L5 & L6).
  destruct Htx as (l & rest & Hf & Hr & Hm & E). set (left := drop (Z.to_nat offs) bs).
  assert (Z.of_nat (length left) = length bs - offs) as Hll by (unfold left; rewrite length_drop; lia).
  destruct (fifo_put m txq l left (p + offs) Hf) as (m' & q' & Eq & Hf' & Hcnt & Hptr & Hsz & Hout).
  { by apply Forall_drop. }
  { rewrite <- (take_drop (Z.to_nat offs) bs) in Hby. apply bytes_at_app in Hby as [_ Hby]. rewrite length_take_le, Z2Nat.id in Hby by lia. done. }
  { unfold foreign in *. lia. }
  rewrite Hll in Eq. rewrite Eq, bind_Ok. cbv beta iota zeta. set (k := Nat.min (length left) _) in *. assert (k ≤ length left)%nat as Hk by lia. clearbody k.
  rewrite u32_small by word_lia. eexists _, _. split; [done|]. cbv beta iota. split; [lia|]. replace (Z.to_nat (offs + k - offs)) with k by lia.
  split; [by apply (laid_out_same rxq txq)|]. split.
  - unfold set_vcp_tx. cbn [vc_mem vc_rxq vc_txq vc_rx vc_tx].
    eapply rx_side_kept; [apply (agrees_queue _ _ _ _ _ Hout)|apply (agrees_queue _ _ _ _ _ Hout); exact L3|done|done|exact Hrx].
    clear -L5. unfold foreign in *. lia.
  - exists (l ++ take k left), rest. cbn [vc_mem vc_rxq vc_txq vc_rx vc_tx vw_accepted vw_gone].
    split_and!; [done| | |by rewrite E, <- !app_assoc].
    + eapply tx_pending_kept; [|exact Hr]. eapply agrees_queue; [exact Hout|exact L4].
    + eapply mapped_kept; [|exact Hm]. eapply agrees_queue; [exact Hout|exact L4].
Qed.

(** ... or gives the next bytes that have come. *)
Lemma vcp_recv_ok s v cfg elapsed timeout p (n : nat) offs :
  vcp_ok s v → off_port s p n → mapped (vc_mem s) p n → 0 ≤ offs → is_u32 n →
  ∃ r s', USBVCP_Recv cfg elapsed timeout p n offs s = Ok (r, s') ∧
    match r with
    | Result _ => s' = s
    | More offs' => ∃ got, offs ≤ offs' ≤ n ∧ Z.of_nat (length got) = offs' - offs ∧ bytes_at (vc_mem s') (p + offs) got ∧
        vcp_ok s' (mk_traffic (vw_received v) (vw_given v ++ got) (vw_accepted v) (vw_gone v))
    end.
Proof.
  intros (Hlay & Hrx & Htx) (P1 & P2 & P3 & P4) Hmap Ho Hlen. unfold USBVCP_Recv.
  destruct (Z.ltb_spec offs n) as [Hlt|]; [|by eexists _, _]. destruct cfg; [|by eexists _, _]. cbn [negb].
  destruct (negb (timeout =? 0) && (timeout <? elapsed)); [by eexists _, _|].
  destruct s as [m rxq txq rx p0]. unfold vcp_ok in *. cbn [vc_mem vc_rxq vc_txq vc_rx vc_tx] in *.
  destruct Hrx as (l & rest & Hf & Hr & Hm & E).
  destruct (fifo_get_some m rxq l (Z.to_nat (n - offs)) (p + offs) Hf) as (q' & Eq & Hf' & Hs).
  { intros i Hi. apply Hmap. lia. }
  { unfold foreign in *. lia. }
  rewrite Z2Nat.id in Eq by lia. rewrite Eq, bind_Ok. cbv beta iota zeta. set (got := take (Z.to_nat (n - offs)) l) in *.
  assert (length got ≤ Z.to_nat (n - offs))%nat as Hg by (unfold got; rewrite length_take; lia).
  assert (∀ b k, foreign (mk_queue 1 (n - offs) (p + offs) 0 0) b k → agrees m (put_bytes m (p + offs) got) b k) as Hag.
  { intros b k Hb. apply agrees_put. unfold foreign, q_cap, apart_from in *. cbn in Hb. lia. }
  rewrite u32_small by word_lia. eexists _, _. split; [done|]. cbv beta iota. exists got. split; [lia|]. split; [lia|]. split; [apply put_bytes_bytes_at|].
  unfold set_vcp_rx. cbn [vc_mem vc_rxq vc_txq vc_rx vc_tx]. split; [by apply (laid_out_same rxq txq)|]. split.
  - exists (drop (Z.to_nat (n - offs)) l), rest. cbn [vw_received vw_given]. split_and!; [done| |by apply put_bytes_mapped|].
    + eapply rx_pending_kept; [|exact Hr]. apply Hag. unfold foreign, q_cap, apart_from, USB_VCP_RX_SIZE in *. cbn. lia.
    + rewrite E, <- app_assoc. f_equal. unfold got. by rewrite app_assoc, take_drop.
  - eapply tx_side_kept; [apply Hag|apply Hag|done|done|exact Htx]; unfold foreign, q_cap, apart_from, USB_VCP_TX_SIZE in *; cbn; lia.
Qed.

(** What the program writes elsewhere. *)
Lemma user_ok s v p bs : vcp_ok s v → off_port s p (length bs) → vcp_ok (mk_vcp (put_bytes (vc_mem s) p bs) (vc_rxq s) (vc_txq s) (vc_rx s) (vc_tx s)) v.
Proof.
  intros (Hlay & Hrx & Htx) (P1 & P2 & P3 & P4). unfold vcp_ok. cbn [vc_mem vc_rxq vc_txq vc_rx vc_tx]. split; [done|]. split.
  - eapply rx_side_kept; [..|exact Hrx]; [| |done|done]; apply agrees_put; unfold foreign, apart_from in *; lia.
  - eapply tx_side_kept; [..|exact Htx]; [| |done|done]; apply agrees_put; unfold foreign, apart_from in *; lia.
Qed.

(** ** The port as a whole *)

(** The tasks, the transfers of the host, the turns of the calls and the rest of
    the program, in any order. *)
Inductive vcp_step : vcp * traffic → vcp * traffic → Prop :=
  | step_rx_task ec s s' v : USBVCP_RxTask rxb ec false s = Ok s' → vcp_step (s, v) (s', v)
  | step_rx_done data s v :
      vc_rx s = RxWaiting → Forall is_u8 data → length data ≤ USB_VCP_RX_SIZE →
      vcp_step (s, v) (rx_transferred rxb (length data) data s, mk_traffic (vw_received v ++ data) (vw_given v) (vw_accepted v) (vw_gone v))
  | step_rx_failed ec s v : ec ≤ EOK → vcp_step (s, v) (rx_transferred rxb ec [] s, v)
  | step_tx_task elapsed ec c s s' v : USBVCP_TxTask txb elapsed ec c s = Ok s' → vcp_step (s, v) (s', v)
  | step_tx_done bytes s v :
      tx_transfer txb s = Some bytes →
      vcp_step (s, v) (tx_transferred (length bytes) s, mk_traffic (vw_received v) (vw_given v) (vw_accepted v) (vw_gone v ++ bytes))
  | step_tx_failed ec s v : ec ≤ EOK → vcp_step (s, v) (tx_transferred ec s, v)
  | step_send cfg elapsed timeout p bs offs offs' s s' v :
      off_port s p (length bs) → bytes_at (vc_mem s) p bs → Forall is_u8 bs → 0 ≤ offs → is_u32 (length bs) →
      USBVCP_Send cfg elapsed timeout p (length bs) offs s = Ok (More offs', s') →
      vcp_step (s, v)
        (s', mk_traffic (vw_received v) (vw_given v) (vw_accepted v ++ take (Z.to_nat (offs' - offs)) (drop (Z.to_nat offs) bs)) (vw_gone v))
  | step_recv cfg elapsed timeout p (n : nat) offs offs' got s s' v :
      off_port s p n → mapped (vc_mem s) p n → 0 ≤ offs → is_u32 n →
      USBVCP_Recv cfg elapsed timeout p n offs s = Ok (More offs', s') →
      get_bytes (vc_mem s') (p + offs) (Z.to_nat (offs' - offs)) = Some got →
      vcp_step (s, v) (s', mk_traffic (vw_received v) (vw_given v ++ got) (vw_accepted v) (vw_gone v))
  | step_user p bs s v :
      off_port s p (length bs) →
      vcp_step (s, v) (mk_vcp (put_bytes (vc_mem s) p bs) (vc_rxq s) (vc_txq s) (vc_rx s) (vc_tx s), v).

Lemma vcp_rx_failed_ok s v ec : vcp_ok s v → ec ≤ EOK → vcp_ok (rx_transferred rxb ec [] s) v.
Proof.
  intros Hv Hec. destruct (vc_rx s) eqn:E; [by unfold rx_transferred; rewrite E| |by unfold rx_transferred; rewrite E].
  pose proof (rx_done_ok s v ec [] Hv E (Forall_nil_2 _) ltac:(done) (or_intror (conj Hec eq_refl))) as Hd.
  rewrite app_nil_r in Hd. by destruct v.
Qed.

Lemma vcp_step_ok a b : vcp_step a b → vcp_ok a.1 a.2 → vcp_ok b.1 b.2.
Proof.
  intros Hs Hv. destruct Hs; cbn [fst snd] in *.
  - destruct (rx_task_ok s v ec false Hv) as (s1 & E & Hk). assert (s' = s1) as -> by congruence. by apply Hk.
  - apply rx_done_ok; try done. by left.
  - by apply vcp_rx_failed_ok.
  - destruct (tx_task_ok s v elapsed ec c Hv) as (s1 & E & Hk). by assert (s' = s1) as -> by congruence.
  - by apply tx_done_ok.
  - by apply tx_failed_ok.
  - destruct (vcp_send_ok s v cfg elapsed timeout p bs offs) as (r & s1 & E & Hk); try done. assert (Ok (More offs', s') = Ok (r, s1)) as [= <- <-] by congruence. apply Hk.
  - destruct (vcp_recv_ok s v cfg elapsed timeout p n offs) as (r & s1 & E & Hk); try done. assert (Ok (More offs', s') = Ok (r, s1)) as [= <- <-] by congruence.
    destruct Hk as (got1 & _ & Hl & Hb & Hk). apply get_bytes_spec in Hb. replace (Z.to_nat (offs' - offs)) with (length got1) in * by lia. by simplify_eq.
  - by apply user_ok.
Qed.

Lemma vcp_steps_ok a b : rtc vcp_step a b → vcp_ok a.1 a.2 → vcp_ok b.1 b.2.
Proof. induction 1 as [|x y z Hxy _ IH]; [done|]. intros Hv. by apply IH, (vcp_step_ok x y). Qed.

(** What [USBVCP_Init] sets up: two empty queues, and the tasks at their start. *)
Definition vcp_started (m : mem) (rxq txq : queue_t) : vcp := mk_vcp m rxq txq RxStart (TxGetting 0).

Lemma vcp_started_ok m rxq txq :
  laid_out rxq txq → fifo m rxq [] → fifo m txq [] → mapped m rxb 32 → mapped m txb 32 →
  vcp_ok (vcp_started m rxq txq) (mk_traffic [] [] [] []).
Proof.
  intros Hl Hr Ht Hmr Hmt. split; [done|]. split; exists [], []; split_and!; try done.
Qed.

Definition rx_idle (p : vcp_rx) : bool := match p with RxPutting _ _ => false | _ => true end.

(** C17: whatever the order of the tasks, of the transfers of the host, of the turns
    of the calls and of the writes of the program elsewhere: the callers are given
    the bytes that have come, in their order, the host gets the bytes the callers
    have handed over, in theirs, nothing is lost or repeated; what is on its way
    fits the queue and the buffer, nothing is once the queue and the task are
    empty, and the tasks always have a next step. *)
Theorem vcp_streams m rxq txq s v :
  laid_out rxq txq → fifo m rxq [] → fifo m txq [] → mapped m rxb 32 → mapped m txb 32 →
  rtc vcp_step (vcp_started m rxq txq, mk_traffic [] [] [] []) (s, v) →
  (∃ coming, vw_received v = vw_given v ++ coming ∧ length coming ≤ q_count (vc_rxq s) + USB_VCP_RX_SIZE ∧
     (Queue_GetUsed (vc_rxq s) = 0 → rx_idle (vc_rx s) = true → coming = [])) ∧
  (∃ going, vw_accepted v = vw_gone v ++ going ∧ length going ≤ q_count (vc_txq s) + USB_VCP_TX_SIZE ∧
     (Queue_GetUsed (vc_txq s) = 0 → vc_tx s = TxGetting 0 → going = [])) ∧
  (∀ ec c, ∃ s', USBVCP_RxTask rxb ec c s = Ok s') ∧ (∀ elapsed ec c, ∃ s', USBVCP_TxTask txb elapsed ec c s = Ok s').
Proof.
  intros Hl Hr Ht Hmr Hmt Hs. apply vcp_steps_ok in Hs; [|by apply vcp_started_ok]. cbn in Hs. split; [|split; [|split]].
  - destruct Hs as (_ & (l & rest & Hf & Hp & _ & E) & _). exists (l ++ rest). split; [done|]. rewrite length_app. split.
    + pose proof (fifo_free _ _ _ Hf) as [_ Hle]. assert (length rest ≤ USB_VCP_RX_SIZE); [|lia].
      destruct (vc_rx s); cbn in Hp; [by subst..|]. unfold USB_VCP_RX_SIZE in *. lia.
    + rewrite (fifo_used _ _ _ Hf). intros H0 Hi. rewrite (nil_length_inv l) by lia. by destruct (vc_rx s).
  - destruct Hs as (_ & _ & (l & rest & Hf & Hp & _ & E)). exists (rest ++ l). split; [done|]. rewrite length_app. split.
    + pose proof (fifo_free _ _ _ Hf) as [_ Hle]. assert (length rest ≤ USB_VCP_TX_SIZE); [|lia].
      destruct (vc_tx s); cbn in Hp; unfold USB_VCP_TX_SIZE in *; (destruct Hp as [Hp1 Hp2]; try lia). destruct Hp1 as [[_ ?]|[_ ->]]; cbn; lia.
      
    + rewrite (fifo_used _ _ _ Hf). intros H0 Hi. rewrite Hi in Hp. destruct Hp as (Hp & _).
      rewrite (nil_length_inv l), (nil_length_inv rest) by lia. done.
  - intros ec c. destruct (rx_task_ok s v ec c Hs) as (s' & E & _). by exists s'.
  - intros elapsed ec c. destruct (tx_task_ok s v elapsed ec c Hs) as (s' & E & _). by exists s'.
Qed.
End streams.

(** ** An example *)

(** The buffers of the tasks, two small queues and the program's bytes. *)
Definition vcp_mem : mem := put_bytes (put_bytes ∅ 0 (replicate 96 0)) 96 [72; 101; 108; 108; 111; 0; 0; 0].
Definition vcp_rxq : queue_t := mk_queue 1 16 64 0 0.
Definition vcp_txq : queue_t := mk_queue 1 16 80 0 0.
Definition vcp_start : vcp := vcp_started vcp_mem vcp_rxq vcp_txq.
Definition vcp_state (r : res vcp) : vcp := match r with Ok s => s | _ => vcp_start end.
Definition after_turn (r : res (call * vcp)) : vcp := match r with Ok (_, s) => s | _ => vcp_start end.

(** "Hello" is handed over and fetched for a transfer, which takes it. *)
Definition hello_sent : vcp := after_turn (USBVCP_Send true 0 0 96 5 0 vcp_start).
Definition hello_sending : vcp := vcp_state (USBVCP_TxTask 32 6 EOK false (vcp_state (USBVCP_TxTask 32 6 EOK false hello_sent))).
(** Three bytes come, and two of them are given. *)
Definition three_come : vcp :=
  rx_transferred 0 3 [1; 2; 3] (vcp_state (USBVCP_RxTask 0 EOK false (tx_transferred 5 hello_sending))).
Definition two_given : vcp := after_turn (USBVCP_Recv true 0 0 101 2 0 (vcp_state (USBVCP_RxTask 0 EOK false three_come))).

Lemma vcp_laid_out : laid_out 0 32 vcp_rxq vcp_txq.
Proof. unfold laid_out, foreign, apart_from, q_cap, USB_VCP_RX_SIZE, USB_VCP_TX_SIZE. cbn. lia. Qed.

Lemma vcp_zeros a n : 0 ≤ a → (Z.to_nat a + n ≤ 96)%nat → mapped vcp_mem a n.
Proof.
  intros Ha Hn. unfold vcp_mem. apply put_bytes_mapped. pose proof (filled_mapped ∅ 0 0 96 (Z.to_nat a) n Hn) as H.
  by rewrite Z2Nat.id in H.
Qed.

Lemma hello_at : bytes_at vcp_mem 96 [72; 101; 108; 108; 111].
Proof. apply (bytes_at_app _ _ _ [0; 0; 0]), put_bytes_bytes_at. Qed.

Lemma vcp_free s p n : q_ptr (vc_rxq s) = 64 → q_cap (vc_rxq s) = 16 → q_ptr (vc_txq s) = 80 → q_cap (vc_txq s) = 16 → 96 ≤ p → off_port 0 32 s p n.
Proof. unfold off_port, foreign, apart_from, USB_VCP_RX_SIZE, USB_VCP_TX_SIZE. lia. Qed.

Lemma vcp_run : rtc (vcp_step 0 32) (vcp_start, mk_traffic [] [] [] []) (two_given, mk_traffic [1; 2; 3] [1; 2] [72; 101; 108; 108; 111] [72; 101; 108; 108; 111]).
Proof.
  eapply rtc_l; [apply (step_send _ _ true 0 0 96 [72; 101; 108; 108; 111] 0 5 vcp_start hello_sent);
    [by apply vcp_free|exact hello_at|by repeat constructor|done|done|by vm_compute]|].
  eapply rtc_l; [by apply (step_tx_task _ _ 6 EOK false _ (vcp_state (USBVCP_TxTask 32 6 EOK false hello_sent))); vm_compute|].
  eapply rtc_l; [by apply (step_tx_task _ _ 6 EOK false _ hello_sending); vm_compute|].
  eapply rtc_l; [by apply (step_tx_done _ _ [72; 101; 108; 108; 111]); vm_compute|].
  eapply rtc_l; [by apply (step_rx_task _ _ EOK _ (vcp_state (USBVCP_RxTask 0 EOK false (tx_transferred 5 hello_sending)))); vm_compute|].
  eapply rtc_l; [apply (step_rx_done _ _ [1; 2; 3]); [by vm_compute|by repeat constructor|done]|].
  eapply rtc_l; [by apply (step_rx_task _ _ EOK _ (vcp_state (USBVCP_RxTask 0 EOK false three_come))); vm_compute|].
  eapply rtc_l; [apply (step_recv _ _ true 0 0 101 2 0 2 [1; 2] _ two_given);
    [by apply vcp_free; vm_compute| |done|done|by vm_compute|by vm_compute]|apply rtc_refl].
  intros i Hi. assert (i = 101 ∨ i = 102) as [-> | ->] by lia; by eexists; vm_compute.
Qed.

Lemma vcp_streams_witness :
  ∃ coming, [1; 2; 3] = [1; 2] ++ coming ∧ length coming ≤ 16 + USB_VCP_RX_SIZE.
Proof.
  destruct (vcp_streams (fifo := byte_queue) 0 32 vcp_mem vcp_rxq vcp_txq two_given (mk_traffic [1; 2; 3] [1; 2] [72; 101; 108; 108; 111] [72; 101; 108; 108; 111]))
    as [(coming & E & Hl & _) _].
  - apply vcp_laid_out.
  - apply byte_queue_empty; [done|by exists 268435456|done|apply vcp_zeros; cbn; lia].
  - apply byte_queue_empty; [done|by exists 268435456|done|apply vcp_zeros; cbn; lia].
  - apply (vcp_zeros 0 32); cbn; lia.
  - apply (vcp_zeros 32 32); cbn; lia.
  - exact vcp_run.
  - exists coming. split; [exact E|]. by replace (q_count (vc_rxq two_given)) with 16 in Hl by (by vm_compute).
Defined.

(** After a part of a transfer the rest is started with the length of the whole:
    the eight bytes behind the buffer would go out as well, and the offset would
    pass the end of the loop. *)
Example rest_as_long_as_whole :
  let s := mk_vcp vcp_mem vcp_rxq vcp_txq RxStart (TxWaiting 0 32) in
  let rest := vcp_state (USBVCP_TxTask 32 0 EOK false (tx_transferred 8 s)) in
  vc_tx rest = TxWaiting 8 32 ∧ length <$> tx_transfer 32 rest = Some 32%nat ∧ vc_tx (tx_transferred 32 rest) = TxSending 40 32.
Proof. by vm_compute. Qed.

(** A call that finds the device unconfigured tells only that, and not how many of
    its bytes are on their way. *)
Example part_not_told :
  ∃ s, USBVCP_Send true 0 0 0 200 0 vcp_start = Ok (More 16, s) ∧ USBVCP_Send false 0 0 0 200 16 s = Ok (Result EUSB_INACTIVE, s).
Proof. eexists. split; by vm_compute. Qed.

(** A cancelled task drops what has not fitted into the queue. *)
Example cancelled_drops :
  let full := mk_vcp vcp_mem (mk_queue 1 16 64 14 0) vcp_txq (RxPutting 0 3) (TxGetting 0) in
  let s := vcp_state (USBVCP_RxTask 0 EOK true full) in vc_rx s = RxStart ∧ Queue_GetUsed (vc_rxq s) = 16.
Proof. by vm_compute. Qed.
