(* ===== verification/Swi2c.v ===== *)
(** * The two-wire bus in software (dev/src/swi2c.c, dev/swi2c.h)

    Clock and data are open-drain lines the program drives and reads.  What is on
    the other end is a device that works with bytes, the class [I2CDevice], behind
    its bus interface: a state machine on the levels of the lines as the
    specification of the bus has it.  The program is verified against that
    interface: a transfer over the lines is the transfer of bytes with the device,
    whatever the device is.  Stretching of the clock is a list of readings of the
    line, with the time of each. *)
From S2P Require Import Prelude Words Time Sem Stream.

(** ** The other end *)

(** A device: a start condition, a byte that is taken - acknowledged or not -, the
    byte that is given next and whether the reader wants more, a stop condition. *)
Class I2CDevice (D : Type) := {
  dev_start : D → D;
  dev_take : D → Z → bool * D;
  dev_give : D → Z;
  dev_given : D → bool → D;
  dev_stop : D → D }.

(** Its bus interface: waiting for a start condition; taking bits, of the address
    first; the acknowledge of the byte, of which the interface knows whether it
    was an address and of which direction; giving the bits of a byte from the
    [n]th on; waiting for the acknowledge of the reader. *)
Inductive phase :=
| Idle
| Taking (first : bool) (bits : list bool)
| Acking (first : bool) (byte : Z) (ack : bool)
| Giving (byte : Z) (n : nat)
| Given (ack : option bool).

Record bus (D : Type) := mk_bus { bs_scl : bool; bs_sda : bool; bs_phase : phase; bs_dev : D }.
Arguments mk_bus {D} _ _ _ _.
Arguments bs_scl {D} _.
Arguments bs_sda {D} _.
Arguments bs_phase {D} _.
Arguments bs_dev {D} _.

(** The level the device lets the data line have. *)
Definition dev_sda (p : phase) : bool :=
  match p with
  | Acking _ _ ack => negb ack
  | Giving byte n => Z.testbit byte (7 - n)
  | _ => true
  end.

(** The level of the data line. *)
Definition wire {D} (b : bus D) : bool := bs_sda b && dev_sda (bs_phase b).

Definition byte_of_bits (bits : list bool) : Z := foldl (λ v (b : bool), 2 * v + Z.b2z b) 0 bits.

Section interface.
Context {D : Type} `{DD : I2CDevice D}.

(** The clock goes up with the data line at a level: a bit is taken. *)
Definition clock_up (level : bool) (p : phase) : phase :=
  match p with
  | Taking first bits => Taking first (bits ++ [level])
  | Given None => Given (Some (negb level))
  | _ => p
  end.

(** The clock goes down: after the eighth bit, and after an acknowledge, it is the
    turn of the other side. *)
Definition clock_down (p : phase) (d : D) : phase * D :=
  match p with
  | Taking first bits =>
      if (length bits =? 8)%nat then
        let byte := byte_of_bits bits in let '(ack, d) := dev_take d byte in (Acking first byte ack, d)
      else (p, d)
  | Acking first byte ack =>
      if negb ack then (Idle, d)
      else if first && Z.odd byte then (Giving (dev_give d) 0, d)
      else (Taking false [], d)
  | Giving byte n => (if (n <? 7)%nat then Giving byte (S n) else Given None, d)
  | Given (Some ack) => let d := dev_given d ack in (if ack then Giving (dev_give d) 0 else Idle, d)
  | _ => (p, d)
  end.

(** The program has set the lines. *)
Definition set_lines (scl sda : bool) (b : bus D) : bus D :=
  let old := wire b in
  let new := sda && dev_sda (bs_phase b) in
  if bs_scl b then
    if scl then
      if old && negb new then mk_bus scl sda (Taking true []) (dev_start (bs_dev b))
      else if negb old && new then mk_bus scl sda Idle (dev_stop (bs_dev b))
      else mk_bus scl sda (bs_phase b) (bs_dev b)
    else let '(p, d) := clock_down (bs_phase b) (bs_dev b) in mk_bus scl sda p d
  else
    if scl then mk_bus scl sda (clock_up new (bs_phase b)) (bs_dev b)
    else mk_bus scl sda (bs_phase b) (bs_dev b).

(** ** The program *)

Definition SWI2C_TIMEOUT : Z := 10.
Definition SWI2C_OPER_RD : Z := 0.
Definition SWI2C_OPER_WR : Z := 1.
Definition SWI2C_OPER_ADDR : Z := 2.
Definition SWI2C_OPER_STOP : Z := 4.
Definition EI2C_ARB_LOST : Z := -40.
Definition EI2C_BUS_TIMEOUT : Z := -41.
Definition EI2C_NACK : Z := -42.
Definition EI2C_START : Z := -43.
Definition EI2C_ADDR : Z := -44.
Definition EI2C_STOP : Z := -45.

(** The readings of the clock line after it was released. *)
Context (scl_polls : bus D → list (Z * bool)).

Definition W_SDA (x : bool) : prog (bus D) unit := λ b, Ok ((), set_lines (bs_scl b) x b).
Definition W_SCL (x : bool) : prog (bus D) unit := λ b, Ok ((), set_lines x (bs_sda b) b).
Definition R_SDA : prog (bus D) bool := λ b, Ok (wire b, b).

Fixpoint stretch_loop (ts timeout : Z) (polls : list (Z * bool)) : res Z :=
  match polls with
  | [] => Fault OutOfFuel
  | (now, scl) :: polls =>
      if negb scl && (dtime now ts <? timeout) then stretch_loop ts timeout polls
      else Ok (if match polls with (_, scl) :: _ => scl | [] => scl end then EOK else EFATAL)
  end.

Definition stretch (timeout : Z) (polls : list (Z * bool)) : res Z :=
  match polls with
  | [] => Fault OutOfFuel
  | (now, scl) :: polls => if scl then Ok EOK else stretch_loop now timeout polls
  end.
Definition SwI2C_ClockStrech (timeout : Z) : prog (bus D) Z := λ b, ec ← stretch timeout (scl_polls b); Ok (ec, b).

Fixpoint dummy_cycles (n : nat) : prog (bus D) unit :=
  match n with O => mret () | S n => W_SCL false;; W_SCL true;; dummy_cycles n end.
Definition SwI2C_ClockDummyCycles (n : nat) : prog (bus D) Z := W_SDA true;; dummy_cycles n;; mret EOK.
Definition SwI2C_Reset : prog (bus D) Z := SwI2C_ClockDummyCycles 16.
Definition SwI2C_Init : Z := EOK.
Definition SwI2C_DevInit (sem_bits sem : Z) (m : sems) : prog (bus D) (Z * sems) :=
  _ ← SwI2C_ClockDummyCycles 16;
  '(m, _) ← lift_res (Sem_Release sem_bits m sem); mret (EOK, m).

Definition SwI2C_Start : prog (bus D) Z :=
  W_SDA true;; W_SCL true;;
  ec ← SwI2C_ClockStrech SWI2C_TIMEOUT;
  if negb (ec =? EOK) then mret EI2C_ARB_LOST
  else W_SDA false;; W_SCL false;; mret EOK.

Definition SwI2C_Stop : prog (bus D) Z :=
  W_SDA false;; W_SCL true;;
  ec ← SwI2C_ClockStrech SWI2C_TIMEOUT;
  if negb (ec =? EOK) then W_SDA true;; mret EI2C_ARB_LOST
  else
    W_SDA true;;
    sda ← R_SDA; mret (if (sda : bool) then EOK else EI2C_ARB_LOST).

(** The bits of a byte, the highest first. *)
Fixpoint write_bits (n : nat) (byte : Z) : prog (bus D) Z :=
  match n with
  | O => mret EOK
  | S n =>
      let bit_val := has byte 0x80 in
      W_SDA bit_val;; W_SCL true;;
      ec ← SwI2C_ClockStrech SWI2C_TIMEOUT;
      if negb (ec =? EOK) then W_SDA true;; mret EI2C_BUS_TIMEOUT
      else
        sda ← R_SDA;
        if negb (Bool.eqb bit_val sda) then W_SDA true;; mret EI2C_ARB_LOST
        else W_SCL false;; write_bits n (u8 (Z.shiftl byte 1))
  end.

Definition SwI2C_WriteByte (byte : Z) : prog (bus D) Z :=
  ec ← write_bits 8 byte;
  if negb (ec =? EOK) then mret ec
  else
    W_SDA true;; W_SCL true;;
    ec ← SwI2C_ClockStrech SWI2C_TIMEOUT;
    if negb (ec =? EOK) then mret EI2C_BUS_TIMEOUT
    else ack ← R_SDA; W_SCL false;; mret (if negb ack then EOK else EI2C_NACK).

Fixpoint read_bits (n : nat) (b : Z) : prog (bus D) (Z * Z) :=
  match n with
  | O => mret (EOK, b)
  | S n =>
      W_SCL true;;
      ec ← SwI2C_ClockStrech SWI2C_TIMEOUT;
      if negb (ec =? EOK) then mret (EI2C_BUS_TIMEOUT, b)
      else sda ← R_SDA; W_SCL false;; read_bits n (Z.lor (Z.shiftl b 1) (Z.b2z sda))
  end.

Definition SwI2C_ReadByte (ack : bool) : prog (bus D) (Z * Z) :=
  W_SDA true;;
  '(ec, b) ← read_bits 8 0;
  if negb (ec =? EOK) then mret (ec, b)
  else
    W_SDA (negb ack);; W_SCL true;;
    ec ← SwI2C_ClockStrech SWI2C_TIMEOUT;
    if negb (ec =? EOK) then mret (EI2C_BUS_TIMEOUT, b)
    else W_SCL false;; mret (EOK, u8 b).

Fixpoint write_all (p : list Z) (ec : Z) : prog (bus D) Z :=
  match p with
  | [] => mret ec
  | byte :: p => ec ← SwI2C_WriteByte byte; if negb (ec =? EOK) then mret ec else write_all p ec
  end.

(** The bytes read, and the code; [n] are left. *)
Fixpoint read_all (n : nat) (ec : Z) : prog (bus D) (Z * list Z) :=
  match n with
  | O => mret (ec, [])
  | S n =>
      '(ec, b) ← SwI2C_ReadByte (negb (n =? 0)%nat);
      if negb (ec =? EOK) then mret (ec, []) else '(ec, bs) ← read_all n ec; mret (ec, b :: bs)
  end.

Definition finish_transfer (oper ec : Z) : prog (bus D) Z :=
  if has oper SWI2C_OPER_STOP then
    rc ← SwI2C_Stop; mret (if negb (rc =? EOK) then EI2C_STOP else ec)
  else mret ec.

(** [p] is what is written, [size] how much is read; [ec] has no value at first. *)
Definition SwI2C_Transfer (junk oper addr : Z) (p : list Z) (size : nat) : prog (bus D) (Z * list Z) :=
  ec ← (
    if has oper SWI2C_OPER_ADDR then
      ec ← SwI2C_Start;
      if negb (ec =? EOK) then mret EI2C_START
      else
        let addr := Z.lor (Z.shiftl addr 1) (if has oper SWI2C_OPER_WR then 0 else 1) in
        rc ← SwI2C_WriteByte (u8 addr);
        if negb (rc =? EOK) then _ ← SwI2C_WriteByte 0x00; _ ← SwI2C_Stop; mret EI2C_ADDR
        else mret ec
    else mret junk);
  if has oper SWI2C_OPER_ADDR && negb (ec =? EOK) then mret (ec, [])
  else if has oper SWI2C_OPER_WR then
    rc ← write_all p ec;
    if negb (rc =? EOK) && negb (length p =? 0)%nat then mret (rc, []) else ec ← finish_transfer oper rc; mret (ec, [])
  else
    '(rc, bs) ← read_all size ec;
    if negb (rc =? EOK) && negb (size =? 0)%nat then mret (rc, bs) else ec ← finish_transfer oper rc; mret (ec, bs).
End interface.

(** ** Transfers of bytes *)

Section bytes.
Context {D : Type} `{DD : I2CDevice D}.

Fixpoint dev_write (p : list Z) (d : D) : Z * D :=
  match p with
  | [] => (EOK, d)
  | byte :: p => let '(ack, d) := dev_take d byte in if (ack : bool) then dev_write p d else (EI2C_NACK, d)
  end.

(** Every byte but the last one is acknowledged. *)
Fixpoint dev_read (n : nat) (d : D) : list Z * D :=
  match n with
  | O => ([], d)
  | S n => let '(bs, d') := dev_read n (dev_given d (negb (n =? 0)%nat)) in (u8 (dev_give d) :: bs, d')
  end.

Definition dev_finish (oper : Z) (d : D) : D := if has oper SWI2C_OPER_STOP then dev_stop d else d.

(** The bytes of a transfer after the address, or without one; behind a byte that is
    not taken there is no stop. *)
Definition dev_data (oper : Z) (p : list Z) (size : nat) (d : D) : Z * list Z * D :=
  if has oper SWI2C_OPER_WR then
    let '(ec, d) := dev_write p d in if ec =? EOK then (EOK, [], dev_finish oper d) else (ec, [], d)
  else let '(bs, d) := dev_read size d in (EOK, bs, dev_finish oper d).

Definition dev_transfer (oper addr : Z) (p : list Z) (size : nat) (d : D) : Z * list Z * D :=
  let '(ack, d) := dev_take (dev_start d) (u8 (2 * addr + (if has oper SWI2C_OPER_WR then 0 else 1))) in
  if (ack : bool) then dev_data oper p size d else (EI2C_ADDR, [], dev_stop d).
End bytes.

(** ** The lines carry the bytes *)

Section refinement.
Context {D : Type} `{DD : I2CDevice D} (scl_polls : bus D → list (Z * bool)).
(** The device may stretch the clock, for less than the time out. *)
Context (Hstretch : ∀ b, stretch SWI2C_TIMEOUT (scl_polls b) = Ok EOK).

(** Nothing is going on, or the clock is held between two parts of a transfer. *)
Definition at_rest (b : bus D) : Prop :=
  dev_sda (bs_phase b) = true ∧ (bs_scl b = true → bs_sda b = true).

Lemma no_stretch b : SwI2C_ClockStrech scl_polls SWI2C_TIMEOUT b = Ok (EOK, b).
Proof. unfold SwI2C_ClockStrech. by rewrite Hstretch. Qed.

Lemma stretch_bind {A} (f : Z → prog (bus D) A) b : (SwI2C_ClockStrech scl_polls SWI2C_TIMEOUT ≫= f) b = f EOK b.
Proof. apply prog_bind_Ok, no_stretch. Qed.

Lemma sda_bind {A} (f : unit → prog (bus D) A) x b : (W_SDA x ≫= f) b = f () (set_lines (bs_scl b) x b).
Proof. done. Qed.
Lemma scl_bind {A} (f : unit → prog (bus D) A) x b : (W_SCL x ≫= f) b = f () (set_lines x (bs_sda b) b).
Proof. done. Qed.
Lemma read_bind {A} (f : bool → prog (bus D) A) b : (R_SDA ≫= f) b = f (wire b) b.
Proof. done. Qed.

(** The lines with the clock down; with it up, when the data line follows the program. *)
Lemma sda_low x sda p (d : D) : set_lines false x (mk_bus false sda p d) = mk_bus false x p d.
Proof. done. Qed.
Lemma scl_rises sda p (d : D) : set_lines true sda (mk_bus false sda p d) = mk_bus true sda (clock_up (sda && dev_sda p) p) d.
Proof. done. Qed.
Lemma scl_falls sda p (d : D) : set_lines false sda (mk_bus true sda p d) = mk_bus false sda (clock_down p d).1 (clock_down p d).2.
Proof. unfold set_lines. cbn [bs_scl bs_phase bs_dev]. by destruct (clock_down p d). Qed.

Ltac lines := rewrite ?sda_bind, ?scl_bind; cbn [bs_scl bs_sda bs_phase bs_dev]; rewrite ?sda_low, ?scl_rises, ?scl_falls, ?stretch_bind, ?read_bind.

Lemma write_bit n byte sda first bits (d : D) :
  write_bits scl_polls (S n) byte (mk_bus false sda (Taking first bits) d) =
  let '(p, d') := clock_down (Taking first (bits ++ [has byte 0x80])) d in
  write_bits scl_polls n (u8 (Z.shiftl byte 1)) (mk_bus false (has byte 0x80) p d').
Proof.
  cbn [write_bits]. do 3 lines. cbn [dev_sda clock_up]. rewrite andb_true_r. change (negb (EOK =? EOK)) with false. cbv iota.
  do 2 lines. unfold wire. cbn [bs_sda bs_phase dev_sda]. rewrite andb_true_r, Bool.eqb_reflx. cbn [negb].
  do 2 lines. by destruct (clock_down _ d).
Qed.

Lemma write_bit_idle n byte sda (d : D) :
  write_bits scl_polls (S n) byte (mk_bus false sda Idle d) = write_bits scl_polls n (u8 (Z.shiftl byte 1)) (mk_bus false (has byte 0x80) Idle d).
Proof.
  cbn [write_bits]. do 3 lines. change (negb (EOK =? EOK)) with false. cbv iota. do 2 lines. unfold wire. cbn [bs_sda bs_phase dev_sda clock_up].
  rewrite andb_true_r, Bool.eqb_reflx. cbn [negb]. by do 2 lines.
Qed.

(** The eight bits [write_bits] puts on the line. *)
Fixpoint byte_bits (n : nat) (byte : Z) : list bool :=
  match n with O => [] | S n => has byte 0x80 :: byte_bits n (u8 (Z.shiftl byte 1)) end.

Lemma byte_bits_length n byte : length (byte_bits n byte) = n.
Proof. revert byte. induction n as [|n IH]; intros byte; [done|]. cbn. by rewrite IH. Qed.

(** A fact about bytes that holds of all 256. *)
Lemma all_bytes (P : Z → bool) : forallb P (Z.of_nat <$> seq 0 256) = true → ∀ z, is_u8 z → P z = true.
Proof.
  rewrite forallb_forall. intros H z Hz. apply H, list_elem_of_In, list_elem_of_fmap. exists (Z.to_nat z). split; [word_lia|].
  apply elem_of_seq. word_lia.
Qed.

Lemma byte_bits_back byte : is_u8 byte → byte_of_bits (byte_bits 8 byte) = byte.
Proof. intros H. apply Z.eqb_eq. by apply (all_bytes (λ z, byte_of_bits (byte_bits 8 z) =? z)); [vm_compute|]. Qed.

(** The value [read_bits] puts together. *)
Fixpoint bits_value (n : nat) (byte b : Z) : Z :=
  match n with O => b | S n' => bits_value n' byte (Z.lor (Z.shiftl b 1) (Z.b2z (Z.testbit byte n'))) end.

Lemma bits_value_u8 n byte b : (n ≤ 8)%nat → bits_value n (u8 byte) b = bits_value n byte b.
Proof.
  revert b. induction n as [|n IH]; intros b Hn; [done|]. cbn [bits_value]. rewrite IH by lia. do 3 f_equal.
  unfold u8. change 256 with (2^8). apply Z.mod_pow2_bits_low. lia.
Qed.

Lemma bits_value_back byte : u8 (bits_value 8 byte 0) = u8 byte.
Proof.
  rewrite <- bits_value_u8 by lia. apply Z.eqb_eq. apply (all_bytes (λ z, u8 (bits_value 8 z 0) =? z)); [by vm_compute|apply u8_range].
Qed.

(** *** A byte *)

Lemma write_bits_taken n : ∀ byte sda first bits (d : D), (length bits + n = 8)%nat → (0 < n)%nat →
  ∃ sda', write_bits scl_polls n byte (mk_bus false sda (Taking first bits) d) =
    let '(p, d') := clock_down (Taking first (bits ++ byte_bits n byte)) d in Ok (EOK, mk_bus false sda' p d').
Proof.
  induction n as [|n IH]; intros byte sda first bits d Hl Hn; [lia|]. rewrite write_bit. cbn [byte_bits].
  destruct n as [|n].
  - cbn [byte_bits]. eexists. by destruct (clock_down _ d).
  - cbn [clock_down]. rewrite length_app. cbn [length]. rewrite (proj2 (Nat.eqb_neq _ 8)) by lia.
    destruct (IH (u8 (Z.shiftl byte 1)) (has byte 0x80) first (bits ++ [has byte 0x80]) d) as [sda' E]; [rewrite length_app; cbn; lia|lia|].
    exists sda'. rewrite E, <- app_assoc. done.
Qed.

Lemma write_bits_idle n : ∀ byte sda (d : D),
  ∃ sda', write_bits scl_polls n byte (mk_bus false sda Idle d) = Ok (EOK, mk_bus false sda' Idle d).
Proof.
  induction n as [|n IH]; intros byte sda d; [by exists sda|]. rewrite write_bit_idle. apply IH.
Qed.

(** Where the interface is after the acknowledge of a byte. *)
Definition after_byte (first : bool) (byte : Z) (d : D) : phase :=
  if first && Z.odd byte then Giving (dev_give d) 0 else Taking false [].

Lemma write_byte_taken byte sda first (d : D) : is_u8 byte →
  SwI2C_WriteByte scl_polls byte (mk_bus false sda (Taking first []) d) =
  let '(ack, d') := dev_take d byte in
  Ok (if (ack : bool) then (EOK, mk_bus false true (after_byte first byte d') d') else (EI2C_NACK, mk_bus false true Idle d')).
Proof.
  intros Hb. destruct (write_bits_taken 8 byte sda first [] d) as [sda' E]; [done|lia|]. cbn [app] in E.
  cbn [clock_down] in E. rewrite byte_bits_length in E. change (8 =? 8)%nat with true in E. cbv iota zeta in E. rewrite byte_bits_back in E by done.
  destruct (dev_take d byte) as [ack d']. unfold SwI2C_WriteByte. rewrite (prog_bind_Ok _ _ _ _ _ E). change (negb (EOK =? EOK)) with false. cbv iota.
  do 3 lines. change (negb (EOK =? EOK)) with false. cbv iota. cbn [clock_up]. lines. unfold wire. cbn [bs_sda bs_phase dev_sda andb]. lines. cbn [clock_down].
  destruct ack; [|done]. cbn [negb]. unfold after_byte. by destruct (first && Z.odd byte).
Qed.

Lemma write_byte_idle byte sda (d : D) :
  SwI2C_WriteByte scl_polls byte (mk_bus false sda Idle d) = Ok (EI2C_NACK, mk_bus false true Idle d).
Proof.
  destruct (write_bits_idle 8 byte sda d) as [sda' E]. unfold SwI2C_WriteByte. rewrite (prog_bind_Ok _ _ _ _ _ E). change (negb (EOK =? EOK)) with false. cbv iota.
  do 3 lines. change (negb (EOK =? EOK)) with false. cbv iota. lines. by lines.
Qed.

Lemma read_bits_given n : ∀ b byte (d : D), (0 < n ≤ 8)%nat →
  read_bits scl_polls n b (mk_bus false true (Giving byte (8 - n)) d) = Ok ((EOK, bits_value n byte b), mk_bus false true (Given None) d).
Proof.
  induction n as [|n IH]; intros b byte d Hn; [lia|]. cbn [read_bits bits_value]. do 2 lines. change (negb (EOK =? EOK)) with false. cbv iota. lines.
  unfold wire. cbn [bs_sda bs_phase clock_up andb dev_sda]. lines. cbn [clock_down].
  replace (7 - (8 - S n)%nat) with (Z.of_nat n) by lia. destruct n as [|n].
  - change (8 - 1 <? 7)%nat with false. done.
  - rewrite (proj2 (Nat.ltb_lt _ _)) by lia. cbn [fst snd]. replace (S (8 - S (S n))) with (8 - S n)%nat by lia. apply IH. lia.
Qed.

Lemma read_byte_given ack sda byte (d : D) :
  SwI2C_ReadByte scl_polls ack (mk_bus false sda (Giving byte 0) d) =
  let d' := dev_given d ack in
  Ok ((EOK, u8 byte), mk_bus false (negb ack) (if ack then Giving (dev_give d') 0 else Idle) d').
Proof.
  unfold SwI2C_ReadByte. do 2 lines. rewrite (prog_bind_Ok _ _ _ _ _ (read_bits_given 8 0 byte d ltac:(lia))). change (negb (EOK =? EOK)) with false. cbv iota beta.
  do 3 lines. change (negb (EOK =? EOK)) with false. cbv iota. cbn [clock_up dev_sda]. rewrite andb_true_r, negb_involutive. lines. cbn [clock_down fst snd].
  by rewrite bits_value_back.
Qed.

(** *** Conditions and data *)

Definition free (d : D) : bus D := mk_bus true true Idle d.
(** The clock is held, and the interface waits for the next byte. *)
Definition held (d : D) (b : bus D) : Prop := ∃ sda, b = mk_bus false sda (Taking false []) d.

Lemma clock_up_sda level p : dev_sda (clock_up level p) = dev_sda p.
Proof. by destruct p as [| | | |[]]. Qed.

Lemma start_sent b : at_rest b →
  SwI2C_Start scl_polls b = Ok (EOK, mk_bus false false (Taking true []) (dev_start (bs_dev b))).
Proof.
  intros [Hp Hs]. destruct b as [scl sda p d]. cbn in Hp, Hs. unfold SwI2C_Start. lines.
  assert (∀ p', dev_sda p' = true → set_lines false false (set_lines true false (mk_bus true true p' d)) = mk_bus false false (Taking true []) (dev_start d)) as Hstart.
  { intros p' Hp'. unfold set_lines at 2. unfold wire. cbn [bs_scl bs_sda bs_phase bs_dev andb]. rewrite Hp'. cbn. done. }
  destruct scl.
  - assert (set_lines true true (mk_bus true sda p d) = mk_bus true true p d) as E.
    { unfold set_lines, wire. cbn. by rewrite Hs, Hp. }
    rewrite E. lines. assert (set_lines true true (mk_bus true true p d) = mk_bus true true p d) as E2 by (unfold set_lines, wire; cbn; by rewrite Hp).
    rewrite E2. lines. change (negb (EOK =? EOK)) with false. cbv iota. rewrite !sda_bind, !scl_bind. cbn [bs_scl].
    replace (bs_sda (set_lines true false (mk_bus true true p d))) with false by (unfold set_lines, wire; cbn; by rewrite Hp).
    by rewrite Hstart.
  - lines. lines. change (negb (EOK =? EOK)) with false. cbv iota. rewrite !sda_bind, !scl_bind. cbn [bs_scl].
    replace (bs_sda (set_lines true false (mk_bus true true (clock_up (true && dev_sda p) p) d))) with false
      by (unfold set_lines, wire; cbn; by rewrite clock_up_sda, Hp).
    rewrite Hstart; [done|]. by rewrite clock_up_sda.
Qed.

Lemma stop_sent sda p (d : D) : dev_sda p = true → SwI2C_Stop scl_polls (mk_bus false sda p d) = Ok (EOK, free (dev_stop d)).
Proof.
  intros Hp. unfold SwI2C_Stop. do 3 lines. change (negb (EOK =? EOK)) with false. cbv iota. rewrite sda_bind. cbn [bs_scl]. rewrite read_bind.
  assert (set_lines true true (mk_bus true false (clock_up (false && dev_sda p) p) d) = free (dev_stop d)) as ->.
  { unfold set_lines, wire. cbn. by rewrite clock_up_sda, Hp. }
  done.
Qed.

Lemma write_all_ok p : ∀ sda (d : D), Forall is_u8 p →
  write_all scl_polls p EOK (mk_bus false sda (Taking false []) d) =
  let '(ec, d') := dev_write p d in
  Ok (ec, if ec =? EOK then mk_bus false (if decide (p = []) then sda else true) (Taking false []) d' else mk_bus false true Idle d').
Proof.
  induction p as [|byte p IH]; intros sda d Hp; [done|]. apply Forall_cons in Hp as [Hb Hp]. cbn [write_all dev_write].
  pose proof (write_byte_taken byte sda false d Hb) as E. destruct (dev_take d byte) as [ack d1]. destruct ack.
  - rewrite (prog_bind_Ok _ _ _ _ _ E). change (negb (EOK =? EOK)) with false. cbv iota. unfold after_byte. cbn [andb]. rewrite IH by done.
    destruct (dev_write p d1) as [ec d2]. by destruct (decide (p = [])).
  - by rewrite (prog_bind_Ok _ _ _ _ _ E).
Qed.

Lemma read_all_ok n : ∀ sda (d : D), (0 < n)%nat →
  read_all scl_polls n EOK (mk_bus false sda (Giving (dev_give d) 0) d) =
  let '(bs, d') := dev_read n d in Ok ((EOK, bs), mk_bus false true Idle d').
Proof.
  induction n as [|n IH]; intros sda d Hn; [lia|]. cbn [read_all dev_read].
  rewrite (prog_bind_Ok _ _ _ _ _ (read_byte_given (negb (n =? 0)%nat) sda (dev_give d) d)). change (negb (EOK =? EOK)) with false. cbv iota beta zeta.
  destruct n as [|n]; [done|]. cbn [Nat.eqb negb]. specialize (IH false (dev_given d true) ltac:(lia)).
  destruct (dev_read (S n) (dev_given d true)) as [bs d']. by rewrite (prog_bind_Ok _ _ _ _ _ IH).
Qed.

Lemma finish_ok oper sda p (d : D) : dev_sda p = true →
  finish_transfer scl_polls oper EOK (mk_bus false sda p d) =
  Ok (EOK, if has oper SWI2C_OPER_STOP then free (dev_finish oper d) else mk_bus false sda p (dev_finish oper d)).
Proof.
  intros Hp. unfold finish_transfer, dev_finish. destruct (has oper SWI2C_OPER_STOP); [|done]. by rewrite (prog_bind_Ok _ _ _ _ _ (stop_sent sda p d Hp)).
Qed.

(** What is written after the address, or in a transfer of its own. *)
Lemma data_written oper p sda (d : D) : Forall is_u8 p →
  (rc ← write_all scl_polls p EOK;
   if negb (rc =? EOK) && negb (length p =? 0)%nat then mret (rc, []) else ec ← finish_transfer scl_polls oper rc; mret (ec, []) : prog (bus D) (Z * list Z))
    (mk_bus false sda (Taking false []) d) =
  let '(ec, d1) := dev_write p d in
  let sda' := if decide (p = []) then sda else true in
  Ok ((ec, []), if ec =? EOK then if has oper SWI2C_OPER_STOP then free (dev_finish oper d1) else mk_bus false sda' (Taking false []) (dev_finish oper d1)
                else mk_bus false true Idle d1).
Proof.
  intros Hp. pose proof (write_all_ok p sda d Hp) as E. destruct (dev_write p d) as [ec d1] eqn:Ew. rewrite (prog_bind_Ok _ _ _ _ _ E). clear E.
  destruct (Z.eqb_spec ec EOK) as [-> |Hne]; cbn [negb andb].
  - by rewrite (prog_bind_Ok _ _ _ _ _ (finish_ok oper (if decide (p = []) then sda else true) (Taking false []) d1 eq_refl)).
  - destruct p as [|byte p]; [by injection Ew as <- <-|]. done.
Qed.
End refinement.

(** *** The claims *)

Lemma address_byte addr (wr : bool) : 0 ≤ addr < 128 →
  let a := u8 (Z.lor (Z.shiftl addr 1) (if wr then 0 else 1)) in
  a = u8 (2 * addr + (if wr then 0 else 1)) ∧ Z.odd a = negb wr.
Proof.
  intros Ha a. assert (is_u8 addr) as Hu by word_lia.
  pose proof (all_bytes (λ addr, let a := u8 (Z.lor (Z.shiftl addr 1) (if wr then 0 else 1)) in
    (128 <=? addr) || (a =? u8 (2 * addr + (if wr then 0 else 1))) && Bool.eqb (Z.odd a) (negb wr)) ltac:(destruct wr; by vm_compute) addr Hu) as H.
  cbv beta zeta in H. fold a in H. rewrite (proj2 (Z.leb_gt _ _)) in H by lia. apply andb_true_iff in H as [H1 H2].
  split; [by apply Z.eqb_eq|by apply Bool.eqb_prop].
Qed.

Section claims.
Context {D : Type} `{DD : I2CDevice D} (scl_polls : bus D → list (Z * bool)).

(** The lines behind a transfer: after all of it, free if a stop was asked for, with
    the clock low else; when nobody answered, free behind a stop; when a byte was
    refused, with the clock low, no stop sent, asked for or not. *)
Definition lines_after (oper ec : Z) (b : bus D) : Prop :=
  (ec = EOK ∧ if has oper SWI2C_OPER_STOP then b = free (bs_dev b) else bs_scl b = false) ∨
  (ec = EI2C_ADDR ∧ b = free (bs_dev b)) ∨
  (ec = EI2C_NACK ∧ has oper SWI2C_OPER_WR = true ∧ bs_scl b = false).

Lemma dev_write_code p : ∀ d : D, (dev_write p d).1 = EOK ∨ (dev_write p d).1 = EI2C_NACK.
Proof. induction p as [|byte p IH]; intros d; [by left|]. cbn. destruct (dev_take d byte) as [[] d1]; [apply IH|by right]. Qed.

Lemma transfer_bytes junk oper addr p size b :
  (∀ b, stretch SWI2C_TIMEOUT (scl_polls b) = Ok EOK) → at_rest b → 0 ≤ addr < 128 → Forall is_u8 p →
  has oper SWI2C_OPER_ADDR = true → has oper SWI2C_OPER_WR = true ∨ (0 < size)%nat →
  ∃ ec bs b', SwI2C_Transfer scl_polls junk oper addr p size b = Ok ((ec, bs), b') ∧
    dev_transfer oper addr p size (bs_dev b) = (ec, bs, bs_dev b') ∧ at_rest b' ∧
    (ec = EOK → if has oper SWI2C_OPER_STOP then b' = free (bs_dev b') else has oper SWI2C_OPER_WR = true → held (bs_dev b') b') ∧
    lines_after oper ec b'.
Proof.
  intros Hst Hb Ha Hp Hadr Hsz. unfold SwI2C_Transfer, dev_transfer. rewrite Hadr. cbn [andb].
  destruct (address_byte addr (has oper SWI2C_OPER_WR) Ha) as [Eb Eodd]. rewrite <- Eb.
  set (a := u8 (Z.lor _ _)) in *. pose proof (write_byte_taken scl_polls Hst a false true (dev_start (bs_dev b)) (u8_range _)) as Ew.
  destruct (dev_take (dev_start (bs_dev b)) a) as [ack d1]. destruct ack.
  - rewrite (prog_bind_Ok _ _ b EOK (mk_bus false true (after_byte true a d1) d1)).
    2:{ rewrite (prog_bind_Ok _ _ _ _ _ (start_sent scl_polls Hst b Hb)). change (negb (EOK =? EOK)) with false. cbv iota. by rewrite (prog_bind_Ok _ _ _ _ _ Ew). }
    change (negb (EOK =? EOK)) with false. cbv iota. unfold after_byte, dev_data. rewrite Eodd. cbn [andb]. destruct (has oper SWI2C_OPER_WR) eqn:Ewr; cbn [negb].
    + rewrite data_written by done. pose proof (dev_write_code p d1) as Hcode. destruct (dev_write p d1) as [ec d2]. eexists _, _, _. split; [reflexivity|].
      unfold lines_after. destruct (Z.eqb_spec ec EOK) as [-> |Hne].
      * destruct (has oper SWI2C_OPER_STOP); split_and!; try done; try (by left). intros _ _. by eexists.
      * split_and!; try done. destruct Hcode as [?|Hcode]; [done|]. right. by right.
    + destruct Hsz as [|Hsz]; [done|]. pose proof (read_all_ok scl_polls Hst size true d1 Hsz) as Er. destruct (dev_read size d1) as [bs d2].
      rewrite (prog_bind_Ok _ _ _ _ _ Er). change (negb (EOK =? EOK)) with false. cbn [andb].
      rewrite (prog_bind_Ok _ _ _ _ _ (finish_ok scl_polls Hst oper true Idle d2 eq_refl)). eexists _, _, _. split; [reflexivity|].
      unfold lines_after. destruct (has oper SWI2C_OPER_STOP); split_and!; try done; by left.
  - rewrite (prog_bind_Ok _ _ b EI2C_ADDR (free (dev_stop d1))).
    2:{ rewrite (prog_bind_Ok _ _ _ _ _ (start_sent scl_polls Hst b Hb)). change (negb (EOK =? EOK)) with false. cbv iota. rewrite (prog_bind_Ok _ _ _ _ _ Ew).
        change (negb (EI2C_NACK =? EOK)) with true. cbv iota. rewrite (prog_bind_Ok _ _ _ _ _ (write_byte_idle scl_polls Hst 0 true d1)).
        by rewrite (prog_bind_Ok _ _ _ _ _ (stop_sent scl_polls Hst true Idle d1 eq_refl)). }
    eexists _, _, _. split; [reflexivity|]. split_and!; try done. right. by left.
Qed.

Lemma transfer_goes_on junk oper addr p size b :
  (∀ b, stretch SWI2C_TIMEOUT (scl_polls b) = Ok EOK) → held (bs_dev b) b → Forall is_u8 p → p ≠ [] →
  has oper SWI2C_OPER_ADDR = false → has oper SWI2C_OPER_WR = true →
  ∃ ec bs b', SwI2C_Transfer scl_polls junk oper addr p size b = Ok ((ec, bs), b') ∧
    dev_data oper p size (bs_dev b) = (ec, bs, bs_dev b') ∧ at_rest b' ∧
    (ec = EOK → if has oper SWI2C_OPER_STOP then b' = free (bs_dev b') else held (bs_dev b') b').
Proof.
  intros Hst [sda Hb] Hp Hne Hadr Hwr. remember (bs_dev b) as d eqn:Ed. clear Ed. subst b. unfold SwI2C_Transfer, dev_data. rewrite Hadr, Hwr. cbn [andb].
  rewrite (prog_bind_Ok _ _ _ junk (mk_bus false sda (Taking false []) d)) by done.
  replace (write_all scl_polls p junk) with (write_all scl_polls p EOK) by (by destruct p).
  rewrite (data_written scl_polls Hst oper p sda d Hp). destruct (dev_write p d) as [ec d2].
  eexists _, _, _. split; [reflexivity|]. destruct (Z.eqb_spec ec EOK) as [-> |Hec].
  - destruct (has oper SWI2C_OPER_STOP); (split; [done|]); [done|]. split; [done|]. intros _. by eexists.
  - split; [done|]. by split.
Qed.

(** C19: over the lines, a transfer with an address that writes, or reads a byte at
    least, does with the device - whatever it is, as long as it never holds the
    clock beyond the timeout - what the transfer of bytes does: the address and
    the bytes of the data in their order behind a start, up to one that is
    refused, or the bytes that are read; its code is that of the bytes.  Behind a
    transfer that succeeds the lines are free if a stop was asked for, and held
    for its continuation if not; behind an address nobody answers they are free;
    behind a byte that is refused there is no stop, even if one was asked for,
    and the clock stays low.  In all cases another transfer can start. *)
Theorem swi2c_transfer junk oper addr p size b :
  (∀ b, stretch SWI2C_TIMEOUT (scl_polls b) = Ok EOK) → at_rest b → 0 ≤ addr < 128 → Forall is_u8 p →
  has oper SWI2C_OPER_ADDR = true → has oper SWI2C_OPER_WR = true ∨ (0 < size)%nat →
  ∃ ec bs b', SwI2C_Transfer scl_polls junk oper addr p size b = Ok ((ec, bs), b') ∧
    dev_transfer oper addr p size (bs_dev b) = (ec, bs, bs_dev b') ∧ at_rest b' ∧
    (ec = EOK → if has oper SWI2C_OPER_STOP then b' = free (bs_dev b') else has oper SWI2C_OPER_WR = true → held (bs_dev b') b') ∧
    lines_after oper ec b'.
Proof. intros Hst Hb Ha Hp Hadr Hsz. by apply transfer_bytes. Qed.

(** the rest of a transfer that was begun without a stop is written behind it. *)
Theorem swi2c_continues junk oper addr p size b :
  (∀ b, stretch SWI2C_TIMEOUT (scl_polls b) = Ok EOK) → held (bs_dev b) b → Forall is_u8 p → p ≠ [] →
  has oper SWI2C_OPER_ADDR = false → has oper SWI2C_OPER_WR = true →
  ∃ ec bs b', SwI2C_Transfer scl_polls junk oper addr p size b = Ok ((ec, bs), b') ∧
    dev_data oper p size (bs_dev b) = (ec, bs, bs_dev b') ∧ at_rest b' ∧
    (ec = EOK → if has oper SWI2C_OPER_STOP then b' = free (bs_dev b') else held (bs_dev b') b').
Proof. intros Hst Hb Hp Hne Hadr Hwr. by apply transfer_goes_on. Qed.
End claims.

(** ** Whatever the device does with the clock *)

Definition swi2c_codes : list Z := [EOK; EI2C_ARB_LOST; EI2C_BUS_TIMEOUT; EI2C_NACK; EI2C_START; EI2C_ADDR; EI2C_STOP].

(** The clock is released at some reading, or a reading is late enough. *)
Definition readings_end (polls : list (Z * bool)) : Prop :=
  ∃ t0 scl0 polls', polls = (t0, scl0) :: polls' ∧ (scl0 = true ∨ Exists (λ r, r.2 = true ∨ SWI2C_TIMEOUT ≤ dtime r.1 t0) polls').

Lemma stretch_loop_ends ts polls : Exists (λ r, r.2 = true ∨ SWI2C_TIMEOUT ≤ dtime r.1 ts) polls → ∃ ec, stretch_loop ts SWI2C_TIMEOUT polls = Ok ec.
Proof.
  induction polls as [|[now scl] polls IH]; intros H; [by apply Exists_nil in H|]. cbn [stretch_loop].
  destruct (negb scl && (dtime now ts <? SWI2C_TIMEOUT)) eqn:E; [|by eexists]. apply IH. apply Exists_cons in H as [[H|H]|H]; [| |done].
  - cbn in H. by rewrite H in E.
  - apply andb_true_iff in E as [_ E]. cbn in H. lia.
Qed.

Lemma stretch_ends polls : readings_end polls → ∃ ec, stretch SWI2C_TIMEOUT polls = Ok ec.
Proof.
  intros (t0 & scl0 & polls' & -> & H). cbn. destruct scl0; [by eexists|]. destruct H as [H|H]; [done|]. by apply stretch_loop_ends.
Qed.

Section returns.
Context {D : Type} `{DD : I2CDevice D} (scl_polls : bus D → list (Z * bool)).
Context (Hends : ∀ b, readings_end (scl_polls b)).

(** A program that gets to an end with a result as said. *)
Definition gives {A} (p : prog (bus D) A) (P : A → Prop) : Prop := ∀ b, ∃ a b', p b = Ok (a, b') ∧ P a.

Lemma gives_bind {A B} (p : prog (bus D) A) (q : A → prog (bus D) B) P Q : gives p P → (∀ a, P a → gives (q a) Q) → gives (p ≫= q) Q.
Proof.
  intros Hp Hq b. destruct (Hp b) as (a & b1 & E & Ha). destruct (Hq a Ha b1) as (c & b2 & E2 & Hc).
  exists c, b2. by rewrite (prog_bind_Ok _ _ _ _ _ E).
Qed.
Lemma gives_ret {A} (a : A) (P : A → Prop) : P a → gives (mret a) P.
Proof. intros H b. by exists a, b. Qed.
Lemma gives_sda x : gives (W_SDA x) (λ _, True).
Proof. intros b. by eexists (), _. Qed.
Lemma gives_scl x : gives (W_SCL x) (λ _, True).
Proof. intros b. by eexists (), _. Qed.
Lemma gives_read : gives R_SDA (λ _, True).
Proof. intros b. by eexists _, _. Qed.
Lemma gives_stretch : gives (SwI2C_ClockStrech scl_polls SWI2C_TIMEOUT) (λ _, True).
Proof. intros b. destruct (stretch_ends _ (Hends b)) as [ec E]. exists ec, b. unfold SwI2C_ClockStrech. by rewrite E. Qed.

Definition is_code (ec : Z) : Prop := ec ∈ swi2c_codes.

Ltac code := apply (bool_decide_unpack _); vm_compute; exact I.
Ltac go := repeat first
  [ eapply gives_bind; [first [apply gives_sda|apply gives_scl|apply gives_read|apply gives_stretch|eassumption]|intros ? ?]
  | match goal with |- gives (if ?c then _ else _) _ => destruct c eqn:? end
  | match goal with |- gives (mret (if ?c then _ else _)) _ => destruct c end
  | apply gives_ret; code
  | apply gives_ret; cbn; code ].

Lemma start_gives : gives (SwI2C_Start scl_polls) is_code.
Proof. unfold SwI2C_Start. go. Qed.
Lemma stop_gives : gives (SwI2C_Stop scl_polls) is_code.
Proof. unfold SwI2C_Stop. go. Qed.
Lemma write_bits_gives n : ∀ byte, gives (write_bits scl_polls n byte) is_code.
Proof. induction n as [|n IH]; intros byte; cbn [write_bits]; go. apply IH. Qed.
Lemma write_byte_gives byte : gives (SwI2C_WriteByte scl_polls byte) is_code.
Proof.
  unfold SwI2C_WriteByte. eapply gives_bind; [apply write_bits_gives|]. intros ec Hec.
  destruct (negb _); [by apply gives_ret|]. go.
Qed.
Lemma read_bits_gives n : ∀ b, gives (read_bits scl_polls n b) (λ r, is_code r.1).
Proof. induction n as [|n IH]; intros b; cbn [read_bits]; go. apply IH. Qed.
Lemma read_byte_gives ack : gives (SwI2C_ReadByte scl_polls ack) (λ r, is_code r.1).
Proof.
  unfold SwI2C_ReadByte. eapply gives_bind; [apply gives_sda|]. intros _ _. eapply gives_bind; [apply read_bits_gives|]. intros [ec b] Hec.
  destruct (negb _); [by apply gives_ret|]. go.
Qed.
Lemma write_all_gives p : ∀ ec, is_code ec → gives (write_all scl_polls p ec) is_code.
Proof.
  induction p as [|byte p IH]; intros ec Hec; cbn [write_all]; [by apply gives_ret|].
  eapply gives_bind; [apply write_byte_gives|]. intros rc Hrc. destruct (negb _); [by apply gives_ret|by apply IH].
Qed.
Lemma read_all_gives n : ∀ ec, is_code ec → gives (read_all scl_polls n ec) (λ r, is_code r.1).
Proof.
  induction n as [|n IH]; intros ec Hec; cbn [read_all]; [by apply gives_ret|].
  eapply gives_bind; [apply read_byte_gives|]. intros [rc b] Hrc. destruct (negb _); [by apply gives_ret|].
  eapply gives_bind; [by apply IH|]. intros [? ?] ?. by apply gives_ret.
Qed.
Lemma finish_gives oper ec : is_code ec → gives (finish_transfer scl_polls oper ec) is_code.
Proof.
  intros Hec. unfold finish_transfer. destruct (has _ _); [|by apply gives_ret]. eapply gives_bind; [apply stop_gives|].
  intros rc _. apply gives_ret. destruct (negb _); [code|done].
Qed.

(** a transfer with an address comes to an end with one of the codes, whatever
    the device does with the lines and however long it holds the clock: no wait is
    longer than its time out. *)
Theorem swi2c_returns junk oper addr p size b :
  has oper SWI2C_OPER_ADDR = true →
  ∃ ec bs b', SwI2C_Transfer scl_polls junk oper addr p size b = Ok ((ec, bs), b') ∧ ec ∈ swi2c_codes.
Proof.
  intros Ha. enough (gives (SwI2C_Transfer scl_polls junk oper addr p size) (λ r, is_code r.1)) as H.
  { destruct (H b) as ([ec bs] & b' & E & Hc). by exists ec, bs, b'. }
  unfold SwI2C_Transfer. rewrite Ha. cbn [andb]. eapply (gives_bind _ _ is_code).
  - eapply gives_bind; [apply start_gives|]. intros ec Hec. destruct (negb _); [apply gives_ret; code|].
    eapply gives_bind; [apply write_byte_gives|]. intros rc _. destruct (negb _); [|by apply gives_ret].
    eapply gives_bind; [apply write_byte_gives|]. intros _ _. eapply gives_bind; [apply stop_gives|]. intros _ _.
    apply gives_ret. code.
  - intros ec Hec. destruct (negb (ec =? EOK)); [by apply gives_ret|]. destruct (has oper SWI2C_OPER_WR).
    + eapply gives_bind; [by apply write_all_gives|]. intros rc Hrc. destruct (_ && _); [by apply gives_ret|].
      eapply gives_bind; [by apply finish_gives|]. intros ec2 Hec2. by apply gives_ret.
    + eapply gives_bind; [by apply read_all_gives|]. intros [rc bs] Hrc. destruct (_ && _); [by apply gives_ret|].
      eapply gives_bind; [by apply finish_gives|]. intros ec2 Hec2. by apply gives_ret.
Qed.

End returns.

(** ** After a reset in the middle of a transfer *)

Section recovery.
Context {D : Type} `{DD : I2CDevice D}.

Lemma dummy_cycle p (d : D) n :
  dummy_cycles (S n) (mk_bus true true p d) =
  let '(p', d') := clock_down p d in dummy_cycles n (mk_bus true true (clock_up (dev_sda p') p') d').
Proof.
  cbn [dummy_cycles]. rewrite !scl_bind, scl_falls. cbn [bs_sda]. rewrite scl_rises. cbn [andb]. by destruct (clock_down p d).
Qed.

Lemma cycles_idle n (d : D) : dummy_cycles n (free d) = Ok ((), free d).
Proof. induction n as [|n IH]; [done|]. unfold free in *. by rewrite dummy_cycle. Qed.

(** From the [n]th bit on of a byte that is given. *)
Lemma cycles_given byte n k (d : D) : (n < 8)%nat →
  dummy_cycles (8 - n + S k) (mk_bus true true (Giving byte n) d) = Ok ((), free (dev_given d false)).
Proof.
  intros Hn. remember (7 - n)%nat as j eqn:Ej. revert n Hn Ej. induction j as [|j IH]; intros n Hn Ej.
  - assert (n = 7%nat) as -> by lia. change (8 - 7 + S k)%nat with (S (S k)). rewrite !dummy_cycle. apply cycles_idle.
  - replace (8 - n + S k)%nat with (S (8 - S n + S k)) by lia. rewrite dummy_cycle. cbn [clock_down]. rewrite (proj2 (Nat.ltb_lt _ _)) by lia.
    cbn [clock_up]. apply IH; lia.
Qed.

(** A device that was giving a byte when the program was restarted is told that no
    more is wanted, and the lines are free for the next transfer. *)
Theorem swi2c_reset_frees_reader byte n (d : D) :
  (n < 8)%nat → SwI2C_Reset (mk_bus true true (Giving byte n) d) = Ok (EOK, free (dev_given d false)).
Proof.
  intros Hn. unfold SwI2C_Reset, SwI2C_ClockDummyCycles. rewrite sda_bind. cbn [bs_scl].
  assert (set_lines true true (mk_bus true true (Giving byte n) d) = mk_bus true true (Giving byte n) d) as ->.
  { unfold set_lines, wire. cbn. by destruct (Z.testbit byte _). }
  replace 16%nat with (8 - n + S (7 + n))%nat by lia. by rewrite (prog_bind_Ok _ _ _ _ _ (cycles_given byte n (7 + n) d Hn)).
Qed.
End recovery.

(** ** Runs *)

(** A device at address 0x50 that writes down what happens to it, takes all bytes
    but 0x90 and gives 0xA0, 0xA1, ... *)
Inductive note := NStart | NByte (b : Z) | NGiven (more : bool) | NStop.
Record logger := mk_logger { lg_notes : list note; lg_addressed : bool; lg_next : Z }.
Definition log (n : note) (d : logger) : logger := mk_logger (lg_notes d ++ [n]) (lg_addressed d) (lg_next d).
#[export] Instance logger_device : I2CDevice logger := {
  dev_start d := let d := log NStart d in mk_logger (lg_notes d) false (lg_next d);
  dev_take d b :=
    let d' := log (NByte b) d in
    if lg_addressed d then (negb (b =? 0x90), d') else (b / 2 =? 0x50, mk_logger (lg_notes d') true (lg_next d));
  dev_give d := lg_next d;
  dev_given d more := let d := log (NGiven more) d in mk_logger (lg_notes d) (lg_addressed d) (lg_next d + 1);
  dev_stop d := log NStop d }.

Definition new_logger : logger := mk_logger [] false 0xA0.
Definition no_hold (b : bus logger) : list (Z * bool) := [(0, true)].
Definition WR_ALL : Z := SWI2C_OPER_ADDR + SWI2C_OPER_WR + SWI2C_OPER_STOP.
Definition RD_ALL : Z := SWI2C_OPER_ADDR + SWI2C_OPER_RD + SWI2C_OPER_STOP.
Definition demo_transfer (oper addr : Z) (p : list Z) (size : nat) (b : bus logger) :=
  '((ec, bs), b) ← SwI2C_Transfer no_hold 77 oper addr p size b; Ok (ec, bs, lg_notes (bs_dev b), (bs_scl b, bs_sda b)).

Example three_bytes :
  demo_transfer WR_ALL 0x50 [1; 2; 3] 0 (free new_logger) =
  Ok (EOK, [], [NStart; NByte 0xA0; NByte 1; NByte 2; NByte 3; NStop], (true, true)).
Proof. vm_compute. reflexivity. Qed.

Example two_bytes_read :
  demo_transfer RD_ALL 0x50 [] 2 (free new_logger) =
  Ok (EOK, [0xA0; 0xA1], [NStart; NByte 0xA1; NGiven true; NGiven false; NStop], (true, true)).
Proof. vm_compute. reflexivity. Qed.

Example nobody_there : demo_transfer WR_ALL 0x51 [1] 0 (free new_logger) = Ok (EI2C_ADDR, [], [NStart; NByte 0xA2; NStop], (true, true)).
Proof. vm_compute. reflexivity. Qed.

(** A byte that is not taken ends the transfer without the stop that was asked for:
    the clock stays low. *)
Example no_stop_after_nack :
  demo_transfer WR_ALL 0x50 [1; 0x90; 2] 0 (free new_logger) = Ok (EI2C_NACK, [], [NStart; NByte 0xA0; NByte 1; NByte 0x90], (false, true)).
Proof. vm_compute. reflexivity. Qed.

(** Without an address and without data the code has no value. *)
Example code_uninitialised : demo_transfer SWI2C_OPER_WR 0x50 [] 0 (free new_logger) = Ok (77, [], [], (true, true)).
Proof. vm_compute. reflexivity. Qed.

(** When nothing is read the device already gives its first bit, which may hold the
    data line: there is no stop. *)
Example read_of_nothing :
  demo_transfer RD_ALL 0x50 [] 0 (free (mk_logger [] false 0x20)) = Ok (EI2C_STOP, [], [NStart; NByte 0xA1], (true, true)).
Proof. vm_compute. reflexivity. Qed.

(** A device that was taking a byte, of which it has two bits, acknowledges twice in
    the sixteen cycles of a reset and is left doing so: it holds the data line, the
    next start condition is not seen, and address and data of a transfer without an
    error are taken for more of the old one's data. *)
Definition stuck : res (bus logger) := '(_, b) ← SwI2C_Reset (mk_bus true true (Taking false [true; true]) (mk_logger [] true 0)); Ok b.
Example writer_not_freed :
  (b ← stuck; Ok (wire b, lg_notes (bs_dev b))) = Ok (false, [NByte 0xFF; NByte 0xFF]) ∧
  (b ← stuck; demo_transfer WR_ALL 0x50 [1] 0 b) = Ok (EOK, [], [NByte 0xFF; NByte 0xFF; NByte 0xA0; NByte 1; NStop], (true, true)).
Proof. vm_compute. done. Qed.

(** *** Witnesses *)

Lemma swi2c_transfer_witness :
  ∃ ec bs b', SwI2C_Transfer no_hold 77 RD_ALL 0x50 [] 2 (free new_logger) = Ok ((ec, bs), b') ∧
    dev_transfer RD_ALL 0x50 [] 2 new_logger = (ec, bs, bs_dev b') ∧ lines_after RD_ALL ec b'.
Proof.
  destruct (swi2c_transfer no_hold 77 RD_ALL 0x50 [] 2 (free new_logger)) as (ec & bs & b' & E1 & E2 & _ & _ & Hl).
  - done.
  - done.
  - lia.
  - by constructor.
  - done.
  - right. lia.
  - exists ec, bs, b'. split; [exact E1|]. split; [exact E2|exact Hl].
Defined.

Lemma swi2c_continues_witness :
  ∃ ec bs b', SwI2C_Transfer no_hold 77 (SWI2C_OPER_WR + SWI2C_OPER_STOP) 0 [5; 6] 0 (mk_bus false true (Taking false []) new_logger) = Ok ((ec, bs), b') ∧
    dev_data (SWI2C_OPER_WR + SWI2C_OPER_STOP) [5; 6] 0 new_logger = (ec, bs, bs_dev b').
Proof.
  destruct (swi2c_continues no_hold 77 (SWI2C_OPER_WR + SWI2C_OPER_STOP) 0 [5; 6] 0 (mk_bus false true (Taking false []) new_logger)) as (ec & bs & b' & E1 & E2 & _).
  - done.
  - by exists true.
  - repeat constructor; word_lia.
  - done.
  - done.
  - done.
  - exists ec, bs, b'. by split.
Defined.

(** A clock that is never released. *)
Lemma swi2c_returns_witness :
  ∃ ec bs b', SwI2C_Transfer (λ _ : bus logger, [(0, false); (5, false); (12, false)]) 77 WR_ALL 0x50 [1] 0 (free new_logger) = Ok ((ec, bs), b') ∧ ec ∈ swi2c_codes.
Proof.
  apply swi2c_returns.
  - intros b. exists 0, false, [(5, false); (12, false)]. split; [done|]. right. apply Exists_cons. right. apply Exists_cons. left. right. by vm_compute.
  - done.
Defined.

Lemma swi2c_reset_frees_reader_witness : SwI2C_Reset (mk_bus true true (Giving 0xA5 3) new_logger) = Ok (EOK, free (dev_given new_logger false)).
Proof. apply swi2c_reset_frees_reader. lia. Defined.
