(* ===== verification/Flash.v ===== *)
(** * Flash memory (dev/src/flash.c, dev/flash.h)

    Sectors, erasing and programming.  The memory is that of the processor, in
    which the sectors lie; of the registers of the controller the program relies
    on the control register.  What the chip makes of a byte that is stored - under
    the control register as it stands - is a function that may refuse it, which
    shows as an error in the status register.  The waiting for the controller ends
    with the operation and has no other effect. *)
From S2P Require Import Prelude Words Time CString.

(** ** Data *)

Record flash_sector := mk_sector { fs_addr : Z; fs_size : Z }.

Definition sectors : list flash_sector :=
  [mk_sector 0x08000000 (16 * 1024); mk_sector 0x08004000 (16 * 1024); mk_sector 0x08008000 (16 * 1024); mk_sector 0x0800c000 (16 * 1024);
   mk_sector 0x08010000 (64 * 1024); mk_sector 0x08020000 (128 * 1024)].

Definition FLASH_CR_PG : Z := 0x00000001.
Definition FLASH_CR_SER : Z := 0x00000002.
Definition FLASH_CR_SNB : Z := 0x000000f8.
Definition FLASH_CR_STRT : Z := 0x00010000.
Definition FLASH_CR_LOCK : Z := 0x80000000.

Record flash := mk_flash { fl_mem : mem; fl_cr : Z }.

(** The keys clear the lock. *)
Definition Flash_Unlock (f : flash) : flash :=
  if negb (has (fl_cr f) FLASH_CR_LOCK) then f else mk_flash (fl_mem f) (BITS_CLR (fl_cr f) FLASH_CR_LOCK).
Definition Flash_Lock (f : flash) : flash := mk_flash (fl_mem f) (Z.lor (fl_cr f) FLASH_CR_LOCK).

(** ** Sectors *)

Fixpoint find_sector (addr i : Z) (l : list flash_sector) : Z :=
  match l with
  | [] => EFATAL
  | s :: l => if (fs_addr s <=? addr) && (addr <? fs_addr s +u fs_size s) then i else find_sector addr (i + 1) l
  end.
Definition Flash_GetSectorIDForAddr (addr : Z) : Z := find_sector addr 0 sectors.

Definition no_sector (sector_id : Z) : bool := (sector_id <? 0) || (length sectors <=? sector_id).

Definition Flash_GetSectorInfo (sector_id : Z) : Z * option flash_sector :=
  if no_sector sector_id then (EARGVAL, None) else (EOK, sectors !! Z.to_nat sector_id).

(** ** Erasing *)

(** All bytes of the sector are set; the bit that starts it goes down when it is
    done.  A locked register is not written. *)
Definition Flash_EraseCore (sector_id : Z) (f : flash) : res flash :=
  match sectors !! Z.to_nat sector_id with
  | Some s =>
      let cr := Z.lor (Z.lor (Z.shiftl sector_id (LSB FLASH_CR_SNB)) FLASH_CR_SER) FLASH_CR_STRT in
      if has (fl_cr f) FLASH_CR_LOCK then Ok f
      else Ok (mk_flash (put_bytes (fl_mem f) (fs_addr s) (replicate (Z.to_nat (fs_size s)) 0xff)) (BITS_CLR cr FLASH_CR_STRT))
  | None => Fault OutOfBounds
  end.

Definition Flash_EraseSector (sector_id : Z) (f : flash) : res (Z * flash) :=
  if no_sector sector_id then Ok (EARGVAL, f)
  else f ← Flash_EraseCore sector_id (Flash_Unlock f); Ok (EOK, Flash_Lock f).

Fixpoint erase_loop (fuel : nat) (p size_left : Z) (f : flash) : res (Z * flash) :=
  match fuel with
  | O => Fault OutOfFuel
  | S fuel =>
      let sector_id := Flash_GetSectorIDForAddr p in
      if sector_id <? 0 then Ok (EFATAL, f)
      else
        '(_, f) ← Flash_EraseSector sector_id f;
        match sectors !! Z.to_nat sector_id with
        | Some s => if size_left <=? fs_size s then Ok (EOK, f) else erase_loop fuel (p +u fs_size s) (size_left -u fs_size s) f
        | None => Fault OutOfBounds
        end
  end.
(** No sector is met twice, and there are six. *)
Definition Flash_EraseSectorsForAddressRange (p size : Z) (f : flash) : res (Z * flash) := erase_loop 7 p size f.

(** ** Reading and programming *)

Definition Flash_Read (dst src size : Z) (f : flash) : res (Z * flash) :=
  m ← memcpy (fl_mem f) dst src size; Ok (s32 size, mk_flash m (fl_cr f)).

Definition Flash_Verify (p ram size : Z) (f : flash) : res Z :=
  r ← memcmp (fl_mem f) p ram size; Ok (if r =? 0 then EOK else EFATAL).

Section programming.
(** What the chip makes of a byte, from the control register, the address and the
    byte that is there. *)
Context (program : Z → Z → Z → Z → option Z).

(** A store, and whether there was an error. *)
Definition flash_store (a b : Z) (f : flash) : res (bool * flash) :=
  old ← load8 (fl_mem f) a;
  match program (fl_cr f) a old b with
  | Some v => m ← store8 (fl_mem f) a v; Ok (false, mk_flash m (fl_cr f))
  | None => Ok (true, f)
  end.

Fixpoint write_loop (d8 s8 b_stored : Z) (n : nat) (f : flash) : res (Z * flash) :=
  match n with
  | O => Ok (EOK, f)
  | S n =>
      let f := mk_flash (fl_mem f) (Z.lor (fl_cr f) FLASH_CR_PG) in
      b ← load8 (fl_mem f) (s8 + b_stored);
      '(error, f) ← flash_store (d8 + b_stored) b f;
      if (error : bool) then Ok (EFATAL, f) else write_loop d8 s8 (b_stored + 1) n f
  end.

Definition Flash_Write (dst src size : Z) (f : flash) : res (Z * flash) :=
  '(ec, f) ← write_loop dst src 0 (Z.to_nat size) (Flash_Unlock f);
  Ok (if ec <? EOK then ec else s32 size, Flash_Lock f).
End programming.

(** ** Addresses and sectors *)

Definition FLASH_START : Z := 0x08000000.
Definition FLASH_END : Z := 0x08040000.

(** Where the sector with an address ends. *)
Definition sector_end (a : Z) : Z :=
  match list_find (λ s, a < fs_addr s + fs_size s) sectors with
  | Some (_, s) => fs_addr s + fs_size s
  | None => FLASH_END
  end.

(** Where the [i]th sector starts, the one behind the last included. *)
Definition sector_start (i : nat) : Z := default FLASH_END (fs_addr <$> sectors !! i).

Lemma sector_ends i : (i < 6)%nat → ∃ s, sectors !! i = Some s ∧ fs_addr s = sector_start i ∧
  sector_start (S i) = sector_start i + fs_size s ∧ 0 < fs_size s ∧ FLASH_START ≤ sector_start i ∧ sector_start (S i) ≤ FLASH_END ∧
  Flash_GetSectorIDForAddr (sector_start i) = i.
Proof. intros H. do 6 (destruct i as [|i]; [eexists; split; [reflexivity|]; split_and!; by vm_compute|]). lia. Qed.

Lemma sector_end_in i a : (i < 6)%nat → sector_start i ≤ a < sector_start (S i) → sector_end a = sector_start (S i).
Proof.
  intros Hi Ha. unfold sector_end, sectors.
  do 6 (destruct i as [|i]; [cbn in Ha; cbn [list_find fs_addr fs_size]; repeat (case_decide; [try lia; reflexivity|]); cbn; lia|]). lia.
Qed.

Lemma sector_end_above a : FLASH_END ≤ a → sector_end a = FLASH_END.
Proof. intros H. unfold sector_end, sectors, FLASH_END in *. cbn [list_find fs_addr fs_size]. by repeat (case_decide; [lia|]). Qed.

(** ** Erasing a range *)

Lemma has_bit x n : 0 ≤ n → has x (2 ^ n) = Z.testbit x n.
Proof.
  intros Hn. unfold has. destruct (Z.testbit x n) eqn:E.
  - destruct (Z.eqb_spec (Z.land x (2 ^ n)) 0) as [H|H]; [|done]. apply (f_equal (λ z, Z.testbit z n)) in H.
    by rewrite Z.land_spec, E, Z.pow2_bits_true, Z.bits_0 in H by lia.
  - replace (Z.land x (2 ^ n)) with 0; [done|]. symmetry. apply Z.bits_inj'. intros m Hm. rewrite Z.land_spec, Z.bits_0.
    destruct (decide (m = n)) as [->|Hne]; [by rewrite E|]. by rewrite Z.pow2_bits_false, andb_false_r by lia.
Qed.

Lemma locks_bit x : has x FLASH_CR_LOCK = Z.testbit x 31. Proof. by apply (has_bit x 31). Qed.
Lemma pg_bit x : has x FLASH_CR_PG = Z.testbit x 0. Proof. by apply (has_bit x 0). Qed.

Lemma ser_bit x : has x FLASH_CR_SER = Z.testbit x 1. Proof. by apply (has_bit x 1). Qed.

Lemma unlocked f : has (fl_cr (Flash_Unlock f)) FLASH_CR_LOCK = false.
Proof.
  unfold Flash_Unlock. destruct (has (fl_cr f) FLASH_CR_LOCK) eqn:E; [|done]. cbn [fl_cr negb]. rewrite locks_bit. unfold BITS_CLR.
  rewrite Z.land_spec. change (Z.testbit (u32 (Z.lnot FLASH_CR_LOCK)) 31) with false. apply andb_false_r.
Qed.
Lemma unlocked_mem f : fl_mem (Flash_Unlock f) = fl_mem f.
Proof. unfold Flash_Unlock. by destruct (has _ _). Qed.
Lemma locked_again f : has (fl_cr (Flash_Lock f)) FLASH_CR_LOCK = true.
Proof. cbn. rewrite locks_bit, Z.lor_spec. apply orb_true_r. Qed.

Definition erased (a e : Z) : list Z := replicate (Z.to_nat (e - a)) 0xff.

Lemma erased_app a b e : a ≤ b ≤ e → erased a e = erased a b ++ erased b e.
Proof. intros H. unfold erased. rewrite <- replicate_add. f_equal. lia. Qed.
Lemma erased_length a e : a ≤ e → Z.of_nat (length (erased a e)) = e - a.
Proof. intros H. unfold erased. rewrite length_replicate. lia. Qed.

Definition locked (f : flash) : Prop := has (fl_cr f) FLASH_CR_LOCK = true.

(** A sector is erased and nothing else, and the register is locked again. *)
Lemma sector_erased (i : nat) f : (i < 6)%nat →
  ∃ f', Flash_EraseSector i f = Ok (EOK, f') ∧ locked f' ∧
    fl_mem f' = put_bytes (fl_mem f) (sector_start i) (erased (sector_start i) (sector_start (S i))).
Proof.
  intros Hi. destruct (sector_ends i Hi) as (s & Es & Ea & Ee & _). unfold Flash_EraseSector, no_sector, Flash_EraseCore.
  destruct (Z.ltb_spec i 0); [lia|]. destruct (Z.leb_spec (length sectors) i); [cbn in *; lia|]. cbn [orb].
  rewrite Nat2Z.id, Es, unlocked, unlocked_mem, bind_Ok. eexists. split; [done|]. split; [apply locked_again|].
  cbn [fl_mem Flash_Lock]. unfold erased. rewrite Ea. by replace (sector_start (S i) - sector_start i) with (fs_size s) by lia.
Qed.

Lemma sector_end_ge b a : b ≤ FLASH_END → b ≤ a → b ≤ sector_end a.
Proof.
  intros H1 H2. unfold sector_end, sectors, FLASH_END in *. cbn [list_find fs_addr fs_size].
  repeat (case_decide; [cbn; lia|]). done.
Qed.

Lemma erase_next n p left f :
  erase_loop (S n) p left f =
  let sector_id := Flash_GetSectorIDForAddr p in
  if sector_id <? 0 then Ok (EFATAL, f)
  else
    '(_, f) ← Flash_EraseSector sector_id f;
    match sectors !! Z.to_nat sector_id with
    | Some s => if left <=? fs_size s then Ok (EOK, f) else erase_loop n (p +u fs_size s) (left -u fs_size s) f
    | None => Fault OutOfBounds
    end.
Proof. done. Qed.

Lemma erase_behind n left f : 0 < left → locked f →
  ∃ f', erase_loop (S n) (sector_start 6) left f = Ok (if sector_start 6 + left <=? FLASH_END then EOK else EFATAL, f') ∧ locked f' ∧
    fl_mem f' = put_bytes (fl_mem f) (sector_start 6) (erased (sector_start 6) (sector_end (sector_start 6 + left - 1))).
Proof.
  intros Hl Hf. exists f. change (sector_start 6) with FLASH_END. rewrite sector_end_above by lia.
  destruct (Z.leb_spec (FLASH_END + left) FLASH_END); [lia|]. split; [done|]. split; [done|]. unfold erased. by rewrite Z.sub_diag.
Qed.

Lemma erase_run n : ∀ (i : nat) left f, (6 ≤ n + i)%nat → (i ≤ 6)%nat → 0 < left → is_u32 left → locked f →
  ∃ f', erase_loop (S n) (sector_start i) left f = Ok (if sector_start i + left <=? FLASH_END then EOK else EFATAL, f') ∧ locked f' ∧
    fl_mem f' = put_bytes (fl_mem f) (sector_start i) (erased (sector_start i) (sector_end (sector_start i + left - 1))).
Proof.
  induction n as [|n IH]; intros i left f Hn Hi Hl Hu Hf.
  all: destruct (decide (i = 6%nat)) as [->|Hne]; [by apply erase_behind|try lia].
  destruct (sector_ends i ltac:(lia)) as (s & Es & Ea & Ee & Hs & Hlo & Hhi & Hid).
  destruct (sector_erased i f ltac:(lia)) as (f1 & E1 & Hf1 & Em). rewrite erase_next. cbv zeta. rewrite Hid.
  destruct (Z.ltb_spec i 0); [lia|]. rewrite E1, bind_Ok, Nat2Z.id, Es. unfold FLASH_START, FLASH_END in *.
  destruct (Z.leb_spec left (fs_size s)) as [H1|H1].
  - exists f1. rewrite (sector_end_in i) by lia. destruct (Z.leb_spec (sector_start i + left) 0x08040000); [done|lia].
  - destruct (IH (S i) (left - fs_size s) f1) as (f2 & E2 & Hf2 & Em2); [lia|lia|lia|word_lia|done|]. exists f2.
    rewrite !u32_small by word_lia. rewrite <- Ee, E2. replace (sector_start (S i) + (left - fs_size s)) with (sector_start i + left) in * by lia.
    split; [done|]. split; [done|]. rewrite Em2, Em.
    rewrite (erased_app (sector_start i) (sector_start (S i)) (sector_end (sector_start i + left - 1))), put_bytes_app, erased_length by (first [lia|split; [lia|apply sector_end_ge; unfold FLASH_END; lia]]).
    by replace (sector_start i + (sector_start (S i) - sector_start i)) with (sector_start (S i)) by lia.
Qed.

(** Erasing is left selected. *)
Definition erase_selected (f : flash) : Prop := has (fl_cr f) FLASH_CR_SER = true.

Lemma sector_selected (i : nat) f ec f' : Flash_EraseSector i f = Ok (ec, f') → (i < 6)%nat → erase_selected f'.
Proof.
  intros E Hi. unfold Flash_EraseSector, no_sector, Flash_EraseCore in E. destruct (sector_ends i Hi) as (s & Es & _).
  destruct (Z.ltb_spec i 0); [lia|]. destruct (Z.leb_spec (length sectors) i); [cbn in *; lia|]. cbn [orb] in E.
  rewrite Nat2Z.id, Es, unlocked, bind_Ok in E. injection E as _ <-. unfold erase_selected, Flash_Lock. cbn [fl_cr].
  rewrite ser_bit. unfold BITS_CLR. by rewrite !Z.lor_spec, Z.land_spec, !Z.lor_spec, (orb_true_r (Z.testbit _ 1)).
Qed.

Lemma range_selected n : ∀ p left f f', erase_loop n p left f = Ok (EOK, f') → erase_selected f'.
Proof.
  induction n as [|n IH]; intros p left f f' E; [done|]. rewrite erase_next in E. cbv zeta in E.
  destruct (Z.ltb_spec (Flash_GetSectorIDForAddr p) 0) as [|Hid]; [done|]. rewrite <- (Z2Nat.id _ Hid) in E at 1.
  destruct (Flash_EraseSector (Z.to_nat (Flash_GetSectorIDForAddr p)) f) as [[ec f1]|] eqn:E1; [|done]. rewrite bind_Ok in E.
  destruct (sectors !! _) as [s|] eqn:Es; [|done]. apply lookup_lt_Some in Es. destruct (left <=? fs_size s); [|by eapply IH].
  injection E as <-. by eapply sector_selected.
Qed.

(** ** Programming *)

Section programmed.
Context (program : Z → Z → Z → Z → option Z).

(** What is in memory from [a] on after the chip was given [bs] one by one, and
    whether it took all of them. *)
Fixpoint programmed (cr a : Z) (olds bs : list Z) : list Z * bool :=
  match olds, bs with
  | old :: olds, b :: bs =>
      match program cr a old b with
      | Some v => let '(l, all) := programmed cr (a + 1) olds bs in (u8 v :: l, all)
      | None => ([], false)
      end
  | _, _ => ([], true)
  end.

Lemma ser_programming f : has (Z.lor (fl_cr (Flash_Unlock f)) FLASH_CR_PG) FLASH_CR_SER = has (fl_cr f) FLASH_CR_SER.
Proof.
  rewrite !ser_bit, Z.lor_spec, orb_false_r. unfold Flash_Unlock. destruct (has (fl_cr f) FLASH_CR_LOCK); [|done]. cbn [negb fl_cr]. unfold BITS_CLR.
  rewrite Z.land_spec. apply andb_true_r.
Qed.

Lemma pg_set cr : has (Z.lor cr FLASH_CR_PG) FLASH_CR_PG = true ∧ has (Z.lor cr FLASH_CR_PG) FLASH_CR_LOCK = has cr FLASH_CR_LOCK.
Proof. rewrite !pg_bit, !locks_bit, !Z.lor_spec. split; [apply orb_true_r|apply orb_false_r]. Qed.

Lemma pg_again cr : Z.lor (Z.lor cr FLASH_CR_PG) FLASH_CR_PG = Z.lor cr FLASH_CR_PG.
Proof. by rewrite <- Z.lor_assoc, Z.lor_diag. Qed.

Lemma write_run bs : ∀ d8 s8 k olds f,
  bytes_at (fl_mem f) (s8 + k) bs → bytes_at (fl_mem f) (d8 + k) olds → length olds = length bs →
  apart (d8 + k) (length bs) (s8 + k) (length bs) →
  let '(l, all) := programmed (Z.lor (fl_cr f) FLASH_CR_PG) (d8 + k) olds bs in
  ∃ cr, write_loop program d8 s8 k (length bs) f = Ok (if all then EOK else EFATAL, mk_flash (put_bytes (fl_mem f) (d8 + k) l) cr).
Proof.
  induction bs as [|b bs IH]; intros d8 s8 k olds f Hs Hd Hl Ha.
  { destruct olds; [|done]. cbn. exists (fl_cr f). by destruct f. }
  destruct olds as [|old olds]; [done|]. cbn [programmed write_loop length fl_mem].
  rewrite (load8_bytes _ _ _ _ Hs), bind_Ok. unfold flash_store. cbn [fl_mem fl_cr]. rewrite (load8_bytes _ _ _ _ Hd), bind_Ok.
  destruct Hs as [Hs0 Hs], Hd as [Hd0 Hd]. destruct (program _ _ old b) as [v|]; [|by eexists].
  rewrite store8_mapped, !bind_Ok by done. cbv beta iota.
  specialize (IH d8 s8 (k + 1) olds (mk_flash (<[d8 + k:=u8 v]> (fl_mem f)) (Z.lor (fl_cr f) FLASH_CR_PG))).
  cbn [fl_mem fl_cr] in IH. rewrite pg_again, !Z.add_assoc in IH. unfold apart in *. cbn [length] in Ha, Hl.
  destruct (programmed _ (d8 + k + 1) olds bs) as [l all] eqn:E. apply IH; [| |lia|lia].
  - apply (put_bytes_bytes_at_other _ (d8 + k) [u8 v]); [cbn; lia|done].
  - apply (put_bytes_bytes_at_other _ (d8 + k) [u8 v]); [cbn; lia|done].
Qed.

(** What a write does: the bytes the chip takes are programmed in order up to the
    first one it refuses, and the register is locked again. *)
Lemma written dst src olds bs f :
  bytes_at (fl_mem f) src bs → bytes_at (fl_mem f) dst olds → length olds = length bs → apart dst (length bs) src (length bs) →
  let '(l, all) := programmed (Z.lor (fl_cr (Flash_Unlock f)) FLASH_CR_PG) dst olds bs in
  ∃ f', Flash_Write program dst src (length bs) f = Ok (if all then s32 (length bs) else EFATAL, f') ∧ locked f' ∧
    fl_mem f' = put_bytes (fl_mem f) dst l.
Proof.
  intros Hs Hd Hl Ha. unfold Flash_Write. rewrite Nat2Z.id, <- (unlocked_mem f) in *.
  pose proof (write_run bs dst src 0 olds (Flash_Unlock f)) as H. rewrite !Z.add_0_r in H. specialize (H Hs Hd Hl Ha).
  destruct (programmed _ dst olds bs) as [l all]. destruct H as [cr ->]. rewrite bind_Ok. eexists. split; [|split; [apply locked_again|]].
  - by destruct all.
  - done.
Qed.

(** The chip takes what is written to erased memory while the register is unlocked
    and programming is selected in it, and not erasing. *)
Definition programs_erased : Prop :=
  ∀ cr a b, has cr FLASH_CR_PG = true → has cr FLASH_CR_SER = false → has cr FLASH_CR_LOCK = false → is_u8 b → program cr a 0xff b = Some b.

Lemma programmed_erased cr bs :
  programs_erased → has cr FLASH_CR_PG = true → has cr FLASH_CR_SER = false → has cr FLASH_CR_LOCK = false → Forall is_u8 bs →
  ∀ a, programmed cr a (replicate (length bs) 0xff) bs = (bs, true).
Proof.
  intros Hp Hcr Hser Hlk. induction 1 as [|b bs Hb _ IH]; intros a; [done|]. cbn [length replicate programmed].
  rewrite Hp by done. by rewrite IH, u8_small.
Qed.
End programmed.

Lemma sector_end_beyond a : a < FLASH_END → a < sector_end a.
Proof.
  intros H. unfold sector_end, sectors, FLASH_END in *. cbn [list_find fs_addr fs_size].
  repeat (case_decide; [cbn; lia|]). lia.
Qed.

(** ** What the driver guarantees *)

(** An address has a sector exactly when it lies in the flash, and the sector
    given is the one it lies in. *)
Theorem flash_sector_found addr :
  is_u32 addr →
  (Flash_GetSectorIDForAddr addr = EFATAL ∧ ¬ (FLASH_START ≤ addr < FLASH_END)) ∨
  (∃ s, Flash_GetSectorInfo (Flash_GetSectorIDForAddr addr) = (EOK, Some s) ∧ fs_addr s ≤ addr < fs_addr s + fs_size s ∧
    FLASH_START ≤ fs_addr s ∧ fs_addr s + fs_size s ≤ FLASH_END).
Proof.
  intros Ha. unfold Flash_GetSectorIDForAddr, sectors, FLASH_START, FLASH_END. cbn [find_sector fs_addr fs_size].
  repeat match goal with |- context [if ?b then _ else _] => destruct b eqn:?; [right; eexists; split; [reflexivity|]; cbn [fs_addr fs_size]; word_lia|] end.
  left. split; [done|]. word_lia.
Qed.

(** Erasing a range that starts with a sector sets every byte from there to the
    end of the sector with the last byte of the range, changes no other byte, and
    leaves the register locked; when the range is longer than the flash everything
    to the end is erased and the failure reported. *)
Theorem flash_erase_range (i : nat) size f :
  (i < 6)%nat → 0 < size → is_u32 size → locked f →
  ∃ f', Flash_EraseSectorsForAddressRange (sector_start i) size f = Ok (if sector_start i + size <=? FLASH_END then EOK else EFATAL, f') ∧
    locked f' ∧ fl_mem f' = put_bytes (fl_mem f) (sector_start i) (erased (sector_start i) (sector_end (sector_start i + size - 1))).
Proof. intros Hi Hs Hu Hf. apply erase_run; by lia || done. Qed.

(** A write programs the bytes in order; it returns their number when the chip
    takes all of them and fails at the first one it refuses, and the register is
    locked in both cases. *)
Theorem flash_writes program dst src olds bs f :
  bytes_at (fl_mem f) src bs → bytes_at (fl_mem f) dst olds → length olds = length bs → apart dst (length bs) src (length bs) →
  let '(l, all) := programmed program (Z.lor (fl_cr (Flash_Unlock f)) FLASH_CR_PG) dst olds bs in
  ∃ f', Flash_Write program dst src (length bs) f = Ok (if all then s32 (length bs) else EFATAL, f') ∧ locked f' ∧
    fl_mem f' = put_bytes (fl_mem f) dst l.
Proof. intros Hs Hd Hl Ha. by apply written. Qed.

Lemma same_compare l : ∀ l', length l = length l' → str_diff l l' = 0 ↔ l = l'.
Proof.
  induction l as [|c l IH]; intros [|d l'] H; try done. cbn. destruct (Z.eqb_spec c d) as [->|Hne].
  - rewrite IH by (cbn in H; lia). split; [by intros ->|by intros [= ->]].
  - split; [lia|]. intros [= ? ?]. done.
Qed.

Lemma verified p ram l1 l2 f : bytes_at (fl_mem f) p l1 → bytes_at (fl_mem f) ram l2 → length l1 = length l2 →
  Flash_Verify p ram (length l1) f = Ok (if decide (l1 = l2) then EOK else EFATAL).
Proof.
  intros H1 H2 Hl. unfold Flash_Verify, memcmp. rewrite Nat2Z.id, (memcmp_loop_ok l1 _ p ram l2), bind_Ok by done.
  pose proof (same_compare l1 l2 Hl) as Hz. destruct (Z.eqb_spec (Z.sgn (str_diff l1 l2)) 0) as [E|E], (decide (l1 = l2)) as [El|El]; try done.
  - destruct El. apply Hz. lia.
  - destruct E. by rewrite (proj2 Hz El).
Qed.

(** A write to erased memory with erasing not selected. *)
Lemma written_erased program p e src bs f f1 :
  programs_erased program → Forall is_u8 bs → p + length bs ≤ e → length bs < 2147483648 → bytes_at (fl_mem f) src bs →
  src + length bs ≤ p ∨ e ≤ src → fl_mem f1 = put_bytes (fl_mem f) p (erased p e) → has (fl_cr f1) FLASH_CR_SER = false →
  ∃ f2, Flash_Write program p src (length bs) f1 = Ok (Z.of_nat (length bs), f2) ∧ locked f2 ∧ fl_mem f2 = put_bytes (fl_mem f1) p bs.
Proof.
  intros Hp Hu Hpe Hlen Hs Ha Em Hser.
  assert (erased p e = replicate (length bs) 0xff ++ erased (p + length bs) e) as Ee.
  { unfold erased. rewrite <- replicate_add. f_equal. lia. }
  pose proof (put_bytes_bytes_at (fl_mem f) p (erased p e)) as Hd. rewrite <- Em, Ee in Hd. apply bytes_at_app in Hd as [Hd _].
  assert (bytes_at (fl_mem f1) src bs) as Hs1.
  { rewrite Em. apply put_bytes_bytes_at_other; [rewrite erased_length; lia|done]. }
  pose proof (written program p src _ bs f1 Hs1 Hd (length_replicate _ _) ltac:(unfold apart; lia)) as H2.
  destruct (pg_set (fl_cr (Flash_Unlock f1))) as [Hpg Hlk].
  rewrite (programmed_erased program _ bs Hp Hpg) in H2 by (rewrite ?Hlk, ?ser_programming; done || apply unlocked).
  by rewrite s32_small in H2 by lia.
Qed.

(** C20: Data that is written to erased sectors is there.  Erasing a range that
    starts with a sector sets its sectors, changes no other byte, and leaves
    erasing selected in the control register, whatever was selected before.  Once
    that is cleared - which the code does not do, but a reset of the chip does -
    and the memory is as it was left, a write to the range succeeds: the data
    verifies against its source, no byte outside of the sectors has changed, and
    the register is locked again. *)
Theorem flash_roundtrip program (i : nat) src bs f :
  programs_erased program → locked f → (i < 6)%nat → bs ≠ [] → Forall is_u8 bs →
  let p := sector_start i in let e := sector_end (p + length bs - 1) in
  p + length bs ≤ FLASH_END → bytes_at (fl_mem f) src bs → src + length bs ≤ p ∨ e ≤ src →
  ∃ f1, Flash_EraseSectorsForAddressRange p (length bs) f = Ok (EOK, f1) ∧ locked f1 ∧ erase_selected f1 ∧
    fl_mem f1 = put_bytes (fl_mem f) p (erased p e) ∧
    ∀ f1', fl_mem f1' = fl_mem f1 → ¬ erase_selected f1' →
    ∃ f2, Flash_Write program p src (length bs) f1' = Ok (Z.of_nat (length bs), f2) ∧
      Flash_Verify p src (length bs) f2 = Ok EOK ∧ bytes_at (fl_mem f2) p bs ∧ locked f2 ∧
      ∀ a, ¬ (p ≤ a < e) → fl_mem f2 !! a = fl_mem f !! a.
Proof.
  intros Hp Hf Hi Hbs Hu p e He Hs Ha. assert (0 < length bs)%nat as Hlen by (destruct bs; [done|cbn; lia]).
  destruct (sector_ends i Hi) as (_ & _ & _ & _ & _ & Hlo & _ & _). fold p in Hlo. unfold FLASH_START, FLASH_END in *.
  assert (p + length bs ≤ e) as Hpe by (pose proof (sector_end_beyond (p + length bs - 1)); unfold FLASH_END in *; lia).
  destruct (erase_run 6 i (length bs) f) as (f1 & E1 & Hf1 & Em1); [lia|lia|lia|word_lia|done|]. fold p e in E1, Em1.
  destruct (Z.leb_spec (p + length bs) FLASH_END); [|unfold FLASH_END in *; lia].
  exists f1. split; [done|]. split; [done|]. split; [by eapply range_selected|]. split; [done|]. intros f1' Emem Hser.
  rewrite Em1 in Emem. apply not_true_is_false in Hser.
  assert (length bs < 2147483648) as Hsmall by (unfold FLASH_END in *; lia).
  destruct (written_erased program p e src bs f f1' Hp Hu Hpe Hsmall Hs Ha Emem Hser) as (f2 & E2 & Hf2 & Em2). exists f2.
  assert (bytes_at (fl_mem f2) p bs) as Hd2 by (rewrite Em2; apply put_bytes_bytes_at).
  assert (bytes_at (fl_mem f2) src bs) as Hs2.
  { rewrite Em2, Emem. apply put_bytes_bytes_at_other; [lia|]. apply put_bytes_bytes_at_other; [rewrite erased_length; lia|done]. }
  split_and!; try done.
  - by rewrite (verified p src bs bs f2), decide_True.
  - intros a Hout. rewrite Em2, put_bytes_lookup_ne by lia. rewrite Emem. apply put_bytes_lookup_ne. rewrite erased_length; lia.
Qed.

(** ** Concrete inputs *)

(** A chip that clears bits, and one that wants nothing but programming selected. *)
Definition and_chip (cr a old b : Z) : option Z := Some (Z.land old b).
Definition strict_chip (cr a old b : Z) : option Z := if has cr FLASH_CR_SER then None else Some (Z.land old b).

Definition demo_flash : flash :=
  mk_flash (put_bytes (put_bytes (put_bytes ∅ 0x08004000 [7; 7]) 0x08002fff [5; 5]) 0x20000000 [1; 2; 3]) FLASH_CR_LOCK.

Definition seen (r : res (Z * flash)) (addrs : list Z) : res (Z * list (option Z)) := '(ec, f) ← r; Ok (ec, (λ a, fl_mem f !! a) <$> addrs).

(** A range that starts inside of a sector: the part of it in the next sector is
    not erased, since the whole size of the first one is taken off. *)
Example range_not_erased :
  seen (Flash_EraseSectorsForAddressRange 0x08003000 0x1002 demo_flash) [0x08002fff; 0x08003000; 0x08004000; 0x08004001] =
  Ok (EOK, [Some 0xff; Some 0xff; Some 7; Some 7]).
Proof. vm_compute. reflexivity. Qed.

(** An empty range erases a sector. *)
Example empty_range_erases :
  seen (Flash_EraseSectorsForAddressRange 0x08004000 0 demo_flash) [0x08003000; 0x08004000] = Ok (EOK, [Some 5; Some 0xff]).
Proof. vm_compute. reflexivity. Qed.

(** Erasing stays selected while bytes are programmed, which a chip may refuse. *)
Example erase_left_selected :
  let written chip :=
    seen ('(_, f) ← Flash_EraseSectorsForAddressRange 0x08004000 3 demo_flash; Flash_Write chip 0x08004000 0x20000000 3 f) [0x08004000; 0x08004002] in
  written and_chip = Ok (3, [Some 1; Some 3]) ∧ written strict_chip = Ok (EFATAL, [Some 0xff; Some 0xff]).
Proof. vm_compute. done. Qed.

(** What is written to memory that is not erased is not there. *)
Example not_erased :
  seen (Flash_Write and_chip 0x08002fff 0x20000001 2 demo_flash) [0x08002fff; 0x08003000] = Ok (2, [Some 0; Some 1]) ∧
  ('(_, f) ← Flash_Write and_chip 0x08002fff 0x20000001 2 demo_flash; Flash_Verify 0x08002fff 0x20000001 2 f) = Ok EFATAL.
Proof. vm_compute. done. Qed.

Lemma and_chip_erased : programs_erased and_chip.
Proof.
  intros cr a b _ _ _ Hb. unfold and_chip. f_equal. rewrite Z.land_comm. change 0xff with (Z.ones 8). rewrite Z.land_ones by lia.
  apply Z.mod_small. word_lia.
Qed.

Lemma flash_sector_found_witness :
  is_u32 0x0800ffff ∧
  ((Flash_GetSectorIDForAddr 0x0800ffff = EFATAL ∧ ¬ (FLASH_START ≤ 0x0800ffff < FLASH_END)) ∨
  (∃ s, Flash_GetSectorInfo (Flash_GetSectorIDForAddr 0x0800ffff) = (EOK, Some s) ∧ fs_addr s ≤ 0x0800ffff < fs_addr s + fs_size s ∧
    FLASH_START ≤ fs_addr s ∧ fs_addr s + fs_size s ≤ FLASH_END)).
Proof. split; [word_lia|]. apply (flash_sector_found 0x0800ffff). word_lia. Defined.

(** From the last sector on, one byte too much: it is erased, and an error reported. *)
Lemma flash_erase_range_witness :
  ∃ f', Flash_EraseSectorsForAddressRange 0x08020000 0x20001 demo_flash = Ok (EFATAL, f') ∧ locked f' ∧
    fl_mem f' = put_bytes (fl_mem demo_flash) 0x08020000 (erased 0x08020000 FLASH_END).
Proof.
  destruct (flash_erase_range 5 0x20001 demo_flash) as (f' & E & Hf & Em); [lia|done|word_lia|done|].
  exists f'. split; [exact E|]. split; [exact Hf|]. rewrite Em. rewrite sector_end_above; [reflexivity|]. by vm_compute.
Defined.

Lemma flash_writes_witness :
  ∃ f', Flash_Write and_chip 0x08004000 0x20000000 2 demo_flash = Ok (2, f') ∧ locked f' ∧ fl_mem f' = put_bytes (fl_mem demo_flash) 0x08004000 [1; 2].
Proof.
  pose proof (flash_writes and_chip 0x08004000 0x20000000 [7; 7] [1; 2] demo_flash) as H.
  apply H; [by vm_compute|by vm_compute|done|unfold apart; cbn; lia].
Defined.

(** The register as a reset leaves it. *)
Definition after_reset (f : flash) : flash := mk_flash (fl_mem f) FLASH_CR_LOCK.

Lemma strict_chip_erased : programs_erased strict_chip.
Proof. intros cr a b Hpg Hser Hlk Hb. unfold strict_chip. rewrite Hser. exact (and_chip_erased cr a b Hpg Hser Hlk Hb). Qed.

Lemma flash_roundtrip_witness :
  ∃ f1 f2, Flash_EraseSectorsForAddressRange 0x08004000 3 demo_flash = Ok (EOK, f1) ∧ erase_selected f1 ∧
    Flash_Write strict_chip 0x08004000 0x20000000 3 (after_reset f1) = Ok (3, f2) ∧ Flash_Verify 0x08004000 0x20000000 3 f2 = Ok EOK.
Proof.
  destruct (flash_roundtrip strict_chip 1 0x20000000 [1; 2; 3] demo_flash) as (f1 & E1 & _ & Hs & _ & H).
  - apply strict_chip_erased.
  - done.
  - lia.
  - done.
  - repeat constructor; done.
  - done.
  - by vm_compute.
  - right. by vm_compute.
  - destruct (H (after_reset f1)) as (f2 & E2 & E3 & _); [done|by unfold erase_selected|]. exists f1, f2. by split_and!.
Defined.
