(* ===== verification/TwoWire.v ===== *)
(** * Drivers of chips on the two-wire bus

    The drivers of chips (Eeprom, Chips) are programs over any bus with transfers,
    the class [TwoWire], and over the semaphores and the clock of the board.  Two
    buses are instances: the lines of Swi2c, and one that hands whole bytes to the
    device.  What a driver does with bytes it does over the lines
    ([lines_carry_bytes] and the lemmas on [simulates]); what it does with a chip
    is then shown with bytes only. *)
From S2P Require Import Prelude Words Time Sem Stream Swi2c.

(** ** The interface *)

(** [SwI2C_Transfer]: operation, address, the bytes to write, how many to read. *)
Class TwoWire (S : Type) := { tw_transfer : Z → Z → list Z → nat → prog S (Z * list Z) }.

(** Operations: a write that goes on or not, the rest of one, a read. *)
Definition OPER_WRITE : Z := Z.lor SWI2C_OPER_ADDR SWI2C_OPER_WR.
Definition OPER_WRITE_STOP : Z := Z.lor OPER_WRITE SWI2C_OPER_STOP.
Definition OPER_READ_STOP : Z := Z.lor (Z.lor SWI2C_OPER_ADDR SWI2C_OPER_RD) SWI2C_OPER_STOP.
Definition OPER_REST_STOP : Z := Z.lor SWI2C_OPER_WR SWI2C_OPER_STOP.

(** The byte with the address. *)
Lemma address_bits code rd : 0 ≤ code < 128 → 0 ≤ rd ≤ 1 → u8 (2 * code + rd) / 2 = code ∧ Z.odd (u8 (2 * code + rd)) = (rd =? 1).
Proof.
  intros Hc Hr. rewrite u8_small by word_lia. split; [lia|]. rewrite Z.odd_add, Z.odd_mul. cbn [Z.odd xorb andb].
  assert (rd = 0 ∨ rd = 1) as [-> | ->] by lia; done.
Qed.

(** The semaphores, and the readings of the clock that are to come. *)
Record board := mk_board { bd_sems : sems; bd_clock : list Z }.

Section board.
(** How wide a semaphore is, the task that runs, and what it sees while it waits. *)
Context {T S : Type} (bd : T → board) (set_bd : board → T → T) (sem_bits task_id : Z) (slices : list sem_slice).

Definition get_time : prog (T * S) Z := λ '(t, s),
  match bd_clock (bd t) with
  | now :: clock => Ok (now, (set_bd (mk_board (bd_sems (bd t)) clock) t, s))
  | [] => Fault OutOfFuel
  end.
Definition lock (sem timeout : Z) : prog (T * S) Z := λ '(t, s),
  '(m, ec) ← Sem_Lock sem_bits slices (bd_sems (bd t)) sem timeout task_id; Ok (ec, (set_bd (mk_board m (bd_clock (bd t))) t, s)).
Definition release (sem : Z) : prog (T * S) Z := λ '(t, s),
  '(m, ec) ← Sem_Release sem_bits (bd_sems (bd t)) sem; Ok (ec, (set_bd (mk_board m (bd_clock (bd t))) t, s)).
End board.

(** ** The bus of bytes *)

(** The device, and whether a write waits for the rest of its data. *)
Record bytes (D : Type) := mk_bytes { by_dev : D; by_held : bool }.
Arguments mk_bytes {D} _ _.
Arguments by_dev {D} _.
Arguments by_held {D} _.

Section instances.
Context {D : Type} `{DD : I2CDevice D}.

(** A transfer with an address, or the rest of one; others are not made. *)
Definition bytes_transfer (oper addr : Z) (p : list Z) (size : nat) : prog (bytes D) (Z * list Z) := λ s,
  let wr := has oper SWI2C_OPER_WR in
  if negb (bool_decide (0 ≤ addr < 128 ∧ Forall is_u8 p)) then Fault AssertFailed
  else
    let held ec := (ec =? EOK) && wr && negb (has oper SWI2C_OPER_STOP) in
    if has oper SWI2C_OPER_ADDR then
      if wr || (0 <? size)%nat then let '(ec, bs, d) := dev_transfer oper addr p size (by_dev s) in Ok ((ec, bs), mk_bytes d (held ec))
      else Fault AssertFailed
    else if by_held s && wr && (0 <? length p)%nat then let '(ec, bs, d) := dev_data oper p size (by_dev s) in Ok ((ec, bs), mk_bytes d (held ec))
    else Fault AssertFailed.

#[export] Instance bytes_bus : TwoWire (bytes D) := {| tw_transfer := bytes_transfer |}.
Definition lines_bus (scl_polls : bus D → list (Z * bool)) (junk : Z) : TwoWire (bus D) := {| tw_transfer := SwI2C_Transfer scl_polls junk |}.

(** ** What is done with bytes is done over the lines *)

Definition lines_of (b : bus D) (s : bytes D) : Prop :=
  bs_dev b = by_dev s ∧ at_rest b ∧ (by_held s = true → held (bs_dev b) b).
End instances.

Definition simulates {S1 S2 A} (R : S1 → S2 → Prop) (p1 : prog S1 A) (p2 : prog S2 A) : Prop :=
  ∀ s1 s2 a s2', R s1 s2 → p2 s2 = Ok (a, s2') → ∃ s1', p1 s1 = Ok (a, s1') ∧ R s1' s2'.

Lemma andb_true_iff_3 a b c : a && b && c = true ↔ a = true ∧ b = true ∧ c = true.
Proof. rewrite !andb_true_iff. tauto. Qed.

Lemma lines_carry_bytes {D : Type} `{DD : I2CDevice D} scl_polls junk oper addr p size :
  (∀ b : bus D, stretch SWI2C_TIMEOUT (scl_polls b) = Ok EOK) →
  simulates lines_of (@tw_transfer _ (lines_bus scl_polls junk) oper addr p size) (tw_transfer oper addr p size).
Proof.
  intros Hst b s a s' (Hd & Hr & Hh) E. cbn in E |- *. unfold bytes_transfer in E.
  destruct (bool_decide _) eqn:Eok in E; [|done]. apply bool_decide_eq_true in Eok as [Ha Hp]. cbn [negb] in E.
  destruct (has oper SWI2C_OPER_ADDR) eqn:Eadr.
  - destruct (has oper SWI2C_OPER_WR || (0 <? size)%nat) eqn:Esz; [|done].
    destruct (transfer_bytes scl_polls junk oper addr p size b Hst Hr Ha Hp Eadr) as (ec & bs & b' & E1 & E2 & Hr' & Hf & _).
    { apply orb_true_iff in Esz as [?|?]; [by left|right; by apply Nat.ltb_lt]. }
    rewrite <- Hd, E2 in E. injection E as <- <-. exists b'. split; [done|]. split; [done|]. split; [done|]. cbn [by_held].
    intros (Hec & Hwr & Hno)%andb_true_iff_3. apply Z.eqb_eq in Hec. apply Hf in Hec. rewrite (proj1 (negb_true_iff _) Hno) in Hec. by apply Hec.
  - destruct (by_held s && has oper SWI2C_OPER_WR && (0 <? length p)%nat) eqn:Ec; [|done].
    apply andb_true_iff_3 in Ec as (Hheld & Hwr & Hlen). apply Nat.ltb_lt in Hlen.
    destruct (transfer_goes_on scl_polls junk oper addr p size b Hst (Hh Hheld) Hp) as (ec & bs & b' & E1 & E2 & Hr' & Hf); [destruct p; [cbn in Hlen; lia|done]|done|done|].
    rewrite <- Hd, E2 in E. injection E as <- <-. exists b'. split; [done|]. split; [done|]. split; [done|]. cbn [by_held].
    intros (Hec & _ & Hno)%andb_true_iff_3. apply Z.eqb_eq in Hec. apply Hf in Hec. by rewrite (proj1 (negb_true_iff _) Hno) in Hec.
Qed.

(** ** Programs that follow programs *)

Section simulation.
Context {S1 S2 : Type} (R : S1 → S2 → Prop).

Lemma sim_ret {A} (a : A) : simulates R (mret a : prog S1 A) (mret a : prog S2 A).
Proof. intros s1 s2 a' s2' H E. injection E as <- <-. by exists s1. Qed.

Lemma sim_bind {A B} (p1 : prog S1 A) (p2 : prog S2 A) (q1 : A → prog S1 B) (q2 : A → prog S2 B) :
  simulates R p1 p2 → (∀ a, simulates R (q1 a) (q2 a)) → simulates R (p1 ≫= q1) (p2 ≫= q2).
Proof.
  intros Hp Hq s1 s2 b s2' H E. apply prog_bind_inv in E as (a & s & E1 & E2). destruct (Hp _ _ _ _ H E1) as (s1' & E1' & H').
  destruct (Hq a _ _ _ _ H' E2) as (s1'' & E2' & H''). exists s1''. by rewrite (prog_bind_Ok _ _ _ _ _ E1').
Qed.

Lemma sim_fault {A} e : simulates R (fault e : prog S1 A) (fault e).
Proof. by intros s1 s2 a s2' H E. Qed.

(** Of a state of two parts the first one is the same. *)
Context {T : Type}.
Definition beside (x : T * S1) (y : T * S2) : Prop := x.1 = y.1 ∧ R x.2 y.2.

Lemma sim_get_fst : simulates beside (get_fst : prog (T * S1) T) get_fst.
Proof. intros [t s1] [t' s2] a s2' [[= ->] H] E. injection E as <- <-. eexists. split; [done|]. by split. Qed.
Lemma sim_put_fst (t : T) : simulates beside (put_fst t : prog (T * S1) unit) (put_fst t).
Proof. intros [t1 s1] [t2 s2] a s2' [[= ->] H] E. injection E as <- <-. eexists. split; [done|]. by split. Qed.

Lemma sim_on_snd {A} (p1 : prog S1 A) (p2 : prog S2 A) : simulates R p1 p2 → simulates beside (on_snd p1) (on_snd p2).
Proof.
  intros Hp [t s1] [t' s2] a [t'' s2'] [[= ->] H] E. cbn in E. apply bind_Ok_inv in E as ([a' s'] & E1 & [= <- <- <-]).
  destruct (Hp _ _ _ _ H E1) as (s1' & E1' & H'). exists (t', s1'). cbn in E1' |- *. by rewrite E1'.
Qed.

Context (bd : T → board) (set_bd : board → T → T) (sem_bits task_id : Z) (slices : list sem_slice).

Lemma sim_time : simulates beside (get_time bd set_bd) (get_time bd set_bd).
Proof.
  intros [t s1] [t' s2] a s2' [[= ->] H] E. cbn in E |- *. destruct (bd_clock (bd t')) as [|now clock]; [done|].
  injection E as <- <-. eexists. split; [done|]. by split.
Qed.
Lemma sim_lock sem timeout : simulates beside (lock bd set_bd sem_bits task_id slices sem timeout) (lock bd set_bd sem_bits task_id slices sem timeout).
Proof.
  intros [t s1] [t' s2] a s2' [[= ->] H] E. cbn in E |- *. apply bind_Ok_inv in E as ([m ec] & -> & E). rewrite bind_Ok.
  injection E as <- <-. eexists. split; [done|]. by split.
Qed.
Lemma sim_release sem : simulates beside (release bd set_bd sem_bits sem) (release bd set_bd sem_bits sem).
Proof.
  intros [t s1] [t' s2] a s2' [[= ->] H] E. cbn in E |- *. apply bind_Ok_inv in E as ([m ec] & -> & E). rewrite bind_Ok.
  injection E as <- <-. eexists. split; [done|]. by split.
Qed.
End simulation.

Lemma get_bind {T S A} (f : T → prog (T * S) A) t s : (get_fst ≫= f) (t, s) = f t (t, s).
Proof. done. Qed.
Lemma put_bind {T S A} (f : unit → prog (T * S) A) t t' s : (put_fst t ≫= f) (t', s) = f () (t, s).
Proof. done. Qed.
Lemma ret_bind {S A B} (a : A) (f : A → prog S B) s : (mret a ≫= f) s = f a s.
Proof. done. Qed.

(** A driver is taken apart into transfers and what is done on the board. *)
Ltac follow :=
  repeat match goal with
    | |- simulates _ (mret _) _ => apply sim_ret
    | |- simulates _ (fault _) _ => apply sim_fault
    | |- simulates _ get_fst _ => apply sim_get_fst
    | |- simulates _ (put_fst _) _ => apply sim_put_fst
    | |- simulates _ (get_time _ _) _ => apply sim_time
    | |- simulates _ (lock _ _ _ _ _ _ _) _ => apply sim_lock
    | |- simulates _ (release _ _ _ _) _ => apply sim_release
    | |- simulates _ (_ ≫= _) _ => apply sim_bind; [|intros ?]
    | |- simulates _ (if ?b then _ else _) _ => destruct b
    | |- simulates _ (let '(_, _) := ?p in _) _ => destruct p
    | |- simulates _ (let _ := _ in _) _ => cbv zeta
    end.
