(* ===== verification/Eeprom.v ===== *)
(** * The memory chip (dev/src/eeprom.c, dev/eeprom.h)

    The driver of an EEPROM over any two-wire bus, and the chip as the data sheets
    of its family (24C128) have it: two bytes of address, data that is latched in
    its page and stored after the stop condition, no acknowledge while it stores,
    a pointer that runs on from the last access - within the page when written,
    through the whole memory when read -, and an input that protects it. *)
From S2P Require Import Prelude Words Time Sem Stream Swi2c TwoWire.

(** ** The driver *)

Definition EEPROM_DEV_CODE_MEM : Z := 10.

Record eeprom_dev := mk_eeprom {
  ed_board : board; ed_capacity : Z; ed_page_size : Z; ed_a2a1a0 : Z; ed_mem_addr : Z; ed_mem_addr_valid : Z }.

Definition set_board (bd : board) (d : eeprom_dev) : eeprom_dev :=
  mk_eeprom bd (ed_capacity d) (ed_page_size d) (ed_a2a1a0 d) (ed_mem_addr d) (ed_mem_addr_valid d).
Definition set_known (addr valid : Z) (d : eeprom_dev) : eeprom_dev :=
  mk_eeprom (ed_board d) (ed_capacity d) (ed_page_size d) (ed_a2a1a0 d) addr valid.

(** The word with the address, as it lies in memory. *)
Definition addr_word (offset : Z) : list Z := let w := u16 (HTOBE16 (u16 offset)) in [u8 w; u8 (w / 256)].

Section driver.
Context {W : Type} `{TwoWire W} (set_wp : bool → W → W) (sem_bits task_id sem : Z) (slices : list sem_slice).

Definition EEPROM_SetWriteProtect (enable : bool) : prog (eeprom_dev * W) unit := λ '(d, s), Ok ((), (d, set_wp enable s)).

(** [SwI2C_Transfer] with the address of the chip. *)
Definition EEPROM_MemTransfer (oper : Z) (p : list Z) (size : nat) : prog (eeprom_dev * W) (Z * list Z) :=
  d ← get_fst;
  let addr := Z.lor (Z.shiftl EEPROM_DEV_CODE_MEM 3) (Z.land (ed_a2a1a0 d) 0x7) in
  on_snd (tw_transfer oper addr p size).

Fixpoint poll_loop (fuel : nat) (ts timeout ec : Z) : prog (eeprom_dev * W) Z :=
  match fuel with
  | O => fault OutOfFuel
  | S fuel =>
      ok ← (if timeout =? 0 then mret true else now ← get_time ed_board set_board; mret (dtime now ts <? timeout));
      if (ok : bool) then
        '(ec, _) ← EEPROM_MemTransfer OPER_WRITE_STOP [] 0;
        if EOK <=? ec then mret ec else poll_loop fuel ts timeout ec
      else mret ec
  end.

(** With a timeout every turn reads the clock. *)
Definition EEPROM_PollBusy (timeout : Z) : prog (eeprom_dev * W) Z :=
  ts ← get_time ed_board set_board;
  d ← get_fst; poll_loop (S (length (bd_clock (ed_board d)))) ts timeout EOK.

Definition forget (ec : Z) : prog (eeprom_dev * W) unit :=
  d ← get_fst; put_fst (set_known (ed_mem_addr d) 0 d);; _ ← release ed_board set_board sem_bits sem; mret ().
Definition know (addr : Z) : prog (eeprom_dev * W) unit := d ← get_fst; put_fst (set_known addr 1 d).

Definition write_address (write_addr : bool) (offset ec : Z) : prog (eeprom_dev * W) Z :=
  if write_addr then '(ec, _) ← EEPROM_MemTransfer OPER_WRITE_STOP (addr_word offset) 0; mret ec else mret ec.

Definition read_data (write_addr : bool) (offset : Z) (size : nat) : prog (eeprom_dev * W) (Z * list Z) :=
  ec ← EEPROM_PollBusy 10;
  if ec <? EOK then mret (ec, [])
  else
    ec ← write_address write_addr offset ec;
    if ec <? EOK then mret (ec, [])
    else
      '(ec, bs) ← EEPROM_MemTransfer OPER_READ_STOP [] size;
      if ec <? EOK then mret (ec, bs) else know (offset +u size);; mret (ec, bs).

(** The code, and the bytes read. *)
Definition EEPROM_Read (offset : Z) (size : nat) : prog (eeprom_dev * W) (Z * list Z) :=
  d ← get_fst;
  if ed_capacity d <=? offset +u size then mret (EFATAL, [])
  else
    '(ec, bs) ← read_data ((ed_mem_addr_valid d =? 0) || negb (ed_mem_addr d =? offset)) offset size;
    (if ec <? EOK then forget ec else mret ());;
    mret (if ec <? EOK then ec else s32 size, bs).

Fixpoint write_pages (fuel : nat) (p : list Z) (offset b_written ec : Z) : prog (eeprom_dev * W) (Z * Z * Z) :=
  match fuel with
  | O => fault OutOfFuel
  | S fuel =>
      if b_written <? length p then
        _ ← lock ed_board set_board sem_bits task_id slices sem 0;
        ec ← EEPROM_PollBusy 10;
        if ec <? EOK then mret (ec, b_written, offset)
        else
          '(ec, _) ← EEPROM_MemTransfer OPER_WRITE (addr_word offset) 0;
          if ec <? EOK then mret (ec, b_written, offset)
          else
            d ← get_fst;
            let t_size := Z.min (length p -u b_written) (ed_page_size d -u offset mod ed_page_size d) in
            '(ec, _) ← EEPROM_MemTransfer OPER_REST_STOP (take (Z.to_nat t_size) (drop (Z.to_nat b_written) p)) 0;
            if ec <? EOK then mret (ec, b_written, offset)
            else
              _ ← release ed_board set_board sem_bits sem;
              write_pages fuel p (offset +u t_size) (b_written +u t_size) ec
      else mret (ec, b_written, offset)
  end.

(** Every turn writes a byte at least. *)
Definition EEPROM_Write (offset : Z) (p : list Z) : prog (eeprom_dev * W) Z :=
  d ← get_fst;
  if ed_capacity d <=? offset +u length p then mret EFATAL
  else
    EEPROM_SetWriteProtect false;;
    '(ec, b_written, offset) ← write_pages (S (length p)) p offset 0 EOK;
    (if ec <? EOK then forget ec else know offset);;
    EEPROM_SetWriteProtect true;;
    mret (if ec <? EOK then ec else s32 b_written).

(** The pin is set when it becomes an output. *)
Definition EEPROM_DevInit : prog (eeprom_dev * W) (Z * list Z) :=
  EEPROM_SetWriteProtect true;; EEPROM_Read 0 4.
End driver.

(** The chip on the board. *)
Definition eeprom (bd : board) : eeprom_dev := mk_eeprom bd (16 * 1024) 64 0 0 0.

(** What the driver does with bytes it does over the lines. *)
Section lines.
Context {W1 W2 : Type} `{TwoWire W1} `{TwoWire W2} (R : W1 → W2 → Prop) (wp1 : bool → W1 → W1) (wp2 : bool → W2 → W2).
Context (sem_bits task_id sem : Z) (slices : list sem_slice).
Context (Htransfer : ∀ oper addr p size, simulates R (tw_transfer oper addr p size) (tw_transfer oper addr p size)).
Context (Hwp : ∀ e s1 s2, R s1 s2 → R (wp1 e s1) (wp2 e s2)).

Lemma sim_mem oper p size : simulates (beside R) (EEPROM_MemTransfer oper p size) (EEPROM_MemTransfer oper p size).
Proof. unfold EEPROM_MemTransfer. follow. apply sim_on_snd, Htransfer. Qed.
Lemma sim_wp e : simulates (beside R) (EEPROM_SetWriteProtect wp1 e) (EEPROM_SetWriteProtect wp2 e).
Proof.
  intros [d s1] [d' s2] a s2' [[= ->] HR] E. injection E as <- <-. eexists. split; [done|]. split; [done|]. by apply Hwp.
Qed.
Lemma sim_poll_loop fuel : ∀ ts timeout ec, simulates (beside R) (poll_loop fuel ts timeout ec) (poll_loop fuel ts timeout ec).
Proof.
  induction fuel as [|fuel IH]; intros ts timeout ec; [apply sim_fault|]. cbn [poll_loop]. follow; [apply sim_mem|]. follow. apply IH.
Qed.
Lemma sim_poll timeout : simulates (beside R) (EEPROM_PollBusy timeout) (EEPROM_PollBusy timeout).
Proof. unfold EEPROM_PollBusy. follow. apply sim_poll_loop. Qed.

Lemma sim_read offset size : simulates (beside R) (EEPROM_Read sem_bits sem offset size) (EEPROM_Read sem_bits sem offset size).
Proof.
  unfold EEPROM_Read, read_data, write_address, forget, know. follow; try apply sim_poll; follow; try apply sim_mem; follow; apply sim_mem.
Qed.

Lemma sim_pages fuel p : ∀ offset b ec,
  simulates (beside R) (write_pages sem_bits task_id sem slices fuel p offset b ec) (write_pages sem_bits task_id sem slices fuel p offset b ec).
Proof.
  induction fuel as [|fuel IH]; intros offset b ec; [apply sim_fault|]. cbn [write_pages].
  follow; try apply sim_poll; follow; try apply sim_mem; follow; try apply sim_mem; follow. apply IH.
Qed.
Lemma sim_write offset p :
  simulates (beside R) (EEPROM_Write wp1 sem_bits task_id sem slices offset p) (EEPROM_Write wp2 sem_bits task_id sem slices offset p).
Proof. unfold EEPROM_Write, forget, know. follow; try apply sim_wp; follow; try apply sim_pages; follow; apply sim_wp. Qed.
End lines.

(** ** The chip *)

Inductive chip_mode := Off | Addressed | High | Low (hi : Z) | Data | Reading.

(** [ch_twr] is how often it does not answer while it stores. *)
Record chip := mk_chip {
  ch_code : Z; ch_page : nat; ch_twr : nat; ch_wp : bool;
  ch_mem : list Z; ch_ptr : nat; ch_mode : chip_mode; ch_latch : list (nat * Z); ch_busy : nat }.

Definition in_mode (m : chip_mode) (c : chip) : chip :=
  mk_chip (ch_code c) (ch_page c) (ch_twr c) (ch_wp c) (ch_mem c) (ch_ptr c) m (ch_latch c) (ch_busy c).
Definition at_ptr (ptr : nat) (m : chip_mode) (c : chip) : chip :=
  mk_chip (ch_code c) (ch_page c) (ch_twr c) (ch_wp c) (ch_mem c) ptr m (ch_latch c) (ch_busy c).

(** The next byte of the page. *)
Definition page_next (page ptr : nat) : nat := if (S ptr mod page =? 0)%nat then (S ptr - page)%nat else S ptr.

Definition store_latch (l : list (nat * Z)) (m : list Z) : list Z := foldl (λ m '(a, b), <[a := b]> m) m l.

Definition chip_take (c : chip) (b : Z) : bool * chip :=
  match ch_mode c with
  | Addressed =>
      if b / 2 =? ch_code c then
        match ch_busy c with
        | S busy => (false, mk_chip (ch_code c) (ch_page c) (ch_twr c) (ch_wp c) (ch_mem c) (ch_ptr c) Off (ch_latch c) busy)
        | O => (true, in_mode (if Z.odd b then Reading else High) c)
        end
      else (false, in_mode Off c)
  | High => (true, in_mode (Low b) c)
  | Low hi => (true, at_ptr (Z.to_nat (hi * 256 + b) mod length (ch_mem c)) Data c)
  | Data =>
      (true, mk_chip (ch_code c) (ch_page c) (ch_twr c) (ch_wp c) (ch_mem c) (page_next (ch_page c) (ch_ptr c)) Data
        (ch_latch c ++ [(ch_ptr c, b)]) (ch_busy c))
  | _ => (false, c)
  end.

Definition chip_stop (c : chip) : chip :=
  if (length (ch_latch c) =? 0)%nat || ch_wp c then
    mk_chip (ch_code c) (ch_page c) (ch_twr c) (ch_wp c) (ch_mem c) (ch_ptr c) Off [] (ch_busy c)
  else
    mk_chip (ch_code c) (ch_page c) (ch_twr c) (ch_wp c) (store_latch (ch_latch c) (ch_mem c)) (ch_ptr c) Off [] (ch_twr c).

#[export] Instance chip_device : I2CDevice chip := {|
  dev_start c := mk_chip (ch_code c) (ch_page c) (ch_twr c) (ch_wp c) (ch_mem c) (ch_ptr c) Addressed [] (ch_busy c);
  dev_take := chip_take;
  dev_give c := default 0xff (ch_mem c !! ch_ptr c);
  dev_given c more := at_ptr (S (ch_ptr c) mod length (ch_mem c)) (ch_mode c) c;
  dev_stop := chip_stop |}.

Definition protect (e : bool) (c : chip) : chip :=
  mk_chip (ch_code c) (ch_page c) (ch_twr c) e (ch_mem c) (ch_ptr c) (ch_mode c) (ch_latch c) (ch_busy c).

(** The pin of the chip, on the lines and on the bus of bytes. *)
Definition protect_lines (e : bool) (b : bus chip) : bus chip := mk_bus (bs_scl b) (bs_sda b) (bs_phase b) (protect e (bs_dev b)).
Definition protect_bytes (e : bool) (s : bytes chip) : bytes chip := mk_bytes (protect e (by_dev s)) (by_held s).

(** A chip nobody talks to. *)
Definition quiet (code : Z) (page twr : nat) (wp : bool) (m : list Z) (ptr busy : nat) : chip := mk_chip code page twr wp m ptr Off [] busy.

(** ** Transfers with the chip *)

Section transfers.
Context (code : Z) (page twr : nat) (Hcode : 0 ≤ code < 128).

Lemma poll_busy wp m ptr busy :
  dev_transfer OPER_WRITE_STOP code [] 0 (quiet code page twr wp m ptr (S busy)) = (EI2C_ADDR, [], quiet code page twr wp m ptr busy).
Proof.
  unfold dev_transfer. change (has OPER_WRITE_STOP SWI2C_OPER_WR) with true. cbn [dev_start dev_take chip_device chip_take quiet ch_mode].
  destruct (address_bits code 0 Hcode ltac:(lia)) as [-> _]. cbn. by rewrite Z.eqb_refl.
Qed.

Lemma transfer_taken oper wp m ptr p size :
  dev_transfer oper code p size (quiet code page twr wp m ptr 0) =
  dev_data oper p size (mk_chip code page twr wp m ptr (if has oper SWI2C_OPER_WR then High else Reading) [] 0).
Proof.
  unfold dev_transfer. cbn [dev_start dev_take chip_device chip_take quiet ch_mode ch_code ch_busy].
  destruct (has oper SWI2C_OPER_WR).
  - destruct (address_bits code 0 Hcode ltac:(lia)) as [-> ->]. by rewrite Z.eqb_refl.
  - destruct (address_bits code 1 Hcode ltac:(lia)) as [-> ->]. by rewrite Z.eqb_refl.
Qed.

Lemma poll_free wp m ptr :
  dev_transfer OPER_WRITE_STOP code [] 0 (quiet code page twr wp m ptr 0) = (EOK, [], quiet code page twr wp m ptr 0).
Proof. by rewrite transfer_taken. Qed.

Lemma addressed oper wp m ptr offset :
  has oper SWI2C_OPER_WR = true → 0 ≤ offset < length m → length m ≤ 65536 →
  dev_transfer oper code (addr_word offset) 0 (quiet code page twr wp m ptr 0) =
  (EOK, [], if has oper SWI2C_OPER_STOP then quiet code page twr wp m (Z.to_nat offset) 0 else mk_chip code page twr wp m (Z.to_nat offset) Data [] 0).
Proof.
  intros Hwr Ho Hm. rewrite transfer_taken, Hwr. unfold dev_data, addr_word. rewrite Hwr.
  cbn [dev_write dev_take chip_device chip_take ch_mode in_mode at_ptr ch_mem].
  assert (Z.to_nat (u8 (u16 (HTOBE16 (u16 offset))) * 256 + u8 (u16 (HTOBE16 (u16 offset)) / 256)) mod length m = Z.to_nat offset)%nat as ->.
  { rewrite HTOBE16_bytes. rewrite !(u16_small offset) by word_lia. unfold byte. rewrite Nat.mod_small; [f_equal|]; word_lia. }
  unfold dev_finish. by destruct (has oper SWI2C_OPER_STOP).
Qed.
End transfers.

(** ** Data in a page, and data read *)

Lemma splice_cons m k b bs : (k < length m)%nat → splice (<[k:=b]> m) (S k) bs = splice m k (b :: bs).
Proof.
  intros H. unfold splice. rewrite insert_take_drop by done. rewrite take_app_ge by (rewrite length_take; lia).
  rewrite length_take_le by lia. replace (S k - k)%nat with 1%nat by lia. cbn [take]. rewrite take_0.
  rewrite drop_app_ge by (rewrite length_take; lia). rewrite length_take_le by lia. rewrite <- (app_assoc (take k m)). cbn [app]. do 3 f_equal.
  replace (S k + length bs - k)%nat with (S (length bs)) by lia. cbn [drop length]. rewrite drop_drop. f_equal. lia.
Qed.

Lemma splice_nil m k : splice m k [] = m.
Proof. unfold splice. cbn. rewrite Nat.add_0_r. apply take_drop. Qed.

Lemma splice_behind m k l1 l2 : (k + length l1 + length l2 ≤ length m)%nat → splice (splice m k l1) (k + length l1) l2 = splice m k (l1 ++ l2).
Proof.
  intros H. unfold splice. rewrite take_app_ge by (rewrite length_take; lia). rewrite length_take_le by lia.
  replace (k + length l1 - k)%nat with (length l1) by lia. rewrite take_app_length, <- !app_assoc. do 3 f_equal.
  rewrite drop_app_ge by (rewrite length_take; lia). rewrite length_take_le by lia. rewrite drop_app_ge by lia.
  rewrite drop_drop, length_app. f_equal. lia.
Qed.

Lemma page_next_in page ptr : (0 < page)%nat → (ptr mod page + 1 < page)%nat → page_next page ptr = S ptr ∧ (S ptr mod page = ptr mod page + 1)%nat.
Proof.
  intros Hp H. assert (S ptr mod page = ptr mod page + 1)%nat as E.
  { pose proof (Nat.div_mod_eq ptr page). symmetry. apply (Nat.mod_unique _ _ (ptr / page)); lia. }
  split; [|done]. unfold page_next. rewrite E. destruct (Nat.eqb_spec (ptr mod page + 1) 0); [lia|done].
Qed.

Fixpoint page_after (page ptr n : nat) : nat := match n with O => ptr | S n => page_after page (page_next page ptr) n end.

(** The pointer behind data that does not reach the end of the page. *)
Lemma page_after_in page n : ∀ ptr, (0 < page)%nat → (ptr mod page + n < page)%nat → page_after page ptr n = (ptr + n)%nat.
Proof.
  induction n as [|n IH]; intros ptr Hp H; cbn [page_after]; [lia|].
  destruct (page_next_in page ptr Hp ltac:(lia)) as [-> E]. rewrite IH; [lia|done|rewrite E; lia].
Qed.

Section data.
Context (code : Z) (page twr : nat) (Hpage : (0 < page)%nat).

Lemma latched wp m bs : ∀ ptr l, (ptr mod page + length bs ≤ page)%nat →
  dev_write bs (mk_chip code page twr wp m ptr Data l 0) =
  (EOK, mk_chip code page twr wp m (page_after page ptr (length bs)) Data (l ++ zip (seq ptr (length bs)) bs) 0).
Proof.
  induction bs as [|b bs IH]; intros ptr l H; [by rewrite app_nil_r|].
  cbn [dev_write dev_take chip_device chip_take ch_mode ch_code ch_page ch_twr ch_wp ch_mem ch_ptr ch_latch ch_busy length page_after seq zip zip_with].
  cbn [length] in H. destruct (decide (bs = [])) as [->|Hne]; [done|].
  assert (0 < length bs)%nat by (destruct bs; [done|cbn; lia]).
  destruct (page_next_in page ptr Hpage ltac:(lia)) as [-> E]. rewrite IH by (rewrite E; lia). by rewrite <- app_assoc.
Qed.

Lemma latch_stored bs : ∀ m ptr, (ptr + length bs ≤ length m)%nat → store_latch (zip (seq ptr (length bs)) bs) m = splice m ptr bs.
Proof.
  unfold store_latch. induction bs as [|b bs IH]; intros m ptr H; [by rewrite splice_nil|]. cbn [length seq zip zip_with foldl] in *.
  rewrite IH by (rewrite length_insert; lia). apply splice_cons. lia.
Qed.

(** The data of a page, written behind its address. *)
Lemma page_stored m ptr bs :
  bs ≠ [] → (ptr mod page + length bs ≤ page)%nat → (ptr + length bs ≤ length m)%nat →
  dev_data OPER_REST_STOP bs 0 (mk_chip code page twr false m ptr Data [] 0) =
  (EOK, [], quiet code page twr false (splice m ptr bs) (page_after page ptr (length bs)) twr).
Proof.
  intros Hne Hp Hm. unfold dev_data. change (has OPER_REST_STOP SWI2C_OPER_WR) with true. cbv iota. rewrite latched by done. cbn [app].
  change (EOK =? EOK) with true. cbv iota. unfold dev_finish. change (has OPER_REST_STOP SWI2C_OPER_STOP) with true. cbv iota.
  cbn [dev_stop chip_device]. unfold chip_stop. cbn [ch_code ch_page ch_twr ch_wp ch_mem ch_ptr ch_latch ch_busy].
  rewrite latch_stored by done. destruct bs; done.
Qed.

Lemma bytes_read wp m n : ∀ ptr, Forall is_u8 m → (ptr + n ≤ length m)%nat → (0 < n)%nat →
  dev_read n (mk_chip code page twr wp m ptr Reading [] 0) =
  (take n (drop ptr m), mk_chip code page twr wp m ((ptr + n) mod length m) Reading [] 0).
Proof.
  induction n as [|n IH]; intros ptr Hm H Hn; [lia|]. cbn [dev_read dev_give dev_given chip_device ch_ptr ch_mem ch_mode].
  destruct (lookup_lt_is_Some_2 m ptr ltac:(lia)) as [b Hb]. rewrite Hb. cbn [default]. rewrite (drop_S m b ptr) by done. cbn [take].
  rewrite u8_small by (rewrite Forall_lookup in Hm; by eapply Hm).
  destruct n as [|n]; [by rewrite Nat.add_1_r|]. rewrite Nat.mod_small by lia. unfold at_ptr. cbn [ch_code ch_page ch_twr ch_wp ch_mem ch_latch ch_busy].
  rewrite IH by (done || lia). by replace (S ptr + S n)%nat with (ptr + S (S n))%nat by lia.
Qed.

Lemma chip_read (Hcode : 0 ≤ code < 128) wp m ptr n :
  Forall is_u8 m → (ptr + n ≤ length m)%nat → (0 < n)%nat →
  dev_transfer OPER_READ_STOP code [] n (quiet code page twr wp m ptr 0) =
  (EOK, take n (drop ptr m), quiet code page twr wp m ((ptr + n) mod length m) 0).
Proof.
  intros Hm H Hn. rewrite transfer_taken by done. change (has OPER_READ_STOP SWI2C_OPER_WR) with false. cbv iota.
  unfold dev_data. change (has OPER_READ_STOP SWI2C_OPER_WR) with false. cbv iota. by rewrite bytes_read.
Qed.
End data.

(** ** The driver and the chip *)

Section with_chip.
Context (sem_bits task_id sem : Z) (slices : list sem_slice).
Context (page twr : nat) (Hpage : (0 < page)%nat).

Definition chip_code (d : eeprom_dev) : Z := Z.lor (Z.shiftl EEPROM_DEV_CODE_MEM 3) (Z.land (ed_a2a1a0 d) 0x7).

Lemma code_range d : 0 ≤ chip_code d < 128.
Proof.
  unfold chip_code. change 0x7 with (Z.ones 3). rewrite Z.land_ones by lia. pose proof (Z.mod_pos_bound (ed_a2a1a0 d) (2 ^ 3) ltac:(lia)) as H.
  assert (∃ k : nat, (k < 8)%nat ∧ ed_a2a1a0 d mod 2 ^ 3 = k) as (k & Hk & ->) by (exists (Z.to_nat (ed_a2a1a0 d mod 2 ^ 3)); lia).
  do 8 (destruct k as [|k]; [by vm_compute|]). lia.
Qed.

(** The chip of the board while nobody talks to it. *)
Definition idle_chip (d : eeprom_dev) (wp : bool) (m : list Z) (ptr busy : nat) (held : bool) : bytes chip :=
  mk_bytes (quiet (chip_code d) page twr wp m ptr busy) held.

Lemma mem_addressed oper p size d c held :
  has oper SWI2C_OPER_ADDR = true → has oper SWI2C_OPER_WR = true ∨ (0 < size)%nat → Forall is_u8 p →
  EEPROM_MemTransfer oper p size (d, mk_bytes c held) =
  let '(ec, bs, c) := dev_transfer oper (chip_code d) p size c in
  Ok ((ec, bs), (d, mk_bytes c ((ec =? EOK) && has oper SWI2C_OPER_WR && negb (has oper SWI2C_OPER_STOP)))).
Proof.
  intros Ha Hs Hp. unfold EEPROM_MemTransfer. rewrite get_bind. fold (chip_code d). cbv zeta. unfold on_snd.
  cbn [tw_transfer bytes_bus]. unfold bytes_transfer. rewrite bool_decide_true by (split; [apply code_range|done]). cbn [negb].
  rewrite Ha. replace (has oper SWI2C_OPER_WR || (0 <? size)%nat) with true.
  2:{ destruct Hs as [-> |Hs]; [done|]. apply Nat.ltb_lt in Hs as ->. by rewrite orb_true_r. }
  cbn [by_dev]. by destruct (dev_transfer _ _ _ _ _) as [[ec bs] c'].
Qed.

Lemma mem_rest p d c :
  p ≠ [] → Forall is_u8 p →
  EEPROM_MemTransfer OPER_REST_STOP p 0 (d, mk_bytes c true) =
  let '(ec, bs, c) := dev_data OPER_REST_STOP p 0 c in Ok ((ec, bs), (d, mk_bytes c false)).
Proof.
  intros Hne Hp. unfold EEPROM_MemTransfer. rewrite get_bind. fold (chip_code d). cbv zeta. unfold on_snd.
  cbn [tw_transfer bytes_bus]. unfold bytes_transfer. rewrite bool_decide_true by (split; [apply code_range|done]). cbn [negb].
  change (has OPER_REST_STOP SWI2C_OPER_ADDR) with false. change (has OPER_REST_STOP SWI2C_OPER_WR) with true. cbn [by_held andb].
  destruct p as [|b p]; [done|]. cbn [length Nat.ltb Nat.leb by_dev].
  change (has OPER_REST_STOP SWI2C_OPER_STOP) with true. destruct (dev_data _ _ _ _) as [[ec bs] c']. cbn [negb]. by rewrite andb_false_r.
Qed.

(** The readings of the clock while the chip is polled for one store - the first
    and those of the turns - lie less than ten ticks apart. *)
Definition short_polls (clock : list Z) : Prop :=
  ∀ i j ts now, (i < j ≤ i + S twr)%nat → clock !! i = Some ts → clock !! j = Some now → dtime now ts < 10.

Lemma short_polls_left used clock : short_polls (used ++ clock) → short_polls clock.
Proof.
  intros H i j ts now Hij Hi Hj. apply (H (length used + i)%nat (length used + j)%nat ts now); [lia|..];
    rewrite lookup_app_r by lia; rewrite <- ?Hi, <- ?Hj; f_equal; lia.
Qed.
Lemma short_polls_drop k clock : short_polls clock → short_polls (drop k clock).
Proof. intros H. apply (short_polls_left (take k clock)). by rewrite take_drop. Qed.

Definition with_clock (clock : list Z) (d : eeprom_dev) : eeprom_dev := set_board (mk_board (bd_sems (ed_board d)) clock) d.

Lemma time_bind {A} (f : Z → prog (eeprom_dev * bytes chip) A) d s now clock : bd_clock (ed_board d) = now :: clock →
  (get_time ed_board set_board ≫= f) (d, s) = f now (with_clock clock d, s).
Proof. intros E. apply prog_bind_Ok. unfold get_time. by rewrite E. Qed.

Lemma poll_turn fuel ts ec d now clock wp m ptr busy held :
  bd_clock (ed_board d) = now :: clock → dtime now ts < 10 →
  poll_loop (S fuel) ts 10 ec (d, idle_chip d wp m ptr busy held) =
  match busy with
  | O => Ok (EOK, (with_clock clock d, idle_chip d wp m ptr 0 false))
  | S busy => poll_loop fuel ts 10 EI2C_ADDR (with_clock clock d, idle_chip d wp m ptr busy false)
  end.
Proof.
  intros Ec Ht. cbn [poll_loop]. change (10 =? 0) with false. cbv iota.
  rewrite (prog_bind_Ok _ _ _ true (with_clock clock d, idle_chip d wp m ptr busy held)).
  2:{ rewrite (time_bind _ d _ now clock Ec). unfold mret, prog_ret. by rewrite (proj2 (Z.ltb_lt _ _) Ht). }
  cbv iota. pose proof (mem_addressed OPER_WRITE_STOP [] 0 (with_clock clock d) (quiet (chip_code d) page twr wp m ptr busy) held eq_refl (or_introl eq_refl) (Forall_nil_2 _)) as E.
  change (chip_code (with_clock clock d)) with (chip_code d) in E. destruct busy as [|busy].
  - rewrite poll_free in E by apply code_range. by rewrite (prog_bind_Ok _ _ _ _ _ E).
  - rewrite poll_busy in E by apply code_range. by rewrite (prog_bind_Ok _ _ _ _ _ E).
Qed.

Lemma poll_loop_ok busy : ∀ fuel ts ec d clock wp m ptr held,
  bd_clock (ed_board d) = clock → (∀ j now, (j ≤ busy)%nat → clock !! j = Some now → dtime now ts < 10) → (busy < length clock)%nat → (busy < fuel)%nat →
  poll_loop fuel ts 10 ec (d, idle_chip d wp m ptr busy held) =
  Ok (EOK, (with_clock (drop (S busy) clock) d, idle_chip d wp m ptr 0 false)).
Proof.
  induction busy as [|busy IH]; intros fuel ts ec d clock wp m ptr held Ec Hc Hl Hf.
  all: destruct fuel as [|fuel]; [lia|]; destruct clock as [|now clock]; [cbn in Hl; lia|].
  all: rewrite (poll_turn _ _ _ _ now clock) by first [done | apply (Hc 0%nat); [lia|done]].
  { done. }
  cbn [length] in Hl. change (idle_chip d) with (idle_chip (with_clock clock d)).
  rewrite (IH fuel ts EI2C_ADDR (with_clock clock d) clock wp m ptr false eq_refl); [done| |lia|lia].
  intros j x Hj Hx. apply (Hc (S j)); [lia|done].
Qed.

Lemma poll_ok d clock wp m ptr busy held :
  bd_clock (ed_board d) = clock → short_polls clock → (busy ≤ twr)%nat → (busy + 1 < length clock)%nat →
  EEPROM_PollBusy 10 (d, idle_chip d wp m ptr busy held) =
  Ok (EOK, (with_clock (drop (busy + 2) clock) d, idle_chip d wp m ptr 0 false)).
Proof.
  intros Ec Hc Hb Hl. destruct clock as [|ts clock]; [cbn in Hl; lia|]. cbn [length] in Hl. unfold EEPROM_PollBusy.
  rewrite (time_bind _ d _ ts clock Ec). rewrite get_bind.
  cbn [ed_board with_clock set_board bd_clock].
  change (idle_chip d wp m ptr busy) with (idle_chip (with_clock clock d) wp m ptr busy).
  rewrite (poll_loop_ok busy _ ts EOK (with_clock clock d) clock wp m ptr held eq_refl); [|intros j now Hj Hnow; apply (Hc 0%nat (S j)); [lia|done|done]|lia|lia].
  by replace (busy + 2)%nat with (S (S busy)) by lia.
Qed.

(** *** Writing *)

(** Nobody holds the bus, whose semaphore exists. *)
Definition bus_free (d : eeprom_dev) : Prop := bd_sems (ed_board d) !! sem = Some 0 ∧ slices ≠ [].

Definition with_sems (m : sems) (d : eeprom_dev) : eeprom_dev := set_board (mk_board m (bd_clock (ed_board d))) d.

Definition taken (d : eeprom_dev) : eeprom_dev := with_sems (<[sem := task_id mod 2 ^ sem_bits]> (bd_sems (ed_board d))) d.

Lemma lock_bind {A} (f : Z → prog (eeprom_dev * bytes chip) A) d s : bus_free d →
  (lock ed_board set_board sem_bits task_id slices sem 0 ≫= f) (d, s) = f EOK (taken d, s).
Proof.
  intros [Hs Hl]. apply prog_bind_Ok. unfold lock, Sem_Lock. destruct slices as [|sl sls]; [done|]. cbn [lock_loop]. unfold lock_try, sem_get. by rewrite Hs, bind_Ok; cbn; unfold sem_set; rewrite Hs.
Qed.

(** Given back with another reading of the clock. *)
Lemma release_bind {A} (f : Z → prog (eeprom_dev * bytes chip) A) d clock s : bus_free d →
  (release ed_board set_board sem_bits sem ≫= f) (with_clock clock (taken d), s) = f EOK (with_clock clock d, s).
Proof.
  intros [Hs _]. apply prog_bind_Ok. unfold release, Sem_Release, sem_set. cbn [with_clock taken with_sems set_board ed_board bd_sems bd_clock].
  rewrite lookup_insert_eq, bind_Ok. cbn. rewrite insert_insert_eq. rewrite Zmod_0_l, insert_id by done. by destruct d.
Qed.

(** The board has a chip of this page size, of at most 64 kbytes. *)
Definition fits_chip (d : eeprom_dev) (m : list Z) : Prop :=
  ed_page_size d = page ∧ ed_capacity d = length m ∧ page ≤ length m ≤ 65536.

Lemma addr_word_bytes offset : Forall is_u8 (addr_word offset).
Proof. unfold addr_word. repeat constructor; apply u8_range. Qed.

Lemma page_turn fuel p offset b ec d clock m ptr busy held :
  fits_chip d m → bus_free d → bd_clock (ed_board d) = clock → short_polls clock → (busy ≤ twr)%nat → (busy + 1 < length clock)%nat →
  Forall is_u8 p → 0 ≤ b < length p → length p ≤ 65536 → 0 ≤ offset → offset + (length p - b) < length m →
  let n := Z.min (length p - b) (page - offset mod page) in
  0 < n ∧ write_pages sem_bits task_id sem slices (S fuel) p offset b ec (d, idle_chip d false m ptr busy held) =
  write_pages sem_bits task_id sem slices fuel p (offset + n) (b + n) EOK
    (with_clock (drop (busy + 2) clock) d,
     idle_chip d false (splice m (Z.to_nat offset) (take (Z.to_nat n) (drop (Z.to_nat b) p))) (page_after page (Z.to_nat offset) (Z.to_nat n)) twr false).
Proof.
  intros (Hps & Hcap & Hm) Hfree Ec Hc Hbusy Hl Hp Hb Hlen Ho Hend n. pose proof (Z.mod_pos_bound offset page ltac:(lia)) as Hmod. assert (0 < n ∧ n ≤ length p - b) as [Hn0 Hn] by lia. split; [done|].
  cbn [write_pages]. destruct (Z.ltb_spec b (length p)); [|lia]. rewrite lock_bind by done.
  change (idle_chip d) with (idle_chip (taken d)). rewrite (prog_bind_Ok _ _ _ _ _ (poll_ok (taken d) clock false m ptr busy held Ec Hc Hbusy Hl)).
  change (EOK <? EOK) with false. cbv iota. set (d1 := with_clock (drop (busy + 2) clock) (taken d)).
  change (idle_chip (taken d)) with (idle_chip d1). unfold idle_chip at 1.
  pose proof (mem_addressed OPER_WRITE (addr_word offset) 0 d1 (quiet (chip_code d1) page twr false m ptr 0) false eq_refl (or_introl eq_refl) (addr_word_bytes offset)) as E.
  rewrite addressed in E by (done || apply code_range || lia). rewrite (prog_bind_Ok _ _ _ _ _ E). clear E.
  change (has OPER_WRITE SWI2C_OPER_STOP) with false. change (has OPER_WRITE SWI2C_OPER_WR) with true. change (EOK <? EOK) with false. cbv beta iota.
  rewrite get_bind. change (ed_page_size d1) with (ed_page_size d). rewrite Hps. rewrite (u32_small (length p - b)), (u32_small (page - offset mod page)) by word_lia.
  fold n. cbv zeta. rewrite (u32_small (offset + n)), (u32_small (b + n)) by (clearbody n; word_lia). change ((EOK =? EOK) && true && negb false) with true.
  set (bs := take (Z.to_nat n) (drop (Z.to_nat b) p)).
  assert (length bs = Z.to_nat n) as Hbs by (unfold bs; rewrite length_take, length_drop; lia).
  assert (bs ≠ []) as Hne by (intros E; rewrite E in Hbs; cbn in Hbs; lia).
  pose proof (mem_rest bs d1 (mk_chip (chip_code d1) page twr false m (Z.to_nat offset) Data [] 0) Hne ltac:(by apply Forall_take, Forall_drop)) as E.
  assert ((Z.to_nat offset mod page)%nat = Z.to_nat (offset mod page)) as Em by (rewrite Z2Nat.inj_mod, Nat2Z.id by lia; done).
  rewrite page_stored in E by (done || lia). rewrite (prog_bind_Ok _ _ _ _ _ E). clear E. change (EOK <? EOK) with false. cbv beta iota.
  unfold d1 at 1. rewrite release_bind by done. by rewrite Hbs.
Qed.

(** The pointer of the chip is where the data ends, unless a page ends there. *)
Definition ends_at (fin : Z) (ptr : nat) : Prop := fin mod page ≠ 0 → ptr = Z.to_nat fin.

Lemma not_page_end offset n : 0 ≤ offset → 0 < n ≤ page - offset mod page → (offset + n) mod page ≠ 0 → n < page - offset mod page.
Proof.
  intros Ho Hn H. destruct (decide (n = page - offset mod page)) as [E|E]; [|lia]. destruct H. rewrite E.
  replace (offset + (page - offset mod page)) with ((offset / page + 1) * page); [by apply Z.mod_mul; lia|].
  pose proof (Z.div_mod offset page ltac:(lia)). lia.
Qed.

Lemma clock_left (used1 used2 clock clock' : list Z) k1 k2 :
  (length used1 ≤ k1)%nat → (length used2 ≤ k2)%nat → clock = used2 ++ clock' →
  ∃ used, used1 ++ clock = used ++ clock' ∧ (length used ≤ k1 + k2)%nat.
Proof. intros H1 H2 ->. exists (used1 ++ used2). rewrite <- app_assoc, length_app. split; [done|lia]. Qed.

Lemma turn_cost k x y : (y < x)%nat → (k * y + k ≤ k * x)%nat.
Proof. nia. Qed.

Lemma pages_written (fuel : nat) : ∀ p offset b ec d clock m ptr busy held,
  fits_chip d m → bus_free d → bd_clock (ed_board d) = clock → short_polls clock → Forall is_u8 p →
  0 ≤ b ≤ length p → length p ≤ 65536 → 0 ≤ offset → offset + (length p - b) < length m → (busy ≤ twr)%nat → EOK ≤ ec →
  ((twr + 2) * (length p - Z.to_nat b) ≤ length clock)%nat → length p - b < fuel →
  ∃ used clock' ptr' busy' held' ec',
    write_pages sem_bits task_id sem slices fuel p offset b ec (d, idle_chip d false m ptr busy held) =
    Ok ((ec', Z.of_nat (length p), offset + (length p - b)),
        (with_clock clock' d, idle_chip d false (splice m (Z.to_nat offset) (drop (Z.to_nat b) p)) ptr' busy' held')) ∧
    EOK ≤ ec' ∧ (busy' ≤ twr)%nat ∧ clock = used ++ clock' ∧ (length used ≤ (twr + 2) * (length p - Z.to_nat b))%nat ∧
    (if decide (b = length p) then ptr' = ptr else ends_at (offset + (length p - b)) ptr').
Proof.
  induction fuel as [|fuel IH]; intros p offset b ec d clock m ptr busy held Hfit Hfree Ec Hc Hp Hb Hlen Ho Hend Hbusy Hec Hcl Hfuel; [lia|].
  destruct (decide (b = length p)) as [->|Hne].
  { exists [], clock, ptr, busy, held, ec. split; [|split_and!; try done; cbn; lia]. cbn [write_pages]. destruct (Z.ltb_spec (length p) (length p)); [lia|].
    rewrite Z.sub_diag, Z.add_0_r, Nat2Z.id, drop_ge, splice_nil by lia. unfold with_clock. rewrite <- Ec. by destruct d as [[]]. }
  pose proof (turn_cost (twr + 2) (length p - Z.to_nat b) 0 ltac:(lia)) as Hcost0.
  destruct (page_turn fuel p offset b ec d clock m ptr busy held Hfit Hfree Ec Hc Hbusy) as [Hn ->]; [lia|done|lia|done|done|done|].
  set (n := Z.min (length p - b) (page - offset mod page)) in *. set (bs := take (Z.to_nat n) (drop (Z.to_nat b) p)).
  set (d' := with_clock (drop (busy + 2) clock) d). assert (n ≤ length p - b ∧ n ≤ page - offset mod page) as [Hn1 Hn2] by lia.
  pose proof (turn_cost (twr + 2) (length p - Z.to_nat b) (length p - Z.to_nat (b + n)) ltac:(lia)) as Hcost.
  assert (length bs = Z.to_nat n) as Hbs by (unfold bs; rewrite length_take, length_drop; lia).
  assert (length (splice m (Z.to_nat offset) bs) = length m) as Hm by (apply splice_length; lia).
  destruct (IH p (offset + n) (b + n) EOK d' (drop (busy + 2) clock) (splice m (Z.to_nat offset) bs) (page_after page (Z.to_nat offset) (Z.to_nat n)) twr false)
    as (used & clock' & ptr' & busy' & held' & ec' & E & Hec' & Hb' & Hu & Hlu & Hptr); [..|].
  all: try (rewrite ?Hm; first [done | lia]).
  { unfold fits_chip in *. by rewrite Hm. }
  { by apply short_polls_drop. }
  { rewrite length_drop. lia. }
  change (idle_chip d) with (idle_chip d'). rewrite E. clear E.
  destruct (clock_left (take (busy + 2) clock) used (drop (busy + 2) clock) clock' (twr + 2) _ ltac:(rewrite length_take; lia) Hlu Hu) as (used' & Eu & Hlu').
  rewrite take_drop in Eu. exists used', clock', ptr', busy', held', ec'.
  replace (offset + n + (length p - (b + n))) with (offset + (length p - b)) in * by lia.
  assert (splice (splice m (Z.to_nat offset) bs) (Z.to_nat (offset + n)) (drop (Z.to_nat (b + n)) p) = splice m (Z.to_nat offset) (drop (Z.to_nat b) p)) as ->.
  { replace (Z.to_nat (offset + n)) with (Z.to_nat offset + length bs)%nat by lia. rewrite splice_behind by (rewrite length_drop; lia).
    f_equal. replace (Z.to_nat (b + n)) with (Z.to_nat b + Z.to_nat n)%nat by lia. unfold bs. by rewrite <- drop_drop, take_drop. }
  split_and!; try done; [lia|]. destruct (decide (b + n = length p)) as [El|El]; [|done].
  rewrite Hptr. intros Hpe. replace (offset + (length p - b)) with (offset + n) in * by lia.
  pose proof (not_page_end offset n Ho ltac:(lia) Hpe) as Hlt. rewrite page_after_in; [lia|done|]. 
  pose proof (Z2Nat.inj_mod offset page ltac:(lia) ltac:(lia)) as Em. rewrite Nat2Z.id in Em. lia.
Qed.

Lemma wp_bind {A} (f : unit → prog (eeprom_dev * bytes chip) A) e d d' wp m ptr busy held :
  (EEPROM_SetWriteProtect protect_bytes e ≫= f) (d, idle_chip d' wp m ptr busy held) = f () (d, idle_chip d' e m ptr busy held).
Proof. done. Qed.

Lemma data_stored d clock wp m ptr busy held offset p :
  fits_chip d m → bus_free d → bd_clock (ed_board d) = clock → short_polls clock → Forall is_u8 p →
  0 ≤ offset → offset + length p < length m → (busy ≤ twr)%nat → ((twr + 2) * length p ≤ length clock)%nat →
  ∃ used clock' ptr' busy' held',
    EEPROM_Write protect_bytes sem_bits task_id sem slices offset p (d, idle_chip d wp m ptr busy held) =
    Ok (Z.of_nat (length p), (set_known (offset + length p) 1 (with_clock clock' d), idle_chip d true (splice m (Z.to_nat offset) p) ptr' busy' held')) ∧
    (busy' ≤ twr)%nat ∧ clock = used ++ clock' ∧ (length used ≤ (twr + 2) * length p)%nat ∧
    (p ≠ [] → ends_at (offset + length p) ptr').
Proof.
  intros Hfit Hfree Ec Hc Hp Ho Hend Hbusy Hcl. destruct Hfit as (Hps & Hcap & Hm) eqn:Ef. clear Ef.
  destruct (pages_written (S (length p)) p offset 0 EOK d clock m ptr busy held) as (used & clock' & ptr' & busy' & held' & ec' & E & Hec & Hb' & Hu & Hlu & Hptr);
    try done; try lia.
  exists used, clock', ptr', busy', held'. change (Z.to_nat 0) with 0%nat in *. rewrite Nat.sub_0_r in *. rewrite Z.sub_0_r in *. change (drop 0 p) with p in E.
  split; [|split_and!; try done].
  - unfold EEPROM_Write. rewrite get_bind, Hcap, u32_small by word_lia. destruct (Z.leb_spec (length m) (offset + length p)); [lia|].
    rewrite wp_bind, (prog_bind_Ok _ _ _ _ _ E). destruct (Z.ltb_spec ec' EOK); [lia|]. unfold know. cbv beta iota.
    rewrite (prog_bind_Ok _ _ _ () (set_known (offset + length p) 1 (with_clock clock' d), idle_chip d false (splice m (Z.to_nat offset) p) ptr' busy' held')) by done.
    rewrite wp_bind. unfold mret, prog_ret. by rewrite s32_small by lia.
  - intros Hne. rewrite decide_False in Hptr; [done|]. destruct p; [done|cbn; lia].
Qed.

(** *** Reading *)

(** What the driver believes of the pointer of the chip. *)
Definition knows (d : eeprom_dev) (ptr : nat) : Prop := ed_mem_addr_valid d = 0 ∨ ed_mem_addr d = ptr.

Lemma address_written write_addr d wp m (ptr : nat) offset :
  fits_chip d m → 0 ≤ offset < length m → (write_addr = false → offset = ptr) →
  write_address write_addr offset EOK (d, idle_chip d wp m ptr 0 false) = Ok (EOK, (d, idle_chip d wp m (Z.to_nat offset) 0 false)).
Proof.
  intros (_ & _ & Hm) Ho Hk. unfold write_address. destruct write_addr.
  - pose proof (mem_addressed OPER_WRITE_STOP (addr_word offset) 0 d (quiet (chip_code d) page twr wp m ptr 0) false eq_refl (or_introl eq_refl) (addr_word_bytes offset)) as E.
    rewrite addressed in E by (done || apply code_range || lia). unfold idle_chip. by rewrite (prog_bind_Ok _ _ _ _ _ E).
  - rewrite (Hk eq_refl), Nat2Z.id. done.
Qed.

Lemma data_read d clock wp m (ptr : nat) busy held offset n :
  fits_chip d m → bd_clock (ed_board d) = clock → short_polls clock → Forall is_u8 m → (busy ≤ twr)%nat → (busy + 1 < length clock)%nat →
  (0 < n)%nat → 0 ≤ offset → offset + n < length m → ed_mem_addr_valid d = 0 ∨ ed_mem_addr d ≠ offset ∨ offset = ptr →
  EEPROM_Read sem_bits sem offset n (d, idle_chip d wp m ptr busy held) =
  Ok ((Z.of_nat n, take n (drop (Z.to_nat offset) m)),
      (set_known (offset + n) 1 (with_clock (drop (busy + 2) clock) d), idle_chip d wp m (Z.to_nat offset + n) 0 false)).
Proof.
  intros Hfit Ec Hc Hu8 Hbusy Hl Hn Ho Hend Hknow. pose proof Hfit as (Hps & Hcap & Hm). unfold EEPROM_Read. rewrite get_bind, Hcap, u32_small by word_lia.
  destruct (Z.leb_spec (length m) (offset + n)); [lia|]. set (w := (ed_mem_addr_valid d =? 0) || negb (ed_mem_addr d =? offset)).
  assert (w = false → offset = ptr) as Hw by (unfold w; lia). set (d1 := with_clock (drop (busy + 2) clock) d).
  assert (read_data w offset n (d, idle_chip d wp m ptr busy held) =
    Ok ((EOK, take n (drop (Z.to_nat offset) m)), (set_known (offset + n) 1 d1, idle_chip d1 wp m (Z.to_nat offset + n) 0 false))) as E.
  { unfold read_data. rewrite (prog_bind_Ok _ _ _ _ _ (poll_ok d clock wp m ptr busy held Ec Hc Hbusy Hl)). change (EOK <? EOK) with false. cbv iota.
    fold d1. change (idle_chip d) with (idle_chip d1). rewrite (prog_bind_Ok _ _ _ _ _ (address_written w d1 wp m ptr offset Hfit ltac:(lia) Hw)).
    change (EOK <? EOK) with false. cbv iota.
    pose proof (mem_addressed OPER_READ_STOP [] n d1 (quiet (chip_code d1) page twr wp m (Z.to_nat offset) 0) false eq_refl (or_intror Hn) (Forall_nil_2 _)) as E.
    rewrite chip_read, Nat.mod_small in E by (done || apply code_range || lia). unfold idle_chip at 1. rewrite (prog_bind_Ok _ _ _ _ _ E).
    change (EOK <? EOK) with false. cbv beta iota. by rewrite u32_small by word_lia. }
  rewrite (prog_bind_Ok _ _ _ _ _ E). change (EOK <? EOK) with false. cbv beta iota. rewrite ret_bind. unfold mret, prog_ret. by rewrite s32_small by lia.
Qed.
End with_chip.

(** ** What the driver guarantees *)

Lemma splice_there m k bs : (k + length bs ≤ length m)%nat → take (length bs) (drop k (splice m k bs)) = bs.
Proof.
  intros H. unfold splice. rewrite drop_app_ge by (rewrite length_take; lia). rewrite length_take_le by lia.
  rewrite Nat.sub_diag, drop_0. apply take_app_length.
Qed.

Lemma splice_bytes m k bs : Forall is_u8 m → Forall is_u8 bs → Forall is_u8 (splice m k bs).
Proof. intros Hm Hb. unfold splice. rewrite !Forall_app. split_and!; [by apply Forall_take|done|by apply Forall_drop]. Qed.

Lemma lines_protect e b s : lines_of b s → lines_of (protect_lines e b) (protect_bytes e s).
Proof.
  intros (Hd & Hr & Hh). split; [cbn; by rewrite Hd|]. split; [done|]. cbn. intros H. destruct (Hh H) as [sda ->]. by exists sda.
Qed.

Lemma stored_and_read sem_bits task_id sem slices page twr d wp m ptr busy held offset p :
  (0 < page)%nat → fits_chip page d m → bus_free sem slices d →
  short_polls twr (bd_clock (ed_board d)) → ((twr + 2) * (length p + 1) ≤ length (bd_clock (ed_board d)))%nat → (busy ≤ twr)%nat →
  Forall is_u8 m → Forall is_u8 p → p ≠ [] → 0 ≤ offset → offset + length p < length m →
  ∃ d1 s1 d2, EEPROM_Write protect_bytes sem_bits task_id sem slices offset p (d, idle_chip page twr d wp m ptr busy held) = Ok (Z.of_nat (length p), (d1, s1)) ∧
    EEPROM_Read sem_bits sem offset (length p) (d1, s1) =
    Ok ((Z.of_nat (length p), p), (d2, idle_chip page twr d2 true (splice m (Z.to_nat offset) p) (Z.to_nat offset + length p) 0 false)) ∧
    knows d2 (Z.to_nat offset + length p) ∧ bus_free sem slices d2.
Proof.
  intros Hpage Hfit Hfree Hc Hcl Hbusy Hm Hp Hne Ho Hend. assert (0 < length p)%nat as Hlen by (destruct p; [done|cbn; lia]).
  destruct (data_stored sem_bits task_id sem slices page twr Hpage d _ wp m ptr busy held offset p Hfit Hfree eq_refl Hc Hp Ho Hend Hbusy)
    as (used & clock' & ptr' & busy' & held' & E1 & Hb' & Hu & Hlu & _); [lia|].
  set (m' := splice m (Z.to_nat offset) p) in *. assert (length m' = length m) as Hm' by (apply splice_length; lia).
  set (d1 := set_known (offset + length p) 1 (with_clock clock' d)) in *.
  assert (short_polls twr clock') as Hc' by (rewrite Hu in Hc; by eapply short_polls_left).
  assert (length (bd_clock (ed_board d)) = (length used + length clock')%nat) as Hl' by (by rewrite Hu, length_app).
  pose proof (data_read sem_bits sem page twr Hpage d1 clock' true m' ptr' busy' held' offset (length p)) as E2.
  rewrite Hm' in E2. unfold fits_chip in *. rewrite Hm' in E2. specialize (E2 Hfit eq_refl Hc' ltac:(by apply splice_bytes) Hb' ltac:(lia) Hlen Ho Hend ltac:(right; left; cbn; lia)).
  unfold m' in E2 at 2. rewrite splice_there in E2 by lia. eexists _, _, _. split; [exact E1|]. split; [exact E2|]. split.
  - right. cbn. lia.
  - split; apply Hfree.
Qed.

Section claims.
Context (sem_bits task_id sem : Z) (slices : list sem_slice) (scl_polls : bus chip → list (Z * bool)) (junk : Z).

(** The driver on the lines. *)
Definition Read_lines := @EEPROM_Read _ (lines_bus scl_polls junk) sem_bits sem.
Definition Write_lines := @EEPROM_Write _ (lines_bus scl_polls junk) protect_lines sem_bits task_id sem slices.

Lemma transfers_on_lines : (∀ b : bus chip, stretch SWI2C_TIMEOUT (scl_polls b) = Ok EOK) →
  ∀ oper addr p size, simulates lines_of (@tw_transfer _ (lines_bus scl_polls junk) oper addr p size) (tw_transfer oper addr p size).
Proof. intros Hst oper addr p size. by apply lines_carry_bytes. Qed.

Lemma written_on_lines offset p d b s r d1 s1 :
  (∀ b : bus chip, stretch SWI2C_TIMEOUT (scl_polls b) = Ok EOK) → lines_of b s →
  EEPROM_Write protect_bytes sem_bits task_id sem slices offset p (d, s) = Ok (r, (d1, s1)) →
  ∃ b1, Write_lines offset p (d, b) = Ok (r, (d1, b1)) ∧ lines_of b1 s1.
Proof.
  intros Hst Hb E. assert (beside lines_of (d, b) (d, s)) as HR by done.
  destruct (@sim_write _ _ (lines_bus scl_polls junk) _ lines_of protect_lines protect_bytes sem_bits task_id sem slices (transfers_on_lines Hst) lines_protect
    offset p _ _ _ _ HR E) as ([d1' b1] & F & [Ed Hb1]). cbn in Ed, Hb1. subst d1'. by exists b1.
Qed.

Lemma read_on_lines offset n d b s r d1 s1 :
  (∀ b : bus chip, stretch SWI2C_TIMEOUT (scl_polls b) = Ok EOK) → lines_of b s →
  EEPROM_Read sem_bits sem offset n (d, s) = Ok (r, (d1, s1)) →
  ∃ b1, Read_lines offset n (d, b) = Ok (r, (d1, b1)) ∧ lines_of b1 s1.
Proof.
  intros Hst Hb E. assert (beside lines_of (d, b) (d, s)) as HR by done.
  destruct (@sim_read _ _ (lines_bus scl_polls junk) _ lines_of sem_bits sem (transfers_on_lines Hst) offset n _ _ _ _ HR E)
    as ([d1' b1] & F & [Ed Hb1]). cbn in Ed, Hb1. subst d1'. by exists b1.
Qed.

(** C18: what is written to the chip is read back, over the two lines, for any
    data that is not empty and any offset such that the data ends before the last
    byte of the memory, whatever pages it starts, crosses and ends in.  The bus is
    free and its lines work: no device holds the clock beyond its timeout.  The
    chip may be storing, and stores for up to [twr] polls, however many, as long as
    the polls for one page take less than the ten ticks of the driver's timeout.
    No other byte changes, the chip is write-protected again, and the driver knows
    where the chip will read next. *)
Theorem eeprom_roundtrip page twr d b wp m ptr busy held offset p :
  (0 < page)%nat → (∀ b : bus chip, stretch SWI2C_TIMEOUT (scl_polls b) = Ok EOK) →
  lines_of b (idle_chip page twr d wp m ptr busy held) → fits_chip page d m → bus_free sem slices d →
  short_polls twr (bd_clock (ed_board d)) → ((twr + 2) * (length p + 1) ≤ length (bd_clock (ed_board d)))%nat → (busy ≤ twr)%nat →
  Forall is_u8 m → Forall is_u8 p → p ≠ [] → 0 ≤ offset → offset + length p < length m →
  ∃ d1 b1 d2 b2, Write_lines offset p (d, b) = Ok (Z.of_nat (length p), (d1, b1)) ∧
    Read_lines offset (length p) (d1, b1) = Ok ((Z.of_nat (length p), p), (d2, b2)) ∧
    ch_mem (bs_dev b2) = splice m (Z.to_nat offset) p ∧ ch_wp (bs_dev b2) = true ∧ knows d2 (ch_ptr (bs_dev b2)) ∧ bus_free sem slices d2.
Proof.
  intros Hpage Hst Hb Hfit Hfree Hc Hcl Hbusy Hm Hp Hne Ho Hend.
  destruct (stored_and_read sem_bits task_id sem slices page twr d wp m ptr busy held offset p) as (d1 & s1 & d2 & E1 & E2 & Hk & Hf); try done.
  destruct (written_on_lines _ _ _ _ _ _ _ _ Hst Hb E1) as (b1 & F1 & Hb1).
  destruct (read_on_lines _ _ _ _ _ _ _ _ Hst Hb1 E2) as (b2 & F2 & Hd2 & _).
  exists d1, b1, d2, b2. rewrite Hd2. by split_and!.
Qed.

(** reads one behind the other give what the chip holds, over the lines, and
    keep what the driver knows of it. *)
Theorem eeprom_reads page twr d b wp m ptr busy held offset n :
  (0 < page)%nat → (∀ b : bus chip, stretch SWI2C_TIMEOUT (scl_polls b) = Ok EOK) →
  lines_of b (idle_chip page twr d wp m ptr busy held) → fits_chip page d m → knows d ptr →
  short_polls twr (bd_clock (ed_board d)) → (busy ≤ twr)%nat → (busy + 1 < length (bd_clock (ed_board d)))%nat →
  Forall is_u8 m → (0 < n)%nat → 0 ≤ offset → offset + n < length m →
  ∃ d1 b1, Read_lines offset n (d, b) = Ok ((Z.of_nat n, take n (drop (Z.to_nat offset) m)), (d1, b1)) ∧
    lines_of b1 (idle_chip page twr d1 wp m (Z.to_nat offset + n) 0 false) ∧ knows d1 (Z.to_nat offset + n).
Proof.
  intros Hpage Hst Hb Hfit Hk Hc Hbusy Hcl Hm Hn Ho Hend.
  pose proof (data_read sem_bits sem page twr Hpage d _ wp m ptr busy held offset n Hfit eq_refl Hc Hm Hbusy Hcl Hn Ho Hend ltac:(unfold knows in Hk; lia)) as E.
  destruct (read_on_lines _ _ _ _ _ _ _ _ Hst Hb E) as (b1 & F & Hb1). eexists _, b1. split; [exact F|]. split; [exact Hb1|]. right. cbn. lia.
Qed.

(** a write that does not end with a page leaves the driver knowing where the
    chip reads next. *)
Theorem eeprom_write_known page twr d wp m ptr busy held offset p :
  (0 < page)%nat → fits_chip page d m → bus_free sem slices d →
  short_polls twr (bd_clock (ed_board d)) → ((twr + 2) * length p ≤ length (bd_clock (ed_board d)))%nat → (busy ≤ twr)%nat →
  Forall is_u8 p → p ≠ [] → 0 ≤ offset → offset + length p < length m → (offset + length p) mod page ≠ 0 →
  ∃ d1 ptr1 busy1 held1, EEPROM_Write protect_bytes sem_bits task_id sem slices offset p (d, idle_chip page twr d wp m ptr busy held) =
    Ok (Z.of_nat (length p), (d1, idle_chip page twr d1 true (splice m (Z.to_nat offset) p) ptr1 busy1 held1)) ∧
    knows d1 ptr1 ∧ ed_mem_addr_valid d1 = 1 ∧ ed_mem_addr d1 = offset + length p.
Proof.
  intros Hpage Hfit Hfree Hc Hcl Hbusy Hp Hne Ho Hend Hpe.
  destruct (data_stored sem_bits task_id sem slices page twr Hpage d _ wp m ptr busy held offset p Hfit Hfree eq_refl Hc Hp Ho Hend Hbusy Hcl)
    as (used & clock' & ptr' & busy' & held' & E & _ & _ & _ & Hptr).
  eexists _, ptr', busy', held'. split; [exact E|]. rewrite (Hptr Hne Hpe). split; [|done]. right. cbn. lia.
Qed.
End claims.

(** ** Concrete inputs *)

Definition released : bus chip → list (Z * bool) := λ _, [(0, true)].
Definition small (a2a1a0 : Z) : eeprom_dev := mk_eeprom (mk_board {[10 := 0]} ((λ i, 3 * i) <$> seqZ 0 40)) 16 4 a2a1a0 0 0.
Definition small_mem : list Z := [0x10; 0x11; 0x12; 0x13; 0x14; 0x15; 0x16; 0x17; 0x18; 0x19; 0x1a; 0x1b; 0x1c; 0x1d; 0x1e; 0x1f].
Definition small_chip : chip := quiet (chip_code (small 3)) 4 1 true small_mem 0 0.
Definition one_look : list sem_slice := [mk_sem_slice 0 (λ m, m)].

Definition read_small (offset : Z) (n : nat) : prog (eeprom_dev * bus chip) (Z * list Z) := Read_lines 8 10 released 77 offset n.
Definition write_small (offset : Z) (p : list Z) : prog (eeprom_dev * bus chip) Z := Write_lines 8 2 10 one_look released 77 offset p.

Definition result {A S} (r : res (A * S)) : res A := '(a, _) ← r; Ok a.
Definition chip_left {A} (r : res (A * (eeprom_dev * bus chip))) : res (A * list Z) := '(a, (_, b)) ← r; Ok (a, ch_mem (bs_dev b)).

Example pages_crossed :
  chip_left (write_small 2 [1; 2; 3; 4; 5; 6; 7] (small 3, free small_chip)) =
  Ok (7, [0x10; 0x11; 1; 2; 3; 4; 5; 6; 7; 0x19; 0x1a; 0x1b; 0x1c; 0x1d; 0x1e; 0x1f]).
Proof. vm_compute. reflexivity. Qed.

(** Behind a write that ends with a page the driver takes the pointer of the chip
    for the next page, but it is at the start of the page that was written: the
    bytes at 2 and 3 are written, the ones at 4 and 5 asked for, and the ones at 0
    and 1 given. *)
Example wrong_page_read :
  result ((_ ← write_small 2 [1; 2]; read_small 4 2) (small 3, free small_chip)) = Ok (2, [0x10; 0x11]).
Proof. vm_compute. reflexivity. Qed.

(** Also when nothing was written. *)
Example wrong_place_read :
  result ((_ ← write_small 9 []; read_small 9 2) (small 3, free small_chip)) = Ok (2, [0x10; 0x11]).
Proof. vm_compute. reflexivity. Qed.

(** The last byte of the memory cannot be read. *)
Example last_byte_refused : result (read_small 15 1 (small 3, free small_chip)) = Ok (EFATAL, []).
Proof. vm_compute. reflexivity. Qed.

(** A range that wraps is not refused. *)
Example range_wraps : result (read_small 0xffffffff 2 (small 3, free small_chip)) = Ok (2, [0x1f; 0x10]).
Proof. vm_compute. reflexivity. Qed.

(** A read takes no lock, and one that fails gives away the lock of another task. *)
Example lock_broken :
  let d := mk_eeprom (mk_board {[10 := 7]} [0; 4; 8; 12]) 16 4 0 0 0 in
  ('((ec, _), (d, _)) ← read_small 2 1 (d, free small_chip); Ok (ec, bd_sems (ed_board d) !! 10)) = Ok (EI2C_ADDR, Some 0).
Proof. vm_compute. reflexivity. Qed.

(** *** Witnesses *)

Lemma small_fits : fits_chip 4 (small 3) small_mem. Proof. by vm_compute. Qed.
Lemma small_bytes : Forall is_u8 small_mem. Proof. by repeat constructor. Qed.
(** Three ticks from a reading to the next. *)
Lemma small_times : short_polls 1 (bd_clock (ed_board (small 3))).
Proof.
  intros i j ts now Hij (x & -> & Hx%lookup_seqZ)%list_lookup_fmap_Some (y & -> & Hy%lookup_seqZ)%list_lookup_fmap_Some.
  unfold dtime. rewrite s32_small by lia. lia.
Qed.
Lemma small_readings n : (n ≤ 40)%nat → (n ≤ length (bd_clock (ed_board (small 3))))%nat.
Proof. by vm_compute. Qed.
Lemma small_lines : lines_of (free small_chip) (idle_chip 4 1 (small 3) true small_mem 0 0 false).
Proof. by repeat split. Qed.

Lemma eeprom_roundtrip_witness :
  ∃ d1 b1 d2 b2, write_small 2 [1; 2; 3; 4; 5; 6; 7] (small 3, free small_chip) = Ok (7, (d1, b1)) ∧
    read_small 2 7 (d1, b1) = Ok ((7, [1; 2; 3; 4; 5; 6; 7]), (d2, b2)).
Proof.
  destruct (eeprom_roundtrip 8 2 10 one_look released 77 4 1 (small 3) (free small_chip) true small_mem 0 0 false 2 [1; 2; 3; 4; 5; 6; 7])
    as (d1 & b1 & d2 & b2 & E1 & E2 & _).
  - lia.
  - done.
  - apply small_lines.
  - apply small_fits.
  - done.
  - apply small_times.
  - apply small_readings. cbn. lia.
  - lia.
  - apply small_bytes.
  - by repeat constructor.
  - done.
  - lia.
  - by vm_compute.
  - exists d1, b1, d2, b2. split; [exact E1|exact E2].
Defined.

Lemma eeprom_reads_witness :
  ∃ d1 b1, read_small 5 3 (small 3, free small_chip) = Ok ((3, [0x15; 0x16; 0x17]), (d1, b1)) ∧ knows d1 8.
Proof.
  destruct (eeprom_reads 8 10 released 77 4 1 (small 3) (free small_chip) true small_mem 0 0 false 5 3) as (d1 & b1 & E & _ & Hk).
  - lia.
  - done.
  - apply small_lines.
  - apply small_fits.
  - by left.
  - apply small_times.
  - lia.
  - apply small_readings. cbn. lia.
  - apply small_bytes.
  - lia.
  - lia.
  - by vm_compute.
  - exists d1, b1. split; [exact E|exact Hk].
Defined.

Lemma eeprom_write_known_witness :
  ∃ d1 ptr1 busy1 held1, EEPROM_Write protect_bytes 8 2 10 one_look 2 [1; 2; 3] (small 3, idle_chip 4 1 (small 3) true small_mem 0 0 false) =
    Ok (3, (d1, idle_chip 4 1 d1 true (splice small_mem 2 [1; 2; 3]) ptr1 busy1 held1)) ∧ knows d1 ptr1.
Proof.
  destruct (eeprom_write_known 8 2 10 one_look 4 1 (small 3) true small_mem 0 0 false 2 [1; 2; 3]) as (d1 & ptr1 & busy1 & held1 & E & Hk & _).
  - lia.
  - apply small_fits.
  - done.
  - apply small_times.
  - apply small_readings. cbn. lia.
  - lia.
  - by repeat constructor.
  - done.
  - lia.
  - by vm_compute.
  - by vm_compute.
  - exists d1, ptr1, busy1, held1. split; [exact E|exact Hk].
Defined.
