(* ===== verification/RegChip.v ===== *)
(** * Chips with registers on the two-wire bus

    A chip as the drivers of dev/src/nau7802.c and dev/src/husb238.c expect it: the
    first byte written is the number of a register, the ones that follow go to the
    registers from there on, a read gives the registers from the last number on.
    What a chip makes of a byte that is written to a register is a function of the
    chip ([rg_react]); a plain register keeps it. *)
From S2P Require Import Prelude Words Time Sem Stream Swi2c TwoWire.

(** ** The bus of the board *)

Section board.
Context {W : Type} (sem_bits task_id sem : Z) (slices : list sem_slice).

Definition bus_lock (timeout : Z) : prog (board * W) Z := lock id (λ b _, b) sem_bits task_id slices sem timeout.
Definition bus_release : prog (board * W) Z := release id (λ b _, b) sem_bits sem.

Definition board_free (b : board) : Prop := bd_sems b !! sem = Some 0 ∧ slices ≠ [].

Lemma bus_locked {A} (f : Z → prog (board * W) A) b s : board_free b →
  (bus_lock 0 ≫= f) (b, s) = f EOK (mk_board (<[sem := task_id mod 2 ^ sem_bits]> (bd_sems b)) (bd_clock b), s).
Proof.
  intros [Hs Hl]. apply prog_bind_Ok. unfold bus_lock, lock, Sem_Lock. destruct slices as [|sl sls]; [done|]. cbn [lock_loop]. unfold lock_try, sem_get, sem_set, id.
  by rewrite Hs, bind_Ok.
Qed.

Lemma bus_released {A} (f : Z → prog (board * W) A) b s : bd_sems b !! sem = Some 0 →
  (bus_release ≫= f) (mk_board (<[sem := task_id mod 2 ^ sem_bits]> (bd_sems b)) (bd_clock b), s) = f EOK (b, s).
Proof.
  intros Hs. apply prog_bind_Ok. unfold bus_release, release, Sem_Release, sem_set, id. cbn [bd_sems bd_clock]. rewrite lookup_insert_eq, bind_Ok. cbn beta iota.
  rewrite insert_insert_eq, Zmod_0_l, insert_id by done. by destruct b.
Qed.

Lemma sent `{TwoWire W} {A} (f : Z * list Z → prog (board * W) A) oper addr p size b s r s' :
  tw_transfer oper addr p size s = Ok (r, s') → (on_snd (tw_transfer oper addr p size) ≫= f) (b, s) = f r (b, s').
Proof. intros E. apply prog_bind_Ok. unfold on_snd. by rewrite E. Qed.

End board.

(** ** The chip *)

Inductive reg_mode := ROff | RAddressed | RNumber | RData | RReading.

Record regs := mk_regs { rg_code : Z; rg_react : nat → Z → list Z → list Z; rg_mem : list Z; rg_ptr : nat; rg_mode : reg_mode }.

Definition regs_now (m : list Z) (ptr : nat) (md : reg_mode) (c : regs) : regs := mk_regs (rg_code c) (rg_react c) m ptr md.

Definition regs_take (c : regs) (b : Z) : bool * regs :=
  match rg_mode c with
  | RAddressed =>
      if b / 2 =? rg_code c then (true, regs_now (rg_mem c) (rg_ptr c) (if Z.odd b then RReading else RNumber) c)
      else (false, regs_now (rg_mem c) (rg_ptr c) ROff c)
  | RNumber => (true, regs_now (rg_mem c) (Z.to_nat b) RData c)
  | RData => (true, regs_now (rg_react c (rg_ptr c) b (rg_mem c)) (S (rg_ptr c)) RData c)
  | _ => (false, c)
  end.

#[export] Instance regs_device : I2CDevice regs := {|
  dev_start c := regs_now (rg_mem c) (rg_ptr c) RAddressed c;
  dev_take := regs_take;
  dev_give c := default 0xff (rg_mem c !! rg_ptr c);
  dev_given c more := regs_now (rg_mem c) (S (rg_ptr c)) (rg_mode c) c;
  dev_stop c := regs_now (rg_mem c) (rg_ptr c) ROff c |}.

Definition plain (r : nat) (b : Z) (m : list Z) : list Z := <[r := b]> m.

(** ** Transfers with the chip *)

Section transfers.
Context (code : Z) (Hcode : 0 ≤ code < 128) (react : nat → Z → list Z → list Z).

Definition regs_at (m : list Z) (ptr : nat) (held : bool) : bytes regs :=
  mk_bytes (mk_regs code react m ptr (if held then RData else ROff)) held.

(** The number of a register is written, with a stop behind it or not. *)
Lemma number_written oper m ptr held r :
  oper = OPER_WRITE ∨ oper = OPER_WRITE_STOP → 0 ≤ r < 256 →
  tw_transfer oper code [r] 0 (regs_at m ptr held) = Ok ((EOK, []), regs_at m (Z.to_nat r) (negb (has oper SWI2C_OPER_STOP))).
Proof.
  intros Ho Hr. cbn [tw_transfer bytes_bus]. unfold bytes_transfer. rewrite bool_decide_true by (split; [done|repeat (constructor; [word_lia|]); constructor]). cbn [negb].
  assert (has oper SWI2C_OPER_WR = true ∧ has oper SWI2C_OPER_ADDR = true) as [-> ->] by (by destruct Ho as [-> | ->]).
  cbn [orb]. unfold dev_transfer. assert (has oper SWI2C_OPER_WR = true) as -> by (by destruct Ho as [-> | ->]).
  cbn [dev_start dev_take regs_device regs_take regs_at by_dev regs_now rg_mode rg_code]. destruct (address_bits code 0 Hcode ltac:(lia)) as [-> ->]. rewrite Z.eqb_refl. cbn.
  by destruct Ho as [-> | ->].
Qed.

(** What is written behind it. *)
Lemma value_written m ptr v :
  is_u8 v → tw_transfer OPER_REST_STOP code [v] 0 (regs_at m ptr true) = Ok ((EOK, []), regs_at (react ptr v m) (S ptr) false).
Proof. intros Hv. cbn [tw_transfer bytes_bus]. unfold bytes_transfer. by rewrite bool_decide_true by (split; [done|repeat (constructor; [word_lia|]); constructor]). Qed.

Lemma both_written m ptr held r v :
  0 ≤ r < 256 → is_u8 v →
  tw_transfer OPER_WRITE_STOP code [r; v] 0 (regs_at m ptr held) = Ok ((EOK, []), regs_at (react (Z.to_nat r) v m) (S (Z.to_nat r)) false).
Proof.
  intros Hr Hv. cbn [tw_transfer bytes_bus]. unfold bytes_transfer. rewrite bool_decide_true by (split; [done|repeat (constructor; [word_lia|]); constructor]).
  change (has OPER_WRITE_STOP SWI2C_OPER_WR) with true. change (has OPER_WRITE_STOP SWI2C_OPER_ADDR) with true. cbn [negb orb].
  unfold dev_transfer. change (has OPER_WRITE_STOP SWI2C_OPER_WR) with true.
  cbn [dev_start dev_take regs_device regs_take regs_at by_dev regs_now rg_mode rg_code]. destruct (address_bits code 0 Hcode ltac:(lia)) as [-> ->]. by rewrite Z.eqb_refl.
Qed.

Lemma regs_given n : ∀ m ptr, Forall is_u8 m → (ptr + n ≤ length m)%nat →
  dev_read n (mk_regs code react m ptr RReading) = (take n (drop ptr m), mk_regs code react m (ptr + n) RReading).
Proof.
  induction n as [|n IH]; intros m ptr Hm H; [by rewrite Nat.add_0_r|].
  cbn [dev_read dev_give dev_given regs_device rg_mem rg_ptr rg_mode regs_now rg_code rg_react].
  destruct (lookup_lt_is_Some_2 m ptr ltac:(lia)) as [b Hb]. rewrite Hb. cbn [default]. rewrite (drop_S m b ptr) by done. cbn [take].
  rewrite u8_small by (rewrite Forall_lookup in Hm; by eapply Hm). unfold regs_now. cbn [rg_code rg_react]. rewrite IH by (done || lia). by rewrite Nat.add_succ_comm.
Qed.

Lemma values_read m ptr held n :
  Forall is_u8 m → (ptr + n ≤ length m)%nat → (0 < n)%nat →
  tw_transfer OPER_READ_STOP code [] n (regs_at m ptr held) = Ok ((EOK, take n (drop ptr m)), regs_at m (ptr + n) false).
Proof.
  intros Hm H Hn. cbn [tw_transfer bytes_bus]. unfold bytes_transfer. rewrite bool_decide_true by (split; [done|by constructor]).
  change (has OPER_READ_STOP SWI2C_OPER_WR) with false. change (has OPER_READ_STOP SWI2C_OPER_ADDR) with true. cbn [negb orb].
  rewrite (proj2 (Nat.ltb_lt _ _) Hn). unfold dev_transfer. change (has OPER_READ_STOP SWI2C_OPER_WR) with false.
  cbn [dev_start dev_take regs_device regs_take regs_at by_dev regs_now rg_mode rg_code]. destruct (address_bits code 1 Hcode ltac:(lia)) as [-> ->]. rewrite Z.eqb_refl.
  unfold dev_data. change (has OPER_READ_STOP SWI2C_OPER_WR) with false. unfold regs_now. cbn [rg_mem rg_ptr rg_code rg_react]. by rewrite regs_given.
Qed.
End transfers.
