(* ===== verification/Nau7802.v ===== *)
(** * The converter of the strain gauge (dev/src/nau7802.c, dev/nau7802.h)

    The driver over any two-wire bus: registers read, written and modified, the
    settings that are fields of registers, calibration and the value of 24 bits.
    Sleeping has no effect in the model; how often the end of a calibration is
    looked for is a fuel. *)
From S2P Require Import Prelude Words Time Sem Stream Swi2c TwoWire RegChip.

Definition NAU7802_ADDR : Z := 0x2A.
Definition NAU7802_REG_PU_CTRL : Z := 0x00.
Definition NAU7802_REG_CTRL1 : Z := 0x01.
Definition NAU7802_REG_CTRL2 : Z := 0x02.
Definition NAU7802_REG_ADCO_B2 : Z := 0x12.
Definition NAU7802_REG_ADC : Z := 0x15.
Definition NAU7802_REG_PGA : Z := 0x1B.
Definition NAU7802_REG_POWER : Z := 0x1C.
Definition NAU7802_REG_REVISION_ID : Z := 0x1F.
Definition NAU7802_PU_CTRL_RR : Z := 0x01.
Definition NAU7802_PU_CTRL_PUD : Z := 0x02.
Definition NAU7802_PU_CTRL_PUA : Z := 0x04.
Definition NAU7802_PU_CTRL_PUR : Z := 0x08.
Definition NAU7802_PU_CTRL_CS : Z := 0x10.
Definition NAU7802_PU_CTRL_CR : Z := 0x20.
Definition NAU7802_PU_CTRL_AVDDS : Z := 0x80.
Definition NAU7802_CTRL1_GAINS : Z := 0x07.
Definition NAU7802_CTRL1_VLDO : Z := 0x38.
Definition NAU7802_CTRL2_CALMOD : Z := 0x03.
Definition NAU7802_CTRL2_CALS : Z := 0x03.
Definition NAU7802_CTRL2_CAL_ERR : Z := 0x04.
Definition NAU7802_CTRL2_CRS : Z := 0x70.
Definition NAU7802_ADC_REG_CHPS : Z := 0x30.
Definition NAU7802_PGA_LDOMODE : Z := 0x40.
Definition NAU7802_POWER_PGA_CAP_EN : Z := 0x80.
Definition NAU7802_REVISION_ID_ID : Z := 0x0F.

Inductive nau7802_ldo := LDO_4V5 | LDO_4V2 | LDO_3V9 | LDO_3V6 | LDO_3V3 | LDO_3V0 | LDO_2V7 | LDO_2V4 | LDO_EXTERNAL.
Inductive nau7802_gain := GAIN_1 | GAIN_2 | GAIN_4 | GAIN_8 | GAIN_16 | GAIN_32 | GAIN_64 | GAIN_128.
Inductive nau7802_sample_rate := RATE_10SPS | RATE_20SPS | RATE_40SPS | RATE_80SPS | RATE_320SPS.
Inductive nau7802_calib_mode := CALMOD_INTERNAL | CALMOD_OFFSET | CALMOD_GAIN.

Definition vldo_bits (mode : nau7802_ldo) : Z * Z :=
  match mode with
  | LDO_4V5 => (0, 1) | LDO_4V2 => (1, 1) | LDO_3V9 => (2, 1) | LDO_3V6 => (3, 1) | LDO_3V3 => (4, 1)
  | LDO_3V0 => (5, 1) | LDO_2V7 => (6, 1) | LDO_2V4 => (7, 1) | LDO_EXTERNAL => (0, 0)
  end.
Definition gain_bits (gain : nau7802_gain) : Z :=
  match gain with GAIN_1 => 0 | GAIN_2 => 1 | GAIN_4 => 2 | GAIN_8 => 3 | GAIN_16 => 4 | GAIN_32 => 5 | GAIN_64 => 6 | GAIN_128 => 7 end.
Definition rate_bits (rate : nau7802_sample_rate) : Z :=
  match rate with RATE_10SPS => 0 | RATE_20SPS => 1 | RATE_40SPS => 2 | RATE_80SPS => 3 | RATE_320SPS => 7 end.
Definition mode_bits (mode : nau7802_calib_mode) : Z := match mode with CALMOD_INTERNAL => 0 | CALMOD_OFFSET => 2 | CALMOD_GAIN => 3 end.

(** "if (!ec) ec = ...", as long as there is no error. *)
Fixpoint steps {S} (ps : list (prog S Z)) : prog S Z :=
  match ps with
  | [] => mret EOK
  | p :: ps => ec ← p; if ec =? EOK then steps ps else mret ec
  end.

Section driver.
Context {W : Type} `{TwoWire W} (sem_bits task_id sem : Z) (slices : list sem_slice).
Context (drdy : option (W → bool)).

Definition NAU7802_I2CWrite (reg_addr : Z) (p : list Z) (timeout : Z) : prog (board * W) Z :=
  rc ← bus_lock sem_bits task_id sem slices timeout;
  if negb (rc =? EOK) then mret ETIMEOUT
  else
    '(ec, _) ← on_snd (tw_transfer OPER_WRITE NAU7802_ADDR [u8 reg_addr] 0);
    ec ← (if negb (ec =? EOK) then mret ec else '(ec, _) ← on_snd (tw_transfer OPER_REST_STOP NAU7802_ADDR p 0); mret ec);
    _ ← bus_release sem_bits sem; mret ec.

Definition NAU7802_I2CRead (reg_addr : Z) (size : nat) (timeout : Z) : prog (board * W) (Z * list Z) :=
  rc ← bus_lock sem_bits task_id sem slices timeout;
  if negb (rc =? EOK) then mret (ETIMEOUT, [])
  else
    '(ec, _) ← on_snd (tw_transfer OPER_WRITE NAU7802_ADDR [u8 reg_addr] 0);
    '(ec, bs) ← (if negb (ec =? EOK) then mret (ec, []) else on_snd (tw_transfer OPER_READ_STOP NAU7802_ADDR [] size));
    _ ← bus_release sem_bits sem; mret (ec, bs).

Definition NAU7802_RegisterWrite (reg_addr val : Z) : prog (board * W) Z := NAU7802_I2CWrite reg_addr [u8 val] 0.
Definition NAU7802_RegisterRead (reg_addr : Z) : prog (board * W) (Z * Z) :=
  '(ec, bs) ← NAU7802_I2CRead reg_addr 1 0; mret (ec, hd 0 bs).

(** The code of a failed write is that of the comparison, 1. *)
Definition NAU7802_RegisterModify (reg_addr mask val : Z) : prog (board * W) Z :=
  '(ec, reg) ← NAU7802_RegisterRead reg_addr;
  if negb (ec =? EOK) then mret ec
  else
    let reg := u8 (Z.lor (Z.land reg (Z.lnot mask)) val) in
    rc ← NAU7802_RegisterWrite reg_addr reg;
    let ec := Z.b2z (negb (rc =? EOK)) in
    if negb (ec =? 0) then mret ec else mret EOK.

Definition NAU7802_Reset : prog (board * W) Z :=
  ec ← steps [NAU7802_RegisterModify NAU7802_REG_PU_CTRL NAU7802_PU_CTRL_RR NAU7802_PU_CTRL_RR;
              NAU7802_RegisterModify NAU7802_REG_PU_CTRL NAU7802_PU_CTRL_RR 0;
              NAU7802_RegisterModify NAU7802_REG_PU_CTRL NAU7802_PU_CTRL_PUD NAU7802_PU_CTRL_PUD];
  if negb (ec =? EOK) then mret ec
  else
    '(ec, reg) ← NAU7802_RegisterRead NAU7802_REG_PU_CTRL;
    mret (if negb (ec =? EOK) then ec else if has reg NAU7802_PU_CTRL_PUR then EOK else EFATAL).

(** The code, and the revision when there is one. *)
Definition NAU7802_GetRevisionID : prog (board * W) (Z * option Z) :=
  '(ec, reg) ← NAU7802_RegisterRead NAU7802_REG_REVISION_ID;
  if negb (ec =? EOK) then mret (ec, None) else mret (EOK, Some (Z.land reg NAU7802_REVISION_ID_ID)).

Definition NAU7802_Enable (enable : bool) : prog (board * W) Z :=
  if enable then
    steps [NAU7802_RegisterModify NAU7802_REG_PU_CTRL NAU7802_PU_CTRL_PUD NAU7802_PU_CTRL_PUD;
           NAU7802_RegisterModify NAU7802_REG_PU_CTRL NAU7802_PU_CTRL_PUA NAU7802_PU_CTRL_PUA;
           NAU7802_RegisterModify NAU7802_REG_PU_CTRL NAU7802_PU_CTRL_CS NAU7802_PU_CTRL_CS]
  else
    steps [NAU7802_RegisterModify NAU7802_REG_PU_CTRL NAU7802_PU_CTRL_PUA 0;
           NAU7802_RegisterModify NAU7802_REG_PU_CTRL NAU7802_PU_CTRL_PUD 0].

Definition NAU7802_SetLDO (mode : nau7802_ldo) : prog (board * W) Z :=
  let '(vldo, avdds) := vldo_bits mode in
  steps [NAU7802_RegisterModify NAU7802_REG_PU_CTRL NAU7802_PU_CTRL_AVDDS (Z.shiftl avdds (LSB NAU7802_PU_CTRL_AVDDS));
         NAU7802_RegisterModify NAU7802_REG_CTRL1 NAU7802_CTRL1_VLDO (Z.shiftl vldo (LSB NAU7802_CTRL1_VLDO))].

Definition NAU7802_SetGain (gain : nau7802_gain) : prog (board * W) Z :=
  NAU7802_RegisterModify NAU7802_REG_CTRL1 NAU7802_CTRL1_GAINS (Z.shiftl (gain_bits gain) (LSB NAU7802_CTRL1_GAINS)).

Definition NAU7802_SetSamplingRate (rate : nau7802_sample_rate) : prog (board * W) Z :=
  NAU7802_RegisterModify NAU7802_REG_CTRL2 NAU7802_CTRL2_CRS (Z.shiftl (rate_bits rate) (LSB NAU7802_CTRL2_CRS)).

Fixpoint calibrate_loop (fuel : nat) : prog (board * W) (Z * Z) :=
  match fuel with
  | O => fault OutOfFuel
  | S fuel =>
      '(ec, ctrl2) ← NAU7802_RegisterRead NAU7802_REG_CTRL2;
      if negb (ec =? EOK) || has ctrl2 NAU7802_CTRL2_CALS then mret (ec, ctrl2) else calibrate_loop fuel
  end.

Definition NAU7802_Calibrate (fuel : nat) (mode : nau7802_calib_mode) : prog (board * W) Z :=
  ec ← steps [NAU7802_RegisterModify NAU7802_REG_CTRL2 NAU7802_CTRL2_CALMOD (Z.shiftl (mode_bits mode) (LSB NAU7802_CTRL2_CALMOD));
              NAU7802_RegisterModify NAU7802_REG_CTRL2 NAU7802_CTRL2_CALS NAU7802_CTRL2_CALS];
  if negb (ec =? EOK) then mret ec
  else
    '(ec, ctrl2) ← calibrate_loop fuel;
    mret (if negb (ec =? EOK) then ec else if has ctrl2 NAU7802_CTRL2_CAL_ERR then EFATAL else EOK).

(** The code, and the value when there is one. *)
Definition NAU7802_Read : prog (board * W) (Z * option Z) :=
  '(ec, buf) ← NAU7802_I2CRead NAU7802_REG_ADCO_B2 3 0;
  if negb (ec =? EOK) then mret (ec, None)
  else
    let b i := nth i buf 0 in
    let value := Z.lor (Z.lor (Z.shiftl (b 0%nat) 16) (Z.shiftl (b 1%nat) 8)) (b 2%nat) in
    mret (EOK, Some (Z.shiftr (s32 (Z.shiftl value 8)) 8)).

Definition NAU7802_DataReady : prog (board * W) (Z * option bool) :=
  match drdy with
  | Some pin => λ '(t, s), Ok ((EOK, Some (pin s)), (t, s))
  | None =>
      '(ec, reg) ← NAU7802_RegisterRead NAU7802_REG_PU_CTRL;
      if negb (ec =? EOK) then mret (ec, None) else mret (EOK, Some (has reg NAU7802_PU_CTRL_CR))
  end.

Definition NAU7802_DevInit (fuel : nat) : prog (board * W) Z :=
  ec ← NAU7802_Reset;
  if negb (ec =? EOK) then mret ec
  else
    '(ec, rev_id) ← NAU7802_GetRevisionID;
    if negb (ec =? EOK) || negb (bool_decide (rev_id = Some 0xf)) then mret ec
    else
      steps [NAU7802_Enable true; NAU7802_SetLDO LDO_EXTERNAL; NAU7802_SetGain GAIN_128; NAU7802_SetSamplingRate RATE_40SPS;
             NAU7802_RegisterModify NAU7802_REG_ADC NAU7802_ADC_REG_CHPS NAU7802_ADC_REG_CHPS;
             NAU7802_RegisterModify NAU7802_REG_PGA NAU7802_PGA_LDOMODE 0;
             NAU7802_RegisterModify NAU7802_REG_POWER NAU7802_POWER_PGA_CAP_EN NAU7802_POWER_PGA_CAP_EN;
             NAU7802_Calibrate fuel CALMOD_INTERNAL; NAU7802_Calibrate fuel CALMOD_OFFSET].
End driver.

(** ** With a chip that has registers *)

Section with_chip.
Context (sem_bits task_id sem : Z) (slices : list sem_slice) (react : nat → Z → list Z → list Z).
Abbreviation chip_at := (regs_at NAU7802_ADDR react).

Lemma registers_read b m ptr held r n :
  board_free sem slices b → Forall is_u8 m → 0 ≤ r < 256 → (Z.to_nat r + n ≤ length m)%nat → (0 < n)%nat →
  NAU7802_I2CRead sem_bits task_id sem slices r n 0 (b, chip_at m ptr held) =
  Ok ((EOK, take n (drop (Z.to_nat r) m)), (b, chip_at m (Z.to_nat r + n) false)).
Proof.
  intros Hb Hm Hr Hl Hn. unfold NAU7802_I2CRead. rewrite bus_locked by done. change (negb (EOK =? EOK)) with false. cbv iota. rewrite (u8_small r) by done.
  rewrite (sent _ _ _ _ _ _ _ _ _ (number_written NAU7802_ADDR ltac:(done) react OPER_WRITE m ptr held r (or_introl eq_refl) Hr)).
  change (negb (EOK =? EOK)) with false. cbv beta iota.
  rewrite (sent _ _ _ _ _ _ _ _ _ (values_read NAU7802_ADDR ltac:(done) react m (Z.to_nat r) _ n Hm Hl Hn)). cbv beta iota.
  by rewrite bus_released by apply Hb.
Qed.

Lemma register_written b m ptr held r v :
  board_free sem slices b → 0 ≤ r < 256 → is_u8 v →
  NAU7802_I2CWrite sem_bits task_id sem slices r [v] 0 (b, chip_at m ptr held) = Ok (EOK, (b, chip_at (react (Z.to_nat r) v m) (S (Z.to_nat r)) false)).
Proof.
  intros Hb Hr Hv. unfold NAU7802_I2CWrite. rewrite bus_locked by done. change (negb (EOK =? EOK)) with false. cbv iota. rewrite (u8_small r) by done.
  rewrite (sent _ _ _ _ _ _ _ _ _ (number_written NAU7802_ADDR ltac:(done) react OPER_WRITE m ptr held r (or_introl eq_refl) Hr)).
  change (negb (EOK =? EOK)) with false. change (negb (has OPER_WRITE SWI2C_OPER_STOP)) with true. cbv beta iota.
  rewrite (prog_bind_Ok _ _ _ EOK (mk_board (<[sem := task_id mod 2 ^ sem_bits]> (bd_sems b)) (bd_clock b), chip_at (react (Z.to_nat r) v m) (S (Z.to_nat r)) false)).
  - by rewrite bus_released by apply Hb.
  - by rewrite (sent _ _ _ _ _ _ _ _ _ (value_written NAU7802_ADDR ltac:(done) react m (Z.to_nat r) v Hv)).
Qed.

Lemma register_modified b m ptr held r mask val old :
  board_free sem slices b → Forall is_u8 m → 0 ≤ r < 256 → m !! Z.to_nat r = Some old →
  NAU7802_RegisterModify sem_bits task_id sem slices r mask val (b, chip_at m ptr held) =
  Ok (EOK, (b, chip_at (react (Z.to_nat r) (u8 (Z.lor (Z.land old (Z.lnot mask)) val)) m) (S (Z.to_nat r)) false)).
Proof.
  intros Hb Hm Hr Ho. pose proof (lookup_lt_Some _ _ _ Ho) as Hl. unfold NAU7802_RegisterModify.
  assert (NAU7802_RegisterRead sem_bits task_id sem slices r (b, chip_at m ptr held) = Ok ((EOK, old), (b, chip_at m (Z.to_nat r + 1) false))) as E.
  { unfold NAU7802_RegisterRead. rewrite (prog_bind_Ok _ _ _ _ _ (registers_read b m ptr held r 1 Hb Hm Hr ltac:(lia) ltac:(lia))).
    by rewrite (drop_S m old) by done. }
  rewrite (prog_bind_Ok _ _ _ _ _ E). change (negb (EOK =? EOK)) with false. cbv beta iota zeta. unfold NAU7802_RegisterWrite. rewrite u8_idemp.
  by rewrite (prog_bind_Ok _ _ _ _ _ (register_written b m (Z.to_nat r + 1) false r _ Hb Hr (u8_range _))).
Qed.
End with_chip.

(** ** Over the lines *)

Section lines.
Context {W1 W2 : Type} `{TwoWire W1} `{TwoWire W2} (R : W1 → W2 → Prop) (sem_bits task_id sem : Z) (slices : list sem_slice).
Context (Htransfer : ∀ oper addr p size, simulates R (tw_transfer oper addr p size) (tw_transfer oper addr p size)).

Ltac follow_bus := repeat (follow; try (apply sim_on_snd, Htransfer)).

Lemma sim_i2c_read r n t : simulates (beside R) (NAU7802_I2CRead sem_bits task_id sem slices r n t) (NAU7802_I2CRead sem_bits task_id sem slices r n t).
Proof. unfold NAU7802_I2CRead, bus_lock, bus_release. follow_bus. Qed.
Lemma sim_i2c_write r p t : simulates (beside R) (NAU7802_I2CWrite sem_bits task_id sem slices r p t) (NAU7802_I2CWrite sem_bits task_id sem slices r p t).
Proof. unfold NAU7802_I2CWrite, bus_lock, bus_release. follow_bus. Qed.
Lemma sim_modify r mask val :
  simulates (beside R) (NAU7802_RegisterModify sem_bits task_id sem slices r mask val) (NAU7802_RegisterModify sem_bits task_id sem slices r mask val).
Proof.
  unfold NAU7802_RegisterModify, NAU7802_RegisterRead, NAU7802_RegisterWrite. follow; try apply sim_i2c_read; follow; try apply sim_i2c_write; follow.
Qed.
Lemma sim_value : simulates (beside R) (NAU7802_Read sem_bits task_id sem slices) (NAU7802_Read sem_bits task_id sem slices).
Proof. unfold NAU7802_Read. follow; try apply sim_i2c_read; follow. Qed.
End lines.

(** ** What the driver guarantees *)

(** What the three bytes of a conversion stand for. *)
Definition value_of (b2 b1 b0 : Z) : Z :=
  let v := 65536 * b2 + 256 * b1 + b0 in if v <? 2 ^ 23 then v else v - 2 ^ 24.

Lemma bytes_joined b2 b1 b0 : is_u8 b2 → is_u8 b1 → is_u8 b0 →
  Z.lor (Z.lor (Z.shiftl b2 16) (Z.shiftl b1 8)) b0 = 65536 * b2 + 256 * b1 + b0.
Proof.
  intros H2 H1 H0. change 16 with (8 + 8). rewrite <- Z.shiftl_shiftl, <- Z.shiftl_lor by lia. rewrite !lor_shiftl by (word_lia || lia). lia.
Qed.

Lemma sign_extended v : 0 ≤ v < 2 ^ 24 → Z.shiftr (s32 (Z.shiftl v 8)) 8 = if v <? 2 ^ 23 then v else v - 2 ^ 24.
Proof.
  intros Hv. rewrite Z.shiftl_mul_pow2, Z.shiftr_div_pow2 by lia. unfold s32. destruct (Z.ltb_spec v (2 ^ 23)); word_lia.
Qed.

Lemma u8_bits x i : 8 ≤ i → Z.testbit (u8 x) i = false.
Proof. intros Hi. unfold u8. change 256 with (2 ^ 8). apply Z.mod_pow2_bits_high. lia. Qed.

Lemma field_set old mask val i : is_u8 old → is_u8 mask → Z.land val mask = val → 0 ≤ i →
  Z.testbit (u8 (Z.lor (Z.land old (Z.lnot mask)) val)) i = if Z.testbit mask i then Z.testbit val i else Z.testbit old i.
Proof.
  intros Ho Hm Hv Hi. apply (f_equal (λ z, Z.testbit z i)) in Hv. rewrite Z.land_spec in Hv. destruct (decide (8 ≤ i)) as [H8|H8].
  - rewrite u8_bits by done. rewrite <- (u8_small mask) in Hv |- * by done. rewrite <- (u8_small old) by done. by rewrite !u8_bits by done.
  - unfold u8. change 256 with (2 ^ 8). rewrite Z.mod_pow2_bits_low by lia. rewrite Z.lor_spec, Z.land_spec, Z.lnot_spec by lia.
    destruct (Z.testbit mask i), (Z.testbit val i), (Z.testbit old i); done.
Qed.

Section claims.
Context (sem_bits task_id sem : Z) (slices : list sem_slice) (scl_polls : bus regs → list (Z * bool)) (junk : Z).

Definition Modify_lines := @NAU7802_RegisterModify _ (lines_bus scl_polls junk) sem_bits task_id sem slices.
Definition Value_lines := @NAU7802_Read _ (lines_bus scl_polls junk) sem_bits task_id sem slices.

(** modifying a register of the chip, over the two lines, sets the field of the
    mask to the value and leaves the other bits of the register and the other
    registers as they are; the bus is given back. *)
Theorem nau7802_field_set bd b m ptr held r mask val old :
  (∀ b : bus regs, stretch SWI2C_TIMEOUT (scl_polls b) = Ok EOK) → board_free sem slices bd →
  lines_of b (regs_at NAU7802_ADDR plain m ptr held) → Forall is_u8 m → 0 ≤ r < 256 → m !! Z.to_nat r = Some old →
  is_u8 mask → Z.land val mask = val →
  ∃ b' new, Modify_lines r mask val (bd, b) = Ok (EOK, (bd, b')) ∧ rg_mem (bs_dev b') = <[Z.to_nat r := new]> m ∧
    ∀ i, 0 ≤ i → Z.testbit new i = if Z.testbit mask i then Z.testbit val i else Z.testbit old i.
Proof.
  intros Hst Hbd Hb Hm Hr Ho Hmask Hval.
  pose proof (register_modified sem_bits task_id sem slices plain bd m ptr held r mask val old Hbd Hm Hr Ho) as E.
  assert (beside lines_of (bd, b) (bd, regs_at NAU7802_ADDR plain m ptr held)) as HR by done.
  assert (∀ oper addr p size, simulates lines_of (@tw_transfer _ (lines_bus scl_polls junk) oper addr p size) (tw_transfer oper addr p size)) as Hsim
    by (intros; by apply lines_carry_bytes).
  destruct (@sim_modify _ _ (lines_bus scl_polls junk) _ lines_of sem_bits task_id sem slices Hsim r mask val _ _ _ _ HR E) as ([bd' b'] & F & [Ed (Hd & _)]).
  cbn in Ed, Hd. subst bd'. eexists b', _. split; [exact F|]. rewrite Hd. split; [done|]. intros i Hi. apply field_set; try done.
  rewrite Forall_lookup in Hm. by eapply Hm.
Qed.

(** the value read is that of the three bytes of the conversion as a number of
    24 bits with its sign. *)
Theorem nau7802_value bd b react m ptr held b2 b1 b0 :
  (∀ b : bus regs, stretch SWI2C_TIMEOUT (scl_polls b) = Ok EOK) → board_free sem slices bd →
  lines_of b (regs_at NAU7802_ADDR react m ptr held) → Forall is_u8 m →
  m !! 18%nat = Some b2 → m !! 19%nat = Some b1 → m !! 20%nat = Some b0 →
  ∃ b', Value_lines (bd, b) = Ok ((EOK, Some (value_of b2 b1 b0)), (bd, b')).
Proof.
  intros Hst Hbd Hb Hm H2 H1 H0. pose proof (lookup_lt_Some _ _ _ H0) as Hl.
  pose proof (registers_read sem_bits task_id sem slices react bd m ptr held 18 3 Hbd Hm ltac:(done) ltac:(lia) ltac:(lia)) as E.
  change (Z.to_nat 18) with 18%nat in E. rewrite (drop_S m b2 18), (drop_S m b1 19), (drop_S m b0 20) in E by done. cbn [take] in E.
  assert (NAU7802_Read sem_bits task_id sem slices (bd, regs_at NAU7802_ADDR react m ptr held) =
    Ok ((EOK, Some (value_of b2 b1 b0)), (bd, regs_at NAU7802_ADDR react m 21 false))) as E2.
  { unfold NAU7802_Read, NAU7802_REG_ADCO_B2. rewrite (prog_bind_Ok _ _ _ _ _ E). change (negb (EOK =? EOK)) with false. cbv beta iota zeta. cbn [nth].
    rewrite Forall_lookup in Hm. pose proof (Hm _ _ H2). pose proof (Hm _ _ H1). pose proof (Hm _ _ H0).
    rewrite bytes_joined by done. rewrite sign_extended by word_lia. done. }
  assert (beside lines_of (bd, b) (bd, regs_at NAU7802_ADDR react m ptr held)) as HR by done.
  assert (∀ oper addr p size, simulates lines_of (@tw_transfer _ (lines_bus scl_polls junk) oper addr p size) (tw_transfer oper addr p size)) as Hsim
    by (intros; by apply lines_carry_bytes).
  destruct (@sim_value _ _ (lines_bus scl_polls junk) _ lines_of sem_bits task_id sem slices Hsim _ _ _ _ HR E2) as ([bd' b'] & F & [Ed _]).
  cbn in Ed. subst bd'. by exists b'.
Qed.
End claims.

(** ** Concrete inputs *)

Definition no_stretch_polls : bus regs → list (Z * bool) := λ _, [(0, true)].
Definition free_board : board := mk_board {[10 := 0]} [].
Definition one_turn : list sem_slice := [mk_sem_slice 0 (λ m, m)].
Definition regs32 (pu_ctrl ctrl2 rev : Z) : list Z := [pu_ctrl; 0; ctrl2] ++ replicate 15 0 ++ [0xff; 0xfe; 0x01] ++ replicate 10 0 ++ [rev].
Definition nau_lines (m : list Z) : bus regs := free (mk_regs NAU7802_ADDR plain m 0 ROff).

Definition on_nau {A} (p : ∀ `{TwoWire (bus regs)}, prog (board * bus regs) A) (m : list Z) : res (A * list Z) :=
  '(a, (_, b)) ← @p (lines_bus no_stretch_polls 77) (free_board, nau_lines m); Ok (a, take 3 (rg_mem (bs_dev b))).

Example gain_is_set : on_nau (λ _, NAU7802_SetGain 8 2 10 one_turn GAIN_128) (regs32 0 0 0) = Ok (EOK, [0; 7; 0]).
Proof. vm_compute. reflexivity. Qed.

(** The mask for the start of a calibration is that of its mode: an internal one
    leaves the mode of the gain, and is taken for done at the first look. *)
Example calibration_mode_lost :
  on_nau (λ _, NAU7802_Calibrate 8 2 10 one_turn 1 CALMOD_INTERNAL) (regs32 0 0x30 0) = Ok (EOK, [0; 0; 0x30 + mode_bits CALMOD_GAIN]).
Proof. vm_compute. reflexivity. Qed.

(** A chip of another revision is not set up, and there is no error. *)
Example other_revision : on_nau (λ _, NAU7802_DevInit 8 2 10 one_turn 5) (regs32 NAU7802_PU_CTRL_PUR 0 0x0e) = Ok (EOK, [NAU7802_PU_CTRL_PUR + NAU7802_PU_CTRL_PUD; 0; 0]).
Proof. vm_compute. reflexivity. Qed.

(** A write that fails gives 1, which is no error code. *)
Definition failing_bus : TwoWire nat := {|
  tw_transfer oper addr p size := λ n, match n with O => Ok ((EI2C_NACK, []), O) | S n => Ok ((EOK, replicate size 0), n) end |}.
Example failure_is_one : ('(ec, _) ← @NAU7802_RegisterModify _ failing_bus 8 2 10 one_turn NAU7802_REG_CTRL1 0x07 1 (free_board, 3%nat); Ok ec) = Ok 1.
Proof. vm_compute. reflexivity. Qed.

Lemma nau7802_field_set_witness :
  ∃ b' new, Modify_lines 8 2 10 one_turn no_stretch_polls 77 NAU7802_REG_CTRL2 NAU7802_CTRL2_CRS 0x20 (free_board, nau_lines (regs32 0 0x13 0)) = Ok (EOK, (free_board, b')) ∧
    rg_mem (bs_dev b') = <[2%nat := new]> (regs32 0 0x13 0).
Proof.
  destruct (nau7802_field_set 8 2 10 one_turn no_stretch_polls 77 free_board (nau_lines (regs32 0 0x13 0)) (regs32 0 0x13 0) 0 false NAU7802_REG_CTRL2 NAU7802_CTRL2_CRS 0x20 0x13)
    as (b' & new & E & Em & _).
  - done.
  - done.
  - by repeat split.
  - by repeat constructor.
  - done.
  - done.
  - done.
  - done.
  - exists b', new. split; [exact E|exact Em].
Defined.

Lemma nau7802_value_witness :
  ∃ b', Value_lines 8 2 10 one_turn no_stretch_polls 77 (free_board, nau_lines (regs32 0 0 0)) = Ok ((EOK, Some (-511)), (free_board, b')).
Proof.
  destruct (nau7802_value 8 2 10 one_turn no_stretch_polls 77 free_board (nau_lines (regs32 0 0 0)) plain (regs32 0 0 0) 0 false 0xff 0xfe 0x01) as (b' & E).
  - done.
  - done.
  - by repeat split.
  - by repeat constructor.
  - done.
  - done.
  - done.
  - exists b'. exact E.
Defined.
