(* ===== verification/Husb238.v ===== *)
(** * The power delivery chip (dev/src/husb238.c, dev/husb238.h)

    The driver over any two-wire bus: registers, commands, and the contract that
    was made with the source as voltage and current. *)
From S2P Require Import Prelude Words Time Sem Stream Swi2c TwoWire RegChip.

Definition I2C_ADDR : Z := 0x08.
Definition REGADDR_PD_STATUS0 : Z := 0x00.
Definition REGADDR_PD_STATUS1 : Z := 0x01.
Definition REGADDR_GO_COMMAND : Z := 0x09.
Definition REG_PD_STATUS0_PD_SRC_VOLTAGE : Z := 0xf0.
Definition REG_PD_STATUS0_PD_SRC_VOLTAGE_5V : Z := 0x10.
Definition REG_PD_STATUS0_PD_SRC_VOLTAGE_9V : Z := 0x20.
Definition REG_PD_STATUS0_PD_SRC_VOLTAGE_12V : Z := 0x30.
Definition REG_PD_STATUS0_PD_SRC_VOLTAGE_15V : Z := 0x40.
Definition REG_PD_STATUS0_PD_SRC_VOLTAGE_18V : Z := 0x50.
Definition REG_PD_STATUS0_PD_SRC_VOLTAGE_20V : Z := 0x60.
Definition REG_PD_STATUS0_PD_SRC_CURRENT : Z := 0x0f.
Definition REG_PD_STATUS0_PD_SRC_CURRENT_0A5 : Z := 0x00.
Definition REG_PD_STATUS0_PD_SRC_CURRENT_0A7 : Z := 0x01.
Definition REG_PD_STATUS0_PD_SRC_CURRENT_1A : Z := 0x02.
Definition REG_PD_STATUS0_PD_SRC_CURRENT_1A25 : Z := 0x03.
Definition REG_PD_STATUS0_PD_SRC_CURRENT_1A5 : Z := 0x04.
Definition REG_PD_STATUS0_PD_SRC_CURRENT_1A75 : Z := 0x05.
Definition REG_PD_STATUS0_PD_SRC_CURRENT_2A : Z := 0x06.
Definition REG_PD_STATUS0_PD_SRC_CURRENT_2A25 : Z := 0x07.
Definition REG_PD_STATUS0_PD_SRC_CURRENT_2A5 : Z := 0x08.
Definition REG_PD_STATUS0_PD_SRC_CURRENT_2A75 : Z := 0x09.
Definition REG_PD_STATUS0_PD_SRC_CURRENT_3A : Z := 0x0a.
Definition REG_PD_STATUS0_PD_SRC_CURRENT_3A25 : Z := 0x0b.
Definition REG_PD_STATUS0_PD_SRC_CURRENT_3A5 : Z := 0x0c.
Definition REG_PD_STATUS0_PD_SRC_CURRENT_4A : Z := 0x0d.
Definition REG_PD_STATUS0_PD_SRC_CURRENT_4A5 : Z := 0x0e.
Definition REG_PD_STATUS0_PD_SRC_CURRENT_5A : Z := 0x0f.
Definition REG_PD_STATUS1_ATTACH : Z := 0x40.
Definition REG_PD_STATUS1_PD_RESPONSE : Z := 0x38.
Definition REG_PD_STATUS1_PD_RESPONSE_SUCCESS : Z := 0x08.
Definition REG_PD_STATUS1_5V_VOLTAGE : Z := 0x04.
Definition REG_PD_STATUS1_5V_VOLTAGE_5V : Z := 0x04.
Definition REG_PD_STATUS1_5V_CURRENT : Z := 0x03.
Definition REG_PD_STATUS1_5V_CURRENT_DEFAULT : Z := 0x00.
Definition REG_PD_STATUS1_5V_CURRENT_1A5 : Z := 0x01.
Definition REG_PD_STATUS1_5V_CURRENT_2A4 : Z := 0x02.
Definition REG_PD_STATUS1_5V_CURRENT_3A : Z := 0x03.
Definition REG_GO_COMMAND_COMMAND_FUNC_GET_SRC_CAP : Z := 0x04.
Definition REG_GO_COMMAND_COMMAND_FUNC_HARD_RESET : Z := 0x10.

Inductive husb328_volts := HUSB_VOLTS_UNKNOWN | HUSB_VOLTS_5V | HUSB_VOLTS_9V | HUSB_VOLTS_12V | HUSB_VOLTS_15V | HUSB_VOLTS_18V | HUSB_VOLTS_20V.
Inductive husb328_amps :=
  | HUSB_AMPS_UNKNOWN | HUSB_AMPS_0A5 | HUSB_AMPS_0A7 | HUSB_AMPS_1A | HUSB_AMPS_1A25 | HUSB_AMPS_1A5
  | HUSB_AMPS_1A75 | HUSB_AMPS_2A | HUSB_AMPS_2A25 | HUSB_AMPS_2A5 | HUSB_AMPS_2A75 | HUSB_AMPS_3A
  | HUSB_AMPS_3A25 | HUSB_AMPS_3A5 | HUSB_AMPS_4A | HUSB_AMPS_4A5 | HUSB_AMPS_5A.

(** Voltage and current of a contract made by power delivery. *)
Definition pd_volts (status0 : Z) : husb328_volts :=
  let vol := Z.land status0 REG_PD_STATUS0_PD_SRC_VOLTAGE in
  if vol =? REG_PD_STATUS0_PD_SRC_VOLTAGE_5V then HUSB_VOLTS_5V
  else if vol =? REG_PD_STATUS0_PD_SRC_VOLTAGE_9V then HUSB_VOLTS_9V
  else if vol =? REG_PD_STATUS0_PD_SRC_VOLTAGE_12V then HUSB_VOLTS_12V
  else if vol =? REG_PD_STATUS0_PD_SRC_VOLTAGE_15V then HUSB_VOLTS_15V
  else if vol =? REG_PD_STATUS0_PD_SRC_VOLTAGE_18V then HUSB_VOLTS_18V
  else if vol =? REG_PD_STATUS0_PD_SRC_VOLTAGE_20V then HUSB_VOLTS_20V
  else HUSB_VOLTS_UNKNOWN.

Definition pd_amps (status0 : Z) : husb328_amps :=
  let cur := Z.land status0 REG_PD_STATUS0_PD_SRC_CURRENT in
  if cur =? REG_PD_STATUS0_PD_SRC_CURRENT_0A5 then HUSB_AMPS_0A5
  else if cur =? REG_PD_STATUS0_PD_SRC_CURRENT_0A7 then HUSB_AMPS_0A7
  else if cur =? REG_PD_STATUS0_PD_SRC_CURRENT_1A then HUSB_AMPS_1A
  else if cur =? REG_PD_STATUS0_PD_SRC_CURRENT_1A25 then HUSB_AMPS_1A25
  else if cur =? REG_PD_STATUS0_PD_SRC_CURRENT_1A5 then HUSB_AMPS_1A5
  else if cur =? REG_PD_STATUS0_PD_SRC_CURRENT_1A75 then HUSB_AMPS_1A75
  else if cur =? REG_PD_STATUS0_PD_SRC_CURRENT_2A then HUSB_AMPS_2A
  else if cur =? REG_PD_STATUS0_PD_SRC_CURRENT_2A25 then HUSB_AMPS_2A25
  else if cur =? REG_PD_STATUS0_PD_SRC_CURRENT_2A5 then HUSB_AMPS_2A5
  else if cur =? REG_PD_STATUS0_PD_SRC_CURRENT_2A75 then HUSB_AMPS_2A75
  else if cur =? REG_PD_STATUS0_PD_SRC_CURRENT_3A then HUSB_AMPS_3A
  else if cur =? REG_PD_STATUS0_PD_SRC_CURRENT_3A25 then HUSB_AMPS_3A25
  else if cur =? REG_PD_STATUS0_PD_SRC_CURRENT_3A5 then HUSB_AMPS_3A5
  else if cur =? REG_PD_STATUS0_PD_SRC_CURRENT_4A then HUSB_AMPS_4A
  else if cur =? REG_PD_STATUS0_PD_SRC_CURRENT_4A5 then HUSB_AMPS_4A5
  else if cur =? REG_PD_STATUS0_PD_SRC_CURRENT_5A then HUSB_AMPS_5A
  else HUSB_AMPS_UNKNOWN.

(** The current of a source without it. *)
Definition legacy_amps (status1 : Z) : husb328_amps :=
  let cur := Z.land status1 REG_PD_STATUS1_5V_CURRENT in
  if cur =? REG_PD_STATUS1_5V_CURRENT_DEFAULT then HUSB_AMPS_UNKNOWN
  else if cur =? REG_PD_STATUS1_5V_CURRENT_1A5 then HUSB_AMPS_1A5
  else if cur =? REG_PD_STATUS1_5V_CURRENT_2A4 then HUSB_AMPS_2A25
  else if cur =? REG_PD_STATUS1_5V_CURRENT_3A then HUSB_AMPS_3A
  else HUSB_AMPS_UNKNOWN.

Definition contract (status0 status1 : Z) : husb328_volts * husb328_amps :=
  if negb (has status1 REG_PD_STATUS1_ATTACH)
     || negb (Z.land status1 REG_PD_STATUS1_PD_RESPONSE =? REG_PD_STATUS1_PD_RESPONSE_SUCCESS) then (HUSB_VOLTS_UNKNOWN, HUSB_AMPS_UNKNOWN)
  else
    let using_5v := Z.land status1 REG_PD_STATUS1_5V_VOLTAGE =? REG_PD_STATUS1_5V_VOLTAGE_5V in
    (if using_5v then HUSB_VOLTS_5V else pd_volts status0, if using_5v then legacy_amps status1 else pd_amps status0).

Section driver.
Context {W : Type} `{TwoWire W} (sem_bits task_id sem junk : Z) (slices : list sem_slice).

(** [with_sem] *)
Definition with_sem {A} (none : A) (body : prog (board * W) A) : prog (board * W) A :=
  rc ← bus_lock sem_bits task_id sem slices 0;
  a ← (if 0 <? rc + 1 then body else mret none);
  _ ← bus_release sem_bits sem; mret a.

(** The value has none of its own when the code is an error. *)
Definition HUSB238_ReadReg (reg_addr : Z) : prog (board * W) (Z * Z) :=
  '(ec, bs) ← with_sem (EOK, []) (
    '(ec, _) ← on_snd (tw_transfer OPER_WRITE_STOP I2C_ADDR [u8 reg_addr] 0);
    if EOK <=? ec then '(rc, bs) ← on_snd (tw_transfer OPER_READ_STOP I2C_ADDR [] 1); mret (Z.lor ec rc, bs) else mret (ec, []));
  mret (ec, hd junk bs).

Definition HUSB238_WriteReg (reg_addr val : Z) : prog (board * W) Z :=
  with_sem EOK ('(ec, _) ← on_snd (tw_transfer OPER_WRITE_STOP I2C_ADDR [u8 reg_addr; u8 val] 0); mret ec).

Definition HUSB238_QuerySource : prog (board * W) Z := HUSB238_WriteReg REGADDR_GO_COMMAND REG_GO_COMMAND_COMMAND_FUNC_GET_SRC_CAP.
Definition HUSB238_HardReset : prog (board * W) Z := HUSB238_WriteReg REGADDR_GO_COMMAND REG_GO_COMMAND_COMMAND_FUNC_HARD_RESET.
Definition HUSB238_DevInit : prog (board * W) Z := HUSB238_HardReset.

Definition HUSB238_GetCurrentContract : prog (board * W) (Z * option (husb328_volts * husb328_amps)) :=
  '(ec, status0) ← HUSB238_ReadReg REGADDR_PD_STATUS0;
  '(ec, status1) ← (if EOK <=? ec then HUSB238_ReadReg REGADDR_PD_STATUS1 else mret (ec, junk));
  if ec <? EOK then mret (ec, None) else mret (ec, Some (contract status0 status1)).
End driver.

(** ** With the chip, and over the lines *)

Section with_chip.
Context (sem_bits task_id sem junk : Z) (slices : list sem_slice) (react : nat → Z → list Z → list Z).
Abbreviation chip_at := (regs_at I2C_ADDR react).

Lemma with_bus {A} (none : A) (body : prog (board * bytes regs) A) b s a s' :
  board_free sem slices b →
  body (mk_board (<[sem := task_id mod 2 ^ sem_bits]> (bd_sems b)) (bd_clock b), s) =
    Ok (a, (mk_board (<[sem := task_id mod 2 ^ sem_bits]> (bd_sems b)) (bd_clock b), s')) →
  with_sem sem_bits task_id sem slices none body (b, s) = Ok (a, (b, s')).
Proof.
  intros Hb E. unfold with_sem. rewrite bus_locked by done. change (0 <? EOK + 1) with true. cbv iota.
  rewrite (prog_bind_Ok _ _ _ _ _ E). by rewrite bus_released by apply Hb.
Qed.

Lemma reg_read b m ptr held r v :
  board_free sem slices b → Forall is_u8 m → 0 ≤ r < 256 → m !! Z.to_nat r = Some v →
  HUSB238_ReadReg sem_bits task_id sem junk slices r (b, chip_at m ptr held) = Ok ((EOK, v), (b, chip_at m (Z.to_nat r + 1) false)).
Proof.
  intros Hb Hm Hr Hv. pose proof (lookup_lt_Some _ _ _ Hv) as Hl. unfold HUSB238_ReadReg.
  rewrite (prog_bind_Ok _ _ _ (EOK, [v]) (b, chip_at m (Z.to_nat r + 1) false)); [done|]. apply with_bus; [done|]. rewrite (u8_small r) by done.
  rewrite (sent _ _ _ _ _ _ _ _ _ (number_written I2C_ADDR ltac:(done) react OPER_WRITE_STOP m ptr held r (or_intror eq_refl) Hr)). cbv beta iota.
  change (EOK <=? EOK) with true. cbv iota.
  rewrite (sent _ _ _ _ _ _ _ _ _ (values_read I2C_ADDR ltac:(done) react m (Z.to_nat r) _ 1 Hm ltac:(lia) ltac:(lia))). cbv beta iota.
  by rewrite (drop_S m v) by done.
Qed.

Lemma reg_written b m ptr held r v :
  board_free sem slices b → 0 ≤ r < 256 → is_u8 v →
  HUSB238_WriteReg sem_bits task_id sem slices r v (b, chip_at m ptr held) = Ok (EOK, (b, chip_at (react (Z.to_nat r) v m) (S (Z.to_nat r)) false)).
Proof.
  intros Hb Hr Hv. unfold HUSB238_WriteReg. apply with_bus; [done|]. rewrite (u8_small r), (u8_small v) by done.
  by rewrite (sent _ _ _ _ _ _ _ _ _ (both_written I2C_ADDR ltac:(done) react m ptr held r v Hr Hv)).
Qed.
End with_chip.

Section lines.
Context {W1 W2 : Type} `{TwoWire W1} `{TwoWire W2} (R : W1 → W2 → Prop) (sem_bits task_id sem junk : Z) (slices : list sem_slice).
Context (Htransfer : ∀ oper addr p size, simulates R (tw_transfer oper addr p size) (tw_transfer oper addr p size)).

Ltac follow_bus := repeat (follow; try (apply sim_on_snd, Htransfer)).

Lemma sim_read_reg r : simulates (beside R) (HUSB238_ReadReg sem_bits task_id sem junk slices r) (HUSB238_ReadReg sem_bits task_id sem junk slices r).
Proof. unfold HUSB238_ReadReg, with_sem, bus_lock, bus_release. follow_bus. Qed.
Lemma sim_write_reg r v : simulates (beside R) (HUSB238_WriteReg sem_bits task_id sem slices r v) (HUSB238_WriteReg sem_bits task_id sem slices r v).
Proof. unfold HUSB238_WriteReg, with_sem, bus_lock, bus_release. follow_bus. Qed.
Lemma sim_contract :
  simulates (beside R) (HUSB238_GetCurrentContract sem_bits task_id sem junk slices) (HUSB238_GetCurrentContract sem_bits task_id sem junk slices).
Proof. unfold HUSB238_GetCurrentContract. follow; try apply sim_read_reg; follow; try apply sim_read_reg; follow. Qed.
End lines.

(** ** What the driver guarantees *)

(** The fields of the two status registers. *)
Definition all_volts : list husb328_volts := [HUSB_VOLTS_UNKNOWN; HUSB_VOLTS_5V; HUSB_VOLTS_9V; HUSB_VOLTS_12V; HUSB_VOLTS_15V; HUSB_VOLTS_18V; HUSB_VOLTS_20V].
Definition all_amps : list husb328_amps :=
  [HUSB_AMPS_0A5; HUSB_AMPS_0A7; HUSB_AMPS_1A; HUSB_AMPS_1A25; HUSB_AMPS_1A5; HUSB_AMPS_1A75; HUSB_AMPS_2A; HUSB_AMPS_2A25;
   HUSB_AMPS_2A5; HUSB_AMPS_2A75; HUSB_AMPS_3A; HUSB_AMPS_3A25; HUSB_AMPS_3A5; HUSB_AMPS_4A; HUSB_AMPS_4A5; HUSB_AMPS_5A].

Definition contract_of_fields (status0 status1 : Z) : husb328_volts * husb328_amps :=
  let attached := Z.testbit status1 6 in let response := status1 / 8 mod 8 in let legacy := Z.testbit status1 2 in
  if attached && (response =? 1) then
    if legacy then (HUSB_VOLTS_5V, nth (Z.to_nat (status1 mod 4)) [HUSB_AMPS_UNKNOWN; HUSB_AMPS_1A5; HUSB_AMPS_2A25; HUSB_AMPS_3A] HUSB_AMPS_UNKNOWN)
    else (nth (Z.to_nat (status0 / 16)) all_volts HUSB_VOLTS_UNKNOWN, nth (Z.to_nat (status0 mod 16)) all_amps HUSB_AMPS_UNKNOWN)
  else (HUSB_VOLTS_UNKNOWN, HUSB_AMPS_UNKNOWN).

#[export] Instance volts_eq_dec : EqDecision husb328_volts.
Proof. solve_decision. Defined.
#[export] Instance amps_eq_dec : EqDecision husb328_amps.
Proof. solve_decision. Defined.

Lemma contract_fields s0 s1 : is_u8 s0 → is_u8 s1 → contract s0 s1 = contract_of_fields s0 s1.
Proof.
  intros H0 H1.
  assert (forallb (λ s1, forallb (λ s0, bool_decide (contract s0 s1 = contract_of_fields s0 s1)) (Z.of_nat <$> seq 0 256)) (Z.of_nat <$> seq 0 256) = true) as H.
  { vm_compute. reflexivity. }
  pose proof (all_bytes _ H s1 H1) as E. pose proof (all_bytes _ E s0 H0) as E0. by apply bool_decide_eq_true in E0.
Qed.

Section claims.
Context (sem_bits task_id sem junk : Z) (slices : list sem_slice) (scl_polls : bus regs → list (Z * bool)) (bus_junk : Z).

Definition Contract_lines := @HUSB238_GetCurrentContract _ (lines_bus scl_polls bus_junk) sem_bits task_id sem junk slices.

(** the contract that is reported, over the two lines, is that of the fields of
    the two status registers of the chip, whatever they hold. *)
Theorem husb238_contract bd b react m ptr held s0 s1 :
  (∀ b : bus regs, stretch SWI2C_TIMEOUT (scl_polls b) = Ok EOK) → board_free sem slices bd →
  lines_of b (regs_at I2C_ADDR react m ptr held) → Forall is_u8 m → m !! 0%nat = Some s0 → m !! 1%nat = Some s1 →
  ∃ b', Contract_lines (bd, b) = Ok ((EOK, Some (contract_of_fields s0 s1)), (bd, b')).
Proof.
  intros Hst Hbd Hb Hm H0 H1.
  assert (HUSB238_GetCurrentContract sem_bits task_id sem junk slices (bd, regs_at I2C_ADDR react m ptr held) =
    Ok ((EOK, Some (contract_of_fields s0 s1)), (bd, regs_at I2C_ADDR react m 2 false))) as E.
  { unfold HUSB238_GetCurrentContract.
    rewrite (prog_bind_Ok _ _ _ _ _ (reg_read sem_bits task_id sem junk slices react bd m ptr held REGADDR_PD_STATUS0 s0 Hbd Hm ltac:(done) H0)).
    change (EOK <=? EOK) with true. cbv beta iota.
    rewrite (prog_bind_Ok _ _ _ _ _ (reg_read sem_bits task_id sem junk slices react bd m _ _ REGADDR_PD_STATUS1 s1 Hbd Hm ltac:(done) H1)).
    change (EOK <? EOK) with false. cbv beta iota. rewrite Forall_lookup in Hm. by rewrite contract_fields by (by eapply Hm). }
  assert (beside lines_of (bd, b) (bd, regs_at I2C_ADDR react m ptr held)) as HR by done.
  assert (∀ oper addr p size, simulates lines_of (@tw_transfer _ (lines_bus scl_polls bus_junk) oper addr p size) (tw_transfer oper addr p size)) as Hsim
    by (intros; by apply lines_carry_bytes).
  destruct (@sim_contract _ _ (lines_bus scl_polls bus_junk) _ lines_of sem_bits task_id sem junk slices Hsim _ _ _ _ HR E) as ([bd' b'] & F & [Ed _]).
  cbn in Ed. subst bd'. by exists b'.
Qed.
End claims.

(** ** Concrete inputs *)

Definition quick_polls : bus regs → list (Z * bool) := λ _, [(0, true)].
Definition pd_board : board := mk_board {[10 := 0]} [].
Definition pd_turn : list sem_slice := [mk_sem_slice 0 (λ m, m)].
Definition pd_lines (code s0 s1 : Z) : bus regs := free (mk_regs code plain ([s0; s1] ++ replicate 8 0) 0 ROff).

(** Nine volts and two amperes. *)
Example nine_volts :
  ('(r, _) ← Contract_lines 8 2 10 77 pd_turn quick_polls 77 (pd_board, pd_lines I2C_ADDR 0x26 0x48); Ok r) = Ok (EOK, Some (HUSB_VOLTS_9V, HUSB_AMPS_2A)).
Proof. vm_compute. reflexivity. Qed.

(** A source of 2.4 amperes counts as one of 2.25. *)
Example less_than_offered :
  ('(r, _) ← Contract_lines 8 2 10 77 pd_turn quick_polls 77 (pd_board, pd_lines I2C_ADDR 0 0x4e); Ok r) = Ok (EOK, Some (HUSB_VOLTS_5V, HUSB_AMPS_2A25)).
Proof. vm_compute. reflexivity. Qed.

Example no_chip : ('(r, _) ← Contract_lines 8 2 10 77 pd_turn quick_polls 77 (pd_board, pd_lines 9 0x26 0x48); Ok r) = Ok (EI2C_ADDR, None).
Proof. vm_compute. reflexivity. Qed.

(** The command that resets the chip. *)
Example chip_reset :
  ('(ec, (_, b)) ← @HUSB238_DevInit _ (lines_bus quick_polls 77) 8 2 10 pd_turn (pd_board, pd_lines I2C_ADDR 0 0); Ok (ec, rg_mem (bs_dev b) !! 9%nat)) =
  Ok (EOK, Some REG_GO_COMMAND_COMMAND_FUNC_HARD_RESET).
Proof. vm_compute. reflexivity. Qed.

Lemma husb238_contract_witness :
  ∃ b', Contract_lines 8 2 10 77 pd_turn quick_polls 77 (pd_board, pd_lines I2C_ADDR 0x6f 0x48) = Ok ((EOK, Some (HUSB_VOLTS_20V, HUSB_AMPS_5A)), (pd_board, b')).
Proof.
  destruct (husb238_contract 8 2 10 77 pd_turn quick_polls 77 pd_board (pd_lines I2C_ADDR 0x6f 0x48) plain ([0x6f; 0x48] ++ replicate 8 0) 0 false 0x6f 0x48) as (b' & E).
  - done.
  - done.
  - by repeat split.
  - by repeat constructor.
  - done.
  - done.
  - exists b'. exact E.
Defined.
