(* ===== verification/Aip650e.v ===== *)
(** * The display and keys (dev/src/aip650e.c, dev/aip650e.h)

    The driver over any two-wire bus of a chip that has no address of its own: the
    address is the command, of which one byte of data is written or read. *)
From S2P Require Import Prelude Words Time Sem Stream Swi2c TwoWire RegChip.

Definition AIP650E_CMD_WRITE_DATA_DIG1 : Z := Z.shiftr 0x68 1.
Definition AIP650E_CMD_WRITE_DATA_DIG2 : Z := Z.shiftr 0x6a 1.
Definition AIP650E_CMD_WRITE_DATA_DIG3 : Z := Z.shiftr 0x6c 1.
Definition AIP650E_CMD_WRITE_DATA_DIG4 : Z := Z.shiftr 0x6e 1.
Definition AIP650E_CMD_SET_PARAM : Z := Z.shiftr 0x48 1.
Definition AIP650E_CMD_GET_KEY : Z := Z.shiftr 0x49 1.

Inductive aip650e_digit := AIP650E_DIGIT_1 | AIP650E_DIGIT_2 | AIP650E_DIGIT_3 | AIP650E_DIGIT_4.
Inductive aip650e_key :=
  AIP650E_KEY_1 | AIP650E_KEY_2 | AIP650E_KEY_3 | AIP650E_KEY_4 | AIP650E_KEY_5 | AIP650E_KEY_6 | AIP650E_KEY_7 | AIP650E_KEY_1_2.
Definition AIP650E_SEGMENT_NONE : Z := 0.
Definition AIP650E_CFG_DISPLAY_OFF : Z := 0.

Section driver.
Context {W : Type} `{TwoWire W} (sem_bits task_id sem : Z) (slices : list sem_slice).

(** [with_sem] around a transfer. *)
Definition locked_transfer (oper addr : Z) (p : list Z) (size : nat) : prog (board * W) (Z * list Z) :=
  rc ← bus_lock sem_bits task_id sem slices 0;
  r ← (if 0 <? rc + 1 then on_snd (tw_transfer oper addr p size) else mret (EOK, []));
  _ ← bus_release sem_bits sem; mret r.

Definition AIP650E_Configure (cfg : Z) : prog (board * W) Z :=
  '(ec, _) ← locked_transfer OPER_WRITE_STOP AIP650E_CMD_SET_PARAM [u8 cfg] 0; mret ec.

Definition key_digit (b : Z) : aip650e_digit :=
  let d := Z.land b 0x3 in
  if d =? 0 then AIP650E_DIGIT_1 else if d =? 1 then AIP650E_DIGIT_2 else if d =? 2 then AIP650E_DIGIT_3 else AIP650E_DIGIT_4.
Definition key_pressed (b : Z) : aip650e_key :=
  let k := Z.land (Z.shiftr b 3) 0x7 in
  if k =? 0 then AIP650E_KEY_1 else if k =? 1 then AIP650E_KEY_2 else if k =? 2 then AIP650E_KEY_3 else if k =? 3 then AIP650E_KEY_4
  else if k =? 4 then AIP650E_KEY_5 else if k =? 5 then AIP650E_KEY_6 else if k =? 6 then AIP650E_KEY_7 else AIP650E_KEY_1_2.

(** The code, and the digit and the key when there is one. *)
Definition AIP650E_ReadKeys : prog (board * W) (Z * option (aip650e_digit * aip650e_key)) :=
  '(ec, bs) ← locked_transfer OPER_READ_STOP AIP650E_CMD_GET_KEY [] 1;
  if ec <? EOK then mret (ec, None)
  else
    let b := hd 0 bs in
    if negb (Z.land b 0xc4 =? 0x44) then mret (EFATAL, None) else mret (ec, Some (key_digit b, key_pressed b)).

Definition AIP650E_SetSegments (digit : aip650e_digit) (segments : Z) : prog (board * W) Z :=
  let addr := match digit with
    | AIP650E_DIGIT_1 => AIP650E_CMD_WRITE_DATA_DIG1 | AIP650E_DIGIT_2 => AIP650E_CMD_WRITE_DATA_DIG2
    | AIP650E_DIGIT_3 => AIP650E_CMD_WRITE_DATA_DIG3 | AIP650E_DIGIT_4 => AIP650E_CMD_WRITE_DATA_DIG4 end in
  if negb (u8 segments =? segments) then mret EARGVAL
  else '(ec, _) ← locked_transfer OPER_WRITE_STOP addr [u8 segments] 0; mret ec.

Definition AIP650E_DevInit : prog (board * W) Z :=
  ec ← AIP650E_Configure AIP650E_CFG_DISPLAY_OFF;
  ec ← (if ec =? EOK then AIP650E_SetSegments AIP650E_DIGIT_1 AIP650E_SEGMENT_NONE else mret ec);
  ec ← (if ec =? EOK then AIP650E_SetSegments AIP650E_DIGIT_2 AIP650E_SEGMENT_NONE else mret ec);
  ec ← (if ec =? EOK then AIP650E_SetSegments AIP650E_DIGIT_3 AIP650E_SEGMENT_NONE else mret ec);
  if ec =? EOK then AIP650E_SetSegments AIP650E_DIGIT_4 AIP650E_SEGMENT_NONE else mret ec.
End driver.

(** ** The chip *)

(** What it shows, how it is set, the key byte it gives; the command it has taken. *)
Record panel := mk_panel { pn_digits : list Z; pn_config : Z; pn_key : Z; pn_command : option Z }.

(** The digit a command is for. *)
Definition command_digit (b : Z) : option nat := if (0x68 <=? b) && (b <=? 0x6e) && Z.even b then Some (Z.to_nat ((b - 0x68) / 2)) else None.

Definition panel_take (d : panel) (b : Z) : bool * panel :=
  match pn_command d with
  | None => (bool_decide (b = 0x48) || bool_decide (b = 0x49) || bool_decide (is_Some (command_digit b)), mk_panel (pn_digits d) (pn_config d) (pn_key d) (Some b))
  | Some c =>
      match command_digit c with
      | Some i => (true, mk_panel (<[i := b]> (pn_digits d)) (pn_config d) (pn_key d) (Some c))
      | None => if c =? 0x48 then (true, mk_panel (pn_digits d) b (pn_key d) (Some c)) else (false, d)
      end
  end.

#[export] Instance panel_device : I2CDevice panel := {|
  dev_start d := mk_panel (pn_digits d) (pn_config d) (pn_key d) None;
  dev_take := panel_take;
  dev_give d := pn_key d;
  dev_given d more := d;
  dev_stop d := mk_panel (pn_digits d) (pn_config d) (pn_key d) None |}.

(** ** With the chip, and over the lines *)

Definition digit_index (d : aip650e_digit) : nat :=
  match d with AIP650E_DIGIT_1 => 0 | AIP650E_DIGIT_2 => 1 | AIP650E_DIGIT_3 => 2 | AIP650E_DIGIT_4 => 3 end.
Definition key_index (k : aip650e_key) : Z :=
  match k with
  | AIP650E_KEY_1 => 0 | AIP650E_KEY_2 => 1 | AIP650E_KEY_3 => 2 | AIP650E_KEY_4 => 3
  | AIP650E_KEY_5 => 4 | AIP650E_KEY_6 => 5 | AIP650E_KEY_7 => 6 | AIP650E_KEY_1_2 => 7
  end.

(** The byte the chip gives for a key of a digit. *)
Definition key_byte (d : aip650e_digit) (k : aip650e_key) : Z := 0x44 + digit_index d + 8 * key_index k.

Section with_panel.
Context (sem_bits task_id sem : Z) (slices : list sem_slice).

Definition panel_at (ds : list Z) (cfg key : Z) (held : bool) : bytes panel := mk_bytes (mk_panel ds cfg key None) held.

Lemma locked_ok b s s' oper addr p size r :
  board_free sem slices b → tw_transfer oper addr p size s = Ok (r, s') →
  locked_transfer sem_bits task_id sem slices oper addr p size (b, s) = Ok (r, (b, s' : bytes panel)).
Proof.
  intros Hb E. unfold locked_transfer. rewrite bus_locked by done. change (0 <? EOK + 1) with true. cbv iota. rewrite (sent _ _ _ _ _ _ _ _ _ E).
  by rewrite bus_released by apply Hb.
Qed.

Lemma digit_sent b ds cfg key held d s :
  board_free sem slices b → is_u8 s →
  AIP650E_SetSegments sem_bits task_id sem slices d s (b, panel_at ds cfg key held) = Ok (EOK, (b, panel_at (<[digit_index d := s]> ds) cfg key false)).
Proof.
  intros Hb Hs. unfold AIP650E_SetSegments. rewrite (u8_small s), Z.eqb_refl by done. cbv zeta.
  assert (∀ i : nat, (i < 4)%nat → tw_transfer OPER_WRITE_STOP (0x34 + i) [s] 0 (panel_at ds cfg key held) =
    Ok ((EOK, []), panel_at (<[i := s]> ds) cfg key false)) as E.
  { intros i Hi. cbn [tw_transfer bytes_bus]. unfold bytes_transfer.
    rewrite bool_decide_true by (split; [lia|by repeat (constructor; [done|])]). do 4 (destruct i as [|i]; [by vm_compute|]). lia. }
  destruct d.
  - exact (prog_bind_Ok _ _ _ _ _ (locked_ok _ _ _ _ _ _ _ _ Hb (E 0%nat ltac:(lia)))).
  - exact (prog_bind_Ok _ _ _ _ _ (locked_ok _ _ _ _ _ _ _ _ Hb (E 1%nat ltac:(lia)))).
  - exact (prog_bind_Ok _ _ _ _ _ (locked_ok _ _ _ _ _ _ _ _ Hb (E 2%nat ltac:(lia)))).
  - exact (prog_bind_Ok _ _ _ _ _ (locked_ok _ _ _ _ _ _ _ _ Hb (E 3%nat ltac:(lia)))).
Qed.

Lemma configured b ds cfg key held c :
  board_free sem slices b → is_u8 c →
  AIP650E_Configure sem_bits task_id sem slices c (b, panel_at ds cfg key held) = Ok (EOK, (b, panel_at ds c key false)).
Proof.
  intros Hb Hc. unfold AIP650E_Configure. rewrite u8_small by done.
  assert (tw_transfer OPER_WRITE_STOP AIP650E_CMD_SET_PARAM [c] 0 (panel_at ds cfg key held) = Ok ((EOK, []), panel_at ds c key false)) as E.
  { cbn [tw_transfer bytes_bus]. unfold bytes_transfer. by rewrite bool_decide_true by (split; [done|by repeat (constructor; [done|])]). }
  by rewrite (prog_bind_Ok _ _ _ _ _ (locked_ok _ _ _ _ _ _ _ _ Hb E)).
Qed.

Lemma keys_read b ds cfg held d k :
  board_free sem slices b →
  AIP650E_ReadKeys sem_bits task_id sem slices (b, panel_at ds cfg (key_byte d k) held) = Ok ((EOK, Some (d, k)), (b, panel_at ds cfg (key_byte d k) false)).
Proof.
  intros Hb. unfold AIP650E_ReadKeys.
  assert (tw_transfer OPER_READ_STOP AIP650E_CMD_GET_KEY [] 1 (panel_at ds cfg (key_byte d k) held) = Ok ((EOK, [key_byte d k]), panel_at ds cfg (key_byte d k) false)) as E.
  { cbn [tw_transfer bytes_bus]. unfold bytes_transfer. rewrite bool_decide_true by (split; [done|by constructor]). by destruct d, k. }
  rewrite (prog_bind_Ok _ _ _ _ _ (locked_ok _ _ _ _ _ _ _ _ Hb E)). change (EOK <? EOK) with false. cbv beta iota zeta. cbn [hd].
  by destruct d, k.
Qed.
End with_panel.

Section lines.
Context {W1 W2 : Type} `{TwoWire W1} `{TwoWire W2} (R : W1 → W2 → Prop) (sem_bits task_id sem : Z) (slices : list sem_slice).
Context (Htransfer : ∀ oper addr p size, simulates R (tw_transfer oper addr p size) (tw_transfer oper addr p size)).

Lemma sim_locked oper addr p size :
  simulates (beside R) (locked_transfer sem_bits task_id sem slices oper addr p size) (locked_transfer sem_bits task_id sem slices oper addr p size).
Proof. unfold locked_transfer, bus_lock, bus_release. follow; apply sim_on_snd, Htransfer. Qed.
Lemma sim_keys : simulates (beside R) (AIP650E_ReadKeys sem_bits task_id sem slices) (AIP650E_ReadKeys sem_bits task_id sem slices).
Proof. unfold AIP650E_ReadKeys. follow; [apply sim_locked|follow..]. Qed.
Lemma sim_segments d s : simulates (beside R) (AIP650E_SetSegments sem_bits task_id sem slices d s) (AIP650E_SetSegments sem_bits task_id sem slices d s).
Proof. unfold AIP650E_SetSegments. follow; [apply sim_locked|follow..]. Qed.
Lemma sim_init : simulates (beside R) (AIP650E_DevInit sem_bits task_id sem slices) (AIP650E_DevInit sem_bits task_id sem slices).
Proof. unfold AIP650E_DevInit, AIP650E_Configure. follow; try apply sim_segments; follow; apply sim_locked. Qed.
End lines.

(** ** What the driver guarantees *)

Section claims.
Context (sem_bits task_id sem : Z) (slices : list sem_slice) (scl_polls : bus panel → list (Z * bool)) (junk : Z).
Context (Hst : ∀ b : bus panel, stretch SWI2C_TIMEOUT (scl_polls b) = Ok EOK).

Definition Keys_lines := @AIP650E_ReadKeys _ (lines_bus scl_polls junk) sem_bits task_id sem slices.
Definition Segments_lines := @AIP650E_SetSegments _ (lines_bus scl_polls junk) sem_bits task_id sem slices.
Definition Init_lines := @AIP650E_DevInit _ (lines_bus scl_polls junk) sem_bits task_id sem slices.

Lemma panel_transfers oper addr p size :
  simulates lines_of (@tw_transfer _ (lines_bus scl_polls junk) oper addr p size) (tw_transfer oper addr p size).
Proof. by apply lines_carry_bytes. Qed.

(** every key of every digit is read as what the chip has for it. *)
Theorem aip650e_keys bd b ds cfg held d k :
  board_free sem slices bd → lines_of b (panel_at ds cfg (key_byte d k) held) →
  ∃ b', Keys_lines (bd, b) = Ok ((EOK, Some (d, k)), (bd, b')).
Proof.
  intros Hbd Hb. assert (beside lines_of (bd, b) (bd, panel_at ds cfg (key_byte d k) held)) as HR by done.
  destruct (@sim_keys _ _ (lines_bus scl_polls junk) _ lines_of sem_bits task_id sem slices panel_transfers _ _ _ _ HR
    (keys_read sem_bits task_id sem slices bd ds cfg held d k Hbd)) as ([bd' b'] & F & [Ed _]). cbn in Ed. subst bd'. by exists b'.
Qed.

(** segments that fit into a byte are shown by their digit and no other digit
    changes; others are refused and nothing is sent. *)
Theorem aip650e_segments bd b ds cfg key held d s :
  board_free sem slices bd → lines_of b (panel_at ds cfg key held) →
  ∃ b', Segments_lines d s (bd, b) = Ok (if decide (is_u8 s) then EOK else EARGVAL, (bd, b')) ∧
    pn_digits (bs_dev b') = (if decide (is_u8 s) then <[digit_index d := s]> ds else ds) ∧ pn_config (bs_dev b') = cfg.
Proof.
  intros Hbd Hb. destruct (decide (is_u8 s)) as [Hs|Hs].
  - assert (beside lines_of (bd, b) (bd, panel_at ds cfg key held)) as HR by done.
    destruct (@sim_segments _ _ (lines_bus scl_polls junk) _ lines_of sem_bits task_id sem slices panel_transfers d s _ _ _ _ HR
      (digit_sent sem_bits task_id sem slices bd ds cfg key held d s Hbd Hs)) as ([bd' b'] & F & [Ed (Hd & _)]). cbn in Ed, Hd. subst bd'.
    exists b'. split; [exact F|]. by rewrite Hd.
  - exists b. split; [|by destruct Hb as (-> & _)]. unfold Segments_lines, AIP650E_SetSegments.
    destruct (Z.eqb_spec (u8 s) s) as [E|E]; [|done]. destruct Hs. rewrite <- E. apply u8_range.
Qed.

(** setting the chip up leaves a dark display, whatever it showed. *)
Theorem aip650e_dark bd b d1 d2 d3 d4 cfg key held :
  board_free sem slices bd → lines_of b (panel_at [d1; d2; d3; d4] cfg key held) →
  ∃ b', Init_lines (bd, b) = Ok (EOK, (bd, b')) ∧ pn_digits (bs_dev b') = [0; 0; 0; 0] ∧ pn_config (bs_dev b') = AIP650E_CFG_DISPLAY_OFF.
Proof.
  intros Hbd Hb. assert (beside lines_of (bd, b) (bd, panel_at [d1; d2; d3; d4] cfg key held)) as HR by done.
  assert (AIP650E_DevInit sem_bits task_id sem slices (bd, panel_at [d1; d2; d3; d4] cfg key held) = Ok (EOK, (bd, panel_at [0; 0; 0; 0] 0 key false))) as E.
  { unfold AIP650E_DevInit. pose proof (λ ds cfg held d, digit_sent sem_bits task_id sem slices bd ds cfg key held d 0 Hbd ltac:(done)) as Hd.
    rewrite (prog_bind_Ok _ _ _ _ _ (configured sem_bits task_id sem slices bd _ cfg key held 0 Hbd ltac:(done))).
    do 3 (change (EOK =? EOK) with true; cbv iota; rewrite (prog_bind_Ok _ _ _ _ _ (Hd _ _ _ _))).
    change (EOK =? EOK) with true. cbv iota. by rewrite Hd. }
  destruct (@sim_init _ _ (lines_bus scl_polls junk) _ lines_of sem_bits task_id sem slices panel_transfers _ _ _ _ HR E) as ([bd' b'] & F & [Ed (Hd & _)]).
  cbn in Ed, Hd. subst bd'. exists b'. split; [exact F|]. by rewrite Hd.
Qed.
End claims.

(** ** Concrete inputs *)

Definition no_hold_panel : bus panel → list (Z * bool) := λ _, [(0, true)].
Definition panel_board : board := mk_board {[10 := 0]} [].
Definition panel_turn : list sem_slice := [mk_sem_slice 0 (λ m, m)].
Definition panel_lines (key : Z) : bus panel := free (mk_panel [1; 2; 3; 4] 0x11 key None).

(** Without a key the chip gives a byte of another form. *)
Example no_key : ('(r, _) ← Keys_lines 8 2 10 panel_turn no_hold_panel 77 (panel_board, panel_lines 0x2e); Ok r) = Ok (EFATAL, None).
Proof. vm_compute. reflexivity. Qed.

Lemma aip650e_keys_witness :
  ∃ b', Keys_lines 8 2 10 panel_turn no_hold_panel 77 (panel_board, panel_lines 0x76) = Ok ((EOK, Some (AIP650E_DIGIT_3, AIP650E_KEY_7)), (panel_board, b')).
Proof. apply (aip650e_keys 8 2 10 panel_turn no_hold_panel 77 ltac:(done) panel_board (panel_lines 0x76) [1; 2; 3; 4] 0x11 false AIP650E_DIGIT_3 AIP650E_KEY_7); [done|by repeat split]. Defined.

Lemma aip650e_segments_witness :
  ∃ b', Segments_lines 8 2 10 panel_turn no_hold_panel 77 AIP650E_DIGIT_2 0x3f (panel_board, panel_lines 0) = Ok (EOK, (panel_board, b')) ∧
    pn_digits (bs_dev b') = [1; 0x3f; 3; 4].
Proof.
  destruct (aip650e_segments 8 2 10 panel_turn no_hold_panel 77 ltac:(done) panel_board (panel_lines 0) [1; 2; 3; 4] 0x11 0 false AIP650E_DIGIT_2 0x3f) as (b' & E & Ed & _).
  - done.
  - by repeat split.
  - exists b'. split; [exact E|exact Ed].
Defined.

Lemma aip650e_dark_witness :
  ∃ b', Init_lines 8 2 10 panel_turn no_hold_panel 77 (panel_board, panel_lines 0) = Ok (EOK, (panel_board, b')) ∧ pn_digits (bs_dev b') = [0; 0; 0; 0].
Proof.
  destruct (aip650e_dark 8 2 10 panel_turn no_hold_panel 77 ltac:(done) panel_board (panel_lines 0) 1 2 3 4 0x11 0 false) as (b' & E & Ed & _).
  - done.
  - by repeat split.
  - exists b'. split; [exact E|exact Ed].
Defined.
